(* ===== verification/_CoqProject ===== *)
-Q . S2P
Prelude.v
Mem.v
Page.v
PageAdd.v
PageIndex.v
PageCompact.v
Checksum.v
PageSpec.v
Buffer.v
Pglz.v
WalRecord.v
XLogInsert.v
XLogDecode.v
XLogSpec.v
HeapTuple.v
HeapRedo.v
Resident.v
HeapRefine.v
HeapReplay.v
HeapSpec.v
TagList.v
Btree.v
BtreePage.v
BtreePosting.v
BtreeRedo.v
BtreeSplit.v
BtreeInsert.v
IndexPage.v
BtreeSpec.v
Brin.v
Gist.v
GistSpec.v
BrinSpec.v
Hash.v
HashRedo.v
HashLayout.v
HashMeta.v
HashSearch.v
HashSpec.v
GinPosting.v
Gin.v
GinRedo.v
GinLeaf.v
GinTree.v
GinSpec.v
Spg.v
SpgRedo.v
SpgPage.v
SpgVacuum.v
SpgInsert.v
SpgSpec.v
SpgPick.v
KvStore.v
KvSpec.v
VersionMap.v
VersionNode.v
VersionBucket.v
VersionSpec.v
RedoPipe.v
StorageServer.v
Dispatch.v
WalRedo.v
WalRedoSpec.v
PageServer.v
PageCollect.v
PageServerSpec.v
PageBackground.v
PageRedo.v
RelCache.v
RelCacheSpec.v
Replica.v
TagIndexed.v
IndexTags.v
TagSpec.v
LogIndex.v
LogIndexRep.v
LogIndexOps.v
LogIndexSpec.v
