(* ===== verification/Prelude.v ===== *)
(** * GroundDB storage engine: a verification development

    GroundDB is a fork of PostgreSQL 13 in which computing nodes write
    write-ahead log (WAL) records and storage nodes materialise pages from
    them.  A record is entered, under the tag of every page it changes, in a
    log index; a page is brought up to date by replaying, for that page only,
    the records entered under its tag.  The storage server keeps the positions
    of the records of each page in a version map, the last version of each page
    it was asked for in a key-value store, and has WAL-redo processes replay the
    records in between.  A replica replays each record for those of its pages that
    are in its buffer pool.  This library models that path from the writing of a
    record to the answer to a request for a page, and proves what makes it
    correct.

    ** The parts of the program and the files

    Bytes and pages (src/backend/storage/page/bufpage.c, src/include/storage):
    - [Mem]: blocks of bytes, little-endian fields, reads and writes;
    - [Page]: the page header, line pointers and their macros; the invariant
      [page_wf] and the abstract view [page_slots], the list of the slots of
      a page, against which everything above is specified;
    - [PageAdd], [PageIndex], [PageCompact]: the operations of bufpage.c;
    - [Checksum]: checksum_impl.h, [PageIsVerified], [PageSetChecksum*];
    - [PageSpec]: the theorems of this layer.

    WAL records (src/backend/access/transam, src/common/pg_lzcompress.c):
    - [Pglz]: the compressor with its history table, the decompressor, and
      their theorems;
    - [XLogInsert]: the working area of xloginsert.c and [XLogRecordAssemble];
    - [XLogDecode]: [DecodeXLogRecord] of xlogreader.c;
    - [WalRecord]: the decoded record, the restoring of page images, and
      [XLogReadBufferForRedoExtended] of xlogutils.c;
    - [XLogSpec]: the theorems of this layer.

    Database state ([Buffer]): relation files as lists of blocks, the buffer
    pool as a map from tags to pages, the table of references to missing pages
    (xlogutils.c), the lookups of visibilitymap.c.  A Buffer is the tag of the
    block it holds.  Locks, pins and the replacement of buffers are left out,
    except in [Replica], which counts pins.

    Replay by log index (src/backend/access/logindex):
    - [HeapTuple], [HeapRedo]: tuple headers and heap_xlog_idx.c, with
      [HeapRefine] and [HeapReplay] (what a handler does to its page and to
      the state) and the theorems in [HeapSpec];
    - [Resident]: the lookup of a page that is in the buffer pool;
    - [Btree], [BtreeRedo]: nbtree pages, posting lists and nbtxlog_idx.c, with
      [BtreePage], [BtreePosting], [BtreeSplit], [BtreeInsert] and the theorems
      in [BtreeSpec];
    - [TagList]: the pages of a record for XLOG, heap, heap2, sequence and
      generic records, and the redo of XLOG, sequence and generic records;
    - [Brin]: brin_xlog_idx.c, with the theorem in [BrinSpec];
    - [Gist]: gist_xlog_idx.c, with the theorem in [GistSpec];
    - [Hash], [HashRedo]: the pages of hash indexes (src/backend/access/hash)
      and hash_xlog_idx.c, with [HashLayout] (buckets, blocks and splits),
      [HashMeta] (the meta page as bytes), [HashSearch] (keys of a page) and
      the theorems in [HashSpec];
    - [GinPosting]: the compressed posting lists of ginpostinglist.c;
    - [Gin], [GinRedo]: the pages of GIN indexes, the redo routines of ginxlog.c
      and gin_xlog_idx.c, with [GinLeaf] (a leaf page as a list of segments),
      [GinTree] (an internal page as a list of items) and the theorems in
      [GinSpec];
    - [Spg], [SpgRedo]: the pages and tuples of SP-GiST indexes (spgutils.c,
      spgdoinsert.c, spgxlog.c) and spgxlog_idx.c, with [SpgPage] (a page as a
      list of tuples with its two counters), [SpgInsert] and [SpgVacuum] (what
      the handlers do to such a page) and the theorems in [SpgSpec] and
      [SpgPick];
    - [IndexPage]: index pages as lists of items, and the room they have; the
      lemmas the SP-GiST files share;
    - [Dispatch]: logindex_func.c over a table of resource managers;
    - [Replica]: the branch of StartupXLOG (xlog.c) that replays a record on a
      replica, for the pages in its buffer pool, and its theorems;
    - [TagIndexed], [IndexTags]: the class [LogIndexed], which is the promise
      of a resource manager to the log index, and its instances;
      [TagSpec] has the theorems;
    - [LogIndex]: the memory tables of polar_logindex.c, with [LogIndexRep]
      (the representation invariant), [LogIndexOps] (each operation keeps it)
      and the theorems in [LogIndexSpec].

    The storage server:
    - [RedoPipe]: messages, and the pipes between server and WAL-redo processes
      as lists of results of read and write;
    - [StorageServer], [WalRedo]: the requests of storage_server.c and the main
      loop and commands of wal_redo.c, with the theorems in [WalRedoSpec];
    - [KvStore]: kv_interface.c over a class of operations that stands for
      RocksDB, with the theorems in [KvSpec];
    - [VersionMap]: logindex_hashmap.cpp, heads as nodes of a store with their
      pointers, with [VersionNode] (the arrays of a head), [VersionBucket] (the
      linked list of a bucket) and the theorems in [VersionSpec];
    - [PageServer]: [ReadBufferCommon] of rpcserver.cpp, the recording of records
      by the startup process, and the background replay of
      background_hashmap_vacuumer.cpp, against the class [RedoService]; with
      [PageCollect] (what the background replay takes and frees), the theorems in
      [PageServerSpec] and [PageBackground], proved against [RedoPromise], and
      [PageRedo], which shows that the WAL-redo process of [WalRedo] keeps that
      promise for heap pages, and the end-to-end theorem;
    - [RelCache]: the relation size tables (rel_cache.c, builtin_shmht.cpp), the
      storage manager of a compute node (rpcmd.c) and the handlers of the server,
      against the class [RelService], with the theorems and the instance in
      [RelCacheSpec].

    ** How the code is modelled

    A C function that can fail is a function into [res], below: PANIC, ERROR,
    an access outside the object at hand, the use of a value that was never
    set, and the end of the fuel are different values.  Integers are in Z with
    their wrap-around written where the C type can overflow ([u16], [u32],
    [u64]).  State is passed explicitly.  Struct fields of pages and tuples are byte offsets; the C
    structures are those of a 64-bit little-endian build with 8 KB pages.
    Assertions are taken as absent, as in a production build, and where a
    theorem needs what one of them says it is a hypothesis.

    ** What the theorems show

    - Pages: every operation of bufpage.c, on a well-formed page, does to the
      slots what its contract says and keeps the page well formed, or raises
      the documented error; multi-deletion equals repeated deletion; a page
      with its checksum verifies.
    - Records: compression and decompression are inverse, and so are assembly and
      decoding of a record whose blocks have less than 65536 bytes of data each and
      whose main data is bounded; the full-page image in such a record restores the
      page; the working area keeps its bounds, but for two calls with a block id
      outside of the array.
    - Heap, B-tree, BRIN and GiST replay: what records do to their pages, item
      by item; that nothing else changes; that posting lists lose no heap TID; and
      when replay stops with PANIC.  For heap pages, that replay is idempotent and may
      be restarted (the LSN interlock): this is about pages of the main fork and
      records that change a page they find, with a reference without image, not about
      those that make a page anew ([heap_record], [touches]).
    - Hash indexes: buckets and overflow pages have disjoint blocks, and the
      free-page bitmap names the overflow pages; a split moves no page and only
      keys of the bucket that is split, and its replay gives the meta page of
      the node that split; pages stay in the order of hash keys.
    - GIN indexes: posting lists decode to what was compressed and do not grow
      when items are removed; replay on a leaf page, which rewrites it in place
      from a copy of its tail, gives the segments the actions of the record
      describe; internal pages get the new item and the redirected child.
    - SP-GiST indexes: no tuple changes its offset number when others are
      deleted, since dead tuples take their places; the counters of a page are
      always the numbers of its redirections and placeholders; after a move or
      a pick-split every leaf tuple is on exactly one page, and redirections and
      downlinks point to the tuple that was inserted for them.
    - Log index: a table is an append-only log with lookup by page, through
      all reachable additions; a record replayed for a page it was not entered
      under changes nothing, so no page is missing from the index, with the exception
      of two kinds of records whose replay ignores the page ([rec_ok]).  The macro that
      takes a table into use is not invoked anywhere, so that additions hang.
    - Replicas: replay changes only pages of the record that are in the pool;
      every replayed page keeps a pin, and records that need a cleanup lock
      fail for that reason.
    - WAL-redo processes: however the pipes split them, the commands of the input
      are executed one after the other; replay up to a position ends; for a heap page
      with plain records (as above), a request is answered with the page replay gives,
      and it does not matter how old the base version is as long as the positions since
      then are given.
    - Key-value store: the lists of positions, the page versions and the records
      under their printed keys are independent finite maps.
    - Version map: with its pointers, moves to the front and binary searches it is
      a finite map from pages to sorted positions, a replayed position and a lock.
    - Page server: a record is recorded exactly for its pages, the first record of a
      page included, and one that is not parsed is replayed at once; a request at a
      position that is not behind what is replayed is answered with the page after
      exactly the records up to it, and what happens to requests that go back is stated
      too; the background replay works ahead and frees nothing that is needed; so
      readers of a heap page with plain records, whose positions do not go back behind
      earlier requests or background visits, see the log.
    - Relation sizes: on the node that writes, three places that hold sizes behave
      as one map; on other nodes sizes may be wrong.
    - Errors found on the way are theorems too: loops that do not end, arrays
      that are overrun, tag lists written through a wrong pointer.  They are
      stated as what the code does on those inputs.

    ** Loops and fuel

    Loops over the line pointers, tuples and entries of a bounded array are
    structural in the number of remaining elements, which is computed from the
    same bound as in the code.  The outer loop of [pglz_decompress] has the
    length of the input as fuel (each turn reads a control byte), the copy of
    a match the length of the match (each turn copies at least one byte when
    the offset is positive), the loops of [pglz_compress] the length of the
    input and the size of the history; the round-trip theorem shows that all
    of them suffice, and a match with offset 0 is shown to exhaust any amount.
    [extend_loop] has the number of blocks that are missing.  The walk along a
    chain of the log index has the number of nodes of a table, which no chain
    exceeds ([chain_length]).  The search for a free table takes its fuel as an
    argument: the theorems about it hold for every amount, or for every amount
    from one turn on, and the one about non-termination for all.  The binary
    searches of a hash page have the number of its items, which [hash_binsearch]
    shows to suffice; the loops that add tuples to a page have the number of
    offset numbers, since every turn takes one.  Decoding a posting list has the
    number of its bytes for the items and for the segments, each of which takes
    a byte at least; the round-trip theorem shows that this suffices.
    [redo_until] has the distance to the position it is to reach, since every
    record ends behind its start ([apply_until_terminates]); the walk along a
    bucket of the version map the number of its nodes, and its binary search the
    length of the array ([version_map_refines] covers both), and the passes of the
    background replay over a bucket the number of its heads
    ([background_skips_heads]).  Loops over read and
    write take the results of the calls as a list: an exhausted list ([EFuel]) is
    a call that still waits, as is a call that waits for a lock ([EWait]).

    Numbers of type double (the tuple count of a hash index) are IEEE 754
    binary64 numbers of the Standard Library's specification of floats, stored
    as their 64 bits.

    ** Not modelled

    - Truncation of saved log-index tables: the file access it drives is
      commented out in the sources.
    - Of the storage server: the RPC transport and the file calls it passes on,
      the wait for the parser, the start of processes and their sandbox, the order
      and timing of the background threads, and interleavings finer than a section
      under a lock; in the buffer manager, the branch of a compute node that asks the
      server for a page.  RocksDB, PostgreSQL's own redo routines, the log as a function
      from positions to records and the control file are arguments.
    - Of hash indexes: scans, the relocation of tuples by a split, the search
      for a free overflow page, and vacuum.  Of GIN indexes: searching, the
      insertion that writes the records, and the clean-up of the pending list.
      Of SP-GiST indexes: insertion, scans and the operator classes.
    - The unmodified rest of PostgreSQL. *)

From Stdlib Require Export ZArith Lia.
From stdpp Require Export base numbers gmap list.

#[export] Set Default Goal Selector "!".
Global Open Scope Z_scope.

(** ** Outcomes of C code

    A C function that may leave through [elog(PANIC)], through
    [ereport(ERROR)], or that may touch memory outside the object it was
    given, is a function into [res].  [EOob] stands for an access outside the
    page (or array) at hand and [EUndef] for the use of a value that was never
    set, which in C are undefined behaviour; [EFuel] for a loop that did not
    finish within the fuel of its model. *)
Inductive err : Type :=
| EPanic
| EError
| EOob
| EUndef
| EFuel.

Inductive res (A : Type) : Type :=
| Ok (a : A)
| Err (e : err).
Arguments Ok {A} _.
Arguments Err {A} _.

#[export] Instance err_eq_dec : EqDecision err.
Proof. solve_decision. Defined.

#[export] Instance res_ret : MRet res := @Ok.
#[export] Instance res_bind : MBind res := fun A B f m =>
  match m with
  | Ok a => f a
  | Err e => Err e
  end.
#[export] Instance res_fmap : FMap res := fun A B f m =>
  match m with
  | Ok a => Ok (f a)
  | Err e => Err e
  end.

(** [req b e] is the guard [if (!b) <fail with e>]. *)
Definition req (b : bool) (e : err) : res unit := if b then Ok tt else Err e.

Definition is_ok {A} (m : res A) : bool :=
  match m with Ok _ => true | Err _ => false end.

Section res_lemmas.
Context {A B : Type}.
Implicit Types (m : res A) (f : A → res B).

Lemma bind_Ok_inv m f b : m ≫= f = Ok b → ∃ a, m = Ok a ∧ f a = Ok b.
Proof. destruct m as [a|e]; simpl; [eauto | discriminate]. Qed.

Lemma Ok_inj (a b : A) : Ok a = Ok b → a = b.
Proof. congruence. Qed.

Lemma req_Ok_inv (b : bool) e u : req b e = Ok u → b = true.
Proof. destruct b; [done | discriminate]. Qed.

Lemma req_true (b : bool) e : b = true → req b e = Ok tt.
Proof. by intros ->. Qed.
End res_lemmas.

(** Inversion of a successful run, one bind or guard at a time. *)
Ltac res_inv :=
  repeat match goal with
    | H : _ ≫= _ = Ok _ |- _ =>
        let a := fresh "a" in let H1 := fresh H in
        apply bind_Ok_inv in H as (a & H1 & H)
    | H : req _ _ = Ok _ |- _ => apply req_Ok_inv in H
    | H : mret _ = Ok _ |- _ => unfold mret, res_ret in H
    | H : Ok _ = Ok _ |- _ => apply Ok_inj in H
    | H : Err _ = Ok _ |- _ => discriminate H
    end.

(** ** Boolean tests and machine words *)

(** Turns the boolean comparisons of a model into propositions for [lia]. *)
Ltac b2p :=
  repeat match goal with
    | H : _ && _ = true |- _ => apply andb_true_iff in H as [? ?]
    | H : _ || _ = false |- _ => apply orb_false_iff in H as [? ?]
    | H : negb _ = true |- _ => apply negb_true_iff in H
    | H : negb _ = false |- _ => apply negb_false_iff in H
    | H : (_ <? _) = true |- _ => apply Z.ltb_lt in H
    | H : (_ <? _) = false |- _ => apply Z.ltb_ge in H
    | H : (_ <=? _) = true |- _ => apply Z.leb_le in H
    | H : (_ <=? _) = false |- _ => apply Z.leb_gt in H
    | H : (_ =? _) = true |- _ => apply Z.eqb_eq in H
    | H : (_ =? _) = false |- _ => apply Z.eqb_neq in H
    end.

(** Case analysis on every boolean comparison of the goal, closing the
    impossible branches by arithmetic. *)
Ltac zcase :=
  repeat match goal with
    | |- context [?a <? ?b] => destruct (Z.ltb_spec a b); try lia
    | |- context [?a <=? ?b] => destruct (Z.leb_spec a b); try lia
    | |- context [?a =? ?b] => destruct (Z.eqb_spec a b); try lia
    end.

(** Linear arithmetic with division and remainder by constants. *)
Ltac dlia := Z.to_euclidean_division_equations; lia.

Definition u8 (x : Z) : Z := x mod 2 ^ 8.
Definition u16 (x : Z) : Z := x mod 2 ^ 16.
Definition u32 (x : Z) : Z := x mod 2 ^ 32.
Definition u64 (x : Z) : Z := x mod 2 ^ 64.

Lemma u8_small x : 0 ≤ x < 256 → u8 x = x.
Proof. intros. by apply Z.mod_small. Qed.
Lemma u16_small x : 0 ≤ x < 65536 → u16 x = x.
Proof. intros. by apply Z.mod_small. Qed.
Lemma u32_small x : 0 ≤ x < 4294967296 → u32 x = x.
Proof. intros. by apply Z.mod_small. Qed.
Lemma u64_small x : 0 ≤ x < 18446744073709551616 → u64 x = x.
Proof. intros. by apply Z.mod_small. Qed.

(** A flag test [x & mask], used as a C condition. *)
Definition has_flag (x mask : Z) : bool := negb (Z.land x mask =? 0).

(** [x & ~mask] and [x | mask]. *)
Definition clear_flag (x mask : Z) : Z := Z.land x (Z.lnot mask).
Definition set_flag (x mask : Z) : Z := Z.lor x mask.

Lemma has_flag_set x m : m ≠ 0 → has_flag (set_flag x m) m = true.
Proof.
  intros Hm. unfold has_flag, set_flag.
  rewrite Z.land_comm, Z.lor_comm, Z.land_lor_distr_r.
  rewrite Z.land_diag. apply negb_true_iff, Z.eqb_neq.
  intros H. apply Z.lor_eq_0_l in H. done.
Qed.

Lemma has_flag_clear x m : has_flag (clear_flag x m) m = false.
Proof.
  unfold has_flag, clear_flag.
  by rewrite <-Z.land_assoc, (Z.land_comm (Z.lnot m)), Z.land_lnot_diag, Z.land_0_r.
Qed.

(** Bits other than those of [m] are not affected by setting or clearing [m]. *)
Lemma has_flag_set_other x m n :
  Z.land m n = 0 → has_flag (set_flag x m) n = has_flag x n.
Proof.
  intros Hd. unfold has_flag, set_flag.
  by rewrite Z.land_comm, Z.land_lor_distr_r, (Z.land_comm n m), Hd, Z.lor_0_r, Z.land_comm.
Qed.

Lemma has_flag_clear_other x m n :
  Z.land m n = 0 → has_flag (clear_flag x m) n = has_flag x n.
Proof.
  intros Hd. unfold has_flag, clear_flag. f_equal. f_equal.
  apply Z.bits_inj'. intros i Hi. rewrite !Z.land_spec, Z.lnot_spec by done.
  assert (Hb : Z.testbit (Z.land m n) i = false) by (by rewrite Hd, Z.bits_0).
  rewrite Z.land_spec in Hb.
  destruct (Z.testbit x i), (Z.testbit m i), (Z.testbit n i); done.
Qed.

Lemma land_bounded x m k : 0 ≤ m < 2 ^ k → 0 ≤ k → 0 ≤ Z.land x m < 2 ^ k.
Proof.
  intros Hm Hk. assert (0 ≤ Z.land x m) by (apply Z.land_nonneg; lia).
  split; [done|].
  rewrite <-(Z.mod_small m (2 ^ k)) by lia.
  rewrite <-Z.land_ones by done. rewrite Z.land_assoc, Z.land_ones by done.
  apply Z.mod_pos_bound. lia.
Qed.

Lemma land_bounded_l x m k : 0 ≤ x < 2 ^ k → 0 ≤ k → 0 ≤ Z.land x m < 2 ^ k.
Proof. rewrite Z.land_comm. apply land_bounded. Qed.

Lemma lor_bounded x y k : 0 ≤ x < 2 ^ k → 0 ≤ y < 2 ^ k → 0 ≤ k → 0 ≤ Z.lor x y < 2 ^ k.
Proof.
  intros Hx Hy Hk. assert (0 ≤ Z.lor x y) by (apply Z.lor_nonneg; lia).
  split; [done|].
  rewrite <-(Z.mod_small x (2 ^ k)), <-(Z.mod_small y (2 ^ k)) by lia.
  rewrite <-!Z.land_ones by done. rewrite <-Z.land_lor_distr_l, Z.land_ones by done.
  apply Z.mod_pos_bound. lia.
Qed.

(** [MAXALIGN] rounds a length up to a multiple of 8 ([MAXIMUM_ALIGNOF]). *)
Definition MAXALIGN (x : Z) : Z := Z.land (x + 7) (Z.lnot 7).
(** [SHORTALIGN] rounds up to a multiple of 2. *)
Definition SHORTALIGN (x : Z) : Z := Z.land (x + 1) (Z.lnot 1).

Lemma align_spec k x : 0 ≤ k → Z.land x (Z.lnot (Z.ones k)) = x / 2 ^ k * 2 ^ k.
Proof.
  intros Hk. rewrite <-Z.ldiff_land, Z.ldiff_ones_r by done.
  by rewrite Z.shiftl_mul_pow2, Z.shiftr_div_pow2.
Qed.

Lemma MAXALIGN_eq x : MAXALIGN x = (x + 7) / 8 * 8.
Proof. unfold MAXALIGN. by rewrite (align_spec 3). Qed.

Lemma MAXALIGN_bounds x : x ≤ MAXALIGN x < x + 8.
Proof. rewrite MAXALIGN_eq. dlia. Qed.

Lemma MAXALIGN_mod x : MAXALIGN x mod 8 = 0.
Proof. rewrite MAXALIGN_eq. dlia. Qed.

Lemma MAXALIGN_id x : MAXALIGN x = x ↔ x mod 8 = 0.
Proof. rewrite MAXALIGN_eq. dlia. Qed.

Lemma MAXALIGN_mono x y : x ≤ y → y mod 8 = 0 → MAXALIGN x ≤ y.
Proof. rewrite MAXALIGN_eq. dlia. Qed.

Lemma SHORTALIGN_eq x : SHORTALIGN x = (x + 1) / 2 * 2.
Proof. unfold SHORTALIGN. by rewrite (align_spec 1). Qed.

(** Filters that agree on the elements of a list select the same ones. *)
Lemma filter_agree {A} (P Q : A → Prop) `{∀ x, Decision (P x), ∀ x, Decision (Q x)} (l : list A) :
  (∀ x, x ∈ l → P x ↔ Q x) → filter P l = filter Q l.
Proof.
  induction l as [|x l IH]; intros Hl; [done|]. assert (IH' : filter P l = filter Q l) by (apply IH; intros; apply Hl; by right).
  destruct (decide (P x)) as [Hp|Hp].
  - rewrite !filter_cons_True; [by f_equal| |done]. apply (Hl x); [left|done].
  - rewrite !filter_cons_False; [done| |done]. rewrite <-(Hl x); [done|left].
Qed.
