(* ===== verification/Mem.v ===== *)
(** * Byte memory

    A page is a block of bytes; every field of the C structures laid over it
    (page header, line pointers, tuple headers) is a little-endian field at a
    byte offset.  This file has the memory and its laws: what a read returns
    after a write to the same, an overlapping or a disjoint range. *)

From S2P Require Import Prelude.

(** Bytes are integers in [0, 256). *)
Abbreviation mem := (list Z).
Definition is_byte (b : Z) : Prop := 0 ≤ b < 256.

Definition zlen {A} (l : list A) : Z := Z.of_nat (length l).

(** [memcpy] out of the block: [len] bytes from [off]. *)
Definition mread (m : mem) (off len : Z) : list Z :=
  take (Z.to_nat len) (drop (Z.to_nat off) m).

(** [memcpy] into the block.  A write that does not fit leaves it unchanged;
    operations whose offset is not known to fit test [in_range] first. *)
Definition in_range (m : mem) (off len : Z) : bool :=
  (0 <=? off) && (0 <=? len) && (off + len <=? zlen m).

Definition mwrite (m : mem) (off : Z) (bs : list Z) : mem :=
  if in_range m off (zlen bs)
  then take (Z.to_nat off) m ++ bs ++ drop (Z.to_nat off + length bs) m
  else m.

(** Checked versions, for addresses computed from data. *)
Definition load (m : mem) (off len : Z) : res (list Z) :=
  if in_range m off len then Ok (mread m off len) else Err EOob.
Definition store (m : mem) (off : Z) (bs : list Z) : res mem :=
  if in_range m off (zlen bs) then Ok (mwrite m off bs) else Err EOob.

(** Little-endian integers. *)
Fixpoint le_val (bs : list Z) : Z :=
  match bs with
  | [] => 0
  | b :: bs => b + 256 * le_val bs
  end.

Fixpoint le_bytes (n : nat) (z : Z) : list Z :=
  match n with
  | O => []
  | S n => z mod 256 :: le_bytes n (z / 256)
  end.

(** Fixed-width fields. *)
Definition mget (n : nat) (m : mem) (off : Z) : Z := le_val (mread m off (Z.of_nat n)).
Definition mput (n : nat) (m : mem) (off v : Z) : mem := mwrite m off (le_bytes n v).

(** The default of [List.last]. *)
Lemma last_default {A} (l : list A) : ∀ x d, List.last (x :: l) d = List.last l x.
Proof. induction l as [|y l IH]; intros x d; [done|]. change (List.last (x :: y :: l) d) with (List.last (y :: l) d). by rewrite !IH. Qed.

(** Lengths as integers. *)
Lemma zlen_app {A} (l k : list A) : zlen (l ++ k) = zlen l + zlen k.
Proof. unfold zlen. rewrite length_app. lia. Qed.
Lemma zlen_cons {A} (x : A) l : zlen (x :: l) = 1 + zlen l.
Proof. unfold zlen. simpl. lia. Qed.
Lemma zlen_nonneg {A} (l : list A) : 0 ≤ zlen l.
Proof. unfold zlen. lia. Qed.

Lemma zlen_replicate {A} n (x : A) : zlen (replicate n x) = Z.of_nat n.
Proof. unfold zlen. by rewrite length_replicate. Qed.

Lemma length_le_bytes n z : length (le_bytes n z) = n.
Proof. revert z. induction n; simpl; intros; congruence. Qed.

Lemma zlen_le_bytes n z : zlen (le_bytes n z) = Z.of_nat n.
Proof. unfold zlen. by rewrite length_le_bytes. Qed.

Lemma le_val_bytes n z : le_val (le_bytes n z) = z mod 256 ^ Z.of_nat n.
Proof.
  revert z. induction n as [|n IH]; intros z; simpl le_bytes; simpl le_val.
  { by rewrite Z.pow_0_r, Z.mod_1_r. }
  rewrite IH, Nat2Z.inj_succ, Z.pow_succ_r by lia.
  rewrite Z.rem_mul_r by lia. lia.
Qed.

Lemma le_bytes_byte n z : Forall is_byte (le_bytes n z).
Proof.
  revert z. induction n; simpl; constructor; [|done].
  apply Z.mod_pos_bound. lia.
Qed.

Lemma le_val_bound bs : Forall is_byte bs → 0 ≤ le_val bs < 256 ^ zlen bs.
Proof.
  unfold zlen. induction 1 as [|b bs Hb _ IH]; simpl le_val; [done|].
  simpl length. rewrite Nat2Z.inj_succ, Z.pow_succ_r by lia.
  unfold is_byte in Hb. lia.
Qed.

Lemma le_bytes_val bs : Forall is_byte bs → le_bytes (length bs) (le_val bs) = bs.
Proof.
  induction 1 as [|b bs Hb _ IH]; cbn [length le_val le_bytes]; [done|].
  unfold is_byte in Hb. f_equal; [dlia|].
  by assert ((b + 256 * le_val bs) / 256 = le_val bs) as -> by dlia.
Qed.

(** ** Laws *)

Lemma in_range_true m off len :
  in_range m off len = true ↔ 0 ≤ off ∧ 0 ≤ len ∧ off + len ≤ zlen m.
Proof.
  unfold in_range. rewrite !andb_true_iff, !Z.leb_le. tauto.
Qed.

Lemma zlen_mwrite m off bs : zlen (mwrite m off bs) = zlen m.
Proof.
  unfold mwrite. destruct (in_range m off (zlen bs)) eqn:E; [|done].
  apply in_range_true in E. unfold zlen in *.
  rewrite !length_app, length_take, length_drop. lia.
Qed.

Lemma mwrite_lookup m off bs (i : nat) :
  0 ≤ off → off + zlen bs ≤ zlen m →
  mwrite m off bs !! i =
  if decide (off ≤ Z.of_nat i < off + zlen bs) then bs !! Z.to_nat (Z.of_nat i - off)
  else m !! i.
Proof.
  intros Ho Hl. unfold mwrite.
  assert (E : in_range m off (zlen bs) = true)
    by (apply in_range_true; unfold zlen in *; lia).
  rewrite E. unfold zlen in *.
  destruct (decide (Z.of_nat i < off)).
  { rewrite lookup_app_l by (rewrite length_take; lia).
    rewrite lookup_take_lt by lia. rewrite decide_False by lia. done. }
  rewrite lookup_app_r by (rewrite length_take; lia).
  rewrite length_take, Nat.min_l by lia.
  destruct (decide (Z.of_nat i < off + Z.of_nat (length bs))).
  { rewrite lookup_app_l by lia. rewrite decide_True by lia. f_equal. lia. }
  rewrite lookup_app_r by lia. rewrite decide_False by lia.
  rewrite lookup_drop. f_equal. lia.
Qed.

Lemma mread_lookup m off len (i : nat) :
  0 ≤ off → mread m off len !! i =
  if decide (Z.of_nat i < len) then m !! Z.to_nat (off + Z.of_nat i) else None.
Proof.
  intros Ho. unfold mread. rewrite lookup_take, lookup_drop.
  repeat case_decide; try lia; [f_equal; lia | done].
Qed.

Lemma zlen_mread m off len :
  0 ≤ off → 0 ≤ len → off + len ≤ zlen m → zlen (mread m off len) = len.
Proof.
  intros. unfold zlen, mread in *. rewrite length_take, length_drop. lia.
Qed.

Lemma mread_mwrite_disj m off bs o l :
  0 ≤ o → o + l ≤ off ∨ off + zlen bs ≤ o →
  mread (mwrite m off bs) o l = mread m o l.
Proof.
  intros Ho Hd. destruct (in_range m off (zlen bs)) eqn:E.
  2:{ unfold mwrite. by rewrite E. }
  apply in_range_true in E as (? & ? & ?).
  apply list_eq. intros i. rewrite !mread_lookup by done.
  case_decide; [|done]. rewrite mwrite_lookup by done.
  rewrite decide_False; [done|lia].
Qed.

(** Reading inside a range that has just been written. *)
Lemma mread_mwrite_in m off bs o l :
  0 ≤ off → off + zlen bs ≤ zlen m → off ≤ o → 0 ≤ l → o + l ≤ off + zlen bs →
  mread (mwrite m off bs) o l = mread bs (o - off) l.
Proof.
  intros. apply list_eq. intros i. rewrite !mread_lookup by lia.
  case_decide; [|done]. rewrite mwrite_lookup by done.
  rewrite decide_True by lia. f_equal. lia.
Qed.

Lemma mread_all m : mread m 0 (zlen m) = m.
Proof. unfold mread, zlen. rewrite drop_0. apply take_ge. lia. Qed.

Lemma mread_mwrite_same m off bs :
  0 ≤ off → off + zlen bs ≤ zlen m → mread (mwrite m off bs) off (zlen bs) = bs.
Proof.
  intros. rewrite mread_mwrite_in by (unfold zlen in *; lia).
  rewrite Z.sub_diag. apply mread_all.
Qed.

Lemma mread_mread m o1 l1 o2 l2 :
  0 ≤ o1 → 0 ≤ o2 → o2 + l2 ≤ l1 →
  mread (mread m o1 l1) o2 l2 = mread m (o1 + o2) l2.
Proof.
  intros. apply list_eq. intros i. rewrite !mread_lookup by lia.
  repeat case_decide; try lia; [|done]. f_equal. lia.
Qed.

(** What [memmove(m + d, m + s, n)] leaves at [d + k]. *)
Lemma mread_memmove m s d n o l :
  0 ≤ s → 0 ≤ d → 0 ≤ n → s + n ≤ zlen m → d + n ≤ zlen m →
  d ≤ o → 0 ≤ l → o + l ≤ d + n →
  mread (mwrite m d (mread m s n)) o l = mread m (s + (o - d)) l.
Proof.
  intros. rewrite mread_mwrite_in by (rewrite ?zlen_mread by lia; lia).
  rewrite mread_mread by lia. f_equal.
Qed.

Lemma mread_app m o l1 l2 :
  0 ≤ o → 0 ≤ l1 → 0 ≤ l2 → mread m o (l1 + l2) = mread m o l1 ++ mread m (o + l1) l2.
Proof.
  intros. unfold mread. rewrite Z2Nat.inj_add by lia.
  rewrite <-take_take_drop, drop_drop. rewrite Z2Nat.inj_add by lia. done.
Qed.

Lemma mget_mput_same n m off v :
  0 ≤ off → off + Z.of_nat n ≤ zlen m → mget n (mput n m off v) off = v mod 256 ^ Z.of_nat n.
Proof.
  intros. unfold mget, mput. rewrite <-le_val_bytes, <-(zlen_le_bytes n v) at 1.
  rewrite mread_mwrite_same by (rewrite ?zlen_le_bytes; lia). done.
Qed.

Lemma mget_mput_small n m off v :
  0 ≤ off → off + Z.of_nat n ≤ zlen m → 0 ≤ v < 256 ^ Z.of_nat n →
  mget n (mput n m off v) off = v.
Proof. intros. rewrite mget_mput_same by done. by apply Z.mod_small. Qed.

(** The widths that occur in page and tuple headers. *)
Lemma mget_mput1 m off v :
  0 ≤ off → off + 1 ≤ zlen m → 0 ≤ v < 256 → mget 1 (mput 1 m off v) off = v.
Proof. intros. apply mget_mput_small; simpl; lia. Qed.
Lemma mget_mput2 m off v :
  0 ≤ off → off + 2 ≤ zlen m → 0 ≤ v < 65536 → mget 2 (mput 2 m off v) off = v.
Proof. intros. apply mget_mput_small; simpl; lia. Qed.
Lemma mget_mput4 m off v :
  0 ≤ off → off + 4 ≤ zlen m → 0 ≤ v < 4294967296 → mget 4 (mput 4 m off v) off = v.
Proof. intros. apply mget_mput_small; simpl; lia. Qed.

Lemma mread_mput_disj n m off v o l :
  0 ≤ o → o + l ≤ off ∨ off + Z.of_nat n ≤ o → mread (mput n m off v) o l = mread m o l.
Proof. intros. apply mread_mwrite_disj; [done|]. rewrite zlen_le_bytes. lia. Qed.

Lemma mget_mwrite_disj k m off bs o :
  0 ≤ o → o + Z.of_nat k ≤ off ∨ off + zlen bs ≤ o → mget k (mwrite m off bs) o = mget k m o.
Proof. intros. unfold mget. by rewrite mread_mwrite_disj by done. Qed.

Lemma mget_mput_disj n k m off v o :
  0 ≤ o → o + Z.of_nat k ≤ off ∨ off + Z.of_nat n ≤ o → mget k (mput n m off v) o = mget k m o.
Proof. intros. apply mget_mwrite_disj; [done|]. rewrite zlen_le_bytes. lia. Qed.

Lemma zlen_mput n m off v : zlen (mput n m off v) = zlen m.
Proof. apply zlen_mwrite. Qed.

(** A field of a block of bytes is within the range of its width. *)
Lemma mread_byte m o l : Forall is_byte m → Forall is_byte (mread m o l).
Proof. intros. unfold mread. by apply Forall_take, Forall_drop. Qed.

Lemma mget_bound n m o : Forall is_byte m → 0 ≤ mget n m o < 256 ^ Z.of_nat n.
Proof.
  intros Hm. unfold mget.
  pose proof (le_val_bound _ (mread_byte m o (Z.of_nat n) Hm)) as [? Hub].
  split; [done|]. eapply Z.lt_le_trans; [done|].
  apply Z.pow_le_mono_r; [lia|]. unfold zlen, mread. rewrite length_take. lia.
Qed.

Lemma mwrite_byte m off bs :
  Forall is_byte m → Forall is_byte bs → Forall is_byte (mwrite m off bs).
Proof.
  intros. unfold mwrite. destruct (in_range _ _ _); [|done].
  apply Forall_app; split; [by apply Forall_take|].
  apply Forall_app; split; [done | by apply Forall_drop].
Qed.

Lemma mput_byte n m off v : Forall is_byte m → Forall is_byte (mput n m off v).
Proof. intros. apply mwrite_byte; [done | apply le_bytes_byte]. Qed.

(** Writing back what is there changes nothing. *)
Lemma mwrite_same m off l :
  0 ≤ off → 0 ≤ l → off + l ≤ zlen m → mwrite m off (mread m off l) = m.
Proof.
  intros. apply list_eq. intros i.
  rewrite mwrite_lookup by (rewrite ?zlen_mread by lia; lia).
  rewrite zlen_mread by lia. case_decide; [|done].
  rewrite mread_lookup by lia. rewrite decide_True by lia. f_equal. lia.
Qed.

(** A read of an [n]-byte field that checks the bounds. *)
Definition rd (n : nat) (m : mem) (off : Z) : res Z :=
  if in_range m off (Z.of_nat n) then Ok (mget n m off) else Err EOob.

Lemma rd_ok n m off : 0 ≤ off → off + Z.of_nat n ≤ zlen m → rd n m off = Ok (mget n m off).
Proof. intros. unfold rd. by rewrite (proj2 (in_range_true _ _ _)) by lia. Qed.

Lemma rd_inv n m off v : rd n m off = Ok v → v = mget n m off ∧ 0 ≤ off ∧ off + Z.of_nat n ≤ zlen m.
Proof.
  unfold rd. destruct (in_range _ _ _) eqn:E; [|done]. apply in_range_true in E.
  intros [= <-]. lia.
Qed.

Create HintDb mem.
#[export] Hint Resolve mwrite_byte mput_byte mread_byte le_bytes_byte : mem.
