(* ===== verification/Page.v ===== *)
(** * The page format: [bufpage.h], [itemid.h], [off.h]

    A page is a block of [BLCKSZ] bytes.  The header fields and the line
    pointers are the C structures laid over it: [PageHeaderData] at offset 0,
    the array [pd_linp] of 4-byte [ItemIdData] from offset 24.  The file has
    the accessor macros, the well-formedness invariant [page_wf] and the
    abstract view [page_slots] that the operations of [bufpage.c] are
    specified against. *)

From S2P Require Import Prelude Mem.

Definition BLCKSZ : Z := 8192.
Definition SizeOfPageHeaderData : Z := 24.
Definition sizeof_ItemIdData : Z := 4.
Definition PG_PAGE_LAYOUT_VERSION : Z := 4.

Definition PD_HAS_FREE_LINES : Z := 1.
Definition PD_PAGE_FULL : Z := 2.
Definition PD_ALL_VISIBLE : Z := 4.
Definition PD_VALID_FLAG_BITS : Z := 7.

Definition InvalidOffsetNumber : Z := 0.
Definition FirstOffsetNumber : Z := 1.
Definition MaxOffsetNumber : Z := BLCKSZ / sizeof_ItemIdData.
Definition OffsetNumberIsValid (off : Z) : bool :=
  negb (off =? InvalidOffsetNumber) && (off <=? MaxOffsetNumber).
Definition OffsetNumberNext (off : Z) : Z := u16 (1 + off).

(** [SizeofHeapTupleHeader] is [offsetof(HeapTupleHeaderData, t_bits)]. *)
Definition SizeofHeapTupleHeader : Z := 23.
Definition MaxHeapTuplesPerPage : Z :=
  (BLCKSZ - SizeOfPageHeaderData) / (MAXALIGN SizeofHeapTupleHeader + sizeof_ItemIdData).
(** [sizeof(IndexTupleData)] is 8. *)
Definition MaxIndexTuplesPerPage : Z :=
  (BLCKSZ - SizeOfPageHeaderData) / (MAXALIGN (8 + 1) + sizeof_ItemIdData).
Definition MaxHeapTupleSize : Z :=
  BLCKSZ - MAXALIGN (SizeOfPageHeaderData + sizeof_ItemIdData).

(** ** Page header *)

Abbreviation page := mem.

Definition pd_checksum (p : page) : Z := mget 2 p 8.
Definition pd_flags (p : page) : Z := mget 2 p 10.
Definition pd_lower (p : page) : Z := mget 2 p 12.
Definition pd_upper (p : page) : Z := mget 2 p 14.
Definition pd_special (p : page) : Z := mget 2 p 16.
Definition pd_pagesize_version (p : page) : Z := mget 2 p 18.
Definition pd_prune_xid (p : page) : Z := mget 4 p 20.

Definition set_pd_checksum (p : page) (v : Z) : page := mput 2 p 8 v.
Definition set_pd_flags (p : page) (v : Z) : page := mput 2 p 10 v.
Definition set_pd_lower (p : page) (v : Z) : page := mput 2 p 12 v.
Definition set_pd_upper (p : page) (v : Z) : page := mput 2 p 14 v.
Definition set_pd_special (p : page) (v : Z) : page := mput 2 p 16 v.
Definition set_pd_pagesize_version (p : page) (v : Z) : page := mput 2 p 18 v.
Definition set_pd_prune_xid (p : page) (v : Z) : page := mput 4 p 20 v.

(** [pd_lsn] is the pair [xlogid] (high half), [xrecoff] (low half). *)
Definition PageGetLSN (p : page) : Z := Z.lor (Z.shiftl (mget 4 p 0) 32) (mget 4 p 4).
Definition PageSetLSN (p : page) (lsn : Z) : page :=
  mput 4 (mput 4 p 0 (Z.shiftr lsn 32)) 4 lsn.

Definition PageIsEmpty (p : page) : bool := pd_lower p <=? SizeOfPageHeaderData.
Definition PageIsNew (p : page) : bool := pd_upper p =? 0.
Definition PageGetPageSize (p : page) : Z := Z.land (pd_pagesize_version p) 65280.
Definition PageSetPageSizeAndVersion (p : page) (size version : Z) : page :=
  set_pd_pagesize_version p (Z.lor size version).
Definition PageGetSpecialSize (p : page) : Z := u16 (PageGetPageSize p - pd_special p).
Definition PageGetMaxOffsetNumber (p : page) : Z :=
  if pd_lower p <=? SizeOfPageHeaderData then 0
  else (pd_lower p - SizeOfPageHeaderData) / sizeof_ItemIdData.

Definition PageHasFreeLinePointers (p : page) : bool := has_flag (pd_flags p) PD_HAS_FREE_LINES.
Definition PageSetHasFreeLinePointers (p : page) : page :=
  set_pd_flags p (set_flag (pd_flags p) PD_HAS_FREE_LINES).
Definition PageClearHasFreeLinePointers (p : page) : page :=
  set_pd_flags p (clear_flag (pd_flags p) PD_HAS_FREE_LINES).
Definition PageIsAllVisible (p : page) : bool := has_flag (pd_flags p) PD_ALL_VISIBLE.
Definition PageSetAllVisible (p : page) : page :=
  set_pd_flags p (set_flag (pd_flags p) PD_ALL_VISIBLE).
Definition PageClearAllVisible (p : page) : page :=
  set_pd_flags p (clear_flag (pd_flags p) PD_ALL_VISIBLE).

(** ** Line pointers

    [ItemIdData] is a 32-bit word of bit fields: [lp_off] (15 bits),
    [lp_flags] (2 bits), [lp_len] (15 bits), from the low end. *)

Record ItemIdData : Type := mkItemId { lp_off : Z; lp_flags : Z; lp_len : Z }.

#[export] Instance ItemIdData_eq_dec : EqDecision ItemIdData.
Proof. solve_decision. Defined.

Definition LP_UNUSED : Z := 0.
Definition LP_NORMAL : Z := 1.
Definition LP_REDIRECT : Z := 2.
Definition LP_DEAD : Z := 3.

Definition lp_decode (w : Z) : ItemIdData :=
  mkItemId (w mod 2 ^ 15) (w / 2 ^ 15 mod 4) (w / 2 ^ 17 mod 2 ^ 15).
Definition lp_encode (lp : ItemIdData) : Z :=
  lp_off lp mod 2 ^ 15 + lp_flags lp mod 4 * 2 ^ 15 + lp_len lp mod 2 ^ 15 * 2 ^ 17.

Definition ItemIdGetLength (lp : ItemIdData) : Z := lp_len lp.
Definition ItemIdGetOffset (lp : ItemIdData) : Z := lp_off lp.
Definition ItemIdIsUsed (lp : ItemIdData) : bool := negb (lp_flags lp =? LP_UNUSED).
Definition ItemIdIsNormal (lp : ItemIdData) : bool := lp_flags lp =? LP_NORMAL.
Definition ItemIdHasStorage (lp : ItemIdData) : bool := negb (lp_len lp =? 0).
Definition ItemIdSetUnused (lp : ItemIdData) : ItemIdData := mkItemId 0 LP_UNUSED 0.
Definition ItemIdSetNormal (lp : ItemIdData) (off len : Z) : ItemIdData :=
  mkItemId off LP_NORMAL len.
Definition ItemIdSetRedirect (lp : ItemIdData) (link : Z) : ItemIdData :=
  mkItemId link LP_REDIRECT 0.
Definition ItemIdSetDead (lp : ItemIdData) : ItemIdData := mkItemId 0 LP_DEAD 0.
Definition lp_set_off (lp : ItemIdData) (off : Z) : ItemIdData :=
  mkItemId off (lp_flags lp) (lp_len lp).

(** Address of [pd_linp[off - 1]]. *)
Definition linp_addr (off : Z) : Z := SizeOfPageHeaderData + sizeof_ItemIdData * (off - 1).

(** [*PageGetItemId(page, off)], and the assignment to it. *)
Definition PageGetItemId (p : page) (off : Z) : ItemIdData := lp_decode (mget 4 p (linp_addr off)).
Definition PageSetItemId (p : page) (off : Z) (lp : ItemIdData) : page :=
  mput 4 p (linp_addr off) (lp_encode lp).

#[global] Arguments PageGetItemId : simpl never.
#[global] Arguments PageSetItemId : simpl never.
#[global] Arguments lp_decode : simpl never.

(** The same for an offset number that comes from outside the page: the
    address must lie in the page. *)
Definition PageGetItemIdChecked (p : page) (off : Z) : res ItemIdData :=
  if in_range p (linp_addr off) sizeof_ItemIdData then Ok (PageGetItemId p off) else Err EOob.

(** The bytes [PageGetItem(page, lp)] points to. *)
Definition PageGetItemBytes (p : page) (lp : ItemIdData) : list Z :=
  mread p (lp_off lp) (lp_len lp).

(** ** Well-formed pages *)

Definition lp_in (p : page) (lp : ItemIdData) : Prop :=
  pd_upper p ≤ lp_off lp ∧ lp_off lp + MAXALIGN (lp_len lp) ≤ pd_special p ∧ lp_off lp mod 8 = 0.

Definition lp_disjoint (a b : ItemIdData) : Prop :=
  lp_off a + MAXALIGN (lp_len a) ≤ lp_off b ∨ lp_off b + MAXALIGN (lp_len b) ≤ lp_off a.

Record page_hdr_wf (p : page) : Prop := {
  wf_len : zlen p = BLCKSZ;
  wf_bytes : Forall is_byte p;
  wf_lower : 24 ≤ pd_lower p;
  wf_lower_mod : pd_lower p mod 4 = 0;
  wf_lower_upper : pd_lower p ≤ pd_upper p;
  wf_upper_mod : pd_upper p mod 8 = 0;
  wf_upper_special : pd_upper p ≤ pd_special p;
  wf_special : pd_special p ≤ 8192;
  wf_special_mod : pd_special p mod 8 = 0 }.

Record page_wf (p : page) : Prop := {
  wf_hdr :> page_hdr_wf p;
  wf_item i : 1 ≤ i ≤ PageGetMaxOffsetNumber p → lp_len (PageGetItemId p i) ≠ 0 →
              lp_in p (PageGetItemId p i);
  wf_disjoint i j :
    1 ≤ i ≤ PageGetMaxOffsetNumber p → 1 ≤ j ≤ PageGetMaxOffsetNumber p → i ≠ j →
    lp_len (PageGetItemId p i) ≠ 0 → lp_len (PageGetItemId p j) ≠ 0 →
    lp_disjoint (PageGetItemId p i) (PageGetItemId p j) }.

(** Both invariants as executable checks, for concrete pages. *)
Definition is_byteb (b : Z) : bool := (0 <=? b) && (b <? 256).

Definition page_hdr_wfb (p : page) : bool :=
  (zlen p =? BLCKSZ) && forallb is_byteb p && (24 <=? pd_lower p) && (pd_lower p mod 4 =? 0)
  && (pd_lower p <=? pd_upper p) && (pd_upper p mod 8 =? 0) && (pd_upper p <=? pd_special p)
  && (pd_special p <=? 8192) && (pd_special p mod 8 =? 0).

Definition lp_inb (p : page) (lp : ItemIdData) : bool :=
  (pd_upper p <=? lp_off lp) && (lp_off lp + MAXALIGN (lp_len lp) <=? pd_special p)
  && (lp_off lp mod 8 =? 0).

Definition lp_disjointb (a b : ItemIdData) : bool :=
  (lp_off a + MAXALIGN (lp_len a) <=? lp_off b) || (lp_off b + MAXALIGN (lp_len b) <=? lp_off a).

Definition item_offs (p : page) : list Z := seqZ 1 (PageGetMaxOffsetNumber p).

Definition page_wfb (p : page) : bool :=
  page_hdr_wfb p
  && forallb (λ i, (lp_len (PageGetItemId p i) =? 0) || lp_inb p (PageGetItemId p i)) (item_offs p)
  && forallb (λ i, forallb (λ j,
       (i =? j) || (lp_len (PageGetItemId p i) =? 0) || (lp_len (PageGetItemId p j) =? 0)
       || lp_disjointb (PageGetItemId p i) (PageGetItemId p j)) (item_offs p)) (item_offs p).

(** ** The abstract view of a page

    Offset number [i] of a page holds a slot: the flags, the link of a slot
    without storage, the bytes of the item of a slot with storage. *)
Record slot : Type := mkSlot { sl_flags : Z; sl_link : Z; sl_bytes : list Z }.

Definition slot_of (p : page) (lp : ItemIdData) : slot :=
  if lp_len lp =? 0 then mkSlot (lp_flags lp) (lp_off lp) []
  else mkSlot (lp_flags lp) 0 (PageGetItemBytes p lp).

Definition slot_at (p : page) (i : Z) : slot := slot_of p (PageGetItemId p i).

Definition page_slots (p : page) : list slot :=
  slot_at p <$> seqZ 1 (PageGetMaxOffsetNumber p).

(** ** Field laws *)

Lemma forallb_items p f : forallb f (item_offs p) = true →
  ∀ i, 1 ≤ i ≤ PageGetMaxOffsetNumber p → f i = true.
Proof.
  intros H i Hi. rewrite forallb_forall in H. apply H, list_elem_of_In, elem_of_seqZ. lia.
Qed.

Lemma page_hdr_wfb_sound p : page_hdr_wfb p = true → page_hdr_wf p.
Proof.
  unfold page_hdr_wfb. intros H. b2p. constructor; try lia.
  apply Forall_forall. intros x Hx. rewrite forallb_forall in *. unfold is_byte.
  match goal with F : ∀ x, In x p → _ |- _ => specialize (F x ltac:(by apply list_elem_of_In)) end.
  unfold is_byteb in *. b2p. lia.
Qed.

Lemma page_wfb_sound p : page_wfb p = true → page_wf p.
Proof.
  unfold page_wfb. intros H. apply andb_prop in H as [H Hd]. apply andb_prop in H as [Hh Hi].
  constructor.
  - by apply page_hdr_wfb_sound.
  - intros i Hr Hn. pose proof (forallb_items _ _ Hi i Hr) as Hc. cbv beta in Hc.
    apply orb_prop in Hc as [Hc|Hc]; [b2p; lia|]. unfold lp_inb in Hc. unfold lp_in. b2p. lia.
  - intros i j Hri Hrj Hne Hni Hnj.
    pose proof (forallb_items _ _ (forallb_items _ _ Hd i Hri) j Hrj) as Hc. cbv beta in Hc.
    unfold lp_disjointb in Hc. unfold lp_disjoint.
    repeat (apply orb_prop in Hc as [Hc|Hc]); b2p; lia.
Qed.

Lemma lp_decode_encode lp :
  0 ≤ lp_off lp < 2 ^ 15 → 0 ≤ lp_flags lp < 4 → 0 ≤ lp_len lp < 2 ^ 15 →
  lp_decode (lp_encode lp) = lp.
Proof.
  destruct lp as [o f l]. unfold lp_decode, lp_encode. cbn [lp_off lp_flags lp_len].
  intros. f_equal; dlia.
Qed.

Lemma lp_encode_bound lp : 0 ≤ lp_encode lp < 2 ^ 32.
Proof. unfold lp_encode. dlia. Qed.

Lemma lp_decode_bound w :
  0 ≤ lp_off (lp_decode w) < 2 ^ 15 ∧ 0 ≤ lp_flags (lp_decode w) < 4 ∧
  0 ≤ lp_len (lp_decode w) < 2 ^ 15.
Proof. unfold lp_decode. cbn [lp_off lp_flags lp_len]. dlia. Qed.

Lemma PageGetItemId_bound p i :
  0 ≤ lp_off (PageGetItemId p i) < 2 ^ 15 ∧ 0 ≤ lp_flags (PageGetItemId p i) < 4 ∧
  0 ≤ lp_len (PageGetItemId p i) < 2 ^ 15.
Proof. apply lp_decode_bound. Qed.

Lemma PageGetSetItemId p i lp :
  1 ≤ i → linp_addr i + 4 ≤ zlen p →
  0 ≤ lp_off lp < 2 ^ 15 → 0 ≤ lp_flags lp < 4 → 0 ≤ lp_len lp < 2 ^ 15 →
  PageGetItemId (PageSetItemId p i lp) i = lp.
Proof.
  intros. unfold PageGetItemId, PageSetItemId, linp_addr, SizeOfPageHeaderData, sizeof_ItemIdData in *.
  pose proof (lp_encode_bound lp).
  rewrite mget_mput_small by (simpl; lia). by apply lp_decode_encode.
Qed.

Lemma PageGetSetItemId_ne p i j lp :
  1 ≤ i → 1 ≤ j → i ≠ j → PageGetItemId (PageSetItemId p i lp) j = PageGetItemId p j.
Proof.
  intros. unfold PageGetItemId, PageSetItemId, linp_addr, SizeOfPageHeaderData, sizeof_ItemIdData.
  by rewrite mget_mput_disj by lia.
Qed.

(** The 64-bit LSN survives the split into two halves. *)
Lemma PageGetSetLSN p lsn :
  8 ≤ zlen p → 0 ≤ lsn < 2 ^ 64 → PageGetLSN (PageSetLSN p lsn) = lsn.
Proof.
  intros Hp Hl. unfold PageGetLSN, PageSetLSN.
  rewrite mget_mput_disj by lia. rewrite !mget_mput_same by (rewrite ?zlen_mput; lia).
  change (256 ^ Z.of_nat 4) with (2 ^ 32).
  rewrite (Z.mod_small (Z.shiftr lsn 32)) by (rewrite Z.shiftr_div_pow2 by lia; dlia).
  rewrite <-Z.land_ones by lia. apply Z.bits_inj'. intros i Hi.
  rewrite Z.lor_spec, Z.land_spec, Z.shiftl_spec by done.
  destruct (decide (i < 32)).
  - rewrite (Z.testbit_neg_r _ (i - 32)), Z.ones_spec_low by lia. by rewrite andb_true_r.
  - rewrite Z.shiftr_spec, Z.ones_spec_high by lia.
    rewrite andb_false_r, orb_false_r. f_equal. lia.
Qed.

Lemma PageGetLSN_nonneg p : Forall is_byte p → 0 ≤ PageGetLSN p.
Proof.
  intros. unfold PageGetLSN. apply Z.lor_nonneg.
  pose proof (mget_bound 4 p 0 ltac:(done)). pose proof (mget_bound 4 p 4 ltac:(done)).
  rewrite Z.shiftl_nonneg. lia.
Qed.

(** Everything a header accessor reads. *)
Ltac page_unfold :=
  unfold PageSetHasFreeLinePointers, PageClearHasFreeLinePointers, PageSetAllVisible,
    PageClearAllVisible, PageHasFreeLinePointers, PageIsAllVisible,
    PageSetPageSizeAndVersion, PageSetLSN, PageGetLSN,
    set_pd_checksum, set_pd_flags, set_pd_lower, set_pd_upper, set_pd_special,
    set_pd_pagesize_version, set_pd_prune_xid,
    pd_checksum, pd_flags, pd_lower, pd_upper, pd_special, pd_pagesize_version, pd_prune_xid,
    PageGetItemId, PageSetItemId, linp_addr, SizeOfPageHeaderData, sizeof_ItemIdData in *.

(** Reads past the header are not affected by header updates. *)
Ltac mem_side := rewrite ?zlen_mput, ?zlen_mwrite, ?zlen_le_bytes; (lia || (simpl; lia)).
Ltac mem_simpl :=
  repeat first
    [ rewrite zlen_mput
    | rewrite zlen_mwrite
    | rewrite mget_mput_disj by mem_side
    | rewrite mget_mwrite_disj by mem_side
    | rewrite mread_mput_disj by mem_side
    | rewrite mread_mwrite_disj by mem_side ].

Lemma hdr_field_bound p : Forall is_byte p →
  0 ≤ pd_flags p < 65536 ∧ 0 ≤ pd_lower p < 65536 ∧ 0 ≤ pd_upper p < 65536 ∧
  0 ≤ pd_special p < 65536 ∧ 0 ≤ pd_prune_xid p < 2 ^ 32.
Proof.
  intros Hb. unfold pd_flags, pd_lower, pd_upper, pd_special, pd_prune_xid.
  pose proof (mget_bound 2 p 10 Hb). pose proof (mget_bound 2 p 12 Hb).
  pose proof (mget_bound 2 p 14 Hb). pose proof (mget_bound 2 p 16 Hb).
  pose proof (mget_bound 4 p 20 Hb). simpl in *. lia.
Qed.

Lemma PageGetMaxOffsetNumber_eq p :
  24 ≤ pd_lower p → PageGetMaxOffsetNumber p = (pd_lower p - 24) / 4.
Proof.
  intros. unfold PageGetMaxOffsetNumber, SizeOfPageHeaderData, sizeof_ItemIdData.
  zcase; dlia.
Qed.

(** Every line pointer of a well-formed page lies below [pd_lower]. *)
Lemma linp_addr_range p i :
  page_hdr_wf p → 1 ≤ i ≤ PageGetMaxOffsetNumber p →
  24 ≤ linp_addr i ∧ linp_addr i + 4 ≤ pd_lower p.
Proof.
  intros [] Hi. rewrite PageGetMaxOffsetNumber_eq in Hi by done.
  unfold linp_addr, SizeOfPageHeaderData, sizeof_ItemIdData. dlia.
Qed.

Lemma length_page_slots p :
  Z.of_nat (length (page_slots p)) = Z.max 0 (PageGetMaxOffsetNumber p).
Proof. unfold page_slots. rewrite length_fmap, length_seqZ. lia. Qed.

Lemma PageGetMaxOffsetNumber_nonneg p : 0 ≤ PageGetMaxOffsetNumber p.
Proof.
  unfold PageGetMaxOffsetNumber, SizeOfPageHeaderData, sizeof_ItemIdData.
  zcase; dlia.
Qed.

Lemma page_slots_lookup p (k : nat) :
  page_slots p !! k =
  if decide (Z.of_nat k < PageGetMaxOffsetNumber p) then Some (slot_at p (1 + Z.of_nat k)) else None.
Proof.
  unfold page_slots. rewrite list_lookup_fmap. case_decide.
  - rewrite lookup_seqZ_lt by lia. done.
  - rewrite lookup_seqZ_ge by lia. done.
Qed.

(** Two pages with the same number of line pointers and the same slots have
    the same view. *)
Lemma page_slots_ext p q :
  PageGetMaxOffsetNumber p = PageGetMaxOffsetNumber q →
  (∀ i, 1 ≤ i ≤ PageGetMaxOffsetNumber p → slot_at p i = slot_at q i) →
  page_slots p = page_slots q.
Proof.
  intros Hn Hs. apply list_eq. intros k. rewrite !page_slots_lookup, <-Hn.
  case_decide; [|done]. f_equal. apply Hs. lia.
Qed.

(** Two disjoint items with storage differ in their offsets. *)
Lemma lp_disjoint_sym a b : lp_disjoint a b → lp_disjoint b a.
Proof. unfold lp_disjoint. tauto. Qed.

Lemma lp_disjoint_off a b :
  0 < lp_len a → 0 < lp_len b → lp_disjoint a b → lp_off a ≠ lp_off b.
Proof.
  unfold lp_disjoint. pose proof (MAXALIGN_bounds (lp_len a)).
  pose proof (MAXALIGN_bounds (lp_len b)). lia.
Qed.

(** Changing only bytes outside the line pointer array, the three boundary
    fields and the items keeps a page well formed and its view. *)
Record page_frame (p q : page) : Prop := {
  fr_len : zlen q = zlen p;
  fr_bytes : Forall is_byte p → Forall is_byte q;
  fr_lower : pd_lower q = pd_lower p;
  fr_upper : pd_upper q = pd_upper p;
  fr_special : pd_special q = pd_special p;
  fr_body o l : 24 ≤ o → mread q o l = mread p o l }.

Lemma page_frame_refl p : page_frame p p.
Proof. by constructor. Qed.

Lemma page_frame_trans p q r : page_frame p q → page_frame q r → page_frame p r.
Proof.
  intros Hp Hq. constructor; [| |..|intros o l Ho].
  2:{ intros. by apply (fr_bytes _ _ Hq), (fr_bytes _ _ Hp). }
  5:{ by rewrite (fr_body _ _ Hq), (fr_body _ _ Hp). }
  all: destruct Hp, Hq; congruence.
Qed.

#[export] Instance page_frame_preorder : PreOrder page_frame.
Proof. split; [exact page_frame_refl | exact page_frame_trans]. Qed.

Section frame.
Context (p q : page) (Hf : page_frame p q).

Lemma frame_itemid i : 1 ≤ i → PageGetItemId q i = PageGetItemId p i.
Proof using Hf.
intros. unfold PageGetItemId, mget. f_equal. f_equal.
apply (fr_body _ _ Hf). unfold linp_addr, SizeOfPageHeaderData, sizeof_ItemIdData. lia.
Qed.

Lemma frame_maxoff : PageGetMaxOffsetNumber q = PageGetMaxOffsetNumber p.
Proof using Hf. unfold PageGetMaxOffsetNumber. by rewrite (fr_lower _ _ Hf). Qed.

Lemma frame_wf : page_wf p → page_wf q.
Proof using Hf.
destruct Hf as [Hl Hb Hlo Hup Hsp _]. intros [[] Hi Hd].
pose proof frame_maxoff as Hm. split.
- constructor; rewrite ?Hlo, ?Hup, ?Hsp, ?Hl; auto.
- intros i. rewrite Hm. intros Hr. rewrite frame_itemid by lia. unfold lp_in.
rewrite Hup, Hsp. by apply Hi.
- intros i j. rewrite Hm. intros ??. rewrite !frame_itemid by lia. by apply Hd.
Qed.

Lemma frame_slots : page_wf p → page_slots q = page_slots p.
Proof using Hf.
intros [Hh Hi _]. apply page_slots_ext; [exact frame_maxoff|].
rewrite frame_maxoff. intros i Hr. unfold slot_at. rewrite frame_itemid by lia.
unfold slot_of, PageGetItemBytes. destruct (Z.eqb_spec (lp_len (PageGetItemId p i)) 0); [done|].
f_equal. apply (fr_body _ _ Hf).
destruct (Hi i Hr ltac:(done)) as [? _]. destruct Hh. lia.
Qed.
End frame.

(** Header-only updates are frames. *)
Lemma frame_flags p v : page_frame p (set_pd_flags p v).
Proof.
  constructor; page_unfold; intros; mem_simpl; auto with mem.
Qed.

Lemma frame_lsn p v : page_frame p (PageSetLSN p v).
Proof. constructor; page_unfold; intros; mem_simpl; auto with mem. Qed.

Lemma frame_prune p v : page_frame p (set_pd_prune_xid p v).
Proof. constructor; page_unfold; intros; mem_simpl; auto with mem. Qed.

Lemma frame_checksum p v : page_frame p (set_pd_checksum p v).
Proof. constructor; page_unfold; intros; mem_simpl; auto with mem. Qed.

Lemma lsn_set_flags p v : PageGetLSN (set_pd_flags p v) = PageGetLSN p.
Proof. page_unfold. by mem_simpl. Qed.

Create HintDb page.
#[export] Hint Resolve frame_flags frame_lsn frame_prune frame_checksum page_frame_refl : page.
#[export] Hint Unfold PageSetHasFreeLinePointers PageClearHasFreeLinePointers
  PageSetAllVisible PageClearAllVisible : page.
