(* ===== verification/PageAdd.v ===== *)
(** * Adding to a page: [PageInit], [PageAddItemExtended] and free space

    The functions of [bufpage.c] that create a page, put an item on it and
    report its free space.  [PageAddItemExtended] is specified against the
    abstract view: on a well-formed page it either refuses the item and
    leaves the view alone, or puts exactly that item at the offset number it
    returns, and the page stays well formed. *)

From S2P Require Import Prelude Mem Page.

(** ** [PageInit] *)
Definition PageInit (pageSize specialSize : Z) : page :=
  let specialSize := MAXALIGN specialSize in
  let p := replicate (Z.to_nat pageSize) 0 in
  let p := set_pd_flags p 0 in
  let p := set_pd_lower p SizeOfPageHeaderData in
  let p := set_pd_upper p (pageSize - specialSize) in
  let p := set_pd_special p (pageSize - specialSize) in
  PageSetPageSizeAndVersion p pageSize PG_PAGE_LAYOUT_VERSION.

(** ** [PageAddItemExtended] *)
Definition PAI_OVERWRITE : Z := 1.
Definition PAI_IS_HEAP : Z := 2.

(** The loop that looks for an unused line pointer: the first offset number
    from [off] below [limit] that is unused and without storage, or [limit]. *)
Fixpoint find_free_linp (p : page) (off limit : Z) (fuel : nat) : Z :=
  match fuel with
  | O => off
  | S fuel =>
      if off <? limit then
        let itemId := PageGetItemId p off in
        if negb (ItemIdIsUsed itemId) && negb (ItemIdHasStorage itemId) then off
        else find_free_linp p (off + 1) limit fuel
      else off
  end.

(** The sanity test on the boundary fields that opens the function. *)
Definition page_pointers_ok (p : page) : bool :=
  negb ((pd_lower p <? SizeOfPageHeaderData) || (pd_upper p <? pd_lower p) ||
        (pd_special p <? pd_upper p) || (BLCKSZ <? pd_special p)).

(** Selection of the offset number: [None] is the refusal to overwrite a used
    line pointer; otherwise the page (its hint bit may have been reset), the
    offset number and [needshuffle]. *)
Definition select_offset (p : page) (offsetNumber flags : Z) : option (page * Z * bool) :=
  let limit := OffsetNumberNext (PageGetMaxOffsetNumber p) in
  if OffsetNumberIsValid offsetNumber then
    if has_flag flags PAI_OVERWRITE then
      if (offsetNumber <? limit) &&
         (ItemIdIsUsed (PageGetItemId p offsetNumber) ||
          ItemIdHasStorage (PageGetItemId p offsetNumber))
      then None
      else Some (p, offsetNumber, false)
    else Some (p, offsetNumber, offsetNumber <? limit)
  else if PageHasFreeLinePointers p then
    let off := find_free_linp p 1 limit (Z.to_nat limit) in
    if limit <=? off then Some (PageClearHasFreeLinePointers p, off, false)
    else Some (p, off, false)
  else Some (p, limit, false).

(** Installing the item once everything has been checked. *)
Definition place_item (p : page) (item : list Z) (off limit lower upper : Z) (needshuffle : bool) : page :=
  let size := zlen item in
  let p := if needshuffle
           then mwrite p (linp_addr (off + 1))
                  (mread p (linp_addr off) ((limit - off) * sizeof_ItemIdData))
           else p in
  let p := PageSetItemId p off (ItemIdSetNormal (PageGetItemId p off) upper size) in
  let p := mwrite p upper item in
  let p := set_pd_lower p lower in
  set_pd_upper p upper.

Definition PageAddItemExtended (p : page) (item : list Z) (offsetNumber flags : Z) : res (page * Z) :=
  let size := zlen item in
  if negb (page_pointers_ok p) then Err EPanic else
  let limit := OffsetNumberNext (PageGetMaxOffsetNumber p) in
  match select_offset p offsetNumber flags with
  | None => Ok (p, InvalidOffsetNumber)
  | Some (p, off, needshuffle) =>
      if limit <? off then Ok (p, InvalidOffsetNumber) else
      if has_flag flags PAI_IS_HEAP && (MaxHeapTuplesPerPage <? off)
      then Ok (p, InvalidOffsetNumber) else
      let lower := if (off =? limit) || needshuffle
                   then pd_lower p + sizeof_ItemIdData else pd_lower p in
      let alignedSize := MAXALIGN size in
      let upper := pd_upper p - alignedSize in
      if upper <? lower then Ok (p, InvalidOffsetNumber) else
      Ok (place_item p item off limit lower upper needshuffle, off)
  end.

Definition PageAddItem (p : page) (item : list Z) (offsetNumber : Z) (overwrite is_heap : bool)
  : res (page * Z) :=
  PageAddItemExtended p item offsetNumber
    (Z.lor (if overwrite then PAI_OVERWRITE else 0) (if is_heap then PAI_IS_HEAP else 0)).

(** ** Temporary pages *)
Definition PageGetTempPageCopy (p : page) : page := mread p 0 (PageGetPageSize p).
Definition PageGetTempPageCopySpecial (p : page) : page :=
  let temp := PageInit (PageGetPageSize p) (PageGetSpecialSize p) in
  mwrite temp (pd_special temp) (mread p (pd_special p) (PageGetSpecialSize p)).
Definition PageRestoreTempPage (tempPage oldPage : page) : page :=
  mwrite oldPage 0 (mread tempPage 0 (PageGetPageSize tempPage)).

(** ** Free space *)
Definition PageGetFreeSpace (p : page) : Z :=
  let space := pd_upper p - pd_lower p in
  if space <? sizeof_ItemIdData then 0 else space - sizeof_ItemIdData.
Definition PageGetFreeSpaceForMultipleTuples (p : page) (ntups : Z) : Z :=
  let space := pd_upper p - pd_lower p in
  if space <? ntups * sizeof_ItemIdData then 0 else space - ntups * sizeof_ItemIdData.
Definition PageGetExactFreeSpace (p : page) : Z :=
  let space := pd_upper p - pd_lower p in
  if space <? 0 then 0 else space.

(** The loop of [PageGetHeapFreeSpace]: the first unused line pointer from
    [off], or [nline + 1]. *)
Fixpoint find_unused_linp (p : page) (off nline : Z) (fuel : nat) : Z :=
  match fuel with
  | O => off
  | S fuel =>
      if off <=? nline then
        if negb (ItemIdIsUsed (PageGetItemId p off)) then off
        else find_unused_linp p (off + 1) nline fuel
      else off
  end.

Definition PageGetHeapFreeSpace (p : page) : Z :=
  let space := PageGetFreeSpace p in
  if 0 <? space then
    let nline := PageGetMaxOffsetNumber p in
    if MaxHeapTuplesPerPage <=? nline then
      if PageHasFreeLinePointers p then
        let offnum := find_unused_linp p FirstOffsetNumber nline (S (Z.to_nat nline)) in
        if nline <? offnum then 0 else space
      else 0
    else space
  else space.

(** ** Properties *)

Lemma PageInit_len sz : zlen (PageInit BLCKSZ sz) = BLCKSZ.
Proof.
  unfold PageInit, PageSetPageSizeAndVersion, set_pd_pagesize_version, set_pd_special,
    set_pd_upper, set_pd_lower, set_pd_flags.
  rewrite !zlen_mput. unfold zlen. rewrite length_replicate. done.
Qed.

Lemma PageInit_bytes sz : Forall is_byte (PageInit BLCKSZ sz).
Proof.
  unfold PageInit, PageSetPageSizeAndVersion, set_pd_pagesize_version, set_pd_special,
    set_pd_upper, set_pd_lower, set_pd_flags.
  repeat apply mput_byte. apply Forall_replicate. unfold is_byte. lia.
Qed.

Lemma PageInit_fields sz :
  0 ≤ sz ≤ BLCKSZ - 24 →
  pd_flags (PageInit BLCKSZ sz) = 0 ∧ pd_lower (PageInit BLCKSZ sz) = 24 ∧
  pd_upper (PageInit BLCKSZ sz) = BLCKSZ - MAXALIGN sz ∧
  pd_special (PageInit BLCKSZ sz) = BLCKSZ - MAXALIGN sz ∧
  PageGetPageSize (PageInit BLCKSZ sz) = BLCKSZ.
Proof.
  intros Hs. pose proof (MAXALIGN_bounds sz).
  assert (MAXALIGN sz ≤ 8168) by (apply MAXALIGN_mono; [unfold BLCKSZ in *; lia | done]).
  set (a := MAXALIGN sz) in *. unfold PageInit, PageGetPageSize, BLCKSZ in *. fold a.
  page_unfold. change (Z.lor 8192 PG_PAGE_LAYOUT_VERSION) with 8196.
  repeat apply conj; mem_simpl;
    rewrite mget_mput2 by (rewrite ?zlen_mput, ?zlen_replicate; lia); done.
Qed.

Lemma page_wf_empty p : page_hdr_wf p → pd_lower p = 24 → page_wf p.
Proof.
  intros Hh Hl.
  assert (Hm : PageGetMaxOffsetNumber p = 0)
    by (rewrite PageGetMaxOffsetNumber_eq, Hl by lia; done).
  split; [done|..]; intros *; rewrite Hm; lia.
Qed.

Lemma PageInit_wf sz :
  0 ≤ sz ≤ BLCKSZ - 24 → page_wf (PageInit BLCKSZ sz) ∧ page_slots (PageInit BLCKSZ sz) = [].
Proof.
  intros Hs. destruct (PageInit_fields sz Hs) as (_ & Hl & Hu & Hsp & _).
  pose proof (MAXALIGN_bounds sz). pose proof (MAXALIGN_mod sz).
  assert (MAXALIGN sz ≤ 8168) by (apply MAXALIGN_mono; [unfold BLCKSZ in *; lia | done]).
  split.
  - apply page_wf_empty; [|done]. constructor; rewrite ?Hl, ?Hu, ?Hsp; unfold BLCKSZ in *;
      try dlia; [apply PageInit_len | apply PageInit_bytes].
  - unfold page_slots, PageGetMaxOffsetNumber. rewrite Hl. done.
Qed.

(** The free line pointer search stays in range and finds only free ones. *)
Lemma find_free_linp_spec p off limit fuel :
  1 ≤ off ≤ limit →
  off ≤ find_free_linp p off limit fuel ≤ limit ∧
  (find_free_linp p off limit fuel < limit →
   (limit - off ≤ Z.of_nat fuel) →
   ItemIdIsUsed (PageGetItemId p (find_free_linp p off limit fuel)) = false ∧
   ItemIdHasStorage (PageGetItemId p (find_free_linp p off limit fuel)) = false).
Proof.
  revert off. induction fuel as [|fuel IH]; intros off Ho; simpl; [lia|].
  zcase. destruct (negb _ && negb _) eqn:E.
  - b2p. auto with lia.
  - destruct (IH (off + 1) ltac:(lia)) as [? Hf].
    split; [lia|]. intros. apply Hf; lia.
Qed.

(** [memmove] of the line pointers from [off] up by one slot. *)
Definition shuffle_linps (p : page) (off limit : Z) : page :=
  mwrite p (linp_addr (off + 1)) (mread p (linp_addr off) ((limit - off) * sizeof_ItemIdData)).

Lemma shuffle_spec p off limit :
  1 ≤ off ≤ limit → linp_addr (limit + 1) ≤ zlen p →
  (∀ j, 1 ≤ j ≤ off → PageGetItemId (shuffle_linps p off limit) j = PageGetItemId p j) ∧
  (∀ j, off < j ≤ limit → PageGetItemId (shuffle_linps p off limit) j = PageGetItemId p (j - 1)) ∧
  (∀ o l, 0 ≤ o → o + l ≤ 24 ∨ linp_addr (limit + 1) ≤ o →
     mread (shuffle_linps p off limit) o l = mread p o l).
Proof.
  intros Ho Hz.
  unfold shuffle_linps, PageGetItemId, linp_addr, SizeOfPageHeaderData, sizeof_ItemIdData, mget in *.
  set (n := (limit - off) * 4).
  assert (Hn : zlen (mread p (24 + 4 * (off - 1)) n) = n) by (apply zlen_mread; lia).
  repeat split; intros.
  - by rewrite mread_mwrite_disj by lia.
  - rewrite mread_memmove by lia. do 3 f_equal. lia.
  - rewrite mread_mwrite_disj; [done | lia | rewrite Hn; lia].
Qed.

(** The effect on the view: a new slot is inserted before index [k] (or
    appended), or replaces the slot at [k]. *)
Definition put_slot (s : list slot) (k : nat) (x : slot) (ins : bool) : list slot :=
  if ins then take k s ++ x :: drop k s else <[k := x]> s.

Lemma put_slot_lookup s k x ins (j : nat) :
  (k ≤ length s)%nat → (ins = false → k < length s)%nat →
  put_slot s k x ins !! j =
  if decide (j = k) then Some x
  else if decide (j < k)%nat then s !! j
  else if ins then s !! (j - 1)%nat else s !! j.
Proof.
  intros Hk Hl. unfold put_slot. destruct ins.
  - destruct (decide (j < k)%nat).
    { rewrite lookup_app_l by (rewrite length_take; lia). rewrite lookup_take_lt by lia.
      rewrite decide_False by lia. done. }
    rewrite lookup_app_r by (rewrite length_take; lia). rewrite length_take, Nat.min_l by lia.
    destruct (decide (j = k)) as [->|]; [by rewrite Nat.sub_diag|].
    destruct (j - k)%nat as [|d] eqn:E; [lia|]. simpl. rewrite lookup_drop. f_equal. lia.
  - destruct (decide (j = k)) as [->|].
    + apply list_lookup_insert_eq. auto.
    + rewrite list_lookup_insert_ne by done. by destruct (decide _).
Qed.

Section place.
Local Set Default Proof Using "All".
Context (p : page) (item : list Z) (off lower upper : Z) (sh : bool).
Let limit := PageGetMaxOffsetNumber p + 1.
Let q := place_item p item off limit lower upper sh.
Context (Hwf : page_wf p) (Hitem : Forall is_byte item) (Hsz : 0 < zlen item).
Context (Hoff : 1 ≤ off ≤ limit) (Hsh : sh = true → off < limit).
Context (Hlower : lower = if (off =? limit) || sh then pd_lower p + 4 else pd_lower p).
Context (Hupper : upper = pd_upper p - MAXALIGN (zlen item)) (Hfit : lower ≤ upper).

Lemma place_limit : linp_addr limit = pd_lower p.
Proof.
destruct (wf_hdr _ Hwf). unfold limit, linp_addr, SizeOfPageHeaderData, sizeof_ItemIdData.
rewrite PageGetMaxOffsetNumber_eq by done. dlia.
Qed.

Lemma place_room :
24 ≤ linp_addr off ∧ linp_addr off + 4 ≤ lower ∧ upper + zlen item ≤ pd_upper p ∧
pd_upper p ≤ 8192 ∧ zlen p = 8192 ∧ 24 ≤ lower ∧ zlen item < 2 ^ 15.
Proof.
pose proof place_limit as HL. destruct (wf_hdr _ Hwf). fold BLCKSZ in *.
pose proof (MAXALIGN_bounds (zlen item)).
unfold linp_addr, SizeOfPageHeaderData, sizeof_ItemIdData, BLCKSZ in *.
destruct (Z.eqb_spec off limit); destruct sh; simpl in Hlower; repeat split; lia.
Qed.

(** The page once the line pointers have made room. *)
Let p1 := if sh then shuffle_linps p off limit else p.

Lemma place_unfold :
q = set_pd_upper (set_pd_lower (mwrite (PageSetItemId p1 off (mkItemId upper LP_NORMAL (zlen item)))
upper item) lower) upper.
Proof. unfold q, p1, place_item. by destruct sh. Qed.

Lemma place_p1_len : zlen p1 = zlen p.
Proof. unfold p1. destruct sh; [apply zlen_mwrite | done]. Qed.

Lemma place_p1_reads o l :
0 ≤ o → o + l ≤ 24 ∨ lower ≤ o → mread p1 o l = mread p o l.
Proof.
intros Ho Hd. pose proof place_limit as HL. pose proof place_room.
unfold p1. destruct sh eqn:Es; [|done].
apply (shuffle_spec p off limit); [lia| |done|].
- unfold linp_addr, SizeOfPageHeaderData, sizeof_ItemIdData in *.
rewrite orb_true_r in Hlower. lia.
- unfold linp_addr, SizeOfPageHeaderData, sizeof_ItemIdData in *.
rewrite orb_true_r in Hlower. lia.
Qed.

Lemma place_reads o l :
0 ≤ o → o + l ≤ 12 ∨ (16 ≤ o ∧ o + l ≤ 24) ∨ pd_upper p ≤ o → mread q o l = mread p o l.
Proof.
intros Ho Hd. pose proof place_room. pose proof place_p1_len. rewrite place_unfold.
page_unfold. mem_simpl. apply place_p1_reads; lia.
Qed.

Lemma place_fields :
pd_lower q = lower ∧ pd_upper q = upper ∧ pd_special q = pd_special p ∧ zlen q = BLCKSZ.
Proof.
pose proof place_room. pose proof place_p1_len. pose proof (place_reads 16 2) as Hr.
destruct (hdr_field_bound p (wf_bytes _ (wf_hdr _ Hwf))) as (_ & ? & ? & _).
rewrite place_unfold in *. repeat apply conj.
- page_unfold. mem_simpl. apply mget_mput2; [lia| |lia]. mem_simpl. lia.
- page_unfold. apply mget_mput2; [lia| |lia]. mem_simpl. lia.
- unfold pd_special, mget. f_equal. apply Hr; lia.
- page_unfold. mem_simpl. unfold BLCKSZ. lia.
Qed.

Lemma place_bytes : Forall is_byte q.
Proof.
rewrite place_unfold. page_unfold. repeat (apply mput_byte || apply mwrite_byte); try done.
unfold p1. destruct (wf_hdr _ Hwf). destruct sh; [|done].
apply mwrite_byte; [done | by apply mread_byte].
Qed.

Lemma place_item_new : PageGetItemId q off = mkItemId upper LP_NORMAL (zlen item).
Proof.
pose proof place_room. pose proof place_p1_len.
rewrite place_unfold. unfold PageGetItemId at 1. page_unfold. mem_simpl.
fold (linp_addr off). rewrite mget_mput4.
- apply lp_decode_encode; cbn [lp_off lp_flags lp_len]; unfold LP_NORMAL; lia.
- lia.
- lia.
- apply lp_encode_bound.
Qed.

Lemma place_item_content : mread q upper (zlen item) = item.
Proof.
pose proof place_room. pose proof place_p1_len.
rewrite place_unfold. page_unfold. mem_simpl.
apply mread_mwrite_same; [lia|]. mem_simpl. lia.
Qed.

Lemma place_item_old j :
1 ≤ j → j ≠ off → linp_addr j + 4 ≤ lower →
PageGetItemId q j = PageGetItemId p (if sh && (off <? j) then j - 1 else j).
Proof.
intros Hj Hne Hl. pose proof place_room. pose proof place_p1_len. pose proof place_limit.
transitivity (PageGetItemId p1 j).
{ rewrite place_unfold. page_unfold. by mem_simpl. }
unfold p1. destruct sh eqn:Es; [|done]. simpl.
rewrite orb_true_r in Hlower.
unfold linp_addr, SizeOfPageHeaderData, sizeof_ItemIdData in *.
destruct (shuffle_spec p off limit) as (Ha & Hb & _);
[lia | unfold linp_addr, SizeOfPageHeaderData, sizeof_ItemIdData in *; lia |].
zcase; [apply Hb | apply Ha]; lia.
Qed.

Let ins := (off =? limit) || sh.

Lemma place_maxoff : PageGetMaxOffsetNumber q = PageGetMaxOffsetNumber p + (if ins then 1 else 0).
Proof.
destruct place_fields as (Hlo & _). destruct (wf_hdr _ Hwf).
pose proof place_room.
rewrite !PageGetMaxOffsetNumber_eq by (rewrite ?Hlo; lia).
rewrite Hlo, Hlower. fold limit ins.
destruct ins; dlia.
Qed.

(** Where the line pointer now at [i] was before. *)
Let src i := if sh && (off <? i) then i - 1 else i.

Lemma place_src i :
1 ≤ i ≤ PageGetMaxOffsetNumber q → i ≠ off →
PageGetItemId q i = PageGetItemId p (src i) ∧ 1 ≤ src i ≤ PageGetMaxOffsetNumber p.
Proof.
intros Hi Hne. rewrite place_maxoff in Hi.
pose proof place_limit as HL. split.
- apply place_item_old; [lia|done|]. rewrite Hlower. fold limit ins.
unfold linp_addr, SizeOfPageHeaderData, sizeof_ItemIdData in *. destruct ins; lia.
- unfold src, ins, limit in *. destruct sh; simpl; zcase;
destruct (Z.eqb_spec off (PageGetMaxOffsetNumber p + 1)); simpl in *; lia.
Qed.

Lemma place_src_inj i j :
i ≠ off → j ≠ off → 1 ≤ i ≤ PageGetMaxOffsetNumber q → 1 ≤ j ≤ PageGetMaxOffsetNumber q →
i ≠ j → src i ≠ src j.
Proof. intros. unfold src. destruct sh; simpl; zcase; lia. Qed.

Lemma place_wf : page_wf q.
Proof.
destruct place_fields as (Hlo & Hup & Hsp & Hlen).
pose proof place_room. pose proof (MAXALIGN_mod (zlen item)).
destruct (wf_hdr _ Hwf).
split.
- constructor; rewrite ?Hlo, ?Hup, ?Hsp; try done; try lia; try (rewrite Hupper; dlia).
+ by apply place_bytes.
+ rewrite Hlower. destruct (_ || _); dlia.
- intros i Hi Hl. unfold lp_in. rewrite Hup, Hsp. destruct (decide (i = off)) as [->|Hne].
+ pose proof place_item_new as new. rewrite new. cbn [lp_off lp_len]. rewrite Hupper. dlia.
+ destruct (place_src i Hi Hne) as [E Hr]. rewrite E in *.
destruct (wf_item _ Hwf _ Hr Hl) as (? & ? & ?).
pose proof (MAXALIGN_bounds (zlen item)). lia.
- assert (Hno : ∀ i, 1 ≤ i ≤ PageGetMaxOffsetNumber q → i ≠ off → lp_len (PageGetItemId q i) ≠ 0 →
lp_disjoint (PageGetItemId q off) (PageGetItemId q i)).
{ intros i Hi Hne Hl. pose proof place_item_new as new. rewrite new.
destruct (place_src i Hi Hne) as [E Hr]. rewrite E in *.
destruct (wf_item _ Hwf _ Hr Hl) as (? & ? & ?).
left. cbn [lp_off lp_len]. lia. }
intros i j Hi Hj Hij Hli Hlj.
destruct (decide (i = off)) as [->|Hni]; [by auto|].
destruct (decide (j = off)) as [->|Hnj]; [apply lp_disjoint_sym; auto|].
destruct (place_src i Hi Hni) as [Ei Hri]. destruct (place_src j Hj Hnj) as [Ej Hrj].
rewrite Ei, Ej in *. apply (wf_disjoint _ Hwf); auto using place_src_inj.
Qed.

Lemma place_slots :
page_slots q = put_slot (page_slots p) (Z.to_nat (off - 1)) (mkSlot LP_NORMAL 0 item) ins.
Proof.
pose proof (PageGetMaxOffsetNumber_nonneg p).
pose proof (length_page_slots p).
apply list_eq. intros k. rewrite put_slot_lookup.
2: unfold limit in *; lia.
2:{ unfold ins, limit in *. destruct sh; [by rewrite orb_true_r|].
rewrite orb_false_r. destruct (Z.eqb_spec off (PageGetMaxOffsetNumber p + 1)); [done|lia]. }
rewrite !page_slots_lookup, place_maxoff.
destruct (decide (k = Z.to_nat (off - 1))) as [->|Hk].
- rewrite decide_True by (unfold ins, limit in *; destruct (Z.eqb_spec off (PageGetMaxOffsetNumber p + 1));
destruct sh; simpl; lia).
replace (1 + Z.of_nat (Z.to_nat (off - 1))) with off by lia. f_equal.
unfold slot_at, slot_of. pose proof place_item_new as new. pose proof place_item_content as content. rewrite new. cbn [lp_off lp_len lp_flags].
destruct (Z.eqb_spec (zlen item) 0); [lia|]. f_equal.
unfold PageGetItemBytes. cbn [lp_off lp_len]. exact content.
- assert (Hslot : 1 + Z.of_nat k ≤ PageGetMaxOffsetNumber q →
slot_at q (1 + Z.of_nat k) = slot_at p (src (1 + Z.of_nat k))).
{ intros Hle. destruct (place_src (1 + Z.of_nat k)) as [E Hr]; [lia..|].
unfold slot_at. rewrite E. unfold slot_of.
destruct (Z.eqb_spec (lp_len (PageGetItemId p (src (1 + Z.of_nat k)))) 0) as [|Hl]; [done|].
f_equal. unfold PageGetItemBytes. 
destruct (wf_item _ Hwf _ Hr Hl) as (? & _). pose proof place_room.
apply place_reads; [lia|]. lia. }
rewrite place_maxoff in Hslot. unfold src in Hslot. unfold ins, limit in *.
destruct (Z.eqb_spec off (PageGetMaxOffsetNumber p + 1)); destruct sh; simpl in *;
repeat case_decide; try lia; try done;
(rewrite Hslot by lia); zcase; simpl; f_equal; f_equal; lia.
Qed.
End place.

Lemma maxoff_small p : page_hdr_wf p → 0 ≤ PageGetMaxOffsetNumber p ≤ 2042.
Proof.
  intros []. rewrite PageGetMaxOffsetNumber_eq by done. unfold BLCKSZ in *. dlia.
Qed.

Lemma limit_eq p :
  page_hdr_wf p → OffsetNumberNext (PageGetMaxOffsetNumber p) = PageGetMaxOffsetNumber p + 1.
Proof.
  intros Hh. pose proof (maxoff_small p Hh). unfold OffsetNumberNext.
  rewrite u16_small by lia. lia.
Qed.

Lemma page_pointers_ok_wf p : page_hdr_wf p → page_pointers_ok p = true.
Proof.
  intros []. unfold page_pointers_ok, SizeOfPageHeaderData, BLCKSZ in *. by zcase.
Qed.

(** What selection can return on a well-formed page. *)
Lemma select_offset_spec p off flags q r sh :
  page_wf p → 0 ≤ off → select_offset p off flags = Some (q, r, sh) →
  let limit := PageGetMaxOffsetNumber p + 1 in
  (q = p ∨ q = PageClearHasFreeLinePointers p) ∧ 1 ≤ r ∧ (sh = true → r < limit) ∧
  (OffsetNumberIsValid off = true → r = off) ∧
  (sh = false → r < limit → ItemIdHasStorage (PageGetItemId p r) = false ∧
                            ItemIdIsUsed (PageGetItemId p r) = false) ∧
  (has_flag flags PAI_OVERWRITE = true → sh = false).
Proof.
  intros Hwf Hnn Hsel limit. unfold select_offset in Hsel.
  rewrite (limit_eq _ (wf_hdr _ Hwf)) in Hsel. fold limit in Hsel.
  pose proof (maxoff_small p (wf_hdr _ Hwf)).
  destruct (OffsetNumberIsValid off) eqn:Ev.
  - assert (1 ≤ off) by (unfold OffsetNumberIsValid, InvalidOffsetNumber in Ev; b2p; lia).
    destruct (has_flag flags PAI_OVERWRITE).
    + destruct (_ && _) eqn:Eo; simplify_eq. split_and!; auto; try done.
      intros _ Hlt. apply Z.ltb_lt in Hlt. rewrite Hlt in Eo. simpl in Eo. b2p. done.
    + simplify_eq. split_and!; auto; try done; intros E; b2p; [lia | lia].
  - destruct (PageHasFreeLinePointers p).
    + destruct (find_free_linp_spec p 1 limit (Z.to_nat limit)) as [? Hfree]; [lia|].
      set (o := find_free_linp p 1 limit (Z.to_nat limit)) in *.
      destruct (Z.leb_spec limit o); simplify_eq; split_and!; auto; try lia; try done.
      intros _ _. destruct Hfree; [lia..|done].
    + simplify_eq. split_and!; auto; try lia; try done.
Qed.

Lemma PageClearHasFreeLinePointers_frame p : page_frame p (PageClearHasFreeLinePointers p).
Proof. apply frame_flags. Qed.

Ltac refuse := eexists _, _; split; [done|]; split; [done|]; left; done.

(** Refinement: on a well-formed page the function terminates without PANIC,
    keeps the page well formed, and either refuses (the view is unchanged) or
    puts the new item at the returned offset number and nowhere else. *)
Lemma PageAddItemExtended_refines p item off flags :
  page_wf p → Forall is_byte item → 0 < zlen item → 0 ≤ off →
  ∃ q r, PageAddItemExtended p item off flags = Ok (q, r) ∧ page_wf q ∧
    ((r = InvalidOffsetNumber ∧ page_slots q = page_slots p) ∨
     (1 ≤ r ≤ PageGetMaxOffsetNumber p + 1 ∧
      (OffsetNumberIsValid off = true → r = off) ∧
      ∃ ins, page_slots q = put_slot (page_slots p) (Z.to_nat (r - 1)) (mkSlot LP_NORMAL 0 item) ins ∧
        (ins = false → lp_len (PageGetItemId p r) = 0 ∧ lp_flags (PageGetItemId p r) = LP_UNUSED) ∧
        (has_flag flags PAI_OVERWRITE = true → ins = (r =? PageGetMaxOffsetNumber p + 1)) ∧
        (has_flag flags PAI_IS_HEAP = true → r ≤ MaxHeapTuplesPerPage) ∧
        PageGetMaxOffsetNumber q = PageGetMaxOffsetNumber p + (if ins then 1 else 0) ∧
        pd_upper q = pd_upper p - MAXALIGN (zlen item))).
Proof.
  intros Hwf Hb Hsz Hnn. unfold PageAddItemExtended.
  rewrite page_pointers_ok_wf by apply Hwf. simpl.
  rewrite (limit_eq _ (wf_hdr _ Hwf)).
  destruct (select_offset p off flags) as [[[q r] sh]|] eqn:Hsel; [|by refuse].
  destruct (select_offset_spec _ _ _ _ _ _ Hwf Hnn Hsel) as (Hq & Hr & Hsh & Hvalid & Hfree & Hnosh).
  assert (Hf : page_frame p q) by (destruct Hq as [->| ->]; auto using PageClearHasFreeLinePointers_frame with page).
  pose proof (frame_wf _ _ Hf Hwf) as Hwq. pose proof (frame_slots _ _ Hf Hwf) as Hsl.
  pose proof (frame_maxoff _ _ Hf) as Hmo.
  destruct (Z.ltb_spec (PageGetMaxOffsetNumber p + 1) r); [by refuse|].
  destruct (_ && _) eqn:Eheap; [by refuse|].
  set (lower := if (r =? PageGetMaxOffsetNumber p + 1) || sh
                then pd_lower q + sizeof_ItemIdData else pd_lower q).
  destruct (Z.ltb_spec (pd_upper q - MAXALIGN (zlen item)) lower); [by refuse|].
  assert (Hlow : lower = if (r =? PageGetMaxOffsetNumber q + 1) || sh then pd_lower q + 4 else pd_lower q)
    by (unfold lower, sizeof_ItemIdData; by rewrite Hmo).
  rewrite <-Hmo. rewrite <-Hmo in Hsh.
  eexists _, _. split; [done|]. split.
  { eapply place_wf; eauto with lia. }
  right. split; [lia|]. split; [done|]. exists ((r =? PageGetMaxOffsetNumber q + 1) || sh).
  rewrite <-Hsl. split_and!.
  - eapply place_slots; eauto with lia.
  - intros Hi. b2p. destruct (Hfree ltac:(done) ltac:(lia)) as [Hs Hu].
    unfold ItemIdHasStorage, ItemIdIsUsed in *. b2p. done.
  - intros Ho. rewrite (Hnosh Ho), orb_false_r, Hmo. done.
  - intros Hi. rewrite Hi in Eheap. simpl in Eheap. b2p. done.
  - eapply place_maxoff; eauto with lia.
  - destruct (place_fields q item r lower (pd_upper q - MAXALIGN (zlen item)) sh) as (_ & -> & _); auto with lia.
    by rewrite (fr_upper _ _ Hf).
Qed.

(** Acceptance: an item for an explicit, free or fresh, offset number that
    fits is never refused. *)
Lemma PageAddItemExtended_accepts p item off flags :
  page_wf p → 0 < zlen item →
  1 ≤ off ≤ PageGetMaxOffsetNumber p + 1 →
  has_flag flags PAI_OVERWRITE = true →
  (off ≤ PageGetMaxOffsetNumber p →
   lp_len (PageGetItemId p off) = 0 ∧ lp_flags (PageGetItemId p off) = LP_UNUSED) →
  (has_flag flags PAI_IS_HEAP = true → off ≤ MaxHeapTuplesPerPage) →
  MAXALIGN (zlen item) + 4 ≤ pd_upper p - pd_lower p →
  ∃ q, PageAddItemExtended p item off flags = Ok (q, off).
Proof.
  intros Hwf Hsz Ho Hov Hfree Hheap Hfit. unfold PageAddItemExtended.
  rewrite page_pointers_ok_wf by apply Hwf. simpl.
  pose proof (maxoff_small p (wf_hdr _ Hwf)).
  assert (Hsel : select_offset p off flags = Some (p, off, false)).
  { unfold select_offset. rewrite (limit_eq _ (wf_hdr _ Hwf)), Hov.
    assert (OffsetNumberIsValid off = true) as ->.
    { unfold OffsetNumberIsValid, InvalidOffsetNumber. apply andb_true_intro.
      change MaxOffsetNumber with 2048. split; zcase; done. }
    destruct (Z.ltb_spec off (PageGetMaxOffsetNumber p + 1)); simpl; [|done].
    destruct Hfree as [Hl Hu]; [lia|].
    unfold ItemIdIsUsed, ItemIdHasStorage. by rewrite Hl, Hu. }
  rewrite Hsel, (limit_eq _ (wf_hdr _ Hwf)).
  destruct (Z.ltb_spec (PageGetMaxOffsetNumber p + 1) off); [lia|].
  destruct (_ && _) eqn:Eh; [b2p; specialize (Hheap ltac:(done)); lia|].
  unfold sizeof_ItemIdData.
  destruct (Z.ltb_spec (pd_upper p - MAXALIGN (zlen item))
              (if (off =? PageGetMaxOffsetNumber p + 1) || false then pd_lower p + 4 else pd_lower p))
    as [Hlt|]; [destruct (_ || _); lia|]. eauto.
Qed.

(** The free space reported for a heap page can be used: what fits it is
    added without naming an offset number. *)
Lemma find_unused_linp_spec p nline fuel : ∀ off,
  1 ≤ off → nline + 1 ≤ off + Z.of_nat fuel → find_unused_linp p off nline fuel ≤ nline →
  ∃ i, off ≤ i ≤ nline ∧ lp_flags (PageGetItemId p i) = LP_UNUSED.
Proof.
  induction fuel as [|fuel IH]; intros off Ho Hf Hr; cbn [find_unused_linp] in Hr; [lia|].
  destruct (Z.leb_spec off nline); [|lia].
  destruct (ItemIdIsUsed (PageGetItemId p off)) eqn:E; cbn [negb] in Hr.
  - destruct (IH (off + 1)) as (i & ? & ?); [lia..|]. exists i. split; [lia|done].
  - exists off. split; [lia|]. unfold ItemIdIsUsed in E. b2p. done.
Qed.

Lemma find_free_linp_least p limit fuel : ∀ off i,
  off ≤ i < limit → limit ≤ off + Z.of_nat fuel →
  lp_flags (PageGetItemId p i) = LP_UNUSED → lp_len (PageGetItemId p i) = 0 →
  find_free_linp p off limit fuel ≤ i.
Proof.
  induction fuel as [|fuel IH]; intros off i Hi Hf Hu Hl; cbn [find_free_linp]; [lia|].
  destruct (Z.ltb_spec off limit); [|lia]. cbv zeta.
  destruct (_ && _) eqn:E; [lia|]. destruct (decide (i = off)) as [->|]; [|apply IH; auto with lia].
  unfold ItemIdIsUsed, ItemIdHasStorage in E. by rewrite Hu, Hl in E.
Qed.

Lemma PageGetHeapFreeSpace_usable p item :
  page_wf p → PageGetMaxOffsetNumber p ≤ MaxHeapTuplesPerPage →
  (∀ i, 1 ≤ i ≤ PageGetMaxOffsetNumber p → lp_flags (PageGetItemId p i) = LP_UNUSED →
        lp_len (PageGetItemId p i) = 0) →
  0 < zlen item → MAXALIGN (zlen item) ≤ PageGetHeapFreeSpace p →
  ∃ q r, PageAddItem p item InvalidOffsetNumber false true = Ok (q, r) ∧ r ≠ InvalidOffsetNumber.
Proof.
  intros Hwf Hmax Hun Hsz Hfit. pose proof (MAXALIGN_bounds (zlen item)).
  pose proof (maxoff_small p (wf_hdr _ Hwf)) as Hn.
  unfold PageAddItem, PageAddItemExtended. rewrite page_pointers_ok_wf by apply Hwf. cbn [negb].
  rewrite (limit_eq _ (wf_hdr _ Hwf)). set (n := PageGetMaxOffsetNumber p) in *.
  assert (Hsp : MAXALIGN (zlen item) + 4 ≤ pd_upper p - pd_lower p ∧
    (n = MaxHeapTuplesPerPage → PageHasFreeLinePointers p = true ∧ find_unused_linp p 1 n (S (Z.to_nat n)) ≤ n)).
  { unfold PageGetHeapFreeSpace in Hfit. fold n in Hfit. change FirstOffsetNumber with 1 in Hfit.
    unfold PageGetFreeSpace, sizeof_ItemIdData in *.
    destruct (Z.ltb_spec (pd_upper p - pd_lower p) 4); [simpl in Hfit; lia|].
    destruct (Z.ltb_spec 0 (pd_upper p - pd_lower p - 4)); [|lia].
    destruct (Z.leb_spec MaxHeapTuplesPerPage n); [|lia].
    destruct (PageHasFreeLinePointers p); [|lia].
    destruct (Z.ltb_spec n (find_unused_linp p 1 n (S (Z.to_nat n)))); lia. }
  destruct Hsp as [Hspace Hfull].
  assert (Hsel : ∃ p' r, select_offset p InvalidOffsetNumber (Z.lor 0 PAI_IS_HEAP) = Some (p', r, false) ∧
    (p' = p ∨ p' = PageClearHasFreeLinePointers p) ∧ 1 ≤ r ≤ n + 1 ∧ r ≤ MaxHeapTuplesPerPage).
  { unfold select_offset. rewrite (limit_eq _ (wf_hdr _ Hwf)). fold n. cbn [OffsetNumberIsValid].
    change (OffsetNumberIsValid InvalidOffsetNumber) with false. cbn match.
    destruct (PageHasFreeLinePointers p) eqn:Eh.
    - set (f := find_free_linp p 1 (n + 1) (Z.to_nat (n + 1))).
      destruct (find_free_linp_spec p 1 (n + 1) (Z.to_nat (n + 1))) as [Hf _]; [lia|]. fold f in Hf.
      assert (f ≤ MaxHeapTuplesPerPage).
      { destruct (decide (n = MaxHeapTuplesPerPage)) as [En|]; [|lia].
        destruct (Hfull En) as [_ Hu]. apply find_unused_linp_spec in Hu as (i & Hi & Hif); [|lia..].
        pose proof (find_free_linp_least p (n + 1) (Z.to_nat (n + 1)) 1 i ltac:(lia) ltac:(lia) Hif (Hun i Hi Hif)).
        unfold f. lia. }
      destruct (n + 1 <=? f); eauto 10.
    - exists p, (n + 1). split_and!; [done|by left|lia|lia|].
      destruct (decide (n = MaxHeapTuplesPerPage)) as [En|]; [|lia]. destruct (Hfull En). congruence. }
  destruct Hsel as (p' & r & -> & Hp' & Hr & Hrm).
  assert (Hfr : page_frame p p') by (destruct Hp' as [->| ->]; auto using PageClearHasFreeLinePointers_frame with page).
  destruct (Z.ltb_spec (n + 1) r); [lia|]. destruct (Z.ltb_spec MaxHeapTuplesPerPage r); [lia|].
  rewrite andb_false_r. rewrite (fr_upper _ _ Hfr), (fr_lower _ _ Hfr). unfold sizeof_ItemIdData.
  destruct (Z.ltb_spec (pd_upper p - MAXALIGN (zlen item))
    (if (r =? n + 1) || false then pd_lower p + 4 else pd_lower p)); [destruct (_ || _); lia|].
  eexists _, r. split; [done|]. unfold InvalidOffsetNumber. lia.
Qed.
