(* ===== verification/PageIndex.v ===== *)
(** * Index pages: [PageIndexTupleDelete], [PageIndexTupleDeleteNoCompact],
      [PageIndexTupleOverwrite]

    The three functions of [bufpage.c] that remove or replace one tuple of an
    index page.  All of them slide the tuple data that lies below the affected
    tuple and then adjust the offsets of the line pointers that pointed into
    the moved range; the first part of the properties is about that shared
    step. *)

From S2P Require Import Prelude Mem Page PageAdd.

(** The paranoid header test of the index page routines. *)
Definition page_pointers_sane (p : page) : bool :=
  page_pointers_ok p && (pd_special p =? MAXALIGN (pd_special p)).

(** The test on the affected line pointer. *)
Definition item_sane (p : page) (offset size : Z) : bool :=
  negb ((offset <? pd_upper p) || (pd_special p <? offset + size) ||
        negb (offset =? MAXALIGN offset)).

(** The loop that adjusts the offsets of the line pointers [i .. i+n-1] that
    point at or below [offset].  [guard] is the [ItemIdHasStorage] test that
    the no-compaction and overwrite variants make. *)
Definition adjust_linp (guard : bool) (offset delta : Z) (ii : ItemIdData) : ItemIdData :=
  if (negb guard || ItemIdHasStorage ii) && (ItemIdGetOffset ii <=? offset)
  then lp_set_off ii (lp_off ii + delta) else ii.

Fixpoint adjust_linps (guard : bool) (offset delta : Z) (p : page) (i : Z) (n : nat) : page :=
  match n with
  | O => p
  | S n =>
      let p := PageSetItemId p i (adjust_linp guard offset delta (PageGetItemId p i)) in
      adjust_linps guard offset delta p (i + 1) n
  end.

(** [memmove(addr + delta, addr, offset - pd_upper)] with [addr] the start of
    the tuple space. *)
Definition slide_tuples (p : page) (offset delta : Z) : page :=
  let up := pd_upper p in
  mwrite p (up + delta) (mread p up (offset - up)).

Definition PageIndexTupleDelete (p : page) (offnum : Z) : res page :=
  if negb (page_pointers_sane p) then Err EError else
  let nline := PageGetMaxOffsetNumber p in
  if (offnum <=? 0) || (nline <? offnum) then Err EError else
  let tup := PageGetItemId p offnum in
  let size := ItemIdGetLength tup in
  let offset := ItemIdGetOffset tup in
  if negb (item_sane p offset size) then Err EError else
  let size := MAXALIGN size in
  let nbytes := pd_lower p - linp_addr (offnum + 1) in
  let p := if 0 <? nbytes
           then mwrite p (linp_addr offnum) (mread p (linp_addr (offnum + 1)) nbytes)
           else p in
  let p := if pd_upper p <? offset then slide_tuples p offset size else p in
  let p := set_pd_upper p (pd_upper p + size) in
  let p := set_pd_lower p (pd_lower p - sizeof_ItemIdData) in
  if negb (PageIsEmpty p)
  then Ok (adjust_linps false offset size p 1 (Z.to_nat (nline - 1)))
  else Ok p.

Definition PageIndexTupleDeleteNoCompact (p : page) (offnum : Z) : res page :=
  if negb (page_pointers_sane p) then Err EError else
  let nline := PageGetMaxOffsetNumber p in
  if (offnum <=? 0) || (nline <? offnum) then Err EError else
  let tup := PageGetItemId p offnum in
  let size := ItemIdGetLength tup in
  let offset := ItemIdGetOffset tup in
  if negb (item_sane p offset size) then Err EError else
  let size := MAXALIGN size in
  let '(p, nline) :=
    if offnum <? nline then (PageSetItemId p offnum (ItemIdSetUnused tup), nline)
    else (set_pd_lower p (pd_lower p - sizeof_ItemIdData), nline - 1) in
  let p := if pd_upper p <? offset then slide_tuples p offset size else p in
  let p := set_pd_upper p (pd_upper p + size) in
  if negb (PageIsEmpty p)
  then Ok (adjust_linps true offset size p 1 (Z.to_nat nline))
  else Ok p.

(** The result is the page and the C return value. *)
Definition PageIndexTupleOverwrite (p : page) (offnum : Z) (newtup : list Z) : res (page * bool) :=
  let newsize := zlen newtup in
  if negb (page_pointers_sane p) then Err EError else
  let itemcount := PageGetMaxOffsetNumber p in
  if (offnum <=? 0) || (itemcount <? offnum) then Err EError else
  let tupid := PageGetItemId p offnum in
  let oldsize := ItemIdGetLength tupid in
  let offset := ItemIdGetOffset tupid in
  if negb (item_sane p offset oldsize) then Err EError else
  let oldsize := MAXALIGN oldsize in
  let alignednewsize := MAXALIGN newsize in
  if oldsize + (pd_upper p - pd_lower p) <? alignednewsize then Ok (p, false) else
  let size_diff := oldsize - alignednewsize in
  let p := if negb (size_diff =? 0) then
             let p := slide_tuples p offset size_diff in
             let p := set_pd_upper p (pd_upper p + size_diff) in
             adjust_linps true offset size_diff p FirstOffsetNumber (Z.to_nat itemcount)
           else p in
  let tupid := PageGetItemId p offnum in
  let p := PageSetItemId p offnum (mkItemId (offset + size_diff) (lp_flags tupid) newsize) in
  Ok (mwrite p (offset + size_diff) newtup, true).

(** ** The adjustment loop *)

Lemma PageSetItemId_reads p i lp o l :
  1 ≤ i → 0 ≤ o → o + l ≤ linp_addr i ∨ linp_addr i + 4 ≤ o →
  mread (PageSetItemId p i lp) o l = mread p o l.
Proof. intros. unfold PageSetItemId. by rewrite mread_mput_disj by lia. Qed.

Lemma zlen_PageSetItemId p i lp : zlen (PageSetItemId p i lp) = zlen p.
Proof. apply zlen_mput. Qed.

Lemma adjust_linps_reads g offset delta p i n o l :
  1 ≤ i → 0 ≤ o → o + l ≤ 24 ∨ linp_addr (i + Z.of_nat n) ≤ o →
  mread (adjust_linps g offset delta p i n) o l = mread p o l.
Proof.
  revert p i. induction n as [|n IH]; intros p i Hi Ho Hd; simpl; [done|].
  rewrite IH by (unfold linp_addr, SizeOfPageHeaderData, sizeof_ItemIdData in *; lia).
  apply PageSetItemId_reads; [done..|].
  unfold linp_addr, SizeOfPageHeaderData, sizeof_ItemIdData in *. lia.
Qed.

Lemma adjust_linps_len g offset delta p i n : zlen (adjust_linps g offset delta p i n) = zlen p.
Proof.
  revert p i. induction n as [|n IH]; intros; simpl; [done|].
  by rewrite IH, zlen_PageSetItemId.
Qed.

Lemma adjust_linps_bytes g offset delta p i n :
  Forall is_byte p → Forall is_byte (adjust_linps g offset delta p i n).
Proof.
  revert p i. induction n as [|n IH]; intros; simpl; [done|]. by apply IH, mput_byte.
Qed.

Lemma adjust_linps_spec g offset delta p i n j :
  1 ≤ i → linp_addr (i + Z.of_nat n) ≤ zlen p →
  (∀ k, i ≤ k < i + Z.of_nat n →
     0 ≤ lp_off (adjust_linp g offset delta (PageGetItemId p k)) < 2 ^ 15) →
  1 ≤ j →
  PageGetItemId (adjust_linps g offset delta p i n) j =
  if decide (i ≤ j < i + Z.of_nat n) then adjust_linp g offset delta (PageGetItemId p j)
  else PageGetItemId p j.
Proof.
  revert p i. induction n as [|n IH]; intros p i Hi Hz Hb Hj; simpl.
  { rewrite decide_False by lia. done. }
  assert (Hlp : ∀ lp, 0 ≤ lp_flags lp < 4 ∧ 0 ≤ lp_len lp < 2 ^ 15 →
                0 ≤ lp_flags (adjust_linp g offset delta lp) < 4 ∧
                0 ≤ lp_len (adjust_linp g offset delta lp) < 2 ^ 15).
  { intros lp. unfold adjust_linp. by destruct (_ && _). }
  assert (Hat : PageGetItemId (PageSetItemId p i (adjust_linp g offset delta (PageGetItemId p i))) i =
                adjust_linp g offset delta (PageGetItemId p i)).
  { pose proof (PageGetItemId_bound p i) as (_ & ? & ?). destruct (Hlp (PageGetItemId p i)); [done|].
    apply PageGetSetItemId; auto with lia.
    unfold linp_addr, SizeOfPageHeaderData, sizeof_ItemIdData in *. lia. }
  rewrite IH; [|lia| |..|done].
  - destruct (decide (j = i)) as [->|Hne].
    + rewrite decide_False, decide_True by lia. done.
    + rewrite PageGetSetItemId_ne by lia. repeat case_decide; try lia; done.
  - rewrite zlen_PageSetItemId. unfold linp_addr, SizeOfPageHeaderData, sizeof_ItemIdData in *. lia.
  - intros k Hk. rewrite PageGetSetItemId_ne by lia. apply Hb. lia.
Qed.

(** ** The slide *)

Lemma slide_len p offset delta : zlen (slide_tuples p offset delta) = zlen p.
Proof. apply zlen_mwrite. Qed.

Lemma slide_reads p offset delta o l :
  pd_upper p ≤ offset → 0 ≤ pd_upper p + delta → offset ≤ zlen p → 0 ≤ pd_upper p →
  0 ≤ o → o + l ≤ pd_upper p + delta ∨ offset + delta ≤ o →
  mread (slide_tuples p offset delta) o l = mread p o l.
Proof.
  intros. unfold slide_tuples. apply mread_mwrite_disj; [done|].
  rewrite zlen_mread by lia. lia.
Qed.

Lemma slide_moved p offset delta o l :
  0 ≤ pd_upper p ≤ offset → 0 ≤ pd_upper p + delta → offset ≤ zlen p → offset + delta ≤ zlen p →
  pd_upper p ≤ o → 0 ≤ l → o + l ≤ offset →
  mread (slide_tuples p offset delta) (o + delta) l = mread p o l.
Proof.
  intros. unfold slide_tuples. rewrite mread_memmove by lia. f_equal. lia.
Qed.

Lemma page_pointers_sane_wf p : page_hdr_wf p → page_pointers_sane p = true.
Proof.
  intros Hh. unfold page_pointers_sane. rewrite page_pointers_ok_wf by done. simpl.
  apply Z.eqb_eq. symmetry. apply MAXALIGN_id, Hh.
Qed.

Lemma item_sane_wf p i :
  page_wf p → 1 ≤ i ≤ PageGetMaxOffsetNumber p → lp_len (PageGetItemId p i) ≠ 0 →
  item_sane p (lp_off (PageGetItemId p i)) (lp_len (PageGetItemId p i)) = true.
Proof.
  intros Hwf Hi Hl. destruct (wf_item _ Hwf i Hi Hl) as (? & ? & Hm).
  pose proof (MAXALIGN_bounds (lp_len (PageGetItemId p i))).
  apply MAXALIGN_id in Hm. unfold item_sane. rewrite Hm, Z.eqb_refl. by zcase.
Qed.

Lemma mwrite_nil m off : mwrite m off [] = m.
Proof.
  unfold mwrite. destruct (in_range m off (zlen [])) eqn:E; [|done].
  simpl. by rewrite Nat.add_0_r, take_drop.
Qed.

Lemma mread_0 m off : mread m off 0 = [].
Proof. done. Qed.

Lemma slide_none p offset delta : pd_upper p = offset → slide_tuples p offset delta = p.
Proof. intros <-. unfold slide_tuples. by rewrite Z.sub_diag, mread_0, mwrite_nil. Qed.

Lemma slide_if p offset delta :
  pd_upper p ≤ offset →
  (if pd_upper p <? offset then slide_tuples p offset delta else p) = slide_tuples p offset delta.
Proof. intros. zcase; [done|]. by rewrite slide_none by lia. Qed.

(** Where an item other than the target lies, relative to the target. *)
Section around.
Context (p : page) (t : Z) (Hwf : page_wf p) (Ht : 1 ≤ t ≤ PageGetMaxOffsetNumber p).
Let tl := PageGetItemId p t.
Context (Htl : lp_len tl ≠ 0).

Lemma around_target :
pd_upper p ≤ lp_off tl ∧ lp_off tl + MAXALIGN (lp_len tl) ≤ pd_special p ∧
lp_off tl mod 8 = 0 ∧ 0 < lp_len tl ≤ MAXALIGN (lp_len tl).
Proof using Hwf Ht Htl.
destruct (wf_item _ Hwf t Ht Htl) as (? & ? & ?).
pose proof (MAXALIGN_bounds (lp_len tl)). pose proof (PageGetItemId_bound p t).
unfold tl in *. lia.
Qed.

Lemma around_other j :
1 ≤ j ≤ PageGetMaxOffsetNumber p → j ≠ t → lp_len (PageGetItemId p j) ≠ 0 →
let lp := PageGetItemId p j in
pd_upper p ≤ lp_off lp ∧ lp_off lp + MAXALIGN (lp_len lp) ≤ pd_special p ∧ lp_off lp mod 8 = 0 ∧
0 < lp_len lp ≤ MAXALIGN (lp_len lp) ∧
(if lp_off lp <=? lp_off tl then lp_off lp + MAXALIGN (lp_len lp) ≤ lp_off tl
else lp_off tl + MAXALIGN (lp_len tl) ≤ lp_off lp).
Proof using Hwf Ht Htl.
intros Hj Hne Hl lp. destruct (wf_item _ Hwf j Hj Hl) as (? & ? & ?).
pose proof (wf_disjoint _ Hwf j t Hj Ht Hne Hl Htl) as Hd.
pose proof around_target.
pose proof (MAXALIGN_bounds (lp_len lp)). pose proof (PageGetItemId_bound p j).
unfold lp_disjoint in Hd. unfold tl, lp in *. zcase; lia.
Qed.
End around.

(** A page [q] obtained from [p] by renumbering line pointers and relocating
    items without changing lengths, flags or contents shows the same slots,
    and stays well formed when relocation keeps items apart. *)
Section relocate.
Context (p q : page) (src : Z → Z).
Context (Hsrc : ∀ i, 1 ≤ i ≤ PageGetMaxOffsetNumber q → 1 ≤ src i ≤ PageGetMaxOffsetNumber p).
Context (Hlen : ∀ i, 1 ≤ i ≤ PageGetMaxOffsetNumber q →
lp_len (PageGetItemId q i) = lp_len (PageGetItemId p (src i)) ∧
lp_flags (PageGetItemId q i) = lp_flags (PageGetItemId p (src i))).
Context (Hlink : ∀ i, 1 ≤ i ≤ PageGetMaxOffsetNumber q →
lp_len (PageGetItemId p (src i)) = 0 →
lp_off (PageGetItemId q i) = lp_off (PageGetItemId p (src i))).
Context (Hdata : ∀ i, 1 ≤ i ≤ PageGetMaxOffsetNumber q →
lp_len (PageGetItemId p (src i)) ≠ 0 →
mread q (lp_off (PageGetItemId q i)) (lp_len (PageGetItemId q i)) =
PageGetItemBytes p (PageGetItemId p (src i))).

Lemma relocate_slot i :
1 ≤ i ≤ PageGetMaxOffsetNumber q → slot_at q i = slot_at p (src i).
Proof using All.
intros Hi. destruct (Hlen i Hi) as [Hl Hf]. unfold slot_at, slot_of. rewrite Hl, Hf.
destruct (Z.eqb_spec (lp_len (PageGetItemId p (src i))) 0) as [E|E].
- by rewrite Hlink.
- f_equal. unfold PageGetItemBytes at 1. by apply Hdata.
Qed.
End relocate.

(** ** [PageIndexTupleDelete] *)
Section delete.
Local Set Default Proof Using "Type".
Context (p : page) (t : Z) (Hwf : page_wf p) (Ht : 1 ≤ t ≤ PageGetMaxOffsetNumber p).
Context (Hall : ∀ i, 1 ≤ i ≤ PageGetMaxOffsetNumber p → lp_len (PageGetItemId p i) ≠ 0).
Let nline := PageGetMaxOffsetNumber p.
Let offset := lp_off (PageGetItemId p t).
Let size := MAXALIGN (lp_len (PageGetItemId p t)).
Let nbytes := pd_lower p - linp_addr (t + 1).
Let p1 := mwrite p (linp_addr t) (mread p (linp_addr (t + 1)) nbytes).
Let p3 := set_pd_upper (slide_tuples p1 offset size) (pd_upper p + size).
Let p4 := set_pd_lower p3 (pd_lower p - 4).
Let q := adjust_linps false offset size p4 1 (Z.to_nat (nline - 1)).

Lemma del_numbers :
zlen p = 8192 ∧ 24 ≤ pd_lower p ≤ pd_upper p ∧ pd_upper p ≤ offset ∧ 0 < size ∧
offset + size ≤ pd_special p ≤ 8192 ∧ size mod 8 = 0 ∧ nbytes = 4 * (nline - t) ∧
linp_addr t = 20 + 4 * t ∧ pd_lower p = 24 + 4 * nline.
Proof using Hwf Ht Hall.
destruct (around_target p t Hwf Ht (Hall t Ht)) as (? & ? & ? & ?).
pose proof (MAXALIGN_mod (lp_len (PageGetItemId p t))).
destruct (wf_hdr _ Hwf). pose proof (PageGetMaxOffsetNumber_eq p ltac:(done)) as Hm.
unfold offset, size, nbytes, nline, linp_addr, SizeOfPageHeaderData, sizeof_ItemIdData, BLCKSZ in *.
rewrite Hm in *. repeat apply conj; dlia.
Qed.

Lemma del_eval : PageIndexTupleDelete p t = Ok q.
Proof using Hwf Ht Hall.
pose proof del_numbers as Hn. pose proof (wf_hdr _ Hwf) as Hh.
unfold PageIndexTupleDelete. rewrite (page_pointers_sane_wf _ Hh). cbn [negb orb].
destruct (Z.leb_spec t 0); [lia|]. destruct (Z.ltb_spec (PageGetMaxOffsetNumber p) t); [lia|]. cbn [negb orb].
unfold ItemIdGetOffset, ItemIdGetLength.
rewrite item_sane_wf by auto. cbn [negb orb]. fold offset size nbytes nline.
assert (Hp1 : (if 0 <? nbytes then p1 else p) = p1).
{ zcase; [done|]. unfold p1. replace nbytes with 0 by lia. by rewrite mread_0, mwrite_nil. }
fold p1. rewrite Hp1.
assert (Hup1 : pd_upper p1 = pd_upper p).
{ unfold p1. page_unfold. rewrite mget_mwrite_disj; [done|lia|lia]. }
assert (Hlo1 : pd_lower (set_pd_upper (slide_tuples p1 offset size) (pd_upper p + size)) = pd_lower p).
{ unfold slide_tuples. rewrite Hup1. unfold p1. page_unfold. mem_simpl.
repeat (rewrite mget_mwrite_disj; [|lia|lia]). done. }
rewrite slide_if by lia.
assert (Hup2 : pd_upper (slide_tuples p1 offset size) = pd_upper p).
{ unfold slide_tuples. rewrite Hup1. unfold p1. page_unfold.
repeat (rewrite mget_mwrite_disj; [|lia|lia]). done. }
rewrite Hup2, Hlo1. unfold sizeof_ItemIdData. fold p3 p4.
unfold PageIsEmpty, SizeOfPageHeaderData.
assert (Hlo4 : pd_lower p4 = pd_lower p - 4).
{ unfold p4, set_pd_lower, pd_lower at 1. apply mget_mput2; [lia| |lia].
unfold p3, set_pd_upper. rewrite zlen_mput, slide_len. unfold p1. rewrite zlen_mwrite. lia. }
rewrite Hlo4. destruct (Z.leb_spec (pd_lower p - 4) 24); cbn [negb]; [|done].
unfold q. by replace (Z.to_nat (nline - 1)) with 0%nat by lia.
Qed.

Lemma del_p1_len : zlen p1 = 8192.
Proof using Hwf Ht Hall. pose proof del_numbers. unfold p1. rewrite zlen_mwrite. lia. Qed.

Lemma del_p1_reads o l :
0 ≤ o → o + l ≤ 24 ∨ pd_lower p ≤ o → mread p1 o l = mread p o l.
Proof using Hwf Ht Hall.
intros. pose proof del_numbers. unfold p1.
unfold linp_addr, SizeOfPageHeaderData, sizeof_ItemIdData in *.
apply mread_mwrite_disj; [done|]. rewrite zlen_mread by lia. lia.
Qed.

Lemma del_p1_item j :
1 ≤ j ≤ nline - 1 → PageGetItemId p1 j = PageGetItemId p (if t <=? j then j + 1 else j).
Proof using Hwf Ht Hall.
intros. pose proof del_numbers. unfold p1, PageGetItemId, mget.
unfold linp_addr, SizeOfPageHeaderData, sizeof_ItemIdData in *. zcase.
- rewrite mread_memmove by lia. do 3 f_equal. lia.
- rewrite mread_mwrite_disj; [done|lia|]. rewrite zlen_mread by lia. lia.
Qed.

Lemma del_p1_upper : pd_upper p1 = pd_upper p.
Proof using Hwf Ht Hall. unfold pd_upper, mget. f_equal. apply del_p1_reads; lia. Qed.

(** Reads of the result outside the header and the line pointers. *)
Lemma del_q_reads o l :
24 ≤ o → linp_addr nline ≤ o → mread q o l = mread (slide_tuples p1 offset size) o l.
Proof using Hwf Ht Hall.
intros. pose proof del_numbers. unfold q. rewrite adjust_linps_reads; [|lia|lia|right; rewrite Z2Nat.id by lia; replace (1 + (nline - 1)) with nline by lia; done].
unfold p4, p3. page_unfold. by mem_simpl.
Qed.

Lemma del_q_head o l :
0 ≤ o → o + l ≤ 12 ∨ (16 ≤ o ∧ o + l ≤ 24) → mread q o l = mread p o l.
Proof using Hwf Ht Hall.
intros. pose proof del_numbers. unfold q. rewrite adjust_linps_reads by lia.
unfold p4, p3. page_unfold. mem_simpl. pose proof del_p1_upper. pose proof del_p1_len.
rewrite slide_reads by (unfold pd_upper in *; lia). apply del_p1_reads; lia.
Qed.

Lemma del_fields :
pd_lower q = pd_lower p - 4 ∧ pd_upper q = pd_upper p + size ∧ pd_special q = pd_special p ∧
zlen q = 8192 ∧ Forall is_byte q.
Proof using Hwf Ht Hall.
pose proof del_numbers. destruct (wf_hdr _ Hwf).
assert (H12 : mread q 12 4 = mread p4 12 4) by (unfold q; apply adjust_linps_reads; lia).
assert (H4 : ∀ o, 12 ≤ o ≤ 14 → mget 2 q o = mget 2 p4 o).
{ intros o Ho. unfold mget. f_equal.
transitivity (mread (mread q 12 4) (o - 12) 2); [by rewrite mread_mread by lia; do 2 f_equal; lia|].
rewrite H12, mread_mread by lia. f_equal. lia. }
assert (zlen p3 = 8192) by (unfold p3, set_pd_upper; rewrite zlen_mput, slide_len; apply del_p1_len).
repeat apply conj.
- unfold pd_lower at 1. rewrite H4 by lia. apply mget_mput2; lia.
- unfold pd_upper at 1. rewrite H4 by lia. unfold p4, set_pd_lower. mem_simpl.
apply mget_mput2; [lia| |lia]. rewrite slide_len, del_p1_len. lia.
- unfold pd_special, mget. f_equal. apply del_q_head; lia.
- unfold q. rewrite adjust_linps_len. unfold p4, set_pd_lower. rewrite zlen_mput. done.
- unfold q, p4, p3, slide_tuples, p1. apply adjust_linps_bytes. page_unfold.
repeat (apply mput_byte || apply mwrite_byte || apply mread_byte); done.
Qed.

Let src j := if t <=? j then j + 1 else j.

Lemma del_maxoff : PageGetMaxOffsetNumber q = nline - 1.
Proof using Hwf Ht Hall.
pose proof del_numbers. destruct del_fields as (Hlo & _).
rewrite PageGetMaxOffsetNumber_eq by lia. rewrite Hlo. dlia.
Qed.

Lemma del_src j : 1 ≤ j ≤ nline - 1 → 1 ≤ src j ≤ nline ∧ src j ≠ t.
Proof using Type. unfold src. intros. zcase; lia. Qed.

Lemma del_item j :
1 ≤ j ≤ nline - 1 →
PageGetItemId q j = adjust_linp false offset size (PageGetItemId p (src j)).
Proof using Hwf Ht Hall.
intros Hj. pose proof del_numbers.
assert (H4 : ∀ k, 1 ≤ k ≤ nline - 1 → PageGetItemId p4 k = PageGetItemId p (src k)).
{ intros k Hk. unfold src. rewrite <-del_p1_item by done. unfold p4, p3, PageGetItemId, mget.
do 2 f_equal. pose proof del_p1_upper. pose proof del_p1_len.
unfold set_pd_lower, set_pd_upper, linp_addr, SizeOfPageHeaderData, sizeof_ItemIdData in *.
mem_simpl. rewrite slide_reads by lia. done. }
unfold q. rewrite adjust_linps_spec; [|lia| | |lia].
- rewrite decide_True by lia. by rewrite H4.
- unfold p4, set_pd_lower, p3, set_pd_upper. rewrite !zlen_mput, slide_len, del_p1_len.
unfold linp_addr, SizeOfPageHeaderData, sizeof_ItemIdData in *. lia.
- intros k Hk. rewrite H4 by lia. pose proof (del_src k ltac:(lia)) as [? ?].
pose proof (around_other p t Hwf Ht (Hall t Ht) (src k) ltac:(done) ltac:(done) (Hall _ ltac:(done))) as Ha.
cbv zeta in Ha. unfold adjust_linp. destruct (_ && _) eqn:E; cbn [lp_set_off lp_off].
+ cbn [negb orb andb] in E. b2p. unfold ItemIdGetOffset in *. fold offset size in Ha.
destruct (Z.leb_spec (lp_off (PageGetItemId p (src k))) offset); lia.
+ lia.
Qed.

(** Every remaining item keeps its bytes, at its new address. *)
Lemma del_data j :
1 ≤ j ≤ nline - 1 →
let lp := PageGetItemId p (src j) in
let o' := if lp_off lp <=? offset then lp_off lp + size else lp_off lp in
PageGetItemId q j = lp_set_off lp o' ∧
mread q o' (lp_len lp) = PageGetItemBytes p lp ∧
pd_upper p + size ≤ o' ∧ o' + MAXALIGN (lp_len lp) ≤ pd_special p ∧ o' mod 8 = 0.
Proof using Hwf Ht Hall.
intros Hj lp o'. pose proof del_numbers. pose proof (del_src j Hj) as [Hs Hne].
pose proof (around_other p t Hwf Ht (Hall t Ht) (src j) Hs Hne (Hall _ Hs)) as Ha.
cbv zeta in Ha. fold lp offset size in Ha.
rewrite del_item by done. unfold PageGetItemBytes, adjust_linp, ItemIdGetOffset. cbn [negb orb andb]. fold lp.
pose proof del_p1_len. pose proof del_p1_upper.
unfold o'. destruct (Z.leb_spec (lp_off lp) offset).
- split; [done|]. split; [|dlia].
rewrite del_q_reads by (unfold linp_addr, SizeOfPageHeaderData, sizeof_ItemIdData in *; lia).
rewrite slide_moved by lia. apply del_p1_reads; lia.
- split; [by destruct lp|]. split; [|dlia].
rewrite del_q_reads by (unfold linp_addr, SizeOfPageHeaderData, sizeof_ItemIdData in *; lia).
rewrite slide_reads by lia. apply del_p1_reads; lia.
Qed.

Lemma del_wf : page_wf q.
Proof using Hwf Ht Hall.
pose proof del_numbers. destruct del_fields as (Hlo & Hup & Hsp & Hlen & Hb).
destruct (wf_hdr _ Hwf). split.
- constructor; rewrite ?Hlo, ?Hup, ?Hsp; try done; try dlia.
- intros j Hj _. rewrite del_maxoff in Hj. destruct (del_data j Hj) as (-> & _ & ? & ? & ?).
unfold lp_in. rewrite Hup, Hsp. cbn [lp_set_off lp_off lp_len]. done.
- intros i j Hi Hj Hij _ _. rewrite del_maxoff in Hi, Hj.
destruct (del_data i Hi) as (-> & _). destruct (del_data j Hj) as (-> & _).
pose proof (del_src i Hi) as [Hsi Hni]. pose proof (del_src j Hj) as [Hsj Hnj].
assert (src i ≠ src j) by (unfold src; zcase; lia).
pose proof (wf_disjoint _ Hwf _ _ Hsi Hsj ltac:(done) (Hall _ Hsi) (Hall _ Hsj)) as Hd.
pose proof (around_other p t Hwf Ht (Hall t Ht) _ Hsi Hni (Hall _ Hsi)) as Ha.
pose proof (around_other p t Hwf Ht (Hall t Ht) _ Hsj Hnj (Hall _ Hsj)) as Hc.
cbv zeta in Ha, Hc. fold offset size in Ha, Hc. unfold lp_disjoint in *. cbn [lp_set_off lp_off lp_len].
destruct (Z.leb_spec (lp_off (PageGetItemId p (src i))) offset);
destruct (Z.leb_spec (lp_off (PageGetItemId p (src j))) offset); lia.
Qed.

Lemma del_slots : page_slots q = delete (Z.to_nat (t - 1)) (page_slots p).
Proof using Hwf Ht Hall.
assert (Hs : ∀ i, 1 ≤ i ≤ nline - 1 → slot_at q i = slot_at p (src i)).
{ intros i Hi. apply relocate_slot; rewrite ?del_maxoff; try done.
- intros k Hk. by apply del_src.
- intros k Hk. by destruct (del_data k Hk) as (-> & _).
- intros k Hk Hz. destruct (Hall (src k)); [|done]. by apply del_src.
- intros k Hk _. destruct (del_data k Hk) as (-> & E & _). exact E. }
apply list_eq. intros k. rewrite list_lookup_delete, !page_slots_lookup, del_maxoff. fold nline.
pose proof del_numbers.
repeat case_decide; try lia; try done; (rewrite Hs by lia); unfold src; zcase; do 2 f_equal; lia.
Qed.
End delete.

(** Refinement: deleting tuple [t] of an index page removes exactly that slot
    from the view, closes up the line pointers, gives its aligned space back
    and keeps the page well formed. *)
Lemma PageIndexTupleDelete_refines p t :
  page_wf p → 1 ≤ t ≤ PageGetMaxOffsetNumber p →
  (∀ i, 1 ≤ i ≤ PageGetMaxOffsetNumber p → lp_len (PageGetItemId p i) ≠ 0) →
  ∃ q, PageIndexTupleDelete p t = Ok q ∧ page_wf q ∧
    page_slots q = delete (Z.to_nat (t - 1)) (page_slots p) ∧
    PageGetExactFreeSpace q =
      PageGetExactFreeSpace p + MAXALIGN (lp_len (PageGetItemId p t)) + 4 ∧
    (∀ i, 1 ≤ i ≤ PageGetMaxOffsetNumber q → lp_len (PageGetItemId q i) ≠ 0).
Proof.
  intros Hwf Ht Hall. eexists. split; [by apply del_eval|].
  split; [by apply del_wf|]. split; [by apply del_slots|]. split.
  - pose proof (del_numbers p t Hwf Ht Hall). unfold PageGetExactFreeSpace.
    destruct (del_fields p t Hwf Ht Hall) as (-> & -> & _). zcase; lia.
  - intros i Hi. rewrite del_maxoff in Hi by done.
    destruct (del_data p t Hwf Ht Hall i Hi) as (-> & _). cbn [lp_set_off lp_len].
    apply Hall. by apply del_src.
Qed.

(** ** The shared step of the two other routines

    [shift_page] slides the tuple data below [offset] by [delta] and adjusts
    the line pointers.  The items other than [t] keep out of the gap
    [[offset, offset + size)] before, and end up clear of it after. *)
Definition shift_page (p : page) (offset delta : Z) : page :=
  adjust_linps true offset delta (set_pd_upper (slide_tuples p offset delta) (pd_upper p + delta))
    1 (Z.to_nat (PageGetMaxOffsetNumber p)).

Definition shift_off (offset delta : Z) (lp : ItemIdData) : Z :=
  if lp_off lp <=? offset then lp_off lp + delta else lp_off lp.

Section shift.
Local Set Default Proof Using "Type".
Context (p : page) (t offset size d : Z) (Hwf : page_wf p).
Context (Hup : pd_upper p ≤ offset) (Hsp : offset + size ≤ pd_special p) (Hsz : 0 ≤ size).
Context (Hd8 : d mod 8 = 0) (Hds : d ≤ size) (Hdl : pd_lower p ≤ pd_upper p + d).
Context (Hgap : ∀ j, 1 ≤ j ≤ PageGetMaxOffsetNumber p → j ≠ t → lp_len (PageGetItemId p j) ≠ 0 →
if lp_off (PageGetItemId p j) <=? offset
then lp_off (PageGetItemId p j) + MAXALIGN (lp_len (PageGetItemId p j)) ≤ offset
else offset + size ≤ lp_off (PageGetItemId p j)).
Let n := PageGetMaxOffsetNumber p.
Let p2 := set_pd_upper (slide_tuples p offset d) (pd_upper p + d).
Let q := shift_page p offset d.

Lemma shift_numbers :
zlen p = 8192 ∧ 24 ≤ pd_lower p ∧ pd_lower p = 24 + 4 * n ∧ 0 ≤ n ∧ pd_special p ≤ 8192 ∧
pd_lower p ≤ pd_upper p.
Proof using All.
destruct (wf_hdr _ Hwf). pose proof (PageGetMaxOffsetNumber_eq p ltac:(done)) as Hm.
unfold n, BLCKSZ in *. rewrite Hm. repeat apply conj; dlia.
Qed.

Lemma shift_len : zlen q = zlen p.
Proof using All. unfold q, shift_page. rewrite adjust_linps_len. unfold set_pd_upper. by rewrite zlen_mput, slide_len. Qed.

Lemma shift_bytes : Forall is_byte q.
Proof using All.
unfold q, shift_page, set_pd_upper, slide_tuples. destruct (wf_hdr _ Hwf).
apply adjust_linps_bytes, mput_byte, mwrite_byte; auto using mread_byte.
Qed.

Lemma shift_head o l : 0 ≤ o → o + l ≤ 14 ∨ (16 ≤ o ∧ o + l ≤ 24) → mread q o l = mread p o l.
Proof using All.
intros. pose proof shift_numbers. unfold q, shift_page. rewrite adjust_linps_reads by lia.
unfold set_pd_upper. rewrite mread_mput_disj by lia. apply slide_reads; lia.
Qed.

Lemma shift_data_reads o l : pd_lower p ≤ o → mread q o l = mread (slide_tuples p offset d) o l.
Proof using All.
intros. pose proof shift_numbers. unfold q, shift_page. fold n.
rewrite adjust_linps_reads; [|lia|lia|].
- unfold set_pd_upper. by rewrite mread_mput_disj by lia.
- right. rewrite Z2Nat.id by lia. unfold linp_addr, SizeOfPageHeaderData, sizeof_ItemIdData. lia.
Qed.

Lemma shift_fields :
pd_lower q = pd_lower p ∧ pd_upper q = pd_upper p + d ∧ pd_special q = pd_special p ∧
pd_flags q = pd_flags p ∧ PageGetMaxOffsetNumber q = n.
Proof using All.
pose proof shift_numbers.
assert (Hlo : pd_lower q = pd_lower p) by (unfold pd_lower, mget; by rewrite shift_head by lia).
assert (Hfl : pd_flags q = pd_flags p) by (unfold pd_flags, mget; by rewrite shift_head by lia).
assert (Hspq : pd_special q = pd_special p) by (unfold pd_special, mget; by rewrite shift_head by lia).
split_and!; [done| |done|done|unfold n, PageGetMaxOffsetNumber; by rewrite Hlo].
unfold pd_upper at 1, mget, q, shift_page. rewrite adjust_linps_reads by lia.
apply mget_mput2; [lia|rewrite slide_len; lia|lia].
Qed.

Lemma shift_itemid j :
1 ≤ j ≤ n → PageGetItemId q j = adjust_linp true offset d (PageGetItemId p j).
Proof using All.
intros Hj. pose proof shift_numbers.
assert (H2 : ∀ k, 1 ≤ k ≤ n → PageGetItemId p2 k = PageGetItemId p k).
{ intros k Hk. unfold p2, PageGetItemId, mget, set_pd_upper. do 2 f_equal.
unfold linp_addr, SizeOfPageHeaderData, sizeof_ItemIdData.
rewrite mread_mput_disj by lia. apply slide_reads; lia. }
unfold q, shift_page. fold p2 n. rewrite adjust_linps_spec; [|lia| | |lia].
- rewrite decide_True by lia. by rewrite H2.
- unfold p2, set_pd_upper. rewrite zlen_mput, slide_len, Z2Nat.id by lia.
unfold linp_addr, SizeOfPageHeaderData, sizeof_ItemIdData. lia.
- intros k Hk. rewrite H2 by lia. pose proof (PageGetItemId_bound p k) as (? & _).
unfold adjust_linp. destruct (_ && _) eqn:E; [|done]. cbn [negb orb] in E.
unfold ItemIdHasStorage, ItemIdGetOffset in E. b2p. cbn [lp_set_off lp_off].
destruct (wf_item _ Hwf k ltac:(unfold n in *; lia) ltac:(done)) as (? & ? & _). lia.
Qed.

Lemma shift_empty j : 1 ≤ j ≤ n → lp_len (PageGetItemId p j) = 0 → PageGetItemId q j = PageGetItemId p j.
Proof using All.
intros Hj E. rewrite shift_itemid by done. unfold adjust_linp, ItemIdHasStorage. by rewrite E.
Qed.

Lemma shift_item j : 1 ≤ j ≤ n → j ≠ t → lp_len (PageGetItemId p j) ≠ 0 →
let lp := PageGetItemId p j in let o' := shift_off offset d lp in
PageGetItemId q j = lp_set_off lp o' ∧ mread q o' (lp_len lp) = PageGetItemBytes p lp ∧
pd_upper p + d ≤ o' ∧ o' + MAXALIGN (lp_len lp) ≤ pd_special p ∧ o' mod 8 = 0 ∧
(o' + MAXALIGN (lp_len lp) ≤ offset + d ∨ offset + size ≤ o').
Proof using All.
intros Hj Hne Hl lp o'. pose proof shift_numbers. pose proof (Hgap j Hj Hne Hl) as Hg.
destruct (wf_item _ Hwf j Hj Hl) as (? & ? & ?). rewrite shift_itemid by done.
pose proof (MAXALIGN_bounds (lp_len lp)). pose proof (PageGetItemId_bound p j) as (_ & _ & ?).
unfold adjust_linp, ItemIdHasStorage, ItemIdGetOffset, PageGetItemBytes.
destruct (Z.eqb_spec (lp_len (PageGetItemId p j)) 0); [done|]. cbn [negb orb andb].
unfold o', shift_off. fold lp in Hg, Hl |- *.
destruct (Z.leb_spec (lp_off lp) offset); unfold lp in *.
- split; [done|]. split; [|dlia]. rewrite shift_data_reads by lia. apply slide_moved; lia.
- split; [by destruct (PageGetItemId p j)|]. split; [|dlia].
rewrite shift_data_reads by lia. apply slide_reads; lia.
Qed.

Lemma shift_disjoint i j : 1 ≤ i ≤ n → 1 ≤ j ≤ n → i ≠ j → i ≠ t → j ≠ t →
lp_len (PageGetItemId p i) ≠ 0 → lp_len (PageGetItemId p j) ≠ 0 →
lp_disjoint (PageGetItemId q i) (PageGetItemId q j).
Proof using All.
intros Hi Hj Hij Hit Hjt Hli Hlj.
destruct (shift_item i Hi Hit Hli) as (-> & _). destruct (shift_item j Hj Hjt Hlj) as (-> & _).
pose proof (wf_disjoint _ Hwf i j Hi Hj Hij Hli Hlj) as Hd. pose proof (Hgap i Hi Hit Hli).
pose proof (Hgap j Hj Hjt Hlj). unfold lp_disjoint, shift_off in *. cbn [lp_set_off lp_off lp_len].
destruct (Z.leb_spec (lp_off (PageGetItemId p i)) offset);
destruct (Z.leb_spec (lp_off (PageGetItemId p j)) offset); lia.
Qed.

Lemma shift_slot j : 1 ≤ j ≤ n → j ≠ t ∨ lp_len (PageGetItemId p j) = 0 → slot_at q j = slot_at p j.
Proof using All.
intros Hj Hc. unfold slot_at. destruct (decide (lp_len (PageGetItemId p j) = 0)) as [E|E].
- rewrite shift_empty by done. unfold slot_of. by rewrite E.
- destruct (shift_item j Hj ltac:(by destruct Hc) E) as (-> & Hm & _).
unfold slot_of, PageGetItemBytes at 1. cbn [lp_set_off lp_off lp_len lp_flags].
destruct (Z.eqb_spec (lp_len (PageGetItemId p j)) 0); [done|]. by rewrite Hm.
Qed.
End shift.


(** Sliding by nothing is the identity: the routine skips it. *)
Lemma mput_mget n m o : Forall is_byte m → 0 ≤ o → o + Z.of_nat n ≤ zlen m → mput n m o (mget n m o) = m.
Proof.
  intros Hb Ho Hl. unfold mput, mget.
  replace n with (length (mread m o (Z.of_nat n))) at 1
    by (pose proof (zlen_mread m o (Z.of_nat n) ltac:(lia) ltac:(lia) ltac:(lia)); unfold zlen in *; lia).
  rewrite le_bytes_val by by apply mread_byte. apply mwrite_same; lia.
Qed.

Lemma lp_encode_decode w : 0 ≤ w < 2 ^ 32 → lp_encode (lp_decode w) = w.
Proof. intros. unfold lp_encode, lp_decode. cbn [lp_off lp_flags lp_len]. dlia. Qed.

Lemma adjust_linps_zero offset p i n :
  Forall is_byte p → 1 ≤ i → linp_addr (i + Z.of_nat n) ≤ zlen p → adjust_linps true offset 0 p i n = p.
Proof.
  intros Hb. revert i. induction n as [|n IH]; intros i Hi Hz; [done|]. cbn [adjust_linps].
  assert (adjust_linp true offset 0 (PageGetItemId p i) = PageGetItemId p i) as ->.
  { unfold adjust_linp, lp_set_off. rewrite Z.add_0_r. by destruct (_ && _), (PageGetItemId p i). }
  unfold linp_addr, SizeOfPageHeaderData, sizeof_ItemIdData in *.
  assert (PageSetItemId p i (PageGetItemId p i) = p) as ->; [|apply IH; lia].
  unfold PageSetItemId, PageGetItemId, linp_addr, SizeOfPageHeaderData, sizeof_ItemIdData.
  rewrite lp_encode_decode by (apply (mget_bound 4); done). apply mput_mget; [done|lia|lia].
Qed.

Lemma shift_zero p offset : page_wf p → pd_upper p ≤ offset ≤ pd_special p → shift_page p offset 0 = p.
Proof.
  intros Hwf Ho. pose proof (wf_hdr _ Hwf) as Hh. pose proof Hh as [].
  assert (Hn : pd_lower p = 24 + 4 * PageGetMaxOffsetNumber p)
    by (rewrite PageGetMaxOffsetNumber_eq by done; dlia).
  unfold BLCKSZ in *. unfold shift_page, slide_tuples. rewrite !Z.add_0_r, mwrite_same by lia.
  unfold set_pd_upper, pd_upper. rewrite mput_mget by (done || lia).
  pose proof (PageGetMaxOffsetNumber_nonneg p). apply adjust_linps_zero; [done|lia|].
  rewrite Z2Nat.id by done. unfold linp_addr, SizeOfPageHeaderData, sizeof_ItemIdData. lia.
Qed.

(** ** [PageIndexTupleOverwrite] *)
Section overwrite.
Local Set Default Proof Using "All".
Context (p : page) (t : Z) (newtup : list Z) (Hwf : page_wf p) (Ht : 1 ≤ t ≤ PageGetMaxOffsetNumber p).
Context (Htl : lp_len (PageGetItemId p t) ≠ 0) (Hb : Forall is_byte newtup) (Hnew : 0 < zlen newtup).
Let offset := lp_off (PageGetItemId p t).
Let size := MAXALIGN (lp_len (PageGetItemId p t)).
Let d := size - MAXALIGN (zlen newtup).
Context (Hfit : MAXALIGN (zlen newtup) ≤ size + (pd_upper p - pd_lower p)).
Let p3 := shift_page p offset d.
Let lp := mkItemId (offset + d) (lp_flags (PageGetItemId p t)) (zlen newtup).
Let q := mwrite (PageSetItemId p3 t lp) (offset + d) newtup.

Lemma ow_numbers :
zlen p = 8192 ∧ pd_upper p ≤ offset ∧ offset + size ≤ pd_special p ∧ 0 < size ∧ d mod 8 = 0 ∧ d ≤ size ∧
pd_lower p ≤ pd_upper p + d ∧ offset mod 8 = 0 ∧ pd_special p ≤ 8192 ∧
pd_lower p = 24 + 4 * PageGetMaxOffsetNumber p ∧ zlen newtup ≤ size - d.
Proof.
destruct (around_target p t Hwf Ht Htl) as (? & ? & ? & ?).
pose proof (MAXALIGN_mod (lp_len (PageGetItemId p t))). pose proof (MAXALIGN_mod (zlen newtup)).
pose proof (MAXALIGN_bounds (zlen newtup)). destruct (wf_hdr _ Hwf).
pose proof (PageGetMaxOffsetNumber_eq p ltac:(done)) as Hm.
unfold offset, size, d, BLCKSZ in *. rewrite Hm. split_and!; dlia.
Qed.

Lemma ow_gap j : 1 ≤ j ≤ PageGetMaxOffsetNumber p → j ≠ t → lp_len (PageGetItemId p j) ≠ 0 →
if lp_off (PageGetItemId p j) <=? offset
then lp_off (PageGetItemId p j) + MAXALIGN (lp_len (PageGetItemId p j)) ≤ offset
else offset + size ≤ lp_off (PageGetItemId p j).
Proof. intros Hj Hne Hl. by destruct (around_other p t Hwf Ht Htl j Hj Hne Hl) as (_ & _ & _ & _ & ?). Qed.

Ltac ow_side := solve [assumption | exact ow_gap | pose proof ow_numbers; lia].

Lemma ow_target : PageGetItemId q t = lp ∧ mread q (offset + d) (zlen newtup) = newtup.
Proof.
pose proof ow_numbers. pose proof (PageGetItemId_bound p t).
assert (zlen p3 = 8192) by (unfold p3; rewrite (shift_len p t offset size d); ow_side).
split.
- unfold q. transitivity (PageGetItemId (PageSetItemId p3 t lp) t).
+ unfold PageGetItemId, mget. do 2 f_equal.
unfold linp_addr, SizeOfPageHeaderData, sizeof_ItemIdData. apply mread_mwrite_disj; lia.
+ unfold lp. apply PageGetSetItemId; cbn [lp_off lp_flags lp_len]; try lia.
unfold linp_addr, SizeOfPageHeaderData, sizeof_ItemIdData. lia.
- apply mread_mwrite_same; rewrite ?zlen_PageSetItemId; lia.
Qed.

Lemma ow_reads o l : 0 ≤ o → o + l ≤ linp_addr t ∨ (linp_addr t + 4 ≤ o ∧ o + l ≤ offset + d) ∨ offset + size ≤ o →
mread q o l = mread p3 o l.
Proof.
intros Ho Hc. pose proof ow_numbers. unfold linp_addr, SizeOfPageHeaderData, sizeof_ItemIdData in *.
unfold q. rewrite mread_mwrite_disj by lia.
apply PageSetItemId_reads; unfold linp_addr, SizeOfPageHeaderData, sizeof_ItemIdData; lia.
Qed.

Lemma ow_item j : 1 ≤ j ≤ PageGetMaxOffsetNumber p → j ≠ t → PageGetItemId q j = PageGetItemId p3 j.
Proof.
intros Hj Hne. pose proof ow_numbers. unfold PageGetItemId, mget. do 2 f_equal.
apply ow_reads; unfold linp_addr, SizeOfPageHeaderData, sizeof_ItemIdData; lia.
Qed.

Lemma ow_fields : pd_lower q = pd_lower p ∧ pd_upper q = pd_upper p + d ∧ pd_special q = pd_special p ∧
PageGetMaxOffsetNumber q = PageGetMaxOffsetNumber p ∧ zlen q = 8192 ∧ Forall is_byte q.
Proof.
pose proof ow_numbers.
destruct (shift_fields p t offset size d) as (H1 & H2 & H3 & _ & H5); [ow_side..|].
assert (Hh : ∀ o l, 0 ≤ o → o + l ≤ 24 → mread q o l = mread p3 o l).
{ intros. apply ow_reads; unfold linp_addr, SizeOfPageHeaderData, sizeof_ItemIdData; lia. }
unfold PageGetMaxOffsetNumber, pd_lower, pd_upper, pd_special, mget in *. rewrite !Hh by lia.
split_and!; try done.
- unfold q. rewrite zlen_mwrite, zlen_PageSetItemId. unfold p3. rewrite (shift_len p t offset size d); ow_side.
- unfold q. apply mwrite_byte; [|done]. apply mput_byte. eapply (shift_bytes p t offset size d); ow_side.
Qed.

Lemma ow_other j : 1 ≤ j ≤ PageGetMaxOffsetNumber p → j ≠ t → lp_len (PageGetItemId p j) ≠ 0 →
let o' := shift_off offset d (PageGetItemId p j) in
PageGetItemId q j = lp_set_off (PageGetItemId p j) o' ∧
mread q o' (lp_len (PageGetItemId p j)) = PageGetItemBytes p (PageGetItemId p j) ∧
lp_in q (lp_set_off (PageGetItemId p j) o') ∧ lp_disjoint lp (lp_set_off (PageGetItemId p j) o').
Proof.
intros Hj Hne Hl o'. pose proof ow_numbers as Hn. destruct ow_fields as (_ & Hu & Hs & _).
destruct (shift_item p t offset size d) with (j := j) as (Hi & Hm & H1 & H2 & H3 & H4); [ow_side..|].
fold o' in Hi, Hm, H1, H2, H3, H4. fold p3 in Hi, Hm. rewrite ow_item by done. split; [done|].
pose proof (MAXALIGN_bounds (lp_len (PageGetItemId p j))). pose proof (PageGetItemId_bound p j).
split; [|unfold lp_in, lp_disjoint, lp; cbn [lp_set_off lp_off lp_len]; rewrite Hu, Hs; unfold d in *; lia].
rewrite ow_reads; [done|lia|]. unfold linp_addr, SizeOfPageHeaderData, sizeof_ItemIdData in *. lia.
Qed.

Lemma ow_len j : 1 ≤ j ≤ PageGetMaxOffsetNumber p → j ≠ t → lp_len (PageGetItemId q j) ≠ 0 →
lp_len (PageGetItemId p j) ≠ 0.
Proof.
intros Hj Hne Hl E. apply Hl. rewrite ow_item by done. pose proof ow_numbers.
unfold p3. rewrite (shift_empty p t offset size d); ow_side.
Qed.

Lemma ow_wf : page_wf q.
Proof.
pose proof ow_numbers as Hn. destruct ow_fields as (Hlo & Hu & Hs & Hm & Hz & Hby).
destruct ow_target as [Hti _]. destruct (wf_hdr _ Hwf). unfold BLCKSZ in *. split.
- constructor; rewrite ?Hlo, ?Hu, ?Hs; try done; dlia.
- intros j Hj Hl. rewrite Hm in Hj. destruct (decide (j = t)) as [->|Hne].
+ rewrite Hti. unfold lp_in, lp. rewrite Hu, Hs. cbn [lp_off lp_len]. unfold d in *. dlia.
+ by destruct (ow_other j Hj Hne (ow_len j Hj Hne Hl)) as (-> & _ & ? & _).
- intros i j Hi Hj Hij Hli Hlj. rewrite Hm in Hi, Hj.
destruct (decide (i = t)) as [->|Hnt]; [|destruct (decide (j = t)) as [->|Hjt]].
+ rewrite Hti. destruct (ow_other j Hj (not_eq_sym Hij) (ow_len j Hj (not_eq_sym Hij) Hlj)) as (-> & _ & _ & ?). done.
+ rewrite Hti. destruct (ow_other i Hi Hij (ow_len i Hi Hij Hli)) as (-> & _ & _ & ?). by apply lp_disjoint_sym.
+ rewrite !ow_item by done. apply (shift_disjoint p t offset size d); try ow_side; by apply ow_len.
Qed.

Lemma ow_slots : page_slots q =
<[Z.to_nat (t - 1) := mkSlot (lp_flags (PageGetItemId p t)) 0 newtup]> (page_slots p).
Proof.
pose proof ow_numbers as Hn. destruct ow_fields as (_ & _ & _ & Hm & _). destruct ow_target as [Hti Htm].
apply list_eq. intros k. rewrite list_lookup_insert, !page_slots_lookup, Hm.
pose proof (length_page_slots p) as Hlen.
pose proof (PageGetMaxOffsetNumber_nonneg p).
destruct (decide (Z.of_nat k + 1 ≤ PageGetMaxOffsetNumber p)) as [Hk|Hk]; repeat case_decide; try lia; try done.
- f_equal. replace (1 + Z.of_nat k) with t by lia. unfold slot_at, slot_of. rewrite Hti. unfold lp. cbn [lp_len lp_off lp_flags].
destruct (Z.eqb_spec (zlen newtup) 0); [lia|]. unfold PageGetItemBytes. cbn [lp_off lp_len]. by rewrite Htm.
- f_equal. set (j := 1 + Z.of_nat k) in *. assert (j ≠ t) by lia. assert (1 ≤ j ≤ PageGetMaxOffsetNumber p) by lia.
unfold slot_at. destruct (decide (lp_len (PageGetItemId p j) = 0)) as [E|E].
+ rewrite ow_item by done. unfold p3. rewrite (shift_empty p t offset size d); [|ow_side..].
unfold slot_of. by rewrite E.
+ destruct (ow_other j ltac:(done) ltac:(done) E) as (-> & Hmr & _). unfold slot_of, PageGetItemBytes at 1.
cbn [lp_set_off lp_off lp_len lp_flags]. destruct (Z.eqb_spec (lp_len (PageGetItemId p j)) 0); [done|]. by rewrite Hmr.
Qed.

Lemma ow_eval : PageIndexTupleOverwrite p t newtup = Ok (q, true).
Proof.
pose proof ow_numbers as Hn. pose proof (wf_hdr _ Hwf) as Hh.
unfold PageIndexTupleOverwrite. rewrite (page_pointers_sane_wf _ Hh). cbn [negb orb].
destruct (Z.leb_spec t 0); [lia|]. destruct (Z.ltb_spec (PageGetMaxOffsetNumber p) t); [lia|]. cbn [negb orb].
unfold ItemIdGetOffset, ItemIdGetLength. rewrite item_sane_wf by auto. cbn [negb]. fold offset size.
destruct (Z.ltb_spec (size + (pd_upper p - pd_lower p)) (MAXALIGN (zlen newtup))); [lia|]. fold d. cbv zeta.
assert (Hup2 : pd_upper (slide_tuples p offset d) = pd_upper p).
{ unfold pd_upper at 1, mget. pose proof (wf_lower_upper _ Hh). rewrite slide_reads by lia. done. }
rewrite Hup2. change FirstOffsetNumber with 1. fold (shift_page p offset d). fold p3.
assert ((if negb (d =? 0) then p3 else p) = p3) as ->.
{ destruct (Z.eqb_spec d 0) as [E|]; [|done]. unfold p3. rewrite E, shift_zero by (done || lia). done. }
assert (lp_flags (PageGetItemId p3 t) = lp_flags (PageGetItemId p t)) as ->; [|done].
unfold p3. rewrite (shift_itemid p t offset size d); [|ow_side..]. unfold adjust_linp. by destruct (_ && _).
Qed.
End overwrite.

(** ** [PageIndexTupleDeleteNoCompact] *)

(** The view after the deletion: the slot becomes unused, or goes away when it
    was the last one. *)
Definition drop_slot (s : list slot) (k : nat) : list slot :=
  if decide (S k < length s)%nat then <[k := mkSlot LP_UNUSED 0 []]> s else take k s.

Section no_compact.
Local Set Default Proof Using "All".
Context (p : page) (t : Z) (Hwf : page_wf p) (Ht : 1 ≤ t ≤ PageGetMaxOffsetNumber p).
Context (Htl : lp_len (PageGetItemId p t) ≠ 0).
Let offset := lp_off (PageGetItemId p t).
Let size := MAXALIGN (lp_len (PageGetItemId p t)).
Let n := PageGetMaxOffsetNumber p.
Let p1 := if t <? n then PageSetItemId p t (ItemIdSetUnused (PageGetItemId p t))
else set_pd_lower p (pd_lower p - sizeof_ItemIdData).
Let n1 := if t <? n then n else n - 1.

Lemma nc_reads o l : 16 ≤ o ∧ o + l ≤ 24 ∨ 14 ≤ o ∧ o + l ≤ 16 ∨ 0 ≤ o ∧ o + l ≤ 12 ∨ pd_lower p ≤ o →
mread p1 o l = mread p o l.
Proof.
intros Hc. unfold p1.
destruct (wf_hdr _ Hwf). pose proof (PageGetMaxOffsetNumber_eq p ltac:(done)) as Hm.
destruct (Z.ltb_spec t n).
- apply PageSetItemId_reads; [lia|lia|]. unfold n, linp_addr, SizeOfPageHeaderData, sizeof_ItemIdData in *.
rewrite Hm in *. dlia.
- unfold set_pd_lower. apply mread_mput_disj; lia.
Qed.

Lemma nc_fields : pd_lower p1 = 24 + 4 * n1 ∧ pd_upper p1 = pd_upper p ∧ pd_special p1 = pd_special p ∧
PageGetMaxOffsetNumber p1 = n1 ∧ zlen p1 = 8192 ∧ Forall is_byte p1.
Proof.
pose proof (wf_hdr _ Hwf) as Hh. pose proof Hh as [].
pose proof (PageGetMaxOffsetNumber_eq p ltac:(done)) as Hm. unfold BLCKSZ in *.
assert (Hl : pd_lower p1 = 24 + 4 * n1).
{ unfold p1, n1, n in *. destruct (Z.ltb_spec t (PageGetMaxOffsetNumber p)).
- transitivity (pd_lower p); [|rewrite Hm; dlia]. unfold pd_lower, mget. f_equal.
apply PageSetItemId_reads; unfold linp_addr, SizeOfPageHeaderData, sizeof_ItemIdData; lia.
- unfold sizeof_ItemIdData. unfold pd_lower at 1, set_pd_lower.
rewrite mget_mput2 by lia. rewrite Hm. dlia. }
split_and!; [done|unfold pd_upper, mget; by rewrite nc_reads by lia|
unfold pd_special, mget; by rewrite nc_reads by lia| | |].
- rewrite PageGetMaxOffsetNumber_eq by (rewrite Hl; unfold n1, n in *; zcase; lia). rewrite Hl. dlia.
- unfold p1. destruct (_ <? _); [rewrite zlen_PageSetItemId|unfold set_pd_lower; rewrite zlen_mput]; done.
- unfold p1. destruct (_ <? _); by apply mput_byte.
Qed.

Lemma nc_item j : 1 ≤ j ≤ n1 →
PageGetItemId p1 j = if j =? t then mkItemId 0 LP_UNUSED 0 else PageGetItemId p j.
Proof.
intros Hj. pose proof (wf_hdr _ Hwf) as Hh. pose proof Hh as []. pose proof (linp_addr_range p t Hh Ht).
unfold p1, n1 in *. unfold BLCKSZ in *. destruct (Z.ltb_spec t n).
- destruct (Z.eqb_spec j t) as [->|Hne].
+ unfold ItemIdSetUnused. apply PageGetSetItemId; cbn [lp_off lp_flags lp_len]; unfold LP_UNUSED; lia.
+ by rewrite PageGetSetItemId_ne by lia.
- destruct (Z.eqb_spec j t); [lia|]. unfold PageGetItemId, mget. do 2 f_equal. unfold set_pd_lower.
apply mread_mput_disj; unfold linp_addr, SizeOfPageHeaderData, sizeof_ItemIdData; lia.
Qed.

Lemma nc_old j : 1 ≤ j ≤ n1 → lp_len (PageGetItemId p1 j) ≠ 0 →
j ≠ t ∧ 1 ≤ j ≤ n ∧ PageGetItemId p1 j = PageGetItemId p j.
Proof.
intros Hj. rewrite nc_item by done. destruct (Z.eqb_spec j t); [done|]. intros _.
split_and!; [done|lia| |done]. unfold n1 in Hj. destruct (t <? n); lia.
Qed.

Lemma nc_wf : page_wf p1.
Proof.
destruct nc_fields as (Hlo & Hu & Hs & Hm & Hz & Hb). pose proof (wf_hdr _ Hwf) as [].
assert (0 ≤ n1 ≤ n) by (unfold n1, n; zcase; lia).
pose proof (PageGetMaxOffsetNumber_eq p ltac:(done)). unfold BLCKSZ in *. split.
- constructor; rewrite ?Hlo, ?Hu, ?Hs; try done; try (unfold n in *; dlia).
- intros j Hj Hl. rewrite Hm in Hj. destruct (nc_old j Hj Hl) as (_ & Hr & E). rewrite E in Hl |- *.
destruct (wf_item _ Hwf j Hr Hl) as (? & ? & ?). unfold lp_in. by rewrite Hu, Hs.
- intros i j Hi Hj Hij Hli Hlj. rewrite Hm in Hi, Hj.
destruct (nc_old i Hi Hli) as (_ & Hri & Ei). destruct (nc_old j Hj Hlj) as (_ & Hrj & Ej).
rewrite Ei, Ej in *. by apply (wf_disjoint _ Hwf).
Qed.

Lemma nc_slots : page_slots p1 = drop_slot (page_slots p) (Z.to_nat (t - 1)).
Proof.
destruct nc_fields as (Hlo & _ & _ & Hm & _). pose proof (length_page_slots p). pose proof (wf_hdr _ Hwf) as [].
pose proof (PageGetMaxOffsetNumber_eq p ltac:(done)).
assert (Hs : ∀ j, 1 ≤ j ≤ n1 → slot_at p1 j = if j =? t then mkSlot LP_UNUSED 0 [] else slot_at p j).
{ intros j Hj. unfold slot_at. rewrite nc_item by done. destruct (Z.eqb_spec j t) as [|Hne]; [done|].
assert (Hr : 1 ≤ j ≤ n) by (unfold n1 in Hj; destruct (t <? n); lia).
unfold slot_of, PageGetItemBytes. destruct (Z.eqb_spec (lp_len (PageGetItemId p j)) 0) as [|E]; [done|].
destruct (wf_item _ Hwf j Hr E) as (? & ? & _). rewrite nc_reads; [done|]. lia. }
unfold drop_slot. assert (Hnd : n = PageGetMaxOffsetNumber p) by done. apply list_eq. intros k. rewrite page_slots_lookup, Hm.
assert (Hn1 : n1 = if t <? n then n else n - 1) by done. destruct (Z.ltb_spec t n).
- destruct (decide (S _ < length _)%nat); [|lia]. rewrite list_lookup_insert, page_slots_lookup. fold n.
destruct (decide (Z.of_nat k + 1 ≤ n)); repeat case_decide; try lia; try done; rewrite Hs by lia; zcase; (done || lia).
- destruct (decide (S _ < length _)%nat); [lia|]. rewrite lookup_take, page_slots_lookup. fold n.
repeat case_decide; try lia; try done. rewrite Hs by lia. zcase; (done || lia).
Qed.

Lemma nc_eval : PageIndexTupleDeleteNoCompact p t = Ok (shift_page p1 offset size).
Proof.
destruct nc_fields as (Hlo & Hu & Hs & Hm & Hz & _). destruct (around_target p t Hwf Ht Htl) as (? & ? & _ & ?).
pose proof (wf_hdr _ Hwf) as Hh. pose proof Hh as [].
unfold PageIndexTupleDeleteNoCompact. rewrite (page_pointers_sane_wf _ Hh). cbn [negb].
destruct (Z.leb_spec t 0); [lia|]. destruct (Z.ltb_spec (PageGetMaxOffsetNumber p) t); [lia|]. cbn [negb orb].
unfold ItemIdGetOffset, ItemIdGetLength. rewrite item_sane_wf by auto. cbn [negb]. fold offset size n. cbv zeta.
assert ((if t <? n then (PageSetItemId p t (ItemIdSetUnused (PageGetItemId p t)), n)
else (set_pd_lower p (pd_lower p - sizeof_ItemIdData), n - 1)) = (p1, n1)) as ->
by (unfold p1, n1; by destruct (t <? n)).
unfold offset, size in *. rewrite slide_if by lia.
assert (Hu1 : pd_upper (slide_tuples p1 (lp_off (PageGetItemId p t)) (MAXALIGN (lp_len (PageGetItemId p t)))) = pd_upper p1).
{ unfold pd_upper at 1, mget. rewrite slide_reads by (unfold BLCKSZ in *; lia). done. }
rewrite Hu1. unfold shift_page. rewrite Hm.
set (p2 := set_pd_upper _ _).
assert (Hl2 : pd_lower p2 = pd_lower p1).
{ unfold p2, pd_lower, set_pd_upper, mget. rewrite mread_mput_disj by lia. rewrite slide_reads by (unfold BLCKSZ in *; lia). done. }
unfold PageIsEmpty. rewrite Hl2, Hlo. destruct (Z.leb_spec (24 + 4 * n1) SizeOfPageHeaderData) as [E|]; [|done].
unfold SizeOfPageHeaderData in E. replace (Z.to_nat n1) with 0%nat by lia. done.
Qed.

Lemma nc_refines : ∃ q, PageIndexTupleDeleteNoCompact p t = Ok q ∧ page_wf q ∧
page_slots q = drop_slot (page_slots p) (Z.to_nat (t - 1)) ∧ pd_upper q = pd_upper p + size.
Proof.
destruct nc_fields as (Hlo & Hu & Hs & Hm & Hz & _). destruct (around_target p t Hwf Ht Htl) as (Ha1 & Ha2 & Ha3 & Ha4).
pose proof (wf_hdr _ nc_wf) as Hh. pose proof Hh as []. pose proof (MAXALIGN_mod (lp_len (PageGetItemId p t))) as Hm8.
fold offset in Ha1, Ha2, Ha3. fold size in Ha2, Ha4, Hm8.
assert (Hgap : ∀ j, 1 ≤ j ≤ PageGetMaxOffsetNumber p1 → j ≠ t → lp_len (PageGetItemId p1 j) ≠ 0 →
if lp_off (PageGetItemId p1 j) <=? offset
then lp_off (PageGetItemId p1 j) + MAXALIGN (lp_len (PageGetItemId p1 j)) ≤ offset
else offset + size ≤ lp_off (PageGetItemId p1 j)).
{ intros j Hj Hne Hl. rewrite Hm in Hj. destruct (nc_old j Hj Hl) as (_ & Hr & E). rewrite E in *.
by destruct (around_other p t Hwf Ht Htl j Hr Hne Hl) as (_ & _ & _ & _ & ?). }
assert (Hd : pd_upper p1 ≤ offset ∧ offset + size ≤ pd_special p1 ∧ 0 ≤ size ∧ size ≤ size ∧ pd_lower p1 ≤ pd_upper p1 + size) by lia.
destruct Hd as (D1 & D2 & D3 & D4 & D5).
assert (Ht0 : ∀ j, 1 ≤ j ≤ PageGetMaxOffsetNumber p1 → j ≠ t ∨ lp_len (PageGetItemId p1 j) = 0).
{ intros j Hj. rewrite Hm in Hj. rewrite nc_item by done. destruct (Z.eqb_spec j t); auto. }
pose proof (shift_fields p1 t offset size size nc_wf D1 D2 D3 Hm8 D4 D5 Hgap) as (F1 & F2 & F3 & _ & F5).
pose proof (shift_item p1 t offset size size nc_wf D1 D2 D3 Hm8 D4 D5 Hgap) as Hit.
pose proof (shift_empty p1 t offset size size nc_wf D1 D2 D3 Hm8 D4 D5 Hgap) as Hem.
pose proof (shift_disjoint p1 t offset size size nc_wf D1 D2 D3 Hm8 D4 D5 Hgap) as Hdj.
set (q := shift_page p1 offset size) in *. exists q. split_and!; [apply nc_eval| |rewrite <-nc_slots|lia].
- assert (Hlen : ∀ j, 1 ≤ j ≤ PageGetMaxOffsetNumber q → lp_len (PageGetItemId q j) ≠ 0 →
1 ≤ j ≤ PageGetMaxOffsetNumber p1 ∧ j ≠ t ∧ lp_len (PageGetItemId p1 j) ≠ 0).
{ intros j Hj Hl. rewrite F5 in Hj. assert (lp_len (PageGetItemId p1 j) ≠ 0) by (intros E; rewrite (Hem j Hj E) in Hl; done).
split_and!; [lia|lia| |done]. by destruct (Ht0 j Hj). }
split.
+ constructor; rewrite ?F1, ?F2, ?F3; try done; try dlia.
* unfold q. rewrite (shift_len p1 t offset size size nc_wf D1 D2 D3 Hm8 D4 D5 Hgap). done.
* exact (shift_bytes p1 t offset size size nc_wf D1 D2 D3 Hm8 D4 D5 Hgap).
+ intros j Hj Hl. destruct (Hlen j Hj Hl) as (Hr & Hne & Hl1). destruct (Hit j Hr Hne Hl1) as (-> & _ & ? & ? & ? & _).
unfold lp_in. rewrite F2, F3. done.
+ intros i j Hi Hj Hij Hli Hlj. destruct (Hlen i Hi Hli) as (? & ? & ?). destruct (Hlen j Hj Hlj) as (? & ? & ?). by apply Hdj.
- apply page_slots_ext; [done|]. intros j Hj. rewrite F5 in Hj.
apply (shift_slot p1 t offset size size nc_wf D1 D2 D3 Hm8 D4 D5 Hgap); auto.
Qed.
End no_compact.
