(* ===== verification/PageCompact.v ===== *)
(** * Compaction: [compactify_tuples], [PageRepairFragmentation],
      [PageIndexMultiDelete]

    The functions of [bufpage.c] that rebuild the tuple space of a page.  The
    heart is [compactify_tuples]: the items are sorted by decreasing offset and
    moved, in that order, against the special space with overlapping
    [memmove]s; the order is what makes the moves safe. *)

From Stdlib Require Import Sorted.
From S2P Require Import Prelude Mem Page PageAdd PageIndex.

(** ** Model *)

Record itemIdSortData : Type := mkSort { offsetindex : Z; itemoff : Z; alignedlen : Z }.

(** [qsort] with [itemoffcompare]: decreasing [itemoff].  The items of a page
    have distinct offsets, for which the result does not depend on the sorting
    algorithm. *)
Definition itemoffcompare (a b : itemIdSortData) : Z := itemoff b - itemoff a.

Fixpoint sort_insert (x : itemIdSortData) (l : list itemIdSortData) : list itemIdSortData :=
  match l with
  | [] => [x]
  | y :: l' => if itemoffcompare x y <=? 0 then x :: l else y :: sort_insert x l'
  end.
Definition sort_items (l : list itemIdSortData) : list itemIdSortData := foldr sort_insert [] l.

Fixpoint compact_loop (items : list itemIdSortData) (p : page) (upper : Z) : res (page * Z) :=
  match items with
  | [] => Ok (p, upper)
  | x :: items =>
      let upper := upper - alignedlen x in
      bs ← load p (itemoff x) (alignedlen x);
      p ← store p upper bs;
      let lp := PageGetItemId p (offsetindex x + 1) in
      let p := PageSetItemId p (offsetindex x + 1) (lp_set_off lp upper) in
      compact_loop items p upper
  end.

Definition compactify_tuples (itemidbase : list itemIdSortData) (p : page) : res page :=
  '(p, upper) ← compact_loop (sort_items itemidbase) p (pd_special p);
  Ok (set_pd_upper p upper).

(** The scan of [PageRepairFragmentation]: line pointers [i .. i+n-1]. *)
Fixpoint repair_scan (up sp : Z) (p : page) (i : Z) (n : nat) (base : list itemIdSortData)
  (nunused totallen : Z) : res (page * list itemIdSortData * Z * Z) :=
  match n with
  | O => Ok (p, base, nunused, totallen)
  | S n =>
      let lp := PageGetItemId p i in
      if ItemIdIsUsed lp then
        if ItemIdHasStorage lp then
          if MaxHeapTuplesPerPage <=? zlen base then Err EOob else
          if (ItemIdGetOffset lp <? up) || (sp <=? ItemIdGetOffset lp) then Err EError else
          let x := mkSort (i - 1) (ItemIdGetOffset lp) (MAXALIGN (ItemIdGetLength lp)) in
          repair_scan up sp p (i + 1) n (base ++ [x]) nunused (totallen + alignedlen x)
        else repair_scan up sp p (i + 1) n base nunused totallen
      else
        repair_scan up sp (PageSetItemId p i (ItemIdSetUnused lp)) (i + 1) n base (nunused + 1) totallen
  end.

Definition PageRepairFragmentation (p : page) : res page :=
  let lower := pd_lower p in
  let up := pd_upper p in
  let sp := pd_special p in
  if negb (page_pointers_sane p) then Err EError else
  let nline := PageGetMaxOffsetNumber p in
  '(p, base, nunused, totallen) ← repair_scan up sp p FirstOffsetNumber (Z.to_nat nline) [] 0 0;
  p ← (if zlen base =? 0 then Ok (set_pd_upper p sp)
       else if sp - lower <? totallen then Err EError
       else compactify_tuples base p);
  Ok (if 0 <? nunused then PageSetHasFreeLinePointers p else PageClearHasFreeLinePointers p).

(** The scan of [PageIndexMultiDelete]: the line pointers to keep, and what is
    left of the offset numbers to delete. *)
Fixpoint multi_scan (up sp : Z) (p : page) (i : Z) (n : nat) (itemnos : list Z) (nused : Z)
  : res (list itemIdSortData * list ItemIdData * list Z) :=
  match n with
  | O => Ok ([], [], itemnos)
  | S n =>
      let lp := PageGetItemId p i in
      let size := ItemIdGetLength lp in
      let offset := ItemIdGetOffset lp in
      if (offset <? up) || (sp <? offset + size) || negb (offset =? MAXALIGN offset) then Err EError else
      match itemnos with
      | o :: rest =>
          if i =? o then multi_scan up sp p (i + 1) n rest nused
          else if MaxIndexTuplesPerPage <=? nused then Err EOob else
            '(base, ids, rest') ← multi_scan up sp p (i + 1) n itemnos (nused + 1);
            Ok (mkSort nused offset (MAXALIGN size) :: base, lp :: ids, rest')
      | [] =>
          if MaxIndexTuplesPerPage <=? nused then Err EOob else
          '(base, ids, rest') ← multi_scan up sp p (i + 1) n itemnos (nused + 1);
          Ok (mkSort nused offset (MAXALIGN size) :: base, lp :: ids, rest')
      end
  end.

(** [memcpy(phdr->pd_linp, newitemids, ...)], from offset number [i] on. *)
Fixpoint set_linps (p : page) (i : Z) (ids : list ItemIdData) : page :=
  match ids with
  | [] => p
  | lp :: ids => set_linps (PageSetItemId p i lp) (i + 1) ids
  end.

(** [while (--nitems >= 0) PageIndexTupleDelete(page, itemnos[nitems])]. *)
Fixpoint delete_backwards (p : page) (itemnos : list Z) : res page :=
  match itemnos with
  | [] => Ok p
  | o :: rest => p ← delete_backwards p rest; PageIndexTupleDelete p o
  end.

Definition PageIndexMultiDelete (p : page) (itemnos : list Z) : res page :=
  if zlen itemnos <=? 2 then delete_backwards p itemnos else
  let lower := pd_lower p in
  let up := pd_upper p in
  let sp := pd_special p in
  if negb (page_pointers_sane p) then Err EError else
  let nline := PageGetMaxOffsetNumber p in
  '(base, ids, rest') ← multi_scan up sp p FirstOffsetNumber (Z.to_nat nline) itemnos 0;
  if negb (zlen rest' =? 0) then Err EError else
  let totallen := foldr (λ x acc, alignedlen x + acc) 0 base in
  if sp - lower <? totallen then Err EError else
  let p := set_linps p 1 ids in
  let p := set_pd_lower p (SizeOfPageHeaderData + zlen ids * sizeof_ItemIdData) in
  compactify_tuples base p.

(** ** Sorting *)

(** Strictly below [bound], each item ends at or before the next starts. *)
Fixpoint desc_below (bound : Z) (l : list itemIdSortData) : Prop :=
  match l with
  | [] => True
  | x :: l => itemoff x + alignedlen x ≤ bound ∧ desc_below (itemoff x) l
  end.

Definition total (l : list itemIdSortData) : Z := foldr (λ x acc, alignedlen x + acc) 0 l.

Definition sort_disjoint (a b : itemIdSortData) : Prop :=
  itemoff a + alignedlen a ≤ itemoff b ∨ itemoff b + alignedlen b ≤ itemoff a.

Lemma sort_insert_perm x l : sort_insert x l ≡ₚ x :: l.
Proof.
  induction l as [|y l IH]; simpl; [done|]. destruct (_ <=? 0); [done|].
  rewrite IH. apply perm_swap.
Qed.

Lemma sort_items_perm l : sort_items l ≡ₚ l.
Proof.
  induction l as [|x l IH]; simpl; [done|]. by rewrite sort_insert_perm, IH.
Qed.

Lemma desc_below_mono b b' l : b ≤ b' → desc_below b l → desc_below b' l.
Proof. destruct l; simpl; intuition lia. Qed.

Lemma sort_insert_desc b x l :
  0 < alignedlen x → Forall (λ y, 0 < alignedlen y) l →
  itemoff x + alignedlen x ≤ b → Forall (sort_disjoint x) l →
  desc_below b l → desc_below b (sort_insert x l).
Proof.
  revert b. induction l as [|y l IH]; intros b Hx Hpos Hb Hd Hl; simpl; [auto|].
  apply Forall_cons_1 in Hpos as [Hy Hpos]. apply Forall_cons_1 in Hd as [Hxy Hd].
  destruct Hl as [Hyb Hl]. unfold sort_disjoint in Hxy. unfold itemoffcompare.
  destruct (Z.leb_spec (itemoff y - itemoff x) 0); simpl.
  - split; [done|]. split; [lia|done].
  - split; [done|]. apply IH; auto. lia.
Qed.

Lemma sort_items_desc b l :
  Forall (λ y, 0 < alignedlen y ∧ itemoff y + alignedlen y ≤ b) l →
  ForallOrdPairs sort_disjoint l → desc_below b (sort_items l).
Proof.
  induction l as [|x l IH]; intros Hf Hp; simpl; [done|].
  apply Forall_cons_1 in Hf as [[? ?] Hf]. inversion Hp; subst.
  apply sort_insert_desc; auto.
  - rewrite sort_items_perm. eapply Forall_impl; [exact Hf|]. simpl. tauto.
  - rewrite sort_items_perm. done.
Qed.

Lemma total_perm l l' : l ≡ₚ l' → total l = total l'.
Proof. unfold total. induction 1; simpl; lia. Qed.

(** The items of a descending list fill at most the room between the lowest
    offset and the bound. *)
Lemma desc_total b lo l :
  desc_below b l → Forall (λ x, lo ≤ itemoff x ∧ 0 ≤ alignedlen x) l → lo ≤ b → total l ≤ b - lo.
Proof.
  revert b. induction l as [|x l IH]; intros b Hd Hf Hb; unfold total in *; simpl in *; [lia|].
  apply Forall_cons_1 in Hf as [[? ?] Hf]. destruct Hd as [? Hd].
  specialize (IH _ Hd Hf ltac:(lia)). lia.
Qed.

Lemma desc_lookup b l k x :
  desc_below b l → Forall (λ y, 0 ≤ alignedlen y) l → l !! k = Some x →
  itemoff x + alignedlen x ≤ b.
Proof.
  revert b k. induction l as [|z l IH]; intros b k Hd Hf Hk; [done|].
  apply Forall_cons_1 in Hf as [? Hf]. destruct Hd as [? Hd].
  destruct k as [|k]; simpl in Hk; simplify_eq; [done|].
  specialize (IH _ _ Hd Hf Hk). lia.
Qed.

(** ** The compaction loop *)

(** Where the loop puts the items: packed downwards from [upper]. *)
Fixpoint packed (upper : Z) (l : list itemIdSortData) : list Z :=
  match l with
  | [] => []
  | x :: l => (upper - alignedlen x) :: packed (upper - alignedlen x) l
  end.

Lemma packed_bounds upper l k x o :
  Forall (λ y, 0 < alignedlen y ∧ alignedlen y mod 8 = 0) l →
  l !! k = Some x → packed upper l !! k = Some o →
  upper - total l ≤ o ∧ o + alignedlen x ≤ upper ∧ (upper mod 8 = 0 → o mod 8 = 0).
Proof.
  revert upper k. induction l as [|y l IH]; intros upper k Hf Hx Ho; [done|].
  apply Forall_cons_1 in Hf as [[? ?] Hf].
  assert (0 ≤ total l).
  { clear -Hf. unfold total. induction Hf as [|y l [? ?] _ IH]; simpl; lia. }
  unfold total in *. simpl. destruct k as [|k]; simpl in *; simplify_eq; [dlia|].
  destruct (IH _ _ Hf Hx Ho) as (? & ? & Hm). split_and!; [lia|lia|].
  intros. apply Hm. dlia.
Qed.

Lemma packed_desc upper l k k' x x' o o' :
  Forall (λ y, 0 < alignedlen y ∧ alignedlen y mod 8 = 0) l → (k < k')%nat →
  l !! k = Some x → packed upper l !! k = Some o →
  l !! k' = Some x' → packed upper l !! k' = Some o' → o' + alignedlen x' ≤ o.
Proof.
  revert upper k k'. induction l as [|y l IH]; intros upper k k' Hf Hk Hx Ho Hx' Ho'; [done|].
  apply Forall_cons_1 in Hf as [[? ?] Hf].
  destruct k' as [|k']; [lia|]. simpl in Hx', Ho'. destruct k as [|k]; simpl in *; simplify_eq.
  - eapply packed_bounds in Hx' as (_ & ? & _); eauto.
  - by eapply (IH _ k k'); eauto with lia.
Qed.

Lemma length_packed upper l : length (packed upper l) = length l.
Proof. revert upper. induction l; intros; simpl; congruence. Qed.

Lemma linp_addr_S j : linp_addr (j + 1) = linp_addr j + 4.
Proof. unfold linp_addr, SizeOfPageHeaderData, sizeof_ItemIdData. lia. Qed.

Lemma linp_addr_ge j : 1 ≤ j → 24 ≤ linp_addr j.
Proof. unfold linp_addr, SizeOfPageHeaderData, sizeof_ItemIdData. lia. Qed.

Lemma linp_addr_le i j : i ≤ j → linp_addr i ≤ linp_addr j.
Proof. unfold linp_addr, SizeOfPageHeaderData, sizeof_ItemIdData. lia. Qed.

(** The items handed to the loop: line pointers below [lo], data above. *)
Definition items_ok (lo : Z) (l : list itemIdSortData) : Prop :=
  Forall (λ x, lo ≤ itemoff x ∧ 0 < alignedlen x ∧ 0 ≤ offsetindex x ∧
               linp_addr (offsetindex x + 2) ≤ lo) l ∧
  NoDup (offsetindex <$> l).

Lemma load_ok m off len :
  0 ≤ off → 0 ≤ len → off + len ≤ zlen m → load m off len = Ok (mread m off len).
Proof. intros. unfold load. by rewrite (proj2 (in_range_true _ _ _)). Qed.

Lemma store_ok m off bs :
  0 ≤ off → off + zlen bs ≤ zlen m → store m off bs = Ok (mwrite m off bs).
Proof.
  intros. unfold store. rewrite (proj2 (in_range_true _ _ _)); [done|]. unfold zlen in *. lia.
Qed.

(** One iteration moves the first item and keeps everything the later
    iterations and the already packed items need. *)
Lemma compact_step p x upper lo :
  zlen p = 8192 → 24 ≤ lo ≤ itemoff x → 0 < alignedlen x → 0 ≤ offsetindex x →
  linp_addr (offsetindex x + 2) ≤ lo → itemoff x + alignedlen x ≤ upper ≤ 8192 →
  let u := upper - alignedlen x in
  let p1 := mwrite p u (mread p (itemoff x) (alignedlen x)) in
  let i := offsetindex x + 1 in
  let p2 := PageSetItemId p1 i (lp_set_off (PageGetItemId p1 i) u) in
  (bs ← load p (itemoff x) (alignedlen x); store p u bs) = Ok p1 ∧
  PageGetItemId p2 i = lp_set_off (PageGetItemId p i) u ∧
  (∀ j, 1 ≤ j → j ≠ i → linp_addr (j + 1) ≤ lo → PageGetItemId p2 j = PageGetItemId p j) ∧
  mread p2 u (alignedlen x) = mread p (itemoff x) (alignedlen x) ∧
  (∀ o l, 0 ≤ o → o + l ≤ 24 ∨ (lo ≤ o ∧ o + l ≤ u) ∨ upper ≤ o → mread p2 o l = mread p o l).
Proof.
  intros Hz Hlo Hal Hi Hli Hup u p1 i p2.
  assert (Hzr : zlen (mread p (itemoff x) (alignedlen x)) = alignedlen x) by (apply zlen_mread; lia).
  assert (Hz1 : zlen p1 = 8192) by (unfold p1; by rewrite zlen_mwrite).
  replace (offsetindex x + 2) with (i + 1) in Hli by lia. rewrite linp_addr_S in Hli.
  pose proof (linp_addr_ge i ltac:(lia)).
  assert (Hlow : ∀ j, 1 ≤ j → linp_addr (j + 1) ≤ lo → PageGetItemId p1 j = PageGetItemId p j).
  { intros j Hj Hl. rewrite linp_addr_S in Hl. pose proof (linp_addr_ge j Hj).
    unfold PageGetItemId, mget, p1. rewrite mread_mwrite_disj; [done|lia|lia]. }
  pose proof (PageGetItemId_bound p i). split_and!.
  - rewrite load_ok by lia. simpl. apply store_ok; lia.
  - unfold p2. rewrite PageGetSetItemId; rewrite ?Hlow by (rewrite ?linp_addr_S; lia);
      cbn [lp_set_off lp_off lp_flags lp_len]; try done; lia.
  - intros j Hj Hne Hl. unfold p2. rewrite PageGetSetItemId_ne by lia. by apply Hlow.
  - unfold p2. rewrite PageSetItemId_reads by lia. unfold p1. rewrite <-Hzr at 2.
    apply mread_mwrite_same; lia.
  - intros o l Ho Hd. unfold p2. rewrite PageSetItemId_reads by lia.
    unfold p1. apply mread_mwrite_disj; [done|lia].
Qed.

Lemma compact_loop_spec l : ∀ p upper lo,
  zlen p = 8192 → Forall is_byte p → 24 ≤ lo → items_ok lo l → desc_below upper l →
  lo ≤ upper ≤ 8192 →
  ∃ q, compact_loop l p upper = Ok (q, upper - total l) ∧
    zlen q = 8192 ∧ Forall is_byte q ∧
    (∀ o n, 0 ≤ o → o + n ≤ 24 ∨ upper ≤ o → mread q o n = mread p o n) ∧
    (∀ j, 1 ≤ j → linp_addr (j + 1) ≤ lo → j - 1 ∉ offsetindex <$> l →
       PageGetItemId q j = PageGetItemId p j) ∧
    (∀ k x o, l !! k = Some x → packed upper l !! k = Some o →
       PageGetItemId q (offsetindex x + 1) = lp_set_off (PageGetItemId p (offsetindex x + 1)) o ∧
       mread q o (alignedlen x) = mread p (itemoff x) (alignedlen x)).
Proof.
  induction l as [|x l IH]; intros p upper lo Hz Hb Hlo [Hok Hnd] Hd Hup.
  { exists p. unfold total. simpl. rewrite Z.sub_0_r. split_and!; try done. }
  apply Forall_cons_1 in Hok as [(Hx1 & Hx2 & Hx3 & Hx4) Hok].
  simpl in Hnd. apply NoDup_cons in Hnd as [Hnin Hnd]. destruct Hd as [Hxu Hd].
  destruct (compact_step p x upper lo) as (Hev & Hnew & Hold & Hdat & Hfr); [lia..|].
  set (u := upper - alignedlen x) in *.
  set (p1 := mwrite p u (mread p (itemoff x) (alignedlen x))) in *.
  set (p2 := PageSetItemId p1 (offsetindex x + 1) _) in *.
  destruct (IH p2 u lo) as (q & Hq & Hzq & Hbq & Hfq & Holdq & Hnewq).
  - unfold p2, p1. by rewrite zlen_PageSetItemId, zlen_mwrite.
  - unfold p2, p1. apply mput_byte, mwrite_byte; [done | by apply mread_byte].
  - done.
  - done.
  - eapply desc_below_mono; [|exact Hd]. lia.
  - lia.
  - exists q. split_and!; [|done|done|..].
    + simpl. fold u. unfold load in Hev |- *. destruct (in_range p (itemoff x) (alignedlen x)); [|done].
      simpl in Hev |- *. rewrite Hev. simpl. fold p2. rewrite Hq. do 2 f_equal. unfold total. simpl. lia.
    + intros o n Ho Hr. rewrite Hfq by lia. apply Hfr; lia.
    + intros j Hj Hl Hin. simpl in Hin. apply not_elem_of_cons in Hin as [Hne Hin].
      rewrite Holdq by done. apply Hold; lia.
    + intros [|k] y o Hy Ho; simpl in Hy, Ho; simplify_eq.
      * rewrite Holdq; [|lia| |by replace (offsetindex y + 1 - 1) with (offsetindex y) by lia].
        2:{ replace (offsetindex y + 1 + 1) with (offsetindex y + 2) by lia. done. }
        split; [done|]. rewrite Hfq by lia. done.
      * destruct (Hnewq k y o Hy Ho) as [H1 H2]. rewrite H1, H2.
        rewrite Forall_forall in Hok. pose proof (list_elem_of_lookup_2 _ _ _ Hy) as Hin.
        destruct (Hok y Hin) as (? & ? & ? & ?). split.
        -- f_equal. apply Hold; [lia| |by replace (offsetindex y + 1 + 1) with (offsetindex y + 2) by lia].
           intros E. apply Hnin. apply list_elem_of_fmap. exists y. split; [lia|done].
        -- apply Hfr; [lia|]. right. left. split; [done|].
           assert (itemoff y + alignedlen y ≤ itemoff x); [|lia].
           eapply desc_lookup; [exact Hd| |exact Hy]. apply Forall_forall. intros z Hz'.
           apply Hok in Hz'. lia.
Qed.

(** ** Compaction of a well-formed page *)

(** [base] lists the line pointers with storage, as the callers build it. *)
Record base_of (p : page) (base : list itemIdSortData) : Prop := {
  bo_nodup : NoDup (offsetindex <$> base);
  bo_sound x : x ∈ base →
    1 ≤ offsetindex x + 1 ≤ PageGetMaxOffsetNumber p ∧
    itemoff x = lp_off (PageGetItemId p (offsetindex x + 1)) ∧
    alignedlen x = MAXALIGN (lp_len (PageGetItemId p (offsetindex x + 1))) ∧
    lp_len (PageGetItemId p (offsetindex x + 1)) ≠ 0;
  bo_complete i : 1 ≤ i ≤ PageGetMaxOffsetNumber p → lp_len (PageGetItemId p i) ≠ 0 →
    i - 1 ∈ offsetindex <$> base }.

Lemma pairs_of_nodup (R : itemIdSortData → itemIdSortData → Prop) l :
  NoDup (offsetindex <$> l) →
  (∀ x y, x ∈ l → y ∈ l → offsetindex x ≠ offsetindex y → R x y) → ForallOrdPairs R l.
Proof.
  induction l as [|x l IH]; intros Hnd HR; [constructor|].
  simpl in Hnd. apply NoDup_cons in Hnd as [Hx Hnd]. constructor.
  - apply Forall_forall. intros y Hy. apply HR; [left|by right|].
    intros E. apply Hx. apply list_elem_of_fmap. by exists y.
  - apply IH; [done|]. intros. apply HR; [by right|by right|done].
Qed.

Lemma lookup_packed_Some upper l k x : l !! k = Some x → ∃ o, packed upper l !! k = Some o.
Proof.
  intros Hk. apply lookup_lt_is_Some. rewrite length_packed. eapply lookup_lt_Some, Hk.
Qed.

Section compactify.
Context (p : page) (base : list itemIdSortData).
Context (Hwf : page_wf p) (Hbase : base_of p base).

Lemma base_item x : x ∈ base →
pd_upper p ≤ itemoff x ∧ 0 < alignedlen x ∧ alignedlen x mod 8 = 0 ∧
itemoff x + alignedlen x ≤ pd_special p ∧ 0 ≤ offsetindex x ∧
linp_addr (offsetindex x + 2) ≤ pd_lower p.
Proof using Hwf Hbase.
intros Hx. destruct (bo_sound _ _ Hbase x Hx) as (Hr & -> & -> & Hn).
destruct (wf_item _ Hwf _ Hr Hn) as (? & ? & ?).
pose proof (MAXALIGN_bounds (lp_len (PageGetItemId p (offsetindex x + 1)))).
pose proof (MAXALIGN_mod (lp_len (PageGetItemId p (offsetindex x + 1)))).
pose proof (PageGetItemId_bound p (offsetindex x + 1)).
pose proof (linp_addr_range _ _ (wf_hdr _ Hwf) Hr).
replace (offsetindex x + 2) with (offsetindex x + 1 + 1) by lia. rewrite linp_addr_S.
split_and!; lia.
Qed.

Lemma base_desc : desc_below (pd_special p) (sort_items base).
Proof using Hwf Hbase.
apply sort_items_desc.
- apply Forall_forall. intros x Hx. pose proof (base_item x Hx). lia.
- apply pairs_of_nodup; [apply Hbase|]. intros x y Hx Hy Hne.
destruct (bo_sound _ _ Hbase x Hx) as (? & Ex & Lx & ?).
destruct (bo_sound _ _ Hbase y Hy) as (? & Ey & Ly & ?).
unfold sort_disjoint. rewrite Ex, Ey, Lx, Ly. apply (wf_disjoint _ Hwf); [lia..|done|done].
Qed.

Lemma base_sorted x : x ∈ sort_items base ↔ x ∈ base.
Proof using. by rewrite sort_items_perm. Qed.

Lemma base_total : 0 ≤ total base ≤ pd_special p - pd_upper p.
Proof using Hwf Hbase.
split.
- assert (Hf : Forall (λ x, 0 ≤ alignedlen x) base).
{ apply Forall_forall. intros x Hx. pose proof (base_item x Hx). lia. }
clear -Hf. unfold total. induction Hf; simpl; lia.
- rewrite <-(total_perm _ _ (sort_items_perm base)).
pose proof (wf_hdr _ Hwf) as []. apply desc_total; [exact base_desc| |done].
apply Forall_forall. intros x Hx. apply base_sorted, base_item in Hx. lia.
Qed.

Lemma base_sorted_pos :
Forall (λ y, 0 < alignedlen y ∧ alignedlen y mod 8 = 0) (sort_items base).
Proof using Hwf Hbase.
apply Forall_forall. intros x Hx. apply base_sorted, base_item in Hx. tauto.
Qed.

Lemma base_items_ok : items_ok (pd_upper p) (sort_items base).
Proof using Hwf Hbase.
pose proof (wf_hdr _ Hwf) as []. split.
- apply Forall_forall. intros x Hx. apply base_sorted, base_item in Hx. lia.
- rewrite sort_items_perm. apply Hbase.
Qed.

(** The position of a line pointer with storage in the sorted list. *)
Lemma base_find i : 1 ≤ i ≤ PageGetMaxOffsetNumber p → lp_len (PageGetItemId p i) ≠ 0 →
∃ k x o, sort_items base !! k = Some x ∧ packed (pd_special p) (sort_items base) !! k = Some o ∧
offsetindex x + 1 = i.
Proof using Hbase.
intros Hi Hn. pose proof (bo_complete _ _ Hbase i Hi Hn) as Hin.
apply list_elem_of_fmap in Hin as (x & Ex & Hx). apply base_sorted in Hx.
apply list_elem_of_lookup_1 in Hx as [k Hk].
destruct (lookup_packed_Some (pd_special p) _ _ _ Hk) as [o Ho].
exists k, x, o. split_and!; [done|done|lia].
Qed.

Lemma base_not_in i : 1 ≤ i → lp_len (PageGetItemId p i) = 0 → i - 1 ∉ offsetindex <$> sort_items base.
Proof using Hbase.
intros Hi Hz Hin. apply list_elem_of_fmap in Hin as (x & Ex & Hx).
apply base_sorted in Hx. destruct (bo_sound _ _ Hbase x Hx) as (_ & _ & _ & Hn).
replace (offsetindex x + 1) with i in Hn by lia. done.
Qed.

(** What compaction does to the page, line pointer by line pointer. *)
Lemma compactify_items :
∃ q, compactify_tuples base p = Ok q ∧ zlen q = 8192 ∧ Forall is_byte q ∧
pd_upper q = pd_special p - total base ∧
(∀ o n, 0 ≤ o → o + n ≤ 14 ∨ (16 ≤ o ∧ o + n ≤ 24) ∨ pd_special p ≤ o → mread q o n = mread p o n) ∧
(∀ i, 1 ≤ i ≤ PageGetMaxOffsetNumber p → lp_len (PageGetItemId p i) = 0 →
PageGetItemId q i = PageGetItemId p i) ∧
(∀ k x o, sort_items base !! k = Some x → packed (pd_special p) (sort_items base) !! k = Some o →
PageGetItemId q (offsetindex x + 1) = lp_set_off (PageGetItemId p (offsetindex x + 1)) o ∧
mread q o (alignedlen x) = mread p (itemoff x) (alignedlen x)).
Proof using Hwf Hbase.
pose proof (wf_hdr _ Hwf) as Hh. pose proof Hh as [].
destruct (compact_loop_spec (sort_items base) p (pd_special p) (pd_upper p))
as (q0 & Hev & Hz & Hb & Hfr & Hold & Hnew); [done|done|lia|exact base_items_ok|exact base_desc|lia|].
rewrite (total_perm _ _ (sort_items_perm base)) in Hev. pose proof base_total.
exists (set_pd_upper q0 (pd_special p - total base)).
assert (Hlp : ∀ i, 1 ≤ i → PageGetItemId (set_pd_upper q0 (pd_special p - total base)) i = PageGetItemId q0 i).
{ intros i Hi. page_unfold. by mem_simpl. }
split_and!.
- unfold compactify_tuples. rewrite Hev. done.
- unfold set_pd_upper. by rewrite zlen_mput.
- by apply mput_byte.
- unfold pd_upper, set_pd_upper. by rewrite mget_mput2 by lia.
- intros o n Ho Hd. unfold set_pd_upper. rewrite mread_mput_disj by lia. apply Hfr; lia.
- intros i Hi Hl. rewrite Hlp by lia. pose proof (linp_addr_range _ _ Hh Hi).
apply Hold; [lia|rewrite linp_addr_S; lia|]. apply base_not_in; [lia|done].
- intros k x o Hk Ho. destruct (Hnew k x o Hk Ho) as [H1 H2].
pose proof (list_elem_of_lookup_2 _ _ _ Hk) as Hx. apply base_sorted, base_item in Hx.
rewrite Hlp by lia. split; [done|]. unfold set_pd_upper.
destruct (packed_bounds _ _ _ _ _ base_sorted_pos Hk Ho) as (Ho1 & _).
rewrite (total_perm _ _ (sort_items_perm base)) in Ho1.
rewrite mread_mput_disj by lia. done.
Qed.

(** Compaction keeps every slot and leaves all the free space in one piece. *)
Lemma compactify_refines :
∃ q, compactify_tuples base p = Ok q ∧ page_wf q ∧ page_slots q = page_slots p ∧
pd_upper q = pd_special p - total base ∧ pd_lower q = pd_lower p ∧
pd_special q = pd_special p ∧ pd_flags q = pd_flags p ∧
(∀ o n, 0 ≤ o → o + n ≤ 14 ∨ (16 ≤ o ∧ o + n ≤ 24) ∨ pd_special p ≤ o → mread q o n = mread p o n).
Proof using Hwf Hbase.
destruct compactify_items as (q & Hev & Hz & Hb & Hup & Hfr & Hold & Hnew).
pose proof (wf_hdr _ Hwf) as Hh. pose proof Hh as []. pose proof base_total.
assert (Hlo : pd_lower q = pd_lower p) by (unfold pd_lower, mget; by rewrite Hfr by lia).
assert (Hsp : pd_special q = pd_special p) by (unfold pd_special, mget; by rewrite Hfr by lia).
assert (Hmx : PageGetMaxOffsetNumber q = PageGetMaxOffsetNumber p)
by (unfold PageGetMaxOffsetNumber; by rewrite Hlo).
assert (Hmod : total base mod 8 = 0).
{ clear -Hwf Hbase. assert (Hf : Forall (λ x, alignedlen x mod 8 = 0) base).
{ apply Forall_forall. intros x Hx. apply base_item in Hx. tauto. }
clear -Hf. unfold total. induction Hf; simpl; dlia. }
assert (Hitem : ∀ i, 1 ≤ i ≤ PageGetMaxOffsetNumber p → lp_len (PageGetItemId p i) ≠ 0 →
∃ k x o, sort_items base !! k = Some x ∧ packed (pd_special p) (sort_items base) !! k = Some o ∧
offsetindex x + 1 = i ∧ PageGetItemId q i = lp_set_off (PageGetItemId p i) o ∧
alignedlen x = MAXALIGN (lp_len (PageGetItemId p i)) ∧
mread q o (alignedlen x) = mread p (lp_off (PageGetItemId p i)) (alignedlen x)).
{ intros i Hi Hn. destruct (base_find i Hi Hn) as (k & x & o & Hk & Ho & Hxi).
destruct (Hnew k x o Hk Ho) as [H1 H2].
pose proof (list_elem_of_lookup_2 _ _ _ Hk) as Hx. apply base_sorted in Hx.
destruct (bo_sound _ _ Hbase x Hx) as (_ & E1 & E2 & _). rewrite Hxi in *.
exists k, x, o. rewrite <-E1. done. }
assert (Hlen : ∀ i, 1 ≤ i ≤ PageGetMaxOffsetNumber p →
lp_len (PageGetItemId q i) = lp_len (PageGetItemId p i)).
{ intros i Hi. destruct (decide (lp_len (PageGetItemId p i) = 0)) as [Hn|Hn].
- by rewrite Hold.
- destruct (Hitem i Hi Hn) as (? & ? & ? & _ & _ & _ & -> & _). done. }
exists q. split_and!; [done| |..|done|done|done| |done].
- split; [constructor; rewrite ?Hlo, ?Hup, ?Hsp; try done; dlia|..]; rewrite Hmx.
+ intros i Hi Hn. rewrite Hlen in Hn by done.
destruct (Hitem i Hi Hn) as (k & x & o & Hk & Ho & _ & -> & Hal & _).
destruct (packed_bounds _ _ _ _ _ base_sorted_pos Hk Ho) as (Ho1 & Ho2 & Ho3).
rewrite (total_perm _ _ (sort_items_perm base)) in Ho1.
unfold lp_in. rewrite Hup, Hsp. cbn [lp_set_off lp_off lp_len]. rewrite <-Hal.
split_and!; [lia|lia|auto].
+ intros i j Hi Hj Hne Hni Hnj. rewrite Hlen in Hni, Hnj by done.
destruct (Hitem i Hi Hni) as (k & x & o & Hk & Ho & Exi & -> & Hal & _).
destruct (Hitem j Hj Hnj) as (k' & x' & o' & Hk' & Ho' & Exj & -> & Hal' & _).
unfold lp_disjoint. cbn [lp_set_off lp_off lp_len]. rewrite <-Hal, <-Hal'.
destruct (lt_eq_lt_dec k k') as [[Hlt| ->]|Hlt].
* right. eapply (packed_desc _ _ k k'); eauto using base_sorted_pos.
* simplify_eq.
* left. eapply (packed_desc _ _ k' k); eauto using base_sorted_pos.
- apply page_slots_ext; [done|]. rewrite Hmx. intros i Hi. unfold slot_at, slot_of, PageGetItemBytes.
rewrite Hlen by done. destruct (Z.eqb_spec (lp_len (PageGetItemId p i)) 0) as [Hn|Hn].
+ by rewrite Hold.
+ destruct (Hitem i Hi Hn) as (k & x & o & Hk & Ho & _ & -> & Hal & Hrd).
cbn [lp_set_off lp_off lp_len lp_flags]. f_equal.
pose proof (MAXALIGN_bounds (lp_len (PageGetItemId p i))).
pose proof (PageGetItemId_bound p i).
pose proof (mread_mread q o (alignedlen x) 0 (lp_len (PageGetItemId p i))) as E1.
pose proof (mread_mread p (lp_off (PageGetItemId p i)) (alignedlen x) 0 (lp_len (PageGetItemId p i))) as E2.
rewrite Z.add_0_r in E1, E2. rewrite <-E1, <-E2, Hrd; [done|..].
all: try lia.
all: destruct (packed_bounds _ _ _ _ _ base_sorted_pos Hk Ho) as (Ho1 & _).
all: rewrite (total_perm _ _ (sort_items_perm base)) in Ho1; lia.
- unfold pd_flags, mget. by rewrite Hfr by lia.
Qed.
End compactify.

(** ** [PageRepairFragmentation] *)

(** What the scan collects from line pointers [i .. i+n-1]. *)
Fixpoint live_from (p : page) (i : Z) (n : nat) : list itemIdSortData :=
  match n with
  | O => []
  | S n =>
      let lp := PageGetItemId p i in
      if ItemIdIsUsed lp && ItemIdHasStorage lp
      then mkSort (i - 1) (ItemIdGetOffset lp) (MAXALIGN (ItemIdGetLength lp)) :: live_from p (i + 1) n
      else live_from p (i + 1) n
  end.

Fixpoint unused_from (p : page) (i : Z) (n : nat) : Z :=
  match n with
  | O => 0
  | S n => (if ItemIdIsUsed (PageGetItemId p i) then 0 else 1) + unused_from p (i + 1) n
  end.

Lemma live_from_ext p q n : ∀ i,
  (∀ j, i ≤ j → PageGetItemId q j = PageGetItemId p j) → live_from q i n = live_from p i n.
Proof.
  induction n as [|n IH]; intros i Hj; cbn [live_from]; [done|].
  rewrite (Hj i) by lia. rewrite IH by (intros; apply Hj; lia). done.
Qed.

Lemma unused_from_ext p q n : ∀ i,
  (∀ j, i ≤ j → PageGetItemId q j = PageGetItemId p j) → unused_from q i n = unused_from p i n.
Proof.
  induction n as [|n IH]; intros i Hj; cbn [unused_from]; [done|].
  rewrite (Hj i) by lia. rewrite IH by (intros; apply Hj; lia). done.
Qed.

Lemma unused_from_nonneg p n : ∀ i, 0 ≤ unused_from p i n.
Proof. induction n as [|n IH]; intros i; cbn [unused_from]; [done|]. specialize (IH (i + 1)). destruct ItemIdIsUsed; lia. Qed.

Lemma elem_live_from p n x : ∀ i,
  x ∈ live_from p i n ↔ ∃ j, i ≤ j < i + Z.of_nat n ∧ lp_flags (PageGetItemId p j) ≠ LP_UNUSED ∧
    lp_len (PageGetItemId p j) ≠ 0 ∧
    x = mkSort (j - 1) (lp_off (PageGetItemId p j)) (MAXALIGN (lp_len (PageGetItemId p j))).
Proof.
  induction n as [|n IH]; intros i.
  { split; [intros H; inversion H|intros (? & ? & _); lia]. }
  cbn [live_from]. unfold ItemIdIsUsed, ItemIdHasStorage, ItemIdGetOffset, ItemIdGetLength.
  destruct (Z.eqb_spec (lp_flags (PageGetItemId p i)) LP_UNUSED) as [Ef|Ef];
    destruct (Z.eqb_spec (lp_len (PageGetItemId p i)) 0) as [El|El];
    cbn [negb andb]; rewrite ?elem_of_cons, IH.
  4:{ split.
      - intros [->|(j & ? & ? & ? & ?)]; [exists i; repeat split; (done || lia)|].
        exists j. split_and!; (done || lia).
      - intros (j & ? & ? & ? & ->). destruct (decide (j = i)) as [->|]; [by left|].
        right. exists j. split_and!; (done || lia). }
  all: split; intros (j & ? & ? & ? & ?); exists j; split_and!; try done; try lia.
  all: destruct (decide (j = i)) as [->|]; [done|lia].
Qed.

Lemma live_from_nodup p n : ∀ i, NoDup (offsetindex <$> live_from p i n).
Proof.
  induction n as [|n IH]; intros i; simpl; [constructor|].
  destruct (_ && _); [|apply IH]. rewrite fmap_cons. apply NoDup_cons. split; [|apply IH].
  intros Hin. apply list_elem_of_fmap in Hin as (x & E & Hx).
  apply elem_live_from in Hx as (j & ? & _ & _ & ->). simpl in E. lia.
Qed.

Lemma repair_scan_spec up sp n : ∀ p i base nu tot,
  zlen p = 8192 → Forall is_byte p → 1 ≤ i → linp_addr (i + Z.of_nat n) ≤ 8192 →
  zlen base + Z.of_nat n ≤ MaxHeapTuplesPerPage →
  (∀ j, i ≤ j < i + Z.of_nat n → lp_len (PageGetItemId p j) ≠ 0 → up ≤ lp_off (PageGetItemId p j) < sp) →
  ∃ q, repair_scan up sp p i n base nu tot =
      Ok (q, base ++ live_from p i n, nu + unused_from p i n, tot + total (live_from p i n)) ∧
    zlen q = 8192 ∧ Forall is_byte q ∧
    (∀ o l, 0 ≤ o → o + l ≤ linp_addr i ∨ linp_addr (i + Z.of_nat n) ≤ o → mread q o l = mread p o l) ∧
    (∀ j, 1 ≤ j → PageGetItemId q j =
       if decide (i ≤ j < i + Z.of_nat n ∧ lp_flags (PageGetItemId p j) = LP_UNUSED)
       then mkItemId 0 LP_UNUSED 0 else PageGetItemId p j).
Proof.
  induction n as [|n IH]; intros p i base nu tot Hz Hb Hi Ha Hm Hr.
  { exists p. simpl. rewrite app_nil_r, !Z.add_0_r. split_and!; try done.
    intros j Hj. rewrite decide_False by lia. done. }
  assert (Hap : linp_addr (i + 1) = linp_addr i + 4) by apply linp_addr_S.
  pose proof (linp_addr_ge i Hi).
  pose proof (linp_addr_le (i + 1) (i + Z.of_nat (S n)) ltac:(lia)).
  assert (Hpos : 0 ≤ zlen base) by (unfold zlen; lia).
  cbn [repair_scan live_from unused_from]. cbv zeta.
  destruct (ItemIdIsUsed (PageGetItemId p i)) eqn:Eu.
  - assert (Hu : lp_flags (PageGetItemId p i) ≠ LP_UNUSED).
    { unfold ItemIdIsUsed in Eu. b2p. done. }
    assert (Hdec : ∀ q, (∀ j, 1 ≤ j → PageGetItemId q j =
        if decide (i + 1 ≤ j < i + 1 + Z.of_nat n ∧ lp_flags (PageGetItemId p j) = LP_UNUSED)
        then mkItemId 0 LP_UNUSED 0 else PageGetItemId p j) →
      ∀ j, 1 ≤ j → PageGetItemId q j =
        if decide (i ≤ j < i + Z.of_nat (S n) ∧ lp_flags (PageGetItemId p j) = LP_UNUSED)
        then mkItemId 0 LP_UNUSED 0 else PageGetItemId p j).
    { intros q Hq j Hj. rewrite Hq by done. destruct (decide (j = i)) as [->|].
      - rewrite !decide_False; [done|tauto|lia].
      - apply decide_ext. split; intros [? ?]; (split; [lia|done]). }
    destruct (ItemIdHasStorage (PageGetItemId p i)) eqn:Es; cbn [andb].
    + assert (Hl : lp_len (PageGetItemId p i) ≠ 0) by (unfold ItemIdHasStorage in Es; b2p; done).
      pose proof (Hr i ltac:(lia) Hl). unfold ItemIdGetOffset, ItemIdGetLength.
      set (x := mkSort (i - 1) _ _).
      destruct (Z.leb_spec MaxHeapTuplesPerPage (zlen base)); [lia|].
      destruct (Z.ltb_spec (lp_off (PageGetItemId p i)) up); [lia|].
      destruct (Z.leb_spec sp (lp_off (PageGetItemId p i))); [lia|]. cbn [orb].
      destruct (IH p (i + 1) (base ++ [x]) nu (tot + alignedlen x)) as (q & Hq & ? & ? & Hf & Hg).
      { done. } { done. } { lia. }
      { replace (i + 1 + Z.of_nat n) with (i + Z.of_nat (S n)) by lia. done. }
      { unfold zlen in *. rewrite length_app. simpl. lia. }
      { intros j Hj. apply Hr. lia. }
      exists q. split_and!; [|done|done| |by apply Hdec].
      * rewrite Hq. rewrite <-app_assoc. simpl. unfold total. simpl. do 2 f_equal. lia.
      * intros o l Ho Hd. apply Hf; [done|]. replace (i + 1 + Z.of_nat n) with (i + Z.of_nat (S n)) by lia. lia.
    + destruct (IH p (i + 1) base nu tot) as (q & Hq & ? & ? & Hf & Hg).
      { done. } { done. } { lia. }
      { replace (i + 1 + Z.of_nat n) with (i + Z.of_nat (S n)) by lia. done. }
      { lia. } { intros j Hj. apply Hr. lia. }
      exists q. split_and!; [by rewrite Hq|done|done| |by apply Hdec].
      intros o l Ho Hd. apply Hf; [done|]. replace (i + 1 + Z.of_nat n) with (i + Z.of_nat (S n)) by lia. lia.
  - assert (Hu : lp_flags (PageGetItemId p i) = LP_UNUSED).
    { unfold ItemIdIsUsed in Eu. b2p. done. }
    set (p1 := PageSetItemId p i (ItemIdSetUnused (PageGetItemId p i))).
    assert (Hne : ∀ j, 1 ≤ j → j ≠ i → PageGetItemId p1 j = PageGetItemId p j).
    { intros. unfold p1. apply PageGetSetItemId_ne; lia. }
    destruct (IH p1 (i + 1) base (nu + 1) tot) as (q & Hq & ? & ? & Hf & Hg).
    { unfold p1. by rewrite zlen_PageSetItemId. } { by apply mput_byte. } { lia. }
    { replace (i + 1 + Z.of_nat n) with (i + Z.of_nat (S n)) by lia. done. }
    { lia. } { intros j Hj. rewrite Hne by lia. apply Hr. lia. }
    exists q. split_and!; [|done|done|..].
    + rewrite Hq. cbn [andb]. rewrite (live_from_ext p p1), (unused_from_ext p p1) by (intros; apply Hne; lia).
      do 3 f_equal. lia.
    + intros o l Ho Hd. rewrite Hf; [|done|].
      * unfold p1. apply PageSetItemId_reads; lia.
      * replace (i + 1 + Z.of_nat n) with (i + Z.of_nat (S n)) by lia. lia.
    + intros j Hj. rewrite Hg by done. destruct (decide (j = i)) as [->|Hn].
      * rewrite decide_False by lia. rewrite decide_True by (split; [lia|done]).
        unfold p1. rewrite PageGetSetItemId; cbn [ItemIdSetUnused lp_off lp_flags lp_len]; unfold LP_UNUSED; (done || lia).
      * rewrite Hne by done. apply decide_ext. split; intros [? ?]; (split; [lia|done]).
Qed.

(** What repairing does to a slot: an unused slot is emptied. *)
Definition norm_slot (s : slot) : slot :=
  if sl_flags s =? LP_UNUSED then mkSlot LP_UNUSED 0 [] else s.

(** The tuple space a list of slots takes. *)
Definition slots_space (l : list slot) : Z :=
  foldr (λ s acc, MAXALIGN (zlen (sl_bytes s)) + acc) 0 l.

Lemma linp_max p : page_hdr_wf p → linp_addr (1 + PageGetMaxOffsetNumber p) = pd_lower p.
Proof.
  intros []. rewrite PageGetMaxOffsetNumber_eq by done.
  unfold linp_addr, SizeOfPageHeaderData, sizeof_ItemIdData. dlia.
Qed.

Lemma slot_at_flags p i : sl_flags (slot_at p i) = lp_flags (PageGetItemId p i).
Proof. unfold slot_at, slot_of. by destruct (_ =? 0). Qed.

Lemma slot_at_len p i : page_wf p → 1 ≤ i ≤ PageGetMaxOffsetNumber p →
  zlen (sl_bytes (slot_at p i)) = lp_len (PageGetItemId p i).
Proof.
  intros Hwf Hi. unfold slot_at, slot_of, PageGetItemBytes.
  destruct (Z.eqb_spec (lp_len (PageGetItemId p i)) 0) as [E|E]; cbn [sl_bytes]; [by rewrite E|].
  destruct (wf_item _ Hwf i Hi E) as (? & ? & ?). pose proof (wf_hdr _ Hwf) as [].
  pose proof (MAXALIGN_bounds (lp_len (PageGetItemId p i))). pose proof (PageGetItemId_bound p i).
  unfold BLCKSZ in *. apply zlen_mread; lia.
Qed.

Lemma unused_from_existsb p n : ∀ i,
  (0 <? unused_from p i n) = existsb (λ s, sl_flags s =? LP_UNUSED) (slot_at p <$> seqZ i (Z.of_nat n)).
Proof.
  induction n as [|n IH]; intros i; [done|].
  rewrite seqZ_cons by lia. replace (Z.pred (Z.of_nat (S n))) with (Z.of_nat n) by lia.
  rewrite fmap_cons. cbn [unused_from existsb]. rewrite slot_at_flags, <-(IH (Z.succ i)).
  unfold ItemIdIsUsed. pose proof (unused_from_nonneg p n (i + 1)). unfold Z.succ.
  destruct (_ =? LP_UNUSED); cbn [negb orb]; zcase; done.
Qed.

Lemma live_total p n : ∀ i, page_wf p → 1 ≤ i → i + Z.of_nat n ≤ 1 + PageGetMaxOffsetNumber p →
  total (live_from p i n) = slots_space (norm_slot ∘ slot_at p <$> seqZ i (Z.of_nat n)).
Proof.
  induction n as [|n IH]; intros i Hwf Hi Hn; [done|].
  rewrite seqZ_cons by lia. replace (Z.pred (Z.of_nat (S n))) with (Z.of_nat n) by lia.
  rewrite fmap_cons. cbn [live_from slots_space foldr]. unfold ItemIdIsUsed, ItemIdHasStorage.
  fold (slots_space (norm_slot ∘ slot_at p <$> seqZ (Z.succ i) (Z.of_nat n))).
  rewrite <-(IH (Z.succ i)) by (done || lia). unfold Z.succ, compose, norm_slot.
  rewrite slot_at_flags. destruct (_ =? LP_UNUSED); cbn [negb andb sl_bytes]; [done|].
  rewrite slot_at_len by (done || lia).
  destruct (Z.eqb_spec (lp_len (PageGetItemId p i)) 0) as [E|E]; cbn [negb]; [by rewrite E|done].
Qed.

(** Emptying line pointers of a well-formed page keeps it well formed. *)
Lemma subset_wf p q :
  page_wf p → zlen q = zlen p → Forall is_byte q →
  pd_lower q = pd_lower p → pd_upper q = pd_upper p → pd_special q = pd_special p →
  (∀ i, 1 ≤ i ≤ PageGetMaxOffsetNumber p →
     PageGetItemId q i = PageGetItemId p i ∨ lp_len (PageGetItemId q i) = 0) →
  page_wf q.
Proof.
  intros [[] Hit Hdj] Hl Hb Hlo Hup Hsp Hq.
  assert (Hm : PageGetMaxOffsetNumber q = PageGetMaxOffsetNumber p)
    by (unfold PageGetMaxOffsetNumber; by rewrite Hlo).
  split.
  - constructor; rewrite ?Hlo, ?Hup, ?Hsp, ?Hl; auto.
  - intros i. rewrite Hm. intros Hi Hn. unfold lp_in. rewrite Hup, Hsp.
    destruct (Hq i Hi) as [E|E]; [|done]. rewrite E in *. by apply Hit.
  - intros i j. rewrite Hm. intros Hi Hj Hne Hni Hnj.
    destruct (Hq i Hi) as [E|E]; [|done]. destruct (Hq j Hj) as [E'|E']; [|done].
    rewrite E, E' in *. by apply Hdj.
Qed.

(** A page without items may have all its tuple space free. *)
Lemma no_items_wf p :
  page_wf p → (∀ i, 1 ≤ i ≤ PageGetMaxOffsetNumber p → lp_len (PageGetItemId p i) = 0) →
  page_wf (set_pd_upper p (pd_special p)) ∧
  page_slots (set_pd_upper p (pd_special p)) = page_slots p ∧
  pd_upper (set_pd_upper p (pd_special p)) = pd_special p ∧
  pd_lower (set_pd_upper p (pd_special p)) = pd_lower p ∧
  pd_special (set_pd_upper p (pd_special p)) = pd_special p ∧
  pd_flags (set_pd_upper p (pd_special p)) = pd_flags p.
Proof.
  intros Hwf Hno. pose proof (wf_hdr _ Hwf) as [].
  set (q := set_pd_upper p (pd_special p)).
  assert (Hup : pd_upper q = pd_special p).
  { unfold q, pd_upper, set_pd_upper. unfold BLCKSZ in *. by rewrite mget_mput2 by lia. }
  assert (Hlo : pd_lower q = pd_lower p) by (unfold q; page_unfold; by mem_simpl).
  assert (Hsp : pd_special q = pd_special p) by (unfold q; page_unfold; by mem_simpl).
  assert (Hfl : pd_flags q = pd_flags p) by (unfold q; page_unfold; by mem_simpl).
  assert (Hit : ∀ i, 1 ≤ i → PageGetItemId q i = PageGetItemId p i)
    by (intros; unfold q; page_unfold; by mem_simpl).
  assert (Hm : PageGetMaxOffsetNumber q = PageGetMaxOffsetNumber p)
    by (unfold PageGetMaxOffsetNumber; by rewrite Hlo).
  split_and!; [|..|done|done|done|done].
  - split; [constructor; rewrite ?Hup, ?Hlo, ?Hsp; try done; try lia|..]; rewrite ?Hm.
    + unfold q, set_pd_upper. by rewrite zlen_mput.
    + by apply mput_byte.
    + intros i Hi. rewrite Hit by lia. by rewrite Hno.
    + intros i j Hi. rewrite Hit by lia. by rewrite Hno.
  - apply page_slots_ext; [done|]. rewrite Hm. intros i Hi. unfold slot_at, slot_of.
    rewrite Hit by lia. by rewrite Hno.
Qed.

(** The page after the scan: the same page with its unused slots emptied. *)
Record scanned (p q : page) : Prop := {
  sc_wf : page_wf q;
  sc_lower : pd_lower q = pd_lower p;
  sc_upper : pd_upper q = pd_upper p;
  sc_special : pd_special q = pd_special p;
  sc_flags : pd_flags q = pd_flags p;
  sc_slots : page_slots q = norm_slot <$> page_slots p;
  sc_base : base_of q (live_from p 1 (Z.to_nat (PageGetMaxOffsetNumber p))) }.

Lemma repair_scan_scanned p :
  page_wf p → PageGetMaxOffsetNumber p ≤ MaxHeapTuplesPerPage →
  let n := Z.to_nat (PageGetMaxOffsetNumber p) in
  ∃ q, repair_scan (pd_upper p) (pd_special p) p FirstOffsetNumber n [] 0 0 =
      Ok (q, live_from p 1 n, unused_from p 1 n, total (live_from p 1 n)) ∧ scanned p q.
Proof.
  intros Hwf Hmax n. pose proof (wf_hdr _ Hwf) as Hh. pose proof Hh as [].
  pose proof (PageGetMaxOffsetNumber_nonneg p). pose proof (linp_max p Hh) as Hlm.
  assert (Hn : Z.of_nat n = PageGetMaxOffsetNumber p) by lia.
  destruct (repair_scan_spec (pd_upper p) (pd_special p) n p 1 [] 0 0)
    as (q & Hev & Hz & Hb & Hfr & Hg); rewrite ?Hn; [done|done|lia|lia|unfold zlen; simpl; lia| |].
  { intros j Hj Hl. destruct (wf_item _ Hwf j ltac:(lia) Hl) as (? & ? & _).
    pose proof (MAXALIGN_bounds (lp_len (PageGetItemId p j))). pose proof (PageGetItemId_bound p j). lia. }
  rewrite Hn in Hfr, Hg. exists q. split; [exact Hev|].
  assert (Hhd : ∀ k o, 0 ≤ o → o + Z.of_nat k ≤ 24 → mget k q o = mget k p o).
  { intros k o ? ?. unfold mget. rewrite Hfr; [done|lia|]. left. unfold linp_addr, SizeOfPageHeaderData. lia. }
  assert (Hlo : pd_lower q = pd_lower p) by (apply Hhd; lia).
  assert (Hup : pd_upper q = pd_upper p) by (apply Hhd; lia).
  assert (Hsp : pd_special q = pd_special p) by (apply Hhd; lia).
  assert (Hm : PageGetMaxOffsetNumber q = PageGetMaxOffsetNumber p)
    by (unfold PageGetMaxOffsetNumber; by rewrite Hlo).
  constructor; [|done|done|done|apply Hhd; lia|..].
  - apply (subset_wf p); try done; [unfold BLCKSZ in *; lia|].
    intros i Hi. rewrite Hg by lia. case_decide; [by right|by left].
  - apply list_eq. intros k. rewrite list_lookup_fmap, !page_slots_lookup, Hm.
    case_decide; [|done]. cbn [fmap option_fmap option_map]. f_equal.
    unfold norm_slot. rewrite slot_at_flags. unfold slot_at at 1. rewrite Hg by lia.
    destruct (Z.eqb_spec (lp_flags (PageGetItemId p (1 + Z.of_nat k))) LP_UNUSED) as [E|E].
    + rewrite decide_True by (split; [lia|done]). done.
    + rewrite decide_False by tauto. unfold slot_at, slot_of, PageGetItemBytes.
      destruct (Z.eqb_spec (lp_len (PageGetItemId p (1 + Z.of_nat k))) 0) as [El|El]; [done|].
      f_equal. destruct (wf_item _ Hwf (1 + Z.of_nat k) ltac:(lia) El) as (? & ? & _).
      apply Hfr; [lia|]. right. lia.
  - constructor; [apply live_from_nodup|..].
    + intros x Hx. apply elem_live_from in Hx as (j & Hj & Hf & Hl & ->).
      cbn [offsetindex itemoff alignedlen]. replace (j - 1 + 1) with j by lia.
      rewrite Hm, Hg by lia. rewrite decide_False by tauto. split_and!; (lia || done).
    + intros i Hi Hl. rewrite Hm in Hi. rewrite Hg in Hl by lia. case_decide as Hd; [done|].
      apply list_elem_of_fmap. eexists. split; [|apply elem_live_from; exists i; split_and!; [lia|lia| |done|done]].
      * done.
      * intros E. apply Hd. split; [lia|done].
Qed.

(** Setting or clearing the hint bit. *)
Lemma free_lines_hint b p : page_wf p →
  let q := if b : bool then PageSetHasFreeLinePointers p else PageClearHasFreeLinePointers p in
  page_frame p q ∧ PageHasFreeLinePointers q = b.
Proof.
  intros Hwf. pose proof (wf_hdr _ Hwf) as [Hl Hb _ _ _ _ _ _ _].
  pose proof (hdr_field_bound p Hb) as (Hf & _). unfold BLCKSZ in *.
  destruct b; cbv zeta; (split; [apply frame_flags|]);
    unfold PageHasFreeLinePointers, PageSetHasFreeLinePointers, PageClearHasFreeLinePointers,
      pd_flags, set_pd_flags in *.
  - rewrite mget_mput2; [by apply has_flag_set|lia|lia|].
    apply (lor_bounded _ _ 16); unfold PD_HAS_FREE_LINES; lia.
  - rewrite mget_mput2; [by apply has_flag_clear|lia|lia|].
    apply (land_bounded_l _ _ 16); lia.
Qed.

Lemma PageRepairFragmentation_refines p :
  page_wf p → PageGetMaxOffsetNumber p ≤ MaxHeapTuplesPerPage →
  ∃ q, PageRepairFragmentation p = Ok q ∧ page_wf q ∧
    page_slots q = norm_slot <$> page_slots p ∧
    pd_upper q = pd_special q - slots_space (page_slots q) ∧
    pd_lower q = pd_lower p ∧ pd_special q = pd_special p ∧
    PageHasFreeLinePointers q = existsb (λ s, sl_flags s =? LP_UNUSED) (page_slots p).
Proof.
  intros Hwf Hmax. pose proof (wf_hdr _ Hwf) as Hh. pose proof Hh as [].
  destruct (repair_scan_scanned p Hwf Hmax) as (q0 & Hev & [Hw0 Hlo Hup Hsp Hfl Hsl Hbs]).
  set (n := Z.to_nat (PageGetMaxOffsetNumber p)) in *.
  pose proof (PageGetMaxOffsetNumber_nonneg p).
  assert (Htot : total (live_from p 1 n) = slots_space (page_slots q0)).
  { rewrite Hsl. unfold page_slots. rewrite <-list_fmap_compose.
    rewrite (live_total p n 1 Hwf ltac:(lia) ltac:(lia)). unfold n. by rewrite Z2Nat.id by done. }
  pose proof (base_total q0 _ Hw0 Hbs) as Hbt.
  assert (Hmid : ∃ q1, (if zlen (live_from p 1 n) =? 0 then Ok (set_pd_upper q0 (pd_special p))
       else if pd_special p - pd_lower p <? total (live_from p 1 n) then Err EError
       else compactify_tuples (live_from p 1 n) q0) = Ok q1 ∧ page_wf q1 ∧ page_slots q1 = page_slots q0 ∧
       pd_upper q1 = pd_special p - total (live_from p 1 n) ∧ pd_lower q1 = pd_lower p ∧
       pd_special q1 = pd_special p).
  { destruct (Z.eqb_spec (zlen (live_from p 1 n)) 0) as [E|E].
    - assert (Hnil : live_from p 1 n = []) by (apply nil_length_inv; unfold zlen in E; lia).
      destruct (no_items_wf q0 Hw0) as (? & ? & ? & ? & ? & _).
      { intros i Hi. destruct (decide (lp_len (PageGetItemId q0 i) = 0)) as [|Hn]; [done|].
        apply (bo_complete _ _ Hbs) in Hn; [|done]. rewrite Hnil in Hn. inversion Hn. }
      rewrite <-Hsp. eexists. split; [done|]. rewrite Hnil, <-Hlo. unfold total. simpl. rewrite Z.sub_0_r. done.
    - destruct (Z.ltb_spec (pd_special p - pd_lower p) (total (live_from p 1 n))); [lia|].
      destruct (compactify_refines q0 _ Hw0 Hbs) as (q1 & Hq1 & ? & ? & ? & ? & ? & _).
      exists q1. rewrite <-Hsp, <-Hlo. done. }
  destruct Hmid as (q1 & Hq1 & Hw1 & Hs1 & Hu1 & Hl1 & Hp1).
  unfold PageRepairFragmentation. rewrite (page_pointers_sane_wf p Hh). cbn [negb]. cbv zeta.
  fold n. rewrite Hev. cbn [mbind res_bind]. rewrite Hq1. cbn [mbind res_bind].
  destruct (free_lines_hint (0 <? unused_from p 1 n) q1 Hw1) as [Hf Hhint].
  eexists. split; [done|].
  rewrite (fr_lower _ _ Hf), (fr_upper _ _ Hf), (fr_special _ _ Hf), Hhint, (frame_slots _ _ Hf Hw1), Hs1.
  split_and!; [by eapply frame_wf| done|lia|done|done|].
  rewrite unused_from_existsb. unfold page_slots, n. by rewrite Z2Nat.id by done.
Qed.

(** ** [PageIndexMultiDelete] *)

(** The reference: delete the given offset numbers one at a time, from the
    back. *)
Definition delete_slots {A} (itemnos : list Z) (s : list A) : list A :=
  foldr (λ o s, delete (Z.to_nat (o - 1)) s) s itemnos.

(** One pass from offset number [i] on, as the scan does it. *)
Fixpoint drop_from {A} (i : Z) (itemnos : list Z) (s : list A) : list A :=
  match s with
  | [] => []
  | x :: s =>
      match itemnos with
      | o :: rest => if i =? o then drop_from (i + 1) rest s else x :: drop_from (i + 1) itemnos s
      | [] => x :: drop_from (i + 1) [] s
      end
  end.

Lemma drop_from_nil {A} (s : list A) : ∀ i, drop_from i [] s = s.
Proof. induction s as [|x s IH]; intros i; simpl; [done|]. by rewrite IH. Qed.

Lemma drop_from_fmap {A B} (f : A → B) s : ∀ i itemnos,
  f <$> drop_from i itemnos s = drop_from i itemnos (f <$> s).
Proof.
  induction s as [|x s IH]; intros i itemnos; [done|].
  rewrite fmap_cons. cbn [drop_from]. destruct itemnos as [|o rest]; [by rewrite fmap_cons, IH|].
  destruct (_ =? _); [apply IH|]. by rewrite fmap_cons, IH.
Qed.

Lemma drop_from_sublist {A} (s : list A) : ∀ i itemnos, sublist (drop_from i itemnos s) s.
Proof.
  induction s as [|x s IH]; intros i itemnos; simpl; [constructor|].
  destruct itemnos as [|o rest]; [by constructor|]. destruct (_ =? _); by constructor.
Qed.

(** The single pass computes the reference. *)
Lemma drop_from_spec {A} (s : list A) : ∀ i itemnos,
  StronglySorted Z.lt itemnos → Forall (λ o, i ≤ o) itemnos →
  drop_from i itemnos s = foldr (λ o s, delete (Z.to_nat (o - i)) s) s itemnos.
Proof.
  induction s as [|x s IH]; intros i itemnos Hs Hf.
  { simpl. clear Hs Hf. induction itemnos as [|o rest IHr]; simpl; [done|].
    rewrite <-IHr. by destruct (Z.to_nat (o - i)). }
  assert (Hshift : ∀ l, Forall (λ o, i + 1 ≤ o) l →
    foldr (λ o s, delete (Z.to_nat (o - i)) s) (x :: s) l =
    x :: foldr (λ o s, delete (Z.to_nat (o - (i + 1))) s) s l).
  { induction l as [|o l IHl]; intros Hl; simpl; [done|].
    apply Forall_cons_1 in Hl as [? Hl]. rewrite IHl by done.
    replace (Z.to_nat (o - i)) with (S (Z.to_nat (o - (i + 1)))) by lia. done. }
  cbn [drop_from]. destruct itemnos as [|o rest]; [by rewrite drop_from_nil|].
  inversion Hs as [|? ? Hs' Hlt]; subst. apply Forall_cons_1 in Hf as [Ho Hf].
  destruct (Z.eqb_spec i o) as [<-|Hne].
  - cbn [foldr]. rewrite Hshift, Z.sub_diag.
    + simpl. apply IH; [done|]. eapply Forall_impl; [exact Hlt|]. simpl. lia.
    + eapply Forall_impl; [exact Hlt|]. simpl. lia.
  - assert (Forall (λ z, i + 1 ≤ z) (o :: rest)).
    { constructor; [lia|]. eapply Forall_impl; [exact Hlt|]. simpl. lia. }
    rewrite Hshift by done. f_equal. by apply IH.
Qed.

Fixpoint base_from (p : page) (u : Z) (K : list Z) : list itemIdSortData :=
  match K with
  | [] => []
  | j :: K => mkSort u (lp_off (PageGetItemId p j)) (MAXALIGN (lp_len (PageGetItemId p j)))
              :: base_from p (u + 1) K
  end.

Lemma multi_scan_spec p n : ∀ i itemnos nused,
  page_wf p → 1 ≤ i → i + Z.of_nat n ≤ 1 + PageGetMaxOffsetNumber p →
  (∀ j, 1 ≤ j ≤ PageGetMaxOffsetNumber p → lp_len (PageGetItemId p j) ≠ 0) →
  StronglySorted Z.lt itemnos → Forall (λ o, i ≤ o < i + Z.of_nat n) itemnos →
  nused + Z.of_nat n ≤ MaxIndexTuplesPerPage →
  let K := drop_from i itemnos (seqZ i (Z.of_nat n)) in
  multi_scan (pd_upper p) (pd_special p) p i n itemnos nused =
    Ok (base_from p nused K, PageGetItemId p <$> K, []).
Proof.
  induction n as [|n IH]; intros i itemnos nused Hwf Hi Hn Hall Hs Hf Hu.
  { destruct itemnos as [|o ?]; [done|]. apply Forall_cons_1 in Hf as [? _]. lia. }
  cbv zeta. rewrite seqZ_cons by lia. replace (Z.pred (Z.of_nat (S n))) with (Z.of_nat n) by lia.
  pose proof (Hall i ltac:(lia)) as Hl. destruct (wf_item _ Hwf i ltac:(lia) Hl) as (? & ? & Hm8).
  pose proof (MAXALIGN_bounds (lp_len (PageGetItemId p i))).
  cbn [multi_scan]. cbv zeta. unfold ItemIdGetOffset, ItemIdGetLength.
  assert (Hg : ((lp_off (PageGetItemId p i) <? pd_upper p)
    || (pd_special p <? lp_off (PageGetItemId p i) + lp_len (PageGetItemId p i))
    || negb (lp_off (PageGetItemId p i) =? MAXALIGN (lp_off (PageGetItemId p i)))) = false).
  { rewrite (proj2 (MAXALIGN_id _) Hm8), Z.eqb_refl. cbn [negb]. zcase; done. }
  rewrite Hg. cbn [drop_from].
  destruct itemnos as [|o rest].
  - destruct (Z.leb_spec MaxIndexTuplesPerPage nused); [lia|]. rewrite IH by (done || lia). done.
  - inversion Hs as [|? ? Hs' Hlt]; subst. apply Forall_cons_1 in Hf as [Ho Hf].
    assert (Hr : Forall (λ z, i + 1 ≤ z < i + 1 + Z.of_nat n) rest).
    { apply Forall_forall. intros z Hz. rewrite Forall_forall in Hlt, Hf.
      specialize (Hlt z Hz). specialize (Hf z Hz). lia. }
    destruct (Z.eqb_spec i o) as [<-|Hne]; [by apply IH; (done || lia)|].
    destruct (Z.leb_spec MaxIndexTuplesPerPage nused); [lia|].
    rewrite IH; [done|done|lia|lia|done|done| |lia]. constructor; [lia|]. done.
Qed.

Lemma set_linps_spec ids : ∀ p i,
  zlen p = 8192 → Forall is_byte p → 1 ≤ i → linp_addr (i + zlen ids) ≤ 8192 →
  Forall (λ lp, ∃ r j, lp = PageGetItemId r j) ids →
  let q := set_linps p i ids in
  zlen q = 8192 ∧ Forall is_byte q ∧
  (∀ o l, 0 ≤ o → o + l ≤ linp_addr i ∨ linp_addr (i + zlen ids) ≤ o → mread q o l = mread p o l) ∧
  (∀ k lp, ids !! k = Some lp → PageGetItemId q (i + Z.of_nat k) = lp) ∧
  (∀ j, 1 ≤ j < i → PageGetItemId q j = PageGetItemId p j).
Proof.
  induction ids as [|lp ids IH]; intros p i Hz Hb Hi Ha Hf; [done|].
  apply Forall_cons_1 in Hf as [(r & j & Hlp) Hf].
  assert (Hzl : zlen (lp :: ids) = 1 + zlen ids) by (unfold zlen; simpl; lia). rewrite Hzl in *.
  assert (Hnn : 0 ≤ zlen ids) by (unfold zlen; lia).
  pose proof (linp_addr_S i). pose proof (linp_addr_le (i + 1) (i + (1 + zlen ids)) ltac:(lia)).
  set (p1 := PageSetItemId p i lp). pose proof (PageGetItemId_bound r j) as Hbd. rewrite <-Hlp in Hbd.
  destruct (IH p1 (i + 1)) as (Hz' & Hb' & Hfr & Hit & Hlow);
    [by unfold p1; rewrite zlen_PageSetItemId|by apply mput_byte|lia
    |by replace (i + 1 + zlen ids) with (i + (1 + zlen ids)) by lia|done|].
  cbn [set_linps]. fold p1. cbv zeta. split_and!; [done|done|..].
  - intros o l Ho Hd. rewrite Hfr; [|done|replace (i + 1 + zlen ids) with (i + (1 + zlen ids)) by lia; lia].
    unfold p1. apply PageSetItemId_reads; lia.
  - intros [|k] lp' Hk; simpl in Hk; simplify_eq.
    + rewrite Z.add_0_r, Hlow by lia. unfold p1. apply PageGetSetItemId; lia.
    + replace (i + Z.of_nat (S k)) with (i + 1 + Z.of_nat k) by lia. by apply Hit.
  - intros k Hk. rewrite Hlow by lia. unfold p1. apply PageGetSetItemId_ne; lia.
Qed.

Lemma elem_base_from p K x : ∀ u, x ∈ base_from p u K ↔
  ∃ k j, K !! k = Some j ∧
    x = mkSort (u + Z.of_nat k) (lp_off (PageGetItemId p j)) (MAXALIGN (lp_len (PageGetItemId p j))).
Proof.
  induction K as [|j K IH]; intros u; simpl.
  { split; [intros H; inversion H|intros (? & ? & ? & _); done]. }
  rewrite elem_of_cons, IH. split.
  - intros [->|(k & j' & Hk & ->)]; [exists 0%nat, j; rewrite Z.add_0_r; done|].
    exists (S k), j'. split; [done|]. f_equal. lia.
  - intros ([|k] & j' & Hk & ->); simpl in Hk; simplify_eq; [left; by rewrite Z.add_0_r|].
    right. exists k, j'. split; [done|]. f_equal. lia.
Qed.

Lemma base_from_nodup p K : ∀ u, NoDup (offsetindex <$> base_from p u K).
Proof.
  induction K as [|j K IH]; intros u; cbn [base_from]; [constructor|].
  rewrite fmap_cons. apply NoDup_cons. split; [|apply IH].
  intros Hin. apply list_elem_of_fmap in Hin as (x & E & Hx).
  apply elem_base_from in Hx as (k & j' & _ & ->). simpl in E. lia.
Qed.

Section renumber.
Context (p : page) (K : list Z) (Hwf : page_wf p).
Context (HK : ∀ j, j ∈ K → 1 ≤ j ≤ PageGetMaxOffsetNumber p) (Hnd : NoDup K).
Context (Hlen : zlen K ≤ PageGetMaxOffsetNumber p).
Context (Hall : ∀ j, 1 ≤ j ≤ PageGetMaxOffsetNumber p → lp_len (PageGetItemId p j) ≠ 0).
Let ids := PageGetItemId p <$> K.
Let q := set_pd_lower (set_linps p 1 ids) (SizeOfPageHeaderData + zlen ids * sizeof_ItemIdData).

Lemma renum_ids : zlen ids = zlen K.
Proof using Type. unfold ids, zlen. by rewrite length_fmap. Qed.

Lemma renum_page :
zlen q = 8192 ∧ Forall is_byte q ∧ pd_lower q = 24 + 4 * zlen K ∧
(∀ o l, 0 ≤ o → (o + l ≤ 12 ∨ (14 ≤ o ∧ o + l ≤ 24) ∨ pd_lower p ≤ o) → mread q o l = mread p o l) ∧
(∀ k j, K !! k = Some j → PageGetItemId q (1 + Z.of_nat k) = PageGetItemId p j).
Proof using Hwf Hlen.
pose proof (wf_hdr _ Hwf) as Hh. pose proof Hh as []. pose proof (linp_max p Hh) as Hlm.
assert (Hpos : 0 ≤ zlen K) by (unfold zlen; lia).
pose proof (linp_addr_le (1 + zlen K) (1 + PageGetMaxOffsetNumber p) ltac:(lia)).
destruct (set_linps_spec ids p 1) as (Hz & Hb & Hfr & Hit & _);
[done|done|lia|rewrite renum_ids; lia|apply Forall_fmap, Forall_true; simpl; eauto|].
unfold q. rewrite renum_ids in *. split_and!.
- unfold set_pd_lower. by rewrite zlen_mput.
- by apply mput_byte.
- unfold pd_lower, set_pd_lower. unfold linp_addr, SizeOfPageHeaderData, sizeof_ItemIdData in *.
rewrite mget_mput2 by lia. lia.
- intros o l Ho Hd. unfold set_pd_lower. rewrite mread_mput_disj by lia. apply Hfr; [done|].
change (linp_addr 1) with 24. lia.
- intros k j Hk. rewrite <-(Hit k (PageGetItemId p j)).
+ page_unfold. by mem_simpl.
+ unfold ids. by rewrite list_lookup_fmap, Hk.
Qed.

Lemma renum_maxoff : PageGetMaxOffsetNumber q = zlen K.
Proof using Hwf Hlen.
destruct renum_page as (_ & _ & Hlo & _). assert (0 ≤ zlen K) by (unfold zlen; lia).
rewrite PageGetMaxOffsetNumber_eq by lia. rewrite Hlo. dlia.
Qed.

Lemma renum_item i : 1 ≤ i ≤ zlen K →
∃ j, K !! Z.to_nat (i - 1) = Some j ∧ 1 ≤ j ≤ PageGetMaxOffsetNumber p ∧
PageGetItemId q i = PageGetItemId p j.
Proof using Hwf HK Hlen.
intros Hi. destruct (lookup_lt_is_Some_2 K (Z.to_nat (i - 1))) as [j Hj]; [unfold zlen in *; lia|].
exists j. split_and!; [done|by eapply HK, list_elem_of_lookup_2|by eapply HK, list_elem_of_lookup_2|].
destruct renum_page as (_ & _ & _ & _ & Hit). rewrite <-(Hit _ _ Hj). f_equal. lia.
Qed.

Lemma renum_hdr : pd_upper q = pd_upper p ∧ pd_special q = pd_special p.
Proof using Hwf Hlen.
destruct renum_page as (_ & _ & _ & Hfr & _).
unfold pd_upper, pd_special, mget. rewrite !Hfr by lia. done.
Qed.

Lemma renum_wf : page_wf q.
Proof using Hwf HK Hnd Hlen Hall.
destruct renum_page as (Hz & Hb & Hlo & Hfr & _). destruct renum_hdr as [Hup Hsp].
pose proof (wf_hdr _ Hwf) as Hh. pose proof Hh as []. pose proof (linp_max p Hh) as Hlm.
assert (0 ≤ zlen K) by (unfold zlen; lia). split.
- constructor; rewrite ?Hlo, ?Hup, ?Hsp; try done; try dlia.
unfold linp_addr, SizeOfPageHeaderData, sizeof_ItemIdData in *. lia.
- rewrite renum_maxoff. intros i Hi _. destruct (renum_item i Hi) as (j & _ & Hj & ->).
unfold lp_in. rewrite Hup, Hsp. by apply (wf_item _ Hwf), Hall.
- rewrite renum_maxoff. intros i i' Hi Hi' Hne _ _.
destruct (renum_item i Hi) as (j & Hk & Hj & ->). destruct (renum_item i' Hi') as (j' & Hk' & Hj' & ->).
apply (wf_disjoint _ Hwf); auto. intros <-.
pose proof (NoDup_lookup _ _ _ _ Hnd Hk Hk'). lia.
Qed.

Lemma renum_slots : page_slots q = slot_at p <$> K.
Proof using Hwf HK Hlen Hall.
destruct renum_page as (_ & _ & _ & Hfr & Hit). pose proof (wf_hdr _ Hwf) as [].
apply list_eq. intros k. rewrite page_slots_lookup, renum_maxoff, list_lookup_fmap. case_decide.
- destruct (lookup_lt_is_Some_2 K k) as [j Hj]; [unfold zlen in *; lia|].
rewrite Hj. cbn [fmap option_fmap option_map]. f_equal.
pose proof (list_elem_of_lookup_2 _ _ _ Hj) as Hin. apply HK in Hin.
unfold slot_at. rewrite (Hit _ _ Hj). unfold slot_of, PageGetItemBytes.
destruct (Z.eqb_spec (lp_len (PageGetItemId p j)) 0) as [E|E]; [done|]. f_equal.
destruct (wf_item _ Hwf j Hin E) as (? & _). apply Hfr; lia.
- rewrite lookup_ge_None_2; [done|]. unfold zlen in *. lia.
Qed.

Lemma renum_base : base_of q (base_from p 0 K).
Proof using Hwf HK Hlen Hall.
constructor; [apply base_from_nodup|..].
- intros x Hx. apply elem_base_from in Hx as (k & j & Hk & ->). cbn [offsetindex itemoff alignedlen].
destruct renum_page as (_ & _ & _ & _ & Hit). rewrite renum_maxoff.
replace (0 + Z.of_nat k + 1) with (1 + Z.of_nat k) by lia. rewrite (Hit _ _ Hk).
split_and!; [lia| |done|done|].
+ apply lookup_lt_Some in Hk. unfold zlen. lia.
+ apply Hall, HK. by eapply list_elem_of_lookup_2.
- intros i Hi _. rewrite renum_maxoff in Hi. destruct (renum_item i Hi) as (j & Hk & _).
apply list_elem_of_fmap. eexists. split; [|apply elem_base_from; eexists _, _; split; [exact Hk|done]].
cbn [offsetindex]. lia.
Qed.
End renumber.

Lemma sorted_bound l : ∀ lo hi, StronglySorted Z.lt l → Forall (λ o, lo ≤ o ≤ hi) l →
  lo ≤ hi + 1 → lo + zlen l ≤ hi + 1.
Proof.
  induction l as [|o l IH]; intros lo hi Hs Hf Hle; [unfold zlen; simpl; lia|].
  inversion Hs as [|? ? Hs' Hlt]; subst. apply Forall_cons_1 in Hf as [Ho Hf].
  assert (Hf' : Forall (λ z, o + 1 ≤ z ≤ hi) l).
  { apply Forall_forall. intros z Hz. rewrite Forall_forall in Hlt, Hf.
    specialize (Hlt z Hz). specialize (Hf z Hz). simpl in *. lia. }
  specialize (IH (o + 1) hi Hs' Hf' ltac:(lia)). unfold zlen in *. simpl. lia.
Qed.

Lemma maxoff_slots p : PageGetMaxOffsetNumber p = zlen (page_slots p).
Proof. pose proof (length_page_slots p). pose proof (PageGetMaxOffsetNumber_nonneg p). unfold zlen. lia. Qed.

Lemma delete_backwards_spec p itemnos :
  page_wf p → (∀ i, 1 ≤ i ≤ PageGetMaxOffsetNumber p → lp_len (PageGetItemId p i) ≠ 0) →
  StronglySorted Z.lt itemnos → Forall (λ o, 1 ≤ o ≤ PageGetMaxOffsetNumber p) itemnos →
  ∃ q, delete_backwards p itemnos = Ok q ∧ page_wf q ∧
    page_slots q = delete_slots itemnos (page_slots p) ∧
    PageGetMaxOffsetNumber q = PageGetMaxOffsetNumber p - zlen itemnos ∧
    (∀ i, 1 ≤ i ≤ PageGetMaxOffsetNumber q → lp_len (PageGetItemId q i) ≠ 0).
Proof.
  intros Hwf Hall. induction itemnos as [|o rest IH]; intros Hs Hf.
  { exists p. rewrite Z.sub_0_r. done. }
  inversion Hs as [|? ? Hs' Hlt]; subst. apply Forall_cons_1 in Hf as [Ho Hf].
  destruct (IH Hs' Hf) as (q & Hq & Hwq & Hsl & Hm & Hallq).
  assert (Hz : zlen (o :: rest) = 1 + zlen rest) by (unfold zlen; simpl; lia).
  assert (Hroom : o + zlen rest ≤ PageGetMaxOffsetNumber p).
  { pose proof (sorted_bound (o :: rest) o (PageGetMaxOffsetNumber p) Hs) as Hbd.
    rewrite Hz in Hbd. cut (o + (1 + zlen rest) ≤ PageGetMaxOffsetNumber p + 1); [lia|].
    apply Hbd; [|lia]. constructor; [lia|]. apply Forall_forall. intros z Hin.
    rewrite Forall_forall in Hlt, Hf. specialize (Hlt z Hin). specialize (Hf z Hin). simpl in *. lia. }
  destruct (PageIndexTupleDelete_refines q o Hwq) as (r & Hr & Hwr & Hsr & _ & Hallr); [lia|done|].
  exists r. cbn [delete_backwards]. rewrite Hq. split_and!; [done|done| | |done].
  - rewrite Hsr, Hsl. done.
  - pose proof (maxoff_slots q). rewrite (maxoff_slots r), Hsr, Hz. unfold zlen in *.
    rewrite length_delete by (apply lookup_lt_is_Some; lia). lia.
Qed.

(** More than two items: the others are listed anew and compacted. *)
Lemma PageIndexMultiDelete_compact p itemnos :
  page_wf p → PageGetMaxOffsetNumber p ≤ MaxIndexTuplesPerPage →
  (∀ i, 1 ≤ i ≤ PageGetMaxOffsetNumber p → lp_len (PageGetItemId p i) ≠ 0) →
  StronglySorted Z.lt itemnos → Forall (λ o, 1 ≤ o ≤ PageGetMaxOffsetNumber p) itemnos → 2 < zlen itemnos →
  let K := drop_from 1 itemnos (seqZ 1 (PageGetMaxOffsetNumber p)) in
  ∃ q, PageIndexMultiDelete p itemnos = Ok q ∧ page_wf q ∧
    page_slots q = delete_slots itemnos (page_slots p) ∧ page_slots q = slot_at p <$> K ∧ (∀ j, j ∈ K → 1 ≤ j ≤ PageGetMaxOffsetNumber p) ∧
    pd_upper q = pd_special p - total (base_from p 0 K) ∧ pd_special q = pd_special p ∧
    (∀ o n, 0 ≤ o → o + n ≤ 12 ∨ (16 ≤ o ∧ o + n ≤ 24) ∨ pd_special p ≤ o → mread q o n = mread p o n).
Proof.
  intros Hwf Hmax Hall Hs Hf Hz K. unfold PageIndexMultiDelete. rewrite (proj2 (Z.leb_gt _ _) Hz).
  pose proof (wf_hdr _ Hwf) as Hh. rewrite (page_pointers_sane_wf p Hh). cbn [negb]. cbv zeta. unfold FirstOffsetNumber.
  pose proof (PageGetMaxOffsetNumber_nonneg p) as Hnn.
  set (n := PageGetMaxOffsetNumber p) in *.
  assert (Hsub : sublist K (seqZ 1 n)) by apply drop_from_sublist.
  rewrite (multi_scan_spec p (Z.to_nat n) 1 itemnos 0); [|done|lia|lia|done|done| |lia].
  2:{ eapply Forall_impl; [exact Hf|]. simpl. lia. }
  rewrite Z2Nat.id by done. fold K. cbn [mbind res_bind]. change (zlen (@nil Z) =? 0) with true. cbn [negb].
  assert (HK : ∀ j, j ∈ K → 1 ≤ j ≤ n).
  { intros j Hj. eapply elem_of_sublist in Hj; [|exact Hsub].
    apply elem_of_seqZ in Hj. lia. }
  assert (Hnd : NoDup K) by (eapply sublist_NoDup; [apply NoDup_seqZ|exact Hsub]).
  assert (Hlen : zlen K ≤ n).
  { apply sublist_length in Hsub. rewrite length_seqZ in Hsub. unfold zlen. lia. }
  pose proof (renum_wf p K Hwf HK Hnd Hlen Hall) as Hwr.
  pose proof (renum_base p K Hwf HK Hlen Hall) as Hbr. pose proof (renum_page p K Hwf Hlen) as (_ & _ & _ & Hfr & _).
  destruct (renum_hdr p K Hwf Hlen) as [Hup Hsp]. destruct Hh.
  pose proof (base_total _ _ Hwr Hbr) as Hbt. rewrite Hup, Hsp in Hbt.
  fold (total (base_from p 0 K)).
  destruct (Z.ltb_spec (pd_special p - pd_lower p) (total (base_from p 0 K))); [lia|].
  destruct (compactify_refines _ _ Hwr Hbr) as (q & Hq & Hwq & Hsq & Huq & _ & Hspq & _ & Hrd).
  pose proof (renum_slots p K Hwf HK Hlen Hall) as Hsl. rewrite Hsp in Huq, Hspq, Hrd. rewrite Hsl in Hsq.
  exists q. split_and!; [exact Hq|done| |done|done|done|done|].
  - rewrite Hsq. unfold K. rewrite drop_from_fmap. fold (page_slots p). apply drop_from_spec; [done|].
    eapply Forall_impl; [exact Hf|]. simpl. lia.
  - intros o m Ho Hd. rewrite Hrd by lia. apply Hfr; lia.
Qed.

Lemma PageIndexMultiDelete_refines p itemnos :
  page_wf p → PageGetMaxOffsetNumber p ≤ MaxIndexTuplesPerPage →
  (∀ i, 1 ≤ i ≤ PageGetMaxOffsetNumber p → lp_len (PageGetItemId p i) ≠ 0) →
  StronglySorted Z.lt itemnos → Forall (λ o, 1 ≤ o ≤ PageGetMaxOffsetNumber p) itemnos →
  ∃ q, PageIndexMultiDelete p itemnos = Ok q ∧ page_wf q ∧
    page_slots q = delete_slots itemnos (page_slots p).
Proof.
  intros Hwf Hmax Hall Hs Hf. destruct (decide (2 < zlen itemnos)) as [Hz|Hz].
  - destruct (PageIndexMultiDelete_compact p itemnos Hwf Hmax Hall Hs Hf Hz) as (q & ? & ? & ? & _). eauto.
  - unfold PageIndexMultiDelete. rewrite (proj2 (Z.leb_le _ _)) by lia.
    destruct (delete_backwards_spec p itemnos Hwf Hall Hs Hf) as (q & ? & ? & ? & _). eauto.
Qed.

(** Overwriting an item with as many bytes changes its slot and no other. *)
Lemma item_write_refines p off bs :
  page_wf p → 1 ≤ off ≤ PageGetMaxOffsetNumber p → lp_len (PageGetItemId p off) ≠ 0 →
  zlen bs = lp_len (PageGetItemId p off) → Forall is_byte bs →
  let q := mwrite p (lp_off (PageGetItemId p off)) bs in
  page_wf q ∧
  page_slots q = alter (λ s, mkSlot (sl_flags s) (sl_link s) bs) (Z.to_nat (off - 1)) (page_slots p) ∧
  (∀ o l, 0 ≤ o → o + l ≤ 24 → mread q o l = mread p o l) ∧
  (∀ i, 1 ≤ i ≤ PageGetMaxOffsetNumber p → PageGetItemId q i = PageGetItemId p i).
Proof.
  intros Hwf Hoff Hn Hzb Hb q. set (lp := PageGetItemId p off) in *.
  pose proof (wf_hdr _ Hwf) as Hh. pose proof Hh as []. pose proof (linp_max p Hh).
  destruct (wf_item _ Hwf off Hoff Hn) as (Hu & Hs & _). fold lp in Hu, Hs.
  pose proof (MAXALIGN_bounds (lp_len lp)). unfold BLCKSZ in *.
  assert (Hfr : ∀ o l, 0 ≤ o → o + l ≤ lp_off lp ∨ lp_off lp + lp_len lp ≤ o → mread q o l = mread p o l).
  { intros o l Ho Hd. apply mread_mwrite_disj; [done|lia]. }
  assert (Hit : ∀ i, 1 ≤ i ≤ PageGetMaxOffsetNumber p → PageGetItemId q i = PageGetItemId p i).
  { intros i Hi. pose proof (linp_addr_range _ _ Hh Hi). unfold PageGetItemId, mget. rewrite Hfr; [done|lia|lia]. }
  assert (Hhd : ∀ k o, 0 ≤ o → o + Z.of_nat k ≤ 24 → mget k q o = mget k p o).
  { intros k o ? ?. unfold mget. rewrite Hfr; [done|lia|lia]. }
  assert (Hlo : pd_lower q = pd_lower p) by (apply Hhd; lia).
  assert (Hm : PageGetMaxOffsetNumber q = PageGetMaxOffsetNumber p) by (unfold PageGetMaxOffsetNumber; by rewrite Hlo).
  split_and!; [| |intros; apply Hfr; lia|done].
  - apply (subset_wf p); try done; [apply zlen_mwrite|by apply mwrite_byte|apply Hhd; lia|apply Hhd; lia|].
    intros i Hi. left. auto.
  - apply list_eq. intros k. destruct (decide (k = Z.to_nat (off - 1))) as [->|Hk].
    + rewrite list_lookup_alter_eq, !page_slots_lookup, Hm. rewrite !decide_True by lia.
      cbn [fmap option_fmap option_map]. f_equal. replace (1 + Z.of_nat (Z.to_nat (off - 1))) with off by lia.
      unfold slot_at. rewrite Hit by done. fold lp. unfold slot_of, PageGetItemBytes.
      rewrite (proj2 (Z.eqb_neq _ _) Hn). cbn [sl_flags sl_link sl_bytes]. f_equal.
      rewrite <-Hzb. apply mread_mwrite_same; lia.
    + rewrite list_lookup_alter_ne by done. rewrite !page_slots_lookup, Hm. case_decide; [|done]. f_equal.
      unfold slot_at. rewrite Hit by lia. unfold slot_of, PageGetItemBytes.
      destruct (Z.eqb_spec (lp_len (PageGetItemId p (1 + Z.of_nat k))) 0) as [E|E]; [done|]. f_equal.
      destruct (wf_disjoint _ Hwf (1 + Z.of_nat k) off ltac:(lia) Hoff ltac:(lia) E Hn) as [Hd|Hd]; fold lp in Hd;
        pose proof (MAXALIGN_bounds (lp_len (PageGetItemId p (1 + Z.of_nat k))));
        destruct (wf_item _ Hwf (1 + Z.of_nat k) ltac:(lia) E) as (? & _); apply Hfr; lia.
Qed.
