(* ===== verification/Checksum.v ===== *)
(** * Page checksums: [checksum_impl.h], [PageIsVerified], [PageSetChecksum*]

    The checksum of a page is computed with the checksum field taken as zero,
    over 32 interleaved FNV-1a sums, mixed with the block number and reduced
    to the range 1 .. 65535.  The main fact is the round trip through a write
    and a read: a sane page that leaves through [PageSetChecksumInplace] is
    accepted by [PageIsVerified] at the same block number. *)

From S2P Require Import Prelude Mem Page PageAdd.

(** ** Model *)

Definition N_SUMS : Z := 32.
Definition FNV_PRIME : Z := 16777619.

Definition checksumBaseOffsets : list Z :=
  [ 0x5B1F36E9; 0xB8525960; 0x02AB50AA; 0x1DE66D2A;
    0x79FF467A; 0x9BB9F8A3; 0x217E7CD2; 0x83E13D2C;
    0xF8D4474F; 0xE39EB970; 0x42C6AE16; 0x993216FA;
    0x7B093B5D; 0x98DAFF3C; 0xF718902A; 0x0B1C9CDB;
    0xE58F764B; 0x187636BC; 0x5D7B3BB1; 0xE73DE7DE;
    0x92BEC979; 0xCCA6C0B2; 0x304A0979; 0x85AA43D4;
    0x783125BB; 0x6CA8EAA2; 0xE407EAC6; 0x4B5CFC3E;
    0x9FBF8C76; 0x15CA20BE; 0xF2CA9FD3; 0x959BD756 ].

Definition CHECKSUM_COMP (checksum value : Z) : Z :=
  let tmp := Z.lxor checksum value in
  Z.lxor (u32 (tmp * FNV_PRIME)) (Z.shiftr tmp 17).

(** Row [i] of the page seen as [uint32 data[64][32]]. *)
Definition checksum_row (p : page) (i : Z) : list Z :=
  (λ j, mget 4 p (4 * (N_SUMS * i + j))) <$> seqZ 0 N_SUMS.

Definition checksum_round (sums values : list Z) : list Z := zip_with CHECKSUM_COMP sums values.

Definition pg_checksum_block (p : page) : Z :=
  let sums := foldl (λ sums i, checksum_round sums (checksum_row p i)) checksumBaseOffsets
                    (seqZ 0 (BLCKSZ / (4 * N_SUMS))) in
  let zeroes := replicate (Z.to_nat N_SUMS) 0 in
  let sums := checksum_round (checksum_round sums zeroes) zeroes in
  foldl Z.lxor 0 sums.

Definition pg_checksum_page (p : page) (blkno : Z) : Z :=
  let checksum := pg_checksum_block (set_pd_checksum p 0) in
  u16 (Z.lxor checksum blkno mod 65535 + 1).

(** [DataChecksumsEnabled()] and the GUC [ignore_checksum_failure] are
    settings of the cluster. *)
Record checksum_conf : Type := mkConf {
  DataChecksumsEnabled : bool;
  ignore_checksum_failure : bool }.

Definition page_all_zeroes (p : page) : bool :=
  forallb (λ i, mget 8 p (8 * i) =? 0) (seqZ 0 (BLCKSZ / 8)).

Definition header_sane (p : page) : bool :=
  (clear_flag (pd_flags p) PD_VALID_FLAG_BITS =? 0)
  && (pd_lower p <=? pd_upper p) && (pd_upper p <=? pd_special p)
  && (pd_special p <=? BLCKSZ) && (pd_special p =? MAXALIGN (pd_special p)).

Definition PageIsVerified (c : checksum_conf) (p : page) (blkno : Z) : bool :=
  let checksum_failure :=
    negb (PageIsNew p) && DataChecksumsEnabled c
    && negb (pg_checksum_page p blkno =? pd_checksum p) in
  let header_sane := negb (PageIsNew p) && header_sane p in
  if header_sane && negb checksum_failure then true else
  if page_all_zeroes p then true else
  checksum_failure && header_sane && ignore_checksum_failure c.

Definition PageSetChecksumInplace (c : checksum_conf) (p : page) (blkno : Z) : page :=
  if PageIsNew p || negb (DataChecksumsEnabled c) then p
  else set_pd_checksum p (pg_checksum_page p blkno).

(** The copy that is written out; the page itself is not changed. *)
Definition PageSetChecksumCopy (c : checksum_conf) (p : page) (blkno : Z) : page :=
  if PageIsNew p || negb (DataChecksumsEnabled c) then p
  else let pageCopy := mread p 0 BLCKSZ in
       set_pd_checksum pageCopy (pg_checksum_page pageCopy blkno).

(** ** Lemmas *)

Lemma set_checksum_twice p a b :
  10 ≤ zlen p → set_pd_checksum (set_pd_checksum p a) b = set_pd_checksum p b.
Proof.
  intros. unfold set_pd_checksum, mput. apply list_eq. intros i.
  rewrite !mwrite_lookup by (rewrite ?zlen_mwrite, ?zlen_le_bytes; simpl; lia).
  rewrite !zlen_le_bytes. by case_decide.
Qed.

Lemma pg_checksum_page_range p blkno : 1 ≤ pg_checksum_page p blkno < 65536.
Proof.
  unfold pg_checksum_page. set (x := Z.lxor _ _).
  pose proof (Z.mod_pos_bound x 65535 ltac:(lia)). rewrite u16_small by lia. lia.
Qed.

(** The checksum does not depend on the checksum stored in the page. *)
Lemma pg_checksum_page_stored p v blkno :
  10 ≤ zlen p → pg_checksum_page (set_pd_checksum p v) blkno = pg_checksum_page p blkno.
Proof. intros. unfold pg_checksum_page. by rewrite set_checksum_twice. Qed.

Lemma set_checksum_fields p v :
  pd_flags (set_pd_checksum p v) = pd_flags p ∧ pd_lower (set_pd_checksum p v) = pd_lower p ∧
  pd_upper (set_pd_checksum p v) = pd_upper p ∧ pd_special (set_pd_checksum p v) = pd_special p.
Proof. page_unfold. mem_simpl. done. Qed.

Lemma header_sane_checksum p v : header_sane (set_pd_checksum p v) = header_sane p.
Proof. unfold header_sane. by destruct (set_checksum_fields p v) as (-> & -> & -> & ->). Qed.

Lemma PageIsNew_checksum p v : PageIsNew (set_pd_checksum p v) = PageIsNew p.
Proof. unfold PageIsNew. by destruct (set_checksum_fields p v) as (_ & _ & -> & _). Qed.

Lemma checksum_verified c p blkno :
  zlen p = BLCKSZ → header_sane p = true → PageIsNew p = false →
  PageIsVerified c (PageSetChecksumInplace c p blkno) blkno = true.
Proof.
  intros Hl Hs Hn. unfold PageSetChecksumInplace. rewrite Hn. cbn [orb].
  destruct (DataChecksumsEnabled c) eqn:He; cbn [negb].
  - unfold PageIsVerified. rewrite PageIsNew_checksum, header_sane_checksum, Hn, Hs, He.
    rewrite pg_checksum_page_stored by (unfold BLCKSZ in *; lia). cbn [negb andb].
    pose proof (pg_checksum_page_range p blkno). unfold pd_checksum, set_pd_checksum, BLCKSZ in *.
    rewrite mget_mput2 by lia. by rewrite Z.eqb_refl.
  - unfold PageIsVerified. rewrite Hn, Hs, He. done.
Qed.

(** With checksums enabled and no override, a page that is neither new nor
    all zeroes is accepted only under its own checksum. *)
Lemma checksum_detects c p blkno :
  DataChecksumsEnabled c = true → ignore_checksum_failure c = false →
  PageIsNew p = false → page_all_zeroes p = false →
  PageIsVerified c p blkno = true → pd_checksum p = pg_checksum_page p blkno.
Proof.
  intros He Hi Hn Hz. unfold PageIsVerified. rewrite He, Hi, Hn, Hz, andb_false_r. cbn [negb andb].
  destruct (header_sane p); cbn [andb]; [|done].
  destruct (Z.eqb_spec (pg_checksum_page p blkno) (pd_checksum p)); done.
Qed.

Lemma wf_header_sane p :
  page_wf p → clear_flag (pd_flags p) PD_VALID_FLAG_BITS = 0 → header_sane p = true ∧ PageIsNew p = false.
Proof.
  intros Hwf Hf. pose proof (wf_hdr _ Hwf) as []. unfold header_sane, PageIsNew, BLCKSZ.
  rewrite Hf, (proj2 (MAXALIGN_id _) ltac:(done)), Z.eqb_refl. split; [|zcase; done].
  repeat (apply andb_true_intro; split); try done; (apply Z.leb_le || apply Z.eqb_eq); lia.
Qed.
