(* ===== verification/PageSpec.v ===== *)
(** * The theorems of the page layer

    What [bufpage.c] promises to its callers, stated on the abstract view of a
    page ([page_slots]) and on its free space.  The proofs are in the
    component files; here they are put together, with a small heap page on
    which every theorem is instantiated. *)

From Stdlib Require Import Sorted.
From S2P Require Import Prelude Mem Page PageAdd PageIndex PageCompact Checksum.

(** ** Sample pages *)

Definition sample_item (k : nat) (b : Z) : list Z := replicate k b.

Definition filled (p : page) (items : list (list Z)) : page :=
  foldl (λ p it, match PageAddItem p it InvalidOffsetNumber false true with
                 | Ok (q, _) => q
                 | Err _ => p
                 end) p items.

(** A page with three items of 24, 30 and 26 bytes. *)
Definition sample_page : page :=
  Eval vm_compute in filled (PageInit BLCKSZ 0) [sample_item 24 7; sample_item 30 8; sample_item 26 9].

(** The same page after the second line pointer has been set unused. *)
Definition sample_hole : page :=
  Eval vm_compute in PageSetItemId sample_page 2 (mkItemId 0 LP_UNUSED 0).

Lemma sample_page_wf : page_wf sample_page.
Proof. apply page_wfb_sound. vm_compute. done. Qed.

Lemma sample_hole_wf : page_wf sample_hole.
Proof. apply page_wfb_sound. vm_compute. done. Qed.

Lemma sample_page_items i : 1 ≤ i ≤ PageGetMaxOffsetNumber sample_page → lp_len (PageGetItemId sample_page i) ≠ 0.
Proof.
  change (PageGetMaxOffsetNumber sample_page) with 3. intros Hi.
  assert (i = 1 ∨ i = 2 ∨ i = 3) as [->|[->| ->]] by lia; vm_compute; done.
Qed.

(** ** Adding items *)

(** C8: [PageAddItemExtended] on a well-formed page and a non-empty item
    never raises PANIC; the page it leaves is well formed; it either refuses
    (InvalidOffsetNumber) and no slot has changed, or it returns an offset
    number [r] at which the slot list has the new item and nothing else has
    changed.  A requested offset number is the one used; only an unused slot is
    ever reused; with [PAI_OVERWRITE] no slot is moved; with [PAI_IS_HEAP] the limit
    on heap tuples holds; the space taken is the aligned size.  And an item
    for an explicit offset number that is free or fresh, and that fits, is
    not refused. *)
Theorem page_add_item_refines p item off flags :
  page_wf p → Forall is_byte item → 0 < zlen item → 0 ≤ off →
  (∃ q r, PageAddItemExtended p item off flags = Ok (q, r) ∧ page_wf q ∧
    ((r = InvalidOffsetNumber ∧ page_slots q = page_slots p) ∨
     (1 ≤ r ≤ PageGetMaxOffsetNumber p + 1 ∧
      (OffsetNumberIsValid off = true → r = off) ∧
      ∃ ins, page_slots q = put_slot (page_slots p) (Z.to_nat (r - 1)) (mkSlot LP_NORMAL 0 item) ins ∧
        (ins = false → lp_len (PageGetItemId p r) = 0 ∧ lp_flags (PageGetItemId p r) = LP_UNUSED) ∧
        (has_flag flags PAI_OVERWRITE = true → ins = (r =? PageGetMaxOffsetNumber p + 1)) ∧
        (has_flag flags PAI_IS_HEAP = true → r ≤ MaxHeapTuplesPerPage) ∧
        PageGetMaxOffsetNumber q = PageGetMaxOffsetNumber p + (if ins then 1 else 0) ∧
        pd_upper q = pd_upper p - MAXALIGN (zlen item)))) ∧
  (1 ≤ off ≤ PageGetMaxOffsetNumber p + 1 → has_flag flags PAI_OVERWRITE = true →
   (off ≤ PageGetMaxOffsetNumber p →
    lp_len (PageGetItemId p off) = 0 ∧ lp_flags (PageGetItemId p off) = LP_UNUSED) →
   (has_flag flags PAI_IS_HEAP = true → off ≤ MaxHeapTuplesPerPage) →
   MAXALIGN (zlen item) + 4 ≤ pd_upper p - pd_lower p →
   ∃ q, PageAddItemExtended p item off flags = Ok (q, off)).
Proof.
  intros Hwf Hb Hz Ho. split; [by apply PageAddItemExtended_refines|].
  intros. by apply PageAddItemExtended_accepts.
Qed.

Lemma page_add_item_refines_witness :
  ∃ q, PageAddItemExtended sample_hole (sample_item 40 5) 2 3 = Ok (q, 2).
Proof.
  apply (page_add_item_refines sample_hole (sample_item 40 5) 2 3);
    [apply sample_hole_wf|repeat constructor; done|vm_compute; done|lia
    |change (PageGetMaxOffsetNumber sample_hole) with 3; lia|done| | |]; intros; vm_compute; done.
Defined.

(** The free space [PageGetHeapFreeSpace] reports is usable: on a heap
    page whose unused line pointers have no storage, an item whose aligned
    size is at most the reported space is accepted by [PageAddItem] without a
    requested offset number, also when all line pointers are taken and the
    function relies on the free-lines hint bit. *)
Theorem heap_free_space_usable p item :
  page_wf p → PageGetMaxOffsetNumber p ≤ MaxHeapTuplesPerPage →
  (∀ i, 1 ≤ i ≤ PageGetMaxOffsetNumber p → lp_flags (PageGetItemId p i) = LP_UNUSED →
        lp_len (PageGetItemId p i) = 0) →
  0 < zlen item → MAXALIGN (zlen item) ≤ PageGetHeapFreeSpace p →
  ∃ q r, PageAddItem p item InvalidOffsetNumber false true = Ok (q, r) ∧ r ≠ InvalidOffsetNumber.
Proof. apply PageGetHeapFreeSpace_usable. Qed.

Lemma heap_free_space_usable_witness :
  ∃ q r, PageAddItem sample_page (sample_item 40 5) InvalidOffsetNumber false true = Ok (q, r)
         ∧ r ≠ InvalidOffsetNumber.
Proof.
  apply (heap_free_space_usable sample_page (sample_item 40 5));
    [apply sample_page_wf|vm_compute; done| |vm_compute; done|vm_compute; done].
  change (PageGetMaxOffsetNumber sample_page) with 3. intros i Hi.
  assert (i = 1 ∨ i = 2 ∨ i = 3) as [->|[->| ->]] by lia; vm_compute; done.
Defined.

(** [PageInit] makes a well-formed page without slots, for every special
    size that leaves room for the header. *)
Theorem page_init_wf sz :
  0 ≤ sz ≤ BLCKSZ - 24 →
  page_wf (PageInit BLCKSZ sz) ∧ page_slots (PageInit BLCKSZ sz) = [] ∧
  pd_flags (PageInit BLCKSZ sz) = 0 ∧ PageGetPageSize (PageInit BLCKSZ sz) = BLCKSZ ∧
  PageGetExactFreeSpace (PageInit BLCKSZ sz) = BLCKSZ - MAXALIGN sz - 24.
Proof.
  intros Hs. destruct (PageInit_wf sz Hs) as [Hw Hn]. destruct (PageInit_fields sz Hs) as (Hf & Hl & Hu & _ & Hp).
  split_and!; [done..|]. pose proof (wf_hdr _ Hw) as []. unfold PageGetExactFreeSpace. rewrite Hu, Hl in *.
  zcase; lia.
Qed.

Lemma page_init_wf_witness : page_slots (PageInit BLCKSZ 16) = [].
Proof. apply (page_init_wf 16). vm_compute. done. Defined.

(** ** Index pages *)

(** [PageIndexTupleDelete] on an index page (every line pointer has
    storage) removes exactly the slot of the given offset number, closes the
    gap in the line pointer array and in the tuple space (the free space grows
    by the aligned tuple and its line pointer), keeps every other item's
    bytes, and leaves a well-formed page. *)
Theorem page_index_delete_refines p t :
  page_wf p → 1 ≤ t ≤ PageGetMaxOffsetNumber p →
  (∀ i, 1 ≤ i ≤ PageGetMaxOffsetNumber p → lp_len (PageGetItemId p i) ≠ 0) →
  ∃ q, PageIndexTupleDelete p t = Ok q ∧ page_wf q ∧
    page_slots q = delete (Z.to_nat (t - 1)) (page_slots p) ∧
    PageGetExactFreeSpace q = PageGetExactFreeSpace p + MAXALIGN (lp_len (PageGetItemId p t)) + 4.
Proof.
  intros Hw Ht Ha. destruct (PageIndexTupleDelete_refines p t Hw Ht Ha) as (q & ? & ? & ? & ? & _). eauto.
Qed.

Lemma page_index_delete_refines_witness :
  ∃ q, PageIndexTupleDelete sample_page 2 = Ok q ∧
    page_slots q = [mkSlot LP_NORMAL 0 (sample_item 24 7); mkSlot LP_NORMAL 0 (sample_item 26 9)].
Proof.
  destruct (page_index_delete_refines sample_page 2) as (q & Hq & _ & Hs & _);
    [apply sample_page_wf|vm_compute; done|apply sample_page_items|].
  exists q. split; [exact Hq|]. rewrite Hs. vm_compute. reflexivity.
Defined.

(** [PageIndexTupleDeleteNoCompact] leaves the other offset numbers as
    they are: the slot becomes unused, or is dropped when it is the last one;
    the tuple's space goes back to the hole and the page stays well formed,
    also when other line pointers are without storage. *)
Theorem page_index_delete_no_compact_refines p t :
  page_wf p → 1 ≤ t ≤ PageGetMaxOffsetNumber p → lp_len (PageGetItemId p t) ≠ 0 →
  ∃ q, PageIndexTupleDeleteNoCompact p t = Ok q ∧ page_wf q ∧
    page_slots q = drop_slot (page_slots p) (Z.to_nat (t - 1)) ∧
    pd_upper q = pd_upper p + MAXALIGN (lp_len (PageGetItemId p t)).
Proof. apply nc_refines. Qed.

Lemma page_index_delete_no_compact_refines_witness :
  ∃ q, PageIndexTupleDeleteNoCompact sample_hole 1 = Ok q ∧
    page_slots q = [mkSlot LP_UNUSED 0 []; mkSlot LP_UNUSED 0 []; mkSlot LP_NORMAL 0 (sample_item 26 9)].
Proof.
  destruct (page_index_delete_no_compact_refines sample_hole 1) as (q & Hq & _ & Hs & _);
    [apply sample_hole_wf|vm_compute; done|vm_compute; done|].
  exists q. split; [exact Hq|]. rewrite Hs. vm_compute. reflexivity.
Defined.

(** [PageIndexTupleOverwrite] replaces the bytes of one item in place,
    keeping its flags and every other slot, when the new tuple fits in the old
    tuple's space plus the free space; otherwise it reports failure and does
    not touch the page. *)
Theorem page_index_overwrite_refines p t newtup :
  page_wf p → 1 ≤ t ≤ PageGetMaxOffsetNumber p → lp_len (PageGetItemId p t) ≠ 0 →
  Forall is_byte newtup → 0 < zlen newtup →
  if MAXALIGN (zlen newtup) <=? MAXALIGN (lp_len (PageGetItemId p t)) + (pd_upper p - pd_lower p)
  then ∃ q, PageIndexTupleOverwrite p t newtup = Ok (q, true) ∧ page_wf q ∧
         page_slots q = <[Z.to_nat (t - 1) := mkSlot (lp_flags (PageGetItemId p t)) 0 newtup]> (page_slots p)
  else PageIndexTupleOverwrite p t newtup = Ok (p, false).
Proof.
  intros Hw Ht Hl Hb Hn. destruct (Z.leb_spec (MAXALIGN (zlen newtup))
    (MAXALIGN (lp_len (PageGetItemId p t)) + (pd_upper p - pd_lower p))) as [Hf|Hf].
  - eexists. split; [by apply ow_eval|]. split; [by apply ow_wf|by apply ow_slots].
  - unfold PageIndexTupleOverwrite. rewrite (page_pointers_sane_wf _ (wf_hdr _ Hw)). cbn [negb].
    destruct (Z.leb_spec t 0); [lia|]. destruct (Z.ltb_spec (PageGetMaxOffsetNumber p) t); [lia|]. cbn [orb].
    unfold ItemIdGetOffset, ItemIdGetLength. rewrite item_sane_wf by auto. cbn [negb].
    destruct (Z.ltb_spec (MAXALIGN (lp_len (PageGetItemId p t)) + (pd_upper p - pd_lower p))
      (MAXALIGN (zlen newtup))); [done|lia].
Qed.

Lemma page_index_overwrite_refines_witness :
  ∃ q, PageIndexTupleOverwrite sample_hole 1 (sample_item 50 3) = Ok (q, true) ∧
    page_slots q = [mkSlot LP_NORMAL 0 (sample_item 50 3); mkSlot LP_UNUSED 0 [];
                    mkSlot LP_NORMAL 0 (sample_item 26 9)].
Proof.
  destruct (page_index_overwrite_refines sample_hole 1 (sample_item 50 3)) as (q & Hq & _ & Hs);
    [apply sample_hole_wf|vm_compute; done|vm_compute; done|repeat constructor; done|vm_compute; done|].
  exists q. split; [exact Hq|]. rewrite Hs. vm_compute. reflexivity.
Defined.

(** [PageIndexMultiDelete], with a strictly increasing list of offset
    numbers, has the effect of deleting them one at a time from the back
    ([delete_slots]), whichever of its two strategies it takes. *)
Theorem page_index_multi_delete_refines p itemnos :
  page_wf p → PageGetMaxOffsetNumber p ≤ MaxIndexTuplesPerPage →
  (∀ i, 1 ≤ i ≤ PageGetMaxOffsetNumber p → lp_len (PageGetItemId p i) ≠ 0) →
  StronglySorted Z.lt itemnos → Forall (λ o, 1 ≤ o ≤ PageGetMaxOffsetNumber p) itemnos →
  ∃ q, PageIndexMultiDelete p itemnos = Ok q ∧ page_wf q ∧
    page_slots q = delete_slots itemnos (page_slots p).
Proof. apply PageIndexMultiDelete_refines. Qed.

Lemma page_index_multi_delete_refines_witness :
  ∃ q, PageIndexMultiDelete sample_page [1; 2; 3] = Ok q ∧ page_slots q = [].
Proof.
  destruct (page_index_multi_delete_refines sample_page [1; 2; 3]) as (q & Hq & _ & Hs);
    [apply sample_page_wf|vm_compute; done|apply sample_page_items|repeat constructor; lia
    |repeat constructor; vm_compute; done|].
  exists q. split; [exact Hq|]. rewrite Hs. vm_compute. reflexivity.
Defined.

(** ** Compaction and checksums *)

(** C9: [PageRepairFragmentation] keeps every slot (a line pointer without
    storage that is not a redirect or dead one becomes unused), packs the
    items so that the tuple space holds exactly the aligned items, keeps the
    line pointer array and the special space, and sets the free-lines hint bit
    to whether there is an unused line pointer. *)
Theorem page_repair_fragmentation_refines p :
  page_wf p → PageGetMaxOffsetNumber p ≤ MaxHeapTuplesPerPage →
  ∃ q, PageRepairFragmentation p = Ok q ∧ page_wf q ∧
    page_slots q = norm_slot <$> page_slots p ∧
    pd_upper q = pd_special q - slots_space (page_slots q) ∧
    pd_lower q = pd_lower p ∧ pd_special q = pd_special p ∧
    PageHasFreeLinePointers q = existsb (λ s, sl_flags s =? LP_UNUSED) (page_slots p).
Proof. apply PageRepairFragmentation_refines. Qed.

Lemma page_repair_fragmentation_refines_witness :
  ∃ q, PageRepairFragmentation sample_hole = Ok q ∧ PageHasFreeLinePointers q = true ∧
    page_slots q = [mkSlot LP_NORMAL 0 (sample_item 24 7); mkSlot LP_UNUSED 0 [];
                    mkSlot LP_NORMAL 0 (sample_item 26 9)].
Proof.
  destruct (page_repair_fragmentation_refines sample_hole) as (q & Hq & _ & Hs & _ & _ & _ & Hh);
    [apply sample_hole_wf|vm_compute; done|].
  exists q. split; [exact Hq|]. rewrite Hs, Hh. split; vm_compute; reflexivity.
Defined.

(** A page written with its checksum is accepted when it is read back at
    the same block number, for every well-formed page with valid flags and
    either setting of data checksums; the copying variant writes the same
    bytes. *)
Theorem checksum_round_trip c p blkno :
  page_wf p → clear_flag (pd_flags p) PD_VALID_FLAG_BITS = 0 →
  PageIsVerified c (PageSetChecksumInplace c p blkno) blkno = true ∧
  PageSetChecksumCopy c p blkno = PageSetChecksumInplace c p blkno.
Proof.
  intros Hw Hf. destruct (wf_header_sane p Hw Hf) as [Hs Hn]. pose proof (wf_hdr _ Hw) as []. split.
  - by apply checksum_verified.
  - unfold PageSetChecksumCopy, PageSetChecksumInplace.
    destruct (_ || _); [done|]. by rewrite <-wf_len, mread_all.
Qed.

Lemma checksum_round_trip_witness :
  PageIsVerified (mkConf true false) (PageSetChecksumInplace (mkConf true false) sample_page 5) 5 = true.
Proof. apply (checksum_round_trip (mkConf true false) sample_page 5); [apply sample_page_wf|vm_compute; done]. Defined.

(** With checksums enabled and no override, a page that is neither new
    nor all zeroes is accepted only when the checksum stored in it is the one
    of its contents at that block number. *)
Theorem checksum_detection c p blkno :
  DataChecksumsEnabled c = true → ignore_checksum_failure c = false →
  PageIsNew p = false → page_all_zeroes p = false →
  PageIsVerified c p blkno = true → pd_checksum p = pg_checksum_page p blkno.
Proof. apply checksum_detects. Qed.

Lemma checksum_detection_witness :
  let p := PageSetChecksumInplace (mkConf true false) sample_page 5 in
  pd_checksum p = pg_checksum_page p 5.
Proof. apply (checksum_detection (mkConf true false)); vm_compute; reflexivity. Defined.
