(* ===== verification/Buffer.v ===== *)
(** * Buffers and relation files during replay

    The state replay works on: the relation files (a list of blocks per fork),
    the shared buffers that are valid, and the table of references to invalid
    pages.  The file models [ReadBuffer_common] of [bufmgr.c], the functions
    of [xlogutils.c] that look a page up for a redo routine and keep the
    invalid-page table, and the visibility-map lookups of [visibilitymap.c].
    A [Buffer] is the tag of the block it holds, [None] for
    [InvalidBuffer]. *)

From S2P Require Import Prelude Mem Page PageAdd Checksum.

(** ** Tags *)

Record RelFileNode : Type := mkRel { spcNode : Z; dbNode : Z; relNode : Z }.
Record BufferTag : Type := mkTag { rnode : RelFileNode; forkNum : Z; blockNum : Z }.

#[export] Instance RelFileNode_eq_dec : EqDecision RelFileNode.
Proof. solve_decision. Defined.
#[export] Instance BufferTag_eq_dec : EqDecision BufferTag.
Proof. solve_decision. Defined.
#[export] Instance RelFileNode_countable : Countable RelFileNode.
Proof.
  apply (inj_countable' (λ r, (spcNode r, dbNode r, relNode r)) (λ '(a, b, c), mkRel a b c)).
  by intros [].
Defined.
#[export] Instance BufferTag_countable : Countable BufferTag.
Proof.
  apply (inj_countable' (λ t, (rnode t, forkNum t, blockNum t)) (λ '(a, b, c), mkTag a b c)).
  by intros [].
Defined.

Definition MAIN_FORKNUM : Z := 0.
Definition FSM_FORKNUM : Z := 1.
Definition VISIBILITYMAP_FORKNUM : Z := 2.
Definition INIT_FORKNUM : Z := 3.
Definition InvalidForkNumber : Z := -1.
Definition InvalidBlockNumber : Z := 4294967295.
(** [P_NEW] is [InvalidBlockNumber]. *)
Definition P_NEW : Z := InvalidBlockNumber.

Definition INIT_BUFFERTAG (rn : RelFileNode) (fork blk : Z) : BufferTag := mkTag rn fork blk.
Definition CLEAR_BUFFERTAG : BufferTag := mkTag (mkRel 0 0 0) InvalidForkNumber InvalidBlockNumber.
Definition BUFFERTAGS_EQUAL (a b : BufferTag) : bool := bool_decide (a = b).

Lemma BUFFERTAGS_EQUAL_true a b : BUFFERTAGS_EQUAL a b = true ↔ a = b.
Proof. apply bool_decide_eq_true. Qed.

(** ** State *)

Abbreviation relfork := (RelFileNode * Z)%type.

Record dbstate : Type := mkDb {
  files : gmap relfork (list page);
  pool : gmap BufferTag page;
  invalid_page_tab : gmap BufferTag bool;
  smgr_vm_nblocks : gmap RelFileNode Z;
  reachedConsistency : bool;
  ignore_invalid_pages : bool;
  zero_damaged_pages : bool;
  conf : checksum_conf }.

Definition set_files (st : dbstate) (f : gmap relfork (list page)) : dbstate :=
  mkDb f (pool st) (invalid_page_tab st) (smgr_vm_nblocks st) (reachedConsistency st)
    (ignore_invalid_pages st) (zero_damaged_pages st) (conf st).
Definition set_pool (st : dbstate) (b : gmap BufferTag page) : dbstate :=
  mkDb (files st) b (invalid_page_tab st) (smgr_vm_nblocks st) (reachedConsistency st)
    (ignore_invalid_pages st) (zero_damaged_pages st) (conf st).
Definition set_invalid (st : dbstate) (t : gmap BufferTag bool) : dbstate :=
  mkDb (files st) (pool st) t (smgr_vm_nblocks st) (reachedConsistency st)
    (ignore_invalid_pages st) (zero_damaged_pages st) (conf st).
Definition set_vm_nblocks (st : dbstate) (c : gmap RelFileNode Z) : dbstate :=
  mkDb (files st) (pool st) (invalid_page_tab st) c (reachedConsistency st)
    (ignore_invalid_pages st) (zero_damaged_pages st) (conf st).

Abbreviation Buffer := (option BufferTag).
Definition InvalidBuffer : Buffer := None.
Definition BufferIsValid (b : Buffer) : bool := bool_decide (is_Some b).
Definition BufferGetBlockNumber (b : Buffer) : res Z :=
  match b with Some t => Ok (blockNum t) | None => Err EOob end.

(** [BufferGetPage]: the page of a valid buffer, and the update through it. *)
Definition BufferGetPage (st : dbstate) (b : Buffer) : res page :=
  match b with
  | Some t => match pool st !! t with Some p => Ok p | None => Err EOob end
  | None => Err EOob
  end.
Definition buf_write (st : dbstate) (b : Buffer) (p : page) : dbstate :=
  match b with
  | Some t => set_pool st (<[t := p]> (pool st))
  | None => st
  end.

(** ** Relation files *)

Definition smgrexists (st : dbstate) (rn : RelFileNode) (fork : Z) : bool :=
  bool_decide (is_Some (files st !! (rn, fork))).
Definition smgrcreate (st : dbstate) (rn : RelFileNode) (fork : Z) : dbstate :=
  match files st !! (rn, fork) with
  | Some _ => st
  | None => set_files st (<[(rn, fork) := []]> (files st))
  end.
Definition smgrnblocks (st : dbstate) (rn : RelFileNode) (fork : Z) : res Z :=
  match files st !! (rn, fork) with Some l => Ok (zlen l) | None => Err EError end.
Definition smgrextend (st : dbstate) (rn : RelFileNode) (fork : Z) (p : page) : dbstate :=
  set_files st (<[(rn, fork) := default [] (files st !! (rn, fork)) ++ [p]]> (files st)).
Definition smgrread (st : dbstate) (rn : RelFileNode) (fork blk : Z) : res page :=
  match files st !! (rn, fork) with
  | Some l => match l !! Z.to_nat blk with Some p => Ok p | None => Err EError end
  | None => Err EError
  end.

Definition zero_page : page := replicate (Z.to_nat BLCKSZ) 0.

(** ** [ReadBuffer_common] *)

Inductive ReadBufferMode : Type :=
| RBM_NORMAL
| RBM_ZERO_AND_LOCK
| RBM_ZERO_AND_CLEANUP_LOCK
| RBM_ZERO_ON_ERROR
| RBM_NORMAL_NO_LOG.

#[export] Instance ReadBufferMode_eq_dec : EqDecision ReadBufferMode.
Proof. solve_decision. Defined.

Definition mode_zero (m : ReadBufferMode) : bool :=
  match m with RBM_ZERO_AND_LOCK | RBM_ZERO_AND_CLEANUP_LOCK => true | _ => false end.

(** The pages come from [smgrread], as on the storage side and in the WAL-redo process:
    the branch of a compute node ([IsRpcClient]), which asks the server for the page
    with [RpcReadBuffer_common], is left out here; the server's answer is
    [ReadBufferCommon] of [PageServer]. *)
Definition ReadBuffer_common (st : dbstate) (rn : RelFileNode) (fork blk : Z)
  (mode : ReadBufferMode) : res (dbstate * BufferTag) :=
  let isExtend := blk =? P_NEW in
  blockNum ← (if isExtend then smgrnblocks st rn fork else Ok blk);
  let tag := mkTag rn fork blockNum in
  if isExtend then
    (* a valid buffer found beyond the end of the file must be new *)
    _ ← (match pool st !! tag with
         | Some p => if PageIsNew p then Ok tt else Err EError
         | None => Ok tt
         end);
    let st := smgrextend st rn fork zero_page in
    Ok (set_pool st (<[tag := zero_page]> (pool st)), tag)
  else
    match pool st !! tag with
    | Some _ => Ok (st, tag)
    | None =>
        if mode_zero mode then Ok (set_pool st (<[tag := zero_page]> (pool st)), tag) else
        p ← smgrread st rn fork blockNum;
        if PageIsVerified (conf st) p blockNum
        then Ok (set_pool st (<[tag := p]> (pool st)), tag)
        else if bool_decide (mode = RBM_ZERO_ON_ERROR) || zero_damaged_pages st
        then Ok (set_pool st (<[tag := zero_page]> (pool st)), tag)
        else Err EError
    end.

(** [FlushOneBuffer]: write the buffer's page, with its checksum, to the file. *)
Definition smgrwrite (st : dbstate) (t : BufferTag) (p : page) : dbstate :=
  let key := (rnode t, forkNum t) in
  match files st !! key with
  | Some l => set_files st (<[key := <[Z.to_nat (blockNum t) := p]> l]> (files st))
  | None => st
  end.
Definition FlushOneBuffer (st : dbstate) (b : Buffer) : res dbstate :=
  p ← BufferGetPage st b;
  match b with
  | Some t => Ok (smgrwrite st t (PageSetChecksumCopy (conf st) p (blockNum t)))
  | None => Err EOob
  end.

(** ** The invalid-page table *)

Definition log_invalid_page (st : dbstate) (tag : BufferTag) (present : bool) : res dbstate :=
  if reachedConsistency st && negb (ignore_invalid_pages st) then Err EPanic else
  Ok (match invalid_page_tab st !! tag with
      | Some _ => st
      | None => set_invalid st (<[tag := present]> (invalid_page_tab st))
      end).

Definition forget_invalid_pages (st : dbstate) (rn : RelFileNode) (fork minblkno : Z) : dbstate :=
  set_invalid st (filter (λ '(k, _), ¬ (rnode k = rn ∧ forkNum k = fork ∧ minblkno ≤ blockNum k))
                         (invalid_page_tab st)).
Definition forget_invalid_pages_db (st : dbstate) (dbid : Z) : dbstate :=
  set_invalid st (filter (λ '(k, _), dbNode (rnode k) ≠ dbid) (invalid_page_tab st)).
Definition XLogHaveInvalidPages (st : dbstate) : bool :=
  negb (bool_decide (invalid_page_tab st = ∅)).
Definition XLogCheckInvalidPages (st : dbstate) : res dbstate :=
  if XLogHaveInvalidPages st && negb (ignore_invalid_pages st) then Err EPanic
  else Ok (set_invalid st ∅).
Definition XLogDropRelation (st : dbstate) (rn : RelFileNode) (fork : Z) : dbstate :=
  forget_invalid_pages st rn fork 0.
Definition XLogDropDatabase (st : dbstate) (dbid : Z) : dbstate :=
  (* [smgrcloseall] drops the cached fork sizes *)
  forget_invalid_pages_db (set_vm_nblocks st ∅) dbid.
Definition XLogTruncateRelation (st : dbstate) (rn : RelFileNode) (fork nblocks : Z) : dbstate :=
  forget_invalid_pages st rn fork nblocks.

(** ** [XLogReadBufferExtended] *)

(** The loop that extends the file until it has block [blkno]. *)
Fixpoint extend_loop (st : dbstate) (rn : RelFileNode) (fork blkno : Z) (mode : ReadBufferMode)
  (fuel : nat) : res (dbstate * BufferTag) :=
  match fuel with
  | O => Err EFuel
  | S fuel =>
      '(st, buffer) ← ReadBuffer_common st rn fork P_NEW mode;
      if blockNum buffer <? blkno then extend_loop st rn fork blkno mode fuel
      else Ok (st, buffer)
  end.

Definition XLogReadBufferExtended (st : dbstate) (rn : RelFileNode) (forknum blkno : Z)
  (mode : ReadBufferMode) : res (dbstate * Buffer) :=
  let st := smgrcreate st rn forknum in
  lastblock ← smgrnblocks st rn forknum;
  if (lastblock <=? blkno) && bool_decide (mode = RBM_NORMAL) then
    st ← log_invalid_page st (mkTag rn forknum blkno) false;
    Ok (st, InvalidBuffer)
  else if (lastblock <=? blkno) && bool_decide (mode = RBM_NORMAL_NO_LOG) then
    Ok (st, InvalidBuffer)
  else
    '(st, buffer) ←
      (if blkno <? lastblock then ReadBuffer_common st rn forknum blkno mode
       else
         '(st, buffer) ← extend_loop st rn forknum blkno mode (Z.to_nat (blkno - lastblock + 1));
         if negb (blockNum buffer =? blkno) then ReadBuffer_common st rn forknum blkno mode
         else Ok (st, buffer));
    if bool_decide (mode = RBM_NORMAL) then
      p ← BufferGetPage st (Some buffer);
      if PageIsNew p then
        st ← log_invalid_page st (mkTag rn forknum blkno) true;
        Ok (st, InvalidBuffer)
      else Ok (st, Some buffer)
    else Ok (st, Some buffer).

(** ** The visibility map *)

Definition BITS_PER_HEAPBLOCK : Z := 2.
Definition HEAPBLOCKS_PER_BYTE : Z := 8 / BITS_PER_HEAPBLOCK.
Definition MAPSIZE : Z := BLCKSZ - MAXALIGN SizeOfPageHeaderData.
Definition HEAPBLOCKS_PER_PAGE : Z := MAPSIZE * HEAPBLOCKS_PER_BYTE.
Definition HEAPBLK_TO_MAPBLOCK (x : Z) : Z := x / HEAPBLOCKS_PER_PAGE.
Definition HEAPBLK_TO_MAPBYTE (x : Z) : Z := (x mod HEAPBLOCKS_PER_PAGE) / HEAPBLOCKS_PER_BYTE.
Definition HEAPBLK_TO_OFFSET (x : Z) : Z := (x mod HEAPBLOCKS_PER_BYTE) * BITS_PER_HEAPBLOCK.
Definition VISIBILITYMAP_ALL_VISIBLE : Z := 1.
Definition VISIBILITYMAP_ALL_FROZEN : Z := 2.
Definition VISIBILITYMAP_VALID_BITS : Z := 3.

(** [PageGetContents]: the address of the map in its page. *)
Definition PageGetContents : Z := MAXALIGN SizeOfPageHeaderData.

Fixpoint vm_extend_loop (st : dbstate) (rn : RelFileNode) (pg : page) (now : Z) (n : nat) : dbstate :=
  match n with
  | O => st
  | S n =>
      let pg := PageSetChecksumInplace (conf st) pg now in
      vm_extend_loop (smgrextend st rn VISIBILITYMAP_FORKNUM pg) rn pg (now + 1) n
  end.

Definition vm_extend (st : dbstate) (rn : RelFileNode) (vm_nblocks : Z) : res dbstate :=
  let pg := PageInit BLCKSZ 0 in
  let cached := default InvalidBlockNumber (smgr_vm_nblocks st !! rn) in
  let st := if ((cached =? 0) || (cached =? InvalidBlockNumber))
               && negb (smgrexists st rn VISIBILITYMAP_FORKNUM)
            then smgrcreate st rn VISIBILITYMAP_FORKNUM else st in
  now ← smgrnblocks st rn VISIBILITYMAP_FORKNUM;
  let st := vm_extend_loop st rn pg now (Z.to_nat (vm_nblocks - now)) in
  Ok (set_vm_nblocks st (<[rn := Z.max now vm_nblocks]> (smgr_vm_nblocks st))).

Definition vm_readbuf (st : dbstate) (rn : RelFileNode) (blkno : Z) (extend : bool)
  : res (dbstate * Buffer) :=
  st ← (match smgr_vm_nblocks st !! rn with
        | Some _ => Ok st
        | None =>
            n ← (if smgrexists st rn VISIBILITYMAP_FORKNUM
                 then smgrnblocks st rn VISIBILITYMAP_FORKNUM else Ok 0);
            Ok (set_vm_nblocks st (<[rn := n]> (smgr_vm_nblocks st)))
        end);
  let cached := default InvalidBlockNumber (smgr_vm_nblocks st !! rn) in
  if (cached <=? blkno) && negb extend then Ok (st, InvalidBuffer) else
  st ← (if cached <=? blkno then vm_extend st rn (blkno + 1) else Ok st);
  '(st, buf) ← ReadBuffer_common st rn VISIBILITYMAP_FORKNUM blkno RBM_ZERO_ON_ERROR;
  p ← BufferGetPage st (Some buf);
  if PageIsNew p then Ok (buf_write st (Some buf) (PageInit BLCKSZ 0), Some buf)
  else Ok (st, Some buf).

Definition visibilitymap_pin (st : dbstate) (rn : RelFileNode) (heapBlk : Z) (buf : Buffer)
  : res (dbstate * Buffer) :=
  let mapBlock := HEAPBLK_TO_MAPBLOCK heapBlk in
  match buf with
  | Some t => if blockNum t =? mapBlock then Ok (st, buf) else vm_readbuf st rn mapBlock true
  | None => vm_readbuf st rn mapBlock true
  end.

(** [polar_visibilitymap_set] on the page of the map buffer. *)
Definition polar_visibilitymap_set (st : dbstate) (heapBlk : Z) (vmBuf : Buffer) (flags : Z)
  : res dbstate :=
  let mapBlock := HEAPBLK_TO_MAPBLOCK heapBlk in
  let mapByte := HEAPBLK_TO_MAPBYTE heapBlk in
  let mapOffset := HEAPBLK_TO_OFFSET heapBlk in
  match vmBuf with
  | None => Err EError
  | Some t =>
      if negb (blockNum t =? mapBlock) then Err EError else
      p ← BufferGetPage st vmBuf;
      let b := mget 1 p (PageGetContents + mapByte) in
      if negb (flags =? Z.land (Z.shiftr b mapOffset) VISIBILITYMAP_VALID_BITS)
      then Ok (buf_write st vmBuf
                 (mput 1 p (PageGetContents + mapByte) (Z.lor b (Z.shiftl flags mapOffset))))
      else Ok st
  end.
