(* ===== verification/Pglz.v ===== *)
(** * The PGLZ compression of full-page images: [pg_lzcompress.c]

    The decompressor, the compressor with its history table, and the output
    macros.  The decompressor copies a match in doubling chunks; it is proved
    equal to the byte-by-byte copy that defines the format, and decompression
    is proved to invert compression for every input, strategy and state of
    the static history entries. *)

From S2P Require Import Prelude Mem.

(** ** [pglz_decompress] *)

(** The copy of a match: as long as source and destination overlap, copy the
    [off] bytes before the end of the output and double [off]. *)
Fixpoint pglz_copy (fuel : nat) (out : list Z) (off len : Z) : res (list Z) :=
  if off <? len then
    match fuel with
    | O => Err EFuel
    | S fuel =>
        bs ← load out (zlen out - off) off;
        pglz_copy fuel (out ++ bs) (off + off) (len - off)
    end
  else
    bs ← load out (zlen out - off) len;
    Ok (out ++ bs).

(** The items of one control byte. *)
Fixpoint pglz_items (src : list Z) (rawsize : Z) (n : nat) (ctrl sp : Z) (out : list Z)
  : res (Z * list Z) :=
  match n with
  | O => Ok (sp, out)
  | S n =>
      if negb ((sp <? zlen src) && (zlen out <? rawsize)) then Ok (sp, out) else
      if has_flag ctrl 1 then
        b0 ← rd 1 src sp;
        b1 ← rd 1 src (sp + 1);
        let len := Z.land b0 0x0f + 3 in
        let off := Z.lor (Z.shiftl (Z.land b0 0xf0) 4) b1 in
        let sp := sp + 2 in
        '(len, sp) ← (if len =? 18 then b2 ← rd 1 src sp; Ok (len + b2, sp + 1) else Ok (len, sp));
        let len := Z.min len (rawsize - zlen out) in
        out ← pglz_copy (Z.to_nat len) out off len;
        pglz_items src rawsize n (Z.shiftr ctrl 1) sp out
      else
        b ← rd 1 src sp;
        pglz_items src rawsize n (Z.shiftr ctrl 1) (sp + 1) (out ++ [b])
  end.

Fixpoint pglz_loop (fuel : nat) (src : list Z) (rawsize sp : Z) (out : list Z)
  : res (Z * list Z) :=
  if (sp <? zlen src) && (zlen out <? rawsize) then
    match fuel with
    | O => Err EFuel
    | S fuel =>
        ctrl ← rd 1 src sp;
        '(sp, out) ← pglz_items src rawsize 8 ctrl (sp + 1) out;
        pglz_loop fuel src rawsize sp out
    end
  else Ok (sp, out).

(** [None] is the return value -1. *)
Definition pglz_decompress (src : list Z) (rawsize : Z) (check_complete : bool)
  : res (option (list Z)) :=
  '(sp, out) ← pglz_loop (length src) src rawsize 0 [];
  if check_complete && (negb (zlen out =? rawsize) || negb (sp =? zlen src))
  then Ok None else Ok (Some out).

(** ** [pglz_compress] *)

Definition PGLZ_HISTORY_SIZE : Z := 4096.
Definition PGLZ_MAX_MATCH : Z := 273.
Definition INT_MAX : Z := 2147483647.
Definition INVALID_ENTRY : Z := 0.

Record PGLZ_Strategy : Type := mkStrategy {
  min_input_size : Z;
  max_input_size : Z;
  min_comp_rate : Z;
  first_success_by : Z;
  match_size_good : Z;
  match_size_drop : Z }.

Definition PGLZ_strategy_default : PGLZ_Strategy := mkStrategy 32 INT_MAX 25 1024 128 10.
Definition PGLZ_strategy_always : PGLZ_Strategy := mkStrategy 0 INT_MAX 0 INT_MAX 128 6.

(** A pointer into [hist_entries] is an index; [None] is NULL. *)
Record PGLZ_HistEntry : Type := mkHent {
  h_next : option Z;
  h_prev : option Z;
  hindex : Z;
  h_pos : Z }.

(** The static work arrays, and the variables of [pglz_compress] that
    [pglz_hist_add] updates.  An entry that was never written is all zeroes. *)
Record history : Type := mkHistory {
  hist_start : gmap Z Z;
  hist_entries : gmap Z PGLZ_HistEntry;
  hist_next : Z;
  hist_recycle : bool }.

Definition start_at (s : gmap Z Z) (h : Z) : Z := default INVALID_ENTRY (s !! h).
Definition hent (he : gmap Z PGLZ_HistEntry) (k : Z) : PGLZ_HistEntry :=
  default (mkHent None None 0 0) (he !! k).

Definition set_next (e : PGLZ_HistEntry) (n : option Z) : PGLZ_HistEntry :=
  mkHent n (h_prev e) (hindex e) (h_pos e).
Definition set_prev (e : PGLZ_HistEntry) (n : option Z) : PGLZ_HistEntry :=
  mkHent (h_next e) n (hindex e) (h_pos e).

(** The bytes of the input; [char] is signed where it is used as a number. *)
Definition byte_at (src : list Z) (i : Z) : Z := src !!! Z.to_nat i.
Definition schar (b : Z) : Z := if b <? 128 then b else b - 256.

Definition pglz_hist_idx (src : list Z) (s mask : Z) : Z :=
  Z.land (if zlen src - s <? 4 then schar (byte_at src s)
          else Z.lxor (Z.lxor (Z.lxor (Z.shiftl (schar (byte_at src s)) 6)
                                      (Z.shiftl (schar (byte_at src (s + 1))) 4))
                              (Z.shiftl (schar (byte_at src (s + 2))) 2))
                      (schar (byte_at src (s + 3)))) mask.

(** The recycling part of [pglz_hist_add]: take entry [hn] out of its list. *)
Definition hist_unlink (s : gmap Z Z) (he : gmap Z PGLZ_HistEntry) (hn : Z)
  : res (gmap Z Z * gmap Z PGLZ_HistEntry) :=
  '(s, he) ← match h_prev (hent he hn) with
             | None =>
                 match h_next (hent he hn) with
                 | Some n => Ok (<[hindex (hent he hn) := n]> s, he)
                 | None => Err EOob
                 end
             | Some q => Ok (s, <[q := set_next (hent he q) (h_next (hent he hn))]> he)
             end;
  Ok (s, match h_next (hent he hn) with
         | Some n => <[n := set_prev (hent he n) (h_prev (hent he hn))]> he
         | None => he
         end).

(** The rest: entry [hn] becomes the head of its list, for position [pos]. *)
Definition hist_link (s : gmap Z Z) (he : gmap Z PGLZ_HistEntry) (hn hx pos : Z)
  : gmap Z Z * gmap Z PGLZ_HistEntry :=
  let he := <[hn := mkHent (Some (start_at s hx)) None hx pos]> he in
  let he := <[start_at s hx := set_prev (hent he (start_at s hx)) (Some hn)]> he in
  (<[hx := hn]> s, he).

Definition pglz_hist_add (src : list Z) (mask : Z) (h : history) (pos : Z) : res history :=
  let hx := pglz_hist_idx src pos mask in
  let hn := hist_next h in
  '(s, he) ← (if hist_recycle h then hist_unlink (hist_start h) (hist_entries h) hn
              else Ok (hist_start h, hist_entries h));
  let '(s, he) := hist_link s he hn hx pos in
  if PGLZ_HISTORY_SIZE + 1 <=? hn + 1 then Ok (mkHistory s he 1 true)
  else Ok (mkHistory s he (hn + 1) (hist_recycle h)).

(** The character by character comparison: up to [n] more equal bytes. *)
Fixpoint count_match (src : list Z) (ip hp thislen : Z) (n : nat) : Z :=
  match n with
  | O => thislen
  | S n =>
      if (ip <? zlen src) && (byte_at src ip =? byte_at src hp)
      then count_match src (ip + 1) (hp + 1) (thislen + 1) n
      else thislen
  end.

Definition this_match (src : list Z) (input hp len : Z) : Z :=
  if 16 <=? len then
    if bool_decide (mread src input len = mread src hp len)
    then count_match src (input + len) (hp + len) len (Z.to_nat (PGLZ_MAX_MATCH - len))
    else 0
  else count_match src input hp 0 (Z.to_nat PGLZ_MAX_MATCH).

(** The traversal of one history list; the result is the best match. *)
Fixpoint find_loop (fuel : nat) (src : list Z) (he : gmap Z PGLZ_HistEntry) (input hentno len off
  good_match good_drop : Z) : res (Z * Z) :=
  if hentno =? INVALID_ENTRY then Ok (len, off) else
  match fuel with
  | O => Err EFuel
  | S fuel =>
      let hp := h_pos (hent he hentno) in
      let thisoff := input - hp in
      if 0x0fff <=? thisoff then Ok (len, off) else
      let thislen := this_match src input hp len in
      let '(len, off) := if len <? thislen then (thislen, thisoff) else (len, off) in
      match h_next (hent he hentno) with
      | None => Err EOob
      | Some next =>
          if (negb (next =? INVALID_ENTRY)) && (good_match <=? len) then Ok (len, off)
          else find_loop fuel src he input next len off
                 (good_match - Z.quot (good_match * good_drop) 100) good_drop
      end
  end.

(** [None] is the return value 0. *)
Definition pglz_find_match (src : list Z) (h : history) (input good_match good_drop mask : Z)
  : res (option (Z * Z)) :=
  '(len, off) ← find_loop (Z.to_nat PGLZ_HISTORY_SIZE) src (hist_entries h) input
                  (start_at (hist_start h) (pglz_hist_idx src input mask)) 0 0 good_match good_drop;
  if 2 <? len then Ok (Some (len, off)) else Ok None.

(** The output side: the bytes written so far, where the current control
    byte goes ([None] is the dummy), its value and the next control bit. *)
Record out_state : Type := mkOut {
  o_buf : list Z;
  o_ctrlp : option nat;
  o_ctrlb : Z;
  o_ctrl : Z }.

Definition put_ctrl (o : out_state) : list Z :=
  match o_ctrlp o with Some k => <[k := o_ctrlb o]> (o_buf o) | None => o_buf o end.

Definition pglz_out_ctrl (o : out_state) : out_state :=
  if Z.land (o_ctrl o) 0xff =? 0
  then mkOut (put_ctrl o ++ [0]) (Some (length (o_buf o))) 0 1
  else o.

Definition pglz_out_literal (o : out_state) (b : Z) : out_state :=
  let o := pglz_out_ctrl o in
  mkOut (o_buf o ++ [u8 b]) (o_ctrlp o) (o_ctrlb o) (u8 (Z.shiftl (o_ctrl o) 1)).

Definition tag_bytes (len off : Z) : list Z :=
  if 17 <? len then
    [u8 (Z.lor (Z.shiftr (Z.land off 0xf00) 4) 0x0f); u8 (Z.land off 0xff); u8 (len - 18)]
  else [u8 (Z.lor (Z.shiftr (Z.land off 0xf00) 4) (len - 3)); u8 (Z.land off 0xff)].

Definition pglz_out_tag (o : out_state) (len off : Z) : out_state :=
  let o := pglz_out_ctrl o in
  mkOut (o_buf o ++ tag_bytes len off) (o_ctrlp o) (u8 (Z.lor (o_ctrlb o) (o_ctrl o)))
    (u8 (Z.shiftl (o_ctrl o) 1)).

(** The history entries of [n] positions from [dp] on. *)
Fixpoint hist_add_run (src : list Z) (mask : Z) (h : history) (dp : Z) (n : nat) : res history :=
  match n with
  | O => Ok h
  | S n => h ← pglz_hist_add src mask h dp; hist_add_run src mask h (dp + 1) n
  end.

(** The main loop; [None] is the return value -1. *)
Fixpoint compress_loop (fuel : nat) (src : list Z) (first_success result_max good_match good_drop mask : Z)
  (o : out_state) (h : history) (dp : Z) (found_match : bool) : res (option out_state * history) :=
  if zlen src <=? dp then Ok (Some o, h) else
  match fuel with
  | O => Err EFuel
  | S fuel =>
      if result_max <=? zlen (o_buf o) then Ok (None, h) else
      if negb found_match && (first_success <=? zlen (o_buf o)) then Ok (None, h) else
      m ← pglz_find_match src h dp good_match good_drop mask;
      match m with
      | Some (len, off) =>
          h ← hist_add_run src mask h dp (Z.to_nat len);
          compress_loop fuel src first_success result_max good_match good_drop mask
            (pglz_out_tag o len off) h (dp + len) true
      | None =>
          h ← pglz_hist_add src mask h dp;
          compress_loop fuel src first_success result_max good_match good_drop mask
            (pglz_out_literal o (byte_at src dp)) h (dp + 1) found_match
      end
  end.

Definition clamp (lo hi x : Z) : Z := if hi <? x then hi else if x <? lo then lo else x.

Definition comp_result_max (slen need_rate : Z) : Z :=
  if INT_MAX / 100 <? slen then slen / 100 * (100 - need_rate) else slen * (100 - need_rate) / 100.

Definition comp_hashsz (slen : Z) : Z :=
  if slen <? 128 then 512 else if slen <? 256 then 1024 else if slen <? 512 then 2048
  else if slen <? 1024 then 4096 else 8192.

(** The static [hist_entries] go in and out; [hist_start] is cleared. *)
Definition pglz_compress (entries : gmap Z PGLZ_HistEntry) (src : list Z) (strategy : PGLZ_Strategy)
  : res (option (list Z) * gmap Z PGLZ_HistEntry) :=
  let slen := zlen src in
  if (match_size_good strategy <=? 0) || (slen <? min_input_size strategy) || (max_input_size strategy <? slen)
  then Ok (None, entries) else
  let good_match := clamp 17 PGLZ_MAX_MATCH (match_size_good strategy) in
  let good_drop := clamp 0 100 (match_size_drop strategy) in
  let need_rate := clamp 0 99 (min_comp_rate strategy) in
  let result_max := comp_result_max slen need_rate in
  let mask := comp_hashsz slen - 1 in
  '(r, h) ← compress_loop (length src) src (first_success_by strategy) result_max good_match good_drop mask
              (mkOut [] None 0 0) (mkHistory ∅ entries 1 false) 0 false;
  match r with
  | None => Ok (None, hist_entries h)
  | Some o =>
      if result_max <=? zlen (o_buf o) then Ok (None, hist_entries h)
      else Ok (Some (put_ctrl o), hist_entries h)
  end.

Example compress_sample :
  let src := concat (replicate 20 [104; 101; 108; 108; 111; 32]) in
  match pglz_compress ∅ src PGLZ_strategy_default with
  | Ok (Some out, _) => (out, pglz_decompress out (zlen src) true)
  | _ => ([], Err EPanic)
  end = ([64; 104; 101; 108; 108; 111; 32; 15; 6; 96], Ok (Some (concat (replicate 20 [104; 101; 108; 108; 111; 32])))).
Proof. vm_compute. reflexivity. Qed.

(** ** Copying a match *)

(** The definition of the format: one byte at a time, each taken [off] bytes
    before the end of what has been written. *)
Fixpoint lz_copy (out : list Z) (off len : nat) : list Z :=
  match len with
  | O => out
  | S len => lz_copy (out ++ [out !!! (length out - off)%nat]) off len
  end.

(** [r] extends [out] by [len] bytes with period [off].  There is only one
    such list. *)
Record extends (out : list Z) (off len : nat) (r : list Z) : Prop := {
  ex_len : length r = (length out + len)%nat;
  ex_old i : (i < length out)%nat → r !! i = out !! i;
  ex_new i : (length out ≤ i < length r)%nat → r !! i = r !! (i - off)%nat }.

Lemma extends_unique out off len r r' :
  (1 ≤ off ≤ length out)%nat → extends out off len r → extends out off len r' → r = r'.
Proof.
  intros Ho [Hl Hold Hnew] [Hl' Hold' Hnew']. apply list_eq. intros i.
  induction i as [i IH] using (well_founded_induction lt_wf).
  destruct (decide (i < length out)%nat); [by rewrite Hold, Hold' by done|].
  destruct (decide (i < length r)%nat).
  - rewrite Hnew, Hnew' by lia. apply IH. lia.
  - rewrite !lookup_ge_None_2 by lia. done.
Qed.

Lemma lz_copy_extends off len : ∀ out, (1 ≤ off ≤ length out)%nat → extends out off len (lz_copy out off len).
Proof.
  induction len as [|len IH]; intros out Ho; cbn [lz_copy].
  - constructor; intros; [lia|done|lia].
  - set (b := out !!! _). assert (Hb : out !! (length out - off)%nat = Some b)
      by (apply list_lookup_lookup_total_lt; lia).
    destruct (IH (out ++ [b])) as [Hl Hold Hnew]; [rewrite length_app; simpl; lia|].
    rewrite length_app in *. simpl in *. constructor; [lia| |].
    + intros i Hi. rewrite Hold by lia. by apply lookup_app_l.
    + intros i Hi. destruct (decide (i = length out)) as [->|]; [|apply Hnew; lia].
      rewrite Hold, lookup_app_r, Nat.sub_diag by lia. simpl. rewrite Hold, lookup_app_l by lia. done.
Qed.

Lemma pglz_copy_extends fuel : ∀ out off len,
  1 ≤ off ≤ zlen out → 0 ≤ len → len ≤ Z.of_nat fuel →
  ∃ r, pglz_copy fuel out off len = Ok r ∧ extends out (Z.to_nat off) (Z.to_nat len) r.
Proof.
  assert (Hlook : ∀ (out : list Z) off l (i : nat), 1 ≤ off ≤ zlen out → 0 ≤ l ≤ off → (length out ≤ i < length out + Z.to_nat l)%nat →
    (out ++ mread out (zlen out - off) l) !! i = out !! (i - Z.to_nat off)%nat).
  { intros out off l i Ho Hl Hi. unfold zlen in *. rewrite lookup_app_r by lia. rewrite mread_lookup by lia.
    rewrite decide_True by lia. f_equal. lia. }
  assert (Hbase : ∀ out off len, 1 ≤ off ≤ zlen out → 0 ≤ len ≤ off →
    ∃ r, (bs ← load out (zlen out - off) len; Ok (out ++ bs)) = Ok r ∧ extends out (Z.to_nat off) (Z.to_nat len) r).
  { intros out off len Ho Hl. unfold load. rewrite (proj2 (in_range_true _ _ _)) by lia. eexists. split; [done|].
    assert (Hz : zlen (mread out (zlen out - off) len) = len) by (apply zlen_mread; lia).
    constructor; rewrite ?length_app; unfold zlen in *; [lia|intros; by apply lookup_app_l|].
    intros i Hi. rewrite Hlook by (unfold zlen; lia). symmetry. apply lookup_app_l. lia. }
  induction fuel as [|fuel IH]; intros out off len Ho Hl Hf; cbn [pglz_copy].
  { destruct (Z.ltb_spec off len); [lia|]. by apply Hbase. }
  destruct (Z.ltb_spec off len); [|by apply Hbase].
  unfold load. rewrite (proj2 (in_range_true _ _ _)) by lia. cbn [mbind res_bind].
  assert (Hz : zlen (mread out (zlen out - off) off) = off) by (apply zlen_mread; lia).
  set (out' := out ++ mread out (zlen out - off) off).
  assert (Hz' : zlen out' = zlen out + off) by (unfold out', zlen in *; rewrite length_app; lia).
  destruct (IH out' (off + off) (len - off)) as (r & Hr & [H1 H2 H3]); [lia..|].
  exists r. split; [done|]. unfold zlen in *.
  constructor; [lia| |].
  - intros i Hi. rewrite H2 by lia. apply lookup_app_l. lia.
  - intros i. induction i as [i IHi] using (well_founded_induction lt_wf). intros Hi.
    destruct (decide (i < length out')%nat) as [Hlt|Hge].
    + rewrite !H2 by lia. unfold out'. rewrite Hlook by (unfold zlen; lia). symmetry. apply lookup_app_l. lia.
    + rewrite H3 by lia. rewrite (IHi (i - Z.to_nat off)%nat) by lia. f_equal. lia.
Qed.

Lemma pglz_copy_lz out off len :
  1 ≤ off ≤ zlen out → 0 ≤ len →
  pglz_copy (Z.to_nat len) out off len = Ok (lz_copy out (Z.to_nat off) (Z.to_nat len)).
Proof.
  intros Ho Hl. destruct (pglz_copy_extends (Z.to_nat len) out off len Ho Hl ltac:(lia)) as (r & -> & Hr).
  f_equal. eapply extends_unique; [|done|apply lz_copy_extends]; unfold zlen in *; lia.
Qed.

(** An offset of zero makes no progress, whatever the fuel. *)
Lemma pglz_copy_zero fuel : ∀ out len, 0 < len → pglz_copy fuel out 0 len = Err EFuel.
Proof.
  induction fuel as [|fuel IH]; intros out len Hl; cbn [pglz_copy];
    (destruct (Z.ltb_spec 0 len); [|lia]); [done|].
  rewrite Z.sub_0_r. unfold load. rewrite (proj2 (in_range_true _ _ _)) by (unfold zlen; lia). cbn [mbind res_bind].
  apply IH. lia.
Qed.

(** ** The compressed format *)

Inductive token : Type :=
| Lit (b : Z)
| Match (len off : Z).

Definition tok_bytes (t : token) : list Z :=
  match t with Lit b => [b] | Match len off => tag_bytes len off end.
Definition tok_bit (t : token) : Z := match t with Lit _ => 0 | Match _ _ => 1 end.
Definition tok_apply (out : list Z) (t : token) : list Z :=
  match t with Lit b => out ++ [b] | Match len off => lz_copy out (Z.to_nat off) (Z.to_nat len) end.
Definition tok_ok (out : list Z) (t : token) : Prop :=
  match t with
  | Lit b => is_byte b
  | Match len off => 3 ≤ len ≤ PGLZ_MAX_MATCH ∧ 1 ≤ off < 0xfff ∧ off ≤ zlen out
  end.

Fixpoint toks_ok (out : list Z) (ts : list token) : Prop :=
  match ts with [] => True | t :: ts => tok_ok out t ∧ toks_ok (tok_apply out t) ts end.
Definition expand (out : list Z) (ts : list token) : list Z := foldl tok_apply out ts.

(** Eight tokens share a control byte, which comes first. *)
Fixpoint ctrl_of (ts : list token) : Z :=
  match ts with [] => 0 | t :: ts => tok_bit t + 2 * ctrl_of ts end.
Definition toks_bytes (ts : list token) : list Z := concat (tok_bytes <$> ts).
Definition group_bytes (g : list token) : list Z := ctrl_of g :: toks_bytes g.
Definition groups_bytes (gs : list (list token)) : list Z := concat (group_bytes <$> gs).

Fixpoint groups_ok (gs : list (list token)) : Prop :=
  match gs with
  | [] => True
  | g :: gs => (1 ≤ length g ≤ 8)%nat ∧ (gs = [] ∨ length g = 8%nat) ∧ groups_ok gs
  end.

Lemma toks_ok_app out ts us : toks_ok out (ts ++ us) ↔ toks_ok out ts ∧ toks_ok (expand out ts) us.
Proof.
  revert out. induction ts as [|t ts IH]; intros out; simpl; [tauto|]. rewrite IH. unfold expand. simpl. tauto.
Qed.

Lemma expand_app out ts us : expand out (ts ++ us) = expand (expand out ts) us.
Proof. apply foldl_app. Qed.

Lemma tok_bytes_len t : 1 ≤ zlen (tok_bytes t).
Proof. destruct t; unfold tok_bytes, tag_bytes, zlen; [simpl; lia|]. case_match; simpl; lia. Qed.

Lemma tok_apply_len out t : tok_ok out t → zlen out + 1 ≤ zlen (tok_apply out t).
Proof.
  destruct t as [b|len off]; simpl; intros Hok.
  - unfold zlen. rewrite length_app. simpl. lia.
  - destruct (lz_copy_extends (Z.to_nat off) (Z.to_nat len) out) as [Hl _ _]; unfold zlen, PGLZ_MAX_MATCH in *; lia.
Qed.

Lemma expand_len out ts : toks_ok out ts → zlen out + zlen ts ≤ zlen (expand out ts).
Proof.
  revert out. induction ts as [|t ts IH]; intros out; simpl.
  { unfold zlen. simpl. lia. }
  intros [Ht Hts]. pose proof (tok_apply_len out t Ht). specialize (IH _ Hts). unfold expand in *. simpl.
  unfold zlen in *. simpl. lia.
Qed.

Lemma rd_app pre b l : rd 1 (pre ++ b :: l) (zlen pre) = Ok b.
Proof.
  rewrite rd_ok; [|apply zlen_nonneg|rewrite zlen_app, zlen_cons; pose proof (zlen_nonneg l); lia].
  f_equal. unfold mget, mread, zlen. rewrite !Nat2Z.id, drop_app_length. simpl. lia.
Qed.

Lemma rd_app1 pre a b l : rd 1 (pre ++ a :: b :: l) (zlen pre + 1) = Ok b.
Proof.
  replace (pre ++ a :: b :: l) with ((pre ++ [a]) ++ b :: l) by (by rewrite <-app_assoc).
  replace (zlen pre + 1) with (zlen (pre ++ [a])) by (rewrite zlen_app; done). apply rd_app.
Qed.

Lemma rd_app2 pre a a' b l : rd 1 (pre ++ a :: a' :: b :: l) (zlen pre + 2) = Ok b.
Proof.
  replace (pre ++ a :: a' :: b :: l) with ((pre ++ [a; a']) ++ b :: l) by (by rewrite <-app_assoc).
  replace (zlen pre + 2) with (zlen (pre ++ [a; a'])) by (rewrite zlen_app; done). apply rd_app.
Qed.

(** The two bytes of a tag. *)
Lemma forall_below (P : Z → bool) n x : forallb P (seqZ 0 n) = true → 0 ≤ x < n → P x = true.
Proof.
  intros H Hx. rewrite forallb_forall in H. apply H, list_elem_of_In, elem_of_seqZ. lia.
Qed.

Lemma tag_hi off x : 0 ≤ off < 4096 → 0 ≤ x < 16 →
  u8 (Z.lor (Z.shiftr (Z.land off 0xf00) 4) x) = 16 * (off / 256) + x.
Proof.
  intros Ho Hx.
  assert (Z.land off 0xf00 = 256 * (off / 256)) as ->.
  { change 0xf00 with (Z.land (Z.ones 12) (Z.lnot (Z.ones 8))).
    rewrite Z.land_assoc, Z.land_ones, align_spec by lia. rewrite Z.mod_small by (simpl; lia). change (2 ^ 8) with 256. lia. }
  set (h := off / 256). assert (0 ≤ h < 16) by (unfold h; dlia).
  assert (Hall : forallb (λ h, forallb (λ x, u8 (Z.lor (Z.shiftr (256 * h) 4) x) =? 16 * h + x) (seqZ 0 16)) (seqZ 0 16) = true)
    by (vm_compute; done).
  apply Z.eqb_eq. by apply (forall_below _ _ x (forall_below _ _ h Hall ltac:(done))).
Qed.

Lemma tag_decode off x : 0 ≤ off < 4096 → 0 ≤ x < 16 →
  Z.land (16 * (off / 256) + x) 0x0f = x ∧
  Z.lor (Z.shiftl (Z.land (16 * (off / 256) + x) 0xf0) 4) (u8 (Z.land off 0xff)) = off.
Proof.
  intros Ho Hx. set (h := off / 256). assert (Hh : 0 ≤ h < 16) by (unfold h; dlia).
  assert (Hall : forallb (λ h, forallb (λ x, (Z.land (16 * h + x) 0x0f =? x) &&
     (Z.shiftl (Z.land (16 * h + x) 0xf0) 4 =? Z.shiftl h 8)) (seqZ 0 16)) (seqZ 0 16) = true)
    by (vm_compute; done).
  pose proof (forall_below _ _ x (forall_below _ _ h Hall Hh) Hx) as Hb. cbv beta in Hb. b2p.
  split; [done|]. rewrite H0. change 0xff with (Z.ones 8). rewrite Z.land_ones by lia.
  unfold u8. rewrite Z.mod_mod by lia. unfold h. change 256 with (2 ^ 8). rewrite <-Z.shiftr_div_pow2 by lia.
  rewrite <-Z.land_ones by lia. apply Z.bits_inj'. intros i Hi. rewrite Z.lor_spec, Z.shiftl_spec, Z.land_spec by done.
  destruct (decide (i < 8)).
  - rewrite (Z.testbit_neg_r _ (i - 8)), Z.ones_spec_low by lia. apply andb_true_r.
  - rewrite Z.shiftr_spec, Z.ones_spec_high by lia. rewrite andb_false_r, orb_false_r. f_equal. lia.
Qed.

(** ** Decoding what the format says *)

Lemma ctrl_of_flag t g : has_flag (ctrl_of (t :: g)) 1 = (tok_bit t =? 1).
Proof.
  unfold has_flag. change 1 with (Z.ones 1) at 1. rewrite Z.land_ones by lia. simpl ctrl_of. change (2 ^ 1) with 2.
  rewrite Z.mul_comm, Z.mod_add by lia. by destruct t.
Qed.

Lemma ctrl_of_shift t g : Z.shiftr (ctrl_of (t :: g)) 1 = ctrl_of g.
Proof.
  rewrite Z.shiftr_div_pow2 by lia. simpl ctrl_of. change (2 ^ 1) with 2.
  rewrite Z.mul_comm, Z.div_add by lia. by destruct t.
Qed.

(** One token. *)
Lemma items_token pre post rawsize n t g out :
  tok_ok out t → zlen (tok_apply out t) ≤ rawsize →
  pglz_items (pre ++ tok_bytes t ++ post) rawsize (S n) (ctrl_of (t :: g)) (zlen pre) out =
  pglz_items (pre ++ tok_bytes t ++ post) rawsize n (ctrl_of g) (zlen pre + zlen (tok_bytes t)) (tok_apply out t).
Proof.
  intros Hok Hraw. pose proof (tok_apply_len out t Hok). pose proof (tok_bytes_len t).
  cbn [pglz_items]. rewrite !zlen_app. pose proof (zlen_nonneg post).
  destruct (Z.ltb_spec (zlen pre) (zlen pre + (zlen (tok_bytes t) + zlen post))); [|lia].
  destruct (Z.ltb_spec (zlen out) rawsize); [|lia]. cbn [negb andb]. rewrite ctrl_of_flag, ctrl_of_shift.
  destruct t as [b|len off]; cbn [tok_bit tok_bytes tok_apply Z.eqb].
  - cbn [app]. rewrite rd_app. done.
  - destruct Hok as (Hl & Ho & Ho'). unfold PGLZ_MAX_MATCH in *.
    assert (Hzl : zlen (lz_copy out (Z.to_nat off) (Z.to_nat len)) = zlen out + len).
    { destruct (lz_copy_extends (Z.to_nat off) (Z.to_nat len) out) as [E _ _]; unfold zlen in *; lia. }
    cbn [tok_apply] in Hraw.
    unfold tag_bytes. destruct (Z.ltb_spec 17 len); cbn [app].
    + rewrite rd_app, rd_app1, rd_app2. rewrite tag_hi by lia. cbn [mbind res_bind].
      destruct (tag_decode off 15 ltac:(lia) ltac:(lia)) as [-> ->]. cbn [mbind res_bind].
      change (15 + 3 =? 18) with true. cbn [mbind res_bind]. rewrite (u8_small (len - 18)) by lia.
      replace (15 + 3 + (len - 18)) with len by lia. rewrite Z.min_l by lia.
      rewrite pglz_copy_lz by lia. cbn [mbind res_bind].
      rewrite !zlen_cons. change (zlen (@nil Z)) with 0. by replace (zlen pre + (1 + (1 + (1 + 0)))) with (zlen pre + 2 + 1) by lia.
    + rewrite rd_app, rd_app1. rewrite tag_hi by lia. cbn [mbind res_bind].
      destruct (tag_decode off (len - 3) ltac:(lia) ltac:(lia)) as [-> ->].
      destruct (Z.eqb_spec (len - 3 + 3) 18); [lia|]. cbn [mbind res_bind].
      replace (len - 3 + 3) with len by lia. rewrite Z.min_l by lia.
      rewrite pglz_copy_lz by lia. cbn [mbind res_bind]. done.
Qed.

Lemma items_group rawsize g : ∀ pre post n out,
  (length g ≤ n)%nat → n = length g ∨ post = [] → toks_ok out g → zlen (expand out g) ≤ rawsize →
  pglz_items (pre ++ toks_bytes g ++ post) rawsize n (ctrl_of g) (zlen pre) out =
  Ok (zlen pre + zlen (toks_bytes g), expand out g).
Proof.
  induction g as [|t g IH]; intros pre post n out Hn Hpost Hok Hraw.
  - change (toks_bytes []) with (@nil Z). rewrite Z.add_0_r. destruct n; [done|]. cbn [pglz_items app].
    destruct Hpost as [| ->]; [done|]. rewrite app_nil_r.
    destruct (Z.ltb_spec (zlen pre) (zlen pre)); [lia|]. done.
  - destruct n as [|n]; [simpl in Hn; lia|]. destruct Hok as [Ht Hg].
    assert (Hgrow : zlen (tok_apply out t) ≤ zlen (expand out (t :: g))).
    { pose proof (expand_len _ _ Hg). pose proof (zlen_nonneg g). unfold expand in *. simpl. lia. }
    change (toks_bytes (t :: g)) with (tok_bytes t ++ toks_bytes g). rewrite <-app_assoc.
    rewrite items_token by (done || lia). rewrite app_assoc, <-zlen_app.
    rewrite IH; [|simpl in Hn; lia|simpl in Hpost; destruct Hpost; [left; lia|by right]|done|done].
    rewrite !zlen_app. do 2 f_equal. lia.
Qed.

Lemma loop_groups rawsize gs : ∀ fuel pre out,
  (length gs ≤ fuel)%nat → groups_ok gs → toks_ok out (concat gs) → zlen (expand out (concat gs)) ≤ rawsize →
  pglz_loop fuel (pre ++ groups_bytes gs) rawsize (zlen pre) out =
  Ok (zlen (pre ++ groups_bytes gs), expand out (concat gs)).
Proof.
  induction gs as [|g gs IH]; intros fuel pre out Hf Hg Hok Hraw.
  - change (groups_bytes []) with (@nil Z). rewrite app_nil_r.
    assert (E : ∀ b, (zlen pre <? zlen pre) && b = false) by (intros; destruct (Z.ltb_spec (zlen pre) (zlen pre)); [lia|done]).
    destruct fuel; cbn [pglz_loop]; by rewrite E.
  - destruct fuel as [|fuel]; [simpl in Hf; lia|]. destruct Hg as (Hlen & Hlast & Hgs).
    cbn [concat] in *. apply toks_ok_app in Hok as [Hokg Hok]. rewrite expand_app in Hraw |- *.
    pose proof (expand_len _ _ Hokg) as Hg. pose proof (expand_len _ _ Hok) as Hgs'.
    pose proof (zlen_nonneg (concat gs)).
    change (groups_bytes (g :: gs)) with (ctrl_of g :: toks_bytes g ++ groups_bytes gs).
    cbn [pglz_loop]. rewrite !zlen_app, zlen_cons, zlen_app.
    pose proof (zlen_nonneg (toks_bytes g)). pose proof (zlen_nonneg (groups_bytes gs)).
    destruct (Z.ltb_spec (zlen pre) (zlen pre + (1 + (zlen (toks_bytes g) + zlen (groups_bytes gs))))); [|lia].
    destruct (Z.ltb_spec (zlen out) rawsize); [|unfold zlen in *; lia]. cbn [andb].
    rewrite rd_app. cbn [mbind res_bind].
    replace (pre ++ ctrl_of g :: toks_bytes g ++ groups_bytes gs)
      with ((pre ++ [ctrl_of g]) ++ toks_bytes g ++ groups_bytes gs) by (by rewrite <-app_assoc).
    replace (zlen pre + 1) with (zlen (pre ++ [ctrl_of g])) by (by rewrite zlen_app).
    rewrite items_group; [|lia| |done|lia].
    2:{ destruct Hlast as [-> | ->]; [by right|by left]. }
    cbn [mbind res_bind]. rewrite app_assoc, <-zlen_app, IH by (done || (simpl in Hf; lia)).
    rewrite !zlen_app. change (zlen [ctrl_of g]) with 1. do 2 f_equal. lia.
Qed.

Lemma groups_bytes_len gs : zlen gs ≤ zlen (groups_bytes gs).
Proof.
  induction gs as [|g gs IH]; [done|]. change (groups_bytes (g :: gs)) with (group_bytes g ++ groups_bytes gs).
  rewrite zlen_app. unfold group_bytes. rewrite !zlen_cons. pose proof (zlen_nonneg (toks_bytes g)). lia.
Qed.

Lemma decompress_groups gs :
  groups_ok gs → toks_ok [] (concat gs) →
  pglz_decompress (groups_bytes gs) (zlen (expand [] (concat gs))) true = Ok (Some (expand [] (concat gs))).
Proof.
  intros Hg Hok. unfold pglz_decompress. pose proof (groups_bytes_len gs) as Hl. unfold zlen in Hl.
  pose proof (loop_groups (zlen (expand [] (concat gs))) gs (length (groups_bytes gs)) [] []) as E.
  cbn [app] in E. change (zlen (@nil Z)) with 0 in E. rewrite E by (done || lia). cbn [mbind res_bind].
  by rewrite !Z.eqb_refl.
Qed.

(** ** What the output macros write *)

(** After the tokens of the full groups [gs] and of the current group. *)
Record enc (o : out_state) (gs : list (list token)) (cur : list token) : Prop := {
  en_full : Forall (λ g, length g = 8%nat) gs;
  en_cur : (1 ≤ length cur ≤ 8)%nat;
  en_ctrlp : o_ctrlp o = Some (length (groups_bytes gs));
  en_ctrlb : o_ctrlb o = ctrl_of cur;
  en_ctrl : o_ctrl o = u8 (2 ^ zlen cur);
  en_buf : ∃ x, o_buf o = groups_bytes gs ++ x :: toks_bytes cur }.

Definition enc_inv (o : out_state) (ts : list token) : Prop :=
  (o = mkOut [] None 0 0 ∧ ts = []) ∨ ∃ gs cur, ts = concat gs ++ cur ∧ enc o gs cur.

Lemma groups_bytes_app gs hs : groups_bytes (gs ++ hs) = groups_bytes gs ++ groups_bytes hs.
Proof. unfold groups_bytes. by rewrite fmap_app, concat_app. Qed.

Lemma toks_bytes_app ts us : toks_bytes (ts ++ us) = toks_bytes ts ++ toks_bytes us.
Proof. unfold toks_bytes. by rewrite fmap_app, concat_app. Qed.

Lemma enc_put_ctrl o gs cur : enc o gs cur → put_ctrl o = groups_bytes (gs ++ [cur]).
Proof.
  intros [_ _ Hp Hb _ (x & Hx)]. unfold put_ctrl. rewrite Hp, Hx, Hb, groups_bytes_app.
  rewrite insert_app_r_alt by lia. rewrite Nat.sub_diag. cbn [insert list_insert]. f_equal.
  unfold groups_bytes. simpl. unfold group_bytes. by rewrite app_nil_r.
Qed.

Lemma ctrl_of_bound ts : 0 ≤ ctrl_of ts < 2 ^ zlen ts.
Proof.
  induction ts as [|t ts IH]; [done|]. rewrite zlen_cons, Z.pow_add_r by (pose proof (zlen_nonneg ts); lia).
  cbn [ctrl_of]. destruct t; cbn [tok_bit]; lia.
Qed.

Lemma ctrl_of_snoc ts t : ctrl_of (ts ++ [t]) = ctrl_of ts + tok_bit t * 2 ^ zlen ts.
Proof.
  induction ts as [|u ts IH].
  - simpl ctrl_of. change (2 ^ zlen (@nil token)) with 1. lia.
  - cbn [app ctrl_of]. rewrite IH, zlen_cons, Z.pow_add_r by (pose proof (zlen_nonneg ts); lia). lia.
Qed.

Lemma lor_high x k : 0 ≤ k → 0 ≤ x < 2 ^ k → Z.lor x (2 ^ k) = x + 2 ^ k.
Proof.
  intros Hk Hx. assert (Z.land x (2 ^ k) = 0) as E.
  { apply Z.bits_inj'. intros i Hi. rewrite Z.land_spec, Z.bits_0, Z.pow2_bits_eqb by lia.
    destruct (Z.eqb_spec k i) as [<-|]; [|apply andb_false_r]. rewrite andb_true_r.
    rewrite Z.testbit_false by lia. rewrite Z.div_small by lia. done. }
  rewrite <-Z.lxor_lor by done. symmetry. by apply Z.add_nocarry_lxor.
Qed.

(** The next control bit, or a new control byte. *)
Definition next_ctrl (o : out_state) (t : token) : out_state :=
  let o := pglz_out_ctrl o in
  mkOut (o_buf o ++ tok_bytes t) (o_ctrlp o) (u8 (Z.lor (o_ctrlb o) (if tok_bit t =? 1 then o_ctrl o else 0)))
    (u8 (Z.shiftl (o_ctrl o) 1)).

Lemma new_group o gs t : Forall (λ g, length g = 8%nat) gs →
  Z.land (o_ctrl o) 0xff = 0 → put_ctrl o = groups_bytes gs → length (o_buf o) = length (put_ctrl o) →
  enc (next_ctrl o t) gs [t].
Proof.
  intros Hf Hc Hp Hl. unfold next_ctrl, pglz_out_ctrl. rewrite Hc, Z.eqb_refl. rewrite Hp, Hl, Hp. constructor; cbn.
  - done.
  - lia.
  - done.
  - by destruct t.
  - done.
  - exists 0. rewrite <-app_assoc. unfold toks_bytes. simpl. by rewrite app_nil_r.
Qed.

Lemma same_group o gs cur t : enc o gs cur → (length cur < 8)%nat → enc (next_ctrl o t) gs (cur ++ [t]).
Proof.
  intros [Hf Hc Hp Hb Hctrl (x & Hx)] Hlt. assert (Hz : 1 ≤ zlen cur < 8) by (unfold zlen; lia).
  assert (Hpow : 0 < 2 ^ zlen cur ≤ 2 ^ 7) by (split; [lia|apply Z.pow_le_mono_r; lia]). change (2 ^ 7) with 128 in Hpow.
  assert (Hu : o_ctrl o = 2 ^ zlen cur) by (rewrite Hctrl, u8_small by lia; done).
  pose proof (ctrl_of_bound cur).
  assert (Hnz : Z.land (o_ctrl o) 0xff ≠ 0).
  { rewrite Hu. change 0xff with (Z.ones 8). rewrite Z.land_ones, Z.mod_small by (simpl; lia). lia. }
  unfold next_ctrl, pglz_out_ctrl. destruct (Z.eqb_spec (Z.land (o_ctrl o) 0xff) 0); [done|].
  constructor; cbn [o_buf o_ctrlp o_ctrlb o_ctrl].
  - done.
  - rewrite length_app. simpl. lia.
  - done.
  - rewrite Hb, Hu, ctrl_of_snoc. destruct t; cbn [tok_bit]; [change (0 =? 1) with false|change (1 =? 1) with true]; cbv iota.
    + rewrite Z.lor_0_r, u8_small by lia. lia.
    + rewrite lor_high by lia. rewrite u8_small by lia. lia.
  - rewrite Hu, zlen_app, Z.shiftl_mul_pow2 by lia. change (zlen [t]) with 1. rewrite Z.pow_add_r by lia. done.
  - exists x. rewrite Hx, <-app_assoc, toks_bytes_app. unfold toks_bytes at 3. simpl. by rewrite app_nil_r.
Qed.

Lemma put_ctrl_length o : length (put_ctrl o) = length (o_buf o).
Proof. unfold put_ctrl. destruct (o_ctrlp o); [apply length_insert|done]. Qed.

Lemma enc_inv_next o ts t : enc_inv o ts → enc_inv (next_ctrl o t) (ts ++ [t]).
Proof.
  intros [[-> ->]|(gs & cur & -> & He)]; right.
  - exists [], [t]. split; [done|]. by apply new_group.
  - destruct (decide (length cur = 8%nat)) as [E|E].
    + exists (gs ++ [cur]), [t]. split; [by rewrite concat_app; simpl; rewrite app_nil_r|].
      pose proof He as [Hf _ _ _ Hc _]. apply new_group.
      * apply Forall_app. auto.
      * rewrite Hc. unfold zlen. by rewrite E.
      * by apply enc_put_ctrl.
      * symmetry. apply put_ctrl_length.
    + exists gs, (cur ++ [t]). split; [by rewrite app_assoc|]. apply same_group; [done|]. pose proof (en_cur _ _ _ He). lia.
Qed.

Lemma out_ctrlb_bound o ts : enc_inv o ts → 0 ≤ o_ctrlb (pglz_out_ctrl o) < 256.
Proof.
  intros Hi. unfold pglz_out_ctrl. destruct (_ =? _); [simpl; lia|].
  destruct Hi as [[-> _]|(gs & cur & _ & [_ Hc _ -> _ _])]; [simpl; lia|].
  pose proof (ctrl_of_bound cur). assert (2 ^ zlen cur ≤ 2 ^ 8) by (apply Z.pow_le_mono_r; unfold zlen; lia). lia.
Qed.

Lemma enc_literal o ts b : enc_inv o ts → is_byte b → enc_inv (pglz_out_literal o b) (ts ++ [Lit b]).
Proof.
  intros Hi Hb. pose proof (out_ctrlb_bound o ts Hi). apply (enc_inv_next o ts (Lit b)) in Hi. unfold next_ctrl in Hi.
  cbn [tok_bit Z.eqb tok_bytes] in Hi. rewrite Z.lor_0_r, u8_small in Hi by lia.
  unfold pglz_out_literal. rewrite (u8_small b) by (unfold is_byte in Hb; lia). done.
Qed.

Lemma enc_tag o ts len off : enc_inv o ts → enc_inv (pglz_out_tag o len off) (ts ++ [Match len off]).
Proof. apply (enc_inv_next o ts (Match len off)). Qed.

Lemma full_groups_ok gs cur : Forall (λ g, length g = 8%nat) gs → (1 ≤ length cur ≤ 8)%nat → groups_ok (gs ++ [cur]).
Proof.
  intros Hf Hc. induction Hf as [|g gs Hg Hf IH]; simpl; [auto|]. split_and!; [lia|lia|by right|done].
Qed.

(** What the compressor has written decodes to what its tokens mean. *)
Lemma enc_decompress o ts :
  enc_inv o ts → ts ≠ [] → toks_ok [] ts →
  pglz_decompress (put_ctrl o) (zlen (expand [] ts)) true = Ok (Some (expand [] ts)).
Proof.
  intros [[_ ->]|(gs & cur & -> & He)] Hne Hok; [done|]. rewrite (enc_put_ctrl o gs cur He).
  assert (E : concat gs ++ cur = concat (gs ++ [cur])) by (rewrite concat_app; simpl; by rewrite app_nil_r).
  rewrite E in *. apply decompress_groups; [|done]. destruct He. by apply full_groups_ok.
Qed.

(** ** The history table *)

Lemma hent_insert he k e j : hent (<[k := e]> he) j = if decide (k = j) then e else hent he j.
Proof. unfold hent. case_decide; [subst; by rewrite lookup_insert_eq|by rewrite lookup_insert_ne]. Qed.
Lemma start_insert s k e j : start_at (<[k := e]> s) j = if decide (k = j) then e else start_at s j.
Proof. unfold start_at. case_decide; [subst; by rewrite lookup_insert_eq|by rewrite lookup_insert_ne]. Qed.

(** The lists are doubly linked, each holds the entries of one hash key, and
    positions decrease along them and lie before [dp].  [used] are the entries
    written in this call. *)
Record hist_ok (s : gmap Z Z) (he : gmap Z PGLZ_HistEntry) (used : Z → Prop) (dp : Z) : Prop := {
  ho_zero k : used k → k ≠ 0;
  ho_start h : start_at s h = 0 ∨
    (used (start_at s h) ∧ h_prev (hent he (start_at s h)) = None ∧ hindex (hent he (start_at s h)) = h);
  ho_next k : used k → ∃ j, h_next (hent he k) = Some j ∧
    (j = 0 ∨ (used j ∧ h_prev (hent he j) = Some k ∧ h_pos (hent he j) < h_pos (hent he k) ∧
              hindex (hent he j) = hindex (hent he k)));
  ho_none k : used k → h_prev (hent he k) = None → start_at s (hindex (hent he k)) = k;
  ho_some k q : used k → h_prev (hent he k) = Some q → used q ∧ h_next (hent he q) = Some k;
  ho_pos k : used k → 0 ≤ h_pos (hent he k) < dp }.

Lemma hist_ok_ext s he used used' dp :
  (∀ k, used k ↔ used' k) → hist_ok s he used dp → hist_ok s he used' dp.
Proof.
  intros He [H0 H1 H2 H3 H4 H5]. constructor.
  - intros k Hk. apply H0. by apply He.
  - intros h. rewrite <-He. apply H1.
  - intros k Hk. destruct (H2 k) as (j & ? & Hj); [by apply He|]. exists j. by rewrite <-He.
  - intros k Hk. apply H3. by apply He.
  - intros k q Hk. rewrite <-He. apply H4. by apply He.
  - intros k Hk. apply H5. by apply He.
Qed.

Ltac hist_simpl :=
  repeat (rewrite hent_insert || rewrite start_insert);
  repeat (case_decide; subst; cbn [set_prev set_next h_next h_prev hindex h_pos] in *; try congruence; try done).

Lemma hist_link_ok s he used n hx dp :
  hist_ok s he used dp → ¬ used n → n ≠ 0 → 0 ≤ dp →
  hist_ok (fst (hist_link s he n hx dp)) (snd (hist_link s he n hx dp)) (λ k, used k ∨ k = n) (dp + 1).
Proof.
  intros [H0 H1 H2 H3 H4 H5] Hn Hnz Hdp. unfold hist_link. cbn [fst snd].
  set (j0 := start_at s hx).
  assert (Hj0 : j0 ≠ n) by (destruct (H1 hx) as [E|[E _]]; fold j0 in E; congruence).
  assert (Hused : ∀ k, used k → k ≠ n) by (intros k Hk ->; done).
  assert (Hj0p : used j0 → h_prev (hent he j0) = None ∧ hindex (hent he j0) = hx).
  { intros Hu. destruct (H1 hx) as [E|(_ & ? & ?)]; [|done]. destruct (H0 j0 Hu). done. }
  constructor.
  - intros k [Hk| ->]; auto.
  - intros h. rewrite start_insert. case_decide as Eh; [right|].
    + split; [by right|]. hist_simpl.
    + destruct (H1 h) as [E|(Hu & Hp & Hi)]; [by left|right]. split; [by left|].
      destruct (decide (j0 = start_at s h)) as [Ej|]; [destruct (Hj0p ltac:(by rewrite Ej)); congruence|].
      pose proof (Hused _ Hu). rewrite !hent_insert. repeat case_decide; try congruence; done.
  - intros k [Hk| ->].
    + destruct (H2 k Hk) as (j & Hj & Hc). pose proof (Hused k Hk). exists j.
      assert (j = 0 ∨ j ≠ j0 ∧ j ≠ n) as Hjj.
      { destruct Hc as [->|(Hu & Hp & _)]; [by left|right]. split; [|auto].
        intros ->. destruct (Hj0p Hu). congruence. }
      split.
      * rewrite !hent_insert. repeat case_decide; subst; cbn [set_prev h_next]; try congruence; done.
      * destruct Hc as [->|(Hu & Hp & Hlt & Hi)]; [by left|right]. pose proof (H0 j Hu).
        destruct Hjj as [|[? ?]]; [done|]. split; [by left|]. rewrite !hent_insert.
        repeat case_decide; subst; cbn [set_prev h_next h_prev hindex h_pos]; try congruence; done.
    + exists j0. split; [rewrite !hent_insert; repeat case_decide; try congruence; done|].
      destruct (H1 hx) as [E|(Hu & Hp & Hi)]; [by left|right]. fold j0 in Hu, Hp, Hi.
      pose proof (H5 j0 Hu). split; [by left|].
      rewrite !hent_insert. repeat case_decide; try congruence. cbn [set_prev h_next h_prev hindex h_pos].
      split_and!; [done|lia|done].
  - intros k Hk Hp. rewrite !hent_insert in *. rewrite start_insert.
    destruct (decide (j0 = k)) as [Ek|Ek]; [by cbn in Hp|].
    destruct (decide (n = k)) as [->|Ek']; [cbn; rewrite decide_True by done; done|].
    destruct Hk as [Hk|Hk]; [|congruence]. pose proof (H3 k Hk Hp) as Hs.
    case_decide as E; [|done]. rewrite <-E in Hs. fold j0 in Hs. congruence.
  - intros k q Hk Hp. rewrite !hent_insert in Hp.
    destruct (decide (j0 = k)) as [Ek|Ek].
    + cbn in Hp. injection Hp as <-. split; [by right|]. rewrite !hent_insert. repeat case_decide; cbn; congruence.
    + destruct (decide (n = k)) as [Ek'|Ek']; [done|]. destruct Hk as [Hk|Hk]; [|congruence].
      destruct (H4 k q Hk Hp) as [Hq Hqn]. split; [by left|]. pose proof (Hused q Hq). rewrite !hent_insert.
      repeat case_decide; subst; cbn; try congruence; done.
  - intros k Hk. rewrite !hent_insert. destruct Hk as [Hk| ->].
    + pose proof (H5 k Hk). pose proof (Hused k Hk).
      repeat case_decide; subst; cbn; try congruence; lia.
    + repeat case_decide; cbn; try congruence; lia.
Qed.

Lemma hist_unlink_ok s he used n dp :
  hist_ok s he used dp → used n →
  ∃ s' he', hist_unlink s he n = Ok (s', he') ∧ hist_ok s' he' (λ k, used k ∧ k ≠ n) dp.
Proof.
  intros [H0 H1 H2 H3 H4 H5] Hn. destruct (H2 n Hn) as (j & Hj & Hjc).
  assert (Hjn : j ≠ n) by (destruct Hjc as [->|(_ & _ & ? & _)]; [intros <-; by destruct (H0 0)|intros ->; lia]).
  unfold hist_unlink. destruct (h_prev (hent he n)) as [q|] eqn:Hq.
  - destruct (H4 n q Hn Hq) as [Hqu Hqn]. destruct (H2 q Hqu) as (n' & Hn' & Hqc).
    rewrite Hqn in Hn'. injection Hn' as <-.
    assert (Hqc' : h_pos (hent he n) < h_pos (hent he q) ∧ hindex (hent he n) = hindex (hent he q) ∧ q ≠ n).
    { destruct Hqc as [E|(_ & _ & ? & ?)]; [by destruct (H0 n)|]. split_and!; [done|done|]. intros ->. lia. }
    destruct Hqc' as (Hpq & Hiq & Hnq). clear Hqc. cbn [mbind res_bind].
    assert (Hjq : j ≠ q) by (destruct Hjc as [->|(? & _ & ? & _)]; [intros <-; by destruct (H0 0)|intros ->; lia]).
    rewrite Hj. rewrite !hent_insert. destruct (decide (q = n)); [done|]. rewrite Hj, Hq.
    destruct (decide (q = j)); [congruence|].
    eexists _, _. split; [done|]. constructor.
    + intros k [Hk _]. auto.
    + intros h. destruct (H1 h) as [E|(Hu & Hp & Hi)]; [by left|right].
      assert (start_at s h ≠ n) by (intros E; rewrite E in Hp; congruence).
      split; [done|]. rewrite !hent_insert. destruct (decide (j = start_at s h)) as [E|].
      * destruct Hjc as [->|(_ & Hpj & _)]; [by destruct (H0 _ Hu)|]. rewrite <-E in Hp. congruence.
      * destruct (decide (q = start_at s h)) as [E|]; [|done]. subst q. cbn. done.
    + intros k [Hk Hkn]. destruct (H2 k Hk) as (i & Hi & Hic).
      destruct (decide (k = q)) as [->|Hkq].
      * exists j. rewrite !hent_insert. rewrite decide_False, decide_True by congruence. cbn [set_next h_next].
        split; [done|]. destruct Hjc as [->|(Hju & Hjp & Hjpos & Hji)]; [by left|right]. split; [done|].
        rewrite decide_True by done. destruct (decide (q = j)); [congruence|]. cbn. split_and!; [done|lia|congruence].
      * assert (i ≠ n) by (intros ->; destruct Hic as [E|(_ & E & _)]; [by destruct (H0 n)|congruence]).
        assert (i = 0 ∨ i ≠ j) as Hij.
        { destruct Hic as [->|(Hu & E & _)]; [by left|right]. intros ->.
          destruct Hjc as [->|(_ & E' & _)]; [by destruct (H0 0)|congruence]. }
        exists i. split; [rewrite !hent_insert; repeat case_decide; subst; cbn; congruence|].
        destruct Hic as [->|(Hu & Hp & Hlt & Hix)]; [by left|right]. split; [done|].
        destruct Hij as [->|Hij]; [by destruct (H0 0)|]. rewrite !hent_insert.
        repeat case_decide; subst; cbn; congruence || (split_and!; done || congruence).
    + intros k [Hk Hkn]. rewrite !hent_insert.
      destruct (decide (j = k)) as [->|]; [done|]. destruct (decide (q = k)) as [->|]; cbn; intros Hp; by apply H3.
    + intros k x [Hk Hkn]. rewrite !hent_insert. destruct (decide (j = k)) as [->|Hjk].
      * cbn. intros [= <-]. split; [done|]. rewrite decide_False, decide_True by congruence. cbn. done.
      * intros Hp. assert (Hp' : h_prev (hent he k) = Some x) by (destruct (decide (q = k)) as [->|]; done).
        destruct (H4 k x Hk Hp') as [Hx Hxn].
        assert (x ≠ n) by (intros ->; congruence). split; [done|].
        repeat case_decide; subst; cbn; congruence.
    + intros k [Hk _]. pose proof (H5 k Hk). rewrite !hent_insert. repeat case_decide; subst; cbn; done.
  - rewrite Hj. cbn [mbind res_bind]. rewrite Hj, Hq. eexists _, _. split; [done|].
    pose proof (H3 n Hn Hq) as Hsn. constructor.
    + intros k [Hk _]. auto.
    + intros h. rewrite start_insert. case_decide as Eh.
      * destruct Hjc as [->|(Hju & Hjp & Hjpos & Hji)]; [by left|right].
        rewrite hent_insert, decide_True by done. cbn. split_and!; [done|done|done|congruence].
      * destruct (H1 h) as [E|(Hu & Hp & Hi)]; [by left|right].
        assert (start_at s h ≠ n) by (intros E; rewrite E in Hi; congruence).
        split; [done|]. rewrite hent_insert. destruct (decide (j = start_at s h)) as [E|]; [|done].
        destruct Hjc as [->|(_ & Hpj & _)]; [by destruct (H0 _ Hu)|]. rewrite <-E in Hp. congruence.
    + intros k [Hk Hkn]. destruct (H2 k Hk) as (i & Hi & Hic).
      assert (i ≠ n) by (intros ->; destruct Hic as [E|(_ & E & _)]; [by destruct (H0 n)|congruence]).
      exists i. split; [rewrite hent_insert; case_decide; subst; cbn; done|].
      destruct Hic as [->|(Hu & Hp & Hlt & Hix)]; [by left|right]. split; [done|].
      assert (j ≠ i).
      { intros ->. destruct Hjc as [->|(_ & E' & _)]; [by destruct (H0 0)|congruence]. }
      rewrite !hent_insert. repeat case_decide; subst; cbn; congruence || (split_and!; done || congruence).
    + intros k [Hk Hkn]. rewrite !hent_insert, start_insert. destruct (decide (j = k)) as [->|].
      * cbn. destruct Hjc as [->|(_ & _ & _ & Hji)]; [by destruct (H0 0)|]. intros _. by rewrite decide_True.
      * intros Hp. pose proof (H3 k Hk Hp). case_decide as E; [|done]. rewrite E in Hsn. congruence.
    + intros k x [Hk Hkn]. rewrite !hent_insert. destruct (decide (j = k)) as [->|Hjk]; [done|].
      intros Hp. destruct (H4 k x Hk Hp) as [Hx Hxn]. assert (x ≠ n) by (intros ->; congruence). split; [done|].
      destruct (decide (j = x)) as [->|]; [cbn; done|done].
    + intros k [Hk _]. pose proof (H5 k Hk). rewrite !hent_insert. repeat case_decide; subst; cbn; done.
Qed.

Definition hist_used (h : history) (k : Z) : Prop :=
  1 ≤ k ≤ PGLZ_HISTORY_SIZE ∧ (hist_recycle h = true ∨ k < hist_next h).

Record hist_inv (h : history) (dp : Z) : Prop := {
  hi_next : 1 ≤ hist_next h ≤ PGLZ_HISTORY_SIZE;
  hi_ok : hist_ok (hist_start h) (hist_entries h) (hist_used h) dp }.

Lemma hist_inv_init entries : hist_inv (mkHistory ∅ entries 1 false) 0.
Proof.
  assert (Hn : ∀ k, ¬ hist_used (mkHistory ∅ entries 1 false) k) by (intros k [? [?|?]]; simpl in *; lia || done).
  split; [simpl; unfold PGLZ_HISTORY_SIZE; lia|]. constructor; try (intros; exfalso; by eapply Hn).
  intros h. left. unfold start_at. simpl. by rewrite lookup_empty.
Qed.

Lemma hist_add_ok src mask h dp :
  hist_inv h dp → 0 ≤ dp → ∃ h', pglz_hist_add src mask h dp = Ok h' ∧ hist_inv h' (dp + 1).
Proof.
  intros [Hn Hok] Hdp. unfold pglz_hist_add. set (n := hist_next h) in *.
  assert (Hu : ∃ s he, (if hist_recycle h then hist_unlink (hist_start h) (hist_entries h) n
      else Ok (hist_start h, hist_entries h)) = Ok (s, he) ∧ hist_ok s he (λ k, hist_used h k ∧ k ≠ n) dp).
  { destruct (hist_recycle h) eqn:Er.
    - apply hist_unlink_ok; [done|]. split; [done|by left].
    - eexists _, _. split; [done|]. eapply hist_ok_ext; [|exact Hok]. intros k. split; [|tauto].
      intros Hk. split; [done|]. destruct Hk as [_ [?|?]]; [congruence|unfold n; lia]. }
  destruct Hu as (s & he & -> & Hs). cbn [mbind res_bind].
  pose proof (hist_link_ok s he _ n (pglz_hist_idx src dp mask) dp Hs ltac:(tauto) ltac:(lia) Hdp) as Hl.
  destruct (hist_link _ _ _ _ _) as [s' he']. cbn [fst snd] in Hl.
  destruct (Z.leb_spec (PGLZ_HISTORY_SIZE + 1) (n + 1)); eexists; (split; [done|]); split; simpl; try (unfold PGLZ_HISTORY_SIZE in *; lia).
  - eapply hist_ok_ext; [|exact Hl]. intros k. unfold hist_used. simpl.
    split; [intros [[[? _] _]| ->]; split; [done|by left|lia|by left]|].
    intros [Hk _]. destruct (decide (k = n)) as [->|]; [by right|left]. split; [|done]. split; [done|]. right. unfold n in *. lia.
  - eapply hist_ok_ext; [|exact Hl]. intros k. unfold hist_used. simpl.
    split; [intros [[[? [?|?]] _]| ->]; (split; [lia|]); [by left|right; lia|right; lia]|].
    intros [Hk Hc]. destruct (decide (k = n)) as [->|]; [by right|left]. split; [|done]. split; [done|].
    destruct Hc; [by left|right; unfold n in *; lia].
Qed.

Lemma hist_add_run_ok src mask n : ∀ h dp,
  hist_inv h dp → 0 ≤ dp → ∃ h', hist_add_run src mask h dp n = Ok h' ∧ hist_inv h' (dp + Z.of_nat n).
Proof.
  induction n as [|n IH]; intros h dp Hi Hd; cbn [hist_add_run].
  - exists h. by rewrite Z.add_0_r.
  - destruct (hist_add_ok src mask h dp Hi Hd) as (h1 & -> & H1). cbn [mbind res_bind].
    destruct (IH h1 (dp + 1) H1 ltac:(lia)) as (h2 & -> & H2). exists h2. split; [done|].
    by replace (dp + Z.of_nat (S n)) with (dp + 1 + Z.of_nat n) by lia.
Qed.

(** ** Finding a match *)

(** The [len] bytes at [input] are those at [hp]. *)
Definition matches (src : list Z) (input hp len : Z) : Prop :=
  input + len ≤ zlen src ∧ ∀ i, 0 ≤ i < len → byte_at src (input + i) = byte_at src (hp + i).

Lemma count_match_ok src input hp n : ∀ t,
  0 ≤ t → matches src input hp t → 
  t ≤ count_match src (input + t) (hp + t) t n ≤ t + Z.of_nat n ∧
  matches src input hp (count_match src (input + t) (hp + t) t n).
Proof.
  induction n as [|n IH]; intros t Ht Hm; cbn [count_match]; [split; [lia|done]|].
  destruct (_ && _) eqn:E; [|split; [lia|done]]. b2p.
  replace (input + t + 1) with (input + (t + 1)) by lia. replace (hp + t + 1) with (hp + (t + 1)) by lia.
  destruct (IH (t + 1)) as [Hr Hm']; [lia| |split; [lia|done]].
  destruct Hm as [H1 H2]. split; [lia|]. intros i Hi. destruct (decide (i = t)) as [->|]; [done|]. apply H2. lia.
Qed.

Lemma mread_byte_at src o l i : 0 ≤ o → 0 ≤ i < l → o + l ≤ zlen src →
  mread src o l !!! Z.to_nat i = byte_at src (o + i).
Proof.
  intros. unfold byte_at. rewrite !list_lookup_total_alt. f_equal. rewrite mread_lookup by lia.
  rewrite decide_True by lia. f_equal. lia.
Qed.

Lemma this_match_ok src input hp len :
  0 ≤ hp ≤ input → 0 ≤ len ≤ PGLZ_MAX_MATCH → input + len ≤ zlen src →
  0 ≤ this_match src input hp len ≤ PGLZ_MAX_MATCH ∧ matches src input hp (this_match src input hp len).
Proof.
  intros Hhp Hlen Hin. unfold this_match, PGLZ_MAX_MATCH in *.
  assert (H0 : matches src input hp 0) by (split; [lia|intros; lia]).
  destruct (Z.leb_spec 16 len).
  - case_bool_decide as E; [|split; [lia|done]].
    assert (Hm : matches src input hp len).
    { split; [lia|]. intros i Hi. rewrite <-(mread_byte_at src input len), <-(mread_byte_at src hp len) by lia. by rewrite E. }
    destruct (count_match_ok src input hp (Z.to_nat (273 - len)) len ltac:(lia) Hm). split; [lia|done].
  - destruct (count_match_ok src input hp (Z.to_nat 273) 0 ltac:(lia) H0) as [Hr Hm]. rewrite !Z.add_0_r in *. split; [lia|done].
Qed.

Definition best_ok (src : list Z) (input len off : Z) : Prop :=
  0 ≤ len ≤ PGLZ_MAX_MATCH ∧ input + len ≤ zlen src ∧
  (0 < len → 1 ≤ off < 0xfff ∧ off ≤ input ∧ matches src input (input - off) len).

Lemma find_loop_ok src s he used input drop fuel : ∀ hentno len off good,
  hist_ok s he used input → best_ok src input len off →
  (hentno ≠ 0 → used hentno ∧ 1 ≤ Z.of_nat fuel ∧ h_pos (hent he hentno) - input + 4096 ≤ Z.of_nat fuel) →
  ∃ len' off', find_loop fuel src he input hentno len off good drop = Ok (len', off') ∧ best_ok src input len' off'.
Proof.
  induction fuel as [|fuel IH]; intros hentno len off good Hh Hb Hf; cbn [find_loop]; unfold INVALID_ENTRY;
    (destruct (Z.eqb_spec hentno 0) as [E|E]; [by eauto|]).
  { specialize (Hf E). lia. }
  destruct (Hf E) as (Hu & _ & Hpos). pose proof (ho_pos _ _ _ _ Hh _ Hu) as Hp. cbv zeta.
  set (hp := h_pos (hent he hentno)) in *. destruct (Z.leb_spec 0xfff (input - hp)); [by eauto|].
  destruct Hb as (Hl1 & Hl2 & Hl3).
  destruct (this_match_ok src input hp len ltac:(lia) Hl1 Hl2) as [Ht1 Ht2].
  set (tl := this_match src input hp len) in *.
  assert (Hb' : ∀ l o, (if len <? tl then (tl, input - hp) else (len, off)) = (l, o) → best_ok src input l o).
  { intros l o. destruct (Z.ltb_spec len tl); intros [= <- <-].
    - split_and!; [lia|lia|apply Ht2|]. intros _. replace (input - (input - hp)) with hp by lia. split_and!; [lia|lia|lia|done].
    - split_and!; done || lia. }
  destruct (if len <? tl then _ else _) as [l o] eqn:Elo. specialize (Hb' l o eq_refl).
  destruct (ho_next _ _ _ _ Hh _ Hu) as (j & -> & Hj).
  destruct (_ && _); [by eauto|]. apply IH; [done|done|]. intros Hj0.
  destruct Hj as [|(Hju & _ & Hjp & _)]; [done|]. fold hp in Hjp. split_and!; [done|lia|lia].
Qed.

Lemma find_match_ok src h input good drop mask :
  hist_inv h input → 0 ≤ input ≤ zlen src →
  ∃ r, pglz_find_match src h input good drop mask = Ok r ∧
    ∀ len off, r = Some (len, off) → 3 ≤ len ≤ PGLZ_MAX_MATCH ∧ 1 ≤ off < 0xfff ∧ off ≤ input ∧ matches src input (input - off) len.
Proof.
  intros [_ Hh] Hin. unfold pglz_find_match.
  destruct (find_loop_ok src _ _ _ input drop (Z.to_nat PGLZ_HISTORY_SIZE)
    (start_at (hist_start h) (pglz_hist_idx src input mask)) 0 0 good Hh) as (len & off & -> & Hb).
  { split_and!; unfold PGLZ_MAX_MATCH; try lia. }
  { intros Hs. destruct (ho_start _ _ _ _ Hh (pglz_hist_idx src input mask)) as [E|(Hu & _)]; [done|].
    pose proof (ho_pos _ _ _ _ Hh _ Hu). unfold PGLZ_HISTORY_SIZE. split_and!; [done|lia|lia]. }
  cbn [mbind res_bind]. destruct Hb as (H1 & H2 & H3). destruct (Z.ltb_spec 2 len); eexists; (split; [done|]); [|done].
  intros l o [= <- <-]. destruct (H3 ltac:(lia)). split_and!; lia || tauto.
Qed.

(** A match as a token extends the decoded prefix. *)
Lemma match_extends src dp off len :
  0 ≤ dp → 0 ≤ len → 1 ≤ off ≤ dp → matches src dp (dp - off) len →
  lz_copy (take (Z.to_nat dp) src) (Z.to_nat off) (Z.to_nat len) = take (Z.to_nat (dp + len)) src.
Proof.
  intros Hdp Hl Ho [Hend Hm]. unfold zlen in *.
  assert (Ht : length (take (Z.to_nat dp) src) = Z.to_nat dp) by (rewrite length_take; lia).
  eapply extends_unique; [|apply lz_copy_extends; lia|]; [lia|]. constructor; rewrite ?Ht.
  - rewrite length_take. lia.
  - intros i Hi. rewrite !lookup_take_lt by lia. done.
  - rewrite length_take. intros i Hi. rewrite !lookup_take_lt by lia.
    specialize (Hm (Z.of_nat i - dp) ltac:(lia)). unfold byte_at in Hm.
    replace (Z.to_nat (dp + (Z.of_nat i - dp))) with i in Hm by lia.
    replace (Z.to_nat (dp - off + (Z.of_nat i - dp))) with (i - Z.to_nat off)%nat in Hm by lia.
    rewrite !list_lookup_lookup_total_lt by lia. by rewrite Hm.
Qed.

(** ** The main loop *)

Definition comp_inv (src : list Z) (o : out_state) (dp : Z) : Prop :=
  ∃ ts, enc_inv o ts ∧ toks_ok [] ts ∧ expand [] ts = take (Z.to_nat dp) src.

Lemma comp_inv_literal src o dp : Forall is_byte src → 0 ≤ dp < zlen src → comp_inv src o dp →
  comp_inv src (pglz_out_literal o (byte_at src dp)) (dp + 1).
Proof.
  intros Hb Hdp (ts & He & Hok & Hex). unfold zlen in *.
  assert (Hlk : src !! Z.to_nat dp = Some (byte_at src dp)) by (apply list_lookup_lookup_total_lt; lia).
  assert (is_byte (byte_at src dp)) by (by eapply Forall_lookup_1).
  exists (ts ++ [Lit (byte_at src dp)]). split_and!; [by apply enc_literal| |].
  - apply toks_ok_app. simpl. done.
  - rewrite expand_app, Hex. simpl. replace (Z.to_nat (dp + 1)) with (S (Z.to_nat dp)) by lia. by rewrite (take_S_r _ _ _ Hlk).
Qed.

Lemma comp_inv_match src o dp len off : 0 ≤ dp → 3 ≤ len ≤ PGLZ_MAX_MATCH → 1 ≤ off < 0xfff → off ≤ dp →
  matches src dp (dp - off) len → comp_inv src o dp → comp_inv src (pglz_out_tag o len off) (dp + len).
Proof.
  intros Hdp Hl Ho Hod Hm (ts & He & Hok & Hex). pose proof Hm as [Hend _]. exists (ts ++ [Match len off]).
  split_and!; [by apply enc_tag| |].
  - apply toks_ok_app. simpl. rewrite Hex. split_and!; try lia; try done.
    unfold zlen in *. rewrite length_take. lia.
  - rewrite expand_app, Hex. apply match_extends; lia || done.
Qed.

Lemma compress_loop_ok src first rmax good drop mask fuel : ∀ o h dp found,
  Forall is_byte src → 0 ≤ dp ≤ zlen src → zlen src - dp ≤ Z.of_nat fuel → hist_inv h dp → comp_inv src o dp →
  ∃ r h', compress_loop fuel src first rmax good drop mask o h dp found = Ok (r, h') ∧
    ∀ o', r = Some o' → comp_inv src o' (zlen src).
Proof.
  induction fuel as [|fuel IH]; intros o h dp found Hb Hdp Hf Hh Hc; cbn [compress_loop];
    (destruct (Z.leb_spec (zlen src) dp) as [Hge|Hlt];
     [eexists _, _; split; [done|]; intros o' [= <-]; by replace (zlen src) with dp by lia|]); [lia|].
  destruct (rmax <=? _); [eexists _, _; by split|].
  destruct (negb found && _); [eexists _, _; by split|].
  destruct (find_match_ok src h dp good drop mask Hh ltac:(lia)) as (r & -> & Hr). cbn [mbind res_bind].
  destruct r as [[len off]|].
  - destruct (Hr len off eq_refl) as (H1 & H2 & H3 & H4). pose proof H4 as [Hend _].
    destruct (hist_add_run_ok src mask (Z.to_nat len) h dp Hh ltac:(lia)) as (h1 & -> & Hh1). cbn [mbind res_bind].
    rewrite Z2Nat.id in Hh1 by lia. apply IH; [done|lia|lia|done|]. apply comp_inv_match; done || lia.
  - destruct (hist_add_ok src mask h dp Hh ltac:(lia)) as (h1 & -> & Hh1). cbn [mbind res_bind].
    apply IH; [done|lia|lia|done|]. apply comp_inv_literal; done || lia.
Qed.

Lemma comp_result_max_le slen rate : 0 ≤ slen → 0 ≤ rate ≤ 99 → comp_result_max slen rate ≤ slen.
Proof.
  intros Hs Hr. unfold comp_result_max. zcase.
  - pose proof (Z.mul_div_le slen 100 ltac:(lia)). pose proof (Z.div_pos slen 100 ltac:(lia) ltac:(lia)). nia.
  - transitivity (slen * 100 / 100); [apply Z.div_le_mono; nia|]. rewrite Z.div_mul by lia. lia.
Qed.

Lemma clamp_range lo hi x : lo ≤ hi → lo ≤ clamp lo hi x ≤ hi.
Proof. intros. unfold clamp. zcase; lia. Qed.

Lemma compress_decompress entries src strategy :
  Forall is_byte src →
  ∃ r entries', pglz_compress entries src strategy = Ok (r, entries') ∧
    ∀ out, r = Some out → zlen out < zlen src ∧ pglz_decompress out (zlen src) true = Ok (Some src).
Proof.
  intros Hb. unfold pglz_compress. cbv zeta. destruct (_ || _ || _); [eexists _, _; by split|].
  set (rmax := comp_result_max _ _).
  assert (Hmax : rmax ≤ zlen src) by (apply comp_result_max_le; [apply zlen_nonneg|apply clamp_range; lia]).
  destruct (compress_loop_ok src (first_success_by strategy) rmax (clamp 17 PGLZ_MAX_MATCH (match_size_good strategy))
    (clamp 0 100 (match_size_drop strategy)) (comp_hashsz (zlen src) - 1) (length src)
    (mkOut [] None 0 0) (mkHistory ∅ entries 1 false) 0 false) as (r & h' & -> & Hr);
    [done|unfold zlen; lia|unfold zlen; lia|apply hist_inv_init| |].
  { exists []. split_and!; [by left|done|done]. }
  cbn [mbind res_bind]. destruct r as [o|]; [|eexists _, _; by split].
  destruct (Z.leb_spec rmax (zlen (o_buf o))); [eexists _, _; by split|]. eexists _, _. split; [done|].
  intros out [= <-]. destruct (Hr o eq_refl) as (ts & He & Hok & Hex).
  unfold zlen in Hex. rewrite Nat2Z.id, firstn_all in Hex.
  split; [unfold zlen at 1; rewrite put_ctrl_length; fold (zlen (o_buf o)); lia|]. rewrite <-Hex. apply enc_decompress; [done| |done]. intros ->. simpl in Hex. subst src.
  change (zlen (@nil Z)) with 0 in *. pose proof (zlen_nonneg (o_buf o)). lia.
Qed.

(** ** Claims *)

(** C7: PGLZ round trip.  [pglz_compress] always returns (its history lists
    stay acyclic, no entry is read before it was written, whatever the static
    history entries held before), and when it reports success the output is
    shorter than the input and [pglz_decompress] with the completeness check
    gives the input back. *)
Theorem pglz_round_trip entries src strategy :
  Forall is_byte src →
  ∃ r entries', pglz_compress entries src strategy = Ok (r, entries') ∧
    ∀ out, r = Some out → zlen out < zlen src ∧ pglz_decompress out (zlen src) true = Ok (Some src).
Proof. apply compress_decompress. Qed.

Definition sample_text : list Z := concat (replicate 20 [104; 101; 108; 108; 111; 32]).

Lemma pglz_round_trip_witness :
  match pglz_compress ∅ sample_text PGLZ_strategy_default with
  | Ok (Some out, _) => pglz_decompress out (zlen sample_text) true = Ok (Some sample_text)
  | _ => False
  end.
Proof.
  assert (Hs : match pglz_compress ∅ sample_text PGLZ_strategy_default with Ok (Some _, _) => true | _ => false end = true)
    by (vm_compute; reflexivity).
  destruct (pglz_round_trip ∅ sample_text PGLZ_strategy_default) as (r & e' & He & Hr); [repeat constructor; done|].
  rewrite He in Hs |- *. destruct r as [out|]; [|discriminate Hs]. exact (proj2 (Hr out eq_refl)).
Defined.

(** The copy of a match in doubling chunks is the byte-by-byte copy of
    the format, for every offset from 1 up to the bytes written so far, with
    source and destination overlapping or not. *)
Theorem pglz_copy_bytewise out off len :
  1 ≤ off ≤ zlen out → 0 ≤ len →
  pglz_copy (Z.to_nat len) out off len = Ok (lz_copy out (Z.to_nat off) (Z.to_nat len)).
Proof. apply pglz_copy_lz. Qed.

Lemma pglz_copy_bytewise_witness :
  pglz_copy 16 [1; 1; 2; 3; 4] 4 16 = Ok [1; 1; 2; 3; 4; 1; 2; 3; 4; 1; 2; 3; 4; 1; 2; 3; 4; 1; 2; 3; 4].
Proof. apply (pglz_copy_bytewise [1; 1; 2; 3; 4] 4 16); [vm_compute; done|lia]. Defined.

(** A match with offset 0, which the compressor never writes but which a
    damaged record can contain, is not rejected: the copy loop makes no
    progress, so no number of iterations ends it. *)
Theorem pglz_zero_offset_loops fuel out len : 0 < len → pglz_copy fuel out 0 len = Err EFuel.
Proof. apply pglz_copy_zero. Qed.

Lemma pglz_zero_offset_loops_witness : pglz_copy 50 [1; 2; 3] 0 3 = Err EFuel.
Proof. apply (pglz_zero_offset_loops 50 [1; 2; 3] 3). lia. Defined.
