(* ===== verification/WalRecord.v ===== *)
(** * Decoded WAL records and the lookup of the page to redo

    [XLogReaderState] as a redo routine sees it: the header fields, the main
    data and the decoded block references.  The file models the accessors of
    [xlogreader.c], the restoring of full-page images, and
    [XLogReadBufferForRedoExtended] of [xlogutils.c] with its LSN interlock. *)

From S2P Require Import Prelude Mem Page PageAdd Checksum Buffer Pglz.

(** ** Records *)

Record DecodedBkpBlock : Type := mkBlk {
  in_use : bool;
  bkp_rnode : RelFileNode;
  bkp_forknum : Z;
  bkp_blkno : Z;
  bkp_flags : Z;
  has_image : bool;
  apply_image : bool;
  bkp_image : list Z;
  hole_offset : Z;
  hole_length : Z;
  bimg_info : Z;
  has_data : bool;
  bkp_data : list Z }.

Record XLogReaderState : Type := mkRec {
  ReadRecPtr : Z;
  EndRecPtr : Z;
  xl_info : Z;
  xl_rmid : Z;
  xl_xid : Z;
  main_data : list Z;
  max_block_id : Z;
  blocks : list DecodedBkpBlock }.

Definition BKPBLOCK_WILL_INIT : Z := 0x40.
Definition BKPIMAGE_IS_COMPRESSED : Z := 0x02.
Definition XLR_INFO_MASK : Z := 0x0F.
Definition XLR_MAX_BLOCK_ID : Z := 32.

(** [record->blocks[block_id]], when it is in use. *)
Definition block_ref (r : XLogReaderState) (block_id : Z) : option DecodedBkpBlock :=
  match blocks r !! Z.to_nat block_id with
  | Some b => if in_use b then Some b else None
  | None => None
  end.

Definition XLogRecHasBlockRef (r : XLogReaderState) (block_id : Z) : bool :=
  bool_decide (is_Some (block_ref r block_id)).

Definition XLogRecGetBlockTag (r : XLogReaderState) (block_id : Z) : option BufferTag :=
  match block_ref r block_id with
  | Some b => Some (mkTag (bkp_rnode b) (bkp_forknum b) (bkp_blkno b))
  | None => None
  end.

(** [None] is the NULL pointer. *)
Definition XLogRecGetBlockData (r : XLogReaderState) (block_id : Z) : option (list Z) :=
  match block_ref r block_id with
  | Some b => if has_data b then Some (bkp_data b) else None
  | None => None
  end.

Definition XLogRecBlockImageApply (r : XLogReaderState) (block_id : Z) : bool :=
  match blocks r !! Z.to_nat block_id with Some b => apply_image b | None => false end.

(** [POLAR_GET_LOG_TAG]: PANIC on a missing block reference. *)
Definition POLAR_GET_LOG_TAG (r : XLogReaderState) (block_id : Z) : res BufferTag :=
  match XLogRecGetBlockTag r block_id with Some t => Ok t | None => Err EPanic end.

(** ** [RestoreBlockImage] *)

Definition fill_page (ptr : list Z) (hole_off hole_len : Z) : res page :=
  if hole_len =? 0 then load ptr 0 BLCKSZ
  else
    a ← load ptr 0 hole_off;
    b ← load ptr hole_off (BLCKSZ - (hole_off + hole_len));
    Ok (a ++ replicate (Z.to_nat hole_len) 0 ++ b).

(** The image of a block reference; [Ok None] is the return value [false]. *)
Definition restore_image (b : DecodedBkpBlock) : res (option page) :=
  if negb (has_image b) then Ok None else
  if has_flag (bimg_info b) BKPIMAGE_IS_COMPRESSED then
    d ← pglz_decompress (bkp_image b) (BLCKSZ - hole_length b) true;
    match d with
    | None => Ok None
    | Some tmp => p ← fill_page tmp (hole_offset b) (hole_length b); Ok (Some p)
    end
  else p ← fill_page (bkp_image b) (hole_offset b) (hole_length b); Ok (Some p).

Definition RestoreBlockImage (r : XLogReaderState) (block_id : Z) : res (option page) :=
  match block_ref r block_id with None => Ok None | Some b => restore_image b end.

(** ** [XLogReadBufferForRedoExtended] *)

Inductive XLogRedoAction : Type :=
| BLK_NEEDS_REDO
| BLK_DONE
| BLK_RESTORED
| BLK_NOTFOUND.

#[export] Instance XLogRedoAction_eq_dec : EqDecision XLogRedoAction.
Proof. solve_decision. Defined.

Definition XLogReadBufferForRedoExtended (st : dbstate) (r : XLogReaderState) (block_id : Z)
  (mode : ReadBufferMode) (get_cleanup_lock : bool) : res (dbstate * Buffer * XLogRedoAction) :=
  let lsn := EndRecPtr r in
  match block_ref r block_id with
  | None => Err EPanic
  | Some b =>
      let zeromode := mode_zero mode in
      let willinit := has_flag (bkp_flags b) BKPBLOCK_WILL_INIT in
      if willinit && negb zeromode then Err EPanic else
      if negb willinit && zeromode then Err EPanic else
      if XLogRecBlockImageApply r block_id then
        '(st, buf) ← XLogReadBufferExtended st (bkp_rnode b) (bkp_forknum b) (bkp_blkno b)
                       (if get_cleanup_lock then RBM_ZERO_AND_CLEANUP_LOCK else RBM_ZERO_AND_LOCK);
        img ← RestoreBlockImage r block_id;
        match img with
        | None => Err EError
        | Some p =>
            let p := if PageIsNew p then p else PageSetLSN p lsn in
            let st := buf_write st buf p in
            st ← (if bkp_forknum b =? INIT_FORKNUM then FlushOneBuffer st buf else Ok st);
            Ok (st, buf, BLK_RESTORED)
        end
      else
        '(st, buf) ← XLogReadBufferExtended st (bkp_rnode b) (bkp_forknum b) (bkp_blkno b) mode;
        if BufferIsValid buf then
          p ← BufferGetPage st buf;
          if lsn <=? PageGetLSN p then Ok (st, buf, BLK_DONE) else Ok (st, buf, BLK_NEEDS_REDO)
        else Ok (st, buf, BLK_NOTFOUND)
  end.

Definition XLogReadBufferForRedo (st : dbstate) (r : XLogReaderState) (block_id : Z)
  : res (dbstate * Buffer * XLogRedoAction) :=
  XLogReadBufferForRedoExtended st r block_id RBM_NORMAL false.

Definition XLogInitBufferForRedo (st : dbstate) (r : XLogReaderState) (block_id : Z)
  : res (dbstate * Buffer) :=
  '(st, buf, _) ← XLogReadBufferForRedoExtended st r block_id RBM_ZERO_AND_LOCK false;
  Ok (st, buf).

(** The macros of [polar_logindex.h]. *)
Definition POLAR_READ_BUFFER_FOR_REDO (st : dbstate) (r : XLogReaderState) (block_id : Z)
  : res (dbstate * Buffer * XLogRedoAction) :=
  XLogReadBufferForRedoExtended st r block_id RBM_NORMAL false.

Definition POLAR_INIT_BUFFER_FOR_REDO (st : dbstate) (r : XLogReaderState) (block_id : Z)
  (buffer : Buffer) : res (dbstate * Buffer) :=
  if negb (BufferIsValid buffer) then XLogInitBufferForRedo st r block_id else Ok (st, buffer).
