(* ===== verification/XLogInsert.v ===== *)
(** * Building WAL records: [xloginsert.c]

    The working area in which a caller registers buffers and data, and
    [XLogRecordAssemble], which turns it into the bytes of a record: a header
    per block reference, the header of the main data, then full-page images
    and data.  The data of a registered chunk and the contents of a registered
    page are those at the time the record is assembled; the assertions of the
    registration functions are not part of a production build. *)

From S2P Require Import Prelude Mem Page PageAdd Checksum Buffer Pglz WalRecord.

(** ** Constants of [xlogrecord.h] and [xloginsert.h] *)

Definition XLR_SPECIAL_REL_UPDATE : Z := 0x01.
Definition XLR_CHECK_CONSISTENCY : Z := 0x02.
Definition XLR_RMGR_INFO_MASK : Z := 0xF0.
Definition BKPBLOCK_FORK_MASK : Z := 0x0F.
Definition BKPBLOCK_HAS_IMAGE : Z := 0x10.
Definition BKPBLOCK_HAS_DATA : Z := 0x20.
Definition BKPBLOCK_SAME_REL : Z := 0x80.
Definition BKPIMAGE_HAS_HOLE : Z := 0x01.
Definition BKPIMAGE_APPLY : Z := 0x04.
Definition XLR_BLOCK_ID_DATA_SHORT : Z := 255.
Definition XLR_BLOCK_ID_DATA_LONG : Z := 254.
Definition XLR_BLOCK_ID_ORIGIN : Z := 253.
Definition SizeOfXLogRecord : Z := 24.
Definition REGBUF_FORCE_IMAGE : Z := 0x01.
Definition REGBUF_NO_IMAGE : Z := 0x02.
Definition REGBUF_WILL_INIT : Z := 0x06.
Definition REGBUF_STANDARD : Z := 0x08.
Definition REGBUF_KEEP_DATA : Z := 0x10.
Definition XLR_NORMAL_MAX_BLOCK_ID : Z := 4.
Definition XLR_NORMAL_RDATAS : Z := 20.
Definition XLOG_INCLUDE_ORIGIN : Z := 0x01.
Definition InvalidRepOriginId : Z := 0.
Definition MaxSizeOfXLogRecordBlockHeader : Z := 4 + 5 + 2 + 12 + 4.
Definition SizeOfXLogRecordDataHeaderLong : Z := 1 + 4.
Definition SizeOfXlogOrigin : Z := 2 + 1.
Definition HEADER_SCRATCH_SIZE : Z :=
  SizeOfXLogRecord + MaxSizeOfXLogRecordBlockHeader * (XLR_MAX_BLOCK_ID + 1) + SizeOfXLogRecordDataHeaderLong + SizeOfXlogOrigin.

(** ** The working area *)

Record registered_buffer : Type := mkReg {
  rb_in_use : bool;
  rb_flags : Z;
  rb_rnode : RelFileNode;
  rb_forkno : Z;
  rb_block : Z;
  rb_page : page;
  rb_data : list Z }.

Definition zero_regbuf : registered_buffer := mkReg false 0 (mkRel 0 0 0) 0 0 [] [].

(** [max_registered_buffers] is the length of the array. *)
Record insert_state : Type := mkIns {
  registered_buffers : list registered_buffer;
  max_registered_block_id : Z;
  mainrdata : list Z;
  num_rdatas : Z;
  max_rdatas : Z;
  curinsert_flags : Z;
  begininsert_called : bool }.

(** [InitXLogInsert] on a fresh process. *)
Definition InitXLogInsert : insert_state :=
  mkIns (replicate (Z.to_nat (XLR_NORMAL_MAX_BLOCK_ID + 1)) zero_regbuf) 0 [] 0 XLR_NORMAL_RDATAS 0 false.

Definition set_regbufs (s : insert_state) (mx : Z) (l : list registered_buffer) : insert_state :=
  mkIns l mx (mainrdata s) (num_rdatas s) (max_rdatas s) (curinsert_flags s) (begininsert_called s).

(** [XLogInsertAllowed] is a question about the server's state. *)
Definition XLogBeginInsert (allowed : bool) (s : insert_state) : res insert_state :=
  if negb allowed then Err EError else
  if begininsert_called s then Err EError else
  Ok (mkIns (registered_buffers s) (max_registered_block_id s) (mainrdata s) (num_rdatas s)
        (max_rdatas s) (curinsert_flags s) true).

Definition XLogEnsureRecordSpace (max_block_id ndatas : Z) (s : insert_state) : res insert_state :=
  let max_block_id := Z.max max_block_id XLR_NORMAL_MAX_BLOCK_ID in
  let ndatas := Z.max ndatas XLR_NORMAL_RDATAS in
  if XLR_MAX_BLOCK_ID <? max_block_id then Err EError else
  let nbuffers := max_block_id + 1 in
  let bufs := registered_buffers s in
  let bufs := bufs ++ replicate (Z.to_nat (nbuffers - zlen bufs)) zero_regbuf in
  Ok (mkIns bufs (max_registered_block_id s) (mainrdata s) (num_rdatas s) (Z.max (max_rdatas s) ndatas)
        (curinsert_flags s) (begininsert_called s)).

Definition unuse (b : registered_buffer) : registered_buffer :=
  mkReg false (rb_flags b) (rb_rnode b) (rb_forkno b) (rb_block b) (rb_page b) (rb_data b).

(** The loop writes to every entry below [max_registered_block_id]. *)
Definition XLogResetInsertion (s : insert_state) : res insert_state :=
  if zlen (registered_buffers s) <? max_registered_block_id s then Err EOob else
  let n := Z.to_nat (max_registered_block_id s) in
  Ok (mkIns ((unuse <$> take n (registered_buffers s)) ++ drop n (registered_buffers s)) 0 [] 0 (max_rdatas s) 0 false).

(** The buffer's tag and page are looked up by the caller here.  The bound is
    checked only for a block that raises [max_registered_block_id]; an entry outside
    of the array is written all the same. *)
Definition XLogRegisterBuffer (block_id : Z) (tag : BufferTag) (p : page) (flags : Z) (s : insert_state)
  : res insert_state :=
  if (max_registered_block_id s <=? block_id) && (zlen (registered_buffers s) <=? block_id) then Err EError else
  let mx := if max_registered_block_id s <=? block_id then block_id + 1 else max_registered_block_id s in
  if zlen (registered_buffers s) <=? block_id then Err EOob else
  Ok (set_regbufs s mx (<[Z.to_nat block_id := mkReg true flags (rnode tag) (forkNum tag) (blockNum tag) p []]>
                          (registered_buffers s))).

(** [max_registered_block_id] is raised before the bound is checked, so the
    error leaves it raised: the result is the state after the call and whether
    the call raised an error. *)
Definition XLogRegisterBlock (block_id : Z) (rn : RelFileNode) (forknum blknum : Z) (p : page) (flags : Z)
  (s : insert_state) : insert_state * bool :=
  let mx := if max_registered_block_id s <=? block_id then block_id + 1 else max_registered_block_id s in
  if zlen (registered_buffers s) <=? block_id then (set_regbufs s mx (registered_buffers s), true) else
  (set_regbufs s mx (<[Z.to_nat block_id := mkReg true flags rn forknum blknum p []]> (registered_buffers s)), false).

Definition XLogRegisterData (data : list Z) (s : insert_state) : res insert_state :=
  if max_rdatas s <=? num_rdatas s then Err EError else
  Ok (mkIns (registered_buffers s) (max_registered_block_id s) (mainrdata s ++ data) (num_rdatas s + 1)
        (max_rdatas s) (curinsert_flags s) (begininsert_called s)).

Definition XLogRegisterBufData (block_id : Z) (data : list Z) (s : insert_state) : res insert_state :=
  match registered_buffers s !! Z.to_nat block_id with
  | None => Err EOob
  | Some b =>
      if negb (rb_in_use b) then Err EError else
      if max_rdatas s <=? num_rdatas s then Err EError else
      let b := mkReg true (rb_flags b) (rb_rnode b) (rb_forkno b) (rb_block b) (rb_page b) (rb_data b ++ data) in
      Ok (mkIns (<[Z.to_nat block_id := b]> (registered_buffers s)) (max_registered_block_id s) (mainrdata s)
            (num_rdatas s + 1) (max_rdatas s) (curinsert_flags s) (begininsert_called s))
  end.

Definition XLogSetRecordFlags (flags : Z) (s : insert_state) : insert_state :=
  mkIns (registered_buffers s) (max_registered_block_id s) (mainrdata s) (num_rdatas s) (max_rdatas s)
    flags (begininsert_called s).

(** ** Full-page images *)

(** Settings: [doPageWrites], [wal_compression], the consistency check of the
    resource manager, the session's replication origin. *)
Record wal_conf : Type := mkWalConf {
  doPageWrites : bool;
  wal_compression : bool;
  wal_consistency_checking : bool;
  replorigin_session_origin : Z }.

(** The file defines [DISABLE_TORN_PAGE_WRITE_PROTECT], so the comparison of
    the page LSN with the redo pointer is not compiled: only a forced image is
    taken. *)
Definition needs_backup (c : wal_conf) (b : registered_buffer) : bool :=
  if has_flag (rb_flags b) REGBUF_FORCE_IMAGE then true
  else if has_flag (rb_flags b) REGBUF_NO_IMAGE then false
  else if negb (doPageWrites c) then false
  else false.

Definition needs_data (c : wal_conf) (b : registered_buffer) : bool :=
  if zlen (rb_data b) =? 0 then false
  else if has_flag (rb_flags b) REGBUF_KEEP_DATA then true
  else negb (needs_backup c b).

(** [(hole_offset, hole_length)]. *)
Definition page_hole (b : registered_buffer) : Z * Z :=
  if has_flag (rb_flags b) REGBUF_STANDARD then
    let lower := pd_lower (rb_page b) in
    let upper := pd_upper (rb_page b) in
    if (SizeOfPageHeaderData <=? lower) && (lower <? upper) && (upper <=? BLCKSZ)
    then (lower, upper - lower) else (0, 0)
  else (0, 0).

(** The page without its hole. *)
Definition skip_hole (p : page) (hole_off hole_len : Z) : list Z :=
  if hole_len =? 0 then p
  else mread p 0 hole_off ++ mread p (hole_off + hole_len) (BLCKSZ - (hole_off + hole_len)).

(** [None] is [false]: the image is stored as it is.  The static history of
    the compressor goes in and out. *)
Definition XLogCompressBackupBlock (e : gmap Z PGLZ_HistEntry) (p : page) (hole_off hole_len : Z)
  : res (option (list Z) * gmap Z PGLZ_HistEntry) :=
  let orig_len := BLCKSZ - hole_len in
  let extra_bytes := if negb (hole_len =? 0) then 2 else 0 in
  '(r, e) ← pglz_compress e (skip_hole p hole_off hole_len) PGLZ_strategy_default;
  match r with
  | Some out => if zlen out + extra_bytes <? orig_len then Ok (Some out, e) else Ok (None, e)
  | None => Ok (None, e)
  end.

(** ** [XLogRecordAssemble] *)

(** What the loop adds for one block reference: its header, and the data that
    follows the headers. *)
Record block_image : Type := mkImg { img_bytes : list Z; img_hole_off : Z; img_hole_len : Z; img_info : Z }.

Definition block_image_of (c : wal_conf) (e : gmap Z PGLZ_HistEntry) (b : registered_buffer)
  : res (block_image * gmap Z PGLZ_HistEntry) :=
  let '(hole_off, hole_len) := page_hole b in
  '(comp, e) ← (if wal_compression c then XLogCompressBackupBlock e (rb_page b) hole_off hole_len
                else Ok (None, e));
  let info := if hole_len =? 0 then 0 else BKPIMAGE_HAS_HOLE in
  let info := if needs_backup c b then Z.lor info BKPIMAGE_APPLY else info in
  match comp with
  | Some out => Ok (mkImg out hole_off hole_len (Z.lor info BKPIMAGE_IS_COMPRESSED), e)
  | None => Ok (mkImg (skip_hole (rb_page b) hole_off hole_len) hole_off hole_len info, e)
  end.

Definition rnode_bytes (rn : RelFileNode) : list Z :=
  le_bytes 4 (spcNode rn) ++ le_bytes 4 (dbNode rn) ++ le_bytes 4 (relNode rn).

Definition is_compressed (i : block_image) : bool := has_flag (img_info i) BKPIMAGE_IS_COMPRESSED.

Definition image_header (i : block_image) : list Z :=
  le_bytes 2 (zlen (img_bytes i)) ++ le_bytes 2 (img_hole_off i) ++ le_bytes 1 (img_info i) ++
  (if negb (img_hole_len i =? 0) && is_compressed i then le_bytes 2 (img_hole_len i) else []).

Definition fork_flags_of (c : wal_conf) (b : registered_buffer) (image samerel : bool) : Z :=
  let f := rb_forkno b in
  let f := if Z.land (rb_flags b) REGBUF_WILL_INIT =? REGBUF_WILL_INIT then Z.lor f BKPBLOCK_WILL_INIT else f in
  let f := if image then Z.lor f BKPBLOCK_HAS_IMAGE else f in
  let f := if needs_data c b then Z.lor f BKPBLOCK_HAS_DATA else f in
  if samerel then Z.lor f BKPBLOCK_SAME_REL else f.

Definition block_header (c : wal_conf) (id : Z) (b : registered_buffer) (img : option block_image) (samerel : bool)
  : list Z :=
  le_bytes 1 id ++ le_bytes 1 (fork_flags_of c b (bool_decide (is_Some img)) samerel) ++
  le_bytes 2 (if needs_data c b then zlen (rb_data b) else 0) ++
  (match img with Some i => image_header i | None => [] end) ++
  (if samerel then [] else rnode_bytes (rb_rnode b)) ++
  le_bytes 4 (rb_block b).

Definition block_payload (c : wal_conf) (b : registered_buffer) (img : option block_image) : list Z :=
  (match img with Some i => img_bytes i | None => [] end) ++ (if needs_data c b then rb_data b else []).

Definition include_image (c : wal_conf) (info : Z) (b : registered_buffer) : bool :=
  needs_backup c b || has_flag info XLR_CHECK_CONSISTENCY.

(** The loop over the registered buffers from [id] on; [prev] is the relation
    of the previous one.  The result is the headers and the payload. *)
Fixpoint assemble_blocks (c : wal_conf) (info : Z) (e : gmap Z PGLZ_HistEntry) (prev : option RelFileNode) (id : Z)
  (bufs : list registered_buffer) : res (list Z * list Z * gmap Z PGLZ_HistEntry) :=
  match bufs with
  | [] => Ok ([], [], e)
  | b :: bufs =>
      if negb (rb_in_use b) then assemble_blocks c info e prev (id + 1) bufs else
      '(img, e) ← (if include_image c info b
                   then '(i, e) ← block_image_of c e b; Ok (Some i, e) else Ok (None, e));
      let samerel := bool_decide (prev = Some (rb_rnode b)) in
      '(hdrs, payload, e) ← assemble_blocks c info e (Some (rb_rnode b)) (id + 1) bufs;
      Ok (block_header c id b img samerel ++ hdrs, block_payload c b img ++ payload, e)
  end.

Definition main_header (n : Z) : list Z :=
  if n =? 0 then []
  else if 255 <? n then le_bytes 1 XLR_BLOCK_ID_DATA_LONG ++ le_bytes 4 n
  else le_bytes 1 XLR_BLOCK_ID_DATA_SHORT ++ le_bytes 1 n.

Definition origin_header (c : wal_conf) (s : insert_state) : list Z :=
  if has_flag (curinsert_flags s) XLOG_INCLUDE_ORIGIN && negb (replorigin_session_origin c =? InvalidRepOriginId)
  then le_bytes 1 XLR_BLOCK_ID_ORIGIN ++ le_bytes 2 (replorigin_session_origin c) else [].

(** The record as it is handed to [XLogInsertRecord], without the link to the
    previous record and the CRC, which are filled in there. *)
Record assembled : Type := mkAsm {
  as_tot_len : Z;
  as_info : Z;
  as_rmid : Z;
  as_body : list Z }.

(** The headers, which are written into [hdr_scratch], and the chain of data. *)
Definition record_parts (c : wal_conf) (e : gmap Z PGLZ_HistEntry) (s : insert_state) (info : Z)
  : res (list Z * list Z * gmap Z PGLZ_HistEntry) :=
  '(hdrs, payload, e) ← assemble_blocks c info e None 0
                          (take (Z.to_nat (max_registered_block_id s)) (registered_buffers s));
  Ok (hdrs ++ origin_header c s ++ main_header (zlen (mainrdata s)), payload ++ mainrdata s, e).

Definition XLogRecordAssemble (c : wal_conf) (e : gmap Z PGLZ_HistEntry) (s : insert_state) (rmid info : Z)
  : res (assembled * gmap Z PGLZ_HistEntry) :=
  let info := if wal_consistency_checking c then Z.lor info XLR_CHECK_CONSISTENCY else info in
  '(hdrs, payload, e) ← record_parts c e s info;
  Ok (mkAsm (u32 (SizeOfXLogRecord + zlen hdrs + zlen payload)) info rmid (hdrs ++ payload), e).

(** ** The working area between calls *)

(** The states a backend that constructs records comes to by calls that succeed, in
    any order that respects the assertions.  The calls that raise an error are those
    of [ins_call] below: except for [XLogRegisterBlock] they leave the state alone. *)
Inductive ins_reach : insert_state → Prop :=
| reach_init : ins_reach InitXLogInsert
| reach_begin allowed s s' : ins_reach s → XLogBeginInsert allowed s = Ok s' → ins_reach s'
| reach_ensure mb nd s s' : ins_reach s → XLogEnsureRecordSpace mb nd s = Ok s' → ins_reach s'
| reach_reset s s' : ins_reach s → XLogResetInsertion s = Ok s' → ins_reach s'
| reach_buffer id tag p fl s s' :
    ins_reach s → begininsert_called s = true → 0 ≤ id < 256 → XLogRegisterBuffer id tag p fl s = Ok s' → ins_reach s'
| reach_block id rn fk bn p fl s s' :
    ins_reach s → begininsert_called s = true → 0 ≤ id < 256 →
    XLogRegisterBlock id rn fk bn p fl s = (s', false) → ins_reach s'
| reach_data d s s' : ins_reach s → begininsert_called s = true → XLogRegisterData d s = Ok s' → ins_reach s'
| reach_bufdata id d s s' :
    ins_reach s → begininsert_called s = true → 0 ≤ id < 256 → XLogRegisterBufData id d s = Ok s' → ins_reach s'
| reach_flags fl s : ins_reach s → begininsert_called s = true → ins_reach (XLogSetRecordFlags fl s).

(** A call, and the state after it, whether it returns or raises an error with
    [elog]; [Err] is left for memory errors.  [asserted] are the assertions of the
    functions, and that a block id is a [uint8]. *)
Inductive ins_call : Type :=
| CallBegin (allowed : bool)
| CallEnsure (max_block_id ndatas : Z)
| CallReset
| CallBuffer (block_id : Z) (tag : BufferTag) (p : page) (flags : Z)
| CallBlock (block_id : Z) (rn : RelFileNode) (forknum blknum : Z) (p : page) (flags : Z)
| CallData (data : list Z)
| CallBufData (block_id : Z) (data : list Z)
| CallFlags (flags : Z).

Definition asserted (c : ins_call) (s : insert_state) : Prop :=
  match c with
  | CallBegin _ | CallEnsure _ _ | CallReset => True
  | CallBuffer id _ _ _ | CallBlock id _ _ _ _ _ | CallBufData id _ => begininsert_called s = true ∧ 0 ≤ id < 256
  | CallData _ | CallFlags _ => begininsert_called s = true
  end.

Definition after_error (s : insert_state) (r : res insert_state) : res insert_state :=
  match r with Err EError => Ok s | r => r end.

Definition ins_exec (c : ins_call) (s : insert_state) : res insert_state :=
  match c with
  | CallBegin allowed => after_error s (XLogBeginInsert allowed s)
  | CallEnsure mb nd => after_error s (XLogEnsureRecordSpace mb nd s)
  | CallReset => after_error s (XLogResetInsertion s)
  | CallBuffer id tag p fl => after_error s (XLogRegisterBuffer id tag p fl s)
  | CallBlock id rn fk bn p fl => Ok (XLogRegisterBlock id rn fk bn p fl s).1
  | CallData d => after_error s (XLogRegisterData d s)
  | CallBufData id d => after_error s (XLogRegisterBufData id d s)
  | CallFlags fl => Ok (XLogSetRecordFlags fl s)
  end.

(** The calls that name a block outside of the array without being stopped. *)
Definition beyond_array (c : ins_call) (s : insert_state) : bool :=
  match c with
  | CallBlock id _ _ _ _ _ | CallBufData id _ => zlen (registered_buffers s) <=? id
  | _ => false
  end.

Definition used_below (n : Z) (l : list registered_buffer) : Prop :=
  ∀ j b, l !! j = Some b → rb_in_use b = true → Z.of_nat j < n.

Record ins_inv (s : insert_state) : Prop := {
  iv_bufs : XLR_NORMAL_MAX_BLOCK_ID + 1 ≤ zlen (registered_buffers s) ≤ XLR_MAX_BLOCK_ID + 1;
  iv_max : 0 ≤ max_registered_block_id s ≤ zlen (registered_buffers s);
  iv_used : used_below (max_registered_block_id s) (registered_buffers s);
  iv_rdatas : 0 ≤ num_rdatas s ≤ max_rdatas s;
  iv_idle : begininsert_called s = false →
    max_registered_block_id s = 0 ∧ mainrdata s = [] ∧ num_rdatas s = 0 ∧ curinsert_flags s = 0 }.

Lemma used_below_insert n m id b l :
  used_below n l → n ≤ m → 0 ≤ id < m → used_below m (<[Z.to_nat id := b]> l).
Proof.
  intros H Hnm Hid j b' Hj Hu. destruct (decide (j = Z.to_nat id)) as [->|Hne]; [lia|].
  rewrite list_lookup_insert_ne in Hj by lia. specialize (H _ _ Hj Hu). lia.
Qed.

Lemma ins_inv_register s id b :
  ins_inv s → begininsert_called s = true → 0 ≤ id < zlen (registered_buffers s) →
  ins_inv (set_regbufs s (if max_registered_block_id s <=? id then id + 1 else max_registered_block_id s)
  (<[Z.to_nat id := b]> (registered_buffers s))).
Proof.
  intros [H1 H2 H3 H4 H5] Hb Hid.
  assert (Hlen : ∀ x, zlen (<[Z.to_nat id := x]> (registered_buffers s)) = zlen (registered_buffers s))
    by (intros; unfold zlen; by rewrite length_insert).
  unfold set_regbufs. constructor; cbn [registered_buffers max_registered_block_id mainrdata num_rdatas max_rdatas begininsert_called];
    rewrite ?Hlen; try done; try congruence; destruct (Z.leb_spec (max_registered_block_id s) id); try lia;
    eapply used_below_insert; eauto; lia.
Qed.

Lemma ins_inv_reset s s' : ins_inv s → XLogResetInsertion s = Ok s' → ins_inv s'.
Proof.
  intros [H1 H2 H3 H4 H5] H.
  unfold XLogResetInsertion in H. destruct (_ <? _) eqn:E; [done|]. apply Ok_inj in H as <-. b2p.
  assert (Hl : zlen ((unuse <$> take (Z.to_nat (max_registered_block_id s)) (registered_buffers s)) ++
    drop (Z.to_nat (max_registered_block_id s)) (registered_buffers s)) = zlen (registered_buffers s)).
  { unfold zlen. rewrite length_app, length_fmap, length_take, length_drop. unfold zlen in *. lia. }
  constructor; cbn [registered_buffers max_registered_block_id mainrdata num_rdatas max_rdatas curinsert_flags];
    rewrite ?Hl; try lia; try done.
  intros j b Hj Hu. apply lookup_app_Some in Hj as [Hj|[Hge Hj]].
  - rewrite list_lookup_fmap in Hj. destruct (take _ _ !! j); [injection Hj as <-|]; done.
  - rewrite lookup_drop in Hj. rewrite length_fmap, length_take in *. specialize (H3 _ _ Hj Hu). unfold zlen in *. lia.
Qed.

Lemma ins_inv_reach s : ins_reach s → ins_inv s.
Proof.
  induction 1 as [|al s s' _ IH H|mb nd s s' _ IH H|s s' _ IH H|id tag p fl s s' _ IH Hb Hid H
    |id rn fk bn p fl s s' _ IH Hb Hid H|d s s' _ IH Hb H|id d s s' _ IH Hb Hid H|fl s _ IH Hb];
    try destruct IH as [H1 H2 H3 H4 H5]; unfold XLR_NORMAL_MAX_BLOCK_ID, XLR_MAX_BLOCK_ID in *.
  - constructor; [vm_compute; intuition congruence..| |vm_compute; intuition congruence|done].
    intros j b Hj. apply (lookup_replicate_1 5) in Hj as [-> _]. done.
  - unfold XLogBeginInsert in H. destruct (negb al); [done|]. destruct (begininsert_called s); [done|].
    apply Ok_inj in H as <-. by constructor.
  - unfold XLogEnsureRecordSpace, XLR_NORMAL_MAX_BLOCK_ID, XLR_NORMAL_RDATAS, XLR_MAX_BLOCK_ID in H.
    destruct (Z.ltb_spec 32 (mb `max` 4)); [done|]. apply Ok_inj in H as <-.
    set (bufs := registered_buffers s ++ _).
    assert (Hl : zlen (registered_buffers s) ≤ zlen bufs ≤ 33)
      by (unfold bufs, zlen in *; rewrite length_app, length_replicate; lia).
    constructor; unfold XLR_NORMAL_MAX_BLOCK_ID, XLR_MAX_BLOCK_ID;
      cbn [registered_buffers max_registered_block_id mainrdata num_rdatas max_rdatas curinsert_flags begininsert_called];
      try lia; try done.
    intros j b Hj Hu. apply lookup_app_Some in Hj as [Hj|[_ Hj]]; [eauto|]. apply lookup_replicate_1 in Hj as [-> _]. done.
  - by apply (ins_inv_reset s); [constructor|].
  - unfold XLogRegisterBuffer in H. destruct (_ && _) eqn:E; [done|]. destruct (Z.leb_spec (zlen (registered_buffers s)) id); [done|]. apply Ok_inj in H as <-.
    apply ins_inv_register; [by constructor|done|lia].
  - unfold XLogRegisterBlock in H. destruct (Z.leb_spec (zlen (registered_buffers s)) id); [done|]. injection H as <-.
    apply ins_inv_register; [by constructor|done|lia].
  - unfold XLogRegisterData in H. destruct (Z.leb_spec (max_rdatas s) (num_rdatas s)); [done|]. apply Ok_inj in H as <-.
    constructor; cbn -[zlen]; try done; try lia; congruence.
  - unfold XLogRegisterBufData in H. destruct (_ !! _) as [b|] eqn:Eb; [|done].
    destruct (rb_in_use b) eqn:Eu; cbn [negb] in H; [|done].
    destruct (Z.leb_spec (max_rdatas s) (num_rdatas s)); [done|]. apply Ok_inj in H as <-.
    specialize (H3 _ _ Eb Eu) as Hlt.
    constructor; cbn -[zlen]; try congruence; try lia; unfold zlen in *; rewrite ?length_insert; try done.
    eapply used_below_insert; eauto; lia.
  - constructor; cbn -[zlen]; try done. congruence.
Qed.

(** Every call that respects the assertions leads to such a state, but for those
    that name a block outside of the array. *)
Lemma exec_reach c s : ins_reach s → asserted c s → beyond_array c s = false → ∃ s', ins_exec c s = Ok s' ∧ ins_reach s'.
Proof.
  intros Hs Ha Hc. pose proof (ins_inv_reach s Hs) as [_ Hmx _ _ _].
  assert (Hafter : ∀ r, (∀ s', r = Ok s' → ins_reach s') → (∀ e, r = Err e → e = EError) → ∃ s', after_error s r = Ok s' ∧ ins_reach s').
  { intros [s'|e] H1 H2; [exists s'; auto|]. rewrite (H2 e eq_refl). by exists s. }
  destruct c as [al|mb nd| |id tag p fl|id rn fk bn p fl|d|id d|fl]; cbn [ins_exec asserted beyond_array] in *; b2p; try apply Hafter.
  - intros s'. by apply reach_begin.
  - unfold XLogBeginInsert. intros e. repeat case_match; congruence.
  - intros s'. by apply reach_ensure.
  - unfold XLogEnsureRecordSpace. intros e. case_match; congruence.
  - intros s'. by apply reach_reset.
  - unfold XLogResetInsertion. rewrite (proj2 (Z.ltb_ge _ _)) by lia. done.
  - intros s'. destruct Ha. by apply reach_buffer.
  - unfold XLogRegisterBuffer. intros e. destruct (_ && _) eqn:E; [congruence|]. case_match; [|done]. b2p. rewrite !(proj2 (Z.leb_le _ _)) in E by lia. done.
  - unfold XLogRegisterBlock. rewrite (proj2 (Z.leb_gt _ _)) by lia. eexists. split; [done|]. destruct Ha. eapply (reach_block id rn fk bn p fl); [done..|]. unfold XLogRegisterBlock. by rewrite (proj2 (Z.leb_gt _ _)) by lia.
  - intros s'. by apply reach_data.
  - unfold XLogRegisterData. intros e. case_match; congruence.
  - intros s'. destruct Ha. by apply reach_bufdata.
  - unfold XLogRegisterBufData. intros e. destruct (_ !! _) as [b|] eqn:Eb; [repeat case_match; congruence|]. apply lookup_ge_None in Eb. unfold zlen in *. lia.
  - eexists. split; [done|]. by apply reach_flags.
Qed.

(** ** The size of the headers *)

Lemma image_header_size i : zlen (image_header i) ≤ 7.
Proof.
  unfold image_header. rewrite !zlen_app, !zlen_le_bytes. destruct (_ && _); rewrite ?zlen_le_bytes; change (zlen []) with 0; lia.
Qed.

Lemma block_header_size c id b img samerel : zlen (block_header c id b img samerel) ≤ MaxSizeOfXLogRecordBlockHeader.
Proof.
  unfold block_header, MaxSizeOfXLogRecordBlockHeader. rewrite !zlen_app, !zlen_le_bytes.
  assert (zlen (rnode_bytes (rb_rnode b)) = 12) by (unfold rnode_bytes; by rewrite !zlen_app, !zlen_le_bytes).
  assert (zlen (match img with Some i => image_header i | None => [] end) ≤ 7)
    by (destruct img; [apply image_header_size|done]).
  destruct samerel; change (zlen []) with 0; lia.
Qed.

Lemma assemble_blocks_size c info bufs : ∀ e prev id h p e',
  assemble_blocks c info e prev id bufs = Ok (h, p, e') → zlen h ≤ MaxSizeOfXLogRecordBlockHeader * zlen bufs.
Proof.
  induction bufs as [|b bufs IH]; intros e prev id h p e' H; cbn [assemble_blocks] in H.
  { apply Ok_inj in H. by injection H as <- <- <-. }
  rewrite zlen_cons. unfold MaxSizeOfXLogRecordBlockHeader in *.
  destruct (rb_in_use b); cbn [negb] in H; [|specialize (IH _ _ _ _ _ _ H); lia].
  destruct (if include_image c info b then _ else _) as [[img e1]|] eqn:E1; cbn [mbind res_bind] in H; [|done].
  destruct (assemble_blocks c info e1 _ _ bufs) as [[[h1 p1] e2]|] eqn:E2; cbn [mbind res_bind] in H; [|done].
  apply Ok_inj, pair_equal_spec, proj1, pair_equal_spec, proj1 in H as <-. specialize (IH _ _ _ _ _ _ E2). rewrite zlen_app.
  pose proof (block_header_size c id b img (bool_decide (prev = Some (rb_rnode b)))) as Hb.
  unfold MaxSizeOfXLogRecordBlockHeader in Hb. lia.
Qed.

Lemma record_parts_size c e s info h p e' :
  ins_inv s → record_parts c e s info = Ok (h, p, e') → SizeOfXLogRecord + zlen h ≤ HEADER_SCRATCH_SIZE.
Proof.
  intros Hs H. unfold record_parts in H.
  destruct (assemble_blocks _ _ _ _ _ _) as [[[h1 p1] e1]|] eqn:E; cbn [mbind res_bind] in H; [|done].
  apply Ok_inj, pair_equal_spec, proj1, pair_equal_spec, proj1 in H as <-. apply assemble_blocks_size in E. rewrite !zlen_app.
  assert (zlen (take (Z.to_nat (max_registered_block_id s)) (registered_buffers s)) ≤ 33).
  { pose proof (iv_bufs s Hs) as [_ Hb]. unfold zlen in *. rewrite length_take. unfold XLR_MAX_BLOCK_ID in *. lia. }
  assert (zlen (origin_header c s) ≤ 3) by (unfold origin_header; destruct (_ && _); vm_compute; congruence).
  assert (zlen (main_header (zlen (mainrdata s))) ≤ 5).
  { unfold main_header. destruct (_ =? 0); [vm_compute; congruence|].
    destruct (_ <? _); rewrite zlen_app, !zlen_le_bytes; vm_compute; congruence. }
  unfold HEADER_SCRATCH_SIZE, SizeOfXLogRecord, MaxSizeOfXLogRecordBlockHeader, SizeOfXLogRecordDataHeaderLong,
    SizeOfXlogOrigin, XLR_MAX_BLOCK_ID in *. lia.
Qed.
