(* ===== verification/XLogDecode.v ===== *)
(** * Decoding WAL records: [DecodeXLogRecord] of [xlogreader.c]

    The parser of the headers of a record, with all its cross-checks, and the
    copying of images and data.  Its input is the part of the record after
    the fixed header.  The main theorem is the round trip with
    [XLogRecordAssemble]: decoding gives back the block references, the data
    and the main data that were registered, and restoring the image of a
    block gives the page with its hole zeroed. *)

From S2P Require Import Prelude Mem Page PageAdd Checksum Buffer Pglz WalRecord XLogInsert.

(** ** Header fields *)

(** [COPY_HEADER_FIELD]: the next [n] bytes, an error when too few remain. *)
Definition get_field (n : nat) (rest : list Z) : res (Z * list Z) :=
  if zlen rest <? Z.of_nat n then Err EError else Ok (le_val (take n rest), drop n rest).

Record image_fields : Type := mkIF { if_len : Z; if_hole_off : Z; if_info : Z; if_hole_len : Z }.

(** The header of one block reference. *)
Record block_fields : Type := mkBF {
  bf_id : Z;
  bf_fork_flags : Z;
  bf_data_len : Z;
  bf_image : option image_fields;
  bf_rnode : RelFileNode;
  bf_blkno : Z }.

Definition image_checks (i : image_fields) : bool :=
  let hole := has_flag (if_info i) BKPIMAGE_HAS_HOLE in
  let comp := has_flag (if_info i) BKPIMAGE_IS_COMPRESSED in
  negb (hole && ((if_hole_off i =? 0) || (if_hole_len i =? 0) || (if_len i =? BLCKSZ)))
  && negb (negb hole && (negb (if_hole_off i =? 0) || negb (if_hole_len i =? 0)))
  && negb (comp && (if_len i =? BLCKSZ))
  && negb (negb hole && negb comp && negb (if_len i =? BLCKSZ)).

Definition decode_image (rest : list Z) : res (image_fields * list Z) :=
  '(bimg_len, rest) ← get_field 2 rest;
  '(hole_off, rest) ← get_field 2 rest;
  '(info, rest) ← get_field 1 rest;
  '(hole_len, rest) ← (if has_flag info BKPIMAGE_IS_COMPRESSED then
                         if has_flag info BKPIMAGE_HAS_HOLE then get_field 2 rest else Ok (0, rest)
                       else Ok (u16 (BLCKSZ - bimg_len), rest));
  let i := mkIF bimg_len hole_off info hole_len in
  if image_checks i then Ok (i, rest) else Err EError.

Definition decode_rnode (rest : list Z) : res (RelFileNode * list Z) :=
  '(a, rest) ← get_field 4 rest;
  '(b, rest) ← get_field 4 rest;
  '(c, rest) ← get_field 4 rest;
  Ok (mkRel a b c, rest).

Definition decode_block (id : Z) (prev : option RelFileNode) (rest : list Z) : res (block_fields * list Z) :=
  '(fork_flags, rest) ← get_field 1 rest;
  '(data_len, rest) ← get_field 2 rest;
  let has_data := has_flag fork_flags BKPBLOCK_HAS_DATA in
  if has_data && (data_len =? 0) then Err EError else
  if negb has_data && negb (data_len =? 0) then Err EError else
  '(image, rest) ← (if has_flag fork_flags BKPBLOCK_HAS_IMAGE
                    then '(i, rest) ← decode_image rest; Ok (Some i, rest) else Ok (None, rest));
  '(rn, rest) ← (if negb (has_flag fork_flags BKPBLOCK_SAME_REL) then decode_rnode rest
                 else match prev with Some rn => Ok (rn, rest) | None => Err EError end);
  '(blkno, rest) ← get_field 4 rest;
  Ok (mkBF id fork_flags data_len image rn blkno, rest).

Definition block_total (b : block_fields) : Z :=
  bf_data_len b + match bf_image b with Some i => if_len i | None => 0 end.

(** ** The header loop *)

Record headers : Type := mkHdrs {
  hd_blocks : list block_fields;
  hd_max : Z;
  hd_origin : Z;
  hd_main_len : Z }.

(** [rest] is what remains of the record; [datatotal] is a 32-bit counter. *)
Fixpoint decode_headers (fuel : nat) (rest : list Z) (datatotal : Z) (prev : option RelFileNode) (h : headers)
  : res (headers * list Z * Z) :=
  if zlen rest <=? datatotal then Ok (h, rest, datatotal) else
  match fuel with
  | O => Err EFuel
  | S fuel =>
      '(id, rest) ← get_field 1 rest;
      if id =? XLR_BLOCK_ID_DATA_SHORT then
        '(n, rest) ← get_field 1 rest;
        Ok (mkHdrs (hd_blocks h) (hd_max h) (hd_origin h) n, rest, u32 (datatotal + n))
      else if id =? XLR_BLOCK_ID_DATA_LONG then
        '(n, rest) ← get_field 4 rest;
        Ok (mkHdrs (hd_blocks h) (hd_max h) (hd_origin h) n, rest, u32 (datatotal + n))
      else if id =? XLR_BLOCK_ID_ORIGIN then
        '(o, rest) ← get_field 2 rest;
        decode_headers fuel rest datatotal prev (mkHdrs (hd_blocks h) (hd_max h) o (hd_main_len h))
      else if id <=? XLR_MAX_BLOCK_ID then
        if id <=? hd_max h then Err EError else
        '(b, rest) ← decode_block id prev rest;
        decode_headers fuel rest (u32 (datatotal + block_total b)) (Some (bf_rnode b))
          (mkHdrs (hd_blocks h ++ [b]) id (hd_origin h) (hd_main_len h))
      else Err EError
  end.

(** ** The data *)

(** [ResetDecoder]. *)
Definition reset_block (b : DecodedBkpBlock) : DecodedBkpBlock :=
  mkBlk false (bkp_rnode b) (bkp_forknum b) (bkp_blkno b) (bkp_flags b) false false (bkp_image b)
    (hole_offset b) (hole_length b) (bimg_info b) false (bkp_data b).

Definition ResetDecoder (mx : Z) (bl : list DecodedBkpBlock) : list DecodedBkpBlock :=
  let n := Z.to_nat (mx + 1) in (reset_block <$> take n bl) ++ drop n bl.

(** The entry of the array after its header has been parsed and its image and
    data have been set; fields the header does not give keep their values. *)
Definition fill_block (old : DecodedBkpBlock) (b : block_fields) (image data : list Z) : DecodedBkpBlock :=
  let f := bf_fork_flags b in
  match bf_image b with
  | Some i =>
      mkBlk true (bf_rnode b) (Z.land f BKPBLOCK_FORK_MASK) (bf_blkno b) f true
        (has_flag (if_info i) BKPIMAGE_APPLY) image (if_hole_off i) (if_hole_len i) (if_info i)
        (has_flag f BKPBLOCK_HAS_DATA) (if has_flag f BKPBLOCK_HAS_DATA then data else bkp_data old)
  | None =>
      mkBlk true (bf_rnode b) (Z.land f BKPBLOCK_FORK_MASK) (bf_blkno b) f false false (bkp_image old)
        (hole_offset old) (hole_length old) (bimg_info old)
        (has_flag f BKPBLOCK_HAS_DATA) (if has_flag f BKPBLOCK_HAS_DATA then data else bkp_data old)
  end.

(** Block images and data, in the order of the block ids. *)
Fixpoint decode_data (bs : list block_fields) (bl : list DecodedBkpBlock) (ptr : list Z)
  : res (list DecodedBkpBlock * list Z) :=
  match bs with
  | [] => Ok (bl, ptr)
  | b :: bs =>
      let n := match bf_image b with Some i => if_len i | None => 0 end in
      image ← load ptr 0 n;
      let ptr := drop (Z.to_nat n) ptr in
      data ← load ptr 0 (bf_data_len b);
      let ptr := drop (Z.to_nat (bf_data_len b)) ptr in
      match bl !! Z.to_nat (bf_id b) with
      | None => Err EOob
      | Some old => decode_data bs (<[Z.to_nat (bf_id b) := fill_block old b image data]> bl) ptr
      end
  end.

(** [EError] is the return value [false] with a report; [st] is the reader
    with what the previous record left in it. *)
Definition DecodeXLogRecord (st : XLogReaderState) (readptr endptr info rmid xid : Z) (body : list Z)
  : res XLogReaderState :=
  let bl := ResetDecoder (max_block_id st) (blocks st) in
  '(h, rest, datatotal) ← decode_headers (S (length body)) body 0 None (mkHdrs [] (-1) InvalidRepOriginId 0);
  if negb (zlen rest =? datatotal) then Err EError else
  '(bl, ptr) ← decode_data (hd_blocks h) bl rest;
  main ← (if 0 <? hd_main_len h then load ptr 0 (hd_main_len h) else Ok []);
  Ok (mkRec readptr endptr info rmid xid main (hd_max h) bl).

(** ** Round trip: the headers *)

Lemma get_field_app n v rest :
  0 ≤ v < 256 ^ Z.of_nat n → get_field n (le_bytes n v ++ rest) = Ok (v, rest).
Proof.
  intros Hv. unfold get_field. rewrite zlen_app, zlen_le_bytes. pose proof (zlen_nonneg rest).
  destruct (Z.ltb_spec (Z.of_nat n + zlen rest) (Z.of_nat n)); [lia|].
  rewrite take_app_length', drop_app_length' by (by rewrite length_le_bytes).
  by rewrite le_val_bytes, Z.mod_small.
Qed.

(** What the assembler knows about an image it stores. *)
Record image_ok (i : block_image) : Prop := {
  io_len : 0 ≤ zlen (img_bytes i) ≤ BLCKSZ;
  io_off : 0 ≤ img_hole_off i < 65536;
  io_hole : 0 ≤ img_hole_len i < 65536;
  io_info : 0 ≤ img_info i < 8;
  io_has : has_flag (img_info i) BKPIMAGE_HAS_HOLE = negb (img_hole_len i =? 0);
  io_offhas : (img_hole_off i = 0 ↔ img_hole_len i = 0);
  io_plain : is_compressed i = false → zlen (img_bytes i) = BLCKSZ - img_hole_len i;
  io_comp : is_compressed i = true → zlen (img_bytes i) < BLCKSZ }.

Definition fields_of_image (i : block_image) : image_fields :=
  mkIF (zlen (img_bytes i)) (img_hole_off i) (img_info i) (img_hole_len i).

Lemma decode_image_header i rest :
  image_ok i → decode_image (image_header i ++ rest) = Ok (fields_of_image i, rest).
Proof.
  intros [Hl Ho Hh Hi Hhas Hoff Hplain Hcomp]. unfold decode_image, image_header, BLCKSZ in *.
  rewrite <-!app_assoc. do 3 (rewrite get_field_app by (simpl; lia); cbn [mbind res_bind]).
  fold (is_compressed i). unfold is_compressed in *. rewrite Hhas.
  assert (Hchk : image_checks (fields_of_image i) = true).
  { unfold image_checks, fields_of_image. cbn [if_info if_hole_off if_hole_len if_len]. rewrite Hhas. unfold BLCKSZ.
    destruct (has_flag (img_info i) BKPIMAGE_IS_COMPRESSED); [specialize (Hcomp eq_refl)|specialize (Hplain eq_refl)];
      destruct (Z.eqb_spec (img_hole_len i) 0) as [E|E]; cbn [negb andb orb];
      destruct (Z.eqb_spec (img_hole_off i) 0); try (exfalso; tauto); cbn [negb andb orb];
      destruct (Z.eqb_spec (zlen (img_bytes i)) 8192); try lia; done. }
  destruct (has_flag (img_info i) BKPIMAGE_IS_COMPRESSED) eqn:Ec.
  - destruct (Z.eqb_spec (img_hole_len i) 0) as [E|E]; cbn [negb andb].
    + cbn [app mbind res_bind]. unfold fields_of_image in *. rewrite E in *. by rewrite Hchk.
    + rewrite get_field_app by (simpl; lia). cbn [mbind res_bind]. unfold fields_of_image in *. by rewrite Hchk.
  - rewrite andb_false_r. cbn [app mbind res_bind]. rewrite (Hplain eq_refl). rewrite u16_small by lia.
    replace (8192 - (8192 - img_hole_len i)) with (img_hole_len i) by lia.
    unfold fields_of_image in *. rewrite (Hplain eq_refl) in Hchk |- *. by rewrite Hchk.
Qed.

Definition rnode_ok (rn : RelFileNode) : Prop :=
  0 ≤ spcNode rn < 2 ^ 32 ∧ 0 ≤ dbNode rn < 2 ^ 32 ∧ 0 ≤ relNode rn < 2 ^ 32.

Lemma decode_rnode_bytes rn rest : rnode_ok rn → decode_rnode (rnode_bytes rn ++ rest) = Ok (rn, rest).
Proof.
  intros (H1 & H2 & H3). unfold decode_rnode, rnode_bytes. rewrite <-!app_assoc.
  do 3 (rewrite get_field_app by (simpl; lia); cbn [mbind res_bind]). by destruct rn.
Qed.

(** The flag byte of a block reference. *)
Definition flag_byte (f : Z) (w i d s : bool) : Z :=
  let f := if w then Z.lor f BKPBLOCK_WILL_INIT else f in
  let f := if i then Z.lor f BKPBLOCK_HAS_IMAGE else f in
  let f := if d then Z.lor f BKPBLOCK_HAS_DATA else f in
  if s then Z.lor f BKPBLOCK_SAME_REL else f.

Lemma flag_byte_spec f w i d s : 0 ≤ f < 16 →
  0 ≤ flag_byte f w i d s < 256 ∧ Z.land (flag_byte f w i d s) BKPBLOCK_FORK_MASK = f ∧
  has_flag (flag_byte f w i d s) BKPBLOCK_WILL_INIT = w ∧ has_flag (flag_byte f w i d s) BKPBLOCK_HAS_IMAGE = i ∧
  has_flag (flag_byte f w i d s) BKPBLOCK_HAS_DATA = d ∧ has_flag (flag_byte f w i d s) BKPBLOCK_SAME_REL = s.
Proof.
  intros Hf.
  assert (Hall : forallb (λ f, forallb (λ '(w, i, d, s),
      (0 <=? flag_byte f w i d s) && (flag_byte f w i d s <? 256)
      && (Z.land (flag_byte f w i d s) BKPBLOCK_FORK_MASK =? f)
      && eqb (has_flag (flag_byte f w i d s) BKPBLOCK_WILL_INIT) w && eqb (has_flag (flag_byte f w i d s) BKPBLOCK_HAS_IMAGE) i
      && eqb (has_flag (flag_byte f w i d s) BKPBLOCK_HAS_DATA) d && eqb (has_flag (flag_byte f w i d s) BKPBLOCK_SAME_REL) s)
    (w ← [true; false]; i ← [true; false]; d ← [true; false]; s ← [true; false]; [(w, i, d, s)])) (seqZ 0 16) = true)
    by (vm_compute; done).
  pose proof (forall_below _ _ f Hall Hf) as H. cbv beta in H. rewrite forallb_forall in H.
  specialize (H (w, i, d, s)). cbv beta iota in H.
  assert (Hin : In (w, i, d, s) (w ← [true; false]; i ← [true; false]; d ← [true; false]; s ← [true; false]; [(w, i, d, s)]))
    by (destruct w, i, d, s; cbn; tauto).
  specialize (H Hin).
  repeat (apply andb_prop in H as [H ?]). split_and!; try (by apply eqb_prop); try lia.
Qed.

Definition will_init (b : registered_buffer) : bool := Z.land (rb_flags b) REGBUF_WILL_INIT =? REGBUF_WILL_INIT.

Lemma fork_flags_byte c b image samerel :
  fork_flags_of c b image samerel = flag_byte (rb_forkno b) (will_init b) image (needs_data c b) samerel.
Proof. done. Qed.

(** A registered buffer within the limits of the format. *)
Record reg_ok (b : registered_buffer) : Prop := {
  ro_page : zlen (rb_page b) = BLCKSZ;
  ro_bytes : Forall is_byte (rb_page b);
  ro_fork : 0 ≤ rb_forkno b < 16;
  ro_rnode : rnode_ok (rb_rnode b);
  ro_block : 0 ≤ rb_block b < 2 ^ 32;
  ro_data : zlen (rb_data b) < 65536 }.

Definition fields_of (c : wal_conf) (id : Z) (b : registered_buffer) (img : option block_image) (samerel : bool)
  : block_fields :=
  mkBF id (fork_flags_of c b (bool_decide (is_Some img)) samerel)
    (if needs_data c b then zlen (rb_data b) else 0) (fields_of_image <$> img) (rb_rnode b) (rb_block b).

Lemma decode_block_header c id b img prev rest :
  let samerel := bool_decide (prev = Some (rb_rnode b)) in
  reg_ok b → (∀ i, img = Some i → image_ok i) → 0 ≤ id < 256 →
  ∃ body, block_header c id b img samerel ++ rest = le_bytes 1 id ++ body ∧
    decode_block id prev body = Ok (fields_of c id b img samerel, rest).
Proof.
  intros samerel [Hp Hby Hf Hrn Hblk Hd] Himg Hid. eexists. unfold block_header. rewrite <-!app_assoc. split; [reflexivity|].
  unfold decode_block, fields_of. rewrite fork_flags_byte.
  destruct (flag_byte_spec (rb_forkno b) (will_init b) (bool_decide (is_Some img)) (needs_data c b) samerel Hf)
    as (Hr & _ & _ & Hi & Hda & Hs).
  set (fl := flag_byte _ _ _ _ _) in *. rewrite get_field_app by (simpl; lia). cbn [mbind res_bind].
  assert (Hdl : 0 ≤ (if needs_data c b then zlen (rb_data b) else 0) < 65536)
    by (destruct (needs_data c b); pose proof (zlen_nonneg (rb_data b)); lia).
  rewrite get_field_app by (simpl; lia). cbn [mbind res_bind]. rewrite Hda, Hi, Hs.
  assert (Hnz : needs_data c b = true → zlen (rb_data b) ≠ 0).
  { unfold needs_data. destruct (Z.eqb_spec (zlen (rb_data b)) 0); [done|]. done. }
  assert (E1 : (needs_data c b && ((if needs_data c b then zlen (rb_data b) else 0) =? 0)) = false).
  { destruct (needs_data c b); [|done]. cbn [andb]. apply Z.eqb_neq. auto. }
  assert (E2 : (negb (needs_data c b) && negb ((if needs_data c b then zlen (rb_data b) else 0) =? 0)) = false)
    by (by destruct (needs_data c b)).
  rewrite E1, E2.
  assert (Eimg : (if bool_decide (is_Some img)
      then '(i, rest0) ← decode_image ((match img with Some i => image_header i | None => [] end) ++
              (if samerel then [] else rnode_bytes (rb_rnode b)) ++ le_bytes 4 (rb_block b) ++ rest); Ok (Some i, rest0)
      else Ok (None, (match img with Some i => image_header i | None => [] end) ++
              (if samerel then [] else rnode_bytes (rb_rnode b)) ++ le_bytes 4 (rb_block b) ++ rest)) =
      Ok (fields_of_image <$> img, (if samerel then [] else rnode_bytes (rb_rnode b)) ++ le_bytes 4 (rb_block b) ++ rest)).
  { destruct img as [i|]; [|done]. rewrite bool_decide_true by eauto. rewrite decode_image_header by auto. done. }
  rewrite Eimg. cbn [mbind res_bind]. clear Eimg Hs. unfold samerel. destruct (bool_decide (prev = Some (rb_rnode b))) eqn:Es; cbn [negb].
  - apply bool_decide_eq_true in Es. rewrite Es. cbn [app mbind res_bind]. rewrite get_field_app by (simpl; lia). done.
  - rewrite decode_rnode_bytes by done. cbn [mbind res_bind]. rewrite get_field_app by (simpl; lia). done.
Qed.

(** ** Round trip: the images *)

Record image_for (c : wal_conf) (b : registered_buffer) (i : block_image) : Prop := {
  if_ok : image_ok i;
  if_hole : page_hole b = (img_hole_off i, img_hole_len i);
  if_apply : has_flag (img_info i) BKPIMAGE_APPLY = needs_backup c b;
  if_bytes : if is_compressed i
    then pglz_decompress (img_bytes i) (BLCKSZ - img_hole_len i) true
         = Ok (Some (skip_hole (rb_page b) (img_hole_off i) (img_hole_len i)))
    else img_bytes i = skip_hole (rb_page b) (img_hole_off i) (img_hole_len i) }.

Lemma page_hole_ok b off len : reg_ok b → page_hole b = (off, len) →
  0 ≤ off ∧ 0 ≤ len ∧ off + len ≤ BLCKSZ ∧ (off = 0 ↔ len = 0) ∧ (len ≠ 0 → off = pd_lower (rb_page b) ∧ off + len = pd_upper (rb_page b)).
Proof.
  intros [Hp Hb _ _ _ _] H. unfold page_hole, SizeOfPageHeaderData, BLCKSZ in *.
  pose proof (mget_bound 2 (rb_page b) 12 Hb) as H1. pose proof (mget_bound 2 (rb_page b) 14 Hb) as H2.
  change (256 ^ Z.of_nat 2) with 65536 in *. fold (pd_lower (rb_page b)) in H1. fold (pd_upper (rb_page b)) in H2.
  destruct (has_flag _ _); [|injection H as <- <-; lia].
  destruct (_ && _) eqn:E; injection H as <- <-; [b2p; lia|lia].
Qed.

Lemma skip_hole_len p off len :
  zlen p = BLCKSZ → 0 ≤ off → 0 ≤ len → off + len ≤ BLCKSZ → zlen (skip_hole p off len) = BLCKSZ - len.
Proof.
  intros. unfold skip_hole. destruct (Z.eqb_spec len 0); [lia|]. rewrite zlen_app, !zlen_mread by lia. lia.
Qed.

Lemma skip_hole_bytes p off len : Forall is_byte p → Forall is_byte (skip_hole p off len).
Proof.
  intros. unfold skip_hole. destruct (_ =? _); [done|]. apply Forall_app. split; by apply mread_byte.
Qed.

Lemma block_image_ok c e b :
  reg_ok b → ∃ i e', block_image_of c e b = Ok (i, e') ∧ image_for c b i.
Proof.
  intros Hok. unfold block_image_of. destruct (page_hole b) as [off len] eqn:Eh.
  destruct (page_hole_ok b off len Hok Eh) as (H1 & H2 & H3 & H4 & _). pose proof Hok as [Hp Hb _ _ _ _].
  pose proof (skip_hole_len (rb_page b) off len Hp H1 H2 H3) as Hsl.
  set (info := if needs_backup c b then _ else _).
  assert (Hplain : image_for c b (mkImg (skip_hole (rb_page b) off len) off len info)).
  { unfold BLCKSZ in *. assert (Hi : is_compressed (mkImg (skip_hole (rb_page b) off len) off len info) = false)
      by (unfold is_compressed, info; cbn; destruct (needs_backup c b), (len =? 0); done).
    constructor; cbn [img_bytes img_hole_off img_hole_len img_info].
    - constructor; cbn [img_bytes img_hole_off img_hole_len img_info]; unfold BLCKSZ; try lia; try done;
        try (unfold info; destruct (needs_backup c b), (Z.eqb_spec len 0); done).
    - done.
    - unfold info. destruct (needs_backup c b), (len =? 0); done.
    - by rewrite Hi. }
  destruct (wal_compression c); cbn [mbind res_bind]; [|by eauto].
  unfold XLogCompressBackupBlock.
  destruct (compress_decompress e (skip_hole (rb_page b) off len) PGLZ_strategy_default) as (r & e' & -> & Hr);
    [by apply skip_hole_bytes|]. cbn [mbind res_bind].
  destruct r as [out|]; cbn [mbind res_bind]; [|by eauto].
  destruct (Z.ltb_spec (zlen out + (if negb (len =? 0) then 2 else 0)) (BLCKSZ - len)); cbn [mbind res_bind]; [|by eauto].
  destruct (Hr out eq_refl) as [Hlt Hdec]. rewrite Hsl in Hdec, Hlt. unfold BLCKSZ in *. pose proof (zlen_nonneg out).
  eexists _, _. split; [done|].
  assert (Hi : is_compressed (mkImg out off len (Z.lor info BKPIMAGE_IS_COMPRESSED)) = true)
    by (unfold is_compressed, info; cbn; destruct (needs_backup c b), (len =? 0); done).
  constructor; cbn [img_bytes img_hole_off img_hole_len img_info].
  - constructor; cbn [img_bytes img_hole_off img_hole_len img_info]; unfold BLCKSZ; try lia; try done;
      try (unfold info; destruct (needs_backup c b), (Z.eqb_spec len 0); done).
  - done.
  - unfold info. destruct (needs_backup c b), (len =? 0); done.
  - rewrite Hi. done.
Qed.

(** The page with its hole zeroed, which is what restoring an image gives. *)
Definition hole_zeroed (p : page) (off len : Z) : page :=
  if len =? 0 then p
  else mread p 0 off ++ replicate (Z.to_nat len) 0 ++ mread p (off + len) (BLCKSZ - (off + len)).

Lemma fill_page_skip p off len :
  zlen p = BLCKSZ → 0 ≤ off → 0 ≤ len → off + len ≤ BLCKSZ →
  fill_page (skip_hole p off len) off len = Ok (hole_zeroed p off len).
Proof.
  intros Hp H1 H2 H3. unfold fill_page. pose proof (skip_hole_len p off len Hp H1 H2 H3) as Hl.
  unfold skip_hole, hole_zeroed, load in *. destruct (Z.eqb_spec len 0) as [E|E].
  - rewrite (proj2 (in_range_true _ _ _)) by (unfold BLCKSZ in *; lia). by rewrite <-Hp, mread_all.
  - set (a := mread p 0 off) in *. set (d := mread p (off + len) _) in *.
    assert (Ha : zlen a = off) by (apply zlen_mread; unfold BLCKSZ in *; lia).
    assert (Hd : zlen d = BLCKSZ - (off + len)) by (apply zlen_mread; unfold BLCKSZ in *; lia).
    rewrite !(proj2 (in_range_true _ _ _)) by lia. cbn [mbind res_bind]. do 2 f_equal.
    + unfold mread at 1. rewrite drop_0, take_app_le by (unfold zlen in *; lia). apply take_ge. unfold zlen in *. lia.
    + f_equal. unfold mread at 1. rewrite drop_app_ge by (unfold zlen in *; lia).
      replace (Z.to_nat off - length a)%nat with 0%nat by (unfold zlen in *; lia). rewrite drop_0. apply take_ge.
      unfold zlen in *. lia.
Qed.

(** The page of a registered buffer as the image of the record gives it. *)
Definition restored_page (b : registered_buffer) : page :=
  let '(off, len) := page_hole b in hole_zeroed (rb_page b) off len.

(** ** Round trip: the loops *)

(** The image that goes into the record for [b], if any. *)
Definition image_of (c : wal_conf) (info : Z) (b : registered_buffer) (img : option block_image) : Prop :=
  if include_image c info b then ∃ i, img = Some i ∧ image_for c b i else img = None.

(** What [assemble_blocks] does, with the header fields it writes down. *)
Inductive asm (c : wal_conf) (info : Z)
  : option RelFileNode → Z → list registered_buffer → list block_fields → list Z → list Z → Prop :=
| asm_nil prev id : asm c info prev id [] [] [] []
| asm_skip prev id b bufs fs h p :
    rb_in_use b = false → asm c info prev (id + 1) bufs fs h p → asm c info prev id (b :: bufs) fs h p
| asm_use prev id b bufs fs h p img :
    rb_in_use b = true → reg_ok b → image_of c info b img → asm c info (Some (rb_rnode b)) (id + 1) bufs fs h p →
    let samerel := bool_decide (prev = Some (rb_rnode b)) in
    asm c info prev id (b :: bufs) (fields_of c id b img samerel :: fs)
      (block_header c id b img samerel ++ h) (block_payload c b img ++ p).

Definition regs_ok (bufs : list registered_buffer) : Prop := Forall (λ b, rb_in_use b = true → reg_ok b) bufs.

Lemma assemble_blocks_asm c info bufs : regs_ok bufs → ∀ e prev id,
  ∃ h p e' fs, assemble_blocks c info e prev id bufs = Ok (h, p, e') ∧ asm c info prev id bufs fs h p.
Proof.
  induction 1 as [|b bufs Hb _ IH]; intros e prev id; cbn [assemble_blocks].
  { eexists _, _, _, _. split; [done|constructor]. }
  destruct (rb_in_use b) eqn:Eu; cbn [negb].
  - specialize (Hb eq_refl).
    assert (Hi : ∃ img e1, (if include_image c info b then '(i, e) ← block_image_of c e b; Ok (Some i, e) else Ok (None, e))
                   = Ok (img, e1) ∧ image_of c info b img).
    { unfold image_of. destruct (include_image c info b); [|by eauto].
      destruct (block_image_ok c e b Hb) as (i & e1 & -> & Hi). cbn [mbind res_bind]. eauto 6. }
    destruct Hi as (img & e1 & -> & Himg). cbn [mbind res_bind].
    destruct (IH e1 (Some (rb_rnode b)) (id + 1)) as (h & p & e2 & fs & -> & Hasm). cbn [mbind res_bind].
    eexists _, _, _, _. split; [done|]. by apply asm_use.
  - destruct (IH e prev (id + 1)) as (h & p & e' & fs & -> & Hasm).
    eexists _, _, _, _. split; [done|]. by apply asm_skip.
Qed.

Lemma image_of_ok c info b img i : image_of c info b img → img = Some i → image_for c b i.
Proof. unfold image_of. destruct (include_image _ _ _); [by intros (? & -> & ?) [= <-]|by intros ->]. Qed.

Lemma block_total_payload c info id b img samerel :
  image_of c info b img → block_total (fields_of c id b img samerel) = zlen (block_payload c b img).
Proof.
  intros _. unfold block_total, fields_of, block_payload. cbn [bf_data_len bf_image]. rewrite zlen_app.
  change (zlen []) with 0 in *. destruct img, (needs_data c b); cbn -[zlen]; change (zlen []) with 0; lia.
Qed.

(** The id of the last header written. *)
Definition last_id (mx : Z) (fs : list block_fields) : Z := match last fs with Some f => bf_id f | None => mx end.

Lemma last_id_cons mx f fs : last_id mx (f :: fs) = last_id (bf_id f) fs.
Proof. unfold last_id. destruct fs as [|g fs]; [done|]. rewrite last_cons_cons. by destruct (last (g :: fs)) eqn:E; [|apply last_None in E]. Qed.

Lemma block_header_pos c id b img s : 1 ≤ zlen (block_header c id b img s).
Proof. unfold block_header. rewrite zlen_app, zlen_le_bytes. pose proof (zlen_nonneg (le_bytes 1 (fork_flags_of c b (bool_decide (is_Some img)) s) ++ le_bytes 2 (if needs_data c b then zlen (rb_data b) else 0) ++ match img with | Some i => image_header i | None => [] end ++ (if s then [] else rnode_bytes (rb_rnode b)) ++ le_bytes 4 (rb_block b))). lia. Qed.

Lemma decode_headers_asm c info prev id bufs fs h p : asm c info prev id bufs fs h p →
  ∀ fuel tail dt hd, 0 ≤ id → id + zlen bufs ≤ XLR_MAX_BLOCK_ID + 1 → hd_max hd < id → 0 ≤ dt →
  dt + zlen p ≤ zlen tail → dt + zlen p < 2 ^ 32 → (length h ≤ fuel)%nat →
  ∃ fuel' prev', (fuel - length h ≤ fuel')%nat ∧
    decode_headers fuel (h ++ tail) dt prev hd =
    decode_headers fuel' tail (dt + zlen p) prev'
      (mkHdrs (hd_blocks hd ++ fs) (last_id (hd_max hd) fs) (hd_origin hd) (hd_main_len hd)).
Proof.
  induction 1 as [prev id|prev id b bufs fs h p Hu Hasm IH|prev id b bufs fs h p img Hu Hok Himg Hasm IH samerel];
    intros fuel tail dt hd Hid Hn Hmx Hdt Htl Hlt Hf.
  - exists fuel, prev. split; [cbn; lia|]. cbn [app]. rewrite app_nil_r. cbn. rewrite Z.add_0_r. by destruct hd.
  - rewrite zlen_cons in Hn. apply IH; lia.
  - rewrite zlen_cons in Hn. rewrite zlen_app in Htl, Hlt. pose proof (zlen_nonneg p). pose proof (zlen_nonneg bufs).
    pose proof (zlen_nonneg (block_payload c b img)). pose proof (zlen_nonneg h).
    pose proof (block_header_pos c id b img samerel) as Hpos. rewrite length_app in Hf |- *. unfold XLR_MAX_BLOCK_ID in *.
    rewrite <-app_assoc. destruct fuel as [|fuel]; [unfold zlen in Hpos; lia|]. cbn [decode_headers].
    rewrite (proj2 (Z.leb_gt _ _)) by (rewrite !zlen_app; lia).
    destruct (decode_block_header c id b img prev (h ++ tail)) as (body & Hb & Hdec); [done|..|lia|].
    { intros i Hi. by apply (image_of_ok c info b img i). }
    fold samerel in Hb, Hdec. rewrite Hb, get_field_app by (simpl; lia). cbn [mbind res_bind].
    unfold XLR_BLOCK_ID_DATA_SHORT, XLR_BLOCK_ID_DATA_LONG, XLR_BLOCK_ID_ORIGIN, XLR_MAX_BLOCK_ID.
    rewrite !(proj2 (Z.eqb_neq _ _)), (proj2 (Z.leb_le _ _)), (proj2 (Z.leb_gt _ _)) by lia.
    rewrite Hdec. cbn [mbind res_bind]. rewrite (block_total_payload c info), u32_small by (done || lia).
    destruct (IH fuel tail (dt + zlen (block_payload c b img))
      (mkHdrs (hd_blocks hd ++ [fields_of c id b img samerel]) id (hd_origin hd) (hd_main_len hd)))
      as (fuel' & prev' & Hf' & IHeq); cbn [hd_max]; try lia.
    { unfold zlen in Hpos. lia. }
    exists fuel', prev'. split; [unfold zlen in Hpos; lia|].
    change (bf_rnode (fields_of c id b img samerel)) with (rb_rnode b). rewrite IHeq. cbn [hd_blocks hd_max hd_origin hd_main_len].
    rewrite last_id_cons, zlen_app, Z.add_assoc, <-app_assoc. done.
Qed.

(** What decoding gives back of a registered buffer [b]. *)
Record block_decoded (c : wal_conf) (info : Z) (b : registered_buffer) (r : DecodedBkpBlock) : Prop := {
  bd_in_use : in_use r = true;
  bd_rnode : bkp_rnode r = rb_rnode b;
  bd_fork : bkp_forknum r = rb_forkno b;
  bd_block : bkp_blkno r = rb_block b;
  bd_init : has_flag (bkp_flags r) BKPBLOCK_WILL_INIT = will_init b;
  bd_has_image : has_image r = include_image c info b;
  bd_apply : apply_image r = needs_backup c b;
  bd_has_data : has_data r = needs_data c b;
  bd_data : needs_data c b = true → bkp_data r = rb_data b;
  bd_image : include_image c info b = true → restore_image r = Ok (Some (restored_page b)) }.

Lemma fill_block_decoded c info id b img samerel old :
  reg_ok b → image_of c info b img →
  block_decoded c info b
    (fill_block old (fields_of c id b img samerel) (match img with Some i => img_bytes i | None => [] end)
       (if needs_data c b then rb_data b else [])).
Proof.
  intros Hok Himg. pose proof (ro_fork b Hok) as Hf.
  destruct (flag_byte_spec (rb_forkno b) (will_init b) (bool_decide (is_Some img)) (needs_data c b) samerel Hf)
    as (_ & Hfk & Hw & _ & Hda & _).
  unfold image_of in Himg. unfold fill_block, fields_of. cbn [bf_fork_flags bf_image bf_rnode bf_blkno].
  rewrite fork_flags_byte. set (fl := flag_byte _ _ _ _ _) in *. rewrite Hfk, Hda.
  destruct (include_image c info b) eqn:Ei.
  - destruct Himg as (i & -> & [Hio Hh Ha Hb]). cbn [fmap option_fmap option_map].
    constructor; cbn -[restore_image]; try done; try (by intros ->). intros _. unfold restore_image, restored_page.
    cbn [has_image bimg_info bkp_image hole_offset hole_length fields_of_image if_hole_off if_hole_len if_info].
    rewrite Hh. destruct (page_hole_ok b _ _ Hok Hh) as (H1 & H2 & H3 & _). pose proof (ro_page b Hok) as Hp.
    fold (is_compressed i). destruct (is_compressed i); cbn [negb].
    + rewrite Hb. cbn [mbind res_bind]. rewrite fill_page_skip by done. done.
    + rewrite Hb, fill_page_skip by done. done.
  - subst img. cbn [fmap option_fmap option_map]. constructor; cbn -[restore_image]; try done; try (by intros ->); try (by rewrite Ei).
    unfold include_image in Ei. by apply orb_false_elim in Ei as [-> _].
Qed.

Lemma load_app a rest n : zlen a = n → load (a ++ rest) 0 n = Ok a ∧ drop (Z.to_nat n) (a ++ rest) = rest.
Proof.
  intros <-. unfold load. pose proof (zlen_nonneg a). pose proof (zlen_nonneg rest).
  rewrite (proj2 (in_range_true _ _ _)) by (rewrite ?zlen_app; lia).
  unfold mread, zlen. rewrite drop_0, Nat2Z.id, take_app_length, drop_app_length. done.
Qed.

(** The entry of the array after decoding: that of the buffer registered
    there, or else the one from before. *)
Definition entry_ok (c : wal_conf) (info : Z) (o : option registered_buffer) (old new : option DecodedBkpBlock) : Prop :=
  match o with
  | Some b => if rb_in_use b then ∃ r, new = Some r ∧ block_decoded c info b r else new = old
  | None => new = old
  end.

Lemma decode_data_asm c info prev id bufs fs h p : asm c info prev id bufs fs h p →
  ∀ bl tail, 0 ≤ id → id + zlen bufs ≤ zlen bl →
  ∃ bl', decode_data fs bl (p ++ tail) = Ok (bl', tail) ∧ length bl' = length bl ∧
    (∀ j, (j < Z.to_nat id)%nat → bl' !! j = bl !! j) ∧
    (∀ j, entry_ok c info (bufs !! j) (bl !! (Z.to_nat id + j)%nat) (bl' !! (Z.to_nat id + j)%nat)).
Proof.
  induction 1 as [prev id|prev id b bufs fs h p Hu Hasm IH|prev id b bufs fs h p img Hu Hok Himg Hasm IH samerel];
    intros bl tail Hid Hn.
  - exists bl. done.
  - rewrite zlen_cons in Hn. destruct (IH bl tail) as (bl' & -> & Hl & Hlow & Hent); [lia..|].
    exists bl'. split_and!; [done|done|intros j Hj; apply Hlow; lia|].
    intros [|j]; cbn [lookup list_lookup]; unfold entry_ok.
    + rewrite Hu. apply Hlow. lia.
    + replace (Z.to_nat id + S j)%nat with (Z.to_nat (id + 1) + j)%nat by lia. apply Hent.
  - rewrite zlen_cons in Hn. pose proof (zlen_nonneg bufs). cbn [decode_data].
    destruct (load_app (match img with Some i => img_bytes i | None => [] end)
      ((if needs_data c b then rb_data b else []) ++ p ++ tail)
      (match bf_image (fields_of c id b img samerel) with Some i => if_len i | None => 0 end)) as [L1 D1];
      [by destruct img|].
    destruct (load_app (if needs_data c b then rb_data b else []) (p ++ tail) (bf_data_len (fields_of c id b img samerel)))
      as [L2 D2]; [cbn; by destruct (needs_data c b)|].
    unfold block_payload. rewrite <-!app_assoc, L1, D1. cbn [mbind res_bind]. rewrite L2, D2. cbn [mbind res_bind].
    change (bf_id (fields_of c id b img samerel)) with id.
    destruct (lookup_lt_is_Some_2 bl (Z.to_nat id)) as [old Hold]; [unfold zlen in *; lia|]. rewrite Hold.
    set (new := fill_block _ _ _ _).
    destruct (IH (<[Z.to_nat id := new]> bl) tail) as (bl' & -> & Hl & Hlow & Hent); [lia|unfold zlen in *; rewrite length_insert; lia|].
    rewrite length_insert in Hl. exists bl'. split_and!; [done|done|..].
    + intros j Hj. rewrite Hlow by lia. apply list_lookup_insert_ne. lia.
    + intros [|j]; cbn [lookup list_lookup]; unfold entry_ok.
      * rewrite Hu, Hlow by lia. exists new. rewrite Nat.add_0_r, list_lookup_insert_eq by (unfold zlen in *; lia).
        split; [done|]. by apply fill_block_decoded.
      * replace (Z.to_nat id + S j)%nat with (Z.to_nat (id + 1) + j)%nat by lia. specialize (Hent j).
        rewrite list_lookup_insert_ne in Hent by lia. apply Hent.
Qed.

(** ** Round trip: the record *)

Definition origin_of (c : wal_conf) (s : insert_state) : Z :=
  if has_flag (curinsert_flags s) XLOG_INCLUDE_ORIGIN && negb (replorigin_session_origin c =? InvalidRepOriginId)
  then replorigin_session_origin c else InvalidRepOriginId.

Lemma decode_main_header fuel n body dt prev hd :
  hd_main_len hd = 0 → 0 ≤ dt → 0 ≤ n → zlen body = dt + n → dt + n < 2 ^ 32 →
  (length (main_header n) ≤ fuel)%nat →
  decode_headers fuel (main_header n ++ body) dt prev hd =
  Ok (mkHdrs (hd_blocks hd) (hd_max hd) (hd_origin hd) n, body, dt + n).
Proof.
  intros Hm Hdt Hn Hb Hlt Hf. unfold main_header in *. destruct (Z.eqb_spec n 0) as [->|Hn0].
  { cbn [app] in *. rewrite Z.add_0_r in *. destruct fuel; cbn [decode_headers];
      rewrite (proj2 (Z.leb_le _ _)) by lia; destruct hd; cbn in *; by subst. }
  destruct (Z.ltb_spec 255 n).
  - rewrite <-app_assoc in *. rewrite length_app, length_le_bytes in Hf. destruct fuel as [|fuel]; [lia|]. cbn [decode_headers].
    rewrite (proj2 (Z.leb_gt _ _)) by (rewrite !zlen_app, !zlen_le_bytes; lia).
    rewrite get_field_app by (unfold XLR_BLOCK_ID_DATA_LONG; simpl; lia). cbn [mbind res_bind].
    change (XLR_BLOCK_ID_DATA_LONG =? XLR_BLOCK_ID_DATA_SHORT) with false. rewrite Z.eqb_refl. cbv iota.
    rewrite get_field_app by (simpl; lia). cbn [mbind res_bind]. by rewrite u32_small by lia.
  - rewrite <-app_assoc in *. rewrite length_app, length_le_bytes in Hf. destruct fuel as [|fuel]; [lia|]. cbn [decode_headers].
    rewrite (proj2 (Z.leb_gt _ _)) by (rewrite !zlen_app, !zlen_le_bytes; lia).
    rewrite get_field_app by (unfold XLR_BLOCK_ID_DATA_SHORT; simpl; lia). cbn [mbind res_bind].
    rewrite Z.eqb_refl. cbv iota.
    rewrite get_field_app by (simpl; lia). cbn [mbind res_bind]. by rewrite u32_small by lia.
Qed.

Lemma decode_origin_header fuel c s n body dt prev hd :
  hd_main_len hd = 0 → hd_origin hd = InvalidRepOriginId → 0 ≤ replorigin_session_origin c < 65536 →
  0 ≤ dt → 0 ≤ n → zlen body = dt + n → dt + n < 2 ^ 32 →
  (length (origin_header c s ++ main_header n) ≤ fuel)%nat →
  decode_headers fuel (origin_header c s ++ main_header n ++ body) dt prev hd =
  Ok (mkHdrs (hd_blocks hd) (hd_max hd) (origin_of c s) n, body, dt + n).
Proof.
  intros Hm Ho Hor Hdt Hn Hb Hlt Hf. unfold origin_header, origin_of in *. destruct (_ && _).
  - rewrite <-app_assoc in *. rewrite !length_app, !length_le_bytes in Hf. destruct fuel as [|fuel]; [lia|].
    cbn [decode_headers].
    rewrite (proj2 (Z.leb_gt _ _)) by (rewrite !zlen_app, !zlen_le_bytes; pose proof (zlen_nonneg (main_header n)); lia).
    rewrite get_field_app by (unfold XLR_BLOCK_ID_ORIGIN; simpl; lia). cbn [mbind res_bind].
    change (XLR_BLOCK_ID_ORIGIN =? XLR_BLOCK_ID_DATA_SHORT) with false.
    change (XLR_BLOCK_ID_ORIGIN =? XLR_BLOCK_ID_DATA_LONG) with false. rewrite Z.eqb_refl. cbv iota.
    rewrite get_field_app by (simpl; lia). cbn [mbind res_bind].
    rewrite decode_main_header by (done || lia). done.
  - cbn [app] in *. rewrite decode_main_header by done. by rewrite Ho.
Qed.

(** The array of block references as a reader keeps it: an entry beyond
    [max_block_id] is not in use. *)
Definition reader_ok (st : XLogReaderState) : Prop :=
  zlen (blocks st) = XLR_MAX_BLOCK_ID + 1 ∧ -1 ≤ max_block_id st ∧
  ∀ j b, blocks st !! j = Some b → max_block_id st < Z.of_nat j → in_use b = false.

Lemma ResetDecoder_length mx bl : length (ResetDecoder mx bl) = length bl.
Proof. unfold ResetDecoder. rewrite length_app, length_fmap, length_take, length_drop. lia. Qed.

Lemma ResetDecoder_unused st j b : reader_ok st →
  ResetDecoder (max_block_id st) (blocks st) !! j = Some b → in_use b = false.
Proof.
  intros (Hl & Hm & Hu) Hj. unfold ResetDecoder in Hj. apply lookup_app_Some in Hj as [Hj|[Hge Hj]].
  - rewrite list_lookup_fmap in Hj. by destruct (take _ _ !! j); [injection Hj as <-|].
  - rewrite length_fmap in Hj, Hge. rewrite lookup_drop in Hj. eapply Hu; [exact Hj|].
    rewrite length_take in *. apply lookup_lt_Some in Hj. unfold zlen in *. lia.
Qed.

Lemma asm_last c info prev id bufs fs h p : asm c info prev id bufs fs h p → ∀ mx, mx < id →
  mx ≤ last_id mx fs ∧ ∀ j b, bufs !! j = Some b → rb_in_use b = true → id + Z.of_nat j ≤ last_id mx fs.
Proof.
  induction 1 as [prev id|prev id b bufs fs h p Hu Hasm IH|prev id b bufs fs h p img Hu Hok Himg Hasm IH samerel];
    intros mx Hmx.
  - split; [cbn; lia|]. intros j b. by rewrite lookup_nil.
  - destruct (IH mx) as [H1 H2]; [lia|]. split; [done|]. intros [|j] b' Hj Hb'; cbn in Hj.
    + injection Hj as <-. congruence.
    + specialize (H2 j b' Hj Hb'). lia.
  - rewrite last_id_cons. change (bf_id (fields_of c id b img samerel)) with id.
    destruct (IH id) as [H1 H2]; [lia|]. split; [lia|]. intros [|j] b' Hj Hb'; cbn in Hj; [lia|].
    specialize (H2 j b' Hj Hb'). lia.
Qed.

(** The buffers of the working area that go into the record. *)
Definition record_bufs (s : insert_state) : list registered_buffer :=
  take (Z.to_nat (max_registered_block_id s)) (registered_buffers s).

Definition record_info (c : wal_conf) (info : Z) : Z :=
  if wal_consistency_checking c then Z.lor info XLR_CHECK_CONSISTENCY else info.

(** What a reader holds of a record that was assembled from [s]. *)
Record record_decoded (c : wal_conf) (info rmid : Z) (s : insert_state) (r : XLogReaderState) : Prop := {
  rd_info : xl_info r = record_info c info;
  rd_rmid : xl_rmid r = rmid;
  rd_main : main_data r = mainrdata s;
  rd_reader : reader_ok r;
  rd_blocks : ∀ id, match record_bufs s !! Z.to_nat id with
    | Some b => if rb_in_use b then ∃ blk, block_ref r id = Some blk ∧ block_decoded c (record_info c info) b blk
                else block_ref r id = None
    | None => block_ref r id = None
    end }.

Lemma block_entries c info (bufs : list registered_buffer) (bl bl' : list DecodedBkpBlock) r :
  (∀ j b, bl !! j = Some b → in_use b = false) → blocks r = bl' →
  (∀ j, entry_ok c info (bufs !! j) (bl !! j) (bl' !! j)) →
  ∀ id, match bufs !! Z.to_nat id with
    | Some b => if rb_in_use b then ∃ blk, block_ref r id = Some blk ∧ block_decoded c info b blk
                else block_ref r id = None
    | None => block_ref r id = None
    end.
Proof.
  intros Hun Hbl Hent id. specialize (Hent (Z.to_nat id)). unfold block_ref. rewrite Hbl. unfold entry_ok in Hent.
  assert (Hold : match bl !! Z.to_nat id with Some b => if in_use b then Some b else None | None => None end = None).
  { destruct (bl !! Z.to_nat id) as [old|] eqn:E; [|done]. by rewrite (Hun _ _ E). }
  destruct (bufs !! Z.to_nat id) as [b|]; [|by rewrite Hent].
  destruct (rb_in_use b); [|by rewrite Hent]. destruct Hent as (blk & -> & Hd). rewrite (bd_in_use _ _ _ _ Hd). eauto.
Qed.

Lemma decode_assembled c e s rmid info st readptr endptr xid :
  regs_ok (record_bufs s) → zlen (record_bufs s) ≤ XLR_MAX_BLOCK_ID + 1 → reader_ok st →
  0 ≤ replorigin_session_origin c < 65536 →
  ∃ a e', XLogRecordAssemble c e s rmid info = Ok (a, e') ∧
    (SizeOfXLogRecord + zlen (as_body a) < 2 ^ 32 →
     as_tot_len a = SizeOfXLogRecord + zlen (as_body a) ∧
     ∃ r, DecodeXLogRecord st readptr endptr (as_info a) (as_rmid a) xid (as_body a) = Ok r ∧
       record_decoded c info rmid s r).
Proof.
  intros Hregs Hn Hst Hor. unfold XLogRecordAssemble, record_parts. fold (record_info c info). fold (record_bufs s).
  destruct (assemble_blocks_asm c (record_info c info) _ Hregs e None 0) as (h & p & e' & fs & -> & Hasm).
  cbn [mbind res_bind]. eexists _, _. split; [done|]. cbn [as_body as_tot_len as_info as_rmid].
  set (m := mainrdata s). set (o := origin_header c s). intros Hsz. unfold SizeOfXLogRecord in *.
  assert (Hsz' := Hsz). rewrite !zlen_app in Hsz'. pose proof (zlen_nonneg m). pose proof (zlen_nonneg p). pose proof (zlen_nonneg h).
  pose proof (zlen_nonneg o). pose proof (zlen_nonneg (main_header (zlen m))).
  split; [rewrite u32_small; rewrite !zlen_app in *; lia|]. unfold DecodeXLogRecord. rewrite <-!app_assoc.
  set (body := h ++ _).
  assert (Hlen : (length h + length (o ++ main_header (zlen m)) ≤ length body)%nat)
    by (unfold body; rewrite !length_app; lia).
  destruct (decode_headers_asm _ _ _ _ _ _ _ _ Hasm (S (length body)) (o ++ main_header (zlen m) ++ p ++ m) 0
    (mkHdrs [] (-1) InvalidRepOriginId 0)) as (fuel' & prev' & Hf & Heq); try (rewrite ?zlen_app; cbn [hd_max]; lia).
  fold body in Heq. rewrite Heq. cbn [hd_blocks hd_max hd_origin hd_main_len app].
  unfold o. rewrite (decode_origin_header _ c s (zlen m)); cbn [hd_main_len hd_origin]; try done; try (rewrite ?zlen_app; lia).
  2: { unfold o in *. lia. }
  cbn [mbind res_bind hd_blocks hd_max hd_main_len]. rewrite zlen_app, Z.add_0_l, Z.eqb_refl. cbn [negb].
  destruct Hst as (Hbl & Hmx & Hun) eqn:Est. clear Est.
  destruct (decode_data_asm _ _ _ _ _ _ _ _ Hasm (ResetDecoder (max_block_id st) (blocks st)) m) as (bl' & -> & Hl & _ & Hent);
    [lia|unfold zlen at 2; rewrite ResetDecoder_length; fold (zlen (blocks st)); lia|].
  cbn [mbind res_bind]. rewrite ResetDecoder_length in Hl.
  assert (Hmain : (if 0 <? zlen m then load m 0 (zlen m) else Ok []) = Ok m).
  { destruct (Z.ltb_spec 0 (zlen m)); [|by destruct m; [|unfold zlen in *; cbn in *; lia]].
    destruct (load_app m [] (zlen m)) as [L _]; [done|]. by rewrite app_nil_r in L. }
  rewrite Hmain. cbn [mbind res_bind]. eexists. split; [done|].
  assert (Hun' : ∀ j b, ResetDecoder (max_block_id st) (blocks st) !! j = Some b → in_use b = false)
    by (intros; by eapply ResetDecoder_unused).
  destruct (asm_last _ _ _ _ _ _ _ _ Hasm (-1)) as [Hlo Hlast]; [lia|].
  constructor; try done.
  - split_and!; [unfold zlen in *; cbn; lia|done|]. intros j b Hj Hgt. cbn [blocks max_block_id] in Hj, Hgt. specialize (Hent j).
    change (Z.to_nat 0 + j)%nat with j in Hent. unfold entry_ok in Hent. rewrite Hj in Hent.
    destruct (record_bufs s !! j) as [b'|] eqn:Eb; [|by eapply Hun'].
    destruct (rb_in_use b') eqn:Eu; [|by eapply Hun']. specialize (Hlast j b' Eb Eu). lia.
  - by eapply block_entries.
Qed.
