(* ===== verification/XLogSpec.v ===== *)
(** * The theorems of record construction and decoding

    What the pair [XLogRecordAssemble] / [DecodeXLogRecord] promises to the
    code that writes records and to the code that replays them. *)

From S2P Require Import Prelude Mem Page PageAdd Checksum PageSpec Buffer Pglz WalRecord XLogInsert XLogDecode.

(** ** Pages whose hole is zeroed *)

Section hole.
Context (p : page) (Hwf : page_wf p).

Let off := pd_lower p.
Let len := pd_upper p - pd_lower p.

Lemma hole_lookup (i : nat) : ¬ (off ≤ Z.of_nat i < off + len) → hole_zeroed p off len !! i = p !! i.
Proof using All.
intros Hi. destruct (wf_hdr p Hwf) as [Hl _ H1 _ H2 _ H3 H4 _]. unfold hole_zeroed, off, len in *.
destruct (Z.eqb_spec (pd_upper p - pd_lower p) 0); [done|]. unfold BLCKSZ in *.
assert (Ha : length (mread p 0 (pd_lower p)) = Z.to_nat (pd_lower p))
by (pose proof (zlen_mread p 0 (pd_lower p)); unfold zlen in *; lia).
destruct (decide (Z.of_nat i < pd_lower p)).
- rewrite lookup_app_l by lia. rewrite mread_lookup by lia. case_decide; [f_equal; lia|lia].
- rewrite lookup_app_r by lia. rewrite lookup_app_r by (rewrite length_replicate; lia).
rewrite length_replicate, Ha, mread_lookup by lia. case_decide.
+ f_equal. lia.
+ symmetry. apply lookup_ge_None_2. unfold zlen in *. lia.
Qed.

Lemma hole_len : zlen (hole_zeroed p off len) = zlen p.
Proof using All.
destruct (wf_hdr p Hwf) as [Hl _ H1 _ H2 _ H3 H4 _]. unfold hole_zeroed, off, len, BLCKSZ in *.
destruct (Z.eqb_spec (pd_upper p - pd_lower p) 0); [done|].
rewrite !zlen_app, !zlen_mread by lia. unfold zlen at 1. rewrite length_replicate. lia.
Qed.

Lemma hole_mread o l : 0 ≤ o → o + l ≤ off ∨ off + len ≤ o → mread (hole_zeroed p off len) o l = mread p o l.
Proof using All.
intros Ho Hr. apply list_eq. intros i. rewrite !mread_lookup by lia. case_decide; [|done]. apply hole_lookup. lia.
Qed.

Lemma hole_mget n o : 0 ≤ o → o + Z.of_nat n ≤ off ∨ off + len ≤ o → mget n (hole_zeroed p off len) o = mget n p o.
Proof using All. intros. unfold mget. by rewrite hole_mread. Qed.

Lemma hole_bytes : Forall is_byte (hole_zeroed p off len).
Proof using All.
destruct (wf_hdr p Hwf) as [_ Hb _ _ _ _ _ _ _]. unfold hole_zeroed. destruct (_ =? _); [done|].
rewrite !Forall_app. split_and!; [by apply mread_byte|apply Forall_replicate; unfold is_byte; lia|by apply mread_byte].
Qed.

Lemma hole_itemid i : 1 ≤ i ≤ PageGetMaxOffsetNumber p →
PageGetItemId (hole_zeroed p off len) i = PageGetItemId p i.
Proof using All.
intros Hi. destruct (wf_hdr p Hwf) as [_ Hb H1 Hm _ _ _ _ _].
destruct (linp_addr_range p i) as [Ha1 Ha2]; [by apply wf_hdr|done|].
unfold PageGetItemId. f_equal. apply hole_mget; unfold off; lia.
Qed.

Lemma hole_fields (f : page → Z) : f ∈ [pd_lower; pd_upper; pd_special] → f (hole_zeroed p off len) = f p.
Proof using All.
pose proof (wf_lower p (wf_hdr p Hwf)).
rewrite !elem_of_cons, elem_of_nil. intros [->|[->|[->|[]]]]; apply hole_mget; unfold off; lia.
Qed.

Lemma hole_maxoff : PageGetMaxOffsetNumber (hole_zeroed p off len) = PageGetMaxOffsetNumber p.
Proof using All. unfold PageGetMaxOffsetNumber. by rewrite (hole_fields pd_lower) by set_solver. Qed.

Lemma hole_wf : page_wf (hole_zeroed p off len).
Proof using All.
pose proof hole_maxoff as Hm. pose proof hole_len as Hl. pose proof hole_bytes as Hb.
pose proof (hole_fields pd_lower ltac:(set_solver)) as Hlo. pose proof (hole_fields pd_upper ltac:(set_solver)) as Hup.
pose proof (hole_fields pd_special ltac:(set_solver)) as Hsp. destruct Hwf as [[] Hi Hd] eqn:E. clear E. split.
- constructor; rewrite ?Hlo, ?Hup, ?Hsp, ?Hl; auto.
- intros i. rewrite Hm. intros Hr. rewrite hole_itemid by done. unfold lp_in. rewrite Hup, Hsp. by apply Hi.
- intros i j. rewrite Hm. intros ??. rewrite !hole_itemid by done. by apply Hd.
Qed.

Lemma hole_slots : page_slots (hole_zeroed p off len) = page_slots p.
Proof using All.
apply page_slots_ext; [exact hole_maxoff|]. rewrite hole_maxoff. intros i Hr. unfold slot_at. rewrite hole_itemid by done.
unfold slot_of, PageGetItemBytes. destruct (Z.eqb_spec (lp_len (PageGetItemId p i)) 0) as [|Hn]; [done|].
destruct (wf_item p Hwf i Hr Hn) as [Hu _]. pose proof (wf_hdr p Hwf) as [_ _ H1 _ H2 _ _ _ _].
f_equal. apply hole_mread; unfold off, len in *; lia.
Qed.
End hole.

(** The page an image restores, for a page that was registered as standard. *)
Lemma restored_page_wf b :
  page_wf (rb_page b) → page_wf (restored_page b) ∧ page_slots (restored_page b) = page_slots (rb_page b) ∧
  PageGetLSN (restored_page b) = PageGetLSN (rb_page b).
Proof.
  intros Hwf. unfold restored_page, page_hole.
  assert (Hz : hole_zeroed (rb_page b) 0 0 = rb_page b) by done.
  destruct (has_flag _ _); [|by rewrite Hz]. destruct (_ && _); [|by rewrite Hz].
  split_and!; [by apply hole_wf|by apply hole_slots|].
  pose proof (wf_lower _ (wf_hdr _ Hwf)). unfold PageGetLSN. by rewrite !hole_mget by (done || lia).
Qed.


(** ** Sizes *)

Lemma asm_payload_size c info prev id bufs fs h p :
  asm c info prev id bufs fs h p → zlen p ≤ 73727 * zlen bufs.
Proof.
  induction 1 as [prev id|prev id b bufs fs h p Hu Hasm IH|prev id b bufs fs h p img Hu Hok Himg Hasm IH samerel];
    rewrite ?zlen_cons; [done|lia|]. rewrite zlen_app. unfold block_payload. rewrite zlen_app.
  assert (zlen (match img with Some i => img_bytes i | None => [] end) ≤ 8192).
  { destruct img as [i|]; [|done]. pose proof (image_of_ok c info b _ i Himg eq_refl) as Hi. apply (io_len i), (if_ok c b i Hi). }
  assert (zlen (if needs_data c b then rb_data b else []) ≤ 65535).
  { pose proof (ro_data b Hok). destruct (needs_data c b); [lia|done]. }
  lia.
Qed.

Lemma assembled_size c e s rmid info a e' :
  ins_inv s → regs_ok (record_bufs s) → zlen (mainrdata s) ≤ 2 ^ 32 - 2 ^ 22 →
  XLogRecordAssemble c e s rmid info = Ok (a, e') → SizeOfXLogRecord + zlen (as_body a) < 2 ^ 32.
Proof.
  intros Hs Hregs Hm H. unfold XLogRecordAssemble in H. fold (record_info c info) in H.
  destruct (record_parts c e s (record_info c info)) as [[[h p] e1]|] eqn:E; cbn [mbind res_bind] in H; [|done].
  apply Ok_inj, pair_equal_spec, proj1 in H as <-. cbn [as_body]. rewrite zlen_app.
  pose proof (record_parts_size _ _ _ _ _ _ _ Hs E) as Hsz. unfold record_parts in E. fold (record_bufs s) in E.
  destruct (assemble_blocks_asm c (record_info c info) _ Hregs e None 0) as (h1 & p1 & e2 & fs & Heq & Hasm).
  rewrite Heq in E. cbn [mbind res_bind] in E. apply Ok_inj, pair_equal_spec, proj1, pair_equal_spec, proj2 in E as <-.
  apply asm_payload_size in Hasm. rewrite zlen_app.
  assert (zlen (record_bufs s) ≤ 33).
  { pose proof (iv_bufs s Hs) as [_ Hb]. unfold record_bufs, zlen in *. rewrite length_take. unfold XLR_MAX_BLOCK_ID in *. lia. }
  change HEADER_SCRATCH_SIZE with 923 in Hsz. lia.
Qed.

(** ** The theorems *)

(** [XLogRegisterBlock] raises [max_registered_block_id] before it checks
    the bound, so after its error "too many registered buffers" the clean-up
    by [XLogResetInsertion] writes past the end of the array. *)
Lemma register_block_error s id rn fk bn p fl :
  ins_reach s → zlen (registered_buffers s) ≤ id →
  ∃ s', XLogRegisterBlock id rn fk bn p fl s = (s', true) ∧ registered_buffers s' = registered_buffers s ∧ max_registered_block_id s' = id + 1 ∧
    XLogResetInsertion s' = Err EOob.
Proof.
  intros Hs%ins_inv_reach Hid. pose proof (iv_max s Hs). unfold XLogRegisterBlock.
  rewrite (proj2 (Z.leb_le _ _) Hid), (proj2 (Z.leb_le (max_registered_block_id s) id)) by lia. eexists. split_and!; [done..|].
  unfold XLogResetInsertion, set_regbufs. cbn [registered_buffers max_registered_block_id]. by rewrite (proj2 (Z.ltb_lt _ _)) by lia.
Qed.

(** C32: the working area of record construction keeps its invariant.  After calls
    that succeed, in any order that respects the assertions ([ins_reach]), the array
    has between 5 and 33 entries, blocks in use lie below
    [max_registered_block_id], which lies within the array, the chunk counter
    within its array; and between two records the area is empty, so nothing
    registered for one record can leak into the next.  Of the calls that follow, those
    that fail included, every one leads to such a state again, except for a
    block id outside of the array in two functions: [XLogRegisterBlock] raises its
    error, but with [max_registered_block_id] beyond the array, so that the next
    [XLogResetInsertion] writes past its end; and [XLogRegisterBufData] reads past
    its end. *)
Theorem registration_invariant s :
  ins_reach s →
  (XLR_NORMAL_MAX_BLOCK_ID + 1 ≤ zlen (registered_buffers s) ≤ XLR_MAX_BLOCK_ID + 1 ∧
   0 ≤ max_registered_block_id s ≤ zlen (registered_buffers s) ∧
   0 ≤ num_rdatas s ≤ max_rdatas s ∧
   (∀ j b, registered_buffers s !! j = Some b → rb_in_use b = true → Z.of_nat j < max_registered_block_id s) ∧
   (begininsert_called s = false → mainrdata s = [] ∧ num_rdatas s = 0 ∧ curinsert_flags s = 0 ∧
      Forall (λ b, rb_in_use b = false) (registered_buffers s))) ∧
  (∀ c, asserted c s → beyond_array c s = false → ∃ s', ins_exec c s = Ok s' ∧ ins_reach s') ∧
  (∀ id rn fk bn p fl, zlen (registered_buffers s) ≤ id →
     ∃ s', XLogRegisterBlock id rn fk bn p fl s = (s', true) ∧ registered_buffers s' = registered_buffers s ∧
       max_registered_block_id s' = id + 1 ∧ XLogResetInsertion s' = Err EOob) ∧
  (∀ id d, zlen (registered_buffers s) ≤ id → XLogRegisterBufData id d s = Err EOob).
Proof.
  intros Hs. pose proof (ins_inv_reach s Hs) as [H1 H2 H3 H4 H5]. split; [|split_and!].
  - split_and!; try tauto; try lia; try exact H3.
    intros Hb. destruct (H5 Hb) as (Hm & ? & ? & ?). split_and!; try done.
    apply Forall_lookup. intros j b Hj. destruct (rb_in_use b) eqn:E; [|done]. specialize (H3 _ _ Hj E). lia.
  - intros c. by apply exec_reach.
  - intros *. by apply register_block_error.
  - intros id d Hid. unfold XLogRegisterBufData. rewrite lookup_ge_None_2; [done|]. unfold zlen in Hid. lia.
Qed.

(** The headers of a record never outgrow [hdr_scratch], whatever was
    registered. *)
Theorem header_scratch_fits c e s info h p e' :
  ins_reach s → record_parts c e s info = Ok (h, p, e') → SizeOfXLogRecord + zlen h ≤ HEADER_SCRATCH_SIZE.
Proof. intros Hs. by apply record_parts_size, ins_inv_reach. Qed.

(** Assembly and decoding of the records of a backend. *)
Lemma assemble_decode_reach c e s rmid info st readptr endptr xid :
  ins_reach s → regs_ok (record_bufs s) → zlen (mainrdata s) ≤ 2 ^ 32 - 2 ^ 22 →
  0 ≤ replorigin_session_origin c < 65536 → reader_ok st →
  ∃ a e' r, XLogRecordAssemble c e s rmid info = Ok (a, e') ∧
    as_tot_len a = SizeOfXLogRecord + zlen (as_body a) ∧
    DecodeXLogRecord st readptr endptr (as_info a) (as_rmid a) xid (as_body a) = Ok r ∧
    record_decoded c info rmid s r.
Proof.
  intros Hs%ins_inv_reach Hregs Hm Hor Hst.
  assert (Hn : zlen (record_bufs s) ≤ XLR_MAX_BLOCK_ID + 1).
  { pose proof (iv_bufs s Hs) as [_ Hb]. unfold record_bufs, zlen in *. rewrite length_take. lia. }
  destruct (decode_assembled c e s rmid info st readptr endptr xid Hregs Hn Hst Hor) as (a & e' & Ha & Hd).
  destruct Hd as (Ht & r & Hr & Hrec); [by eapply assembled_size|]. eauto 10.
Qed.

(** C10: assembling a record and decoding its bytes is a round trip.  For a
    working area reached by registration calls that succeed, in which the blocks
    in use have pages of [BLCKSZ] bytes, a fork number below 16 and at most 65535
    bytes of data each ([regs_ok]), with main data of at most 2^32 - 2^22 bytes and a
    replication origin of 16 bits, [XLogRecordAssemble] gives a record with the right
    length, and [DecodeXLogRecord], run by a reader in any state, accepts it and gives
    back the main data and exactly the registered blocks: tag, will-init flag, data
    when it is needed, whether the image is to be applied, and an image that
    restores to the page with its hole zeroed.  Larger areas are not claimed: the
    code has no check, and the 16-bit length wraps. *)
Theorem assemble_decode c e s rmid info st readptr endptr xid :
  ins_reach s → regs_ok (record_bufs s) → zlen (mainrdata s) ≤ 2 ^ 32 - 2 ^ 22 →
  0 ≤ replorigin_session_origin c < 65536 → reader_ok st →
  ∃ a e' r, XLogRecordAssemble c e s rmid info = Ok (a, e') ∧
    as_tot_len a = SizeOfXLogRecord + zlen (as_body a) ∧
    DecodeXLogRecord st readptr endptr (as_info a) (as_rmid a) xid (as_body a) = Ok r ∧
    record_decoded c info rmid s r.
Proof. apply assemble_decode_reach. Qed.

(** The blocks in use are those that go into the record. *)
Lemma used_in_record s j b : ins_reach s → registered_buffers s !! j = Some b → rb_in_use b = true → record_bufs s !! j = Some b.
Proof.
  intros Hs%ins_inv_reach Hj Hu. pose proof (iv_used s Hs j b Hj Hu). unfold record_bufs. by rewrite lookup_take_lt by lia.
Qed.

(** An image goes into the record when it is forced, or to check the replay. *)
Lemma image_included c info b : has_flag (rb_flags b) REGBUF_FORCE_IMAGE = true ∨ wal_consistency_checking c = true → include_image c (record_info c info) b = true.
Proof.
  unfold include_image, needs_backup, record_info. intros [->| ->]; [done|]. pose proof (has_flag_set info XLR_CHECK_CONSISTENCY ltac:(done)) as H. unfold set_flag in H. rewrite H. apply orb_true_r.
Qed.

(** C21: a full-page image brings back the page, from registration to restoring.
    Let a well-formed page be registered, with a forced image or while the
    consistency check is on, in a working area as for [assemble_decode].  Then the
    record is assembled, with compression or without, its bytes are decoded, and
    restoring the image of the block from the decoded record gives a well-formed
    page with the same slots and the same LSN; the image is to be applied exactly
    when it was forced. *)
Theorem image_restores_page c e s rmid info st readptr endptr xid id b :
  ins_reach s → regs_ok (record_bufs s) → zlen (mainrdata s) ≤ 2 ^ 32 - 2 ^ 22 →
  0 ≤ replorigin_session_origin c < 65536 → reader_ok st →
  registered_buffers s !! Z.to_nat id = Some b → rb_in_use b = true → page_wf (rb_page b) →
  has_flag (rb_flags b) REGBUF_FORCE_IMAGE = true ∨ wal_consistency_checking c = true →
  ∃ a e' r q, XLogRecordAssemble c e s rmid info = Ok (a, e') ∧
    DecodeXLogRecord st readptr endptr (as_info a) (as_rmid a) xid (as_body a) = Ok r ∧
    RestoreBlockImage r id = Ok (Some q) ∧ XLogRecBlockImageApply r id = has_flag (rb_flags b) REGBUF_FORCE_IMAGE ∧
    page_wf q ∧ page_slots q = page_slots (rb_page b) ∧ PageGetLSN q = PageGetLSN (rb_page b).
Proof.
  intros Hs Hregs Hm Hor Hst Hj Hu Hwf Hi. destruct (assemble_decode_reach c e s rmid info st readptr endptr xid Hs Hregs Hm Hor Hst) as (a & e' & r & Ha & _ & Hr & Hd).
  pose proof (rd_blocks _ _ _ _ _ Hd id) as H. rewrite (used_in_record s _ b Hs Hj Hu), Hu in H. destruct H as (blk & Hb & Hblk).
  exists a, e', r, (restored_page b). unfold RestoreBlockImage. rewrite Hb, (bd_image _ _ _ _ Hblk (image_included c info b Hi)). do 3 (split; [done|]). split; [|by apply restored_page_wf].
  unfold XLogRecBlockImageApply, block_ref in *. destruct (blocks r !! Z.to_nat id) as [blk'|]; [|done]. destruct (in_use blk'); [|done]. injection Hb as ->. rewrite (bd_apply _ _ _ _ Hblk). unfold needs_backup. by repeat case_match.
Qed.

(** ** A record with an image and a record with data *)

Definition sample_conf : wal_conf := mkWalConf true false false 0.
Definition sample_rel : RelFileNode := mkRel 1663 13580 16384.

Definition sample_reg0 : registered_buffer :=
  mkReg true (Z.lor REGBUF_FORCE_IMAGE REGBUF_STANDARD) sample_rel 0 7 sample_page [].
Definition sample_reg2 : registered_buffer := mkReg true REGBUF_STANDARD sample_rel 0 9 sample_page [1; 2; 3].

(** Block 0 with a forced image, block 2 with three bytes of data, and two
    bytes of main data. *)
Definition sample_area : insert_state :=
  mkIns [sample_reg0; zero_regbuf; sample_reg2; zero_regbuf; zero_regbuf] 3 [5; 6] 2 XLR_NORMAL_RDATAS 0 true.

Definition empty_reader : XLogReaderState :=
  mkRec 0 0 0 0 0 [] (-1)
    (replicate 33 (mkBlk false (mkRel 0 0 0) 0 0 0 false false [] 0 0 0 false [])).

Lemma sample_area_reach : ins_reach sample_area.
Proof.
  pose proof (reach_begin true _ _ reach_init eq_refl) as H.
  pose proof (reach_buffer 0 (mkTag sample_rel 0 7) sample_page (Z.lor REGBUF_FORCE_IMAGE REGBUF_STANDARD) _ _
    H eq_refl ltac:(lia) eq_refl) as H1.
  pose proof (reach_buffer 2 (mkTag sample_rel 0 9) sample_page REGBUF_STANDARD _ _ H1 eq_refl ltac:(lia) eq_refl) as H2.
  pose proof (reach_bufdata 2 [1; 2; 3] _ _ H2 eq_refl ltac:(lia) eq_refl) as H3.
  exact (reach_data [5; 6] _ _ H3 eq_refl eq_refl).
Qed.

Lemma sample_reg_ok fl blk d :
  0 ≤ blk < 2 ^ 32 → zlen d < 65536 → reg_ok (mkReg true fl sample_rel 0 blk sample_page d).
Proof.
  intros Hb Hd. pose proof (wf_hdr _ sample_page_wf) as [Hl Hby _ _ _ _ _ _ _].
  constructor; cbn [rb_page rb_forkno rb_rnode rb_block rb_data]; try done; try lia.
Qed.

Lemma sample_regs : regs_ok (record_bufs sample_area).
Proof.
  change (record_bufs sample_area) with [sample_reg0; zero_regbuf; sample_reg2].
  apply Forall_cons. split; [intros _; by apply sample_reg_ok|].
  apply Forall_cons. split; [done|].
  apply Forall_singleton. intros _. by apply sample_reg_ok.
Qed.

Lemma empty_reader_ok : reader_ok empty_reader.
Proof. split_and!; [done|done|]. intros j b Hj _. apply (lookup_replicate_1 33) in Hj as [-> _]. done. Qed.

Lemma registration_invariant_witness :
  0 ≤ max_registered_block_id sample_area ≤ zlen (registered_buffers sample_area) ∧
  (∃ s', ins_exec (CallBuffer 9 (mkTag sample_rel 0 7) sample_page 0) sample_area = Ok s' ∧ ins_reach s') ∧
  ∃ s', XLogRegisterBlock 5 sample_rel 0 0 sample_page REGBUF_FORCE_IMAGE sample_area = (s', true) ∧ max_registered_block_id s' = 6 ∧ XLogResetInsertion s' = Err EOob.
Proof.
  destruct (registration_invariant sample_area sample_area_reach) as (H1 & H2 & H3 & _). split; [apply H1|]. split; [by apply H2|].
  destruct (H3 5 sample_rel 0 0 sample_page REGBUF_FORCE_IMAGE) as (s' & E & _ & Em & Er); [vm_compute; congruence|]. by exists s'.
Defined.

Lemma header_scratch_fits_witness :
  ∃ h p e, record_parts sample_conf ∅ sample_area 0 = Ok (h, p, e) ∧ SizeOfXLogRecord + zlen h ≤ HEADER_SCRATCH_SIZE.
Proof.
  eexists _, _, _. split; [reflexivity|].
  eapply (header_scratch_fits sample_conf ∅ sample_area 0); [apply sample_area_reach|reflexivity].
Defined.

Lemma assemble_decode_witness :
  ∃ a e' r, XLogRecordAssemble sample_conf ∅ sample_area 10 0 = Ok (a, e') ∧
    as_tot_len a = SizeOfXLogRecord + zlen (as_body a) ∧
    DecodeXLogRecord empty_reader 100 200 (as_info a) (as_rmid a) 3 (as_body a) = Ok r ∧
    record_decoded sample_conf 0 10 sample_area r.
Proof.
  apply (assemble_decode sample_conf ∅ sample_area 10 0 empty_reader 100 200 3);
    [apply sample_area_reach|apply sample_regs|vm_compute; congruence|vm_compute; intuition congruence|apply empty_reader_ok].
Defined.

Lemma image_restores_page_witness :
  ∃ a e' r q, XLogRecordAssemble sample_conf ∅ sample_area 10 0 = Ok (a, e') ∧
    DecodeXLogRecord empty_reader 100 200 (as_info a) (as_rmid a) 3 (as_body a) = Ok r ∧
    RestoreBlockImage r 0 = Ok (Some q) ∧ XLogRecBlockImageApply r 0 = true ∧
    page_wf q ∧ page_slots q = page_slots sample_page ∧ PageGetLSN q = PageGetLSN sample_page.
Proof.
  apply (image_restores_page sample_conf ∅ sample_area 10 0 empty_reader 100 200 3 0 sample_reg0);
    [apply sample_area_reach|apply sample_regs|vm_compute; congruence|vm_compute; intuition congruence|apply empty_reader_ok|reflexivity|reflexivity|apply sample_page_wf|left; reflexivity].
Defined.
