(* ===== verification/HeapTuple.v ===== *)
(** * Heap tuple headers: [htup_details.h], [itemptr.h]

    A tuple header is laid over a block of bytes at an address: a buffer page
    at the item's offset, or a private buffer at 0.  The file has the accessor
    macros and the helpers of [heapam.c], [pruneheap.c] and [transam.c] the
    redo routines use. *)

From S2P Require Import Prelude Mem Page PageAdd PageIndex PageCompact Checksum Buffer WalRecord.

(** ** Constants *)

Definition HEAP_XMAX_KEYSHR_LOCK : Z := 0x0010.
Definition HEAP_COMBOCID : Z := 0x0020.
Definition HEAP_XMAX_EXCL_LOCK : Z := 0x0040.
Definition HEAP_XMAX_LOCK_ONLY : Z := 0x0080.
Definition HEAP_XMAX_SHR_LOCK : Z := Z.lor HEAP_XMAX_EXCL_LOCK HEAP_XMAX_KEYSHR_LOCK.
Definition HEAP_LOCK_MASK : Z :=
  Z.lor HEAP_XMAX_SHR_LOCK (Z.lor HEAP_XMAX_EXCL_LOCK HEAP_XMAX_KEYSHR_LOCK).
Definition HEAP_XMAX_COMMITTED : Z := 0x0400.
Definition HEAP_XMAX_INVALID : Z := 0x0800.
Definition HEAP_XMAX_IS_MULTI : Z := 0x1000.
Definition HEAP_MOVED_OFF : Z := 0x4000.
Definition HEAP_MOVED_IN : Z := 0x8000.
Definition HEAP_MOVED : Z := Z.lor HEAP_MOVED_OFF HEAP_MOVED_IN.
Definition HEAP_XMAX_BITS : Z :=
  Z.lor (Z.lor (Z.lor (Z.lor HEAP_XMAX_COMMITTED HEAP_XMAX_INVALID) HEAP_XMAX_IS_MULTI)
    HEAP_LOCK_MASK) HEAP_XMAX_LOCK_ONLY.
Definition HEAP_KEYS_UPDATED : Z := 0x2000.
Definition HEAP_HOT_UPDATED : Z := 0x4000.
Definition XLHL_XMAX_IS_MULTI : Z := 0x01.
Definition XLHL_XMAX_LOCK_ONLY : Z := 0x02.
Definition XLHL_XMAX_EXCL_LOCK : Z := 0x04.
Definition XLHL_XMAX_KEYSHR_LOCK : Z := 0x08.
Definition XLHL_KEYS_UPDATED : Z := 0x10.
Definition InvalidTransactionId : Z := 0.
Definition FrozenTransactionId : Z := 2.
Definition FirstNormalTransactionId : Z := 3.
Definition FirstCommandId : Z := 0.
Definition MovedPartitionsOffsetNumber : Z := 0xfffd.
Definition MovedPartitionsBlockNumber : Z := InvalidBlockNumber.

Definition HEAP_XMAX_IS_LOCKED_ONLY (infomask : Z) : bool :=
  has_flag infomask HEAP_XMAX_LOCK_ONLY
  || (Z.land infomask (Z.lor HEAP_XMAX_IS_MULTI HEAP_LOCK_MASK) =? HEAP_XMAX_EXCL_LOCK).

(** ** Header fields at address [a] *)

Section fields.
Context (m : mem) (a : Z).

Definition t_xmin : Z := mget 4 m a.
Definition t_xmax : Z := mget 4 m (a + 4).
Definition t_cid : Z := mget 4 m (a + 8).
Definition t_infomask2 : Z := mget 2 m (a + 18).
Definition t_infomask : Z := mget 2 m (a + 20).
Definition t_hoff : Z := mget 1 m (a + 22).

Definition HeapTupleHeaderSetXmin (xid : Z) : mem := mput 4 m a xid.
Definition HeapTupleHeaderSetXmax (xid : Z) : mem := mput 4 m (a + 4) xid.
Definition set_t_cid (cid : Z) : mem := mput 4 m (a + 8) cid.
Definition set_t_infomask2 (v : Z) : mem := mput 2 m (a + 18) v.
Definition set_t_infomask (v : Z) : mem := mput 2 m (a + 20) v.
Definition set_t_hoff (v : Z) : mem := mput 1 m (a + 22) v.
End fields.

(** [t_ctid]: a block number in two halves, the high one first, and an offset
    number. *)
Definition ItemPointerSet (m : mem) (a blk off : Z) : mem :=
  let p := a + 12 in
  mput 2 (mput 2 (mput 2 m p (Z.shiftr blk 16)) (p + 2) (Z.land blk 0xffff)) (p + 4) off.
Definition ItemPointerGetBlockNumber (m : mem) (a : Z) : Z :=
  Z.lor (Z.shiftl (mget 2 m (a + 12)) 16) (mget 2 m (a + 14)).
Definition ItemPointerGetOffsetNumber (m : mem) (a : Z) : Z := mget 2 m (a + 16).

Definition HeapTupleHeaderSetMovedPartitions (m : mem) (a : Z) : mem :=
  ItemPointerSet m a MovedPartitionsBlockNumber MovedPartitionsOffsetNumber.

(** [SetCmin] and [SetCmax(.., false)] store the command id and clear the
    combo bit. *)
Definition HeapTupleHeaderSetCmin (m : mem) (a cid : Z) : mem :=
  let m := set_t_cid m a cid in
  set_t_infomask m a (clear_flag (t_infomask m a) HEAP_COMBOCID).
Definition HeapTupleHeaderSetCmax (m : mem) (a cid : Z) (iscombo : bool) : mem :=
  let m := set_t_cid m a cid in
  set_t_infomask m a (if iscombo then set_flag (t_infomask m a) HEAP_COMBOCID
                      else clear_flag (t_infomask m a) HEAP_COMBOCID).
Definition HeapTupleHeaderSetXvac (m : mem) (a xid : Z) : mem := set_t_cid m a xid.
Definition HeapTupleHeaderSetHotUpdated (m : mem) (a : Z) : mem :=
  set_t_infomask2 m a (set_flag (t_infomask2 m a) HEAP_HOT_UPDATED).
Definition HeapTupleHeaderClearHotUpdated (m : mem) (a : Z) : mem :=
  set_t_infomask2 m a (clear_flag (t_infomask2 m a) HEAP_HOT_UPDATED).

(** [fix_infomask_from_infobits], on the two words. *)
Definition fix_infomask_from_infobits (infobits infomask infomask2 : Z) : Z * Z :=
  let infomask := clear_flag infomask
    (Z.lor (Z.lor HEAP_XMAX_IS_MULTI HEAP_XMAX_LOCK_ONLY) (Z.lor HEAP_XMAX_KEYSHR_LOCK HEAP_XMAX_EXCL_LOCK)) in
  let infomask2 := clear_flag infomask2 HEAP_KEYS_UPDATED in
  let infomask := if has_flag infobits XLHL_XMAX_IS_MULTI then set_flag infomask HEAP_XMAX_IS_MULTI else infomask in
  let infomask := if has_flag infobits XLHL_XMAX_LOCK_ONLY then set_flag infomask HEAP_XMAX_LOCK_ONLY else infomask in
  let infomask := if has_flag infobits XLHL_XMAX_EXCL_LOCK then set_flag infomask HEAP_XMAX_EXCL_LOCK else infomask in
  let infomask := if has_flag infobits XLHL_XMAX_KEYSHR_LOCK then set_flag infomask HEAP_XMAX_KEYSHR_LOCK else infomask in
  let infomask2 := if has_flag infobits XLHL_KEYS_UPDATED then set_flag infomask2 HEAP_KEYS_UPDATED else infomask2 in
  (infomask, infomask2).

(** The call on the header at [a]. *)
Definition fix_infomask_at (m : mem) (a infobits : Z) : mem :=
  let '(im, im2) := fix_infomask_from_infobits infobits (t_infomask m a) (t_infomask2 m a) in
  set_t_infomask2 (set_t_infomask m a im) a im2.

(** ** Transaction ids and page prunability *)

Definition TransactionIdIsNormal (xid : Z) : bool := FirstNormalTransactionId <=? xid.
Definition TransactionIdIsValid (xid : Z) : bool := negb (xid =? InvalidTransactionId).

(** [(int32) (id1 - id2) < 0], on 32-bit words. *)
Definition TransactionIdPrecedes (id1 id2 : Z) : bool :=
  if negb (TransactionIdIsNormal id1) || negb (TransactionIdIsNormal id2) then id1 <? id2
  else 2 ^ 31 <=? u32 (id1 - id2).

Definition PageSetPrunable (p : page) (xid : Z) : page :=
  if negb (TransactionIdIsValid (pd_prune_xid p)) || TransactionIdPrecedes xid (pd_prune_xid p)
  then set_pd_prune_xid p xid else p.

(** ** Freezing and pruning *)

Definition XLH_FREEZE_XVAC : Z := 0x02.
Definition XLH_INVALID_XVAC : Z := 0x04.

Record xl_heap_freeze_tuple : Type := mkFreeze {
  frz_xmax : Z; frz_offset : Z; frz_infomask2 : Z; frz_infomask : Z; frzflags : Z }.

Definition heap_execute_freeze_tuple (m : mem) (a : Z) (frz : xl_heap_freeze_tuple) : mem :=
  let m := HeapTupleHeaderSetXmax m a (frz_xmax frz) in
  let m := if has_flag (frzflags frz) XLH_FREEZE_XVAC
           then HeapTupleHeaderSetXvac m a FrozenTransactionId else m in
  let m := if has_flag (frzflags frz) XLH_INVALID_XVAC
           then HeapTupleHeaderSetXvac m a InvalidTransactionId else m in
  let m := set_t_infomask m a (frz_infomask frz) in
  set_t_infomask2 m a (frz_infomask2 frz).

(** A line pointer update at an offset number that comes from outside. *)
Definition lp_update (p : page) (off : Z) (lp : ItemIdData) : res page :=
  if in_range p (linp_addr off) sizeof_ItemIdData then Ok (PageSetItemId p off lp) else Err EOob.

Fixpoint prune_redirect (p : page) (l : list (Z * Z)) : res page :=
  match l with
  | [] => Ok p
  | (fromoff, tooff) :: l =>
      p ← lp_update p fromoff (ItemIdSetRedirect (PageGetItemId p fromoff) tooff);
      prune_redirect p l
  end.
Fixpoint prune_set (f : ItemIdData → ItemIdData) (p : page) (l : list Z) : res page :=
  match l with
  | [] => Ok p
  | off :: l =>
      p ← lp_update p off (f (PageGetItemId p off));
      prune_set f p l
  end.

Definition heap_page_prune_execute (p : page) (redirected : list (Z * Z)) (nowdead nowunused : list Z)
  : res page :=
  p ← prune_redirect p redirected;
  p ← prune_set ItemIdSetDead p nowdead;
  p ← prune_set ItemIdSetUnused p nowunused;
  PageRepairFragmentation p.

(** ** Operations local to a tuple header

    Every header update above, applied to the header at address [a] of a
    block, changes only the 23 bytes there, and does to them what it does to
    the tuple on its own. *)

Record hdr_local (f : mem → Z → mem) : Prop := {
  hl_len m a : zlen (f m a) = zlen m;
  hl_byte m a : Forall is_byte m → Forall is_byte (f m a);
  hl_eq m a len : 0 ≤ a → SizeofHeapTupleHeader ≤ len → a + len ≤ zlen m →
    f m a = mwrite m a (f (mread m a len) 0) }.

(** A value read from the header. *)
Definition hdr_read {A} (g : mem → Z → A) : Prop :=
  ∀ m a len, 0 ≤ a → SizeofHeapTupleHeader ≤ len → a + len ≤ zlen m → g m a = g (mread m a len) 0.

Lemma mwrite_twice m off a b :
  0 ≤ off → zlen a = zlen b → off + zlen b ≤ zlen m → mwrite (mwrite m off a) off b = mwrite m off b.
Proof.
  intros. apply list_eq. intros i. rewrite !mwrite_lookup by (rewrite ?zlen_mwrite; lia).
  case_decide; [done|]. rewrite decide_False by lia. done.
Qed.

Lemma mput_local n m a k v len :
  0 ≤ a → 0 ≤ k → k + Z.of_nat n ≤ len → a + len ≤ zlen m →
  mput n m (a + k) v = mwrite m a (mput n (mread m a len) k v).
Proof.
  intros. unfold mput. assert (Hl : zlen (mread m a len) = len) by (apply zlen_mread; lia).
  pose proof (zlen_le_bytes n v) as Hn. apply list_eq. intros i.
  rewrite mwrite_lookup by lia.
  rewrite (mwrite_lookup m a) by (rewrite ?zlen_mwrite; lia). rewrite zlen_mwrite, Hl.
  destruct (decide (a ≤ Z.of_nat i < a + len)).
  - rewrite mwrite_lookup by lia. rewrite mread_lookup by lia.
    repeat case_decide; try lia; f_equal; lia.
  - rewrite decide_False by lia. done.
Qed.

Lemma hdr_local_put n k (g : mem → Z → Z) :
  0 ≤ k → k + Z.of_nat n ≤ SizeofHeapTupleHeader → hdr_read g →
  hdr_local (λ m a, mput n m (a + k) (g m a)).
Proof.
  intros Hk Hn Hg. constructor.
  - intros. apply zlen_mput.
  - intros. by apply mput_byte.
  - intros m a len Ha Hl Hr. rewrite <-(Hg m a len) by done. apply mput_local; lia.
Qed.

Lemma hdr_local_comp f g : hdr_local f → hdr_local g → hdr_local (λ m a, g (f m a) a).
Proof.
  intros [Lf Bf Ef] [Lg Bg Eg]. constructor.
  - intros. by rewrite Lg, Lf.
  - intros. by apply Bg, Bf.
  - intros m a len Ha Hl Hr.
    assert (HF : zlen (f (mread m a len) 0) = len) by (rewrite Lf; apply zlen_mread; unfold SizeofHeapTupleHeader in *; lia).
    rewrite (Eg (f m a) a len) by (rewrite ?Lf; lia). rewrite (Ef m a len) by done.
    rewrite mwrite_twice by (rewrite ?zlen_mwrite, ?Lg; try rewrite zlen_mread; unfold SizeofHeapTupleHeader in *;
      rewrite ?zlen_mwrite; lia).
    do 2 f_equal. rewrite <-HF at 2. apply mread_mwrite_same; lia.
Qed.

Lemma hdr_local_if (c : mem → Z → bool) f g :
  hdr_read c → hdr_local f → hdr_local g → hdr_local (λ m a, if c m a then f m a else g m a).
Proof.
  intros Hc [Lf Bf Ef] [Lg Bg Eg]. constructor.
  - intros. destruct (c m a); auto.
  - intros. destruct (c m a); auto.
  - intros m a len Ha Hl Hr. rewrite (Hc m a len) by done. destruct (c (mread m a len) 0); auto.
Qed.

Lemma hdr_local_id : hdr_local (λ m _, m).
Proof.
  constructor; try done. intros m a len Ha Hl Hr. symmetry.
  apply (mwrite_same m a len); unfold SizeofHeapTupleHeader in *; lia.
Qed.

Lemma hdr_read_get n k : 0 ≤ k → k + Z.of_nat n ≤ SizeofHeapTupleHeader → hdr_read (λ m a, mget n m (a + k)).
Proof.
  intros Hk Hn m a len Ha Hl Hr. unfold mget. f_equal. rewrite mread_mread; [done|lia|lia|lia].
Qed.

Lemma hdr_read_const {A} (x : A) : hdr_read (λ _ _, x).
Proof. done. Qed.

Lemma hdr_read_map {A B} (h : A → B) (g : mem → Z → A) : hdr_read g → hdr_read (λ m a, h (g m a)).
Proof. intros Hg m a len ???. by rewrite <-(Hg m a len). Qed.

Lemma hdr_local_ext f g : (∀ m a, f m a = g m a) → hdr_local g → hdr_local f.
Proof.
  intros Hfg [L B E]. constructor; intros; rewrite !Hfg; auto.
Qed.

Create HintDb hdr.
#[export] Hint Resolve hdr_local_id hdr_read_const : hdr.

Lemma hdr_infomask : hdr_read t_infomask.
Proof. apply (hdr_read_get 2 20); unfold SizeofHeapTupleHeader; simpl; lia. Qed.
Lemma hdr_infomask2 : hdr_read t_infomask2.
Proof. apply (hdr_read_get 2 18); unfold SizeofHeapTupleHeader; simpl; lia. Qed.
#[export] Hint Resolve hdr_infomask hdr_infomask2 : hdr.

Lemma hdr_set_xmin g : hdr_read g → hdr_local (λ m a, HeapTupleHeaderSetXmin m a (g m a)).
Proof.
  intros Hg. unfold HeapTupleHeaderSetXmin.
  pose proof (hdr_local_put 4 0 g ltac:(lia) ltac:(unfold SizeofHeapTupleHeader; lia) Hg) as [L B E].
  apply (hdr_local_ext _ (λ m a, mput 4 m (a + 0) (g m a))); [|by constructor].
  intros. by rewrite Z.add_0_r.
Qed.
Lemma hdr_set_xmax g : hdr_read g → hdr_local (λ m a, HeapTupleHeaderSetXmax m a (g m a)).
Proof. intros. apply hdr_local_put; unfold SizeofHeapTupleHeader; auto; lia. Qed.
Lemma hdr_set_cid g : hdr_read g → hdr_local (λ m a, set_t_cid m a (g m a)).
Proof. intros. apply hdr_local_put; unfold SizeofHeapTupleHeader; auto; lia. Qed.
Lemma hdr_set_infomask g : hdr_read g → hdr_local (λ m a, set_t_infomask m a (g m a)).
Proof. intros. apply hdr_local_put; unfold SizeofHeapTupleHeader; auto; lia. Qed.
Lemma hdr_set_infomask2 g : hdr_read g → hdr_local (λ m a, set_t_infomask2 m a (g m a)).
Proof. intros. apply hdr_local_put; unfold SizeofHeapTupleHeader; auto; lia. Qed.
#[export] Hint Resolve hdr_set_xmin hdr_set_xmax hdr_set_cid hdr_set_infomask hdr_set_infomask2 : hdr.

Lemma hdr_ItemPointerSet blk off : hdr_local (λ m a, ItemPointerSet m a blk off).
Proof.
  unfold ItemPointerSet.
  apply (hdr_local_comp (λ m a, mput 2 (mput 2 m (a + 12) _) (a + 12 + 2) _) (λ m a, mput 2 m (a + 12 + 4) off)).
  - apply (hdr_local_comp (λ m a, mput 2 m (a + 12) _) (λ m a, mput 2 m (a + 12 + 2) _)).
    + apply hdr_local_put; unfold SizeofHeapTupleHeader; auto with hdr; lia.
    + pose proof (hdr_local_put 2 14 (λ _ _, Z.land blk 0xffff)) as H.
      eapply hdr_local_ext; [|apply H; unfold SizeofHeapTupleHeader; auto with hdr; lia].
      intros. simpl. f_equal. lia.
  - pose proof (hdr_local_put 2 16 (λ _ _, off)) as H.
    eapply hdr_local_ext; [|apply H; unfold SizeofHeapTupleHeader; auto with hdr; lia].
    intros. simpl. f_equal. lia.
Qed.
