(* ===== verification/HeapRedo.v ===== *)
(** * Redo of heap records on one page: [heap_xlog_idx.c]

    Replay by log index asks for one page at a time: a handler gets a record,
    the tag of the wanted page and the buffer the caller holds (if any), and
    applies to that page what the record says about it.  One definition per
    handler, composed as the dispatchers [polar_heap_idx_redo] and
    [polar_heap2_idx_redo] compose them. *)

From S2P Require Import Prelude Mem Page PageAdd PageIndex PageCompact Checksum Buffer WalRecord HeapTuple.

(** ** Record flags *)

Definition XLOG_HEAP_INSERT : Z := 0x00.
Definition XLOG_HEAP_DELETE : Z := 0x10.
Definition XLOG_HEAP_UPDATE : Z := 0x20.
Definition XLOG_HEAP_TRUNCATE : Z := 0x30.
Definition XLOG_HEAP_HOT_UPDATE : Z := 0x40.
Definition XLOG_HEAP_CONFIRM : Z := 0x50.
Definition XLOG_HEAP_LOCK : Z := 0x60.
Definition XLOG_HEAP_INPLACE : Z := 0x70.
Definition XLOG_HEAP_OPMASK : Z := 0x70.
Definition XLOG_HEAP_INIT_PAGE : Z := 0x80.
Definition XLOG_HEAP2_REWRITE : Z := 0x00.
Definition XLOG_HEAP2_CLEAN : Z := 0x10.
Definition XLOG_HEAP2_FREEZE_PAGE : Z := 0x20.
Definition XLOG_HEAP2_CLEANUP_INFO : Z := 0x30.
Definition XLOG_HEAP2_VISIBLE : Z := 0x40.
Definition XLOG_HEAP2_MULTI_INSERT : Z := 0x50.
Definition XLOG_HEAP2_LOCK_UPDATED : Z := 0x60.
Definition XLOG_HEAP2_NEW_CID : Z := 0x70.
Definition XLH_INSERT_ALL_VISIBLE_CLEARED : Z := 1.
Definition XLH_UPDATE_OLD_ALL_VISIBLE_CLEARED : Z := 1.
Definition XLH_UPDATE_NEW_ALL_VISIBLE_CLEARED : Z := 2.
Definition XLH_UPDATE_PREFIX_FROM_OLD : Z := 32.
Definition XLH_UPDATE_SUFFIX_FROM_OLD : Z := 64.
Definition XLH_DELETE_ALL_VISIBLE_CLEARED : Z := 1.
Definition XLH_DELETE_IS_SUPER : Z := 8.
Definition XLH_DELETE_IS_PARTITION_MOVE : Z := 16.
Definition XLH_LOCK_ALL_FROZEN_CLEARED : Z := 1.

(** What a handler returns: the state, the caller's buffer variable, the
    action. *)
Abbreviation redo_result := (res (dbstate * Buffer * XLogRedoAction)).

(** The block data of a record; a NULL pointer has no bytes to read. *)
Definition block_bytes (r : XLogReaderState) (block_id : Z) : list Z :=
  default [] (XLogRecGetBlockData r block_id).

(** The tag of the visibility map page of a heap page. *)
Definition vm_tag (t : BufferTag) : BufferTag :=
  INIT_BUFFERTAG (rnode t) VISIBILITYMAP_FORKNUM (HEAPBLK_TO_MAPBLOCK (blockNum t)).

(** Change the page of the buffer when the action asks for it. *)
Definition on_redo (x : dbstate * Buffer * XLogRedoAction) (f : page → res page) : redo_result :=
  let '(st, buf, action) := x in
  match action with
  | BLK_NEEDS_REDO =>
      p ← BufferGetPage st buf;
      p ← f p;
      Ok (buf_write st buf p, buf, action)
  | _ => Ok (st, buf, action)
  end.

(** Clear map bits on a page; the LSN only moves forward. *)
Definition clear_vm_page (p : page) (heapBlk flags lsn : Z) : page :=
  let mapByte := HEAPBLK_TO_MAPBYTE heapBlk in
  let mask := u8 (Z.shiftl flags (HEAPBLK_TO_OFFSET heapBlk)) in
  let b := mget 1 p (PageGetContents + mapByte) in
  let p := if has_flag b mask then mput 1 p (PageGetContents + mapByte) (clear_flag b mask) else p in
  if PageGetLSN p <? lsn then PageSetLSN p lsn else p.

Definition polar_heap_clear_vm (st : dbstate) (r : XLogReaderState) (rn : RelFileNode)
  (heapBlk : Z) (buffer : Buffer) (flags : Z) : redo_result :=
  '(st, buffer) ← (if negb (BufferIsValid buffer) then visibilitymap_pin st rn heapBlk buffer
                   else Ok (st, buffer));
  p ← BufferGetPage st buffer;
  Ok (buf_write st buffer (clear_vm_page p heapBlk flags (EndRecPtr r)), buffer, BLK_NEEDS_REDO).

(** Read the page, or initialise it when the record says so. *)
Definition read_or_init (st : dbstate) (r : XLogReaderState) (buffer : Buffer) (isinit : bool)
  : redo_result :=
  if isinit then
    '(st, buffer) ← POLAR_INIT_BUFFER_FOR_REDO st r 0 buffer;
    _ ← BufferGetPage st buffer;
    Ok (buf_write st buffer (PageInit BLCKSZ 0), buffer, BLK_NEEDS_REDO)
  else POLAR_READ_BUFFER_FOR_REDO st r 0.

(** The tuple a redo routine builds in [tbuf]: a zeroed header followed by the
    bitmap and the data. *)
Definition build_tuple (body : list Z) (infomask2 infomask hoff xid : Z) : res mem :=
  if MaxHeapTupleSize <? SizeofHeapTupleHeader + zlen body then Err EOob else
  let htup := replicate (Z.to_nat SizeofHeapTupleHeader) 0 ++ body in
  let htup := set_t_infomask2 htup 0 infomask2 in
  let htup := set_t_infomask htup 0 infomask in
  let htup := set_t_hoff htup 0 hoff in
  let htup := HeapTupleHeaderSetXmin htup 0 xid in
  Ok (HeapTupleHeaderSetCmin htup 0 FirstCommandId).

Definition add_tuple (p : page) (htup : mem) (offnum : Z) : res page :=
  '(p, off) ← PageAddItem p htup offnum true true;
  if off =? InvalidOffsetNumber then Err EPanic else Ok p.

(** ** Multi-insert *)

Record xl_heap_multi_insert : Type := mkMulti { mi_flags : Z; mi_ntuples : Z }.

Definition SizeOfMultiInsertTuple : Z := 7.
Definition SizeOfHeapHeader : Z := 5.

(** The tuples [i .. i+n-1]; [tupdata] is the position in the block data. *)
Fixpoint multi_insert_loop (r : XLogReaderState) (blk : Z) (isinit : bool) (data : list Z)
  (p : page) (tupdata i : Z) (n : nat) : res (page * Z) :=
  match n with
  | O => Ok (p, tupdata)
  | S n =>
      offnum ← (if isinit then Ok (u16 (FirstOffsetNumber + i)) else rd 2 (main_data r) (4 + 2 * i));
      if PageGetMaxOffsetNumber p + 1 <? offnum then Err EPanic else
      let xlhdr := SHORTALIGN tupdata in
      datalen ← rd 2 data xlhdr;
      infomask2 ← rd 2 data (xlhdr + 2);
      infomask ← rd 2 data (xlhdr + 4);
      hoff ← rd 1 data (xlhdr + 6);
      let tupdata := xlhdr + SizeOfMultiInsertTuple in
      body ← load data tupdata datalen;
      htup ← build_tuple body infomask2 infomask hoff (xl_xid r);
      let htup := ItemPointerSet htup 0 blk offnum in
      p ← add_tuple p htup offnum;
      multi_insert_loop r blk isinit data p (tupdata + datalen) (i + 1) n
  end.

Definition multi_insert_page (r : XLogReaderState) (blk : Z) (isinit : bool) (flags ntuples : Z)
  (p : page) : res page :=
  let data := block_bytes r 0 in
  '(p, tupdata) ← multi_insert_loop r blk isinit data p 0 0 (Z.to_nat ntuples);
  if negb (tupdata =? zlen data) then Err EPanic else
  let p := PageSetLSN p (EndRecPtr r) in
  Ok (if has_flag flags XLH_INSERT_ALL_VISIBLE_CLEARED then PageClearAllVisible p else p).

Definition polar_heap_xlog_multi_insert (st : dbstate) (r : XLogReaderState) (tag : BufferTag)
  (buffer : Buffer) : redo_result :=
  let isinit := has_flag (xl_info r) XLOG_HEAP_INIT_PAGE in
  tag0 ← POLAR_GET_LOG_TAG r 0;
  flags ← rd 1 (main_data r) 0;
  ntuples ← rd 2 (main_data r) 2;
  let tag1 := vm_tag tag0 in
  x ← (if BUFFERTAGS_EQUAL tag1 tag && has_flag flags XLH_INSERT_ALL_VISIBLE_CLEARED
       then polar_heap_clear_vm st r (rnode tag0) (blockNum tag0) buffer VISIBILITYMAP_VALID_BITS
       else Ok (st, buffer, BLK_NOTFOUND));
  let '(st, buffer, action) := x in
  if BUFFERTAGS_EQUAL tag0 tag then
    x ← read_or_init st r buffer isinit;
    on_redo x (multi_insert_page r (blockNum tag0) isinit flags ntuples)
  else Ok (st, buffer, action).

(** ** Insert *)

Definition insert_page (r : XLogReaderState) (blk offnum flags : Z) (p : page) : res page :=
  if PageGetMaxOffsetNumber p + 1 <? offnum then Err EPanic else
  let data := block_bytes r 0 in
  infomask2 ← rd 2 data 0;
  infomask ← rd 2 data 2;
  hoff ← rd 1 data 4;
  body ← load data SizeOfHeapHeader (zlen data - SizeOfHeapHeader);
  htup ← build_tuple body infomask2 infomask hoff (xl_xid r);
  let htup := ItemPointerSet htup 0 blk offnum in
  p ← add_tuple p htup offnum;
  let p := PageSetLSN p (EndRecPtr r) in
  Ok (if has_flag flags XLH_INSERT_ALL_VISIBLE_CLEARED then PageClearAllVisible p else p).

Definition polar_heap_xlog_insert (st : dbstate) (r : XLogReaderState) (tag : BufferTag)
  (buffer : Buffer) : redo_result :=
  offnum ← rd 2 (main_data r) 0;
  flags ← rd 1 (main_data r) 2;
  tag0 ← POLAR_GET_LOG_TAG r 0;
  let tag1 := vm_tag tag0 in
  x ← (if BUFFERTAGS_EQUAL tag tag1 && has_flag flags XLH_INSERT_ALL_VISIBLE_CLEARED
       then polar_heap_clear_vm st r (rnode tag0) (blockNum tag0) buffer VISIBILITYMAP_VALID_BITS
       else Ok (st, buffer, BLK_NOTFOUND));
  let '(st, buffer, action) := x in
  if BUFFERTAGS_EQUAL tag tag0 then
    x ← read_or_init st r buffer (has_flag (xl_info r) XLOG_HEAP_INIT_PAGE);
    on_redo x (insert_page r (blockNum tag0) offnum flags)
  else Ok (st, buffer, action).

(** ** Records about an existing tuple *)

(** The line pointer of the tuple, PANIC unless it is a normal item. *)
Definition redo_lp (p : page) (offnum : Z) : res ItemIdData :=
  if PageGetMaxOffsetNumber p <? offnum then Err EPanic else
  lp ← PageGetItemIdChecked p offnum;
  if ItemIdIsNormal lp then Ok lp else Err EPanic.

(** The address of its header, which lies in the page. *)
Definition redo_tuple (p : page) (lp : ItemIdData) : res Z :=
  if in_range p (lp_off lp) SizeofHeapTupleHeader then Ok (lp_off lp) else Err EOob.

(** [t_infomask &= ~(HEAP_XMAX_BITS | HEAP_MOVED); t_infomask2 &= ~HEAP_KEYS_UPDATED]. *)
Definition clear_xmax_bits (m : mem) (a : Z) : mem :=
  let m := set_t_infomask m a (clear_flag (t_infomask m a) (Z.lor HEAP_XMAX_BITS HEAP_MOVED)) in
  set_t_infomask2 m a (clear_flag (t_infomask2 m a) HEAP_KEYS_UPDATED).

(** ** Delete *)

Definition delete_tuple (m : mem) (a xmax infobits flags : Z) : mem :=
  let m := clear_xmax_bits m a in
  let m := HeapTupleHeaderClearHotUpdated m a in
  let m := fix_infomask_at m a infobits in
  let m := if negb (has_flag flags XLH_DELETE_IS_SUPER)
           then HeapTupleHeaderSetXmax m a xmax
           else HeapTupleHeaderSetXmin m a InvalidTransactionId in
  HeapTupleHeaderSetCmax m a FirstCommandId false.

Definition delete_page (r : XLogReaderState) (blk xmax offnum infobits flags : Z) (p : page) : res page :=
  lp ← redo_lp p offnum;
  a ← redo_tuple p lp;
  let p := delete_tuple p a xmax infobits flags in
  let p := PageSetPrunable p (xl_xid r) in
  let p := if has_flag flags XLH_DELETE_ALL_VISIBLE_CLEARED then PageClearAllVisible p else p in
  let p := if has_flag flags XLH_DELETE_IS_PARTITION_MOVE
           then HeapTupleHeaderSetMovedPartitions p a else ItemPointerSet p a blk offnum in
  Ok (PageSetLSN p (EndRecPtr r)).

Definition polar_heap_xlog_delete (st : dbstate) (r : XLogReaderState) (tag : BufferTag)
  (buffer : Buffer) : redo_result :=
  xmax ← rd 4 (main_data r) 0;
  offnum ← rd 2 (main_data r) 4;
  infobits ← rd 1 (main_data r) 6;
  flags ← rd 1 (main_data r) 7;
  tag0 ← POLAR_GET_LOG_TAG r 0;
  let tag1 := vm_tag tag0 in
  if BUFFERTAGS_EQUAL tag tag1 then
    if has_flag flags XLH_DELETE_ALL_VISIBLE_CLEARED
    then polar_heap_clear_vm st r (rnode tag0) (blockNum tag0) buffer VISIBILITYMAP_VALID_BITS
    else Ok (st, buffer, BLK_NOTFOUND)
  else if BUFFERTAGS_EQUAL tag tag0 then
    x ← POLAR_READ_BUFFER_FOR_REDO st r 0;
    on_redo x (delete_page r (blockNum tag0) xmax offnum infobits flags)
  else Ok (st, buffer, BLK_NOTFOUND).

(** ** Update *)

Record xl_heap_update : Type := mkUpdate {
  old_xmax : Z; old_offnum : Z; old_infobits_set : Z; upd_flags : Z; new_xmax : Z; new_offnum : Z }.

Definition get_xl_heap_update (r : XLogReaderState) : res xl_heap_update :=
  a ← rd 4 (main_data r) 0;
  b ← rd 2 (main_data r) 4;
  c ← rd 1 (main_data r) 6;
  d ← rd 1 (main_data r) 7;
  e ← rd 4 (main_data r) 8;
  f ← rd 2 (main_data r) 12;
  Ok (mkUpdate a b c d e f).

(** The old tuple: mark it updated by [old_xmax], link it to the new one. *)
Definition update_old_tuple (m : mem) (a : Z) (x : xl_heap_update) (hotupdate : bool) (newblk : Z) : mem :=
  let m := clear_xmax_bits m a in
  let m := if hotupdate then HeapTupleHeaderSetHotUpdated m a else HeapTupleHeaderClearHotUpdated m a in
  let m := fix_infomask_at m a (old_infobits_set x) in
  let m := HeapTupleHeaderSetXmax m a (old_xmax x) in
  let m := HeapTupleHeaderSetCmax m a FirstCommandId false in
  ItemPointerSet m a newblk (new_offnum x).

Definition update_old_page (r : XLogReaderState) (x : xl_heap_update) (hotupdate : bool) (newblk : Z)
  (p : page) : res (page * ItemIdData) :=
  lp ← redo_lp p (old_offnum x);
  a ← redo_tuple p lp;
  let p := update_old_tuple p a x hotupdate newblk in
  let p := PageSetPrunable p (xl_xid r) in
  let p := if has_flag (upd_flags x) XLH_UPDATE_OLD_ALL_VISIBLE_CLEARED then PageClearAllVisible p else p in
  Ok (PageSetLSN p (EndRecPtr r), lp).

(** The body of the new tuple: bitmap and data from the record, with the
    prefix and the suffix taken from the old tuple on the same page.
    [pos] is where the record's header [xlhdr] ends in the block data. *)
Definition update_body (p : page) (oldtup : option ItemIdData) (data : list Z)
  (pos hoff prefixlen suffixlen : Z) : res (list Z) :=
  let tuplen := zlen data - pos in
  front ← (if 0 <? prefixlen then
             let len := hoff - SizeofHeapTupleHeader in
             bits ← load data pos len;
             match oldtup with
             | None => Err EPanic
             | Some lp =>
                 prefix ← load p (lp_off lp + t_hoff p (lp_off lp)) prefixlen;
                 rest ← load data (pos + len) (tuplen - len);
                 Ok (bits ++ prefix ++ rest)
             end
           else load data pos tuplen);
  back ← (if 0 <? suffixlen then
            match oldtup with
            | None => Err EPanic
            | Some lp => load p (lp_off lp + lp_len lp - suffixlen) suffixlen
            end
          else Ok []);
  Ok (front ++ back).

Definition update_new_page (r : XLogReaderState) (x : xl_heap_update) (newblk : Z)
  (oldtup : option ItemIdData) (p : page) : res page :=
  let data := block_bytes r 0 in
  let offnum := new_offnum x in
  if PageGetMaxOffsetNumber p + 1 <? offnum then Err EPanic else
  '(prefixlen, pos) ← (if has_flag (upd_flags x) XLH_UPDATE_PREFIX_FROM_OLD
                       then v ← rd 2 data 0; Ok (v, 2) else Ok (0, 0));
  '(suffixlen, pos) ← (if has_flag (upd_flags x) XLH_UPDATE_SUFFIX_FROM_OLD
                       then v ← rd 2 data pos; Ok (v, pos + 2) else Ok (0, pos));
  infomask2 ← rd 2 data pos;
  infomask ← rd 2 data (pos + 2);
  hoff ← rd 1 data (pos + 4);
  let pos := pos + SizeOfHeapHeader in
  body ← update_body p oldtup data pos hoff prefixlen suffixlen;
  htup ← build_tuple body infomask2 infomask hoff (xl_xid r);
  let htup := HeapTupleHeaderSetXmax htup 0 (new_xmax x) in
  let htup := ItemPointerSet htup 0 newblk offnum in
  p ← add_tuple p htup offnum;
  let p := if has_flag (upd_flags x) XLH_UPDATE_NEW_ALL_VISIBLE_CLEARED then PageClearAllVisible p else p in
  Ok (PageSetLSN p (EndRecPtr r)).

(** The part for the old tuple; it also hands on where the old tuple is. *)
Definition update_old_part (st : dbstate) (r : XLogReaderState) (x : xl_heap_update) (hotupdate : bool)
  (newblk : Z) (block_id : Z) : res (dbstate * Buffer * XLogRedoAction * option ItemIdData) :=
  '(st, buffer, action) ← POLAR_READ_BUFFER_FOR_REDO st r block_id;
  match action with
  | BLK_NEEDS_REDO =>
      p ← BufferGetPage st buffer;
      '(p, lp) ← update_old_page r x hotupdate newblk p;
      Ok (buf_write st buffer p, buffer, action, Some lp)
  | _ => Ok (st, buffer, action, None)
  end.

Definition polar_heap_xlog_update (st : dbstate) (r : XLogReaderState) (tag : BufferTag)
  (buffer : Buffer) (hotupdate : bool) : redo_result :=
  x ← get_xl_heap_update r;
  new_tag ← POLAR_GET_LOG_TAG r 0;
  let newblk := blockNum new_tag in
  let old_tag := default new_tag (XLogRecGetBlockTag r 1) in
  let oldblk := blockNum old_tag in
  let old_cleared := has_flag (upd_flags x) XLH_UPDATE_OLD_ALL_VISIBLE_CLEARED in
  let new_cleared := has_flag (upd_flags x) XLH_UPDATE_NEW_ALL_VISIBLE_CLEARED in
  let old_vm_tag :=
    if old_cleared then Some (if oldblk =? newblk then vm_tag new_tag else vm_tag old_tag) else None in
  let new_vm_tag :=
    if new_cleared && negb (oldblk =? newblk) then Some (vm_tag new_tag) else None in
  '(st, buffer, action) ←
    (if bool_decide (old_vm_tag = Some tag)
     then polar_heap_clear_vm st r (rnode old_tag) (blockNum old_tag) buffer VISIBILITYMAP_VALID_BITS
     else Ok (st, buffer, BLK_NOTFOUND));
  '(st, buffer, action) ←
    (if bool_decide (new_vm_tag = Some tag)
     then polar_heap_clear_vm st r (rnode new_tag) (blockNum new_tag) buffer VISIBILITYMAP_VALID_BITS
     else Ok (st, buffer, action));
  '(st, buffer, action, oldtup) ←
    (if BUFFERTAGS_EQUAL tag old_tag
     then update_old_part st r x hotupdate newblk (if oldblk =? newblk then 0 else 1)
     else Ok (st, buffer, action, None));
  if BUFFERTAGS_EQUAL tag new_tag then
    y ← (if negb (oldblk =? newblk)
         then read_or_init st r buffer (has_flag (xl_info r) XLOG_HEAP_INIT_PAGE)
         else Ok (st, buffer, action));
    on_redo y (update_new_page r x newblk oldtup)
  else Ok (st, buffer, action).

(** ** Confirm, lock, in-place update *)

Definition confirm_page (r : XLogReaderState) (blk offnum : Z) (p : page) : res page :=
  lp ← redo_lp p offnum;
  a ← redo_tuple p lp;
  Ok (PageSetLSN (ItemPointerSet p a blk offnum) (EndRecPtr r)).

(** A record about block 0 only. *)
Definition redo_block0 (st : dbstate) (r : XLogReaderState) (tag : BufferTag) (buffer : Buffer)
  (cleanup : bool) (f : BufferTag → page → res page) : redo_result :=
  tag0 ← POLAR_GET_LOG_TAG r 0;
  if negb (BUFFERTAGS_EQUAL tag tag0) then Ok (st, buffer, BLK_NOTFOUND) else
  x ← XLogReadBufferForRedoExtended st r 0 RBM_NORMAL cleanup;
  on_redo x (f tag0).

(** A page that is read for redo and changed when it needs it. *)
Definition redo_read (st : dbstate) (r : XLogReaderState) (id : Z) (cleanup : bool) (f : page → res page) : redo_result :=
  x ← XLogReadBufferForRedoExtended st r id RBM_NORMAL cleanup;
  on_redo x f.

(** A page that is rebuilt from the record, whatever it holds. *)
Definition redo_init (st : dbstate) (r : XLogReaderState) (id : Z) (buffer : Buffer) (action : XLogRedoAction)
  (f : res page) : redo_result :=
  '(st, buffer) ← POLAR_INIT_BUFFER_FOR_REDO st r id buffer;
  _ ← BufferGetPage st buffer;
  p ← f;
  Ok (buf_write st buffer (PageSetLSN p (EndRecPtr r)), buffer, action).

Definition polar_heap_xlog_confirm (st : dbstate) (r : XLogReaderState) (tag : BufferTag)
  (buffer : Buffer) : redo_result :=
  offnum ← rd 2 (main_data r) 0;
  redo_block0 st r tag buffer false (λ tag0, confirm_page r (blockNum tag0) offnum).

Definition lock_tuple (m : mem) (a blk offnum locking_xid infobits : Z) : mem :=
  let m := clear_xmax_bits m a in
  let m := fix_infomask_at m a infobits in
  let m := if HEAP_XMAX_IS_LOCKED_ONLY (t_infomask m a)
           then ItemPointerSet (HeapTupleHeaderClearHotUpdated m a) a blk offnum else m in
  let m := HeapTupleHeaderSetXmax m a locking_xid in
  HeapTupleHeaderSetCmax m a FirstCommandId false.

Definition lock_page (r : XLogReaderState) (blk xid offnum infobits : Z) (p : page) : res page :=
  lp ← redo_lp p offnum;
  a ← redo_tuple p lp;
  Ok (PageSetLSN (lock_tuple p a blk offnum xid infobits) (EndRecPtr r)).

(** Lock and lock-updated records: the map page, then the heap page. *)
Definition redo_lock (st : dbstate) (r : XLogReaderState) (tag : BufferTag) (buffer : Buffer)
  (flags : Z) (f : BufferTag → page → res page) : redo_result :=
  tag0 ← POLAR_GET_LOG_TAG r 0;
  let tag1 := vm_tag tag0 in
  '(st, buffer, action) ←
    (if BUFFERTAGS_EQUAL tag tag1 && has_flag flags XLH_LOCK_ALL_FROZEN_CLEARED
     then polar_heap_clear_vm st r (rnode tag0) (blockNum tag0) buffer VISIBILITYMAP_ALL_FROZEN
     else Ok (st, buffer, BLK_NOTFOUND));
  if BUFFERTAGS_EQUAL tag tag0 then
    x ← POLAR_READ_BUFFER_FOR_REDO st r 0;
    on_redo x (f tag0)
  else Ok (st, buffer, action).

Definition polar_heap_xlog_lock (st : dbstate) (r : XLogReaderState) (tag : BufferTag)
  (buffer : Buffer) : redo_result :=
  locking_xid ← rd 4 (main_data r) 0;
  offnum ← rd 2 (main_data r) 4;
  infobits ← rd 1 (main_data r) 6;
  flags ← rd 1 (main_data r) 7;
  redo_lock st r tag buffer flags (λ tag0, lock_page r (blockNum tag0) locking_xid offnum infobits).

Definition lock_updated_page (r : XLogReaderState) (xmax offnum infobits : Z) (p : page) : res page :=
  lp ← redo_lp p offnum;
  a ← redo_tuple p lp;
  let m := fix_infomask_at (clear_xmax_bits p a) a infobits in
  Ok (PageSetLSN (HeapTupleHeaderSetXmax m a xmax) (EndRecPtr r)).

Definition polar_heap_xlog_lock_updated (st : dbstate) (r : XLogReaderState) (tag : BufferTag)
  (buffer : Buffer) : redo_result :=
  xmax ← rd 4 (main_data r) 0;
  offnum ← rd 2 (main_data r) 4;
  infobits ← rd 1 (main_data r) 6;
  flags ← rd 1 (main_data r) 7;
  redo_lock st r tag buffer flags (λ _, lock_updated_page r xmax offnum infobits).

(** The lengths are compared as 32-bit against 64-bit unsigned values. *)
Definition inplace_page (r : XLogReaderState) (offnum : Z) (p : page) : res page :=
  let newtup := block_bytes r 0 in
  lp ← redo_lp p offnum;
  a ← redo_tuple p lp;
  let oldlen := u32 (ItemIdGetLength lp - t_hoff p a) in
  if negb (oldlen =? zlen newtup) then Err EPanic else
  p ← store p (a + t_hoff p a) newtup;
  Ok (PageSetLSN p (EndRecPtr r)).

Definition polar_heap_xlog_inplace (st : dbstate) (r : XLogReaderState) (tag : BufferTag)
  (buffer : Buffer) : redo_result :=
  offnum ← rd 2 (main_data r) 0;
  redo_block0 st r tag buffer false (λ _, inplace_page r offnum).

(** ** Clean (prune) and freeze *)

Fixpoint read_offsets (data : list Z) (pos : Z) (n : nat) : res (list Z) :=
  match n with
  | O => Ok []
  | S n => o ← rd 2 data pos; l ← read_offsets data (pos + 2) n; Ok (o :: l)
  end.

Fixpoint pair_up (l : list Z) : list (Z * Z) :=
  match l with
  | a :: b :: l => (a, b) :: pair_up l
  | _ => []
  end.

Definition clean_page (r : XLogReaderState) (nredirected ndead : Z) (p : page) : res page :=
  let data := block_bytes r 0 in
  let nunused := zlen data / 2 - nredirected * 2 - ndead in
  redirected ← read_offsets data 0 (Z.to_nat (nredirected * 2));
  nowdead ← read_offsets data (nredirected * 4) (Z.to_nat ndead);
  nowunused ← read_offsets data (nredirected * 4 + ndead * 2) (Z.to_nat nunused);
  p ← heap_page_prune_execute p (pair_up redirected) nowdead nowunused;
  Ok (PageSetLSN p (EndRecPtr r)).

Definition polar_heap_xlog_clean (st : dbstate) (r : XLogReaderState) (tag : BufferTag)
  (buffer : Buffer) : redo_result :=
  nredirected ← rd 2 (main_data r) 4;
  ndead ← rd 2 (main_data r) 6;
  redo_block0 st r tag buffer true (λ _, clean_page r nredirected ndead).

Definition sizeof_freeze_tuple : Z := 12.

Fixpoint freeze_loop (data : list Z) (p : page) (i : Z) (n : nat) : res page :=
  match n with
  | O => Ok p
  | S n =>
      let o := sizeof_freeze_tuple * i in
      xmax ← rd 4 data o;
      offset ← rd 2 data (o + 4);
      infomask2 ← rd 2 data (o + 6);
      infomask ← rd 2 data (o + 8);
      fl ← rd 1 data (o + 10);
      lp ← PageGetItemIdChecked p offset;
      a ← redo_tuple p lp;
      freeze_loop data (heap_execute_freeze_tuple p a (mkFreeze xmax offset infomask2 infomask fl)) (i + 1) n
  end.

Definition freeze_page (r : XLogReaderState) (ntuples : Z) (p : page) : res page :=
  p ← freeze_loop (block_bytes r 0) p 0 (Z.to_nat ntuples);
  Ok (PageSetLSN p (EndRecPtr r)).

Definition polar_heap_xlog_freeze_page (st : dbstate) (r : XLogReaderState) (tag : BufferTag)
  (buffer : Buffer) : redo_result :=
  ntuples ← rd 2 (main_data r) 4;
  redo_block0 st r tag buffer false (λ _, freeze_page r ntuples).

(** ** Visible *)

Definition visible_vm_part (st : dbstate) (r : XLogReaderState) (tag1 : BufferTag) (buffer : Buffer)
  (flags : Z) : redo_result :=
  let mode := if BufferIsValid buffer then RBM_NORMAL else RBM_ZERO_ON_ERROR in
  '(st, buffer, action) ← XLogReadBufferForRedoExtended st r 0 mode false;
  match action with
  | BLK_NEEDS_REDO =>
      vmpage ← BufferGetPage st buffer;
      let vmpage := if PageIsNew vmpage then PageInit BLCKSZ 0 else vmpage in
      let st := buf_write st buffer vmpage in
      if PageGetLSN vmpage <? EndRecPtr r then
        st ← polar_visibilitymap_set st (blockNum tag1) buffer flags;
        p ← BufferGetPage st buffer;
        Ok (buf_write st buffer (PageSetLSN p (EndRecPtr r)), buffer, action)
      else Ok (st, buffer, action)
  | _ => Ok (st, buffer, action)
  end.

Definition polar_heap_xlog_visible (st : dbstate) (r : XLogReaderState) (tag : BufferTag)
  (buffer : Buffer) : redo_result :=
  flags ← rd 1 (main_data r) 4;
  tag0 ← POLAR_GET_LOG_TAG r 0;
  tag1 ← POLAR_GET_LOG_TAG r 1;
  '(st, buffer, action) ←
    (if BUFFERTAGS_EQUAL tag tag1 then
       x ← POLAR_READ_BUFFER_FOR_REDO st r 1;
       on_redo x (λ p, Ok (PageSetLSN (PageSetAllVisible p) (EndRecPtr r)))
     else Ok (st, buffer, BLK_NOTFOUND));
  if BUFFERTAGS_EQUAL tag tag0 then visible_vm_part st r tag1 buffer flags
  else Ok (st, buffer, action).

(** ** Dispatch *)

(** [XLogRecGetInfo(record) & ~XLR_INFO_MASK], masked by [XLOG_HEAP_OPMASK]. *)
Definition heap_op (r : XLogReaderState) : Z :=
  Z.land (clear_flag (xl_info r) XLR_INFO_MASK) XLOG_HEAP_OPMASK.

Definition polar_heap_idx_redo (st : dbstate) (r : XLogReaderState) (tag : BufferTag)
  (buffer : Buffer) : redo_result :=
  let op := heap_op r in
  if op =? XLOG_HEAP_INSERT then polar_heap_xlog_insert st r tag buffer
  else if op =? XLOG_HEAP_DELETE then polar_heap_xlog_delete st r tag buffer
  else if op =? XLOG_HEAP_UPDATE then polar_heap_xlog_update st r tag buffer false
  else if op =? XLOG_HEAP_TRUNCATE then Ok (st, buffer, BLK_NOTFOUND)
  else if op =? XLOG_HEAP_HOT_UPDATE then polar_heap_xlog_update st r tag buffer true
  else if op =? XLOG_HEAP_CONFIRM then polar_heap_xlog_confirm st r tag buffer
  else if op =? XLOG_HEAP_LOCK then polar_heap_xlog_lock st r tag buffer
  else if op =? XLOG_HEAP_INPLACE then polar_heap_xlog_inplace st r tag buffer
  else Err EPanic.

Definition polar_heap2_idx_redo (st : dbstate) (r : XLogReaderState) (tag : BufferTag)
  (buffer : Buffer) : redo_result :=
  let op := heap_op r in
  if op =? XLOG_HEAP2_CLEAN then polar_heap_xlog_clean st r tag buffer
  else if op =? XLOG_HEAP2_FREEZE_PAGE then polar_heap_xlog_freeze_page st r tag buffer
  else if op =? XLOG_HEAP2_CLEANUP_INFO then Ok (st, buffer, BLK_NOTFOUND)
  else if op =? XLOG_HEAP2_VISIBLE then polar_heap_xlog_visible st r tag buffer
  else if op =? XLOG_HEAP2_MULTI_INSERT then polar_heap_xlog_multi_insert st r tag buffer
  else if op =? XLOG_HEAP2_LOCK_UPDATED then polar_heap_xlog_lock_updated st r tag buffer
  else if op =? XLOG_HEAP2_NEW_CID then Ok (st, buffer, BLK_NOTFOUND)
  else if op =? XLOG_HEAP2_REWRITE then Ok (st, buffer, BLK_NOTFOUND)
  else Err EPanic.
