(* ===== verification/Resident.v ===== *)
(** * Redo on resident pages

    What the lookup of a page does when the page is in the buffer pool: the LSN
    interlock for a page that is read, the page as it is for one that is to be
    initialised. *)

From S2P Require Import Prelude Mem Page PageAdd Checksum Buffer WalRecord HeapRedo.

(** ** Resident pages *)

(** The page of [tag] is in the buffer pool and its block in the file. *)
Record resident (st : dbstate) (tag : BufferTag) (p : page) : Prop := {
  rs_pool : pool st !! tag = Some p;
  rs_file : ∃ l, files st !! (rnode tag, forkNum tag) = Some l ∧ 0 ≤ blockNum tag < zlen l;
  rs_block : blockNum tag < InvalidBlockNumber }.

Lemma resident_write st tag p q : resident st tag p → resident (buf_write st (Some tag) q) tag q.
Proof. intros [Hp Hf Hb]. constructor; [|done|done]. simpl. apply lookup_insert_eq. Qed.

Lemma buf_write_write st b p q : buf_write (buf_write st b p) b q = buf_write st b q.
Proof. destruct b as [t|]; [|done]. unfold buf_write, set_pool. simpl. by rewrite insert_insert_eq. Qed.

Lemma resident_page st tag p : resident st tag p → BufferGetPage st (Some tag) = Ok p.
Proof. intros [Hp _ _]. simpl. by rewrite Hp. Qed.

Lemma read_resident st tag p :
  resident st tag p → PageIsNew p = false →
  XLogReadBufferExtended st (rnode tag) (forkNum tag) (blockNum tag) RBM_NORMAL = Ok (st, Some tag).
Proof.
  intros Hr Hn. pose proof Hr as [Hp (l & Hl & Hb) Hlt].
  unfold XLogReadBufferExtended, smgrcreate, smgrnblocks. rewrite Hl. cbv zeta. rewrite Hl.
  cbn [mbind res_bind]. destruct (Z.leb_spec (zlen l) (blockNum tag)); [lia|].
  destruct (Z.ltb_spec (blockNum tag) (zlen l)); [|lia]. cbn [andb].
  unfold ReadBuffer_common, P_NEW. destruct (Z.eqb_spec (blockNum tag) InvalidBlockNumber); [lia|].
  cbn [mbind res_bind]. destruct tag as [rn fk bk]. cbn [rnode forkNum blockNum] in *. rewrite Hp.
  rewrite bool_decide_true by done. simpl. rewrite Hp. cbn [mbind res_bind]. by rewrite Hn.
Qed.

(** Block reference [id] of the record names [tag], without an image to
    restore and without re-initialisation. *)
Record plain_ref (r : XLogReaderState) (id : Z) (tag : BufferTag) : Prop := {
  pr_tag : XLogRecGetBlockTag r id = Some tag;
  pr_init : ∀ b, block_ref r id = Some b → has_flag (bkp_flags b) BKPBLOCK_WILL_INIT = false;
  pr_image : XLogRecBlockImageApply r id = false }.

(** The LSN interlock. *)
Lemma redo_read_resident st r id tag p cleanup :
  plain_ref r id tag → resident st tag p → PageIsNew p = false →
  XLogReadBufferForRedoExtended st r id RBM_NORMAL cleanup =
    Ok (st, Some tag, if EndRecPtr r <=? PageGetLSN p then BLK_DONE else BLK_NEEDS_REDO).
Proof.
  intros [Ht Hi Him] Hr Hn. unfold XLogReadBufferForRedoExtended.
  unfold XLogRecGetBlockTag in Ht. destruct (block_ref r id) as [b|] eqn:Eb; [|done].
  injection Ht as Ht. specialize (Hi b eq_refl). rewrite Hi. cbn [mode_zero andb negb]. rewrite Him.
  pose proof (read_resident st tag p Hr Hn) as Hread.
  destruct tag as [rn fk bk]. injection Ht as -> -> ->. cbn [rnode forkNum blockNum] in Hread.
  rewrite Hread. cbn [mbind res_bind]. unfold BufferIsValid. rewrite bool_decide_true by eauto.
  rewrite (resident_page _ _ _ Hr). cbn [mbind res_bind]. by destruct (_ <=? _).
Qed.

Lemma tags_equal_refl tag : BUFFERTAGS_EQUAL tag tag = true.
Proof. by apply BUFFERTAGS_EQUAL_true. Qed.

Lemma tags_neq a b : a ≠ b → BUFFERTAGS_EQUAL a b = false ∧ BUFFERTAGS_EQUAL b a = false.
Proof. intros H. unfold BUFFERTAGS_EQUAL. by rewrite !bool_decide_false by congruence. Qed.

Lemma log_tag r id tag : XLogRecGetBlockTag r id = Some tag → POLAR_GET_LOG_TAG r id = Ok tag.
Proof. unfold POLAR_GET_LOG_TAG. by intros ->. Qed.

Lemma resident_block st tag p : resident st tag p → 0 ≤ blockNum tag < 2 ^ 32.
Proof. intros [_ (l & _ & ?) ?]. unfold InvalidBlockNumber in *. lia. Qed.

Lemma on_redo_resident st r id tag p q cleanup f :
  plain_ref r id tag → resident st tag p → PageIsNew p = false → PageGetLSN p < EndRecPtr r → f p = Ok q →
  (x ← XLogReadBufferForRedoExtended st r id RBM_NORMAL cleanup; on_redo x f) =
  Ok (buf_write st (Some tag) q, Some tag, BLK_NEEDS_REDO).
Proof.
  intros Hpr Hr Hn Hl Hf. rewrite (redo_read_resident st r id tag p cleanup Hpr Hr Hn).
  destruct (Z.leb_spec (EndRecPtr r) (PageGetLSN p)); [lia|]. cbn [mbind res_bind]. unfold on_redo.
  rewrite (resident_page _ _ _ Hr). cbn [mbind res_bind]. by rewrite Hf.
Qed.

(** An error of the change is the error of the redo. *)
Lemma on_redo_resident_err st r id tag p e cleanup f :
  plain_ref r id tag → resident st tag p → PageIsNew p = false → PageGetLSN p < EndRecPtr r → f p = Err e →
  (x ← XLogReadBufferForRedoExtended st r id RBM_NORMAL cleanup; on_redo x f) = Err e.
Proof.
  intros Hpr Hr Hn Hl Hf. rewrite (redo_read_resident st r id tag p cleanup Hpr Hr Hn).
  destruct (Z.leb_spec (EndRecPtr r) (PageGetLSN p)); [lia|]. cbn [mbind res_bind]. unfold on_redo.
  rewrite (resident_page _ _ _ Hr). cbn [mbind res_bind]. by rewrite Hf.
Qed.

(** Block reference [id] of the record names [tag], whose page it initialises. *)
Record init_ref (r : XLogReaderState) (id : Z) (tag : BufferTag) : Prop := {
  ir_tag : XLogRecGetBlockTag r id = Some tag;
  ir_init : ∀ b, block_ref r id = Some b → has_flag (bkp_flags b) BKPBLOCK_WILL_INIT = true;
  ir_image : XLogRecBlockImageApply r id = false }.

Lemma init_resident st r id tag p :
  init_ref r id tag → resident st tag p → POLAR_INIT_BUFFER_FOR_REDO st r id None = Ok (st, Some tag).
Proof.
  intros [Ht Hi Him] [Hp (l & Hl & Hb) Hlt]. unfold POLAR_INIT_BUFFER_FOR_REDO, XLogInitBufferForRedo, XLogReadBufferForRedoExtended.
  cbn [BufferIsValid negb]. change (negb (BufferIsValid None)) with true. cbv iota.
  unfold XLogRecGetBlockTag in Ht. destruct (block_ref r id) as [b|] eqn:Eb; [|done].
  injection Ht as Ht. rewrite (Hi b eq_refl). cbn [mode_zero andb negb]. rewrite Him.
  destruct tag as [rn fk bk]. injection Ht as -> -> ->. cbn [rnode forkNum blockNum] in *.
  unfold XLogReadBufferExtended, smgrcreate, smgrnblocks. rewrite Hl. cbv zeta. rewrite Hl. cbn [mbind res_bind].
  destruct (Z.leb_spec (zlen l) bk); [lia|]. destruct (Z.ltb_spec bk (zlen l)); [|lia]. cbn [andb].
  unfold ReadBuffer_common, P_NEW. destruct (Z.eqb_spec bk InvalidBlockNumber); [lia|]. cbn [mbind res_bind]. rewrite Hp.
  cbn [mbind res_bind]. rewrite bool_decide_false by done. cbn [mbind res_bind].
  unfold BufferIsValid. rewrite bool_decide_true by eauto. unfold BufferGetPage. rewrite Hp. cbn [mbind res_bind].
  by destruct (_ <=? _).
Qed.
