(* ===== verification/HeapRefine.v ===== *)
(** * What heap redo does to a page

    The page-level parts of the redo routines against the abstract view of a
    page: an update of a tuple's header changes that slot only, and changes
    it as the same update changes the tuple on its own; an insertion adds the
    tuple the record describes. *)

From S2P Require Import Prelude Mem Page PageAdd PageIndex PageCompact Checksum Buffer WalRecord HeapTuple HeapRedo.

(** ** Header updates of a tuple *)

Lemma hdr_clear_xmax_bits : hdr_local clear_xmax_bits.
Proof.
  unfold clear_xmax_bits.
  apply (hdr_local_comp
    (λ m a, set_t_infomask m a (clear_flag (t_infomask m a) (Z.lor HEAP_XMAX_BITS HEAP_MOVED)))
    (λ m a, set_t_infomask2 m a (clear_flag (t_infomask2 m a) HEAP_KEYS_UPDATED)));
    [apply hdr_set_infomask | apply hdr_set_infomask2];
    apply (hdr_read_map (λ x, clear_flag x _)); auto with hdr.
Qed.

Lemma hdr_hot b : hdr_local (λ m a, if b : bool then HeapTupleHeaderSetHotUpdated m a
                                     else HeapTupleHeaderClearHotUpdated m a).
Proof.
  destruct b; apply hdr_set_infomask2;
    [apply (hdr_read_map (λ x, set_flag x _))|apply (hdr_read_map (λ x, clear_flag x _))]; auto with hdr.
Qed.

Lemma hdr_SetCmax cid b : hdr_local (λ m a, HeapTupleHeaderSetCmax m a cid b).
Proof.
  apply (hdr_local_comp (λ m a, set_t_cid m a cid)
    (λ m a, set_t_infomask m a (if b then set_flag (t_infomask m a) HEAP_COMBOCID
                                else clear_flag (t_infomask m a) HEAP_COMBOCID))).
  - apply hdr_set_cid. auto with hdr.
  - apply hdr_set_infomask.
    apply (hdr_read_map (λ x, if b then set_flag x HEAP_COMBOCID else clear_flag x HEAP_COMBOCID)).
    auto with hdr.
Qed.

Lemma hdr_fix_infomask bits : hdr_local (λ m a, fix_infomask_at m a bits).
Proof.
  apply (hdr_local_ext _ (λ m a,
    let im := fst (fix_infomask_from_infobits bits (t_infomask m a) (t_infomask2 m a)) in
    let im2 := snd (fix_infomask_from_infobits bits (t_infomask m a) (t_infomask2 m a)) in
    set_t_infomask2 (set_t_infomask m a im) a im2)).
  { intros. unfold fix_infomask_at. by destruct (fix_infomask_from_infobits _ _ _). }
  constructor.
  - intros. cbv zeta. unfold set_t_infomask2, set_t_infomask. by rewrite !zlen_mput.
  - intros. cbv zeta. by repeat apply mput_byte.
  - intros m a len Ha Hl Hr. cbv zeta.
    rewrite <-(hdr_infomask m a len), <-(hdr_infomask2 m a len) by done.
    set (v := fst _). set (w := snd _).
    apply (hl_eq _ (hdr_local_comp _ _ (hdr_set_infomask (λ _ _, v) (hdr_read_const v))
                      (hdr_set_infomask2 (λ _ _, w) (hdr_read_const w))) m a len Ha Hl Hr).
Qed.

#[export] Hint Resolve hdr_clear_xmax_bits hdr_hot hdr_SetCmax hdr_fix_infomask hdr_ItemPointerSet : hdr.

(** Composition of two header updates, for proofs about sequences of them. *)
Lemma hdr_seq f g h :
  hdr_local f → hdr_local g → (∀ m a, h m a = g (f m a) a) → hdr_local h.
Proof. intros Hf Hg He. eapply hdr_local_ext; [exact He|]. by apply hdr_local_comp. Qed.

Lemma hdr_delete_tuple xmax bits flags : hdr_local (λ m a, delete_tuple m a xmax bits flags).
Proof.
  unfold delete_tuple.
  eapply (hdr_seq (λ m a, if negb (has_flag flags XLH_DELETE_IS_SUPER)
    then HeapTupleHeaderSetXmax (fix_infomask_at (HeapTupleHeaderClearHotUpdated (clear_xmax_bits m a) a) a bits) a xmax
    else HeapTupleHeaderSetXmin (fix_infomask_at (HeapTupleHeaderClearHotUpdated (clear_xmax_bits m a) a) a bits) a InvalidTransactionId));
    [|apply (hdr_SetCmax FirstCommandId false)|done].
  eapply (hdr_seq (λ m a, fix_infomask_at (HeapTupleHeaderClearHotUpdated (clear_xmax_bits m a) a) a bits)
    (λ m a, if negb (has_flag flags XLH_DELETE_IS_SUPER) then HeapTupleHeaderSetXmax m a xmax
            else HeapTupleHeaderSetXmin m a InvalidTransactionId)); [| |intros; by destruct (negb _)].
  - eapply (hdr_seq (λ m a, HeapTupleHeaderClearHotUpdated (clear_xmax_bits m a) a)
      (λ m a, fix_infomask_at m a bits)); [|auto with hdr|done].
    eapply (hdr_seq clear_xmax_bits (λ m a, HeapTupleHeaderClearHotUpdated m a)); [auto with hdr|apply (hdr_hot false)|done].
  - destruct (negb _); auto with hdr.
Qed.

Lemma hdr_update_old_tuple x hot blk : hdr_local (λ m a, update_old_tuple m a x hot blk).
Proof.
  unfold update_old_tuple.
  eapply hdr_seq; [|apply (hdr_ItemPointerSet blk (new_offnum x))|done].
  eapply hdr_seq; [|apply (hdr_SetCmax FirstCommandId false)|done].
  eapply hdr_seq; [|apply (hdr_set_xmax (λ _ _, old_xmax x)); auto with hdr|done].
  eapply hdr_seq; [|apply (hdr_fix_infomask (old_infobits_set x))|done].
  eapply (hdr_seq clear_xmax_bits); [auto with hdr|apply (hdr_hot hot)|done].
Qed.

Lemma hdr_lock_tuple blk off xid bits : hdr_local (λ m a, lock_tuple m a blk off xid bits).
Proof.
  unfold lock_tuple.
  eapply hdr_seq; [|apply (hdr_SetCmax FirstCommandId false)|done].
  eapply hdr_seq; [|apply (hdr_set_xmax (λ _ _, xid)); auto with hdr|done].
  eapply (hdr_seq (λ m a, fix_infomask_at (clear_xmax_bits m a) a bits)
    (λ m a, if HEAP_XMAX_IS_LOCKED_ONLY (t_infomask m a)
            then ItemPointerSet (HeapTupleHeaderClearHotUpdated m a) a blk off else m)); [| |done].
  - eapply hdr_seq; [|apply (hdr_fix_infomask bits)|done]. auto with hdr.
  - apply hdr_local_if; auto with hdr.
    + apply (hdr_read_map HEAP_XMAX_IS_LOCKED_ONLY). auto with hdr.
    + eapply hdr_seq; [apply (hdr_hot false)|apply (hdr_ItemPointerSet blk off)|done].
Qed.

Lemma hdr_lock_updated bits xmax :
  hdr_local (λ m a, HeapTupleHeaderSetXmax (fix_infomask_at (clear_xmax_bits m a) a bits) a xmax).
Proof.
  eapply hdr_seq; [|apply (hdr_set_xmax (λ _ _, xmax)); auto with hdr|done].
  eapply hdr_seq; [|apply (hdr_fix_infomask bits)|done]. auto with hdr.
Qed.

Lemma hdr_freeze frz : hdr_local (λ m a, heap_execute_freeze_tuple m a frz).
Proof.
  unfold heap_execute_freeze_tuple.
  eapply hdr_seq; [|apply (hdr_set_infomask2 (λ _ _, frz_infomask2 frz)); auto with hdr|done].
  eapply hdr_seq; [|apply (hdr_set_infomask (λ _ _, frz_infomask frz)); auto with hdr|done].
  eapply (hdr_seq (λ m a, HeapTupleHeaderSetXmax m a (frz_xmax frz))
    (λ m a, let m := if has_flag (frzflags frz) XLH_FREEZE_XVAC then HeapTupleHeaderSetXvac m a FrozenTransactionId else m in
            if has_flag (frzflags frz) XLH_INVALID_XVAC then HeapTupleHeaderSetXvac m a InvalidTransactionId else m));
    [apply (hdr_set_xmax (λ _ _, frz_xmax frz)); auto with hdr| |done].
  cbv zeta. unfold HeapTupleHeaderSetXvac.
  destruct (has_flag (frzflags frz) XLH_FREEZE_XVAC), (has_flag (frzflags frz) XLH_INVALID_XVAC); auto with hdr.
  apply (hdr_local_comp (λ m a, set_t_cid m a FrozenTransactionId)
    (λ m a, set_t_cid m a InvalidTransactionId)); auto with hdr.
Qed.

(** ** One slot of the page *)

Definition map_slot (f : mem → Z → mem) (s : slot) : slot :=
  mkSlot (sl_flags s) (sl_link s) (f (sl_bytes s) 0).

(** The bytes of an item, as the page holds them and as its slot shows them. *)
Lemma slot_bytes p off : page_wf p → 1 ≤ off ≤ PageGetMaxOffsetNumber p → lp_len (PageGetItemId p off) ≠ 0 →
  let lp := PageGetItemId p off in
  page_slots p !! Z.to_nat (off - 1) = Some (mkSlot (lp_flags lp) 0 (mread p (lp_off lp) (lp_len lp))) ∧
  zlen (mread p (lp_off lp) (lp_len lp)) = lp_len lp ∧ 24 ≤ lp_off lp ∧ lp_off lp + lp_len lp ≤ 8192.
Proof.
  intros Hwf Ho Hn lp. pose proof (wf_hdr _ Hwf) as [].
  destruct (wf_item _ Hwf off Ho Hn) as (Hu & Hs & _). fold lp in Hu, Hs.
  pose proof (MAXALIGN_bounds (lp_len lp)). pose proof (PageGetItemId_bound p off) as Hbd. fold lp in Hbd, Hn.
  unfold BLCKSZ in *. split_and!; [|apply zlen_mread; lia|lia|lia].
  rewrite page_slots_lookup, decide_True by lia. f_equal.
  replace (1 + Z.of_nat (Z.to_nat (off - 1))) with off by lia. unfold slot_at, slot_of, PageGetItemBytes. fold lp.
  by rewrite (proj2 (Z.eqb_neq _ _) Hn).
Qed.

Lemma tuple_update_refines p off f :
  page_wf p → 1 ≤ off ≤ PageGetMaxOffsetNumber p →
  SizeofHeapTupleHeader ≤ lp_len (PageGetItemId p off) → hdr_local f →
  let q := f p (lp_off (PageGetItemId p off)) in
  page_wf q ∧ page_slots q = alter (map_slot f) (Z.to_nat (off - 1)) (page_slots p) ∧
  (∀ o l, 0 ≤ o → o + l ≤ 24 → mread q o l = mread p o l) ∧
  (∀ i, 1 ≤ i ≤ PageGetMaxOffsetNumber p → PageGetItemId q i = PageGetItemId p i).
Proof.
  intros Hwf Hoff Hlen Hf q. set (lp := PageGetItemId p off) in *.
  assert (Hn : lp_len lp ≠ 0) by (unfold SizeofHeapTupleHeader in *; lia).
  destruct (slot_bytes p off Hwf Hoff Hn) as (Hlk & Hzb & Ho1 & Ho2). fold lp in Hlk, Hzb, Ho1, Ho2.
  set (bs := mread p (lp_off lp) (lp_len lp)) in *.
  assert (Hq : q = mwrite p (lp_off lp) (f bs 0)).
  { pose proof (wf_hdr _ Hwf) as []. unfold BLCKSZ in *. apply (hl_eq _ Hf); lia. }
  destruct (item_write_refines p off (f bs 0) Hwf Hoff Hn) as (Hw & Hs & Hr & Hi).
  { by rewrite (hl_len _ Hf). }
  { apply (hl_byte _ Hf), mread_byte. apply (wf_hdr _ Hwf). }
  fold lp in Hw, Hs, Hr, Hi. rewrite <-Hq in Hw, Hs, Hr, Hi. split_and!; try done.
  rewrite Hs. apply list_eq. intros k. destruct (decide (k = Z.to_nat (off - 1))) as [->|Hk].
  - rewrite !list_lookup_alter_eq, Hlk. done.
  - by rewrite !list_lookup_alter_ne.
Qed.

(** ** Heap pages *)

(** A heap page has at most [MaxHeapTuplesPerPage] line pointers, and every
    normal item has room for a tuple header. *)
Record heap_wf (p : page) : Prop := {
  hw_page :> page_wf p;
  hw_max : PageGetMaxOffsetNumber p ≤ MaxHeapTuplesPerPage;
  hw_tuple i : 1 ≤ i ≤ PageGetMaxOffsetNumber p → lp_flags (PageGetItemId p i) = LP_NORMAL →
    SizeofHeapTupleHeader ≤ lp_len (PageGetItemId p i) }.

(** Offset number [off] names a tuple of the page. *)
Definition live (p : page) (off : Z) : Prop :=
  1 ≤ off ≤ PageGetMaxOffsetNumber p ∧ lp_flags (PageGetItemId p off) = LP_NORMAL.

Lemma live_lp p off : heap_wf p → live p off →
  redo_lp p off = Ok (PageGetItemId p off) ∧
  redo_tuple p (PageGetItemId p off) = Ok (lp_off (PageGetItemId p off)).
Proof.
  intros Hh [Ho Hf]. pose proof (hw_tuple _ Hh off Ho Hf) as Hl. unfold SizeofHeapTupleHeader in Hl.
  pose proof (wf_hdr _ (hw_page _ Hh)) as Hw. pose proof Hw as [].
  pose proof (linp_addr_range _ _ Hw Ho). pose proof (PageGetItemId_bound p off).
  destruct (wf_item _ (hw_page _ Hh) off Ho ltac:(lia)) as (? & ? & _).
  pose proof (MAXALIGN_bounds (lp_len (PageGetItemId p off))). unfold BLCKSZ in *.
  unfold redo_lp, redo_tuple, PageGetItemIdChecked, ItemIdIsNormal, sizeof_ItemIdData, SizeofHeapTupleHeader.
  destruct (Z.ltb_spec (PageGetMaxOffsetNumber p) off); [lia|].
  rewrite !(proj2 (in_range_true _ _ _)) by lia. cbn [mbind res_bind]. rewrite Hf. done.
Qed.

(** The errors: PANIC unless there is a normal item at the offset number. *)
Lemma not_live_panic p off :
  page_wf p → 1 ≤ off → ¬ live p off → redo_lp p off = Err EPanic.
Proof.
  intros Hw Ho Hn. unfold redo_lp. destruct (Z.ltb_spec (PageGetMaxOffsetNumber p) off); [done|].
  pose proof (wf_hdr _ Hw) as Hh. pose proof Hh as []. pose proof (linp_addr_range _ off Hh ltac:(lia)).
  unfold PageGetItemIdChecked, sizeof_ItemIdData, BLCKSZ in *. rewrite (proj2 (in_range_true _ _ _)) by lia.
  cbn [mbind res_bind]. unfold ItemIdIsNormal.
  destruct (Z.eqb_spec (lp_flags (PageGetItemId p off)) LP_NORMAL); [|done].
  destruct Hn. by split; [lia|].
Qed.

(** [q] is [p] with the tuple at [off] changed by [f]. *)
Record slot_upd (p q : page) (off : Z) (f : mem → Z → mem) : Prop := {
  su_wf : heap_wf q;
  su_slots : page_slots q = alter (map_slot f) (Z.to_nat (off - 1)) (page_slots p);
  su_max : PageGetMaxOffsetNumber q = PageGetMaxOffsetNumber p;
  su_item i : 1 ≤ i ≤ PageGetMaxOffsetNumber p → PageGetItemId q i = PageGetItemId p i }.

Lemma frame_heap p q : heap_wf p → page_frame p q → heap_wf q.
Proof.
  intros [Hw Hm Ht] Hf. split; [by apply (frame_wf p)|by rewrite (frame_maxoff _ _ Hf)|].
  intros i. rewrite (frame_maxoff _ _ Hf). intros Hi. rewrite (frame_itemid _ _ Hf) by lia. auto.
Qed.

Lemma slot_upd_tuple p off f :
  heap_wf p → live p off → hdr_local f → slot_upd p (f p (lp_off (PageGetItemId p off))) off f.
Proof.
  intros Hh [Ho Hn] Hf.
  destruct (tuple_update_refines p off f (hw_page _ Hh) Ho (hw_tuple _ Hh off Ho Hn) Hf) as (Hw & Hs & Hr & Hi).
  assert (Hm : PageGetMaxOffsetNumber (f p (lp_off (PageGetItemId p off))) = PageGetMaxOffsetNumber p).
  { unfold PageGetMaxOffsetNumber, pd_lower, mget. rewrite !Hr by lia. done. }
  constructor; [|done|done|done]. split; [done|rewrite Hm; apply Hh|]. intros i. rewrite Hm. intros Hr'. rewrite Hi by done.
  by apply (hw_tuple _ Hh).
Qed.

Lemma slot_upd_frame p q q' off f : slot_upd p q off f → page_frame q q' → slot_upd p q' off f.
Proof.
  intros [Hw Hs Hm Hi] Hf. constructor.
  - by apply (frame_heap q).
  - by rewrite (frame_slots _ _ Hf (hw_page _ Hw)).
  - by rewrite (frame_maxoff _ _ Hf).
  - intros i Hr. rewrite (frame_itemid _ _ Hf) by lia. auto.
Qed.

Lemma alter_alter f g k (l : list slot) :
  alter (map_slot g) k (alter (map_slot f) k l) = alter (map_slot (λ m a, g (f m a) a)) k l.
Proof.
  apply list_eq. intros j. destruct (decide (k = j)) as [->|Hk].
  - rewrite !list_lookup_alter_eq. by destruct (l !! j).
  - by rewrite !list_lookup_alter_ne.
Qed.

Lemma slot_upd_then p q off f g :
  live p off → slot_upd p q off f → hdr_local g →
  slot_upd p (g q (lp_off (PageGetItemId p off))) off (λ m a, g (f m a) a).
Proof.
  intros [Ho Hn] [Hw Hs Hm Hi] Hg.
  assert (Hl : live q off) by (split; [by rewrite Hm|by rewrite Hi]).
  destruct (slot_upd_tuple q off g Hw Hl Hg) as [Hw' Hs' Hm' Hi']. rewrite <-(Hi off Ho).
  constructor.
  - done.
  - rewrite Hs', Hs. apply alter_alter.
  - congruence.
  - intros i Hr. rewrite Hi' by (rewrite Hm; done). auto.
Qed.

Lemma frame_prunable p xid : page_frame p (PageSetPrunable p xid).
Proof. unfold PageSetPrunable. destruct (_ || _); auto with page. Qed.
Lemma frame_clear_visible p (b : bool) : page_frame p (if b then PageClearAllVisible p else p).
Proof. destruct b; [apply frame_flags|auto with page]. Qed.
#[export] Hint Resolve frame_prunable frame_clear_visible : page.

(** The LSN of the result. *)
Lemma lsn_after p lsn : zlen p = BLCKSZ → 0 ≤ lsn < 2 ^ 64 → PageGetLSN (PageSetLSN p lsn) = lsn.
Proof. intros. apply PageGetSetLSN; [unfold BLCKSZ in *; lia|done]. Qed.

Lemma slot_upd_lsn p q off f lsn :
  slot_upd p q off f → 0 ≤ lsn < 2 ^ 64 →
  slot_upd p (PageSetLSN q lsn) off f ∧ PageGetLSN (PageSetLSN q lsn) = lsn.
Proof.
  intros Hs Hl. split; [eapply slot_upd_frame; [done|apply frame_lsn]|].
  apply lsn_after; [apply (wf_hdr _ (hw_page _ (su_wf _ _ _ _ Hs)))|done].
Qed.

Definition delete_effect (blk off xmax bits flags : Z) (m : mem) (a : Z) : mem :=
  let m := delete_tuple m a xmax bits flags in
  if has_flag flags XLH_DELETE_IS_PARTITION_MOVE
  then HeapTupleHeaderSetMovedPartitions m a else ItemPointerSet m a blk off.

Lemma delete_page_refines r blk xmax off bits flags p :
  heap_wf p → live p off → 0 ≤ EndRecPtr r < 2 ^ 64 →
  ∃ q, delete_page r blk xmax off bits flags p = Ok q ∧
    slot_upd p q off (delete_effect blk off xmax bits flags) ∧ PageGetLSN q = EndRecPtr r.
Proof.
  intros Hh Hl Hr. unfold delete_page. destruct (live_lp p off Hh Hl) as [-> Ht].
  cbn [mbind res_bind]. rewrite Ht. cbn [mbind res_bind].
  set (a := lp_off (PageGetItemId p off)). eexists. split; [done|]. apply slot_upd_lsn; [|done].
  set (q := if has_flag flags XLH_DELETE_ALL_VISIBLE_CLEARED then _ else _).
  assert (Hq : slot_upd p q off (λ m a, delete_tuple m a xmax bits flags)).
  { eapply slot_upd_frame; [|apply frame_clear_visible]. eapply slot_upd_frame; [|apply frame_prunable].
    apply (slot_upd_tuple p off (λ m a, delete_tuple m a xmax bits flags)); auto using hdr_delete_tuple. }
  unfold delete_effect. destruct (has_flag flags XLH_DELETE_IS_PARTITION_MOVE).
  - apply (slot_upd_then p q off _ (λ m a, HeapTupleHeaderSetMovedPartitions m a)); auto.
    apply hdr_ItemPointerSet.
  - apply (slot_upd_then p q off _ (λ m a, ItemPointerSet m a blk off)); auto with hdr.
Qed.

Lemma lock_page_refines r blk xid off bits p :
  heap_wf p → live p off → 0 ≤ EndRecPtr r < 2 ^ 64 →
  ∃ q, lock_page r blk xid off bits p = Ok q ∧
    slot_upd p q off (λ m a, lock_tuple m a blk off xid bits) ∧ PageGetLSN q = EndRecPtr r.
Proof.
  intros Hh Hl Hr. unfold lock_page. destruct (live_lp p off Hh Hl) as [-> Ht].
  cbn [mbind res_bind]. rewrite Ht. eexists. split; [done|]. apply slot_upd_lsn; [|done].
  apply (slot_upd_tuple p off (λ m a, lock_tuple m a blk off xid bits)); auto using hdr_lock_tuple.
Qed.

Lemma lock_updated_page_refines r xmax off bits p :
  heap_wf p → live p off → 0 ≤ EndRecPtr r < 2 ^ 64 →
  ∃ q, lock_updated_page r xmax off bits p = Ok q ∧
    slot_upd p q off (λ m a, HeapTupleHeaderSetXmax (fix_infomask_at (clear_xmax_bits m a) a bits) a xmax) ∧
    PageGetLSN q = EndRecPtr r.
Proof.
  intros Hh Hl Hr. unfold lock_updated_page. destruct (live_lp p off Hh Hl) as [-> Ht].
  cbn [mbind res_bind]. rewrite Ht. eexists. split; [done|]. apply slot_upd_lsn; [|done].
  apply (slot_upd_tuple p off _ Hh Hl (hdr_lock_updated bits xmax)).
Qed.

Lemma confirm_page_refines r blk off p :
  heap_wf p → live p off → 0 ≤ EndRecPtr r < 2 ^ 64 →
  ∃ q, confirm_page r blk off p = Ok q ∧
    slot_upd p q off (λ m a, ItemPointerSet m a blk off) ∧ PageGetLSN q = EndRecPtr r.
Proof.
  intros Hh Hl Hr. unfold confirm_page. destruct (live_lp p off Hh Hl) as [-> Ht].
  cbn [mbind res_bind]. rewrite Ht. eexists. split; [done|]. apply slot_upd_lsn; [|done].
  apply (slot_upd_tuple p off (λ m a, ItemPointerSet m a blk off)); auto with hdr.
Qed.

Lemma update_old_page_refines r x hot blk p :
  heap_wf p → live p (old_offnum x) → 0 ≤ EndRecPtr r < 2 ^ 64 →
  ∃ q, update_old_page r x hot blk p = Ok (q, PageGetItemId p (old_offnum x)) ∧
    slot_upd p q (old_offnum x) (λ m a, update_old_tuple m a x hot blk) ∧ PageGetLSN q = EndRecPtr r.
Proof.
  intros Hh Hl Hr. unfold update_old_page. destruct (live_lp p _ Hh Hl) as [-> Ht].
  cbn [mbind res_bind]. rewrite Ht. eexists. split; [done|]. apply slot_upd_lsn; [|done].
  eapply slot_upd_frame; [|apply frame_clear_visible]. eapply slot_upd_frame; [|apply frame_prunable].
  apply (slot_upd_tuple p _ (λ m a, update_old_tuple m a x hot blk)); auto using hdr_update_old_tuple.
Qed.

(** ** Insertion *)

Definition tuple_slot_ok (s : slot) : Prop :=
  sl_flags s = LP_NORMAL → SizeofHeapTupleHeader ≤ zlen (sl_bytes s).

Lemma heap_wf_slots p :
  heap_wf p ↔ page_wf p ∧ PageGetMaxOffsetNumber p ≤ MaxHeapTuplesPerPage ∧
              Forall tuple_slot_ok (page_slots p).
Proof.
  split.
  - intros [Hw Hm Ht]. split_and!; [done|done|]. apply Forall_lookup. intros k s Hk.
    rewrite page_slots_lookup in Hk. case_decide; simplify_eq. unfold tuple_slot_ok.
    rewrite slot_at_flags, slot_at_len by (done || lia). apply Ht. lia.
  - intros (Hw & Hm & Hs). split; [done|done|]. intros i Hi Hf. rewrite Forall_lookup in Hs.
    specialize (Hs (Z.to_nat (i - 1)) (slot_at p i)). unfold tuple_slot_ok in Hs.
    rewrite slot_at_flags, slot_at_len in Hs by done. apply Hs; [|done].
    rewrite page_slots_lookup, decide_True by lia. do 2 f_equal. lia.
Qed.

Lemma put_slot_Forall (P : slot → Prop) s k x ins : Forall P s → P x → Forall P (put_slot s k x ins).
Proof.
  intros Hs Hx. unfold put_slot. destruct ins; [|by apply Forall_insert].
  apply Forall_app. split; [by apply Forall_take|]. constructor; [done|]. by apply Forall_drop.
Qed.

Lemma PAI_heap_flags :
  has_flag (Z.lor PAI_OVERWRITE PAI_IS_HEAP) PAI_OVERWRITE = true ∧
  has_flag (Z.lor PAI_OVERWRITE PAI_IS_HEAP) PAI_IS_HEAP = true.
Proof. done. Qed.

(** What a successful [add_tuple] has done. *)
Lemma add_tuple_inv p t off q :
  heap_wf p → Forall is_byte t → SizeofHeapTupleHeader ≤ zlen t → 1 ≤ off ≤ MaxOffsetNumber →
  add_tuple p t off = Ok q →
  heap_wf q ∧ off ≤ PageGetMaxOffsetNumber p + 1 ∧
  page_slots q = put_slot (page_slots p) (Z.to_nat (off - 1)) (mkSlot LP_NORMAL 0 t)
                   (off =? PageGetMaxOffsetNumber p + 1).
Proof.
  intros Hh Hb Hl Ho Ha. unfold add_tuple, PageAddItem in Ha.
  destruct (PageAddItemExtended_refines p t off (Z.lor PAI_OVERWRITE PAI_IS_HEAP) (hw_page _ Hh) Hb)
    as (q' & r & He & Hw & Hc); [unfold SizeofHeapTupleHeader in *; lia|lia|].
  rewrite He in Ha. cbn [mbind res_bind] in Ha.
  destruct (Z.eqb_spec r InvalidOffsetNumber) as [Hr|Hr]; [done|]. injection Ha as <-.
  destruct Hc as [[? _]|(Hr1 & Hv & ins & Hs & _ & Hins & Hheap & Hmq & _)]; [done|].
  assert (r = off) as ->.
  { apply Hv. unfold OffsetNumberIsValid, InvalidOffsetNumber. zcase; done. }
  rewrite (Hins (proj1 PAI_heap_flags)) in Hs. split_and!; [|lia|done].
  apply heap_wf_slots. split_and!; [done| |].
  - specialize (Hheap (proj2 PAI_heap_flags)). pose proof (hw_max _ Hh). rewrite Hmq, (Hins (proj1 PAI_heap_flags)).
    destruct (Z.eqb_spec off (PageGetMaxOffsetNumber p + 1)); lia.
  - rewrite Hs. apply put_slot_Forall; [by apply heap_wf_slots|]. intros _. done.
Qed.

Definition room_for (p : page) (off len : Z) : Prop :=
  1 ≤ off ≤ PageGetMaxOffsetNumber p + 1 ∧ off ≤ MaxHeapTuplesPerPage ∧
  (off ≤ PageGetMaxOffsetNumber p →
   lp_len (PageGetItemId p off) = 0 ∧ lp_flags (PageGetItemId p off) = LP_UNUSED) ∧
  MAXALIGN len + 4 ≤ pd_upper p - pd_lower p.

Lemma add_tuple_ok p t off :
  heap_wf p → SizeofHeapTupleHeader ≤ zlen t → room_for p off (zlen t) → ∃ q, add_tuple p t off = Ok q.
Proof.
  intros Hh Hl (Ho & Hmax & Hfree & Hfit). unfold add_tuple, PageAddItem.
  destruct (PageAddItemExtended_accepts p t off (Z.lor PAI_OVERWRITE PAI_IS_HEAP)) as [q Hq];
    [apply Hh|unfold SizeofHeapTupleHeader in *; lia|lia|done|done|done|done|].
  rewrite Hq. cbn [mbind res_bind]. destruct (Z.eqb_spec off InvalidOffsetNumber); [unfold InvalidOffsetNumber in *; lia|].
  eauto.
Qed.

(** The tuple a redo routine builds. *)
Lemma build_tuple_ok body im2 im hoff xid :
  SizeofHeapTupleHeader + zlen body ≤ MaxHeapTupleSize → Forall is_byte body →
  0 ≤ im2 < 65536 → 0 ≤ im < 65536 → 0 ≤ hoff < 256 → 0 ≤ xid < 2 ^ 32 →
  ∃ t, build_tuple body im2 im hoff xid = Ok t ∧ zlen t = SizeofHeapTupleHeader + zlen body ∧
    Forall is_byte t ∧ t_xmin t 0 = xid ∧ t_xmax t 0 = 0 ∧ t_cid t 0 = FirstCommandId ∧
    t_infomask2 t 0 = im2 ∧ t_infomask t 0 = clear_flag im HEAP_COMBOCID ∧ t_hoff t 0 = hoff ∧
    mread t SizeofHeapTupleHeader (zlen body) = body.
Proof.
  intros Hsz Hb Him2 Him Hho Hx. unfold build_tuple.
  destruct (Z.ltb_spec MaxHeapTupleSize (SizeofHeapTupleHeader + zlen body)); [lia|].
  set (z := replicate (Z.to_nat SizeofHeapTupleHeader) 0 ++ body).
  assert (Hz : zlen z = 23 + zlen body) by (unfold z, zlen; rewrite length_app, length_replicate; unfold SizeofHeapTupleHeader; lia).
  assert (Hbz : Forall is_byte z).
  { apply Forall_app. split; [|done]. apply Forall_replicate. unfold is_byte. lia. }
  assert (Hpos : 0 ≤ zlen body) by (unfold zlen; lia).
  assert (Hx0 : mget 4 z 4 = 0).
  { unfold z, mget, mread. by rewrite drop_app_le, take_app_le by (rewrite ?length_drop, length_replicate; unfold SizeofHeapTupleHeader; lia). }
  eexists. split; [done|]. unfold HeapTupleHeaderSetCmin, HeapTupleHeaderSetXmin, set_t_cid, set_t_infomask,
    set_t_infomask2, set_t_hoff, t_xmin, t_xmax, t_cid, t_infomask2, t_infomask, t_hoff, SizeofHeapTupleHeader.
  change (0 + ?k) with k.
  assert (0 ≤ clear_flag im HEAP_COMBOCID < 65536) by (apply (land_bounded_l _ _ 16); lia).
  assert (Hinf : mget 2 (mput 4 (mput 4 (mput 1 (mput 2 (mput 2 z 18 im2) 20 im) 22 hoff) 0 xid) 8 FirstCommandId) 20 = im).
  { mem_simpl. rewrite mget_mput2 by (rewrite ?zlen_mput; lia). done. }
  rewrite Hinf. split_and!; rewrite ?zlen_mput; try done; try lia.
  - by repeat apply mput_byte.
  - mem_simpl. apply mget_mput4; rewrite ?zlen_mput; lia.
  - mem_simpl. done.
  - mem_simpl. apply mget_mput4; rewrite ?zlen_mput; unfold FirstCommandId; lia.
  - mem_simpl. apply mget_mput2; rewrite ?zlen_mput; lia.
  - apply mget_mput2; rewrite ?zlen_mput; lia.
  - mem_simpl. apply mget_mput1; rewrite ?zlen_mput; lia.
  - mem_simpl. unfold z, mread. rewrite drop_app_ge by (rewrite length_replicate; unfold SizeofHeapTupleHeader; lia).
    rewrite length_replicate. unfold SizeofHeapTupleHeader. simpl. rewrite drop_0. apply take_ge. unfold zlen. lia.
Qed.

(** Setting [t_ctid] of a tuple and reading it back. *)
Lemma ItemPointerSet_get t blk off :
  18 ≤ zlen t → 0 ≤ blk < 2 ^ 32 → 0 ≤ off < 65536 →
  ItemPointerGetBlockNumber (ItemPointerSet t 0 blk off) 0 = blk ∧
  ItemPointerGetOffsetNumber (ItemPointerSet t 0 blk off) 0 = off.
Proof.
  intros Hl Hb Ho. unfold ItemPointerGetBlockNumber, ItemPointerGetOffsetNumber, ItemPointerSet.
  change (0 + ?k) with k. change (12 + 2) with 14. change (12 + 4) with 16. cbv zeta.
  assert (0 ≤ Z.land blk 65535 < 65536) by (apply (land_bounded blk 65535 16); lia).
  assert (0 ≤ Z.shiftr blk 16 < 65536) by (rewrite Z.shiftr_div_pow2 by lia; dlia).
  split; [|apply mget_mput2; rewrite ?zlen_mput; lia].
  rewrite !(mget_mput_disj 2 2 _ 16 off) by lia. rewrite (mget_mput_disj 2 2 _ 14) by lia.
  rewrite !mget_mput2 by (rewrite ?zlen_mput; lia).
  change 65535 with (Z.ones 16). apply Z.bits_inj'. intros i Hi.
  rewrite Z.lor_spec, Z.land_spec, Z.shiftl_spec by done. destruct (decide (i < 16)).
  - rewrite (Z.testbit_neg_r _ (i - 16)), Z.ones_spec_low by lia. by rewrite andb_true_r.
  - rewrite Z.shiftr_spec, Z.ones_spec_high by lia. rewrite andb_false_r, orb_false_r. f_equal. lia.
Qed.

Lemma ItemPointerSet_other t blk off :
  (∀ o l, 0 ≤ o → o + l ≤ 12 ∨ 18 ≤ o → mread (ItemPointerSet t 0 blk off) o l = mread t o l) ∧
  zlen (ItemPointerSet t 0 blk off) = zlen t.
Proof.
  unfold ItemPointerSet. change (0 + ?k) with k. cbv zeta. split; [|by rewrite !zlen_mput].
  intros. by rewrite !mread_mput_disj by lia.
Qed.

(** The tuple an insert record describes, as it must be on the page. *)
Record inserted_tuple (data : list Z) (xid blk off : Z) (t : mem) : Prop := {
  it_len : zlen t = SizeofHeapTupleHeader + (zlen data - SizeOfHeapHeader);
  it_xmin : t_xmin t 0 = xid;
  it_xmax : t_xmax t 0 = 0;
  it_cid : t_cid t 0 = FirstCommandId;
  it_infomask2 : t_infomask2 t 0 = mget 2 data 0;
  it_infomask : t_infomask t 0 = clear_flag (mget 2 data 2) HEAP_COMBOCID;
  it_hoff : t_hoff t 0 = mget 1 data 4;
  it_block : ItemPointerGetBlockNumber t 0 = blk;
  it_offset : ItemPointerGetOffsetNumber t 0 = off;
  it_body : mread t SizeofHeapTupleHeader (zlen data - SizeOfHeapHeader) =
            mread data SizeOfHeapHeader (zlen data - SizeOfHeapHeader) }.

Lemma inserted_build data xid blk off :
  SizeOfHeapHeader ≤ zlen data → SizeofHeapTupleHeader + (zlen data - SizeOfHeapHeader) ≤ MaxHeapTupleSize →
  Forall is_byte data → 0 ≤ xid < 2 ^ 32 → 0 ≤ blk < 2 ^ 32 → 0 ≤ off < 65536 →
  ∃ t, build_tuple (mread data SizeOfHeapHeader (zlen data - SizeOfHeapHeader))
         (mget 2 data 0) (mget 2 data 2) (mget 1 data 4) xid = Ok t ∧
    Forall is_byte (ItemPointerSet t 0 blk off) ∧
    inserted_tuple data xid blk off (ItemPointerSet t 0 blk off).
Proof.
  intros Hl Hsz Hb Hx Hblk Hoff. unfold SizeOfHeapHeader in *.
  set (body := mread data 5 (zlen data - 5)).
  assert (Hzb : zlen body = zlen data - 5) by (apply zlen_mread; lia).
  destruct (build_tuple_ok body (mget 2 data 0) (mget 2 data 2) (mget 1 data 4) xid)
    as (t & Ht & Hz & Hby & H1 & H2 & H3 & H4 & H5 & H6 & H7);
    [lia|by apply mread_byte|apply (mget_bound 2)|apply (mget_bound 2)|apply (mget_bound 1)|done|]; try done.
  exists t. split; [done|]. unfold SizeofHeapTupleHeader in *.
  destruct (ItemPointerSet_other t blk off) as [Hr Hzi].
  destruct (ItemPointerSet_get t blk off ltac:(lia) Hblk Hoff) as [Hg1 Hg2].
  split; [by apply hdr_ItemPointerSet|].
  unfold t_xmin, t_xmax, t_cid, t_infomask2, t_infomask, t_hoff, mget in *.
  constructor; unfold SizeOfHeapHeader, SizeofHeapTupleHeader, t_xmin, t_xmax, t_cid, t_infomask2, t_infomask, t_hoff, mget;
    rewrite ?Hr by lia; try done; try lia.
  fold body. rewrite <-Hzb. done.
Qed.

Lemma insert_page_refines r blk off flags p :
  let data := block_bytes r 0 in
  heap_wf p → Forall is_byte data →
  SizeOfHeapHeader ≤ zlen data → SizeofHeapTupleHeader + (zlen data - SizeOfHeapHeader) ≤ MaxHeapTupleSize →
  room_for p off (SizeofHeapTupleHeader + (zlen data - SizeOfHeapHeader)) →
  0 ≤ xl_xid r < 2 ^ 32 → 0 ≤ blk < 2 ^ 32 → 0 ≤ EndRecPtr r < 2 ^ 64 →
  ∃ q t, insert_page r blk off flags p = Ok q ∧ heap_wf q ∧ PageGetLSN q = EndRecPtr r ∧
    inserted_tuple data (xl_xid r) blk off t ∧
    page_slots q = put_slot (page_slots p) (Z.to_nat (off - 1)) (mkSlot LP_NORMAL 0 t)
                     (off =? PageGetMaxOffsetNumber p + 1).
Proof.
  intros data Hh Hb Hl Hsz Hroom Hx Hblk Hr. pose proof Hroom as (Ho & Hmax & _).
  pose proof (maxoff_small p (wf_hdr _ (hw_page _ Hh))).
  destruct (inserted_build data (xl_xid r) blk off) as (t & Ht & Hbt & Hit); auto; [lia|].
  unfold insert_page. destruct (Z.ltb_spec (PageGetMaxOffsetNumber p + 1) off); [lia|].
  cbv zeta. fold data. unfold SizeOfHeapHeader in *. rewrite !rd_ok by (simpl; lia). cbn [mbind res_bind].
  rewrite load_ok by lia. cbn [mbind res_bind]. rewrite Ht. cbn [mbind res_bind].
  pose proof (it_len _ _ _ _ _ Hit) as Hlt. unfold SizeOfHeapHeader, SizeofHeapTupleHeader in *.
  destruct (add_tuple_ok p (ItemPointerSet t 0 blk off) off) as [q Hq];
    [done|unfold SizeofHeapTupleHeader; lia|by rewrite Hlt|].
  rewrite Hq. cbn [mbind res_bind].
  destruct (add_tuple_inv p (ItemPointerSet t 0 blk off) off q) as (Hhq & _ & Hs);
    [done|done|unfold SizeofHeapTupleHeader; lia|split; [lia|change MaxOffsetNumber with 2048; lia]|done|].
  eexists _, _. split; [done|].
  set (q1 := PageSetLSN q (EndRecPtr r)). set (q2 := if has_flag flags XLH_INSERT_ALL_VISIBLE_CLEARED then _ else _).
  assert (Hf1 : page_frame q q1) by apply frame_lsn.
  assert (Hf2 : page_frame q1 q2) by apply frame_clear_visible.
  assert (Hf : page_frame q q2) by (etrans; done).
  split_and!; [by apply (frame_heap q)| |exact Hit|by rewrite (frame_slots _ _ Hf (hw_page _ Hhq))].
  assert (PageGetLSN q2 = PageGetLSN q1) as ->.
  { unfold q2. destruct (has_flag _ _); [|done]. unfold PageClearAllVisible. page_unfold. by mem_simpl. }
  apply lsn_after; [apply (wf_hdr _ (hw_page _ Hhq))|done].
Qed.
