(* ===== verification/HeapReplay.v ===== *)
(** * Replay of heap records against the database state

    Every redo routine on a resident page either finds the record already
    applied and does nothing, or changes exactly that page, keeps it a
    well-formed heap page and stamps it with the record's LSN.  Hence a record
    may be replayed twice, and replay may restart from any earlier record. *)

From S2P Require Import Prelude Mem Page PageAdd PageIndex PageCompact Checksum Buffer WalRecord HeapTuple HeapRedo Resident HeapRefine.

(** ** Page functions *)

(** What every page part of a redo routine guarantees when it succeeds. *)
Definition page_fn_ok (lsn : Z) (f : page → res page) : Prop :=
  ∀ p q, heap_wf p → f p = Ok q → heap_wf q ∧ PageGetLSN q = lsn.

Lemma redo_lp_live p off lp : heap_wf p → 1 ≤ off → redo_lp p off = Ok lp →
  live p off ∧ lp = PageGetItemId p off.
Proof.
  intros Hh Ho Hr. destruct (decide (1 ≤ off ≤ PageGetMaxOffsetNumber p ∧ lp_flags (PageGetItemId p off) = LP_NORMAL)) as [Hl|Hl].
  - destruct (live_lp p off Hh Hl) as [E _]. rewrite E in Hr. by simplify_eq.
  - rewrite (not_live_panic p off (hw_page _ Hh) Ho) in Hr; [done|exact Hl].
Qed.

Section page_fns.
Context (r : XLogReaderState) (Hlsn : 0 ≤ EndRecPtr r < 2 ^ 64).
Abbreviation lsn := (EndRecPtr r).

(** The routines that change one tuple: PANIC, or the refinement lemma. *)
Lemma live_fn_ok (f : page → res page) off g :
1 ≤ off → (∀ p q, f p = Ok q → ∃ lp, redo_lp p off = Ok lp) →
(∀ p, heap_wf p → live p off → ∃ q, f p = Ok q ∧ slot_upd p q off g ∧ PageGetLSN q = lsn) →
page_fn_ok lsn f.
Proof using Type.
intros Ho Hpre Hf p q Hh Hq. destruct (Hpre p q Hq) as [lp Hlp].
destruct (redo_lp_live p off lp Hh Ho Hlp) as [Hl _].
destruct (Hf p Hh Hl) as (q' & Hq' & Hs & Hlq). rewrite Hq in Hq'. simplify_eq.
split; [apply Hs|done].
Qed.

Lemma delete_page_ok blk xmax off bits flags :
1 ≤ off → page_fn_ok lsn (delete_page r blk xmax off bits flags).
Proof using Hlsn.
intros Ho. apply (live_fn_ok _ off (delete_effect blk off xmax bits flags)); [done| |].
- intros p q Hq. unfold delete_page in Hq. res_inv. eauto.
- intros. by apply delete_page_refines.
Qed.

Lemma lock_page_ok blk xid off bits : 1 ≤ off → page_fn_ok lsn (lock_page r blk xid off bits).
Proof using Hlsn.
intros Ho. apply (live_fn_ok _ off (λ m a, lock_tuple m a blk off xid bits)); [done| |].
- intros p q Hq. unfold lock_page in Hq. res_inv. eauto.
- intros. by apply lock_page_refines.
Qed.

Lemma lock_updated_page_ok xmax off bits : 1 ≤ off → page_fn_ok lsn (lock_updated_page r xmax off bits).
Proof using Hlsn.
intros Ho. eapply (live_fn_ok _ off); [done| |].
- intros p q Hq. unfold lock_updated_page in Hq. res_inv. eauto.
- intros. by apply lock_updated_page_refines.
Qed.

Lemma confirm_page_ok blk off : 1 ≤ off → page_fn_ok lsn (confirm_page r blk off).
Proof using Hlsn.
intros Ho. apply (live_fn_ok _ off (λ m a, ItemPointerSet m a blk off)); [done| |].
- intros p q Hq. unfold confirm_page in Hq. res_inv. eauto.
- intros. by apply confirm_page_refines.
Qed.

Lemma set_lsn_ok p : heap_wf p → heap_wf (PageSetLSN p lsn) ∧ PageGetLSN (PageSetLSN p lsn) = lsn.
Proof using Hlsn.
intros Hh. split; [eapply frame_heap; [done|apply frame_lsn]|].
apply lsn_after; [apply (wf_hdr _ (hw_page _ Hh))|done].
Qed.

(** In-place update: the new bytes stay inside the item. *)
Lemma inplace_page_ok off :
1 ≤ off → Forall is_byte (block_bytes r 0) → zlen (block_bytes r 0) < 2 ^ 31 → page_fn_ok lsn (inplace_page r off).
Proof using Hlsn.
intros Ho Hb Hz p q Hh Hq. unfold inplace_page in Hq. cbv zeta in Hq. res_inv.
destruct (redo_lp_live _ _ _ Hh Ho Hq0) as [Hl ->].
destruct (live_lp p off Hh Hl) as [_ Ht].
assert (a0 = lp_off (PageGetItemId p off)) as -> by congruence. clear Hq1.
destruct (negb _) eqn:Ec; [done|]. b2p. res_inv. subst q. apply set_lsn_ok.
destruct Hl as [Hr Hf]. pose proof (hw_tuple _ Hh off Hr Hf) as Hlen.
set (lp := PageGetItemId p off) in *. unfold SizeofHeapTupleHeader, ItemIdGetLength in *.
pose proof (wf_hdr _ (hw_page _ Hh)) as []. unfold BLCKSZ in *.
pose proof (mget_bound 1 p (lp_off lp + 22) ltac:(done)) as Hho. change (256 ^ Z.of_nat 1) with 256 in Hho.
fold (t_hoff p (lp_off lp)) in Hho. set (h := t_hoff p (lp_off lp)) in *.
pose proof (PageGetItemId_bound p off) as Hbd. fold lp in Hbd.
assert (Hle : lp_len lp - h = zlen (block_bytes r 0)).
{ unfold u32 in Ec. destruct (decide (h ≤ lp_len lp)); [rewrite Z.mod_small in Ec; lia|].
exfalso. revert Ec Hz. rewrite <-(Z_mod_plus_full (lp_len lp - h) 1). rewrite Z.mod_small by lia. lia. }
destruct (slot_bytes p off (hw_page _ Hh) Hr ltac:(fold lp; lia)) as (_ & Hzb & Ho1 & Ho2). fold lp in Hzb, Ho1, Ho2.
unfold store in Hq1. rewrite (proj2 (in_range_true _ _ _)) in Hq1 by (unfold zlen in *; lia).
apply Ok_inj in Hq1. subst a.
assert (E : mwrite p (lp_off lp + h) (block_bytes r 0) =
mwrite p (lp_off lp) (mwrite (mread p (lp_off lp) (lp_len lp)) h (block_bytes r 0))).
{ apply list_eq. intros i. rewrite (mwrite_lookup p (lp_off lp + h)) by lia.
rewrite (mwrite_lookup p (lp_off lp)) by (rewrite ?zlen_mwrite; lia). rewrite zlen_mwrite, Hzb.
destruct (decide (lp_off lp ≤ Z.of_nat i < lp_off lp + lp_len lp)).
- rewrite mwrite_lookup by lia. rewrite mread_lookup by lia. repeat case_decide; try lia; f_equal; lia.
- rewrite decide_False by lia. done. }
rewrite E. destruct (item_write_refines p off (mwrite (mread p (lp_off lp) (lp_len lp)) h (block_bytes r 0)))
as (Hw & _ & Hrd & Hi); [apply Hh|done|fold lp; lia|by rewrite zlen_mwrite|apply mwrite_byte; [by apply mread_byte|done]|].
fold lp in Hw, Hrd, Hi.
assert (Hm : ∀ q', (∀ o l, 0 ≤ o → o + l ≤ 24 → mread q' o l = mread p o l) →
PageGetMaxOffsetNumber q' = PageGetMaxOffsetNumber p).
{ intros q' Hq'. unfold PageGetMaxOffsetNumber, pd_lower, mget. rewrite !Hq' by lia. done. }
split; [done|rewrite (Hm _ Hrd); apply Hh|]. intros i. rewrite (Hm _ Hrd). intros Hir. rewrite Hi by done. by apply (hw_tuple _ Hh).
Qed.

Lemma build_tuple_inv body im2 im hoff xid t :
Forall is_byte body → build_tuple body im2 im hoff xid = Ok t →
SizeofHeapTupleHeader ≤ zlen t ∧ Forall is_byte t.
Proof using Type.
intros Hb Ht. unfold build_tuple in Ht. destruct (_ <? _); [done|]. apply Ok_inj in Ht. subst t.
unfold HeapTupleHeaderSetCmin, HeapTupleHeaderSetXmin, set_t_cid, set_t_infomask, set_t_infomask2, set_t_hoff.
rewrite !zlen_mput. split.
- unfold zlen. rewrite length_app, length_replicate. unfold SizeofHeapTupleHeader. lia.
- repeat apply mput_byte. apply Forall_app. split; [|done]. apply Forall_replicate. unfold is_byte. lia.
Qed.

Lemma add_tuple_heap p t off blk o q :
heap_wf p → Forall is_byte t → SizeofHeapTupleHeader ≤ zlen t → 1 ≤ off →
(PageGetMaxOffsetNumber p + 1 <? off) = false →
add_tuple p (ItemPointerSet t 0 blk o) off = Ok q → heap_wf q.
Proof using Type.
intros Hh Hb Hz Ho Hm Ha. b2p. pose proof (hw_max _ Hh). change MaxHeapTuplesPerPage with 291 in *.
eapply add_tuple_inv in Ha as [Hq _]; [done|done|by apply hdr_ItemPointerSet|by rewrite (hl_len _ (hdr_ItemPointerSet _ _))|].
change MaxOffsetNumber with 2048. lia.
Qed.

Lemma flags_lsn_ok p b :
heap_wf p → let q := if b : bool then PageClearAllVisible (PageSetLSN p lsn) else PageSetLSN p lsn in
heap_wf q ∧ PageGetLSN q = lsn.
Proof using Hlsn.
intros Hh. destruct (set_lsn_ok p Hh) as [Hq Hl]. destruct b; cbv zeta; [|done].
split; [eapply frame_heap; [done|apply frame_flags]|].
rewrite <-Hl at 2. unfold PageClearAllVisible. apply lsn_set_flags.
Qed.

Lemma load_byte m off len bs : Forall is_byte m → load m off len = Ok bs → Forall is_byte bs.
Proof using Type. unfold load. destruct (in_range _ _ _); [|done]. intros ? [= <-]. by apply mread_byte. Qed.

Lemma insert_page_ok blk off flags :
1 ≤ off → Forall is_byte (block_bytes r 0) → page_fn_ok lsn (insert_page r blk off flags).
Proof using Hlsn.
intros Ho Hb p q Hh Hq. unfold insert_page in Hq. cbv zeta in Hq.
destruct (_ <? off) eqn:Em; [done|]. res_inv. subst q. apply flags_lsn_ok.
destruct (build_tuple_inv _ _ _ _ _ _ (load_byte _ _ _ _ Hb Hq3) Hq4) as [Hz Hbt].
eapply (add_tuple_heap p); eauto.
Qed.

Lemma multi_insert_loop_ok blk isinit data n : ∀ p pos i q e,
Forall is_byte data → heap_wf p → 0 ≤ i → (isinit = true → i + Z.of_nat n < 65535) →
(isinit = false → ∀ k, i ≤ k < i + Z.of_nat n → 1 ≤ mget 2 (main_data r) (4 + 2 * k)) →
multi_insert_loop r blk isinit data p pos i n = Ok (q, e) → heap_wf q.
Proof using Type.
induction n as [|n IH]; intros p pos i q e Hb Hh Hi Hin Hof Hq; cbn [multi_insert_loop] in Hq.
{ by simplify_eq. }
res_inv. destruct (_ <? a) eqn:Em; [done|]. res_inv.
assert (Ha : 1 ≤ a).
{ destruct isinit.
- specialize (Hin eq_refl). apply Ok_inj in Hq0. subst a. unfold FirstOffsetNumber. rewrite u16_small by lia. lia.
- apply rd_inv in Hq0 as [-> _]. apply Hof; [done|lia]. }
destruct (build_tuple_inv _ _ _ _ _ _ (load_byte _ _ _ _ Hb Hq5) Hq6) as [Hz Hbt].
eapply IH in Hq; [done|done|eapply (add_tuple_heap p); eauto|lia| |].
- intros E. specialize (Hin E). lia.
- intros E k Hk. apply Hof; [done|lia].
Qed.

Lemma multi_insert_page_ok blk isinit flags n :
0 ≤ n < 65535 → Forall is_byte (block_bytes r 0) →
(isinit = false → ∀ k, 0 ≤ k < n → 1 ≤ mget 2 (main_data r) (4 + 2 * k)) →
page_fn_ok lsn (multi_insert_page r blk isinit flags n).
Proof using Hlsn.
intros Hn Hb Hof p q Hh Hq. unfold multi_insert_page in Hq. cbv zeta in Hq.
apply bind_Ok_inv in Hq as ([p1 e] & Hq0 & Hq). destruct (negb _); [done|]. apply Ok_inj in Hq. subst q.
apply flags_lsn_ok. eapply (multi_insert_loop_ok blk isinit); [exact Hb|exact Hh| | | |exact Hq0];
[lia|lia|]. intros E k Hk. apply Hof; [done|lia].
Qed.

Lemma update_body_byte p oldtup data pos hoff pre suf body :
heap_wf p → Forall is_byte data → update_body p oldtup data pos hoff pre suf = Ok body → Forall is_byte body.
Proof using Type.
intros Hh Hb Hq. assert (Hbp : Forall is_byte p) by apply (wf_hdr _ (hw_page _ Hh)).
unfold update_body in Hq. cbv zeta in Hq. res_inv. subst body. apply Forall_app. split.
- destruct (_ <? pre); [|by eauto using load_byte]. res_inv. destruct oldtup; [|done]. res_inv. subst a.
repeat (apply Forall_app; split); eauto using load_byte.
- destruct (_ <? suf); [|by simplify_eq]. destruct oldtup; [|done]. eauto using load_byte.
Qed.

Lemma update_new_page_ok x blk oldtup :
1 ≤ new_offnum x → Forall is_byte (block_bytes r 0) → page_fn_ok lsn (update_new_page r x blk oldtup).
Proof using Hlsn.
intros Ho Hb p q Hh Hq. unfold update_new_page in Hq. cbv zeta in Hq.
destruct (_ <? new_offnum x) eqn:Em; [done|].
apply bind_Ok_inv in Hq as ([pre pos] & Hq0 & Hq). apply bind_Ok_inv in Hq as ([suf pos'] & Hq1 & Hq).
res_inv. subst q. apply set_lsn_ok.
assert (heap_wf a4); [|eapply frame_heap; [done|apply frame_clear_visible]].
destruct (build_tuple_inv _ _ _ _ _ _ (update_body_byte _ _ _ _ _ _ _ _ Hh Hb Hq5) Hq6) as [Hz Hbt].
eapply (add_tuple_heap p (HeapTupleHeaderSetXmax a3 0 (new_xmax x))); eauto.
- unfold HeapTupleHeaderSetXmax. by apply mput_byte.
- unfold HeapTupleHeaderSetXmax. by rewrite zlen_mput.
Qed.
End page_fns.

(** ** Pruning *)

Lemma zlen_insert (l : list slot) k x : zlen (<[k := x]> l) = zlen l.
Proof. unfold zlen. by rewrite length_insert. Qed.

(** A line pointer loses its storage. *)
Lemma set_lp_refines p off lp :
  heap_wf p → 1 ≤ off ≤ PageGetMaxOffsetNumber p → lp_len lp = 0 → 0 ≤ lp_off lp < 2 ^ 15 →
  0 ≤ lp_flags lp < 4 → lp_flags lp ≠ LP_NORMAL →
  ∃ q, lp_update p off lp = Ok q ∧ heap_wf q ∧ PageGetMaxOffsetNumber q = PageGetMaxOffsetNumber p ∧
    page_slots q = <[Z.to_nat (off - 1) := mkSlot (lp_flags lp) (lp_off lp) []]> (page_slots p).
Proof.
  intros Hh Ho Hl Hof Hfl Hnn. pose proof (wf_hdr _ (hw_page _ Hh)) as Hw. pose proof Hw as [].
  pose proof (linp_addr_range _ _ Hw Ho) as [Ha1 Ha2]. unfold BLCKSZ in *.
  unfold lp_update, sizeof_ItemIdData. rewrite (proj2 (in_range_true _ _ _)) by lia.
  set (q := PageSetItemId p off lp). exists q. split; [done|].
  assert (Hsame : PageGetItemId q off = lp) by (apply PageGetSetItemId; lia).
  assert (Hoth : ∀ i, 1 ≤ i → i ≠ off → PageGetItemId q i = PageGetItemId p i)
    by (intros; apply PageGetSetItemId_ne; lia).
  assert (Hr : ∀ o l, 0 ≤ o → o + l ≤ 24 ∨ pd_lower p ≤ o → mread q o l = mread p o l)
    by (intros; apply PageSetItemId_reads; lia).
  assert (Hlo : pd_lower q = pd_lower p) by (unfold pd_lower, mget; by rewrite Hr by lia).
  assert (Hm : PageGetMaxOffsetNumber q = PageGetMaxOffsetNumber p) by (unfold PageGetMaxOffsetNumber; by rewrite Hlo).
  assert (Hwq : page_wf q).
  { apply (subset_wf p); [apply Hh|apply zlen_PageSetItemId|by apply mput_byte|done|..].
    - unfold pd_upper, mget. by rewrite Hr by lia.
    - unfold pd_special, mget. by rewrite Hr by lia.
    - intros i Hi. destruct (decide (i = off)) as [->|]; [right; by rewrite Hsame|left; apply Hoth; lia]. }
  split_and!; [|done|].
  - split; [done|rewrite Hm; apply Hh|]. intros i. rewrite Hm. intros Hi Hf.
    destruct (decide (i = off)) as [->|Hne]; [by rewrite Hsame in Hf|].
    rewrite Hoth in Hf |- * by lia. by apply (hw_tuple _ Hh).
  - apply list_eq. intros k. rewrite page_slots_lookup, Hm.
    destruct (decide (k = Z.to_nat (off - 1))) as [->|Hk].
    + rewrite decide_True by lia. rewrite list_lookup_insert_eq
        by (pose proof (maxoff_slots p); unfold zlen in *; lia).
      replace (1 + Z.of_nat (Z.to_nat (off - 1))) with off by lia. unfold slot_at, slot_of. by rewrite Hsame, Hl.
    + rewrite list_lookup_insert_ne by done. rewrite page_slots_lookup. case_decide; [|done]. f_equal.
      unfold slot_at. rewrite Hoth by lia. unfold slot_of, PageGetItemBytes.
      destruct (Z.eqb_spec (lp_len (PageGetItemId p (1 + Z.of_nat k))) 0) as [E|E]; [done|]. f_equal.
      destruct (wf_item _ (hw_page _ Hh) (1 + Z.of_nat k) ltac:(lia) E) as (? & _). apply Hr; lia.
Qed.

(** Pruning on the abstract view: redirect, kill, free the named slots, then
    empty every unused slot. *)
Definition set_slots (x : slot) (offs : list Z) (s : list slot) : list slot :=
  foldl (λ s off, <[Z.to_nat (off - 1) := x]> s) s offs.
Definition redirect_slots (l : list (Z * Z)) (s : list slot) : list slot :=
  foldl (λ s '(fromoff, tooff), <[Z.to_nat (fromoff - 1) := mkSlot LP_REDIRECT tooff []]> s) s l.
Definition prune_slots (redirected : list (Z * Z)) (nowdead nowunused : list Z) (s : list slot) : list slot :=
  norm_slot <$> set_slots (mkSlot LP_UNUSED 0 []) nowunused
                  (set_slots (mkSlot LP_DEAD 0 []) nowdead (redirect_slots redirected s)).

Lemma prune_redirect_refines l : ∀ p,
  heap_wf p → Forall (λ '(f, t), 1 ≤ f ≤ PageGetMaxOffsetNumber p ∧ 0 ≤ t < 2 ^ 15) l →
  ∃ q, prune_redirect p l = Ok q ∧ heap_wf q ∧ PageGetMaxOffsetNumber q = PageGetMaxOffsetNumber p ∧
    page_slots q = redirect_slots l (page_slots p).
Proof.
  induction l as [|[f t] l IH]; intros p Hh Hf; [exists p; done|].
  apply Forall_cons in Hf as [[Hf1 Hf2] Hf].
  destruct (set_lp_refines p f (ItemIdSetRedirect (PageGetItemId p f) t)) as (q & Hq & Hhq & Hm & Hs);
    [done|done|done|done|cbn; unfold LP_REDIRECT; lia|done|].
  destruct (IH q Hhq) as (q' & Hq' & Hhq' & Hm' & Hs'); [by rewrite Hm|].
  exists q'. cbn [prune_redirect]. rewrite Hq. cbn [mbind res_bind]. split_and!; [done|done|congruence|].
  rewrite Hs', Hs. done.
Qed.

Lemma prune_set_refines (g : ItemIdData → ItemIdData) fl l : ∀ p,
  (∀ lp, g lp = mkItemId 0 fl 0) → 0 ≤ fl < 4 → fl ≠ LP_NORMAL →
  heap_wf p → Forall (λ f, 1 ≤ f ≤ PageGetMaxOffsetNumber p) l →
  ∃ q, prune_set g p l = Ok q ∧ heap_wf q ∧ PageGetMaxOffsetNumber q = PageGetMaxOffsetNumber p ∧
    page_slots q = set_slots (mkSlot fl 0 []) l (page_slots p).
Proof.
  induction l as [|f l IH]; intros p Hg Hfl Hnn Hh Hf; [exists p; done|].
  apply Forall_cons in Hf as [Hf1 Hf].
  destruct (set_lp_refines p f (g (PageGetItemId p f))) as (q & Hq & Hhq & Hm & Hs);
    [done|done|by rewrite Hg|rewrite Hg; simpl; lia|by rewrite Hg|by rewrite Hg|].
  destruct (IH q Hg Hfl Hnn Hhq) as (q' & Hq' & Hhq' & Hm' & Hs'); [by rewrite Hm|].
  exists q'. cbn [prune_set]. rewrite Hq. cbn [mbind res_bind]. split_and!; [done|done|congruence|].
  rewrite Hs', Hs, Hg. done.
Qed.

Lemma norm_slots_ok s : Forall tuple_slot_ok s → Forall tuple_slot_ok (norm_slot <$> s).
Proof.
  intros Hs. apply Forall_fmap. eapply Forall_impl; [exact Hs|]. intros x Hx. simpl.
  unfold norm_slot. destruct (Z.eqb_spec (sl_flags x) LP_UNUSED); [|done]. by intros ?.
Qed.

Lemma heap_page_prune_execute_refines p redirected nowdead nowunused :
  heap_wf p → Forall (λ '(f, t), 1 ≤ f ≤ PageGetMaxOffsetNumber p ∧ 0 ≤ t < 2 ^ 15) redirected →
  Forall (λ f, 1 ≤ f ≤ PageGetMaxOffsetNumber p) nowdead →
  Forall (λ f, 1 ≤ f ≤ PageGetMaxOffsetNumber p) nowunused →
  ∃ q, heap_page_prune_execute p redirected nowdead nowunused = Ok q ∧ heap_wf q ∧
    page_slots q = prune_slots redirected nowdead nowunused (page_slots p) ∧
    pd_upper q = pd_special q - slots_space (page_slots q).
Proof.
  intros Hh Hr Hd Hu. unfold heap_page_prune_execute.
  destruct (prune_redirect_refines redirected p Hh Hr) as (q1 & -> & Hh1 & Hm1 & Hs1). cbn [mbind res_bind].
  destruct (prune_set_refines ItemIdSetDead LP_DEAD nowdead q1) as (q2 & -> & Hh2 & Hm2 & Hs2);
    [done|unfold LP_DEAD; lia|done|done|by rewrite Hm1|]. cbn [mbind res_bind].
  destruct (prune_set_refines ItemIdSetUnused LP_UNUSED nowunused q2) as (q3 & -> & Hh3 & Hm3 & Hs3);
    [done|unfold LP_UNUSED; lia|done|done|by rewrite Hm2, Hm1|]. cbn [mbind res_bind].
  destruct (PageRepairFragmentation_refines q3 (hw_page _ Hh3) (hw_max _ Hh3)) as (q & Hq & Hw & Hs & Hup & Hlo & _).
  exists q. split_and!; [done| |by rewrite Hs, Hs3, Hs2, Hs1|done].
  apply heap_wf_slots. split_and!; [done| |].
  - unfold PageGetMaxOffsetNumber. rewrite Hlo. apply (hw_max _ Hh3).
  - rewrite Hs. apply norm_slots_ok. by apply heap_wf_slots.
Qed.

(** ** Freezing *)

Definition freeze_plan (data : list Z) (i : Z) : xl_heap_freeze_tuple :=
  let o := sizeof_freeze_tuple * i in
  mkFreeze (mget 4 data o) (mget 2 data (o + 4)) (mget 2 data (o + 6)) (mget 2 data (o + 8)) (mget 1 data (o + 10)).

Definition freeze_slots (data : list Z) (idx : list Z) (s : list slot) : list slot :=
  foldl (λ s i, let frz := freeze_plan data i in
           alter (map_slot (λ m a, heap_execute_freeze_tuple m a frz)) (Z.to_nat (frz_offset frz - 1)) s) s idx.

Lemma freeze_loop_refines data n : ∀ p i,
  heap_wf p → 0 ≤ i → sizeof_freeze_tuple * (i + Z.of_nat n) ≤ zlen data →
  (∀ k, i ≤ k < i + Z.of_nat n → live p (frz_offset (freeze_plan data k))) →
  ∃ q, freeze_loop data p i n = Ok q ∧ heap_wf q ∧
    page_slots q = freeze_slots data (seqZ i (Z.of_nat n)) (page_slots p).
Proof.
  induction n as [|n IH]; intros p i Hh Hi Hz Hl; [exists p; done|].
  unfold sizeof_freeze_tuple in *. pose proof (Hl i ltac:(lia)) as Hli.
  set (frz := freeze_plan data i) in *.
  destruct (slot_upd_tuple p (frz_offset frz) (λ m a, heap_execute_freeze_tuple m a frz) Hh Hli (hdr_freeze frz))
    as [Hhq Hsq Hmq Hiq].
  set (q := heap_execute_freeze_tuple p _ frz) in *.
  destruct (IH q (i + 1)) as (q' & Hq' & Hhq' & Hsq'); [done|lia|lia| |].
  { intros k Hk. destruct (Hl k ltac:(lia)) as [Hr Hf]. split; [by rewrite Hmq|by rewrite Hiq]. }
  exists q'. split_and!; [|done|].
  - cbn [freeze_loop]. unfold sizeof_freeze_tuple. rewrite !rd_ok by (simpl; lia). cbn [mbind res_bind].
    change (mget 2 data (12 * i + 4)) with (frz_offset frz).
    destruct Hli as [Hr Hf]. destruct (live_lp p (frz_offset frz) Hh (conj Hr Hf)) as [_ Ht].
    pose proof (wf_hdr _ (hw_page _ Hh)) as Hw. pose proof Hw as []. pose proof (linp_addr_range _ _ Hw Hr).
    unfold PageGetItemIdChecked, sizeof_ItemIdData, BLCKSZ in *. rewrite (proj2 (in_range_true _ _ _)) by lia.
    cbn [mbind res_bind]. rewrite Ht. cbn [mbind res_bind]. exact Hq'.
  - rewrite Hsq', Hsq. rewrite (seqZ_cons i) by lia. replace (Z.pred (Z.of_nat (S n))) with (Z.of_nat n) by lia.
    unfold Z.succ. done.
Qed.

Lemma freeze_page_refines r n p :
  heap_wf p → 0 ≤ n → sizeof_freeze_tuple * n ≤ zlen (block_bytes r 0) → 0 ≤ EndRecPtr r < 2 ^ 64 →
  (∀ k, 0 ≤ k < n → live p (frz_offset (freeze_plan (block_bytes r 0) k))) →
  ∃ q, freeze_page r n p = Ok q ∧ heap_wf q ∧ PageGetLSN q = EndRecPtr r ∧
    page_slots q = freeze_slots (block_bytes r 0) (seqZ 0 n) (page_slots p).
Proof.
  intros Hh Hn Hz Hr Hl.
  destruct (freeze_loop_refines (block_bytes r 0) (Z.to_nat n) p 0) as (q & Hq & Hhq & Hs);
    rewrite ?Z2Nat.id by done; [done|lia|done|intros; apply Hl; lia|].
  rewrite Z2Nat.id in Hs by done. unfold freeze_page. rewrite Hq. cbn [mbind res_bind].
  destruct (set_lsn_ok r Hr q Hhq) as [H1 H2]. eexists. split; [done|]. split_and!; [done|done|].
  rewrite (frame_slots q); [done|apply frame_lsn|apply Hhq].
Qed.

Lemma heap_wf_not_new p : heap_wf p → PageIsNew p = false.
Proof.
  intros Hh. pose proof (wf_hdr _ (hw_page _ Hh)) as []. unfold PageIsNew. zcase; done.
Qed.

(** ** The outcome of a redo on a resident page *)

(** Nothing to do, or exactly this page brought to the record's LSN. *)
Definition redo_outcome (st : dbstate) (tag : BufferTag) (p : page) (lsn : Z)
  (x : dbstate * Buffer * XLogRedoAction) : Prop :=
  (lsn ≤ PageGetLSN p ∧ x = (st, Some tag, BLK_DONE)) ∨
  (PageGetLSN p < lsn ∧ ∃ q, x = (buf_write st (Some tag) q, Some tag, BLK_NEEDS_REDO) ∧
     heap_wf q ∧ PageGetLSN q = lsn).

Lemma on_redo_outcome st r id tag p cleanup f y :
  plain_ref r id tag → resident st tag p → heap_wf p →
  (∀ q, f p = Ok q → heap_wf q ∧ PageGetLSN q = EndRecPtr r) →
  (x ← XLogReadBufferForRedoExtended st r id RBM_NORMAL cleanup; on_redo x f) = Ok y →
  redo_outcome st tag p (EndRecPtr r) y.
Proof.
  intros Hpr Hr Hh Hf Hy. rewrite (redo_read_resident st r id tag p cleanup Hpr Hr (heap_wf_not_new p Hh)) in Hy.
  cbn [mbind res_bind] in Hy. unfold on_redo in Hy.
  destruct (Z.leb_spec (EndRecPtr r) (PageGetLSN p)).
  - left. apply Ok_inj in Hy. done.
  - right. rewrite (resident_page _ _ _ Hr) in Hy. cbn [mbind res_bind] in Hy. res_inv. subst y.
    destruct (Hf _ Hy0). split; [done|]. eauto.
Qed.

Lemma on_redo_done st r id tag p cleanup f :
  plain_ref r id tag → resident st tag p → heap_wf p → EndRecPtr r ≤ PageGetLSN p →
  (x ← XLogReadBufferForRedoExtended st r id RBM_NORMAL cleanup; on_redo x f) = Ok (st, Some tag, BLK_DONE).
Proof.
  intros Hpr Hr Hh Hl. rewrite (redo_read_resident st r id tag p cleanup Hpr Hr (heap_wf_not_new p Hh)).
  destruct (Z.leb_spec (EndRecPtr r) (PageGetLSN p)); [done|lia].
Qed.

(** A well-formed heap record that changes a page it finds: the main data holds the
    structure of its operation, and the offset numbers in it are valid.  Two kinds of
    records are not among them: those with [XLOG_HEAP_INIT_PAGE], which make the page
    anew whatever its LSN is, and [XLOG_HEAP_TRUNCATE], which is about no page. *)
Definition heap_main_size (op : Z) : Z :=
  if op =? XLOG_HEAP_INSERT then 3
  else if (op =? XLOG_HEAP_UPDATE) || (op =? XLOG_HEAP_HOT_UPDATE) then 14
  else if (op =? XLOG_HEAP_DELETE) || (op =? XLOG_HEAP_LOCK) then 8 else 2.

Definition heap_off_pos (op : Z) : Z :=
  if (op =? XLOG_HEAP_UPDATE) || (op =? XLOG_HEAP_HOT_UPDATE) || (op =? XLOG_HEAP_DELETE) || (op =? XLOG_HEAP_LOCK)
  then 4 else 0.

Definition is_update (op : Z) : bool := (op =? XLOG_HEAP_UPDATE) || (op =? XLOG_HEAP_HOT_UPDATE).

Record heap_record (r : XLogReaderState) : Prop := {
  hr_lsn : 0 ≤ EndRecPtr r < 2 ^ 64;
  hr_op : heap_op r ≠ XLOG_HEAP_TRUNCATE;
  hr_noinit : has_flag (xl_info r) XLOG_HEAP_INIT_PAGE = false;
  hr_main : heap_main_size (heap_op r) ≤ zlen (main_data r);
  hr_off : 1 ≤ mget 2 (main_data r) (heap_off_pos (heap_op r));
  hr_newoff : is_update (heap_op r) = true → 1 ≤ mget 2 (main_data r) 12;
  hr_bytes : Forall is_byte (block_bytes r 0);
  hr_size : zlen (block_bytes r 0) < 2 ^ 31 }.

(** The heap pages a record changes: block 0, and for an update across pages
    block 1 with the old tuple; pages of the main fork, which the record refers to
    without a full-page image ([plain_ref]). *)
Definition touches (r : XLogReaderState) (tag : BufferTag) : Prop :=
  forkNum tag = MAIN_FORKNUM ∧
  if is_update (heap_op r) then
    ∃ new, plain_ref r 0 new ∧ forkNum new = MAIN_FORKNUM ∧
      ((XLogRecGetBlockTag r 1 = None ∧ tag = new) ∨
       (∃ old, plain_ref r 1 old ∧ forkNum old = MAIN_FORKNUM ∧ blockNum old ≠ blockNum new ∧
          (tag = old ∨ tag = new)))
  else plain_ref r 0 tag.

Lemma vm_tag_other tag t : forkNum tag = MAIN_FORKNUM → BUFFERTAGS_EQUAL tag (vm_tag t) = false.
Proof.
  intros Hf. apply bool_decide_eq_false. intros ->. unfold vm_tag, INIT_BUFFERTAG in Hf. simpl in Hf. done.
Qed.

(** The operations of the heap resource manager. *)
Lemma heap_op_cases r :
  heap_op r ∈ [XLOG_HEAP_INSERT; XLOG_HEAP_DELETE; XLOG_HEAP_UPDATE; XLOG_HEAP_TRUNCATE;
               XLOG_HEAP_HOT_UPDATE; XLOG_HEAP_CONFIRM; XLOG_HEAP_LOCK; XLOG_HEAP_INPLACE].
Proof.
  unfold heap_op, XLOG_HEAP_OPMASK. set (x := clear_flag _ _).
  assert (E : Z.land x 112 = 16 * Z.land (Z.shiftr x 4) 7).
  { change 112 with (Z.shiftl 7 4).
    apply Z.bits_inj'. intros i Hi. change 16 with (2 ^ 4). rewrite Z.mul_comm, <-Z.shiftl_mul_pow2 by lia.
    rewrite Z.land_spec, !Z.shiftl_spec by done. destruct (decide (i < 4)).
    - rewrite !(Z.testbit_neg_r _ (i - 4)) by lia. by rewrite andb_false_r.
    - rewrite Z.land_spec, Z.shiftr_spec by lia. by replace (i - 4 + 4) with i by lia. }
  rewrite E. pose proof (land_bounded (Z.shiftr x 4) 7 3 ltac:(lia) ltac:(lia)) as Hb.
  set (y := Z.land (Z.shiftr x 4) 7) in *. change (2 ^ 3) with 8 in Hb.
  assert (y = 0 ∨ y = 1 ∨ y = 2 ∨ y = 3 ∨ y = 4 ∨ y = 5 ∨ y = 6 ∨ y = 7) as Hy by lia.
  unfold XLOG_HEAP_INSERT, XLOG_HEAP_DELETE, XLOG_HEAP_UPDATE, XLOG_HEAP_TRUNCATE,
    XLOG_HEAP_HOT_UPDATE, XLOG_HEAP_CONFIRM, XLOG_HEAP_LOCK, XLOG_HEAP_INPLACE.
  destruct Hy as [->|[->|[->|[->|[->|[->|[->| ->]]]]]]]; clear; set_solver.
Qed.

Section redo.
Context (st : dbstate) (r : XLogReaderState) (tag : BufferTag) (p : page) (buf : Buffer).
Context (Hrec : heap_record r) (Hres : resident st tag p) (Hh : heap_wf p).
Abbreviation lsn := (EndRecPtr r).
Abbreviation md := (main_data r).

Lemma insert_outcome y : heap_op r = XLOG_HEAP_INSERT → plain_ref r 0 tag → forkNum tag = MAIN_FORKNUM →
polar_heap_xlog_insert st r tag buf = Ok y → redo_outcome st tag p lsn y.
Proof using Hrec Hres Hh.
intros Hop Hpr Hfk Hy. pose proof Hrec as [Hl _ Hni _ Ho _ Hb _]. rewrite Hop in Ho.
unfold polar_heap_xlog_insert in Hy. res_inv.
rewrite (log_tag _ _ _ (pr_tag _ _ _ Hpr)) in Hy2. apply Ok_inj in Hy2. subst a1.
rewrite (vm_tag_other _ _ Hfk) in Hy3. cbn [andb] in Hy3. apply Ok_inj in Hy3. subst a2.
rewrite tags_equal_refl in Hy. unfold read_or_init in Hy. rewrite Hni in Hy.
apply rd_inv in Hy0 as [-> _].
eapply on_redo_outcome; [done..| |exact Hy]. intros q. by apply insert_page_ok.
Qed.

Lemma delete_outcome y : heap_op r = XLOG_HEAP_DELETE → plain_ref r 0 tag → forkNum tag = MAIN_FORKNUM →
polar_heap_xlog_delete st r tag buf = Ok y → redo_outcome st tag p lsn y.
Proof using Hrec Hres Hh.
intros Hop Hpr Hfk Hy. pose proof Hrec as [Hl _ _ _ Ho _ _ _]. rewrite Hop in Ho.
unfold polar_heap_xlog_delete in Hy. res_inv.
rewrite (log_tag _ _ _ (pr_tag _ _ _ Hpr)) in Hy4. apply Ok_inj in Hy4. subst a3.
rewrite (vm_tag_other _ _ Hfk), tags_equal_refl in Hy. apply rd_inv in Hy1 as [-> _].
eapply on_redo_outcome; [done..| |exact Hy]. intros q. by apply delete_page_ok.
Qed.

Lemma redo_lock_outcome flags f y : plain_ref r 0 tag → forkNum tag = MAIN_FORKNUM →
page_fn_ok lsn (f tag) → redo_lock st r tag buf flags f = Ok y → redo_outcome st tag p lsn y.
Proof using Hrec Hres Hh.
intros Hpr Hfk Hf Hy. unfold redo_lock in Hy.
rewrite (log_tag _ _ _ (pr_tag _ _ _ Hpr)) in Hy. cbn [mbind res_bind] in Hy.
rewrite (vm_tag_other _ _ Hfk), tags_equal_refl in Hy. cbn [andb mbind res_bind] in Hy.
eapply on_redo_outcome; [done..| |exact Hy]. intros q. by apply Hf.
Qed.

Lemma redo_block0_outcome cleanup f y : plain_ref r 0 tag →
(∀ q, f tag p = Ok q → heap_wf q ∧ PageGetLSN q = lsn) →
redo_block0 st r tag buf cleanup f = Ok y → redo_outcome st tag p lsn y.
Proof using Hres Hh.
intros Hpr Hf Hy. unfold redo_block0 in Hy.
rewrite (log_tag _ _ _ (pr_tag _ _ _ Hpr)) in Hy. cbn [mbind res_bind] in Hy.
rewrite tags_equal_refl in Hy. cbn [negb] in Hy. eapply on_redo_outcome; [done..| |exact Hy]. auto.
Qed.

Lemma get_update x : get_xl_heap_update r = Ok x →
old_offnum x = mget 2 md 4 ∧ new_offnum x = mget 2 md 12.
Proof using Type.
intros Hx. unfold get_xl_heap_update in Hx. res_inv. subst x.
apply rd_inv in Hx1 as [-> _]. apply rd_inv in Hx5 as [-> _]. done.
Qed.

Lemma update_old_outcome x hot blk id y :
plain_ref r id tag → 1 ≤ old_offnum x → update_old_part st r x hot blk id = Ok y →
redo_outcome st tag p lsn (fst y) ∧
(snd y = None ↔ lsn ≤ PageGetLSN p).
Proof using Hrec Hres Hh.
intros Hpr Ho Hy. pose proof (hr_lsn _ Hrec) as Hl. unfold update_old_part, POLAR_READ_BUFFER_FOR_REDO in Hy.
rewrite (redo_read_resident st r id tag p false Hpr Hres (heap_wf_not_new p Hh)) in Hy. cbn [mbind res_bind] in Hy.
destruct (Z.leb_spec lsn (PageGetLSN p)).
- apply Ok_inj in Hy. subst y. simpl. split; [left; done|]. done.
- rewrite (resident_page _ _ _ Hres) in Hy. cbn [mbind res_bind] in Hy.
apply bind_Ok_inv in Hy as ([q lp] & Hq & Hy). apply Ok_inj in Hy. subst y. simpl.
assert (Hlp : ∃ lp', redo_lp p (old_offnum x) = Ok lp') by (unfold update_old_page in Hq; res_inv; eauto).
destruct Hlp as [lp' Hlp]. destruct (redo_lp_live p _ lp' Hh Ho Hlp) as [Hlv _].
destruct (update_old_page_refines r x hot blk p Hh Hlv Hl) as (q' & Hq' & Hs & Hlq).
rewrite Hq in Hq'. apply Ok_inj in Hq'. injection Hq' as -> _.
split; [right; split; [done|]; exists q'; split_and!; [done|apply Hs|done]|]. split; [done|lia].
Qed.

(** [st], with the page of [tag] replaced, is what the second part of an
update on one page starts from. *)
Lemma update_both_outcome x blk oldtup q y :
1 ≤ new_offnum x → heap_wf q → PageGetLSN p < lsn →
on_redo (buf_write st (Some tag) q, Some tag, BLK_NEEDS_REDO) (update_new_page r x blk oldtup) = Ok y →
redo_outcome st tag p lsn y.
Proof using Hrec Hres.
intros Ho Hq Hlt Hy. unfold on_redo in Hy.
rewrite (resident_page _ _ _ (resident_write st tag p q Hres)) in Hy. cbn [mbind res_bind] in Hy.
res_inv. subst y. rewrite buf_write_write.
destruct (update_new_page_ok r (hr_lsn _ Hrec) x blk oldtup Ho (hr_bytes _ Hrec) q a Hq Hy0).
right. split; [done|]. eauto.
Qed.

Lemma update_outcome hot y : is_update (heap_op r) = true → touches r tag →
polar_heap_xlog_update st r tag buf hot = Ok y → redo_outcome st tag p lsn y.
Proof using Hrec Hres Hh.
intros Hup [Hfk Ht] Hy. rewrite Hup in Ht. destruct Ht as (new & Hpn & Hfn & Ht).
unfold polar_heap_xlog_update in Hy. apply bind_Ok_inv in Hy as (x & Hx & Hy).
rewrite (log_tag _ _ _ (pr_tag _ _ _ Hpn)) in Hy. cbn [mbind res_bind] in Hy.
assert (Hoff : 1 ≤ old_offnum x ∧ 1 ≤ new_offnum x).
{ destruct (get_update x Hx) as [-> ->]. pose proof (hr_off _ Hrec) as Ho.
unfold heap_off_pos in Ho. unfold is_update in Hup. rewrite Hup in Ho. cbn [orb] in Ho.
split; [done|]. by apply (hr_newoff _ Hrec). }
destruct Hoff as [Hoo Hno].
assert (Hvm : ∀ t : option BufferTag, (∀ v, t = Some v → ∃ u, v = vm_tag u) → bool_decide (t = Some tag) = false).
{ intros t Hv. apply bool_decide_eq_false. intros ->. destruct (Hv tag eq_refl) as [u ->].
unfold vm_tag, INIT_BUFFERTAG in Hfk. done. }
rewrite Hvm in Hy.
2:{ intros v Hv. repeat case_match; simplify_eq; eauto. }
cbn [mbind res_bind] in Hy. rewrite Hvm in Hy.
2:{ intros v Hv. repeat case_match; simplify_eq; eauto. }
cbn [mbind res_bind] in Hy. destruct Ht as [[Hno1 Htg]|(old & Hpo & Hfo & Hne & Htag)].
- subst new. rewrite Hno1 in Hy. change (default tag None) with tag in Hy. rewrite Z.eqb_refl, tags_equal_refl in Hy. cbn [negb] in Hy.
apply bind_Ok_inv in Hy as (z & Hz & Hy). destruct z as [[[st1 b1] act] oldtup].
destruct (update_old_outcome x hot (blockNum tag) 0 _ Hpn Hoo Hz) as [[[Hl E]|[Hl (q & E & Hq & Hlq)]] _];
simpl in E; injection E as -> -> ->; cbn [mbind res_bind] in Hy.
+ apply Ok_inj in Hy. left. done.
+ eapply update_both_outcome; eauto.
- rewrite (pr_tag _ _ _ Hpo) in Hy. change (default new (Some old)) with old in Hy.
rewrite (proj2 (Z.eqb_neq _ _) Hne) in Hy. cbn [negb] in Hy. destruct Htag as [Htg|Htg].
+ subst old. rewrite tags_equal_refl in Hy. apply bind_Ok_inv in Hy as (z & Hz & Hy). destruct z as [[[st1 b1] act] oldtup].
destruct (update_old_outcome x hot (blockNum new) 1 _ Hpo Hoo Hz) as [Hout _]. simpl in Hout.
assert (BUFFERTAGS_EQUAL tag new = false) as Hf by (apply bool_decide_eq_false; congruence).
rewrite Hf in Hy. apply Ok_inj in Hy. by subst y.
+ subst new. assert (BUFFERTAGS_EQUAL tag old = false) as Hf by (apply bool_decide_eq_false; congruence).
rewrite Hf, tags_equal_refl in Hy. cbn [mbind res_bind] in Hy.
unfold read_or_init in Hy. rewrite (hr_noinit _ Hrec) in Hy.
eapply on_redo_outcome; [done..| |exact Hy]. intros q.
apply update_new_page_ok; [apply Hrec|done|apply Hrec|done].
Qed.

(** Every operation of the resource manager, on a page it changes. *)
Lemma heap_redo_outcome y : touches r tag → polar_heap_idx_redo st r tag buf = Ok y →
redo_outcome st tag p lsn y.
Proof using Hrec Hres Hh.
intros Ht Hy. pose proof (heap_op_cases r) as Hc. pose proof (hr_op _ Hrec) as Hnt.
pose proof Ht as [Hfk Hpr]. pose proof Hrec as [Hl _ _ _ Ho _ Hb Hz].
unfold polar_heap_idx_redo in Hy. cbv zeta in Hy.
rewrite !elem_of_cons, elem_of_nil in Hc.
destruct Hc as [E|[E|[E|[E|[E|[E|[E|[E|[]]]]]]]]]; [| | |done|..]; rewrite E in Hy, Hpr, Ho; simpl in Hy, Hpr.
- by apply insert_outcome.
- by apply delete_outcome.
- eapply update_outcome; [by rewrite E|done|exact Hy].
- eapply update_outcome; [by rewrite E|done|exact Hy].
- unfold polar_heap_xlog_confirm in Hy. apply bind_Ok_inv in Hy as (o & Hq & Hy). apply rd_inv in Hq as [-> _].
eapply redo_block0_outcome; [done| |exact Hy]. intros q. exact (confirm_page_ok r Hl _ _ Ho p q Hh).
- unfold polar_heap_xlog_lock in Hy. res_inv. apply rd_inv in Hy1 as [-> _].
eapply redo_lock_outcome; [done|done| |exact Hy]. exact (lock_page_ok r Hl _ _ _ _ Ho).
- unfold polar_heap_xlog_inplace in Hy. apply bind_Ok_inv in Hy as (o & Hq & Hy). apply rd_inv in Hq as [-> _].
eapply redo_block0_outcome; [done| |exact Hy]. intros q. exact (inplace_page_ok r Hl _ Ho Hb Hz p q Hh).
Qed.

Section done.
Context (Hdone : lsn ≤ PageGetLSN p).

Lemma update_done hot : is_update (heap_op r) = true → touches r tag →
polar_heap_xlog_update st r tag buf hot = Ok (st, Some tag, BLK_DONE).
Proof using Hrec Hres Hh Hdone.
intros Hup [Hfk Ht]. rewrite Hup in Ht. destruct Ht as (new & Hpn & Hfn & Ht).
pose proof (hr_main _ Hrec) as Hm. unfold heap_main_size in Hm.
assert (Hsz : 14 ≤ zlen md).
{ unfold is_update in Hup. rewrite Hup in Hm. destruct (Z.eqb_spec (heap_op r) XLOG_HEAP_INSERT) as [E|]; [|done].
rewrite E in Hup. done. }
unfold polar_heap_xlog_update, get_xl_heap_update. rewrite !rd_ok by (simpl; lia). cbn [mbind res_bind].
set (x := mkUpdate _ _ _ _ _ _).
rewrite (log_tag _ _ _ (pr_tag _ _ _ Hpn)). cbn [mbind res_bind].
assert (Hvm : ∀ t : option BufferTag, (∀ v, t = Some v → ∃ u, v = vm_tag u) → bool_decide (t = Some tag) = false).
{ intros t Hv. apply bool_decide_eq_false. intros ->. destruct (Hv tag eq_refl) as [u ->].
unfold vm_tag, INIT_BUFFERTAG in Hfk. done. }
rewrite Hvm by (intros v Hv; repeat case_match; simplify_eq; eauto). cbn [mbind res_bind].
rewrite Hvm by (intros v Hv; repeat case_match; simplify_eq; eauto). cbn [mbind res_bind].
assert (Hold : ∀ id b, plain_ref r id tag → update_old_part st r x hot b id = Ok (st, Some tag, BLK_DONE, None)).
{ intros id b Hp. unfold update_old_part, POLAR_READ_BUFFER_FOR_REDO.
rewrite (redo_read_resident st r id tag p false Hp Hres (heap_wf_not_new p Hh)). cbn [mbind res_bind].
destruct (Z.leb_spec lsn (PageGetLSN p)); [done|lia]. }
destruct Ht as [[Hno1 Htg]|(old & Hpo & Hfo & Hne & Htag)].
- subst new. rewrite Hno1. change (default tag None) with tag.
rewrite Z.eqb_refl, tags_equal_refl, (Hold 0 _ Hpn). done.
- rewrite (pr_tag _ _ _ Hpo). change (default new (Some old)) with old.
rewrite (proj2 (Z.eqb_neq _ _) Hne). cbn [negb]. destruct Htag as [Htg|Htg].
+ subst old. rewrite tags_equal_refl, (Hold 1 _ Hpo). cbn [mbind res_bind].
assert (BUFFERTAGS_EQUAL tag new = false) as -> by (apply bool_decide_eq_false; congruence). done.
+ subst new. assert (BUFFERTAGS_EQUAL tag old = false) as -> by (apply bool_decide_eq_false; congruence).
rewrite tags_equal_refl. cbn [mbind res_bind]. unfold read_or_init. rewrite (hr_noinit _ Hrec).
by apply (on_redo_done st r 0 tag p false).
Qed.

(** A page that has the record's changes is left alone. *)
Lemma heap_redo_done : touches r tag → polar_heap_idx_redo st r tag buf = Ok (st, Some tag, BLK_DONE).
Proof using Hrec Hres Hh Hdone.
intros Ht. pose proof (heap_op_cases r) as Hc. pose proof (hr_op _ Hrec) as Hnt.
pose proof Ht as [Hfk Hpr]. pose proof (hr_main _ Hrec) as Hm.
unfold polar_heap_idx_redo. cbv zeta. rewrite !elem_of_cons, elem_of_nil in Hc.
destruct Hc as [E|[E|[E|[E|[E|[E|[E|[E|[]]]]]]]]]; [| | |done|..]; rewrite E in Hpr, Hm |- *;
unfold heap_main_size in Hm; simpl in Hpr, Hm |- *.
3,4: apply update_done; [by rewrite E|done].
- unfold polar_heap_xlog_insert. rewrite !rd_ok by (simpl; lia). cbn [mbind res_bind].
rewrite (log_tag _ _ _ (pr_tag _ _ _ Hpr)). cbn [mbind res_bind].
rewrite (vm_tag_other _ _ Hfk), tags_equal_refl. cbn [andb mbind res_bind].
unfold read_or_init. rewrite (hr_noinit _ Hrec). by apply (on_redo_done st r 0 tag p false).
- unfold polar_heap_xlog_delete. rewrite !rd_ok by (simpl; lia). cbn [mbind res_bind].
rewrite (log_tag _ _ _ (pr_tag _ _ _ Hpr)). cbn [mbind res_bind].
rewrite (vm_tag_other _ _ Hfk), tags_equal_refl. by apply (on_redo_done st r 0 tag p false).
- unfold polar_heap_xlog_confirm, redo_block0. rewrite !rd_ok by (simpl; lia). cbn [mbind res_bind].
rewrite (log_tag _ _ _ (pr_tag _ _ _ Hpr)). cbn [mbind res_bind]. rewrite tags_equal_refl.
by apply (on_redo_done st r 0 tag p false).
- unfold polar_heap_xlog_lock, redo_lock. rewrite !rd_ok by (simpl; lia). cbn [mbind res_bind].
rewrite (log_tag _ _ _ (pr_tag _ _ _ Hpr)). cbn [mbind res_bind].
rewrite (vm_tag_other _ _ Hfk), tags_equal_refl. cbn [andb mbind res_bind].
by apply (on_redo_done st r 0 tag p false).
- unfold polar_heap_xlog_inplace, redo_block0. rewrite !rd_ok by (simpl; lia). cbn [mbind res_bind].
rewrite (log_tag _ _ _ (pr_tag _ _ _ Hpr)). cbn [mbind res_bind]. rewrite tags_equal_refl.
by apply (on_redo_done st r 0 tag p false).
Qed.
End done.
End redo.

(** ** Sequences of records *)

(** Replaying a list of records on one page. *)
Fixpoint replay (st : dbstate) (tag : BufferTag) (rs : list XLogReaderState) : res dbstate :=
  match rs with
  | [] => Ok st
  | r :: rs =>
      '(st, _, _) ← polar_heap_idx_redo st r tag InvalidBuffer;
      replay st tag rs
  end.

Definition page_log (tag : BufferTag) (rs : list XLogReaderState) : Prop :=
  Forall (λ r, heap_record r ∧ touches r tag) rs.

Lemma replay_app st tag rs1 rs2 :
  replay st tag (rs1 ++ rs2) = (st ← replay st tag rs1; replay st tag rs2).
Proof.
  revert st. induction rs1 as [|r rs1 IH]; intros st; [done|]. cbn [replay app].
  destruct (polar_heap_idx_redo st r tag InvalidBuffer) as [[[st1 b] act]|]; cbn [mbind res_bind]; [apply IH|done].
Qed.

(** Replay keeps the page resident and well formed, and its LSN reaches that
    of every record replayed. *)
Lemma replay_resident tag rs : ∀ st p st',
  page_log tag rs → resident st tag p → heap_wf p → replay st tag rs = Ok st' →
  ∃ q, resident st' tag q ∧ heap_wf q ∧ PageGetLSN p ≤ PageGetLSN q ∧
    Forall (λ r, EndRecPtr r ≤ PageGetLSN q) rs.
Proof.
  induction rs as [|r rs IH]; intros st p st' Hlog Hr Hh Hst; cbn [replay] in Hst.
  { apply Ok_inj in Hst. subst st'. exists p. split_and!; [done|done|lia|constructor]. }
  apply Forall_cons in Hlog as [[Hrec Ht] Hlog]. apply bind_Ok_inv in Hst as (x & Hx & Hst).
  destruct (heap_redo_outcome st r tag p _ Hrec Hr Hh x Ht Hx) as [[Hl ->]|[Hl (q & -> & Hq & Hlq)]].
  - destruct (IH st p st' Hlog Hr Hh Hst) as (q & H1 & H2 & H3 & H4).
    exists q. split_and!; [done|done|done|]. constructor; [lia|done].
  - destruct (IH _ q st' Hlog (resident_write _ _ _ _ Hr) Hq Hst) as (q' & H1 & H2 & H3 & H4).
    exists q'. split_and!; [done|done|lia|]. constructor; [lia|done].
Qed.

(** Records the page already has are skipped. *)
Lemma replay_skip tag rs : ∀ st p,
  page_log tag rs → resident st tag p → heap_wf p → Forall (λ r, EndRecPtr r ≤ PageGetLSN p) rs →
  replay st tag rs = Ok st.
Proof.
  induction rs as [|r rs IH]; intros st p Hlog Hr Hh Hf; [done|].
  apply Forall_cons in Hlog as [[Hrec Ht] Hlog]. apply Forall_cons in Hf as [Hl Hf].
  cbn [replay]. rewrite (heap_redo_done st r tag p InvalidBuffer Hrec Hr Hh Hl Ht). cbn [mbind res_bind]. by eapply IH.
Qed.
