(* ===== verification/HeapSpec.v ===== *)
(** * The theorems of heap replay

    Redo of a record on a resident page, at the level of the dispatcher
    [polar_heap_idx_redo]: what each operation does to the tuple it names, the
    LSN interlock that makes replay restartable, and the errors. *)

From S2P Require Import Prelude Mem Page PageAdd PageIndex PageCompact Checksum Buffer Pglz WalRecord.
From S2P Require Import HeapTuple HeapRedo HeapRefine Resident HeapReplay PageSpec.

(** ** Fields of a changed tuple *)

(** Reads of a header field through a chain of writes at literal offsets. *)
Ltac fld :=
  repeat match goal with
    | |- context [mget ?k (mput ?n ?m ?off ?v) ?o] =>
        rewrite (mget_mput_disj n k m off v o) by (simpl; lia)
    end.
Ltac fld_len := rewrite ?zlen_mput; simpl; lia.

(** What a delete record does to a tuple: the deleting transaction becomes
    the xmax (a super-delete clears the xmin instead), the tuple is no longer
    HOT-updated and the tail of its update chain, and its data stays. *)
Record deleted_tuple (blk off xmax flags : Z) (t t' : mem) : Prop := {
  dt_len : zlen t' = zlen t;
  dt_xmin : t_xmin t' 0 = if has_flag flags XLH_DELETE_IS_SUPER then InvalidTransactionId else t_xmin t 0;
  dt_xmax : t_xmax t' 0 = if has_flag flags XLH_DELETE_IS_SUPER then t_xmax t 0 else xmax;
  dt_cid : t_cid t' 0 = FirstCommandId;
  dt_hot : has_flag (t_infomask2 t' 0) HEAP_HOT_UPDATED = false;
  dt_block : ItemPointerGetBlockNumber t' 0 =
    if has_flag flags XLH_DELETE_IS_PARTITION_MOVE then MovedPartitionsBlockNumber else blk;
  dt_offset : ItemPointerGetOffsetNumber t' 0 =
    if has_flag flags XLH_DELETE_IS_PARTITION_MOVE then MovedPartitionsOffsetNumber else off;
  dt_hoff : t_hoff t' 0 = t_hoff t 0;
  dt_body o l : SizeofHeapTupleHeader ≤ o → mread t' o l = mread t o l }.

Lemma infomask2_hot infobits im im2 :
  has_flag im2 HEAP_HOT_UPDATED = false →
  has_flag (snd (fix_infomask_from_infobits infobits im im2)) HEAP_HOT_UPDATED = false.
Proof.
  intros H. unfold fix_infomask_from_infobits. cbn [snd].
  assert (Hc : has_flag (clear_flag im2 HEAP_KEYS_UPDATED) HEAP_HOT_UPDATED = false)
    by (by rewrite has_flag_clear_other).
  destruct (has_flag infobits XLHL_KEYS_UPDATED); [by rewrite has_flag_set_other|done].
Qed.

Lemma clear_flag_bound x m : 0 ≤ x < 65536 → 0 ≤ clear_flag x m < 65536.
Proof. intros. apply (land_bounded_l x (Z.lnot m) 16); lia. Qed.
Lemma set_flag_bound x m : 0 ≤ x < 65536 → 0 ≤ m < 65536 → 0 ≤ set_flag x m < 65536.
Proof. intros. apply (lor_bounded x m 16); lia. Qed.

Lemma infomask2_bound infobits im im2 :
  0 ≤ im2 < 65536 → 0 ≤ snd (fix_infomask_from_infobits infobits im im2) < 65536.
Proof.
  intros H. unfold fix_infomask_from_infobits. cbn [snd].
  destruct (has_flag infobits XLHL_KEYS_UPDATED); [apply set_flag_bound; [|done]|]; by apply clear_flag_bound.
Qed.

Lemma fix_infomask_infomask2 t infobits :
  22 ≤ zlen t → Forall is_byte t →
  t_infomask2 (fix_infomask_at t 0 infobits) 0 =
  snd (fix_infomask_from_infobits infobits (t_infomask t 0) (t_infomask2 t 0)).
Proof.
  intros Hl Hb. unfold fix_infomask_at.
  pose proof (infomask2_bound infobits (t_infomask t 0) (t_infomask2 t 0) (mget_bound 2 t _ Hb)) as Hr.
  destruct (fix_infomask_from_infobits _ _ _) as [im im2]. cbn [snd] in *.
  unfold t_infomask2, set_t_infomask2, set_t_infomask. change (0 + ?k) with k. apply mget_mput2; rewrite ?zlen_mput; lia.
Qed.

(** [fix_infomask_at] writes the two mask words only. *)
Lemma fix_infomask_reads t infobits o l :
  0 ≤ o → o + l ≤ 18 ∨ 22 ≤ o → mread (fix_infomask_at t 0 infobits) o l = mread t o l.
Proof.
  intros. unfold fix_infomask_at. destruct (fix_infomask_from_infobits _ _ _) as [im im2].
  unfold set_t_infomask2, set_t_infomask. by rewrite !mread_mput_disj by (simpl; lia).
Qed.

Lemma clear_xmax_reads t o l :
  0 ≤ o → o + l ≤ 18 ∨ 22 ≤ o → mread (clear_xmax_bits t 0) o l = mread t o l.
Proof. intros. unfold clear_xmax_bits, set_t_infomask2, set_t_infomask. by rewrite !mread_mput_disj by (simpl; lia). Qed.

Section delete_effect.
Context (blk off xmax bits flags : Z) (t : mem) (Hl : SizeofHeapTupleHeader ≤ zlen t) (Hb : Forall is_byte t).
Let t2 := HeapTupleHeaderClearHotUpdated (clear_xmax_bits t 0) 0.
Let t3 := fix_infomask_at t2 0 bits.
Let t4 := if negb (has_flag flags XLH_DELETE_IS_SUPER) then HeapTupleHeaderSetXmax t3 0 xmax
else HeapTupleHeaderSetXmin t3 0 InvalidTransactionId.
Let t5 := HeapTupleHeaderSetCmax t4 0 FirstCommandId false.
Let t6 := delete_effect blk off xmax bits flags t 0.

Lemma de_reads3 o l : 0 ≤ o → o + l ≤ 18 ∨ 22 ≤ o → mread t3 o l = mread t o l.
Proof using Type.
intros Ho Hc. unfold t3. rewrite fix_infomask_reads by done. unfold t2, HeapTupleHeaderClearHotUpdated, set_t_infomask2.
rewrite mread_mput_disj by (simpl; lia). by apply clear_xmax_reads.
Qed.

Lemma de_len3 : zlen t3 = zlen t ∧ Forall is_byte t2.
Proof using Hb.
unfold t3, t2, fix_infomask_at, HeapTupleHeaderClearHotUpdated, clear_xmax_bits, set_t_infomask2, set_t_infomask.
destruct (fix_infomask_from_infobits _ _ _). rewrite !zlen_mput. split; [done|]. by repeat apply mput_byte.
Qed.

Lemma de_hot : has_flag (t_infomask2 t3 0) HEAP_HOT_UPDATED = false.
Proof using Hl Hb.
destruct de_len3 as [Hz3 Hb2]. unfold SizeofHeapTupleHeader in Hl.
assert (Hz2 : zlen t2 = zlen t).
{ unfold t2, HeapTupleHeaderClearHotUpdated, clear_xmax_bits, set_t_infomask2, set_t_infomask. by rewrite !zlen_mput. }
unfold t3. rewrite fix_infomask_infomask2 by (done || lia). apply infomask2_hot.
unfold t2, HeapTupleHeaderClearHotUpdated, t_infomask2 at 1, set_t_infomask2. change (0 + 18) with 18.
rewrite mget_mput2.
- apply has_flag_clear.
- lia.
- unfold clear_xmax_bits, set_t_infomask2, set_t_infomask. rewrite !zlen_mput. lia.
- apply clear_flag_bound. apply (mget_bound 2). unfold clear_xmax_bits, set_t_infomask2, set_t_infomask. by repeat apply mput_byte.
Qed.

(** The writes after [t3]: xmax or xmin, the command id, a mask, [t_ctid]. *)
Lemma de_reads6 o l : 0 ≤ o → 18 ≤ o ∧ o + l ≤ 20 ∨ 22 ≤ o → mread t6 o l = mread t3 o l.
Proof using Type.
intros Ho Hc. unfold t6, delete_effect, delete_tuple. fold t2 t3 t4 t5.
transitivity (mread t5 o l).
{ destruct (has_flag flags XLH_DELETE_IS_PARTITION_MOVE); unfold HeapTupleHeaderSetMovedPartitions;
apply ItemPointerSet_other; lia. }
unfold t5, HeapTupleHeaderSetCmax, set_t_cid, set_t_infomask. rewrite !mread_mput_disj by (simpl; lia).
unfold t4, HeapTupleHeaderSetXmax, HeapTupleHeaderSetXmin. destruct (has_flag _ _); cbn [negb]; by rewrite mread_mput_disj by (simpl; lia).
Qed.

Lemma delete_effect_fields : 0 ≤ xmax < 2 ^ 32 → 0 ≤ blk < 2 ^ 32 → 0 ≤ off < 65536 →
deleted_tuple blk off xmax flags t t6.
Proof using Hl Hb.
intros Hx Hblk Hoff. unfold SizeofHeapTupleHeader in *. destruct de_len3 as [Hz3 _].
assert (Hz5 : zlen t5 = zlen t).
{ unfold t5, t4, HeapTupleHeaderSetCmax, HeapTupleHeaderSetXmax, HeapTupleHeaderSetXmin, set_t_cid, set_t_infomask.
destruct (negb _); rewrite !zlen_mput; done. }
assert (H6 : t6 = if has_flag flags XLH_DELETE_IS_PARTITION_MOVE
then ItemPointerSet t5 0 MovedPartitionsBlockNumber MovedPartitionsOffsetNumber else ItemPointerSet t5 0 blk off) by done.
assert (Hlow : ∀ o l, 0 ≤ o → o + l ≤ 12 → mread t6 o l = mread t5 o l).
{ intros o l Ho Hc. rewrite H6. destruct (has_flag flags XLH_DELETE_IS_PARTITION_MOVE); apply ItemPointerSet_other; lia. }
assert (H4 : ∀ k o, 0 ≤ o → o + Z.of_nat k ≤ 8 → mget k t5 o = mget k t4 o).
{ intros k o Ho Hc. unfold t5, HeapTupleHeaderSetCmax, set_t_cid, set_t_infomask.
by rewrite !mget_mput_disj by (simpl; lia). }
assert (H3 : ∀ k o, 0 ≤ o → o + Z.of_nat k ≤ 18 → mget k t3 o = mget k t o).
{ intros k o Ho Hc. unfold mget. by rewrite de_reads3 by lia. }
constructor; unfold SizeofHeapTupleHeader.
- rewrite H6. destruct (has_flag flags XLH_DELETE_IS_PARTITION_MOVE); by rewrite (proj2 (ItemPointerSet_other _ _ _)).
- unfold t_xmin, mget at 1. rewrite Hlow by (simpl; lia). fold (mget 4 t5 0). rewrite H4 by (simpl; lia).
unfold t4. destruct (has_flag flags XLH_DELETE_IS_SUPER); cbn [negb].
+ unfold HeapTupleHeaderSetXmin, InvalidTransactionId. apply mget_mput4; lia.
+ unfold HeapTupleHeaderSetXmax. rewrite mget_mput_disj by (simpl; lia). apply H3; simpl; lia.
- unfold t_xmax, mget at 1. change (0 + 4) with 4. rewrite Hlow by (simpl; lia). fold (mget 4 t5 4). rewrite H4 by (simpl; lia).
unfold t4. destruct (has_flag flags XLH_DELETE_IS_SUPER); cbn [negb].
+ unfold HeapTupleHeaderSetXmin. rewrite mget_mput_disj by (simpl; lia). apply H3; simpl; lia.
+ unfold HeapTupleHeaderSetXmax. change (0 + 4) with 4. apply mget_mput4; lia.
- unfold t_cid, mget. change (0 + 8) with 8. rewrite Hlow by (simpl; lia).
unfold t5, HeapTupleHeaderSetCmax, set_t_cid, set_t_infomask. rewrite mread_mput_disj by (simpl; lia).
apply mget_mput4; [lia| |unfold FirstCommandId; lia].
unfold t4, HeapTupleHeaderSetXmax, HeapTupleHeaderSetXmin. destruct (negb _); rewrite zlen_mput; lia.
- unfold t_infomask2, mget. change (0 + 18) with 18. rewrite de_reads6 by (simpl; lia). apply de_hot.
- rewrite H6. destruct (has_flag flags XLH_DELETE_IS_PARTITION_MOVE); apply ItemPointerSet_get; try lia; done.
- rewrite H6. destruct (has_flag flags XLH_DELETE_IS_PARTITION_MOVE); apply ItemPointerSet_get; try lia; done.
- unfold t_hoff, mget. change (0 + 22) with 22. rewrite de_reads6, de_reads3 by (simpl; lia). done.
- intros o l Ho. by rewrite de_reads6, de_reads3 by lia.
Qed.
End delete_effect.

(** ** Redo on a resident page that needs it *)

Lemma slot_upd_at p q off f :
  heap_wf p → live p off → slot_upd p q off f →
  ∃ t, page_slots p !! Z.to_nat (off - 1) = Some (mkSlot LP_NORMAL 0 t) ∧
    page_slots q = <[Z.to_nat (off - 1) := mkSlot LP_NORMAL 0 (f t 0)]> (page_slots p) ∧
    SizeofHeapTupleHeader ≤ zlen t ∧ Forall is_byte t.
Proof.
  intros Hh [Ho Hn] [_ Hs _ _]. pose proof (hw_tuple _ Hh off Ho Hn) as Hl.
  assert (Hne : lp_len (PageGetItemId p off) ≠ 0) by (unfold SizeofHeapTupleHeader in Hl; lia).
  destruct (slot_bytes p off (hw_page _ Hh) Ho Hne) as (Hlk & Hz & _ & _). rewrite Hn in Hlk.
  eexists. split; [exact Hlk|]. split_and!.
  - rewrite Hs. apply list_eq. intros j. destruct (decide (j = Z.to_nat (off - 1))) as [->|Hj].
    + rewrite list_lookup_alter_eq, Hlk, list_lookup_insert_eq; [done|]. by eapply lookup_lt_Some.
    + by rewrite list_lookup_alter_ne, list_lookup_insert_ne by done.
  - by rewrite Hz.
  - apply mread_byte. apply (wf_hdr _ (hw_page _ Hh)).
Qed.

Lemma on_redo_needs st r id tag p q cleanup f :
  plain_ref r id tag → resident st tag p → heap_wf p → PageGetLSN p < EndRecPtr r → f p = Ok q →
  (x ← XLogReadBufferForRedoExtended st r id RBM_NORMAL cleanup; on_redo x f) =
  Ok (buf_write st (Some tag) q, Some tag, BLK_NEEDS_REDO).
Proof.
  intros Hpr Hr Hh. apply on_redo_resident; [done|done|by apply heap_wf_not_new].
Qed.

(** ** A sample database *)

Definition heap_wfb (p : page) : bool :=
  page_wfb p && (PageGetMaxOffsetNumber p <=? MaxHeapTuplesPerPage)
  && forallb (λ i, negb (lp_flags (PageGetItemId p i) =? LP_NORMAL)
                   || (SizeofHeapTupleHeader <=? lp_len (PageGetItemId p i))) (item_offs p).

Lemma heap_wfb_sound p : heap_wfb p = true → heap_wf p.
Proof.
  unfold heap_wfb. intros H. apply andb_prop in H as [H Ht]. apply andb_prop in H as [Hw Hm].
  split; [by apply page_wfb_sound|b2p; lia|]. intros i Hi Hf.
  pose proof (forallb_items _ _ Ht i Hi) as Hc. cbv beta in Hc. rewrite Hf in Hc. simpl in Hc. b2p. done.
Qed.

Definition demo_rel : RelFileNode := mkRel 1663 5 16384.
Definition demo_tag : BufferTag := mkTag demo_rel MAIN_FORKNUM 0.

(** A heap page with two tuples of 40 bytes. *)
Definition demo_page : page :=
  Eval vm_compute in filled (PageInit BLCKSZ 0) [replicate 40 1; replicate 40 2].

Definition demo_db : dbstate :=
  mkDb {[ (demo_rel, MAIN_FORKNUM) := [demo_page] ]} {[ demo_tag := demo_page ]} ∅ ∅ true false false
    (mkConf false false).

(** A record about block 0 of the sample relation. *)
Definition demo_rec (lsn info : Z) (main data : list Z) : XLogReaderState :=
  mkRec (lsn - 50) lsn info 10 77 main 0
    [mkBlk true demo_rel MAIN_FORKNUM 0 0 false false [] 0 0 0 (negb (zlen data =? 0)) data].

Lemma demo_page_wf : heap_wf demo_page.
Proof. apply heap_wfb_sound. vm_compute. done. Qed.

Lemma demo_resident : resident demo_db demo_tag demo_page.
Proof. split; [done|exists [demo_page]; split; [done|vm_compute; done]|vm_compute; done]. Qed.

Lemma demo_plain lsn info main data : plain_ref (demo_rec lsn info main data) 0 demo_tag.
Proof. split; [done| |done]. by intros b [= <-]. Qed.

Ltac demo_record := constructor; [lia|done..| | |vm_compute; done]; [done|repeat constructor; done].

(** Redo of an insertion on a resident page. *)
Lemma redo_insert_resident st r tag p buf :
  let data := block_bytes r 0 in let off := mget 2 (main_data r) 0 in
  heap_record r → heap_op r = XLOG_HEAP_INSERT → touches r tag →
  resident st tag p → heap_wf p → PageGetLSN p < EndRecPtr r →
  SizeOfHeapHeader ≤ zlen data → SizeofHeapTupleHeader + (zlen data - SizeOfHeapHeader) ≤ MaxHeapTupleSize →
  room_for p off (SizeofHeapTupleHeader + (zlen data - SizeOfHeapHeader)) → 0 ≤ xl_xid r < 2 ^ 32 →
  ∃ q t, polar_heap_idx_redo st r tag buf = Ok (buf_write st (Some tag) q, Some tag, BLK_NEEDS_REDO) ∧
    heap_wf q ∧ PageGetLSN q = EndRecPtr r ∧
    inserted_tuple data (xl_xid r) (blockNum tag) off t ∧
    page_slots q = put_slot (page_slots p) (Z.to_nat (off - 1)) (mkSlot LP_NORMAL 0 t)
               (off =? PageGetMaxOffsetNumber p + 1).
Proof.
  intros data off Hrec Hop [Hfk Hpr] Hr Hh Hl Hs1 Hs2 Hroom Hxid. rewrite Hop in Hpr. cbn in Hpr.
  pose proof (hr_main _ Hrec) as Hm. rewrite Hop in Hm. change (heap_main_size XLOG_HEAP_INSERT) with 3 in Hm.
  destruct (insert_page_refines r (blockNum tag) off (mget 1 (main_data r) 2) p) as (q & t & Hq & Hhq & Hlsn & Hit & Hs);
  try done; [apply Hrec|by eapply resident_block|apply Hrec|].
  exists q, t. split_and!; try done.
  unfold polar_heap_idx_redo. rewrite Hop. simpl. unfold polar_heap_xlog_insert.
  rewrite !rd_ok by (simpl; lia). cbn [mbind res_bind]. rewrite (log_tag _ _ _ (pr_tag _ _ _ Hpr)). cbn [mbind res_bind].
  rewrite (vm_tag_other _ _ Hfk), tags_equal_refl. cbn [andb mbind res_bind]. unfold read_or_init. rewrite (hr_noinit _ Hrec).
  by apply (on_redo_needs st r 0 tag p q false).
Qed.

(** ** Claims *)

Section claims.
Context (st : dbstate) (r : XLogReaderState) (tag : BufferTag) (p : page) (buf : Buffer).
Abbreviation md := (main_data r).

(** Redo of a delete record on a resident page behind the record's LSN
changes exactly the named tuple, as [deleted_tuple] says, leaves every
other slot, and brings the page to the record's LSN. *)
Theorem heap_redo_delete :
heap_record r → Forall is_byte md → heap_op r = XLOG_HEAP_DELETE → touches r tag →
resident st tag p → heap_wf p → PageGetLSN p < EndRecPtr r → live p (mget 2 md 4) →
∃ q t t', polar_heap_idx_redo st r tag buf = Ok (buf_write st (Some tag) q, Some tag, BLK_NEEDS_REDO) ∧
heap_wf q ∧ PageGetLSN q = EndRecPtr r ∧
page_slots p !! Z.to_nat (mget 2 md 4 - 1) = Some (mkSlot LP_NORMAL 0 t) ∧
page_slots q = <[Z.to_nat (mget 2 md 4 - 1) := mkSlot LP_NORMAL 0 t']> (page_slots p) ∧
deleted_tuple (blockNum tag) (mget 2 md 4) (mget 4 md 0) (mget 1 md 7) t t'.
Proof using Type.
intros Hrec Hbm Hop [Hfk Hpr] Hr Hh Hl Hlv. rewrite Hop in Hpr. cbn in Hpr.
pose proof (hr_main _ Hrec) as Hm. rewrite Hop in Hm. change (heap_main_size XLOG_HEAP_DELETE) with 8 in Hm.
destruct (delete_page_refines r (blockNum tag) (mget 4 md 0) _ (mget 1 md 6) (mget 1 md 7) p Hh Hlv (hr_lsn _ Hrec))
as (q & Hq & Hu & Hlsn).
destruct (slot_upd_at _ _ _ _ Hh Hlv Hu) as (t & Ht & Hs & Hlt & Hbt).
exists q, t, (delete_effect (blockNum tag) (mget 2 md 4) (mget 4 md 0) (mget 1 md 6) (mget 1 md 7) t 0).
split_and!; [|apply Hu|done|done|done|].
- unfold polar_heap_idx_redo. rewrite Hop. simpl. unfold polar_heap_xlog_delete.
rewrite !rd_ok by (simpl; lia). cbn [mbind res_bind]. rewrite (log_tag _ _ _ (pr_tag _ _ _ Hpr)). cbn [mbind res_bind].
rewrite (vm_tag_other _ _ Hfk), tags_equal_refl. by apply (on_redo_needs st r 0 tag p q false).
- apply delete_effect_fields; [done|done|apply (mget_bound 4 _ _ Hbm)|by eapply resident_block|apply (mget_bound 2 _ _ Hbm)].
Qed.

(** C13: redo of an insert record (without page initialisation) puts the
tuple the record describes ([inserted_tuple]: header from the record,
xmin the record's transaction, [t_ctid] pointing at itself, the data
bytes of the record) at the record's offset number, and nothing else
changes in the slots. *)
Theorem heap_redo_insert :
let data := block_bytes r 0 in let off := mget 2 md 0 in
heap_record r → heap_op r = XLOG_HEAP_INSERT → touches r tag →
resident st tag p → heap_wf p → PageGetLSN p < EndRecPtr r →
SizeOfHeapHeader ≤ zlen data → SizeofHeapTupleHeader + (zlen data - SizeOfHeapHeader) ≤ MaxHeapTupleSize →
room_for p off (SizeofHeapTupleHeader + (zlen data - SizeOfHeapHeader)) → 0 ≤ xl_xid r < 2 ^ 32 →
∃ q t, polar_heap_idx_redo st r tag buf = Ok (buf_write st (Some tag) q, Some tag, BLK_NEEDS_REDO) ∧
heap_wf q ∧ PageGetLSN q = EndRecPtr r ∧
inserted_tuple data (xl_xid r) (blockNum tag) off t ∧
page_slots q = put_slot (page_slots p) (Z.to_nat (off - 1)) (mkSlot LP_NORMAL 0 t)
(off =? PageGetMaxOffsetNumber p + 1).
Proof using Type. apply redo_insert_resident. Qed.

(** Redo of a delete, lock or confirm record whose offset number does
not name a normal item of the page stops with PANIC and changes
nothing. *)
Theorem heap_redo_bad_offset :
heap_record r → heap_op r ∈ [XLOG_HEAP_DELETE; XLOG_HEAP_LOCK; XLOG_HEAP_CONFIRM] → touches r tag →
resident st tag p → heap_wf p → PageGetLSN p < EndRecPtr r →
¬ live p (mget 2 md (heap_off_pos (heap_op r))) →
polar_heap_idx_redo st r tag buf = Err EPanic.
Proof using Type.
intros Hrec Hop [Hfk Hpr] Hr Hh Hl Hn. pose proof (hr_main _ Hrec) as Hm. pose proof (hr_off _ Hrec) as Ho.
pose proof (not_live_panic p _ (hw_page _ Hh) Ho Hn) as Hpanic.
assert (Hread : ∀ cleanup f, f p = Err EPanic →
(x ← XLogReadBufferForRedoExtended st r 0 RBM_NORMAL cleanup; on_redo x f) = Err EPanic ∨ ¬ plain_ref r 0 tag).
{ intros cleanup f Hf. left. assert (Hp0 : plain_ref r 0 tag).
{ rewrite !elem_of_cons, elem_of_nil in Hop. destruct Hop as [E|[E|[E|[]]]]; rewrite E in Hpr; exact Hpr. }
rewrite (redo_read_resident st r 0 tag p cleanup Hp0 Hr (heap_wf_not_new p Hh)).
destruct (Z.leb_spec (EndRecPtr r) (PageGetLSN p)); [lia|]. cbn [mbind res_bind]. unfold on_redo.
rewrite (resident_page _ _ _ Hr). cbn [mbind res_bind]. by rewrite Hf. }
unfold polar_heap_idx_redo. cbv zeta. rewrite !elem_of_cons, elem_of_nil in Hop.
destruct Hop as [E|[E|[E|[]]]]; rewrite E in *; cbn in Hpr, Hm;
unfold heap_off_pos in Hpanic; cbn in Hpanic; unfold heap_main_size in Hm; cbn in Hm; simpl.
- unfold polar_heap_xlog_delete. rewrite !rd_ok by (simpl; lia). cbn [mbind res_bind].
rewrite (log_tag _ _ _ (pr_tag _ _ _ Hpr)). cbn [mbind res_bind]. rewrite (vm_tag_other _ _ Hfk), tags_equal_refl.
destruct (Hread false (delete_page r (blockNum tag) (mget 4 md 0) (mget 2 md 4) (mget 1 md 6) (mget 1 md 7))) as [H|H];
[unfold delete_page; by rewrite Hpanic|exact H|done].
- unfold polar_heap_xlog_lock, redo_lock. rewrite !rd_ok by (simpl; lia). cbn [mbind res_bind].
rewrite (log_tag _ _ _ (pr_tag _ _ _ Hpr)). cbn [mbind res_bind].
rewrite (vm_tag_other _ _ Hfk), tags_equal_refl. cbn [andb mbind res_bind].
destruct (Hread false (lock_page r (blockNum tag) (mget 4 md 0) (mget 2 md 4) (mget 1 md 6))) as [H|H];
[unfold lock_page; by rewrite Hpanic|exact H|done].
- unfold polar_heap_xlog_confirm, redo_block0. rewrite !rd_ok by (simpl; lia). cbn [mbind res_bind].
rewrite (log_tag _ _ _ (pr_tag _ _ _ Hpr)). cbn [mbind res_bind]. rewrite tags_equal_refl. cbn [negb].
destruct (Hread false (confirm_page r (blockNum tag) (mget 2 md 0))) as [H|H];
[unfold confirm_page; by rewrite Hpanic|exact H|done].
Qed.
End claims.

(** ** Instances *)

(** xmax 77, offset number 2, no infobits, no flags. *)
Definition demo_delete : XLogReaderState := demo_rec 1000 XLOG_HEAP_DELETE [77; 0; 0; 0; 2; 0; 0; 0] [].
(** Offset number 3, no flags; a tuple header and ten bytes. *)
Definition demo_insert : XLogReaderState :=
  demo_rec 2000 XLOG_HEAP_INSERT [3; 0; 0] ([1; 0; 0; 8; 24] ++ replicate 10 9).

Lemma demo_delete_record : heap_record demo_delete.
Proof. constructor; try (vm_compute; done). Qed.

Lemma demo_insert_record : heap_record demo_insert.
Proof. constructor; try (vm_compute; done). repeat constructor; done. Qed.

Lemma demo_touches r : is_update (heap_op r) = false → plain_ref r 0 demo_tag → touches r demo_tag.
Proof. intros E H. split; [done|]. by rewrite E. Qed.

Lemma demo_delete_touches : touches demo_delete demo_tag.
Proof. apply demo_touches; [done|apply demo_plain]. Qed.
Lemma demo_insert_touches : touches demo_insert demo_tag.
Proof. apply demo_touches; [done|apply demo_plain]. Qed.

Lemma heap_redo_delete_witness :
  ∃ q t, polar_heap_idx_redo demo_db demo_delete demo_tag None =
         Ok (buf_write demo_db (Some demo_tag) q, Some demo_tag, BLK_NEEDS_REDO) ∧
    page_slots q = [mkSlot LP_NORMAL 0 (replicate 40 1); mkSlot LP_NORMAL 0 t] ∧ t_xmax t 0 = 77.
Proof.
  destruct (heap_redo_delete demo_db demo_delete demo_tag demo_page None) as (q & t & t' & Hq & _ & _ & _ & Hs & Ht);
    [apply demo_delete_record|repeat constructor; done|done|apply demo_delete_touches|apply demo_resident
    |apply demo_page_wf|vm_compute; done|split; vm_compute; done|].
  exists q, t'. split; [exact Hq|]. split; [exact Hs|]. rewrite (dt_xmax _ _ _ _ _ _ Ht). vm_compute. reflexivity.
Defined.

Lemma heap_redo_insert_witness :
  ∃ q t, polar_heap_idx_redo demo_db demo_insert demo_tag None =
         Ok (buf_write demo_db (Some demo_tag) q, Some demo_tag, BLK_NEEDS_REDO) ∧
    page_slots q = page_slots demo_page ++ [mkSlot LP_NORMAL 0 t].
Proof.
  destruct (heap_redo_insert demo_db demo_insert demo_tag demo_page None) as (q & t & Hq & _ & _ & _ & Hs);
    [apply demo_insert_record|done|apply demo_insert_touches|apply demo_resident|apply demo_page_wf
    |vm_compute; done|vm_compute; done|vm_compute; done| |vm_compute; done|].
  { split_and!; try (vm_compute; done). }
  exists q, t. split; [exact Hq|]. rewrite Hs. vm_compute. reflexivity.
Defined.

Lemma heap_redo_bad_offset_witness :
  polar_heap_idx_redo demo_db (demo_rec 1000 XLOG_HEAP_DELETE [77; 0; 0; 0; 9; 0; 0; 0] []) demo_tag None = Err EPanic.
Proof.
  apply (heap_redo_bad_offset _ _ _ demo_page);
    [constructor; vm_compute; done|vm_compute; left|apply demo_touches; [done|apply demo_plain]
    |apply demo_resident|apply demo_page_wf|vm_compute; done|].
  intros [[_ H] _]. vm_compute in H. done.
Defined.

(** ** Idempotence and restart *)

(** C3: redo never touches another page and never goes back.  For a heap record that
    is neither a truncation nor one that makes the page anew, with a plain reference to
    the page, without image, and on a resident heap page: a redo that returns has either
    found
    the page at or past the record's LSN and changed nothing, or has replaced
    exactly this page by a well-formed one with the record's LSN; and doing
    the same redo again finds nothing to do. *)
Theorem heap_redo_idempotent st r tag p buf buf' st' b act :
  heap_record r → touches r tag → resident st tag p → heap_wf p →
  polar_heap_idx_redo st r tag buf = Ok (st', b, act) →
  (st' = st ∧ EndRecPtr r ≤ PageGetLSN p ∨
   ∃ q, st' = buf_write st (Some tag) q ∧ heap_wf q ∧ PageGetLSN q = EndRecPtr r ∧ PageGetLSN p < EndRecPtr r) ∧
  polar_heap_idx_redo st' r tag buf' = Ok (st', Some tag, BLK_DONE).
Proof.
  intros Hrec Ht Hr Hh Hy. destruct (heap_redo_outcome st r tag p buf Hrec Hr Hh _ Ht Hy)
    as [[Hl E]|[Hl (q & E & Hq & Hlq)]]; injection E as -> _ _.
  - split; [by left|]. by apply (heap_redo_done st r tag p).
  - split; [right; exists q; done|]. apply (heap_redo_done _ r tag q); [done|by eapply resident_write|done|lia|done].
Qed.

Lemma heap_redo_idempotent_witness :
  ∃ st', is_ok (polar_heap_idx_redo demo_db demo_delete demo_tag None) = true ∧
    polar_heap_idx_redo st' demo_delete demo_tag None = Ok (st', Some demo_tag, BLK_DONE).
Proof.
  assert (He : is_ok (polar_heap_idx_redo demo_db demo_delete demo_tag None) = true) by (vm_compute; reflexivity).
  destruct (polar_heap_idx_redo demo_db demo_delete demo_tag None) as [[[st' b] act]|] eqn:E; [|discriminate He].
  exists st'. split; [exact He|].
  exact (proj2 (heap_redo_idempotent demo_db demo_delete demo_tag demo_page None None st' b act
    demo_delete_record demo_delete_touches demo_resident demo_page_wf E)).
Defined.

(** C2: replay can be restarted anywhere.  When the records [rs1] have been
    replayed on a page (and perhaps flushed), replaying the whole log again
    from its start gives the state that one pass over the whole log gives. *)
Theorem replay_restart st tag p rs1 rs2 st1 st2 :
  page_log tag (rs1 ++ rs2) → resident st tag p → heap_wf p →
  replay st tag rs1 = Ok st1 → replay st tag (rs1 ++ rs2) = Ok st2 →
  replay st1 tag (rs1 ++ rs2) = Ok st2.
Proof.
  intros Hlog Hr Hh H1 H2. apply Forall_app in Hlog as [Hl1 Hl2].
  rewrite replay_app, H1 in H2. cbn [mbind res_bind] in H2.
  destruct (replay_resident tag rs1 st p st1 Hl1 Hr Hh H1) as (q & Hrq & Hhq & _ & Hf).
  rewrite replay_app, (replay_skip tag rs1 st1 q Hl1 Hrq Hhq Hf). done.
Qed.

Lemma replay_restart_witness :
  ∃ st1 st2, replay demo_db demo_tag [demo_delete] = Ok st1 ∧
    replay demo_db demo_tag [demo_delete; demo_insert] = Ok st2 ∧
    replay st1 demo_tag [demo_delete; demo_insert] = Ok st2.
Proof.
  assert (He : is_ok (replay demo_db demo_tag [demo_delete; demo_insert]) = true) by (vm_compute; reflexivity).
  assert (He1 : is_ok (replay demo_db demo_tag [demo_delete]) = true) by (vm_compute; reflexivity).
  destruct (replay demo_db demo_tag [demo_delete; demo_insert]) as [st2|] eqn:E2; [|discriminate He].
  destruct (replay demo_db demo_tag [demo_delete]) as [st1|] eqn:E1; [|discriminate He1].
  exists st1, st2. split; [reflexivity|]. split; [reflexivity|].
  apply (replay_restart demo_db demo_tag demo_page [demo_delete] [demo_insert] st1 st2);
    [|apply demo_resident|apply demo_page_wf|exact E1|exact E2].
  constructor; [split; [apply demo_delete_record|apply demo_delete_touches]|].
  constructor; [split; [apply demo_insert_record|apply demo_insert_touches]|constructor].
Defined.

(** ** Pruning and freezing *)

(** C31: [heap_page_prune_execute] on valid offset numbers gives exactly the
    slots of the reference [prune_slots] (redirects, dead and unused line
    pointers, then defragmentation), on a well-formed heap page whose tuple
    space is packed. *)
Theorem prune_execute_refines p redirected nowdead nowunused :
  let ok := λ o, 1 ≤ o ≤ PageGetMaxOffsetNumber p in
  heap_wf p → Forall (λ '(a, b), ok a ∧ 0 ≤ b < 2 ^ 15) redirected → Forall ok nowdead → Forall ok nowunused →
  ∃ q, heap_page_prune_execute p redirected nowdead nowunused = Ok q ∧ heap_wf q ∧
    page_slots q = prune_slots redirected nowdead nowunused (page_slots p) ∧
    pd_upper q = pd_special q - slots_space (page_slots q).
Proof. intros ok. apply heap_page_prune_execute_refines. Qed.

Lemma prune_execute_refines_witness :
  ∃ q, heap_page_prune_execute demo_page [] [1] [2] = Ok q ∧
    page_slots q = [mkSlot LP_DEAD 0 []; mkSlot LP_UNUSED 0 []].
Proof.
  destruct (prune_execute_refines demo_page [] [1] [2]) as (q & Hq & _ & Hs & _);
    [apply demo_page_wf|constructor|repeat constructor; vm_compute; done|repeat constructor; vm_compute; done|].
  exists q. split; [exact Hq|]. rewrite Hs. vm_compute. reflexivity.
Defined.

(** Redo of a freeze plan applies [heap_execute_freeze_tuple] to the
    tuples the plan names, in order, and to nothing else, and brings the page
    to the record's LSN. *)
Theorem freeze_page_correct r n p :
  heap_wf p → 0 ≤ n → sizeof_freeze_tuple * n ≤ zlen (block_bytes r 0) → 0 ≤ EndRecPtr r < 2 ^ 64 →
  (∀ k, 0 ≤ k < n → live p (frz_offset (freeze_plan (block_bytes r 0) k))) →
  ∃ q, freeze_page r n p = Ok q ∧ heap_wf q ∧ PageGetLSN q = EndRecPtr r ∧
    page_slots q = freeze_slots (block_bytes r 0) (seqZ 0 n) (page_slots p).
Proof. apply freeze_page_refines. Qed.

Lemma freeze_page_correct_witness :
  let r := demo_rec 1500 XLOG_HEAP2_FREEZE_PAGE [] [0; 0; 0; 0; 2; 0; 0; 0; 0; 9; 0; 0] in
  ∃ q, freeze_page r 1 demo_page = Ok q ∧
    page_slots q = freeze_slots (block_bytes r 0) [0] (page_slots demo_page).
Proof.
  intros r. destruct (freeze_page_correct r 1 demo_page) as (q & Hq & _ & _ & Hs);
    [apply demo_page_wf|lia|vm_compute; done|vm_compute; done| |].
  { intros k Hk. assert (k = 0) as -> by lia. split; vm_compute; done. }
  exists q. split; [exact Hq|exact Hs].
Defined.
