(* ===== verification/TagList.v ===== *)
(** * Which pages a record is about: [logindex_func.c] and the [*_idx_save]
      and [*_get_bufftag_list] routines

    Log-index replay needs, for every record, the tags of the pages it
    changes: [ParseLogIndexXlog] enters the record under each of them,
    [GetXlogBuffTagList] collects them for a node that replays at once.  Heap
    records do not carry the visibility-map pages they clear;
    [polar_xlog_decode_data] adds them to the decoded block references first.
    The file models these routines for the resource managers XLOG, heap,
    heap2, sequence and generic, and the redo of the last two and of
    full-page images. *)

From S2P Require Import Prelude Mem Page PageAdd PageIndex PageCompact Checksum Buffer WalRecord HeapTuple HeapRedo.

(** ** Adding the visibility-map blocks *)


Definition set_blocks (r : XLogReaderState) (mx : Z) (bl : list DecodedBkpBlock) : XLogReaderState :=
  mkRec (ReadRecPtr r) (EndRecPtr r) (xl_info r) (xl_rmid r) (xl_xid r) (main_data r) mx bl.

Definition polar_reset_blk (b : DecodedBkpBlock) : DecodedBkpBlock :=
  mkBlk false (bkp_rnode b) (bkp_forknum b) (bkp_blkno b) (bkp_flags b) false false (bkp_image b)
    (hole_offset b) (hole_length b) (bimg_info b) false (bkp_data b).

(** [record->blocks] is an array: an index outside it is an error. *)
Definition block_slot (r : XLogReaderState) (block_id : Z) : res DecodedBkpBlock :=
  match blocks r !! Z.to_nat block_id with Some b => Ok b | None => Err EOob end.

Definition polar_heap_save_vm_block (r : XLogReaderState) (block_id vm_block_id : Z) : res XLogReaderState :=
  blk ← block_slot r block_id;
  vm_blk ← block_slot r vm_block_id;
  let b := polar_reset_blk vm_blk in
  let vm_blk := mkBlk true (bkp_rnode blk) VISIBILITYMAP_FORKNUM (HEAPBLK_TO_MAPBLOCK (bkp_blkno blk))
                  (bkp_flags b) (has_image b) (apply_image b) (bkp_image b)
                  (hole_offset b) (hole_length b) (bimg_info b) (has_data b) (bkp_data b) in
  Ok (set_blocks r (Z.max (max_block_id r) vm_block_id) (<[Z.to_nat vm_block_id := vm_blk]> (blocks r))).

Definition polar_heap_update_save_vm_logindex (r : XLogReaderState) : res XLogReaderState :=
  flags ← rd 1 (main_data r) 7;
  new ← block_slot r 0;
  let blkno_new := bkp_blkno new in
  let blkno_old := match XLogRecGetBlockTag r 1 with Some t => blockNum t | None => blkno_new end in
  if negb (blkno_new =? blkno_old) then
    r ← (if has_flag flags XLH_UPDATE_OLD_ALL_VISIBLE_CLEARED then polar_heap_save_vm_block r 1 3 else Ok r);
    if has_flag flags XLH_UPDATE_NEW_ALL_VISIBLE_CLEARED then polar_heap_save_vm_block r 0 2 else Ok r
  else
    if has_flag flags XLH_UPDATE_OLD_ALL_VISIBLE_CLEARED then polar_heap_save_vm_block r 0 2 else Ok r.

(** The case [XLOG_HEAP_INSERT | XLOG_HEAP_INIT_PAGE] of the switch cannot be
    reached: the selector is masked by [XLOG_HEAP_OPMASK]. *)
Definition polar_xlog_queue_decode_heap (r : XLogReaderState) : res XLogReaderState :=
  let op := heap_op r in
  if op =? XLOG_HEAP_INSERT then
    flags ← rd 1 (main_data r) 2;
    if has_flag flags XLH_INSERT_ALL_VISIBLE_CLEARED then polar_heap_save_vm_block r 0 1 else Ok r
  else if op =? XLOG_HEAP_DELETE then
    flags ← rd 1 (main_data r) 7;
    if has_flag flags XLH_DELETE_ALL_VISIBLE_CLEARED then polar_heap_save_vm_block r 0 1 else Ok r
  else if (op =? XLOG_HEAP_UPDATE) || (op =? XLOG_HEAP_HOT_UPDATE) then polar_heap_update_save_vm_logindex r
  else if op =? XLOG_HEAP_LOCK then
    flags ← rd 1 (main_data r) 7;
    if has_flag flags XLH_LOCK_ALL_FROZEN_CLEARED then polar_heap_save_vm_block r 0 1 else Ok r
  else Ok r.

Definition polar_xlog_queue_decode_heap2 (r : XLogReaderState) : res XLogReaderState :=
  let op := heap_op r in
  if op =? XLOG_HEAP2_MULTI_INSERT then
    flags ← rd 1 (main_data r) 0;
    if has_flag flags XLH_INSERT_ALL_VISIBLE_CLEARED then polar_heap_save_vm_block r 0 1 else Ok r
  else if op =? XLOG_HEAP2_LOCK_UPDATED then
    flags ← rd 1 (main_data r) 7;
    if has_flag flags XLH_LOCK_ALL_FROZEN_CLEARED then polar_heap_save_vm_block r 0 1 else Ok r
  else Ok r.

Definition RM_XLOG_ID : Z := 0.
Definition RM_HEAP2_ID : Z := 9.
Definition RM_HEAP_ID : Z := 10.
Definition RM_BTREE_ID : Z := 11.
Definition RM_HASH_ID : Z := 12.
Definition RM_GIN_ID : Z := 13.
Definition RM_GIST_ID : Z := 14.
Definition RM_SEQ_ID : Z := 15.
Definition RM_SPGIST_ID : Z := 16.
Definition RM_BRIN_ID : Z := 17.
Definition RM_GENERIC_ID : Z := 20.

Definition polar_xlog_decode_data (r : XLogReaderState) : res XLogReaderState :=
  if xl_rmid r =? RM_HEAP_ID then polar_xlog_queue_decode_heap r
  else if xl_rmid r =? RM_HEAP2_ID then polar_xlog_queue_decode_heap2 r
  else Ok r.

(** ** Entering a record in the log index *)

(** [ParseXLogBlocksLsn]: the tag under which the record is entered, none when
    the block reference does not exist. *)
Definition ParseXLogBlocksLsn (r : XLogReaderState) (recordBlockId : Z) : list BufferTag :=
  if max_block_id r <? recordBlockId then [] else
  match XLogRecGetBlockTag r recordBlockId with Some t => [t] | None => [] end.

(** The variables [XLogRecGetBlockTag] fills stay uninitialised when it fails
    and its result is not tested. *)
Definition tag_or_uninit (r : XLogReaderState) (block_id : Z) : res BufferTag :=
  match XLogRecGetBlockTag r block_id with Some t => Ok t | None => Err EOob end.

(** A routine that enters block 1 (the map page) under a flag, then block 0. *)
Definition save_vm_and_heap (r : XLogReaderState) (flagpos mask : Z) : res (list BufferTag) :=
  flags ← rd 1 (main_data r) flagpos;
  Ok ((if has_flag flags mask then ParseXLogBlocksLsn r 1 else []) ++ ParseXLogBlocksLsn r 0).

Definition polar_heap_insert_save (r : XLogReaderState) : res (list BufferTag) :=
  save_vm_and_heap r 2 XLH_INSERT_ALL_VISIBLE_CLEARED.
Definition polar_heap_delete_save (r : XLogReaderState) : res (list BufferTag) :=
  save_vm_and_heap r 7 XLH_DELETE_ALL_VISIBLE_CLEARED.
Definition polar_heap_lock_save (r : XLogReaderState) : res (list BufferTag) :=
  save_vm_and_heap r 7 XLH_LOCK_ALL_FROZEN_CLEARED.
Definition polar_heap_multi_insert_save (r : XLogReaderState) : res (list BufferTag) :=
  save_vm_and_heap r 0 XLH_INSERT_ALL_VISIBLE_CLEARED.
Definition polar_heap_lock_update_save (r : XLogReaderState) : res (list BufferTag) :=
  save_vm_and_heap r 7 XLH_LOCK_ALL_FROZEN_CLEARED.

Definition polar_heap_xlog_update_save (r : XLogReaderState) : res (list BufferTag) :=
  flags ← rd 1 (main_data r) 7;
  new ← tag_or_uninit r 0;
  let newblk := blockNum new in
  let oldblk := match XLogRecGetBlockTag r 1 with Some t => blockNum t | None => newblk end in
  let same := oldblk =? newblk in
  '(l1, old_cleared_vm) ←
    (if has_flag flags XLH_UPDATE_OLD_ALL_VISIBLE_CLEARED then
       let vm_block := if same then 2 else 3 in
       t ← POLAR_GET_LOG_TAG r vm_block;
       Ok (ParseXLogBlocksLsn r vm_block, t)
     else Ok ([], CLEAR_BUFFERTAG));
  let l2 := ParseXLogBlocksLsn r (if same then 0 else 1) in
  l3 ← (if same then Ok [] else
          l4 ← (if has_flag flags XLH_UPDATE_NEW_ALL_VISIBLE_CLEARED then
                  new_cleared_vm ← POLAR_GET_LOG_TAG r 2;
                  Ok (if BUFFERTAGS_EQUAL old_cleared_vm new_cleared_vm then [] else ParseXLogBlocksLsn r 2)
                else Ok []);
          Ok (ParseXLogBlocksLsn r 0 ++ l4));
  Ok (l1 ++ l2 ++ l3).

Definition polar_heap_idx_save (r : XLogReaderState) : res (list BufferTag) :=
  let op := heap_op r in
  if op =? XLOG_HEAP_INSERT then polar_heap_insert_save r
  else if op =? XLOG_HEAP_DELETE then polar_heap_delete_save r
  else if op =? XLOG_HEAP_UPDATE then polar_heap_xlog_update_save r
  else if op =? XLOG_HEAP_TRUNCATE then Ok []
  else if op =? XLOG_HEAP_HOT_UPDATE then polar_heap_xlog_update_save r
  else if op =? XLOG_HEAP_CONFIRM then Ok (ParseXLogBlocksLsn r 0)
  else if op =? XLOG_HEAP_LOCK then polar_heap_lock_save r
  else if op =? XLOG_HEAP_INPLACE then Ok (ParseXLogBlocksLsn r 0)
  else Err EPanic.

Definition polar_heap2_idx_save (r : XLogReaderState) : res (list BufferTag) :=
  let op := heap_op r in
  if (op =? XLOG_HEAP2_CLEAN) || (op =? XLOG_HEAP2_FREEZE_PAGE) then Ok (ParseXLogBlocksLsn r 0)
  else if op =? XLOG_HEAP2_CLEANUP_INFO then Ok []
  else if op =? XLOG_HEAP2_VISIBLE then Ok (ParseXLogBlocksLsn r 1 ++ ParseXLogBlocksLsn r 0)
  else if op =? XLOG_HEAP2_MULTI_INSERT then polar_heap_multi_insert_save r
  else if op =? XLOG_HEAP2_LOCK_UPDATED then polar_heap_lock_update_save r
  else if op =? XLOG_HEAP2_NEW_CID then Ok []
  else if op =? XLOG_HEAP2_REWRITE then Ok []
  else Err EPanic.

Definition XLOG_FPI_FOR_HINT : Z := 0xA0.
Definition XLOG_FPI : Z := 0xB0.
Definition XLOG_SEQ_LOG : Z := 0.
Definition MAX_GENERIC_XLOG_PAGES : Z := 4.

Definition rec_info (r : XLogReaderState) : Z := clear_flag (xl_info r) XLR_INFO_MASK.

(** The boolean is the return value: [false] for records that are replayed
    at once. *)
Definition polar_xlog_idx_save (r : XLogReaderState) : res (bool * list BufferTag) :=
  if negb (rec_info r =? XLOG_FPI) && negb (rec_info r =? XLOG_FPI_FOR_HINT) then Ok (false, [])
  else Ok (true, seqZ 0 (max_block_id r + 1) ≫= ParseXLogBlocksLsn r).

Definition polar_seq_idx_save (r : XLogReaderState) : res (list BufferTag) :=
  if rec_info r =? XLOG_SEQ_LOG then Ok (ParseXLogBlocksLsn r 0) else Err EPanic.

Definition polar_generic_idx_save (r : XLogReaderState) : list BufferTag :=
  seqZ 0 (MAX_GENERIC_XLOG_PAGES + 1) ≫= λ id,
    if XLogRecHasBlockRef r id then ParseXLogBlocksLsn r id else [].

(** ** Collecting the tags: [*_get_bufftag_list]

    [*buffertagList] points to a fresh array of [n] tags, [tags] are the
    entries written so far. *)

(** An assignment to entry [tagCount] of the array. *)
Definition put_tag (n : Z) (tags : list BufferTag) (t : BufferTag) : res (list BufferTag) :=
  if zlen tags <? n then Ok (tags ++ [t]) else Err EOob.

(** The same written without parentheses, [*buffertagList[tagCount] = t]: the
    subscript applies to the pointer variable of the caller, so only index 0
    denotes the array. *)
Definition put_tag_ptr (n : Z) (tags : list BufferTag) (t : BufferTag) : res (list BufferTag) :=
  if zlen tags =? 0 then put_tag n tags t else Err EOob.

Definition polar_heap_insert_get_bufftag_list (r : XLogReaderState) : res (list BufferTag) :=
  flags ← rd 1 (main_data r) 2;
  l ← (if has_flag flags XLH_INSERT_ALL_VISIBLE_CLEARED
       then t ← tag_or_uninit r 1; put_tag 2 [] t else Ok []);
  t ← tag_or_uninit r 0;
  put_tag 2 l t.

(** The same routine as written for the other operations. *)
Definition vm_and_heap_bufftag_list (r : XLogReaderState) (flagpos mask : Z) : res (list BufferTag) :=
  flags ← rd 1 (main_data r) flagpos;
  l ← (if has_flag flags mask then t ← tag_or_uninit r 1; put_tag_ptr 2 [] t else Ok []);
  t ← tag_or_uninit r 0;
  put_tag_ptr 2 l t.

Definition polar_heap_delete_get_bufftag_list (r : XLogReaderState) : res (list BufferTag) :=
  vm_and_heap_bufftag_list r 7 XLH_DELETE_ALL_VISIBLE_CLEARED.
Definition polar_heap_lock_get_bufftag_list (r : XLogReaderState) : res (list BufferTag) :=
  vm_and_heap_bufftag_list r 7 XLH_LOCK_ALL_FROZEN_CLEARED.
Definition polar_heap_multi_insert_get_bufftag_list (r : XLogReaderState) : res (list BufferTag) :=
  vm_and_heap_bufftag_list r 0 XLH_INSERT_ALL_VISIBLE_CLEARED.
Definition polar_heap_lock_update_get_bufftag_list (r : XLogReaderState) : res (list BufferTag) :=
  vm_and_heap_bufftag_list r 7 XLH_LOCK_ALL_FROZEN_CLEARED.

Definition polar_heap_xlog_update_get_bufftag_list (r : XLogReaderState) : res (list BufferTag) :=
  flags ← rd 1 (main_data r) 7;
  new ← tag_or_uninit r 0;
  let newblk := blockNum new in
  let oldblk := match XLogRecGetBlockTag r 1 with Some t => blockNum t | None => newblk end in
  let same := oldblk =? newblk in
  '(l, old_cleared_vm) ←
    (if has_flag flags XLH_UPDATE_OLD_ALL_VISIBLE_CLEARED then
       let vm_block := if same then 2 else 3 in
       t ← tag_or_uninit r vm_block;
       l ← put_tag_ptr 4 [] t;
       c ← POLAR_GET_LOG_TAG r vm_block;
       Ok (l, c)
     else Ok ([], CLEAR_BUFFERTAG));
  t ← tag_or_uninit r (if same then 0 else 1);
  l ← put_tag_ptr 4 l t;
  if same then Ok l else
  t ← tag_or_uninit r 0;
  l ← put_tag_ptr 4 l t;
  if has_flag flags XLH_UPDATE_NEW_ALL_VISIBLE_CLEARED then
    new_cleared_vm ← POLAR_GET_LOG_TAG r 2;
    if BUFFERTAGS_EQUAL old_cleared_vm new_cleared_vm then Ok l
    else t ← tag_or_uninit r 2; put_tag_ptr 4 l t
  else Ok l.

(** A single tag, block 0. *)
Definition single_bufftag_list (r : XLogReaderState) : res (list BufferTag) :=
  t ← tag_or_uninit r 0; put_tag_ptr 1 [] t.

(** What the routine hands back: [false] (not parsed), [true] without having
    set the number of tags, or [true] with the tags. *)
Inductive tag_result : Type :=
| NotParsed
| TagsUnset
| Tags (l : list BufferTag).

Definition polar_heap_idx_get_bufftag_list (r : XLogReaderState) : res tag_result :=
  let op := heap_op r in
  if op =? XLOG_HEAP_INSERT then Tags <$> polar_heap_insert_get_bufftag_list r
  else if op =? XLOG_HEAP_DELETE then Tags <$> polar_heap_delete_get_bufftag_list r
  else if op =? XLOG_HEAP_UPDATE then Tags <$> polar_heap_xlog_update_get_bufftag_list r
  else if op =? XLOG_HEAP_TRUNCATE then Ok TagsUnset
  else if op =? XLOG_HEAP_HOT_UPDATE then Tags <$> polar_heap_xlog_update_get_bufftag_list r
  else if op =? XLOG_HEAP_CONFIRM then Tags <$> single_bufftag_list r
  else if op =? XLOG_HEAP_LOCK then Tags <$> polar_heap_lock_get_bufftag_list r
  else if op =? XLOG_HEAP_INPLACE then Tags <$> single_bufftag_list r
  else Err EPanic.

Definition polar_heap2_idx_get_bufftag_list (r : XLogReaderState) : res tag_result :=
  let op := heap_op r in
  if (op =? XLOG_HEAP2_CLEAN) || (op =? XLOG_HEAP2_FREEZE_PAGE) then Tags <$> single_bufftag_list r
  else if op =? XLOG_HEAP2_CLEANUP_INFO then Ok TagsUnset
  else if op =? XLOG_HEAP2_VISIBLE then
    Tags <$> (t1 ← tag_or_uninit r 1; l ← put_tag_ptr 2 [] t1; t0 ← tag_or_uninit r 0; put_tag_ptr 2 l t0)
  else if op =? XLOG_HEAP2_MULTI_INSERT then Tags <$> polar_heap_multi_insert_get_bufftag_list r
  else if op =? XLOG_HEAP2_LOCK_UPDATED then Tags <$> polar_heap_lock_update_get_bufftag_list r
  else if op =? XLOG_HEAP2_NEW_CID then Ok TagsUnset
  else if op =? XLOG_HEAP2_REWRITE then Ok (Tags [])
  else Err EPanic.

Fixpoint fpi_tags (r : XLogReaderState) (id : Z) (n : nat) (l : list BufferTag) : res (list BufferTag) :=
  match n with
  | O => Ok l
  | S n => t ← tag_or_uninit r id; l ← put_tag (max_block_id r) l t; fpi_tags r (id + 1) n l
  end.

(** The array is allocated with [max_block_id] entries. *)
Definition polar_xlog_idx_get_bufftag_list (r : XLogReaderState) : res tag_result :=
  if negb (rec_info r =? XLOG_FPI) && negb (rec_info r =? XLOG_FPI_FOR_HINT) then Ok NotParsed
  else Tags <$> fpi_tags r 0 (Z.to_nat (max_block_id r + 1)) [].

Definition polar_seq_idx_get_bufftag_list (r : XLogReaderState) : res tag_result :=
  if rec_info r =? XLOG_SEQ_LOG then Tags <$> single_bufftag_list r else Err EPanic.

(** ** Redo of full-page images, sequences and generic records *)

Fixpoint xlog_idx_fpi_loop (st : dbstate) (r : XLogReaderState) (tag : BufferTag) (buffer : Buffer)
  (id : Z) (n : nat) : redo_result :=
  match n with
  | O => Ok (st, buffer, BLK_NOTFOUND)
  | S n =>
      page_tag ← POLAR_GET_LOG_TAG r id;
      if BUFFERTAGS_EQUAL tag page_tag then POLAR_READ_BUFFER_FOR_REDO st r id
      else xlog_idx_fpi_loop st r tag buffer (id + 1) n
  end.
Definition xlog_idx_fpi_redo (st : dbstate) (r : XLogReaderState) (tag : BufferTag) (buffer : Buffer)
  : redo_result := xlog_idx_fpi_loop st r tag buffer 0 (Z.to_nat (max_block_id r + 1)).

Definition polar_xlog_idx_redo (st : dbstate) (r : XLogReaderState) (tag : BufferTag) (buffer : Buffer)
  : redo_result :=
  if (rec_info r =? XLOG_FPI) || (rec_info r =? XLOG_FPI_FOR_HINT) then xlog_idx_fpi_redo st r tag buffer
  else Err EPanic.

(** [xl_seq_rec] is a [RelFileNode], 12 bytes; [sequence_magic] is 4 bytes. *)
Definition SEQ_MAGIC : Z := 0x1717.
Definition sizeof_xl_seq_rec : Z := 12.

Definition seq_page (r : XLogReaderState) : res page :=
  let localpage := PageInit BLCKSZ 4 in
  let localpage := mput 4 localpage (pd_special localpage) SEQ_MAGIC in
  item ← load (main_data r) sizeof_xl_seq_rec (zlen (main_data r) - sizeof_xl_seq_rec);
  '(localpage, off) ← PageAddItem localpage item FirstOffsetNumber false false;
  if off =? InvalidOffsetNumber then Err EPanic else
  Ok (PageSetLSN localpage (EndRecPtr r)).

Definition polar_seq_xlog_redo (st : dbstate) (r : XLogReaderState) (tag : BufferTag) (buffer : Buffer)
  : redo_result :=
  tag0 ← POLAR_GET_LOG_TAG r 0;
  if negb (BUFFERTAGS_EQUAL tag0 tag) then Ok (st, buffer, BLK_NOTFOUND) else
  '(st, buffer) ← POLAR_INIT_BUFFER_FOR_REDO st r 0 buffer;
  _ ← BufferGetPage st buffer;
  localpage ← seq_page r;
  Ok (buf_write st buffer localpage, buffer, BLK_NEEDS_REDO).

Definition polar_seq_idx_redo (st : dbstate) (r : XLogReaderState) (tag : BufferTag) (buffer : Buffer)
  : redo_result :=
  if rec_info r =? XLOG_SEQ_LOG then polar_seq_xlog_redo st r tag buffer else Err EPanic.

(** [applyPageRedo] of [generic_xlog.c]: fragments of offset, length, bytes. *)
Fixpoint applyPageRedo_loop (p : page) (delta : list Z) (ptr : Z) (fuel : nat) : res page :=
  if ptr <? zlen delta then
    match fuel with
    | O => Err EFuel
    | S fuel =>
        offset ← rd 2 delta ptr;
        length ← rd 2 delta (ptr + 2);
        bs ← load delta (ptr + 4) length;
        p ← store p offset bs;
        applyPageRedo_loop p delta (ptr + 4 + length) fuel
    end
  else Ok p.
Definition applyPageRedo (p : page) (delta : list Z) : res page :=
  applyPageRedo_loop p delta 0 (length delta).

(** [memset] of the hole between [pd_lower] and [pd_upper]. *)
Definition zero_hole (p : page) : res page :=
  store p (pd_lower p) (replicate (Z.to_nat (pd_upper p - pd_lower p)) 0).

Definition generic_page (r : XLogReaderState) (id : Z) (p : page) : res page :=
  p ← applyPageRedo p (block_bytes r id);
  if pd_upper p <? pd_lower p then Err EOob else
  p ← zero_hole p;
  Ok (PageSetLSN p (EndRecPtr r)).

Fixpoint generic_redo_loop (st : dbstate) (r : XLogReaderState) (tag : BufferTag) (buffer : Buffer)
  (id : Z) (n : nat) : redo_result :=
  match n with
  | O => Ok (st, buffer, BLK_NOTFOUND)
  | S n =>
      match XLogRecGetBlockTag r id with
      | None => generic_redo_loop st r tag buffer (id + 1) n
      | Some page_tag =>
          if BUFFERTAGS_EQUAL tag page_tag then
            x ← XLogReadBufferForRedo st r id;
            on_redo x (generic_page r id)
          else generic_redo_loop st r tag buffer (id + 1) n
      end
  end.
Definition polar_generic_idx_redo (st : dbstate) (r : XLogReaderState) (tag : BufferTag) (buffer : Buffer)
  : redo_result := generic_redo_loop st r tag buffer 0 (Z.to_nat (max_block_id r + 1)).

Fixpoint generic_tags (r : XLogReaderState) (id : Z) (n : nat) (l : list BufferTag) : res (list BufferTag) :=
  match n with
  | O => Ok l
  | S n =>
      l ← (if XLogRecHasBlockRef r id then t ← tag_or_uninit r id; put_tag_ptr 4 l t else Ok l);
      generic_tags r (id + 1) n l
  end.
Definition polar_generic_idx_get_bufftag_list (r : XLogReaderState) : res tag_result :=
  Tags <$> generic_tags r 0 (Z.to_nat (MAX_GENERIC_XLOG_PAGES + 1)) [].
