(* ===== verification/Btree.v ===== *)
(** * B-tree pages and tuples

    The parts of nbtree that replay uses: the special space of a B-tree page
    ([BTPageOpaqueData]), index tuples with their posting lists
    ([nbtdedup.c]), the rebuilding of a page from its tuples
    ([_bt_restore_page]) and the merging of duplicates.  An index tuple is the
    list of its bytes; reads through a pointer into a page or into record data
    are checked against the block they point into. *)

From S2P Require Import Prelude Mem Page PageAdd PageIndex PageCompact Buffer.

(** ** Index tuples *)

Definition sizeof_IndexTupleData : Z := 8.
Definition sizeof_ItemPointerData : Z := 6.
Definition INDEX_SIZE_MASK : Z := 0x1FFF.
Definition INDEX_AM_RESERVED_BIT : Z := 0x2000.
Definition INDEX_ALT_TID_MASK : Z := INDEX_AM_RESERVED_BIT.
Definition BT_OFFSET_MASK : Z := 0x0FFF.
Definition BT_STATUS_OFFSET_MASK : Z := 0xF000.
Definition BT_IS_POSTING : Z := 0x2000.

(** The fields of a tuple at address [a]: [t_tid] (block number in two
    halves, offset number) and [t_info]. *)
Definition t_info (m : mem) (a : Z) : Z := mget 2 m (a + 6).
Definition set_t_info (m : mem) (a v : Z) : mem := mput 2 m (a + 6) v.
Definition IndexTupleSize (m : mem) (a : Z) : Z := Z.land (t_info m a) INDEX_SIZE_MASK.

Definition ItemPointerGetBlockNumberNoCheck (m : mem) (a : Z) : Z :=
  Z.lor (Z.shiftl (mget 2 m a) 16) (mget 2 m (a + 2)).
Definition ItemPointerGetOffsetNumberNoCheck (m : mem) (a : Z) : Z := mget 2 m (a + 4).
Definition ItemPointerSetBlockNumber (m : mem) (a blk : Z) : mem :=
  mput 2 (mput 2 m a (Z.shiftr blk 16)) (a + 2) blk.
Definition ItemPointerSetOffsetNumber (m : mem) (a off : Z) : mem := mput 2 m (a + 4) off.

(** [CopyIndexTuple] of the tuple at [a]. *)
Definition CopyIndexTuple (m : mem) (a : Z) : res (list Z) :=
  if in_range m a sizeof_IndexTupleData then load m a (IndexTupleSize m a) else Err EOob.

(** ** Posting lists *)

Definition BTreeTupleIsPivot (t : list Z) : bool :=
  if negb (has_flag (t_info t 0) INDEX_ALT_TID_MASK) then false
  else negb (has_flag (ItemPointerGetOffsetNumberNoCheck t 0) BT_IS_POSTING).
Definition BTreeTupleIsPosting (t : list Z) : bool :=
  if negb (has_flag (t_info t 0) INDEX_ALT_TID_MASK) then false
  else has_flag (ItemPointerGetOffsetNumberNoCheck t 0) BT_IS_POSTING.
Definition BTreeTupleSetPosting (t : list Z) (nhtids postingoffset : Z) : list Z :=
  let t := set_t_info t 0 (Z.lor (t_info t 0) INDEX_ALT_TID_MASK) in
  let t := ItemPointerSetOffsetNumber t 0 (Z.lor nhtids BT_IS_POSTING) in
  ItemPointerSetBlockNumber t 0 postingoffset.
Definition BTreeTupleGetNPosting (t : list Z) : Z :=
  Z.land (ItemPointerGetOffsetNumberNoCheck t 0) BT_OFFSET_MASK.
Definition BTreeTupleGetPostingOffset (t : list Z) : Z := ItemPointerGetBlockNumberNoCheck t 0.

(** The address of entry [n] of the posting list. *)
Definition BTreeTupleGetPostingN (t : list Z) (n : Z) : Z :=
  BTreeTupleGetPostingOffset t + sizeof_ItemPointerData * n.

Definition BTreeTupleGetMaxHeapTID (t : list Z) : res (list Z) :=
  if BTreeTupleIsPosting t then load t (BTreeTupleGetPostingN t (BTreeTupleGetNPosting t - 1)) sizeof_ItemPointerData
  else load t 0 sizeof_ItemPointerData.

Definition BTreeTupleGetDownLink (m : mem) (a : Z) : Z := ItemPointerGetBlockNumberNoCheck m a.
Definition BTreeTupleSetDownLink (m : mem) (a blkno : Z) : mem := ItemPointerSetBlockNumber m a blkno.

Definition BTreeTupleSetNAtts (t : list Z) (nkeyatts : Z) : list Z :=
  ItemPointerSetOffsetNumber (set_t_info t 0 (Z.lor (t_info t 0) INDEX_ALT_TID_MASK)) 0 nkeyatts.
Definition BTreeTupleSetTopParent (t : list Z) (blkno : Z) : list Z :=
  BTreeTupleSetNAtts (ItemPointerSetBlockNumber t 0 blkno) 0.

(** The heap TIDs of a tuple that is not a pivot. *)
Definition tuple_htids (t : list Z) : res (list Z) :=
  if BTreeTupleIsPosting t
  then load t (BTreeTupleGetPostingOffset t) (sizeof_ItemPointerData * BTreeTupleGetNPosting t)
  else load t 0 sizeof_ItemPointerData.

(** The result is the new posting list and the final new item. *)
Definition _bt_swap_posting (newitem oposting : list Z) (postingoff : Z) : res (list Z * list Z) :=
  let nhtids := BTreeTupleGetNPosting oposting in
  let nposting := oposting in
  let replacepos := BTreeTupleGetPostingN nposting postingoff in
  let replaceposright := BTreeTupleGetPostingN nposting (postingoff + 1) in
  let nmovebytes := (nhtids - postingoff - 1) * sizeof_ItemPointerData in
  moved ← load nposting replacepos nmovebytes;
  nposting ← store nposting replaceposright moved;
  tid ← load newitem 0 sizeof_ItemPointerData;
  nposting ← store nposting replacepos tid;
  maxtid ← BTreeTupleGetMaxHeapTID oposting;
  newitem ← store newitem 0 maxtid;
  Ok (nposting, newitem).

(** The size of a tuple with [nhtids] heap TIDs after a key of [keysize]. *)
Definition posting_size (keysize nhtids : Z) : Z :=
  if 1 <? nhtids then MAXALIGN (keysize + nhtids * sizeof_ItemPointerData) else keysize.

(** [palloc0], the copy of the key and the new size. *)
Definition posting_base (base : list Z) (keysize newsize : Z) : res (list Z) :=
  key ← load base 0 keysize;
  itup ← store (replicate (Z.to_nat newsize) 0) 0 key;
  let info := Z.lor (clear_flag (t_info itup 0) INDEX_SIZE_MASK) newsize in
  Ok (set_t_info itup 0 info).

(** Put the heap TIDs into the tuple: as a posting list, or as its [t_tid]. *)
Definition posting_fill (itup : list Z) (keysize nhtids : Z) (htids : list Z) : res (list Z) :=
  if 1 <? nhtids then
    let itup := BTreeTupleSetPosting itup nhtids keysize in
    store itup (BTreeTupleGetPostingOffset itup) htids
  else store (set_t_info itup 0 (clear_flag (t_info itup 0) INDEX_ALT_TID_MASK)) 0 htids.

Definition _bt_form_posting (base htids : list Z) (nhtids : Z) : res (list Z) :=
  let keysize := if BTreeTupleIsPosting base then BTreeTupleGetPostingOffset base else IndexTupleSize base 0 in
  let newsize := posting_size keysize nhtids in
  itup ← posting_base base keysize newsize;
  htids ← load htids 0 (if 1 <? nhtids then sizeof_ItemPointerData * nhtids else sizeof_ItemPointerData);
  posting_fill itup keysize nhtids htids.

(** The loop of [_bt_update_posting]: the TIDs [i ..] without the deleted
    ones. *)
Fixpoint remaining_htids (orig : list Z) (i : Z) (n : nat) (deletetids : list Z) : res (list Z) :=
  match n with
  | O => Ok []
  | S n =>
      match deletetids with
      | d :: rest =>
          if d =? i then remaining_htids orig (i + 1) n rest
          else
            t ← load orig (BTreeTupleGetPostingN orig i) sizeof_ItemPointerData;
            ts ← remaining_htids orig (i + 1) n deletetids;
            Ok (t ++ ts)
      | [] =>
          t ← load orig (BTreeTupleGetPostingN orig i) sizeof_ItemPointerData;
          ts ← remaining_htids orig (i + 1) n [];
          Ok (t ++ ts)
      end
  end.

Definition _bt_update_posting (origtuple : list Z) (deletetids : list Z) : res (list Z) :=
  let nhtids := BTreeTupleGetNPosting origtuple - zlen deletetids in
  let keysize := BTreeTupleGetPostingOffset origtuple in
  let newsize := posting_size keysize nhtids in
  itup ← posting_base origtuple keysize newsize;
  htids ← remaining_htids origtuple 0 (Z.to_nat (BTreeTupleGetNPosting origtuple)) deletetids;
  posting_fill itup keysize nhtids htids.

(** ** The special space *)

Definition sizeof_BTPageOpaqueData : Z := 16.
Definition BTP_LEAF : Z := 1.
Definition BTP_ROOT : Z := 2.
Definition BTP_DELETED : Z := 4.
Definition BTP_META : Z := 8.
Definition BTP_HALF_DEAD : Z := 16.
Definition BTP_HAS_GARBAGE : Z := 64.
Definition BTP_INCOMPLETE_SPLIT : Z := 128.
Definition P_NONE : Z := 0.
Definition P_HIKEY : Z := 1.
Definition P_FIRSTKEY : Z := 2.
Definition BTREE_METAPAGE : Z := 0.
Definition BTREE_MAGIC : Z := 0x053162.

(** [PageGetSpecialPointer], and the fields of [BTPageOpaqueData] there. *)
Definition PageGetSpecialPointer (p : page) : Z := pd_special p.
Definition btpo_prev : Z := 0.
Definition btpo_next : Z := 4.
Definition btpo_level : Z := 8.
Definition btpo_flags : Z := 12.
Definition btpo_cycleid : Z := 14.

Definition opaque_get (n : nat) (p : page) (opaque field : Z) : res Z := rd n p (opaque + field).
Definition opaque_set (n : nat) (p : page) (opaque field v : Z) : res page := store p (opaque + field) (le_bytes n v).

Definition P_RIGHTMOST (p : page) (opaque : Z) : res bool :=
  next ← opaque_get 4 p opaque btpo_next; Ok (next =? P_NONE).
Definition P_FIRSTDATAKEY (p : page) (opaque : Z) : res Z :=
  rightmost ← P_RIGHTMOST p opaque; Ok (if (rightmost : bool) then P_HIKEY else P_FIRSTKEY).

(** All fields of the special space at once, in the order of the struct. *)
Definition set_opaque (p : page) (prev next level flags cycleid : Z) : res page :=
  let op := PageGetSpecialPointer p in
  p ← opaque_set 4 p op btpo_prev prev;
  p ← opaque_set 4 p op btpo_next next;
  p ← opaque_set 4 p op btpo_level level;
  p ← opaque_set 2 p op btpo_flags flags;
  opaque_set 2 p op btpo_cycleid cycleid.

Definition clear_btpo_flag (p : page) (mask : Z) : res page :=
  let op := PageGetSpecialPointer p in
  flags ← opaque_get 2 p op btpo_flags;
  opaque_set 2 p op btpo_flags (clear_flag flags mask).

Definition _bt_pageinit : page := PageInit BLCKSZ sizeof_BTPageOpaqueData.

(** ** Rebuilding a page *)

Definition OffsetNumberPrev (off : Z) : Z := u16 (off - 1).

(** [PageAddItem] without overwriting; a refusal is the given error. *)
Definition bt_add_item (p : page) (item : list Z) (off : Z) (e : err) : res page :=
  '(p, o) ← PageAddItem p item off false false;
  if o =? InvalidOffsetNumber then Err e else Ok p.

(** The tuples of the data, in order; [cap] is the room left in [items]. *)
Fixpoint scan_items (cap : nat) (data : list Z) (from : Z) : res (list (list Z)) :=
  if from <? zlen data then
    match cap with
    | O => Err EOob
    | S cap =>
        if negb (in_range data from sizeof_IndexTupleData) then Err EOob else
        let itemsz := MAXALIGN (IndexTupleSize data from) in
        item ← load data from itemsz;
        items ← scan_items cap data (from + itemsz);
        Ok (item :: items)
    end
  else Ok [].

(** The second loop, over the tuples from the last to the first: tuple [k] of
    that order gets offset number [k]. *)
Fixpoint add_in_order (p : page) (items : list (list Z)) (off : Z) (e : err) : res page :=
  match items with
  | [] => Ok p
  | it :: items => p ← bt_add_item p it off e; add_in_order p items (off + 1) e
  end.

Definition _bt_restore_page (p : page) (data : list Z) : res page :=
  items ← scan_items (Z.to_nat MaxIndexTuplesPerPage) data 0;
  add_in_order p (rev items) 1 EPanic.

(** ** Deduplication *)

(** [BTMaxItemSize]; the fields of the state that only the original
    deduplication pass reads are left out. *)
Definition MAXALIGN_DOWN (x : Z) : Z := Z.land x (Z.lnot 7).
Definition BTMaxItemSize (p : page) : Z :=
  MAXALIGN_DOWN ((PageGetPageSize p -
    MAXALIGN (SizeOfPageHeaderData + 3 * sizeof_ItemIdData + 3 * sizeof_ItemPointerData) -
    MAXALIGN sizeof_BTPageOpaqueData) / 3).

Record BTDedupStateData : Type := mkDedup {
  maxpostingsize : Z;
  base : list Z;
  baseoff : Z;
  basetupsize : Z;
  htids : list Z;
  nhtids : Z;
  nitems : Z;
  nintervals : Z }.

(** The buffer for heap TIDs has [maxpostingsize] bytes. *)
Definition _bt_dedup_start_pending (s : BTDedupStateData) (b : list Z) (off : Z) : res BTDedupStateData :=
  ids ← tuple_htids b;
  if maxpostingsize s <? zlen ids then Err EOob else
  if BTreeTupleIsPosting b
  then Ok (mkDedup (maxpostingsize s) b off (BTreeTupleGetPostingOffset b) ids (BTreeTupleGetNPosting b) 1 (nintervals s))
  else Ok (mkDedup (maxpostingsize s) b off (IndexTupleSize b 0) ids 1 1 (nintervals s)).

(** [None] is the return value [false]. *)
Definition _bt_dedup_save_htid (s : BTDedupStateData) (itup : list Z) : res (option BTDedupStateData) :=
  ids ← tuple_htids itup;
  let n := if BTreeTupleIsPosting itup then BTreeTupleGetNPosting itup else 1 in
  let mergedtupsz := MAXALIGN (basetupsize s + (nhtids s + n) * sizeof_ItemPointerData) in
  if maxpostingsize s <? mergedtupsz then Ok None
  else Ok (Some (mkDedup (maxpostingsize s) (base s) (baseoff s) (basetupsize s) (htids s ++ ids) (nhtids s + n)
                   (nitems s + 1) (nintervals s))).

Definition _bt_dedup_finish_pending (newpage : page) (s : BTDedupStateData) : res (page * BTDedupStateData) :=
  let tupoff := OffsetNumberNext (PageGetMaxOffsetNumber newpage) in
  let reset k := mkDedup (maxpostingsize s) (base s) (baseoff s) (basetupsize s) (htids s) 0 0 k in
  if nitems s =? 1 then
    tup ← load (base s) 0 (IndexTupleSize (base s) 0);
    newpage ← bt_add_item newpage tup tupoff EError;
    Ok (newpage, reset (nintervals s))
  else
    final ← _bt_form_posting (base s) (htids s) (nhtids s);
    tup ← load final 0 (IndexTupleSize final 0);
    newpage ← bt_add_item newpage tup tupoff EError;
    Ok (newpage, reset (nintervals s + 1)).
