(* ===== verification/BtreePage.v ===== *)
(** * Building B-tree pages

    What the loops that rebuild a page do on the slots: adding an item at an
    offset number inserts it there, [_bt_restore_page] gives back the items in
    their order, the special space stays as it was. *)

From S2P Require Import Prelude Mem Page PageAdd PageIndex PageCompact Buffer Btree.

(** ** One item *)

(** Everything but the slots: header fields and special space. *)
Record same_rest (p q : page) : Prop := {
  rest_special : pd_special q = pd_special p;
  rest_reads o l : 0 ≤ o → o + l ≤ 12 ∨ (16 ≤ o ∧ o + l ≤ 24) ∨ pd_special p ≤ o → mread q o l = mread p o l }.

#[export] Instance same_rest_preorder : PreOrder same_rest.
Proof.
  split; [by constructor|]. intros p q s [Hs Hr] [Hs' Hr']. constructor; [congruence|]. intros o l Ho Hd.
  rewrite Hr', Hr; [done|done|done|done|by rewrite Hs].
Qed.

(** A slot with the bytes of an item. *)
Abbreviation item_slot := (mkSlot LP_NORMAL 0).

(** The room a list of items takes, with their line pointers. *)
Fixpoint items_space (items : list (list Z)) : Z :=
  match items with [] => 0 | it :: items => MAXALIGN (zlen it) + 4 + items_space items end.

Lemma items_space_app a b : items_space (a ++ b) = items_space a + items_space b.
Proof. induction a as [|x a IH]; cbn [app items_space]; lia. Qed.

Lemma items_space_nonneg items : 0 ≤ items_space items.
Proof.
  induction items as [|x l IH]; cbn [items_space]; [lia|]. pose proof (MAXALIGN_bounds (zlen x)). unfold zlen in *. lia.
Qed.

Lemma add_item_spec p item off :
  page_wf p → Forall is_byte item → 0 < zlen item → 1 ≤ off ≤ PageGetMaxOffsetNumber p + 1 →
  MAXALIGN (zlen item) + 4 ≤ pd_upper p - pd_lower p →
  ∃ q, PageAddItem p item off false false = Ok (q, off) ∧ page_wf q ∧ same_rest p q ∧
    page_slots q = take (Z.to_nat (off - 1)) (page_slots p) ++ item_slot item :: drop (Z.to_nat (off - 1)) (page_slots p) ∧
    pd_lower q = pd_lower p + 4 ∧ pd_upper q = pd_upper p - MAXALIGN (zlen item) ∧
    PageGetMaxOffsetNumber q = PageGetMaxOffsetNumber p + 1.
Proof.
  intros Hw Hb Hz Ho Hfit. pose proof (maxoff_small p (wf_hdr _ Hw)). pose proof (wf_hdr _ Hw) as Hh.
  set (sh := off <? PageGetMaxOffsetNumber p + 1). set (upper := pd_upper p - MAXALIGN (zlen item)).
  assert (Hins : (off =? PageGetMaxOffsetNumber p + 1) || sh = true) by (unfold sh; zcase; done || lia).
  assert (Hsh : sh = true → off < PageGetMaxOffsetNumber p + 1) by (unfold sh; intros; b2p; lia).
  assert (Hlow : pd_lower p + 4 = if (off =? PageGetMaxOffsetNumber p + 1) || sh then pd_lower p + 4 else pd_lower p) by (by rewrite Hins).
  assert (Hle : pd_lower p + 4 ≤ upper) by (unfold upper; lia).
  assert (Hadd : PageAddItem p item off false false =
    Ok (place_item p item off (PageGetMaxOffsetNumber p + 1) (pd_lower p + 4) upper sh, off)).
  { unfold PageAddItem, PageAddItemExtended. rewrite page_pointers_ok_wf by done. cbn [negb]. rewrite limit_eq by done.
    unfold select_offset. rewrite limit_eq by done.
    assert (OffsetNumberIsValid off = true) as ->.
    { unfold OffsetNumberIsValid, InvalidOffsetNumber. change MaxOffsetNumber with 2048. apply andb_true_intro; split; zcase; done || lia. }
    change (has_flag (Z.lor 0 0) PAI_OVERWRITE) with false. change (has_flag (Z.lor 0 0) PAI_IS_HEAP) with false. cbn [andb].
    fold sh. destruct (Z.ltb_spec (PageGetMaxOffsetNumber p + 1) off); [lia|]. rewrite Hins. unfold sizeof_ItemIdData. fold upper.
    destruct (Z.ltb_spec upper (pd_lower p + 4)); [lia|done]. }
  eexists. split; [exact Hadd|].
  destruct (place_fields p item off (pd_lower p + 4) upper sh) as (Hlo & Hup & Hsp & _); try done.
  split_and!; [by eapply place_wf| |by rewrite (place_slots p item off (pd_lower p + 4) upper sh), Hins|done|done|].
  - constructor; [done|]. intros o l Ho' Hd. eapply place_reads; try done. destruct Hh. lia.
  - rewrite (place_maxoff p item off (pd_lower p + 4) upper sh), Hins by done. done.
Qed.

Lemma bt_add_item_spec p item off e :
  page_wf p → Forall is_byte item → 0 < zlen item → 1 ≤ off ≤ PageGetMaxOffsetNumber p + 1 →
  MAXALIGN (zlen item) + 4 ≤ pd_upper p - pd_lower p →
  ∃ q, bt_add_item p item off e = Ok q ∧ page_wf q ∧ same_rest p q ∧
    page_slots q = take (Z.to_nat (off - 1)) (page_slots p) ++ item_slot item :: drop (Z.to_nat (off - 1)) (page_slots p) ∧
    pd_lower q = pd_lower p + 4 ∧ pd_upper q = pd_upper p - MAXALIGN (zlen item) ∧
    PageGetMaxOffsetNumber q = PageGetMaxOffsetNumber p + 1.
Proof.
  intros Hw Hb Hz Ho Hfit. destruct (add_item_spec p item off Hw Hb Hz Ho Hfit) as (q & Hadd & Hq). exists q. split; [|exact Hq].
  unfold bt_add_item. rewrite Hadd. cbn [mbind res_bind]. unfold InvalidOffsetNumber. by rewrite (proj2 (Z.eqb_neq off 0)) by lia.
Qed.

Lemma slots_maxoff p : Z.of_nat (length (page_slots p)) = PageGetMaxOffsetNumber p.
Proof. rewrite length_page_slots. pose proof (PageGetMaxOffsetNumber_nonneg p). lia. Qed.

(** Appending an item. *)
Lemma bt_append_spec p item off e :
  page_wf p → Forall is_byte item → 0 < zlen item → off = PageGetMaxOffsetNumber p + 1 →
  MAXALIGN (zlen item) + 4 ≤ pd_upper p - pd_lower p →
  ∃ q, bt_add_item p item off e = Ok q ∧ page_wf q ∧ same_rest p q ∧ page_slots q = page_slots p ++ [item_slot item] ∧
    pd_lower q = pd_lower p + 4 ∧ pd_upper q = pd_upper p - MAXALIGN (zlen item) ∧
    PageGetMaxOffsetNumber q = PageGetMaxOffsetNumber p + 1.
Proof.
  intros Hw Hb Hz -> Hfit. pose proof (PageGetMaxOffsetNumber_nonneg p).
  destruct (bt_add_item_spec p item (PageGetMaxOffsetNumber p + 1) e) as (q & ? & ? & ? & Hs & ?); [done..|lia|done|].
  exists q. split_and!; try done; [|tauto..]. rewrite Hs.
  rewrite take_ge, drop_ge by (pose proof (slots_maxoff p); lia). done.
Qed.

(** ** A list of items *)

Definition good_item (it : list Z) : Prop := Forall is_byte it ∧ 0 < zlen it.

Lemma add_in_order_spec e items : ∀ p off,
  page_wf p → Forall good_item items → off = PageGetMaxOffsetNumber p + 1 → items_space items ≤ pd_upper p - pd_lower p →
  ∃ q, add_in_order p items off e = Ok q ∧ page_wf q ∧ same_rest p q ∧
    page_slots q = page_slots p ++ (item_slot <$> items) ∧ pd_upper q - pd_lower q = pd_upper p - pd_lower p - items_space items.
Proof.
  induction items as [|it items IH]; intros p off Hw Hg -> Hfit; cbn [add_in_order].
  - exists p. cbn. rewrite app_nil_r. split_and!; [done..|lia].
  - apply Forall_cons in Hg as [[Hb Hz] Hg]. pose proof (MAXALIGN_bounds (zlen it)). cbn [items_space] in *.
    pose proof (items_space_nonneg items).
    destruct (bt_append_spec p it _ e Hw Hb Hz eq_refl) as (q & Hq & Hwq & Hrq & Hsq & Hl & Hu & Hm); [lia|].
    rewrite Hq. cbn [mbind res_bind].
    destruct (IH q (PageGetMaxOffsetNumber p + 1 + 1) Hwq Hg ltac:(lia) ltac:(lia)) as (q' & Hq' & Hw' & Hr' & Hs' & Hf').
    exists q'. rewrite Hs', Hsq, <-app_assoc. split_and!; [done|done|by etrans|done|cbn; lia].
Qed.

(** ** [_bt_restore_page] *)

(** The bytes of a tuple as the data carries it: a whole number of aligned
    words, its size in [t_info]. *)
Definition logged_tuple (it : list Z) : Prop :=
  Forall is_byte it ∧ sizeof_IndexTupleData ≤ zlen it ∧ MAXALIGN (IndexTupleSize it 0) = zlen it.

Lemma tuple_size_app pre it post : Forall is_byte it → sizeof_IndexTupleData ≤ zlen it →
  IndexTupleSize (pre ++ it ++ post) (zlen pre) = IndexTupleSize it 0.
Proof.
  intros _ Hz. unfold IndexTupleSize, t_info, mget, sizeof_IndexTupleData in *. do 2 f_equal. unfold mread, zlen in *.
  rewrite drop_app_ge, drop_app_le by lia. replace (Z.to_nat (Z.of_nat (length pre) + 6) - length pre)%nat with 6%nat by lia.
  rewrite take_app_le by (rewrite length_drop; lia). done.
Qed.

Lemma mread_middle pre it post : mread (pre ++ it ++ post) (zlen pre) (zlen it) = it.
Proof. unfold mread, zlen. rewrite !Nat2Z.id, drop_app_length, take_app_length. done. Qed.

Lemma scan_items_spec items : ∀ cap pre,
  Forall logged_tuple items → (length items ≤ cap)%nat → scan_items cap (pre ++ concat items) (zlen pre) = Ok items.
Proof.
  induction items as [|it items IH]; intros cap pre Hl Hc.
  - cbn [concat]. rewrite app_nil_r. unfold scan_items. destruct cap; rewrite Z.ltb_irrefl; done.
  - apply Forall_cons in Hl as [(Hb & Hz & Ha) Hl]. cbn [concat length] in *. destruct cap as [|cap]; [lia|]. cbn [scan_items].
    unfold sizeof_IndexTupleData in *. destruct (Z.ltb_spec (zlen pre) (zlen (pre ++ it ++ concat items))) as [_|Hx].
    2:{ unfold zlen in *. rewrite !length_app in Hx. lia. }
    assert (Hin : ∀ n, n ≤ zlen it → 0 ≤ n → in_range (pre ++ it ++ concat items) (zlen pre) n = true).
    { intros n Hn Hn0. apply in_range_true. unfold zlen in *. rewrite !length_app. lia. }
    rewrite Hin by lia. cbn [negb]. rewrite tuple_size_app, Ha by done. unfold load. rewrite Hin by lia. rewrite mread_middle.
    cbn [mbind res_bind]. rewrite app_assoc. replace (zlen pre + zlen it) with (zlen (pre ++ it)) by (unfold zlen; rewrite length_app; lia).
    rewrite IH by (done || lia). done.
Qed.

Lemma logged_good it : logged_tuple it → good_item it.
Proof. intros (Hb & Hz & _). unfold sizeof_IndexTupleData in Hz. split; [done|lia]. Qed.

Lemma restore_page_spec p items :
  page_wf p → page_slots p = [] → Forall logged_tuple items → (length items ≤ Z.to_nat MaxIndexTuplesPerPage)%nat →
  items_space items ≤ pd_upper p - pd_lower p →
  ∃ q, _bt_restore_page p (concat (rev items)) = Ok q ∧ page_wf q ∧ same_rest p q ∧ page_slots q = item_slot <$> items.
Proof.
  intros Hw Hs Hl Hn Hfit. unfold _bt_restore_page.
  rewrite (scan_items_spec (rev items) _ []) by (rewrite ?length_rev; (done || by apply Forall_rev)). cbn [mbind res_bind].
  rewrite rev_involutive. pose proof (slots_maxoff p) as Hm. rewrite Hs in Hm. cbn in Hm.
  destruct (add_in_order_spec EPanic items p 1 Hw) as (q & Hq & Hwq & Hrq & Hsq & _); [|lia|done|].
  - eapply Forall_impl; [exact Hl|apply logged_good].
  - exists q. rewrite Hsq, Hs. done.
Qed.

(** ** The special space *)

(** The fields of [BTPageOpaqueData]: previous and next page, level (or
    transaction), flags, cycle id. *)
Definition opaque_of (p : page) : Z * Z * Z * Z * Z :=
  (mget 4 p (pd_special p + btpo_prev), mget 4 p (pd_special p + btpo_next), mget 4 p (pd_special p + btpo_level),
   mget 2 p (pd_special p + btpo_flags), mget 2 p (pd_special p + btpo_cycleid)).

(** A B-tree page: well formed, with room for [BTPageOpaqueData] in the
    special space. *)
Record bt_wf (p : page) : Prop := {
  bt_page :> page_wf p;
  bt_special : pd_special p = BLCKSZ - sizeof_BTPageOpaqueData }.

(** A change that stays in the special space. *)
Record special_write (p q : page) : Prop := {
  sw_len : zlen q = zlen p;
  sw_bytes : Forall is_byte p → Forall is_byte q;
  sw_reads o l : 0 ≤ o → o + l ≤ pd_special p → mread q o l = mread p o l }.

Section special.
Context (p q : page) (Hw : page_wf p) (Hs : special_write p q).

Lemma special_get n o : 0 ≤ o → o + Z.of_nat n ≤ pd_special p → mget n q o = mget n p o.
Proof using Hs. intros. unfold mget. f_equal. by apply (sw_reads _ _ Hs). Qed.

Lemma special_hdr : pd_lower q = pd_lower p ∧ pd_upper q = pd_upper p ∧ pd_special q = pd_special p ∧
PageGetLSN q = PageGetLSN p ∧ PageGetPageSize q = PageGetPageSize p.
Proof using Hw Hs.
pose proof (wf_hdr _ Hw) as [_ _ L _ U _ S _ _]. assert (E : 24 ≤ pd_special p) by lia. clear L U S. pose proof special_get as G.
unfold pd_lower, pd_upper, pd_special, PageGetLSN, PageGetPageSize, pd_pagesize_version. unfold pd_special in E, G. rewrite !G by lia. done.
Qed.

Lemma special_itemid i : 1 ≤ i ≤ PageGetMaxOffsetNumber p → PageGetItemId q i = PageGetItemId p i.
Proof using Hw Hs.
intros Hi. pose proof (linp_addr_range _ _ (wf_hdr _ Hw) Hi). pose proof (wf_hdr _ Hw) as [].
unfold PageGetItemId. rewrite special_get by lia. done.
Qed.

Lemma special_maxoff : PageGetMaxOffsetNumber q = PageGetMaxOffsetNumber p.
Proof using Hw Hs. unfold PageGetMaxOffsetNumber. by rewrite (proj1 special_hdr). Qed.

Lemma special_page_wf : page_wf q.
Proof using Hw Hs.
destruct special_hdr as (Hl & Hu & Hsp & _). pose proof special_maxoff as Hm. pose proof Hw as [[] Hi Hd]. constructor.
- constructor; rewrite ?Hl, ?Hu, ?Hsp; try done; [by rewrite (sw_len _ _ Hs)|by apply (sw_bytes _ _ Hs)].
- intros i. rewrite Hm. intros Hr. rewrite special_itemid by done. unfold lp_in. rewrite Hu, Hsp. by apply Hi.
- intros i j. rewrite Hm. intros ??. rewrite !special_itemid by done. by apply Hd.
Qed.

Lemma special_slots : page_slots q = page_slots p.
Proof using Hw Hs.
apply page_slots_ext; [exact special_maxoff|]. rewrite special_maxoff. intros i Hi. unfold slot_at. rewrite special_itemid by done.
unfold slot_of, PageGetItemBytes. destruct (Z.eqb_spec (lp_len (PageGetItemId p i)) 0) as [|Hn]; [done|]. f_equal.
destruct (wf_item _ Hw i Hi Hn) as (Hlo & Hhi & _). pose proof (MAXALIGN_bounds (lp_len (PageGetItemId p i))).
pose proof (wf_hdr _ Hw) as []. apply (sw_reads _ _ Hs); lia.
Qed.
End special.

Lemma special_bt_wf p q : bt_wf p → special_write p q → bt_wf q.
Proof.
  intros Hw Hs. constructor; [exact (special_page_wf p q Hw Hs)|]. destruct (special_hdr p q Hw Hs) as (_ & _ & -> & _). apply Hw.
Qed.

#[export] Instance special_write_refl : Reflexive special_write.
Proof. by constructor. Qed.

Lemma special_write_trans p q s : bt_wf p → special_write p q → special_write q s → special_write p s.
Proof.
  intros Hw Hp Hq. destruct (special_hdr p q Hw Hp) as (_ & _ & Hsp & _). destruct Hp as [Hl Hb Hr], Hq as [Hl' Hb' Hr']. constructor; [congruence|auto|].
  intros o l Ho Hd. rewrite Hr' by lia. by apply Hr.
Qed.

(** Setting a field. *)
Lemma opaque_set_spec n p field v :
  bt_wf p → 0 ≤ field → field + Z.of_nat n ≤ sizeof_BTPageOpaqueData →
  opaque_set n p (pd_special p) field v = Ok (mput n p (pd_special p + field) v) ∧
  special_write p (mput n p (pd_special p + field) v).
Proof.
  intros Hw Hf Hn. pose proof (bt_special _ Hw) as Hb. pose proof (wf_hdr _ Hw) as []. unfold BLCKSZ, sizeof_BTPageOpaqueData in *. split.
  - unfold opaque_set, store. rewrite (proj2 (in_range_true _ _ _)); [done|]. rewrite zlen_le_bytes. lia.
  - constructor; [apply zlen_mput|intros; by apply mput_byte|]. intros o l Ho Hd. unfold mput.
    rewrite mread_mwrite_disj; [done|done|rewrite zlen_le_bytes; lia].
Qed.

Lemma opaque_get_spec n p field :
  bt_wf p → 0 ≤ field → field + Z.of_nat n ≤ sizeof_BTPageOpaqueData → opaque_get n p (pd_special p) field = Ok (mget n p (pd_special p + field)).
Proof.
  intros Hw Hf Hn. pose proof (bt_special _ Hw) as Hb. pose proof (wf_hdr _ Hw) as []. unfold BLCKSZ, sizeof_BTPageOpaqueData in *.
  unfold opaque_get. apply rd_ok; lia.
Qed.

(** The address of the special space of a B-tree page. *)
Definition opq : Z := BLCKSZ - sizeof_BTPageOpaqueData.

Lemma opaque_put n p field v :
  bt_wf p → 0 ≤ field → field + Z.of_nat n ≤ sizeof_BTPageOpaqueData →
  opaque_set n p opq field v = Ok (mput n p (opq + field) v) ∧
  bt_wf (mput n p (opq + field) v) ∧ special_write p (mput n p (opq + field) v).
Proof.
  intros Hw Hf Hn. destruct (opaque_set_spec n p field v Hw Hf Hn) as [He Hs]. rewrite (bt_special _ Hw) in He, Hs.
  split_and!; [done|by eapply special_bt_wf|done].
Qed.

(** Fields of the special space after writes to it. *)
Ltac opq_simpl :=
  unfold btpo_prev, btpo_next, btpo_level, btpo_flags, btpo_cycleid, opq, BLCKSZ, sizeof_BTPageOpaqueData in *;
  repeat first [rewrite mget_mput_same by (rewrite ?zlen_mput; simpl; lia) | rewrite mget_mput_disj by (simpl; lia)].

Lemma opaque_of_eq p : bt_wf p → opaque_of p = (mget 4 p (opq + btpo_prev), mget 4 p (opq + btpo_next), mget 4 p (opq + btpo_level),
  mget 2 p (opq + btpo_flags), mget 2 p (opq + btpo_cycleid)).
Proof. intros Hw. unfold opaque_of. by rewrite (bt_special _ Hw). Qed.

Lemma set_opaque_spec p prev next level flags cyc :
  bt_wf p → ∃ q, set_opaque p prev next level flags cyc = Ok q ∧ bt_wf q ∧ special_write p q ∧
    opaque_of q = (u32 prev, u32 next, u32 level, u16 flags, u16 cyc).
Proof.
  intros Hw. unfold set_opaque, PageGetSpecialPointer. rewrite (bt_special _ Hw). fold opq.
  pose proof (wf_len _ (wf_hdr _ Hw)) as Hz. unfold BLCKSZ in Hz.
  destruct (opaque_put 4 p btpo_prev prev Hw) as (-> & H1 & S1); [done..|]. cbn [mbind res_bind]. set (p1 := mput 4 p _ _) in *.
  destruct (opaque_put 4 p1 btpo_next next H1) as (-> & H2 & S2); [done..|]. cbn [mbind res_bind]. set (p2 := mput 4 p1 _ _) in *.
  destruct (opaque_put 4 p2 btpo_level level H2) as (-> & H3 & S3); [done..|]. cbn [mbind res_bind]. set (p3 := mput 4 p2 _ _) in *.
  destruct (opaque_put 2 p3 btpo_flags flags H3) as (-> & H4 & S4); [done..|]. cbn [mbind res_bind]. set (p4 := mput 2 p3 _ _) in *.
  destruct (opaque_put 2 p4 btpo_cycleid cyc H4) as (-> & H5 & S5); [done..|].
  eexists. split; [done|]. split_and!; [done| |].
  - eapply special_write_trans; [done|exact S1|]. eapply special_write_trans; [done|exact S2|].
    eapply special_write_trans; [done|exact S3|]. by eapply special_write_trans.
  - rewrite opaque_of_eq by done. unfold p4, p3, p2, p1. opq_simpl. done.
Qed.

(** ** New and temporary pages *)

Lemma bt_pageinit_eq : PageInit BLCKSZ sizeof_BTPageOpaqueData = _bt_pageinit.
Proof. unfold _bt_pageinit. reflexivity. Qed.

Lemma bt_pageinit_spec : bt_wf _bt_pageinit ∧ page_slots _bt_pageinit = [] ∧ pd_lower _bt_pageinit = 24 ∧ pd_upper _bt_pageinit = opq ∧
  PageGetPageSize _bt_pageinit = BLCKSZ.
Proof.
  assert (H : 0 ≤ sizeof_BTPageOpaqueData ≤ BLCKSZ - 24) by (unfold sizeof_BTPageOpaqueData, BLCKSZ; lia).
  pose proof (PageInit_wf _ H) as [Hw Hs]. pose proof (PageInit_fields _ H) as (_ & Hl & Hu & Hsp & Hps).
  rewrite bt_pageinit_eq in *. change (MAXALIGN sizeof_BTPageOpaqueData) with sizeof_BTPageOpaqueData in *. fold opq in *.
  split_and!; [constructor; [exact Hw|exact Hsp]|exact Hs|exact Hl|exact Hu|exact Hps].
Qed.

(** [PageGetTempPageCopySpecial]: an empty page with the special space of the
    original. *)
Lemma temp_page_spec p : bt_wf p → PageGetPageSize p = BLCKSZ →
  let t := PageGetTempPageCopySpecial p in
  bt_wf t ∧ page_slots t = [] ∧ pd_lower t = 24 ∧ pd_upper t = opq ∧ PageGetPageSize t = BLCKSZ ∧
  ∀ o l, opq ≤ o → mread t o l = mread p o l.
Proof.
  intros Hw Hps t. destruct bt_pageinit_spec as (Hi & Hs & Hl & Hu & Hz). pose proof (wf_len _ (wf_hdr _ Hw)) as Hlen.
  pose proof (wf_len _ (wf_hdr _ Hi)) as Hleni. pose proof (bt_special _ Hw) as Hsp. pose proof (bt_special _ Hi) as Hspi.
  assert (Ht : t = mwrite _bt_pageinit opq (mread p opq 16)).
  { unfold t, PageGetTempPageCopySpecial, PageGetSpecialSize. rewrite Hps, Hsp. cbn zeta.
    change (u16 (BLCKSZ - (BLCKSZ - sizeof_BTPageOpaqueData))) with sizeof_BTPageOpaqueData. rewrite bt_pageinit_eq, Hspi. fold opq. reflexivity. }
  clearbody t. subst t. set (t := mwrite _ _ _) in *. assert (Ht : t = mwrite _bt_pageinit opq (mread p opq 16)) by reflexivity. clearbody t.
  generalize dependent _bt_pageinit. intros ini Hi Hs Hl Hu Hz Hleni Hspi Ht.
  unfold opq, BLCKSZ, sizeof_BTPageOpaqueData in *.
  assert (Hm : zlen (mread p (8192 - 16) 16) = 16) by (apply zlen_mread; lia).
  assert (Hsw : special_write ini t).
  { rewrite Ht. constructor; [apply zlen_mwrite| |].
    - intros Hb. apply mwrite_byte; [done|]. apply mread_byte, (wf_bytes _ (wf_hdr _ Hw)).
    - intros o l Ho Hd. rewrite mread_mwrite_disj; [done|done|lia]. }
  destruct (special_hdr _ _ Hi Hsw) as (E1 & E2 & _ & _ & E3).
  split_and!; [by eapply special_bt_wf|by rewrite (special_slots _ _ Hi Hsw)|by rewrite E1|by rewrite E2|by rewrite E3|].
  intros o l Ho. rewrite Ht. apply list_eq. intros i. rewrite !mread_lookup by lia. destruct (decide _); [|done].
  rewrite mwrite_lookup by lia. rewrite Hm. destruct (decide _) as [Hd|Hd].
  - rewrite mread_lookup by lia. rewrite decide_True by lia. f_equal. lia.
  - rewrite !lookup_ge_None_2; [done|unfold zlen in *; lia..].
Qed.

(** [PageRestoreTempPage] of a whole page. *)
Lemma restore_temp_page q p : zlen q = BLCKSZ → zlen p = BLCKSZ → PageGetPageSize q = BLCKSZ → PageRestoreTempPage q p = q.
Proof.
  intros Hq Hp Hs. unfold PageRestoreTempPage. rewrite Hs. unfold mread, mwrite. rewrite take_ge by (unfold zlen in *; rewrite length_drop; lia).
  change (drop (Z.to_nat 0) q) with q. unfold in_range. rewrite Hq, Hp. change (_ && _) with true. cbv iota.
  rewrite drop_ge by (unfold zlen in *; lia). change (take (Z.to_nat 0) p) with (@nil Z). by rewrite app_nil_r.
Qed.
