(* ===== verification/BtreePosting.v ===== *)
(** * Posting lists

    The heap TIDs of a tuple, and what splitting, forming and shortening a
    posting list does to them. *)

From Stdlib Require Import Sorted.
From S2P Require Import Prelude Mem Page PageAdd Buffer Btree.

(** ** The heap TIDs of a posting list *)

Definition tid_at (t : list Z) (i : Z) : list Z := mread t (BTreeTupleGetPostingN t i) sizeof_ItemPointerData.
Definition htids_of (t : list Z) : list (list Z) := tid_at t <$> seqZ 0 (BTreeTupleGetNPosting t).

(** A posting list tuple: its list starts behind the tuple header and ends
    within the tuple. *)
Record posting_wf (t : list Z) : Prop := {
  po_bytes : Forall is_byte t;
  po_posting : BTreeTupleIsPosting t = true;
  po_key : sizeof_IndexTupleData ≤ BTreeTupleGetPostingOffset t;
  po_room : BTreeTupleGetPostingOffset t + sizeof_ItemPointerData * BTreeTupleGetNPosting t ≤ zlen t }.

Lemma npost_bound t : Forall is_byte t → 0 ≤ BTreeTupleGetNPosting t < 4096.
Proof.
  intros Hb. unfold BTreeTupleGetNPosting, BT_OFFSET_MASK. change 0x0FFF with (Z.ones 12). rewrite Z.land_ones by lia. dlia.
Qed.

(** Two tuples with the same header have their list at the same place. *)
Lemma same_header t t' : mread t' 0 8 = mread t 0 8 →
  BTreeTupleGetPostingOffset t' = BTreeTupleGetPostingOffset t ∧ BTreeTupleGetNPosting t' = BTreeTupleGetNPosting t ∧
  BTreeTupleIsPosting t' = BTreeTupleIsPosting t ∧ IndexTupleSize t' 0 = IndexTupleSize t 0.
Proof.
  intros H. assert (Hg : ∀ n o, 0 ≤ o → o + Z.of_nat n ≤ 8 → mget n t' o = mget n t o).
  { intros n o Ho Hn. unfold mget. f_equal. apply list_eq. intros i. rewrite !mread_lookup by lia. destruct (decide _); [|done].
    pose proof (f_equal (λ l, l !! Z.to_nat (o + Z.of_nat i)) H) as E. cbv beta in E. rewrite !mread_lookup in E by lia.
    rewrite !decide_True in E by lia. rewrite Z2Nat.id in E by lia. exact E. }
  unfold BTreeTupleGetPostingOffset, BTreeTupleGetNPosting, BTreeTupleIsPosting, IndexTupleSize, t_info,
    ItemPointerGetBlockNumberNoCheck, ItemPointerGetOffsetNumberNoCheck. rewrite !Hg by lia. done.
Qed.

(** ** Splitting a posting list *)

Lemma lookup_S {A} (x : A) l i : (x :: l) !! S i = l !! i.
Proof. done. Qed.

Lemma htids_lookup t i : 0 ≤ i < BTreeTupleGetNPosting t → htids_of t !! Z.to_nat i = Some (tid_at t i).
Proof. intros Hi. unfold htids_of. rewrite list_lookup_fmap, lookup_seqZ_lt by lia. cbn. do 2 f_equal. lia. Qed.

Lemma length_htids t : length (htids_of t) = Z.to_nat (BTreeTupleGetNPosting t).
Proof. unfold htids_of. by rewrite length_fmap, length_seqZ. Qed.

Section swap.
Context (newitem oposting : list Z) (off : Z).
Let n := BTreeTupleGetNPosting oposting.
Let pofs := BTreeTupleGetPostingOffset oposting.
Context (Hp : posting_wf oposting) (Hoff : 0 < off < n) (Hnew : sizeof_ItemPointerData ≤ zlen newitem).

Let moved := mread oposting (pofs + 6 * off) ((n - off - 1) * 6).
Let np := mwrite (mwrite oposting (pofs + 6 * (off + 1)) moved) (pofs + 6 * off) (mread newitem 0 6).
Let ni := mwrite newitem 0 (mread oposting (pofs + 6 * (n - 1)) 6).

Lemma swap_sizes : 8 ≤ pofs ∧ pofs + 6 * n ≤ zlen oposting ∧ zlen moved = (n - off - 1) * 6 ∧ 6 ≤ zlen newitem ∧ zlen (mread newitem 0 6) = 6.
Proof using All.
pose proof (po_key _ Hp) as H1. pose proof (po_room _ Hp) as H2. unfold sizeof_IndexTupleData, sizeof_ItemPointerData in *. fold n pofs in H1, H2.
split_and!; [done|lia|apply zlen_mread; lia|done|apply zlen_mread; lia].
Qed.

Lemma swap_eval : _bt_swap_posting newitem oposting off = Ok (np, ni).
Proof using All.
destruct swap_sizes as (Hb & Hr & Hm & Hn & Ht). unfold _bt_swap_posting, BTreeTupleGetPostingN, BTreeTupleGetMaxHeapTID, load, store.
rewrite (po_posting _ Hp). unfold BTreeTupleGetPostingN, sizeof_ItemPointerData. fold pofs n.
rewrite (proj2 (in_range_true oposting (pofs + 6 * off) _)) by lia. cbn [mbind res_bind]. fold moved.
rewrite (proj2 (in_range_true oposting (pofs + 6 * (off + 1)) _)) by lia. cbn [mbind res_bind].
rewrite (proj2 (in_range_true newitem 0 6)) by lia. cbn [mbind res_bind].
rewrite (proj2 (in_range_true _ (pofs + 6 * off) (zlen (mread newitem 0 6)))) by (rewrite zlen_mwrite; lia). cbn [mbind res_bind]. fold np.
rewrite (proj2 (in_range_true oposting (pofs + 6 * (n - 1)) 6)) by lia. cbn [mbind res_bind].
rewrite (proj2 (in_range_true newitem 0 _)); [done|]. rewrite zlen_mread by lia. lia.
Qed.

Lemma swap_header : mread np 0 8 = mread oposting 0 8.
Proof using All. destruct swap_sizes as (Hb & Hr & Hm & Hn & Ht). unfold np. rewrite !mread_mwrite_disj by lia. done. Qed.

Lemma swap_tid i : 0 ≤ i < n → tid_at np i = if i <? off then tid_at oposting i else if i =? off then mread newitem 0 6 else tid_at oposting (i - 1).
Proof using All.
intros Hi. destruct swap_sizes as (Hb & Hr & Hm & Hn & Ht). destruct (same_header _ _ swap_header) as (E1 & _).
unfold tid_at, BTreeTupleGetPostingN, sizeof_ItemPointerData. rewrite E1. fold pofs. unfold np. destruct (Z.ltb_spec i off).
{ rewrite !mread_mwrite_disj by lia. done. }
destruct (Z.eqb_spec i off) as [->|Hne].
{ apply list_eq. intros k. rewrite !mread_lookup by lia. destruct (decide _); [|done]. rewrite mwrite_lookup by (rewrite ?zlen_mwrite; lia).
rewrite decide_True by lia. rewrite mread_lookup by lia. rewrite decide_True by lia. f_equal. lia. }
rewrite mread_mwrite_disj by lia. apply list_eq. intros k. rewrite !mread_lookup by lia. destruct (decide _); [|done].
rewrite mwrite_lookup by lia. rewrite decide_True by lia. unfold moved. rewrite mread_lookup by lia. rewrite decide_True by lia. f_equal. lia.
Qed.

Lemma swap_tids : htids_of np ++ [mread ni 0 6] = take (Z.to_nat off) (htids_of oposting) ++ mread newitem 0 6 :: drop (Z.to_nat off) (htids_of oposting).
Proof using All.
destruct swap_sizes as (Hb & Hr & Hm & Hn & Ht). destruct (same_header _ _ swap_header) as (_ & E2 & _).
assert (Hni : mread ni 0 6 = tid_at oposting (n - 1)).
{ unfold ni, tid_at, BTreeTupleGetPostingN, sizeof_ItemPointerData. fold pofs.
assert (Hz : zlen (mread oposting (pofs + 6 * (n - 1)) 6) = 6) by (apply zlen_mread; lia).
apply list_eq. intros k. rewrite !mread_lookup by lia. destruct (decide _); [|done]. rewrite mwrite_lookup by lia. rewrite decide_True by lia.
rewrite mread_lookup by lia. rewrite decide_True by lia. f_equal. lia. }
rewrite Hni. apply list_eq. intros k. pose proof (length_htids oposting) as L1. fold n in L1. pose proof (length_htids np) as L2. rewrite E2 in L2. fold n in L2.
destruct (decide (Z.of_nat k < n)) as [Hk|Hk].
- rewrite lookup_app_l by lia. replace k with (Z.to_nat (Z.of_nat k)) at 1 by lia. rewrite htids_lookup by (rewrite E2; fold n; lia). rewrite swap_tid by lia.
destruct (Z.ltb_spec (Z.of_nat k) off).
+ rewrite lookup_app_l by (rewrite length_take; lia). rewrite lookup_take_lt by lia. replace k with (Z.to_nat (Z.of_nat k)) at 2 by lia.
by rewrite htids_lookup by (fold n; lia).
+ rewrite lookup_app_r by (rewrite length_take; lia). rewrite length_take, Nat.min_l by lia. destruct (Z.eqb_spec (Z.of_nat k) off) as [He|].
{ by replace (k - Z.to_nat off)%nat with 0%nat by lia. }
replace (k - Z.to_nat off)%nat with (S (k - 1 - Z.to_nat off)) by lia. rewrite lookup_S, lookup_drop. replace (Z.to_nat off + (k - 1 - Z.to_nat off))%nat with (Z.to_nat (Z.of_nat k - 1)) by lia. by rewrite htids_lookup by (fold n; lia).
- rewrite lookup_app_r by lia. rewrite lookup_app_r by (rewrite length_take; lia). rewrite L2, length_take, Nat.min_l by lia.
destruct (decide (Z.of_nat k = n)) as [He|].
+ replace (k - Z.to_nat n)%nat with 0%nat by lia. replace (k - Z.to_nat off)%nat with (S (Z.to_nat (n - 1) - Z.to_nat off)) by lia. rewrite lookup_S, lookup_drop. replace (Z.to_nat off + (Z.to_nat (n - 1) - Z.to_nat off))%nat with (Z.to_nat (n - 1)) by lia. by rewrite htids_lookup by (fold n; lia).
+ rewrite !lookup_ge_None_2; [done|cbn; rewrite length_drop; lia|cbn; lia].
Qed.

(** The tuples after the swap: their TIDs, sizes and keys. *)
Lemma swap_keeps a b : _bt_swap_posting newitem oposting off = Ok (a, b) →
htids_of a ++ [mread b 0 sizeof_ItemPointerData] =
take (Z.to_nat off) (htids_of oposting) ++ mread newitem 0 sizeof_ItemPointerData :: drop (Z.to_nat off) (htids_of oposting) ∧
zlen a = zlen oposting ∧ mread a 0 pofs = mread oposting 0 pofs ∧ zlen b = zlen newitem ∧ drop 6 b = drop 6 newitem.
Proof using All.
destruct swap_sizes as (Hb & Hr & Hm & Hn & Ht). rewrite swap_eval. intros [= <- <-]. split_and!.
- apply swap_tids.
- unfold np. by rewrite !zlen_mwrite.
- unfold np. by rewrite !mread_mwrite_disj by lia.
- unfold ni. by rewrite zlen_mwrite.
- apply list_eq. intros k. rewrite !lookup_drop. unfold ni. assert (Hz : zlen (mread oposting (pofs + 6 * (n - 1)) 6) = 6) by (apply zlen_mread; lia).
rewrite mwrite_lookup by lia. by rewrite decide_False by lia.
Qed.
End swap.

(** ** Forming and shortening a posting list *)

(** The heap TIDs of a leaf tuple, posting list or not. *)
Definition heap_tids (t : list Z) : list (list Z) :=
  if BTreeTupleIsPosting t then htids_of t else [mread t 0 sizeof_ItemPointerData].

Lemma mask_ones : INDEX_SIZE_MASK = Z.ones 13.
Proof. done. Qed.

(** The size replaces the low bits of [t_info]. *)
Lemma size_bits info sz : 0 ≤ sz < 8192 → Z.land (Z.lor (clear_flag info INDEX_SIZE_MASK) sz) INDEX_SIZE_MASK = sz.
Proof.
  intros Hsz. unfold clear_flag. rewrite mask_ones, Z.land_lor_distr_l, <-Z.land_assoc, (Z.land_comm (Z.lnot _)), Z.land_lnot_diag, Z.land_0_r, Z.lor_0_l.
  rewrite Z.land_ones by lia. by rewrite Z.mod_small by (change (2 ^ 13) with 8192; lia).
Qed.

Lemma size_keep_set info : Z.land (Z.lor info INDEX_ALT_TID_MASK) INDEX_SIZE_MASK = Z.land info INDEX_SIZE_MASK.
Proof. rewrite Z.land_lor_distr_l. change (Z.land INDEX_ALT_TID_MASK INDEX_SIZE_MASK) with 0. by rewrite Z.lor_0_r. Qed.

Lemma size_keep_clear info : Z.land (clear_flag info INDEX_ALT_TID_MASK) INDEX_SIZE_MASK = Z.land info INDEX_SIZE_MASK.
Proof. unfold clear_flag. rewrite <-Z.land_assoc. f_equal. Qed.

Lemma info_bound (t : list Z) : Forall is_byte t → 0 ≤ t_info t 0 < 2 ^ 16.
Proof. intros Hb. apply (mget_bound 2 t 6 Hb). Qed.

Lemma posting_base_spec base k sz : Forall is_byte base → 8 ≤ k ≤ zlen base → k ≤ sz < 8192 →
  ∃ u, posting_base base k sz = Ok u ∧ zlen u = sz ∧ Forall is_byte u ∧ mread u 8 (k - 8) = mread base 8 (k - 8) ∧ IndexTupleSize u 0 = sz.
Proof.
  intros Hb Hk Hsz. unfold posting_base, load, store. rewrite (proj2 (in_range_true base 0 k)) by lia. cbn [mbind res_bind].
  assert (Hz : zlen (mread base 0 k) = k) by (apply zlen_mread; lia).
  assert (Hr : zlen (replicate (Z.to_nat sz) 0) = sz) by (unfold zlen; rewrite length_replicate; lia).
  rewrite (proj2 (in_range_true (replicate _ _) 0 _)) by lia. cbn [mbind res_bind]. set (u := mwrite _ 0 (mread base 0 k)).
  assert (Hu : zlen u = sz) by (unfold u; rewrite zlen_mwrite; lia).
  assert (Hub : Forall is_byte u) by (apply mwrite_byte; [by apply Forall_replicate|by apply mread_byte]).
  eexists. split; [reflexivity|]. unfold set_t_info. split_and!.
  - by rewrite zlen_mput.
  - by apply mput_byte.
  - rewrite mread_mput_disj by lia. unfold u. rewrite mread_mwrite_in by lia. by rewrite mread_mread by lia.
  - unfold IndexTupleSize, t_info at 1. rewrite mget_mput_small; [by apply size_bits; lia|lia|lia|].
    change (256 ^ Z.of_nat 2) with (2 ^ 16). apply lor_bounded; [|lia|lia]. apply land_bounded_l; [by apply info_bound|lia].
Qed.

Lemma blkno_set t a k : 0 ≤ a → a + 4 ≤ zlen t → 0 ≤ k < 2 ^ 32 → ItemPointerGetBlockNumberNoCheck (ItemPointerSetBlockNumber t a k) a = k.
Proof.
  intros Ha Hz Hk. unfold ItemPointerGetBlockNumberNoCheck, ItemPointerSetBlockNumber. rewrite (mget_mput_disj 2 2) by lia.
  rewrite !mget_mput_same by (rewrite ?zlen_mput; lia). change (256 ^ Z.of_nat 2) with (2 ^ 16).
  rewrite Z.shiftr_div_pow2 by lia. rewrite (Z.mod_small (k / 2 ^ 16)) by dlia.
  rewrite <-Z.land_ones by lia. rewrite <-Z.shiftr_div_pow2 by lia.
  apply Z.bits_inj'. intros i Hi. rewrite Z.lor_spec, Z.shiftl_spec, Z.land_spec by done. destruct (Z.ltb_spec i 16).
  - rewrite (Z.testbit_neg_r _ (i - 16)) by lia. rewrite Z.ones_spec_low by lia. by rewrite andb_true_r.
  - rewrite Z.shiftr_spec by lia. rewrite Z.ones_spec_high by lia. rewrite andb_false_r, orb_false_r. f_equal. lia.
Qed.

(** The tuple becomes a posting list of the [n] heap TIDs of [ids]. *)
Lemma posting_fill_many u k n ids : Forall is_byte u → 8 ≤ k → 1 < n < 4096 → k + 6 * n ≤ zlen u < 8192 → zlen ids = 6 * n →
  ∃ u', posting_fill u k n ids = Ok u' ∧ zlen u' = zlen u ∧ IndexTupleSize u' 0 = IndexTupleSize u 0 ∧ mread u' 8 (k - 8) = mread u 8 (k - 8) ∧
    BTreeTupleIsPosting u' = true ∧ BTreeTupleGetNPosting u' = n ∧ BTreeTupleGetPostingOffset u' = k ∧ mread u' k (6 * n) = ids.
Proof.
  intros Hb Hk Hn Hz Hi. unfold posting_fill. rewrite (proj2 (Z.ltb_lt 1 n)) by lia.
  pose proof (lor_bounded (t_info u 0) INDEX_ALT_TID_MASK 16 (info_bound u Hb) ltac:(done) ltac:(lia)) as Hinfo.
  assert (Hor : 0 ≤ Z.lor n BT_IS_POSTING < 2 ^ 16) by (apply lor_bounded; [lia|done|lia]).
  set (v := BTreeTupleSetPosting u n k). assert (Hv : zlen v = zlen u) by (unfold v, BTreeTupleSetPosting, ItemPointerSetBlockNumber, ItemPointerSetOffsetNumber, set_t_info; by rewrite !zlen_mput).
  assert (Hofs : BTreeTupleGetPostingOffset v = k).
  { unfold v, BTreeTupleSetPosting, BTreeTupleGetPostingOffset. apply blkno_set; [lia| |lia]. unfold ItemPointerSetOffsetNumber, set_t_info. rewrite !zlen_mput. lia. }
  assert (Hoff : ItemPointerGetOffsetNumberNoCheck v 0 = Z.lor n BT_IS_POSTING).
  { unfold v, BTreeTupleSetPosting, ItemPointerGetOffsetNumberNoCheck, ItemPointerSetBlockNumber, ItemPointerSetOffsetNumber, set_t_info.
    rewrite !(mget_mput_disj 2 2 _ (0 + 2)), !(mget_mput_disj 2 2 _ 0) by lia. apply mget_mput_small; rewrite ?zlen_mput; lia. }
  assert (Hinf : t_info v 0 = Z.lor (t_info u 0) INDEX_ALT_TID_MASK).
  { unfold v, BTreeTupleSetPosting, t_info at 1, ItemPointerSetBlockNumber, ItemPointerSetOffsetNumber, set_t_info.
    rewrite !(mget_mput_disj 2 2 _ (0 + 2)), !(mget_mput_disj 2 2 _ 0), (mget_mput_disj 2 2 _ (0 + 4)) by lia. apply mget_mput_small; lia. }
  assert (Hkey : mread v 8 (k - 8) = mread u 8 (k - 8)).
  { unfold v, BTreeTupleSetPosting, ItemPointerSetBlockNumber, ItemPointerSetOffsetNumber, set_t_info. by rewrite !mread_mput_disj by lia. }
  clearbody v. rewrite Hofs. unfold store. rewrite (proj2 (in_range_true v k _)) by lia. eexists. split; [reflexivity|].
  assert (Hh : mread (mwrite v k ids) 0 8 = mread v 0 8) by (apply mread_mwrite_disj; lia).
  destruct (same_header _ _ Hh) as (-> & E2 & E3 & ->). split_and!.
  - by rewrite zlen_mwrite.
  - unfold IndexTupleSize. by rewrite Hinf, size_keep_set.
  - by rewrite mread_mwrite_disj by lia.
  - rewrite E3. unfold BTreeTupleIsPosting. rewrite Hinf, Hoff. change (Z.lor ?a INDEX_ALT_TID_MASK) with (set_flag a INDEX_ALT_TID_MASK).
    change (Z.lor n BT_IS_POSTING) with (set_flag n BT_IS_POSTING). by rewrite !has_flag_set.
  - rewrite E2. unfold BTreeTupleGetNPosting. rewrite Hoff, Z.land_lor_distr_l. change (Z.land BT_IS_POSTING BT_OFFSET_MASK) with 0. rewrite Z.lor_0_r.
    unfold BT_OFFSET_MASK. change 0x0FFF with (Z.ones 12). rewrite Z.land_ones by lia. apply Z.mod_small. change (2 ^ 12) with 4096. lia.
  - exact Hofs.
  - rewrite <-Hi. apply mread_mwrite_same; lia.
Qed.

(** A single heap TID makes an ordinary leaf tuple. *)
Lemma posting_fill_one u k ids : Forall is_byte u → 8 ≤ zlen u → zlen ids = 6 →
  ∃ u', posting_fill u k 1 ids = Ok u' ∧ zlen u' = zlen u ∧ IndexTupleSize u' 0 = IndexTupleSize u 0 ∧ (∀ l, mread u' 8 l = mread u 8 l) ∧
    BTreeTupleIsPosting u' = false ∧ mread u' 0 6 = ids.
Proof.
  intros Hb Hz Hi. unfold posting_fill. change (1 <? 1) with false. cbv iota.
  set (v := set_t_info _ _ _). assert (Hv : zlen v = zlen u) by (unfold v, set_t_info; by rewrite zlen_mput).
  assert (Hinf : t_info v 0 = clear_flag (t_info u 0) INDEX_ALT_TID_MASK).
  { unfold v, set_t_info, t_info at 1. apply mget_mput_small; [lia|lia|]. apply (land_bounded_l _ _ 16); [by apply info_bound|lia]. }
  unfold store. rewrite (proj2 (in_range_true v 0 _)) by lia. eexists. split; [reflexivity|].
  assert (Hh : t_info (mwrite v 0 ids) 0 = t_info v 0) by (unfold t_info; apply mget_mwrite_disj; lia). split_and!.
  - by rewrite zlen_mwrite.
  - unfold IndexTupleSize. by rewrite Hh, Hinf, size_keep_clear.
  - intros l. rewrite mread_mwrite_disj by lia. unfold v, set_t_info. by rewrite mread_mput_disj by lia.
  - unfold BTreeTupleIsPosting. by rewrite Hh, Hinf, has_flag_clear.
  - rewrite <-Hi. apply mread_mwrite_same; lia.
Qed.

(** The parts of [n] TIDs laid out one after the other. *)
Lemma htids_concat t ids : BTreeTupleIsPosting t = true → Forall (λ i, zlen i = 6) ids → BTreeTupleGetNPosting t = zlen ids →
  0 ≤ BTreeTupleGetPostingOffset t → BTreeTupleGetPostingOffset t + 6 * zlen ids ≤ zlen t → mread t (BTreeTupleGetPostingOffset t) (6 * zlen ids) = concat ids → heap_tids t = ids.
Proof.
  intros Hp Hf Hn Ho Hroom Hr. unfold heap_tids, htids_of. rewrite Hp, Hn. unfold tid_at, BTreeTupleGetPostingN, sizeof_ItemPointerData.
  generalize dependent (BTreeTupleGetPostingOffset t). clear Hn Hp. induction Hf as [|i ids Hi Hf IH]; intros o Ho Hroom Hr; [done|].
  assert (Hl : zlen (i :: ids) = 1 + zlen ids) by (unfold zlen; cbn; lia). rewrite Hl in *. assert (0 ≤ zlen ids) by (unfold zlen; lia).
  replace (6 * (1 + zlen ids)) with (6 + 6 * zlen ids) in Hr by lia. rewrite mread_app in Hr by lia. cbn [concat] in Hr.
  assert (Hl1 : length (mread t o 6) = length i).
  { pose proof (zlen_mread t o 6). unfold zlen in *. lia. }
  apply app_inj_1 in Hr as [H1 H2]; [|done].
  rewrite seqZ_cons by lia. cbn [fmap list_fmap]. f_equal; [by rewrite Z.mul_0_r, Z.add_0_r|]. etrans; [|apply (IH (o + 6)); [lia|lia|done]].
  replace (Z.pred (1 + zlen ids)) with (zlen ids) by lia. rewrite <-(fmap_add_seqZ 1 0), <-list_fmap_compose. apply list_fmap_ext. intros ? x _. cbn. f_equal. lia.
Qed.

(** The indexes of the TIDs that stay. *)
Definition kept (deleted : list Z) (i : Z) : Prop := i ∉ deleted.
#[global] Instance kept_dec deleted i : Decision (kept deleted i) := _.

Definition kept_tids (t deleted : list Z) : list (list Z) := tid_at t <$> filter (kept deleted) (seqZ 0 (BTreeTupleGetNPosting t)).

(** The loop of [_bt_update_posting] over increasing deleted indexes. *)
Lemma remaining_spec t : posting_wf t → ∀ n i ds, 0 ≤ i → i + Z.of_nat n = BTreeTupleGetNPosting t → StronglySorted Z.lt ds → Forall (λ d, i ≤ d) ds →
  remaining_htids t i n ds = Ok (concat (tid_at t <$> filter (kept ds) (seqZ i (Z.of_nat n)))).
Proof.
  intros Hp. pose proof (po_key _ Hp) as Hk. pose proof (po_room _ Hp) as Hr. unfold sizeof_IndexTupleData, sizeof_ItemPointerData in *.
  induction n as [|n IH]; intros i ds Hi Hn Hs Hf; [done|]. rewrite seqZ_cons by lia. replace (Z.pred (Z.of_nat (S n))) with (Z.of_nat n) by lia.
  assert (Hload : load t (BTreeTupleGetPostingN t i) sizeof_ItemPointerData = Ok (tid_at t i)).
  { unfold load, tid_at, BTreeTupleGetPostingN, sizeof_ItemPointerData. rewrite (proj2 (in_range_true t _ 6)) by lia. done. }
  change (Z.succ i) with (i + 1). assert (Hkeep : i ∉ ds → Forall (λ d, i + 1 ≤ d) ds →
    (t0 ← load t (BTreeTupleGetPostingN t i) sizeof_ItemPointerData; ts ← remaining_htids t (i + 1) n ds; Ok (t0 ++ ts)) =
    Ok (concat (tid_at t <$> filter (kept ds) (i :: seqZ (i + 1) (Z.of_nat n))))).
  { intros Hni Hf1. rewrite Hload. cbn [mbind res_bind]. rewrite IH by (done || lia). cbn [mbind res_bind]. by rewrite filter_cons_True. }
  destruct ds as [|d rest]; cbn [remaining_htids]; [by apply Hkeep; [apply not_elem_of_nil|]|].
  apply Forall_cons in Hf as [Hd Hf]. apply StronglySorted_inv in Hs as [Hs Hlt]. destruct (Z.eqb_spec d i) as [->|Hne].
  - rewrite filter_cons_False by (unfold kept; set_solver). rewrite IH; [|lia|lia|done|eapply Forall_impl; [exact Hlt|cbn; lia]].
    do 3 f_equal. apply filter_agree. intros x Hx%elem_of_seqZ. unfold kept. rewrite not_elem_of_cons. intuition lia.
  - apply Hkeep; [|]. { rewrite not_elem_of_cons. split; [done|]. intros Hin. rewrite Forall_forall in Hlt. specialize (Hlt _ Hin). lia. }
    constructor; [lia|]. eapply Forall_impl; [exact Hlt|]. cbn. lia.
Qed.

Lemma zlen_tids (ids : list (list Z)) : Forall (λ i, zlen i = 6) ids → zlen (concat ids) = 6 * zlen ids.
Proof. induction 1 as [|i ids Hi _ IH]; [done|]. cbn [concat]. unfold zlen in *. rewrite length_app. cbn [length]. lia. Qed.

(** The key of [base] in front of the TIDs [ids]: what forming a posting list
    and shortening one have in common. *)
Lemma posting_form_spec base k ids : Forall is_byte base → 8 ≤ k ≤ zlen base → Forall (λ i, zlen i = 6) ids → 0 < zlen ids < 4096 →
  posting_size k (zlen ids) ≤ INDEX_SIZE_MASK →
  ∃ u t', posting_base base k (posting_size k (zlen ids)) = Ok u ∧ posting_fill u k (zlen ids) (concat ids) = Ok t' ∧ heap_tids t' = ids ∧
    zlen t' = posting_size k (zlen ids) ∧ IndexTupleSize t' 0 = zlen t' ∧ mread t' 8 (k - 8) = mread base 8 (k - 8).
Proof.
  intros Hb Hk Hf Hn Hsz. change INDEX_SIZE_MASK with 8191 in Hsz.
  pose proof (zlen_tids ids Hf) as Hc.
  assert (Hsize : k ≤ posting_size k (zlen ids) ∧ (1 < zlen ids → k + 6 * zlen ids ≤ posting_size k (zlen ids))).
  { unfold posting_size, sizeof_ItemPointerData. pose proof (MAXALIGN_bounds (k + zlen ids * 6)). destruct (Z.ltb_spec 1 (zlen ids)); lia. }
  destruct (posting_base_spec base k (posting_size k (zlen ids))) as (u & Eu & Hzu & Hbu & Hku & Hsu); [done|lia|lia|].
  exists u. destruct (decide (zlen ids = 1)) as [H1|H1].
  - destruct (posting_fill_one u k (concat ids)) as (t' & Et & Hzt & Hst & Hkt & Hp & Hr); [done|lia|lia|]. rewrite H1 in *.
    exists t'. split_and!; [done|done| |lia|lia|by rewrite Hkt]. unfold heap_tids. rewrite Hp. change sizeof_ItemPointerData with 6. rewrite Hr.
    destruct ids as [|i [|? ?]]; [done| |unfold zlen in H1; cbn in H1; lia]. cbn [concat]. by rewrite app_nil_r.
  - destruct (posting_fill_many u k (zlen ids) (concat ids)) as (t' & Et & Hzt & Hst & Hkt & Hp & Hnp & Hofs & Hr); [done|lia|lia|lia|lia|].
    exists t'. split_and!; [done|done| |lia|lia|by rewrite Hkt]. apply htids_concat; rewrite ?Hofs; (done || lia).
Qed.

Lemma sorted_NoDup ds : StronglySorted Z.lt ds → NoDup ds.
Proof. induction 1 as [|d ds Hs IH Hf]; constructor; [|done]. intros Hin. rewrite Forall_forall in Hf. specialize (Hf _ Hin). lia. Qed.

(** Deleting from [n] indexes leaves the others. *)
Lemma length_kept n ds : 0 ≤ n → NoDup ds → Forall (λ d, 0 ≤ d < n) ds → zlen (filter (kept ds) (seqZ 0 n)) = n - zlen ds.
Proof.
  intros Hn Hd Hf. assert (Hp : filter (λ i, i ∈ ds) (seqZ 0 n) ≡ₚ ds).
  { apply NoDup_Permutation; [apply NoDup_filter, NoDup_seqZ|done|]. intros x. rewrite list_elem_of_filter, elem_of_seqZ. rewrite Forall_forall in Hf. split; [by intros [? _]|]. intros Hx. split; [done|]. specialize (Hf _ Hx). lia. }
  apply Permutation_length in Hp. pose proof (Permutation_length (filter_app_complement (λ i, i ∈ ds) (seqZ 0 n))) as Hs. rewrite length_app, length_seqZ in Hs.
  match type of Hs with (_ + length ?f = _)%nat => assert (filter (kept ds) (seqZ 0 n) = f) as -> by (by apply filter_agree) end.
  unfold zlen. lia.
Qed.

Lemma kept_tid_sizes t ds : posting_wf t → Forall (λ i, zlen i = 6) (kept_tids t ds).
Proof.
  intros Hp. pose proof (po_key _ Hp). pose proof (po_room _ Hp). unfold sizeof_IndexTupleData, sizeof_ItemPointerData in *.
  apply Forall_fmap, Forall_forall. intros i [_ Hi%elem_of_seqZ]%list_elem_of_filter. cbn. apply zlen_mread; unfold BTreeTupleGetPostingN, sizeof_ItemPointerData; lia.
Qed.

Lemma update_posting_spec t ds : posting_wf t → StronglySorted Z.lt ds → Forall (λ d, 0 ≤ d < BTreeTupleGetNPosting t) ds → zlen ds < BTreeTupleGetNPosting t →
  posting_size (BTreeTupleGetPostingOffset t) (BTreeTupleGetNPosting t - zlen ds) ≤ INDEX_SIZE_MASK →
  ∃ t', _bt_update_posting t ds = Ok t' ∧ heap_tids t' = kept_tids t ds ∧
    zlen t' = posting_size (BTreeTupleGetPostingOffset t) (BTreeTupleGetNPosting t - zlen ds) ∧ IndexTupleSize t' 0 = zlen t' ∧
    mread t' 8 (BTreeTupleGetPostingOffset t - 8) = mread t 8 (BTreeTupleGetPostingOffset t - 8).
Proof.
  intros Hp Hs Hf Hlt Hsz. pose proof (po_key _ Hp) as Hk. pose proof (po_room _ Hp) as Hr. pose proof (npost_bound t (po_bytes _ Hp)) as Hn.
  unfold sizeof_IndexTupleData, sizeof_ItemPointerData in *. assert (0 ≤ zlen ds) by (unfold zlen; lia).
  assert (Hl : zlen (kept_tids t ds) = BTreeTupleGetNPosting t - zlen ds).
  { rewrite <-(length_kept _ ds); [|lia|by apply sorted_NoDup|done]. unfold kept_tids, zlen. by rewrite length_fmap. }
  destruct (posting_form_spec t (BTreeTupleGetPostingOffset t) (kept_tids t ds)) as (u & t' & Eu & Et & Hh & Hz & Hi & Hkey);
    [apply (po_bytes _ Hp)|lia|by apply kept_tid_sizes|lia|by rewrite Hl|].
  rewrite Hl in *. exists t'. split_and!; [|done..]. unfold _bt_update_posting. rewrite Eu. cbn [mbind res_bind].
  rewrite (remaining_spec t Hp) by (done || lia || (eapply Forall_impl; [exact Hf|cbn; lia])). rewrite Z2Nat.id by lia. exact Et.
Qed.

(** The key that [_bt_form_posting] takes over from its base tuple. *)
Definition key_size (base : list Z) : Z := if BTreeTupleIsPosting base then BTreeTupleGetPostingOffset base else IndexTupleSize base 0.

Lemma form_posting_spec b ids : Forall is_byte b → 8 ≤ key_size b ≤ zlen b → Forall (λ i, zlen i = 6) ids → 0 < zlen ids < 4096 →
  posting_size (key_size b) (zlen ids) ≤ INDEX_SIZE_MASK →
  ∃ t', _bt_form_posting b (concat ids) (zlen ids) = Ok t' ∧ heap_tids t' = ids ∧ zlen t' = posting_size (key_size b) (zlen ids) ∧
    IndexTupleSize t' 0 = zlen t' ∧ mread t' 8 (key_size b - 8) = mread b 8 (key_size b - 8).
Proof.
  intros Hb Hk Hf Hn Hsz. destruct (posting_form_spec b (key_size b) ids Hb Hk Hf Hn Hsz) as (u & t' & Eu & Et & Hh & Hz & Hi & Hkey).
  exists t'. split_and!; [|done..]. unfold _bt_form_posting. fold (key_size b). rewrite Eu. cbn [mbind res_bind].
  assert (Hc : zlen (concat ids) = (if 1 <? zlen ids then sizeof_ItemPointerData * zlen ids else sizeof_ItemPointerData)).
  { rewrite zlen_tids by done. unfold sizeof_ItemPointerData. zcase. }
  rewrite <-Hc. unfold load. rewrite (proj2 (in_range_true _ 0 _)) by (unfold zlen; lia). cbn [mbind res_bind]. rewrite mread_all. exact Et.
Qed.
