(* ===== verification/BtreeRedo.v ===== *)
(** * Redo of B-tree records on one page: [nbtxlog_idx.c]

    One definition per handler, each for one page of the record, and the
    routines that enter a record in the log index. *)

From S2P Require Import Prelude Mem Page PageAdd PageIndex PageCompact Buffer WalRecord HeapRedo TagList Btree.

(** ** Record types *)

Definition XLOG_BTREE_INSERT_LEAF : Z := 0x00.
Definition XLOG_BTREE_INSERT_UPPER : Z := 0x10.
Definition XLOG_BTREE_INSERT_META : Z := 0x20.
Definition XLOG_BTREE_SPLIT_L : Z := 0x30.
Definition XLOG_BTREE_SPLIT_R : Z := 0x40.
Definition XLOG_BTREE_INSERT_POST : Z := 0x50.
Definition XLOG_BTREE_DEDUP : Z := 0x60.
Definition XLOG_BTREE_DELETE : Z := 0x70.
Definition XLOG_BTREE_UNLINK_PAGE : Z := 0x80.
Definition XLOG_BTREE_UNLINK_PAGE_META : Z := 0x90.
Definition XLOG_BTREE_NEWROOT : Z := 0xA0.
Definition XLOG_BTREE_MARK_PAGE_HALFDEAD : Z := 0xB0.
Definition XLOG_BTREE_VACUUM : Z := 0xC0.
Definition XLOG_BTREE_REUSE_PAGE : Z := 0xD0.
Definition XLOG_BTREE_META_CLEANUP : Z := 0xE0.

(** ** Shared parts *)

Definition polar_bt_clear_incomplete_split (st : dbstate) (r : XLogReaderState) (id : Z) : redo_result :=
  redo_read st r id false (λ p,
    p ← clear_btpo_flag p BTP_INCOMPLETE_SPLIT;
    Ok (PageSetLSN p (EndRecPtr r))).

(** The offset numbers at a position of the data. *)
Fixpoint get_offsets (data : list Z) (pos : Z) (n : nat) : res (list Z) :=
  match n with
  | O => Ok []
  | S n => o ← rd 2 data pos; os ← get_offsets data (pos + 2) n; Ok (o :: os)
  end.

(** ** The meta page *)

(** [BTMetaPageData] at [PageGetContents], from an [xl_btree_metadata]; the
    last two fields are a float8 and a bool. *)
Definition sizeof_BTMetaPageData : Z := 48.
Definition meta_page (xlrec : list Z) : res page :=
  let metapg := _bt_pageinit in
  let md := PageGetContents in
  version ← rd 4 xlrec 0;
  root ← rd 4 xlrec 4;
  level ← rd 4 xlrec 8;
  fastroot ← rd 4 xlrec 12;
  fastlevel ← rd 4 xlrec 16;
  oldest ← rd 4 xlrec 20;
  tuples ← load xlrec 24 8;
  allequalimage ← rd 1 xlrec 32;
  let p := mput 4 metapg md BTREE_MAGIC in
  let p := mput 4 p (md + 4) version in
  let p := mput 4 p (md + 8) root in
  let p := mput 4 p (md + 12) level in
  let p := mput 4 p (md + 16) fastroot in
  let p := mput 4 p (md + 20) fastlevel in
  let p := mput 4 p (md + 24) oldest in
  let p := mwrite p (md + 32) tuples in
  let p := mput 1 p (md + 40) allequalimage in
  p ← opaque_set 2 p (PageGetSpecialPointer p) btpo_flags BTP_META;
  Ok (set_pd_lower p (md + sizeof_BTMetaPageData)).

Definition polar_bt_restore_meta (st : dbstate) (r : XLogReaderState) (id : Z) (metabuf : Buffer) : redo_result :=
  redo_init st r id metabuf BLK_NEEDS_REDO (meta_page (block_bytes r id)).

(** ** Insert *)

(** A posting list split: the posting list before [offnum] takes the heap TID
    of the new item, the item gets the last one of the list. *)
Definition insert_post (p : page) (data : list Z) (offnum : Z) : res page :=
  postingoff ← rd 2 data 0;
  let datalen := zlen data - 2 in
  itemid ← PageGetItemIdChecked p (OffsetNumberPrev offnum);
  oposting ← CopyIndexTuple p (lp_off itemid);
  newitem ← CopyIndexTuple data 2;
  '(nposting, newitem) ← _bt_swap_posting newitem oposting postingoff;
  bs ← load nposting 0 (MAXALIGN (IndexTupleSize nposting 0));
  p ← store p (lp_off itemid) bs;
  item ← load newitem 0 datalen;
  bt_add_item p item offnum EPanic.

Definition btree_insert_page (r : XLogReaderState) (posting : bool) (offnum : Z) (p : page) : res page :=
  let data := block_bytes r 0 in
  p ← (if posting then insert_post p data offnum else bt_add_item p data offnum EPanic);
  Ok (PageSetLSN p (EndRecPtr r)).

Definition polar_btree_xlog_insert (isleaf ismeta posting : bool) (st : dbstate) (r : XLogReaderState)
  (tag : BufferTag) (buffer : Buffer) : redo_result :=
  child ← (if negb isleaf then t ← POLAR_GET_LOG_TAG r 1; Ok (BUFFERTAGS_EQUAL tag t) else Ok false);
  if (child : bool) then polar_bt_clear_incomplete_split st r 1 else
  tag0 ← POLAR_GET_LOG_TAG r 0;
  if BUFFERTAGS_EQUAL tag tag0 then
    offnum ← rd 2 (main_data r) 0;
    redo_read st r 0 false (btree_insert_page r posting offnum)
  else if ismeta then
    tag2 ← POLAR_GET_LOG_TAG r 2;
    if BUFFERTAGS_EQUAL tag tag2 then polar_bt_restore_meta st r 2 buffer else Ok (st, buffer, BLK_NOTFOUND)
  else Ok (st, buffer, BLK_NOTFOUND).

(** ** Split *)

Record xl_btree_split : Type := mkSplit { sp_level : Z; firstrightoff : Z; newitemoff : Z; sp_postingoff : Z }.

Definition get_xl_btree_split (r : XLogReaderState) : res xl_btree_split :=
  a ← rd 4 (main_data r) 0;
  b ← rd 2 (main_data r) 4;
  c ← rd 2 (main_data r) 6;
  d ← rd 2 (main_data r) 8;
  Ok (mkSplit a b c d).

(** The block number of a reference, or [P_NONE]. *)
Definition block_or_none (r : XLogReaderState) (id : Z) : Z :=
  match XLogRecGetBlockTag r id with Some t => blockNum t | None => P_NONE end.

(** The right page, built from its tuples; [leftsib] is uninitialised when
    block 0 is missing. *)
Definition polar_restore_right (r : XLogReaderState) (x : xl_btree_split) : res page :=
  leftsib ← POLAR_GET_LOG_TAG r 0;
  p ← set_opaque _bt_pageinit (blockNum leftsib) (block_or_none r 2) (sp_level x)
        (if sp_level x =? 0 then BTP_LEAF else 0) 0;
  _bt_restore_page p (block_bytes r 1).

(** What the record says about the left page: the new item, the replacement
    of a split posting list with its offset number, the high key. *)
Record split_left : Type := mkLeft {
  sl_newitem : list Z; newitemsz : Z; sl_nposting : list Z; replacepostingoff : Z; left_hikey : list Z }.

(** The new item and the replacement of the posting list, added to a page. *)
Definition add_newitem (p : page) (l : split_left) (leftoff : Z) : res page :=
  item ← load (sl_newitem l) 0 (newitemsz l);
  bt_add_item p item leftoff EError.
Definition add_nposting (p : page) (l : split_left) (leftoff : Z) : res page :=
  item ← load (sl_nposting l) 0 (MAXALIGN (IndexTupleSize (sl_nposting l) 0));
  bt_add_item p item leftoff EError.

Definition get_split_left (newitemonleft : bool) (x : xl_btree_split) (data : list Z) (lpage : page) : res split_left :=
  '(newitem, nposting, replaceoff, sz) ←
    (if newitemonleft || negb (sp_postingoff x =? 0) then
       if negb (in_range data 0 sizeof_IndexTupleData) then Err EOob else
       let sz := MAXALIGN (IndexTupleSize data 0) in
       if sp_postingoff x =? 0 then Ok (data, [], InvalidOffsetNumber, sz)
       else
         let replaceoff := OffsetNumberPrev (newitemoff x) in
         newitem ← CopyIndexTuple data 0;
         itemid ← PageGetItemIdChecked lpage replaceoff;
         oposting ← CopyIndexTuple lpage (lp_off itemid);
         '(nposting, newitem) ← _bt_swap_posting newitem oposting (sp_postingoff x);
         Ok (newitem, nposting, replaceoff, sz)
     else Ok ([], [], InvalidOffsetNumber, 0));
  if negb (in_range data sz sizeof_IndexTupleData) then Err EOob else
  hikey ← load data sz (MAXALIGN (IndexTupleSize data sz));
  Ok (mkLeft newitem sz nposting replaceoff hikey).

(** The tuples of the left page from [off] on, each at [leftoff]. *)
Fixpoint split_left_loop (newitemonleft : bool) (x : xl_btree_split) (l : split_left) (lpage newlpage : page)
  (off leftoff : Z) (n : nat) : res (page * Z) :=
  match n with
  | O => Ok (newlpage, leftoff)
  | S n =>
      if off =? replacepostingoff l then
        newlpage ← add_nposting newlpage l leftoff;
        split_left_loop newitemonleft x l lpage newlpage (off + 1) (leftoff + 1) n
      else
        '(newlpage, leftoff) ←
          (if newitemonleft && (off =? newitemoff x)
           then q ← add_newitem newlpage l leftoff; Ok (q, leftoff + 1)
           else Ok (newlpage, leftoff));
        itemid ← PageGetItemIdChecked lpage off;
        item ← load lpage (lp_off itemid) (ItemIdGetLength itemid);
        newlpage ← bt_add_item newlpage item leftoff EError;
        split_left_loop newitemonleft x l lpage newlpage (off + 1) (leftoff + 1) n
  end.

Definition split_left_page (newitemonleft : bool) (r : XLogReaderState) (x : xl_btree_split) (rightblk : Z)
  (lpage : page) : res page :=
  let lopaque := PageGetSpecialPointer lpage in
  l ← get_split_left newitemonleft x (block_bytes r 0) lpage;
  newlpage ← bt_add_item (PageGetTempPageCopySpecial lpage) (left_hikey l) P_HIKEY EPanic;
  first ← P_FIRSTDATAKEY lpage lopaque;
  '(newlpage, leftoff) ←
    split_left_loop newitemonleft x l lpage newlpage first (OffsetNumberNext P_HIKEY) (Z.to_nat (firstrightoff x - first));
  let off := Z.max first (firstrightoff x) in
  newlpage ← (if newitemonleft && (off =? newitemoff x) then add_newitem newlpage l leftoff
              else Ok newlpage);
  let lpage := PageRestoreTempPage newlpage lpage in
  lpage ← opaque_set 2 lpage lopaque btpo_flags
            (if sp_level x =? 0 then Z.lor BTP_INCOMPLETE_SPLIT BTP_LEAF else BTP_INCOMPLETE_SPLIT);
  lpage ← opaque_set 4 lpage lopaque btpo_next rightblk;
  lpage ← opaque_set 2 lpage lopaque btpo_cycleid 0;
  Ok (PageSetLSN lpage (EndRecPtr r)).

(** The link of a neighbour. *)
Definition link_page (r : XLogReaderState) (field blk : Z) (p : page) : res page :=
  p ← opaque_set 4 p (PageGetSpecialPointer p) field blk;
  Ok (PageSetLSN p (EndRecPtr r)).

Definition polar_btree_xlog_split (newitemonleft : bool) (st : dbstate) (r : XLogReaderState) (tag : BufferTag)
  (buffer : Buffer) : redo_result :=
  x ← get_xl_btree_split r;
  tag0 ← POLAR_GET_LOG_TAG r 0;
  tag1 ← POLAR_GET_LOG_TAG r 1;
  let rnext := block_or_none r 2 in
  child ← (if negb (sp_level x =? 0) then t ← POLAR_GET_LOG_TAG r 3; Ok (BUFFERTAGS_EQUAL t tag) else Ok false);
  if (child : bool) then polar_bt_clear_incomplete_split st r 3 else
  if BUFFERTAGS_EQUAL tag tag1 then redo_init st r 1 buffer BLK_NEEDS_REDO (polar_restore_right r x) else
  if BUFFERTAGS_EQUAL tag tag0 then redo_read st r 0 false (split_left_page newitemonleft r x (blockNum tag1)) else
  if negb (rnext =? P_NONE) then
    tag2 ← POLAR_GET_LOG_TAG r 2;
    if BUFFERTAGS_EQUAL tag tag2 then redo_read st r 2 false (link_page r btpo_prev (blockNum tag1))
    else Ok (st, buffer, BLK_NOTFOUND)
  else Ok (st, buffer, BLK_NOTFOUND).

(** ** Deduplication, vacuum, deletion *)

(** [BTDedupInterval] is two 16-bit numbers. *)
Definition interval_at (intervals : list Z) (i : Z) : res (Z * Z) :=
  a ← rd 2 intervals (4 * i); b ← rd 2 intervals (4 * i + 2); Ok (a, b).

(** Whether the pending posting list goes on: it is the next interval and not
    complete yet. *)
Definition pending_goes_on (s : BTDedupStateData) (nint : Z) (intervals : list Z) : res bool :=
  if nintervals s <? nint then
    '(bo, ni) ← interval_at intervals (nintervals s);
    Ok ((baseoff s =? bo) && (nitems s <? ni))
  else Ok false.

Fixpoint dedup_loop (p newpage : page) (s : BTDedupStateData) (nint : Z) (intervals : list Z) (minoff offnum : Z) (n : nat)
  : res (page * BTDedupStateData) :=
  match n with
  | O => Ok (newpage, s)
  | S n =>
      itemid ← PageGetItemIdChecked p offnum;
      itup ← CopyIndexTuple p (lp_off itemid);
      if offnum =? minoff then
        s ← _bt_dedup_start_pending s itup offnum;
        dedup_loop p newpage s nint intervals minoff (offnum + 1) n
      else
        more ← pending_goes_on s nint intervals;
        if (more : bool) then
          o ← _bt_dedup_save_htid s itup;
          match o with
          | None => Err EError
          | Some s => dedup_loop p newpage s nint intervals minoff (offnum + 1) n
          end
        else
          '(newpage, s) ← _bt_dedup_finish_pending newpage s;
          s ← _bt_dedup_start_pending s itup offnum;
          dedup_loop p newpage s nint intervals minoff (offnum + 1) n
  end.

Definition dedup_page (r : XLogReaderState) (p : page) : res page :=
  nint ← rd 2 (main_data r) 0;
  let opaque := PageGetSpecialPointer p in
  let s := mkDedup (BTMaxItemSize p) [] InvalidOffsetNumber 0 [] 0 0 0 in
  minoff ← P_FIRSTDATAKEY p opaque;
  let maxoff := PageGetMaxOffsetNumber p in
  let newpage := PageGetTempPageCopySpecial p in
  rightmost ← P_RIGHTMOST p opaque;
  newpage ← (if negb rightmost then
               itemid ← PageGetItemIdChecked p P_HIKEY;
               item ← load p (lp_off itemid) (ItemIdGetLength itemid);
               bt_add_item newpage item P_HIKEY EError
             else Ok newpage);
  '(newpage, s) ← dedup_loop p newpage s nint (block_bytes r 0) minoff minoff (Z.to_nat (maxoff - minoff + 1));
  '(newpage, s) ← _bt_dedup_finish_pending newpage s;
  flags ← opaque_get 2 p opaque btpo_flags;
  newpage ← (if has_flag flags BTP_HAS_GARBAGE then clear_btpo_flag newpage BTP_HAS_GARBAGE else Ok newpage);
  Ok (PageSetLSN (PageRestoreTempPage newpage p) (EndRecPtr r)).

Definition btree_xlog_dedup (st : dbstate) (r : XLogReaderState) (tag : BufferTag) (buffer : Buffer) : redo_result :=
  redo_block0 st r tag buffer false (λ _, dedup_page r).

Fixpoint vacuum_updates (p : page) (data : list Z) (updatedoffsets updates : Z) (n : nat) : res page :=
  match n with
  | O => Ok p
  | S n =>
      off ← rd 2 data updatedoffsets;
      itemid ← PageGetItemIdChecked p off;
      origtuple ← CopyIndexTuple p (lp_off itemid);
      ndeletedtids ← rd 2 data updates;
      deletetids ← get_offsets data (updates + 2) (Z.to_nat ndeletedtids);
      itup ← _bt_update_posting origtuple deletetids;
      bs ← load itup 0 (MAXALIGN (IndexTupleSize itup 0));
      '(p, ok) ← PageIndexTupleOverwrite p off bs;
      if negb ok then Err EPanic else
      vacuum_updates p data (updatedoffsets + 2) (updates + 2 + ndeletedtids * 2) n
  end.

Definition vacuum_page (r : XLogReaderState) (p : page) : res page :=
  ndeleted ← rd 2 (main_data r) 0;
  nupdated ← rd 2 (main_data r) 2;
  let ptr := block_bytes r 0 in
  p ← vacuum_updates p ptr (ndeleted * 2) (ndeleted * 2 + nupdated * 2) (Z.to_nat nupdated);
  p ← (if 0 <? ndeleted then offs ← get_offsets ptr 0 (Z.to_nat ndeleted); PageIndexMultiDelete p offs else Ok p);
  p ← clear_btpo_flag p BTP_HAS_GARBAGE;
  Ok (PageSetLSN p (EndRecPtr r)).

Definition polar_btree_xlog_vacuum (st : dbstate) (r : XLogReaderState) (tag : BufferTag) (buffer : Buffer) : redo_result :=
  redo_block0 st r tag buffer true (λ _, vacuum_page r).

Definition btree_delete_page (r : XLogReaderState) (p : page) : res page :=
  ndeleted ← rd 4 (main_data r) 4;
  offs ← get_offsets (block_bytes r 0) 0 (Z.to_nat ndeleted);
  p ← PageIndexMultiDelete p offs;
  p ← clear_btpo_flag p BTP_HAS_GARBAGE;
  Ok (PageSetLSN p (EndRecPtr r)).

Definition polar_btree_xlog_delete (st : dbstate) (r : XLogReaderState) (tag : BufferTag) (buffer : Buffer) : redo_result :=
  redo_block0 st r tag buffer false (λ _, btree_delete_page r).

(** ** Page deletion *)

(** The dummy high key of a half-dead page. *)
Definition trunctuple (topparent : Z) : list Z :=
  BTreeTupleSetTopParent (set_t_info (replicate (Z.to_nat sizeof_IndexTupleData) 0) 0 sizeof_IndexTupleData) topparent.

Definition halfdead_page (leftblk rightblk topparent : Z) : res page :=
  p ← set_opaque _bt_pageinit leftblk rightblk 0 (Z.lor BTP_HALF_DEAD BTP_LEAF) 0;
  bt_add_item p (trunctuple topparent) P_HIKEY EError.

(** The downlink of the parent takes the block of its right neighbour, which
    is deleted. *)
Definition halfdead_parent (r : XLogReaderState) (poffset : Z) (p : page) : res page :=
  let nextoffset := OffsetNumberNext poffset in
  itemid ← PageGetItemIdChecked p nextoffset;
  if negb (in_range p (lp_off itemid) sizeof_ItemPointerData) then Err EOob else
  let rightsib := BTreeTupleGetDownLink p (lp_off itemid) in
  itemid ← PageGetItemIdChecked p poffset;
  if negb (in_range p (lp_off itemid) sizeof_ItemPointerData) then Err EOob else
  let p := BTreeTupleSetDownLink p (lp_off itemid) rightsib in
  p ← PageIndexTupleDelete p nextoffset;
  Ok (PageSetLSN p (EndRecPtr r)).

(** The leaf page is rewritten, but the action reported for it is
    [BLK_NOTFOUND]. *)
Definition polar_btree_xlog_mark_page_halfdead (st : dbstate) (r : XLogReaderState) (tag : BufferTag) (buffer : Buffer)
  : redo_result :=
  tag0 ← POLAR_GET_LOG_TAG r 0;
  tag1 ← POLAR_GET_LOG_TAG r 1;
  if BUFFERTAGS_EQUAL tag tag1 then
    poffset ← rd 2 (main_data r) 0;
    redo_read st r 1 false (halfdead_parent r poffset)
  else if BUFFERTAGS_EQUAL tag tag0 then
    leftblk ← rd 4 (main_data r) 8;
    rightblk ← rd 4 (main_data r) 12;
    topparent ← rd 4 (main_data r) 16;
    redo_init st r 0 buffer BLK_NOTFOUND (halfdead_page leftblk rightblk topparent)
  else Ok (st, buffer, BLK_NOTFOUND).

Definition polar_btree_xlog_unlink_page (info : Z) (st : dbstate) (r : XLogReaderState) (tag : BufferTag) (buffer : Buffer)
  : redo_result :=
  leftsib ← rd 4 (main_data r) 0;
  rightsib ← rd 4 (main_data r) 4;
  tag2 ← POLAR_GET_LOG_TAG r 2;
  if BUFFERTAGS_EQUAL tag tag2 then redo_read st r 2 false (link_page r btpo_prev leftsib) else
  left ← (if negb (leftsib =? P_NONE) then t ← POLAR_GET_LOG_TAG r 1; Ok (BUFFERTAGS_EQUAL tag t) else Ok false);
  if (left : bool) then redo_read st r 1 false (link_page r btpo_next rightsib) else
  tag0 ← POLAR_GET_LOG_TAG r 0;
  if BUFFERTAGS_EQUAL tag tag0 then
    xact ← rd 4 (main_data r) 20;
    redo_init st r 0 buffer BLK_NEEDS_REDO (set_opaque _bt_pageinit leftsib rightsib xact BTP_DELETED 0)
  else
  leaf ← (if XLogRecHasBlockRef r 3 then t ← POLAR_GET_LOG_TAG r 3; Ok (BUFFERTAGS_EQUAL tag t) else Ok false);
  if (leaf : bool) then
    leafleftsib ← rd 4 (main_data r) 8;
    leafrightsib ← rd 4 (main_data r) 12;
    topparent ← rd 4 (main_data r) 16;
    redo_init st r 3 buffer BLK_NEEDS_REDO (halfdead_page leafleftsib leafrightsib topparent)
  else if info =? XLOG_BTREE_UNLINK_PAGE_META then
    tag4 ← POLAR_GET_LOG_TAG r 4;
    if BUFFERTAGS_EQUAL tag tag4 then polar_bt_restore_meta st r 4 buffer else Ok (st, buffer, BLK_NOTFOUND)
  else Ok (st, buffer, BLK_NOTFOUND).

(** ** New root *)

Definition newroot_page (r : XLogReaderState) (level : Z) : res page :=
  p ← set_opaque _bt_pageinit P_NONE P_NONE level (if level =? 0 then Z.lor BTP_ROOT BTP_LEAF else BTP_ROOT) 0;
  if 0 <? level then _bt_restore_page p (block_bytes r 0) else Ok p.

Definition polar_btree_xlog_newroot (st : dbstate) (r : XLogReaderState) (tag : BufferTag) (buffer : Buffer) : redo_result :=
  level ← rd 4 (main_data r) 4;
  tag0 ← POLAR_GET_LOG_TAG r 0;
  if BUFFERTAGS_EQUAL tag tag0 then redo_init st r 0 buffer BLK_NEEDS_REDO (newroot_page r level) else
  left ← (if 0 <? level then t ← POLAR_GET_LOG_TAG r 1; Ok (BUFFERTAGS_EQUAL tag t) else Ok false);
  if (left : bool) then polar_bt_clear_incomplete_split st r 1 else
  tag2 ← POLAR_GET_LOG_TAG r 2;
  if BUFFERTAGS_EQUAL tag tag2 then polar_bt_restore_meta st r 2 buffer else Ok (st, buffer, BLK_NOTFOUND).

(** ** Dispatch *)

Definition polar_btree_redo (st : dbstate) (r : XLogReaderState) (tag : BufferTag) (buffer : Buffer) : redo_result :=
  let info := rec_info r in
  if info =? XLOG_BTREE_INSERT_LEAF then polar_btree_xlog_insert true false false st r tag buffer
  else if info =? XLOG_BTREE_INSERT_UPPER then polar_btree_xlog_insert false false false st r tag buffer
  else if info =? XLOG_BTREE_INSERT_META then polar_btree_xlog_insert false true false st r tag buffer
  else if info =? XLOG_BTREE_SPLIT_L then polar_btree_xlog_split true st r tag buffer
  else if info =? XLOG_BTREE_SPLIT_R then polar_btree_xlog_split false st r tag buffer
  else if info =? XLOG_BTREE_INSERT_POST then polar_btree_xlog_insert true false true st r tag buffer
  else if info =? XLOG_BTREE_DEDUP then btree_xlog_dedup st r tag buffer
  else if info =? XLOG_BTREE_VACUUM then polar_btree_xlog_vacuum st r tag buffer
  else if info =? XLOG_BTREE_DELETE then polar_btree_xlog_delete st r tag buffer
  else if info =? XLOG_BTREE_MARK_PAGE_HALFDEAD then polar_btree_xlog_mark_page_halfdead st r tag buffer
  else if (info =? XLOG_BTREE_UNLINK_PAGE) || (info =? XLOG_BTREE_UNLINK_PAGE_META)
    then polar_btree_xlog_unlink_page info st r tag buffer
  else if info =? XLOG_BTREE_NEWROOT then polar_btree_xlog_newroot st r tag buffer
  else if info =? XLOG_BTREE_REUSE_PAGE then Ok (st, buffer, BLK_NOTFOUND)
  else if info =? XLOG_BTREE_META_CLEANUP then polar_bt_restore_meta st r 0 buffer
  else Err EPanic.

(** ** Entering a record in the log index *)

Definition polar_btree_xlog_insert_save (isleaf ismeta : bool) (r : XLogReaderState) : list BufferTag :=
  (if negb isleaf then ParseXLogBlocksLsn r 1 else []) ++ ParseXLogBlocksLsn r 0 ++
  (if ismeta then ParseXLogBlocksLsn r 2 else []).

(** The tag of a block the record may or may not have. *)
Definition save_if_ref (r : XLogReaderState) (id : Z) : list BufferTag :=
  if XLogRecHasBlockRef r id then ParseXLogBlocksLsn r id else [].

Definition polar_btree_xlog_split_save (r : XLogReaderState) : list BufferTag :=
  save_if_ref r 3 ++ ParseXLogBlocksLsn r 1 ++ ParseXLogBlocksLsn r 0 ++ save_if_ref r 2.

Definition polar_btree_xlog_unlink_page_save (info : Z) (r : XLogReaderState) : list BufferTag :=
  ParseXLogBlocksLsn r 2 ++ save_if_ref r 1 ++ ParseXLogBlocksLsn r 0 ++ save_if_ref r 3 ++
  (if info =? XLOG_BTREE_UNLINK_PAGE_META then ParseXLogBlocksLsn r 4 else []).

Definition polar_btree_xlog_newroot_save (r : XLogReaderState) : list BufferTag :=
  ParseXLogBlocksLsn r 0 ++ save_if_ref r 1 ++ ParseXLogBlocksLsn r 2.

Definition polar_btree_idx_save (r : XLogReaderState) : res (list BufferTag) :=
  let info := rec_info r in
  if info =? XLOG_BTREE_INSERT_LEAF then Ok (polar_btree_xlog_insert_save true false r)
  else if info =? XLOG_BTREE_INSERT_UPPER then Ok (polar_btree_xlog_insert_save false false r)
  else if info =? XLOG_BTREE_INSERT_META then Ok (polar_btree_xlog_insert_save false true r)
  else if (info =? XLOG_BTREE_SPLIT_L) || (info =? XLOG_BTREE_SPLIT_R) then Ok (polar_btree_xlog_split_save r)
  else if info =? XLOG_BTREE_INSERT_POST then Ok (polar_btree_xlog_insert_save true false r)
  else if (info =? XLOG_BTREE_DEDUP) || (info =? XLOG_BTREE_VACUUM) || (info =? XLOG_BTREE_DELETE)
    then Ok (ParseXLogBlocksLsn r 0)
  else if info =? XLOG_BTREE_MARK_PAGE_HALFDEAD then Ok (ParseXLogBlocksLsn r 1 ++ ParseXLogBlocksLsn r 0)
  else if (info =? XLOG_BTREE_UNLINK_PAGE) || (info =? XLOG_BTREE_UNLINK_PAGE_META)
    then Ok (polar_btree_xlog_unlink_page_save info r)
  else if info =? XLOG_BTREE_NEWROOT then Ok (polar_btree_xlog_newroot_save r)
  else if info =? XLOG_BTREE_REUSE_PAGE then Ok []
  else if info =? XLOG_BTREE_META_CLEANUP then Ok (ParseXLogBlocksLsn r 0)
  else Err EPanic.

(** ** Collecting the tags *)

(** The tag of a block appended to the array of [n] tags. *)
Definition bt_put_tag (n : Z) (r : XLogReaderState) (id : Z) (l : list BufferTag) : res (list BufferTag) :=
  t ← tag_or_uninit r id; put_tag_ptr n l t.
Definition bt_put_if (c : bool) (n : Z) (r : XLogReaderState) (id : Z) (l : list BufferTag) : res (list BufferTag) :=
  if c then bt_put_tag n r id l else Ok l.

Definition polar_btree_xlog_insert_get_bufftag_list (isleaf ismeta : bool) (r : XLogReaderState) : res (list BufferTag) :=
  l ← bt_put_if (negb isleaf) 3 r 1 [];
  l ← bt_put_tag 3 r 0 l;
  bt_put_if ismeta 3 r 2 l.

Definition polar_btree_xlog_split_get_bufftag_list (r : XLogReaderState) : res (list BufferTag) :=
  l ← bt_put_if (XLogRecHasBlockRef r 3) 4 r 3 [];
  l ← bt_put_tag 4 r 1 l;
  l ← bt_put_tag 4 r 0 l;
  bt_put_if (XLogRecHasBlockRef r 2) 4 r 2 l.

Definition polar_btree_xlog_unlink_page_get_bufftag_list (info : Z) (r : XLogReaderState) : res (list BufferTag) :=
  l ← bt_put_tag 5 r 2 [];
  l ← bt_put_if (XLogRecHasBlockRef r 1) 5 r 1 l;
  l ← bt_put_tag 5 r 0 l;
  l ← bt_put_if (XLogRecHasBlockRef r 3) 5 r 3 l;
  bt_put_if (info =? XLOG_BTREE_UNLINK_PAGE_META) 5 r 4 l.

Definition polar_btree_xlog_newroot_get_bufftag_list (r : XLogReaderState) : res (list BufferTag) :=
  l ← bt_put_tag 3 r 0 [];
  l ← bt_put_if (XLogRecHasBlockRef r 1) 3 r 1 l;
  bt_put_tag 3 r 2 l.

Definition polar_btree_idx_get_bufftag_list (r : XLogReaderState) : res tag_result :=
  let info := rec_info r in
  if info =? XLOG_BTREE_INSERT_LEAF then Tags <$> polar_btree_xlog_insert_get_bufftag_list true false r
  else if info =? XLOG_BTREE_INSERT_UPPER then Tags <$> polar_btree_xlog_insert_get_bufftag_list false false r
  else if info =? XLOG_BTREE_INSERT_META then Tags <$> polar_btree_xlog_insert_get_bufftag_list false true r
  else if (info =? XLOG_BTREE_SPLIT_L) || (info =? XLOG_BTREE_SPLIT_R) then Tags <$> polar_btree_xlog_split_get_bufftag_list r
  else if info =? XLOG_BTREE_INSERT_POST then Tags <$> polar_btree_xlog_insert_get_bufftag_list true false r
  else if (info =? XLOG_BTREE_DEDUP) || (info =? XLOG_BTREE_VACUUM) || (info =? XLOG_BTREE_DELETE)
    then Tags <$> single_bufftag_list r
  else if info =? XLOG_BTREE_MARK_PAGE_HALFDEAD
    then Tags <$> (l ← bt_put_tag 2 r 1 []; bt_put_tag 2 r 0 l)
  else if (info =? XLOG_BTREE_UNLINK_PAGE) || (info =? XLOG_BTREE_UNLINK_PAGE_META)
    then Tags <$> polar_btree_xlog_unlink_page_get_bufftag_list info r
  else if info =? XLOG_BTREE_NEWROOT then Tags <$> polar_btree_xlog_newroot_get_bufftag_list r
  else if info =? XLOG_BTREE_REUSE_PAGE then Ok TagsUnset
  else if info =? XLOG_BTREE_META_CLEANUP then Tags <$> single_bufftag_list r
  else Err EPanic.
