(* ===== verification/BtreeSplit.v ===== *)
(** * Page splits

    What the redo of a split does to the two pages, in terms of their items:
    the left page gets its high key and the first part of the items, the new
    item among them when it belongs there; the right page is rebuilt from the
    items of the record. *)

From S2P Require Import Prelude Mem Page PageAdd PageIndex PageCompact Buffer WalRecord HeapRedo TagList Btree BtreePage BtreeRedo.

(** ** Copying the items *)

(** The items with [new] put before the one at index [k], if there is one. *)
Fixpoint merge_new (b : bool) (k : Z) (new : list Z) (its : list (list Z)) : list (list Z) :=
  match its with
  | [] => []
  | it :: its => (if b && (k =? 0) then [new] else []) ++ it :: merge_new b (k - 1) new its
  end.

(** The same with the new item at the end when [k] is the length. *)
Definition insert_new (b : bool) (k : Z) (new : list Z) (its : list (list Z)) : list (list Z) :=
  if b then take (Z.to_nat k) its ++ new :: drop (Z.to_nat k) its else its.

Lemma merge_new_neg b new its : ∀ k, k < 0 → merge_new b k new its = its.
Proof.
  induction its as [|it its IH]; intros k Hk; cbn [merge_new]; [done|]. rewrite (proj2 (Z.eqb_neq k 0)), andb_false_r by lia.
  rewrite IH by lia. done.
Qed.

Lemma merge_new_insert b new its : ∀ k, 0 ≤ k ≤ zlen its →
  merge_new b k new its ++ (if b && (k =? zlen its) then [new] else []) = insert_new b k new its.
Proof.
  unfold insert_new, zlen. induction its as [|it its IH]; intros k Hk; cbn [merge_new length] in *.
  - assert (k = 0) as -> by lia. cbn. by destruct b.
  - destruct (Z.eqb_spec k 0) as [->|Hne].
    + rewrite andb_true_r. rewrite merge_new_neg by lia. rewrite (proj2 (Z.eqb_neq 0 _)), andb_false_r, app_nil_r by lia.
      cbn. by destruct b.
    + rewrite andb_false_r. cbn [app]. specialize (IH (k - 1) ltac:(lia)).
      replace (k =? Z.of_nat (S (length its))) with (k - 1 =? Z.of_nat (length its)) by (zcase; lia).
      cbn [app]. rewrite IH. destruct b; [|done]. replace (Z.to_nat k) with (S (Z.to_nat (k - 1))) by lia. done.
Qed.

Section loop.
Context (onleft : bool) (x : xl_btree_split) (l : split_left) (lpage : page) (new : list Z).
Context (Hrep : replacepostingoff l = InvalidOffsetNumber) (Hw : page_wf lpage).
Context (Hnew : onleft = true → load (sl_newitem l) 0 (newitemsz l) = Ok new ∧ good_item new).

(** The items at the offset numbers from [off] on. *)
Definition items_at (p : page) (off : Z) (its : list (list Z)) : Prop :=
∀ i it, its !! i = Some it → 1 ≤ off + Z.of_nat i ≤ PageGetMaxOffsetNumber p ∧ slot_at p (off + Z.of_nat i) = item_slot it.

Lemma add_newitem_spec q leftoff :
onleft = true → page_wf q → leftoff = PageGetMaxOffsetNumber q + 1 → MAXALIGN (zlen new) + 4 ≤ pd_upper q - pd_lower q →
∃ q', add_newitem q l leftoff = Ok q' ∧ page_wf q' ∧ same_rest q q' ∧ page_slots q' = page_slots q ++ [item_slot new] ∧
pd_upper q' - pd_lower q' = pd_upper q - pd_lower q - (MAXALIGN (zlen new) + 4) ∧ PageGetMaxOffsetNumber q' = PageGetMaxOffsetNumber q + 1.
Proof using Hnew.
intros Hb Hq Hl Hfit. destruct (Hnew Hb) as [Hload [Hby Hz]]. unfold add_newitem. rewrite Hload. cbn [mbind res_bind].
destruct (bt_append_spec q new leftoff EError) as (q' & ? & ? & ? & ? & ? & ? & ?); try done.
exists q'. split_and!; (done || lia).
Qed.

(** The bytes of an item through its line pointer. *)
Lemma item_bytes off it : slot_at lpage off = item_slot it → 0 < zlen it → 1 ≤ off ≤ PageGetMaxOffsetNumber lpage →
PageGetItemIdChecked lpage off = Ok (PageGetItemId lpage off) ∧
load lpage (lp_off (PageGetItemId lpage off)) (ItemIdGetLength (PageGetItemId lpage off)) = Ok it.
Proof using Hw.
intros Hs Hz Ho. pose proof (wf_hdr _ Hw) as Hh. pose proof (linp_addr_range _ _ Hh Ho). pose proof Hh as [].
unfold slot_at, slot_of, PageGetItemBytes in Hs. destruct (Z.eqb_spec (lp_len (PageGetItemId lpage off)) 0) as [|Hn].
{ injection Hs as _ _ <-. unfold zlen in Hz; cbn in Hz; lia. }
injection Hs as _ <-. destruct (wf_item _ Hw _ Ho Hn) as (Hlo & Hhi & _). pose proof (MAXALIGN_bounds (lp_len (PageGetItemId lpage off))).
pose proof (PageGetItemId_bound lpage off). unfold BLCKSZ in *. split.
- unfold PageGetItemIdChecked, sizeof_ItemIdData. by rewrite (proj2 (in_range_true _ _ _)) by lia.
- unfold load, ItemIdGetLength. by rewrite (proj2 (in_range_true _ _ _)) by lia.
Qed.

Lemma split_left_loop_spec its : ∀ q off,
page_wf q → 1 ≤ off → items_at lpage off its → Forall good_item its →
items_space (merge_new onleft (newitemoff x - off) new its) ≤ pd_upper q - pd_lower q →
∃ q', split_left_loop onleft x l lpage q off (PageGetMaxOffsetNumber q + 1) (length its) = Ok (q', PageGetMaxOffsetNumber q' + 1) ∧
page_wf q' ∧ same_rest q q' ∧ page_slots q' = page_slots q ++ (item_slot <$> merge_new onleft (newitemoff x - off) new its) ∧
pd_upper q' - pd_lower q' = pd_upper q - pd_lower q - items_space (merge_new onleft (newitemoff x - off) new its).
Proof using Hrep Hw Hnew.
induction its as [|it its IH]; intros q off Hq Ho Hat Hg Hfit; cbn [length split_left_loop merge_new] in *.
- exists q. cbn. rewrite app_nil_r. split_and!; [done..|lia].
- apply Forall_cons in Hg as [[Hib Hiz] Hg]. rewrite Hrep. unfold InvalidOffsetNumber. rewrite (proj2 (Z.eqb_neq off 0)) by lia.
destruct (Hat 0%nat it eq_refl) as [Hr Hsl]. rewrite Nat2Z.inj_0, Z.add_0_r in Hr, Hsl.
destruct (item_bytes off it Hsl Hiz Hr) as [Hid Hload].
assert (Hat' : items_at lpage (off + 1) its).
{ intros i it' Hi. destruct (Hat (S i) it' Hi) as [? Hs']. replace (off + 1 + Z.of_nat i) with (off + Z.of_nat (S i)) by lia. done. }
replace (newitemoff x - (off + 1)) with (newitemoff x - off - 1) in IH by lia.
replace (off =? newitemoff x) with (newitemoff x - off =? 0) by (zcase; lia).
pose proof (items_space_nonneg (merge_new onleft (newitemoff x - off - 1) new its)).
pose proof (MAXALIGN_bounds (zlen it)). 
assert (Hstep : ∀ q1, page_wf q1 → MAXALIGN (zlen it) + 4 + items_space (merge_new onleft (newitemoff x - off - 1) new its) ≤ pd_upper q1 - pd_lower q1 →
∃ q', (newlpage ← bt_add_item q1 it (PageGetMaxOffsetNumber q1 + 1) EError;
split_left_loop onleft x l lpage newlpage (off + 1) (PageGetMaxOffsetNumber q1 + 1 + 1) (length its)) = Ok (q', PageGetMaxOffsetNumber q' + 1) ∧
page_wf q' ∧ same_rest q1 q' ∧ page_slots q' = page_slots q1 ++ (item_slot <$> it :: merge_new onleft (newitemoff x - off - 1) new its) ∧
pd_upper q' - pd_lower q' = pd_upper q1 - pd_lower q1 - items_space (it :: merge_new onleft (newitemoff x - off - 1) new its)).
{ intros q1 Hq1 Hf1. destruct (bt_append_spec q1 it _ EError Hq1 Hib Hiz eq_refl) as (q2 & -> & Hw2 & Hr2 & Hs2 & Hl2 & Hu2 & Hm2); [lia|].
cbn [mbind res_bind]. rewrite <-Hm2. destruct (IH q2 (off + 1) Hw2 ltac:(lia) Hat' Hg) as (q' & Hq' & Hw' & Hr' & Hs' & Hf').
{ replace (newitemoff x - (off + 1)) with (newitemoff x - off - 1) by lia. lia. }
exists q'. replace (newitemoff x - (off + 1)) with (newitemoff x - off - 1) in * by lia.
rewrite Hs', Hs2, <-app_assoc. split_and!; [done|done|by etrans|done|cbn [items_space]; lia]. }
destruct (onleft && (newitemoff x - off =? 0)) eqn:Eb; cbn [app items_space] in Hfit.
+ apply andb_true_iff in Eb as [Hb Hk]. pose proof (MAXALIGN_bounds (zlen new)).
destruct (add_newitem_spec q (PageGetMaxOffsetNumber q + 1) Hb Hq eq_refl) as (q1 & -> & Hw1 & Hr1 & Hs1 & Hf1 & Hm1); [lia|].
cbn [mbind res_bind]. rewrite Hid. cbn [mbind res_bind]. rewrite Hload. cbn [mbind res_bind]. rewrite <-Hm1. destruct (Hstep q1 Hw1) as (q' & Hq' & Hw' & Hr' & Hs' & Hf'); [lia|].
exists q'. rewrite Hs', Hs1, <-app_assoc. cbn [app items_space] in *. split_and!; [done|done|by etrans|done|lia].
+ cbn [mbind res_bind]. rewrite Hid. cbn [mbind res_bind]. rewrite Hload. cbn [mbind res_bind]. apply Hstep; [done|]. lia.
Qed.
End loop.

(** ** The left page *)

Lemma rest_get p q n o : same_rest p q → 0 ≤ o → o + Z.of_nat n ≤ 12 ∨ (16 ≤ o ∧ o + Z.of_nat n ≤ 24) ∨ pd_special p ≤ o →
  mget n q o = mget n p o.
Proof. intros H Ho Hd. unfold mget. f_equal. by apply (rest_reads _ _ H). Qed.

Lemma rest_bt_wf p q : bt_wf p → page_wf q → same_rest p q → bt_wf q.
Proof. intros Hw Hq Hr. constructor; [done|]. by rewrite (rest_special _ _ Hr), (bt_special _ Hw). Qed.

Lemma rest_page_size p q : same_rest p q → PageGetPageSize q = PageGetPageSize p.
Proof. intros H. unfold PageGetPageSize, pd_pagesize_version. rewrite (rest_get p q) by (done || lia). done. Qed.

Lemma rest_opaque p q : bt_wf p → page_wf q → same_rest p q → opaque_of q = opaque_of p.
Proof.
  intros Hw Hq Hr. pose proof (rest_bt_wf _ _ Hw Hq Hr) as Hw'. rewrite !opaque_of_eq by done. pose proof (bt_special _ Hw) as Hs.
  unfold btpo_prev, btpo_next, btpo_level, btpo_flags, btpo_cycleid, opq in *. rewrite <-Hs.
  pose proof (wf_hdr _ Hw) as []. rewrite !(rest_get p q) by (done || lia). done.
Qed.

(** What the data of the record says, without a posting list split. *)
Lemma get_split_left_spec onleft x lpage new hikey :
  sp_postingoff x = 0 → (onleft = true → logged_tuple new) → logged_tuple hikey →
  ∃ l, get_split_left onleft x ((if onleft then new else []) ++ hikey) lpage = Ok l ∧
    replacepostingoff l = InvalidOffsetNumber ∧ left_hikey l = hikey ∧
    (onleft = true → load (sl_newitem l) 0 (newitemsz l) = Ok new).
Proof.
  intros Hp Hn (Hb & Hz & Ha). unfold get_split_left, sizeof_IndexTupleData in *. rewrite Hp. cbn [Z.eqb negb]. rewrite orb_false_r.
  assert (Hhik : ∀ pre, in_range (pre ++ hikey) (zlen pre) 8 = true ∧ IndexTupleSize (pre ++ hikey) (zlen pre) = IndexTupleSize hikey 0 ∧
    load (pre ++ hikey) (zlen pre) (zlen hikey) = Ok hikey).
  { intros pre. pose proof (tuple_size_app pre hikey [] Hb) as E. rewrite app_nil_r in E. pose proof (mread_middle pre hikey []) as M. rewrite app_nil_r in M.
    split_and!; [|by apply E|unfold load; rewrite M, (proj2 (in_range_true _ _ _)); [done|]]; [apply in_range_true|]; unfold zlen in *; rewrite length_app; lia. }
  destruct onleft.
  - destruct (Hn eq_refl) as (Hnb & Hnz & Hna).
    pose proof (tuple_size_app [] new hikey Hnb Hnz) as En. cbn [app] in En. change (zlen []) with 0 in En.
    rewrite (proj2 (in_range_true (new ++ hikey) 0 8)) by (unfold zlen, sizeof_IndexTupleData in *; rewrite length_app; lia). cbn [negb mbind res_bind].
    rewrite En, Hna. destruct (Hhik new) as (-> & -> & Hl). cbn [negb]. rewrite Ha, Hl. cbn [mbind res_bind].
    eexists. split; [done|]. split_and!; [done|done|]. intros _. cbn [sl_newitem newitemsz]. unfold load.
    rewrite (proj2 (in_range_true _ _ _)) by (unfold zlen in *; rewrite length_app; lia).
    pose proof (mread_middle [] new hikey) as M. cbn [app] in M. change (zlen []) with 0 in M. by rewrite M.
  - cbn [app negb mbind res_bind]. destruct (Hhik []) as (H1 & H2 & H3). cbn [app] in *. change (zlen []) with 0 in *. rewrite H1. cbn [negb].
    rewrite Ha, H3. cbn [mbind res_bind]. eexists. split; [done|]. done.
Qed.

(** The offset number of the first data item. *)
Definition first_data (p : page) : Z := if mget 4 p (opq + btpo_next) =? P_NONE then P_HIKEY else P_FIRSTKEY.

Lemma firstdatakey_spec p : bt_wf p → P_FIRSTDATAKEY p (PageGetSpecialPointer p) = Ok (first_data p) ∧ 1 ≤ first_data p ≤ 2.
Proof.
  intros Hw. unfold P_FIRSTDATAKEY, P_RIGHTMOST, PageGetSpecialPointer, first_data. rewrite opaque_get_spec by done.
  rewrite (bt_special _ Hw). fold opq. cbn [mbind res_bind]. unfold P_HIKEY, P_FIRSTKEY. destruct (_ =? _); (split; [done|lia]).
Qed.

Lemma wf_not_new p : page_wf p → PageIsNew p = false.
Proof. intros Hw. pose proof (wf_hdr _ Hw) as []. unfold PageIsNew. zcase; done || lia. Qed.

Lemma set_lsn_bt p lsn : bt_wf p → 0 ≤ lsn < 2 ^ 64 →
  bt_wf (PageSetLSN p lsn) ∧ PageGetLSN (PageSetLSN p lsn) = lsn ∧ page_slots (PageSetLSN p lsn) = page_slots p ∧
  opaque_of (PageSetLSN p lsn) = opaque_of p.
Proof.
  intros Hw Hl. pose proof (frame_lsn p lsn) as Hf. pose proof (wf_hdr _ Hw) as Hh. pose proof Hh as [].
  assert (Hb : bt_wf (PageSetLSN p lsn)) by (constructor; [eapply frame_wf; [exact Hf|apply Hw]|by rewrite (fr_special _ _ Hf), (bt_special _ Hw)]).
  split_and!; [done|apply PageGetSetLSN; unfold BLCKSZ in *; lia|by apply frame_slots; [|apply Hw]|].
  rewrite !opaque_of_eq by done. unfold mget. rewrite !(fr_body _ _ Hf); [done|done..].
Qed.

(** The last part of the split: the special space of the left page. *)
Lemma fix_left_opaque q level rightblk lsn :
  bt_wf q → 0 ≤ rightblk < 2 ^ 32 → 0 ≤ lsn < 2 ^ 64 →
  let '(prev, _, lev, _, _) := opaque_of q in
  let flags := if level =? 0 then Z.lor BTP_INCOMPLETE_SPLIT BTP_LEAF else BTP_INCOMPLETE_SPLIT in
  ∃ q', (p ← opaque_set 2 q opq btpo_flags flags; p ← opaque_set 4 p opq btpo_next rightblk;
         p ← opaque_set 2 p opq btpo_cycleid 0; Ok (PageSetLSN p lsn)) = Ok q' ∧
    bt_wf q' ∧ PageGetLSN q' = lsn ∧ page_slots q' = page_slots q ∧ opaque_of q' = (prev, rightblk, lev, flags, 0).
Proof.
  intros Hw Hr Hl. rewrite opaque_of_eq by done. set (flags := if level =? 0 then _ else _).
  assert (Hfl : 0 ≤ flags < 2 ^ 16) by (unfold flags; destruct (_ =? _); done). cbv zeta. pose proof (wf_len _ (wf_hdr _ Hw)) as Hz. unfold BLCKSZ in Hz.
  destruct (opaque_put 2 q btpo_flags flags Hw) as (-> & H1 & S1); [done..|]. cbn [mbind res_bind]. set (p1 := mput 2 q _ _) in *.
  destruct (opaque_put 4 p1 btpo_next rightblk H1) as (-> & H2 & S2); [done..|]. cbn [mbind res_bind]. set (p2 := mput 4 p1 _ _) in *.
  destruct (opaque_put 2 p2 btpo_cycleid 0 H2) as (-> & H3 & S3); [done..|]. cbn [mbind res_bind]. set (p3 := mput 2 p2 _ _) in *.
  destruct (set_lsn_bt p3 lsn H3 Hl) as (H4 & H5 & H6 & H7). eexists. split; [done|].
  split_and!; [done|done|by rewrite H6, (special_slots _ _ H2 S3), (special_slots _ _ H1 S2), (special_slots _ _ Hw S1)|].
  rewrite H7, opaque_of_eq by done. unfold p3, p2, p1. opq_simpl. change (256 ^ Z.of_nat 2) with (2 ^ 16). change (256 ^ Z.of_nat 4) with (2 ^ 32).
  rewrite !Z.mod_small by lia. done.
Qed.

Section left.
Context (onleft : bool) (r : XLogReaderState) (x : xl_btree_split) (rightblk : Z) (lpage : page).
Context (new hikey : list Z) (its : list (list Z)).
Let first := first_data lpage.
Let left_items := insert_new onleft (newitemoff x - first) new its.
Context (Hw : bt_wf lpage) (Hps : PageGetPageSize lpage = BLCKSZ).
Context (Hdata : block_bytes r 0 = (if onleft then new else []) ++ hikey).
Context (Hpost : sp_postingoff x = 0) (Hnew : onleft = true → logged_tuple new) (Hhik : logged_tuple hikey).
Context (Hits : items_at lpage first its) (Hgood : Forall good_item its) (Hlen : zlen its = firstrightoff x - first).
Context (Hoff : onleft = true → first ≤ newitemoff x ≤ firstrightoff x).
Context (Hfit : items_space (hikey :: left_items) ≤ opq - 24).
Context (Hblk : 0 ≤ rightblk < 2 ^ 32) (Hlsn : 0 ≤ EndRecPtr r < 2 ^ 64).

(** The temporary page once all items are on it. *)
Lemma left_items_added l :
replacepostingoff l = InvalidOffsetNumber → left_hikey l = hikey → (onleft = true → load (sl_newitem l) 0 (newitemsz l) = Ok new) →
∃ q, (newlpage ← bt_add_item (PageGetTempPageCopySpecial lpage) (left_hikey l) P_HIKEY EPanic;
'(newlpage, leftoff) ← split_left_loop onleft x l lpage newlpage first (OffsetNumberNext P_HIKEY) (Z.to_nat (firstrightoff x - first));
if onleft && (Z.max first (firstrightoff x) =? newitemoff x) then add_newitem newlpage l leftoff else Ok newlpage) = Ok q ∧
page_wf q ∧ same_rest (PageGetTempPageCopySpecial lpage) q ∧ page_slots q = item_slot <$> hikey :: left_items.
Proof using All.
intros Hl1 Hl2 Hl3. destruct (temp_page_spec lpage Hw Hps) as (Ht & Hts & Htl & Htu & _ & _). set (t := PageGetTempPageCopySpecial lpage) in *.
pose proof (slots_maxoff t) as Htm. rewrite Hts in Htm. cbn in Htm. destruct (logged_good _ Hhik) as [Hhb Hhz].
assert (Hng : onleft = true → load (sl_newitem l) 0 (newitemsz l) = Ok new ∧ good_item new)
by (intros Hb; split; [auto|by apply logged_good, Hnew]).
assert (Hmerge : merge_new onleft (newitemoff x - first) new its ++ (if onleft && (Z.max first (firstrightoff x) =? newitemoff x) then [new] else []) = left_items).
{ unfold left_items. destruct onleft; [|cbn; rewrite app_nil_r; unfold insert_new; clear; generalize (newitemoff x - first); induction its as [|it l IH]; intros k; cbn; [done|by rewrite IH]].
specialize (Hoff eq_refl). rewrite <-merge_new_insert by lia. do 2 f_equal. cbn [andb]. pose proof (zlen its). f_equal.
replace (newitemoff x - first =? zlen its) with (newitemoff x =? firstrightoff x) by (zcase; lia). zcase; lia || done. }
pose proof (firstdatakey_spec lpage Hw) as [_ Hfst]. fold first in Hfst.
cbn [items_space] in Hfit. rewrite <-Hmerge, items_space_app in Hfit.
pose proof (items_space_nonneg (merge_new onleft (newitemoff x - first) new its)).
set (tail := if onleft && _ then [new] else []) in *. pose proof (items_space_nonneg tail). pose proof (MAXALIGN_bounds (zlen hikey)).
rewrite Hl2. destruct (bt_append_spec t hikey P_HIKEY EPanic) as (q1 & -> & Hw1 & Hr1 & Hs1 & Hlo1 & Hu1 & Hm1); [apply Ht|done..|unfold P_HIKEY; lia|lia|].
cbn [mbind res_bind].
destruct (split_left_loop_spec onleft x l lpage new Hl1 Hw Hng its q1 first Hw1 ltac:(lia) Hits Hgood) as (q2 & Hq2 & Hw2 & Hr2 & Hs2 & Hf2); [lia|].
replace (OffsetNumberNext P_HIKEY) with (PageGetMaxOffsetNumber q1 + 1) by (rewrite Hm1, <-Htm; done).
replace (Z.to_nat (firstrightoff x - first)) with (length its) by (unfold zlen in Hlen; lia). rewrite Hq2. cbn [mbind res_bind].
unfold tail in *. destruct (onleft && (Z.max first (firstrightoff x) =? newitemoff x)) eqn:Eb.
- apply andb_true_iff in Eb as [Hb _]. cbn [items_space] in *.
destruct (add_newitem_spec onleft l new Hng q2 _ Hb Hw2 eq_refl) as (q3 & Hq3 & Hw3 & Hr3 & Hs3 & _); [lia|].
exists q3. split_and!; [done|done|by do 2 (etrans; [done|])|]. rewrite Hs3, Hs2, Hs1, Hts, <-Hmerge. cbn [app fmap list_fmap].
by rewrite fmap_app.
- exists q2. split_and!; [done|done|by etrans|]. rewrite Hs2, Hs1, Hts, <-Hmerge, app_nil_r. done.
Qed.

Lemma split_left_page_spec :
let '(prev, _, lev, _, _) := opaque_of lpage in
∃ q, split_left_page onleft r x rightblk lpage = Ok q ∧ bt_wf q ∧ PageGetLSN q = EndRecPtr r ∧
page_slots q = item_slot <$> hikey :: left_items ∧
opaque_of q = (prev, rightblk, lev, if sp_level x =? 0 then Z.lor BTP_INCOMPLETE_SPLIT BTP_LEAF else BTP_INCOMPLETE_SPLIT, 0).
Proof using All.
destruct (get_split_left_spec onleft x lpage new hikey Hpost Hnew Hhik) as (l & Hl & Hl1 & Hl2 & Hl3).
destruct (left_items_added l Hl1 Hl2 Hl3) as (q & Hq & Hwq & Hrq & Hsq).
destruct (temp_page_spec lpage Hw Hps) as (Ht & _ & _ & _ & Htz & Htr). set (t := PageGetTempPageCopySpecial lpage) in *.
pose proof (rest_bt_wf _ _ Ht Hwq Hrq) as Hbq.
assert (Hop : opaque_of q = opaque_of lpage).
{ rewrite (rest_opaque t q), !opaque_of_eq by done. unfold mget. rewrite !Htr by (unfold opq; done). done. }
pose proof (fix_left_opaque q (sp_level x) rightblk (EndRecPtr r) Hbq Hblk Hlsn) as Hfix. rewrite Hop in Hfix.
destruct (opaque_of lpage) as [[[[prev next] lev] fl] cyc]. cbv zeta in Hfix. destruct Hfix as (q' & Hq' & Hw' & Hlsn' & Hs' & Ho').
exists q'. split_and!; [|done|done|by rewrite Hs', Hsq|done].
unfold split_left_page. rewrite Hdata, Hl. cbn [mbind res_bind]. destruct (firstdatakey_spec lpage Hw) as [-> _]. fold first.
fold t. revert Hq. destruct (bt_add_item t (left_hikey l) P_HIKEY EPanic) as [q1|]; cbn [mbind res_bind]; [|done].
destruct (split_left_loop _ _ _ _ _ _ _ _) as [[q2 lo]|]; cbn [mbind res_bind]; [|done]. intros ->. cbn [mbind res_bind].
unfold PageGetSpecialPointer. rewrite (bt_special _ Hw). fold opq.
rewrite restore_temp_page; [exact Hq'|apply (wf_hdr _ Hwq)|apply (wf_hdr _ Hw)|by rewrite (rest_page_size _ _ Hrq)].
Qed.
End left.

(** ** The right page *)

Lemma restore_right_spec r x leftsib items :
  XLogRecGetBlockTag r 0 = Some leftsib → block_bytes r 1 = concat (rev items) → Forall logged_tuple items →
  (length items ≤ Z.to_nat MaxIndexTuplesPerPage)%nat → items_space items ≤ opq - 24 →
  ∃ q, polar_restore_right r x = Ok q ∧ bt_wf q ∧ page_slots q = item_slot <$> items ∧
    opaque_of q = (u32 (blockNum leftsib), u32 (block_or_none r 2), u32 (sp_level x), if sp_level x =? 0 then BTP_LEAF else 0, 0).
Proof.
  intros Ht Hd Hl Hn Hfit. unfold polar_restore_right, POLAR_GET_LOG_TAG. rewrite Ht. cbn [mbind res_bind].
  destruct bt_pageinit_spec as (Hi & His & Hil & Hiu & _).
  destruct (set_opaque_spec _bt_pageinit (blockNum leftsib) (block_or_none r 2) (sp_level x) (if sp_level x =? 0 then BTP_LEAF else 0) 0 Hi)
    as (p & -> & Hw & Hs & Ho). cbn [mbind res_bind]. rewrite Hd.
  destruct (special_hdr _ _ Hi Hs) as (Hlo & Hup & _).
  destruct (restore_page_spec p items) as (q & Hq & Hwq & Hrq & Hsq);
    [apply Hw|by rewrite (special_slots _ _ Hi Hs)|done|done|by rewrite Hlo, Hup, Hil, Hiu|].
  exists q. split_and!; [done|by eapply rest_bt_wf|done|]. rewrite (rest_opaque _ _ Hw Hwq Hrq), Ho. by destruct (_ =? _).
Qed.
