(* ===== verification/BtreeInsert.v ===== *)
(** * Insertion into a B-tree page

    Redo of an insertion, with and without the split of a posting list, on
    the slots of the page. *)

From S2P Require Import Prelude Mem Page PageAdd PageIndex PageCompact Buffer WalRecord HeapRedo TagList Btree BtreePage BtreePosting BtreeRedo BtreeSplit.

(** A page without room for the item refuses it. *)
Lemma bt_add_item_full p item off e :
  page_wf p → 1 ≤ off ≤ PageGetMaxOffsetNumber p + 1 → pd_upper p - pd_lower p < MAXALIGN (zlen item) + 4 → bt_add_item p item off e = Err e.
Proof.
  intros Hw Ho Hfull. pose proof (maxoff_small p (wf_hdr _ Hw)).
  unfold bt_add_item, PageAddItem, PageAddItemExtended. rewrite page_pointers_ok_wf by apply Hw. cbn [negb]. rewrite limit_eq by apply Hw.
  unfold select_offset. rewrite limit_eq by apply Hw.
  assert (OffsetNumberIsValid off = true) as ->.
  { unfold OffsetNumberIsValid, InvalidOffsetNumber. change MaxOffsetNumber with 2048. apply andb_true_intro; split; zcase; done || lia. }
  change (has_flag (Z.lor 0 0) PAI_OVERWRITE) with false. change (has_flag (Z.lor 0 0) PAI_IS_HEAP) with false. cbn [andb].
  destruct (Z.ltb_spec (PageGetMaxOffsetNumber p + 1) off); [lia|].
  assert (Hins : (off =? PageGetMaxOffsetNumber p + 1) || (off <? PageGetMaxOffsetNumber p + 1) = true) by (zcase; done || lia).
  rewrite Hins. unfold sizeof_ItemIdData. destruct (Z.ltb_spec (pd_upper p - MAXALIGN (zlen item)) (pd_lower p + 4)); [done|lia].
Qed.

(** [same_rest] keeps a B-tree page one, with its special space. *)
Lemma same_rest_bt p q : bt_wf p → page_wf q → same_rest p q → bt_wf q ∧ opaque_of q = opaque_of p.
Proof. intros. split; [by eapply rest_bt_wf|by apply rest_opaque]. Qed.

(** The new slots of a page with an item inserted at an offset number. *)
Definition insert_slot (off : Z) (x : slot) (s : list slot) : list slot :=
  take (Z.to_nat (off - 1)) s ++ x :: drop (Z.to_nat (off - 1)) s.

Lemma insert_leaf_page r off p : bt_wf p → good_item (block_bytes r 0) → 0 ≤ EndRecPtr r < 2 ^ 64 → 1 ≤ off ≤ PageGetMaxOffsetNumber p + 1 →
  if decide (MAXALIGN (zlen (block_bytes r 0)) + 4 ≤ pd_upper p - pd_lower p) then
    ∃ q, btree_insert_page r false off p = Ok q ∧ bt_wf q ∧ PageGetLSN q = EndRecPtr r ∧ opaque_of q = opaque_of p ∧
      page_slots q = insert_slot off (item_slot (block_bytes r 0)) (page_slots p)
  else btree_insert_page r false off p = Err EPanic.
Proof.
  intros Hw [Hb Hz] Hl Ho. unfold btree_insert_page. destruct (decide _) as [Hfit|Hfull].
  - destruct (bt_add_item_spec p (block_bytes r 0) off EPanic) as (q & -> & Hq & Hrest & Hs & _); [apply Hw|done..|]. cbn [mbind res_bind].
    destruct (same_rest_bt p q Hw Hq Hrest) as [Hw' Ho']. destruct (set_lsn_bt q (EndRecPtr r) Hw' Hl) as (H1 & H2 & H3 & H4).
    eexists. split; [reflexivity|]. rewrite H3, H4. done.
  - rewrite bt_add_item_full; [done|apply Hw|done|lia].
Qed.

(** ** Posting list splits in a page *)

(** A leaf tuple as [index_form_tuple] makes it: its recorded size is its
    aligned length. *)
Record leaf_tuple (t : list Z) : Prop := {
  lt_bytes : Forall is_byte t;
  lt_min : sizeof_IndexTupleData ≤ zlen t;
  lt_size : IndexTupleSize t 0 = zlen t;
  lt_align : MAXALIGN (zlen t) = zlen t }.

Lemma copy_tuple m a t : mread m a (zlen t) = t → 0 ≤ a → a + zlen t ≤ zlen m → sizeof_IndexTupleData ≤ zlen t → IndexTupleSize t 0 = zlen t →
  CopyIndexTuple m a = Ok t.
Proof.
  intros Hr Ha Hz Hm Hs. unfold CopyIndexTuple, sizeof_IndexTupleData in *. rewrite (proj2 (in_range_true m a 8)) by lia.
  assert (IndexTupleSize m a = zlen t) as ->.
  { rewrite <-Hs. unfold IndexTupleSize, t_info, mget. do 2 f_equal. rewrite <-Hr. by rewrite mread_mread by lia. }
  unfold load. rewrite (proj2 (in_range_true m a _)) by lia. by rewrite Hr.
Qed.

(** The item of a slot, in the page. *)
Lemma item_at p off it : page_wf p → 1 ≤ off ≤ PageGetMaxOffsetNumber p → page_slots p !! Z.to_nat (off - 1) = Some (item_slot it) → 0 < zlen it →
  let lp := PageGetItemId p off in
  PageGetItemIdChecked p off = Ok lp ∧ lp_len lp = zlen it ∧ mread p (lp_off lp) (zlen it) = it ∧ 0 ≤ lp_off lp ∧ lp_off lp + zlen it ≤ pd_special p.
Proof.
  intros Hw Ho Hs Hz lp. rewrite page_slots_lookup in Hs. destruct (decide _); [|done]. replace (1 + Z.of_nat (Z.to_nat (off - 1))) with off in Hs by lia.
  injection Hs as Hs. unfold slot_at in Hs. fold lp in Hs. unfold slot_of in Hs.
  destruct (Z.eqb_spec (lp_len lp) 0) as [E|E]; [injection Hs as _ _ Hx; rewrite <-Hx in Hz; done|].
  injection Hs as _ Hb. unfold PageGetItemBytes in Hb.
  destruct (wf_item _ Hw off Ho E) as (Hu & Hsp & _). fold lp in Hu, Hsp. pose proof (MAXALIGN_bounds (lp_len lp)).
  pose proof (wf_hdr _ Hw) as Hh. pose proof Hh as []. pose proof (linp_addr_range _ _ Hh Ho). unfold BLCKSZ in *.
  pose proof (PageGetItemId_bound p off) as Hbd. fold lp in Hbd.
  assert (Hl : zlen it = lp_len lp) by (rewrite <-Hb; apply zlen_mread; lia).
  rewrite Hl. split_and!; [|done|done|lia|lia]. unfold PageGetItemIdChecked, sizeof_ItemIdData. by rewrite (proj2 (in_range_true _ _ _)) by lia.
Qed.

(** Overwriting an item of the page. *)
Lemma item_replace p off it bs : bt_wf p → 1 ≤ off ≤ PageGetMaxOffsetNumber p → page_slots p !! Z.to_nat (off - 1) = Some (item_slot it) →
  0 < zlen it → zlen bs = zlen it → Forall is_byte bs →
  ∃ q, store p (lp_off (PageGetItemId p off)) bs = Ok q ∧ bt_wf q ∧ opaque_of q = opaque_of p ∧
    page_slots q = <[Z.to_nat (off - 1) := item_slot bs]> (page_slots p) ∧ pd_lower q = pd_lower p ∧ pd_upper q = pd_upper p.
Proof.
  intros Hw Ho Hs Hz Hzb Hb. destruct (item_at p off it Hw Ho Hs Hz) as (_ & Hl & Hr & H0 & Hsp).
  pose proof (wf_hdr _ Hw) as []. pose proof (bt_special _ Hw) as Hbs. unfold BLCKSZ, sizeof_BTPageOpaqueData in *.
  destruct (item_write_refines p off bs Hw Ho) as (Hq & Hsl & Hhd & _); [lia|lia|done|].
  unfold store. rewrite (proj2 (in_range_true _ _ _)) by lia. eexists. split; [reflexivity|].
  assert (Hg : ∀ k o, 0 ≤ o → o + Z.of_nat k ≤ 24 → mget k (mwrite p (lp_off (PageGetItemId p off)) bs) o = mget k p o) by (intros; unfold mget; by rewrite Hhd by lia).
  assert (Hps : pd_special (mwrite p (lp_off (PageGetItemId p off)) bs) = pd_special p) by (apply Hg; lia).
  split_and!; [| | |apply Hg; lia|apply Hg; lia].
  - constructor; [done|]. by rewrite Hps.
  - unfold opaque_of, btpo_prev, btpo_next, btpo_level, btpo_flags, btpo_cycleid. rewrite Hps, !mget_mwrite_disj by lia. done.
  - rewrite Hsl. apply list_eq. intros k. destruct (decide (k = Z.to_nat (off - 1))) as [->|Hk].
    + rewrite list_lookup_alter_eq, Hs, list_lookup_insert_eq by (by eapply lookup_lt_Some). done.
    + by rewrite list_lookup_alter_ne, list_lookup_insert_ne.
Qed.

Lemma load_all m : load m 0 (zlen m) = Ok m.
Proof. unfold load. rewrite (proj2 (in_range_true _ _ _)) by (unfold zlen; lia). by rewrite mread_all. Qed.

Section post.
Context (p : page) (off postingoff : Z) (op new : list Z).
Context (Hw : bt_wf p) (Hoff : 2 ≤ off ≤ PageGetMaxOffsetNumber p + 1).
Context (Hslot : page_slots p !! Z.to_nat (off - 2) = Some (item_slot op)).
Context (Hop : leaf_tuple op) (Hp : posting_wf op) (Hnew : leaf_tuple new) (Hpo : 0 < postingoff < BTreeTupleGetNPosting op).
Context (Hfit : MAXALIGN (zlen new) + 4 ≤ pd_upper p - pd_lower p).

Lemma insert_post_spec : ∃ q np ni, insert_post p (le_bytes 2 postingoff ++ new) off = Ok q ∧ bt_wf q ∧ opaque_of q = opaque_of p ∧
_bt_swap_posting new op postingoff = Ok (np, ni) ∧
page_slots q = insert_slot off (item_slot ni) (<[Z.to_nat (off - 2) := item_slot np]> (page_slots p)).
Proof using All.
pose proof (npost_bound op (po_bytes _ Hp)) as Hn. destruct Hop as [Hob Hom Hos Hoa], Hnew as [Hnb Hnm Hns Hna]. unfold sizeof_IndexTupleData in *.
pose proof (swap_eval new op postingoff Hp Hpo ltac:(unfold sizeof_ItemPointerData; lia)) as Hsw.
pose proof (swap_header new op postingoff Hp Hpo ltac:(unfold sizeof_ItemPointerData; lia)) as Hhd. cbv zeta in Hsw, Hhd.
match type of Hsw with _ = Ok (?a, ?b) => set (np := a) in *; set (ni := b) in * end.
assert (Hnp : zlen np = zlen op) by (unfold np; by rewrite !zlen_mwrite).
assert (Hni : zlen ni = zlen new) by (unfold ni; by rewrite !zlen_mwrite).
assert (Hnpb : Forall is_byte np) by (repeat apply mwrite_byte; (done || by apply mread_byte)).
assert (Hnib : Forall is_byte ni) by (repeat apply mwrite_byte; (done || by apply mread_byte)).
destruct (same_header op np Hhd) as (_ & _ & _ & Hsz). clearbody np ni.
replace (off - 2) with ((off - 1) - 1) in * by lia.
destruct (item_at p (off - 1) op Hw ltac:(lia) Hslot ltac:(lia)) as (Hchk & Hl & Hr & H0 & Hsp).
pose proof (wf_hdr _ Hw) as []. unfold BLCKSZ in *. pose proof (maxoff_small p (wf_hdr _ Hw)).
destruct (item_replace p (off - 1) op np Hw ltac:(lia) Hslot ltac:(lia) Hnp Hnpb) as (q1 & Hst & Hw1 & Ho1 & Hs1 & Hlo & Hup).
assert (Hmax : PageGetMaxOffsetNumber q1 = PageGetMaxOffsetNumber p) by (unfold PageGetMaxOffsetNumber; by rewrite Hlo).
destruct (bt_add_item_spec q1 ni off EPanic) as (q & Hq & Hwq & Hrest & Hsq & _); [apply Hw1|done|lia|lia|rewrite Hni, Hlo, Hup; lia|].
destruct (same_rest_bt q1 q Hw1 Hwq Hrest) as [Hbq Hoq].
exists q, np, ni. split_and!; [|done|congruence|done|by rewrite Hsq, Hs1].
assert (Hdl : zlen (le_bytes 2 postingoff ++ new) = 2 + zlen new) by (unfold zlen; rewrite length_app, length_le_bytes; lia).
unfold insert_post. rewrite rd_ok by lia.
assert (mget 2 (le_bytes 2 postingoff ++ new) 0 = postingoff) as ->.
{ unfold mget, mread. rewrite drop_0, take_app_le by (rewrite length_le_bytes; lia). rewrite take_ge by (rewrite length_le_bytes; lia).
rewrite le_val_bytes. apply Z.mod_small. change (256 ^ Z.of_nat 2) with 65536. lia. }
cbn [mbind res_bind]. replace (OffsetNumberPrev off) with (off - 1) by (unfold OffsetNumberPrev; rewrite u16_small; lia).
rewrite Hchk. cbn [mbind res_bind]. rewrite (copy_tuple p _ op) by (unfold sizeof_IndexTupleData; (done || lia)). cbn [mbind res_bind].
rewrite (copy_tuple _ 2 new); [|unfold mread; rewrite drop_app_ge by (rewrite length_le_bytes; lia); rewrite length_le_bytes; change (Z.to_nat 2 - 2)%nat with 0%nat; rewrite drop_0; apply take_ge; unfold zlen; lia|lia|lia|done|done].
cbn [mbind res_bind]. rewrite Hsw. cbn [mbind res_bind]. rewrite Hsz, Hos, Hoa, <-Hnp, load_all. cbn [mbind res_bind]. rewrite Hst. cbn [mbind res_bind].
rewrite Hdl. replace (2 + zlen new - 2) with (zlen ni) by lia. rewrite load_all. exact Hq.
Qed.
End post.
