(* ===== verification/IndexPage.v ===== *)
(** * Index pages as lists of items

    An index page whose line pointers all have storage is the list of its
    items.  The routines of [bufpage.c] are stated on that list, with what they
    leave of the header and the special space, and with the capacity of the
    page: the free space and the room of the items together, which no routine
    lets shrink. *)

From Stdlib Require Import Sorted.
From S2P Require Import Prelude Mem Page PageAdd PageIndex PageCompact Btree BtreePage BtreeInsert.

Record index_page (p : page) (its : list (list Z)) : Prop := {
  ip_wf :> page_wf p;
  ip_slots : page_slots p = item_slot <$> its;
  ip_good : Forall good_item its }.

Definition capacity (p : page) (its : list (list Z)) : Z := pd_upper p - pd_lower p + items_space its.

Lemma items_space_split its k it : its !! k = Some it →
  items_space its = MAXALIGN (zlen it) + 4 + items_space (delete k its).
Proof.
  revert k. induction its as [|x its IH]; intros k Hk; [done|]. destruct k as [|k].
  - injection Hk as ->. done.
  - change (delete (S k) (x :: its)) with (x :: delete k its). cbn [items_space]. rewrite (IH k Hk). lia.
Qed.

Lemma items_space_insert its k it x : its !! k = Some it → zlen x = zlen it → items_space (<[k := x]> its) = items_space its.
Proof.
  revert k. induction its as [|y its IH]; intros k Hk Hx; [done|]. destruct k as [|k].
  - injection Hk as ->. cbn [items_space insert list_insert]. by rewrite Hx.
  - change (<[S k := x]> (y :: its)) with (y :: <[k := x]> its). cbn [items_space]. by rewrite (IH k Hk Hx).
Qed.

(** A write inside a part of memory, as a write of that part. *)
Lemma mwrite_inside m a it d bs : 0 ≤ a → a + zlen it ≤ zlen m → mread m a (zlen it) = it → 0 ≤ d → d + zlen bs ≤ zlen it →
  mwrite m (a + d) bs = mwrite m a (mwrite it d bs).
Proof.
  intros Ha Hm Hr Hd Hb. pose proof (zlen_nonneg bs). apply list_eq. intros i.
  rewrite (mwrite_lookup m a) by (rewrite ?zlen_mwrite; lia). rewrite zlen_mwrite, (mwrite_lookup m (a + d)) by lia.
  destruct (decide (a ≤ Z.of_nat i < a + zlen it)) as [Hi|Hi]; [|by rewrite decide_False by lia].
  rewrite mwrite_lookup by lia. repeat case_decide; try lia; [f_equal; lia|].
  rewrite <-Hr, mread_lookup by lia. rewrite decide_True by lia. f_equal. lia.
Qed.

Section index.
Context (p : page) (its : list (list Z)) (Hp : index_page p its).

Lemma ip_maxoff : PageGetMaxOffsetNumber p = zlen its.
Proof using Hp. rewrite maxoff_slots, (ip_slots _ _ Hp). unfold zlen. by rewrite length_fmap. Qed.

Lemma ip_slot k it : its !! k = Some it → page_slots p !! k = Some (item_slot it).
Proof using Hp. intros Hk. by rewrite (ip_slots _ _ Hp), list_lookup_fmap, Hk. Qed.

Lemma ip_item off it : 1 ≤ off → its !! Z.to_nat (off - 1) = Some it →
let lp := PageGetItemId p off in
PageGetItemIdChecked p off = Ok lp ∧ lp_len lp = zlen it ∧ mread p (lp_off lp) (zlen it) = it ∧ pd_upper p ≤ lp_off lp ∧
lp_off lp + MAXALIGN (zlen it) ≤ pd_special p ∧ 0 < zlen it.
Proof using Hp.
intros Ho Hk lp. pose proof (ip_wf _ _ Hp) as Hw. pose proof (lookup_lt_Some _ _ _ Hk) as Hlt.
assert (Hr : 1 ≤ off ≤ PageGetMaxOffsetNumber p) by (rewrite ip_maxoff; unfold zlen; lia).
destruct (proj1 (Forall_lookup _ _) (ip_good _ _ Hp) _ _ Hk) as [_ Hz].
destruct (item_at p off it Hw Hr (ip_slot _ _ Hk) Hz) as (Hc & Hl & Hm & _). fold lp in Hc, Hl, Hm.
destruct (wf_item _ Hw off Hr) as (Hu & Hs & _); [fold lp; lia|]. fold lp in Hu, Hs. rewrite Hl in Hs. done.
Qed.

Lemma ip_full i : 1 ≤ i ≤ PageGetMaxOffsetNumber p → lp_len (PageGetItemId p i) ≠ 0.
Proof using Hp.
rewrite ip_maxoff. unfold zlen. intros Hi. destruct (lookup_lt_is_Some_2 its (Z.to_nat (i - 1))) as [it Hit]; [lia|].
destruct (ip_item i it ltac:(lia) Hit) as (_ & -> & _ & _ & _ & Hz). lia.
Qed.

Lemma ip_lower : pd_lower p = 24 + 4 * zlen its.
Proof using Hp. pose proof (wf_hdr _ (ip_wf _ _ Hp)) as []. rewrite <-ip_maxoff, PageGetMaxOffsetNumber_eq by done. dlia. Qed.

End index.

(** The room of the kept items, as the compaction adds it up. *)
Lemma base_space p K : ∀ its u, (Forall2 (λ j it, lp_len (PageGetItemId p j) = zlen it) K its) →
  total (base_from p u K) + 4 * zlen its = items_space its.
Proof.
  induction K as [|j K IH]; intros its u Hf; inversion Hf as [|? it ? its' Hl Hf']; subst; cbn [base_from items_space]; [done|].
  specialize (IH its' (u + 1) Hf'). unfold total in *. cbn [foldr alignedlen]. rewrite Hl. unfold zlen in *. cbn [length]. lia.
Qed.

(** A page filled to the last byte has no more than this. *)
Lemma capacity_max p its : index_page p its → capacity p its ≤ pd_special p - 24.
Proof.
  intros Hp. pose proof (ip_wf _ _ Hp) as Hw. pose proof (ip_maxoff p its Hp) as Hm. pose proof (ip_lower p its Hp) as Hlo.
  set (K := seqZ 1 (zlen its)).
  assert (HK : Forall2 (λ j it, lp_len (PageGetItemId p j) = zlen it) K its).
  { apply Forall2_same_length_lookup_2; [unfold K, zlen; rewrite length_seqZ; lia|]. intros k j it Hj Hit.
    apply lookup_seqZ in Hj as [-> _]. by apply (ip_item p its Hp); [lia|replace (Z.to_nat (1 + Z.of_nat k - 1)) with k by lia]. }
  assert (Hb : base_of p (base_from p 0 K)).
  { constructor; [apply base_from_nodup|..].
    - intros x (k & j & Hj & ->)%elem_base_from. cbn [offsetindex itemoff alignedlen]. apply lookup_seqZ in Hj as [-> Hk].
      replace (0 + Z.of_nat k + 1) with (1 + Z.of_nat k) by lia. split_and!; [lia|lia|done|done|]. apply (ip_full p its Hp). lia.
    - intros i Hi _. apply list_elem_of_fmap. eexists. split; [|apply elem_base_from; exists (Z.to_nat (i - 1)), i; split; [|done]].
      + cbn [offsetindex]. lia.
      + apply lookup_seqZ. unfold K. lia. }
  pose proof (base_total p _ Hw Hb) as [_ Ht]. pose proof (base_space p K its 0 HK). unfold capacity. lia.
Qed.

(** ** The routines *)

(** Adding an item. *)
Definition insert_item (off : Z) (it : list Z) (its : list (list Z)) : list (list Z) :=
  take (Z.to_nat (off - 1)) its ++ it :: drop (Z.to_nat (off - 1)) its.

Lemma items_space_insert_item off it its : items_space (insert_item off it its) = items_space its + MAXALIGN (zlen it) + 4.
Proof.
  unfold insert_item. rewrite items_space_app. cbn [items_space].
  rewrite <-(take_drop (Z.to_nat (off - 1)) its) at 3. rewrite items_space_app. lia.
Qed.

Lemma index_add p its it off : index_page p its → good_item it → 1 ≤ off ≤ zlen its + 1 →
  items_space its + MAXALIGN (zlen it) + 4 ≤ capacity p its →
  ∃ q, PageAddItem p it off false false = Ok (q, off) ∧ index_page q (insert_item off it its) ∧ same_rest p q ∧
    capacity q (insert_item off it its) = capacity p its.
Proof.
  intros Hp [Hb Hz] Ho Hfit. rewrite <-(ip_maxoff p its Hp) in Ho. unfold capacity in *.
  destruct (add_item_spec p it off (ip_wf _ _ Hp) Hb Hz Ho) as (q & He & Hq & Hr & Hs & Hl & Hu & _); [lia|].
  exists q. split_and!; [done| |done|].
  - constructor; [done| |].
    + rewrite Hs, (ip_slots _ _ Hp). unfold insert_item. by rewrite fmap_app, fmap_cons, fmap_take, fmap_drop.
    + unfold insert_item. apply Forall_app. split; [by apply Forall_take, (ip_good _ _ Hp)|].
      constructor; [done|]. by apply Forall_drop, (ip_good _ _ Hp).
  - rewrite items_space_insert_item. lia.
Qed.

(** Deleting one. *)
Lemma index_delete p its off : index_page p its → 1 ≤ off ≤ zlen its →
  ∃ q, PageIndexTupleDelete p off = Ok q ∧ index_page q (delete (Z.to_nat (off - 1)) its) ∧ same_rest p q ∧
    capacity q (delete (Z.to_nat (off - 1)) its) = capacity p its.
Proof.
  intros Hp Ho. pose proof (ip_wf _ _ Hp) as Hw. rewrite <-(ip_maxoff p its Hp) in Ho. pose proof (ip_full p its Hp) as Hall.
  destruct (lookup_lt_is_Some_2 its (Z.to_nat (off - 1))) as [it Hit]; [rewrite (ip_maxoff p its Hp) in Ho; unfold zlen in *; lia|].
  destruct (ip_item p its Hp off it ltac:(lia) Hit) as (_ & Hl & _).
  eexists. split; [by apply del_eval|]. destruct (del_fields p off Hw Ho Hall) as (Hlo & Hup & Hsp & _).
  pose proof (del_numbers p off Hw Ho Hall) as Hn. cbv zeta in Hn. split_and!.
  - constructor; [by apply del_wf| |].
    + rewrite del_slots by done. rewrite (ip_slots _ _ Hp). by rewrite list_fmap_delete.
    + apply Forall_delete, (ip_good _ _ Hp).
  - constructor; [done|]. intros o l Ho' [Hd|[Hd|Hd]]; [apply (del_q_head p off Hw Ho Hall); lia|apply (del_q_head p off Hw Ho Hall); lia|].
    pose proof (del_p1_upper p off Hw Ho Hall) as Hu1. pose proof (del_p1_len p off Hw Ho Hall) as Hl1.
    rewrite (del_q_reads p off Hw Ho Hall) by (unfold linp_addr, SizeOfPageHeaderData, sizeof_ItemIdData in *; lia).
    rewrite slide_reads by (rewrite ?Hu1, ?Hl1; lia). apply (del_p1_reads p off Hw Ho Hall); lia.
  - unfold capacity. rewrite Hlo, Hup. rewrite (items_space_split its _ _ Hit). rewrite Hl. lia.
Qed.

(** Deleting several. *)
Lemma sorted_room o l n : StronglySorted Z.lt (o :: l) → Forall (λ z, 1 ≤ z ≤ n) (o :: l) → o + zlen l ≤ n.
Proof.
  intros Hs Hf. pose proof (sorted_bound (o :: l) o n Hs) as Hb. inversion Hs as [|? ? _ Hlt]; subst. apply Forall_cons in Hf as [Ho Hf].
  assert (o + zlen (o :: l) ≤ n + 1); [|unfold zlen in *; cbn [length] in *; lia].
  apply Hb; [|lia]. constructor; [lia|]. rewrite Forall_forall in Hlt, Hf |- *. intros z Hz. specialize (Hlt z Hz). specialize (Hf z Hz). cbn in *. lia.
Qed.

Lemma delete_slots_length {A} (s : list A) l : StronglySorted Z.lt l → Forall (λ o, 1 ≤ o ≤ zlen s) l → zlen (delete_slots l s) = zlen s - zlen l.
Proof.
  induction l as [|o l IH]; intros Hs Hf; [unfold zlen; cbn; lia|]. pose proof (sorted_room o l (zlen s) Hs Hf) as Hr.
  inversion Hs as [|? ? Hs' _]; subst. apply Forall_cons in Hf as [Ho Hf]. specialize (IH Hs' Hf). cbn [delete_slots foldr].
  fold (delete_slots l s). unfold zlen in *. cbn [length] in *. rewrite length_delete by (apply lookup_lt_is_Some; lia). lia.
Qed.

Lemma delete_slots_cons {A} o l (s : list A) : delete_slots (o :: l) s = delete (Z.to_nat (o - 1)) (delete_slots l s).
Proof. done. Qed.

Lemma delete_slots_fmap {A B} (f : A → B) l (s : list A) : f <$> delete_slots l s = delete_slots l (f <$> s).
Proof. induction l as [|o l IH]; [done|]. by rewrite !delete_slots_cons, list_fmap_delete, IH. Qed.

Lemma delete_slots_forall {A} (P : A → Prop) l (s : list A) : Forall P s → Forall P (delete_slots l s).
Proof. intros Hs. induction l as [|o l IH]; [done|]. rewrite delete_slots_cons. by apply Forall_delete. Qed.

Lemma index_delete_backwards p its l : index_page p its → StronglySorted Z.lt l → Forall (λ o, 1 ≤ o ≤ zlen its) l →
  ∃ q, delete_backwards p l = Ok q ∧ index_page q (delete_slots l its) ∧ same_rest p q ∧ capacity q (delete_slots l its) = capacity p its.
Proof.
  intros Hp. induction l as [|o l IH]; intros Hs Hf; [by exists p|]. pose proof (sorted_room o l (zlen its) Hs Hf) as Hr0.
  inversion Hs as [|? ? Hs' _]; subst. apply Forall_cons in Hf as [Ho Hf].
  destruct (IH Hs' Hf) as (q & He & Hq & Hr & Hc). cbn [delete_backwards]. rewrite He. cbn [mbind res_bind].
  destruct (index_delete q (delete_slots l its) o Hq) as (q' & He' & Hq' & Hr' & Hc'); [rewrite (delete_slots_length its l Hs' Hf); lia|].
  exists q'. split_and!; [done|done|by etrans|]. rewrite delete_slots_cons. lia.
Qed.

Lemma index_multi_delete p its l : index_page p its → zlen its ≤ MaxIndexTuplesPerPage → StronglySorted Z.lt l →
  Forall (λ o, 1 ≤ o ≤ zlen its) l →
  ∃ q, PageIndexMultiDelete p l = Ok q ∧ index_page q (delete_slots l its) ∧ same_rest p q ∧ capacity p its ≤ capacity q (delete_slots l its).
Proof.
  intros Hp Hm Hs Hf. destruct (decide (2 < zlen l)) as [Hz|Hz].
  2:{ unfold PageIndexMultiDelete. rewrite (proj2 (Z.leb_le _ _)) by lia.
      destruct (index_delete_backwards p its l Hp Hs Hf) as (q & ? & ? & ? & ?). exists q. split_and!; [done..|lia]. }
  pose proof (ip_maxoff p its Hp) as Hmx.
  destruct (PageIndexMultiDelete_compact p l (ip_wf _ _ Hp)) as (q & He & Hq & Hsl & HslK & HK & Hu & Hsp & Hrd); [lia|apply (ip_full p its Hp)|done|by rewrite Hmx|done|].
  assert (Hslots : page_slots q = item_slot <$> delete_slots l its) by (by rewrite Hsl, (ip_slots _ _ Hp), delete_slots_fmap).
  assert (Hi : index_page q (delete_slots l its)) by (constructor; [done|done|apply delete_slots_forall, (ip_good _ _ Hp)]).
  exists q. split_and!; [done|done|by constructor|]. rewrite HslK in Hslots. set (K := drop_from _ _ _) in *.
  assert (HF : Forall2 (λ j it, lp_len (PageGetItemId p j) = zlen it) K (delete_slots l its)).
  { apply Forall2_same_length_lookup_2; [rewrite <-(length_fmap (slot_at p)), Hslots, length_fmap; done|]. intros k j it Hj Hit.
    destruct (proj1 (Forall_lookup _ _) (ip_good _ _ Hi) _ _ Hit) as [_ Hpos].
    assert (Hs' : slot_at p j = item_slot it).
    { apply (f_equal (λ s, s !! k)) in Hslots. rewrite !list_lookup_fmap, Hj, Hit in Hslots. by injection Hslots. }
    assert (Hr : 1 ≤ j ≤ PageGetMaxOffsetNumber p) by (apply HK, list_elem_of_lookup; eauto).
    apply (item_at p j it (ip_wf _ _ Hp) Hr); [|done]. rewrite page_slots_lookup, decide_True by lia. f_equal.
    rewrite <-Hs'. f_equal. lia. }
  pose proof (base_space p K _ 0 HF). pose proof (capacity_max p its Hp). unfold capacity at 2. rewrite Hu, (ip_lower q _ Hi). lia.
Qed.

(** Overwriting part of an item. *)
Lemma index_write p its off it d bs : index_page p its → 1 ≤ off → its !! Z.to_nat (off - 1) = Some it →
  0 ≤ d → d + zlen bs ≤ zlen it → Forall is_byte bs →
  let its' := <[Z.to_nat (off - 1) := mwrite it d bs]> its in
  ∃ q, store p (lp_off (PageGetItemId p off) + d) bs = Ok q ∧ index_page q its' ∧ same_rest p q ∧ capacity q its' = capacity p its ∧
    (∀ i, 1 ≤ i ≤ zlen its → PageGetItemId q i = PageGetItemId p i).
Proof.
  intros Hp Ho Hk Hd Hfit Hb its'. destruct (ip_item p its Hp off it Ho Hk) as (_ & Hl & Hr & Hu & Hs & Hz).
  pose proof (wf_hdr _ (ip_wf _ _ Hp)) as []. unfold BLCKSZ in *. pose proof (MAXALIGN_bounds (zlen it)) as Hma. pose proof (zlen_nonneg bs).
  pose proof (lookup_lt_Some _ _ _ Hk) as Hlt. set (a := lp_off (PageGetItemId p off)) in *.
  assert (Hrange : 1 ≤ off ≤ PageGetMaxOffsetNumber p) by (rewrite (ip_maxoff p its Hp); unfold zlen; lia).
  assert (Hin : mwrite p (a + d) bs = mwrite p a (mwrite it d bs)).
  { apply mwrite_inside; lia || done. }
  assert (Hgi : good_item it) by (by apply (proj1 (Forall_lookup _ _) (ip_good _ _ Hp) _ _ Hk)).
  destruct (item_write_refines p off (mwrite it d bs) (ip_wf _ _ Hp) Hrange) as (Hq & Hsl & Hhd & Hids);
    [fold a; lia|by rewrite zlen_mwrite|apply mwrite_byte; [apply Hgi|done]|]. fold a in Hq, Hsl, Hhd, Hids. rewrite <-Hin in *.
  assert (Hg : ∀ k o, 0 ≤ o → o + Z.of_nat k ≤ 24 → mget k (mwrite p (a + d) bs) o = mget k p o) by (intros; unfold mget; by rewrite Hhd by lia).
  eexists. split; [unfold store; by rewrite (proj2 (in_range_true _ _ _)) by lia|]. split_and!.
  - constructor; [done| |].
    + rewrite Hsl, (ip_slots _ _ Hp). unfold its'. rewrite list_fmap_insert. apply list_eq. intros k.
      destruct (decide (k = Z.to_nat (off - 1))) as [->|Hne].
      * rewrite list_lookup_alter_eq, list_lookup_fmap, Hk. cbn. rewrite list_lookup_insert_eq by (by rewrite length_fmap). done.
      * by rewrite list_lookup_alter_ne, list_lookup_insert_ne.
    + apply Forall_insert; [apply (ip_good _ _ Hp)|]. split; [apply mwrite_byte; [apply Hgi|done]|by rewrite zlen_mwrite].
  - constructor; [apply Hg; lia|]. intros o l Ho' Hd'. apply mread_mwrite_disj; lia.
  - unfold capacity, pd_upper, pd_lower. rewrite !Hg by lia. f_equal. by apply (items_space_insert its _ it); [|rewrite zlen_mwrite].
  - intros i Hi. apply Hids. by rewrite (ip_maxoff p its Hp).
Qed.

(** Exchanging two line pointers exchanges the items. *)
Definition swap_items {A} (i j : Z) (l : list A) : list A :=
  match l !! Z.to_nat (i - 1), l !! Z.to_nat (j - 1) with
  | Some x, Some y => <[Z.to_nat (j - 1) := x]> (<[Z.to_nat (i - 1) := y]> l)
  | _, _ => l
  end.

Lemma swap_items_lookup {A} i j (l : list A) k : 1 ≤ i ≤ zlen l → 1 ≤ j ≤ zlen l →
  swap_items i j l !! k =
    l !! (if decide (k = Z.to_nat (j - 1)) then Z.to_nat (i - 1) else if decide (k = Z.to_nat (i - 1)) then Z.to_nat (j - 1) else k).
Proof.
  unfold zlen, swap_items. intros Hi Hj. destruct (lookup_lt_is_Some_2 l (Z.to_nat (i - 1))) as [x Hx]; [lia|].
  destruct (lookup_lt_is_Some_2 l (Z.to_nat (j - 1))) as [y Hy]; [lia|]. rewrite Hx, Hy. repeat case_decide; subst.
  - rewrite list_lookup_insert_eq; [done|]. rewrite length_insert. lia.
  - rewrite list_lookup_insert_ne, list_lookup_insert_eq by (lia || congruence). done.
  - by rewrite !list_lookup_insert_ne by congruence.
Qed.

Lemma swap_items_perm {A} i j (l : list A) : 1 ≤ i ≤ zlen l → 1 ≤ j ≤ zlen l → swap_items i j l ≡ₚ l.
Proof.
  intros Hi Hj. apply Permutation_inj. split.
  - unfold swap_items. repeat case_match; rewrite ?length_insert; done.
  - exists (λ k, if decide (k = Z.to_nat (j - 1)) then Z.to_nat (i - 1) else if decide (k = Z.to_nat (i - 1)) then Z.to_nat (j - 1) else k).
    split; [intros a b; repeat case_decide; congruence|]. intros k. by apply swap_items_lookup.
Qed.

Lemma items_space_perm a b : a ≡ₚ b → items_space a = items_space b.
Proof. induction 1; cbn [items_space]; lia. Qed.

Section swap.
Context (p : page) (its : list (list Z)) (i j : Z) (Hp : index_page p its) (Hi : 1 ≤ i ≤ zlen its) (Hj : 1 ≤ j ≤ zlen its).
Let q := PageSetItemId (PageSetItemId p i (PageGetItemId p j)) j (PageGetItemId p i).
Let src k := if decide (k = j) then i else if decide (k = i) then j else k.

Lemma swap_addr k : 1 ≤ k ≤ zlen its → 24 ≤ linp_addr k ∧ linp_addr k + 4 ≤ pd_lower p.
Proof using Hp.
intros Hk. rewrite <-(ip_maxoff p its Hp) in Hk. pose proof (linp_addr_range _ _ (wf_hdr _ (ip_wf _ _ Hp)) Hk). lia.
Qed.

Lemma swap_reads o l : 0 ≤ o → o + l ≤ 24 ∨ pd_lower p ≤ o → mread q o l = mread p o l.
Proof using Hp Hi Hj.
intros Ho Hd. pose proof (swap_addr i Hi). pose proof (swap_addr j Hj). unfold q. rewrite !PageSetItemId_reads by lia. done.
Qed.

Lemma swap_linp k : 1 ≤ k ≤ zlen its → PageGetItemId q k = PageGetItemId p (src k).
Proof using Hp Hi Hj.
intros Hk. pose proof (swap_addr i Hi). pose proof (swap_addr j Hj). pose proof (wf_hdr _ (ip_wf _ _ Hp)) as []. unfold BLCKSZ in *.
pose proof (PageGetItemId_bound p i) as (? & ? & ?). pose proof (PageGetItemId_bound p j) as (? & ? & ?).
unfold q, src. repeat case_decide; subst.
- rewrite PageGetSetItemId by (rewrite ?zlen_PageSetItemId; lia). done.
- rewrite PageGetSetItemId_ne, PageGetSetItemId by lia. done.
- rewrite !PageGetSetItemId_ne by lia. done.
Qed.

Lemma index_swap : index_page q (swap_items i j its) ∧ same_rest p q ∧ capacity q (swap_items i j its) = capacity p its.
Proof using Hp Hi Hj.
pose proof (ip_wf _ _ Hp) as Hw. pose proof (wf_hdr _ Hw) as Hh. pose proof Hh as []. pose proof (ip_maxoff p its Hp) as Hm.
assert (Hg : ∀ n o, 0 ≤ o → o + Z.of_nat n ≤ 24 → mget n q o = mget n p o) by (intros; unfold mget; by rewrite swap_reads by lia).
assert (Hlo : pd_lower q = pd_lower p) by (apply Hg; lia). assert (Hup : pd_upper q = pd_upper p) by (apply Hg; lia).
assert (Hsp : pd_special q = pd_special p) by (apply Hg; lia).
assert (Hmx : PageGetMaxOffsetNumber q = zlen its) by (unfold PageGetMaxOffsetNumber; rewrite Hlo; exact Hm).
assert (Hsrc : ∀ k, 1 ≤ k ≤ zlen its → 1 ≤ src k ≤ zlen its) by (intros; unfold src; repeat case_decide; lia).
assert (Hwq : page_wf q).
{ constructor.
- constructor; rewrite ?Hlo, ?Hup, ?Hsp; try done; [unfold q; by rewrite !zlen_PageSetItemId|].
unfold q, PageSetItemId. by repeat apply mput_byte.
- intros k. rewrite Hmx. intros Hk Hl. rewrite swap_linp in Hl |- * by done. unfold lp_in. rewrite Hup, Hsp. apply (wf_item _ Hw); [rewrite Hm; auto|done].
- intros k k'. rewrite Hmx. intros Hk Hk' Hne Hl Hl'. rewrite !swap_linp in * by done.
apply (wf_disjoint _ Hw); rewrite ?Hm; auto. unfold src. repeat case_decide; lia. }
assert (Hsl : page_slots q = item_slot <$> swap_items i j its).
{ apply list_eq. intros k. rewrite list_lookup_fmap, swap_items_lookup, <-list_lookup_fmap, <-(ip_slots _ _ Hp), !page_slots_lookup, Hmx, Hm by done.
destruct (decide (Z.of_nat k < zlen its)) as [Hk|Hk].
- rewrite decide_True by (repeat case_decide; lia). f_equal. unfold slot_at. rewrite swap_linp by lia.
replace (1 + Z.of_nat (if decide (k = Z.to_nat (j - 1)) then Z.to_nat (i - 1) else if decide (k = Z.to_nat (i - 1)) then Z.to_nat (j - 1) else k))
with (src (1 + Z.of_nat k)) by (unfold src; repeat case_decide; lia).
unfold slot_of, PageGetItemBytes. destruct (Z.eqb_spec (lp_len (PageGetItemId p (src (1 + Z.of_nat k)))) 0) as [|Hn]; [done|]. f_equal.
pose proof (Hsrc (1 + Z.of_nat k) ltac:(lia)) as Hr. rewrite <-Hm in Hr. destruct (wf_item _ Hw _ Hr Hn) as (? & _). apply swap_reads; lia.
- rewrite decide_False by (repeat case_decide; lia). done. }
assert (Hperm : items_space (swap_items i j its) = items_space its).
{ rewrite (items_space_perm _ its); [done|]. by apply swap_items_perm. }
split_and!.
- constructor; [done|done|]. apply Forall_lookup. intros k x Hk. rewrite swap_items_lookup in Hk by done.
by apply (proj1 (Forall_lookup _ _) (ip_good _ _ Hp) _ _ Hk).
- constructor; [done|]. intros o l Ho Hd. apply swap_reads; lia.
- unfold capacity. by rewrite Hlo, Hup, Hperm.
Qed.
End swap.
