(* ===== verification/BtreeSpec.v ===== *)
(** * The theorems of B-tree replay

    Redo of a page split gives two pages that hold, in order, the items of the
    page that was split and the new item, and that are linked to each other;
    redo of an insertion puts the item at its offset number; splitting,
    forming and shortening posting lists loses no heap TID. *)

From Stdlib Require Import Sorted.
From S2P Require Import Prelude Mem Page PageAdd PageIndex PageCompact Checksum Buffer WalRecord XLogInsert XLogDecode HeapRedo Resident TagList Btree BtreePage BtreePosting BtreeRedo BtreeSplit BtreeInsert.

(** ** Splits *)

Lemma insert_new_left j m new (items : list (list Z)) : 0 ≤ j ≤ m → m ≤ zlen items →
  insert_new true j new (take (Z.to_nat m) items) = take (Z.to_nat (m + 1)) (insert_new true j new items).
Proof.
  intros Hj Hm. unfold insert_new, zlen in *. rewrite take_take, Nat.min_l by lia. rewrite take_app, length_take, Nat.min_l by lia.
  rewrite (take_ge _ (Z.to_nat (m + 1))) by (rewrite length_take; lia).
  replace (Z.to_nat (m + 1) - Z.to_nat j)%nat with (S (Z.to_nat m - Z.to_nat j)) by lia. cbn [take]. by rewrite skipn_firstn_comm.
Qed.

Lemma insert_new_right j m new (items : list (list Z)) : 0 ≤ m ≤ j → j ≤ zlen items →
  take (Z.to_nat m) items = take (Z.to_nat m) (insert_new true j new items).
Proof.
  intros Hj Hm. unfold insert_new, zlen in *. rewrite take_app_le by (rewrite length_take; lia). by rewrite take_take, Nat.min_l by lia.
Qed.

(** The items of a page behind the slots before them. *)
Lemma items_at_slots p pre items m : page_slots p = pre ++ (item_slot <$> items) →
  items_at p (1 + Z.of_nat (length pre)) (take m items).
Proof.
  intros Hs i it Hi. apply lookup_take_Some in Hi as [Hi _].
  assert (Hl : page_slots p !! (length pre + i)%nat = Some (item_slot it)).
  { rewrite Hs, lookup_app_r by lia. replace (length pre + i - length pre)%nat with i by lia. by rewrite list_lookup_fmap, Hi. }
  pose proof (slots_maxoff p). pose proof (lookup_lt_Some _ _ _ Hl). split; [lia|].
  rewrite page_slots_lookup in Hl. destruct (decide _); [|done]. injection Hl as <-. f_equal. lia.
Qed.

(** The record of a split, as the write side makes it: the new item goes to
    the left page or to the right one, the items from [firstrightoff] on go
    to the right page behind its high key (none on a rightmost page). *)
Record split_record (r : XLogReaderState) (onleft : bool) (x : xl_btree_split) (first : Z) (items : list (list Z))
  (new lhikey : list Z) (rhikey : list (list Z)) : Prop := {
  sr_info : rec_info r = if onleft then XLOG_BTREE_SPLIT_L else XLOG_BTREE_SPLIT_R;
  sr_x : get_xl_btree_split r = Ok x;
  sr_lsn : 0 ≤ EndRecPtr r < 2 ^ 64;
  sr_post : sp_postingoff x = 0;
  sr_right : first ≤ firstrightoff x ≤ first + zlen items;
  sr_newoff : if onleft then first ≤ newitemoff x ≤ firstrightoff x else firstrightoff x ≤ newitemoff x ≤ first + zlen items;
  sr_left_data : block_bytes r 0 = (if onleft then new else []) ++ lhikey;
  sr_right_data : block_bytes r 1 = concat (rev (rhikey ++
    drop (Z.to_nat (firstrightoff x - first + (if onleft then 1 else 0))) (insert_new true (newitemoff x - first) new items)));
  sr_tuples : Forall logged_tuple (new :: lhikey :: rhikey ++ items) }.

Lemma redo_init_resident st r id tag p f q :
  init_ref r id tag → resident st tag p → f = Ok q →
  redo_init st r id None BLK_NEEDS_REDO f = Ok (buf_write st (Some tag) (PageSetLSN q (EndRecPtr r)), Some tag, BLK_NEEDS_REDO).
Proof.
  intros Hi Hr ->. unfold redo_init. rewrite (init_resident st r id tag p Hi Hr). cbn [mbind res_bind].
  rewrite (resident_page _ _ _ Hr). done.
Qed.

(** Dispatch of a split for one of its two pages. *)
Lemma split_dispatch st r (onleft : bool) x tag0 tag1 buf :
  rec_info r = (if onleft then XLOG_BTREE_SPLIT_L else XLOG_BTREE_SPLIT_R) → get_xl_btree_split r = Ok x →
  XLogRecGetBlockTag r 0 = Some tag0 → XLogRecGetBlockTag r 1 = Some tag1 → tag0 ≠ tag1 →
  (sp_level x ≠ 0 → ∃ t3, XLogRecGetBlockTag r 3 = Some t3 ∧ t3 ≠ tag0 ∧ t3 ≠ tag1) →
  polar_btree_redo st r tag1 buf = redo_init st r 1 buf BLK_NEEDS_REDO (polar_restore_right r x) ∧
  polar_btree_redo st r tag0 buf = redo_read st r 0 false (split_left_page onleft r x (blockNum tag1)).
Proof.
  intros Hi Hx H0 H1 Hne H3.
  assert (Hd : ∀ tag, polar_btree_redo st r tag buf = polar_btree_xlog_split onleft st r tag buf).
  { intros tag. unfold polar_btree_redo. rewrite Hi. by destruct onleft. }
  rewrite !Hd. unfold polar_btree_xlog_split. rewrite Hx, (log_tag _ _ _ H0), (log_tag _ _ _ H1). cbn [mbind res_bind]. cbv zeta.
  assert (Hchild : ∀ tag, tag = tag0 ∨ tag = tag1 →
    (if negb (sp_level x =? 0) then t ← POLAR_GET_LOG_TAG r 3; Ok (BUFFERTAGS_EQUAL t tag) else Ok false) = Ok false).
  { intros tag Ht. destruct (Z.eqb_spec (sp_level x) 0) as [|Hl]; [done|]. cbn [negb]. destruct (H3 Hl) as (t3 & E3 & N0 & N1).
    rewrite (log_tag _ _ _ E3). cbn [mbind res_bind]. f_equal. unfold BUFFERTAGS_EQUAL. apply bool_decide_false. destruct Ht; congruence. }
  rewrite !Hchild by auto. cbn [mbind res_bind]. rewrite !tags_equal_refl. unfold BUFFERTAGS_EQUAL. rewrite bool_decide_false by done. done.
Qed.

(** C22: redo of a page split.  For a B-tree page with the data items [items]
    and a split record, replay for the left page and for the right page both
    succeed; the left page then has its new high key and the first items, the
    right page its high key and the rest, where the items are those of the
    page with the new item inserted at its place: none is lost, moved or
    doubled.  The pages are linked to each other, the left page is marked as
    incompletely split, and both carry the LSN of the record. *)
Theorem btree_split_redo st r (onleft : bool) x tag0 tag1 lpage rpage pre items new lhikey rhikey :
  let first := first_data lpage in
  let all := insert_new true (newitemoff x - first) new items in
  let k := Z.to_nat (firstrightoff x - first + (if onleft then 1 else 0)) in
  split_record r onleft x first items new lhikey rhikey →
  plain_ref r 0 tag0 → init_ref r 1 tag1 → tag0 ≠ tag1 →
  (sp_level x ≠ 0 → ∃ t3, XLogRecGetBlockTag r 3 = Some t3 ∧ t3 ≠ tag0 ∧ t3 ≠ tag1) →
  resident st tag0 lpage → resident st tag1 rpage → bt_wf lpage → PageGetPageSize lpage = BLCKSZ →
  PageGetLSN lpage < EndRecPtr r → page_slots lpage = pre ++ (item_slot <$> items) → Z.of_nat (length pre) = first - 1 →
  items_space (lhikey :: take k all) ≤ opq - 24 → items_space (rhikey ++ drop k all) ≤ opq - 24 →
  (length (rhikey ++ drop k all) ≤ Z.to_nat MaxIndexTuplesPerPage)%nat → 
  ∃ ql qr, polar_btree_redo st r tag0 None = Ok (buf_write st (Some tag0) ql, Some tag0, BLK_NEEDS_REDO) ∧
    polar_btree_redo st r tag1 None = Ok (buf_write st (Some tag1) qr, Some tag1, BLK_NEEDS_REDO) ∧
    bt_wf ql ∧ bt_wf qr ∧ PageGetLSN ql = EndRecPtr r ∧ PageGetLSN qr = EndRecPtr r ∧
    page_slots ql = item_slot <$> lhikey :: take k all ∧ page_slots qr = item_slot <$> rhikey ++ drop k all ∧
    (let '(prev, next, _, flags, _) := opaque_of ql in
     prev = mget 4 lpage (opq + btpo_prev) ∧ next = blockNum tag1 ∧ has_flag flags BTP_INCOMPLETE_SPLIT = true) ∧
    (let '(prev, next, _, _, _) := opaque_of qr in prev = blockNum tag0 ∧ next = u32 (block_or_none r 2)).
Proof.
  intros first all k [Hinfo Hx Hlsn Hpost Hright Hnewoff Hd0 Hd1 Htup] Hp0 Hi1 Hne H3 Hr0 Hr1 Hw Hps Hold Hslots Hpre Hf0 Hf1 Hn.
  assert (Hfirst : first = 1 + Z.of_nat (length pre)) by lia.
  rewrite !Forall_cons, Forall_app in Htup. destruct Htup as (Hnew & Hlh & Hrh & Hits).
  set (m := firstrightoff x - first) in *.
  assert (Hleft : insert_new onleft (newitemoff x - first) new (take (Z.to_nat m) items) = take k all).
  { unfold k, all, m in *. destruct onleft; [apply insert_new_left; lia|]. rewrite Z.add_0_r. cbn [insert_new]. apply insert_new_right; lia. }
  destruct (split_dispatch st r onleft x tag0 tag1 None Hinfo Hx (pr_tag _ _ _ Hp0) (ir_tag _ _ _ Hi1) Hne H3) as [-> ->].
  assert (Hall : Forall logged_tuple (rhikey ++ drop k all)).
  { apply Forall_app. split; [done|]. apply Forall_drop. unfold all, insert_new. apply Forall_app. split; [by apply Forall_take|].
    constructor; [done|by apply Forall_drop]. }
  destruct (restore_right_spec r x tag0 (rhikey ++ drop k all)) as (qr & Hqr & Hwr & Hsr & Hor); [apply Hp0|exact Hd1|done|done|done|].
  destruct (set_lsn_bt qr (EndRecPtr r) Hwr Hlsn) as (Hw1 & Hl1 & Hs1 & Ho1).
  pose proof (split_left_page_spec onleft r x (blockNum tag1) lpage new lhikey (take (Z.to_nat m) items)) as HL.
  fold first in HL. rewrite Hleft in HL. rewrite (opaque_of_eq lpage) in HL by done.
  destruct HL as (ql & Hql & Hwl & Hll & Hsl & Hol); try done.
  - rewrite Hfirst. by apply items_at_slots.
  - apply Forall_take. eapply Forall_impl; [exact Hits|apply logged_good].
  - unfold zlen in *. rewrite length_take. lia.
  - intros ->. exact Hnewoff.
  - by eapply resident_block.
  - exists ql, (PageSetLSN qr (EndRecPtr r)). rewrite Hs1, Ho1, Hol, Hor. split_and!; try done.
    + apply (on_redo_resident _ _ _ _ lpage); (done || apply wf_not_new, Hw).
    + by apply (redo_init_resident _ _ _ _ rpage).
    + by destruct (_ =? _).
    + unfold u32. apply Z.mod_small. by eapply resident_block.
Qed.

(** ** A sample split *)

(** A tuple of 16 bytes with heap TID (b, 1) and a key of eight bytes. *)
Definition bt_tuple (b : Z) : list Z := [0; 0; b; 0; 1; 0; 16; 0] ++ replicate 8 b.

Definition or_page (m : res page) : page := match m with Ok p => p | Err _ => [] end.

(** A leaf page, the only one of its level, with three items. *)
Definition leaf_page : page :=
  Eval vm_compute in or_page (p ← set_opaque _bt_pageinit 0 0 0 BTP_LEAF 0; add_in_order p [bt_tuple 1; bt_tuple 3; bt_tuple 5] 1 EPanic).

Definition bt_rel : RelFileNode := mkRel 1663 13580 16385.
Definition bt_tag (b : Z) : BufferTag := mkTag bt_rel 0 b.
Definition bt_blk (b flags : Z) (data : list Z) : DecodedBkpBlock :=
  mkBlk true bt_rel 0 b flags false false [] 0 0 0 (negb (zlen data =? 0)) data.
Definition bt_none : DecodedBkpBlock := mkBlk false (mkRel 0 0 0) 0 0 0 false false [] 0 0 0 false [].
Definition bt_rec (info : Z) (main : list Z) (refs : list DecodedBkpBlock) : XLogReaderState :=
  mkRec 50 100 info RM_BTREE_ID 7 main (zlen refs - 1) (refs ++ replicate (33 - length refs) bt_none).

(** The item 2 is inserted at offset number 2, the last item goes right. *)
Definition split_rec : XLogReaderState :=
  bt_rec XLOG_BTREE_SPLIT_L [0; 0; 0; 0; 3; 0; 2; 0; 0; 0]
    [bt_blk 1 0 (bt_tuple 2 ++ bt_tuple 4); bt_blk 2 BKPBLOCK_WILL_INIT (bt_tuple 5)].

Definition bt_db : dbstate :=
  mkDb {[ (bt_rel, 0) := [[]; []; []] ]} {[ bt_tag 1 := leaf_page; bt_tag 2 := leaf_page ]} ∅ ∅ true false false (mkConf false false).

Lemma leaf_page_wf : bt_wf leaf_page.
Proof. constructor; [apply page_wfb_sound; vm_compute; done|vm_compute; done]. Qed.

Lemma bt_resident b : b = 1 ∨ b = 2 → resident bt_db (bt_tag b) leaf_page.
Proof.
  intros Hb. constructor; [destruct Hb as [-> | ->]; reflexivity| |].
  - eexists. split; [reflexivity|]. change (0 ≤ b < 3). destruct Hb; lia.
  - cbn. unfold InvalidBlockNumber. destruct Hb; lia.
Qed.

Lemma bt_tuple_logged b : 0 ≤ b < 256 → logged_tuple (bt_tuple b).
Proof. intros Hb. split; [repeat constructor; unfold is_byte; lia|]. split; [done|]. vm_compute. done. Qed.

Lemma btree_split_redo_witness : ∃ ql qr,
  polar_btree_redo bt_db split_rec (bt_tag 1) None = Ok (buf_write bt_db (Some (bt_tag 1)) ql, Some (bt_tag 1), BLK_NEEDS_REDO) ∧
  polar_btree_redo bt_db split_rec (bt_tag 2) None = Ok (buf_write bt_db (Some (bt_tag 2)) qr, Some (bt_tag 2), BLK_NEEDS_REDO) ∧
  page_slots ql = item_slot <$> [bt_tuple 4; bt_tuple 1; bt_tuple 2; bt_tuple 3] ∧ page_slots qr = item_slot <$> [bt_tuple 5].
Proof.
  destruct (btree_split_redo bt_db split_rec true (mkSplit 0 3 2 0) (bt_tag 1) (bt_tag 2) leaf_page leaf_page []
    [bt_tuple 1; bt_tuple 3; bt_tuple 5] (bt_tuple 2) (bt_tuple 4) []) as (ql & qr & H0 & H1 & _ & _ & _ & _ & S0 & S1 & _).
  - constructor; try reflexivity; try (cbn; lia); try (vm_compute; intuition congruence).
    cbn [app]. repeat (apply Forall_cons; split; [apply bt_tuple_logged; lia|]). apply Forall_nil_2.
  - constructor; [reflexivity|intros b [= <-]; reflexivity|reflexivity].
  - constructor; [reflexivity|intros b [= <-]; reflexivity|reflexivity].
  - done.
  - done.
  - apply bt_resident. lia.
  - apply bt_resident. lia.
  - apply leaf_page_wf.
  - reflexivity.
  - vm_compute. done.
  - vm_compute. done.
  - vm_compute. done.
  - vm_compute. done.
  - vm_compute. done.
  - vm_compute. lia.
  - exists ql, qr. split; [exact H0|]. split; [exact H1|]. split; [exact S0|exact S1].
Defined.

(** ** Insertions *)

(** An insertion record for a leaf page, and the page in a buffer. *)
Record insert_record (st : dbstate) (r : XLogReaderState) (info : Z) (tag : BufferTag) (p : page) (off : Z) : Prop := {
  in_info : rec_info r = info;
  in_ref : plain_ref r 0 tag;
  in_page : resident st tag p;
  in_wf : bt_wf p;
  in_old : PageGetLSN p < EndRecPtr r;
  in_lsn : 0 ≤ EndRecPtr r < 2 ^ 64;
  in_off : rd 2 (main_data r) 0 = Ok off;
  in_bounds : 1 ≤ off ≤ PageGetMaxOffsetNumber p + 1 }.

Lemma insert_dispatch st r (posting : bool) tag p off :
  insert_record st r (if posting then XLOG_BTREE_INSERT_POST else XLOG_BTREE_INSERT_LEAF) tag p off →
  polar_btree_redo st r tag None = redo_read st r 0 false (btree_insert_page r posting off).
Proof.
  intros [Hi Hr _ _ _ _ Ho _]. unfold polar_btree_redo. rewrite Hi. assert (Hd : polar_btree_xlog_insert true false posting st r tag None = redo_read st r 0 false (btree_insert_page r posting off)).
  { unfold polar_btree_xlog_insert. cbn [negb mbind res_bind]. rewrite (log_tag _ _ _ (pr_tag _ _ _ Hr)). cbn [mbind res_bind].
    rewrite tags_equal_refl, Ho. done. }
  by destruct posting.
Qed.

(** Redo of an insertion on a leaf page.  When the tuple of the record
    fits, it becomes the item at the offset number of the record, the items
    from there on move up by one, the special space is unchanged and the page
    carries the LSN of the record; when it does not fit, replay stops with
    PANIC and no page is written. *)
Theorem btree_insert_redo st r tag p off :
  insert_record st r XLOG_BTREE_INSERT_LEAF tag p off → good_item (block_bytes r 0) →
  if decide (MAXALIGN (zlen (block_bytes r 0)) + 4 ≤ pd_upper p - pd_lower p) then
    ∃ q, polar_btree_redo st r tag None = Ok (buf_write st (Some tag) q, Some tag, BLK_NEEDS_REDO) ∧ bt_wf q ∧
      PageGetLSN q = EndRecPtr r ∧ opaque_of q = opaque_of p ∧ page_slots q = insert_slot off (item_slot (block_bytes r 0)) (page_slots p)
  else polar_btree_redo st r tag None = Err EPanic.
Proof.
  intros Hi Hg. pose proof Hi as [_ Hr Hp Hw Hold Hlsn _ Hrange]. rewrite (insert_dispatch st r false tag p off Hi).
  pose proof (insert_leaf_page r off p Hw Hg Hlsn Hrange) as H. destruct (decide _).
  - destruct H as (q & Hq & Hrest). exists q. split; [|done]. apply (on_redo_resident _ _ _ _ p); (done || apply wf_not_new, Hw).
  - apply (on_redo_resident_err _ _ _ tag p); (done || apply wf_not_new, Hw).
Qed.

(** Redo of an insertion that splits a posting list.  The posting list
    before the offset number of the record is rewritten in place and the new
    tuple is inserted behind it.  Both keep their keys and sizes; together
    they hold the heap TIDs of the old posting list with the TID of the
    inserted tuple at its place, in order, so that no TID is lost; no other
    item is touched. *)
Theorem btree_posting_split_redo st r tag p off postingoff op new :
  insert_record st r XLOG_BTREE_INSERT_POST tag p off → block_bytes r 0 = le_bytes 2 postingoff ++ new →
  leaf_tuple op → posting_wf op → leaf_tuple new → 2 ≤ off → page_slots p !! Z.to_nat (off - 2) = Some (item_slot op) →
  0 < postingoff < BTreeTupleGetNPosting op → MAXALIGN (zlen new) + 4 ≤ pd_upper p - pd_lower p →
  ∃ q np ni, polar_btree_redo st r tag None = Ok (buf_write st (Some tag) q, Some tag, BLK_NEEDS_REDO) ∧ bt_wf q ∧
    PageGetLSN q = EndRecPtr r ∧ opaque_of q = opaque_of p ∧
    page_slots q = insert_slot off (item_slot ni) (<[Z.to_nat (off - 2) := item_slot np]> (page_slots p)) ∧
    htids_of np ++ [mread ni 0 sizeof_ItemPointerData] =
      take (Z.to_nat postingoff) (htids_of op) ++ mread new 0 sizeof_ItemPointerData :: drop (Z.to_nat postingoff) (htids_of op) ∧
    zlen np = zlen op ∧ mread np 0 (BTreeTupleGetPostingOffset op) = mread op 0 (BTreeTupleGetPostingOffset op) ∧
    zlen ni = zlen new ∧ drop 6 ni = drop 6 new.
Proof.
  intros Hi Hdata Hop Hpw Hnew Ho2 Hslot Hpo Hfit. pose proof Hi as [_ Hr Hp Hw Hold Hlsn _ Hrange].
  destruct (insert_post_spec p off postingoff op new Hw ltac:(lia) Hslot Hop Hpw Hnew Hpo Hfit) as (q & np & ni & Hq & Hwq & Hoq & Hsw & Hsq).
  destruct (set_lsn_bt q (EndRecPtr r) Hwq Hlsn) as (H1 & H2 & H3 & H4).
  pose proof (swap_keeps new op postingoff Hpw Hpo ltac:(pose proof (lt_min _ Hnew); unfold sizeof_IndexTupleData, sizeof_ItemPointerData in *; lia) np ni Hsw) as Hk.
  exists (PageSetLSN q (EndRecPtr r)), np, ni. rewrite (insert_dispatch st r true tag p off Hi), H3, H4. split; [|split; [exact H1|]; split; [exact H2|]; split; [exact Hoq|]; split; [exact Hsq|exact Hk]].
  apply (on_redo_resident _ _ _ _ p); try done; [apply wf_not_new, Hw|]. unfold btree_insert_page. by rewrite Hdata, Hq.
Qed.

(** Shortening a posting list by vacuum.  From a posting list and the
    increasing positions of dead heap TIDs, at least one TID staying alive,
    [_bt_update_posting] makes a tuple with the same key whose heap TIDs are
    exactly those at the other positions, in order, also when a single one is
    left and the tuple is no posting list any more; its recorded size is its
    length. *)
Theorem vacuum_posting_tids t ds :
  posting_wf t → StronglySorted Z.lt ds → Forall (λ d, 0 ≤ d < BTreeTupleGetNPosting t) ds → zlen ds < BTreeTupleGetNPosting t →
  posting_size (BTreeTupleGetPostingOffset t) (BTreeTupleGetNPosting t - zlen ds) ≤ INDEX_SIZE_MASK →
  ∃ t', _bt_update_posting t ds = Ok t' ∧ heap_tids t' = kept_tids t ds ∧
    zlen t' = posting_size (BTreeTupleGetPostingOffset t) (BTreeTupleGetNPosting t - zlen ds) ∧ IndexTupleSize t' 0 = zlen t' ∧
    mread t' 8 (BTreeTupleGetPostingOffset t - 8) = mread t 8 (BTreeTupleGetPostingOffset t - 8).
Proof. apply update_posting_spec. Qed.

(** ** Samples *)

(** The item 2 is inserted at offset number 2. *)
Definition insert_rec : XLogReaderState := bt_rec XLOG_BTREE_INSERT_LEAF [2; 0] [bt_blk 1 0 (bt_tuple 2)].

Lemma sample_insert info main data p off : rec_info (bt_rec info main [bt_blk 1 0 data]) = info → rd 2 main 0 = Ok off → bt_wf p →
  PageGetLSN p < 100 → 1 ≤ off ≤ PageGetMaxOffsetNumber p + 1 →
  insert_record (buf_write bt_db (Some (bt_tag 1)) p) (bt_rec info main [bt_blk 1 0 data]) info (bt_tag 1) p off.
Proof.
  intros Hi Ho Hw Hl Hb. constructor; try done.
  - constructor; [reflexivity|intros b [= <-]; reflexivity|reflexivity].
  - apply (resident_write _ _ leaf_page). apply bt_resident. lia.
Qed.

Lemma btree_insert_redo_witness : ∃ q,
  polar_btree_redo (buf_write bt_db (Some (bt_tag 1)) leaf_page) insert_rec (bt_tag 1) None =
    Ok (buf_write (buf_write bt_db (Some (bt_tag 1)) leaf_page) (Some (bt_tag 1)) q, Some (bt_tag 1), BLK_NEEDS_REDO) ∧
  page_slots q = item_slot <$> [bt_tuple 1; bt_tuple 2; bt_tuple 3; bt_tuple 5].
Proof.
  pose proof (btree_insert_redo (buf_write bt_db (Some (bt_tag 1)) leaf_page) insert_rec (bt_tag 1) leaf_page 2) as H.
  destruct (decide _) as [_|Hn] in H; [|by exfalso; apply Hn; vm_compute].
  destruct H as (q & Hq & _ & _ & _ & Hs).
  - apply sample_insert; [reflexivity|reflexivity|apply leaf_page_wf|vm_compute; done|vm_compute; done].
  - apply logged_good, (bt_tuple_logged 2). lia.
  - exists q. split; [exact Hq|exact Hs].
Defined.

(** A posting list of the TIDs (0,1), (0,3), (0,5) behind a key of 8 bytes. *)
Definition post_tuple : list Z :=
  [0; 0; 16; 0; 3; 32; 40; 32] ++ replicate 8 7 ++ [0; 0; 0; 0; 1; 0; 0; 0; 0; 0; 3; 0; 0; 0; 0; 0; 5; 0] ++ replicate 6 0.
(** The tuple with TID (0,2) to be inserted. *)
Definition post_new : list Z := [0; 0; 0; 0; 2; 0; 16; 0] ++ replicate 8 7.

Definition post_page : page :=
  Eval vm_compute in or_page (p ← set_opaque _bt_pageinit 0 0 0 BTP_LEAF 0; add_in_order p [post_tuple] 1 EPanic).
Definition post_rec : XLogReaderState := bt_rec XLOG_BTREE_INSERT_POST [2; 0] [bt_blk 1 0 (le_bytes 2 1 ++ post_new)].

Lemma post_page_wf : bt_wf post_page.
Proof. constructor; [apply page_wfb_sound; vm_compute; done|vm_compute; done]. Qed.

Lemma post_tuple_wf : posting_wf post_tuple ∧ leaf_tuple post_tuple ∧ leaf_tuple post_new.
Proof. split_and!; constructor; try (vm_compute; done); repeat constructor; done. Qed.

Lemma btree_posting_split_redo_witness : ∃ q np ni,
  polar_btree_redo (buf_write bt_db (Some (bt_tag 1)) post_page) post_rec (bt_tag 1) None =
    Ok (buf_write (buf_write bt_db (Some (bt_tag 1)) post_page) (Some (bt_tag 1)) q, Some (bt_tag 1), BLK_NEEDS_REDO) ∧
  htids_of np ++ [mread ni 0 6] = [[0; 0; 0; 0; 1; 0]; [0; 0; 0; 0; 2; 0]; [0; 0; 0; 0; 3; 0]; [0; 0; 0; 0; 5; 0]].
Proof.
  destruct post_tuple_wf as (Hp & Ho & Hn).
  destruct (btree_posting_split_redo (buf_write bt_db (Some (bt_tag 1)) post_page) post_rec (bt_tag 1) post_page 2 1 post_tuple post_new)
    as (q & np & ni & Hq & _ & _ & _ & _ & Ht & _).
  - apply sample_insert; [reflexivity|reflexivity|apply post_page_wf|vm_compute; done|vm_compute; done].
  - reflexivity.
  - exact Ho.
  - exact Hp.
  - exact Hn.
  - lia.
  - vm_compute. done.
  - vm_compute. done.
  - vm_compute. done.
  - exists q, np, ni. split; [exact Hq|exact Ht].
Defined.

Lemma vacuum_posting_tids_witness :
  ∃ t', _bt_update_posting post_tuple [0; 2] = Ok t' ∧ heap_tids t' = [[0; 0; 0; 0; 3; 0]] ∧ IndexTupleSize t' 0 = 16.
Proof.
  destruct (vacuum_posting_tids post_tuple [0; 2]) as (t' & Ht & Hh & Hz & Hi & _).
  - apply post_tuple_wf.
  - repeat constructor.
  - repeat constructor; done.
  - vm_compute. done.
  - vm_compute. done.
  - exists t'. split; [exact Ht|]. split; [exact Hh|]. rewrite Hi. exact Hz.
Defined.
