(* ===== verification/Brin.v ===== *)
(** * Redo of BRIN records on one page: [brin_xlog_idx.c]

    A BRIN index has a meta page, regular pages with summary tuples, and the
    revmap: pages that are arrays of item pointers, one per range of heap
    blocks, which lead to the summary tuple of the range.  One definition per
    handler, and the routines that enter a record in the log index. *)

From S2P Require Import Prelude Mem Page PageAdd PageIndex Buffer WalRecord HeapRedo TagList Btree.

(** ** Record types *)

Definition XLOG_BRIN_CREATE_INDEX : Z := 0x00.
Definition XLOG_BRIN_INSERT : Z := 0x10.
Definition XLOG_BRIN_UPDATE : Z := 0x20.
Definition XLOG_BRIN_SAMEPAGE_UPDATE : Z := 0x30.
Definition XLOG_BRIN_REVMAP_EXTEND : Z := 0x40.
Definition XLOG_BRIN_DESUMMARIZE : Z := 0x50.
Definition XLOG_BRIN_OPMASK : Z := 0x70.
Definition XLOG_BRIN_INIT_PAGE : Z := 0x80.

Definition brin_op (r : XLogReaderState) : Z := Z.land (rec_info r) XLOG_BRIN_OPMASK.

(** ** Pages *)

Definition sizeof_BrinSpecialSpace : Z := 8.
Definition BRIN_PAGETYPE_META : Z := 0xF091.
Definition BRIN_PAGETYPE_REVMAP : Z := 0xF092.
Definition BRIN_PAGETYPE_REGULAR : Z := 0xF093.
Definition BRIN_META_MAGIC : Z := 0xA8109CFA.
Definition sizeof_BrinMetaPageData : Z := 16.
Definition REVMAP_CONTENT_SIZE : Z := BLCKSZ - MAXALIGN SizeOfPageHeaderData - 0 - MAXALIGN sizeof_BrinSpecialSpace.
Definition REVMAP_PAGE_MAXITEMS : Z := REVMAP_CONTENT_SIZE / sizeof_ItemPointerData.

(** The page type is the last of the four 16-bit words of the special space. *)
Definition BrinPageType (p : page) : Z := mget 2 p (PageGetSpecialPointer p + 6).
Definition brin_page_init (type : Z) : page :=
  let p := PageInit BLCKSZ sizeof_BrinSpecialSpace in
  mput 2 p (PageGetSpecialPointer p + 6) type.

Definition brin_metapage_init (pagesPerRange version : Z) : page :=
  let p := brin_page_init BRIN_PAGETYPE_META in
  let md := PageGetContents in
  let p := mput 4 p md BRIN_META_MAGIC in
  let p := mput 4 p (md + 4) version in
  let p := mput 4 p (md + 8) pagesPerRange in
  let p := mput 4 p (md + 12) 0 in
  set_pd_lower p (md + sizeof_BrinMetaPageData).

(** A range of no pages divides by zero. *)
Definition HEAPBLK_TO_REVMAP_INDEX (pagesPerRange heapBlk : Z) : res Z :=
  if pagesPerRange =? 0 then Err EOob else Ok (heapBlk / pagesPerRange mod REVMAP_PAGE_MAXITEMS).

(** The address of an entry of the revmap. *)
Definition revmap_entry (index : Z) : Z := PageGetContents + sizeof_ItemPointerData * index.

(** [ItemPointerSet] of the item pointer at [a]. *)
Definition set_tid (m : mem) (a blk off : Z) : mem := ItemPointerSetOffsetNumber (ItemPointerSetBlockNumber m a blk) a off.

(** [tid] is a block and an offset number, valid when the latter is not 0. *)
Definition brinSetHeapBlockItemptr (p : page) (pagesPerRange heapBlk : Z) (tid : Z * Z) : res page :=
  index ← HEAPBLK_TO_REVMAP_INDEX pagesPerRange heapBlk;
  if negb (in_range p (revmap_entry index) sizeof_ItemPointerData) then Err EOob else
  if negb (snd tid =? InvalidOffsetNumber) then Ok (set_tid p (revmap_entry index) (fst tid) (snd tid))
  else Ok (set_tid p (revmap_entry index) InvalidBlockNumber InvalidOffsetNumber).

(** ** Redo *)

Definition polar_brin_xlog_createidx (st : dbstate) (r : XLogReaderState) (tag : BufferTag) (buffer : Buffer) : redo_result :=
  meta_tag ← POLAR_GET_LOG_TAG r 0;
  if negb (BUFFERTAGS_EQUAL meta_tag tag) then Ok (st, buffer, BLK_NOTFOUND) else
  pagesPerRange ← rd 4 (main_data r) 0;
  version ← rd 2 (main_data r) 4;
  redo_init st r 0 buffer BLK_NEEDS_REDO (Ok (brin_metapage_init pagesPerRange version)).

(** The tuple of the record, at its offset number. *)
Definition brin_add_tuple (r : XLogReaderState) (offnum : Z) (p : page) : res page :=
  if PageGetMaxOffsetNumber p + 1 <? offnum then Err EPanic else
  '(p, o) ← PageAddItem p (block_bytes r 0) offnum true false;
  if o =? InvalidOffsetNumber then Err EPanic else Ok p.

(** [xlrec] is the position of the [xl_brin_insert] in the main data. *)
Definition polar_brin_xlog_insert_update (xlrec : Z) (st : dbstate) (r : XLogReaderState) (tag : BufferTag)
  (buffer : Buffer) : redo_result :=
  index_tag ← POLAR_GET_LOG_TAG r 0;
  if BUFFERTAGS_EQUAL tag index_tag then
    offnum ← rd 2 (main_data r) (xlrec + 8);
    if has_flag (xl_info r) XLOG_BRIN_INIT_PAGE
    then redo_init st r 0 buffer BLK_NEEDS_REDO (brin_add_tuple r offnum (brin_page_init BRIN_PAGETYPE_REGULAR))
    else redo_read st r 0 false (λ p, p ← brin_add_tuple r offnum p; Ok (PageSetLSN p (EndRecPtr r)))
  else
  revmap_tag ← POLAR_GET_LOG_TAG r 1;
  if BUFFERTAGS_EQUAL tag revmap_tag then
    heapBlk ← rd 4 (main_data r) xlrec;
    pagesPerRange ← rd 4 (main_data r) (xlrec + 4);
    offnum ← rd 2 (main_data r) (xlrec + 8);
    redo_read st r 1 false (λ p,
      p ← brinSetHeapBlockItemptr p pagesPerRange heapBlk (blockNum index_tag, offnum);
      Ok (PageSetLSN p (EndRecPtr r)))
  else Ok (st, buffer, BLK_NOTFOUND).

Definition polar_brin_xlog_insert (st : dbstate) (r : XLogReaderState) (tag : BufferTag) (buffer : Buffer) : redo_result :=
  polar_brin_xlog_insert_update 0 st r tag buffer.

(** A tuple is removed from a regular page. *)
Definition brin_delete_page (r : XLogReaderState) (offnum : Z) (p : page) : res page :=
  p ← PageIndexTupleDeleteNoCompact p offnum;
  Ok (PageSetLSN p (EndRecPtr r)).

Definition polar_brin_xlog_update (st : dbstate) (r : XLogReaderState) (tag : BufferTag) (buffer : Buffer) : redo_result :=
  old_tag ← POLAR_GET_LOG_TAG r 2;
  if BUFFERTAGS_EQUAL tag old_tag then
    oldOffnum ← rd 2 (main_data r) 0;
    redo_read st r 2 false (brin_delete_page r oldOffnum)
  else polar_brin_xlog_insert_update 4 st r tag buffer.

Definition polar_brin_xlog_samepage_update (st : dbstate) (r : XLogReaderState) (tag : BufferTag) (buffer : Buffer)
  : redo_result :=
  page_tag ← POLAR_GET_LOG_TAG r 0;
  if negb (BUFFERTAGS_EQUAL page_tag tag) then Ok (st, buffer, BLK_NOTFOUND) else
  offnum ← rd 2 (main_data r) 0;
  redo_read st r 0 false (λ p,
    '(p, ok) ← PageIndexTupleOverwrite p offnum (block_bytes r 0);
    if negb ok then Err EPanic else Ok (PageSetLSN p (EndRecPtr r))).

Definition polar_brin_xlog_revmap_extend (st : dbstate) (r : XLogReaderState) (tag : BufferTag) (buffer : Buffer)
  : redo_result :=
  meta_tag ← POLAR_GET_LOG_TAG r 0;
  if BUFFERTAGS_EQUAL tag meta_tag then
    targetBlk ← rd 4 (main_data r) 0;
    redo_read st r 0 false (λ p,
      let p := mput 4 p (PageGetContents + 12) targetBlk in
      let p := PageSetLSN p (EndRecPtr r) in
      Ok (set_pd_lower p (PageGetContents + sizeof_BrinMetaPageData)))
  else
  revmap_tag ← POLAR_GET_LOG_TAG r 1;
  if BUFFERTAGS_EQUAL tag revmap_tag
  then redo_init st r 1 buffer BLK_NEEDS_REDO (Ok (brin_page_init BRIN_PAGETYPE_REVMAP))
  else Ok (st, buffer, BLK_NOTFOUND).

Definition polar_brin_xlog_desummarize_page (st : dbstate) (r : XLogReaderState) (tag : BufferTag) (buffer : Buffer)
  : redo_result :=
  revmap_tag ← POLAR_GET_LOG_TAG r 0;
  if BUFFERTAGS_EQUAL tag revmap_tag then
    pagesPerRange ← rd 4 (main_data r) 0;
    heapBlk ← rd 4 (main_data r) 4;
    redo_read st r 0 false (λ p,
      p ← brinSetHeapBlockItemptr p pagesPerRange heapBlk (InvalidBlockNumber, InvalidOffsetNumber);
      Ok (PageSetLSN p (EndRecPtr r)))
  else
  left_tag ← POLAR_GET_LOG_TAG r 1;
  if BUFFERTAGS_EQUAL tag left_tag then
    regOffset ← rd 2 (main_data r) 8;
    redo_read st r 1 false (brin_delete_page r regOffset)
  else Ok (st, buffer, BLK_NOTFOUND).

Definition polar_brin_idx_redo (st : dbstate) (r : XLogReaderState) (tag : BufferTag) (buffer : Buffer) : redo_result :=
  let op := brin_op r in
  if op =? XLOG_BRIN_CREATE_INDEX then polar_brin_xlog_createidx st r tag buffer
  else if op =? XLOG_BRIN_INSERT then polar_brin_xlog_insert st r tag buffer
  else if op =? XLOG_BRIN_UPDATE then polar_brin_xlog_update st r tag buffer
  else if op =? XLOG_BRIN_SAMEPAGE_UPDATE then polar_brin_xlog_samepage_update st r tag buffer
  else if op =? XLOG_BRIN_REVMAP_EXTEND then polar_brin_xlog_revmap_extend st r tag buffer
  else if op =? XLOG_BRIN_DESUMMARIZE then polar_brin_xlog_desummarize_page st r tag buffer
  else Err EPanic.

(** ** The pages of a record *)

(** The boolean is the return value: an unknown record is not entered. *)
Definition polar_brin_idx_save (r : XLogReaderState) : res (bool * list BufferTag) :=
  let op := brin_op r in
  if (op =? XLOG_BRIN_CREATE_INDEX) || (op =? XLOG_BRIN_SAMEPAGE_UPDATE) then Ok (true, ParseXLogBlocksLsn r 0)
  else if (op =? XLOG_BRIN_INSERT) || (op =? XLOG_BRIN_REVMAP_EXTEND) || (op =? XLOG_BRIN_DESUMMARIZE)
    then Ok (true, ParseXLogBlocksLsn r 0 ++ ParseXLogBlocksLsn r 1)
  else if op =? XLOG_BRIN_UPDATE then Ok (true, ParseXLogBlocksLsn r 2 ++ ParseXLogBlocksLsn r 0 ++ ParseXLogBlocksLsn r 1)
  else Ok (false, []).

(** The tags of some blocks, each written through [*buffertagList[i]]. *)
Fixpoint brin_tags (r : XLogReaderState) (n : Z) (ids : list Z) (l : list BufferTag) : res (list BufferTag) :=
  match ids with
  | [] => Ok l
  | id :: ids => t ← tag_or_uninit r id; l ← put_tag_ptr n l t; brin_tags r n ids l
  end.

Definition polar_brin_idx_get_bufftag_list (r : XLogReaderState) : res tag_result :=
  let op := brin_op r in
  if (op =? XLOG_BRIN_CREATE_INDEX) || (op =? XLOG_BRIN_SAMEPAGE_UPDATE) then Tags <$> brin_tags r 1 [0] []
  else if (op =? XLOG_BRIN_INSERT) || (op =? XLOG_BRIN_REVMAP_EXTEND) || (op =? XLOG_BRIN_DESUMMARIZE)
    then Tags <$> brin_tags r 2 [0; 1] []
  else if op =? XLOG_BRIN_UPDATE then Tags <$> brin_tags r 3 [2; 0; 1] []
  else Ok NotParsed.
