(* ===== verification/Gist.v ===== *)
(** * Redo of GiST records on one page: [gist_xlog_idx.c]

    One definition per handler, each for one page of the record, and the
    routines that enter a record in the log index.  Two handlers end without
    returning their action; the value their caller then uses is
    [EUndef]. *)

From S2P Require Import Prelude Mem Page PageAdd PageIndex PageCompact Buffer WalRecord HeapRedo TagList Btree BtreeRedo.

(** ** Record types *)

Definition XLOG_GIST_PAGE_UPDATE : Z := 0x00.
Definition XLOG_GIST_DELETE : Z := 0x10.
Definition XLOG_GIST_PAGE_REUSE : Z := 0x20.
Definition XLOG_GIST_PAGE_SPLIT : Z := 0x30.
Definition XLOG_GIST_PAGE_DELETE : Z := 0x60.
Definition XLOG_GIST_ASSIGN_LSN : Z := 0x70.

(** ** Pages *)

Definition sizeof_GISTPageOpaqueData : Z := 16.
Definition F_LEAF : Z := 1.
Definition F_DELETED : Z := 2.
Definition F_TUPLES_DELETED : Z := 4.
Definition F_FOLLOW_RIGHT : Z := 8.
Definition F_HAS_GARBAGE : Z := 16.
Definition GIST_ROOT_BLKNO : Z := 0.
Definition GIST_PAGE_ID : Z := 0xFF81.

(** The fields of [GISTPageOpaqueData]; the NSN is kept as two halves. *)
Definition gist_nsn : Z := 0.
Definition gist_rightlink : Z := 8.
Definition gist_flags : Z := 12.
Definition gist_page_id : Z := 14.

Definition GistPageSetNSN (p : page) (v : Z) : res page :=
  p ← opaque_set 4 p (PageGetSpecialPointer p) gist_nsn (Z.shiftr v 32);
  opaque_set 4 p (PageGetSpecialPointer p) (gist_nsn + 4) v.
Definition set_rightlink (p : page) (blk : Z) : res page := opaque_set 4 p (PageGetSpecialPointer p) gist_rightlink blk.

(** Setting and clearing a flag. *)
Definition gist_mark (p : page) (f : Z) : res page :=
  flags ← opaque_get 2 p (PageGetSpecialPointer p) gist_flags;
  opaque_set 2 p (PageGetSpecialPointer p) gist_flags (set_flag flags f).
Definition gist_clear (p : page) (f : Z) : res page :=
  flags ← opaque_get 2 p (PageGetSpecialPointer p) gist_flags;
  opaque_set 2 p (PageGetSpecialPointer p) gist_flags (clear_flag flags f).
Definition GistPageIsLeaf (p : page) : res bool :=
  flags ← opaque_get 2 p (PageGetSpecialPointer p) gist_flags; Ok (has_flag flags F_LEAF).

Definition GISTInitBuffer (f : Z) : res page :=
  let p := PageInit BLCKSZ sizeof_GISTPageOpaqueData in
  p ← set_rightlink p InvalidBlockNumber;
  p ← opaque_set 2 p (PageGetSpecialPointer p) gist_flags f;
  opaque_set 2 p (PageGetSpecialPointer p) gist_page_id GIST_PAGE_ID.

Definition GistPageSetDeleted (p : page) (deletexid : list Z) : res page :=
  p ← gist_mark p F_DELETED;
  let p := set_pd_lower p (MAXALIGN SizeOfPageHeaderData + 8) in
  store p PageGetContents deletexid.

Definition gistfillbuffer (p : page) (itup : list (list Z)) (off : Z) : res page :=
  let off := if off =? InvalidOffsetNumber
             then if PageIsEmpty p then FirstOffsetNumber else OffsetNumberNext (PageGetMaxOffsetNumber p)
             else off in
  add_in_order p itup off EError.

(** A tuple at a position of the data, and the [n] tuples from there on. *)
Definition tuple_at (data : list Z) (pos : Z) : res (list Z) :=
  if in_range data pos sizeof_IndexTupleData then load data pos (IndexTupleSize data pos) else Err EOob.
Fixpoint split_tuples (data : list Z) (pos : Z) (n : nat) : res (list (list Z)) :=
  match n with
  | O => Ok []
  | S n => t ← tuple_at data pos; ts ← split_tuples data (pos + zlen t) n; Ok (t :: ts)
  end.

(** A count that is negative as an [int] is a request for too much memory. *)
Definition decodePageSplitRecord (data : list Z) : res (list (list Z)) :=
  n ← rd 4 data 0;
  if 2 ^ 31 <=? n then Err EError else split_tuples data 4 (Z.to_nat n).

(** ** Redo *)

Definition follow_right_page (r : XLogReaderState) (p : page) : res page :=
  p ← GistPageSetNSN p (EndRecPtr r);
  p ← gist_clear p F_FOLLOW_RIGHT;
  Ok (PageSetLSN p (EndRecPtr r)).

(** The page is changed also after it was restored from its image. *)
Definition polar_gist_redo_clear_follow_right (st : dbstate) (r : XLogReaderState) (block_id : Z) : redo_result :=
  '(st, buffer, action) ← XLogReadBufferForRedoExtended st r block_id RBM_NORMAL false;
  match action with
  | BLK_NEEDS_REDO | BLK_RESTORED =>
      p ← BufferGetPage st buffer;
      p ← follow_right_page r p;
      Ok (buf_write st buffer p, buffer, action)
  | _ => Ok (st, buffer, action)
  end.

(** The tuples from [pos] on are added at [off]; every turn takes a line
    pointer, so that a page does not hold more turns than offset numbers. *)
Fixpoint gist_add_loop (fuel : nat) (p : page) (data : list Z) (pos off : Z) : res page :=
  if pos <? zlen data then
    match fuel with
    | O => Err EFuel
    | S fuel =>
        t ← tuple_at data pos;
        p ← bt_add_item p t off EError;
        gist_add_loop fuel p data (pos + zlen t) (u16 (off + 1))
    end
  else Ok p.

(** The deletions of an update; the result says where the new tuples are. *)
Definition gist_update_delete (p : page) (data : list Z) (ntodelete ntoinsert : Z) : res (page * Z) :=
  if (ntodelete =? 1) && (ntoinsert =? 1) then
    offnum ← rd 2 data 0;
    itup ← tuple_at data 2;
    '(p, ok) ← PageIndexTupleOverwrite p offnum itup;
    if negb ok then Err EError else Ok (p, 2 + zlen itup)
  else if 0 <? ntodelete then
    todelete ← get_offsets data 0 (Z.to_nat ntodelete);
    p ← PageIndexMultiDelete p todelete;
    leaf ← GistPageIsLeaf p;
    p ← (if (leaf : bool) then gist_mark p F_TUPLES_DELETED else Ok p);
    Ok (p, 2 * ntodelete)
  else Ok (p, 0).

Definition gist_update_page (r : XLogReaderState) (ntodelete ntoinsert : Z) (p : page) : res page :=
  let data := block_bytes r 0 in
  '(p, pos) ← gist_update_delete p data ntodelete ntoinsert;
  p ← (if pos <? zlen data then
         let off := if PageIsEmpty p then FirstOffsetNumber else OffsetNumberNext (PageGetMaxOffsetNumber p) in
         gist_add_loop (Z.to_nat MaxOffsetNumber) p data pos off
       else Ok p);
  Ok (PageSetLSN p (EndRecPtr r)).

Definition polar_gist_redo_page_update_record (st : dbstate) (r : XLogReaderState) (tag : BufferTag) (buffer : Buffer)
  : redo_result :=
  update_tag ← POLAR_GET_LOG_TAG r 0;
  if BUFFERTAGS_EQUAL tag update_tag then
    ntodelete ← rd 2 (main_data r) 0;
    ntoinsert ← rd 2 (main_data r) 2;
    redo_read st r 0 false (gist_update_page r ntodelete ntoinsert)
  else
  right ← (if XLogRecHasBlockRef r 1 then t ← POLAR_GET_LOG_TAG r 1; Ok (BUFFERTAGS_EQUAL tag t) else Ok false);
  if (right : bool) then polar_gist_redo_clear_follow_right st r 1 else Ok (st, buffer, BLK_NOTFOUND).

Record gistxlogPageSplit : Type := mkGistSplit {
  origrlink : Z; orignsn : Z; origleaf : bool; npage : Z; markfollowright : bool }.

Definition get_gistxlogPageSplit (r : XLogReaderState) : res gistxlogPageSplit :=
  a ← rd 4 (main_data r) 0;
  b ← rd 8 (main_data r) 8;
  c ← rd 1 (main_data r) 16;
  d ← rd 2 (main_data r) 18;
  e ← rd 1 (main_data r) 20;
  Ok (mkGistSplit a b (negb (c =? 0)) d (negb (e =? 0))).

(** Page [i] of a split. *)
Definition gist_split_page (r : XLogReaderState) (x : gistxlogPageSplit) (i : Z) (isrootsplit : bool) (blk : Z) : res page :=
  tuples ← decodePageSplitRecord (block_bytes r (i + 1));
  p ← GISTInitBuffer (if origleaf x && negb (blk =? GIST_ROOT_BLKNO) then F_LEAF else 0);
  p ← gistfillbuffer p tuples FirstOffsetNumber;
  if blk =? GIST_ROOT_BLKNO then
    p ← set_rightlink p InvalidBlockNumber;
    p ← GistPageSetNSN p (orignsn x);
    gist_clear p F_FOLLOW_RIGHT
  else
    p ← (if i <? npage x - 1 then t ← POLAR_GET_LOG_TAG r (i + 2); set_rightlink p (blockNum t)
         else set_rightlink p (origrlink x));
    p ← GistPageSetNSN p (orignsn x);
    if (i <? npage x - 1) && negb isrootsplit && markfollowright x then gist_mark p F_FOLLOW_RIGHT
    else gist_clear p F_FOLLOW_RIGHT.

(** The pages [i ..] of a split; [None] when none of them is asked for. *)
Fixpoint gist_split_loop (st : dbstate) (r : XLogReaderState) (x : gistxlogPageSplit) (tag : BufferTag) (buffer : Buffer)
  (i : Z) (isrootsplit : bool) (n : nat) : res (option (dbstate * Buffer * XLogRedoAction)) :=
  match n with
  | O => Ok None
  | S n =>
      page_tag ← POLAR_GET_LOG_TAG r (i + 1);
      let isrootsplit := isrootsplit || (blockNum page_tag =? GIST_ROOT_BLKNO) in
      if negb (BUFFERTAGS_EQUAL tag page_tag) then gist_split_loop st r x tag buffer (i + 1) isrootsplit n
      else o ← redo_init st r (i + 1) buffer BLK_NEEDS_REDO (gist_split_page r x i isrootsplit (blockNum page_tag)); Ok (Some o)
  end.

Definition polar_gist_redo_page_split_record (st : dbstate) (r : XLogReaderState) (tag : BufferTag) (buffer : Buffer)
  : redo_result :=
  x ← get_gistxlogPageSplit r;
  found ← gist_split_loop st r x tag buffer 0 false (Z.to_nat (npage x));
  match found with
  | Some o => Ok o
  | None =>
      right ← (if XLogRecHasBlockRef r 0 then t ← POLAR_GET_LOG_TAG r 0; Ok (BUFFERTAGS_EQUAL tag t) else Ok false);
      if (right : bool) then polar_gist_redo_clear_follow_right st r 0 else Ok (st, buffer, BLK_NOTFOUND)
  end.

Definition SizeOfGistxlogDelete : Z := 6.
Definition gist_delete_page (r : XLogReaderState) (p : page) : res page :=
  ntodelete ← rd 2 (main_data r) 4;
  p ← (if SizeOfGistxlogDelete <? zlen (main_data r) then
         todelete ← get_offsets (main_data r) SizeOfGistxlogDelete (Z.to_nat ntodelete);
         PageIndexMultiDelete p todelete
       else Ok p);
  p ← gist_clear p F_HAS_GARBAGE;
  p ← gist_mark p F_TUPLES_DELETED;
  Ok (PageSetLSN p (EndRecPtr r)).

(** The function has no return statement. *)
Definition polar_gistRedoDeleteRecord (st : dbstate) (r : XLogReaderState) (tag : BufferTag) (buffer : Buffer) : redo_result :=
  delete_tag ← POLAR_GET_LOG_TAG r 0;
  _ ← (if BUFFERTAGS_EQUAL tag delete_tag then redo_read st r 0 false (gist_delete_page r)
       else Ok (st, buffer, BLK_NOTFOUND));
  Err EUndef.

(** Nor has this one. *)
Definition polar_gistRedoPageDelete (st : dbstate) (r : XLogReaderState) (tag : BufferTag) (buffer : Buffer) : redo_result :=
  tag0 ← POLAR_GET_LOG_TAG r 0;
  '(st, buffer, _) ← (if BUFFERTAGS_EQUAL tag tag0 then
      deleteXid ← load (main_data r) 0 8;
      redo_read st r 0 false (λ p, p ← GistPageSetDeleted p deleteXid; Ok (PageSetLSN p (EndRecPtr r)))
    else Ok (st, buffer, BLK_NOTFOUND));
  tag1 ← POLAR_GET_LOG_TAG r 1;
  _ ← (if BUFFERTAGS_EQUAL tag tag1 then
      downlinkOffset ← rd 2 (main_data r) 8;
      redo_read st r 1 false (λ p, p ← PageIndexTupleDelete p downlinkOffset; Ok (PageSetLSN p (EndRecPtr r)))
    else Ok (st, buffer, BLK_NOTFOUND));
  Err EUndef.

Definition polar_gist_idx_redo (st : dbstate) (r : XLogReaderState) (tag : BufferTag) (buffer : Buffer) : redo_result :=
  let info := rec_info r in
  if info =? XLOG_GIST_PAGE_UPDATE then polar_gist_redo_page_update_record st r tag buffer
  else if info =? XLOG_GIST_DELETE then polar_gistRedoDeleteRecord st r tag buffer
  else if info =? XLOG_GIST_PAGE_REUSE then Ok (st, buffer, BLK_NOTFOUND)
  else if info =? XLOG_GIST_PAGE_SPLIT then polar_gist_redo_page_split_record st r tag buffer
  else if info =? XLOG_GIST_PAGE_DELETE then polar_gistRedoPageDelete st r tag buffer
  else if info =? XLOG_GIST_ASSIGN_LSN then Ok (st, buffer, BLK_NOTFOUND)
  else Err EPanic.

(** ** The pages of a record *)

(** The blocks from [id] on, as long as the record has them. *)
Fixpoint save_run (r : XLogReaderState) (id : Z) (n : nat) : list BufferTag :=
  match n with
  | O => []
  | S n => if XLogRecHasBlockRef r id then ParseXLogBlocksLsn r id ++ save_run r (id + 1) n else []
  end.

Definition polar_gist_redo_page_update_record_save (r : XLogReaderState) : list BufferTag :=
  ParseXLogBlocksLsn r 0 ++ save_if_ref r 1.
Definition polar_gist_redo_page_split_record_save (r : XLogReaderState) : list BufferTag :=
  ParseXLogBlocksLsn r 1 ++ save_run r 2 (Z.to_nat (XLR_MAX_BLOCK_ID - 1)) ++ save_if_ref r 0.

Definition polar_gist_idx_save (r : XLogReaderState) : res (list BufferTag) :=
  let info := rec_info r in
  if info =? XLOG_GIST_PAGE_UPDATE then Ok (polar_gist_redo_page_update_record_save r)
  else if info =? XLOG_GIST_DELETE then Ok (ParseXLogBlocksLsn r 0)
  else if info =? XLOG_GIST_PAGE_REUSE then Ok []
  else if info =? XLOG_GIST_PAGE_SPLIT then Ok (polar_gist_redo_page_split_record_save r)
  else if info =? XLOG_GIST_PAGE_DELETE then Ok (ParseXLogBlocksLsn r 0 ++ ParseXLogBlocksLsn r 1)
  else if info =? XLOG_GIST_ASSIGN_LSN then Ok []
  else Err EPanic.

(** The length of the run, which sizes the array, and its tags. *)
Fixpoint run_length (r : XLogReaderState) (id : Z) (n : nat) : Z :=
  match n with
  | O => 0
  | S n => if XLogRecHasBlockRef r id then 1 + run_length r (id + 1) n else 0
  end.
Fixpoint put_run (cap : Z) (r : XLogReaderState) (id : Z) (n : nat) (l : list BufferTag) : res (list BufferTag) :=
  match n with
  | O => Ok l
  | S n => if XLogRecHasBlockRef r id then l ← bt_put_tag cap r id l; put_run cap r (id + 1) n l else Ok l
  end.

Definition polar_gist_redo_page_update_record_get_bufftag_list (r : XLogReaderState) : res (list BufferTag) :=
  l ← bt_put_tag 2 r 0 []; bt_put_if (XLogRecHasBlockRef r 1) 2 r 1 l.
Definition polar_gist_redo_page_split_record_get_bufftag_list (r : XLogReaderState) : res (list BufferTag) :=
  let n := Z.to_nat (XLR_MAX_BLOCK_ID - 1) in
  let cap := 1 + run_length r 2 n + (if XLogRecHasBlockRef r 0 then 1 else 0) in
  l ← bt_put_tag cap r 1 [];
  l ← put_run cap r 2 n l;
  bt_put_if (XLogRecHasBlockRef r 0) cap r 0 l.

Definition polar_gist_idx_get_bufftag_list (r : XLogReaderState) : res tag_result :=
  let info := rec_info r in
  if info =? XLOG_GIST_PAGE_UPDATE then Tags <$> polar_gist_redo_page_update_record_get_bufftag_list r
  else if info =? XLOG_GIST_DELETE then Tags <$> single_bufftag_list r
  else if info =? XLOG_GIST_PAGE_REUSE then Ok TagsUnset
  else if info =? XLOG_GIST_PAGE_SPLIT then Tags <$> polar_gist_redo_page_split_record_get_bufftag_list r
  else if info =? XLOG_GIST_PAGE_DELETE then Tags <$> (l ← bt_put_tag 2 r 0 []; bt_put_tag 2 r 1 l)
  else if info =? XLOG_GIST_ASSIGN_LSN then Ok TagsUnset
  else Err EPanic.
