(* ===== verification/GistSpec.v ===== *)
(** * The theorems of GiST replay

    Redo of a page split builds every page of the split from the tuples of the
    record and links the pages to one another. *)

From S2P Require Import Prelude Mem Page PageAdd PageIndex PageCompact Checksum Buffer WalRecord HeapRedo Resident TagList Btree BtreePage BtreeRedo BtreeSplit Gist.

(** ** The special space

    [GISTPageOpaqueData] has the size and the field widths of
    [BTPageOpaqueData]: [opaque_of] is the two halves of the NSN, the right
    link, the flags and the page id. *)

Section fields.
Context (p : page) (hi lo rl fl id : Z) (Hw : bt_wf p) (Ho : opaque_of p = (hi, lo, rl, fl, id)).

Lemma gist_set n field v : 0 ≤ field → field + Z.of_nat n ≤ 16 →
opaque_set n p (PageGetSpecialPointer p) field v = Ok (mput n p (opq + field) v) ∧ bt_wf (mput n p (opq + field) v) ∧ special_write p (mput n p (opq + field) v).
Proof using Hw. intros. unfold PageGetSpecialPointer. rewrite (bt_special _ Hw). fold opq. by apply opaque_put. Qed.

Lemma rightlink_spec b : ∃ q, set_rightlink p b = Ok q ∧ bt_wf q ∧ special_write p q ∧ opaque_of q = (hi, lo, u32 b, fl, id).
Proof using All.
pose proof (wf_len _ (wf_hdr _ Hw)) as Hz. destruct (gist_set 4 gist_rightlink b) as (He & Hq & Hs); [done..|].
exists (mput 4 p (opq + gist_rightlink) b). split_and!; [done..|]. rewrite opaque_of_eq in * by done. injection Ho as <- <- <- <- <-.
unfold gist_rightlink. opq_simpl. done.
Qed.

Lemma flags_spec f v : f = Ok v → 0 ≤ v < 2 ^ 16 →
∃ q, (v ← f; opaque_set 2 p (PageGetSpecialPointer p) gist_flags v) = Ok q ∧ bt_wf q ∧ special_write p q ∧ opaque_of q = (hi, lo, rl, v, id).
Proof using All.
intros -> Hv. cbn [mbind res_bind]. pose proof (wf_len _ (wf_hdr _ Hw)) as Hz. destruct (gist_set 2 gist_flags v) as (He & Hq & Hs); [done..|].
exists (mput 2 p (opq + gist_flags) v). split_and!; [done..|]. rewrite opaque_of_eq in * by done. injection Ho as <- <- <- <- <-.
unfold gist_flags. opq_simpl. rewrite Z.mod_small by done. done.
Qed.

Lemma get_flags : opaque_get 2 p (PageGetSpecialPointer p) gist_flags = Ok fl ∧ 0 ≤ fl < 2 ^ 16.
Proof using All.
unfold PageGetSpecialPointer. rewrite opaque_get_spec by done. unfold opaque_of in Ho. injection Ho as _ _ _ <- _. split; [done|].
apply (mget_bound 2). apply (wf_bytes _ (wf_hdr _ Hw)).
Qed.

Lemma mark_spec f : 0 ≤ f < 2 ^ 16 → ∃ q, gist_mark p f = Ok q ∧ bt_wf q ∧ special_write p q ∧ opaque_of q = (hi, lo, rl, set_flag fl f, id).
Proof using All.
intros Hf. destruct get_flags as [Hg Hb]. destruct (flags_spec (Ok (set_flag fl f)) (set_flag fl f) eq_refl) as (q & Hq & H); [by apply lor_bounded|].
exists q. split; [|done]. unfold gist_mark. by rewrite Hg.
Qed.

Lemma clear_spec f : ∃ q, gist_clear p f = Ok q ∧ bt_wf q ∧ special_write p q ∧ opaque_of q = (hi, lo, rl, clear_flag fl f, id).
Proof using All.
destruct get_flags as [Hg Hb]. destruct (flags_spec (Ok (clear_flag fl f)) (clear_flag fl f) eq_refl) as (q & Hq & H); [by apply (land_bounded_l _ _ 16)|].
exists q. split; [|done]. unfold gist_clear. by rewrite Hg.
Qed.
End fields.

Lemma nsn_spec p hi lo rl fl id v : bt_wf p → opaque_of p = (hi, lo, rl, fl, id) →
  ∃ q, GistPageSetNSN p v = Ok q ∧ bt_wf q ∧ special_write p q ∧ opaque_of q = (u32 (Z.shiftr v 32), u32 v, rl, fl, id).
Proof.
  intros Hw Ho. pose proof (wf_len _ (wf_hdr _ Hw)) as Hz. unfold GistPageSetNSN.
  destruct (gist_set p Hw 4 gist_nsn (Z.shiftr v 32)) as (-> & Hq & Hs); [done..|]. cbn [mbind res_bind].
  destruct (gist_set _ Hq 4 (gist_nsn + 4) v) as (-> & Hq2 & Hs2); [done..|].
  eexists. split; [reflexivity|]. split_and!; [done|by eapply special_write_trans|]. rewrite opaque_of_eq in * by done. injection Ho as <- <- <- <- <-.
  unfold gist_nsn. opq_simpl. done.
Qed.

Lemma gist_init_spec f : 0 ≤ f < 2 ^ 16 → ∃ p hi lo, GISTInitBuffer f = Ok p ∧ bt_wf p ∧ page_slots p = [] ∧ pd_upper p - pd_lower p = opq - 24 ∧
  opaque_of p = (hi, lo, InvalidBlockNumber, f, GIST_PAGE_ID).
Proof.
  intros Hf. destruct bt_pageinit_spec as (Hw & Hs & Hl & Hu & _). unfold GISTInitBuffer.
  change sizeof_GISTPageOpaqueData with sizeof_BTPageOpaqueData. rewrite bt_pageinit_eq. generalize dependent _bt_pageinit. intros p0 Hw Hs Hl Hu.
  destruct (opaque_of p0) as [[[[hi lo] rl] fl] id] eqn:Eo.
  destruct (rightlink_spec p0 _ _ _ _ _ Hw Eo InvalidBlockNumber) as (p1 & -> & Hw1 & S1 & O1). cbn [mbind res_bind].
  destruct (flags_spec p1 _ _ _ _ _ Hw1 O1 (Ok f) f eq_refl Hf) as (p2 & E2 & Hw2 & S2 & O2). cbn [mbind res_bind] in E2. rewrite E2. cbn [mbind res_bind].
  destruct (gist_set p2 Hw2 2 gist_page_id GIST_PAGE_ID) as (-> & Hw3 & S3); [done..|]. set (p3 := mput _ _ _ _) in *.
  pose proof (special_write_trans _ _ _ Hw S1 (special_write_trans _ _ _ Hw1 S2 S3)) as S. destruct (special_hdr _ _ Hw S) as (E1 & E4 & _).
  exists p3, hi, lo. split_and!; [done|done|by rewrite (special_slots _ _ Hw S)|lia|].
  pose proof (wf_len _ (wf_hdr _ Hw2)) as Hz. rewrite opaque_of_eq in O2 |- * by done. injection O2 as <- <- E5 <- <-. unfold p3, gist_page_id. opq_simpl.
  rewrite E5. unfold u32, InvalidBlockNumber, GIST_PAGE_ID. done.
Qed.

(** ** The tuples of a page *)

(** A tuple whose recorded size is its length. *)
Definition gist_tuple (t : list Z) : Prop := Forall is_byte t ∧ sizeof_IndexTupleData ≤ zlen t ∧ IndexTupleSize t 0 = zlen t.

Lemma split_tuples_spec ts : ∀ pre, Forall gist_tuple ts → split_tuples (pre ++ concat ts) (zlen pre) (length ts) = Ok ts.
Proof.
  induction ts as [|t ts IH]; intros pre Hf; [done|]. apply Forall_cons in Hf as [(Hb & Hm & Hs) Hf]. cbn [split_tuples length concat].
  unfold tuple_at. rewrite tuple_size_app, Hs by done. unfold sizeof_IndexTupleData, load in *.
  assert (Hin : ∀ n, n ≤ zlen t → 0 ≤ n → in_range (pre ++ t ++ concat ts) (zlen pre) n = true).
  { intros n Hn H0. apply in_range_true. rewrite !zlen_app. unfold zlen in *. lia. }
  rewrite !Hin by (unfold zlen in *; lia). cbn [mbind res_bind]. rewrite mread_middle. cbn [mbind res_bind].
  specialize (IH (pre ++ t) Hf). rewrite <-app_assoc, zlen_app in IH. rewrite IH. done.
Qed.

Lemma decode_split_spec ts : Forall gist_tuple ts → zlen ts < 2 ^ 31 → decodePageSplitRecord (le_bytes 4 (zlen ts) ++ concat ts) = Ok ts.
Proof.
  intros Hf Hn. unfold decodePageSplitRecord. assert (Hl : zlen (le_bytes 4 (zlen ts)) = 4) by apply zlen_le_bytes.
  assert (0 ≤ zlen ts ∧ 0 ≤ zlen (concat ts)) by (unfold zlen; lia).
  rewrite rd_ok by (rewrite ?zlen_app; lia). assert (mget 4 (le_bytes 4 (zlen ts) ++ concat ts) 0 = zlen ts) as ->.
  { unfold mget, mread. rewrite drop_0, take_app_le by (rewrite length_le_bytes; lia). rewrite take_ge by (rewrite length_le_bytes; lia).
    rewrite le_val_bytes. apply Z.mod_small. change (256 ^ Z.of_nat 4) with (2 ^ 32). lia. }
  cbn [mbind res_bind]. destruct (Z.leb_spec (2 ^ 31) (zlen ts)); [lia|]. rewrite <-Hl. replace (Z.to_nat (zlen ts)) with (length ts) by (unfold zlen; lia).
  by apply split_tuples_spec.
Qed.

(** The links and flags of a page of the split. *)
Definition split_rightlink (x : gistxlogPageSplit) (tags : list BufferTag) (i : Z) (blk : Z) : Z :=
  if blk =? GIST_ROOT_BLKNO then InvalidBlockNumber
  else match tags !! Z.to_nat (i + 1) with Some t => blockNum t | None => origrlink x end.

Section split_page.
Context (r : XLogReaderState) (x : gistxlogPageSplit) (tags : list BufferTag).
Context (Htags : ∀ k t, tags !! k = Some t → XLogRecGetBlockTag r (Z.of_nat k + 1) = Some t ∧ 0 ≤ blockNum t < 2 ^ 32).
Context (Hnp : npage x = zlen tags) (Hrl : 0 ≤ origrlink x < 2 ^ 32).

(** The last part of building the page: links and flags. *)
Lemma split_links i p hi lo rl fl id (isroot : bool) blk : 0 ≤ i < zlen tags → bt_wf p → opaque_of p = (hi, lo, rl, fl, id) →
∃ q fl', (if blk =? GIST_ROOT_BLKNO then
p ← set_rightlink p InvalidBlockNumber; p ← GistPageSetNSN p (orignsn x); gist_clear p F_FOLLOW_RIGHT
else
p ← (if i <? npage x - 1 then t ← POLAR_GET_LOG_TAG r (i + 2); set_rightlink p (blockNum t) else set_rightlink p (origrlink x));
p ← GistPageSetNSN p (orignsn x);
if (i <? npage x - 1) && negb isroot && markfollowright x then gist_mark p F_FOLLOW_RIGHT else gist_clear p F_FOLLOW_RIGHT) = Ok q ∧
bt_wf q ∧ special_write p q ∧
opaque_of q = (u32 (Z.shiftr (orignsn x) 32), u32 (orignsn x), split_rightlink x tags i blk, fl', id) ∧
fl' = (if negb (blk =? GIST_ROOT_BLKNO) && (i <? zlen tags - 1) && negb isroot && markfollowright x
then set_flag fl F_FOLLOW_RIGHT else clear_flag fl F_FOLLOW_RIGHT).
Proof using All.
intros Hi Hw Ho. assert (Hfin : ∀ p1 b, set_rightlink p b = Ok p1 → bt_wf p1 → special_write p p1 → opaque_of p1 = (hi, lo, u32 b, fl, id) →
u32 b = split_rightlink x tags i blk → ∀ m : bool, ∃ q fl',
(p2 ← GistPageSetNSN p1 (orignsn x); if m then gist_mark p2 F_FOLLOW_RIGHT else gist_clear p2 F_FOLLOW_RIGHT) = Ok q ∧ bt_wf q ∧ special_write p q ∧
opaque_of q = (u32 (Z.shiftr (orignsn x) 32), u32 (orignsn x), split_rightlink x tags i blk, fl', id) ∧
fl' = if m then set_flag fl F_FOLLOW_RIGHT else clear_flag fl F_FOLLOW_RIGHT).
{ intros p1 b _ Hw1 S1 O1 Hb m. destruct (nsn_spec _ _ _ _ _ _ (orignsn x) Hw1 O1) as (p2 & -> & Hw2 & S2 & O2). cbn [mbind res_bind]. rewrite Hb in O2.
pose proof (special_write_trans _ _ _ Hw S1 S2) as S12. destruct m.
- destruct (mark_spec p2 _ _ _ _ _ Hw2 O2 F_FOLLOW_RIGHT ltac:(done)) as (q & Hq & Hwq & Sq & Oq). exists q, (set_flag fl F_FOLLOW_RIGHT).
split_and!; [done|done|by eapply special_write_trans|done|done].
- destruct (clear_spec p2 _ _ _ _ _ Hw2 O2 F_FOLLOW_RIGHT) as (q & Hq & Hwq & Sq & Oq). exists q, (clear_flag fl F_FOLLOW_RIGHT).
split_and!; [done|done|by eapply special_write_trans|done|done]. }
unfold split_rightlink in *. destruct (Z.eqb_spec blk GIST_ROOT_BLKNO) as [Hroot|Hroot].
- destruct (rightlink_spec p _ _ _ _ _ Hw Ho InvalidBlockNumber) as (p1 & E1 & Hw1 & S1 & O1). rewrite E1. cbn [mbind res_bind negb andb].
apply (Hfin p1 _ E1 Hw1 S1 O1 eq_refl false).
- rewrite Hnp. cbn [negb andb]. destruct (Z.ltb_spec i (zlen tags - 1)) as [Hlt|Hge].
+ destruct (tags !! Z.to_nat (i + 1)) as [t|] eqn:Et; [|apply lookup_ge_None in Et; unfold zlen in *; lia].
destruct (Htags _ _ Et) as [Hg Hb]. replace (Z.of_nat (Z.to_nat (i + 1)) + 1) with (i + 2) in Hg by lia. rewrite (log_tag _ _ _ Hg). cbn [mbind res_bind].
destruct (rightlink_spec p _ _ _ _ _ Hw Ho (blockNum t)) as (p1 & E1 & Hw1 & S1 & O1). rewrite E1. cbn [mbind res_bind andb].
apply (Hfin p1 _ E1 Hw1 S1 O1). by apply u32_small.
+ rewrite (lookup_ge_None_2 tags) in * by (unfold zlen in *; lia).
destruct (rightlink_spec p _ _ _ _ _ Hw Ho (origrlink x)) as (p1 & E1 & Hw1 & S1 & O1). rewrite E1. cbn [mbind res_bind andb].
apply (Hfin p1 _ E1 Hw1 S1 O1 ltac:(by apply u32_small) false).
Qed.
End split_page.

(** The record of a split: block [k + 1] initialises page [k] of the split and
    has its tuples. *)
Record gist_split_record (st : dbstate) (r : XLogReaderState) (x : gistxlogPageSplit) (tags : list BufferTag) (tuples : list (list (list Z))) : Prop := {
  gs_info : rec_info r = XLOG_GIST_PAGE_SPLIT;
  gs_x : get_gistxlogPageSplit r = Ok x;
  gs_lsn : 0 ≤ EndRecPtr r < 2 ^ 64;
  gs_npage : npage x = zlen tags;
  gs_same : length tuples = length tags;
  gs_rlink : 0 ≤ origrlink x < 2 ^ 32;
  gs_distinct : NoDup tags;
  gs_ref k t : tags !! k = Some t → init_ref r (Z.of_nat k + 1) t ∧ ∃ p, resident st t p;
  gs_data k ts : tuples !! k = Some ts → block_bytes r (Z.of_nat k + 1) = le_bytes 4 (zlen ts) ++ concat ts ∧
    Forall gist_tuple ts ∧ items_space ts ≤ opq - 24 ∧ zlen ts < 2 ^ 31 }.

Section split.
Context (st : dbstate) (r : XLogReaderState) (x : gistxlogPageSplit) (tags : list BufferTag) (tuples : list (list (list Z))).
Context (H : gist_split_record st r x tags tuples).

Lemma split_tags k t : tags !! k = Some t → XLogRecGetBlockTag r (Z.of_nat k + 1) = Some t ∧ 0 ≤ blockNum t < 2 ^ 32.
Proof using H. intros Hk. destruct (gs_ref _ _ _ _ _ H k t Hk) as [[Ht _ _] [p Hp]]. split; [done|]. by eapply resident_block. Qed.

Lemma gist_split_page_spec k t ts (isroot : bool) : tags !! k = Some t → tuples !! k = Some ts →
∃ q fl, gist_split_page r x (Z.of_nat k) isroot (blockNum t) = Ok q ∧ bt_wf q ∧ page_slots q = item_slot <$> ts ∧
opaque_of q = (u32 (Z.shiftr (orignsn x) 32), u32 (orignsn x), split_rightlink x tags (Z.of_nat k) (blockNum t), fl, GIST_PAGE_ID) ∧
has_flag fl F_LEAF = origleaf x && negb (blockNum t =? GIST_ROOT_BLKNO) ∧
has_flag fl F_FOLLOW_RIGHT = negb (blockNum t =? GIST_ROOT_BLKNO) && (Z.of_nat k <? zlen tags - 1) && negb isroot && markfollowright x.
Proof using All.
intros Hk Hts. destruct (gs_data _ _ _ _ _ H k ts Hts) as (Hd & Hg & Hfit & Hn). unfold gist_split_page. rewrite Hd, decode_split_spec by done. cbn [mbind res_bind].
set (leaf := origleaf x && negb (blockNum t =? GIST_ROOT_BLKNO)).
destruct (gist_init_spec (if leaf then F_LEAF else 0)) as (p0 & hi & lo & -> & Hw0 & Hs0 & Hu0 & Ho0); [by destruct leaf|]. cbn [mbind res_bind].
unfold gistfillbuffer. change (FirstOffsetNumber =? InvalidOffsetNumber) with false. cbv iota.
destruct (add_in_order_spec EError ts p0 FirstOffsetNumber) as (p1 & -> & Hw1 & Hr1 & Hs1 & _); [apply Hw0| | |lia|].
{ eapply Forall_impl; [exact Hg|]. intros it (Hb & Hm & _). split; [done|]. unfold sizeof_IndexTupleData in Hm. lia. }
{ rewrite <-slots_maxoff, Hs0. done. }
cbn [mbind res_bind]. pose proof (rest_bt_wf _ _ Hw0 Hw1 Hr1) as Hb1. pose proof (rest_opaque _ _ Hw0 Hw1 Hr1) as Ho1. rewrite Ho0 in Ho1.
pose proof (lookup_lt_Some _ _ _ Hk) as Hlt.
destruct (split_links r x tags split_tags (gs_npage _ _ _ _ _ H) (gs_rlink _ _ _ _ _ H) (Z.of_nat k) p1 _ _ _ _ _ isroot (blockNum t)
ltac:(unfold zlen; lia) Hb1 Ho1) as (q & fl & Hq & Hwq & Sq & Oq & Hfl).
exists q, fl. split_and!; [exact Hq|done|by rewrite (special_slots _ _ Hb1 Sq), Hs1, Hs0|done| |].
- rewrite Hfl. destruct (negb _ && _ && _ && _); [rewrite has_flag_set_other by done|rewrite has_flag_clear_other by done]; by destruct leaf.
- rewrite Hfl. destruct (negb _ && _ && _ && _); [by rewrite has_flag_set|by rewrite has_flag_clear].
Qed.

(** The loop reaches the page that is asked for; [root] says whether a page
before it was the root page. *)
Lemma gist_split_loop_spec n k t i isroot : tags !! k = Some t → 0 ≤ i ≤ Z.of_nat k → (Z.to_nat (Z.of_nat k - i) < n)%nat →
∃ isroot', gist_split_loop st r x t None i isroot n =
(o ← redo_init st r (Z.of_nat k + 1) None BLK_NEEDS_REDO (gist_split_page r x (Z.of_nat k) isroot' (blockNum t)); Ok (Some o)).
Proof using H.
intros Hk. revert i isroot. induction n as [|n IH]; intros i isroot Hi Hn; [lia|]. cbn [gist_split_loop].
destruct (lookup_lt_is_Some_2 tags (Z.to_nat i)) as [ti Hti]; [pose proof (lookup_lt_Some _ _ _ Hk); lia|].
destruct (split_tags _ _ Hti) as [Hg _]. rewrite Z2Nat.id in Hg by lia. rewrite (log_tag _ _ _ Hg). cbn [mbind res_bind].
destruct (decide (i = Z.of_nat k)) as [->|Hne].
- rewrite Nat2Z.id in Hti. rewrite Hk in Hti. injection Hti as <-. rewrite tags_equal_refl. cbn [negb]. eexists. reflexivity.
- assert (BUFFERTAGS_EQUAL t ti = false) as ->.
{ unfold BUFFERTAGS_EQUAL. apply bool_decide_false. intros ->. apply Hne. pose proof (NoDup_lookup _ _ _ _ (gs_distinct _ _ _ _ _ H) Hk Hti). lia. }
cbn [negb]. apply IH; lia.
Qed.
End split.

(** C23: redo of a GiST page split.  For every page of the split the record
    gives a page that holds exactly its tuples, in order, and carries the NSN
    of the page that was split and the LSN of the record; each page is linked
    to the next, the last one to the former right neighbour, the root to
    none; the leaf flag is that of the page that was split, except for the
    root.  Replay for one page does not depend on the others. *)
Theorem gist_split_redo st r x tags tuples k t ts :
  gist_split_record st r x tags tuples → tags !! k = Some t → tuples !! k = Some ts →
  ∃ q fl, polar_gist_idx_redo st r t None = Ok (buf_write st (Some t) q, Some t, BLK_NEEDS_REDO) ∧ bt_wf q ∧ PageGetLSN q = EndRecPtr r ∧
    page_slots q = item_slot <$> ts ∧
    opaque_of q = (u32 (Z.shiftr (orignsn x) 32), u32 (orignsn x), split_rightlink x tags (Z.of_nat k) (blockNum t), fl, GIST_PAGE_ID) ∧
    has_flag fl F_LEAF = origleaf x && negb (blockNum t =? GIST_ROOT_BLKNO).
Proof.
  intros H Hk Hts. pose proof H as [Hi Hx Hl Hn _ _ _ Hrefs _].
  assert (Hd : polar_gist_idx_redo st r t None = polar_gist_redo_page_split_record st r t None) by (unfold polar_gist_idx_redo; by rewrite Hi).
  pose proof (lookup_lt_Some _ _ _ Hk) as Hlt. unfold zlen in Hn.
  destruct (gist_split_loop_spec st r x tags tuples H (Z.to_nat (npage x)) k t 0 false Hk) as (isroot & Hloop); [lia|lia|].
  destruct (gist_split_page_spec st r x tags tuples H k t ts isroot Hk Hts) as (q & fl & Hq & Hw & Hs & Ho & Hleaf & _).
  destruct (set_lsn_bt q (EndRecPtr r) Hw Hl) as (H1 & H2 & H3 & H4). destruct (Hrefs k t Hk) as [Hinit [p Hp]].
  exists (PageSetLSN q (EndRecPtr r)), fl. rewrite H3, H4. split_and!; try done.
  rewrite Hd. unfold polar_gist_redo_page_split_record. rewrite Hx. cbn [mbind res_bind]. rewrite Hloop. unfold redo_init.
  rewrite (init_resident st r _ t p Hinit Hp). cbn [mbind res_bind]. rewrite (resident_page _ _ _ Hp). cbn [mbind res_bind]. by rewrite Hq.
Qed.

(** ** A sample split *)

(** A tuple of 16 bytes. *)
Definition gist_item (b : Z) : list Z := [0; 0; b; 0; 1; 0; 16; 0] ++ replicate 8 b.
Definition gist_rel : RelFileNode := mkRel 1663 13580 16395.
Definition gist_tag (b : Z) : BufferTag := mkTag gist_rel 0 b.
Definition gist_blk (b : Z) (ts : list (list Z)) : DecodedBkpBlock :=
  mkBlk true gist_rel 0 b BKPBLOCK_WILL_INIT false false [] 0 0 0 true (le_bytes 4 (zlen ts) ++ concat ts).
Definition no_blk : DecodedBkpBlock := mkBlk false (mkRel 0 0 0) 0 0 0 false false [] 0 0 0 false [].

(** A leaf page with right neighbour 9 and NSN 5 is split into pages 1 and 2. *)
Definition gist_rec : XLogReaderState :=
  mkRec 50 100 XLOG_GIST_PAGE_SPLIT RM_GIST_ID 7 [9; 0; 0; 0; 0; 0; 0; 0; 5; 0; 0; 0; 0; 0; 0; 0; 1; 0; 2; 0; 1] 2
    [no_blk; gist_blk 1 [gist_item 1; gist_item 2]; gist_blk 2 [gist_item 3]].
Definition gist_db : dbstate :=
  mkDb {[ (gist_rel, 0) := [[]; []; []] ]} {[ gist_tag 1 := []; gist_tag 2 := [] ]} ∅ ∅ true false false (mkConf false false).

Lemma gist_sample : gist_split_record gist_db gist_rec (mkGistSplit 9 5 true 2 true) [gist_tag 1; gist_tag 2] [[gist_item 1; gist_item 2]; [gist_item 3]].
Proof.
  assert (Hit : ∀ b, 0 ≤ b < 256 → gist_tuple (gist_item b)) by (intros b Hb; split; [repeat constructor; unfold is_byte; lia|split; [done|vm_compute; done]]).
  constructor; [reflexivity|reflexivity|cbn; lia|reflexivity|reflexivity|cbn; lia|..].
  - repeat constructor; [intros [=]%list_elem_of_singleton|by intros ?%elem_of_nil].
  - intros [|[|k]] t [= <-]; (split; [constructor; [reflexivity|intros b [= <-]; reflexivity|reflexivity]|]);
      exists []; (constructor; [reflexivity|eexists; split; [reflexivity|vm_compute; done]|vm_compute; done]).
  - intros [|[|k]] ts [= <-]; (split; [reflexivity|split; [repeat (apply Forall_cons; split; [apply Hit; lia|]); apply Forall_nil_2|split; [vm_compute; done|vm_compute; done]]]).
Qed.

Lemma gist_split_redo_witness : ∃ q fl,
  polar_gist_idx_redo gist_db gist_rec (gist_tag 1) None = Ok (buf_write gist_db (Some (gist_tag 1)) q, Some (gist_tag 1), BLK_NEEDS_REDO) ∧
  page_slots q = item_slot <$> [gist_item 1; gist_item 2] ∧ opaque_of q = (0, 5, 2, fl, GIST_PAGE_ID).
Proof.
  destruct (gist_split_redo gist_db gist_rec (mkGistSplit 9 5 true 2 true) [gist_tag 1; gist_tag 2] [[gist_item 1; gist_item 2]; [gist_item 3]] 0
    (gist_tag 1) [gist_item 1; gist_item 2]) as (q & fl & Hq & _ & _ & Hs & Ho & _); [apply gist_sample|reflexivity|reflexivity|].
  exists q, fl. split; [exact Hq|]. split; [exact Hs|exact Ho].
Defined.
