(* ===== verification/BrinSpec.v ===== *)
(** * The theorems of BRIN replay

    Redo of an insertion on the two pages of its record: the regular page gets
    the summary tuple, and the entry of the revmap for the range of heap
    blocks leads to it. *)

From S2P Require Import Prelude Mem Page PageAdd PageIndex Checksum Buffer WalRecord HeapRedo Resident TagList Btree BtreePosting Brin.

(** Entry [i] of a revmap page. *)
Definition revmap_tid (p : page) (i : Z) : Z * Z :=
  (ItemPointerGetBlockNumberNoCheck p (revmap_entry i), ItemPointerGetOffsetNumberNoCheck p (revmap_entry i)).

Lemma revmap_size : REVMAP_PAGE_MAXITEMS = 1360.
Proof. done. Qed.

(** ** Setting an entry *)

Section set_tid.
Context (p : page) (i blk off : Z) (Hz : zlen p = BLCKSZ) (Hi : 0 ≤ i < REVMAP_PAGE_MAXITEMS).
Let q := set_tid p (revmap_entry i) blk off.

Lemma set_tid_same : 0 ≤ blk < 2 ^ 32 → 0 ≤ off < 2 ^ 16 → revmap_tid q i = (blk, off).
Proof using All.
intros Hb Ho. rewrite revmap_size in Hi. unfold BLCKSZ in Hz. assert (Ha : 24 ≤ revmap_entry i ∧ revmap_entry i + 6 ≤ 8192).
{ unfold revmap_entry, sizeof_ItemPointerData. change PageGetContents with 24. lia. }
unfold revmap_tid, q, set_tid, ItemPointerSetOffsetNumber. f_equal.
- etrans; [|apply (blkno_set p (revmap_entry i) blk); lia]. unfold ItemPointerGetBlockNumberNoCheck. by rewrite !(mget_mput_disj 2 2 _ (revmap_entry i + 4)) by lia.
- unfold ItemPointerGetOffsetNumberNoCheck, ItemPointerSetBlockNumber. apply mget_mput_small; rewrite ?zlen_mput; lia.
Qed.

(** Reads elsewhere are not affected. *)
Lemma set_tid_reads o l : 0 ≤ o → o + l ≤ revmap_entry i ∨ revmap_entry i + 6 ≤ o → mread q o l = mread p o l.
Proof using All.
intros Ho Hd. unfold q, set_tid, ItemPointerSetOffsetNumber, ItemPointerSetBlockNumber. by rewrite !mread_mput_disj by lia.
Qed.

Lemma set_tid_other j : 0 ≤ j < REVMAP_PAGE_MAXITEMS → j ≠ i → revmap_tid q j = revmap_tid p j.
Proof using All.
intros Hj Hne. pose proof Hi as Hi'. rewrite revmap_size in Hi', Hj. assert (Hd : revmap_entry j + 6 ≤ revmap_entry i ∨ revmap_entry i + 6 ≤ revmap_entry j).
{ unfold revmap_entry, sizeof_ItemPointerData. lia. }
assert (0 ≤ revmap_entry j) by (unfold revmap_entry, sizeof_ItemPointerData; change PageGetContents with 24; lia).
unfold revmap_tid, ItemPointerGetBlockNumberNoCheck, ItemPointerGetOffsetNumberNoCheck, mget. by rewrite !set_tid_reads by lia.
Qed.
End set_tid.

(** The range of a heap block has an entry in every revmap page. *)
Lemma revmap_index ppr h : ppr ≠ 0 → ∃ i, HEAPBLK_TO_REVMAP_INDEX ppr h = Ok i ∧ 0 ≤ i < REVMAP_PAGE_MAXITEMS.
Proof.
  intros Hp. unfold HEAPBLK_TO_REVMAP_INDEX. destruct (Z.eqb_spec ppr 0); [done|]. eexists. split; [done|]. apply Z.mod_pos_bound. done.
Qed.

(** A revmap page with one entry set to a valid item pointer. *)
Lemma set_itemptr_spec p ppr h blk off lsn : zlen p = BLCKSZ → ppr ≠ 0 → 0 ≤ blk < 2 ^ 32 → 0 < off < 2 ^ 16 → 0 ≤ lsn < 2 ^ 64 →
  ∃ i q, HEAPBLK_TO_REVMAP_INDEX ppr h = Ok i ∧ brinSetHeapBlockItemptr p ppr h (blk, off) = Ok q ∧
    PageGetLSN (PageSetLSN q lsn) = lsn ∧ revmap_tid (PageSetLSN q lsn) i = (blk, off) ∧
    ∀ j, 0 ≤ j < REVMAP_PAGE_MAXITEMS → j ≠ i → revmap_tid (PageSetLSN q lsn) j = revmap_tid p j.
Proof.
  intros Hz Hp Hb Ho Hl. destruct (revmap_index ppr h Hp) as (i & Ei & Hi). unfold brinSetHeapBlockItemptr. rewrite Ei. cbn [mbind res_bind fst snd].
  exists i. rewrite (proj2 (in_range_true _ _ _)).
  2:{ rewrite revmap_size in Hi. unfold revmap_entry, sizeof_ItemPointerData, BLCKSZ in *. change PageGetContents with 24. lia. }
  cbn [negb]. rewrite (proj2 (Z.eqb_neq off InvalidOffsetNumber)) by (unfold InvalidOffsetNumber; lia). cbn [negb]. eexists. split; [done|]. split; [reflexivity|].
  assert (Hf : ∀ q j, 0 ≤ j → revmap_tid (PageSetLSN q lsn) j = revmap_tid q j).
  { intros q j Hj. unfold revmap_tid, ItemPointerGetBlockNumberNoCheck, ItemPointerGetOffsetNumberNoCheck, mget.
    assert (24 ≤ revmap_entry j) by (unfold revmap_entry, sizeof_ItemPointerData; change PageGetContents with 24; lia). by rewrite !(fr_body _ _ (frame_lsn q lsn)) by lia. }
  split_and!.
  - apply PageGetSetLSN; [|done]. unfold set_tid, ItemPointerSetOffsetNumber, ItemPointerSetBlockNumber. rewrite !zlen_mput, Hz. done.
  - rewrite Hf by lia. apply set_tid_same; (done || lia).
  - intros j Hj Hne. rewrite Hf by lia. by apply set_tid_other.
Qed.

(** ** Insertion *)

(** The summary tuple on a regular page, at a free offset number. *)
Lemma brin_add_tuple_spec r off p : let item := block_bytes r 0 in
  page_wf p → Forall is_byte item → 0 < zlen item → 1 ≤ off ≤ PageGetMaxOffsetNumber p + 1 →
  (off ≤ PageGetMaxOffsetNumber p → lp_len (PageGetItemId p off) = 0 ∧ lp_flags (PageGetItemId p off) = LP_UNUSED) →
  MAXALIGN (zlen item) + 4 ≤ pd_upper p - pd_lower p →
  ∃ q, brin_add_tuple r off p = Ok q ∧ page_wf q ∧
    page_slots q = put_slot (page_slots p) (Z.to_nat (off - 1)) (mkSlot LP_NORMAL 0 item) (off =? PageGetMaxOffsetNumber p + 1).
Proof.
  intros item Hw Hb Hz Ho Hfree Hfit. pose proof (maxoff_small p (wf_hdr _ Hw)).
  destruct (PageAddItemExtended_accepts p item off PAI_OVERWRITE) as [q Hq]; [done..|].
  destruct (PageAddItemExtended_refines p item off PAI_OVERWRITE) as (q' & o & Hq' & Hwq & Hc); [done|done|done|lia|].
  rewrite Hq in Hq'. injection Hq' as <- <-. destruct Hc as [[H0 _]|(_ & _ & ins & Hs & _ & Hins & _)]; [unfold InvalidOffsetNumber in H0; lia|].
  exists q. split_and!; [|done|by rewrite Hs, (Hins eq_refl)]. unfold brin_add_tuple. destruct (Z.ltb_spec (PageGetMaxOffsetNumber p + 1) off); [lia|].
  unfold PageAddItem. change (Z.lor PAI_OVERWRITE 0) with PAI_OVERWRITE. fold item. rewrite Hq. cbn [mbind res_bind].
  rewrite (proj2 (Z.eqb_neq off InvalidOffsetNumber)) by (unfold InvalidOffsetNumber; lia). done.
Qed.

(** An insertion record: the range of [heapBlk] is summarised by the tuple that
    goes to offset number [off] of the regular page [tag0]; [tag1] is the page
    of the revmap. *)
Record brin_insert_record (r : XLogReaderState) (tag0 tag1 : BufferTag) (heapBlk ppr off : Z) : Prop := {
  bi_op : brin_op r = XLOG_BRIN_INSERT;
  bi_noinit : has_flag (xl_info r) XLOG_BRIN_INIT_PAGE = false;
  bi_heap : rd 4 (main_data r) 0 = Ok heapBlk;
  bi_ppr : rd 4 (main_data r) 4 = Ok ppr;
  bi_off : rd 2 (main_data r) 8 = Ok off;
  bi_lsn : 0 ≤ EndRecPtr r < 2 ^ 64;
  bi_ref0 : plain_ref r 0 tag0;
  bi_ref1 : plain_ref r 1 tag1;
  bi_pages : tag0 ≠ tag1 }.

Lemma brin_dispatch st r tag0 tag1 heapBlk ppr off buf : brin_insert_record r tag0 tag1 heapBlk ppr off →
  polar_brin_idx_redo st r tag0 buf = redo_read st r 0 false (λ p, p ← brin_add_tuple r off p; Ok (PageSetLSN p (EndRecPtr r))) ∧
  polar_brin_idx_redo st r tag1 buf = redo_read st r 1 false (λ p,
      p ← brinSetHeapBlockItemptr p ppr heapBlk (blockNum tag0, off); Ok (PageSetLSN p (EndRecPtr r))).
Proof.
  intros [Ho Hi Hh Hp Hf _ H0 H1 Hne]. unfold polar_brin_idx_redo. rewrite Ho. cbn. unfold polar_brin_xlog_insert, polar_brin_xlog_insert_update.
  rewrite (log_tag _ _ _ (pr_tag _ _ _ H0)), (log_tag _ _ _ (pr_tag _ _ _ H1)). cbn [mbind res_bind]. rewrite !tags_equal_refl.
  change (0 + 8) with 8. change (0 + 4) with 4. rewrite Hf, Hh, Hp, Hi. split; [done|]. unfold BUFFERTAGS_EQUAL. by rewrite bool_decide_false.
Qed.

(** Redo of a BRIN insertion.  Replayed for the regular page, the record
    puts its summary tuple at the offset number of the record and changes no
    other slot; replayed for the revmap page, it makes the entry of the range
    of the heap block point at that page and offset number, and changes no
    other entry.  So the revmap leads from the heap block to the tuple. *)
Theorem brin_insert_redo st r tag0 tag1 p rev heapBlk ppr off :
  let item := block_bytes r 0 in
  brin_insert_record r tag0 tag1 heapBlk ppr off → ppr ≠ 0 →
  resident st tag0 p → page_wf p → PageGetLSN p < EndRecPtr r → Forall is_byte item → 0 < zlen item →
  1 ≤ off ≤ PageGetMaxOffsetNumber p + 1 →
  (off ≤ PageGetMaxOffsetNumber p → lp_len (PageGetItemId p off) = 0 ∧ lp_flags (PageGetItemId p off) = LP_UNUSED) →
  MAXALIGN (zlen item) + 4 ≤ pd_upper p - pd_lower p →
  resident st tag1 rev → zlen rev = BLCKSZ → PageIsNew rev = false → PageGetLSN rev < EndRecPtr r →
  ∃ q rq i, polar_brin_idx_redo st r tag0 None = Ok (buf_write st (Some tag0) q, Some tag0, BLK_NEEDS_REDO) ∧
    polar_brin_idx_redo st r tag1 None = Ok (buf_write st (Some tag1) rq, Some tag1, BLK_NEEDS_REDO) ∧
    PageGetLSN q = EndRecPtr r ∧ PageGetLSN rq = EndRecPtr r ∧ page_wf q ∧
    page_slots q = put_slot (page_slots p) (Z.to_nat (off - 1)) (mkSlot LP_NORMAL 0 item) (off =? PageGetMaxOffsetNumber p + 1) ∧
    HEAPBLK_TO_REVMAP_INDEX ppr heapBlk = Ok i ∧ revmap_tid rq i = (blockNum tag0, off) ∧
    ∀ j, 0 ≤ j < REVMAP_PAGE_MAXITEMS → j ≠ i → revmap_tid rq j = revmap_tid rev j.
Proof.
  intros item Hrec Hppr Hr0 Hw Hl0 Hb Hz Ho Hfree Hfit Hr1 Hzr Hnew Hl1. pose proof Hrec as [_ _ _ _ _ Hlsn H0 H1 _].
  destruct (brin_dispatch st r tag0 tag1 heapBlk ppr off None Hrec) as [-> ->].
  destruct (brin_add_tuple_spec r off p Hw Hb Hz Ho Hfree Hfit) as (q & Hq & Hwq & Hs).
  pose proof (maxoff_small p (wf_hdr _ Hw)) as Hmax. pose proof (resident_block _ _ _ Hr0) as Hblk.
  destruct (set_itemptr_spec rev ppr heapBlk (blockNum tag0) off (EndRecPtr r)) as (i & rq & Hi & Hrq & Hrl & Hsame & Hother); [done|done|done|lia|done|].
  pose proof (frame_lsn q (EndRecPtr r)) as Hf. pose proof (wf_hdr _ Hwq) as [].
  exists (PageSetLSN q (EndRecPtr r)), (PageSetLSN rq (EndRecPtr r)), i. split_and!; try done.
  - apply (on_redo_resident _ _ _ _ p); try done; [|by rewrite Hq]. pose proof (wf_hdr _ Hw) as []. unfold PageIsNew. zcase; done || lia.
  - apply (on_redo_resident _ _ _ _ rev); try done. by rewrite Hrq.
  - apply PageGetSetLSN; [unfold BLCKSZ in *; lia|done].
  - by eapply frame_wf.
  - by rewrite (frame_slots _ _ Hf).
Qed.

(** ** A sample insertion *)

Definition brin_regular : page := Eval vm_compute in brin_page_init BRIN_PAGETYPE_REGULAR.
Definition brin_revmap : page := Eval vm_compute in brin_page_init BRIN_PAGETYPE_REVMAP.
Definition brin_rel : RelFileNode := mkRel 1663 13580 16390.
Definition brin_tag (b : Z) : BufferTag := mkTag brin_rel 0 b.
Definition brin_db : dbstate :=
  mkDb {[ (brin_rel, 0) := [[]; []; []] ]} {[ brin_tag 1 := brin_revmap; brin_tag 2 := brin_regular ]} ∅ ∅ true false false (mkConf false false).
Definition brin_blk (b : Z) (data : list Z) : DecodedBkpBlock :=
  mkBlk true brin_rel 0 b 0 false false [] 0 0 0 (negb (zlen data =? 0)) data.

(** Heap block 300 with ranges of 128 pages; the tuple goes to page 2. *)
Definition brin_rec : XLogReaderState :=
  mkRec 50 100 XLOG_BRIN_INSERT RM_BRIN_ID 7 [44; 1; 0; 0; 128; 0; 0; 0; 1; 0] 1 [brin_blk 2 (replicate 24 9); brin_blk 1 []].

Lemma brin_insert_redo_witness : ∃ q rq,
  polar_brin_idx_redo brin_db brin_rec (brin_tag 2) None = Ok (buf_write brin_db (Some (brin_tag 2)) q, Some (brin_tag 2), BLK_NEEDS_REDO) ∧
  polar_brin_idx_redo brin_db brin_rec (brin_tag 1) None = Ok (buf_write brin_db (Some (brin_tag 1)) rq, Some (brin_tag 1), BLK_NEEDS_REDO) ∧
  page_slots q = [mkSlot LP_NORMAL 0 (replicate 24 9)] ∧ revmap_tid rq 2 = (2, 1).
Proof.
  destruct (brin_insert_redo brin_db brin_rec (brin_tag 2) (brin_tag 1) brin_regular brin_revmap 300 128 1)
    as (q & rq & i & H0 & H1 & _ & _ & _ & Hs & Hi & Ht & _).
  - constructor; try reflexivity; try (constructor; [reflexivity|by intros b [= <-]|reflexivity]); [cbn; lia|done].
  - done.
  - constructor; [reflexivity|eexists; split; [reflexivity|vm_compute; done]|vm_compute; done].
  - apply page_wfb_sound. vm_compute. done.
  - vm_compute. done.
  - repeat constructor; done.
  - vm_compute. done.
  - vm_compute. done.
  - vm_compute. done.
  - vm_compute. done.
  - constructor; [reflexivity|eexists; split; [reflexivity|vm_compute; done]|vm_compute; done].
  - vm_compute. done.
  - vm_compute. done.
  - vm_compute. done.
  - change (HEAPBLK_TO_REVMAP_INDEX 128 300) with (Ok 2) in Hi. apply Ok_inj in Hi as <-. exists q, rq.
    split; [exact H0|]. split; [exact H1|]. split; [rewrite Hs; vm_compute; reflexivity|exact Ht].
Defined.
