(* ===== verification/Hash.v ===== *)
(** * Hash index pages: [hash.h], [hashpage.c], [hashovfl.c], [hashutil.c]

    The special space, the meta page and the bitmap pages of a hash index, and
    the arithmetic that maps hash keys to buckets, buckets to blocks, and the
    bits of the free-page bitmap to overflow blocks. *)

From Stdlib Require Import SpecFloat.
From S2P Require Import Prelude Mem Page PageAdd PageIndex PageCompact Buffer WalRecord HeapRedo TagList Btree BtreeRedo.

(** ** Numbers of type [double]

    A double is stored as its 64 bits; arithmetic is that of IEEE 754 binary64
    with rounding to nearest.  Operations keep the payload of a NaN operand and
    make it quiet. *)

Definition f8_prec : Z := 53.
Definition f8_emax : Z := 1024.

Definition f8_of_bits (z : Z) : spec_float :=
  let s := Z.testbit z 63 in
  let e := Z.land (Z.shiftr z 52) 0x7FF in
  let m := Z.land z (Z.ones 52) in
  if e =? 0 then if m =? 0 then S754_zero s else S754_finite s (Z.to_pos m) (-1074)
  else if e =? 0x7FF then if m =? 0 then S754_infinity s else S754_nan
  else S754_finite s (Z.to_pos (m + 2 ^ 52)) (e - 1075).

Definition f8_sign (s : bool) : Z := if s then 2 ^ 63 else 0.
Definition f8_bits (f : spec_float) : Z :=
  match f with
  | S754_zero s => f8_sign s
  | S754_infinity s => f8_sign s + 0x7FF * 2 ^ 52
  | S754_nan => 0x7FF8 * 2 ^ 48
  | S754_finite s m e =>
      if Zpos m <? 2 ^ 52 then f8_sign s + Zpos m else f8_sign s + (e + 1075) * 2 ^ 52 + (Zpos m - 2 ^ 52)
  end.

Definition f8_int (n : Z) : spec_float := binary_normalize f8_prec f8_emax n 0 false.

(** [x op n] for a stored [x] and an integer [n]. *)
Definition f8_op (op : spec_float → spec_float → spec_float) (x n : Z) : Z :=
  match f8_of_bits x with
  | S754_nan => Z.lor x (2 ^ 51)
  | f => f8_bits (op f (f8_int n))
  end.
Definition f8_add (x n : Z) : Z := f8_op (SFadd f8_prec f8_emax) x n.
Definition f8_sub (x n : Z) : Z := f8_op (SFsub f8_prec f8_emax) x n.

(** Conversion to [uint32] of a value that is at least 0. *)
Definition f8_trunc (f : spec_float) : res Z :=
  match f with
  | S754_zero _ => Ok 0
  | S754_finite false m e => if Z.shiftl (Zpos m) e <? 2 ^ 32 then Ok (Z.shiftl (Zpos m) e) else Err EUndef
  | _ => Err EUndef
  end.

(** ** Powers of two: [pg_bitutils.h] *)

Definition pg_leftmost_one_pos32 (word : Z) : Z := Z.log2 word.
Definition pg_ceil_log2_32 (num : Z) : Z := if num <? 2 then 0 else pg_leftmost_one_pos32 (num - 1) + 1.
Definition pg_nextpower2_32 (num : Z) : Z :=
  if Z.land num (u32 (num - 1)) =? 0 then num else u32 (Z.shiftl 1 (pg_leftmost_one_pos32 num + 1)).

(** ** Buckets and split points *)

Definition HASH_SPLITPOINT_PHASE_BITS : Z := 2.
Definition HASH_SPLITPOINT_PHASE_MASK : Z := 3.
Definition HASH_SPLITPOINT_GROUPS_WITH_ONE_PHASE : Z := 10.
Definition HASH_MAX_SPLITPOINTS : Z := 98.
Definition HASH_MAX_BITMAPS : Z := 1024.

Definition _hash_hashkey2bucket (hashkey maxbucket highmask lowmask : Z) : Z :=
  let bucket := Z.land hashkey highmask in
  if maxbucket <? bucket then Z.land bucket lowmask else bucket.

Definition _hash_spareindex (num_bucket : Z) : Z :=
  let splitpoint_group := pg_ceil_log2_32 num_bucket in
  if splitpoint_group <? HASH_SPLITPOINT_GROUPS_WITH_ONE_PHASE then splitpoint_group else
  HASH_SPLITPOINT_GROUPS_WITH_ONE_PHASE
  + Z.shiftl (splitpoint_group - HASH_SPLITPOINT_GROUPS_WITH_ONE_PHASE) HASH_SPLITPOINT_PHASE_BITS
  + Z.land (Z.shiftr (num_bucket - 1) (splitpoint_group - (HASH_SPLITPOINT_PHASE_BITS + 1))) HASH_SPLITPOINT_PHASE_MASK.

(** An [int] shifted left by up to 31 bits. *)
Definition int_shl (n : Z) : Z := let x := u32 (Z.shiftl 1 n) in if x <? 2 ^ 31 then x else x - 2 ^ 32.

Definition _hash_get_totalbuckets (splitpoint_phase : Z) : Z :=
  if splitpoint_phase <? HASH_SPLITPOINT_GROUPS_WITH_ONE_PHASE then u32 (int_shl splitpoint_phase) else
  let splitpoint_group := HASH_SPLITPOINT_GROUPS_WITH_ONE_PHASE
    + Z.shiftr (splitpoint_phase - HASH_SPLITPOINT_GROUPS_WITH_ONE_PHASE) HASH_SPLITPOINT_PHASE_BITS in
  let total_buckets := u32 (int_shl (splitpoint_group - 1)) in
  let phases := Z.land (splitpoint_phase - HASH_SPLITPOINT_GROUPS_WITH_ONE_PHASE) HASH_SPLITPOINT_PHASE_MASK + 1 in
  u32 (total_buckets + u32 (Z.shiftr (int_shl (splitpoint_group - 1)) HASH_SPLITPOINT_PHASE_BITS) * phases).

Definition CALC_NEW_BUCKET (old_bucket lowmask : Z) : Z := Z.lor old_bucket (u32 (lowmask + 1)).
Definition _hash_get_newbucket_from_oldbucket (old_bucket lowmask maxbucket : Z) : Z :=
  let new_bucket := CALC_NEW_BUCKET old_bucket lowmask in
  if maxbucket <? new_bucket then CALC_NEW_BUCKET old_bucket (Z.shiftr lowmask 1) else new_bucket.

(** [fls] numbers the bits from 1. *)
Definition fls (x : Z) : Z := if x =? 0 then 0 else Z.log2 x + 1.

(** The bucket from which [new_bucket] is split; there is none for bucket 0. *)
Definition old_bucket_of (new_bucket : Z) : Z := Z.land new_bucket (u32 (Z.shiftl 1 (fls new_bucket - 1) - 1)).

(** ** The meta page *)

(** [HashMetaPageData]; [hashm_ntuples] is the bits of the double. *)
Record HashMetaPageData : Type := mkHashMeta {
  hashm_magic : Z; hashm_version : Z; hashm_ntuples : Z; hashm_ffactor : Z; hashm_bsize : Z; hashm_bmsize : Z;
  hashm_bmshift : Z; hashm_maxbucket : Z; hashm_highmask : Z; hashm_lowmask : Z; hashm_ovflpoint : Z;
  hashm_firstfree : Z; hashm_nmaps : Z; hashm_procid : Z; hashm_spares : list Z; hashm_mapp : list Z }.

(** The offsets of its fields. *)
Definition meta_magic : Z := 0.
Definition meta_version : Z := 4.
Definition meta_ntuples : Z := 8.
Definition meta_ffactor : Z := 16.
Definition meta_bsize : Z := 18.
Definition meta_bmsize : Z := 20.
Definition meta_bmshift : Z := 22.
Definition meta_maxbucket : Z := 24.
Definition meta_highmask : Z := 28.
Definition meta_lowmask : Z := 32.
Definition meta_ovflpoint : Z := 36.
Definition meta_firstfree : Z := 40.
Definition meta_nmaps : Z := 44.
Definition meta_procid : Z := 48.
Definition meta_spares : Z := 52.
Definition meta_mapp : Z := meta_spares + 4 * HASH_MAX_SPLITPOINTS.
Definition sizeof_HashMetaPageData : Z := 4544.

(** A field of the meta page, and an element of one of its arrays. *)
Definition meta_get (n : nat) (p : page) (field : Z) : res Z := rd n p (PageGetContents + field).
Definition meta_set (n : nat) (p : page) (field v : Z) : res page := store p (PageGetContents + field) (le_bytes n v).
Definition elem_get (p : page) (array size i : Z) : res Z :=
  if (0 <=? i) && (i <? size) then meta_get 4 p (array + 4 * i) else Err EOob.
Definition elem_set (p : page) (array size i v : Z) : res page :=
  if (0 <=? i) && (i <? size) then meta_set 4 p (array + 4 * i) v else Err EOob.

(** The whole structure. *)
Definition meta_array (p : page) (array size : Z) : list Z := (λ i, mget 4 p (PageGetContents + array + 4 * i)) <$> seqZ 0 size.
Definition HashPageGetMeta (p : page) : HashMetaPageData :=
  let f n o := mget n p (PageGetContents + o) in
  mkHashMeta (f 4%nat meta_magic) (f 4%nat meta_version) (f 8%nat meta_ntuples) (f 2%nat meta_ffactor) (f 2%nat meta_bsize)
    (f 2%nat meta_bmsize) (f 2%nat meta_bmshift) (f 4%nat meta_maxbucket) (f 4%nat meta_highmask) (f 4%nat meta_lowmask)
    (f 4%nat meta_ovflpoint) (f 4%nat meta_firstfree) (f 4%nat meta_nmaps) (f 4%nat meta_procid)
    (meta_array p meta_spares HASH_MAX_SPLITPOINTS) (meta_array p meta_mapp HASH_MAX_BITMAPS).

(** An element of [hashm_spares]. *)
Definition spares_at (m : HashMetaPageData) (i : Z) : res Z :=
  if 0 <=? i then match hashm_spares m !! Z.to_nat i with Some v => Ok v | None => Err EOob end else Err EOob.

Definition BUCKET_TO_BLKNO (m : HashMetaPageData) (b : Z) : res Z :=
  spare ← (if b =? 0 then Ok 0 else spares_at m (_hash_spareindex (u32 (b + 1)) - 1));
  Ok (u32 (u32 (b + spare) + 1)).

(** The loop of [bitno_to_blkno], from [i] on. *)
Fixpoint find_split (n : nat) (m : HashMetaPageData) (splitnum ovflbitnum i : Z) : res Z :=
  match n with
  | O => Ok i
  | S n => if i <? splitnum then s ← spares_at m i; if s <? ovflbitnum then find_split n m splitnum ovflbitnum (i + 1) else Ok i
           else Ok i
  end.
Definition bitno_to_blkno (m : HashMetaPageData) (ovflbitnum : Z) : res Z :=
  let splitnum := hashm_ovflpoint m in
  let ovflbitnum := u32 (ovflbitnum + 1) in
  i ← find_split (Z.to_nat (splitnum - 1)) m splitnum ovflbitnum 1;
  Ok (u32 (_hash_get_totalbuckets i + ovflbitnum)).

(** The turns [i ..] of the loop of [_hash_ovflblkno_to_bitno]. *)
Fixpoint find_bitno (n : nat) (m : HashMetaPageData) (ovflblkno i : Z) : res Z :=
  match n with
  | O => Err EError
  | S n =>
      if ovflblkno <=? _hash_get_totalbuckets i then Err EError else
      let bitnum := u32 (ovflblkno - _hash_get_totalbuckets i) in
      prev ← spares_at m (i - 1);
      found ← (if prev <? bitnum then this ← spares_at m i; Ok (bitnum <=? this) else Ok false);
      if (found : bool) then Ok (bitnum - 1) else find_bitno n m ovflblkno (i + 1)
  end.
Definition _hash_ovflblkno_to_bitno (m : HashMetaPageData) (ovflblkno : Z) : res Z :=
  find_bitno (Z.to_nat (hashm_ovflpoint m)) m ovflblkno 1.

(** ** Page initialisation *)

Definition sizeof_HashPageOpaqueData : Z := 16.
Definition HASHO_PAGE_ID : Z := 0xFF80.
Definition LH_UNUSED_PAGE : Z := 0.
Definition LH_OVERFLOW_PAGE : Z := 1.
Definition LH_BUCKET_PAGE : Z := 2.
Definition LH_BITMAP_PAGE : Z := 4.
Definition LH_META_PAGE : Z := 8.
Definition LH_BUCKET_BEING_POPULATED : Z := 16.
Definition LH_BUCKET_BEING_SPLIT : Z := 32.
Definition LH_BUCKET_NEEDS_SPLIT_CLEANUP : Z := 64.
Definition LH_PAGE_HAS_DEAD_TUPLES : Z := 128.
Definition HASH_MAGIC : Z := 0x6440640.
Definition HASH_VERSION : Z := 4.
Definition InvalidBucket : Z := 0xFFFFFFFF.

(** The fields of [HashPageOpaqueData]. *)
Definition hasho_prevblkno : Z := 0.
Definition hasho_nextblkno : Z := 4.
Definition hasho_bucket : Z := 8.
Definition hasho_flag : Z := 12.
Definition hasho_page_id : Z := 14.

Definition hasho_set (n : nat) (p : page) (field v : Z) : res page := opaque_set n p (PageGetSpecialPointer p) field v.
Definition hasho_clear_flag (p : page) (mask : Z) : res page :=
  flags ← opaque_get 2 p (PageGetSpecialPointer p) hasho_flag;
  hasho_set 2 p hasho_flag (clear_flag flags mask).

(** All fields of the special space; [-1] as a bucket is [InvalidBucket]. *)
Definition set_hasho (p : page) (prev next bucket flag : Z) : res page :=
  p ← hasho_set 4 p hasho_prevblkno prev;
  p ← hasho_set 4 p hasho_nextblkno next;
  p ← hasho_set 4 p hasho_bucket bucket;
  p ← hasho_set 2 p hasho_flag flag;
  hasho_set 2 p hasho_page_id HASHO_PAGE_ID.

Definition _hash_pageinit : page := PageInit BLCKSZ sizeof_HashPageOpaqueData.

(** The initialising routines, with [initpage]. *)
Definition _hash_initbuf (max_bucket num_bucket flag : Z) : res page :=
  set_hasho _hash_pageinit max_bucket InvalidBlockNumber num_bucket flag.

Definition _hash_initbitmapbuffer (bmsize : Z) : res page :=
  p ← set_hasho _hash_pageinit InvalidBlockNumber InvalidBlockNumber InvalidBucket LH_BITMAP_PAGE;
  p ← store p PageGetContents (replicate (Z.to_nat bmsize) 0xFF);
  Ok (set_pd_lower p (PageGetContents + bmsize)).

(** The number of buckets for an estimated number of tuples. *)
Definition initial_buckets (num_tuples ffactor : Z) : res Z :=
  let dnumbuckets := SFdiv f8_prec f8_emax (f8_of_bits num_tuples) (f8_int ffactor) in
  if SFleb dnumbuckets (f8_int 2) then Ok 2
  else if SFleb (f8_int 0x40000000) dnumbuckets then Ok 0x40000000
  else n ← f8_trunc dnumbuckets; Ok (_hash_get_totalbuckets (_hash_spareindex n)).

Definition HashGetMaxBitmapSize : Z := BLCKSZ - (MAXALIGN SizeOfPageHeaderData + MAXALIGN sizeof_HashPageOpaqueData).
Definition BYTE_TO_BIT : Z := 3.

(** The fields of a new meta page, in the order of the assignments. *)
Definition init_meta (p : page) (num_buckets procid ffactor : Z) : res page :=
  let spare_index := _hash_spareindex num_buckets in
  p ← meta_set 4 p meta_magic HASH_MAGIC;
  p ← meta_set 4 p meta_version HASH_VERSION;
  p ← meta_set 8 p meta_ntuples 0;
  p ← meta_set 4 p meta_nmaps 0;
  p ← meta_set 2 p meta_ffactor ffactor;
  p ← meta_set 2 p meta_bsize HashGetMaxBitmapSize;
  let lshift := pg_leftmost_one_pos32 HashGetMaxBitmapSize in
  p ← meta_set 2 p meta_bmsize (Z.shiftl 1 lshift);
  p ← meta_set 2 p meta_bmshift (lshift + BYTE_TO_BIT);
  p ← meta_set 4 p meta_procid procid;
  p ← meta_set 4 p meta_maxbucket (num_buckets - 1);
  let highmask := pg_nextpower2_32 (num_buckets + 1) - 1 in
  p ← meta_set 4 p meta_highmask highmask;
  p ← meta_set 4 p meta_lowmask (Z.shiftr highmask 1);
  p ← store p (PageGetContents + meta_spares) (replicate (Z.to_nat (4 * HASH_MAX_SPLITPOINTS)) 0);
  p ← store p (PageGetContents + meta_mapp) (replicate (Z.to_nat (4 * HASH_MAX_BITMAPS)) 0);
  p ← elem_set p meta_spares HASH_MAX_SPLITPOINTS spare_index 1;
  p ← meta_set 4 p meta_ovflpoint spare_index;
  p ← meta_set 4 p meta_firstfree 0;
  Ok (set_pd_lower p (PageGetContents + sizeof_HashMetaPageData)).

Definition _hash_init_metabuffer (num_tuples procid ffactor : Z) : res page :=
  num_buckets ← initial_buckets num_tuples ffactor;
  p ← set_hasho _hash_pageinit InvalidBlockNumber InvalidBlockNumber InvalidBucket LH_META_PAGE;
  init_meta p num_buckets procid ffactor.

(** ** The free-page bitmap *)

Definition BITS_PER_MAP : Z := 32.
Definition map_word (bit : Z) : Z := PageGetContents + 4 * (bit / BITS_PER_MAP).
Definition map_mask (bit : Z) : Z := u32 (Z.shiftl 1 (bit mod BITS_PER_MAP)).
Definition SETBIT (p : page) (bit : Z) : res page :=
  w ← rd 4 p (map_word bit); store p (map_word bit) (le_bytes 4 (set_flag w (map_mask bit))).
Definition CLRBIT (p : page) (bit : Z) : res page :=
  w ← rd 4 p (map_word bit); store p (map_word bit) (le_bytes 4 (clear_flag w (map_mask bit))).
Definition ISSET (p : page) (bit : Z) : res bool :=
  w ← rd 4 p (map_word bit); Ok (has_flag w (map_mask bit)).

(** The first clear bit of a word. *)
Fixpoint firstfreebit_loop (n : nat) (map i : Z) : res Z :=
  match n with
  | O => Err EError
  | S n => if has_flag map (u32 (Z.shiftl 1 i)) then firstfreebit_loop n map (i + 1) else Ok i
  end.
Definition _hash_firstfreebit (map : Z) : res Z := firstfreebit_loop (Z.to_nat BITS_PER_MAP) map 0.

(** ** Splitting a bucket: the meta page *)

Definition with_split (m : HashMetaPageData) (maxbucket highmask lowmask ovflpoint : Z) (spares : list Z) : HashMetaPageData :=
  mkHashMeta (hashm_magic m) (hashm_version m) (hashm_ntuples m) (hashm_ffactor m) (hashm_bsize m) (hashm_bmsize m) (hashm_bmshift m)
    maxbucket highmask lowmask ovflpoint (hashm_firstfree m) (hashm_nmaps m) (hashm_procid m) spares (hashm_mapp m).

(** What [_hash_expandtable] does to the meta page, and which of the two
    optional parts of it the record carries. *)
Definition expand_meta (m : HashMetaPageData) : res (HashMetaPageData * bool * bool) :=
  let new_bucket := u32 (hashm_maxbucket m + 1) in
  let spare_ndx := _hash_spareindex (u32 (new_bucket + 1)) in
  let update_masks := hashm_highmask m <? new_bucket in
  let lowmask := if update_masks then hashm_highmask m else hashm_lowmask m in
  let highmask := if update_masks then Z.lor new_bucket lowmask else hashm_highmask m in
  if hashm_ovflpoint m <? spare_ndx then
    s ← spares_at m (hashm_ovflpoint m);
    if spare_ndx <? zlen (hashm_spares m) then
      Ok (with_split m new_bucket highmask lowmask spare_ndx (<[Z.to_nat spare_ndx := s]> (hashm_spares m)), update_masks, true)
    else Err EOob
  else Ok (with_split m new_bucket highmask lowmask (hashm_ovflpoint m) (hashm_spares m), update_masks, false).

(** The test of [_hash_alloc_buckets]: the last block has a number. *)
Definition alloc_fits (firstblock nblocks : Z) : bool :=
  let lastblock := u32 (firstblock + nblocks - 1) in
  negb ((lastblock <? firstblock) || (lastblock =? InvalidBlockNumber)).

(** The first tests of [_hash_expandtable]: there are enough tuples, and not too
    many buckets. *)
Definition split_wanted (m : HashMetaPageData) : bool :=
  if SFleb (f8_of_bits (hashm_ntuples m)) (SFmul f8_prec f8_emax (f8_int (hashm_ffactor m)) (f8_int (u32 (hashm_maxbucket m + 1)))) then false
  else negb (0x7FFFFFFE <=? hashm_maxbucket m).

(** The place of the new bucket, and whether there is room for a new batch of
    bucket pages, when one is due. *)
Definition split_fits (m : HashMetaPageData) (new_bucket : Z) : res bool :=
  start_nblkno ← BUCKET_TO_BLKNO m new_bucket;
  let spare_ndx := _hash_spareindex (u32 (new_bucket + 1)) in
  Ok (negb ((hashm_ovflpoint m <? spare_ndx) && negb (alloc_fits start_nblkno (u32 (_hash_get_totalbuckets spare_ndx - new_bucket))))).

(** The decisions of [_hash_expandtable] about the meta page: which bucket is split,
    after [split_wanted], and the change of the meta page after [split_fits]; [None]
    when it decides not to split.  What is between them in the code is not modelled:
    the function gets the locks it asks for, and the old bucket has no split to
    finish and no tuples of an earlier one to clean up (both would lead to a
    new start with the meta page as it is then). *)
Definition expandtable_meta (m : HashMetaPageData) : res (option (HashMetaPageData * bool * bool)) :=
  if negb (split_wanted m) then Ok None else
  let new_bucket := u32 (hashm_maxbucket m + 1) in
  let old_bucket := Z.land new_bucket (hashm_lowmask m) in
  _ ← BUCKET_TO_BLKNO m old_bucket;
  fits ← split_fits m new_bucket;
  if negb fits then Ok None else Some <$> expand_meta m.

Definition XLH_SPLIT_META_UPDATE_MASKS : Z := 1.
Definition XLH_SPLIT_META_UPDATE_SPLITPOINT : Z := 2.

(** The data it registers for the meta page, and the record's main data. *)
Definition expand_bufdata (m : HashMetaPageData) (masks splitpoint : bool) : res (list Z) :=
  s ← (if splitpoint then spares_at m (hashm_ovflpoint m) else Ok 0);
  Ok ((if masks then le_bytes 4 (hashm_lowmask m) ++ le_bytes 4 (hashm_highmask m) else []) ++
      (if splitpoint then le_bytes 4 (hashm_ovflpoint m) ++ le_bytes 4 s else [])).
Definition expand_main (m : HashMetaPageData) (masks splitpoint : bool) (old_flag new_flag : Z) : list Z :=
  le_bytes 4 (hashm_maxbucket m) ++ le_bytes 2 old_flag ++ le_bytes 2 new_flag ++
  le_bytes 1 ((if masks then XLH_SPLIT_META_UPDATE_MASKS else 0) + (if splitpoint then XLH_SPLIT_META_UPDATE_SPLITPOINT else 0)).

(** ** Searching a page by hash key *)

Definition INDEX_NULL_MASK : Z := 0x8000.
Definition IndexInfoFindDataOffset (t_info : Z) : Z :=
  if negb (has_flag t_info INDEX_NULL_MASK) then MAXALIGN sizeof_IndexTupleData else MAXALIGN (sizeof_IndexTupleData + 4).

(** The key of the tuple at an address. *)
Definition _hash_get_indextuple_hashkey (m : mem) (itup : Z) : res Z :=
  t_info ← rd 2 m (itup + 6);
  rd 4 m (itup + IndexInfoFindDataOffset t_info).
Definition item_hashkey (p : page) (off : Z) : res Z := _hash_get_indextuple_hashkey p (lp_off (PageGetItemId p off)).

(** Each turn brings the bounds closer. *)
Fixpoint binsearch_loop (fuel : nat) (p : page) (hash_value lower upper : Z) : res Z :=
  if lower <? upper then
    match fuel with
    | O => Err EFuel
    | S fuel =>
        let off := (upper + lower) / 2 in
        hashkey ← item_hashkey p off;
        if hashkey <? hash_value then binsearch_loop fuel p hash_value (u16 (off + 1)) upper else binsearch_loop fuel p hash_value lower off
    end
  else Ok lower.
Definition _hash_binsearch (p : page) (hash_value : Z) : res Z :=
  binsearch_loop (Z.to_nat (PageGetMaxOffsetNumber p)) p hash_value FirstOffsetNumber (u16 (PageGetMaxOffsetNumber p + 1)).

Fixpoint binsearch_last_loop (fuel : nat) (p : page) (hash_value lower upper : Z) : res Z :=
  if lower <? upper then
    match fuel with
    | O => Err EFuel
    | S fuel =>
        let off := (upper + lower + 1) / 2 in
        hashkey ← item_hashkey p off;
        if hash_value <? hashkey then binsearch_last_loop fuel p hash_value lower (u16 (off - 1)) else binsearch_last_loop fuel p hash_value off upper
    end
  else Ok lower.
Definition _hash_binsearch_last (p : page) (hash_value : Z) : res Z :=
  binsearch_last_loop (Z.to_nat (PageGetMaxOffsetNumber p)) p hash_value (FirstOffsetNumber - 1) (PageGetMaxOffsetNumber p).
