(* ===== verification/HashRedo.v ===== *)
(** * Redo of hash index records on one page: [hash_xlog_idx.c]

    One definition per handler, each for one page of the record, the change it
    makes to that page, and the routines that enter a record in the log
    index. *)

From S2P Require Import Prelude Mem Page PageAdd PageIndex PageCompact Buffer WalRecord HeapRedo TagList Btree BtreeRedo Hash.

(** ** Record types *)

Definition XLOG_HASH_INIT_META_PAGE : Z := 0x00.
Definition XLOG_HASH_INIT_BITMAP_PAGE : Z := 0x10.
Definition XLOG_HASH_INSERT : Z := 0x20.
Definition XLOG_HASH_ADD_OVFL_PAGE : Z := 0x30.
Definition XLOG_HASH_SPLIT_ALLOCATE_PAGE : Z := 0x40.
Definition XLOG_HASH_SPLIT_PAGE : Z := 0x50.
Definition XLOG_HASH_SPLIT_COMPLETE : Z := 0x60.
Definition XLOG_HASH_MOVE_PAGE_CONTENTS : Z := 0x70.
Definition XLOG_HASH_SQUEEZE_PAGE : Z := 0x80.
Definition XLOG_HASH_DELETE : Z := 0x90.
Definition XLOG_HASH_SPLIT_CLEANUP : Z := 0xA0.
Definition XLOG_HASH_UPDATE_META_PAGE : Z := 0xB0.
Definition XLOG_HASH_VACUUM_ONE_PAGE : Z := 0xC0.

(** ** Common parts of the handlers *)

(** The changed page with the LSN of the record. *)
Definition with_lsn (r : XLogReaderState) (p : res page) : res page := p ← p; Ok (PageSetLSN p (EndRecPtr r)).

(** A page that is changed also after it was restored from its image. *)
Definition redo_always (st : dbstate) (r : XLogReaderState) (id : Z) (cleanup : bool) (f : page → res page) : redo_result :=
  '(st, buffer, action) ← XLogReadBufferForRedoExtended st r id RBM_NORMAL cleanup;
  match action with
  | BLK_NEEDS_REDO | BLK_RESTORED =>
      p ← BufferGetPage st buffer;
      p ← f p;
      Ok (buf_write st buffer p, buffer, action)
  | _ => Ok (st, buffer, action)
  end.

(** Pages of init forks go to disk at once. *)
Definition flush_init (fork : Z) (x : redo_result) : redo_result :=
  '(st, buffer, action) ← x;
  st ← (if fork =? INIT_FORKNUM then FlushOneBuffer st buffer else Ok st);
  Ok (st, buffer, action).

(** The same when only a changed page is flushed. *)
Definition flush_changed (fork : Z) (x : redo_result) : redo_result :=
  '(st, buffer, action) ← x;
  match action with
  | BLK_NEEDS_REDO => flush_init fork (Ok (st, buffer, action))
  | _ => Ok (st, buffer, action)
  end.

(** A pointer to an array of 4-byte values, and its first element. *)
Definition word0 (data : list Z) : res Z := rd 4 data 0.

(** ** The handlers *)

Definition polar_hash_xlog_init_meta_page (st : dbstate) (r : XLogReaderState) (tag : BufferTag) (buffer : Buffer) : redo_result :=
  meta_tag ← POLAR_GET_LOG_TAG r 0;
  if BUFFERTAGS_EQUAL tag meta_tag then
    num_tuples ← rd 8 (main_data r) 0;
    procid ← rd 4 (main_data r) 8;
    ffactor ← rd 2 (main_data r) 12;
    flush_init (forkNum meta_tag) (redo_init st r 0 buffer BLK_NEEDS_REDO (_hash_init_metabuffer num_tuples procid ffactor))
  else Ok (st, buffer, BLK_NOTFOUND).

(** A further bitmap page in the list of the meta page. *)
Definition add_bitmap (p : page) (blkno : Z) : res page :=
  nmaps ← meta_get 4 p meta_nmaps;
  p ← elem_set p meta_mapp HASH_MAX_BITMAPS nmaps blkno;
  meta_set 4 p meta_nmaps (nmaps + 1).

Definition init_bitmap_meta (p : page) : res page :=
  maxbucket ← meta_get 4 p meta_maxbucket;
  add_bitmap p (u32 (u32 (maxbucket + 1) + 1)).

Definition polar_hash_xlog_init_bitmap_page (st : dbstate) (r : XLogReaderState) (tag : BufferTag) (buffer : Buffer) : redo_result :=
  bitmap_tag ← POLAR_GET_LOG_TAG r 0;
  if BUFFERTAGS_EQUAL tag bitmap_tag then
    bmsize ← rd 2 (main_data r) 0;
    flush_init (forkNum bitmap_tag) (redo_init st r 0 buffer BLK_NEEDS_REDO (_hash_initbitmapbuffer bmsize))
  else
  meta_tag ← POLAR_GET_LOG_TAG r 1;
  if BUFFERTAGS_EQUAL tag meta_tag then
    flush_changed (forkNum meta_tag) (redo_read st r 1 false (λ p, with_lsn r (init_bitmap_meta p)))
  else Ok (st, buffer, BLK_NOTFOUND).

Definition hash_insert_page (r : XLogReaderState) (p : page) : res page :=
  offnum ← rd 2 (main_data r) 0;
  with_lsn r (bt_add_item p (block_bytes r 0) offnum EPanic).

Definition count_meta (f : Z → Z) (p : page) : res page :=
  n ← meta_get 8 p meta_ntuples; meta_set 8 p meta_ntuples (f n).

Definition polar_hash_xlog_insert (st : dbstate) (r : XLogReaderState) (tag : BufferTag) (buffer : Buffer) : redo_result :=
  insert_tag ← POLAR_GET_LOG_TAG r 0;
  if BUFFERTAGS_EQUAL tag insert_tag then redo_read st r 0 false (hash_insert_page r) else
  meta_tag ← POLAR_GET_LOG_TAG r 1;
  if BUFFERTAGS_EQUAL tag meta_tag then redo_read st r 1 false (λ p, with_lsn r (count_meta (λ n, f8_add n 1) p))
  else Ok (st, buffer, BLK_NOTFOUND).

(** The new overflow page, linked back to the page before it. *)
Definition ovfl_page (r : XLogReaderState) (left : Z) : res page :=
  num_bucket ← word0 (block_bytes r 0);
  p ← _hash_initbuf InvalidBlockNumber num_bucket LH_OVERFLOW_PAGE;
  hasho_set 4 p hasho_prevblkno left.

(** One more overflow page at the current split point. *)
Definition add_spare (p : page) : res page :=
  ovflpoint ← meta_get 4 p meta_ovflpoint;
  n ← elem_get p meta_spares HASH_MAX_SPLITPOINTS ovflpoint;
  elem_set p meta_spares HASH_MAX_SPLITPOINTS ovflpoint (n + 1).

Definition add_ovfl_meta (r : XLogReaderState) (newmapblk : option Z) (p : page) : res page :=
  firstfree ← word0 (block_bytes r 4);
  bmpage_found ← rd 1 (main_data r) 2;
  p ← meta_set 4 p meta_firstfree firstfree;
  if bmpage_found =? 0 then
    p ← add_spare p;
    match newmapblk with
    | Some blk => p ← add_bitmap p blk; add_spare p
    | None => Ok p
    end
  else Ok p.

Definition polar_hash_xlog_add_ovfl_page (st : dbstate) (r : XLogReaderState) (tag : BufferTag) (buffer : Buffer) : redo_result :=
  ovfl_tag ← POLAR_GET_LOG_TAG r 0;
  left_tag ← POLAR_GET_LOG_TAG r 1;
  if BUFFERTAGS_EQUAL tag ovfl_tag then redo_init st r 0 buffer BLK_NEEDS_REDO (ovfl_page r (blockNum left_tag)) else
  if BUFFERTAGS_EQUAL tag left_tag then
    redo_read st r 1 false (λ p, with_lsn r (hasho_set 4 p hasho_nextblkno (blockNum ovfl_tag))) else
  map ← (if XLogRecHasBlockRef r 2 then t ← POLAR_GET_LOG_TAG r 2; Ok (BUFFERTAGS_EQUAL tag t) else Ok false);
  if (map : bool) then redo_read st r 2 false (λ p, bit ← word0 (block_bytes r 2); with_lsn r (SETBIT p bit)) else
  newmap ← (if XLogRecHasBlockRef r 3 then t ← POLAR_GET_LOG_TAG r 3; Ok (BUFFERTAGS_EQUAL tag t) else Ok false);
  if (newmap : bool) then
    bmsize ← rd 2 (main_data r) 0;
    redo_init st r 3 buffer BLK_NEEDS_REDO (_hash_initbitmapbuffer bmsize)
  else
  meta_tag ← POLAR_GET_LOG_TAG r 4;
  if BUFFERTAGS_EQUAL tag meta_tag then
    redo_read st r 4 false (λ p, with_lsn r (add_ovfl_meta r (blockNum <$> XLogRecGetBlockTag r 3) p))
  else Ok (st, buffer, BLK_NOTFOUND).

Definition split_old_page (r : XLogReaderState) (p : page) : res page :=
  new_bucket ← rd 4 (main_data r) 0;
  old_flag ← rd 2 (main_data r) 4;
  p ← hasho_set 2 p hasho_flag old_flag;
  with_lsn r (hasho_set 4 p hasho_prevblkno new_bucket).

Definition split_new_page (r : XLogReaderState) : res page :=
  new_bucket ← rd 4 (main_data r) 0;
  new_flag ← rd 2 (main_data r) 6;
  _hash_initbuf new_bucket new_bucket new_flag.

Definition split_meta_page (r : XLogReaderState) (p : page) : res page :=
  new_bucket ← rd 4 (main_data r) 0;
  flags ← rd 1 (main_data r) 8;
  let data := block_bytes r 2 in
  p ← meta_set 4 p meta_maxbucket new_bucket;
  '(p, pos) ← (if has_flag flags XLH_SPLIT_META_UPDATE_MASKS then
      lowmask ← rd 4 data 0;
      highmask ← rd 4 data 4;
      p ← meta_set 4 p meta_lowmask lowmask;
      p ← meta_set 4 p meta_highmask highmask;
      Ok (p, 8)
    else Ok (p, 0));
  p ← (if has_flag flags XLH_SPLIT_META_UPDATE_SPLITPOINT then
      ovflpoint ← rd 4 data pos;
      ovflpages ← rd 4 data (pos + 4);
      p ← elem_set p meta_spares HASH_MAX_SPLITPOINTS ovflpoint ovflpages;
      meta_set 4 p meta_ovflpoint ovflpoint
    else Ok p);
  Ok (PageSetLSN p (EndRecPtr r)).

Definition polar_hash_xlog_split_allocate_page (st : dbstate) (r : XLogReaderState) (tag : BufferTag) (buffer : Buffer) : redo_result :=
  old_tag ← POLAR_GET_LOG_TAG r 0;
  if BUFFERTAGS_EQUAL tag old_tag then redo_always st r 0 true (split_old_page r) else
  new_tag ← POLAR_GET_LOG_TAG r 1;
  if BUFFERTAGS_EQUAL tag new_tag then redo_init st r 1 buffer BLK_NEEDS_REDO (split_new_page r) else
  meta_tag ← POLAR_GET_LOG_TAG r 2;
  if BUFFERTAGS_EQUAL tag meta_tag then redo_read st r 2 false (split_meta_page r) else Ok (st, buffer, BLK_NOTFOUND).

(** Whatever page was asked for, block 0 is read. *)
Definition polar_hash_xlog_split_page (st : dbstate) (r : XLogReaderState) (tag : BufferTag) (buffer : Buffer) : redo_result :=
  POLAR_READ_BUFFER_FOR_REDO st r 0.

Definition polar_hash_xlog_split_complete (st : dbstate) (r : XLogReaderState) (tag : BufferTag) (buffer : Buffer) : redo_result :=
  old_tag ← POLAR_GET_LOG_TAG r 0;
  if BUFFERTAGS_EQUAL tag old_tag then
    redo_always st r 0 false (λ p, flag ← rd 2 (main_data r) 0; with_lsn r (hasho_set 2 p hasho_flag flag)) else
  new_tag ← POLAR_GET_LOG_TAG r 1;
  if BUFFERTAGS_EQUAL tag new_tag then
    redo_always st r 1 false (λ p, flag ← rd 2 (main_data r) 2; with_lsn r (hasho_set 2 p hasho_flag flag))
  else Ok (st, buffer, BLK_NOTFOUND).

(** The tuples of the data from [pos] on; the [k]-th goes to the offset the
    [k]-th element of [towrite], at the start of the data, names. *)
Fixpoint move_loop (fuel : nat) (p : page) (data : list Z) (pos k : Z) : res page :=
  if pos <? zlen data then
    match fuel with
    | O => Err EFuel
    | S fuel =>
        if in_range data pos sizeof_IndexTupleData then
          let itemsz := MAXALIGN (IndexTupleSize data pos) in
          item ← load data pos itemsz;
          off ← rd 2 data (2 * k);
          p ← bt_add_item p item off EError;
          move_loop fuel p data (pos + itemsz) (u16 (k + 1))
        else Err EOob
    end
  else Ok p.

Definition move_tuples (r : XLogReaderState) (ntups : Z) (p : page) : res page :=
  if 0 <? ntups then move_loop (Z.to_nat MaxOffsetNumber) p (block_bytes r 1) (2 * ntups) 0 else Ok p.

(** The deletion of the offsets that make up the data; an odd byte at the end
    is not part of any. *)
Definition delete_listed (data : list Z) (p : page) : res page :=
  let n := zlen data / 2 in
  if 0 <? n then offs ← get_offsets data 0 (Z.to_nat n); PageIndexMultiDelete p offs else Ok p.

(** The primary bucket page, read for its lock only. *)
Definition read_bucket (st : dbstate) (r : XLogReaderState) : redo_result := XLogReadBufferForRedoExtended st r 0 RBM_NORMAL true.

Definition polar_hash_xlog_move_page_contents (st : dbstate) (r : XLogReaderState) (tag : BufferTag) (buffer : Buffer) : redo_result :=
  same ← rd 1 (main_data r) 2;
  let is_prim_bucket_same_wrt := negb (same =? 0) in
  bucket ← (if negb is_prim_bucket_same_wrt then t ← POLAR_GET_LOG_TAG r 0; Ok (BUFFERTAGS_EQUAL tag t) else Ok false);
  if (bucket : bool) then read_bucket st r else
  write_tag ← POLAR_GET_LOG_TAG r 1;
  if BUFFERTAGS_EQUAL tag write_tag then
    redo_read st r 1 is_prim_bucket_same_wrt (λ p, ntups ← rd 2 (main_data r) 0; with_lsn r (move_tuples r ntups p)) else
  del_tag ← POLAR_GET_LOG_TAG r 2;
  if BUFFERTAGS_EQUAL tag del_tag then redo_read st r 2 false (λ p, with_lsn r (delete_listed (block_bytes r 2) p))
  else Ok (st, buffer, BLK_NOTFOUND).

Record xl_hash_squeeze_page : Type := mkSqueeze {
  sq_prevblkno : Z; sq_nextblkno : Z; sq_ntups : Z; is_prim_bucket_same_wrt : bool; is_prev_bucket_same_wrt : bool }.
Definition get_xl_hash_squeeze_page (r : XLogReaderState) : res xl_hash_squeeze_page :=
  a ← rd 4 (main_data r) 0;
  b ← rd 4 (main_data r) 4;
  c ← rd 2 (main_data r) 8;
  d ← rd 1 (main_data r) 10;
  e ← rd 1 (main_data r) 11;
  Ok (mkSqueeze a b c (negb (d =? 0)) (negb (e =? 0))).

Definition squeeze_write_page (r : XLogReaderState) (x : xl_hash_squeeze_page) (p : page) : res page :=
  p ← move_tuples r (sq_ntups x) p;
  with_lsn r (if is_prev_bucket_same_wrt x then hasho_set 4 p hasho_nextblkno (sq_nextblkno x) else Ok p).

(** The freed overflow page. *)
Definition squeeze_ovfl_page : res page := set_hasho _hash_pageinit InvalidBlockNumber InvalidBlockNumber InvalidBucket LH_UNUSED_PAGE.

Definition polar_hash_xlog_squeeze_page (st : dbstate) (r : XLogReaderState) (tag : BufferTag) (buffer : Buffer) : redo_result :=
  x ← get_xl_hash_squeeze_page r;
  bucket ← (if negb (is_prim_bucket_same_wrt x) then t ← POLAR_GET_LOG_TAG r 0; Ok (BUFFERTAGS_EQUAL tag t) else Ok false);
  if (bucket : bool) then read_bucket st r else
  write_tag ← POLAR_GET_LOG_TAG r 1;
  if BUFFERTAGS_EQUAL tag write_tag then redo_read st r 1 (is_prim_bucket_same_wrt x) (squeeze_write_page r x) else
  ovfl_tag ← POLAR_GET_LOG_TAG r 2;
  if BUFFERTAGS_EQUAL tag ovfl_tag then redo_read st r 2 false (λ _, with_lsn r squeeze_ovfl_page) else
  prev ← (if negb (is_prev_bucket_same_wrt x) then t ← POLAR_GET_LOG_TAG r 3; Ok (BUFFERTAGS_EQUAL tag t) else Ok false);
  if (prev : bool) then redo_read st r 3 false (λ p, with_lsn r (hasho_set 4 p hasho_nextblkno (sq_nextblkno x))) else
  next ← (if XLogRecHasBlockRef r 4 then t ← POLAR_GET_LOG_TAG r 4; Ok (BUFFERTAGS_EQUAL tag t) else Ok false);
  if (next : bool) then redo_read st r 4 false (λ p, with_lsn r (hasho_set 4 p hasho_prevblkno (sq_prevblkno x))) else
  map_tag ← POLAR_GET_LOG_TAG r 5;
  if BUFFERTAGS_EQUAL tag map_tag then redo_read st r 5 false (λ p, bit ← word0 (block_bytes r 5); with_lsn r (CLRBIT p bit)) else
  meta ← (if XLogRecHasBlockRef r 6 then t ← POLAR_GET_LOG_TAG r 6; Ok (BUFFERTAGS_EQUAL tag t) else Ok false);
  if (meta : bool) then
    redo_read st r 6 false (λ p, firstfree ← word0 (block_bytes r 6); with_lsn r (meta_set 4 p meta_firstfree firstfree))
  else Ok (st, buffer, BLK_NOTFOUND).

Definition hash_delete_page (r : XLogReaderState) (clear_dead_marking : bool) (p : page) : res page :=
  p ← delete_listed (block_bytes r 1) p;
  with_lsn r (if clear_dead_marking then hasho_clear_flag p LH_PAGE_HAS_DEAD_TUPLES else Ok p).

Definition polar_hash_xlog_delete (st : dbstate) (r : XLogReaderState) (tag : BufferTag) (buffer : Buffer) : redo_result :=
  clear ← rd 1 (main_data r) 0;
  primary ← rd 1 (main_data r) 1;
  let is_primary_bucket_page := negb (primary =? 0) in
  bucket ← (if negb is_primary_bucket_page then t ← POLAR_GET_LOG_TAG r 0; Ok (BUFFERTAGS_EQUAL tag t) else Ok false);
  if (bucket : bool) then read_bucket st r else
  del_tag ← POLAR_GET_LOG_TAG r 1;
  if BUFFERTAGS_EQUAL tag del_tag then redo_read st r 1 is_primary_bucket_page (hash_delete_page r (negb (clear =? 0)))
  else Ok (st, buffer, BLK_NOTFOUND).

Definition polar_hash_xlog_split_cleanup (st : dbstate) (r : XLogReaderState) (tag : BufferTag) (buffer : Buffer) : redo_result :=
  redo_block0 st r tag buffer false (λ _ p, with_lsn r (hasho_clear_flag p LH_BUCKET_NEEDS_SPLIT_CLEANUP)).

Definition polar_hash_xlog_update_meta_page (st : dbstate) (r : XLogReaderState) (tag : BufferTag) (buffer : Buffer) : redo_result :=
  redo_block0 st r tag buffer false (λ _ p, n ← rd 8 (main_data r) 0; with_lsn r (meta_set 8 p meta_ntuples n)).

Definition SizeOfHashVacuumOnePage : Z := 8.

(** [ntuples] is an [int]. *)
Definition vacuum_ntuples (r : XLogReaderState) : res Z :=
  n ← rd 4 (main_data r) 4; Ok (if n <? 2 ^ 31 then n else n - 2 ^ 32).
Definition hash_vacuum_page (r : XLogReaderState) (p : page) : res page :=
  ntuples ← vacuum_ntuples r;
  p ← (if SizeOfHashVacuumOnePage <? zlen (main_data r) then
         offs ← get_offsets (main_data r) SizeOfHashVacuumOnePage (Z.to_nat ntuples);
         PageIndexMultiDelete p offs
       else Ok p);
  with_lsn r (hasho_clear_flag p LH_PAGE_HAS_DEAD_TUPLES).

Definition polar_hash_xlog_vacuum_one_page (st : dbstate) (r : XLogReaderState) (tag : BufferTag) (buffer : Buffer) : redo_result :=
  del_tag ← POLAR_GET_LOG_TAG r 0;
  if BUFFERTAGS_EQUAL tag del_tag then redo_read st r 0 true (hash_vacuum_page r) else
  meta_tag ← POLAR_GET_LOG_TAG r 1;
  if BUFFERTAGS_EQUAL tag meta_tag then
    redo_read st r 1 false (λ p, ntuples ← vacuum_ntuples r; with_lsn r (count_meta (λ n, f8_sub n ntuples) p))
  else Ok (st, buffer, BLK_NOTFOUND).

Definition polar_hash_idx_redo (st : dbstate) (r : XLogReaderState) (tag : BufferTag) (buffer : Buffer) : redo_result :=
  let info := rec_info r in
  if info =? XLOG_HASH_INIT_META_PAGE then polar_hash_xlog_init_meta_page st r tag buffer
  else if info =? XLOG_HASH_INIT_BITMAP_PAGE then polar_hash_xlog_init_bitmap_page st r tag buffer
  else if info =? XLOG_HASH_INSERT then polar_hash_xlog_insert st r tag buffer
  else if info =? XLOG_HASH_ADD_OVFL_PAGE then polar_hash_xlog_add_ovfl_page st r tag buffer
  else if info =? XLOG_HASH_SPLIT_ALLOCATE_PAGE then polar_hash_xlog_split_allocate_page st r tag buffer
  else if info =? XLOG_HASH_SPLIT_PAGE then polar_hash_xlog_split_page st r tag buffer
  else if info =? XLOG_HASH_SPLIT_COMPLETE then polar_hash_xlog_split_complete st r tag buffer
  else if info =? XLOG_HASH_MOVE_PAGE_CONTENTS then polar_hash_xlog_move_page_contents st r tag buffer
  else if info =? XLOG_HASH_SQUEEZE_PAGE then polar_hash_xlog_squeeze_page st r tag buffer
  else if info =? XLOG_HASH_DELETE then polar_hash_xlog_delete st r tag buffer
  else if info =? XLOG_HASH_SPLIT_CLEANUP then polar_hash_xlog_split_cleanup st r tag buffer
  else if info =? XLOG_HASH_UPDATE_META_PAGE then polar_hash_xlog_update_meta_page st r tag buffer
  else if info =? XLOG_HASH_VACUUM_ONE_PAGE then polar_hash_xlog_vacuum_one_page st r tag buffer
  else Err EPanic.

(** The pages a record's redo reads with a cleanup lock. *)
Definition is_block (r : XLogReaderState) (id : Z) (tag : BufferTag) : bool := bool_decide (XLogRecGetBlockTag r id = Some tag).
Definition hash_cleanup (r : XLogReaderState) (tag : BufferTag) : bool :=
  let info := rec_info r in
  let primary pos := if mget 1 (main_data r) pos =? 0 then is_block r 0 tag else is_block r 1 tag in
  if (info =? XLOG_HASH_SPLIT_ALLOCATE_PAGE) || (info =? XLOG_HASH_VACUUM_ONE_PAGE) then is_block r 0 tag
  else if info =? XLOG_HASH_MOVE_PAGE_CONTENTS then primary 2
  else if info =? XLOG_HASH_SQUEEZE_PAGE then primary 10
  else if info =? XLOG_HASH_DELETE then primary 1
  else false.

(** ** The pages of a record *)

Definition polar_hash_xlog_add_ovfl_page_save (r : XLogReaderState) : list BufferTag :=
  ParseXLogBlocksLsn r 0 ++ ParseXLogBlocksLsn r 1 ++ save_if_ref r 2 ++ save_if_ref r 3 ++ ParseXLogBlocksLsn r 4.
Definition polar_hash_xlog_move_page_contents_save (r : XLogReaderState) : list BufferTag :=
  (if XLogRecHasBlockRef r 0 then ParseXLogBlocksLsn r 0 ++ ParseXLogBlocksLsn r 1 else ParseXLogBlocksLsn r 1) ++
  ParseXLogBlocksLsn r 2.
Definition polar_hash_xlog_squeeze_page_save (r : XLogReaderState) : list BufferTag :=
  (if XLogRecHasBlockRef r 0 then ParseXLogBlocksLsn r 0 ++ ParseXLogBlocksLsn r 1 else ParseXLogBlocksLsn r 1) ++
  ParseXLogBlocksLsn r 2 ++ save_if_ref r 3 ++ save_if_ref r 4 ++ ParseXLogBlocksLsn r 5 ++ save_if_ref r 6.
Definition polar_hash_xlog_delete_save (r : XLogReaderState) : list BufferTag :=
  if XLogRecHasBlockRef r 0 then ParseXLogBlocksLsn r 0 ++ ParseXLogBlocksLsn r 1 else ParseXLogBlocksLsn r 1.

(** The blocks of the record types that list a fixed number of them. *)
Definition hash_fixed_blocks (info : Z) : option (list Z) :=
  if (info =? XLOG_HASH_INIT_META_PAGE) || (info =? XLOG_HASH_SPLIT_PAGE) || (info =? XLOG_HASH_SPLIT_CLEANUP)
     || (info =? XLOG_HASH_UPDATE_META_PAGE) then Some [0]
  else if (info =? XLOG_HASH_INIT_BITMAP_PAGE) || (info =? XLOG_HASH_INSERT) || (info =? XLOG_HASH_SPLIT_COMPLETE)
     || (info =? XLOG_HASH_VACUUM_ONE_PAGE) then Some [0; 1]
  else if info =? XLOG_HASH_SPLIT_ALLOCATE_PAGE then Some [0; 1; 2]
  else None.

Definition polar_hash_idx_save (r : XLogReaderState) : res (list BufferTag) :=
  let info := rec_info r in
  match hash_fixed_blocks info with
  | Some ids => Ok (ids ≫= ParseXLogBlocksLsn r)
  | None =>
      if info =? XLOG_HASH_ADD_OVFL_PAGE then Ok (polar_hash_xlog_add_ovfl_page_save r)
      else if info =? XLOG_HASH_MOVE_PAGE_CONTENTS then Ok (polar_hash_xlog_move_page_contents_save r)
      else if info =? XLOG_HASH_SQUEEZE_PAGE then Ok (polar_hash_xlog_squeeze_page_save r)
      else if info =? XLOG_HASH_DELETE then Ok (polar_hash_xlog_delete_save r)
      else Err EPanic
  end.

(** The tags of the listed blocks, in order, in an array of [n] elements. *)
Fixpoint put_blocks (n : Z) (r : XLogReaderState) (ids : list Z) (l : list BufferTag) : res (list BufferTag) :=
  match ids with
  | [] => Ok l
  | id :: ids => l ← bt_put_tag n r id l; put_blocks n r ids l
  end.
Definition ref_block (r : XLogReaderState) (id : Z) : list Z := if XLogRecHasBlockRef r id then [id] else [].

Definition polar_hash_xlog_add_ovfl_page_get_bufftag_list (r : XLogReaderState) : res (list BufferTag) :=
  put_blocks 5 r ([0; 1] ++ ref_block r 2 ++ ref_block r 3 ++ [4]) [].
Definition polar_hash_xlog_move_page_contents_get_bufftag_list (r : XLogReaderState) : res (list BufferTag) :=
  put_blocks 3 r (ref_block r 0 ++ [1; 2]) [].
Definition polar_hash_xlog_squeeze_page_get_bufftag_list (r : XLogReaderState) : res (list BufferTag) :=
  put_blocks 7 r (ref_block r 0 ++ [1; 2] ++ ref_block r 3 ++ ref_block r 4 ++ [5] ++ ref_block r 6) [].
Definition polar_hash_xlog_delete_get_bufftag_list (r : XLogReaderState) : res (list BufferTag) :=
  put_blocks 2 r (ref_block r 0 ++ [1]) [].

Definition polar_hash_idx_get_bufftag_list (r : XLogReaderState) : res tag_result :=
  let info := rec_info r in
  match hash_fixed_blocks info with
  | Some ids => Tags <$> put_blocks (zlen ids) r ids []
  | None =>
      if info =? XLOG_HASH_ADD_OVFL_PAGE then Tags <$> polar_hash_xlog_add_ovfl_page_get_bufftag_list r
      else if info =? XLOG_HASH_MOVE_PAGE_CONTENTS then Tags <$> polar_hash_xlog_move_page_contents_get_bufftag_list r
      else if info =? XLOG_HASH_SQUEEZE_PAGE then Tags <$> polar_hash_xlog_squeeze_page_get_bufftag_list r
      else if info =? XLOG_HASH_DELETE then Tags <$> polar_hash_xlog_delete_get_bufftag_list r
      else Err EPanic
  end.
