(* ===== verification/HashLayout.v ===== *)
(** * Blocks and buckets of a hash index

    How the pages of a hash index are laid out in its file: the bucket pages of
    a split point, then the overflow pages added while it was the last one,
    then the bucket pages of the next; and what a split does to that. *)

From S2P Require Import Prelude Mem Page PageAdd Buffer WalRecord HeapRedo Btree BtreeRedo Hash.

(** ** Split points *)

(** A property of a range of numbers, checked one by one. *)
Lemma check_range (P : Z → bool) lo n : forallb P (seqZ lo n) = true → ∀ i, lo ≤ i < lo + n → P i = true.
Proof. intros H i Hi. rewrite forallb_forall in H. apply H, list_elem_of_In, elem_of_seqZ. lia. Qed.

Abbreviation total := _hash_get_totalbuckets.

Lemma total_step s : 0 ≤ s < 97 → total s < total (s + 1).
Proof.
  intros Hs. apply Z.ltb_lt. apply (check_range (λ s, total s <? total (s + 1)) 0 97); [|done]. vm_compute. reflexivity.
Qed.

Lemma total_mono s t : 0 ≤ s → s ≤ t → t ≤ 97 → total s + (t - s) ≤ total t.
Proof.
  intros Hs Ht. revert t Ht. apply (Zlt_lower_bound_ind (λ t, t ≤ 97 → total s + (t - s) ≤ total t) s). intros t IH Ht Hmax. destruct (decide (t = s)) as [->|]; [lia|].
  specialize (IH (t - 1) ltac:(lia) ltac:(lia)). pose proof (total_step (t - 1) ltac:(lia)) as H. replace (t - 1 + 1) with t in H by lia. lia.
Qed.

Lemma total_bounds s : 0 ≤ s ≤ 97 → 1 ≤ total s ≤ 2 ^ 31.
Proof.
  intros Hs. pose proof (total_mono 0 s ltac:(lia) ltac:(lia) ltac:(lia)) as H1. pose proof (total_mono s 97 ltac:(lia) ltac:(lia) ltac:(lia)) as H2.
  change (total 0) with 1 in H1. change (total 97) with (2 ^ 31) in H2. lia.
Qed.

(** The [k]-th phase of a group ends at [(5 + k)] quarters of half the group. *)
Lemma total_phase g k : 10 ≤ g ≤ 31 → 0 ≤ k ≤ 3 →
  total (10 + 4 * (g - 10) + k) = 2 ^ (g - 3) * (5 + k) ∧ total (10 + 4 * (g - 10) + k - 1) = 2 ^ (g - 3) * (4 + k).
Proof.
  intros Hg Hk.
  pose proof (check_range (λ g, forallb (λ k, (total (10 + 4 * (g - 10) + k) =? 2 ^ (g - 3) * (5 + k)) &&
    (total (10 + 4 * (g - 10) + k - 1) =? 2 ^ (g - 3) * (4 + k))) (seqZ 0 4)) 10 22 ltac:(vm_compute; reflexivity) g ltac:(lia)) as H.
  cbv beta in H. pose proof (check_range _ 0 4 H k ltac:(lia)) as H'. cbv beta in H'. apply andb_true_iff in H'. rewrite !Z.eqb_eq in H'. done.
Qed.

Lemma total_small s : 0 ≤ s ≤ 9 → total s = 2 ^ s.
Proof. intros Hs. apply Z.eqb_eq. apply (check_range (λ s, total s =? 2 ^ s) 0 10); [vm_compute; reflexivity|lia]. Qed.

Lemma ceil_log2_spec n : 2 ≤ n → let g := pg_ceil_log2_32 n in 1 ≤ g ∧ 2 ^ (g - 1) < n ≤ 2 ^ g.
Proof.
  intros Hn. unfold pg_ceil_log2_32, pg_leftmost_one_pos32. destruct (Z.ltb_spec n 2); [lia|]. cbv zeta.
  pose proof (Z.log2_spec (n - 1) ltac:(lia)) as H1. pose proof (Z.log2_nonneg (n - 1)). replace (Z.log2 (n - 1) + 1 - 1) with (Z.log2 (n - 1)) by lia.
  unfold Z.succ in H1. lia.
Qed.

(** [_hash_spareindex] is the split point that has the [n]-th bucket. *)
Lemma spareindex_spec n : 2 ≤ n ≤ 2 ^ 31 →
  let s := _hash_spareindex n in 1 ≤ s ≤ 97 ∧ total (s - 1) < n ≤ total s.
Proof.
  intros Hn. destruct (ceil_log2_spec n ltac:(lia)) as [Hg Hr]. unfold _hash_spareindex. cbv zeta. set (g := pg_ceil_log2_32 n) in *. clearbody g.
  assert (g ≤ 31). { destruct (decide (g ≤ 31)); [done|]. pose proof (Z.pow_le_mono_r 2 31 (g - 1) ltac:(lia) ltac:(lia)). lia. }
  unfold HASH_SPLITPOINT_GROUPS_WITH_ONE_PHASE, HASH_SPLITPOINT_PHASE_BITS, HASH_SPLITPOINT_PHASE_MASK.
  destruct (Z.ltb_spec g 10). { rewrite !total_small by lia. lia. }
  set (q := Z.shiftr (n - 1) (g - (2 + 1))). assert (Hq : 2 ^ (g - 3) * q ≤ n - 1 < 2 ^ (g - 3) * (q + 1)).
  { unfold q. rewrite Z.shiftr_div_pow2 by lia. replace (g - (2 + 1)) with (g - 3) by lia. pose proof (Z.pow_pos_nonneg 2 (g - 3) ltac:(lia) ltac:(lia)).
    pose proof (Z.div_mod (n - 1) (2 ^ (g - 3)) ltac:(lia)). pose proof (Z.mod_pos_bound (n - 1) (2 ^ (g - 3)) ltac:(lia)). nia. }
  assert (Hp : 2 ^ (g - 1) = 4 * 2 ^ (g - 3) ∧ 2 ^ g = 8 * 2 ^ (g - 3)).
  { change 4 with (2 ^ 2). change 8 with (2 ^ 3). rewrite <-!Z.pow_add_r by lia. split; f_equal; lia. }
  assert (4 ≤ q < 8) as Hq4 by nia. assert (Z.land q 3 = q - 4) as ->.
  { change 3 with (Z.ones 2). rewrite Z.land_ones by lia. change (2 ^ 2) with 4. symmetry. apply (Z.mod_unique_pos _ _ 1); lia. }
  rewrite Z.shiftl_mul_pow2 by lia. change (2 ^ 2) with 4.
  destruct (total_phase g (q - 4) ltac:(lia) ltac:(lia)) as [E1 E2]. replace (10 + (g - 10) * 4 + (q - 4)) with (10 + 4 * (g - 10) + (q - 4)) by lia.
  rewrite E1, E2. split; [lia|]. nia.
Qed.

Lemma spareindex_unique n s : 2 ≤ n ≤ 2 ^ 31 → 1 ≤ s ≤ 97 → total (s - 1) < n ≤ total s → _hash_spareindex n = s.
Proof.
  intros Hn Hs Ht. destruct (spareindex_spec n Hn) as [Hi Hj]. set (t := _hash_spareindex n) in *. clearbody t.
  destruct (Z.lt_trichotomy s t) as [H|[H|H]]; [|done|].
  - pose proof (total_mono s (t - 1) ltac:(lia) ltac:(lia) ltac:(lia)). lia.
  - pose proof (total_mono t (s - 1) ltac:(lia) ltac:(lia) ltac:(lia)). lia.
Qed.

(** ** The layout of the file *)

(** The number of overflow pages added up to a split point. *)
Definition spare (m : HashMetaPageData) (i : Z) : Z := nth (Z.to_nat i) (hashm_spares m) 0.

(** The meta page of a sound index: the buckets in use are those of split points
    up to [hashm_ovflpoint]; the counts of overflow pages do not decrease, and
    all pages have block numbers. *)
Record layout_ok (m : HashMetaPageData) : Prop := {
  lo_len : zlen (hashm_spares m) = HASH_MAX_SPLITPOINTS;
  lo_point : 1 ≤ hashm_ovflpoint m ≤ 97;
  lo_bucket : 1 ≤ hashm_maxbucket m ∧ total (hashm_ovflpoint m - 1) < hashm_maxbucket m + 1 ≤ total (hashm_ovflpoint m);
  lo_zero : spare m 0 = 0;
  lo_mono : ∀ i, 0 ≤ i < hashm_ovflpoint m → spare m i ≤ spare m (i + 1);
  lo_fits : total (hashm_ovflpoint m) + spare m (hashm_ovflpoint m) < InvalidBlockNumber }.

Section layout.
Context (m : HashMetaPageData) (Hm : layout_ok m).

Lemma spares_at_ok i : 0 ≤ i ≤ 97 → spares_at m i = Ok (spare m i).
Proof using Hm.
intros Hi. unfold spares_at, spare. destruct (Z.leb_spec 0 i); [|lia]. pose proof (lo_len _ Hm) as Hl. unfold zlen, HASH_MAX_SPLITPOINTS in Hl.
destruct (lookup_lt_is_Some_2 (hashm_spares m) (Z.to_nat i) ltac:(lia)) as [v Hv]. rewrite Hv. f_equal. symmetry. by apply nth_lookup_Some.
Qed.

Lemma spare_mono i j : 0 ≤ i → i ≤ j → j ≤ hashm_ovflpoint m → spare m i ≤ spare m j.
Proof using Hm.
intros Hi Hj. revert j Hj. apply (Zlt_lower_bound_ind (λ j, j ≤ hashm_ovflpoint m → spare m i ≤ spare m j) i). intros j IH Hj Hmax.
destruct (decide (j = i)) as [->|]; [lia|]. specialize (IH (j - 1) ltac:(lia) ltac:(lia)).
pose proof (lo_mono _ Hm (j - 1) ltac:(lia)) as H. replace (j - 1 + 1) with j in H by lia. lia.
Qed.

Lemma spare_bounds i : 0 ≤ i ≤ hashm_ovflpoint m → 0 ≤ spare m i ≤ spare m (hashm_ovflpoint m).
Proof using Hm. intros Hi. rewrite <-(lo_zero _ Hm) at 1. split; apply spare_mono; lia. Qed.

(** The split point a bucket was allocated for, and its block. *)
Lemma bucket_phase b : 1 ≤ b ≤ hashm_maxbucket m → u32 (b + 1) = b + 1 ∧
1 ≤ _hash_spareindex (b + 1) ≤ hashm_ovflpoint m ∧ total (_hash_spareindex (b + 1) - 1) < b + 1 ≤ total (_hash_spareindex (b + 1)).
Proof using Hm.
intros Hb. pose proof (lo_bucket _ Hm) as Hmb. pose proof (lo_point _ Hm) as Hp. pose proof (total_bounds (hashm_ovflpoint m) ltac:(lia)) as Ht.
split; [unfold u32; rewrite Z.mod_small by lia; done|]. destruct (spareindex_spec (b + 1) ltac:(lia)) as [Hs Hr]. split; [|done]. split; [lia|].
set (s := _hash_spareindex (b + 1)) in *. clearbody s. destruct (decide (s ≤ hashm_ovflpoint m)); [done|].
pose proof (total_mono (hashm_ovflpoint m) (s - 1) ltac:(lia) ltac:(lia) ltac:(lia)). lia.
Qed.

Lemma bucket_block b : 0 ≤ b ≤ hashm_maxbucket m →
∃ s, 0 ≤ s ≤ hashm_ovflpoint m ∧ (b = 0 ∧ s = 0 ∨ 1 ≤ s ∧ total (s - 1) ≤ b) ∧ b < total s ∧
BUCKET_TO_BLKNO m b = Ok (b + spare m (Z.max 0 (s - 1)) + 1).
Proof using Hm.
intros Hb. pose proof (lo_bucket _ Hm) as Hmb. pose proof (lo_point _ Hm) as Hp. pose proof (lo_fits _ Hm) as Hf. unfold InvalidBlockNumber in Hf.
unfold BUCKET_TO_BLKNO. destruct (Z.eqb_spec b 0) as [->|Hne].
{ exists 0. split; [lia|]. split; [by left|]. split; [done|]. cbn [mbind res_bind]. change (Z.max 0 (0 - 1)) with 0. rewrite (lo_zero _ Hm). done. }
destruct (bucket_phase b ltac:(lia)) as (-> & Hs & Hr). set (s := _hash_spareindex (b + 1)) in *. clearbody s.
exists s. split; [lia|]. split; [right; lia|]. split; [lia|]. rewrite spares_at_ok by lia. cbn [mbind res_bind].
replace (Z.max 0 (s - 1)) with (s - 1) by lia. pose proof (spare_bounds (s - 1) ltac:(lia)).
unfold u32. rewrite !Z.mod_small by (rewrite ?Z.mod_small; lia). done.
Qed.

Lemma spare_unique n s t : 1 ≤ s ≤ hashm_ovflpoint m → 1 ≤ t ≤ hashm_ovflpoint m → spare m (s - 1) < n ≤ spare m s → spare m (t - 1) < n ≤ spare m t → s = t.
Proof using Hm.
intros Hs Ht H1 H2. destruct (Z.lt_trichotomy s t) as [H|[H|H]]; [|done|].
- pose proof (spare_mono s (t - 1) ltac:(lia) ltac:(lia) ltac:(lia)). lia.
- pose proof (spare_mono t (s - 1) ltac:(lia) ltac:(lia) ltac:(lia)). lia.
Qed.

(** The split point of an overflow page is the first one with enough pages. *)
Lemma find_split_spec n k i : 1 ≤ i ≤ hashm_ovflpoint m → Z.of_nat k = hashm_ovflpoint m - i → spare m (i - 1) < n ≤ spare m (hashm_ovflpoint m) →
∃ j, find_split k m (hashm_ovflpoint m) n i = Ok j ∧ i ≤ j ≤ hashm_ovflpoint m ∧ spare m (j - 1) < n ≤ spare m j.
Proof using Hm.
pose proof (lo_point _ Hm) as Hp. revert i. induction k as [|k IH]; intros i Hi Hk Hn; cbn [find_split].
{ exists i. replace i with (hashm_ovflpoint m) in * by lia. done. }
destruct (Z.ltb_spec i (hashm_ovflpoint m)); [|lia]. rewrite spares_at_ok by lia. cbn [mbind res_bind].
destruct (Z.ltb_spec (spare m i) n) as [Hlt|Hge]; [|exists i; split; [done|lia]].
destruct (IH (i + 1)) as (j & Hj & Hr & Hs); [lia|lia|replace (i + 1 - 1) with i by lia; lia|]. exists j. split; [done|]. split; [lia|done].
Qed.

Lemma overflow_block i : 0 ≤ i < spare m (hashm_ovflpoint m) →
∃ s, 1 ≤ s ≤ hashm_ovflpoint m ∧ spare m (s - 1) < i + 1 ≤ spare m s ∧ bitno_to_blkno m i = Ok (total s + (i + 1)).
Proof using Hm.
intros Hi. pose proof (lo_point _ Hm) as Hp. pose proof (lo_fits _ Hm) as Hf. unfold InvalidBlockNumber in Hf. pose proof (total_bounds (hashm_ovflpoint m) ltac:(lia)).
unfold bitno_to_blkno. assert (u32 (i + 1) = i + 1) as -> by (unfold u32; rewrite Z.mod_small by lia; done).
destruct (find_split_spec (i + 1) (Z.to_nat (hashm_ovflpoint m - 1)) 1) as (s & -> & Hs & Hr); [lia|lia| |].
{ change (1 - 1) with 0. rewrite (lo_zero _ Hm). lia. }
exists s. split; [lia|]. split; [done|]. cbn [mbind res_bind]. pose proof (total_mono s (hashm_ovflpoint m) ltac:(lia) ltac:(lia) ltac:(lia)).
pose proof (spare_bounds s ltac:(lia)). pose proof (total_bounds s ltac:(lia)). unfold u32. rewrite Z.mod_small by lia. done.
Qed.

(** The search in the other direction passes the split points before, and finds
the page of its own. *)
Lemma find_bitno_pass k i blk : 1 ≤ i ≤ hashm_ovflpoint m → total i < blk < 2 ^ 32 →
blk - total i ≤ spare m (i - 1) ∨ spare m i < blk - total i → find_bitno (S k) m blk i = find_bitno k m blk (i + 1).
Proof using Hm.
intros Hi Ht Hout. pose proof (lo_point _ Hm). pose proof (total_bounds i ltac:(lia)). cbn [find_bitno]. destruct (Z.leb_spec blk (total i)); [lia|].
assert (u32 (blk - total i) = blk - total i) as -> by (unfold u32; rewrite Z.mod_small by lia; done).
rewrite !spares_at_ok by lia. cbn [mbind res_bind]. destruct (Z.ltb_spec (spare m (i - 1)) (blk - total i)); cbn [mbind res_bind]; [|done].
destruct (Z.leb_spec (blk - total i) (spare m i)); [lia|done].
Qed.

Lemma find_bitno_hit k s n i : 1 ≤ i ≤ s → s ≤ hashm_ovflpoint m → spare m (s - 1) < n ≤ spare m s → Z.of_nat k = hashm_ovflpoint m - i + 1 →
find_bitno k m (total s + n) i = Ok (n - 1).
Proof using Hm.
intros Hi Hs Hn. pose proof (lo_point _ Hm). pose proof (lo_fits _ Hm) as Hf. unfold InvalidBlockNumber in Hf. pose proof (total_bounds s ltac:(lia)). pose proof (spare_bounds s ltac:(lia)).
pose proof (total_mono s (hashm_ovflpoint m) ltac:(lia) ltac:(lia) ltac:(lia)). pose proof (spare_bounds (s - 1) ltac:(lia)).
revert i Hi. induction k as [|k IH]; intros i Hi Hk; [lia|]. destruct (decide (i = s)) as [->|Hne].
- cbn [find_bitno]. destruct (Z.leb_spec (total s + n) (total s)); [lia|].
assert (u32 (total s + n - total s) = n) as -> by (unfold u32; rewrite Z.mod_small by lia; lia).
rewrite !spares_at_ok by lia. cbn [mbind res_bind]. destruct (Z.ltb_spec (spare m (s - 1)) n); [|lia]. cbn [mbind res_bind].
destruct (Z.leb_spec n (spare m s)); [done|lia].
- pose proof (total_mono i s ltac:(lia) ltac:(lia) ltac:(lia)). pose proof (spare_mono i (s - 1) ltac:(lia) ltac:(lia) ltac:(lia)).
rewrite find_bitno_pass; [apply IH; lia|lia|lia|right; lia].
Qed.

(** A block of a bucket is not the block of any overflow page. *)
Lemma find_bitno_miss k s blk i : 0 ≤ s ≤ hashm_ovflpoint m → 1 ≤ i → (1 ≤ s → total (s - 1) + spare m (s - 1) < blk) →
0 ≤ blk ≤ total s + spare m (Z.max 0 (s - 1)) → Z.of_nat k = Z.max 0 (hashm_ovflpoint m - i + 1) → find_bitno k m blk i = Err EError.
Proof using Hm.
intros Hs Hi0 Hlo Hhi. pose proof (lo_point _ Hm). pose proof (lo_fits _ Hm) as Hf. unfold InvalidBlockNumber in Hf.
revert i Hi0. induction k as [|k IH]; intros i Hi Hk; [done|]. assert (i ≤ hashm_ovflpoint m) by lia.
destruct (decide (blk ≤ total i)) as [Hle|Hgt]; [cbn [find_bitno]; by rewrite (proj2 (Z.leb_le _ _) Hle)|].
pose proof (total_mono s (hashm_ovflpoint m) ltac:(lia) ltac:(lia) ltac:(lia)). pose proof (spare_bounds (Z.max 0 (s - 1)) ltac:(lia)).
pose proof (total_bounds i ltac:(lia)). rewrite find_bitno_pass; [apply IH; lia|lia|lia|].
destruct (decide (i < s)).
- right. pose proof (total_mono i (s - 1) ltac:(lia) ltac:(lia) ltac:(lia)). pose proof (spare_mono i (s - 1) ltac:(lia) ltac:(lia) ltac:(lia)). lia.
- left. pose proof (total_mono s i ltac:(lia) ltac:(lia) ltac:(lia)). pose proof (spare_mono (Z.max 0 (s - 1)) (i - 1) ltac:(lia) ltac:(lia) ltac:(lia)). lia.
Qed.
End layout.

(** ** The bucket of a key *)

(** The masks select a power of two that covers the buckets, and its half. *)
Definition masks_ok (m : HashMetaPageData) : Prop :=
  ∃ k, 1 ≤ k ≤ 31 ∧ hashm_highmask m = 2 ^ k - 1 ∧ hashm_lowmask m = 2 ^ (k - 1) - 1 ∧
    hashm_lowmask m ≤ hashm_maxbucket m ≤ hashm_highmask m.

Definition key_bucket (m : HashMetaPageData) (key : Z) : Z :=
  _hash_hashkey2bucket key (hashm_maxbucket m) (hashm_highmask m) (hashm_lowmask m).

Lemma land_mask x k : 0 ≤ k → Z.land x (2 ^ k - 1) = x mod 2 ^ k.
Proof. intros Hk. replace (2 ^ k - 1) with (Z.ones k) by (rewrite Z.ones_equiv; lia). by apply Z.land_ones. Qed.

Lemma land_low x k : 0 ≤ k → Z.land (x mod 2 ^ k) (2 ^ k) = 0.
Proof.
  intros Hk. rewrite <-Z.land_ones by done. apply Z.bits_inj'. intros n Hn. rewrite !Z.land_spec, Z.bits_0, Z.testbit_ones, Z.pow2_bits_eqb by lia.
  destruct (Z.eqb_spec k n); [|by rewrite andb_false_r]. destruct (Z.ltb_spec n k); [lia|]. by rewrite !andb_false_r.
Qed.

Lemma mod_half x k : 1 ≤ k → x mod 2 ^ k = x mod 2 ^ (k - 1) ∨ x mod 2 ^ k = x mod 2 ^ (k - 1) + 2 ^ (k - 1).
Proof.
  intros Hk. assert (E : 2 ^ k = 2 ^ (k - 1) * 2) by (replace k with (k - 1 + 1) at 1 by lia; rewrite Z.pow_add_r by lia; lia).
  assert (0 < 2 ^ (k - 1)) by (apply Z.pow_pos_nonneg; lia). rewrite E, Z.rem_mul_r by lia.
  pose proof (Z.mod_pos_bound (x / 2 ^ (k - 1)) 2 ltac:(lia)). assert (x / 2 ^ (k - 1) mod 2 = 0 ∨ x / 2 ^ (k - 1) mod 2 = 1) as [-> | ->] by lia; [left|right]; lia.
Qed.

Lemma mod_mod_half x k : 1 ≤ k → (x mod 2 ^ k) mod 2 ^ (k - 1) = x mod 2 ^ (k - 1).
Proof.
  intros Hk. assert (E : 2 ^ k = 2 ^ (k - 1) * 2) by (replace k with (k - 1 + 1) at 1 by lia; rewrite Z.pow_add_r by lia; lia).
  assert (0 < 2 ^ (k - 1)) by (apply Z.pow_pos_nonneg; lia). rewrite E, Z.rem_mul_r by lia. rewrite Z.mul_comm, Z.mod_add by lia. by apply Z.mod_mod; lia.
Qed.

Lemma key_bucket_eq m k key : 1 ≤ k → hashm_highmask m = 2 ^ k - 1 → hashm_lowmask m = 2 ^ (k - 1) - 1 →
  key_bucket m key = if hashm_maxbucket m <? key mod 2 ^ k then key mod 2 ^ (k - 1) else key mod 2 ^ k.
Proof.
  intros Hk Eh El. unfold key_bucket, _hash_hashkey2bucket. rewrite Eh, El, land_mask by lia. rewrite land_mask, mod_mod_half by lia. done.
Qed.

(** Every key has a bucket that is in use. *)
Lemma key_bucket_range m key : masks_ok m → 0 ≤ key_bucket m key ≤ hashm_maxbucket m.
Proof.
  intros (k & Hk & Eh & El & Hr). rewrite (key_bucket_eq m k key) by (done || lia).
  assert (0 < 2 ^ (k - 1) ∧ 0 < 2 ^ k) as [? ?] by (split; apply Z.pow_pos_nonneg; lia).
  pose proof (Z.mod_pos_bound key (2 ^ k) ltac:(lia)). pose proof (Z.mod_pos_bound key (2 ^ (k - 1)) ltac:(lia)).
  destruct (Z.ltb_spec (hashm_maxbucket m) (key mod 2 ^ k)); lia.
Qed.

(** ** A split *)

Section expand.
Context (m : HashMetaPageData) (Hm : layout_ok m) (Hk : masks_ok m) (Hmax : hashm_maxbucket m < 0x7FFFFFFE).
Let new := hashm_maxbucket m + 1.
Let old := Z.land new (hashm_lowmask m).

Lemma new_u32 : u32 (hashm_maxbucket m + 1) = new ∧ u32 (new + 1) = new + 1.
Proof using Hm Hmax. pose proof (lo_bucket _ Hm). unfold u32, new in *. rewrite !Z.mod_small by lia. done. Qed.

(** The new bucket is in the last split point or starts the next one. *)
Lemma new_split : let s := _hash_spareindex (new + 1) in
new + 1 ≤ total (hashm_ovflpoint m) ∧ s = hashm_ovflpoint m ∨
new = total (hashm_ovflpoint m) ∧ s = hashm_ovflpoint m + 1 ∧ hashm_ovflpoint m < 97.
Proof using Hm Hmax.
cbv zeta. pose proof (lo_bucket _ Hm) as Hb. pose proof (lo_point _ Hm) as Hp. fold new in Hb.
destruct (decide (new + 1 ≤ total (hashm_ovflpoint m))); [left; split; [done|]; apply spareindex_unique; unfold new in *; lia|right].
assert (hashm_ovflpoint m < 97).
{ destruct (decide (hashm_ovflpoint m = 97)) as [E|]; [|lia]. rewrite E in *. change (total 97) with (2 ^ 31) in *. unfold new in *. lia. }
split; [lia|]. split; [|done]. pose proof (total_step (hashm_ovflpoint m) ltac:(lia)).
apply spareindex_unique; [unfold new in *; lia|lia|]. replace (hashm_ovflpoint m + 1 - 1) with (hashm_ovflpoint m) by lia. lia.
Qed.

(** The block of the new bucket, before the meta page is changed. *)
Lemma new_block : BUCKET_TO_BLKNO m new = Ok (new + spare m (_hash_spareindex (new + 1) - 1) + 1).
Proof using Hm Hmax.
pose proof (lo_bucket _ Hm) as Hb. pose proof (lo_point _ Hm) as Hp. pose proof (lo_fits _ Hm) as Hf. unfold InvalidBlockNumber in Hf. fold new in Hb.
unfold BUCKET_TO_BLKNO. destruct (Z.eqb_spec new 0); [unfold new in *; lia|]. rewrite (proj2 new_u32).
set (s := _hash_spareindex (new + 1)) in *. assert (Hs : s - 1 ≤ hashm_ovflpoint m ∧ 1 ≤ s) by (destruct new_split as [[? E]|(? & E & ?)]; fold s in E; lia).
rewrite (spares_at_ok m Hm) by lia. cbn [mbind res_bind]. pose proof (spare_bounds m Hm (s - 1) ltac:(lia)). unfold u32. rewrite !Z.mod_small; [done|..]; rewrite ?Z.mod_small; unfold new in *; lia.
Qed.

Let m' (masks : bool) (s : Z) (spares : list Z) : HashMetaPageData :=
let lowmask := if masks then hashm_highmask m else hashm_lowmask m in
with_split m new (if masks then Z.lor new lowmask else hashm_highmask m) lowmask s spares.

Lemma expand_meta_spec : ∃ s spares b, expand_meta m = Ok (m' (hashm_highmask m <? new) s spares, hashm_highmask m <? new, b) ∧
(b = false ∧ s = hashm_ovflpoint m ∧ spares = hashm_spares m ∧ new + 1 ≤ total s ∨
b = true ∧ s = hashm_ovflpoint m + 1 ∧ spares = <[Z.to_nat s := spare m (hashm_ovflpoint m)]> (hashm_spares m) ∧ new = total (hashm_ovflpoint m) ∧ s ≤ 97).
Proof using Hm Hmax.
unfold expand_meta. destruct new_u32 as [-> ->]. pose proof (lo_point _ Hm). pose proof (lo_len _ Hm) as Hl. unfold HASH_MAX_SPLITPOINTS in Hl.
destruct new_split as [[Hn ->]|(Hn & -> & Hlt)].
- rewrite Z.ltb_irrefl. eexists _, _, _. split; [reflexivity|]. by left.
- destruct (Z.ltb_spec (hashm_ovflpoint m) (hashm_ovflpoint m + 1)); [|lia]. rewrite (spares_at_ok m Hm) by lia. cbn [mbind res_bind].
destruct (Z.ltb_spec (hashm_ovflpoint m + 1) (zlen (hashm_spares m))); [|lia].
eexists _, _, _. split; [reflexivity|]. right. split_and!; [done..|lia].
Qed.

(** The masks cover the new bucket, and only the keys of the old bucket move. *)
Lemma expand_masks s spares : masks_ok (m' (hashm_highmask m <? new) s spares) ∧
∀ key, key_bucket (m' (hashm_highmask m <? new) s spares) key = key_bucket m key ∨
key_bucket m key = old ∧ key_bucket (m' (hashm_highmask m <? new) s spares) key = new.
Proof using Hk Hmax.
destruct Hk as (k & Hkr & Eh & El & Hr). assert (0 < 2 ^ (k - 1) ∧ 0 < 2 ^ k) as [? ?] by (split; apply Z.pow_pos_nonneg; lia).
assert (E2 : 2 ^ k = 2 * 2 ^ (k - 1)) by (replace k with (1 + (k - 1)) at 1 by lia; rewrite Z.pow_add_r by lia; done).
unfold m', old. destruct (Z.ltb_spec (hashm_highmask m) new) as [Hgt|Hle]; cbn [with_split hashm_maxbucket hashm_highmask hashm_lowmask].
- assert (En : new = 2 ^ k) by (unfold new in *; lia). assert (k < 31) by (apply (Z.pow_lt_mono_r_iff 2); unfold new in *; lia).
assert (E3 : 2 ^ (k + 1) = 2 * 2 ^ k) by (rewrite Z.pow_add_r by lia; lia).
assert (Elor : Z.lor new (hashm_highmask m) = 2 ^ (k + 1) - 1).
{ rewrite Eh, En. replace (2 ^ k - 1) with (Z.ones k) by (rewrite Z.ones_equiv; lia).
rewrite <-Z.lxor_lor, <-Z.add_nocarry_lxor by (rewrite Z.land_ones by lia; apply Z.mod_same; lia). rewrite Z.ones_equiv. lia. }
split; [exists (k + 1); cbn [with_split hashm_maxbucket hashm_highmask hashm_lowmask]; replace (k + 1 - 1) with k by lia; split_and!; lia|].
intros key. rewrite (key_bucket_eq m k) by (done || lia). rewrite (key_bucket_eq _ (k + 1)); cbn [with_split hashm_maxbucket hashm_highmask hashm_lowmask]; [|lia|lia|replace (k + 1 - 1) with k by lia; lia].
replace (k + 1 - 1) with k by lia. pose proof (Z.mod_pos_bound key (2 ^ k) ltac:(lia)). pose proof (Z.mod_pos_bound key (2 ^ (k + 1)) ltac:(lia)).
destruct (Z.ltb_spec (hashm_maxbucket m) (key mod 2 ^ k)); [unfold new in *; lia|].
destruct (Z.ltb_spec new (key mod 2 ^ (k + 1))); [by left|]. destruct (mod_half key (k + 1) ltac:(lia)) as [E|E]; replace (k + 1 - 1) with k in E by lia; [by left|right].
assert (key mod 2 ^ k = 0) as -> by lia. split; [|lia]. rewrite El, land_mask, En, E2 by lia. rewrite Z.mod_mul by lia. done.
- split; [exists k; cbn [with_split hashm_maxbucket hashm_highmask hashm_lowmask]; unfold new in *; split_and!; lia|]. intros key. rewrite !(key_bucket_eq _ k) by (done || lia).
cbn [with_split hashm_maxbucket hashm_highmask hashm_lowmask]. pose proof (Z.mod_pos_bound key (2 ^ k) ltac:(lia)).
destruct (Z.ltb_spec (hashm_maxbucket m) (key mod 2 ^ k)), (Z.ltb_spec new (key mod 2 ^ k)); try (by left); [|unfold new in *; lia]. right.
assert (key mod 2 ^ k = new) as E by (unfold new in *; lia). rewrite El, land_mask by lia. rewrite <-E at 1. rewrite mod_mod_half by lia. done.
Qed.

(** The old bucket, from the number of the new one; and back. *)
Lemma expand_old s spares : old_bucket_of new = old ∧
_hash_get_newbucket_from_oldbucket old (hashm_lowmask (m' (hashm_highmask m <? new) s spares)) new = new.
Proof using Hk Hmax.
destruct Hk as (k & Hkr & Eh & El & Hr). assert (0 < 2 ^ (k - 1) ∧ 0 < 2 ^ k) as [? ?] by (split; apply Z.pow_pos_nonneg; lia).
assert (E2 : 2 ^ k = 2 * 2 ^ (k - 1)) by (replace k with (1 + (k - 1)) at 1 by lia; rewrite Z.pow_add_r by lia; done).
assert (Hk32 : 2 ^ k ≤ 2 ^ 31) by (apply Z.pow_le_mono_r; lia).
unfold old_bucket_of, fls, _hash_get_newbucket_from_oldbucket, CALC_NEW_BUCKET. destruct (Z.eqb_spec new 0); [unfold new in *; lia|].
replace (Z.log2 new + 1 - 1) with (Z.log2 new) by lia. rewrite Z.shiftl_1_l.
unfold m', old. destruct (Z.ltb_spec (hashm_highmask m) new) as [Hgt|Hle]; cbn [with_split hashm_lowmask]; rewrite ?El, ?Eh, ?land_mask by lia.
- assert (En : new = 2 ^ k) by (unfold new in *; lia). rewrite En, Z.log2_pow2 by lia. replace (2 ^ k - 1 + 1) with (2 ^ k) by lia.
unfold u32. rewrite !(Z.mod_small _ (2 ^ 32)) by lia. rewrite land_mask, Z.mod_same by lia. rewrite E2, Z.mod_mul, Z.lor_0_l, Z.ltb_irrefl by lia. done.
- assert (Z.log2 new = k - 1) as -> by (apply Z.log2_unique; [lia|]; unfold Z.succ; replace (k - 1 + 1) with k by lia; unfold new in *; lia).
replace (2 ^ (k - 1) - 1 + 1) with (2 ^ (k - 1)) by lia. unfold u32. rewrite !(Z.mod_small _ (2 ^ 32)) by lia. rewrite land_mask by lia.
split; [done|]. assert (Hn : new = new mod 2 ^ (k - 1) + 2 ^ (k - 1)).
{ pose proof (Z.mod_unique_pos new (2 ^ (k - 1)) 1 (new - 2 ^ (k - 1))). unfold new in *. lia. }
assert (Z.lor (new mod 2 ^ (k - 1)) (2 ^ (k - 1)) = new) as ->; [|by rewrite Z.ltb_irrefl].
rewrite <-Z.lxor_lor, <-Z.add_nocarry_lxor by (apply land_low; lia). lia.
Qed.

(** The counts after the split. *)
Context (s : Z) (spares : list Z) (masks b : bool).
Context (Hs : b = false ∧ s = hashm_ovflpoint m ∧ spares = hashm_spares m ∧ new + 1 ≤ total s ∨
b = true ∧ s = hashm_ovflpoint m + 1 ∧ spares = <[Z.to_nat s := spare m (hashm_ovflpoint m)]> (hashm_spares m) ∧ new = total (hashm_ovflpoint m) ∧ s ≤ 97).
Let mm := m' masks s spares.

Lemma spare_kept i : 0 ≤ i ≤ hashm_ovflpoint m → spare mm i = spare m i.
Proof using Hs.
intros Hi. unfold spare, mm, m'. cbn [with_split hashm_spares]. destruct Hs as [(_ & _ & -> & _)|(_ & Es & -> & _)]; [done|].
rewrite !nth_lookup. rewrite list_lookup_insert_ne by lia. done.
Qed.

Lemma spare_last : spare mm s = spare m (hashm_ovflpoint m).
Proof using Hm Hs.
pose proof (lo_len _ Hm) as Hl. unfold zlen, HASH_MAX_SPLITPOINTS in Hl. pose proof (lo_point _ Hm).
destruct Hs as [(_ & Es & _)|(_ & Es & Esp & _ & Hmx)]; [rewrite Es; apply spare_kept; lia|].
unfold spare at 1, mm, m'. cbn [with_split hashm_spares]. rewrite Esp, nth_lookup, list_lookup_insert_eq by lia. done.
Qed.

Lemma expand_layout : (b = true → total s + spare m (hashm_ovflpoint m) < InvalidBlockNumber) → layout_ok mm.
Proof using Hm Hs.
intros Hfit. pose proof (lo_point _ Hm). pose proof (lo_bucket _ Hm) as Hb. pose proof (lo_fits _ Hm). pose proof (lo_len _ Hm).
constructor; cbn [mm m' with_split hashm_ovflpoint hashm_maxbucket hashm_spares].
- destruct Hs as [(_ & _ & -> & _)|(_ & _ & -> & _)]; [done|]. unfold zlen in *. by rewrite length_insert.
- destruct Hs as [(_ & -> & _)|(_ & -> & _ & _ & ?)]; lia.
- split; [unfold new; lia|]. destruct Hs as [(_ & Es & _ & ?)|(_ & Es & _ & En & ?)]; [unfold new in *; rewrite Es in *; lia|].
rewrite Es. replace (hashm_ovflpoint m + 1 - 1) with (hashm_ovflpoint m) by lia. pose proof (total_step (hashm_ovflpoint m) ltac:(lia)). lia.
- rewrite spare_kept by lia. by apply lo_zero.
- intros i Hi. destruct (decide (i = hashm_ovflpoint m)) as [Ei|].
+ destruct Hs as [(_ & Es & _)|(_ & Es & _)]; [lia|]. replace (i + 1) with s by lia. rewrite spare_last, spare_kept, Ei by lia. done.
+ assert (i < hashm_ovflpoint m) by (destruct Hs as [(_ & -> & _)|(_ & -> & _)]; lia). rewrite !spare_kept by lia. apply lo_mono; [done|lia].
- rewrite spare_last. destruct Hs as [(_ & -> & _)|(Eb & _)]; [done|by apply Hfit].
Qed.

(** No page moves: buckets and overflow pages keep their blocks. *)
Lemma expand_bucket_blocks i : layout_ok mm → 0 ≤ i ≤ hashm_maxbucket m → BUCKET_TO_BLKNO mm i = BUCKET_TO_BLKNO m i.
Proof using Hm Hs.
intros Hl Hi. pose proof (lo_point _ Hm). unfold BUCKET_TO_BLKNO. destruct (Z.eqb_spec i 0); [done|].
destruct (bucket_phase m Hm i ltac:(lia)) as (-> & Hp & _). rewrite (spares_at_ok m Hm), (spares_at_ok mm Hl), spare_kept by lia. done.
Qed.

Lemma expand_overflow_blocks i : layout_ok mm → 0 ≤ i < spare m (hashm_ovflpoint m) → bitno_to_blkno mm i = bitno_to_blkno m i.
Proof using Hm Hs.
intros Hl Hi. assert (Hov : hashm_ovflpoint m ≤ s) by (destruct Hs as [(_ & -> & _)|(_ & -> & _)]; lia).
destruct (overflow_block m Hm i Hi) as (t & Ht & Hr & ->).
destruct (overflow_block mm Hl i) as (u & Hu & Hr' & ->); [cbn [mm m' with_split hashm_ovflpoint]; fold mm; rewrite spare_last; lia|].
cbn [mm m' with_split hashm_ovflpoint] in Hu. assert (u = t) as ->; [|done].
apply (spare_unique mm Hl (i + 1)); [done|cbn [mm m' with_split hashm_ovflpoint]; lia|done|rewrite !spare_kept by lia; done].
Qed.
End expand.

(** What the test of [_hash_alloc_buckets] guarantees. *)
Lemma alloc_fits_spec first n : 0 ≤ first < 2 ^ 32 → 1 ≤ n ≤ 2 ^ 31 → alloc_fits first n = true → first + n - 1 < InvalidBlockNumber.
Proof.
  intros Hf Hn. unfold alloc_fits, InvalidBlockNumber. rewrite negb_true_iff, orb_false_iff, Z.ltb_ge, Z.eqb_neq. unfold u32.
  destruct (decide (first + n - 1 < 2 ^ 32)); [rewrite Z.mod_small by lia; lia|].
  rewrite <-(Z_mod_plus_full (first + n - 1) (-1)), Z.mod_small by lia. lia.
Qed.
