(* ===== verification/HashMeta.v ===== *)
(** * The meta page of a hash index as bytes

    Writing a field of the meta page changes that field of [HashPageGetMeta]
    and no other. *)

From S2P Require Import Prelude Mem Page PageAdd Buffer WalRecord HeapRedo Btree BtreePage BtreeRedo Hash HashRedo HashLayout.

(** Rewriting the read of one field under the write of another. *)
Ltac meta_offsets :=
  unfold meta_magic, meta_version, meta_ntuples, meta_ffactor, meta_bsize, meta_bmsize, meta_bmshift, meta_maxbucket, meta_highmask,
    meta_lowmask, meta_ovflpoint, meta_firstfree, meta_nmaps, meta_procid, meta_mapp, meta_spares, HASH_MAX_SPLITPOINTS, HASH_MAX_BITMAPS in *;
  change PageGetContents with 24 in *.

Lemma meta_array_length p a n : 0 ≤ n → zlen (meta_array p a n) = n.
Proof. intros Hn. unfold meta_array, zlen. rewrite length_fmap, length_seqZ. lia. Qed.

Lemma meta_array_lookup p a n i : 0 ≤ i < n → meta_array p a n !! Z.to_nat i = Some (mget 4 p (PageGetContents + a + 4 * i)).
Proof. intros Hi. unfold meta_array. rewrite list_lookup_fmap, lookup_seqZ_lt by lia. cbn. do 3 f_equal. lia. Qed.

Lemma meta_array_out k p o v a n : 0 ≤ o → 0 ≤ a → o + Z.of_nat k ≤ PageGetContents + a ∨ PageGetContents + a + 4 * n ≤ o →
  meta_array (mput k p o v) a n = meta_array p a n.
Proof.
  intros Ho Ha Hd. unfold meta_array. apply list_fmap_ext. intros j i Hi%lookup_seqZ. change PageGetContents with 24 in *. rewrite mget_mput_disj by lia. done.
Qed.

Lemma meta_array_in p v a n i : zlen p = BLCKSZ → 0 ≤ a → PageGetContents + a + 4 * n ≤ BLCKSZ → 0 ≤ i < n →
  meta_array (mput 4 p (PageGetContents + a + 4 * i) v) a n = <[Z.to_nat i := u32 v]> (meta_array p a n).
Proof.
  intros Hp Ha Hn Hi. apply list_eq. intros j. destruct (decide ((j < Z.to_nat n)%nat)) as [Hj|Hj].
  - rewrite <-(Nat2Z.id j), meta_array_lookup by lia. change PageGetContents with 24 in *. destruct (decide (Z.of_nat j = i)) as [E|Hne].
    + rewrite E, list_lookup_insert_eq by (pose proof (meta_array_length p a n ltac:(lia)); unfold zlen in *; lia). unfold BLCKSZ in *. rewrite mget_mput_same by lia. done.
    + rewrite list_lookup_insert_ne, meta_array_lookup by lia. change PageGetContents with 24 in *. rewrite mget_mput_disj by lia. done.
  - rewrite !lookup_ge_None_2; [done|rewrite length_insert|]; pose proof (meta_array_length p a n ltac:(lia)) as H1;
      pose proof (meta_array_length (mput 4 p (PageGetContents + a + 4 * i) v) a n ltac:(lia)) as H2; unfold zlen in *; lia.
Qed.

(** ** Single fields *)

Section field.
Context (p : page) (Hp : zlen p = BLCKSZ).

Lemma meta_set_ok n o v : 0 ≤ o → o + Z.of_nat n ≤ sizeof_HashMetaPageData → meta_set n p o v = Ok (mput n p (PageGetContents + o) v).
Proof using Hp.
intros Ho Hn. unfold meta_set, store, sizeof_HashMetaPageData in *. change PageGetContents with 24. rewrite (proj2 (in_range_true _ _ _)); [done|].
rewrite zlen_le_bytes, Hp. unfold BLCKSZ. lia.
Qed.

Lemma elem_set_ok a n i v : 0 ≤ a → a + 4 * n ≤ sizeof_HashMetaPageData → 0 ≤ i < n → elem_set p a n i v = Ok (mput 4 p (PageGetContents + a + 4 * i) v).
Proof using Hp.
intros Ha Hn Hi. unfold elem_set. rewrite (proj2 (Z.leb_le _ _)), (proj2 (Z.ltb_lt _ _)) by lia. cbn [andb]. rewrite meta_set_ok by lia. do 2 f_equal. lia.
Qed.

(** The fields a split writes. *)
Ltac put_field := unfold HashPageGetMeta, with_split; cbn [hashm_magic hashm_version hashm_ntuples hashm_ffactor hashm_bsize hashm_bmsize hashm_bmshift
hashm_maxbucket hashm_highmask hashm_lowmask hashm_ovflpoint hashm_firstfree hashm_nmaps hashm_procid hashm_spares hashm_mapp];
meta_offsets; rewrite ?meta_array_out by (change PageGetContents with 24; lia); rewrite ?mget_mput_disj by lia;
rewrite ?mget_mput_same by (unfold BLCKSZ in *; lia); rewrite ?mget_mput_disj by lia; reflexivity.

Lemma put_maxbucket v : let m := HashPageGetMeta p in HashPageGetMeta (mput 4 p (PageGetContents + meta_maxbucket) v) =
with_split m (u32 v) (hashm_highmask m) (hashm_lowmask m) (hashm_ovflpoint m) (hashm_spares m).
Proof using Hp. put_field. Qed.
Lemma put_highmask v : let m := HashPageGetMeta p in HashPageGetMeta (mput 4 p (PageGetContents + meta_highmask) v) =
with_split m (hashm_maxbucket m) (u32 v) (hashm_lowmask m) (hashm_ovflpoint m) (hashm_spares m).
Proof using Hp. put_field. Qed.
Lemma put_lowmask v : let m := HashPageGetMeta p in HashPageGetMeta (mput 4 p (PageGetContents + meta_lowmask) v) =
with_split m (hashm_maxbucket m) (hashm_highmask m) (u32 v) (hashm_ovflpoint m) (hashm_spares m).
Proof using Hp. put_field. Qed.
Lemma put_ovflpoint v : let m := HashPageGetMeta p in HashPageGetMeta (mput 4 p (PageGetContents + meta_ovflpoint) v) =
with_split m (hashm_maxbucket m) (hashm_highmask m) (hashm_lowmask m) (u32 v) (hashm_spares m).
Proof using Hp. put_field. Qed.
Lemma put_spare i v : 0 ≤ i < HASH_MAX_SPLITPOINTS → let m := HashPageGetMeta p in
HashPageGetMeta (mput 4 p (PageGetContents + meta_spares + 4 * i) v) =
with_split m (hashm_maxbucket m) (hashm_highmask m) (hashm_lowmask m) (hashm_ovflpoint m) (<[Z.to_nat i := u32 v]> (hashm_spares m)).
Proof using Hp.
intros Hi. cbv zeta. unfold with_split. cbn [HashPageGetMeta hashm_spares]. rewrite <-(meta_array_in p v meta_spares HASH_MAX_SPLITPOINTS i) by done.
assert (Hmap : meta_array (mput 4 p (PageGetContents + meta_spares + 4 * i) v) meta_mapp HASH_MAX_BITMAPS = meta_array p meta_mapp HASH_MAX_BITMAPS).
{ apply meta_array_out; meta_offsets; lia. }
unfold HashPageGetMeta. rewrite Hmap. meta_offsets. rewrite !mget_mput_disj by lia. reflexivity.
Qed.
Lemma meta_lsn lsn : HashPageGetMeta (PageSetLSN p lsn) = HashPageGetMeta p.
Proof using. unfold PageSetLSN. put_field. Qed.
End field.

(** ** The data of a record *)

(** A field of serialised data, behind [pre]. *)
Lemma rd_field n pre v post : rd n (pre ++ le_bytes n v ++ post) (zlen pre) = Ok (v mod 256 ^ Z.of_nat n).
Proof.
  pose proof (zlen_nonneg pre). pose proof (zlen_nonneg post). rewrite rd_ok by (rewrite ?zlen_app, ?zlen_le_bytes; lia).
  unfold mget. rewrite <-(zlen_le_bytes n v) at 1. by rewrite mread_middle, le_val_bytes.
Qed.

Lemma rd_field_at n m pre v post o : m = pre ++ le_bytes n v ++ post → o = zlen pre → rd n m o = Ok (v mod 256 ^ Z.of_nat n).
Proof. intros -> ->. apply rd_field. Qed.

Lemma mod_256_u32 v : v mod 256 ^ Z.of_nat 4 = u32 v.
Proof. done. Qed.

Lemma u32_u32 v : u32 (u32 v) = u32 v.
Proof. apply Z.mod_mod. done. Qed.

Definition split_flags (masks splitpoint : bool) : Z :=
  (if masks then XLH_SPLIT_META_UPDATE_MASKS else 0) + (if splitpoint then XLH_SPLIT_META_UPDATE_SPLITPOINT else 0).

Lemma expand_main_fields m masks sp o n :
  rd 4 (expand_main m masks sp o n) 0 = Ok (u32 (hashm_maxbucket m)) ∧ rd 1 (expand_main m masks sp o n) 8 = Ok (split_flags masks sp) ∧
  has_flag (split_flags masks sp) XLH_SPLIT_META_UPDATE_MASKS = masks ∧ has_flag (split_flags masks sp) XLH_SPLIT_META_UPDATE_SPLITPOINT = sp.
Proof.
  unfold expand_main. fold (split_flags masks sp). split_and!; [eapply rd_field_at with (pre := []); reflexivity| |by destruct masks, sp|by destruct masks, sp].
  rewrite (rd_field_at 1 _ (le_bytes 4 (hashm_maxbucket m) ++ le_bytes 2 o ++ le_bytes 2 n) (split_flags masks sp) []); [by destruct masks, sp| |].
  - by rewrite app_nil_r, <-!app_assoc.
  - rewrite !zlen_app, !zlen_le_bytes. done.
Qed.

(** The optional parts of the data of the meta page. *)
Lemma expand_data_fields m (masks sp : bool) data : expand_bufdata m masks sp = Ok data →
  (masks = true → rd 4 data 0 = Ok (u32 (hashm_lowmask m)) ∧ rd 4 data 4 = Ok (u32 (hashm_highmask m))) ∧
  (sp = true → ∃ s, spares_at m (hashm_ovflpoint m) = Ok s ∧ rd 4 data (if masks then 8 else 0) = Ok (u32 (hashm_ovflpoint m)) ∧
    rd 4 data ((if masks then 8 else 0) + 4) = Ok (u32 s)).
Proof.
  unfold expand_bufdata. intros H. split.
  - intros ->. destruct (if sp then _ else _) as [s|]; cbn [mbind res_bind] in H; [|done]. apply Ok_inj in H as <-. rewrite <-!mod_256_u32. split.
    + eapply rd_field_at with (pre := []); [|reflexivity]. cbn [app]. rewrite <-!app_assoc. reflexivity.
    + eapply rd_field_at with (pre := le_bytes 4 (hashm_lowmask m)); [|by rewrite zlen_le_bytes]. rewrite <-!app_assoc. reflexivity.
  - intros ->. destruct (spares_at m (hashm_ovflpoint m)) as [s|]; cbn [mbind res_bind] in H; [|done]. apply Ok_inj in H as <-. exists s. split; [done|].
    rewrite <-!mod_256_u32. set (pre := if masks then _ else _). assert (Hl : zlen pre = if masks then 8 else 0).
    { unfold pre. destruct masks; [rewrite zlen_app, !zlen_le_bytes|]; done. }
    split; [by apply (rd_field_at 4 _ pre _ (le_bytes 4 s))|]. apply (rd_field_at 4 _ (pre ++ le_bytes 4 (hashm_ovflpoint m)) _ []).
    + by rewrite app_nil_r, <-!app_assoc.
    + rewrite zlen_app, zlen_le_bytes, Hl. done.
Qed.
