(* ===== verification/HashSearch.v ===== *)
(** * Hash keys on a page

    The items of a bucket page are kept in the order of their hash keys; the
    binary searches count keys, and inserting at the place they find keeps the
    order. *)

From Stdlib Require Import Sorting.Sorted.
From S2P Require Import Prelude Mem Page PageAdd PageIndex PageCompact Buffer WalRecord HeapRedo Btree BtreePage BtreeRedo BtreeInsert Hash HashRedo.

(** The key of a slot, and the keys of a page. *)
Definition slot_key (s : slot) : res Z := _hash_get_indextuple_hashkey (sl_bytes s) 0.
Definition page_keys (p : page) (keys : list Z) : Prop := slot_key <$> page_slots p = Ok <$> keys.

(** Reading inside an item is reading the page. *)
Lemma rd_mread n m a l o v : 0 ≤ a → 0 ≤ l → 0 ≤ o → rd n (mread m a l) o = Ok v → a + l ≤ zlen m → rd n m (a + o) = Ok v.
Proof.
  intros Ha Hl0 Ho H Hl. apply rd_inv in H as (-> & _ & Hr). rewrite zlen_mread in Hr by lia. rewrite rd_ok by lia. f_equal. unfold mget. rewrite mread_mread by lia. done.
Qed.

Lemma item_key p off k : page_wf p → 1 ≤ off ≤ PageGetMaxOffsetNumber p → slot_key (slot_at p off) = Ok k → item_hashkey p off = Ok k.
Proof.
  intros Hw Hoff. unfold slot_key, slot_at, slot_of, item_hashkey. destruct (Z.eqb_spec (lp_len (PageGetItemId p off)) 0) as [|Hne]; [done|].
  destruct (wf_item _ Hw off Hoff Hne) as (H1 & H2 & _). pose proof (wf_len _ (wf_hdr _ Hw)) as Hz. pose proof (wf_special _ (wf_hdr _ Hw)).
  pose proof (wf_lower _ (wf_hdr _ Hw)). pose proof (wf_lower_upper _ (wf_hdr _ Hw)). unfold BLCKSZ in Hz.
  set (a := lp_off _) in *. set (l := lp_len _) in *. pose proof (MAXALIGN_bounds l). assert (0 ≤ l) by apply lp_decode_bound. cbn [sl_bytes]. unfold PageGetItemBytes. fold a l.
  unfold _hash_get_indextuple_hashkey. intros Hk. change (0 + 6) with 6 in Hk. destruct (rd 2 (mread p a l) 6) as [info|] eqn:E; cbn [mbind res_bind] in Hk; [|done].
  rewrite (rd_mread 2 p a l 6 info ltac:(lia) ltac:(lia) ltac:(lia) E) by lia. cbn [mbind res_bind].
  assert (0 ≤ IndexInfoFindDataOffset info) by (unfold IndexInfoFindDataOffset; by destruct (negb _)).
  apply (rd_mread 4 p a l); [lia|lia|done|done|lia].
Qed.

Lemma keys_length p keys : page_keys p keys → zlen keys = PageGetMaxOffsetNumber p.
Proof. intros H. apply (f_equal length) in H. rewrite !length_fmap in H. pose proof (slots_maxoff p). unfold zlen in *. lia. Qed.

Lemma keys_item p keys off k : page_wf p → page_keys p keys → 1 ≤ off → keys !! Z.to_nat (off - 1) = Some k → item_hashkey p off = Ok k.
Proof.
  intros Hw Hk Ho Hi. pose proof (keys_length _ _ Hk) as Hl. apply lookup_lt_Some in Hi as Hlt. apply item_key; [done|unfold zlen in Hl; lia|].
  assert (Hs : (slot_key <$> page_slots p) !! Z.to_nat (off - 1) = Some (Ok k)) by (rewrite Hk, list_lookup_fmap, Hi; done).
  rewrite list_lookup_fmap in Hs. unfold page_slots in Hs. rewrite list_lookup_fmap, lookup_seqZ_lt in Hs by (unfold zlen in Hl; lia).
  cbn in Hs. replace (1 + Z.of_nat (Z.to_nat (off - 1))) with off in Hs by lia. congruence.
Qed.

(** ** Counting in a sorted list *)

(** [n] is where a downward closed property of the keys ends. *)
Lemma filter_all (P : Z → Prop) `{∀ k, Decision (P k)} keys : Forall P keys → filter P keys = keys.
Proof. induction 1; [done|]. rewrite filter_cons_True by done. by f_equal. Qed.
Lemma filter_none (P : Z → Prop) `{∀ k, Decision (P k)} keys : Forall (λ k, ¬ P k) keys → filter P keys = [].
Proof. induction 1; [done|]. by rewrite filter_cons_False. Qed.

Lemma count_prefix (P : Z → Prop) `{∀ k, Decision (P k)} keys n : (n ≤ length keys)%nat →
  (∀ i k, keys !! i = Some k → (i < n)%nat → P k) → (∀ i k, keys !! i = Some k → (n ≤ i)%nat → ¬ P k) → length (filter P keys) = n.
Proof.
  intros Hn Hlo Hhi. rewrite <-(take_drop n keys) at 1. rewrite filter_app, length_app.
  rewrite (filter_all P (take n keys)), (filter_none P (drop n keys)); [rewrite length_take; cbn; lia| |].
  - apply Forall_lookup. intros i k Hi. rewrite lookup_drop in Hi. by apply (Hhi (n + i)%nat); [|lia].
  - apply Forall_lookup. intros i k Hi. apply lookup_take_Some in Hi as [Hi Hlt]. by apply (Hlo i).
Qed.

(** ** The searches *)

Section search.
Context (p : page) (keys : list Z) (v : Z) (Hw : page_wf p) (Hk : page_keys p keys) (Hs : StronglySorted Z.le keys).

Lemma sorted_le i j ki kj : keys !! i = Some ki → keys !! j = Some kj → (i ≤ j)%nat → ki ≤ kj.
Proof using Hs.
clear Hk. revert i j. induction Hs as [|x l Hl IH Hx]; intros [|i] [|j] Hi Hj Hle; try done; [injection Hi as ->; injection Hj as ->; lia| |lia|].
- injection Hi as ->. rewrite Forall_forall in Hx. apply Hx. by eapply list_elem_of_lookup_2.
- apply (IH Hl i j); [done|done|lia].
Qed.

Lemma max_small : 0 ≤ PageGetMaxOffsetNumber p ≤ 2048.
Proof using Hw. pose proof (maxoff_small p (wf_hdr _ Hw)). lia. Qed.

(** The key in the middle. *)
Lemma middle_key off : 1 ≤ off ≤ PageGetMaxOffsetNumber p → ∃ k, keys !! Z.to_nat (off - 1) = Some k ∧ item_hashkey p off = Ok k.
Proof using Hw Hk.
intros Ho. pose proof (keys_length _ _ Hk) as Hl. destruct (lookup_lt_is_Some_2 keys (Z.to_nat (off - 1))) as [k Hi]; [unfold zlen in Hl; lia|].
exists k. split; [done|]. by eapply keys_item; [..|lia|].
Qed.

Lemma binsearch_loop_spec fuel lower upper : 1 ≤ lower ≤ upper → upper ≤ PageGetMaxOffsetNumber p + 1 → upper - lower ≤ Z.of_nat fuel →
(∀ i k, keys !! i = Some k → Z.of_nat i + 1 < lower → k < v) → (∀ i k, keys !! i = Some k → upper ≤ Z.of_nat i + 1 → ¬ k < v) →
binsearch_loop fuel p v lower upper = Ok (1 + zlen (filter (λ k, k < v) keys)).
Proof using All.
pose proof max_small. pose proof (keys_length _ _ Hk) as Hl. unfold zlen in *. revert lower upper. induction fuel as [|fuel IH]; intros lower upper Hr Hu Hf Hlo Hhi; cbn [binsearch_loop].
- destruct (Z.ltb_spec lower upper); [lia|]. rewrite (count_prefix _ keys (Z.to_nat (lower - 1))); [f_equal; lia|lia| |]; intros i k Hi Hn; [apply (Hlo i)|apply (Hhi i)]; done || lia.
- destruct (Z.ltb_spec lower upper).
2: { rewrite (count_prefix _ keys (Z.to_nat (lower - 1))); [f_equal; lia|lia| |]; intros i k Hi Hn; [apply (Hlo i)|apply (Hhi i)]; done || lia. }
pose proof (Z.div_mod (upper + lower) 2 ltac:(lia)). pose proof (Z.mod_pos_bound (upper + lower) 2 ltac:(lia)). set (off := (upper + lower) / 2) in *. clearbody off.
destruct (middle_key off ltac:(lia)) as (k & Hi & ->). cbn [mbind res_bind]. destruct (Z.ltb_spec k v).
+ assert (u16 (off + 1) = off + 1) as -> by (unfold u16; apply Z.mod_small; lia). apply IH; [lia..| |done].
intros i ki Hki Hn. pose proof (sorted_le i _ _ _ Hki Hi ltac:(lia)). lia.
+ apply IH; [lia..|done|]. intros i ki Hki Hn. pose proof (sorted_le _ i _ _ Hi Hki ltac:(lia)). lia.
Qed.

Lemma binsearch_last_loop_spec fuel lower upper : 0 ≤ lower ≤ upper → upper ≤ PageGetMaxOffsetNumber p → upper - lower ≤ Z.of_nat fuel →
(∀ i k, keys !! i = Some k → Z.of_nat i + 1 ≤ lower → k ≤ v) → (∀ i k, keys !! i = Some k → upper < Z.of_nat i + 1 → ¬ k ≤ v) →
binsearch_last_loop fuel p v lower upper = Ok (zlen (filter (λ k, k ≤ v) keys)).
Proof using All.
pose proof max_small. pose proof (keys_length _ _ Hk) as Hl. unfold zlen in *. revert lower upper. induction fuel as [|fuel IH]; intros lower upper Hr Hu Hf Hlo Hhi; cbn [binsearch_last_loop].
- destruct (Z.ltb_spec lower upper); [lia|]. rewrite (count_prefix _ keys (Z.to_nat lower)); [f_equal; lia|lia| |]; intros i k Hi Hn; [apply (Hlo i)|apply (Hhi i)]; done || lia.
- destruct (Z.ltb_spec lower upper).
2: { rewrite (count_prefix _ keys (Z.to_nat lower)); [f_equal; lia|lia| |]; intros i k Hi Hn; [apply (Hlo i)|apply (Hhi i)]; done || lia. }
pose proof (Z.div_mod (upper + lower + 1) 2 ltac:(lia)). pose proof (Z.mod_pos_bound (upper + lower + 1) 2 ltac:(lia)). set (off := (upper + lower + 1) / 2) in *. clearbody off.
destruct (middle_key off ltac:(lia)) as (k & Hi & ->). cbn [mbind res_bind]. destruct (Z.ltb_spec v k).
+ assert (u16 (off - 1) = off - 1) as -> by (unfold u16; apply Z.mod_small; lia). apply IH; [lia..|done|].
intros i ki Hki Hn. pose proof (sorted_le _ i _ _ Hi Hki ltac:(lia)). lia.
+ apply IH; [lia..| |done]. intros i ki Hki Hn. pose proof (sorted_le i _ _ _ Hki Hi ltac:(lia)). lia.
Qed.

Lemma binsearch_counts : _hash_binsearch p v = Ok (1 + zlen (filter (λ k, k < v) keys)) ∧ _hash_binsearch_last p v = Ok (zlen (filter (λ k, k ≤ v) keys)).
Proof using All.
pose proof max_small. pose proof (keys_length _ _ Hk) as Hl. unfold zlen in Hl. unfold _hash_binsearch, _hash_binsearch_last, FirstOffsetNumber.
assert (u16 (PageGetMaxOffsetNumber p + 1) = PageGetMaxOffsetNumber p + 1) as -> by (unfold u16; apply Z.mod_small; lia).
split; [apply binsearch_loop_spec|apply binsearch_last_loop_spec]; try lia; intros i k Hi Hn; apply lookup_lt_Some in Hi; lia.
Qed.
End search.

(** ** Insertion *)

Lemma page_keys_insert p q keys item v n : page_keys p keys → slot_key (item_slot item) = Ok v →
  page_slots q = insert_slot (1 + Z.of_nat n) (item_slot item) (page_slots p) → page_keys q (take n keys ++ v :: drop n keys).
Proof.
  intros Hk Hv Hs. unfold page_keys in *. rewrite Hs. unfold insert_slot. replace (Z.to_nat (1 + Z.of_nat n - 1)) with n by lia.
  rewrite !fmap_app, !fmap_cons, !fmap_take, !fmap_drop, Hk, Hv. done.
Qed.

(** Inserting before all keys that are not smaller. *)
Lemma sorted_insert keys v : StronglySorted Z.le keys → let n := length (filter (λ k, k < v) keys) in
  StronglySorted Z.le (take n keys ++ v :: drop n keys) ∧ take n keys ++ v :: drop n keys ≡ₚ v :: keys.
Proof.
  intros Hs. cbv zeta. split; [|by rewrite <-Permutation_middle, take_drop]. induction Hs as [|x l Hl IH Hx]; [repeat constructor|].
  destruct (decide (x < v)) as [Hlt|Hge].
  - rewrite filter_cons_True by done. cbn [length take drop app]. constructor; [done|].
    eapply Permutation_Forall; [symmetry; rewrite <-Permutation_middle, take_drop; reflexivity|]. constructor; [lia|done].
  - assert (filter (λ k, k < v) (x :: l) = []) as ->.
    { apply filter_none. constructor; [done|]. eapply Forall_impl; [exact Hx|]. cbv beta. intros. lia. }
    cbn. repeat constructor; [done|done|lia|]. eapply Forall_impl; [exact Hx|]. cbv beta. intros. lia.
Qed.
