(* ===== verification/HashSpec.v ===== *)
(** * The theorems of hash indexes

    Addresses of pages, splits of buckets, and the replay of a split on the
    meta page. *)

From S2P Require Import Prelude Mem Page PageAdd PageIndex PageCompact Checksum Buffer WalRecord HeapRedo Resident TagList Btree BtreePage BtreeRedo BtreeSplit BtreeInsert Hash HashRedo HashLayout HashMeta HashSearch.
From Stdlib Require Import SpecFloat Sorting.Sorted.

(** On the meta page of a sound index ([layout_ok]), the free-page bitmap
    and the file agree: every bit below the count of overflow pages has a block,
    and [_hash_ovflblkno_to_bitno] takes that block back to the bit; every
    bucket in use has a block, later buckets have later blocks, and no block of
    a bucket is the block of an overflow page: for it
    [_hash_ovflblkno_to_bitno] raises its error. *)
Theorem hash_block_addresses m : layout_ok m →
  (∀ i, 0 ≤ i < spare m (hashm_ovflpoint m) → ∃ blk, bitno_to_blkno m i = Ok blk ∧ 1 ≤ blk < InvalidBlockNumber ∧
    _hash_ovflblkno_to_bitno m blk = Ok i) ∧
  (∀ b, 0 ≤ b ≤ hashm_maxbucket m → ∃ blk, BUCKET_TO_BLKNO m b = Ok blk ∧ 1 ≤ blk < InvalidBlockNumber ∧
    _hash_ovflblkno_to_bitno m blk = Err EError ∧
    ∀ b', 0 ≤ b' < b → ∃ blk', BUCKET_TO_BLKNO m b' = Ok blk' ∧ blk' < blk).
Proof.
  intros Hm. pose proof (lo_point _ Hm) as Hp. pose proof (lo_fits _ Hm) as Hf. split.
  - intros i Hi. destruct (overflow_block m Hm i Hi) as (s & Hs & Hr & Hb). pose proof (total_mono s (hashm_ovflpoint m) ltac:(lia) ltac:(lia) ltac:(lia)).
    pose proof (total_bounds s ltac:(lia)). pose proof (spare_bounds m Hm s ltac:(lia)).
    eexists. split; [exact Hb|]. split; [lia|]. unfold _hash_ovflblkno_to_bitno. rewrite (find_bitno_hit m Hm); [f_equal; lia|lia|lia|done|lia].
  - intros b Hb. destruct (bucket_block m Hm b Hb) as (s & Hs & Hlo & Hhi & E). pose proof (spare_bounds m Hm (Z.max 0 (s - 1)) ltac:(lia)).
    pose proof (total_mono s (hashm_ovflpoint m) ltac:(lia) ltac:(lia) ltac:(lia)). eexists. split; [exact E|]. split; [lia|]. split.
    + unfold _hash_ovflblkno_to_bitno. apply (find_bitno_miss m Hm _ s); [lia|lia| |lia|lia]. intros ?. replace (Z.max 0 (s - 1)) with (s - 1) by lia. lia.
    + intros b' Hb'. destruct (bucket_block m Hm b' ltac:(lia)) as (s' & Hs' & Hlo' & Hhi' & E'). eexists. split; [exact E'|].
      assert (Hss : s' ≤ s).
      { destruct (decide (s' ≤ s)); [done|]. pose proof (total_mono s (s' - 1) ltac:(lia) ltac:(lia) ltac:(lia)). lia. }
      pose proof (spare_mono m Hm (Z.max 0 (s' - 1)) (Z.max 0 (s - 1)) ltac:(lia) ltac:(lia) ltac:(lia)). lia.
Qed.

(** C24: the decision of [_hash_expandtable] on a sound meta page, when it gets its
    locks and no earlier split is to be finished or cleaned up, never fails, and when it splits, the meta page is sound again and has one more bucket; no
    bucket and no overflow page changes its block; every key stays in its
    bucket, except that keys of the bucket that is split may move to the new
    one; and each of these two buckets is computed from the other. *)
Theorem hash_expand_invariant m : layout_ok m → masks_ok m → ∃ o, expandtable_meta m = Ok o ∧
  ∀ m' masks splitpoint, o = Some (m', masks, splitpoint) →
    let new := hashm_maxbucket m + 1 in let old := Z.land new (hashm_lowmask m) in
    layout_ok m' ∧ masks_ok m' ∧ hashm_maxbucket m' = new ∧
    (∀ b, 0 ≤ b ≤ hashm_maxbucket m → BUCKET_TO_BLKNO m' b = BUCKET_TO_BLKNO m b) ∧
    (∀ i, 0 ≤ i < spare m (hashm_ovflpoint m) → bitno_to_blkno m' i = bitno_to_blkno m i) ∧
    (∀ key, 0 ≤ key_bucket m key ≤ hashm_maxbucket m ∧
      (key_bucket m' key = key_bucket m key ∨ key_bucket m key = old ∧ key_bucket m' key = new)) ∧
    old_bucket_of new = old ∧ _hash_get_newbucket_from_oldbucket old (hashm_lowmask m') new = new.
Proof.
  intros Hm Hk. unfold expandtable_meta, split_wanted, split_fits. destruct (SFleb _ _); [by eexists|]. destruct (Z.leb_spec 0x7FFFFFFE (hashm_maxbucket m)) as [|Hmax]; [by eexists|]. cbn [negb].
  destruct (new_u32 m Hm Hmax) as [-> ->]. pose proof (lo_point _ Hm) as Hp. pose proof (lo_bucket _ Hm) as Hb.
  set (new := hashm_maxbucket m + 1) in *. set (old := Z.land new (hashm_lowmask m)).
  assert (Hold : 0 ≤ old ≤ hashm_maxbucket m).
  { destruct Hk as (k & ? & _ & El & ?). unfold old. rewrite El, land_mask by lia. pose proof (Z.mod_pos_bound new (2 ^ (k - 1)) ltac:(apply Z.pow_pos_nonneg; lia)). lia. }
  destruct (bucket_block m Hm old Hold) as (? & _ & _ & _ & ->). cbn [mbind res_bind]. rewrite (new_block m Hm Hmax : BUCKET_TO_BLKNO m new = _). fold new. cbn [mbind res_bind].
  destruct (expand_meta_spec m Hm Hmax) as (s & spares & b & Hx & Hs). fold new in Hs, Hx.
  set (guard := _ && negb _). destruct guard eqn:Eg; [by eexists|]. cbn [negb]. rewrite Hx. eexists. split; [reflexivity|].
  intros m' masks sp. cbn. intros [= <- _ _].
  assert (Hl : layout_ok (with_split m new (if hashm_highmask m <? new then Z.lor new (if hashm_highmask m <? new then hashm_highmask m else hashm_lowmask m)
    else hashm_highmask m) (if hashm_highmask m <? new then hashm_highmask m else hashm_lowmask m) s spares)).
  { apply (expand_layout m Hm s spares _ b); [exact Hs|]. intros ->. destruct Hs as [[? _]|(_ & Es & _ & En & Hs97)]; [done|].
    destruct (new_split m Hm Hmax) as [[HH _]|(_ & E & _)]; [fold new in HH; lia|]. fold new in E. unfold guard in Eg. rewrite E in Eg.
    rewrite (proj2 (Z.ltb_lt _ _)) in Eg by lia. cbn [andb] in Eg. apply negb_false_iff in Eg. rewrite <-Es in Eg. replace (s - 1) with (hashm_ovflpoint m) in Eg by lia.
    pose proof (total_step (hashm_ovflpoint m) ltac:(lia)). pose proof (total_bounds s ltac:(lia)). rewrite <-Es in *. pose proof (lo_fits _ Hm) as Hf. unfold InvalidBlockNumber in Hf.
    pose proof (spare_bounds m Hm (hashm_ovflpoint m) ltac:(lia)). unfold u32 in Eg at 1. rewrite Z.mod_small in Eg by lia.
    apply alloc_fits_spec in Eg; [|lia|lia]. lia. }
  destruct (expand_masks m Hk Hmax s spares) as [Hk' Hkey]. destruct (expand_old m Hk Hmax s spares) as [Ho1 Ho2]. fold new old in Hk', Hkey, Ho1, Ho2.
  split_and!; [exact Hl|exact Hk'|done| | |intros key; split; [by apply key_bucket_range|apply Hkey]|exact Ho1|exact Ho2].
  - intros i Hi. by apply (expand_bucket_blocks m Hm s spares _ b Hs).
  - intros i Hi. by apply (expand_overflow_blocks m Hm s spares _ b Hs).
Qed.

(** ** Searching and inserting *)

(** On a page whose items are in the order of their hash keys, the binary
    searches end, stay on the page, and count keys: [_hash_binsearch] returns
    the offset number after the keys below the value, [_hash_binsearch_last] the
    offset number of the last key that is not above it. *)
Theorem hash_binsearch p keys v : page_wf p → page_keys p keys → StronglySorted Z.le keys →
  _hash_binsearch p v = Ok (1 + zlen (filter (λ k, k < v) keys)) ∧ _hash_binsearch_last p v = Ok (zlen (filter (λ k, k ≤ v) keys)).
Proof. apply binsearch_counts. Qed.

(** Redo of an insertion on a bucket or overflow page, with the offset
    number the search gives on that page.  When the tuple fits, it becomes the
    item at that offset number, no other item changes, and the items are in
    the order of their hash keys again; when it does not fit, replay stops with
    PANIC. *)
Theorem hash_insert_redo st r tag p keys v off :
  rec_info r = XLOG_HASH_INSERT → plain_ref r 0 tag → resident st tag p → bt_wf p → PageGetLSN p < EndRecPtr r → 0 ≤ EndRecPtr r < 2 ^ 64 →
  rd 2 (main_data r) 0 = Ok off → good_item (block_bytes r 0) → _hash_get_indextuple_hashkey (block_bytes r 0) 0 = Ok v →
  page_keys p keys → StronglySorted Z.le keys → _hash_binsearch p v = Ok off →
  if decide (MAXALIGN (zlen (block_bytes r 0)) + 4 ≤ pd_upper p - pd_lower p) then
    ∃ q keys', polar_hash_idx_redo st r tag None = Ok (buf_write st (Some tag) q, Some tag, BLK_NEEDS_REDO) ∧ bt_wf q ∧
      PageGetLSN q = EndRecPtr r ∧ opaque_of q = opaque_of p ∧ page_slots q = insert_slot off (item_slot (block_bytes r 0)) (page_slots p) ∧
      page_keys q keys' ∧ StronglySorted Z.le keys' ∧ keys' ≡ₚ v :: keys
  else polar_hash_idx_redo st r tag None = Err EPanic.
Proof.
  intros Hi Hr Hp Hw Hold Hlsn Hoff Hg Hv Hk Hs Hb. destruct (binsearch_counts p keys v Hw Hk Hs) as [Hc _]. rewrite Hb in Hc. apply Ok_inj in Hc.
  pose proof (keys_length _ _ Hk) as Hl. pose proof (length_filter (λ k, k < v) keys) as Hf. unfold zlen in *.
  assert (Hd : polar_hash_idx_redo st r tag None = redo_read st r 0 false (hash_insert_page r)).
  { unfold polar_hash_idx_redo. rewrite Hi. change (polar_hash_xlog_insert st r tag None = redo_read st r 0 false (hash_insert_page r)).
    unfold polar_hash_xlog_insert. rewrite (log_tag _ _ _ (pr_tag _ _ _ Hr)). cbn [mbind res_bind]. by rewrite tags_equal_refl. }
  assert (He : hash_insert_page r p = btree_insert_page r false off p) by (unfold hash_insert_page, with_lsn; by rewrite Hoff).
  rewrite Hd. pose proof (insert_leaf_page r off p Hw Hg Hlsn ltac:(lia)) as H. unfold zlen in H. destruct (decide _).
  - destruct H as (q & Hq & Hwq & Hlq & Hoq & Hsq). destruct (sorted_insert keys v Hs) as [Hs' Hperm]. eexists q, _. split_and!; [|done..| |exact Hs'|exact Hperm].
    + apply (on_redo_resident _ _ _ _ p); [done|done|apply wf_not_new, Hw|done|by rewrite He].
    + eapply page_keys_insert; [exact Hk|exact Hv|]. by rewrite Hc in Hsq.
  - apply (on_redo_resident_err _ _ _ tag p); [done|done|apply wf_not_new, Hw|done|by rewrite He].
Qed.

(** ** Replay of a split on the meta page *)

Section split_meta.
Context (r : XLogReaderState) (p : page) (m' : HashMetaPageData) (masks sp : bool) (old_flag new_flag : Z).
Context (Hp : zlen p = BLCKSZ) (Hb : Forall is_byte p).
Let m := HashPageGetMeta p.
Context (Hx : expand_meta m = Ok (m', masks, sp)).
Context (Hmain : main_data r = expand_main m' masks sp old_flag new_flag) (Hdata : expand_bufdata m' masks sp = Ok (block_bytes r 2)).

(** The fields of a meta page on disk are within their width. *)
Lemma meta_u32 : u32 (hashm_highmask m) = hashm_highmask m ∧ u32 (hashm_lowmask m) = hashm_lowmask m ∧ 0 ≤ hashm_ovflpoint m ∧
(∀ i s, spares_at m i = Ok s → u32 s = s).
Proof using Hb.
assert (Hg : ∀ o, 0 ≤ mget 4 p o < 2 ^ 32) by (intros o; apply (mget_bound 4); done).
split_and!; [apply Z.mod_small, Hg|apply Z.mod_small, Hg|apply Hg|]. intros i s. unfold spares_at. destruct (Z.leb_spec 0 i); [|done].
destruct (hashm_spares m !! Z.to_nat i) as [v|] eqn:E; [|done]. intros [= <-]. cbn [m HashPageGetMeta hashm_spares] in E. unfold meta_array in E.
rewrite list_lookup_fmap in E. destruct (seqZ _ _ !! _); [|done]. injection E as <-. apply Z.mod_small, Hg.
Qed.

(** The change as writes of fields. *)
Lemma split_meta_fields : ∃ s v, m' = with_split m (u32 (hashm_maxbucket m')) (u32 (hashm_highmask m')) (u32 (hashm_lowmask m')) (u32 s)
(if sp then <[Z.to_nat s := u32 v]> (hashm_spares m) else hashm_spares m) ∧
(masks = false → hashm_highmask m' = hashm_highmask m ∧ hashm_lowmask m' = hashm_lowmask m) ∧
(if sp then 0 ≤ s < HASH_MAX_SPLITPOINTS ∧ spares_at m' (hashm_ovflpoint m') = Ok v ∧ s = hashm_ovflpoint m' else s = hashm_ovflpoint m).
Proof using Hx Hb.
clear Hmain Hdata. destruct meta_u32 as (Eh & El & Hov & Hsp). assert (Hov' : u32 (hashm_ovflpoint m) = hashm_ovflpoint m) by (apply Z.mod_small, (mget_bound 4); done).
assert (Hlor : u32 (Z.lor (u32 (hashm_maxbucket m + 1)) (hashm_highmask m)) = Z.lor (u32 (hashm_maxbucket m + 1)) (hashm_highmask m)).
{ apply Z.mod_small, lor_bounded; [apply Z.mod_pos_bound; lia|apply (mget_bound 4); done|lia]. }
pose proof (meta_array_length p meta_spares HASH_MAX_SPLITPOINTS ltac:(done) : zlen (hashm_spares m) = HASH_MAX_SPLITPOINTS) as Hl. clearbody m.
unfold expand_meta in Hx. set (ndx := _hash_spareindex _) in Hx. destruct (Z.ltb_spec (hashm_ovflpoint m) ndx) as [Hlt|Hge].
- destruct (spares_at m (hashm_ovflpoint m)) as [v|] eqn:Ev; cbn [mbind res_bind] in Hx; [|done].
destruct (Z.ltb_spec ndx (zlen (hashm_spares m))) as [Hn|]; [|done]. apply Ok_inj in Hx. injection Hx as <- <- <-.
cbn [with_split hashm_maxbucket hashm_highmask hashm_lowmask hashm_ovflpoint]. exists ndx, v.
rewrite Hl in Hn.
assert (Hndx : u32 ndx = ndx) by (apply Z.mod_small; unfold HASH_MAX_SPLITPOINTS in Hn; lia).
rewrite (Hsp _ _ Ev), Hndx, u32_u32. split_and!; [destruct (_ <? _); by rewrite ?Eh, ?El, ?Hlor|by intros ->|lia|done| |done].
unfold spares_at. cbn [with_split hashm_spares hashm_ovflpoint]. destruct (Z.leb_spec 0 ndx); [|lia]. rewrite list_lookup_insert_eq; [done|].
unfold zlen in Hl. lia.
- apply Ok_inj in Hx. injection Hx as <- <- <-. exists (hashm_ovflpoint m), 0.
cbn [with_split hashm_maxbucket hashm_highmask hashm_lowmask hashm_ovflpoint]. rewrite u32_u32, Hov'.
split_and!; [destruct (_ <? _); by rewrite ?Eh, ?El, ?Hlor|by intros ->|done].
Qed.

(** What is behind the meta data, and the header but for the LSN. *)
Definition meta_frame (q : page) : Prop := zlen q = BLCKSZ ∧ ∀ o l, 8 ≤ o ∧ o + l ≤ PageGetContents ∨ PageGetContents + sizeof_HashMetaPageData ≤ o →
mread q o l = mread p o l.

Lemma frame_put q o v : meta_frame q → 0 ≤ o → o + 4 ≤ sizeof_HashMetaPageData → meta_frame (mput 4 q (PageGetContents + o) v).
Proof using.
intros [Hq Hf] Ho Hs. split; [by rewrite zlen_mput|]. intros o' l Ho'. rewrite <-Hf by done. unfold sizeof_HashMetaPageData in *. change PageGetContents with 24 in *.
apply mread_mput_disj; lia.
Qed.

Lemma split_meta_page_spec : 0 ≤ EndRecPtr r < 2 ^ 64 →
∃ q, split_meta_page r p = Ok q ∧ HashPageGetMeta q = m' ∧ PageGetLSN q = EndRecPtr r ∧ meta_frame q.
Proof using All.
intros Hlsn. destruct split_meta_fields as (s & v & Hm & Hk & Hs). destruct (expand_main_fields m' masks sp old_flag new_flag) as (R1 & R2 & F1 & F2).
destruct (expand_data_fields _ _ _ _ Hdata) as [Dm Ds]. unfold split_meta_page. rewrite Hmain, R1. cbn [mbind res_bind]. rewrite R2. cbn [mbind res_bind].
rewrite F1, F2. rewrite (meta_set_ok p Hp) by done. cbn [mbind res_bind]. set (p1 := mput _ _ _ _).
assert (P1 : meta_frame p1 ∧ HashPageGetMeta p1 = with_split m (u32 (hashm_maxbucket m')) (hashm_highmask m) (hashm_lowmask m) (hashm_ovflpoint m) (hashm_spares m)).
{ split; [apply frame_put; [split; [exact Hp|done]|done|done]|]. unfold p1. rewrite put_maxbucket, u32_u32 by exact Hp. reflexivity. }
destruct P1 as [Fr1 M1]. clearbody p1.
assert (P2 : ∃ p2, (if masks then lowmask ← rd 4 (block_bytes r 2) 0; highmask ← rd 4 (block_bytes r 2) 4; p ← meta_set 4 p1 meta_lowmask lowmask;
p ← meta_set 4 p meta_highmask highmask; Ok (p, 8) else Ok (p1, 0)) = Ok (p2, if masks then 8 else 0) ∧ meta_frame p2 ∧
HashPageGetMeta p2 = with_split m (u32 (hashm_maxbucket m')) (u32 (hashm_highmask m')) (u32 (hashm_lowmask m')) (hashm_ovflpoint m) (hashm_spares m)).
{ destruct masks.
- destruct (Dm eq_refl) as [-> ->]. cbn [mbind res_bind]. rewrite (meta_set_ok p1 (proj1 Fr1)) by done. cbn [mbind res_bind].
rewrite meta_set_ok; [|rewrite zlen_mput; apply Fr1|done|done]. cbn [mbind res_bind]. eexists. split; [reflexivity|]. split; [repeat (apply frame_put; [|done|done]); exact Fr1|].
rewrite put_highmask by (rewrite zlen_mput; apply Fr1). rewrite put_lowmask by apply Fr1. rewrite M1, !u32_u32. reflexivity.
- exists p1. split; [done|]. split; [done|]. destruct meta_u32 as (Eh & El & _). destruct (Hk eq_refl) as [E1 E2]. rewrite M1, E1, E2, Eh, El. done. }
destruct P2 as (p2 & -> & Fr2 & M2). cbn [mbind res_bind].
assert (P3 : ∃ p3, (if sp then ovflpoint ← rd 4 (block_bytes r 2) (if masks then 8 else 0); ovflpages ← rd 4 (block_bytes r 2) ((if masks then 8 else 0) + 4);
p ← elem_set p2 meta_spares HASH_MAX_SPLITPOINTS ovflpoint ovflpages; meta_set 4 p meta_ovflpoint ovflpoint else Ok p2) = Ok p3 ∧ meta_frame p3 ∧ HashPageGetMeta p3 = m').
{ destruct sp.
- destruct Hs as (Hsr & Hv & Es). destruct (Ds eq_refl) as (v' & Ev & -> & ->). rewrite Hv in Ev. apply Ok_inj in Ev as <-. cbn [mbind res_bind].
assert (u32 (hashm_ovflpoint m') = s) as -> by (rewrite <-Es; apply Z.mod_small; unfold HASH_MAX_SPLITPOINTS in Hsr; lia).
rewrite (elem_set_ok p2 (proj1 Fr2)) by done. cbn [mbind res_bind]. rewrite meta_set_ok; [|rewrite zlen_mput; apply Fr2|done|done].
eexists. split; [reflexivity|]. split.
+ apply frame_put; [|done..]. rewrite <-Z.add_assoc. apply frame_put; [done| |]; unfold meta_spares, sizeof_HashMetaPageData, HASH_MAX_SPLITPOINTS in *; lia.
+ rewrite put_ovflpoint by (rewrite zlen_mput; apply Fr2). rewrite put_spare; [|apply Fr2|exact Hsr]. rewrite M2. etransitivity; [|symmetry; exact Hm]. rewrite u32_u32. reflexivity.
- exists p2. split; [done|]. split; [done|]. rewrite M2. etransitivity; [|symmetry; exact Hm]. rewrite Hs.
assert (u32 (hashm_ovflpoint m) = hashm_ovflpoint m) as -> by (apply Z.mod_small, (mget_bound 4); done). reflexivity. }
destruct P3 as (p3 & -> & Fr3 & M3). cbn [mbind res_bind]. eexists. split; [reflexivity|]. rewrite meta_lsn, PageGetSetLSN; [|rewrite (proj1 Fr3); unfold BLCKSZ; lia|exact Hlsn].
split_and!; [done|done|]. destruct Fr3 as [Hz Hf]. unfold PageSetLSN. split; [by rewrite !zlen_mput|]. intros o l Ho.
unfold sizeof_HashMetaPageData in *. change PageGetContents with 24 in *. rewrite !mread_mput_disj by lia. by apply Hf.
Qed.
End split_meta.

(** Replay of a bucket split on the meta page.  When the record carries what
    [_hash_expandtable] logged for the change it made to this meta page, then
    replaying it for the page, which is in the buffer pool and older than the
    record, gives exactly the meta data the node that split the bucket had
    ([m']), with the LSN of the record; nothing else of the page, no other page
    and no file changes. *)
Theorem hash_split_meta_redo st r tag t0 t1 p m' masks sp old_flag new_flag :
  rec_info r = XLOG_HASH_SPLIT_ALLOCATE_PAGE → XLogRecGetBlockTag r 0 = Some t0 → XLogRecGetBlockTag r 1 = Some t1 → tag ≠ t0 → tag ≠ t1 →
  plain_ref r 2 tag → resident st tag p → PageIsNew p = false → zlen p = BLCKSZ → Forall is_byte p → PageGetLSN p < EndRecPtr r < 2 ^ 64 →
  expand_meta (HashPageGetMeta p) = Ok (m', masks, sp) → main_data r = expand_main m' masks sp old_flag new_flag →
  expand_bufdata m' masks sp = Ok (block_bytes r 2) →
  ∃ q, polar_hash_idx_redo st r tag None = Ok (buf_write st (Some tag) q, Some tag, BLK_NEEDS_REDO) ∧ HashPageGetMeta q = m' ∧
    PageGetLSN q = EndRecPtr r ∧ meta_frame p q.
Proof.
  intros Hi H0 H1 N0 N1 Hpr Hres Hnew Hp Hb Hlsn Hx Hmain Hdata.
  destruct (split_meta_page_spec r p m' masks sp old_flag new_flag Hp Hb Hx Hmain Hdata) as (q & Hq & Hm & Hl & Hf).
  { split; [|apply Hlsn]. pose proof (PageGetLSN_nonneg p Hb). lia. }
  exists q. split_and!; [|done..]. unfold polar_hash_idx_redo. rewrite Hi.
  change (polar_hash_xlog_split_allocate_page st r tag None = Ok (buf_write st (Some tag) q, Some tag, BLK_NEEDS_REDO)).
  unfold polar_hash_xlog_split_allocate_page. rewrite (log_tag _ _ _ H0). cbn [mbind res_bind]. rewrite (proj1 (tags_neq _ _ N0)), (log_tag _ _ _ H1). cbn [mbind res_bind].
  rewrite (proj1 (tags_neq _ _ N1)), (log_tag _ _ _ (pr_tag _ _ _ Hpr)). cbn [mbind res_bind]. rewrite tags_equal_refl. unfold redo_read.
  rewrite (redo_read_resident st r 2 tag p false Hpr Hres Hnew). cbn [mbind res_bind]. rewrite (proj2 (Z.leb_gt _ _)) by lia. unfold on_redo.
  rewrite (resident_page _ _ _ Hres). cbn [mbind res_bind]. rewrite Hq. done.
Qed.

(** ** Samples *)

(** An index with three buckets and three overflow pages, one of them at the
    split point before the last; its tuples are enough for a split. *)
Definition demo_meta : HashMetaPageData :=
  mkHashMeta HASH_MAGIC HASH_VERSION (f8_bits (f8_int 100)) 10 8152 4096 15 2 3 1 2 0 1 400
    ([0; 1; 3] ++ replicate 95 0) (replicate 1024 0).

Lemma demo_layout : layout_ok demo_meta.
Proof.
  constructor; [reflexivity|cbn; lia|vm_compute; intuition congruence|reflexivity| |vm_compute; reflexivity].
  intros i Hi. cbn [demo_meta hashm_ovflpoint] in Hi. assert (i = 0 ∨ i = 1) as [-> | ->] by lia; vm_compute; intros [=].
Qed.

Lemma demo_masks : masks_ok demo_meta.
Proof. exists 2. cbn. lia. Qed.

Lemma hash_block_addresses_witness :
  (∃ blk, bitno_to_blkno demo_meta 2 = Ok blk ∧ 1 ≤ blk < InvalidBlockNumber ∧ _hash_ovflblkno_to_bitno demo_meta blk = Ok 2) ∧
  bitno_to_blkno demo_meta 2 = Ok 7 ∧ BUCKET_TO_BLKNO demo_meta 2 = Ok 4.
Proof.
  split; [|split; vm_compute; reflexivity]. apply (hash_block_addresses demo_meta demo_layout). vm_compute. intuition congruence.
Defined.

Lemma hash_expand_invariant_witness : ∃ m' a b, expandtable_meta demo_meta = Ok (Some (m', a, b)) ∧ layout_ok m' ∧ masks_ok m' ∧ hashm_maxbucket m' = 3.
Proof.
  destruct (hash_expand_invariant demo_meta demo_layout demo_masks) as (o & Ho & H). destruct o as [[[m' a] b]|]; [|vm_compute in Ho; discriminate Ho].
  exists m', a, b. destruct (H m' a b eq_refl) as (Hl & Hk & Hm & _). split; [exact Ho|]. split; [exact Hl|]. split; [exact Hk|exact Hm].
Defined.

(** A new meta page of two buckets, and the record of its first split. *)
Definition hash_rel : RelFileNode := mkRel 1663 13580 16396.
Definition hash_tag (b : Z) : BufferTag := mkTag hash_rel 0 b.
Definition demo_meta_page : page :=
  Eval vm_compute in match _hash_init_metabuffer 0 400 10 with Ok p => PageSetLSN p 50 | Err _ => [] end.
Definition demo_split : HashMetaPageData := with_split (HashPageGetMeta demo_meta_page) 2 3 1 2 (<[2%nat := 1]> (hashm_spares (HashPageGetMeta demo_meta_page))).
Definition hash_blk (b : Z) (data : list Z) : DecodedBkpBlock := mkBlk true hash_rel 0 b 0 false false [] 0 0 0 (negb (zlen data =? 0)) data.
Definition hash_rec : XLogReaderState :=
  mkRec 50 100 XLOG_HASH_SPLIT_ALLOCATE_PAGE RM_HASH_ID 7 (expand_main demo_split false true 34 18) 2
    [hash_blk 1 []; hash_blk 3 []; hash_blk 0 [2; 0; 0; 0; 1; 0; 0; 0]].
Definition hash_db : dbstate :=
  mkDb {[ (hash_rel, 0) := [demo_meta_page] ]} {[ hash_tag 0 := demo_meta_page ]} ∅ ∅ true false false (mkConf false false).

Lemma hash_split_meta_redo_witness : ∃ q,
  polar_hash_idx_redo hash_db hash_rec (hash_tag 0) None = Ok (buf_write hash_db (Some (hash_tag 0)) q, Some (hash_tag 0), BLK_NEEDS_REDO) ∧
  HashPageGetMeta q = demo_split.
Proof.
  destruct (hash_split_meta_redo hash_db hash_rec (hash_tag 0) (hash_tag 1) (hash_tag 3) demo_meta_page demo_split false true 34 18)
    as (q & Hq & Hm & _); [reflexivity|reflexivity|reflexivity|intros [=]|intros [=]|..].
  - constructor; [reflexivity|intros b [= <-]; reflexivity|reflexivity].
  - constructor; [reflexivity|eexists; split; [reflexivity|vm_compute; done]|reflexivity].
  - vm_compute. reflexivity.
  - vm_compute. reflexivity.
  - apply wf_bytes, page_hdr_wfb_sound. vm_compute. reflexivity.
  - vm_compute. split; reflexivity.
  - vm_compute. reflexivity.
  - reflexivity.
  - vm_compute. reflexivity.
  - exists q. split; [exact Hq|exact Hm].
Defined.

(** A bucket page with the keys 5 and 9, and the insertion of the key 7. *)
Definition hash_item (k : Z) : list Z := [0; 0; 1; 0; 1; 0; 16; 0; k; 0; 0; 0; 0; 0; 0; 0].
Definition demo_bucket : page :=
  Eval vm_compute in match (p ← _hash_initbuf 1 0 LH_BUCKET_PAGE; add_in_order p [hash_item 5; hash_item 9] 1 EPanic) with
                     | Ok p => PageSetLSN p 50 | Err _ => [] end.
Definition hash_insert_rec : XLogReaderState :=
  mkRec 50 100 XLOG_HASH_INSERT RM_HASH_ID 7 [2; 0] 1 [hash_blk 1 (hash_item 7); hash_blk 0 []].
Definition bucket_db : dbstate :=
  mkDb {[ (hash_rel, 0) := [demo_bucket; demo_bucket] ]} {[ hash_tag 1 := demo_bucket ]} ∅ ∅ true false false (mkConf false false).

Lemma demo_bucket_wf : bt_wf demo_bucket.
Proof. constructor; [apply page_wfb_sound; vm_compute; reflexivity|vm_compute; reflexivity]. Qed.

Lemma demo_keys : page_keys demo_bucket [5; 9] ∧ StronglySorted Z.le [5; 9].
Proof. split; [vm_compute; reflexivity|]. repeat constructor. lia. Qed.

Lemma hash_binsearch_witness : _hash_binsearch demo_bucket 7 = Ok 2 ∧ _hash_binsearch_last demo_bucket 7 = Ok 1.
Proof.
  destruct (hash_binsearch demo_bucket [5; 9] 7) as [H1 H2]; [apply demo_bucket_wf|apply demo_keys|apply demo_keys|]. split; [exact H1|exact H2].
Defined.

Lemma hash_insert_redo_witness : ∃ q keys,
  polar_hash_idx_redo bucket_db hash_insert_rec (hash_tag 1) None = Ok (buf_write bucket_db (Some (hash_tag 1)) q, Some (hash_tag 1), BLK_NEEDS_REDO) ∧
  page_keys q keys ∧ StronglySorted Z.le keys ∧ keys ≡ₚ [7; 5; 9].
Proof.
  pose proof (hash_insert_redo bucket_db hash_insert_rec (hash_tag 1) demo_bucket [5; 9] 7 2) as H.
  rewrite decide_True in H by (vm_compute; intros [=]). destruct H as (q & keys & Hq & _ & _ & _ & _ & Hk & Hs & Hp).
  - reflexivity.
  - constructor; [reflexivity|intros b [= <-]; reflexivity|reflexivity].
  - constructor; [reflexivity|eexists; split; [reflexivity|vm_compute; done]|reflexivity].
  - apply demo_bucket_wf.
  - vm_compute. reflexivity.
  - cbn. lia.
  - reflexivity.
  - split; [repeat constructor; unfold is_byte; lia|vm_compute; reflexivity].
  - reflexivity.
  - apply demo_keys.
  - apply demo_keys.
  - vm_compute. reflexivity.
  - exists q, keys. split; [exact Hq|]. split; [exact Hk|]. split; [exact Hs|exact Hp].
Defined.
