(* ===== verification/GinPosting.v ===== *)
(** * Posting lists of GIN indexes: [ginpostinglist.c]

    The compressed representation of a sorted array of item pointers, the
    routines that compress and decompress it, and the merge of two arrays.
    The theorems are the round trip, the bound that lets vacuum rewrite a
    list in place, and the merge as a union. *)

From Stdlib Require Import Sorted.
From S2P Require Import Prelude Mem Page.

(** ** Item pointers *)

(** [ItemPointerData], and its six bytes: the block number in two halves, the
    high one first, then the offset number. *)
Record ItemPointerData : Type := mkTid { ip_blkid : Z; ip_posid : Z }.

#[export] Instance ItemPointerData_eq_dec : EqDecision ItemPointerData.
Proof. solve_decision. Defined.

Definition put_itemptr (t : ItemPointerData) : list Z :=
  le_bytes 2 (Z.shiftr (ip_blkid t) 16) ++ le_bytes 2 (ip_blkid t) ++ le_bytes 2 (ip_posid t).
Definition get_itemptr (m : mem) (a : Z) : res ItemPointerData :=
  hi ← rd 2 m a;
  lo ← rd 2 m (a + 2);
  off ← rd 2 m (a + 4);
  Ok (mkTid (Z.lor (Z.shiftl hi 16) lo) off).

(** The number an item pointer is compared by. *)
Definition itemptr_order (t : ItemPointerData) : Z := Z.lor (u64 (Z.shiftl (ip_blkid t) 32)) (ip_posid t).
Definition ginCompareItemPointers (a b : ItemPointerData) : Z :=
  let ia := itemptr_order a in
  let ib := itemptr_order b in
  if ia =? ib then 0 else if ib <? ia then 1 else -1.

(** ** Encoding *)

Definition MaxHeapTuplesPerPageBits : Z := 11.
Definition MaxBytesPerInteger : Z := 7.

Definition itemptr_to_uint64 (t : ItemPointerData) : Z :=
  Z.lor (u64 (Z.shiftl (ip_blkid t) MaxHeapTuplesPerPageBits)) (ip_posid t).
Definition uint64_to_itemptr (val : Z) : ItemPointerData :=
  mkTid (u32 (Z.shiftr val MaxHeapTuplesPerPageBits)) (u16 (Z.land val (Z.shiftl 1 MaxHeapTuplesPerPageBits - 1))).

(** The bytes of [val]; a 64-bit number has less than ten turns of the loop. *)
Fixpoint varbyte_loop (fuel : nat) (val : Z) : list Z :=
  if 0x7F <? val then
    match fuel with
    | O => []
    | S fuel => Z.lor 0x80 (Z.land val 0x7F) :: varbyte_loop fuel (Z.shiftr val 7)
    end
  else [val].
Definition encode_varbyte (val : Z) : list Z := varbyte_loop 10 val.

(** The bytes from the one at [shift] on; the result is the number and the
    position after it. *)
Fixpoint decode_rest (n : nat) (m : mem) (ptr shift val : Z) : res (Z * Z) :=
  c ← rd 1 m ptr;
  match n with
  | O => Ok (Z.lor val (Z.shiftl c shift), ptr + 1)
  | S n =>
      let val := Z.lor val (Z.shiftl (Z.land c 0x7F) shift) in
      if has_flag c 0x80 then decode_rest n m (ptr + 1) (shift + 7) val else Ok (val, ptr + 1)
  end.
Definition decode_varbyte (m : mem) (ptr : Z) : res (Z * Z) := decode_rest 6 m ptr 0 0.

(** ** Compressed posting lists *)

(** [GinPostingList]: the first item, the number of bytes, the bytes. *)
Definition offsetof_bytes : Z := 8.
Definition SizeOfGinPostingList (nbytes : Z) : Z := offsetof_bytes + SHORTALIGN nbytes.
Definition SHORTALIGN_DOWN (x : Z) : Z := Z.land x (Z.lnot 1).

(** The items after the first; [out] holds the bytes written, [n] counts the
    items packed.  An encoding longer than the buffer is written past it. *)
Fixpoint pack_loop (ipd : list ItemPointerData) (prev maxbytes : Z) (out : list Z) (n : Z) : res (list Z * Z) :=
  match ipd with
  | [] => Ok (out, n)
  | it :: ipd =>
      let val := itemptr_to_uint64 it in
      let enc := encode_varbyte (u64 (val - prev)) in
      let room := maxbytes - zlen out in
      if MaxBytesPerInteger <=? room then
        if zlen enc <=? room then pack_loop ipd val maxbytes (out ++ enc) (n + 1) else Err EOob
      else if MaxBytesPerInteger <? zlen enc then Err EOob
      else if room <? zlen enc then Ok (out, n)
      else pack_loop ipd val maxbytes (out ++ enc) (n + 1)
  end.

(** The struct with its padding, and [*nwritten]. *)
Definition ginCompressPostingList (ipd : list ItemPointerData) (maxsize : Z) : res (list Z * Z) :=
  match ipd with
  | [] => Err EOob
  | first :: ipd =>
      let maxbytes := SHORTALIGN_DOWN maxsize - offsetof_bytes in
      '(out, n) ← pack_loop ipd (itemptr_to_uint64 first) maxbytes [] 1;
      let nbytes := u16 (zlen out) in
      let pad := if nbytes =? SHORTALIGN nbytes then [] else [0] in
      Ok (put_itemptr first ++ le_bytes 2 nbytes ++ out ++ pad, n)
  end.

(** The items of a segment after [val]; each takes a byte at least. *)
Fixpoint decode_items (fuel : nat) (m : mem) (ptr endptr val : Z) : res (list ItemPointerData) :=
  if ptr <? endptr then
    match fuel with
    | O => Err EFuel
    | S fuel =>
        '(d, ptr) ← decode_varbyte m ptr;
        let val := u64 (val + d) in
        rest ← decode_items fuel m ptr endptr val;
        Ok (uint64_to_itemptr val :: rest)
    end
  else Ok [].

(** The segments from [segment] to [endseg]; each takes eight bytes at least. *)
Fixpoint decode_segments (fuel : nat) (m : mem) (segment endseg : Z) : res (list ItemPointerData) :=
  if segment <? endseg then
    match fuel with
    | O => Err EFuel
    | S fuel =>
        first ← get_itemptr m segment;
        nbytes ← rd 2 m (segment + 6);
        let bytes := segment + offsetof_bytes in
        items ← decode_items (Z.to_nat nbytes) m bytes (bytes + nbytes) (itemptr_to_uint64 first);
        rest ← decode_segments fuel m (segment + SizeOfGinPostingList nbytes) endseg;
        Ok (first :: items ++ rest)
    end
  else Ok [].

Definition ginPostingListDecodeAllSegments (m : mem) (segment len : Z) : res (list ItemPointerData) :=
  decode_segments (Z.to_nat len) m segment (segment + len).

Definition ginPostingListDecode (m : mem) (plist : Z) : res (list ItemPointerData) :=
  nbytes ← rd 2 m (plist + 6);
  ginPostingListDecodeAllSegments m plist (SizeOfGinPostingList nbytes).

(** ** Merging *)

Fixpoint merge_loop (a : list ItemPointerData) : list ItemPointerData → list ItemPointerData :=
  match a with
  | [] => λ b, b
  | x :: a' =>
      fix merge_b (b : list ItemPointerData) : list ItemPointerData :=
        match b with
        | [] => x :: a'
        | y :: b' =>
            let cmp := ginCompareItemPointers x y in
            if 0 <? cmp then y :: merge_b b'
            else if cmp =? 0 then y :: merge_loop a' b'
            else x :: merge_loop a' b
        end
  end.

(** Arrays that do not overlap are appended. *)
Definition ginMergeItemPointers (a b : list ItemPointerData) : list ItemPointerData :=
  match last a, head b, last b, head a with
  | Some alast, Some bfirst, Some blast, Some afirst =>
      if ginCompareItemPointers alast bfirst <? 0 then a ++ b
      else if ginCompareItemPointers blast afirst <? 0 then b ++ a
      else merge_loop a b
  | _, _, _, _ => a ++ b
  end.

(** ** Bytes at an address *)

Definition holds (m : mem) (a : Z) (bs : list Z) : Prop :=
  0 ≤ a ∧ a + zlen bs ≤ zlen m ∧ mread m a (zlen bs) = bs.

Lemma holds_all m : holds m 0 m.
Proof. repeat split; [lia..|apply mread_all]. Qed.

Lemma holds_app m a x y : holds m a (x ++ y) ↔ holds m a x ∧ holds m (a + zlen x) y.
Proof.
  pose proof (zlen_nonneg x). pose proof (zlen_nonneg y). unfold holds. rewrite zlen_app. split.
  - intros (Ha & Hl & E). rewrite mread_app in E by lia.
    assert (Hz : zlen (mread m a (zlen x)) = zlen x) by (apply zlen_mread; lia).
    apply app_inj_1 in E as [Ex Ey]; [|unfold zlen in *; lia]. repeat split; try lia; done.
  - intros [(Ha & Hx & Ex) (_ & Hy & Ey)]. split; [done|]. split; [lia|]. rewrite mread_app by lia. by rewrite Ex, Ey.
Qed.

Lemma holds_byte m a b bs : holds m a (b :: bs) → rd 1 m a = Ok b ∧ holds m (a + 1) bs.
Proof.
  intros H. change (b :: bs) with ([b] ++ bs) in H. apply holds_app in H as [(Ha & Hl & E) H]. split; [|done].
  change (zlen [b]) with 1 in *. rewrite rd_ok by (simpl; lia). unfold mget. change (Z.of_nat 1) with 1. rewrite E. cbn [le_val]. f_equal. lia.
Qed.

Lemma holds_rd n m a v bs : holds m a (le_bytes n v ++ bs) → 0 ≤ v < 256 ^ Z.of_nat n →
  rd n m a = Ok v ∧ holds m (a + Z.of_nat n) bs.
Proof.
  intros [(Ha & Hl & E) H]%holds_app Hv. rewrite zlen_le_bytes in *. split; [|done].
  rewrite rd_ok by lia. unfold mget. rewrite E, le_val_bytes. by rewrite Z.mod_small.
Qed.

(** ** Item pointers as numbers *)

Lemma lor_shift a b k : 0 ≤ k → 0 ≤ a < 2 ^ k → Z.lor a (Z.shiftl b k) = a + b * 2 ^ k.
Proof.
  intros Hk Ha. rewrite <-Z.lxor_lor, <-Z.add_nocarry_lxor, Z.shiftl_mul_pow2; [done|lia|..];
    (apply Z.bits_inj'; intros i Hi; rewrite Z.land_spec, Z.bits_0, Z.shiftl_spec by done;
     destruct (Z.ltb_spec i k);
     [by rewrite (Z.testbit_neg_r b) by lia; rewrite andb_false_r
     |rewrite <-(Z.mod_small a (2 ^ k)), Z.mod_pow2_bits_high by lia; done]).
Qed.

(** Item pointers that the encoding can represent. *)
Definition tid_ok (t : ItemPointerData) : Prop := 0 ≤ ip_blkid t < 2 ^ 32 ∧ 0 ≤ ip_posid t < 2 ^ 11.

Lemma tid_number t : tid_ok t → itemptr_to_uint64 t = ip_posid t + ip_blkid t * 2 ^ 11.
Proof.
  intros [Hb Ho]. unfold itemptr_to_uint64, MaxHeapTuplesPerPageBits. rewrite u64_small.
  - rewrite Z.lor_comm. by apply lor_shift.
  - rewrite Z.shiftl_mul_pow2 by lia. lia.
Qed.

Lemma tid_number_bound t : tid_ok t → 0 ≤ itemptr_to_uint64 t < 2 ^ 43.
Proof. intros Ht. rewrite tid_number by done. destruct Ht. lia. Qed.

Lemma tid_order t : tid_ok t → itemptr_order t = ip_posid t + ip_blkid t * 2 ^ 32.
Proof.
  intros [Hb Ho]. unfold itemptr_order. rewrite u64_small.
  - rewrite Z.lor_comm. apply lor_shift; lia.
  - rewrite Z.shiftl_mul_pow2 by lia. lia.
Qed.

Lemma tid_number_inv t : tid_ok t → uint64_to_itemptr (itemptr_to_uint64 t) = t.
Proof.
  intros Ht. rewrite tid_number by done. destruct t as [blk off], Ht as [Hb Ho]. cbn [ip_blkid ip_posid] in *.
  unfold uint64_to_itemptr, MaxHeapTuplesPerPageBits. change (Z.shiftl 1 11 - 1) with (Z.ones 11).
  rewrite Z.shiftr_div_pow2, Z.land_ones, Z.div_add, Z.mod_add, (Z.div_small off), (Z.mod_small off) by lia.
  rewrite u32_small, u16_small by lia. f_equal.
Qed.

Lemma tid_lt a b : tid_ok a → tid_ok b → itemptr_order a < itemptr_order b ↔ itemptr_to_uint64 a < itemptr_to_uint64 b.
Proof. intros Ha Hb. rewrite !tid_number, !tid_order by done. destruct Ha, Hb. lia. Qed.

Lemma tid_number_inj a b : tid_ok a → tid_ok b → itemptr_to_uint64 a = itemptr_to_uint64 b → a = b.
Proof. intros Ha Hb E. rewrite <-(tid_number_inv a), <-(tid_number_inv b) by done. by rewrite E. Qed.

Lemma put_itemptr_len t : zlen (put_itemptr t) = 6.
Proof. done. Qed.

Lemma get_put_itemptr m a t bs : tid_ok t → holds m a (put_itemptr t ++ bs) → get_itemptr m a = Ok t ∧ holds m (a + 6) bs.
Proof.
  intros [Hb Ho] H. unfold put_itemptr in H. rewrite <-!app_assoc in H.
  assert (Hhi : 0 ≤ Z.shiftr (ip_blkid t) 16 < 256 ^ Z.of_nat 2) by (rewrite Z.shiftr_div_pow2 by lia; simpl; dlia).
  apply holds_rd in H as [E1 H]; [|done].
  assert (Hlo : le_bytes 2 (ip_blkid t) = le_bytes 2 (ip_blkid t mod 2 ^ 16)) by (cbn [le_bytes]; f_equal; [|f_equal]; dlia).
  rewrite Hlo in H. apply holds_rd in H as [E2 H]; [|simpl; dlia]. apply holds_rd in H as [E3 H]; [|simpl; lia].
  change (Z.of_nat 2) with 2 in *. replace (a + 2 + 2) with (a + 4) in * by lia. split; [|by replace (a + 6) with (a + 4 + 2) by lia].
  unfold get_itemptr. rewrite E1, E2, E3. cbn [mbind res_bind]. destruct t as [blk off]. cbn [ip_blkid ip_posid] in *. f_equal. f_equal.
  rewrite Z.lor_comm, lor_shift by dlia. rewrite Z.shiftr_div_pow2 by lia. dlia.
Qed.

(** ** The variable-length encoding *)

Lemma shiftr7 v : Z.shiftr v 7 = v / 128.
Proof. by rewrite Z.shiftr_div_pow2 by lia. Qed.

Lemma pow7_S n : 0 ≤ n → 2 ^ (7 * (1 + n)) = 128 * 2 ^ (7 * n).
Proof. intros. replace (7 * (1 + n)) with (7 + 7 * n) by lia. by rewrite Z.pow_add_r by lia. Qed.

Lemma varbyte_pos fuel v : 0 ≤ v < 2 ^ (7 * (1 + Z.of_nat fuel)) → 1 ≤ zlen (varbyte_loop fuel v).
Proof.
  revert v. induction fuel as [|fuel IH]; intros v Hv; cbn [varbyte_loop]; (destruct (Z.ltb_spec 0x7F v); [|done]);
    [simpl in Hv; lia|]. rewrite zlen_cons. pose proof (zlen_nonneg (varbyte_loop fuel (Z.shiftr v 7))). lia.
Qed.

(** The encoding has at most [k] bytes just when the number has at most
    [7 * k] bits. *)
Lemma varbyte_len fuel v k : 0 ≤ v < 2 ^ (7 * (1 + Z.of_nat fuel)) → 1 ≤ k → zlen (varbyte_loop fuel v) ≤ k ↔ v < 2 ^ (7 * k).
Proof.
  revert v k. induction fuel as [|fuel IH]; intros v k Hv Hk; cbn [varbyte_loop]; destruct (Z.ltb_spec 0x7F v) as [Hlt|Hle].
  - simpl in Hv. lia.
  - change (zlen [v]) with 1. split; [intros _|done]. replace k with (1 + (k - 1)) by lia. rewrite pow7_S by lia. nia.
  - rewrite Nat2Z.inj_succ, <-Z.add_1_l, pow7_S in Hv by lia. rewrite zlen_cons, shiftr7.
    assert (Hq : 0 ≤ v / 128 < 2 ^ (7 * (1 + Z.of_nat fuel))) by (split; [dlia|apply Z.div_lt_upper_bound; lia]).
    destruct (decide (k = 1)) as [->|Hk1].
    + pose proof (varbyte_pos fuel (v / 128) Hq). change (2 ^ (7 * 1)) with 128. lia.
    + pose proof (IH (v / 128) (k - 1) Hq ltac:(lia)) as E. replace k with (1 + (k - 1)) at 2 by lia. rewrite pow7_S by lia.
      pose proof (Z.pow_pos_nonneg 2 (7 * (k - 1))). split; intros; [|assert (v / 128 < 2 ^ (7 * (k - 1))) by (apply Z.div_lt_upper_bound; lia); lia].
      assert (v / 128 < 2 ^ (7 * (k - 1))) by (apply E; lia). dlia.
  - change (zlen [v]) with 1. split; [intros _|done]. replace k with (1 + (k - 1)) by lia. rewrite pow7_S by lia. nia.
Qed.

Lemma encode_len v k : 0 ≤ v < 2 ^ 64 → 1 ≤ k → zlen (encode_varbyte v) ≤ k ↔ v < 2 ^ (7 * k).
Proof. intros Hv. apply varbyte_len. simpl. lia. Qed.

Lemma encode_pos v : 0 ≤ v < 2 ^ 64 → 1 ≤ zlen (encode_varbyte v).
Proof. intros Hv. apply varbyte_pos. simpl. lia. Qed.

(** The low seven bits and the continuation bit of a byte. *)
Lemma cont_byte v : has_flag (Z.lor 0x80 (Z.land v 0x7F)) 0x80 = true ∧ Z.land (Z.lor 0x80 (Z.land v 0x7F)) 0x7F = v mod 128.
Proof.
  change 0x7F with (Z.ones 7). split.
  - unfold has_flag. rewrite Z.land_lor_distr_l, <-Z.land_assoc. change (Z.land (Z.ones 7) 0x80) with 0. rewrite Z.land_0_r. done.
  - rewrite Z.land_lor_distr_l, <-Z.land_assoc. change (Z.land 0x80 (Z.ones 7)) with 0. rewrite Z.lor_0_l, Z.land_diag, Z.land_ones by lia. done.
Qed.

Lemma last_byte v : 0 ≤ v < 128 → has_flag v 0x80 = false ∧ Z.land v 0x7F = v.
Proof.
  intros Hv. change 0x7F with (Z.ones 7). rewrite Z.land_ones, Z.mod_small by lia. split; [|done].
  unfold has_flag. change 0x80 with (Z.shiftl 1 7). replace v with (v mod 2 ^ 7) by (apply Z.mod_small; lia). apply negb_false_iff, Z.eqb_eq.
  rewrite <-Z.land_ones by lia. rewrite <-Z.land_assoc. change (Z.land (Z.ones 7) (Z.shiftl 1 7)) with 0. apply Z.land_0_r.
Qed.

Lemma decode_rest_encode n fuel m ptr shift val v bs : (n ≤ fuel)%nat → 0 ≤ shift → 0 ≤ val < 2 ^ shift →
  0 ≤ v < 2 ^ (7 * (1 + Z.of_nat n)) → holds m ptr (varbyte_loop fuel v ++ bs) →
  decode_rest n m ptr shift val = Ok (val + v * 2 ^ shift, ptr + zlen (varbyte_loop fuel v)).
Proof.
  revert fuel ptr shift val v. induction n as [|n IH]; intros fuel ptr shift val v Hf Hs Hval Hv H.
  - assert (Hv' : v < 128) by (simpl in Hv; lia). assert (E : varbyte_loop fuel v = [v]) by (destruct fuel; cbn [varbyte_loop]; by destruct (Z.ltb_spec 0x7F v); [lia|]).
    rewrite E in *. apply holds_byte in H as [Er _]. cbn [decode_rest]. rewrite Er. cbn [mbind res_bind]. by rewrite lor_shift.
  - destruct fuel as [|fuel]; [lia|]. cbn [varbyte_loop] in *. destruct (Z.ltb_spec 0x7F v) as [Hlt|Hle].
    + apply holds_byte in H as [Er H]. cbn [decode_rest]. rewrite Er. cbn [mbind res_bind]. destruct (cont_byte v) as [-> ->]. rewrite shiftr7 in *.
      rewrite Nat2Z.inj_succ, <-Z.add_1_l, pow7_S in Hv by lia. pose proof (Z.pow_pos_nonneg 2 shift).
      pose proof (Z.mod_pos_bound v 128). pose proof (Z.div_mod v 128).
      rewrite lor_shift, (IH fuel (ptr + 1) (shift + 7) _ (v / 128)), zlen_cons; [|lia|lia|rewrite Z.pow_add_r by lia; change (2 ^ 7) with 128; nia|split; [dlia|apply Z.div_lt_upper_bound; lia]|done|lia|lia].
      rewrite Z.pow_add_r by lia. change (2 ^ 7) with 128. f_equal. f_equal; [nia|lia].
    + apply holds_byte in H as [Er _]. cbn [decode_rest]. rewrite Er. cbn [mbind res_bind]. destruct (last_byte v) as [-> ->]; [lia|]. by rewrite lor_shift.
Qed.

Lemma decode_encode m ptr v bs : 0 ≤ v < 2 ^ 49 → holds m ptr (encode_varbyte v ++ bs) →
  decode_varbyte m ptr = Ok (v, ptr + zlen (encode_varbyte v)).
Proof.
  intros Hv H. unfold decode_varbyte. rewrite (decode_rest_encode 6 10 m ptr 0 0 v bs); [|lia|lia|simpl; lia|simpl; lia|exact H].
  f_equal. f_equal. lia.
Qed.

(** ** Segments *)

(** The order of item pointers, and arrays in that order. *)
Definition tid_before (a b : ItemPointerData) : Prop := itemptr_order a < itemptr_order b.
Definition sorted_tids (l : list ItemPointerData) : Prop := Forall tid_ok l ∧ StronglySorted tid_before l.

(** The differences from [prev] on, encoded. *)
Fixpoint encoding (prev : Z) (l : list ItemPointerData) : list Z :=
  match l with
  | [] => []
  | t :: l => encode_varbyte (itemptr_to_uint64 t - prev) ++ encoding (itemptr_to_uint64 t) l
  end.

(** The segment that holds the items. *)
Definition posting_segment (l : list ItemPointerData) : list Z :=
  match l with
  | [] => []
  | first :: l =>
      let out := encoding (itemptr_to_uint64 first) l in
      put_itemptr first ++ le_bytes 2 (zlen out) ++ out ++ (if zlen out =? SHORTALIGN (zlen out) then [] else [0])
  end.
Definition segment_ok (l : list ItemPointerData) : Prop :=
  l ≠ [] ∧ sorted_tids l ∧ zlen (posting_segment l) ≤ 2 ^ 16.

(** Increasing numbers above [prev]. *)
Fixpoint chain (prev : Z) (l : list ItemPointerData) : Prop :=
  match l with
  | [] => True
  | t :: l => tid_ok t ∧ prev < itemptr_to_uint64 t ∧ chain (itemptr_to_uint64 t) l
  end.

Lemma sorted_chain t l : sorted_tids (t :: l) → tid_ok t ∧ chain (itemptr_to_uint64 t) l.
Proof.
  revert t. induction l as [|u l IH]; intros t [Hok Hs].
  - split; [by inversion Hok|done].
  - inversion Hok as [|?? Ht Hok']; subst. inversion Hs as [|?? Hs' Hf]; subst. split; [done|].
    destruct (IH u (conj Hok' Hs')) as [Hu Hc]. split; [done|]. split; [|done]. apply (proj1 (tid_lt _ _ Ht Hu)). by inversion Hf.
Qed.

Lemma delta_bound prev t : 0 ≤ prev → tid_ok t → prev < itemptr_to_uint64 t → 0 < itemptr_to_uint64 t - prev < 2 ^ 43.
Proof. intros ? ?%tid_number_bound ?. lia. Qed.

Lemma encode_delta_len prev t : 0 ≤ prev → tid_ok t → prev < itemptr_to_uint64 t →
  1 ≤ zlen (encode_varbyte (itemptr_to_uint64 t - prev)) ≤ MaxBytesPerInteger.
Proof.
  intros Hp Ht Hlt. pose proof (delta_bound prev t Hp Ht Hlt). split; [apply encode_pos; lia|].
  apply encode_len; unfold MaxBytesPerInteger; [lia|lia|]. simpl. lia.
Qed.

Lemma compress_loop_spec l : ∀ prev maxbytes out n, 0 ≤ prev → chain prev l → zlen out ≤ maxbytes →
  ∃ k : nat, (k ≤ length l)%nat ∧
    pack_loop l prev maxbytes out n = Ok (out ++ encoding prev (take k l), n + Z.of_nat k) ∧
    zlen out + zlen (encoding prev (take k l)) ≤ maxbytes ∧
    ((k < length l)%nat → maxbytes < zlen out + zlen (encoding prev (take (S k) l))).
Proof.
  induction l as [|t l IH]; intros prev maxbytes out n Hp Hc Hout.
  { exists 0%nat. cbn [take encoding pack_loop length]. rewrite app_nil_r, Z.add_0_r. split; [lia|]. split; [done|].
    change (zlen []) with 0. split; [lia|lia]. }
  destruct Hc as (Ht & Hlt & Hc). pose proof (delta_bound _ _ Hp Ht Hlt) as Hd. pose proof (encode_delta_len _ _ Hp Ht Hlt) as He.
  cbn [pack_loop]. rewrite u64_small by lia. set (enc := encode_varbyte (itemptr_to_uint64 t - prev)) in *.
  assert (Hgo : zlen enc ≤ maxbytes - zlen out → ∃ k : nat, (k ≤ length (t :: l))%nat ∧
    pack_loop l (itemptr_to_uint64 t) maxbytes (out ++ enc) (n + 1) = Ok (out ++ encoding prev (take k (t :: l)), n + Z.of_nat k) ∧
    zlen out + zlen (encoding prev (take k (t :: l))) ≤ maxbytes ∧
    ((k < length (t :: l))%nat → maxbytes < zlen out + zlen (encoding prev (take (S k) (t :: l))))).
  { intros Hfit. pose proof (tid_number_bound t Ht). destruct (IH (itemptr_to_uint64 t) maxbytes (out ++ enc) (n + 1)) as (k & Hk & E & Hle & Hmore);
      [lia|done|rewrite zlen_app; lia|]. exists (S k). cbn [length take encoding]. fold enc. rewrite E, !zlen_app, app_assoc in *.
    split; [lia|]. split; [f_equal; f_equal; lia|]. split; [lia|]. intros Hk'. specialize (Hmore ltac:(lia)). lia. }
  destruct (Z.leb_spec MaxBytesPerInteger (maxbytes - zlen out)).
  { rewrite (proj2 (Z.leb_le _ _)) by lia. apply Hgo. lia. }
  rewrite (proj2 (Z.ltb_ge _ _)) by lia. destruct (Z.ltb_spec (maxbytes - zlen out) (zlen enc)); [|apply Hgo; lia].
  exists 0%nat. cbn [take encoding length]. fold enc. rewrite app_nil_r, Z.add_0_r. split; [lia|]. split; [done|]. change (zlen []) with 0.
  split; [lia|]. intros _. rewrite zlen_app. pose proof (zlen_nonneg (encoding (itemptr_to_uint64 t) (take 0 l))). cbn [take encoding] in *. lia.
Qed.

Lemma encoding_length prev l : 0 ≤ prev → chain prev l → zlen l ≤ zlen (encoding prev l).
Proof.
  revert prev. induction l as [|t l IH]; intros prev Hp Hc; [done|]. destruct Hc as (Ht & Hlt & Hc). cbn [encoding].
  rewrite zlen_cons, zlen_app. pose proof (encode_delta_len _ _ Hp Ht Hlt). pose proof (tid_number_bound t Ht). specialize (IH (itemptr_to_uint64 t) ltac:(lia) Hc). lia.
Qed.

Lemma decode_items_encoding l : ∀ fuel m ptr prev bs, 0 ≤ prev → chain prev l → (length l ≤ fuel)%nat →
  holds m ptr (encoding prev l ++ bs) → decode_items fuel m ptr (ptr + zlen (encoding prev l)) prev = Ok l.
Proof.
  induction l as [|t l IH]; intros fuel m ptr prev bs Hp Hc Hf H.
  { cbn [encoding]. change (zlen []) with 0. rewrite Z.add_0_r. destruct fuel; cbn [decode_items]; by rewrite Z.ltb_irrefl. }
  destruct Hc as (Ht & Hlt & Hc). cbn [length] in Hf. destruct fuel as [|fuel]; [lia|]. pose proof (tid_number_bound t Ht).
  pose proof (encode_delta_len _ _ Hp Ht Hlt) as He. pose proof (delta_bound _ _ Hp Ht Hlt) as Hd. cbn [encoding] in *.
  rewrite <-app_assoc in H. pose proof (λ Hv, decode_encode m ptr (itemptr_to_uint64 t - prev) _ Hv H) as E. specialize (E ltac:(lia)). apply holds_app in H as [_ H].
  rewrite zlen_app. cbn [decode_items]. pose proof (zlen_nonneg (encoding (itemptr_to_uint64 t) l)).
  match goal with |- context [?x <? ?y] => destruct (Z.ltb_spec x y); [|lia] end. rewrite E. cbn [mbind res_bind]. cbv zeta.
  replace (u64 (prev + (itemptr_to_uint64 t - prev))) with (itemptr_to_uint64 t) by (rewrite u64_small by lia; lia).
  rewrite Z.add_assoc, (IH fuel m _ _ bs); [|lia|done|lia|done]. cbn [mbind res_bind]. by rewrite tid_number_inv.
Qed.

Lemma pad_len n : n + zlen (if n =? SHORTALIGN n then [] else [0]) = SHORTALIGN n.
Proof. rewrite SHORTALIGN_eq. destruct (Z.eqb_spec n ((n + 1) / 2 * 2)) as [E|]; [change (zlen []) with 0|change (zlen [0]) with 1]; dlia. Qed.

Lemma segment_size t l : zlen (posting_segment (t :: l)) = SizeOfGinPostingList (zlen (encoding (itemptr_to_uint64 t) l)).
Proof.
  cbn [posting_segment]. rewrite !zlen_app, put_itemptr_len, zlen_le_bytes. unfold SizeOfGinPostingList, offsetof_bytes.
  pose proof (pad_len (zlen (encoding (itemptr_to_uint64 t) l))). lia.
Qed.

Lemma SHORTALIGN_bounds n : n ≤ SHORTALIGN n ≤ n + 1.
Proof. rewrite SHORTALIGN_eq. dlia. Qed.

Lemma segment_parts m a l bs : segment_ok l → holds m a (posting_segment l ++ bs) → ∃ t l', l = t :: l' ∧
  get_itemptr m a = Ok t ∧ rd 2 m (a + 6) = Ok (zlen (encoding (itemptr_to_uint64 t) l')) ∧
  decode_items (Z.to_nat (zlen (encoding (itemptr_to_uint64 t) l'))) m (a + 8) (a + 8 + zlen (encoding (itemptr_to_uint64 t) l'))
    (itemptr_to_uint64 t) = Ok l'.
Proof.
  intros (Hne & Hs & Hlen) H. destruct l as [|t l]; [done|]. exists t, l. split; [done|]. destruct (sorted_chain _ _ Hs) as [Ht Hc].
  rewrite segment_size in Hlen. pose proof (SHORTALIGN_bounds (zlen (encoding (itemptr_to_uint64 t) l))).
  pose proof (zlen_nonneg (encoding (itemptr_to_uint64 t) l)). unfold SizeOfGinPostingList, offsetof_bytes in Hlen.
  cbn [posting_segment] in H. rewrite <-!app_assoc in H. apply get_put_itemptr in H as [E1 H]; [|done].
  apply holds_rd in H as [E2 H]; [|simpl; lia]. split; [done|]. split; [done|].
  replace (a + 6 + Z.of_nat 2) with (a + 8) in H by lia. pose proof (tid_number_bound t Ht). eapply decode_items_encoding; [lia|done| |exact H].
  pose proof (encoding_length (itemptr_to_uint64 t) l ltac:(lia) Hc). unfold zlen in *. lia.
Qed.

Lemma holds_drop m a x y : holds m a (x ++ y) → holds m (a + zlen x) y.
Proof. by intros [_ ?]%holds_app. Qed.

(** Decoding a run of segments gives the items of all of them. *)
Lemma decode_segments_spec ls : ∀ fuel m a bs, Forall segment_ok ls → (length ls ≤ fuel)%nat →
  holds m a (concat (posting_segment <$> ls) ++ bs) →
  decode_segments fuel m a (a + zlen (concat (posting_segment <$> ls))) = Ok (concat ls).
Proof.
  induction ls as [|l ls IH]; intros fuel m a bs Hok Hf H.
  { cbn. change (zlen []) with 0. rewrite Z.add_0_r. destruct fuel; cbn [decode_segments]; by rewrite Z.ltb_irrefl. }
  cbn [length] in Hf. destruct fuel as [|fuel]; [lia|]. apply Forall_cons in Hok as [Hl Hok].
  cbn [fmap list_fmap concat] in *. rewrite <-app_assoc in H. destruct (segment_parts _ _ _ _ Hl H) as (t & l' & -> & E1 & E2 & E3).
  apply holds_drop in H. rewrite zlen_app, segment_size in *. pose proof (zlen_nonneg (encoding (itemptr_to_uint64 t) l')) as Hn.
  pose proof (SHORTALIGN_bounds (zlen (encoding (itemptr_to_uint64 t) l'))). pose proof (zlen_nonneg (concat (posting_segment <$> ls))).
  cbn [decode_segments]. match goal with |- context [?x <? ?y] => destruct (Z.ltb_spec x y); [|unfold SizeOfGinPostingList, offsetof_bytes in *; lia] end.
  rewrite E1, E2. cbn [mbind res_bind]. cbv zeta. change (a + offsetof_bytes) with (a + 8). rewrite E3. cbn [mbind res_bind].
  rewrite Z.add_assoc, (IH fuel m _ bs Hok ltac:(lia) H). done.
Qed.

Lemma segments_length ls : Forall segment_ok ls → zlen ls ≤ zlen (concat (posting_segment <$> ls)).
Proof.
  induction 1 as [|l ls Hl _ IH]; [done|]. cbn [fmap list_fmap concat]. rewrite zlen_cons, zlen_app.
  destruct Hl as (Hne & _ & _). destruct l as [|t l]; [done|]. rewrite segment_size. pose proof (zlen_nonneg (encoding (itemptr_to_uint64 t) l)).
  pose proof (SHORTALIGN_bounds (zlen (encoding (itemptr_to_uint64 t) l))). unfold SizeOfGinPostingList, offsetof_bytes. lia.
Qed.

Lemma decode_all_spec m a ls bs : Forall segment_ok ls → holds m a (concat (posting_segment <$> ls) ++ bs) →
  ginPostingListDecodeAllSegments m a (zlen (concat (posting_segment <$> ls))) = Ok (concat ls).
Proof. intros Hok H. eapply decode_segments_spec; [done| |done]. pose proof (segments_length ls Hok). unfold zlen in *. lia. Qed.

Lemma decode_segment_spec m a l bs : segment_ok l → holds m a (posting_segment l ++ bs) → ginPostingListDecode m a = Ok l.
Proof.
  intros Hl H. destruct (segment_parts _ _ _ _ Hl H) as (t & l' & -> & _ & E2 & _). unfold ginPostingListDecode. rewrite E2. cbn [mbind res_bind].
  rewrite <-segment_size. pose proof (decode_all_spec m a [t :: l'] bs (proj2 (Forall_singleton _ _) Hl)) as E.
  cbn [fmap list_fmap concat] in E. rewrite !app_nil_r in E. by apply E.
Qed.

Lemma sorted_take k l : sorted_tids l → sorted_tids (take k l).
Proof.
  intros [Hok Hs]. split; [by apply Forall_take|]. revert k. induction Hs as [|t l Hs IH Hf]; intros [|k]; cbn [take]; constructor.
  - apply IH. by inversion Hok.
  - by apply Forall_take.
Qed.

(** What compression writes: the segment of the longest prefix that fits. *)
Lemma compress_spec l maxsize : l ≠ [] → sorted_tids l → offsetof_bytes ≤ maxsize ≤ 2 ^ 16 → ∃ n : nat,
  (1 ≤ n ≤ length l)%nat ∧ ginCompressPostingList l maxsize = Ok (posting_segment (take n l), Z.of_nat n) ∧
  segment_ok (take n l) ∧ zlen (posting_segment (take n l)) ≤ maxsize ∧
  ((n < length l)%nat → maxsize < zlen (posting_segment (take (S n) l))).
Proof.
  intros Hne Hs Hm. destruct l as [|t l]; [done|]. destruct (sorted_chain _ _ Hs) as [Ht Hc]. pose proof (tid_number_bound t Ht).
  unfold offsetof_bytes in *.
  assert (Hdown : SHORTALIGN_DOWN maxsize = maxsize / 2 * 2) by (unfold SHORTALIGN_DOWN; by rewrite (align_spec 1)).
  destruct (compress_loop_spec l (itemptr_to_uint64 t) (SHORTALIGN_DOWN maxsize - 8) [] 1) as (k & Hk & E & Hle & Hmore);
    [lia|done|change (zlen []) with 0; rewrite Hdown; dlia|]. change (zlen (@nil Z)) with 0 in *. rewrite app_nil_l in E. rewrite Hdown in Hle, Hmore.
  set (out := encoding (itemptr_to_uint64 t) (take k l)) in *. pose proof (zlen_nonneg out).
  assert (Hsz : zlen (posting_segment (t :: take k l)) ≤ maxsize).
  { rewrite segment_size. fold out. unfold SizeOfGinPostingList, offsetof_bytes. rewrite SHORTALIGN_eq. dlia. }
  exists (S k). cbn [length take]. split; [lia|]. split; [|split; [|split; [done|]]].
  - cbn [ginCompressPostingList]. unfold offsetof_bytes. rewrite E. cbn [mbind res_bind posting_segment]. fold out. rewrite u16_small by dlia.
    f_equal. f_equal. lia.
  - split; [done|]. split; [by apply (sorted_take (S k) (t :: l))|lia].
  - intros Hk'. specialize (Hmore ltac:(lia)). rewrite segment_size. unfold SizeOfGinPostingList, offsetof_bytes. rewrite SHORTALIGN_eq. cbn [take] in *. dlia.
Qed.

(** ** Removing items *)

(** The encoding of a sum is not longer than those of its summands. *)
Lemma encode_sum a b : 0 < a < 2 ^ 43 → 0 < b < 2 ^ 43 →
  zlen (encode_varbyte (a + b)) ≤ zlen (encode_varbyte a) + zlen (encode_varbyte b).
Proof.
  intros Ha Hb. pose proof (encode_pos a ltac:(lia)). pose proof (encode_pos b ltac:(lia)).
  assert (Ea : a < 2 ^ (7 * zlen (encode_varbyte a))) by (apply encode_len; lia).
  assert (Eb : b < 2 ^ (7 * zlen (encode_varbyte b))) by (apply encode_len; lia).
  apply encode_len; [lia..|]. rewrite Z.mul_add_distr_l, Z.pow_add_r by lia.
  pose proof (Z.pow_le_mono_r 2 7 (7 * zlen (encode_varbyte a)) ltac:(lia) ltac:(lia)).
  pose proof (Z.pow_le_mono_r 2 7 (7 * zlen (encode_varbyte b)) ltac:(lia) ltac:(lia)). nia.
Qed.

Lemma chain_sublist l l' : sublist l' l → ∀ prev, chain prev l → chain prev l'.
Proof.
  induction 1 as [|t l' l Hs IH|t l' l Hs IH]; intros prev Hc; [done|..]; destruct Hc as (Ht & Hlt & Hc).
  - split; [done|]. split; [done|]. by apply IH.
  - specialize (IH _ Hc). destruct l' as [|u l']; [done|]. destruct IH as (Hu & Hu' & IH). split; [done|]. split; [lia|done].
Qed.

Lemma encoding_skip prev t l : 0 ≤ prev → tid_ok t → prev < itemptr_to_uint64 t → chain (itemptr_to_uint64 t) l →
  zlen (encoding prev l) ≤ zlen (encode_varbyte (itemptr_to_uint64 t - prev)) + zlen (encoding (itemptr_to_uint64 t) l).
Proof.
  intros Hp Ht Hlt Hc. destruct l as [|u l].
  { cbn [encoding]. change (zlen (@nil Z)) with 0. pose proof (zlen_nonneg (encode_varbyte (itemptr_to_uint64 t - prev))). lia. }
  destruct Hc as (Hu & Hlt' & _). cbn [encoding]. rewrite !zlen_app. pose proof (tid_number_bound t Ht). pose proof (tid_number_bound u Hu).
  pose proof (encode_sum (itemptr_to_uint64 t - prev) (itemptr_to_uint64 u - itemptr_to_uint64 t) ltac:(lia) ltac:(lia)) as E.
  replace (itemptr_to_uint64 t - prev + (itemptr_to_uint64 u - itemptr_to_uint64 t)) with (itemptr_to_uint64 u - prev) in E by lia. lia.
Qed.

Lemma encoding_sublist l l' : sublist l' l → ∀ prev, 0 ≤ prev → chain prev l → zlen (encoding prev l') ≤ zlen (encoding prev l).
Proof.
  induction 1 as [|t l' l Hs IH|t l' l Hs IH]; intros prev Hp Hc; [done|..]; destruct Hc as (Ht & Hlt & Hc);
    pose proof (tid_number_bound t Ht); specialize (IH (itemptr_to_uint64 t) ltac:(lia) Hc); cbn [encoding]; rewrite !zlen_app; [lia|].
  pose proof (encoding_skip prev t l' Hp Ht Hlt (chain_sublist _ _ Hs _ Hc)). lia.
Qed.

Lemma SHORTALIGN_mono x y : x ≤ y → SHORTALIGN x ≤ SHORTALIGN y.
Proof. rewrite !SHORTALIGN_eq. intros. dlia. Qed.

Lemma segment_sublist l l' : sorted_tids l → l' ≠ [] → sublist l' l → zlen (posting_segment l') ≤ zlen (posting_segment l).
Proof.
  intros Hs Hne Hsub. destruct l as [|t l]; [by apply sublist_nil_r in Hsub|]. destruct l' as [|u l']; [done|].
  destruct (sorted_chain _ _ Hs) as [Ht Hc]. pose proof (tid_number_bound t Ht). rewrite !segment_size. unfold SizeOfGinPostingList.
  enough (zlen (encoding (itemptr_to_uint64 u) l') ≤ zlen (encoding (itemptr_to_uint64 t) l)) by (pose proof (SHORTALIGN_mono _ _ ltac:(eassumption)); lia).
  inversion Hsub as [|? ? ? Hsub'|? ? ? Hsub']; subst; [apply (encoding_sublist _ _ Hsub'); [lia|done]|].
  pose proof (encoding_sublist _ _ Hsub' (itemptr_to_uint64 t) ltac:(lia) Hc) as H'. cbn [encoding] in H'. rewrite zlen_app in H'.
  pose proof (zlen_nonneg (encode_varbyte (itemptr_to_uint64 u - itemptr_to_uint64 t))). lia.
Qed.

Lemma forall_sublist (P : ItemPointerData → Prop) l l' : sublist l' l → Forall P l → Forall P l'.
Proof. rewrite !Forall_forall. intros Hsub Hl t Ht. apply Hl. by eapply elem_of_sublist. Qed.

Lemma sorted_sublist l l' : sublist l' l → sorted_tids l → sorted_tids l'.
Proof.
  intros Hsub [Hok Hs]. split; [by eapply forall_sublist|]. clear Hok. induction Hsub as [|t l' l Hsub IH|t l' l Hsub IH]; [done|..]; inversion Hs; subst.
  - constructor; [by apply IH|by eapply forall_sublist].
  - by apply IH.
Qed.

(** ** Merging *)

Lemma compare_cases a b : tid_ok a → tid_ok b →
  (ginCompareItemPointers a b = 0 ∧ a = b) ∨ (ginCompareItemPointers a b = 1 ∧ tid_before b a) ∨
  (ginCompareItemPointers a b = -1 ∧ tid_before a b).
Proof.
  intros Ha Hb. unfold ginCompareItemPointers, tid_before. destruct (Z.eqb_spec (itemptr_order a) (itemptr_order b)) as [E|E].
  - left. split; [done|]. pose proof (proj2 (tid_lt a b Ha Hb)). pose proof (proj2 (tid_lt b a Hb Ha)). apply tid_number_inj; [done..|lia].
  - right. destruct (Z.ltb_spec (itemptr_order b) (itemptr_order a)); [left|right]; (split; [done|lia]).
Qed.

#[export] Instance tid_before_trans : Transitive tid_before.
Proof. intros x y z. unfold tid_before. lia. Qed.

Lemma sorted_cons t l : sorted_tids (t :: l) ↔ tid_ok t ∧ (∀ u, u ∈ l → tid_before t u) ∧ sorted_tids l.
Proof.
  unfold sorted_tids. rewrite Forall_cons. split.
  - intros [[Ht Hok] Hs]. inversion Hs as [|?? Hs' Hf]; subst. rewrite Forall_forall in Hf. auto.
  - intros (Ht & Hf & Hok & Hs). split; [done|]. constructor; [done|]. by rewrite Forall_forall.
Qed.

Lemma sorted_app a b : sorted_tids a → sorted_tids b → (∀ x y, x ∈ a → y ∈ b → tid_before x y) → sorted_tids (a ++ b).
Proof.
  intros Ha Hb Hab. induction a as [|x a IH]; [done|]. apply sorted_cons in Ha as (Hx & Hf & Ha). cbn [app]. apply sorted_cons.
  split; [done|]. split; [|apply IH; [done|]; intros; apply Hab; [by right|done]]. intros u [Hu|Hu]%elem_of_app; [by apply Hf|apply Hab; [by left|done]].
Qed.

Lemma merge_loop_eq x a y b : merge_loop (x :: a) (y :: b) =
  let cmp := ginCompareItemPointers x y in
  if 0 <? cmp then y :: merge_loop (x :: a) b else if cmp =? 0 then y :: merge_loop a b else x :: merge_loop a (y :: b).
Proof. done. Qed.

Lemma merge_loop_spec a b : sorted_tids a → sorted_tids b →
  sorted_tids (merge_loop a b) ∧ (∀ t, t ∈ merge_loop a b ↔ t ∈ a ∨ t ∈ b).
Proof.
  revert b. induction a as [|x a IHa]; [intros b _ Hb; split; [done|]; intros t; cbn [merge_loop]; rewrite elem_of_nil; tauto|].
  induction b as [|y b IHb]; intros Ha Hb; [split; [done|]; intros t; cbn [merge_loop]; rewrite elem_of_nil; tauto|].
  pose proof Ha as (Hx & Hfa & Ha')%sorted_cons. pose proof Hb as (Hy & Hfb & Hb')%sorted_cons. rewrite merge_loop_eq. cbv zeta.
  destruct (compare_cases x y Hx Hy) as [[-> <-]|[[-> Hyx]|[-> Hxy]]]; cbn [Z.ltb Z.eqb Z.compare].
  - destruct (IHa b Ha' Hb') as [Hs Hm]. split; [|intros t; rewrite elem_of_cons, Hm, ?elem_of_cons; tauto]. apply sorted_cons. split; [done|]. split; [|done].
    intros u [?|?]%Hm; auto.
  - destruct (IHb Ha Hb') as [Hs Hm]. split; [|intros t; rewrite elem_of_cons, Hm, ?elem_of_cons; tauto]. apply sorted_cons. split; [done|]. split; [|done].
    intros u [[->|Hu]%elem_of_cons|Hu]%Hm; [done| |by apply Hfb]. etrans; [done|by apply Hfa].
  - destruct (IHa (y :: b) Ha' Hb) as [Hs Hm]. split; [|intros t; rewrite elem_of_cons, Hm, ?elem_of_cons; tauto]. apply sorted_cons. split; [done|]. split; [|done].
    intros u [Hu|[->|Hu]%elem_of_cons]%Hm; [by apply Hfa|done|]. etrans; [done|by apply Hfb].
Qed.

(** Every item is at or before the last and at or after the first. *)
Lemma sorted_last l t u : sorted_tids l → last l = Some t → u ∈ l → u = t ∨ tid_before u t.
Proof.
  intros Hs. induction l as [|x l IH]; [done|]. apply sorted_cons in Hs as (_ & Hf & Hs). rewrite last_cons. destruct (last l) as [z|] eqn:E.
  - intros [= ->] [->|Hu]%elem_of_cons; [right; apply Hf; by apply last_Some_elem_of in E|by apply IH].
  - intros [= ->] [->|Hu]%elem_of_cons; [by left|]. apply last_None in E as ->. by apply not_elem_of_nil in Hu.
Qed.

Lemma sorted_head l t u : sorted_tids l → head l = Some t → u ∈ l → u = t ∨ tid_before t u.
Proof.
  intros Hs. destruct l as [|x l]; [done|]. apply sorted_cons in Hs as (_ & Hf & _). intros [= ->] [->|Hu]%elem_of_cons; [by left|].
  right. by apply Hf.
Qed.

(** Arrays of which one ends before the other begins. *)
Lemma merge_disjoint a b alast bfirst : sorted_tids a → sorted_tids b → last a = Some alast → head b = Some bfirst →
  ginCompareItemPointers alast bfirst < 0 → sorted_tids (a ++ b).
Proof.
  intros Ha Hb El Eh Hc. apply sorted_app; [done..|]. intros x y Hx Hy.
  assert (Hlt : tid_before alast bfirst). { unfold ginCompareItemPointers, tid_before in *. repeat (zcase || case_match); lia. }
  destruct (sorted_last _ _ _ Ha El Hx) as [->|?], (sorted_head _ _ _ Hb Eh Hy) as [->|?]; unfold tid_before in *; lia.
Qed.
