(* ===== verification/Gin.v ===== *)
(** * GIN pages and their redo routines: [ginblock.h], [ginxlog.c]

    The pages of a GIN index, the changes to a posting tree page (posting items
    of an internal page, recompression of the segments of a leaf page), and
    the insertion into an entry tree page. *)

From S2P Require Import Prelude Mem Page PageAdd PageIndex PageCompact Buffer WalRecord HeapTuple HeapRedo Btree Brin GinPosting.

(** ** Pages *)

Definition sizeof_GinPageOpaqueData : Z := 8.
Definition gin_rightlink : Z := 0.
Definition gin_maxoff : Z := 4.
Definition gin_flags : Z := 6.

Definition GIN_DATA : Z := 1.
Definition GIN_LEAF : Z := 2.
Definition GIN_DELETED : Z := 4.
Definition GIN_META : Z := 8.
Definition GIN_LIST : Z := 16.
Definition GIN_LIST_FULLROW : Z := 32.
Definition GIN_INCOMPLETE_SPLIT : Z := 64.
Definition GIN_COMPRESSED : Z := 128.

Definition gin_get (n : nat) (p : page) (field : Z) : res Z := opaque_get n p (PageGetSpecialPointer p) field.
Definition gin_set (n : nat) (p : page) (field v : Z) : res page := opaque_set n p (PageGetSpecialPointer p) field v.
Definition gin_mark (p : page) (f : Z) : res page := flags ← gin_get 2 p gin_flags; gin_set 2 p gin_flags (set_flag flags f).
Definition gin_clear (p : page) (f : Z) : res page := flags ← gin_get 2 p gin_flags; gin_set 2 p gin_flags (clear_flag flags f).
Definition GinPageIsCompressed (p : page) : res bool := flags ← gin_get 2 p gin_flags; Ok (has_flag flags GIN_COMPRESSED).
Definition GinPageSetDeleteXid (p : page) (xid : Z) : page := set_pd_prune_xid p xid.

Definition GinInitPage (f : Z) : res page :=
  let p := PageInit BLCKSZ sizeof_GinPageOpaqueData in
  p ← store p (PageGetSpecialPointer p) (replicate 8 0);
  p ← gin_set 2 p gin_flags f;
  gin_set 4 p gin_rightlink InvalidBlockNumber.

(** [GinMetaPageData], at the start of the page contents: the fields with
    their offsets and widths. *)
Definition sizeof_GinMetaPageData : Z := 56.
Definition GIN_CURRENT_VERSION : Z := 2.
Definition gin_meta_init : list (Z * nat * Z) :=
  [(0, 4%nat, InvalidBlockNumber); (4, 4%nat, InvalidBlockNumber); (8, 4%nat, 0); (12, 4%nat, 0); (16, 8%nat, 0);
   (24, 4%nat, 0); (28, 4%nat, 0); (32, 4%nat, 0); (40, 8%nat, 0); (48, 4%nat, GIN_CURRENT_VERSION)].
Definition GinInitMetabuffer : res page :=
  p ← GinInitPage GIN_META;
  let p := foldl (λ p '(off, n, v), mput n p (PageGetContents + off) v) p gin_meta_init in
  Ok (set_pd_lower p (PageGetContents + sizeof_GinMetaPageData)).

(** ** Posting tree pages *)

Definition GinDataPageGetData : Z := PageGetContents + MAXALIGN sizeof_ItemPointerData.
Definition sizeof_PostingItem : Z := 10.
Definition GinDataPageGetPostingItem (i : Z) : Z := GinDataPageGetData + (i - 1) * sizeof_PostingItem.
Definition GinDataPageSetDataSize (p : page) (size : Z) : page :=
  set_pd_lower p (size + MAXALIGN SizeOfPageHeaderData + MAXALIGN sizeof_ItemPointerData).
Definition GinDataLeafPageGetPostingListSize (p : page) : Z :=
  pd_lower p - MAXALIGN SizeOfPageHeaderData - MAXALIGN sizeof_ItemPointerData.

(** [BlockIdGetBlockNumber] and the bytes of [BlockIdSet]. *)
Definition get_blockid (m : mem) (a : Z) : res Z :=
  hi ← rd 2 m a; lo ← rd 2 m (a + 2); Ok (Z.lor (Z.shiftl hi 16) lo).
Definition put_blockid (blk : Z) : list Z := le_bytes 2 (Z.shiftr blk 16) ++ le_bytes 2 blk.

Definition GinDataPageAddPostingItem (p : page) (data : list Z) (offset : Z) : res page :=
  maxoff ← gin_get 2 p gin_maxoff;
  '(p, ptr) ←
    (if offset =? InvalidOffsetNumber then Ok (p, GinDataPageGetPostingItem (maxoff + 1))
     else
       let ptr := GinDataPageGetPostingItem offset in
       p ← (if negb (offset =? maxoff + 1) then
              bs ← load p ptr ((maxoff - offset + 1) * sizeof_PostingItem);
              store p (ptr + sizeof_PostingItem) bs
            else Ok p);
       Ok (p, ptr));
  p ← store p ptr data;
  let maxoff := u16 (maxoff + 1) in
  p ← gin_set 2 p gin_maxoff maxoff;
  Ok (GinDataPageSetDataSize p (maxoff * sizeof_PostingItem)).

Definition GinPageDeletePostingItem (p : page) (offset : Z) : res page :=
  maxoff ← gin_get 2 p gin_maxoff;
  p ← (if negb (offset =? maxoff) then
         bs ← load p (GinDataPageGetPostingItem (offset + 1)) (sizeof_PostingItem * (maxoff - offset));
         store p (GinDataPageGetPostingItem offset) bs
       else Ok p);
  let maxoff := u16 (maxoff - 1) in
  p ← gin_set 2 p gin_maxoff maxoff;
  Ok (GinDataPageSetDataSize p (maxoff * sizeof_PostingItem)).

(** ** Recompression of a leaf page *)

Definition GIN_SEGMENT_DELETE : Z := 1.
Definition GIN_SEGMENT_INSERT : Z := 2.
Definition GIN_SEGMENT_REPLACE : Z := 3.
Definition GIN_SEGMENT_ADDITEMS : Z := 4.

Definition segment_size_at (m : mem) (a : Z) : res Z := nbytes ← rd 2 m (a + 6); Ok (SizeOfGinPostingList nbytes).

Fixpoint get_itemptrs (m : mem) (a : Z) (n : nat) : res (list ItemPointerData) :=
  match n with
  | O => Ok []
  | S n => t ← get_itemptr m a; ts ← get_itemptrs m (a + sizeof_ItemPointerData) n; Ok (t :: ts)
  end.

(** A page in the format before 9.4 holds an array of item pointers. *)
Definition gin_convert_page (p : page) : res page :=
  nuncompressed ← gin_get 2 p gin_maxoff;
  '(p, totalsize) ←
    (if 0 <? nuncompressed then
       uncompressed ← get_itemptrs p GinDataPageGetData (Z.to_nat nuncompressed);
       '(plist, _) ← ginCompressPostingList uncompressed BLCKSZ;
       p ← store p GinDataPageGetData plist;
       Ok (p, zlen plist)
     else Ok (p, 0));
  p ← gin_mark (GinDataPageSetDataSize p totalsize) GIN_COMPRESSED;
  gin_set 2 p gin_maxoff InvalidOffsetNumber.

(** The variables of the loop.  The old segments are read from the page until
    the first change, from then on from the copy of its tail; [oldseg] and
    [segmentend] are positions in the one or the other. *)
Record recompress : Type := mkRecompress {
  rc_page : page; tailCopy : option (list Z); oldseg : Z; segmentend : Z; writePtr : Z; segno : Z }.

Definition old_mem (s : recompress) : mem := match tailCopy s with Some tail => tail | None => rc_page s end.

(** Skip to the segment an action concerns. *)
Fixpoint skip_segments (n : nat) (s : recompress) : res recompress :=
  match n with
  | O => Ok s
  | S n =>
      segsize ← segment_size_at (old_mem s) (oldseg s);
      p ← (match tailCopy s with
           | Some tail => bs ← load tail (oldseg s) segsize; store (rc_page s) (writePtr s) bs
           | None => Ok (rc_page s)
           end);
      skip_segments n (mkRecompress p (tailCopy s) (oldseg s + segsize) (segmentend s) (writePtr s + segsize) (segno s + 1))
  end.

(** Before the first change the tail of the page is copied. *)
Definition copy_tail (s : recompress) : res recompress :=
  match tailCopy s with
  | Some _ => Ok s
  | None =>
      if oldseg s =? segmentend s then Ok s else
      let tailSize := segmentend s - oldseg s in
      tail ← load (rc_page s) (oldseg s) tailSize;
      Ok (mkRecompress (rc_page s) (Some tail) 0 tailSize (writePtr s) (segno s))
  end.

(** The switch over the action; an old segment of [segsize] bytes is left out. *)
Definition drop_segment (s : recompress) (segsize : Z) : recompress :=
  mkRecompress (rc_page s) (tailCopy s) (oldseg s + segsize) (segmentend s) (writePtr s) (segno s + 1).
Definition write_segment (s : recompress) (newseg : list Z) : res recompress :=
  p ← store (rc_page s) (writePtr s) newseg;
  Ok (mkRecompress p (tailCopy s) (oldseg s) (segmentend s) (writePtr s + zlen newseg) (segno s)).
Definition do_action (s : recompress) (a_action : Z) (newseg : list Z) (segsize : Z) : res recompress :=
  if a_action =? GIN_SEGMENT_DELETE then Ok (drop_segment s segsize)
  else if a_action =? GIN_SEGMENT_INSERT then write_segment s newseg
  else if a_action =? GIN_SEGMENT_REPLACE then s ← write_segment s newseg; Ok (drop_segment s segsize)
  else Err EError.

(** The data of an action: the new segment, the items to add, and the position
    of the next action. *)
Definition get_action (data : list Z) (walbuf a_action : Z) : res (list Z * list ItemPointerData * Z) :=
  '(newseg, walbuf) ←
    (if (a_action =? GIN_SEGMENT_INSERT) || (a_action =? GIN_SEGMENT_REPLACE) then
       newsegsize ← segment_size_at data walbuf;
       newseg ← load data walbuf newsegsize;
       Ok (newseg, walbuf + SHORTALIGN newsegsize)
     else Ok ([], walbuf));
  if a_action =? GIN_SEGMENT_ADDITEMS then
    nitems ← rd 2 data walbuf;
    items ← get_itemptrs data (walbuf + 2) (Z.to_nat nitems);
    Ok (newseg, items, walbuf + 2 + nitems * sizeof_ItemPointerData)
  else Ok (newseg, [], walbuf).

(** Adding items is a replacement by the recompressed union. *)
Definition add_items (s : recompress) (items : list ItemPointerData) : res (list Z) :=
  olditems ← ginPostingListDecode (old_mem s) (oldseg s);
  '(newseg, _) ← ginCompressPostingList (ginMergeItemPointers items olditems) BLCKSZ;
  Ok newseg.

(** An action on the segment it concerns. *)
Definition act_segment (s : recompress) (a_action : Z) (newseg : list Z) (items : list ItemPointerData) : res recompress :=
  '(a_action, newseg) ←
    (if a_action =? GIN_SEGMENT_ADDITEMS then newseg ← add_items s items; Ok (GIN_SEGMENT_REPLACE, newseg)
     else Ok (a_action, newseg));
  segsize ← (if oldseg s =? segmentend s then Ok 0 else segment_size_at (old_mem s) (oldseg s));
  s ← copy_tail s;
  do_action s a_action newseg segsize.

Definition recompress_step (data : list Z) (walbuf : Z) (s : recompress) : res (recompress * Z) :=
  a_segno ← rd 1 data walbuf;
  a_action ← rd 1 data (walbuf + 1);
  '(newseg, items, walbuf) ← get_action data (walbuf + 2) a_action;
  s ← skip_segments (Z.to_nat (a_segno - segno s)) s;
  s ← act_segment s a_action newseg items;
  Ok (s, walbuf).

Fixpoint recompress_loop (nactions : nat) (data : list Z) (walbuf : Z) (s : recompress) : res recompress :=
  match nactions with
  | O => Ok s
  | S n => '(s, walbuf) ← recompress_step data walbuf s; recompress_loop n data walbuf s
  end.

(** The segments after the last action. *)
Definition copy_rest (s : recompress) : res (page * Z) :=
  match tailCopy s with
  | Some tail =>
      if oldseg s =? segmentend s then Ok (rc_page s, writePtr s) else
      let restSize := segmentend s - oldseg s in
      bs ← load tail (oldseg s) restSize;
      p ← store (rc_page s) (writePtr s) bs;
      Ok (p, writePtr s + restSize)
  | None => Ok (rc_page s, writePtr s)
  end.

Definition ginRedoRecompress (p : page) (data : list Z) : res page :=
  compressed ← GinPageIsCompressed p;
  p ← (if negb compressed then gin_convert_page p else Ok p);
  let start := GinDataPageGetData in
  nactions ← rd 2 data 0;
  s ← recompress_loop (Z.to_nat nactions) data 2
        (mkRecompress p None start (start + GinDataLeafPageGetPostingListSize p) start 0);
  '(p, writePtr) ← copy_rest s;
  Ok (GinDataPageSetDataSize p (writePtr - start)).

(** ** Insertion *)

(** [ginxlogInsertEntry]: the offset, whether the old tuple is deleted, and
    the tuple. *)
Definition ginRedoInsertEntry (p : page) (rightblkno : Z) (rdata : list Z) : res page :=
  offset ← rd 2 rdata 0;
  p ← (if negb (rightblkno =? InvalidBlockNumber) then
         itemid ← PageGetItemIdChecked p offset;
         if negb (in_range p (lp_off itemid) sizeof_ItemPointerData) then Err EOob
         else Ok (set_tid p (lp_off itemid) rightblkno InvalidOffsetNumber)
       else Ok p);
  isDelete ← rd 1 rdata 2;
  p ← (if negb (isDelete =? 0) then PageIndexTupleDelete p offset else Ok p);
  if negb (in_range rdata 4 sizeof_IndexTupleData) then Err EOob else
  itup ← load rdata 4 (IndexTupleSize rdata 4);
  bt_add_item p itup offset EError.

(** An internal page: the item that pointed to the page that was split now
    points to its right half, and the new item goes before it. *)
Definition gin_insert_internal (p : page) (rightblkno : Z) (rdata : list Z) : res page :=
  offset ← rd 2 rdata 0;
  p ← store p (GinDataPageGetPostingItem offset) (put_blockid rightblkno);
  newitem ← load rdata 2 sizeof_PostingItem;
  GinDataPageAddPostingItem p newitem offset.

Definition ginRedoInsertData (p : page) (isLeaf : bool) (rightblkno : Z) (rdata : list Z) : res page :=
  if isLeaf then ginRedoRecompress p rdata else gin_insert_internal p rightblkno rdata.
