(* ===== verification/GinRedo.v ===== *)
(** * Redo of GIN records on one page: [gin_xlog_idx.c]

    One definition per handler, each for one page of the record, and the
    routines that enter a record in the log index. *)

From S2P Require Import Prelude Mem Page PageAdd PageIndex PageCompact Buffer WalRecord HeapRedo TagList Btree BtreeRedo Gist Hash HashRedo GinPosting Gin.

(** ** Record types *)

Definition XLOG_GIN_CREATE_PTREE : Z := 0x10.
Definition XLOG_GIN_INSERT : Z := 0x20.
Definition XLOG_GIN_SPLIT : Z := 0x30.
Definition XLOG_GIN_VACUUM_PAGE : Z := 0x40.
Definition XLOG_GIN_DELETE_PAGE : Z := 0x50.
Definition XLOG_GIN_UPDATE_META_PAGE : Z := 0x60.
Definition XLOG_GIN_INSERT_LISTPAGE : Z := 0x70.
Definition XLOG_GIN_DELETE_LISTPAGE : Z := 0x80.
Definition XLOG_GIN_VACUUM_DATA_LEAF_PAGE : Z := 0x90.

Definition GIN_INSERT_ISDATA : Z := 1.
Definition GIN_INSERT_ISLEAF : Z := 2.
Definition GIN_SPLIT_ROOT : Z := 4.
Definition GIN_NDELETE_AT_ONCE : Z := Z.min 16 (XLR_MAX_BLOCK_ID - 1).

(** An [int32] field. *)
Definition rd_int32 (m : mem) (a : Z) : res Z := n ← rd 4 m a; Ok (if n <? 2 ^ 31 then n else n - 2 ^ 32).

(** ** The handlers *)

(** No case of the dispatcher calls this one. *)
Definition polar_gin_redo_create_index (st : dbstate) (r : XLogReaderState) (tag : BufferTag) (buffer : Buffer) : redo_result :=
  meta_tag ← POLAR_GET_LOG_TAG r 0;
  root_tag ← POLAR_GET_LOG_TAG r 1;
  if BUFFERTAGS_EQUAL tag meta_tag then redo_init st r 0 buffer BLK_NEEDS_REDO GinInitMetabuffer
  else if BUFFERTAGS_EQUAL tag root_tag then redo_init st r 1 buffer BLK_NEEDS_REDO (GinInitPage GIN_LEAF)
  else Ok (st, buffer, BLK_NOTFOUND).

Definition gin_ptree_page (r : XLogReaderState) : res page :=
  size ← rd 4 (main_data r) 0;
  p ← GinInitPage (set_flag (set_flag GIN_DATA GIN_LEAF) GIN_COMPRESSED);
  bs ← load (main_data r) 4 size;
  p ← store p GinDataPageGetData bs;
  Ok (GinDataPageSetDataSize p size).

Definition polar_gin_redo_create_ptree (st : dbstate) (r : XLogReaderState) (tag : BufferTag) (buffer : Buffer) : redo_result :=
  tag0 ← POLAR_GET_LOG_TAG r 0;
  if BUFFERTAGS_EQUAL tag tag0 then redo_init st r 0 buffer BLK_NEEDS_REDO (gin_ptree_page r)
  else Ok (st, buffer, BLK_NOTFOUND).

Definition polar_gin_redo_clear_incomplete_split (st : dbstate) (r : XLogReaderState) (block_id : Z) : redo_result :=
  redo_read st r block_id false (λ p, with_lsn r (gin_clear p GIN_INCOMPLETE_SPLIT)).

(** The target page of an insertion. *)
Definition gin_insert_page (r : XLogReaderState) (flags : Z) (isLeaf : bool) (rightChildBlkno : Z) (p : page) : res page :=
  let payload := block_bytes r 0 in
  with_lsn r (if has_flag flags GIN_INSERT_ISDATA then ginRedoInsertData p isLeaf rightChildBlkno payload
              else ginRedoInsertEntry p rightChildBlkno payload).

Definition polar_gin_redo_insert (st : dbstate) (r : XLogReaderState) (tag : BufferTag) (buffer : Buffer) : redo_result :=
  flags ← rd 2 (main_data r) 0;
  let isLeaf := has_flag flags GIN_INSERT_ISLEAF in
  rightChildBlkno ← (if negb isLeaf then get_blockid (main_data r) 6 else Ok InvalidBlockNumber);
  incomp ← (if negb isLeaf then t ← POLAR_GET_LOG_TAG r 1; Ok (BUFFERTAGS_EQUAL tag t) else Ok false);
  if (incomp : bool) then polar_gin_redo_clear_incomplete_split st r 1 else
  payload_tag ← POLAR_GET_LOG_TAG r 0;
  if BUFFERTAGS_EQUAL tag payload_tag then redo_read st r 0 false (gin_insert_page r flags isLeaf rightChildBlkno)
  else Ok (st, buffer, BLK_NOTFOUND).

(** The pages of a split come as full images. *)
Definition read_image (st : dbstate) (r : XLogReaderState) (id : Z) : redo_result :=
  XLogReadBufferForRedoExtended st r id RBM_NORMAL false.

Definition polar_gin_redo_split (st : dbstate) (r : XLogReaderState) (tag : BufferTag) (buffer : Buffer) : redo_result :=
  flags ← rd 2 (main_data r) 24;
  let isLeaf := has_flag flags GIN_INSERT_ISLEAF in
  let isRoot := has_flag flags GIN_SPLIT_ROOT in
  incomp ← (if negb isLeaf then t ← POLAR_GET_LOG_TAG r 3; Ok (BUFFERTAGS_EQUAL tag t) else Ok false);
  if (incomp : bool) then polar_gin_redo_clear_incomplete_split st r 3 else
  ltag ← POLAR_GET_LOG_TAG r 0;
  if BUFFERTAGS_EQUAL tag ltag then read_image st r 0 else
  rtag ← POLAR_GET_LOG_TAG r 1;
  if BUFFERTAGS_EQUAL tag rtag then read_image st r 1 else
  root ← (if isRoot then t ← POLAR_GET_LOG_TAG r 2; Ok (BUFFERTAGS_EQUAL tag t) else Ok false);
  if (root : bool) then read_image st r 2 else Ok (st, buffer, BLK_NOTFOUND).

Definition polar_gin_redo_vacuum_page (st : dbstate) (r : XLogReaderState) (tag : BufferTag) (buffer : Buffer) : redo_result :=
  vacuum_tag ← POLAR_GET_LOG_TAG r 0;
  if BUFFERTAGS_EQUAL tag vacuum_tag then read_image st r 0 else Ok (st, buffer, BLK_NOTFOUND).

Definition polar_gin_redo_vacuum_data_leaf_page (st : dbstate) (r : XLogReaderState) (tag : BufferTag) (buffer : Buffer) : redo_result :=
  vacuum_tag ← POLAR_GET_LOG_TAG r 0;
  if BUFFERTAGS_EQUAL tag vacuum_tag then redo_read st r 0 false (λ p, with_lsn r (ginRedoRecompress p (block_bytes r 0)))
  else Ok (st, buffer, BLK_NOTFOUND).

(** [ginxlogDeletePage]: the item of the parent, the new right link of the left
    sibling, and the transaction. *)
Definition gin_mark_deleted (r : XLogReaderState) (p : page) : res page :=
  p ← gin_set 2 p gin_flags GIN_DELETED;
  deleteXid ← rd 4 (main_data r) 8;
  Ok (GinPageSetDeleteXid p deleteXid).

Definition polar_gin_redo_delete_page (st : dbstate) (r : XLogReaderState) (tag : BufferTag) (buffer : Buffer) : redo_result :=
  ltag ← POLAR_GET_LOG_TAG r 2;
  if BUFFERTAGS_EQUAL tag ltag then
    redo_read st r 2 false (λ p, rightLink ← rd 4 (main_data r) 4; with_lsn r (gin_set 4 p gin_rightlink rightLink))
  else
  dtag ← POLAR_GET_LOG_TAG r 0;
  if BUFFERTAGS_EQUAL tag dtag then redo_read st r 0 false (λ p, with_lsn r (gin_mark_deleted r p)) else
  ptag ← POLAR_GET_LOG_TAG r 1;
  if BUFFERTAGS_EQUAL tag ptag then
    redo_read st r 1 false (λ p, parentOffset ← rd 2 (main_data r) 0; with_lsn r (GinPageDeletePostingItem p parentOffset))
  else Ok (st, buffer, BLK_NOTFOUND).

(** The metapage is written as a whole. *)
Definition gin_meta_page (r : XLogReaderState) (pos : Z) : res page :=
  p ← GinInitMetabuffer;
  metadata ← load (main_data r) pos sizeof_GinMetaPageData;
  store p PageGetContents metadata.

(** [n] tuples from [pos] on, added in order. *)
Fixpoint gin_add_tuples (n : nat) (p : page) (data : list Z) (pos off : Z) : res page :=
  match n with
  | O => Ok p
  | S n =>
      t ← tuple_at data pos;
      p ← bt_add_item p t off EError;
      gin_add_tuples n p data (pos + zlen t) (u16 (off + 1))
  end.

(** The tail of the pending list with the new tuples. *)
Definition gin_tail_page (r : XLogReaderState) (ntuples : Z) (p : page) : res page :=
  let off := if PageIsEmpty p then FirstOffsetNumber else OffsetNumberNext (PageGetMaxOffsetNumber p) in
  p ← gin_add_tuples (Z.to_nat ntuples) p (block_bytes r 1) 0 off;
  maxoff ← gin_get 2 p gin_maxoff;
  with_lsn r (gin_set 2 p gin_maxoff (maxoff + 1)).

Definition polar_gin_redo_update_metapage (st : dbstate) (r : XLogReaderState) (tag : BufferTag) (buffer : Buffer) : redo_result :=
  meta_tag ← POLAR_GET_LOG_TAG r 0;
  if BUFFERTAGS_EQUAL tag meta_tag then redo_init st r 0 buffer BLK_NEEDS_REDO (gin_meta_page r 16) else
  ntuples ← rd_int32 (main_data r) 80;
  prevTail ← rd 4 (main_data r) 72;
  tail ← (if (0 <? ntuples) || negb (prevTail =? InvalidBlockNumber)
          then t ← POLAR_GET_LOG_TAG r 1; Ok (BUFFERTAGS_EQUAL tag t) else Ok false);
  if (tail : bool) then
    if 0 <? ntuples then redo_read st r 1 false (gin_tail_page r ntuples)
    else redo_read st r 1 false (λ p, newRightlink ← rd 4 (main_data r) 76; with_lsn r (gin_set 4 p gin_rightlink newRightlink))
  else Ok (st, buffer, BLK_NOTFOUND).

Definition gin_list_page (r : XLogReaderState) : res page :=
  rightlink ← rd 4 (main_data r) 0;
  ntuples ← rd_int32 (main_data r) 4;
  p ← GinInitPage GIN_LIST;
  p ← gin_set 4 p gin_rightlink rightlink;
  p ← (if rightlink =? InvalidBlockNumber then p ← gin_mark p GIN_LIST_FULLROW; gin_set 2 p gin_maxoff 1
       else gin_set 2 p gin_maxoff 0);
  gin_add_tuples (Z.to_nat ntuples) p (block_bytes r 0) 0 FirstOffsetNumber.

Definition polar_gin_redo_insert_list_page (st : dbstate) (r : XLogReaderState) (tag : BufferTag) (buffer : Buffer) : redo_result :=
  insert_tag ← POLAR_GET_LOG_TAG r 0;
  if negb (BUFFERTAGS_EQUAL tag insert_tag) then Ok (st, buffer, BLK_NOTFOUND)
  else redo_init st r 0 buffer BLK_NEEDS_REDO (gin_list_page r).

(** The deleted pages [i ..]; a record has no block to go past the largest
    block number, so that [i] does not wrap around. *)
Fixpoint gin_delete_loop (st : dbstate) (r : XLogReaderState) (tag : BufferTag) (buffer : Buffer) (i : Z) (n : nat) : redo_result :=
  match n with
  | O => Ok (st, buffer, BLK_NOTFOUND)
  | S n =>
      del_tag ← POLAR_GET_LOG_TAG r (i + 1);
      if negb (BUFFERTAGS_EQUAL tag del_tag) then gin_delete_loop st r tag buffer (i + 1) n
      else redo_init st r (i + 1) buffer BLK_NEEDS_REDO (GinInitPage GIN_DELETED)
  end.

Definition polar_gin_redo_delete_list_pages (st : dbstate) (r : XLogReaderState) (tag : BufferTag) (buffer : Buffer) : redo_result :=
  meta_tag ← POLAR_GET_LOG_TAG r 0;
  if BUFFERTAGS_EQUAL tag meta_tag then redo_init st r 0 buffer BLK_NEEDS_REDO (gin_meta_page r 0) else
  ndeleted ← rd_int32 (main_data r) 56;
  gin_delete_loop st r tag buffer 0 (Z.to_nat ndeleted).

Definition polar_gin_idx_redo (st : dbstate) (r : XLogReaderState) (tag : BufferTag) (buffer : Buffer) : redo_result :=
  let info := rec_info r in
  if info =? XLOG_GIN_CREATE_PTREE then polar_gin_redo_create_ptree st r tag buffer
  else if info =? XLOG_GIN_INSERT then polar_gin_redo_insert st r tag buffer
  else if info =? XLOG_GIN_SPLIT then polar_gin_redo_split st r tag buffer
  else if info =? XLOG_GIN_VACUUM_PAGE then polar_gin_redo_vacuum_page st r tag buffer
  else if info =? XLOG_GIN_VACUUM_DATA_LEAF_PAGE then polar_gin_redo_vacuum_data_leaf_page st r tag buffer
  else if info =? XLOG_GIN_DELETE_PAGE then polar_gin_redo_delete_page st r tag buffer
  else if info =? XLOG_GIN_UPDATE_META_PAGE then polar_gin_redo_update_metapage st r tag buffer
  else if info =? XLOG_GIN_INSERT_LISTPAGE then polar_gin_redo_insert_list_page st r tag buffer
  else if info =? XLOG_GIN_DELETE_LISTPAGE then polar_gin_redo_delete_list_pages st r tag buffer
  else Err EPanic.

(** ** The pages of a record *)

Definition polar_gin_redo_insert_save (r : XLogReaderState) : list BufferTag := save_if_ref r 1 ++ ParseXLogBlocksLsn r 0.
Definition polar_gin_redo_split_save (r : XLogReaderState) : list BufferTag :=
  save_if_ref r 3 ++ ParseXLogBlocksLsn r 0 ++ ParseXLogBlocksLsn r 1 ++ save_if_ref r 2.
Definition polar_gin_redo_update_metapage_save (r : XLogReaderState) : list BufferTag :=
  ParseXLogBlocksLsn r 0 ++ save_if_ref r 1.
Definition polar_gin_redo_delete_list_pages_save (r : XLogReaderState) : list BufferTag :=
  ParseXLogBlocksLsn r 0 ++ save_run r 1 (Z.to_nat GIN_NDELETE_AT_ONCE).

Definition gin_one_block (info : Z) : bool :=
  (info =? XLOG_GIN_CREATE_PTREE) || (info =? XLOG_GIN_VACUUM_PAGE) || (info =? XLOG_GIN_VACUUM_DATA_LEAF_PAGE)
  || (info =? XLOG_GIN_INSERT_LISTPAGE).

(** The return value and the tags; an unknown record type is not entered. *)
Definition polar_gin_idx_save (r : XLogReaderState) : res (bool * list BufferTag) :=
  let info := rec_info r in
  if gin_one_block info then Ok (true, ParseXLogBlocksLsn r 0)
  else if info =? XLOG_GIN_INSERT then Ok (true, polar_gin_redo_insert_save r)
  else if info =? XLOG_GIN_SPLIT then Ok (true, polar_gin_redo_split_save r)
  else if info =? XLOG_GIN_DELETE_PAGE then Ok (true, ParseXLogBlocksLsn r 2 ++ ParseXLogBlocksLsn r 0 ++ ParseXLogBlocksLsn r 1)
  else if info =? XLOG_GIN_UPDATE_META_PAGE then Ok (true, polar_gin_redo_update_metapage_save r)
  else if info =? XLOG_GIN_DELETE_LISTPAGE then Ok (true, polar_gin_redo_delete_list_pages_save r)
  else Ok (false, []).

Definition polar_gin_redo_insert_get_bufftag_list (r : XLogReaderState) : res (list BufferTag) :=
  put_blocks 2 r (ref_block r 1 ++ [0]) [].
Definition polar_gin_redo_split_get_bufftag_list (r : XLogReaderState) : res (list BufferTag) :=
  put_blocks 4 r (ref_block r 3 ++ [0; 1] ++ ref_block r 2) [].
Definition polar_gin_redo_update_metapage_get_bufftag_list (r : XLogReaderState) : res (list BufferTag) :=
  put_blocks 2 r (0 :: ref_block r 1) [].
Definition polar_gin_redo_delete_list_pages_get_bufftag_list (r : XLogReaderState) : res (list BufferTag) :=
  let n := Z.to_nat GIN_NDELETE_AT_ONCE in
  let cap := 1 + run_length r 1 n in
  l ← bt_put_tag cap r 0 [];
  put_run cap r 1 n l.

Definition polar_gin_idx_get_bufftag_list (r : XLogReaderState) : res tag_result :=
  let info := rec_info r in
  if gin_one_block info then Tags <$> single_bufftag_list r
  else if info =? XLOG_GIN_INSERT then Tags <$> polar_gin_redo_insert_get_bufftag_list r
  else if info =? XLOG_GIN_SPLIT then Tags <$> polar_gin_redo_split_get_bufftag_list r
  else if info =? XLOG_GIN_DELETE_PAGE then Tags <$> put_blocks 3 r [2; 0; 1] []
  else if info =? XLOG_GIN_UPDATE_META_PAGE then Tags <$> polar_gin_redo_update_metapage_get_bufftag_list r
  else if info =? XLOG_GIN_DELETE_LISTPAGE then Tags <$> polar_gin_redo_delete_list_pages_get_bufftag_list r
  else Ok NotParsed.
