(* ===== verification/GinLeaf.v ===== *)
(** * Recompression of a GIN leaf page

    A leaf page of a posting tree as a list of segments, the actions of a record
    on such a list, and the simulation of that list by the loop of
    [ginRedoRecompress], which rewrites the page in place and reads the old
    segments from a copy of its tail. *)

From S2P Require Import Prelude Mem Page Btree GinPosting Gin.

(** ** The abstract page *)

Abbreviation segment := (list ItemPointerData).
Abbreviation segments := (list (list ItemPointerData)).

(** The bytes of a list of segments. *)
Definition seg_bytes (ls : segments) : list Z := concat (posting_segment <$> ls).

(** A compressed leaf page that holds the segments. *)
Record leaf_page (p : page) (ls : segments) : Prop := {
  lp_size : zlen p = BLCKSZ;
  lp_special : pd_special p + sizeof_GinPageOpaqueData ≤ BLCKSZ;
  lp_compressed : GinPageIsCompressed p = Ok true;
  lp_segments : Forall segment_ok ls;
  lp_lower : pd_lower p = GinDataPageGetData + zlen (seg_bytes ls);
  lp_room : GinDataPageGetData + zlen (seg_bytes ls) ≤ pd_special p;
  lp_bytes : holds p GinDataPageGetData (seg_bytes ls) }.

(** The actions of a record, and what they do to the segments. *)
Inductive segment_action : Type :=
| SegDelete
| SegInsert (l : segment)
| SegReplace (l : segment)
| SegAddItems (l : segment).

Definition action_ok (a : Z * segment_action) : Prop :=
  0 ≤ a.1 < 256 ∧
  match a.2 with
  | SegDelete => True
  | SegInsert l | SegReplace l => segment_ok l
  | SegAddItems l => sorted_tids l ∧ zlen l < 65536
  end.

(** One action on the segments from the one it concerns on: the segment it
    leaves there, if any, the number of the segment after it, and the segments
    that remain. *)
Definition act_on (n : Z) (a : segment_action) (ls : segments) : option (segments * Z * segments) :=
  match a, ls with
  | SegDelete, _ :: ls => Some ([], n + 1, ls)
  | SegInsert l, ls => Some ([l], n, ls)
  | SegReplace l, _ :: ls => Some ([l], n + 1, ls)
  | SegAddItems l, old :: ls => Some ([ginMergeItemPointers l old], n + 1, ls)
  | _, [] => None
  end.

(** The actions in order; [k] is the number of the first segment of [ls]. *)
Fixpoint apply_actions (k : Z) (acts : list (Z * segment_action)) (ls : segments) : option segments :=
  match acts with
  | [] => Some ls
  | (n, a) :: acts =>
      if (k <=? n) && (n - k <=? zlen ls) then
        match act_on n a (drop (Z.to_nat (n - k)) ls) with
        | Some (new, k', rest) =>
            match apply_actions k' acts rest with
            | Some out => Some (take (Z.to_nat (n - k)) ls ++ new ++ out)
            | None => None
            end
        | None => None
        end
      else None
  end.

(** The record. *)
Definition action_code (a : segment_action) : Z :=
  match a with
  | SegDelete => GIN_SEGMENT_DELETE
  | SegInsert _ => GIN_SEGMENT_INSERT
  | SegReplace _ => GIN_SEGMENT_REPLACE
  | SegAddItems _ => GIN_SEGMENT_ADDITEMS
  end.
Definition action_data (a : segment_action) : list Z :=
  match a with
  | SegDelete => []
  | SegInsert l | SegReplace l => posting_segment l
  | SegAddItems l => le_bytes 2 (zlen l) ++ concat (put_itemptr <$> l)
  end.
Definition action_bytes (a : Z * segment_action) : list Z := le_bytes 1 a.1 ++ le_bytes 1 (action_code a.2) ++ action_data a.2.
Definition recompress_data (acts : list (Z * segment_action)) : list Z :=
  le_bytes 2 (zlen acts) ++ concat (action_bytes <$> acts).

(** ** Segments in memory *)

Lemma seg_bytes_app a b : seg_bytes (a ++ b) = seg_bytes a ++ seg_bytes b.
Proof. unfold seg_bytes. by rewrite fmap_app, concat_app. Qed.

Lemma seg_bytes_cons l ls : seg_bytes (l :: ls) = posting_segment l ++ seg_bytes ls.
Proof. done. Qed.

Lemma segment_pos l : segment_ok l → 0 < zlen (posting_segment l).
Proof.
  intros (Hne & _ & _). destruct l as [|t l]; [done|]. rewrite segment_size. unfold SizeOfGinPostingList, offsetof_bytes.
  pose proof (SHORTALIGN_bounds (zlen (encoding (itemptr_to_uint64 t) l))). pose proof (zlen_nonneg (encoding (itemptr_to_uint64 t) l)). lia.
Qed.

Lemma segment_even l : SHORTALIGN (zlen (posting_segment l)) = zlen (posting_segment l).
Proof.
  destruct l as [|t l]; [done|]. rewrite segment_size. unfold SizeOfGinPostingList, offsetof_bytes. rewrite !SHORTALIGN_eq. dlia.
Qed.

Lemma seg_bytes_nil ls : Forall segment_ok ls → zlen (seg_bytes ls) = 0 → ls = [].
Proof.
  intros Hok H. destruct ls as [|l ls]; [done|]. apply Forall_cons in Hok as [Hl _]. rewrite seg_bytes_cons, zlen_app in H.
  pose proof (segment_pos l Hl). pose proof (zlen_nonneg (seg_bytes ls)). lia.
Qed.

Lemma segment_size_spec m a l bs : segment_ok l → holds m a (posting_segment l ++ bs) → segment_size_at m a = Ok (zlen (posting_segment l)).
Proof.
  intros Hl H. destruct (segment_parts _ _ _ _ Hl H) as (t & l' & -> & _ & E & _). unfold segment_size_at. rewrite E. cbn [mbind res_bind].
  by rewrite segment_size.
Qed.

Lemma holds_load m a x y : holds m a (x ++ y) → load m a (zlen x) = Ok x.
Proof.
  intros [(Ha & Hl & E) _]%holds_app. pose proof (zlen_nonneg x). unfold load.
  rewrite (proj2 (in_range_true m a (zlen x))) by lia. by rewrite E.
Qed.

(** Reading outside [lo, hi) is as before. *)
Definition same_outside (lo hi : Z) (p q : page) : Prop :=
  zlen q = zlen p ∧ ∀ o l, 0 ≤ o → o + l ≤ lo ∨ hi ≤ o → mread q o l = mread p o l.

Lemma same_outside_refl lo hi p : same_outside lo hi p p.
Proof. done. Qed.

Lemma same_outside_trans lo hi p q r : same_outside lo hi p q → same_outside lo hi q r → same_outside lo hi p r.
Proof. intros [L1 H1] [L2 H2]. split; [congruence|]. intros o l Ho Hd. rewrite H2, H1 by done. done. Qed.

(** Writing behind the bytes that are there. *)
Lemma append_store p a x bs hi : holds p a x → a + zlen x + zlen bs ≤ hi → hi ≤ zlen p →
  ∃ q, store p (a + zlen x) bs = Ok q ∧ holds q a (x ++ bs) ∧ same_outside a hi p q.
Proof.
  intros (Ha & Hl & E) Hb Hhi. pose proof (zlen_nonneg x). pose proof (zlen_nonneg bs). unfold store.
  rewrite (proj2 (in_range_true p (a + zlen x) (zlen bs))) by lia. eexists. split; [done|]. split.
  - apply holds_app. split; (split; [lia|]; rewrite zlen_mwrite; split; [lia|]).
    + rewrite mread_mwrite_disj by lia. done.
    + by rewrite mread_mwrite_same by lia.
  - split; [apply zlen_mwrite|]. intros o l Ho Hd. apply mread_mwrite_disj; lia.
Qed.

(** ** The actions of a record *)

Lemma get_itemptrs_spec l : ∀ m a bs, Forall tid_ok l → holds m a (concat (put_itemptr <$> l) ++ bs) → get_itemptrs m a (length l) = Ok l.
Proof.
  induction l as [|t l IH]; intros m a bs Hok H; [done|]. apply Forall_cons in Hok as [Ht Hok]. cbn [fmap list_fmap concat length get_itemptrs] in *.
  rewrite <-app_assoc in H. apply get_put_itemptr in H as [-> H]; [|done]. cbn [mbind res_bind]. unfold sizeof_ItemPointerData. by rewrite (IH _ _ _ Hok H).
Qed.

Lemma put_itemptrs_len l : zlen (concat (put_itemptr <$> l)) = zlen l * sizeof_ItemPointerData.
Proof. induction l as [|t l IH]; [done|]. cbn [fmap list_fmap concat]. rewrite zlen_app, put_itemptr_len, zlen_cons, IH. unfold sizeof_ItemPointerData. lia. Qed.

Definition new_segment (a : segment_action) : list Z := match a with SegInsert l | SegReplace l => posting_segment l | _ => [] end.
Definition new_items (a : segment_action) : segment := match a with SegAddItems l => l | _ => [] end.

Lemma get_action_spec data w n a bs : action_ok (n, a) → holds data w (action_data a ++ bs) →
  get_action data w (action_code a) = Ok (new_segment a, new_items a, w + zlen (action_data a)).
Proof.
  intros [_ Ha] H. cbn [snd] in Ha. unfold get_action. destruct a as [|l|l|l]; cbn [action_code action_data new_segment new_items] in *.
  - change (zlen (@nil Z)) with 0. by rewrite Z.add_0_r.
  - change ((GIN_SEGMENT_INSERT =? GIN_SEGMENT_INSERT) || (GIN_SEGMENT_INSERT =? GIN_SEGMENT_REPLACE)) with true. cbv iota.
    rewrite (segment_size_spec _ _ _ _ Ha H). cbn [mbind res_bind]. rewrite (holds_load _ _ _ _ H). cbn [mbind res_bind]. rewrite segment_even. done.
  - change ((GIN_SEGMENT_REPLACE =? GIN_SEGMENT_INSERT) || (GIN_SEGMENT_REPLACE =? GIN_SEGMENT_REPLACE)) with true. cbv iota.
    rewrite (segment_size_spec _ _ _ _ Ha H). cbn [mbind res_bind]. rewrite (holds_load _ _ _ _ H). cbn [mbind res_bind]. rewrite segment_even. done.
  - destruct Ha as [[Hok _] Hlen]. change ((GIN_SEGMENT_ADDITEMS =? GIN_SEGMENT_INSERT) || (GIN_SEGMENT_ADDITEMS =? GIN_SEGMENT_REPLACE)) with false. cbv iota.
    cbn [mbind res_bind]. change (GIN_SEGMENT_ADDITEMS =? GIN_SEGMENT_ADDITEMS) with true. cbv iota. rewrite <-app_assoc in H.
    pose proof (zlen_nonneg l). apply holds_rd in H as [-> H]; [|simpl; lia]. cbn [mbind res_bind]. change (Z.of_nat 2) with 2 in H.
    replace (Z.to_nat (zlen l)) with (length l) by (unfold zlen; lia). rewrite (get_itemptrs_spec _ _ _ _ Hok H). cbn [mbind res_bind].
    rewrite zlen_app, zlen_le_bytes, put_itemptrs_len. f_equal. f_equal. lia.
Qed.

(** A list of which the segment is no longer than a page is packed completely. *)
Lemma compress_fits l maxsize : l ≠ [] → sorted_tids l → zlen (posting_segment l) ≤ maxsize → offsetof_bytes ≤ maxsize ≤ 2 ^ 16 →
  ginCompressPostingList l maxsize = Ok (posting_segment l, zlen l).
Proof.
  intros Hne Hs Hfit Hm. destruct (compress_spec l maxsize Hne Hs Hm) as (n & Hn & -> & _ & _ & Hmore).
  destruct (decide (n < length l)%nat) as [Hlt|Hge]; [|by rewrite take_ge by lia; replace (Z.of_nat n) with (zlen l) by (unfold zlen; lia)].
  exfalso. specialize (Hmore Hlt).
  assert (Hsub : sublist (take (S n) l) l) by (rewrite <-(take_drop (S n) l) at 2; apply sublist_inserts_r; done).
  assert (take (S n) l ≠ []) by (destruct l; done). pose proof (segment_sublist l _ Hs ltac:(done) Hsub). lia.
Qed.

Lemma merge_spec a b : sorted_tids a → sorted_tids b →
  sorted_tids (ginMergeItemPointers a b) ∧ (∀ t, t ∈ ginMergeItemPointers a b ↔ t ∈ a ∨ t ∈ b).
Proof.
  intros Ha Hb. unfold ginMergeItemPointers.
  destruct (last a) as [alast|] eqn:E1; [|apply last_None in E1 as ->; split; [done|]; intros t; rewrite elem_of_nil, app_nil_l; tauto].
  destruct (head b) as [bfirst|] eqn:E2; [|apply head_None in E2 as ->; rewrite app_nil_r; split; [done|]; intros t; rewrite elem_of_nil; tauto].
  destruct (last b) as [blast|] eqn:E3; [|apply last_None in E3 as ->; done].
  destruct (head a) as [afirst|] eqn:E4; [|apply head_None in E4 as ->; done].
  destruct (Z.ltb_spec (ginCompareItemPointers alast bfirst) 0).
  { split; [by eapply merge_disjoint|]. intros t. by rewrite elem_of_app. }
  destruct (Z.ltb_spec (ginCompareItemPointers blast afirst) 0); [|by apply merge_loop_spec].
  split; [by eapply merge_disjoint|]. intros t. rewrite elem_of_app. tauto.
Qed.

Lemma merge_segment l old : sorted_tids l → segment_ok old → ginMergeItemPointers l old ≠ [] ∧ sorted_tids (ginMergeItemPointers l old).
Proof.
  intros Hl (Hne & Hs & _). destruct (merge_spec l old Hl Hs) as [Hm Hin]. split; [|done]. intros E. destruct old as [|t old]; [done|].
  assert (Ht : t ∈ ginMergeItemPointers l (t :: old)) by (apply Hin; right; left). rewrite E in Ht. by apply not_elem_of_nil in Ht.
Qed.

(** ** The simulation *)

Section simulation.
(** The page before the loop, and the end of the area it may write. *)
Context (p0 : page) (hi : Z).
Context (Hhi : GinDataPageGetData ≤ hi ≤ zlen p0).
Abbreviation start := GinDataPageGetData.

(** The loop has written the segments [out], and [rest] are the old segments it
has not yet looked at, from number [k] on. *)
Record sim (s : recompress) (out rest : segments) (k : Z) : Prop := {
sim_out : holds (rc_page s) start (seg_bytes out);
sim_write : writePtr s = start + zlen (seg_bytes out);
sim_rest : holds (old_mem s) (oldseg s) (seg_bytes rest);
sim_end : segmentend s = oldseg s + zlen (seg_bytes rest);
sim_segno : segno s = k;
sim_place : tailCopy s = None → rest ≠ [] → oldseg s = writePtr s;
sim_frame : same_outside start hi p0 (rc_page s) }.

(** The first old segment. *)
Lemma sim_first s out l rest k : sim s out (l :: rest) k → segment_ok l →
segment_size_at (old_mem s) (oldseg s) = Ok (zlen (posting_segment l)).
Proof using. intros [_ _ Hr _ _ _ _] Hl. rewrite seg_bytes_cons in Hr. by eapply segment_size_spec. Qed.

(** The old segment is kept. *)
Lemma sim_keep s out l rest k : sim s out (l :: rest) k → segment_ok l → start + zlen (seg_bytes (out ++ [l])) ≤ hi →
∃ q, match tailCopy s with
| Some tail => bs ← load tail (oldseg s) (zlen (posting_segment l)); store (rc_page s) (writePtr s) bs
| None => Ok (rc_page s)
end = Ok q ∧
sim (mkRecompress q (tailCopy s) (oldseg s + zlen (posting_segment l)) (segmentend s) (writePtr s + zlen (posting_segment l)) (segno s + 1))
(out ++ [l]) rest (k + 1).
Proof using Hhi.
intros [Ho Hw Hr He Hk Hpl Hf] Hl Hroom. rewrite seg_bytes_app, seg_bytes_cons, app_nil_r, zlen_app in Hroom. rewrite seg_bytes_cons, zlen_app in *.
destruct s as [q tail old e w n]. cbn [rc_page tailCopy oldseg segmentend writePtr segno] in *. unfold old_mem in Hr. cbn [rc_page tailCopy] in Hr.
assert (Hlen : zlen q = zlen p0) by apply Hf. destruct tail as [tail|].
- rewrite (holds_load _ _ _ _ Hr). cbn [mbind res_bind]. rewrite Hw.
destruct (append_store q start (seg_bytes out) (posting_segment l) hi Ho) as (q' & Hs & Hq' & Hf'); [lia|lia|].
exists q'. split; [done|]. constructor; cbn [rc_page tailCopy oldseg segmentend writePtr segno old_mem].
+ by rewrite seg_bytes_app, seg_bytes_cons, app_nil_r.
+ rewrite seg_bytes_app, seg_bytes_cons, app_nil_r, zlen_app. lia.
+ by apply holds_drop in Hr.
+ lia.
+ lia.
+ done.
+ by eapply same_outside_trans.
- exists q. split; [done|]. specialize (Hpl eq_refl ltac:(done)). constructor; cbn [rc_page tailCopy oldseg segmentend writePtr segno old_mem].
+ rewrite seg_bytes_app, seg_bytes_cons, app_nil_r. apply holds_app. split; [done|]. rewrite <-Hw, <-Hpl. by apply holds_app in Hr as [? _].
+ rewrite seg_bytes_app, seg_bytes_cons, app_nil_r, zlen_app. lia.
+ by apply holds_drop in Hr.
+ lia.
+ lia.
+ intros _ _. lia.
+ done.
Qed.

Lemma seg_bytes_prefix a b : zlen (seg_bytes a) ≤ zlen (seg_bytes (a ++ b)).
Proof using. rewrite seg_bytes_app, zlen_app. pose proof (zlen_nonneg (seg_bytes b)). lia. Qed.

Lemma sim_skip pre : ∀ s out rest k, sim s out (pre ++ rest) k → Forall segment_ok pre → start + zlen (seg_bytes (out ++ pre)) ≤ hi →
∃ s', skip_segments (length pre) s = Ok s' ∧ sim s' (out ++ pre) rest (k + zlen pre) ∧ (tailCopy s = None ↔ tailCopy s' = None).
Proof using Hhi.
induction pre as [|l pre IH]; intros s out rest k Hs Hok Hroom.
{ exists s. cbn [skip_segments length app]. change (zlen (@nil segment)) with 0. by rewrite app_nil_r, Z.add_0_r. }
apply Forall_cons in Hok as [Hl Hok]. cbn [length skip_segments app] in *. rewrite (sim_first _ _ _ _ _ Hs Hl). cbn [mbind res_bind].
replace (out ++ l :: pre) with ((out ++ [l]) ++ pre) in * by by rewrite <-app_assoc.
destruct (sim_keep _ _ _ _ _ Hs Hl) as (q & -> & Hs'); [pose proof (seg_bytes_prefix (out ++ [l]) pre); lia|]. cbn [mbind res_bind].
destruct (IH _ _ _ _ Hs' Hok Hroom) as (s' & -> & Hs'' & Ht). exists s'. split; [done|]. split; [|done].
rewrite zlen_cons. by replace (k + (1 + zlen pre)) with (k + 1 + zlen pre) by lia.
Qed.

(** Before a change the old segments are on the page or there are none. *)
Lemma sim_copy_tail s out rest k : sim s out rest k → Forall segment_ok rest →
∃ s', copy_tail s = Ok s' ∧ sim s' out rest k ∧ (tailCopy s' = None → rest = []).
Proof using.
intros [Ho Hw Hr He Hk Hpl Hf] Hok. unfold copy_tail. destruct s as [q tail old e w n]. cbn [rc_page tailCopy oldseg segmentend writePtr segno] in *.
destruct tail as [tail|]; [exists (mkRecompress q (Some tail) old e w n); split; [done|]; split; [by constructor|done]|].
destruct (Z.eqb_spec old e) as [E|E].
- exists (mkRecompress q None old e w n). split; [done|]. split; [by constructor|]. intros _. apply seg_bytes_nil; [done|lia].
- unfold old_mem in Hr. cbn [rc_page tailCopy] in Hr. replace (e - old) with (zlen (seg_bytes rest)) by lia.
rewrite (holds_load q old (seg_bytes rest) []) by (by rewrite app_nil_r). cbn [mbind res_bind].
eexists. split; [done|]. split; [|done]. constructor; cbn [rc_page tailCopy oldseg segmentend writePtr segno old_mem]; try done.
apply holds_all.
Qed.

(** A segment is written. *)
Lemma sim_write_segment s out rest k l : sim s out rest k → (tailCopy s = None → rest = []) → start + zlen (seg_bytes (out ++ [l])) ≤ hi →
∃ s', write_segment s (posting_segment l) = Ok s' ∧ sim s' (out ++ [l]) rest k ∧ tailCopy s' = tailCopy s.
Proof using Hhi.
intros [Ho Hw Hr He Hk Hpl Hf] Ht Hroom. rewrite seg_bytes_app, seg_bytes_cons, app_nil_r, zlen_app in Hroom. unfold write_segment. rewrite Hw.
assert (Hlen : zlen (rc_page s) = zlen p0) by apply Hf.
destruct (append_store (rc_page s) start (seg_bytes out) (posting_segment l) hi Ho) as (q & -> & Hq & Hfq); [lia|lia|]. cbn [mbind res_bind].
eexists. split; [done|]. split; [|done]. constructor; cbn [rc_page tailCopy oldseg segmentend writePtr segno].
- by rewrite seg_bytes_app, seg_bytes_cons, app_nil_r.
- rewrite seg_bytes_app, seg_bytes_cons, app_nil_r, zlen_app. lia.
- unfold old_mem in *. cbn [rc_page tailCopy]. destruct (tailCopy s) as [tail|] eqn:Et; [done|]. rewrite (Ht eq_refl) in *.
destruct Hr as (H1 & H2 & _). split; [done|]. split; [|done]. destruct Hfq as [-> _]. done.
- done.
- done.
- intros Hn Hne. by specialize (Ht Hn).
- by eapply same_outside_trans.
Qed.

(** An old segment is left out. *)
Lemma sim_drop s out l rest k : sim s out (l :: rest) k → is_Some (tailCopy s) → sim (drop_segment s (zlen (posting_segment l))) out rest (k + 1).
Proof using.
intros [Ho Hw Hr He Hk Hpl Hf] [tail Ht]. rewrite seg_bytes_cons in *. unfold drop_segment, old_mem in *. rewrite Ht in *.
constructor; cbn [rc_page tailCopy oldseg segmentend writePtr segno old_mem]; try done.
- by apply holds_drop in Hr.
- rewrite zlen_app in He. lia.
- lia.
Qed.

Context (Hblk : hi ≤ BLCKSZ).

Lemma sim_add_items s out l old rest k : sim s out (old :: rest) k → segment_ok old → sorted_tids l →
start + zlen (seg_bytes (out ++ [ginMergeItemPointers l old])) ≤ hi →
add_items s l = Ok (posting_segment (ginMergeItemPointers l old)) ∧ segment_ok (ginMergeItemPointers l old).
Proof using Hhi Hblk.
intros [_ _ Hr _ _ _ _] Hold Hl Hroom. rewrite seg_bytes_cons in Hr. unfold add_items. rewrite (decode_segment_spec _ _ _ _ Hold Hr). cbn [mbind res_bind].
destruct (merge_segment l old Hl Hold) as [Hne Hs]. rewrite seg_bytes_app, seg_bytes_cons, app_nil_r, zlen_app in Hroom.
pose proof (zlen_nonneg (seg_bytes out)). change start with 32 in *. change BLCKSZ with 8192 in *.
rewrite compress_fits; [|done|done|lia|unfold offsetof_bytes; lia]. split; [done|]. split; [done|]. split; [done|]. lia.
Qed.

(** The size of the old segment, as the code computes it. *)
Lemma sim_segsize s out rest k : sim s out rest k → Forall segment_ok rest →
(if oldseg s =? segmentend s then Ok 0 else segment_size_at (old_mem s) (oldseg s)) =
Ok (match rest with [] => 0 | l :: _ => zlen (posting_segment l) end).
Proof using.
intros Hs Hok. pose proof (sim_end _ _ _ _ Hs) as He. destruct rest as [|l rest].
- change (zlen (seg_bytes [])) with 0 in He. by destruct (Z.eqb_spec (oldseg s) (segmentend s)); [|lia].
- apply Forall_cons in Hok as [Hl Hok]. rewrite seg_bytes_cons, zlen_app in He. pose proof (segment_pos l Hl). pose proof (zlen_nonneg (seg_bytes rest)).
destruct (Z.eqb_spec (oldseg s) (segmentend s)); [lia|]. by eapply sim_first.
Qed.

(** An action on the segment it concerns. *)
Lemma sim_act s out rest n a new k' rest' : sim s out rest n → Forall segment_ok rest → action_ok (n, a) →
act_on n a rest = Some (new, k', rest') → start + zlen (seg_bytes (out ++ new)) ≤ hi →
∃ s', act_segment s (action_code a) (new_segment a) (new_items a) = Ok s' ∧
sim s' (out ++ new) rest' k' ∧ (tailCopy s' = None → rest' = []) ∧ Forall segment_ok new.
Proof using Hhi Hblk.
intros Hs Hok [_ Ha] Hact Hroom. cbn [snd] in Ha. pose proof (sim_segsize _ _ _ _ Hs Hok) as Hsz.
assert (Hnew : ∃ code seg, (if action_code a =? GIN_SEGMENT_ADDITEMS then newseg ← add_items s (new_items a); Ok (GIN_SEGMENT_REPLACE, newseg)
else Ok (action_code a, new_segment a)) = Ok (code, seg) ∧ Forall segment_ok new ∧
((code = GIN_SEGMENT_DELETE ∧ new = [] ∧ k' = n + 1 ∧ ∃ l, rest = l :: rest') ∨
(code = GIN_SEGMENT_INSERT ∧ k' = n ∧ rest = rest' ∧ ∃ l, new = [l] ∧ seg = posting_segment l) ∨
(code = GIN_SEGMENT_REPLACE ∧ k' = n + 1 ∧ ∃ l old, new = [l] ∧ seg = posting_segment l ∧ rest = old :: rest'))).
{ destruct a as [|l|l|l]; cbn [act_on action_code new_segment new_items] in *.
- destruct rest as [|old rest]; [done|]. injection Hact as <- <- <-. eexists _, _. split; [done|]. split; [by constructor|]. left. eauto.
- injection Hact as <- <- <-. eexists _, _. split; [done|]. split; [by constructor|]. right. left. eauto 6.
- destruct rest as [|old rest]; [done|]. injection Hact as <- <- <-. eexists _, _. split; [done|]. split; [by constructor|]. right. right. eauto 8.
- destruct rest as [|old rest]; [done|]. injection Hact as <- <- <-. apply Forall_cons in Hok as [Hold _].
destruct (sim_add_items _ _ l _ _ _ Hs Hold (proj1 Ha) Hroom) as [Hadd Hm].
change (GIN_SEGMENT_ADDITEMS =? GIN_SEGMENT_ADDITEMS) with true. cbv iota. rewrite Hadd. cbn [mbind res_bind].
eexists _, _. split; [done|]. split; [by constructor|]. right. right. eauto 8. }
unfold act_segment. destruct Hnew as (code & seg & -> & Hn & Hcase). cbn [mbind res_bind]. rewrite Hsz. cbn [mbind res_bind].
destruct (sim_copy_tail _ _ _ _ Hs Hok) as (s1 & -> & Hs1 & Ht1). cbn [mbind res_bind].
assert (Hsome : rest ≠ [] → is_Some (tailCopy s1)) by (intros Hne; destruct (tailCopy s1); [eauto|by specialize (Ht1 eq_refl)]).
destruct Hcase as [(-> & -> & -> & l & ->)|[(-> & -> & <- & l & -> & ->)|(-> & -> & l & old & -> & -> & ->)]];
[change (do_action s1 GIN_SEGMENT_DELETE seg ?z) with (Ok (drop_segment s1 z))
|change (do_action s1 GIN_SEGMENT_INSERT ?x ?z) with (write_segment s1 x)
|change (do_action s1 GIN_SEGMENT_REPLACE ?x ?z) with (s ← write_segment s1 x; Ok (drop_segment s z))].
- eexists. split; [done|]. rewrite app_nil_r. split; [apply sim_drop; auto|]. split; [|done]. cbn [drop_segment tailCopy].
intros E. destruct (Hsome ltac:(done)). congruence.
- destruct (sim_write_segment _ _ _ _ l Hs1 Ht1 Hroom) as (s2 & -> & Hs2 & E2). eexists. split; [done|]. split; [done|]. split; [|done].
rewrite E2. done.
- destruct (sim_write_segment _ _ _ _ l Hs1 Ht1 Hroom) as (s2 & -> & Hs2 & E2). cbn [mbind res_bind]. eexists. split; [done|].
destruct (Hsome ltac:(done)) as [tl Etl]. split; [apply sim_drop; [done|rewrite E2; eauto]|]. split; [|done]. cbn [drop_segment tailCopy]. congruence.
Qed.

Lemma action_code_small a : 0 ≤ action_code a < 256.
Proof using. unfold action_code, GIN_SEGMENT_DELETE, GIN_SEGMENT_INSERT, GIN_SEGMENT_REPLACE, GIN_SEGMENT_ADDITEMS. destruct a; lia. Qed.

Lemma sim_step s out rest k n a new k' rest' data w bs : sim s out rest k → Forall segment_ok rest → action_ok (n, a) →
k ≤ n → n - k ≤ zlen rest → act_on n a (drop (Z.to_nat (n - k)) rest) = Some (new, k', rest') →
start + zlen (seg_bytes (out ++ take (Z.to_nat (n - k)) rest ++ new)) ≤ hi → holds data w (action_bytes (n, a) ++ bs) →
∃ s', recompress_step data w s = Ok (s', w + zlen (action_bytes (n, a))) ∧
sim s' (out ++ take (Z.to_nat (n - k)) rest ++ new) rest' k' ∧ (tailCopy s' = None → rest' = []) ∧ Forall segment_ok new.
Proof using Hhi Hblk.
intros Hs Hok Ha Hkn Hnk Hact Hroom H. pose proof Ha as [Hn _]. cbn [fst] in Hn. pose proof (action_code_small a) as Hc.
unfold action_bytes in *. cbn [fst snd] in *. rewrite <-!app_assoc in H. apply holds_rd in H as [E1 H]; [|simpl; lia].
apply holds_rd in H as [E2 H]; [|simpl; lia]. change (Z.of_nat 1) with 1 in *. unfold recompress_step. rewrite E1, E2. cbn [mbind res_bind].
replace (w + 1 + 1) with (w + 2) in H by lia. rewrite (get_action_spec data (w + 2) n a bs Ha H). cbn [mbind res_bind].
rewrite (sim_segno _ _ _ _ Hs). set (pre := take (Z.to_nat (n - k)) rest) in *. set (suf := drop (Z.to_nat (n - k)) rest) in *.
assert (Hsplit : rest = pre ++ suf) by (symmetry; apply take_drop).
assert (Hlen : length pre = Z.to_nat (n - k)) by (unfold pre, zlen in *; rewrite length_take; lia).
rewrite Hsplit in Hok, Hs. apply Forall_app in Hok as [Hop Hos]. rewrite (app_assoc out pre new) in *.
destruct (sim_skip pre _ _ _ _ Hs Hop) as (s1 & Esk & Hs1 & _); [pose proof (seg_bytes_prefix (out ++ pre) new); lia|].
rewrite Hlen in Esk. rewrite Esk. cbn [mbind res_bind].
replace (k + zlen pre) with n in Hs1 by (unfold zlen; lia).
destruct (sim_act _ _ _ _ _ _ _ _ Hs1 Hos Ha Hact Hroom) as (s2 & -> & Hs2 & Ht2 & Hnew). cbn [mbind res_bind].
exists s2. split; [|done]. rewrite !zlen_app, !zlen_le_bytes. f_equal. f_equal. lia.
Qed.

Lemma act_on_rest n a ls new k' rest' : act_on n a ls = Some (new, k', rest') → Forall segment_ok ls → Forall segment_ok rest'.
Proof using. intros H Hok. destruct a, ls; cbn [act_on] in H; try done; injection H as <- <- <-; by try inversion Hok. Qed.

Lemma sim_loop acts : ∀ s out rest k res data w bs, sim s out rest k → Forall segment_ok rest → Forall action_ok acts →
apply_actions k acts rest = Some res → start + zlen (seg_bytes (out ++ res)) ≤ hi → holds data w (concat (action_bytes <$> acts) ++ bs) →
(acts = [] → tailCopy s = None → rest = []) →
∃ s' out' rest' k', recompress_loop (length acts) data w s = Ok s' ∧ sim s' out' rest' k' ∧ out' ++ rest' = out ++ res ∧
(tailCopy s' = None → rest' = []) ∧ Forall segment_ok res.
Proof using Hhi Hblk.
induction acts as [|[n a] acts IH]; intros s out rest k res data w bs Hs Hok Hacts Happ Hroom H Hnil.
{ injection Happ as <-. exists s, out, rest, k. split; [done|]. split; [done|]. split; [done|]. split; [by apply Hnil|done]. }
apply Forall_cons in Hacts as [Ha Hacts]. cbn [apply_actions] in Happ. destruct (Z.leb_spec k n) as [Hkn|]; [|done].
destruct (Z.leb_spec (n - k) (zlen rest)) as [Hnk|]; [|done]. cbn [andb] in Happ.
destruct (act_on n a _) as [[[new k'] rest']|] eqn:Eact; [|done]. destruct (apply_actions k' acts rest') as [res'|] eqn:Eapp; [|done]. injection Happ as <-.
cbn [fmap list_fmap concat] in H. rewrite <-app_assoc in H. set (pre := take (Z.to_nat (n - k)) rest) in *.
replace (out ++ pre ++ new ++ res') with ((out ++ pre ++ new) ++ res') in * by by rewrite <-!app_assoc.
destruct (sim_step s out rest k n a new k' rest' data w (concat (action_bytes <$> acts) ++ bs) Hs Hok Ha Hkn Hnk Eact) as (s1 & E1 & Hs1 & Ht1 & Hnew) ; [|exact H|].
{ pose proof (seg_bytes_prefix (out ++ pre ++ new) res'). fold pre. lia. }
fold pre in Hs1. apply holds_drop in H.
destruct (IH s1 _ _ _ res' data (w + zlen (action_bytes (n, a))) bs Hs1) as (s2 & out2 & rest2 & k2 & E2 & Hs2 & Eq & Ht2 & Hres); [|done|exact Eapp|exact Hroom|exact H|done|].
{ eapply act_on_rest; [exact Eact|]. by apply Forall_drop. }
exists s2, out2, rest2, k2. cbn [length recompress_loop]. rewrite E1. cbn [mbind res_bind]. rewrite E2.
split; [done|]. split; [done|]. split; [done|]. split; [done|]. rewrite !Forall_app. split; [by apply Forall_take|done].
Qed.

Lemma sim_copy_rest s out rest k : sim s out rest k → Forall segment_ok rest → (tailCopy s = None → rest = []) →
start + zlen (seg_bytes (out ++ rest)) ≤ hi →
∃ q, copy_rest s = Ok (q, start + zlen (seg_bytes (out ++ rest))) ∧ holds q start (seg_bytes (out ++ rest)) ∧ same_outside start hi p0 q.
Proof using Hhi.
intros [Ho Hw Hr He Hk Hpl Hf] Hok Ht Hroom. unfold copy_rest, old_mem in *. destruct (tailCopy s) as [tail|].
- destruct (Z.eqb_spec (oldseg s) (segmentend s)).
{ assert (rest = []) as -> by (apply seg_bytes_nil; [done|lia]). rewrite app_nil_r in *. exists (rc_page s). by rewrite Hw. }
replace (segmentend s - oldseg s) with (zlen (seg_bytes rest)) by lia.
rewrite (holds_load tail _ (seg_bytes rest) []) by (by rewrite app_nil_r). cbn [mbind res_bind]. rewrite seg_bytes_app, zlen_app in *. rewrite Hw.
assert (Hlen : zlen (rc_page s) = zlen p0) by apply Hf.
destruct (append_store (rc_page s) start (seg_bytes out) (seg_bytes rest) hi Ho) as (q & -> & Hq & Hfq); [lia|lia|]. cbn [mbind res_bind].
exists q. split; [f_equal; f_equal; lia|]. split; [done|by eapply same_outside_trans].
- rewrite (Ht eq_refl), app_nil_r in *. exists (rc_page s). by rewrite Hw.
Qed.
End simulation.

(** Fields outside the area. *)
Lemma same_mget lo hi p q n o : same_outside lo hi p q → 0 ≤ o → o + Z.of_nat n ≤ lo ∨ hi ≤ o → mget n q o = mget n p o.
Proof. intros [_ H] Ho Hd. unfold mget. by rewrite H. Qed.

Lemma same_rd lo hi p q n o : same_outside lo hi p q → 0 ≤ o → o + Z.of_nat n ≤ lo ∨ hi ≤ o → rd n q o = rd n p o.
Proof.
  intros Hs Ho Hd. pose proof Hs as [Hl _]. unfold rd, in_range. rewrite Hl, (same_mget lo hi p q) by done. done.
Qed.

(** ** The page after the record *)

Section leaf.
Context (p : page) (ls : segments) (Hp : leaf_page p ls).
Context (acts : list (Z * segment_action)) (ls' : segments) (bs : list Z).
Context (Hne : acts ≠ []) (Hlen : zlen acts < 65536) (Hacts : Forall action_ok acts).
Context (Happ : apply_actions 0 acts ls = Some ls') (Hroom : GinDataPageGetData + zlen (seg_bytes ls') ≤ pd_special p).

Lemma recompress_written : ∃ q, Forall segment_ok ls' ∧ ginRedoRecompress p (recompress_data acts ++ bs) = Ok (GinDataPageSetDataSize q (zlen (seg_bytes ls'))) ∧
holds q GinDataPageGetData (seg_bytes ls') ∧ same_outside GinDataPageGetData (pd_special p) p q.
Proof using All.
destruct Hp as [Hsz Hsp Hc Hok Hlow Hrm Hb]. unfold ginRedoRecompress. rewrite Hc. cbn [mbind res_bind negb].
pose proof (zlen_nonneg (seg_bytes ls)) as Hn1. pose proof (zlen_nonneg acts) as Hn2.
pose proof (holds_all (recompress_data acts ++ bs)) as H. unfold recompress_data in H at 2. rewrite <-app_assoc in H. apply holds_rd in H as [-> H]; [|simpl; lia].
cbn [mbind res_bind]. replace (Z.to_nat (zlen acts)) with (length acts) by (unfold zlen; lia).
assert (E : GinDataPageGetData + GinDataLeafPageGetPostingListSize p = pd_lower p) by (unfold GinDataLeafPageGetPostingListSize; change GinDataPageGetData with 32; change (MAXALIGN SizeOfPageHeaderData) with 24; change (MAXALIGN sizeof_ItemPointerData) with 8; lia).
rewrite E. change sizeof_GinPageOpaqueData with 8 in *.
assert (Hhi : GinDataPageGetData ≤ pd_special p ≤ zlen p) by lia.
destruct (sim_loop p (pd_special p) Hhi ltac:(lia) acts (mkRecompress p None GinDataPageGetData (pd_lower p) GinDataPageGetData 0)
[] ls 0 ls' (recompress_data acts ++ bs) 2 bs) as (s & out & rest & k & E1 & Hs & Eq & Ht & Hres); [|done..|exact H|done|].
{ constructor; cbn [rc_page tailCopy oldseg segmentend writePtr segno old_mem]; [|done..|by rewrite Hlow|done|done|done].
split; [done|]. split; [|done]. change (zlen (seg_bytes [])) with 0. lia. }
rewrite E1. cbn [mbind res_bind]. cbn [app] in Eq.
destruct (sim_copy_rest p (pd_special p) Hhi s out rest k Hs) as (q & E2 & Hq & Hf); [|done|by rewrite Eq|].
{ rewrite <-Eq in Hres. by apply Forall_app in Hres as [_ ?]. }
rewrite E2, Eq in *. cbn [mbind res_bind]. exists q. split; [done|]. split; [|done]. f_equal. f_equal. lia.
Qed.

Lemma recompress_leaf : ∃ q, ginRedoRecompress p (recompress_data acts ++ bs) = Ok q ∧ leaf_page q ls' ∧
same_outside GinDataPageGetData (pd_special p) (set_pd_lower p (pd_lower q)) q.
Proof using All.
destruct recompress_written as (q & Hok & E & Hq & Hf). eexists. split; [exact E|].
destruct Hp as [Hsz Hsp Hc _ Hlow Hrm Hb]. pose proof Hf as [Hzq Hfq]. pose proof (zlen_nonneg (seg_bytes ls')) as Hn.
pose proof (zlen_nonneg (seg_bytes ls)) as Hn'. unfold GinDataPageSetDataSize.
change sizeof_GinPageOpaqueData with 8 in *. change GinDataPageGetData with 32 in *.
change (MAXALIGN SizeOfPageHeaderData) with 24. change (MAXALIGN sizeof_ItemPointerData) with 8.
set (v := zlen (seg_bytes ls') + 24 + 8). set (q' := set_pd_lower q v).
assert (Hz : zlen q' = BLCKSZ) by (unfold q', set_pd_lower; rewrite zlen_mput; lia). change BLCKSZ with 8192 in *.
assert (Hlw : pd_lower q' = v) by (unfold q', pd_lower, set_pd_lower; apply mget_mput2; unfold v; lia).
assert (Hspe : pd_special q' = pd_special p).
{ unfold q', set_pd_lower, pd_special. rewrite mget_mput_disj by lia. apply (same_mget 32 (pd_special p)); [exact Hf|lia|left; lia]. }
split; [constructor|].
- done.
- rewrite Hspe. done.
- rewrite <-Hc. unfold GinPageIsCompressed, gin_get, opaque_get, PageGetSpecialPointer. rewrite Hspe. f_equal. unfold gin_flags.
rewrite <-(same_rd 32 (pd_special p) p q) by (done || lia). unfold rd, in_range. rewrite Hz, Hzq, Hsz. unfold q', set_pd_lower. rewrite mget_mput_disj by lia. done.
- done.
- rewrite Hlw. unfold v. change GinDataPageGetData with 32. lia.
- rewrite Hspe. change GinDataPageGetData with 32. lia.
- destruct Hq as (? & ? & Hq). change GinDataPageGetData with 32. split; [lia|]. split; [lia|]. unfold q', set_pd_lower. by rewrite mread_mput_disj by lia.
- split; [unfold set_pd_lower; rewrite zlen_mput; lia|]. intros o l Ho Hd. rewrite Hlw. unfold q', set_pd_lower, mput.
apply list_eq. intros i. rewrite !mread_lookup by done. case_decide; [|done]. rewrite !mwrite_lookup by (rewrite ?zlen_le_bytes; lia).
case_decide; [done|]. assert (Hi : mread q (o + Z.of_nat i) 1 = mread p (o + Z.of_nat i) 1) by (apply Hfq; lia).
apply (f_equal (λ x, x !! 0%nat)) in Hi. rewrite !mread_lookup in Hi by lia. rewrite !decide_True in Hi by (simpl; lia). simpl in Hi. by rewrite Z.add_0_r in Hi.
Qed.
End leaf.
