(* ===== verification/GinTree.v ===== *)
(** * Posting items of a GIN internal page

    An internal page of a posting tree as a list of posting items, and what
    adding and deleting an item does to that list. *)

From S2P Require Import Prelude Mem Page Buffer Btree GinPosting Gin GinLeaf.

(** A page that holds the posting items, each of ten bytes. *)
Record internal_page (p : page) (items : list (list Z)) : Prop := {
  ip_size : zlen p = BLCKSZ;
  ip_special : pd_special p + sizeof_GinPageOpaqueData ≤ BLCKSZ;
  ip_maxoff : gin_get 2 p gin_maxoff = Ok (zlen items);
  ip_items : Forall (λ it, zlen it = sizeof_PostingItem) items;
  ip_room : GinDataPageGetData + zlen items * sizeof_PostingItem ≤ pd_special p;
  ip_bytes : holds p GinDataPageGetData (concat items) }.

(** What an operation on the items leaves alone: the right link, the flags and
    the right bound. *)
Definition same_node (p q : page) : Prop :=
  pd_special q = pd_special p ∧ gin_get 4 q gin_rightlink = gin_get 4 p gin_rightlink ∧
  gin_get 2 q gin_flags = gin_get 2 p gin_flags ∧ mread q PageGetContents 8 = mread p PageGetContents 8.

Lemma items_bytes (items : list (list Z)) : Forall (λ it, zlen it = sizeof_PostingItem) items → zlen (concat items) = zlen items * sizeof_PostingItem.
Proof. induction 1 as [|it items Hit _ IH]; [done|]. cbn [concat]. rewrite zlen_app, zlen_cons, Hit, IH. unfold sizeof_PostingItem. lia. Qed.

Lemma store_spec p a bs : 0 ≤ a → a + zlen bs ≤ zlen p → ∃ q, store p a bs = Ok q ∧ holds q a bs ∧ same_outside a (a + zlen bs) p q.
Proof.
  intros Ha Hl. pose proof (zlen_nonneg bs). unfold store. rewrite (proj2 (in_range_true p a (zlen bs))) by lia. eexists. split; [done|]. split.
  - split; [done|]. rewrite zlen_mwrite. split; [done|]. by apply mread_mwrite_same.
  - split; [apply zlen_mwrite|]. intros o l Ho Hd. apply mread_mwrite_disj; lia.
Qed.

Lemma holds_same lo hi p q b x : same_outside lo hi p q → holds p b x → b + zlen x ≤ lo ∨ hi ≤ b → holds q b x.
Proof. intros [Hl H] (Hb & Hx & E) Hd. split; [done|]. split; [lia|]. by rewrite H. Qed.

Lemma same_weaken lo hi lo' hi' p q : same_outside lo hi p q → lo' ≤ lo → hi ≤ hi' → same_outside lo' hi' p q.
Proof. intros [Hl H] ? ?. split; [done|]. intros o l Ho Hd. apply H; [done|lia]. Qed.

(** The end of both operations: the number of items and the end of the data. *)
Lemma set_items p q items n : internal_page p items → same_outside GinDataPageGetData (pd_special p) p q →
  ∀ items' : list (list Z), Forall (λ it, zlen it = sizeof_PostingItem) items' → zlen items' = n →
  GinDataPageGetData + n * sizeof_PostingItem ≤ pd_special p → holds q GinDataPageGetData (concat items') →
  ∃ q', (q ← gin_set 2 q gin_maxoff n; Ok (GinDataPageSetDataSize q (n * sizeof_PostingItem))) = Ok q' ∧ internal_page q' items' ∧
    pd_lower q' = GinDataPageGetData + n * sizeof_PostingItem ∧ same_node p q'.
Proof.
  intros [Hsz Hsp Hm Hit Hrm Hb] Hf items' Hit' Hn Hroom Hq. pose proof Hf as [Hzq _]. pose proof (zlen_nonneg items') as Hn0.
  pose proof (items_bytes items' Hit') as Hlen. pose proof (zlen_nonneg items).
  unfold sizeof_GinPageOpaqueData, sizeof_PostingItem in *. change GinDataPageGetData with 32 in *. change BLCKSZ with 8192 in *.
  assert (Hspe : pd_special q = pd_special p) by (unfold pd_special; apply (same_mget 32 (pd_special p)); [done|lia|left; lia]).
  unfold gin_set, opaque_set, PageGetSpecialPointer, gin_maxoff. rewrite Hspe.
  destruct (store_spec q (pd_special p + 4) (le_bytes 2 n)) as (q1 & -> & H1 & Hf1); [lia|rewrite zlen_le_bytes; lia|]. cbn [mbind res_bind].
  rewrite zlen_le_bytes in Hf1. change (Z.of_nat 2) with 2 in Hf1. pose proof Hf1 as [Hz1 _].
  unfold GinDataPageSetDataSize, set_pd_lower, mput. change (MAXALIGN SizeOfPageHeaderData) with 24. change (MAXALIGN sizeof_ItemPointerData) with 8.
  pose proof (store_spec q1 12 (le_bytes 2 (n * 10 + 24 + 8)) ltac:(lia)) as (q2 & E2 & H2 & Hf2); [rewrite zlen_le_bytes; lia|].
  unfold store in E2. destruct (in_range q1 12 _) in E2; [|done]. apply Ok_inj in E2. rewrite E2.
  rewrite zlen_le_bytes in Hf2. change (12 + Z.of_nat 2) with 14 in Hf2. pose proof Hf2 as [Hz2 _]. exists q2. split; [done|].
  assert (Hspe2 : pd_special q2 = pd_special p).
  { unfold pd_special in *. rewrite (same_mget 12 14 q1 q2), (same_mget (mget 2 p 16 + 4) (mget 2 p 16 + 4 + 2) q q1); [done|done|lia|left; lia|done|lia|right; lia]. }
  assert (Hfield : ∀ n f, 0 ≤ f → f + Z.of_nat n ≤ 4 ∨ 6 ≤ f → gin_get n q2 f = gin_get n p f).
  { intros k f Hf0 Hd. unfold gin_get, opaque_get, PageGetSpecialPointer. rewrite Hspe2.
    rewrite (same_rd 12 14 q1 q2), (same_rd (pd_special p + 4) (pd_special p + 4 + 2) q q1), (same_rd 32 (pd_special p) p q); try done; lia. }
  split; [constructor|split].
  - rewrite Hz2, Hz1, Hzq. done.
  - rewrite Hspe2. done.
  - unfold gin_get, opaque_get, PageGetSpecialPointer, gin_maxoff. rewrite Hspe2, (same_rd 12 14 q1 q2) by (done || lia).
    rewrite Hn. rewrite <-(app_nil_r (le_bytes 2 n)) in H1. by apply holds_rd in H1 as [-> _]; [|simpl; lia].
  - done.
  - rewrite Hspe2. unfold sizeof_PostingItem. change GinDataPageGetData with 32. lia.
  - change GinDataPageGetData with 32. eapply holds_same; [exact Hf2| |right; lia]. eapply holds_same; [exact Hf1|exact Hq|left; lia].
  - unfold pd_lower. destruct H2 as (_ & _ & H2). unfold mget. change (Z.of_nat 2) with 2. rewrite zlen_le_bytes in H2. change (Z.of_nat 2) with 2 in H2.
    rewrite H2, le_val_bytes. change GinDataPageGetData with 32. rewrite Z.mod_small; [lia|]. simpl. lia.
  - split; [done|]. split; [apply Hfield; unfold gin_rightlink; simpl; lia|]. split; [apply Hfield; unfold gin_flags; simpl; lia|].
    change PageGetContents with 24. rewrite (proj2 Hf2), (proj2 Hf1), (proj2 Hf) by lia. done.
Qed.

Section items.
Context (p : page) (items : list (list Z)) (Hp : internal_page p items).

(** The items before and from position [off] on. *)
Lemma split_items off : 1 ≤ off ≤ zlen items + 1 →
concat items = concat (take (Z.to_nat (off - 1)) items) ++ concat (drop (Z.to_nat (off - 1)) items) ∧
zlen (concat (take (Z.to_nat (off - 1)) items)) = (off - 1) * sizeof_PostingItem ∧
zlen (concat (drop (Z.to_nat (off - 1)) items)) = (zlen items - (off - 1)) * sizeof_PostingItem.
Proof using Hp.
intros Hoff. destruct Hp as [_ _ _ Hit _ _]. split; [by rewrite <-concat_app, take_drop|].
rewrite !items_bytes by (by apply Forall_take || by apply Forall_drop). unfold zlen in *. rewrite length_take, length_drop. split; f_equal; lia.
Qed.

Lemma add_posting_item data off : zlen data = sizeof_PostingItem → 1 ≤ off ≤ zlen items + 1 →
GinDataPageGetData + (zlen items + 1) * sizeof_PostingItem ≤ pd_special p →
∃ q, GinDataPageAddPostingItem p data off = Ok q ∧
internal_page q (take (Z.to_nat (off - 1)) items ++ data :: drop (Z.to_nat (off - 1)) items) ∧
pd_lower q = GinDataPageGetData + (zlen items + 1) * sizeof_PostingItem ∧ same_node p q.
Proof using Hp.
intros Hd Hoff Hroom. destruct (split_items off Hoff) as (Es & El & Er). pose proof Hp as [Hsz Hsp Hm Hit Hrm Hb]. rewrite Es in Hb.
apply holds_app in Hb as [HA HB]. rewrite El in HB. set (A := concat (take _ items)) in *. set (B := concat (drop _ items)) in *.
unfold GinDataPageAddPostingItem. rewrite Hm. cbn [mbind res_bind]. unfold InvalidOffsetNumber. destruct (Z.eqb_spec off 0); [lia|].
unfold GinDataPageGetPostingItem, sizeof_GinPageOpaqueData, sizeof_PostingItem in *. change GinDataPageGetData with 32 in *. change BLCKSZ with 8192 in *.
assert (Hmove : ∃ q, (if negb (off =? zlen items + 1) then bs ← load p (32 + (off - 1) * 10) ((zlen items - off + 1) * 10); store p (32 + (off - 1) * 10 + 10) bs
else Ok p) = Ok q ∧ holds q (32 + (off - 1) * 10 + 10) B ∧ same_outside (32 + (off - 1) * 10 + 10) (pd_special p) p q).
{ destruct (Z.eqb_spec off (zlen items + 1)) as [E|E]; cbn [negb].
- exists p. split; [done|]. split; [|done]. assert (B = []) as -> by (apply nil_length_inv; unfold zlen in *; lia).
split; [lia|]. split; [|done]. change (zlen (@nil Z)) with 0. lia.
- replace ((zlen items - off + 1) * 10) with (zlen B) by lia. rewrite (holds_load p _ B []) by (by rewrite app_nil_r). cbn [mbind res_bind].
destruct (store_spec p (32 + (off - 1) * 10 + 10) B) as (q & -> & Hq & Hf); [lia|lia|]. exists q. split; [done|]. split; [done|].
eapply same_weaken; [exact Hf|lia|lia]. }
destruct Hmove as (q & E & HqB & Hfq). rewrite E. clear E. cbn [mbind res_bind]. pose proof Hfq as [Hzq _].
destruct (store_spec q (32 + (off - 1) * 10) data) as (q1 & -> & Hq1 & Hf1); [lia|lia|]. cbn [mbind res_bind]. rewrite Hd in Hf1.
rewrite u16_small by lia. set (items' := take (Z.to_nat (off - 1)) items ++ data :: drop (Z.to_nat (off - 1)) items).
assert (Hl' : zlen items' = zlen items + 1).
{ unfold items'. rewrite zlen_app, zlen_cons. unfold zlen. rewrite length_take, length_drop. unfold zlen in Hoff. lia. }
apply (set_items p q1 items (zlen items + 1) Hp) with (items' := items'); [|unfold items'|done|unfold sizeof_PostingItem; change GinDataPageGetData with 32; lia|].
- eapply same_outside_trans; [eapply same_weaken; [exact Hfq|change GinDataPageGetData with 32; lia|lia]|eapply same_weaken; [exact Hf1|change GinDataPageGetData with 32; lia|lia]].
- rewrite Forall_app, Forall_cons. split; [by apply Forall_take|]. split; [done|by apply Forall_drop].
- unfold items'. rewrite concat_app. cbn [concat]. fold A B. change GinDataPageGetData with 32. apply holds_app. rewrite El. split.
+ eapply holds_same; [exact Hf1| |left; lia]. eapply holds_same; [exact Hfq|exact HA|left; lia].
+ apply holds_app. rewrite Hd. split; [done|]. eapply holds_same; [exact Hf1|exact HqB|right; lia].
Qed.

Lemma delete_posting_item off : 1 ≤ off ≤ zlen items →
∃ q, GinPageDeletePostingItem p off = Ok q ∧ internal_page q (take (Z.to_nat (off - 1)) items ++ drop (Z.to_nat off) items) ∧
pd_lower q = GinDataPageGetData + (zlen items - 1) * sizeof_PostingItem ∧ same_node p q.
Proof using Hp.
intros Hoff. destruct (split_items off ltac:(lia)) as (Es & El & Er). destruct (split_items (off + 1) ltac:(lia)) as (Es' & El' & Er').
replace (off + 1 - 1) with off in * by lia. pose proof Hp as [Hsz Hsp Hm Hit Hrm Hb]. pose proof Hb as Hb'. rewrite Es in Hb. rewrite Es' in Hb'.
apply holds_app in Hb as [HA _]. apply holds_app in Hb' as [_ HB]. rewrite El' in HB.
set (A := concat (take _ items)) in *. set (B := concat (drop (Z.to_nat off) items)) in *.
unfold GinPageDeletePostingItem. rewrite Hm. cbn [mbind res_bind].
unfold GinDataPageGetPostingItem, sizeof_GinPageOpaqueData, sizeof_PostingItem in *. change GinDataPageGetData with 32 in *. change BLCKSZ with 8192 in *.
assert (Hmove : ∃ q, (if negb (off =? zlen items) then bs ← load p (32 + (off + 1 - 1) * 10) (10 * (zlen items - off)); store p (32 + (off - 1) * 10) bs
else Ok p) = Ok q ∧ holds q (32 + (off - 1) * 10) B ∧ same_outside (32 + (off - 1) * 10) (pd_special p) p q).
{ destruct (Z.eqb_spec off (zlen items)) as [E|E]; cbn [negb].
- exists p. split; [done|]. split; [|done]. assert (B = []) as -> by (apply nil_length_inv; unfold zlen in *; lia).
split; [lia|]. split; [|done]. change (zlen (@nil Z)) with 0. lia.
- replace (off + 1 - 1) with off by lia. replace (10 * (zlen items - off)) with (zlen B) by lia.
rewrite (holds_load p _ B []) by (by rewrite app_nil_r). cbn [mbind res_bind].
destruct (store_spec p (32 + (off - 1) * 10) B) as (q & -> & Hq & Hf); [lia|lia|]. exists q. split; [done|]. split; [done|].
eapply same_weaken; [exact Hf|lia|lia]. }
destruct Hmove as (q & E & HqB & Hfq). rewrite E. clear E. cbn [mbind res_bind]. rewrite u16_small by lia.
apply (set_items p q items (zlen items - 1) Hp) with (items' := take (Z.to_nat (off - 1)) items ++ drop (Z.to_nat off) items).
- eapply same_weaken; [exact Hfq|change GinDataPageGetData with 32; lia|lia].
- rewrite Forall_app. split; [by apply Forall_take|by apply Forall_drop].
- rewrite zlen_app. unfold zlen in *. rewrite length_take, length_drop. lia.
- unfold sizeof_PostingItem. change GinDataPageGetData with 32. lia.
- rewrite concat_app. fold A B. change GinDataPageGetData with 32. apply holds_app. rewrite El. split; [|done].
eapply holds_same; [exact Hfq|exact HA|left; lia].
Qed.

(** The child of an item. *)
Lemma set_child off it blk : 1 ≤ off → items !! Z.to_nat (off - 1) = Some it →
∃ q, store p (GinDataPageGetPostingItem off) (put_blockid blk) = Ok q ∧
internal_page q (<[Z.to_nat (off - 1) := put_blockid blk ++ drop 4 it]> items) ∧ same_node p q.
Proof using Hp.
intros Hoff Hit0. pose proof (lookup_lt_Some _ _ _ Hit0) as Hlt. assert (Hle : off ≤ zlen items) by (unfold zlen; lia).
destruct (split_items off ltac:(lia)) as (Es & El & Er).
pose proof Hp as [Hsz Hsp Hm Hit Hrm Hb]. rewrite Es, (drop_S _ _ _ Hit0) in Hb. cbn [concat] in Hb. apply holds_app in Hb as [HA HB]. rewrite El in HB.
pose proof (proj1 (Forall_lookup _ _) Hit _ _ Hit0) as Hil. cbn in Hil. rewrite <-(take_drop 4 it), <-app_assoc in HB.
unfold sizeof_GinPageOpaqueData, sizeof_PostingItem in *. unfold GinDataPageGetPostingItem, sizeof_PostingItem. change GinDataPageGetData with 32 in *. change BLCKSZ with 8192 in *.
assert (H4 : zlen (take 4 it) = 4) by (unfold zlen in *; rewrite length_take; lia). assert (H6 : zlen (drop 4 it) = 6) by (unfold zlen in *; rewrite length_drop; lia).
apply holds_app in HB as [_ HB]. rewrite H4 in HB. assert (Hpb : zlen (put_blockid blk) = 4) by done.
destruct (store_spec p (32 + (off - 1) * 10) (put_blockid blk)) as (q & -> & Hq & Hf); [lia|lia|]. rewrite Hpb in Hf. pose proof Hf as [Hz _].
exists q. split; [done|]. pose proof (ip_room _ _ Hp) as Hrm'. unfold sizeof_PostingItem in Hrm'. change GinDataPageGetData with 32 in Hrm'.
assert (Hspe : pd_special q = pd_special p) by (unfold pd_special; apply (same_mget (32 + (off - 1) * 10) (32 + (off - 1) * 10 + 4)); [done|lia|left; lia]).
assert (Hfield : ∀ n f, 0 ≤ f → gin_get n q f = gin_get n p f).
{ intros n f Hf0. unfold gin_get, opaque_get, PageGetSpecialPointer. rewrite Hspe. apply (same_rd (32 + (off - 1) * 10) (32 + (off - 1) * 10 + 4)); [done|lia|].
right. lia. }
split; [constructor|].
- by rewrite Hz, Hsz.
- rewrite Hspe. done.
- rewrite Hfield by (unfold gin_maxoff; lia). unfold zlen. by rewrite length_insert.
- apply Forall_insert; [done|]. rewrite zlen_app, Hpb, H6. done.
- rewrite Hspe. unfold zlen in *. rewrite length_insert. unfold sizeof_PostingItem. change GinDataPageGetData with 32. lia.
- rewrite (insert_take_drop _ _ _ Hlt), concat_app. cbn [concat]. change GinDataPageGetData with 32. apply holds_app. rewrite El. split; [eapply holds_same; [exact Hf|exact HA|left; lia]|].
rewrite <-app_assoc. apply holds_app. rewrite Hpb. split; [done|]. eapply holds_same; [exact Hf|exact HB|right; lia].
- split; [done|]. split; [apply Hfield; unfold gin_rightlink; lia|]. split; [apply Hfield; unfold gin_flags; lia|]. change PageGetContents with 24.
apply (proj2 Hf); lia.
Qed.
End items.

Lemma same_node_trans p q r : same_node p q → same_node q r → same_node p r.
Proof. intros (A1 & A2 & A3 & A4) (B1 & B2 & B3 & B4). split_and!; congruence. Qed.

(** The items after an insertion that finishes a split: the item at [off], which
    pointed to the page that was split, points to its right half, and the new
    item comes before it. *)
Definition split_child (off blk : Z) (newitem : list Z) (items : list (list Z)) : option (list (list Z)) :=
  it ← items !! Z.to_nat (off - 1);
  Some (take (Z.to_nat (off - 1)) items ++ newitem :: (put_blockid blk ++ drop 4 it) :: drop (Z.to_nat off) items).

Lemma insert_internal p items off blk newitem items' bs : internal_page p items → 1 ≤ off < 65536 → zlen newitem = sizeof_PostingItem →
  split_child off blk newitem items = Some items' → GinDataPageGetData + zlen items' * sizeof_PostingItem ≤ pd_special p →
  ∃ q, gin_insert_internal p blk (le_bytes 2 off ++ newitem ++ bs) = Ok q ∧ internal_page q items' ∧ same_node p q.
Proof.
  intros Hp Hoff Hn Hs Hroom. unfold split_child in Hs. destruct (items !! Z.to_nat (off - 1)) as [it|] eqn:Eit; cbn [mbind option_bind] in Hs; [|done].
  injection Hs as <-. unfold gin_insert_internal. pose proof (holds_all (le_bytes 2 off ++ newitem ++ bs)) as H.
  apply holds_rd in H as [-> H]; [|simpl; lia]. cbn [mbind res_bind]. change (0 + Z.of_nat 2) with 2 in H.
  destruct (set_child p items Hp off it blk ltac:(lia) Eit) as (q & -> & Hq & Hsq). cbn [mbind res_bind].
  replace sizeof_PostingItem with (zlen newitem) by done. rewrite (holds_load _ _ _ _ H). cbn [mbind res_bind].
  pose proof (lookup_lt_Some _ _ _ Eit) as Hlt. assert (Hl : zlen (<[Z.to_nat (off - 1) := put_blockid blk ++ drop 4 it]> items) = zlen items) by (unfold zlen; by rewrite length_insert).
  rewrite zlen_app, !zlen_cons in Hroom.
  assert (Hlen : zlen (take (Z.to_nat (off - 1)) items) + zlen (drop (Z.to_nat off) items) = zlen items - 1) by (unfold zlen; rewrite length_take, length_drop; lia).
  destruct (add_posting_item q _ Hq newitem off Hn) as (q' & Hq' & Hi & _ & Hs'); [rewrite Hl; unfold zlen; lia|rewrite Hl, (proj1 Hsq); lia|].
  exists q'. split; [done|]. split; [|by eapply same_node_trans]. revert Hi. rewrite take_insert_ge by lia.
  rewrite (drop_S _ (put_blockid blk ++ drop 4 it)) by (apply list_lookup_insert_eq; lia). rewrite drop_insert_lt by lia.
  by replace (S (Z.to_nat (off - 1))) with (Z.to_nat off) by lia.
Qed.
