(* ===== verification/GinSpec.v ===== *)
(** * The theorems about GIN indexes

    Posting lists (round trip, removal), and the replay of records on the pages
    of a posting tree. *)

From S2P Require Import Prelude Mem Page PageAdd Checksum Buffer WalRecord HeapRedo Resident TagList Btree BtreeRedo HashRedo GinPosting Gin GinRedo GinLeaf GinTree.

(** ** Posting lists *)

(** C26: compression of a sorted array of item pointers packs at least the
    first, stops only when the next item would not fit in [maxsize] bytes, and
    decoding what it wrote gives back exactly the packed items: the round trip
    that the source checks in assertion builds. *)
Theorem posting_list_round_trip l maxsize : l ≠ [] → sorted_tids l → offsetof_bytes ≤ maxsize ≤ 2 ^ 16 → ∃ (n : nat) seg,
  (1 ≤ n ≤ length l)%nat ∧ ginCompressPostingList l maxsize = Ok (seg, Z.of_nat n) ∧ zlen seg ≤ maxsize ∧
  ginPostingListDecode seg 0 = Ok (take n l) ∧
  ((n < length l)%nat → maxsize < zlen (posting_segment (take (S n) l))).
Proof.
  intros Hne Hs Hm. destruct (compress_spec l maxsize Hne Hs Hm) as (n & Hn & E & Hok & Hle & Hmore). exists n, (posting_segment (take n l)).
  split; [done|]. split; [done|]. split; [done|]. split; [|done]. apply (decode_segment_spec _ _ _ [] Hok). rewrite app_nil_r. apply holds_all.
Qed.

(** C27: removing items from a posting list never makes it longer: when an array
    fits in [maxsize] bytes, so does every array that is left after deleting
    some of its items, in no more bytes, and none of its items is lost.  Vacuum
    depends on this when it rewrites the lists of a page in place. *)
Theorem posting_list_removal l l' maxsize seg : sorted_tids l → l' ≠ [] → sublist l' l → offsetof_bytes ≤ maxsize ≤ 2 ^ 16 →
  ginCompressPostingList l maxsize = Ok (seg, zlen l) →
  ∃ seg', ginCompressPostingList l' maxsize = Ok (seg', zlen l') ∧ zlen seg' ≤ zlen seg ∧ ginPostingListDecode seg' 0 = Ok l'.
Proof.
  intros Hs Hne Hsub Hm E. assert (Hne' : l ≠ []) by (intros ->; by apply sublist_nil_r in Hsub).
  destruct (compress_spec l maxsize Hne' Hs Hm) as (n & Hn & E' & _ & Hle & _). rewrite E in E'. apply Ok_inj in E'. injection E' as -> En.
  rewrite take_ge in * by (unfold zlen in *; lia). pose proof (segment_sublist l l' Hs Hne Hsub) as Hlt. pose proof (sorted_sublist l l' Hsub Hs) as Hs'.
  exists (posting_segment l'). rewrite compress_fits; [|done|done|lia|done]. split; [done|]. split; [done|].
  apply (decode_segment_spec _ _ _ []); [split; [done|]; split; [done|lia]|]. rewrite app_nil_r. apply holds_all.
Qed.

(** ** Leaf pages *)

Section leaf_redo.
Context (p : page) (ls : segments).

Lemma leaf_set_lsn lsn : leaf_page p ls → leaf_page (PageSetLSN p lsn) ls.
Proof using.
intros [Hsz Hsp Hc Hok Hlow Hrm Hb]. pose proof (zlen_nonneg (seg_bytes ls)). unfold PageSetLSN.
change GinDataPageGetData with 32 in *. change sizeof_GinPageOpaqueData with 8 in *.
set (q := mput 4 _ 4 lsn). assert (Hz : zlen q = zlen p) by (unfold q; by rewrite !zlen_mput).
assert (Hg : ∀ n o, 8 ≤ o → mget n q o = mget n p o) by (intros n o Ho; unfold q; rewrite !mget_mput_disj by lia; done).
constructor; change GinDataPageGetData with 32; change sizeof_GinPageOpaqueData with 8.
- congruence.
- unfold pd_special in *. rewrite Hg by lia. done.
- rewrite <-Hc. unfold GinPageIsCompressed, gin_get, opaque_get, PageGetSpecialPointer, rd, in_range, gin_flags. rewrite Hz.
unfold pd_special in *. rewrite !Hg by lia. done.
- done.
- unfold pd_lower in *. rewrite Hg by lia. done.
- unfold pd_special in *. rewrite Hg by lia. done.
- destruct Hb as (H1 & H2 & H3). split; [done|]. split; [lia|]. unfold q. by rewrite !mread_mput_disj by lia.
Qed.

Lemma leaf_decode : leaf_page p ls →
ginPostingListDecodeAllSegments p GinDataPageGetData (GinDataLeafPageGetPostingListSize p) = Ok (concat ls).
Proof using.
intros [Hsz Hsp Hc Hok Hlow Hrm Hb]. unfold GinDataLeafPageGetPostingListSize. rewrite Hlow.
replace (GinDataPageGetData + zlen (seg_bytes ls) - MAXALIGN SizeOfPageHeaderData - MAXALIGN sizeof_ItemPointerData) with (zlen (seg_bytes ls))
by (change GinDataPageGetData with 32; change (MAXALIGN SizeOfPageHeaderData) with 24; change (MAXALIGN sizeof_ItemPointerData) with 8; lia).
apply (decode_all_spec p _ ls []); [done|]. by rewrite app_nil_r.
Qed.
End leaf_redo.

(** The records that carry the actions for a leaf page. *)
Definition leaf_record (r : XLogReaderState) : Prop :=
  rec_info r = XLOG_GIN_VACUUM_DATA_LEAF_PAGE ∨
  (rec_info r = XLOG_GIN_INSERT ∧ rd 2 (main_data r) 0 = Ok (set_flag GIN_INSERT_ISDATA GIN_INSERT_ISLEAF)).

Lemma leaf_record_redo st r tag : leaf_record r → XLogRecGetBlockTag r 0 = Some tag → ∃ f,
  polar_gin_idx_redo st r tag None = redo_read st r 0 false f ∧ ∀ p, f p = with_lsn r (ginRedoRecompress p (block_bytes r 0)).
Proof.
  intros Hr Ht%log_tag. unfold polar_gin_idx_redo. destruct Hr as [->|[-> Hf]].
  - change (∃ f, polar_gin_redo_vacuum_data_leaf_page st r tag None = redo_read st r 0 false f ∧
      ∀ p, f p = with_lsn r (ginRedoRecompress p (block_bytes r 0))).
    unfold polar_gin_redo_vacuum_data_leaf_page. rewrite Ht. cbn [mbind res_bind]. rewrite tags_equal_refl. by eexists.
  - change (∃ f, polar_gin_redo_insert st r tag None = redo_read st r 0 false f ∧
      ∀ p, f p = with_lsn r (ginRedoRecompress p (block_bytes r 0))).
    unfold polar_gin_redo_insert. rewrite Hf. cbn [mbind res_bind]. change (negb (has_flag (set_flag GIN_INSERT_ISDATA GIN_INSERT_ISLEAF) GIN_INSERT_ISLEAF)) with false.
    cbv zeta iota. cbn [mbind res_bind]. rewrite Ht. cbn [mbind res_bind]. rewrite tags_equal_refl. by eexists.
Qed.

(** C25: replay of an insertion or a vacuum on a leaf page of a posting tree.
    The page holds a list of compressed segments, the record a list of actions;
    replay ends with the page that holds the list the actions give (segments
    deleted, inserted, replaced, or joined with new items), although it
    rewrites the page in place while it still reads the old segments.  Scanning
    the page afterwards returns the items of the new segments. *)
Theorem gin_leaf_redo st r tag p ls acts ls' bs :
  leaf_record r → plain_ref r 0 tag → resident st tag p → leaf_page p ls → PageIsNew p = false → PageGetLSN p < EndRecPtr r → 0 ≤ EndRecPtr r < 2 ^ 64 →
  block_bytes r 0 = recompress_data acts ++ bs → acts ≠ [] → zlen acts < 65536 → Forall action_ok acts →
  apply_actions 0 acts ls = Some ls' → GinDataPageGetData + zlen (seg_bytes ls') ≤ pd_special p →
  ∃ q, polar_gin_idx_redo st r tag None = Ok (buf_write st (Some tag) q, Some tag, BLK_NEEDS_REDO) ∧ leaf_page q ls' ∧
    PageGetLSN q = EndRecPtr r ∧
    ginPostingListDecodeAllSegments q GinDataPageGetData (GinDataLeafPageGetPostingListSize q) = Ok (concat ls').
Proof.
  intros Hr Hpr Hres Hp Hnew Hold Hlsn Hdata Hne Hlen Hacts Happ Hroom.
  destruct (leaf_record_redo st r tag Hr (pr_tag _ _ _ Hpr)) as (f & -> & Hf).
  destruct (recompress_leaf p ls Hp acts ls' bs Hne Hlen Hacts Happ Hroom) as (q & E & Hq & _). pose proof (leaf_set_lsn q ls' (EndRecPtr r) Hq) as Hq'.
  exists (PageSetLSN q (EndRecPtr r)). split; [|split; [done|]; split; [|by apply leaf_decode]].
  - apply (on_redo_resident _ _ _ _ p); [done|done|done|lia|]. rewrite Hf, Hdata. unfold with_lsn. by rewrite E.
  - apply PageGetSetLSN; [rewrite (lp_size _ _ Hq); done|done].
Qed.

(** ** Internal pages *)

Lemma internal_set_lsn p items lsn : internal_page p items → internal_page (PageSetLSN p lsn) items ∧ same_node p (PageSetLSN p lsn).
Proof.
  intros [Hsz Hsp Hm Hit Hrm Hb]. pose proof (zlen_nonneg items). unfold sizeof_GinPageOpaqueData, sizeof_PostingItem in *.
  change GinDataPageGetData with 32 in *. set (q := PageSetLSN p lsn). assert (Hz : zlen q = zlen p) by (unfold q, PageSetLSN; by rewrite !zlen_mput).
  assert (Hg : ∀ n o, 8 ≤ o → mget n q o = mget n p o) by (intros n o Ho; unfold q, PageSetLSN; rewrite !mget_mput_disj by lia; done).
  assert (Hs : pd_special q = pd_special p) by (apply Hg; lia).
  assert (Hf : ∀ n f, 0 ≤ f → gin_get n q f = gin_get n p f).
  { intros n f Hf. unfold gin_get, opaque_get, PageGetSpecialPointer, rd, in_range. rewrite Hs, Hz, Hg by lia. done. }
  split; [constructor; unfold sizeof_GinPageOpaqueData, sizeof_PostingItem; change GinDataPageGetData with 32|].
  - congruence.
  - by rewrite Hs.
  - rewrite Hf; [done|unfold gin_maxoff; lia].
  - done.
  - by rewrite Hs.
  - destruct Hb as (H1 & H2 & H3). split; [done|]. split; [lia|]. unfold q, PageSetLSN. by rewrite !mread_mput_disj by lia.
  - split; [done|]. split; [apply Hf; unfold gin_rightlink; lia|]. split; [apply Hf; unfold gin_flags; lia|].
    change PageGetContents with 24. unfold q, PageSetLSN. by rewrite !mread_mput_disj by lia.
Qed.

(** Replay of an insertion on an internal page of a posting tree, which
    finishes the split of a child.  The item at the offset number, which pointed
    to the page that was split, points to its right half, the new item comes
    before it, and all other items, the links and the right bound stay.  For
    the page of the child, the same record only clears the flag of the
    incomplete split. *)
Theorem gin_internal_redo st r tag child p items off blk newitem items' bs :
  rec_info r = XLOG_GIN_INSERT → rd 2 (main_data r) 0 = Ok GIN_INSERT_ISDATA → get_blockid (main_data r) 6 = Ok blk →
  plain_ref r 0 tag → XLogRecGetBlockTag r 1 = Some child → child ≠ tag → resident st tag p → internal_page p items →
  PageIsNew p = false → PageGetLSN p < EndRecPtr r → 0 ≤ EndRecPtr r < 2 ^ 64 → 1 ≤ off < 65536 → zlen newitem = sizeof_PostingItem →
  block_bytes r 0 = le_bytes 2 off ++ newitem ++ bs →
  split_child off blk newitem items = Some items' → GinDataPageGetData + zlen items' * sizeof_PostingItem ≤ pd_special p →
  (∃ q, polar_gin_idx_redo st r tag None = Ok (buf_write st (Some tag) q, Some tag, BLK_NEEDS_REDO) ∧ internal_page q items' ∧
    same_node p q ∧ PageGetLSN q = EndRecPtr r) ∧
  polar_gin_idx_redo st r child None = redo_read st r 1 false (λ c, with_lsn r (gin_clear c GIN_INCOMPLETE_SPLIT)).
Proof.
  intros Hi Hfl Hblk Hpr Hc Hne Hres Hp Hnew Hold Hlsn Hoff Hn Hdata Hs Hroom. pose proof (log_tag _ _ _ (pr_tag _ _ _ Hpr)) as Ht. apply log_tag in Hc.
  assert (Hd : ∀ t, polar_gin_idx_redo st r t None = polar_gin_redo_insert st r t None) by (intros t; unfold polar_gin_idx_redo; by rewrite Hi).
  rewrite !Hd. unfold polar_gin_redo_insert. rewrite Hfl. cbn [mbind res_bind]. change (negb (has_flag GIN_INSERT_ISDATA GIN_INSERT_ISLEAF)) with true.
  cbv zeta iota. rewrite Hblk. cbn [mbind res_bind]. rewrite Hc. cbn [mbind res_bind]. rewrite tags_equal_refl, (proj2 (tags_neq _ _ Hne)).
  rewrite Ht. cbn [mbind res_bind]. rewrite tags_equal_refl. split; [|done].
  destruct (insert_internal p items off blk newitem items' bs Hp Hoff Hn Hs Hroom) as (q & E & Hq & Hsn).
  destruct (internal_set_lsn q items' (EndRecPtr r) Hq) as [Hq' Hsn']. exists (PageSetLSN q (EndRecPtr r)).
  split; [|split; [done|]; split; [by eapply same_node_trans|apply PageGetSetLSN; [rewrite (ip_size _ _ Hq); done|done]]].
  apply (on_redo_resident _ _ _ _ p); [done|done|done|lia|]. unfold gin_insert_page. change (has_flag GIN_INSERT_ISDATA GIN_INSERT_ISDATA) with true.
  cbv zeta iota. unfold ginRedoInsertData, with_lsn. change (has_flag GIN_INSERT_ISDATA GIN_INSERT_ISLEAF) with false. cbv iota. rewrite Hdata, E. done.
Qed.

(** Replay of the deletion of a page, for its parent: the item is gone, the
    others stay in order. *)
Theorem gin_delete_parent_redo st r tag left deleted p items off :
  rec_info r = XLOG_GIN_DELETE_PAGE → rd 2 (main_data r) 0 = Ok off → plain_ref r 1 tag → XLogRecGetBlockTag r 2 = Some left →
  XLogRecGetBlockTag r 0 = Some deleted → left ≠ tag → deleted ≠ tag → resident st tag p → internal_page p items →
  PageIsNew p = false → PageGetLSN p < EndRecPtr r → 0 ≤ EndRecPtr r < 2 ^ 64 → 1 ≤ off ≤ zlen items →
  ∃ q, polar_gin_idx_redo st r tag None = Ok (buf_write st (Some tag) q, Some tag, BLK_NEEDS_REDO) ∧
    internal_page q (take (Z.to_nat (off - 1)) items ++ drop (Z.to_nat off) items) ∧ same_node p q.
Proof.
  intros Hi Hoff Hpr Hl Hd Hne1 Hne2 Hres Hp Hnew Hold Hlsn Hr. apply log_tag in Hl, Hd. pose proof (log_tag _ _ _ (pr_tag _ _ _ Hpr)) as Ht.
  assert (E : polar_gin_idx_redo st r tag None = polar_gin_redo_delete_page st r tag None) by (unfold polar_gin_idx_redo; by rewrite Hi).
  rewrite E. unfold polar_gin_redo_delete_page. rewrite Hl. cbn [mbind res_bind]. rewrite (proj2 (tags_neq _ _ Hne1)), Hd. cbn [mbind res_bind].
  rewrite (proj2 (tags_neq _ _ Hne2)), Ht. cbn [mbind res_bind]. rewrite tags_equal_refl.
  destruct (delete_posting_item p items Hp off Hr) as (q & Eq & Hq & _ & Hsn). destruct (internal_set_lsn q _ (EndRecPtr r) Hq) as [Hq' Hsn'].
  exists (PageSetLSN q (EndRecPtr r)). split; [|split; [done|by eapply same_node_trans]].
  apply (on_redo_resident _ _ _ _ p); [done|done|done|lia|]. rewrite Hoff. cbn [mbind res_bind]. unfold with_lsn. by rewrite Eq.
Qed.

(** ** Witnesses *)

Definition demo_tids : list ItemPointerData := [mkTid 1 1; mkTid 1 5; mkTid 2 3; mkTid 900 7].
Lemma demo_tids_sorted : sorted_tids demo_tids.
Proof. split; repeat constructor; cbn; lia. Qed.

Lemma posting_list_round_trip_witness : ∃ (n : nat) seg, ginCompressPostingList demo_tids 11 = Ok (seg, Z.of_nat n) ∧
  ginPostingListDecode seg 0 = Ok (take n demo_tids) ∧ zlen seg ≤ 11.
Proof.
  destruct (posting_list_round_trip demo_tids 11) as (n & seg & _ & E & Hle & Hd & _); [intros [=]|apply demo_tids_sorted|unfold offsetof_bytes; lia|].
  exists n, seg. split; [exact E|]. split; [exact Hd|exact Hle].
Defined.

Lemma posting_list_removal_witness : ∃ seg', ginCompressPostingList [mkTid 1 5; mkTid 900 7] 100 = Ok (seg', 2) ∧
  zlen seg' ≤ zlen (posting_segment demo_tids).
Proof.
  destruct (posting_list_removal demo_tids [mkTid 1 5; mkTid 900 7] 100 (posting_segment demo_tids)) as (seg' & E & Hle & _).
  - apply demo_tids_sorted.
  - intros [=].
  - unfold demo_tids. apply sublist_cons, sublist_skip, sublist_cons, sublist_skip, sublist_nil.
  - unfold offsetof_bytes. lia.
  - vm_compute. reflexivity.
  - exists seg'. split; [exact E|exact Hle].
Defined.

Definition gin_rel : RelFileNode := mkRel 1663 13580 16400.
Definition gin_tag (b : Z) : BufferTag := mkTag gin_rel 0 b.
Definition gin_blk (b : Z) (data : list Z) : DecodedBkpBlock := mkBlk true gin_rel 0 b 0 false false [] 0 0 0 (negb (zlen data =? 0)) data.
Definition gin_db (p : page) : dbstate :=
  mkDb {[ (gin_rel, 0) := [p; p; p; p] ]} {[ gin_tag 2 := p ]} ∅ ∅ true false false (mkConf false false).

Lemma gin_db_resident p : resident (gin_db p) (gin_tag 2) p.
Proof. constructor; [reflexivity|eexists; split; [reflexivity|cbn; unfold zlen; cbn; lia]|reflexivity]. Qed.

(** A leaf page with two segments; the record deletes the first, adds an item to
    the second and puts a new one behind it. *)
Definition demo_segs : segments := [[mkTid 1 1; mkTid 1 5]; [mkTid 2 3]].
Definition demo_leaf : page :=
  Eval vm_compute in match (p ← GinInitPage (GIN_DATA + GIN_LEAF + GIN_COMPRESSED); p ← store p GinDataPageGetData (seg_bytes demo_segs);
                            Ok (PageSetLSN (GinDataPageSetDataSize p (zlen (seg_bytes demo_segs))) 50)) with Ok p => p | Err _ => [] end.
Definition demo_acts : list (Z * segment_action) := [(0, SegDelete); (1, SegAddItems [mkTid 2 1]); (2, SegInsert [mkTid 900 7])].
Definition gin_leaf_rec : XLogReaderState :=
  mkRec 50 100 XLOG_GIN_VACUUM_DATA_LEAF_PAGE RM_GIN_ID 7 [] 0 [gin_blk 2 (recompress_data demo_acts)].

Lemma demo_leaf_page : leaf_page demo_leaf demo_segs.
Proof.
  constructor; [reflexivity|vm_compute; discriminate|vm_compute; reflexivity| |vm_compute; reflexivity|vm_compute; discriminate|].
  - repeat constructor; cbn; try lia; try discriminate.
  - split; [vm_compute; discriminate|]. split; [vm_compute; discriminate|vm_compute; reflexivity].
Qed.

Lemma gin_leaf_redo_witness : ∃ q, polar_gin_idx_redo (gin_db demo_leaf) gin_leaf_rec (gin_tag 2) None =
  Ok (buf_write (gin_db demo_leaf) (Some (gin_tag 2)) q, Some (gin_tag 2), BLK_NEEDS_REDO) ∧
  ginPostingListDecodeAllSegments q GinDataPageGetData (GinDataLeafPageGetPostingListSize q) = Ok [mkTid 2 1; mkTid 2 3; mkTid 900 7].
Proof.
  destruct (gin_leaf_redo (gin_db demo_leaf) gin_leaf_rec (gin_tag 2) demo_leaf demo_segs demo_acts
    [[mkTid 2 1; mkTid 2 3]; [mkTid 900 7]] []) as (q & E & _ & _ & Hd).
  - left. reflexivity.
  - constructor; [reflexivity|intros b [= <-]; reflexivity|reflexivity].
  - apply gin_db_resident.
  - apply demo_leaf_page.
  - vm_compute. reflexivity.
  - vm_compute. reflexivity.
  - cbn. lia.
  - vm_compute. reflexivity.
  - discriminate.
  - reflexivity.
  - repeat constructor; cbn; try lia; try discriminate.
  - vm_compute. reflexivity.
  - vm_compute. discriminate.
  - exists q. split; [exact E|exact Hd].
Defined.

(** An internal page with two items; the child of the second was split. *)
Definition posting_item (child blk off : Z) : list Z := put_blockid child ++ put_itemptr (mkTid blk off).
Definition demo_items : list (list Z) := [posting_item 5 1 9; posting_item 6 4 2].
Definition demo_internal : page :=
  Eval vm_compute in match (p ← GinInitPage GIN_DATA; p ← gin_set 2 p gin_maxoff 2; p ← store p GinDataPageGetData (concat demo_items);
                            Ok (PageSetLSN (GinDataPageSetDataSize p 20) 50)) with Ok p => p | Err _ => [] end.
Definition gin_insert_rec : XLogReaderState :=
  mkRec 50 100 XLOG_GIN_INSERT RM_GIN_ID 7 ([1; 0] ++ put_blockid 6 ++ put_blockid 7) 1
    [gin_blk 2 (le_bytes 2 2 ++ posting_item 6 3 1); gin_blk 6 []].

Lemma gin_internal_redo_witness : ∃ q, polar_gin_idx_redo (gin_db demo_internal) gin_insert_rec (gin_tag 2) None =
  Ok (buf_write (gin_db demo_internal) (Some (gin_tag 2)) q, Some (gin_tag 2), BLK_NEEDS_REDO) ∧
  internal_page q [posting_item 5 1 9; posting_item 6 3 1; posting_item 7 4 2].
Proof.
  destruct (gin_internal_redo (gin_db demo_internal) gin_insert_rec (gin_tag 2) (gin_tag 6) demo_internal demo_items 2 7 (posting_item 6 3 1)
    [posting_item 5 1 9; posting_item 6 3 1; posting_item 7 4 2] []) as [(q & E & Hq & _ & _) _].
  - reflexivity.
  - reflexivity.
  - reflexivity.
  - constructor; [reflexivity|intros b [= <-]; reflexivity|reflexivity].
  - reflexivity.
  - discriminate.
  - apply gin_db_resident.
  - constructor; [reflexivity|vm_compute; discriminate|vm_compute; reflexivity|repeat constructor|vm_compute; discriminate|].
    split; [vm_compute; discriminate|]. split; [vm_compute; discriminate|vm_compute; reflexivity].
  - vm_compute. reflexivity.
  - vm_compute. reflexivity.
  - cbn. lia.
  - lia.
  - reflexivity.
  - vm_compute. reflexivity.
  - vm_compute. reflexivity.
  - vm_compute. discriminate.
  - exists q. split; [exact E|exact Hq].
Defined.
