(* ===== verification/Spg.v ===== *)
(** * SP-GiST pages and tuples: [spgutils.c], [spgdoinsert.c], [spgxlog.c]

    The tuples of an SP-GiST page are linked by offset number, from the same
    page and from others, so that a tuple is never just removed: a dead tuple
    takes its place.  The page counts its redirection and placeholder tuples in
    the special space. *)

From stdpp Require Import sorting.
From S2P Require Import Prelude Mem Page PageAdd PageIndex PageCompact Buffer WalRecord HeapTuple HeapRedo TagList Btree BtreeRedo Gin.

(** ** Pages *)

Definition sizeof_SpGistPageOpaqueData : Z := 8.
Definition SPGIST_META : Z := 1.
Definition SPGIST_LEAF : Z := 4.
Definition SPGIST_NULLS : Z := 8.
Definition SPGIST_PAGE_ID : Z := 0xFF82.

(** The fields of [SpGistPageOpaqueData]. *)
Definition spg_flags : Z := 0.
Definition nRedirection : Z := 2.
Definition nPlaceholder : Z := 4.
Definition spgist_page_id : Z := 6.

Definition spg_get (p : page) (field : Z) : res Z := opaque_get 2 p (PageGetSpecialPointer p) field.
Definition spg_set (p : page) (field v : Z) : res page := opaque_set 2 p (PageGetSpecialPointer p) field v.

(** [field += d] on a [uint16]. *)
Definition spg_count (p : page) (field d : Z) : res page := v ← spg_get p field; spg_set p field (v + d).

Definition SpGistInitPage (f : Z) : res page :=
  let p := PageInit BLCKSZ (MAXALIGN sizeof_SpGistPageOpaqueData) in
  p ← store p (PageGetSpecialPointer p) (replicate (Z.to_nat sizeof_SpGistPageOpaqueData) 0);
  p ← spg_set p spg_flags f;
  spg_set p spgist_page_id SPGIST_PAGE_ID.

(** The flags of a leaf page. *)
Definition leaf_flags (storesNulls : bool) : Z := set_flag SPGIST_LEAF (if storesNulls then SPGIST_NULLS else 0).

Definition SPGIST_MAGIC_NUMBER : Z := 0xBA0BABEE.
Definition SPGIST_CACHED_PAGES : Z := 8.
Definition sizeof_SpGistMetaPageData : Z := 4 + 8 * SPGIST_CACHED_PAGES.

(** [metadata->lastUsedPages.cachedPage[i].blkno = InvalidBlockNumber]. *)
Fixpoint clear_cached_pages (p : page) (i : Z) (n : nat) : res page :=
  match n with
  | O => Ok p
  | S n => p ← store p (PageGetContents + 4 + 8 * i) (le_bytes 4 InvalidBlockNumber); clear_cached_pages p (i + 1) n
  end.

Definition SpGistInitMetapage : res page :=
  p ← SpGistInitPage SPGIST_META;
  p ← store p PageGetContents (replicate (Z.to_nat sizeof_SpGistMetaPageData) 0);
  p ← store p PageGetContents (le_bytes 4 SPGIST_MAGIC_NUMBER);
  p ← clear_cached_pages p 0 (Z.to_nat SPGIST_CACHED_PAGES);
  Ok (set_pd_lower p (PageGetContents + sizeof_SpGistMetaPageData)).

(** ** Tuples *)

Definition SPGIST_LIVE : Z := 0.
Definition SPGIST_REDIRECT : Z := 1.
Definition SPGIST_DEAD : Z := 2.
Definition SPGIST_PLACEHOLDER : Z := 3.

Definition sizeof_SpGistLeafTupleData : Z := 12.
Definition sizeof_SpGistInnerTupleData : Z := 8.
Definition SGITHDRSZ : Z := MAXALIGN sizeof_SpGistInnerTupleData.
Definition SGDTSIZE : Z := MAXALIGN 16.

(** The bit fields of the first word. *)
Definition tupstate (m : mem) (a : Z) : Z := Z.land (mget 4 m a) 3.
Definition leaf_size (m : mem) (a : Z) : Z := Z.shiftr (mget 4 m a) 2.
Definition nNodes (m : mem) (a : Z) : Z := Z.land (Z.shiftr (mget 4 m a) 3) 0x1FFF.
Definition prefixSize (m : mem) (a : Z) : Z := Z.shiftr (mget 4 m a) 16.
Definition inner_size (m : mem) (a : Z) : Z := mget 2 m (a + 4).
Definition nextOffset : Z := 4.
Definition dead_pointer : Z := 6.

(** [ItemPointerSet] and [ItemPointerSetInvalid], as bytes. *)
Definition item_pointer (blk off : Z) : list Z := put_blockid blk ++ le_bytes 2 off.
Definition invalid_pointer : list Z := item_pointer InvalidBlockNumber InvalidOffsetNumber.

(** What replay needs of [SpGistState]. *)
Record SpGistState : Type := mkSpGistState { myXid : Z; isBuild : bool }.

Definition fillFakeState (data : list Z) (stateSrc : Z) : res SpGistState :=
  x ← rd 4 data stateSrc; b ← rd 1 data (stateSrc + 4); Ok (mkSpGistState x (negb (b =? 0))).

Definition spgFormDeadTuple (state : SpGistState) (ts blkno offnum : Z) : list Z :=
  le_bytes 4 (Z.lor (Z.land ts 3) (Z.shiftl SGDTSIZE 2)) ++ le_bytes 2 InvalidOffsetNumber ++
  (if ts =? SPGIST_REDIRECT then item_pointer blkno offnum ++ le_bytes 4 (myXid state)
   else invalid_pointer ++ le_bytes 4 InvalidTransactionId).

(** [PageGetItem(page, PageGetItemId(page, off))], as an address on the page. *)
Definition spg_item (p : page) (off : Z) : res Z := lp ← PageGetItemIdChecked p off; Ok (lp_off lp).

(** [PageAddItem] with the check its callers make. *)
Definition spg_add_item (p : page) (item : list Z) (off : Z) : res page :=
  '(p, o) ← PageAddItem p item off false false;
  if negb (o =? off) then Err EError else Ok p.

(** Delete a tuple and put another one in its place. *)
Definition spg_replace_item (p : page) (item : list Z) (off : Z) : res page :=
  p ← PageIndexTupleDelete p off; spg_add_item p item off.

Definition addOrReplaceTuple (p : page) (tuple : list Z) (offset : Z) : res page :=
  p ← (if offset <=? PageGetMaxOffsetNumber p then
         dt ← spg_item p offset;
         w ← rd 4 p dt;
         if negb (Z.land w 3 =? SPGIST_PLACEHOLDER) then Err EError else
         p ← spg_count p nPlaceholder (-1);
         PageIndexTupleDelete p offset
       else Ok p);
  spg_add_item p tuple offset.

(** [SGITITERATE] from the node at [node] on, with [n] nodes left. *)
Fixpoint update_node_loop (m : mem) (node i nodeN blkno offset : Z) (n : nat) : res mem :=
  match n with
  | O => Err EError
  | S n =>
      if i =? nodeN then store m node (item_pointer blkno offset)
      else if in_range m node sizeof_IndexTupleData
           then update_node_loop m (node + IndexTupleSize m node) (i + 1) nodeN blkno offset n
           else Err EOob
  end.

Definition spgUpdateNodeLink (m : mem) (tup nodeN blkno offset : Z) : res mem :=
  if in_range m tup sizeof_SpGistInnerTupleData then
    update_node_loop m (tup + SGITHDRSZ + prefixSize m tup) 0 nodeN blkno offset (Z.to_nat (nNodes m tup))
  else Err EOob.

(** The downlink of the inner tuple at an offset number of the page. *)
Definition spg_update_link (p : page) (offnumParent nodeI blkno offset : Z) : res page :=
  tup ← spg_item p offnumParent; spgUpdateNodeLink p tup nodeI blkno offset.

(** [lt->nextOffset = next] on a leaf tuple of the page. *)
Definition spg_set_next (p : page) (off next : Z) : res page :=
  lt ← spg_item p off; store p (lt + nextOffset) (le_bytes 2 next).

(** ** Deleting tuples in place *)

Definition cmpOffsetNumbers (a b : Z) : Z := if a =? b then 0 else if b <? a then 1 else -1.
Definition offset_le (a b : Z) : Prop := cmpOffsetNumbers a b ≤ 0.
#[export] Instance offset_le_dec : RelDecision offset_le.
Proof. intros a b. unfold offset_le. apply _. Defined.
Definition sort_offsets (l : list Z) : list Z := merge_sort offset_le l.

(** The dead tuples, in the order of the offset numbers; the last tuple formed
    is used again while its state fits. *)
Fixpoint dead_loop (state : SpGistState) (p : page) (sortednos : list Z) (firstItem firststate reststate blkno offnum : Z)
  (tuple : option (list Z)) : res page :=
  match sortednos with
  | [] => Ok p
  | itemno :: rest =>
      let ts := if itemno =? firstItem then firststate else reststate in
      let tuple' := match tuple with
                    | Some t => if negb (tupstate t 0 =? ts) then spgFormDeadTuple state ts blkno offnum else t
                    | None => spgFormDeadTuple state ts blkno offnum
                    end in
      p ← spg_add_item p tuple' itemno;
      p ← (if ts =? SPGIST_REDIRECT then spg_count p nRedirection 1
           else if ts =? SPGIST_PLACEHOLDER then spg_count p nPlaceholder 1 else Ok p);
      dead_loop state p rest firstItem firststate reststate blkno offnum (Some tuple')
  end.

Definition spgPageIndexMultiDelete (state : SpGistState) (p : page) (itemnos : list Z) (firststate reststate blkno offnum : Z)
  : res page :=
  match itemnos with
  | [] => Ok p
  | firstItem :: _ =>
      if MaxIndexTuplesPerPage <? zlen itemnos then Err EOob else
      let sortednos := sort_offsets itemnos in
      p ← PageIndexMultiDelete p sortednos;
      dead_loop state p sortednos firstItem firststate reststate blkno offnum None
  end.
