(* ===== verification/SpgRedo.v ===== *)
(** * Redo of SP-GiST records on one page: [spgxlog_idx.c]

    One definition per handler, each for one page of the record, and the
    routines that enter a record in the log index.  The fields of a record are
    read at their offsets in the structs of [spgxlog.h]. *)

From S2P Require Import Prelude Mem Page PageAdd PageIndex PageCompact Buffer WalRecord HeapTuple HeapRedo TagList Btree BtreeRedo HashRedo Gin Spg.

(** ** Record types *)

Definition XLOG_SPGIST_ADD_LEAF : Z := 0x10.
Definition XLOG_SPGIST_MOVE_LEAFS : Z := 0x20.
Definition XLOG_SPGIST_ADD_NODE : Z := 0x30.
Definition XLOG_SPGIST_SPLIT_TUPLE : Z := 0x40.
Definition XLOG_SPGIST_PICKSPLIT : Z := 0x50.
Definition XLOG_SPGIST_VACUUM_LEAF : Z := 0x60.
Definition XLOG_SPGIST_VACUUM_ROOT : Z := 0x70.
Definition XLOG_SPGIST_VACUUM_REDIRECT : Z := 0x80.

Definition sizeof_spgxlogAddLeaf : Z := 10.
Definition SizeOfSpgxlogMoveLeafs : Z := 20.
Definition sizeof_spgxlogAddNode : Z := 20.
Definition sizeof_spgxlogSplitTuple : Z := 6.
Definition SizeOfSpgxlogPickSplit : Z := 28.
Definition SizeOfSpgxlogVacuumLeaf : Z := 16.
Definition SizeOfSpgxlogVacuumRoot : Z := 12.
Definition SizeOfSpgxlogVacuumRedirect : Z := 8.

Definition rd_bool (m : mem) (a : Z) : res bool := b ← rd 1 m a; Ok (negb (b =? 0)).
Definition rd_int8 (m : mem) (a : Z) : res Z := n ← rd 1 m a; Ok (if n <? 2 ^ 7 then n else n - 2 ^ 8).

(** The size in the copy of the header of an unaligned tuple. *)
Definition leaf_header (data : list Z) (pos : Z) : res Z := h ← load data pos sizeof_SpGistLeafTupleData; Ok (leaf_size h 0).
Definition inner_header (data : list Z) (pos : Z) : res Z := h ← load data pos sizeof_SpGistInnerTupleData; Ok (inner_size h 0).

(** A page that is set up anew when the record says so, and else read. *)
Definition spg_page (init : bool) (st : dbstate) (r : XLogReaderState) (id : Z) (buffer : Buffer) (flags : Z) (f : page → res page)
  : redo_result :=
  if init then redo_init st r id buffer BLK_NEEDS_REDO (p ← SpGistInitPage flags; f p)
  else redo_read st r id false (λ p, with_lsn r (f p)).

(** ** The handlers *)

(** No case of the dispatcher calls this one. *)
Definition polar_spg_redo_create_index (st : dbstate) (r : XLogReaderState) (tag : BufferTag) (buffer : Buffer) : redo_result :=
  meta_tag ← POLAR_GET_LOG_TAG r 0;
  if BUFFERTAGS_EQUAL tag meta_tag then redo_init st r 0 buffer BLK_NEEDS_REDO SpGistInitMetapage else
  leaf_tag ← POLAR_GET_LOG_TAG r 1;
  if BUFFERTAGS_EQUAL tag leaf_tag then redo_init st r 1 buffer BLK_NEEDS_REDO (SpGistInitPage SPGIST_LEAF) else
  leaf_tag ← POLAR_GET_LOG_TAG r 2;
  if BUFFERTAGS_EQUAL tag leaf_tag then redo_init st r 2 buffer BLK_NEEDS_REDO (SpGistInitPage (set_flag SPGIST_LEAF SPGIST_NULLS))
  else Ok (st, buffer, BLK_NOTFOUND).

(** The leaf page of an insertion: the new tuple is put in the chain behind its
    head, or takes the place of a dead tuple. *)
Definition add_leaf_page (data : list Z) (size : Z) (p : page) : res page :=
  offnumLeaf ← rd 2 data 2;
  offnumHeadLeaf ← rd 2 data 4;
  leafTuple ← load data sizeof_spgxlogAddLeaf size;
  if negb (offnumLeaf =? offnumHeadLeaf) then
    p ← addOrReplaceTuple p leafTuple offnumLeaf;
    if negb (offnumHeadLeaf =? InvalidOffsetNumber) then spg_set_next p offnumHeadLeaf offnumLeaf else Ok p
  else spg_replace_item p leafTuple offnumLeaf.

Definition polar_spg_redo_add_leaf (st : dbstate) (r : XLogReaderState) (tag : BufferTag) (buffer : Buffer) : redo_result :=
  let xldata := main_data r in
  size ← leaf_header xldata sizeof_spgxlogAddLeaf;
  leaf_tag ← POLAR_GET_LOG_TAG r 0;
  if BUFFERTAGS_EQUAL tag leaf_tag then
    newPage ← rd_bool xldata 0;
    storesNulls ← rd_bool xldata 1;
    spg_page newPage st r 0 buffer (leaf_flags storesNulls) (add_leaf_page xldata size)
  else
  offnumParent ← rd 2 xldata 6;
  parent ← (if negb (offnumParent =? InvalidOffsetNumber) then t ← POLAR_GET_LOG_TAG r 1; Ok (BUFFERTAGS_EQUAL tag t) else Ok false);
  if (parent : bool) then
    redo_read st r 1 false (λ p,
      offnumLeaf ← rd 2 xldata 2;
      nodeI ← rd 2 xldata 8;
      with_lsn r (spg_update_link p offnumParent nodeI (blockNum leaf_tag) offnumLeaf))
  else Ok (st, buffer, BLK_NOTFOUND).

(** [n] leaf tuples from [ptr] on, put at the offset numbers from [ins] on. *)
Fixpoint insert_leafs (p : page) (data : list Z) (ins ptr : Z) (n : nat) : res page :=
  match n with
  | O => Ok p
  | S n =>
      size ← leaf_header data ptr;
      leafTuple ← load data ptr size;
      off ← rd 2 data ins;
      p ← addOrReplaceTuple p leafTuple off;
      insert_leafs p data (ins + 2) (ptr + size) n
  end.

Definition polar_spg_redo_move_leafs (st : dbstate) (r : XLogReaderState) (tag : BufferTag) (buffer : Buffer) : redo_result :=
  let xldata := main_data r in
  dst ← tag_or_uninit r 1;
  let blknoDst := blockNum dst in
  state ← fillFakeState xldata 12;
  nMoves ← rd 2 xldata 0;
  replaceDead ← rd_bool xldata 3;
  let nInsert := if (replaceDead : bool) then 1 else nMoves + 1 in
  let toDelete := SizeOfSpgxlogMoveLeafs in
  let toInsert := toDelete + 2 * nMoves in
  let ptr := toInsert + 2 * nInsert in
  leaf_tag ← POLAR_GET_LOG_TAG r 1;
  if BUFFERTAGS_EQUAL tag leaf_tag then
    newPage ← rd_bool xldata 2;
    storesNulls ← rd_bool xldata 4;
    spg_page newPage st r 1 buffer (leaf_flags storesNulls) (λ p, insert_leafs p xldata toInsert ptr (Z.to_nat nInsert))
  else
  src_tag ← POLAR_GET_LOG_TAG r 0;
  if BUFFERTAGS_EQUAL tag src_tag then
    redo_read st r 0 false (λ p,
      itemnos ← get_offsets xldata toDelete (Z.to_nat nMoves);
      off ← rd 2 xldata (toInsert + 2 * (nInsert - 1));
      with_lsn r (spgPageIndexMultiDelete state p itemnos (if isBuild state then SPGIST_PLACEHOLDER else SPGIST_REDIRECT)
                    SPGIST_PLACEHOLDER blknoDst off))
  else
  parent_tag ← POLAR_GET_LOG_TAG r 2;
  if BUFFERTAGS_EQUAL tag parent_tag then
    redo_read st r 2 false (λ p,
      offnumParent ← rd 2 xldata 6;
      nodeI ← rd 2 xldata 8;
      off ← rd 2 xldata (toInsert + 2 * (nInsert - 1));
      with_lsn r (spg_update_link p offnumParent nodeI blknoDst off))
  else Ok (st, buffer, BLK_NOTFOUND).

(** The old page of a moved inner tuple: a redirection to the new place, or a
    placeholder while the index is built. *)
Definition add_node_old_page (state : SpGistState) (offnum blkNew offnumNew : Z) (p : page) : res page :=
  let dt := if isBuild state then spgFormDeadTuple state SPGIST_PLACEHOLDER InvalidBlockNumber InvalidOffsetNumber
            else spgFormDeadTuple state SPGIST_REDIRECT blkNew offnumNew in
  p ← spg_replace_item p dt offnum;
  spg_count p (if isBuild state then nPlaceholder else nRedirection) 1.

Definition polar_spg_redo_add_node (st : dbstate) (r : XLogReaderState) (tag : BufferTag) (buffer : Buffer) : redo_result :=
  let xldata := main_data r in
  size ← inner_header xldata sizeof_spgxlogAddNode;
  state ← fillFakeState xldata 12;
  let tuple := load xldata sizeof_spgxlogAddNode size in
  (* the downlink, when the parent is on the page in hand *)
  let parent_link (here : Z) (blk : Z) (p : page) : res page :=
    parentBlk ← rd_int8 xldata 5;
    if parentBlk =? here then
      offnumParent ← rd 2 xldata 6; nodeI ← rd 2 xldata 8; offnumNew ← rd 2 xldata 2;
      spg_update_link p offnumParent nodeI blk offnumNew
    else Ok p in
  if negb (XLogRecHasBlockRef r 1) then
    old_tag ← POLAR_GET_LOG_TAG r 0;
    if BUFFERTAGS_EQUAL tag old_tag then
      redo_read st r 0 false (λ p, offnum ← rd 2 xldata 0; innerTuple ← tuple; with_lsn r (spg_replace_item p innerTuple offnum))
    else Ok (st, buffer, BLK_NOTFOUND)
  else
  old_tag ← POLAR_GET_LOG_TAG r 0;
  new_tag ← POLAR_GET_LOG_TAG r 1;
  if BUFFERTAGS_EQUAL tag new_tag then
    newPage ← rd_bool xldata 4;
    spg_page newPage st r 1 buffer 0 (λ p,
      innerTuple ← tuple; offnumNew ← rd 2 xldata 2;
      p ← addOrReplaceTuple p innerTuple offnumNew;
      parent_link 1 (blockNum new_tag) p)
  else if BUFFERTAGS_EQUAL tag old_tag then
    redo_read st r 0 false (λ p,
      offnum ← rd 2 xldata 0; offnumNew ← rd 2 xldata 2;
      p ← add_node_old_page state offnum (blockNum new_tag) offnumNew p;
      with_lsn r (parent_link 0 (blockNum new_tag) p))
  else
  parentBlk ← rd_int8 xldata 5;
  parent ← (if parentBlk =? 2 then t ← POLAR_GET_LOG_TAG r 2; Ok (BUFFERTAGS_EQUAL tag t) else Ok false);
  if (parent : bool) then redo_read st r 2 false (λ p, with_lsn r (parent_link 2 (blockNum new_tag) p))
  else Ok (st, buffer, BLK_NOTFOUND).

Definition polar_spg_redo_split_tuple (st : dbstate) (r : XLogReaderState) (tag : BufferTag) (buffer : Buffer) : redo_result :=
  let xldata := main_data r in
  prefix_size ← inner_header xldata sizeof_spgxlogSplitTuple;
  let postfix := sizeof_spgxlogSplitTuple + prefix_size in
  postfix_size ← inner_header xldata postfix;
  let add_postfix (p : page) : res page :=
    offnumPostfix ← rd 2 xldata 2; postfixTuple ← load xldata postfix postfix_size; addOrReplaceTuple p postfixTuple offnumPostfix in
  postfixBlkSame ← rd_bool xldata 5;
  update ← (if negb postfixBlkSame then t ← POLAR_GET_LOG_TAG r 1; Ok (BUFFERTAGS_EQUAL tag t) else Ok false);
  if (update : bool) then
    newPage ← rd_bool xldata 4;
    spg_page newPage st r 1 buffer 0 add_postfix
  else
  orig_tag ← POLAR_GET_LOG_TAG r 0;
  if BUFFERTAGS_EQUAL tag orig_tag then
    redo_read st r 0 false (λ p,
      offnumPrefix ← rd 2 xldata 0;
      prefixTuple ← load xldata sizeof_spgxlogSplitTuple prefix_size;
      p ← spg_replace_item p prefixTuple offnumPrefix;
      with_lsn r (if (postfixBlkSame : bool) then add_postfix p else Ok p))
  else Ok (st, buffer, BLK_NOTFOUND).

(** A page of a pick-split that is made ready for its leaf tuples; the last
    component says whether there is something to do on it. *)
Definition pick_open (init : bool) (st : dbstate) (r : XLogReaderState) (id : Z) (buffer : Buffer) (flags : Z) (del : page → res page)
  : res (dbstate * Buffer * XLogRedoAction * bool) :=
  if init then
    '(st, buffer) ← POLAR_INIT_BUFFER_FOR_REDO st r id buffer;
    _ ← BufferGetPage st buffer;
    p ← SpGistInitPage flags;
    Ok (buf_write st buffer p, buffer, BLK_NEEDS_REDO, true)
  else
    '(st, buffer, action) ← redo_read st r id false del;
    Ok (st, buffer, action, bool_decide (action = BLK_NEEDS_REDO)).

(** The leaf tuples of a pick-split: each goes to the destination or to the
    source, when that is the page in hand. *)
Fixpoint pick_split_leafs (p : page) (data : list Z) (ins sel ptr : Z) (src dest : bool) (n : nat) : res page :=
  match n with
  | O => Ok p
  | S n =>
      size ← leaf_header data ptr;
      select ← rd_bool data sel;
      p ← (if (if (select : bool) then dest else src) then
             leafTuple ← load data ptr size;
             off ← rd 2 data ins;
             addOrReplaceTuple p leafTuple off
           else Ok p);
      pick_split_leafs p data (ins + 2) (sel + 1) (ptr + size) src dest n
  end.

Definition pick_delete (data : list Z) (state : SpGistState) (nDelete blknoInner : Z) (p : page) : res page :=
  itemnos ← get_offsets data SizeOfSpgxlogPickSplit (Z.to_nat nDelete);
  if negb (isBuild state) then
    offnumInner ← rd 2 data 8;
    spgPageIndexMultiDelete state p itemnos SPGIST_REDIRECT SPGIST_PLACEHOLDER blknoInner offnumInner
  else spgPageIndexMultiDelete state p itemnos SPGIST_PLACEHOLDER SPGIST_PLACEHOLDER InvalidBlockNumber InvalidOffsetNumber.

Definition pick_inner_page (data : list Z) (size innerTuple blknoInner : Z) (p : page) : res page :=
  offnumInner ← rd 2 data 8;
  tuple ← load data innerTuple size;
  p ← addOrReplaceTuple p tuple offnumInner;
  innerIsParent ← rd_bool data 12;
  if (innerIsParent : bool) then
    offnumParent ← rd 2 data 14; nodeI ← rd 2 data 16;
    spg_update_link p offnumParent nodeI blknoInner offnumInner
  else Ok p.

Definition is_ref_tag (r : XLogReaderState) (tag : BufferTag) (id : Z) : res bool :=
  if XLogRecHasBlockRef r id then t ← POLAR_GET_LOG_TAG r id; Ok (BUFFERTAGS_EQUAL tag t) else Ok false.

Definition polar_spg_redo_pick_split (st : dbstate) (r : XLogReaderState) (tag : BufferTag) (buffer : Buffer) : redo_result :=
  let xldata := main_data r in
  inner ← tag_or_uninit r 2;
  let blknoInner := blockNum inner in
  state ← fillFakeState xldata 20;
  nDelete ← rd 2 xldata 2;
  nInsert ← rd 2 xldata 4;
  let toInsert := SizeOfSpgxlogPickSplit + 2 * nDelete in
  let leafPageSelect := toInsert + 2 * nInsert in
  let innerTuple := leafPageSelect + nInsert in
  size ← inner_header xldata innerTuple;
  let ptr := innerTuple + size in
  storesNulls ← rd_bool xldata 11;
  let nulls : bool := storesNulls in
  is_src ← is_ref_tag r tag 0;
  isRootSplit ← rd_bool xldata 0;
  '(st, buffer, action, src) ←
    (if (is_src : bool) && negb isRootSplit then
       initSrc ← rd_bool xldata 6;
       pick_open initSrc st r 0 buffer (leaf_flags nulls) (pick_delete xldata state nDelete blknoInner)
     else Ok (st, buffer, BLK_NOTFOUND, false));
  is_dest ← is_ref_tag r tag 1;
  '(st, buffer, action, dest) ←
    (if (is_dest : bool) then
       initDest ← rd_bool xldata 7;
       pick_open initDest st r 1 buffer (leaf_flags nulls) Ok
     else Ok (st, buffer, action, false));
  st ← (if src || dest then
          p ← BufferGetPage st buffer;
          p ← with_lsn r (pick_split_leafs p xldata toInsert leafPageSelect ptr src dest (Z.to_nat nInsert));
          Ok (buf_write st buffer p)
        else Ok st);
  inner_tag ← POLAR_GET_LOG_TAG r 2;
  if BUFFERTAGS_EQUAL tag inner_tag then
    initInner ← rd_bool xldata 10;
    spg_page initInner st r 2 buffer (if nulls then SPGIST_NULLS else 0) (pick_inner_page xldata size innerTuple blknoInner)
  else
  is_parent ← is_ref_tag r tag 3;
  if (is_parent : bool) then
    redo_read st r 3 false (λ p,
      offnumInner ← rd 2 xldata 8; offnumParent ← rd 2 xldata 14; nodeI ← rd 2 xldata 16;
      with_lsn r (spg_update_link p offnumParent nodeI blknoInner offnumInner))
  else Ok (st, buffer, action).

(** ** Vacuum *)

(** The line pointers of each pair are exchanged. *)
Fixpoint swap_linps (p : page) (moves : list (Z * Z)) : res page :=
  match moves with
  | [] => Ok p
  | (s, d) :: moves =>
      idSrc ← PageGetItemIdChecked p s;
      idDest ← PageGetItemIdChecked p d;
      swap_linps (PageSetItemId (PageSetItemId p s idDest) d idSrc) moves
  end.

Fixpoint set_chains (p : page) (chains : list (Z * Z)) : res page :=
  match chains with
  | [] => Ok p
  | (s, d) :: chains => p ← spg_set_next p s d; set_chains p chains
  end.

Definition vacuum_leaf_page (data : list Z) (state : SpGistState) (p : page) : res page :=
  nDead ← rd 2 data 0;
  nPlace ← rd 2 data 2;
  nMove ← rd 2 data 4;
  nChain ← rd 2 data 6;
  let at_ := SizeOfSpgxlogVacuumLeaf in
  let dead (p : page) (offs : list Z) (ts : Z) := spgPageIndexMultiDelete state p offs ts ts InvalidBlockNumber InvalidOffsetNumber in
  toDead ← get_offsets data at_ (Z.to_nat nDead);
  p ← dead p toDead SPGIST_DEAD;
  toPlaceholder ← get_offsets data (at_ + 2 * nDead) (Z.to_nat nPlace);
  p ← dead p toPlaceholder SPGIST_PLACEHOLDER;
  moveSrc ← get_offsets data (at_ + 2 * (nDead + nPlace)) (Z.to_nat nMove);
  moveDest ← get_offsets data (at_ + 2 * (nDead + nPlace + nMove)) (Z.to_nat nMove);
  p ← swap_linps p (zip moveSrc moveDest);
  p ← dead p moveSrc SPGIST_PLACEHOLDER;
  chainSrc ← get_offsets data (at_ + 2 * (nDead + nPlace + 2 * nMove)) (Z.to_nat nChain);
  chainDest ← get_offsets data (at_ + 2 * (nDead + nPlace + 2 * nMove + nChain)) (Z.to_nat nChain);
  set_chains p (zip chainSrc chainDest).

Definition polar_spg_redo_vacuum_leaf (st : dbstate) (r : XLogReaderState) (tag : BufferTag) (buffer : Buffer) : redo_result :=
  vacuum_tag ← POLAR_GET_LOG_TAG r 0;
  if negb (BUFFERTAGS_EQUAL tag vacuum_tag) then Ok (st, buffer, BLK_NOTFOUND) else
  state ← fillFakeState (main_data r) 8;
  redo_read st r 0 false (λ p, with_lsn r (vacuum_leaf_page (main_data r) state p)).

Definition polar_spg_redo_vacuum_root (st : dbstate) (r : XLogReaderState) (tag : BufferTag) (buffer : Buffer) : redo_result :=
  del_tag ← POLAR_GET_LOG_TAG r 0;
  if negb (BUFFERTAGS_EQUAL tag del_tag) then Ok (st, buffer, BLK_NOTFOUND) else
  redo_read st r 0 false (λ p,
    nDelete ← rd 2 (main_data r) 0;
    toDelete ← get_offsets (main_data r) SizeOfSpgxlogVacuumRoot (Z.to_nat nDelete);
    with_lsn r (PageIndexMultiDelete p toDelete)).

(** Redirections become placeholders. *)
Fixpoint to_placeholders (p : page) (offs : list Z) : res page :=
  match offs with
  | [] => Ok p
  | o :: offs =>
      dt ← spg_item p o;
      w ← rd 4 p dt;
      p ← store p dt (le_bytes 4 (Z.lor w SPGIST_PLACEHOLDER));
      p ← store p (dt + dead_pointer) invalid_pointer;
      to_placeholders p offs
  end.

(** The placeholders at the end of the page are removed. *)
Definition trim_placeholders (p : page) (firstPlaceholder : Z) : res page :=
  if negb (firstPlaceholder =? InvalidOffsetNumber) then
    let n := PageGetMaxOffsetNumber p - firstPlaceholder + 1 in
    p ← spg_count p nPlaceholder (- n);
    PageIndexMultiDelete p (seqZ firstPlaceholder n)
  else Ok p.

Definition vacuum_redirect_page (data : list Z) (p : page) : res page :=
  nToPlaceholder ← rd 2 data 0;
  offs ← get_offsets data SizeOfSpgxlogVacuumRedirect (Z.to_nat nToPlaceholder);
  p ← to_placeholders p offs;
  p ← spg_count p nRedirection (- nToPlaceholder);
  p ← spg_count p nPlaceholder nToPlaceholder;
  firstPlaceholder ← rd 2 data 2;
  trim_placeholders p firstPlaceholder.

Definition polar_spg_redo_vacuum_redirect (st : dbstate) (r : XLogReaderState) (tag : BufferTag) (buffer : Buffer) : redo_result :=
  vacuum_tag ← POLAR_GET_LOG_TAG r 0;
  if negb (BUFFERTAGS_EQUAL tag vacuum_tag) then Ok (st, buffer, BLK_NOTFOUND)
  else redo_read st r 0 false (λ p, with_lsn r (vacuum_redirect_page (main_data r) p)).

Definition polar_spg_idx_redo (st : dbstate) (r : XLogReaderState) (tag : BufferTag) (buffer : Buffer) : redo_result :=
  let info := rec_info r in
  if info =? XLOG_SPGIST_ADD_LEAF then polar_spg_redo_add_leaf st r tag buffer
  else if info =? XLOG_SPGIST_MOVE_LEAFS then polar_spg_redo_move_leafs st r tag buffer
  else if info =? XLOG_SPGIST_ADD_NODE then polar_spg_redo_add_node st r tag buffer
  else if info =? XLOG_SPGIST_SPLIT_TUPLE then polar_spg_redo_split_tuple st r tag buffer
  else if info =? XLOG_SPGIST_PICKSPLIT then polar_spg_redo_pick_split st r tag buffer
  else if info =? XLOG_SPGIST_VACUUM_LEAF then polar_spg_redo_vacuum_leaf st r tag buffer
  else if info =? XLOG_SPGIST_VACUUM_ROOT then polar_spg_redo_vacuum_root st r tag buffer
  else if info =? XLOG_SPGIST_VACUUM_REDIRECT then polar_spg_redo_vacuum_redirect st r tag buffer
  else Err EPanic.

(** ** The pages of a record *)

Definition polar_spg_redo_add_node_save (r : XLogReaderState) : list BufferTag :=
  if negb (XLogRecHasBlockRef r 1) then ParseXLogBlocksLsn r 0
  else ParseXLogBlocksLsn r 1 ++ ParseXLogBlocksLsn r 0 ++ save_if_ref r 2.
Definition polar_spg_redo_pick_split_save (r : XLogReaderState) : list BufferTag :=
  save_if_ref r 0 ++ save_if_ref r 1 ++ ParseXLogBlocksLsn r 2 ++ save_if_ref r 3.

Definition spg_vacuum (info : Z) : bool :=
  (info =? XLOG_SPGIST_VACUUM_LEAF) || (info =? XLOG_SPGIST_VACUUM_ROOT) || (info =? XLOG_SPGIST_VACUUM_REDIRECT).

Definition polar_spg_idx_save (r : XLogReaderState) : res (bool * list BufferTag) :=
  let info := rec_info r in
  if info =? XLOG_SPGIST_ADD_LEAF then Ok (true, ParseXLogBlocksLsn r 0 ++ save_if_ref r 1)
  else if info =? XLOG_SPGIST_MOVE_LEAFS then Ok (true, ParseXLogBlocksLsn r 1 ++ ParseXLogBlocksLsn r 0 ++ ParseXLogBlocksLsn r 2)
  else if info =? XLOG_SPGIST_ADD_NODE then Ok (true, polar_spg_redo_add_node_save r)
  else if info =? XLOG_SPGIST_SPLIT_TUPLE then Ok (true, save_if_ref r 1 ++ ParseXLogBlocksLsn r 0)
  else if info =? XLOG_SPGIST_PICKSPLIT then Ok (true, polar_spg_redo_pick_split_save r)
  else if spg_vacuum info then Ok (true, ParseXLogBlocksLsn r 0)
  else Err EPanic.

Definition polar_spg_redo_add_node_get_bufftag_list (r : XLogReaderState) : res (list BufferTag) :=
  if negb (XLogRecHasBlockRef r 1) then put_blocks 3 r [0] [] else put_blocks 3 r ([1; 0] ++ ref_block r 2) [].
Definition polar_spg_redo_pick_split_get_bufftag_list (r : XLogReaderState) : res (list BufferTag) :=
  put_blocks 4 r (ref_block r 0 ++ ref_block r 1 ++ [2] ++ ref_block r 3) [].

Definition polar_spg_idx_get_bufftag_list (r : XLogReaderState) : res tag_result :=
  let info := rec_info r in
  if info =? XLOG_SPGIST_ADD_LEAF then Tags <$> put_blocks 2 r (0 :: ref_block r 1) []
  else if info =? XLOG_SPGIST_MOVE_LEAFS then Tags <$> put_blocks 3 r [0; 1; 2] []
  else if info =? XLOG_SPGIST_ADD_NODE then Tags <$> polar_spg_redo_add_node_get_bufftag_list r
  else if info =? XLOG_SPGIST_SPLIT_TUPLE then Tags <$> put_blocks 2 r (ref_block r 1 ++ [0]) []
  else if info =? XLOG_SPGIST_PICKSPLIT then Tags <$> polar_spg_redo_pick_split_get_bufftag_list r
  else if spg_vacuum info then Tags <$> single_bufftag_list r
  else Err EPanic.
