(* ===== verification/SpgPage.v ===== *)
(** * SP-GiST pages as lists of tuples

    The representation of an SP-GiST page: its tuples by offset number, each
    well formed for the kind of the page, and the two counters of the special
    space, which are the numbers of redirection and placeholder tuples.  The
    routines of [Spg] are proved against it. *)

From Stdlib Require Import Sorted.
From stdpp Require Import sorting.
From S2P Require Import Prelude Mem Page PageAdd PageIndex PageCompact Buffer WalRecord HeapTuple HeapRedo TagList Btree BtreePage BtreeInsert IndexPage BtreeRedo Gin Spg.

(** ** Tuples *)

Definition node_ok (nd : list Z) : Prop := sizeof_IndexTupleData ≤ zlen nd ∧ IndexTupleSize nd 0 = zlen nd.

(** An inner tuple: header and prefix, the nodes, padding. *)
Record inner_tuple (it pre : list Z) (nodes : list (list Z)) (post : list Z) : Prop := {
  in_bytes : it = pre ++ concat nodes ++ post;
  in_prefix : zlen pre = SGITHDRSZ + prefixSize it 0;
  in_count : nNodes it 0 = zlen nodes;
  in_nodes : Forall node_ok nodes;
  in_size : inner_size it 0 = zlen it }.

Definition live_tuple (leaf : bool) (it : list Z) : Prop :=
  if leaf then leaf_size it 0 = zlen it else ∃ pre nodes post, inner_tuple it pre nodes post.

(** A tuple of a leaf or of an inner page, live or dead. *)
Record spg_tuple (leaf : bool) (it : list Z) : Prop := {
  st_bytes : Forall is_byte it;
  st_min : SGDTSIZE ≤ zlen it;
  st_live : tupstate it 0 = SPGIST_LIVE → live_tuple leaf it;
  st_dead : tupstate it 0 ≠ SPGIST_LIVE → leaf_size it 0 = zlen it }.

(** A dead tuple takes no part in any counter when it is neither of these. *)
Definition uncounted (it : list Z) : Prop := tupstate it 0 ≠ SPGIST_REDIRECT ∧ tupstate it 0 ≠ SPGIST_PLACEHOLDER.

Definition has_state (ts : Z) (it : list Z) : Z := if tupstate it 0 =? ts then 1 else 0.
Fixpoint count_state (ts : Z) (its : list (list Z)) : Z :=
  match its with [] => 0 | it :: its => has_state ts it + count_state ts its end.

Lemma has_state_bound ts it : 0 ≤ has_state ts it ≤ 1.
Proof. unfold has_state. destruct (_ =? _); lia. Qed.

Lemma count_app ts a b : count_state ts (a ++ b) = count_state ts a + count_state ts b.
Proof. induction a as [|x a IH]; cbn [app count_state]; lia. Qed.

Lemma count_bound ts its : 0 ≤ count_state ts its ≤ zlen its.
Proof.
  induction its as [|x its IH]; cbn [count_state]; unfold zlen in *; cbn [length]; [lia|]. pose proof (has_state_bound ts x). lia.
Qed.

Lemma count_delete ts its k it : its !! k = Some it → count_state ts (delete k its) = count_state ts its - has_state ts it.
Proof.
  revert k. induction its as [|x its IH]; intros k Hk; [done|]. destruct k as [|k].
  - injection Hk as ->. cbn [delete list_delete count_state]. lia.
  - change (delete (S k) (x :: its)) with (x :: delete k its). cbn [count_state]. rewrite (IH k Hk). lia.
Qed.

Lemma count_insert ts its k it x : its !! k = Some it →
  count_state ts (<[k := x]> its) = count_state ts its - has_state ts it + has_state ts x.
Proof.
  revert k. induction its as [|y its IH]; intros k Hk; [done|]. destruct k as [|k].
  - injection Hk as ->. cbn [insert list_insert count_state]. lia.
  - change (<[S k := x]> (y :: its)) with (y :: <[k := x]> its). cbn [count_state]. rewrite (IH k Hk). lia.
Qed.

Lemma count_insert_item ts off x its : count_state ts (insert_item off x its) = count_state ts its + has_state ts x.
Proof.
  unfold insert_item. rewrite count_app. cbn [count_state]. rewrite <-(take_drop (Z.to_nat (off - 1)) its) at 3. rewrite count_app. lia.
Qed.

Lemma uncounted_state it ts : uncounted it → ts = SPGIST_REDIRECT ∨ ts = SPGIST_PLACEHOLDER → has_state ts it = 0.
Proof. intros [H1 H2] [->| ->]; unfold has_state; by rewrite (proj2 (Z.eqb_neq _ _)). Qed.

(** Dead tuples. *)
Lemma zlen_item_pointer blk off : zlen (item_pointer blk off) = 6.
Proof. done. Qed.

Lemma item_pointer_bytes blk off : Forall is_byte (item_pointer blk off).
Proof. unfold item_pointer, put_blockid. repeat (apply Forall_app; split); apply le_bytes_byte. Qed.

Section dead.
Context (state : SpGistState) (ts blkno offnum : Z) (Hts : 0 ≤ ts ≤ 3).
Let t := spgFormDeadTuple state ts blkno offnum.

Lemma dead_len : zlen t = SGDTSIZE.
Proof using. unfold t, spgFormDeadTuple. destruct (ts =? SPGIST_REDIRECT); done. Qed.

Lemma dead_bytes : Forall is_byte t.
Proof using.
unfold t, spgFormDeadTuple. repeat (apply Forall_app; split); try apply le_bytes_byte.
destruct (ts =? SPGIST_REDIRECT); apply Forall_app; split; try apply le_bytes_byte; apply item_pointer_bytes.
Qed.

Lemma dead_word : mget 4 t 0 = ts + 64.
Proof using Hts.
unfold t, spgFormDeadTuple, mget, mread. change (Z.to_nat 0) with 0%nat. rewrite drop_0. change (Z.to_nat (Z.of_nat 4)) with 4%nat.
rewrite take_app_length', le_val_bytes by (by rewrite length_le_bytes).
assert (ts = 0 ∨ ts = 1 ∨ ts = 2 ∨ ts = 3) as Hc by lia. destruct Hc as [->|[->|[->| ->]]]; done.
Qed.

Lemma dead_state : tupstate t 0 = ts.
Proof using Hts.
unfold tupstate. rewrite dead_word. assert (ts = 0 ∨ ts = 1 ∨ ts = 2 ∨ ts = 3) as Hc by lia. destruct Hc as [->|[->|[->| ->]]]; done.
Qed.

Lemma dead_size : leaf_size t 0 = SGDTSIZE.
Proof using Hts.
unfold leaf_size. rewrite dead_word. assert (ts = 0 ∨ ts = 1 ∨ ts = 2 ∨ ts = 3) as Hc by lia. destruct Hc as [->|[->|[->| ->]]]; done.
Qed.

Lemma dead_tuple leaf : ts ≠ SPGIST_LIVE → spg_tuple leaf t.
Proof using Hts.
intros Hn. constructor; [apply dead_bytes|by rewrite dead_len|by rewrite dead_state|]. intros _. by rewrite dead_size, dead_len.
Qed.
End dead.

Lemma spg_tuple_good leaf it : spg_tuple leaf it → good_item it.
Proof. intros H. split; [apply H|]. pose proof (st_min _ _ H) as Hm. change SGDTSIZE with 16 in Hm. lia. Qed.

(** ** The representation *)

Definition spg_special : Z := BLCKSZ - sizeof_SpGistPageOpaqueData.

(** A page with flags [fl], tuples [its], and [r] and [h] in the counters. *)
Record spg_rep (p : page) (fl : Z) (its : list (list Z)) (r h : Z) : Prop := {
  sr_index : index_page p its;
  sr_special : pd_special p = spg_special;
  sr_tuples : Forall (spg_tuple (has_flag fl SPGIST_LEAF)) its;
  sr_flags : mget 2 p (spg_special + spg_flags) = fl;
  sr_redirect : mget 2 p (spg_special + nRedirection) = r;
  sr_placeholder : mget 2 p (spg_special + nPlaceholder) = h;
  sr_id : mget 2 p (spg_special + spgist_page_id) = SPGIST_PAGE_ID }.

(** The counters are right. *)
Definition spg_wf (p : page) (fl : Z) (its : list (list Z)) : Prop :=
  spg_rep p fl its (count_state SPGIST_REDIRECT its) (count_state SPGIST_PLACEHOLDER its).

Lemma rest_mget p q n o : same_rest p q → pd_special p ≤ o → 0 ≤ o → mget n q o = mget n p o.
Proof. intros Hr Ho H0. unfold mget. f_equal. apply (rest_reads _ _ Hr); lia. Qed.

(** The items of a page change, the rest stays. *)
Lemma rep_items p q fl its its' r h : spg_rep p fl its r h → same_rest p q → index_page q its' →
  Forall (spg_tuple (has_flag fl SPGIST_LEAF)) its' → spg_rep q fl its' r h.
Proof.
  intros [Hi Hs Ht Hf Hr Hh Hd] Hrest Hq Ht'. assert (0 ≤ spg_special) by (unfold spg_special, BLCKSZ, sizeof_SpGistPageOpaqueData; lia).
  constructor; [done|by rewrite (rest_special _ _ Hrest)|done|..];
    rewrite (rest_mget p q) by (done || (rewrite ?Hs; unfold spg_flags, nRedirection, nPlaceholder, spgist_page_id; lia)); done.
Qed.

Section rep.
Context (p : page) (fl : Z) (its : list (list Z)) (r h : Z) (Hp : spg_rep p fl its r h).

(** A page has room for at most [MaxIndexTuplesPerPage] tuples. *)
Lemma rep_len : zlen its ≤ MaxIndexTuplesPerPage.
Proof using Hp.
pose proof (capacity_max p its (sr_index _ _ _ _ _ Hp)) as Hc. rewrite (sr_special _ _ _ _ _ Hp) in Hc.
assert (Hs : 20 * zlen its ≤ items_space its).
{ pose proof (sr_tuples _ _ _ _ _ Hp) as Ht. clear -Ht. induction Ht as [|x l Hx _ IH]; [done|]. pose proof (st_min _ _ Hx) as Hm.
change SGDTSIZE with 16 in Hm. cbn [items_space]. pose proof (MAXALIGN_bounds (zlen x)). unfold zlen in *. cbn [length]. lia. }
pose proof (wf_hdr _ (ip_wf _ _ (sr_index _ _ _ _ _ Hp))) as []. unfold capacity in Hc. change MaxIndexTuplesPerPage with 408.
unfold spg_special, BLCKSZ, sizeof_SpGistPageOpaqueData in *. lia.
Qed.

End rep.

Section field.
Context (p : page) (its : list (list Z)) (Hi : index_page p its) (Hs : pd_special p = spg_special).

Lemma spg_get_spec field : 0 ≤ field ≤ 6 → spg_get p field = Ok (mget 2 p (spg_special + field)).
Proof using Hi Hs.
intros Hf. unfold spg_get, opaque_get, PageGetSpecialPointer. rewrite Hs.
pose proof (wf_len _ (wf_hdr _ (ip_wf _ _ Hi))) as Hz. apply rd_ok; rewrite ?Hz; unfold spg_special, BLCKSZ, sizeof_SpGistPageOpaqueData in *; lia.
Qed.

(** Setting a field of the special space. *)
Lemma spg_set_spec field v : 0 ≤ field ≤ 6 →
let q := mput 2 p (spg_special + field) v in
spg_set p field v = Ok q ∧ index_page q its ∧ pd_special q = spg_special ∧ capacity q its = capacity p its ∧
(∀ o, spg_special ≤ o → o + 2 ≤ spg_special + field ∨ spg_special + field + 2 ≤ o → mget 2 q o = mget 2 p o) ∧
(0 ≤ v < 65536 → mget 2 q (spg_special + field) = v).
Proof using Hi Hs.
intros Hf q. pose proof (wf_len _ (wf_hdr _ (ip_wf _ _ Hi))) as Hz. unfold spg_special, BLCKSZ, sizeof_SpGistPageOpaqueData in *.
assert (Hw : special_write p q).
{ constructor; [apply zlen_mput|intros; by apply mput_byte|]. intros o l Ho Hd. apply mread_mput_disj; [done|lia]. }
pose proof (special_hdr p q (ip_wf _ _ Hi) Hw) as (Hl & Hu & Hsp & _). split_and!.
- unfold spg_set, opaque_set, store, PageGetSpecialPointer. rewrite Hs, (proj2 (in_range_true _ _ _)); [done|]. rewrite zlen_le_bytes. lia.
- constructor; [exact (special_page_wf p q (ip_wf _ _ Hi) Hw)|by rewrite (special_slots p q (ip_wf _ _ Hi) Hw), (ip_slots _ _ Hi)|apply Hi].
- by rewrite Hsp.
- unfold capacity. by rewrite Hl, Hu.
- intros o Ho Hd. apply mget_mput_disj; lia.
- intros Hv. apply mget_mput2; lia.
Qed.
End field.

(** Counting a redirection or a placeholder. *)
Lemma count_redirect p fl its r h d : spg_rep p fl its r h → 0 ≤ r + d < 65536 →
  ∃ q, spg_count p nRedirection d = Ok q ∧ spg_rep q fl its (r + d) h ∧ capacity q its = capacity p its.
Proof.
  intros Hp Hd. unfold spg_count. rewrite (spg_get_spec p its (sr_index _ _ _ _ _ Hp) (sr_special _ _ _ _ _ Hp)) by (unfold nRedirection; lia). cbn [mbind res_bind].
  rewrite (sr_redirect _ _ _ _ _ Hp). destruct (spg_set_spec p its (sr_index _ _ _ _ _ Hp) (sr_special _ _ _ _ _ Hp) nRedirection (r + d)) as (He & Hi & Hs & Hc & Hr & Hv);
    [unfold nRedirection; lia|]. eexists. split; [exact He|]. split; [|exact Hc]. destruct Hp. constructor; try done; [|by apply Hv| |];
    (rewrite Hr; [done|unfold spg_flags, nPlaceholder, spgist_page_id; lia|unfold spg_flags, nRedirection, nPlaceholder, spgist_page_id; lia]).
Qed.

Lemma count_placeholder p fl its r h d : spg_rep p fl its r h → 0 ≤ h + d < 65536 →
  ∃ q, spg_count p nPlaceholder d = Ok q ∧ spg_rep q fl its r (h + d) ∧ capacity q its = capacity p its.
Proof.
  intros Hp Hd. unfold spg_count. rewrite (spg_get_spec p its (sr_index _ _ _ _ _ Hp) (sr_special _ _ _ _ _ Hp)) by (unfold nPlaceholder; lia). cbn [mbind res_bind].
  rewrite (sr_placeholder _ _ _ _ _ Hp). destruct (spg_set_spec p its (sr_index _ _ _ _ _ Hp) (sr_special _ _ _ _ _ Hp) nPlaceholder (h + d)) as (He & Hi & Hs & Hc & Hr & Hv);
    [unfold nPlaceholder; lia|]. eexists. split; [exact He|]. split; [|exact Hc]. destruct Hp. constructor; try done; [| |by apply Hv|];
    (rewrite Hr; [done|unfold spg_flags, nRedirection, spgist_page_id; lia|unfold spg_flags, nRedirection, nPlaceholder, spgist_page_id; lia]).
Qed.

(** ** Adding and replacing tuples *)

Lemma spg_add_item_spec p fl its r h t off : spg_rep p fl its r h → spg_tuple (has_flag fl SPGIST_LEAF) t → 1 ≤ off ≤ zlen its + 1 →
  items_space (insert_item off t its) ≤ capacity p its →
  ∃ q, spg_add_item p t off = Ok q ∧ spg_rep q fl (insert_item off t its) r h ∧ capacity q (insert_item off t its) = capacity p its.
Proof.
  intros Hp Ht Ho Hfit. rewrite items_space_insert_item in Hfit.
  destruct (index_add p its t off (sr_index _ _ _ _ _ Hp) (spg_tuple_good _ _ Ht) Ho) as (q & He & Hq & Hr & Hc); [lia|].
  exists q. split_and!; [unfold spg_add_item; rewrite He; cbn [mbind res_bind]; by rewrite Z.eqb_refl| |done].
  apply (rep_items p q fl its); [done..|]. unfold insert_item. pose proof (sr_tuples _ _ _ _ _ Hp) as Hf.
  apply Forall_app. split; [by apply Forall_take|]. constructor; [done|]. by apply Forall_drop.
Qed.

Lemma spg_delete_spec p fl its r h off : spg_rep p fl its r h → 1 ≤ off ≤ zlen its →
  ∃ q, PageIndexTupleDelete p off = Ok q ∧ spg_rep q fl (delete (Z.to_nat (off - 1)) its) r h ∧
    capacity q (delete (Z.to_nat (off - 1)) its) = capacity p its.
Proof.
  intros Hp Ho. destruct (index_delete p its off (sr_index _ _ _ _ _ Hp) Ho) as (q & He & Hq & Hr & Hc).
  exists q. split_and!; [done| |done]. apply (rep_items p q fl its); [done..|]. apply Forall_delete, (sr_tuples _ _ _ _ _ Hp).
Qed.

Lemma insert_delete_item {A} k (t : A) (its : list A) : (k < length its)%nat → take k (delete k its) ++ t :: drop k (delete k its) = <[k := t]> its.
Proof.
  intros Hk. rewrite insert_take_drop by done. rewrite delete_take_drop.
  rewrite take_app_le by (rewrite length_take; lia). rewrite take_take, Nat.min_id.
  rewrite drop_app_ge by (rewrite length_take; lia). rewrite length_take, Nat.min_l by lia. rewrite Nat.sub_diag. by rewrite drop_0.
Qed.

Lemma insert_item_delete t off its : 1 ≤ off ≤ zlen its →
  insert_item off t (delete (Z.to_nat (off - 1)) its) = <[Z.to_nat (off - 1) := t]> its.
Proof. intros Ho. apply insert_delete_item. unfold zlen in Ho. lia. Qed.

(** Another tuple at the place of a tuple; the counters stay. *)
Lemma spg_replace_spec p fl its r h t off : spg_rep p fl its r h → spg_tuple (has_flag fl SPGIST_LEAF) t → 1 ≤ off ≤ zlen its →
  let its' := <[Z.to_nat (off - 1) := t]> its in
  items_space its' ≤ capacity p its →
  ∃ q, spg_replace_item p t off = Ok q ∧ spg_rep q fl its' r h ∧ capacity q its' = capacity p its.
Proof.
  intros Hp Ht Ho its' Hfit. destruct (spg_delete_spec p fl its r h off Hp Ho) as (p1 & He1 & Hp1 & Hc1).
  assert (Hl : zlen (delete (Z.to_nat (off - 1)) its) = zlen its - 1).
  { unfold zlen in *. rewrite length_delete by (apply lookup_lt_is_Some; lia). lia. }
  destruct (spg_add_item_spec p1 fl _ r h t off Hp1 Ht) as (q & He & Hq & Hc); [lia|by rewrite insert_item_delete, Hc1|].
  rewrite insert_item_delete in Hq, Hc by done. exists q. split_and!; [|done|unfold its'; by rewrite Hc].
  unfold spg_replace_item. by rewrite He1.
Qed.

Definition put_tuple (off : Z) (t : list Z) (its : list (list Z)) : list (list Z) :=
  if off <=? zlen its then <[Z.to_nat (off - 1) := t]> its else its ++ [t].

Definition is_state (ts : Z) (its : list (list Z)) (off : Z) : Prop := ∃ it, its !! Z.to_nat (off - 1) = Some it ∧ tupstate it 0 = ts.

Section put.
Context (p : page) (fl : Z) (its : list (list Z)).

(** Reading the state of a tuple on the page. *)
Lemma spg_state_spec off it r h : spg_rep p fl its r h → 1 ≤ off → its !! Z.to_nat (off - 1) = Some it →
∃ a, spg_item p off = Ok a ∧ a = lp_off (PageGetItemId p off) ∧ rd 4 p a = Ok (mget 4 it 0).
Proof using.
intros Hp Ho Hit. pose proof (sr_index _ _ _ _ _ Hp) as Hi. destruct (ip_item p its Hi off it Ho Hit) as (Hc & Hl & Hr & Hu & Hs & Hz).
pose proof (proj1 (Forall_lookup _ _) (sr_tuples _ _ _ _ _ Hp) _ _ Hit) as Ht. pose proof (st_min _ _ Ht) as Hm. change SGDTSIZE with 16 in Hm.
pose proof (MAXALIGN_bounds (zlen it)). pose proof (wf_hdr _ (ip_wf _ _ Hi)) as []. unfold BLCKSZ in *.
exists (lp_off (PageGetItemId p off)). split_and!; [unfold spg_item; by rewrite Hc|done|]. rewrite rd_ok by lia. f_equal.
unfold mget. f_equal. transitivity (mread (mread p (lp_off (PageGetItemId p off)) (zlen it)) 0 (Z.of_nat 4)); [|by rewrite Hr].
rewrite mread_mread by lia. f_equal. lia.
Qed.

(** [addOrReplaceTuple] puts a live tuple behind the last one or in place of a
placeholder, and counts that placeholder off. *)
Lemma put_tuple_spec t off : spg_wf p fl its → spg_tuple (has_flag fl SPGIST_LEAF) t → tupstate t 0 = SPGIST_LIVE →
1 ≤ off ≤ zlen its + 1 → (off ≤ zlen its → is_state SPGIST_PLACEHOLDER its off) → items_space (put_tuple off t its) ≤ capacity p its →
∃ q, addOrReplaceTuple p t off = Ok q ∧ spg_wf q fl (put_tuple off t its) ∧ capacity q (put_tuple off t its) = capacity p its.
Proof using.
intros Hp Ht Hlive Ho Hph Hfit. unfold addOrReplaceTuple. rewrite (ip_maxoff p its (sr_index _ _ _ _ _ Hp)). unfold put_tuple in *.
destruct (Z.leb_spec off (zlen its)) as [Hin|Hout].
- destruct (Hph Hin) as (it & Hit & Hst). pose proof (count_bound SPGIST_PLACEHOLDER its) as Hcb.
assert (Hh : has_state SPGIST_PLACEHOLDER it = 1) by (unfold has_state; by rewrite Hst).
assert (Hr : has_state SPGIST_REDIRECT it = 0) by (unfold has_state; by rewrite Hst).
pose proof (count_delete SPGIST_PLACEHOLDER its _ _ Hit) as Hcd. pose proof (count_bound SPGIST_PLACEHOLDER (delete (Z.to_nat (off - 1)) its)) as Hcb'.
pose proof (rep_len p fl its _ _ Hp) as Hlen. change MaxIndexTuplesPerPage with 408 in Hlen.
destruct (spg_state_spec off it _ _ Hp ltac:(lia) Hit) as (a & -> & _ & Hrd). cbn [mbind res_bind]. rewrite Hrd. cbn [mbind res_bind].
change (Z.land (mget 4 it 0) 3) with (tupstate it 0). rewrite Hst. change (negb (SPGIST_PLACEHOLDER =? SPGIST_PLACEHOLDER)) with false. cbv iota.
destruct (count_placeholder p fl its _ _ (-1) Hp) as (p1 & -> & Hp1 & Hc1); [lia|]. cbn [mbind res_bind].
destruct (spg_replace_spec p1 fl its _ _ t off Hp1 Ht ltac:(lia)) as (q & Hq & Hrep & Hc); [by rewrite Hc1|].
unfold spg_replace_item in Hq. exists q. split_and!; [exact Hq| |by rewrite Hc]. unfold spg_wf.
rewrite !(count_insert _ its _ it) by done. rewrite Hh, Hr. unfold has_state. rewrite Hlive. change (SPGIST_LIVE =? SPGIST_PLACEHOLDER) with false.
change (SPGIST_LIVE =? SPGIST_REDIRECT) with false. cbv iota. rewrite !Z.add_0_r, Z.sub_0_r. exact Hrep.
- cbn [mbind res_bind]. assert (off = zlen its + 1) as -> by lia.
assert (Hins : insert_item (zlen its + 1) t its = its ++ [t]).
{ unfold insert_item, zlen. rewrite take_ge, drop_ge by lia. done. }
destruct (spg_add_item_spec p fl its _ _ t (zlen its + 1) Hp Ht) as (q & Hq & Hrep & Hc); [lia|by rewrite Hins|]. rewrite Hins in *.
exists q. split_and!; [done| |done]. unfold spg_wf. rewrite !count_app. cbn [count_state]. unfold has_state. rewrite Hlive.
change (SPGIST_LIVE =? SPGIST_PLACEHOLDER) with false. change (SPGIST_LIVE =? SPGIST_REDIRECT) with false. cbv iota. rewrite !Z.add_0_r. exact Hrep.
Qed.

(** Any other tuple is not replaced. *)
Lemma put_tuple_refused t off it r h : spg_rep p fl its r h → 1 ≤ off → its !! Z.to_nat (off - 1) = Some it →
tupstate it 0 ≠ SPGIST_PLACEHOLDER → addOrReplaceTuple p t off = Err EError.
Proof using.
intros Hp Ho Hit Hst. unfold addOrReplaceTuple. rewrite (ip_maxoff p its (sr_index _ _ _ _ _ Hp)). pose proof (lookup_lt_Some _ _ _ Hit) as Hlt.
destruct (Z.leb_spec off (zlen its)); [|unfold zlen in *; lia].
destruct (spg_state_spec off it _ _ Hp Ho Hit) as (a & -> & _ & Hrd). cbn [mbind res_bind]. rewrite Hrd. cbn [mbind res_bind].
change (Z.land (mget 4 it 0) 3) with (tupstate it 0). by rewrite (proj2 (Z.eqb_neq _ _) Hst).
Qed.
End put.

(** ** Deleting tuples in place *)

(** The listed tuples are replaced, all others keep their offset numbers. *)
Definition kill (f : Z → list Z) (offs : list Z) (its : list (list Z)) : list (list Z) :=
  imap (λ k it, if bool_decide (Z.of_nat k + 1 ∈ offs) then f (Z.of_nat k + 1) else it) its.

Definition put_all (f : Z → list Z) (offs : list Z) (its : list (list Z)) : list (list Z) :=
  foldl (λ s o, <[Z.to_nat (o - 1) := f o]> s) its offs.

Lemma insert_delete_lt {A} (i j : nat) (x : A) (s : list A) : (i < j)%nat → <[i := x]> (delete j s) = delete j (<[i := x]> s).
Proof.
  revert i j. induction s as [|y s IH]; intros i j Hij; [done|]. destruct j as [|j]; [lia|]. destruct i as [|i]; [done|].
  cbn. f_equal. apply IH. lia.
Qed.

Lemma delete_slots_insert {A} o (x : A) l (s : list A) : 1 ≤ o → Forall (λ z, o < z) l →
  <[Z.to_nat (o - 1) := x]> (delete_slots l s) = delete_slots l (<[Z.to_nat (o - 1) := x]> s).
Proof.
  intros Ho. induction 1 as [|z l Hz _ IH]; [done|]. rewrite !delete_slots_cons, <-IH. apply insert_delete_lt. lia.
Qed.

Lemma delete_slots_lookup {A} o l (s : list A) : 1 ≤ o → Forall (λ z, o < z) l →
  delete_slots l s !! Z.to_nat (o - 1) = s !! Z.to_nat (o - 1).
Proof.
  intros Ho. induction 1 as [|z l Hz _ IH]; [done|]. rewrite delete_slots_cons, list_lookup_delete_lt by lia. done.
Qed.

Lemma sorted_tail o l : StronglySorted Z.lt (o :: l) → StronglySorted Z.lt l ∧ Forall (λ z, o < z) l.
Proof. intros Hs. inversion Hs; subst. done. Qed.

(** What is known of each listed tuple. *)
Definition listed (P : list Z → Prop) (its : list (list Z)) (o : Z) : Prop := 1 ≤ o ∧ ∃ it, its !! Z.to_nat (o - 1) = Some it ∧ P it.

Lemma listed_range P its l : Forall (listed P its) l → Forall (λ o, 1 ≤ o ≤ zlen its) l.
Proof.
  intros H. eapply Forall_impl; [exact H|]. intros o (Ho & it & Hit & _). pose proof (lookup_lt_Some _ _ _ Hit). unfold zlen. lia.
Qed.

Lemma delete_slots_count ts its l : StronglySorted Z.lt l → Forall (listed (λ it, has_state ts it = 0) its) l →
  count_state ts (delete_slots l its) = count_state ts its.
Proof.
  intros Hs Hf. induction l as [|o l IH]; [done|]. apply sorted_tail in Hs as [Hs Hlt]. apply Forall_cons in Hf as [(Ho & it & Hit & Hz) Hf].
  rewrite delete_slots_cons, (count_delete ts _ _ it); [rewrite IH by done; lia|]. by rewrite delete_slots_lookup.
Qed.

Lemma delete_slots_space its l : StronglySorted Z.lt l → Forall (listed (λ it, SGDTSIZE ≤ zlen it) its) l →
  items_space (delete_slots l its) + 20 * zlen l ≤ items_space its.
Proof.
  intros Hs Hf. induction l as [|o l IH]; [unfold zlen; cbn [length delete_slots foldr]; lia|].
  apply sorted_tail in Hs as [Hs Hlt]. apply Forall_cons in Hf as [(Ho & it & Hit & Hz) Hf]. specialize (IH Hs Hf).
  rewrite delete_slots_cons. rewrite (items_space_split (delete_slots l its) _ it) in IH by (by rewrite delete_slots_lookup).
  change SGDTSIZE with 16 in Hz. pose proof (MAXALIGN_bounds (zlen it)). unfold zlen in *. cbn [length] in *. lia.
Qed.

Section kill.
Context (state : SpGistState) (firstItem firststate reststate blkno offnum : Z).
Context (Hfs : 1 ≤ firststate ≤ 3) (Hrs : 1 ≤ reststate ≤ 3).
Let ts o := if o =? firstItem then firststate else reststate.

Definition dead_for (o : Z) : list Z := spgFormDeadTuple state (if o =? firstItem then firststate else reststate) blkno offnum.

(** The tuple in hand is the one that would be formed now. *)
Definition cached (tuple : option (list Z)) : Prop :=
match tuple with Some t => ∃ s, 1 ≤ s ≤ 3 ∧ t = spgFormDeadTuple state s blkno offnum | None => True end.

Lemma cached_tuple tuple o : cached tuple →
match tuple with
| Some t => if negb (tupstate t 0 =? ts o) then spgFormDeadTuple state (ts o) blkno offnum else t
| None => spgFormDeadTuple state (ts o) blkno offnum
end = dead_for o.
Proof using Hfs Hrs.
destruct tuple as [t|]; [|done]. intros (s & Hs & ->). rewrite dead_state by lia. destruct (Z.eqb_spec s (ts o)) as [->|]; done.
Qed.

(** One dead tuple is put in and counted. *)
Lemma dead_step p fl its o : spg_wf p fl its → 1 ≤ o ≤ zlen its + 1 → items_space its + 20 ≤ capacity p its →
∃ q, (p ← spg_add_item p (dead_for o) o;
if ts o =? SPGIST_REDIRECT then spg_count p nRedirection 1
else if ts o =? SPGIST_PLACEHOLDER then spg_count p nPlaceholder 1 else Ok p) = Ok q ∧
spg_wf q fl (insert_item o (dead_for o) its) ∧ capacity q (insert_item o (dead_for o) its) = capacity p its.
Proof using Hfs Hrs.
intros Hp Ho Hfit. assert (Hts : 1 ≤ ts o ≤ 3) by (unfold ts; destruct (_ =? _); done).
assert (Ht : spg_tuple (has_flag fl SPGIST_LEAF) (dead_for o)) by (apply dead_tuple; fold (ts o); [lia|unfold SPGIST_LIVE; lia]).
assert (Hst : tupstate (dead_for o) 0 = ts o) by (apply dead_state; fold (ts o); lia).
assert (Hz : zlen (dead_for o) = SGDTSIZE) by apply dead_len.
destruct (spg_add_item_spec p fl its _ _ (dead_for o) o Hp Ht Ho) as (p1 & -> & Hp1 & Hc1).
{ rewrite items_space_insert_item, Hz. change (MAXALIGN SGDTSIZE) with 16. lia. }
cbn [mbind res_bind]. pose proof (rep_len _ _ _ _ _ Hp1) as Hlen. change MaxIndexTuplesPerPage with 408 in Hlen.
pose proof (count_bound SPGIST_REDIRECT (insert_item o (dead_for o) its)) as Hr. pose proof (count_bound SPGIST_PLACEHOLDER (insert_item o (dead_for o) its)) as Hh.
pose proof (count_bound SPGIST_REDIRECT its) as Hr0. pose proof (count_bound SPGIST_PLACEHOLDER its) as Hh0.
unfold spg_wf in *. rewrite !count_insert_item in *. unfold has_state in *. rewrite Hst in *.
destruct (Z.eqb_spec (ts o) SPGIST_REDIRECT) as [E|E].
- rewrite E in *. change (SPGIST_REDIRECT =? SPGIST_PLACEHOLDER) with false in *. cbv iota in *. rewrite Z.add_0_r in *.
destruct (count_redirect p1 fl _ _ _ 1 Hp1) as (q & -> & Hq & Hc); [lia|]. exists q. split_and!; [done|done|lia].
- rewrite Z.add_0_r in *. destruct (ts o =? SPGIST_PLACEHOLDER).
+ destruct (count_placeholder p1 fl _ _ _ 1 Hp1) as (q & -> & Hq & Hc); [lia|]. exists q. split_and!; [done|done|lia].
+ rewrite Z.add_0_r in *. exists p1. split_and!; [done|done|lia].
Qed.

Lemma dead_loop_spec fl l : ∀ p its tuple, StronglySorted Z.lt l → Forall (λ o, 1 ≤ o ≤ zlen its) l → spg_wf p fl (delete_slots l its) →
items_space (delete_slots l its) + 20 * zlen l ≤ capacity p (delete_slots l its) → cached tuple →
∃ q, dead_loop state p l firstItem firststate reststate blkno offnum tuple = Ok q ∧ spg_wf q fl (put_all dead_for l its) ∧
capacity q (put_all dead_for l its) = capacity p (delete_slots l its).
Proof using Hfs Hrs.
induction l as [|o l IH]; intros p its tuple Hs Hf Hp Hfit Hca; [by exists p|].
pose proof (delete_slots_length its (o :: l) Hs Hf) as Hlen. pose proof (sorted_room o l _ Hs Hf) as Hroom. apply sorted_tail in Hs as [Hs Hlt]. apply Forall_cons in Hf as [Ho Hf].
pose proof (delete_slots_length its l Hs Hf) as Hlen'. cbn [dead_loop]. cbv zeta. fold (ts o). rewrite (cached_tuple tuple o Hca). rewrite delete_slots_cons in *.
assert (Hzl : zlen (o :: l) = 1 + zlen l) by (unfold zlen; cbn [length]; lia). pose proof (zlen_nonneg l).
destruct (dead_step p fl _ o Hp) as (p1 & He & Hp1 & Hc1); [lia|lia|].
assert (Hins : insert_item o (dead_for o) (delete (Z.to_nat (o - 1)) (delete_slots l its)) = delete_slots l (<[Z.to_nat (o - 1) := dead_for o]> its)).
{ rewrite insert_item_delete by lia. apply delete_slots_insert; [lia|done]. }
rewrite Hins in *.
destruct (IH p1 (<[Z.to_nat (o - 1) := dead_for o]> its) (Some (dead_for o))) as (q & Hq & Hwq & Hcq); [done| |done| | |].
- unfold zlen. by rewrite length_insert.
- rewrite Hc1, <-Hins, items_space_insert_item. unfold dead_for. rewrite dead_len. change (MAXALIGN SGDTSIZE) with 16. lia.
- exists (ts o). split; [|done]. unfold ts. destruct (o =? firstItem); done.
- exists q. split_and!; [|done|].
+ destruct (spg_add_item p (dead_for o) o) as [x|]; cbn [mbind res_bind] in He |- *; [|done]. rewrite He. exact Hq.
+ etrans; [exact Hcq|done].
Qed.
End kill.

(** The order of the replacements does not matter. *)
Lemma put_all_lookup f l : ∀ its k, Forall (λ o, 1 ≤ o) l →
  put_all f l its !! k = (λ it, if bool_decide (Z.of_nat k + 1 ∈ l) then f (Z.of_nat k + 1) else it) <$> its !! k.
Proof.
  induction l as [|o l IH]; intros its k Hf; [cbn [put_all foldl]; rewrite bool_decide_false by set_solver; by destruct (its !! k)|].
  apply Forall_cons in Hf as [Ho Hf]. cbn [put_all foldl]. fold (put_all f l (<[Z.to_nat (o - 1) := f o]> its)). rewrite IH by done.
  destruct (decide (k = Z.to_nat (o - 1))) as [->|Hk].
  - replace (Z.of_nat (Z.to_nat (o - 1)) + 1) with o by lia. rewrite (bool_decide_true (o ∈ o :: l)) by set_solver.
    destruct (its !! Z.to_nat (o - 1)) as [it|] eqn:E.
    + rewrite list_lookup_insert_eq by (by eapply lookup_lt_Some). cbn [fmap option_fmap option_map]. by destruct (bool_decide _).
    + rewrite lookup_ge_None_2; [done|]. rewrite length_insert. by apply lookup_ge_None_1.
  - rewrite list_lookup_insert_ne by done. destruct (its !! k); [|done]. cbn [fmap option_fmap option_map]. f_equal.
    rewrite (bool_decide_ext (Z.of_nat k + 1 ∈ l) (Z.of_nat k + 1 ∈ o :: l)); [done|]. rewrite elem_of_cons. split; [by right|]. intros [?|?]; [lia|done].
Qed.

Lemma put_all_kill f l l' its : Forall (λ o, 1 ≤ o) l → l ≡ₚ l' → put_all f l its = kill f l' its.
Proof.
  intros Hl Hp. apply list_eq. intros k. rewrite put_all_lookup by done. unfold kill. rewrite list_lookup_imap. destruct (its !! k); [|done].
  cbn [fmap option_fmap option_map]. f_equal. rewrite (bool_decide_ext _ (Z.of_nat k + 1 ∈ l')); [done|]. by rewrite Hp.
Qed.

(** The sorted copy. *)
Lemma offset_le_iff a b : offset_le a b ↔ a ≤ b.
Proof. unfold offset_le, cmpOffsetNumbers. destruct (Z.eqb_spec a b); [lia|]. destruct (Z.ltb_spec b a); lia. Qed.

Lemma sort_offsets_perm l : sort_offsets l ≡ₚ l.
Proof. apply merge_sort_Permutation. Qed.

Lemma sort_offsets_sorted l : NoDup l → StronglySorted Z.lt (sort_offsets l).
Proof.
  intros Hnd. assert (Ht : Total offset_le) by (intros a b; rewrite !offset_le_iff; lia).
  assert (Htr : Transitive offset_le) by (intros a b c; rewrite !offset_le_iff; lia).
  pose proof (StronglySorted_merge_sort offset_le l) as Hs. rewrite <-sort_offsets_perm in Hnd. unfold sort_offsets in *.
  revert Hnd Hs. generalize (merge_sort offset_le l). clear. intros l Hnd Hs.
  induction Hs as [|x l Hs IH Hx]; [constructor|]. apply NoDup_cons in Hnd as [Hn Hnd]. constructor; [by apply IH|].
  apply Forall_forall. intros y Hy. rewrite Forall_forall in Hx. specialize (Hx y Hy). apply (proj1 (offset_le_iff x y)) in Hx.
  assert (x ≠ y) by (intros ->; done). lia.
Qed.

(** [spgPageIndexMultiDelete] *)
Lemma multi_delete_spec state p fl its offs firststate reststate blkno offnum :
  spg_wf p fl its → NoDup offs → Forall (listed uncounted its) offs → 1 ≤ firststate ≤ 3 → 1 ≤ reststate ≤ 3 →
  let its' := kill (dead_for state (hd 0 offs) firststate reststate blkno offnum) offs its in
  ∃ q, spgPageIndexMultiDelete state p offs firststate reststate blkno offnum = Ok q ∧ spg_wf q fl its' ∧ capacity p its ≤ capacity q its'.
Proof.
  intros Hp Hnd Hl Hfs Hrs its'. unfold spgPageIndexMultiDelete. destruct offs as [|o offs'] eqn:Eo.
  { exists p. assert (its' = its) as ->; [|split_and!; [done|done|lia]]. unfold its', kill. apply list_eq. intros k. rewrite list_lookup_imap.
    destruct (its !! k); [|done]. done. }
  rewrite <-Eo in Hnd, Hl |- *. assert (Hhd : hd 0 (o :: offs') = o) by done. rewrite <-Eo in Hhd. subst its'. rewrite <-Eo, Hhd.
  pose proof (sort_offsets_perm offs) as Hperm. pose proof (sort_offsets_sorted offs Hnd) as Hs. pose proof (listed_range _ _ _ Hl) as Hr.
  rewrite <-Hperm in Hl, Hr. pose proof (rep_len _ _ _ _ _ Hp) as Hlen.
  assert (Hzl : zlen (sort_offsets offs) = zlen offs) by (unfold zlen; by rewrite Hperm).
  assert (Hn : zlen offs ≤ zlen its).
  { pose proof (delete_slots_length its _ Hs Hr) as Hd. pose proof (zlen_nonneg (delete_slots (sort_offsets offs) its)). lia. }
  destruct (Z.ltb_spec MaxIndexTuplesPerPage (zlen offs)); [lia|].
  destruct (index_multi_delete p its _ (sr_index _ _ _ _ _ Hp) Hlen Hs Hr) as (p1 & -> & Hi & Hrest & Hc). cbn [mbind res_bind].
  assert (Hcnt : ∀ ts, ts = SPGIST_REDIRECT ∨ ts = SPGIST_PLACEHOLDER → count_state ts (delete_slots (sort_offsets offs) its) = count_state ts its).
  { intros ts Hts. apply delete_slots_count; [done|]. eapply Forall_impl; [exact Hl|]. intros x (Hx & it & Hit & Hu). split; [done|].
    exists it. split; [done|]. by apply uncounted_state. }
  assert (Hp1 : spg_wf p1 fl (delete_slots (sort_offsets offs) its)).
  { unfold spg_wf. rewrite !Hcnt by auto. apply (rep_items p p1 fl its); [done..|]. apply delete_slots_forall, (sr_tuples _ _ _ _ _ Hp). }
  assert (Hsp : items_space (delete_slots (sort_offsets offs) its) + 20 * zlen (sort_offsets offs) ≤ items_space its).
  { apply delete_slots_space; [done|]. eapply Forall_impl; [exact Hl|]. intros x (Hx & it & Hit & _). split; [done|]. exists it. split; [done|].
    apply (st_min _ _ (proj1 (Forall_lookup _ _) (sr_tuples _ _ _ _ _ Hp) _ _ Hit)). }
  pose proof (wf_hdr _ (ip_wf _ _ (sr_index _ _ _ _ _ Hp))) as [].
  destruct (dead_loop_spec state o firststate reststate blkno offnum Hfs Hrs fl (sort_offsets offs) p1 its None) as (q & Hq & Hwq & Hcq);
    [done|done|done|unfold capacity in *; lia|done|].
  assert (Hpos : Forall (λ o, 1 ≤ o) (sort_offsets offs)) by (eapply Forall_impl; [exact Hr|]; cbn; lia).
  rewrite (put_all_kill _ _ offs its Hpos Hperm) in Hwq, Hcq.
  exists q. split_and!; [done|done|lia].
Qed.

(** ** Changing tuples in place *)

Lemma spg_write_spec p fl its r h off it d bs : spg_rep p fl its r h → 1 ≤ off → its !! Z.to_nat (off - 1) = Some it →
  0 ≤ d → d + zlen bs ≤ zlen it → Forall is_byte bs → spg_tuple (has_flag fl SPGIST_LEAF) (mwrite it d bs) →
  let its' := <[Z.to_nat (off - 1) := mwrite it d bs]> its in
  ∃ q, store p (lp_off (PageGetItemId p off) + d) bs = Ok q ∧ spg_rep q fl its' r h ∧ capacity q its' = capacity p its ∧
    PageGetItemId q off = PageGetItemId p off.
Proof.
  intros Hp Ho Hit Hd Hfit Hb Ht its'. pose proof (lookup_lt_Some _ _ _ Hit) as Hlt.
  destruct (index_write p its off it d bs (sr_index _ _ _ _ _ Hp) Ho Hit Hd Hfit Hb) as (q & He & Hq & Hr & Hc & Hids).
  exists q. split_and!; [done| |done|apply Hids; unfold zlen; lia]. apply (rep_items p q fl its); [done..|].
  apply Forall_insert; [apply (sr_tuples _ _ _ _ _ Hp)|done].
Qed.

(** A change that leaves the first word of the tuple. *)
Lemma mwrite_word it d bs : 4 ≤ d → mget 4 (mwrite it d bs) 0 = mget 4 it 0.
Proof. intros Hd. apply mget_mwrite_disj; lia. Qed.

Lemma write_uncounted it d bs ts : 4 ≤ d → has_state ts (mwrite it d bs) = has_state ts it.
Proof. intros Hd. unfold has_state, tupstate. by rewrite mwrite_word. Qed.

Lemma leaf_write it d bs : spg_tuple true it → 4 ≤ d → Forall is_byte bs → spg_tuple true (mwrite it d bs).
Proof.
  intros [Hb Hm Hl Hd] Hdist Hbs. constructor.
  - by apply mwrite_byte.
  - by rewrite zlen_mwrite.
  - unfold tupstate, live_tuple, leaf_size in *. rewrite mwrite_word, zlen_mwrite by done. exact Hl.
  - unfold tupstate, leaf_size in *. rewrite mwrite_word, zlen_mwrite by done. exact Hd.
Qed.

Lemma wf_count_write p fl its off it d bs : spg_wf p fl its → its !! off = Some it → 4 ≤ d →
  let its' := <[off := mwrite it d bs]> its in
  count_state SPGIST_REDIRECT its' = count_state SPGIST_REDIRECT its ∧ count_state SPGIST_PLACEHOLDER its' = count_state SPGIST_PLACEHOLDER its.
Proof. intros _ Hit Hd its'. unfold its'. rewrite !(count_insert _ its off it) by done. rewrite !write_uncounted by done. lia. Qed.

Lemma alter_as_insert {A} (f : A → A) k (l : list A) x : l !! k = Some x → alter f k l = <[k := f x]> l.
Proof.
  intros Hx. apply list_eq. intros j. destruct (decide (j = k)) as [->|Hj].
  - rewrite list_lookup_alter_eq, Hx, list_lookup_insert_eq by (by eapply lookup_lt_Some). done.
  - by rewrite list_lookup_alter_ne, list_lookup_insert_ne.
Qed.

(** The chain link of a leaf tuple. *)
Definition with_next (next : Z) (it : list Z) : list Z := mwrite it nextOffset (le_bytes 2 next).

Lemma set_next_spec p fl its off next : spg_wf p fl its → has_flag fl SPGIST_LEAF = true → 1 ≤ off ≤ zlen its →
  let its' := alter (with_next next) (Z.to_nat (off - 1)) its in
  ∃ q, spg_set_next p off next = Ok q ∧ spg_wf q fl its' ∧ capacity q its' = capacity p its.
Proof.
  intros Hp Hfl Ho its'. destruct (lookup_lt_is_Some_2 its (Z.to_nat (off - 1))) as [it Hit]; [unfold zlen in Ho; lia|].
  assert (Halt : its' = <[Z.to_nat (off - 1) := with_next next it]> its).
  { by apply alter_as_insert. }
  pose proof (proj1 (Forall_lookup _ _) (sr_tuples _ _ _ _ _ Hp) _ _ Hit) as Ht. cbn in Ht. rewrite Hfl in Ht.
  pose proof (st_min _ _ Ht) as Hm. change SGDTSIZE with 16 in Hm.
  destruct (spg_state_spec p fl its off it _ _ Hp ltac:(lia) Hit) as (a & Ha & -> & _).
  destruct (spg_write_spec p fl its _ _ off it nextOffset (le_bytes 2 next) Hp ltac:(lia) Hit) as (q & He & Hq & Hc & _).
  { unfold nextOffset. lia. } { rewrite zlen_le_bytes. unfold nextOffset. lia. } { apply le_bytes_byte. }
  { rewrite Hfl. apply leaf_write; [done|unfold nextOffset; lia|apply le_bytes_byte]. }
  destruct (wf_count_write p fl its _ it nextOffset (le_bytes 2 next) Hp Hit) as [H1 H2]; [unfold nextOffset; lia|].
  exists q. unfold spg_set_next. rewrite Ha. cbn [mbind res_bind]. rewrite Halt. unfold spg_wf, with_next. by rewrite H1, H2.
Qed.

(** The downlink of one node. *)
Definition set_link (blk off : Z) (nd : list Z) : list Z := mwrite nd 0 (item_pointer blk off).

Section link.
Context (it pre : list Z) (nodes : list (list Z)) (post : list Z) (Hit : inner_tuple it pre nodes post) (Hb : Forall is_byte it).

Definition node_pos (i : nat) : Z := zlen pre + zlen (concat (take i nodes)).

Lemma node_split i nd : nodes !! i = Some nd → it = (pre ++ concat (take i nodes)) ++ nd ++ (concat (drop (S i) nodes) ++ post).
Proof using Hit.
intros Hn. rewrite (in_bytes _ _ _ _ Hit). rewrite <-(take_drop_middle nodes i nd Hn) at 1. rewrite concat_app. cbn [concat]. by rewrite <-!app_assoc.
Qed.

Lemma node_at i nd : nodes !! i = Some nd → mread it (node_pos i) (zlen nd) = nd ∧ 8 ≤ node_pos i ∧ node_pos i + zlen nd ≤ zlen it ∧
8 ≤ zlen nd ∧ IndexTupleSize it (node_pos i) = zlen nd.
Proof using Hit Hb.
intros Hn. pose proof (node_split i nd Hn) as Hsp. destruct (proj1 (Forall_lookup _ _) (in_nodes _ _ _ _ Hit) _ _ Hn) as [Hmin Hsz].
unfold sizeof_IndexTupleData in Hmin. assert (Hz : node_pos i = zlen (pre ++ concat (take i nodes))) by (unfold node_pos, zlen; rewrite length_app; lia).
assert (Hr : mread it (node_pos i) (zlen nd) = nd) by (rewrite Hz, Hsp; apply mread_middle).
pose proof (in_prefix _ _ _ _ Hit) as Hpre. change SGITHDRSZ with 8 in Hpre.
assert (0 ≤ prefixSize it 0) by (unfold prefixSize; apply Z.shiftr_nonneg, (mget_bound 4 it 0 Hb)).
assert (8 ≤ node_pos i) by (unfold node_pos, zlen in *; lia). split_and!; [done|done| |done|].
- rewrite Hz, Hsp. unfold zlen. rewrite !length_app. lia.
- rewrite <-Hsz. unfold IndexTupleSize, t_info, mget. do 2 f_equal.
transitivity (mread (mread it (node_pos i) (zlen nd)) (0 + 6) (Z.of_nat 2)); [|by rewrite Hr]. rewrite mread_mread by lia. f_equal; lia.
Qed.

Lemma node_pos_next i nd : nodes !! i = Some nd → node_pos (S i) = node_pos i + zlen nd.
Proof using.
intros Hn. unfold node_pos, zlen. rewrite (take_S_r _ _ _ Hn), concat_app, length_app. cbn [concat]. rewrite app_nil_r. lia.
Qed.

(** The tuple, somewhere in memory. *)
Context (m : mem) (a : Z) (Ha : 0 ≤ a) (Hfit : a + zlen it ≤ zlen m) (Hin : mread m a (zlen it) = it).

Lemma in_tuple d l : 0 ≤ d → d + l ≤ zlen it → mread m (a + d) l = mread it d l.
Proof using Ha Hin. intros Hd Hl. transitivity (mread (mread m a (zlen it)) d l); [by rewrite mread_mread|by rewrite Hin]. Qed.

Lemma node_next i nd : nodes !! i = Some nd →
in_range m (a + node_pos i) sizeof_IndexTupleData = true ∧ a + node_pos i + IndexTupleSize m (a + node_pos i) = a + node_pos (S i).
Proof using All.
intros Hnd. destruct (node_at i nd Hnd) as (_ & Hpos & Hend & Hmin & Hsz). split; [apply in_range_true; unfold sizeof_IndexTupleData; lia|].
rewrite (node_pos_next i nd Hnd), Z.add_assoc. f_equal. rewrite <-Hsz.
unfold IndexTupleSize, t_info, mget. do 2 f_equal. rewrite <-Z.add_assoc. apply in_tuple; lia.
Qed.

Lemma update_loop_spec n blk off : (n < length nodes)%nat → ∀ k i, (i + k = n)%nat →
update_node_loop m (a + node_pos i) (Z.of_nat i) (Z.of_nat n) blk off (length nodes - i) = store m (a + node_pos n) (item_pointer blk off).
Proof using All.
intros Hn. induction k as [|k IH]; intros i Hik; (replace (length nodes - i)%nat with (S (length nodes - S i)) by lia); cbn [update_node_loop].
- replace i with n by lia. by rewrite Z.eqb_refl.
- rewrite (proj2 (Z.eqb_neq _ _)) by lia. destruct (lookup_lt_is_Some_2 nodes i) as [nd Hnd]; [lia|].
rewrite (proj1 (node_next i nd Hnd)), (proj2 (node_next i nd Hnd)). replace (Z.of_nat i + 1) with (Z.of_nat (S i)) by lia. apply IH. lia.
Qed.

Lemma update_loop_none n blk off : zlen nodes ≤ n → ∀ k i, (i + k = length nodes)%nat →
update_node_loop m (a + node_pos i) (Z.of_nat i) n blk off k = Err EError.
Proof using All.
intros Hn. induction k as [|k IH]; intros i Hik; cbn [update_node_loop]; [done|].
rewrite (proj2 (Z.eqb_neq _ _)) by (unfold zlen in Hn; lia). destruct (lookup_lt_is_Some_2 nodes i) as [nd Hnd]; [lia|].
rewrite (proj1 (node_next i nd Hnd)), (proj2 (node_next i nd Hnd)). replace (Z.of_nat i + 1) with (Z.of_nat (S i)) by lia. apply IH. lia.
Qed.

Lemma header_in : 8 ≤ zlen it → mget 4 m a = mget 4 it 0.
Proof using Ha Hin. intros Hz. unfold mget. f_equal. rewrite <-(Z.add_0_r a) at 1. apply in_tuple; lia. Qed.

Lemma update_link_loop n blk off : 8 ≤ zlen it →
spgUpdateNodeLink m a n blk off = update_node_loop m (a + node_pos 0) 0 n blk off (length nodes).
Proof using All.
intros Hz. unfold spgUpdateNodeLink, sizeof_SpGistInnerTupleData. rewrite (proj2 (in_range_true _ _ _)) by lia. f_equal.
- unfold prefixSize. rewrite header_in by done. pose proof (in_prefix _ _ _ _ Hit) as Hp. unfold prefixSize in Hp.
rewrite <-Z.add_assoc, <-Hp. unfold node_pos. f_equal. change (zlen (concat (take 0 nodes))) with 0. lia.
- unfold nNodes. rewrite header_in by done. pose proof (in_count _ _ _ _ Hit) as Hc. unfold nNodes, zlen in Hc. rewrite Hc. lia.
Qed.

(** The write [spgUpdateNodeLink] makes; there is none without the node. *)
Lemma update_link_store n blk off : 8 ≤ zlen it → 0 ≤ n →
spgUpdateNodeLink m a n blk off =
if n <? zlen nodes then store m (a + node_pos (Z.to_nat n)) (item_pointer blk off) else Err EError.
Proof using All.
intros Hz Hn. rewrite update_link_loop by done. destruct (Z.ltb_spec n (zlen nodes)) as [Hlt|Hge].
- assert (Hlt' : (Z.to_nat n < length nodes)%nat) by (unfold zlen in Hlt; lia).
pose proof (update_loop_spec (Z.to_nat n) blk off Hlt' (Z.to_nat n) 0 ltac:(lia)) as Hu. rewrite Z2Nat.id in Hu by lia.
by rewrite Nat.sub_0_r in Hu.
- by apply (update_loop_none n blk off Hge (length nodes) 0).
Qed.
End link.

Lemma mwrite_middle a x b bs : zlen bs ≤ zlen x → mwrite (a ++ x ++ b) (zlen a) bs = a ++ mwrite x 0 bs ++ b.
Proof.
  intros Hz. unfold mwrite. rewrite (proj2 (in_range_true _ _ _)) by (unfold zlen in *; rewrite ?length_app; lia).
  rewrite (proj2 (in_range_true _ _ _)) by (unfold zlen in *; lia). change (take (Z.to_nat 0) x) with (@nil Z).
  unfold zlen in *. rewrite Nat2Z.id, take_app_length. cbn [app]. rewrite <-!app_assoc. do 2 f_equal.
  rewrite drop_app_ge by lia. replace (length a + length bs - length a)%nat with (Z.to_nat 0 + length bs)%nat by lia.
  rewrite drop_app_le by lia. done.
Qed.

(** The tuple with the new link has the other nodes as before. *)
Lemma set_link_tuple it pre nodes post n nd blk off : inner_tuple it pre nodes post → Forall is_byte it → nodes !! n = Some nd →
  inner_tuple (mwrite it (node_pos pre nodes n) (item_pointer blk off)) pre (<[n := set_link blk off nd]> nodes) post.
Proof.
  intros Hit Hb Hn. destruct (node_at it pre nodes post Hit Hb n nd Hn) as (Hr & Hpos & Hend & Hmin & Hsz).
  assert (Hw : mwrite it (node_pos pre nodes n) (item_pointer blk off) = pre ++ concat (<[n := set_link blk off nd]> nodes) ++ post).
  { rewrite insert_take_drop by (by eapply lookup_lt_Some). rewrite concat_app. cbn [concat]. rewrite <-!app_assoc, app_assoc.
    rewrite (node_split it pre nodes post Hit n nd Hn) at 1.
    replace (node_pos pre nodes n) with (zlen (pre ++ concat (take n nodes))) by (unfold node_pos, zlen; rewrite length_app; lia).
    apply mwrite_middle. rewrite zlen_item_pointer. lia. }
  assert (Hw4 : ∀ k o, 0 ≤ o → o + Z.of_nat k ≤ 8 → mget k (mwrite it (node_pos pre nodes n) (item_pointer blk off)) o = mget k it o).
  { intros k o Ho Hk. apply mget_mwrite_disj; lia. }
  destruct Hit. constructor.
  - exact Hw.
  - unfold prefixSize in *. by rewrite Hw4 by lia.
  - unfold nNodes in *. rewrite Hw4 by lia. unfold zlen in *. by rewrite length_insert.
  - apply Forall_insert; [done|]. unfold set_link. split; [by rewrite zlen_mwrite|]. rewrite zlen_mwrite.
    destruct (proj1 (Forall_lookup _ _) in_nodes0 _ _ Hn) as [_ <-]. unfold IndexTupleSize, t_info. f_equal. apply mget_mwrite_disj; [lia|]. rewrite zlen_item_pointer. lia.
  - unfold inner_size in *. rewrite Hw4, zlen_mwrite by lia. done.
Qed.

(** ** The downlink of a parent *)

Section parent.
Context (p : page) (fl : Z) (its : list (list Z)) (off : Z) (it pre : list Z) (nodes : list (list Z)) (post : list Z).
Context (Hp : spg_wf p fl its) (Hfl : has_flag fl SPGIST_LEAF = false) (Ho : 1 ≤ off) (Hk : its !! Z.to_nat (off - 1) = Some it).
Context (Hlive : tupstate it 0 = SPGIST_LIVE) (Hit : inner_tuple it pre nodes post).

Lemma parent_link n blk o : 0 ≤ n →
spg_update_link p off n blk o =
if n <? zlen nodes then store p (lp_off (PageGetItemId p off) + node_pos pre nodes (Z.to_nat n)) (item_pointer blk o) else Err EError.
Proof using All.
intros Hn. pose proof (proj1 (Forall_lookup _ _) (sr_tuples _ _ _ _ _ Hp) _ _ Hk) as Ht. pose proof (st_min _ _ Ht) as Hm. change SGDTSIZE with 16 in Hm.
pose proof (sr_index _ _ _ _ _ Hp) as Hi. destruct (ip_item p its Hi off it Ho Hk) as (Hc & Hl & Hr & Hu & Hs & Hz).
pose proof (MAXALIGN_bounds (zlen it)). pose proof (wf_hdr _ (ip_wf _ _ Hi)) as []. unfold BLCKSZ in *.
unfold spg_update_link, spg_item. rewrite Hc. cbn [mbind res_bind].
apply (update_link_store it pre nodes post Hit (st_bytes _ _ Ht) p (lp_off (PageGetItemId p off)) ltac:(lia) ltac:(lia) Hr); [lia|done].
Qed.

(** Exactly one node of the tuple gets the new link. *)
Lemma update_link_spec n nd blk o : nodes !! n = Some nd →
∃ q it', spg_update_link p off (Z.of_nat n) blk o = Ok q ∧ inner_tuple it' pre (<[n := set_link blk o nd]> nodes) post ∧
tupstate it' 0 = SPGIST_LIVE ∧ zlen it' = zlen it ∧
spg_wf q fl (<[Z.to_nat (off - 1) := it']> its) ∧ capacity q (<[Z.to_nat (off - 1) := it']> its) = capacity p its.
Proof using All.
intros Hn. pose proof (proj1 (Forall_lookup _ _) (sr_tuples _ _ _ _ _ Hp) _ _ Hk) as Ht. pose proof (lookup_lt_Some _ _ _ Hn) as Hlt.
destruct (node_at it pre nodes post Hit (st_bytes _ _ Ht) n nd Hn) as (_ & Hpos & Hend & Hmin & _).
pose proof (set_link_tuple it pre nodes post n nd blk o Hit (st_bytes _ _ Ht) Hn) as Hit'. set (it' := mwrite it _ _) in *.
assert (Hst : tupstate it' 0 = SPGIST_LIVE) by (unfold tupstate, it'; by rewrite mwrite_word by lia).
assert (Hz' : zlen it' = zlen it) by (unfold it'; apply zlen_mwrite).
destruct (spg_write_spec p fl its _ _ off it (node_pos pre nodes n) (item_pointer blk o) Hp Ho Hk) as (q & He & Hq & Hc & _);
[lia|rewrite zlen_item_pointer; lia|apply item_pointer_bytes| |].
{ fold it'. rewrite Hfl in Ht |- *. constructor; [apply mwrite_byte; [apply Ht|apply item_pointer_bytes]|rewrite Hz'; apply Ht| |by rewrite Hst].
intros _. cbn. eauto. }
destruct (wf_count_write p fl its _ it (node_pos pre nodes n) (item_pointer blk o) Hp Hk) as [H1 H2]; [lia|].
exists q, it'. rewrite parent_link by lia. rewrite Nat2Z.id. rewrite (proj2 (Z.ltb_lt _ _)) by (unfold zlen; lia).
split_and!; [done|done|done|done| |done]. unfold spg_wf. fold it' in H1, H2. by rewrite H1, H2.
Qed.
End parent.
