(* ===== verification/SpgVacuum.v ===== *)
(** * Vacuum of SP-GiST pages

    The vacuum of a leaf page: tuples become dead or placeholders, live tuples
    move into the place of dead heads of their chains, and the chains are
    linked anew.  The vacuum of redirections: they become placeholders, and the
    placeholders at the end of the page go. *)

From Stdlib Require Import Sorted.
From stdpp Require Import sorting.
From S2P Require Import Prelude Mem Page PageAdd PageIndex PageCompact Buffer WalRecord HeapTuple HeapRedo TagList Btree BtreePage BtreeInsert IndexPage BtreeRedo HashRedo Gin Spg SpgRedo SpgPage.

(** ** Lookups by offset number *)

Definition tuple_no (its : list (list Z)) (o : Z) : option (list Z) := its !! Z.to_nat (o - 1).

Lemma kill_at f offs its o : 1 ≤ o →
  tuple_no (kill f offs its) o = (λ it, if bool_decide (o ∈ offs) then f o else it) <$> tuple_no its o.
Proof.
  intros Ho. unfold tuple_no, kill. rewrite list_lookup_imap. by replace (Z.of_nat (Z.to_nat (o - 1)) + 1) with o by lia.
Qed.

Lemma zlen_kill f offs its : zlen (kill f offs its) = zlen its.
Proof. unfold zlen, kill. by rewrite length_imap. Qed.

Lemma kill_other f offs its o : 1 ≤ o → o ∉ offs → tuple_no (kill f offs its) o = tuple_no its o.
Proof. intros Ho Hn. rewrite kill_at by done. rewrite bool_decide_false by done. by destruct (tuple_no its o). Qed.

Lemma kill_listed f offs its o : 1 ≤ o ≤ zlen its → o ∈ offs → tuple_no (kill f offs its) o = Some (f o).
Proof.
  intros Ho Hn. rewrite kill_at by lia. rewrite bool_decide_true by done. unfold tuple_no.
  destruct (lookup_lt_is_Some_2 its (Z.to_nat (o - 1))) as [it ->]; [unfold zlen in Ho; lia|done].
Qed.

Lemma tuple_no_swap i j its o : 1 ≤ i ≤ zlen its → 1 ≤ j ≤ zlen its → 1 ≤ o →
  tuple_no (swap_items i j its) o = tuple_no its (if decide (o = j) then i else if decide (o = i) then j else o).
Proof.
  intros Hi Hj Ho. unfold tuple_no. rewrite swap_items_lookup by done. f_equal. repeat case_decide; subst; lia || done.
Qed.

Lemma zlen_swap {A} i j (l : list A) : zlen (swap_items i j l) = zlen l.
Proof. unfold zlen, swap_items. repeat case_match; rewrite ?length_insert; done. Qed.

(** ** Moving tuples *)

Definition swaps (moves : list (Z * Z)) (its : list (list Z)) : list (list Z) := foldl (λ s '(i, j), swap_items i j s) its moves.

Lemma zlen_swaps moves : ∀ its, zlen (swaps moves its) = zlen its.
Proof. induction moves as [|[i j] moves IH]; intros its; [done|]. cbn [swaps foldl]. fold (swaps moves (swap_items i j its)). by rewrite IH, zlen_swap. Qed.

Definition moves_in (its : list (list Z)) (moves : list (Z * Z)) : Prop := Forall (λ m, 1 ≤ m.1 ≤ zlen its ∧ 1 ≤ m.2 ≤ zlen its) moves.

Lemma swaps_other moves : ∀ its o, moves_in its moves → 1 ≤ o → o ∉ (moves.*1) → o ∉ (moves.*2) → tuple_no (swaps moves its) o = tuple_no its o.
Proof.
  induction moves as [|[i j] moves IH]; intros its o Hin Ho H1 H2; [done|]. apply Forall_cons in Hin as [[Hi Hj] Hin]. cbn [fst snd] in Hi, Hj.
  rewrite fmap_cons, not_elem_of_cons in H1, H2. destruct H1 as [H1 H1'], H2 as [H2 H2']. cbn [fst snd] in *. cbn [swaps foldl].
  fold (swaps moves (swap_items i j its)). rewrite IH; [|unfold moves_in; by rewrite zlen_swap|done|done|done]. rewrite tuple_no_swap by done. by rewrite !decide_False by done.
Qed.

Lemma swaps_moved moves : ∀ its s d, moves_in its moves → NoDup (moves.*1 ++ moves.*2) → (s, d) ∈ moves →
  tuple_no (swaps moves its) d = tuple_no its s ∧ tuple_no (swaps moves its) s = tuple_no its d.
Proof.
  induction moves as [|[i j] moves IH]; intros its s d Hin Hnd Hm; [by apply not_elem_of_nil in Hm|].
  apply Forall_cons in Hin as [[Hi Hj] Hin]. cbn [fst snd] in Hi, Hj. rewrite !fmap_cons in Hnd. cbn [fst snd app] in Hnd.
  apply NoDup_cons in Hnd as [Hni Hnd]. rewrite <-Permutation_middle in Hnd. apply NoDup_cons in Hnd as [Hnj Hnd].
  rewrite not_elem_of_app, not_elem_of_cons in Hni. rewrite not_elem_of_app in Hnj. destruct Hni as (Hi1 & Hij & Hi2), Hnj as [Hj1 Hj2].
  assert (Hin' : moves_in (swap_items i j its) moves) by (unfold moves_in; by rewrite zlen_swap).
  cbn [swaps foldl]. fold (swaps moves (swap_items i j its)). apply elem_of_cons in Hm as [[= -> ->]|Hm].
  - rewrite !swaps_other by (done || lia). rewrite !tuple_no_swap by (done || lia). split; repeat case_decide; congruence.
  - destruct (IH (swap_items i j its) s d Hin' Hnd Hm) as [-> ->].
    assert (Hs : s ∈ moves.*1) by (apply list_elem_of_fmap; by exists (s, d)). assert (Hd : d ∈ moves.*2) by (apply list_elem_of_fmap; by exists (s, d)).
    rewrite Forall_forall in Hin. destruct (Hin _ Hm) as [Hsr Hdr]. cbn [fst snd] in Hsr, Hdr. rewrite !tuple_no_swap by (done || lia).
    rewrite !decide_False by (intros ->; done). done.
Qed.

Lemma count_perm ts a b : a ≡ₚ b → count_state ts a = count_state ts b.
Proof. induction 1; cbn [count_state]; lia. Qed.

Lemma swap_linps_spec fl moves : ∀ p its, spg_wf p fl its → moves_in its moves →
  ∃ q, swap_linps p moves = Ok q ∧ spg_wf q fl (swaps moves its) ∧ capacity q (swaps moves its) = capacity p its.
Proof.
  induction moves as [|[i j] moves IH]; intros p its Hp Hin; [by exists p|]. apply Forall_cons in Hin as [[Hi Hj] Hin]. cbn [fst snd] in Hi, Hj.
  cbn [swap_linps swaps foldl]. fold (swaps moves (swap_items i j its)). pose proof (sr_index _ _ _ _ _ Hp) as Hx.
  assert (Hc : ∀ o, 1 ≤ o ≤ zlen its → PageGetItemIdChecked p o = Ok (PageGetItemId p o)).
  { intros o Ho. destruct (lookup_lt_is_Some_2 its (Z.to_nat (o - 1))) as [it Hit]; [unfold zlen in Ho; lia|].
    by apply (ip_item p its Hx o it); [lia|]. }
  rewrite !Hc by done. cbn [mbind res_bind]. destruct (index_swap p its i j Hx Hi Hj) as (Hq & Hr & Hcap).
  assert (Hperm : swap_items i j its ≡ₚ its) by (by apply swap_items_perm).
  assert (Hq' : spg_wf (PageSetItemId (PageSetItemId p i (PageGetItemId p j)) j (PageGetItemId p i)) fl (swap_items i j its)).
  { unfold spg_wf. rewrite !(count_perm _ _ _ Hperm). apply (rep_items p _ fl its); [done..|]. rewrite Hperm. apply (sr_tuples _ _ _ _ _ Hp). }
  destruct (IH _ _ Hq') as (q & He & Hwq & Hcq); [unfold moves_in; by rewrite zlen_swap|]. exists q. split_and!; [done|done|lia].
Qed.

(** ** Linking the chains *)

Definition relink (chains : list (Z * Z)) (its : list (list Z)) : list (list Z) :=
  foldl (λ s '(o, next), alter (with_next next) (Z.to_nat (o - 1)) s) its chains.

Lemma set_chains_spec fl chains : ∀ p its, spg_wf p fl its → has_flag fl SPGIST_LEAF = true → Forall (λ c, 1 ≤ c.1 ≤ zlen its) chains →
  ∃ q, set_chains p chains = Ok q ∧ spg_wf q fl (relink chains its) ∧ capacity q (relink chains its) = capacity p its.
Proof.
  induction chains as [|[o next] chains IH]; intros p its Hp Hfl Hin; [by exists p|]. apply Forall_cons in Hin as [Ho Hin]. cbn [fst] in Ho.
  destruct (set_next_spec p fl its o next Hp Hfl Ho) as (p1 & He & Hp1 & Hc1). cbn [set_chains relink foldl]. rewrite He. cbn [mbind res_bind].
  fold (relink chains (alter (with_next next) (Z.to_nat (o - 1)) its)).
  destruct (IH p1 _ Hp1 Hfl) as (q & Hq & Hwq & Hcq); [unfold zlen; by rewrite length_alter|]. exists q. split_and!; [done|done|lia].
Qed.

(** ** The vacuum of a leaf page *)

Definition dead_of (ts : Z) : list Z := spgFormDeadTuple (mkSpGistState 0 false) ts InvalidBlockNumber InvalidOffsetNumber.

(** What the page holds after the moves, by offset number. *)
Record vacuumed (its moved : list (list Z)) (toDead toPlaceholder : list Z) (moves : list (Z * Z)) : Prop := {
  vd_len : zlen moved = zlen its;
  vd_dead o : o ∈ toDead → tuple_no moved o = Some (dead_of SPGIST_DEAD);
  vd_placeholder o : o ∈ toPlaceholder ++ (moves.*1) → tuple_no moved o = Some (dead_of SPGIST_PLACEHOLDER);
  vd_moved s d : (s, d) ∈ moves → tuple_no moved d = tuple_no its s;
  vd_other o : 1 ≤ o → o ∉ toDead ++ toPlaceholder ++ (moves.*1) ++ (moves.*2) → tuple_no moved o = tuple_no its o }.

(** Tuples that are replaced by dead ones of one kind. *)
Lemma kill_kind state ts first offs its : ts ≠ SPGIST_REDIRECT →
  kill (dead_for state first ts ts InvalidBlockNumber InvalidOffsetNumber) offs its = kill (λ _, dead_of ts) offs its.
Proof.
  intros Hts. unfold kill. apply imap_ext. intros k it _. cbn. destruct (bool_decide _); [|done]. unfold dead_for, dead_of, spgFormDeadTuple.
  destruct (_ =? first); by rewrite (proj2 (Z.eqb_neq _ _) Hts).
Qed.

Lemma kill_spec state ts p fl its offs : spg_wf p fl its → NoDup offs → Forall (listed uncounted its) offs → ts = SPGIST_DEAD ∨ ts = SPGIST_PLACEHOLDER →
  let its' := kill (λ _, dead_of ts) offs its in
  ∃ q, spgPageIndexMultiDelete state p offs ts ts InvalidBlockNumber InvalidOffsetNumber = Ok q ∧ spg_wf q fl its' ∧ capacity p its ≤ capacity q its'.
Proof.
  intros Hp Hnd Hl Hts its'. assert (1 ≤ ts ≤ 3 ∧ ts ≠ SPGIST_REDIRECT) as [H13 Hne] by (destruct Hts as [->| ->]; done).
  pose proof (multi_delete_spec state p fl its offs ts ts InvalidBlockNumber InvalidOffsetNumber Hp Hnd Hl H13 H13) as H. cbv zeta in H.
  by rewrite kill_kind in H.
Qed.

(** The tuples that are still what they were are still not counted. *)
Lemma listed_same P its its' l : Forall (listed P its) l → (∀ o, 1 ≤ o → o ∈ l → tuple_no its' o = tuple_no its o) → Forall (listed P its') l.
Proof.
  rewrite !Forall_forall. intros H Hsame o Ho. destruct (H o Ho) as (H1 & it & Hit & Hp). split; [done|]. exists it. split; [|done].
  specialize (Hsame o H1 Ho). unfold tuple_no in Hsame. by rewrite Hsame.
Qed.

Section vacuum.
Context (its : list (list Z)) (toDead toPlaceholder : list Z) (moves : list (Z * Z)).
Context (Hnd : NoDup (toDead ++ toPlaceholder ++ (moves.*1) ++ moves.*2)).
Context (Hdead : Forall (listed uncounted its) (toDead ++ toPlaceholder ++ moves.*2)).
Context (Hsrc : Forall (λ o, 1 ≤ o ≤ zlen its) moves.*1).

Let its1 := kill (λ _, dead_of SPGIST_DEAD) toDead its.
Let its2 := kill (λ _, dead_of SPGIST_PLACEHOLDER) toPlaceholder its1.
Let its3 := swaps moves its2.
Let its4 := kill (λ _, dead_of SPGIST_PLACEHOLDER) (moves.*1) its3.

Lemma vac_disjoint :
(∀ o, o ∈ toDead → (o ∉ toPlaceholder) ∧ (o ∉ moves.*1) ∧ (o ∉ moves.*2)) ∧
(∀ o, o ∈ toPlaceholder → (o ∉ toDead) ∧ (o ∉ moves.*1) ∧ (o ∉ moves.*2)) ∧
(∀ o, o ∈ moves.*1 → (o ∉ toDead) ∧ (o ∉ toPlaceholder) ∧ (o ∉ moves.*2)) ∧
(∀ o, o ∈ moves.*2 → (o ∉ toDead) ∧ (o ∉ toPlaceholder) ∧ (o ∉ moves.*1)) ∧
NoDup toDead ∧ NoDup toPlaceholder ∧ NoDup (moves.*1 ++ moves.*2).
Proof using Hnd.
pose proof Hnd as H. apply NoDup_app in H as (N1 & H1 & H). apply NoDup_app in H as (N2 & H2 & N3).
pose proof N3 as H. apply NoDup_app in H as (_ & H3 & _). clear -H1 H2 H3 N1 N2 N3.
setoid_rewrite elem_of_app in H1. setoid_rewrite elem_of_app in H1. setoid_rewrite elem_of_app in H2. split_and!; try done; intros o Ho; split_and!; intros Hx; naive_solver.
Qed.

Lemma vac_lens : zlen its2 = zlen its ∧ zlen its3 = zlen its ∧ zlen its4 = zlen its.
Proof using. unfold its4, its3, its2, its1. rewrite ?zlen_kill, ?zlen_swaps, ?zlen_kill. done. Qed.

Lemma vac_range : Forall (λ o, 1 ≤ o ≤ zlen its) (toDead ++ toPlaceholder ++ (moves.*1) ++ moves.*2).
Proof using Hdead Hsrc.
pose proof (listed_range _ _ _ Hdead) as Hr. rewrite !Forall_app in Hr |- *. destruct Hr as (? & ? & ?). split_and!; [done|done|]. apply Forall_app. done.
Qed.

Lemma vac_moves : moves_in its2 moves.
Proof using Hdead Hsrc.
unfold moves_in. rewrite (proj1 vac_lens). pose proof vac_range as Hr. rewrite !Forall_app in Hr. destruct Hr as (_ & _ & H1 & H2).
rewrite !Forall_forall in *. intros [s d] Hm. split; [apply H1|apply H2]; apply list_elem_of_fmap; by exists (s, d).
Qed.

(** Outside the tuples that were killed, the page is as before. *)
Lemma vac_its2 o : 1 ≤ o → o ∉ toDead → o ∉ toPlaceholder → tuple_no its2 o = tuple_no its o.
Proof using. intros Ho H1 H2. unfold its2, its1. by rewrite !kill_other by done. Qed.

Lemma vac_vacuumed : vacuumed its its4 toDead toPlaceholder moves.
Proof using All.
destruct vac_disjoint as (D1 & D2 & D3 & D4 & N1 & N2 & N3). pose proof vac_range as Hr. pose proof vac_moves as Hm. pose proof vac_lens as (L2 & L3 & L4).
rewrite Forall_forall in Hr. constructor; [done|..].
- intros o Ho. destruct (D1 o Ho) as (? & ? & ?). assert (1 ≤ o ≤ zlen its) by (apply Hr; rewrite !elem_of_app; rewrite ?elem_of_app in *; tauto).
unfold its4. rewrite kill_other by (done || lia). unfold its3. rewrite swaps_other by (done || lia). unfold its2. rewrite kill_other by (done || lia).
unfold its1. by rewrite kill_listed.
- intros o Ho. assert (1 ≤ o ≤ zlen its) by (apply Hr; rewrite !elem_of_app; rewrite ?elem_of_app in *; tauto). apply elem_of_app in Ho as [Ho|Ho].
+ destruct (D2 o Ho) as (? & ? & ?). unfold its4. rewrite kill_other by (done || lia). unfold its3. rewrite swaps_other by (done || lia).
unfold its2. rewrite kill_listed; [done| |done]. unfold its1. by rewrite zlen_kill.
+ unfold its4. rewrite kill_listed; [done| |done]. by rewrite L3.
- intros s d Hsd. assert (Hd : d ∈ moves.*2) by (apply list_elem_of_fmap; by exists (s, d)). assert (Hs : s ∈ moves.*1) by (apply list_elem_of_fmap; by exists (s, d)).
destruct (D4 d Hd) as (? & ? & ?), (D3 s Hs) as (? & ? & ?). assert (1 ≤ d ≤ zlen its ∧ 1 ≤ s ≤ zlen its) as [? ?] by (split; apply Hr; rewrite !elem_of_app; rewrite ?elem_of_app in *; tauto).
unfold its4. rewrite kill_other by (done || lia). unfold its3. rewrite (proj1 (swaps_moved moves its2 s d Hm N3 Hsd)). apply vac_its2; done || lia.
- intros o Ho Hn. rewrite !not_elem_of_app in Hn. destruct Hn as (? & ? & ? & ?). unfold its4. rewrite kill_other by done.
unfold its3. rewrite swaps_other by done. by apply vac_its2.
Qed.

(** What the next step kills is not counted. *)
Lemma vac_listed : Forall (listed uncounted its) toDead ∧ Forall (listed uncounted its1) toPlaceholder ∧ Forall (listed uncounted its3) (moves.*1).
Proof using All.
destruct vac_disjoint as (D1 & D2 & D3 & D4 & N1 & N2 & N3). pose proof vac_moves as Hm. pose proof Hdead as Hd. rewrite !Forall_app in Hd. destruct Hd as (Hd1 & Hd2 & Hd3).
split_and!; [done| |].
- apply (listed_same _ its); [done|]. intros o Ho Hin. unfold its1. apply kill_other; [done|]. by apply D2.
- rewrite Forall_forall in Hd3 |- *. intros s Hs. pose proof Hs as Hs'. apply list_elem_of_fmap in Hs' as ([s' d] & Hx & Hsd). cbn [fst] in Hx. subst s'.
assert (Hdin : d ∈ moves.*2) by (apply list_elem_of_fmap; by exists (s, d)). destruct (Hd3 d Hdin) as (Hd & it & Hit & Hu).
destruct (D4 d Hdin) as (? & ? & _). rewrite Forall_forall in Hsrc. pose proof (Hsrc s Hs) as Hr. cbn in Hr. split; [lia|]. exists it. split; [|done].
pose proof (proj2 (swaps_moved moves its2 s d Hm N3 Hsd)) as He. unfold tuple_no in He at 1. fold its3 in He. rewrite He, vac_its2 by done. exact Hit.
Qed.

(** The steps on the page. *)
Lemma vac_steps state p fl : spg_wf p fl its → ∃ p1 p2 p3 p4,
spgPageIndexMultiDelete state p toDead SPGIST_DEAD SPGIST_DEAD InvalidBlockNumber InvalidOffsetNumber = Ok p1 ∧
spgPageIndexMultiDelete state p1 toPlaceholder SPGIST_PLACEHOLDER SPGIST_PLACEHOLDER InvalidBlockNumber InvalidOffsetNumber = Ok p2 ∧
swap_linps p2 moves = Ok p3 ∧
spgPageIndexMultiDelete state p3 (moves.*1) SPGIST_PLACEHOLDER SPGIST_PLACEHOLDER InvalidBlockNumber InvalidOffsetNumber = Ok p4 ∧
spg_wf p4 fl its4 ∧ capacity p its ≤ capacity p4 its4.
Proof using All.
intros Hp. destruct vac_disjoint as (_ & _ & _ & _ & N1 & N2 & N3). destruct vac_listed as (L1 & L2 & L3). apply NoDup_app in N3 as [N3 _].
destruct (kill_spec state SPGIST_DEAD p fl its toDead Hp N1 L1) as (p1 & E1 & W1 & C1); [by left|].
destruct (kill_spec state SPGIST_PLACEHOLDER p1 fl its1 toPlaceholder W1 N2 L2) as (p2 & E2 & W2 & C2); [by right|].
destruct (swap_linps_spec fl moves p2 its2 W2 vac_moves) as (p3 & E3 & W3 & C3).
destruct (kill_spec state SPGIST_PLACEHOLDER p3 fl its3 (moves.*1) W3 N3 L3) as (p4 & E4 & W4 & C4); [by right|].
fold its1 in C1. fold its2 in C2. fold its3 in C3. fold its4 in C4.
exists p1, p2, p3, p4. split_and!; [done..|]. lia.
Qed.
End vacuum.

(** ** The record of a leaf vacuum *)

Definition offsets_bytes (l : list Z) : list Z := concat (le_bytes 2 <$> l).
Definition offsets_ok (l : list Z) : Prop := Forall (λ o, 0 ≤ o < 65536) l.

Lemma zlen_to_nat {A} (l : list A) : Z.to_nat (zlen l) = length l.
Proof. unfold zlen. lia. Qed.

Lemma rd_encoded n pre v post pos : zlen pre = pos → 0 ≤ v < 256 ^ Z.of_nat n → rd n (pre ++ le_bytes n v ++ post) pos = Ok v.
Proof.
  intros <- Hv. rewrite rd_ok; [|unfold zlen; lia|unfold zlen; rewrite !length_app, length_le_bytes; lia]. f_equal. unfold mget.
  rewrite <-(zlen_le_bytes n v). rewrite mread_middle, le_val_bytes. by apply Z.mod_small.
Qed.

Lemma rd2_app pre v post pos : zlen pre = pos → 0 ≤ v < 65536 → rd 2 (pre ++ le_bytes 2 v ++ post) pos = Ok v.
Proof. apply (rd_encoded 2). Qed.

Lemma zlen_offsets l : zlen (offsets_bytes l) = 2 * zlen l.
Proof.
  induction l as [|o l IH]; [done|]. unfold offsets_bytes in *. rewrite fmap_cons. cbn [concat]. unfold zlen in *. rewrite length_app, length_le_bytes.
  cbn [length]. lia.
Qed.

Lemma get_offsets_app l : ∀ pre post pos, zlen pre = pos → offsets_ok l →
  get_offsets (pre ++ offsets_bytes l ++ post) pos (length l) = Ok l.
Proof.
  induction l as [|o l IH]; intros pre post pos Hpos Hok; [done|]. apply Forall_cons in Hok as [Ho Hok]. cbn [length get_offsets].
  unfold offsets_bytes. rewrite fmap_cons. cbn [concat]. fold (offsets_bytes l). rewrite <-app_assoc, rd2_app by done. cbn [mbind res_bind].
  rewrite app_assoc. rewrite (IH (pre ++ le_bytes 2 o) post (pos + 2)); [done| |done]. unfold zlen in *. rewrite length_app, length_le_bytes. lia.
Qed.

Lemma get_offsets_at pre l post data pos n : data = pre ++ offsets_bytes l ++ post → zlen pre = pos → n = length l → offsets_ok l →
  get_offsets data pos n = Ok l.
Proof. intros -> Hpos -> Hok. by apply get_offsets_app. Qed.

Definition vacuum_leaf_data (state : list Z) (toDead toPlaceholder moveSrc moveDest chainSrc chainDest : list Z) : list Z :=
  le_bytes 2 (zlen toDead) ++ le_bytes 2 (zlen toPlaceholder) ++ le_bytes 2 (zlen moveSrc) ++ le_bytes 2 (zlen chainSrc) ++ state ++
  offsets_bytes toDead ++ offsets_bytes toPlaceholder ++ offsets_bytes moveSrc ++ offsets_bytes moveDest ++ offsets_bytes chainSrc ++
  offsets_bytes chainDest.

Section leaf_vacuum.
Context (p : page) (fl : Z) (its : list (list Z)) (state : SpGistState) (sb : list Z).
Context (toDead toPlaceholder moveSrc moveDest chainSrc chainDest : list Z).
Let data := vacuum_leaf_data sb toDead toPlaceholder moveSrc moveDest chainSrc chainDest.
Context (Hsb : zlen sb = 8).
Context (Hok : Forall offsets_ok [toDead; toPlaceholder; moveSrc; moveDest; chainSrc; chainDest]).
Context (Hsmall : Forall (λ l, zlen l < 65536) [toDead; toPlaceholder; moveSrc; chainSrc]).
Context (Hmv : length moveSrc = length moveDest) (Hch : length chainSrc = length chainDest).

(** The fields of the record. *)
Lemma vacuum_counts : rd 2 data 0 = Ok (zlen toDead) ∧ rd 2 data 2 = Ok (zlen toPlaceholder) ∧ rd 2 data 4 = Ok (zlen moveSrc) ∧ rd 2 data 6 = Ok (zlen chainSrc).
Proof using Hsmall.
rewrite !Forall_cons in Hsmall. destruct Hsmall as (H1 & H2 & H3 & H4 & _). unfold data, vacuum_leaf_data.
assert (Hn : ∀ l : list Z, 0 ≤ zlen l) by apply zlen_nonneg. split_and!.
- by apply (rd2_app []).
- by apply (rd2_app (le_bytes 2 (zlen toDead))).
- rewrite (app_assoc (le_bytes 2 (zlen toDead))). by apply rd2_app.
- rewrite (app_assoc (le_bytes 2 (zlen toDead))), app_assoc. by apply rd2_app.
Qed.

Let hdr := le_bytes 2 (zlen toDead) ++ le_bytes 2 (zlen toPlaceholder) ++ le_bytes 2 (zlen moveSrc) ++ le_bytes 2 (zlen chainSrc) ++ sb.

Lemma vacuum_arrays :
get_offsets data 16 (length toDead) = Ok toDead ∧
get_offsets data (16 + 2 * zlen toDead) (length toPlaceholder) = Ok toPlaceholder ∧
get_offsets data (16 + 2 * (zlen toDead + zlen toPlaceholder)) (length moveSrc) = Ok moveSrc ∧
get_offsets data (16 + 2 * (zlen toDead + zlen toPlaceholder + zlen moveSrc)) (length moveSrc) = Ok moveDest ∧
get_offsets data (16 + 2 * (zlen toDead + zlen toPlaceholder + 2 * zlen moveSrc)) (length chainSrc) = Ok chainSrc ∧
get_offsets data (16 + 2 * (zlen toDead + zlen toPlaceholder + 2 * zlen moveSrc + zlen chainSrc)) (length chainSrc) = Ok chainDest.
Proof using Hsb Hok Hmv Hch.
rewrite !Forall_cons in Hok. destruct Hok as (O1 & O2 & O3 & O4 & O5 & O6 & _).
assert (Hh : zlen hdr = 16) by (unfold hdr; unfold zlen in *; rewrite !length_app, !length_le_bytes; lia).
assert (Ha : ∀ a b : list Z, zlen (a ++ b) = zlen a + zlen b) by (intros; unfold zlen; rewrite length_app; lia).
assert (Hz : zlen moveDest = zlen moveSrc) by (unfold zlen; lia).
assert (Hd : data = hdr ++ offsets_bytes toDead ++ offsets_bytes toPlaceholder ++ offsets_bytes moveSrc ++ offsets_bytes moveDest ++ offsets_bytes chainSrc ++ offsets_bytes chainDest ++ []).
{ unfold data, vacuum_leaf_data, hdr. rewrite app_nil_r, <-!app_assoc. done. }
split_and!.
- by apply (get_offsets_at hdr toDead _ _ _ _ Hd).
- rewrite app_assoc in Hd. apply (get_offsets_at _ _ _ _ _ _ Hd); [rewrite Ha, zlen_offsets; lia|done|done].
- do 2 rewrite app_assoc in Hd. apply (get_offsets_at _ _ _ _ _ _ Hd); [rewrite !Ha, !zlen_offsets; lia|done|done].
- do 3 rewrite app_assoc in Hd. apply (get_offsets_at _ _ _ _ _ _ Hd); [rewrite !Ha, !zlen_offsets; lia|done|done].
- do 4 rewrite app_assoc in Hd. apply (get_offsets_at _ _ _ _ _ _ Hd); [rewrite !Ha, !zlen_offsets; lia|done|done].
- do 5 rewrite app_assoc in Hd. apply (get_offsets_at _ _ _ _ _ _ Hd); [rewrite !Ha, !zlen_offsets; lia|done|done].
Qed.

Context (Hp : spg_wf p fl its) (Hfl : has_flag fl SPGIST_LEAF = true) (Hnd : NoDup (toDead ++ toPlaceholder ++ moveSrc ++ moveDest)).
Context (Hdead : Forall (listed uncounted its) (toDead ++ toPlaceholder ++ moveDest)).
Context (Hsrc : Forall (λ o, 1 ≤ o ≤ zlen its) moveSrc) (Hchain : Forall (λ o, 1 ≤ o ≤ zlen its) chainSrc).

Lemma vacuum_leaf_page_spec : ∃ q moved, vacuum_leaf_page data state p = Ok q ∧
vacuumed its moved toDead toPlaceholder (zip moveSrc moveDest) ∧ spg_wf q fl (relink (zip chainSrc chainDest) moved) ∧
capacity p its ≤ capacity q (relink (zip chainSrc chainDest) moved).
Proof using All.
destruct vacuum_counts as (C1 & C2 & C3 & C4). destruct vacuum_arrays as (A1 & A2 & A3 & A4 & A5 & A6).
assert (Hf : (zip moveSrc moveDest).*1 = moveSrc) by (apply fst_zip; lia). assert (Hs : (zip moveSrc moveDest).*2 = moveDest) by (apply snd_zip; lia).
assert (Hcf : (zip chainSrc chainDest).*1 = chainSrc) by (apply fst_zip; lia).
set (moves := zip moveSrc moveDest) in *. rewrite <-Hf, <-Hs in Hnd. rewrite <-Hs in Hdead. rewrite <-Hf in Hsrc.
destruct (vac_steps its toDead toPlaceholder moves Hnd Hdead Hsrc state p fl Hp) as (p1 & p2 & p3 & p4 & E1 & E2 & E3 & E4 & W4 & Cap).
pose proof (vac_vacuumed its toDead toPlaceholder moves Hnd Hdead Hsrc) as Hv. set (moved := kill _ _ _) in *.
destruct (set_chains_spec fl (zip chainSrc chainDest) p4 moved W4 Hfl) as (q & Eq & Wq & Cq).
{ rewrite <-Hcf in Hchain. rewrite (vd_len _ _ _ _ _ Hv). by apply Forall_fmap in Hchain. }
exists q, moved. split_and!; [|done|done|lia]. unfold vacuum_leaf_page. rewrite C1, C2, C3, C4. cbn [mbind res_bind]. unfold SizeOfSpgxlogVacuumLeaf.
rewrite !zlen_to_nat, A1. cbn [mbind res_bind]. rewrite E1. cbn [mbind res_bind]. rewrite A2. cbn [mbind res_bind]. rewrite E2. cbn [mbind res_bind].
rewrite A3. cbn [mbind res_bind]. rewrite A4. cbn [mbind res_bind]. fold moves. rewrite E3. cbn [mbind res_bind]. rewrite Hf in E4. rewrite E4. cbn [mbind res_bind].
rewrite A5. cbn [mbind res_bind]. rewrite A6. cbn [mbind res_bind]. exact Eq.
Qed.
End leaf_vacuum.

(** ** The vacuum of redirections *)

Definition to_placeholder (it : list Z) : list Z :=
  mwrite (mwrite it 0 (le_bytes 4 (Z.lor (mget 4 it 0) SPGIST_PLACEHOLDER))) dead_pointer invalid_pointer.

Section placeholder.
Context (leaf : bool) (it : list Z) (Ht : spg_tuple leaf it) (Hst : tupstate it 0 = SPGIST_REDIRECT).

Lemma placeholder_len : zlen (to_placeholder it) = zlen it.
Proof using. unfold to_placeholder. by rewrite !zlen_mwrite. Qed.

Lemma lor_word : 0 ≤ Z.lor (mget 4 it 0) SPGIST_PLACEHOLDER < 4294967296.
Proof using Ht.
pose proof (mget_bound 4 it 0 (st_bytes _ _ Ht)) as Hb. change (256 ^ Z.of_nat 4) with (2 ^ 32) in Hb. change 4294967296 with (2 ^ 32).
assert (0 ≤ Z.lor (mget 4 it 0) SPGIST_PLACEHOLDER) by (apply Z.lor_nonneg; unfold SPGIST_PLACEHOLDER; lia). split; [done|].
apply Z.log2_lt_cancel. rewrite Z.log2_pow2, Z.log2_lor by (unfold SPGIST_PLACEHOLDER; lia). apply Z.max_lub_lt; [|done].
destruct (decide (mget 4 it 0 = 0)) as [->|]; [done|]. apply Z.log2_lt_pow2; lia.
Qed.

Lemma placeholder_word : mget 4 (to_placeholder it) 0 = Z.lor (mget 4 it 0) SPGIST_PLACEHOLDER.
Proof using Ht.
unfold to_placeholder. rewrite mwrite_word by (unfold dead_pointer; lia). pose proof (st_min _ _ Ht) as Hm. change SGDTSIZE with 16 in Hm.
apply (mget_mput4 it 0); [lia|lia|apply lor_word].
Qed.

Lemma placeholder_state : tupstate (to_placeholder it) 0 = SPGIST_PLACEHOLDER.
Proof using Ht. unfold tupstate. rewrite placeholder_word. rewrite Z.land_lor_distr_l. unfold SPGIST_PLACEHOLDER. rewrite Z.land_diag.
rewrite Z.lor_comm. apply Z.bits_inj'. intros n Hn. rewrite Z.lor_spec, Z.land_spec. destruct (Z.testbit 3 n), (Z.testbit (mget 4 it 0) n); done.
Qed.

Lemma placeholder_tuple : spg_tuple leaf (to_placeholder it).
Proof using Ht Hst.
constructor.
- unfold to_placeholder. apply mwrite_byte; [apply mwrite_byte; [apply Ht|apply le_bytes_byte]|apply item_pointer_bytes].
- rewrite placeholder_len. apply Ht.
- by rewrite placeholder_state.
- intros _. rewrite placeholder_len. rewrite <-(st_dead _ _ Ht) by (by rewrite Hst). unfold leaf_size. rewrite placeholder_word, Z.shiftr_lor.
change (Z.shiftr SPGIST_PLACEHOLDER 2) with 0. apply Z.lor_0_r.
Qed.
End placeholder.

Definition retire (offs : list Z) (its : list (list Z)) : list (list Z) :=
  foldl (λ s o, alter to_placeholder (Z.to_nat (o - 1)) s) its offs.

Definition is_redirect (it : list Z) : Prop := tupstate it 0 = SPGIST_REDIRECT.

Lemma zlen_retire offs : ∀ its, zlen (retire offs its) = zlen its.
Proof. induction offs as [|o offs IH]; intros its; [done|]. cbn [retire foldl]. fold (retire offs (alter to_placeholder (Z.to_nat (o - 1)) its)). rewrite IH. unfold zlen. by rewrite length_alter. Qed.

Lemma retire_at offs : ∀ its o, 1 ≤ o → NoDup offs → Forall (λ o, 1 ≤ o) offs →
  tuple_no (retire offs its) o = (λ it, if bool_decide (o ∈ offs) then to_placeholder it else it) <$> tuple_no its o.
Proof.
  induction offs as [|x offs IH]; intros its o Ho Hnd Hpos; [cbn [retire foldl]; rewrite bool_decide_false by set_solver; by destruct (tuple_no its o)|].
  apply NoDup_cons in Hnd as [Hx Hnd]. apply Forall_cons in Hpos as [Hx1 Hpos]. cbn [retire foldl]. fold (retire offs (alter to_placeholder (Z.to_nat (x - 1)) its)).
  rewrite IH by done. unfold tuple_no. destruct (decide (o = x)) as [->|Hne].
  - rewrite list_lookup_alter_eq, (bool_decide_false (x ∈ offs)), (bool_decide_true (x ∈ x :: offs)) by set_solver. by destruct (its !! _).
  - rewrite list_lookup_alter_ne by lia. destruct (its !! Z.to_nat (o - 1)); [|done]. cbn [fmap option_fmap option_map]. f_equal.
    rewrite (bool_decide_ext (o ∈ offs) (o ∈ x :: offs)); [done|]. rewrite elem_of_cons. tauto.
Qed.

(** One redirection. *)
Lemma retire_one p fl its r h o it : spg_rep p fl its r h → 1 ≤ o → its !! Z.to_nat (o - 1) = Some it → is_redirect it →
  let its' := <[Z.to_nat (o - 1) := to_placeholder it]> its in
  ∃ a w p1 q, spg_item p o = Ok a ∧ rd 4 p a = Ok w ∧ store p a (le_bytes 4 (Z.lor w SPGIST_PLACEHOLDER)) = Ok p1 ∧
    store p1 (a + dead_pointer) invalid_pointer = Ok q ∧ spg_rep q fl its' r h ∧ capacity q its' = capacity p its.
Proof.
  intros Hp Ho Hit Hst its'. pose proof (proj1 (Forall_lookup _ _) (sr_tuples _ _ _ _ _ Hp) _ _ Hit) as Ht. cbn in Ht.
  pose proof (st_min _ _ Ht) as Hm. change SGDTSIZE with 16 in Hm. pose proof (lookup_lt_Some _ _ _ Hit) as Hlt.
  destruct (spg_state_spec p fl its o it r h Hp Ho Hit) as (a & Ha & -> & Hrd).
  set (bs := le_bytes 4 (Z.lor (mget 4 it 0) SPGIST_PLACEHOLDER)).
  destruct (index_write p its o it 0 bs (sr_index _ _ _ _ _ Hp) Ho Hit) as (p1 & E1 & I1 & R1 & C1 & Hids);
    [lia|unfold bs; rewrite zlen_le_bytes; lia|apply le_bytes_byte|]. rewrite Z.add_0_r in E1.
  destruct (index_write p1 _ o (mwrite it 0 bs) dead_pointer invalid_pointer I1 Ho) as (q & E2 & I2 & R2 & C2 & _);
    [by rewrite list_lookup_insert_eq|unfold dead_pointer; lia|unfold invalid_pointer; rewrite zlen_item_pointer, zlen_mwrite; unfold dead_pointer; lia|apply item_pointer_bytes|].
  rewrite Hids in E2 by (unfold zlen; lia). rewrite list_insert_insert_eq in I2, C2.
  exists (lp_off (PageGetItemId p o)), (mget 4 it 0), p1, q. split_and!; [done|done|done|done| |by rewrite <-C1].
  apply (rep_items p q fl its); [done|by etrans|done|]. apply Forall_insert; [apply (sr_tuples _ _ _ _ _ Hp)|].
  by apply placeholder_tuple.
Qed.

Lemma to_placeholders_spec fl r h offs : ∀ p its, spg_rep p fl its r h → NoDup offs → Forall (listed is_redirect its) offs →
  ∃ q, to_placeholders p offs = Ok q ∧ spg_rep q fl (retire offs its) r h ∧ capacity q (retire offs its) = capacity p its ∧
    count_state SPGIST_REDIRECT (retire offs its) = count_state SPGIST_REDIRECT its - zlen offs ∧
    count_state SPGIST_PLACEHOLDER (retire offs its) = count_state SPGIST_PLACEHOLDER its + zlen offs.
Proof.
  induction offs as [|o offs IH]; intros p its Hp Hnd Hl.
  { exists p. cbn [retire foldl]. change (zlen (@nil Z)) with 0. split_and!; done || lia. }
  apply NoDup_cons in Hnd as [Ho Hnd]. apply Forall_cons in Hl as [(Ho1 & it & Hit & Hst) Hl].
  pose proof (proj1 (Forall_lookup _ _) (sr_tuples _ _ _ _ _ Hp) _ _ Hit) as Ht. cbn in Ht. pose proof (st_min _ _ Ht) as Hm. change SGDTSIZE with 16 in Hm.
  cbn [to_placeholders retire foldl]. fold (retire offs (alter to_placeholder (Z.to_nat (o - 1)) its)).
  destruct (retire_one p fl its r h o it Hp Ho1 Hit Hst) as (a & w & p1 & q1 & -> & Hrd & Hs1 & Hs2 & Hq1 & Hc1). cbn [mbind res_bind].
  rewrite Hrd. cbn [mbind res_bind]. rewrite Hs1. cbn [mbind res_bind]. rewrite Hs2. cbn [mbind res_bind]. rewrite (alter_as_insert _ _ _ _ Hit).
  destruct (IH q1 _ Hq1 Hnd) as (q & Hq & Hrep & Hc & Hcr & Hch).
  { apply (listed_same _ its); [done|]. intros x Hx Hin. unfold tuple_no. apply list_lookup_insert_ne. intros E. apply Ho. by replace o with x by lia. }
  assert (Hz : zlen (o :: offs) = 1 + zlen offs) by (unfold zlen; cbn [length]; lia). exists q. split_and!; [done|done|lia| |].
  - rewrite Hcr, (count_insert _ its _ it) by done. unfold has_state. rewrite Hst, (placeholder_state _ _ Ht).
    change (SPGIST_REDIRECT =? SPGIST_REDIRECT) with true. change (SPGIST_PLACEHOLDER =? SPGIST_REDIRECT) with false. cbv iota. lia.
  - rewrite Hch, (count_insert _ its _ it) by done. unfold has_state. rewrite Hst, (placeholder_state _ _ Ht).
    change (SPGIST_REDIRECT =? SPGIST_PLACEHOLDER) with false. change (SPGIST_PLACEHOLDER =? SPGIST_PLACEHOLDER) with true. cbv iota. lia.
Qed.

(** Removing the last tuples of a page. *)
Lemma delete_tail {A} n : ∀ (s : list A) first, 1 ≤ first → first + Z.of_nat n = zlen s + 1 →
  delete_slots (seqZ first (Z.of_nat n)) s = take (Z.to_nat (first - 1)) s.
Proof.
  induction n as [|n IH]; intros s first Hf Hn; [unfold zlen in Hn; cbn; rewrite take_ge by lia; done|].
  rewrite seqZ_cons by lia. replace (Z.pred (Z.of_nat (S n))) with (Z.of_nat n) by lia. replace (Z.succ first) with (first + 1) by lia.
  rewrite delete_slots_cons, IH by lia. replace (Z.to_nat (first + 1 - 1)) with (S (Z.to_nat (first - 1))) by lia.
  destruct (lookup_lt_is_Some_2 s (Z.to_nat (first - 1))) as [x Hx]; [unfold zlen in Hn; lia|]. rewrite (take_S_r _ _ _ Hx).
  rewrite delete_take_drop, take_app_length', drop_ge; [by rewrite app_nil_r|rewrite length_app, length_take; apply lookup_lt_Some in Hx; cbn [length]; lia|
    rewrite length_take; apply lookup_lt_Some in Hx; lia].
Qed.

Lemma seqZ_sorted n : ∀ first, StronglySorted Z.lt (seqZ first (Z.of_nat n)).
Proof.
  induction n as [|n IH]; intros first; [constructor|]. rewrite seqZ_cons by lia. replace (Z.pred (Z.of_nat (S n))) with (Z.of_nat n) by lia.
  constructor; [apply IH|]. apply Forall_forall. intros x Hx. apply elem_of_seqZ in Hx. lia.
Qed.

Lemma count_all ts its : Forall (λ it, tupstate it 0 = ts) its → count_state ts its = zlen its.
Proof. induction 1 as [|it its Hit _ IH]; [done|]. cbn [count_state]. unfold has_state. rewrite Hit, Z.eqb_refl, IH. unfold zlen. cbn [length]. lia. Qed.

Lemma count_none ts ts' its : ts ≠ ts' → Forall (λ it, tupstate it 0 = ts) its → count_state ts' its = 0.
Proof. intros Hne. induction 1 as [|it its Hit _ IH]; [done|]. cbn [count_state]. unfold has_state. by rewrite Hit, (proj2 (Z.eqb_neq _ _) Hne), IH. Qed.

(** The tuples that stay. *)
Definition trimmed (first : Z) (its : list (list Z)) : list (list Z) :=
  if first =? InvalidOffsetNumber then its else take (Z.to_nat (first - 1)) its.

Lemma trim_spec p fl its first : spg_wf p fl its → 0 ≤ first ≤ zlen its + 1 →
  (first ≠ InvalidOffsetNumber → Forall (λ it, tupstate it 0 = SPGIST_PLACEHOLDER) (drop (Z.to_nat (first - 1)) its)) →
  ∃ q, trim_placeholders p first = Ok q ∧ spg_wf q fl (trimmed first its) ∧ capacity p its ≤ capacity q (trimmed first its).
Proof.
  intros Hp Hf Hph. unfold trim_placeholders, trimmed. destruct (Z.eqb_spec first InvalidOffsetNumber) as [->|Hne]; [exists p; done || split_and!; done || lia|].
  specialize (Hph Hne). cbn [negb]. rewrite (ip_maxoff p its (sr_index _ _ _ _ _ Hp)). unfold InvalidOffsetNumber in Hne.
  set (n := zlen its - first + 1). set (keep := take (Z.to_nat (first - 1)) its).
  assert (Hsp : keep ++ drop (Z.to_nat (first - 1)) its = its) by apply take_drop.
  assert (Hd : zlen (drop (Z.to_nat (first - 1)) its) = n) by (unfold n, zlen in *; rewrite length_drop; lia).
  assert (Hcp : count_state SPGIST_PLACEHOLDER its = count_state SPGIST_PLACEHOLDER keep + n) by (rewrite <-Hsp, count_app, (count_all _ _ Hph), Hd; done).
  assert (Hcr : count_state SPGIST_REDIRECT its = count_state SPGIST_REDIRECT keep) by (rewrite <-Hsp, count_app, (count_none SPGIST_PLACEHOLDER SPGIST_REDIRECT _ ltac:(done) Hph); lia).
  pose proof (count_bound SPGIST_PLACEHOLDER keep). pose proof (count_bound SPGIST_PLACEHOLDER its). pose proof (rep_len _ _ _ _ _ Hp) as Hlen.
  change MaxIndexTuplesPerPage with 408 in Hlen.
  destruct (count_placeholder p fl its _ _ (- n) Hp) as (p1 & -> & Hp1 & Hc1); [lia|]. cbn [mbind res_bind].
  assert (Hn : n = Z.of_nat (Z.to_nat n)) by (unfold n, zlen in *; lia).
  destruct (index_multi_delete p1 its (seqZ first n) (sr_index _ _ _ _ _ Hp1)) as (q & He & Hi & Hr & Hc); [change MaxIndexTuplesPerPage with 408; lia| | |].
  { rewrite Hn. apply seqZ_sorted. } { apply Forall_forall. intros x Hx. apply elem_of_seqZ in Hx. unfold n in Hx. lia. }
  assert (Hdel : delete_slots (seqZ first n) its = keep) by (rewrite Hn; apply delete_tail; unfold n in *; lia).
  rewrite Hdel in *. exists q. split_and!; [done| |lia]. unfold spg_wf. replace (count_state SPGIST_PLACEHOLDER keep) with (count_state SPGIST_PLACEHOLDER its + - n) by lia.
  rewrite <-Hcr. apply (rep_items p1 q fl its); [done|done|done|]. apply Forall_take, (sr_tuples _ _ _ _ _ Hp).
Qed.

(** The record: [spgxlogVacuumRedirect]. *)
Definition vacuum_redirect_data (offs : list Z) (first : Z) (xid : list Z) : list Z :=
  le_bytes 2 (zlen offs) ++ le_bytes 2 first ++ xid ++ offsets_bytes offs.

Lemma vacuum_redirect_spec p fl its offs first xid : spg_wf p fl its → zlen xid = 4 → NoDup offs → Forall (listed is_redirect its) offs →
  0 ≤ first ≤ zlen its + 1 →
  (first ≠ InvalidOffsetNumber → Forall (λ it, tupstate it 0 = SPGIST_PLACEHOLDER) (drop (Z.to_nat (first - 1)) (retire offs its))) →
  let its' := trimmed first (retire offs its) in
  ∃ q, vacuum_redirect_page (vacuum_redirect_data offs first xid) p = Ok q ∧ spg_wf q fl its' ∧ capacity p its ≤ capacity q its'.
Proof.
  intros Hp Hx Hnd Hl Hf Hph its'. pose proof (rep_len _ _ _ _ _ Hp) as Hlen. change MaxIndexTuplesPerPage with 408 in Hlen.
  destruct (to_placeholders_spec fl _ _ offs p its Hp Hnd Hl) as (p1 & E1 & R1 & C1 & Hcr & Hch).
  pose proof (count_bound SPGIST_REDIRECT (retire offs its)) as B1. pose proof (count_bound SPGIST_PLACEHOLDER (retire offs its)) as B2.
  pose proof (count_bound SPGIST_REDIRECT its) as B3. pose proof (count_bound SPGIST_PLACEHOLDER its) as B4. pose proof (zlen_nonneg offs). rewrite zlen_retire in *.
  destruct (count_redirect p1 fl _ _ _ (- zlen offs) R1) as (p2 & E2 & R2 & C2); [lia|].
  destruct (count_placeholder p2 fl _ _ _ (zlen offs) R2) as (p3 & E3 & R3 & C3); [lia|].
  assert (W3 : spg_wf p3 fl (retire offs its)) by (unfold spg_wf; rewrite Hcr, Hch; exact R3).
  destruct (trim_spec p3 fl _ first W3) as (q & E4 & W4 & C4); [by rewrite zlen_retire|done|].
  exists q. split_and!; [|done|unfold its'; lia].
  assert (D0 : rd 2 (vacuum_redirect_data offs first xid) 0 = Ok (zlen offs)) by (apply (rd2_app []); [done|lia]).
  assert (D2 : rd 2 (vacuum_redirect_data offs first xid) 2 = Ok first) by (apply (rd2_app (le_bytes 2 (zlen offs))); [done|lia]).
  assert (D8 : get_offsets (vacuum_redirect_data offs first xid) 8 (length offs) = Ok offs).
  { apply (get_offsets_at (le_bytes 2 (zlen offs) ++ le_bytes 2 first ++ xid) offs []); [|unfold zlen in *; rewrite !length_app, !length_le_bytes; lia|done|].
    - unfold vacuum_redirect_data. by rewrite app_nil_r, <-!app_assoc.
    - pose proof (listed_range _ _ _ Hl) as Hr. eapply Forall_impl; [exact Hr|]. cbn. lia. }
  unfold vacuum_redirect_page, SizeOfSpgxlogVacuumRedirect. rewrite D0. cbn [mbind res_bind]. rewrite zlen_to_nat, D8. cbn [mbind res_bind].
  rewrite E1. cbn [mbind res_bind]. rewrite E2. cbn [mbind res_bind]. rewrite E3. cbn [mbind res_bind]. rewrite D2. exact E4.
Qed.
