(* ===== verification/SpgInsert.v ===== *)
(** * Inserting tuples on SP-GiST pages

    A new page, the tuples a record brings for a page, and the new link of a
    parent. *)

From Stdlib Require Import Sorted.
From S2P Require Import Prelude Mem Page PageAdd PageIndex PageCompact Buffer WalRecord HeapTuple HeapRedo TagList Btree BtreePage BtreeInsert IndexPage BtreeRedo HashRedo Gin Spg SpgRedo SpgPage SpgVacuum.

(** ** A new page *)

Lemma init_page_spec fl : 0 ≤ fl < 65536 → ∃ p, SpGistInitPage fl = Ok p ∧ spg_wf p fl [] ∧ capacity p [] = spg_special - 24.
Proof.
  intros Hfl. unfold SpGistInitPage. change (MAXALIGN sizeof_SpGistPageOpaqueData) with 8.
  assert (H8 : 0 ≤ 8 ≤ BLCKSZ - 24) by (unfold BLCKSZ; lia).
  pose proof (PageInit_wf 8 H8) as [Hw Hs]. pose proof (PageInit_fields 8 H8) as (_ & Hlo & Hup & Hsp & _).
  change (MAXALIGN 8) with 8 in *. set (p0 := PageInit BLCKSZ 8) in *.
  assert (Hz : zlen p0 = 8192) by (apply (wf_len _ (wf_hdr _ Hw))). unfold BLCKSZ in Hsp, Hup.
  cbv zeta. unfold PageGetSpecialPointer at 1. rewrite Hsp. change (8192 - 8) with 8184.
  change (replicate (Z.to_nat sizeof_SpGistPageOpaqueData) 0) with (repeat 0 8). unfold store.
  rewrite (proj2 (in_range_true _ _ _)) by (change (zlen (repeat 0 8)) with 8; lia). cbn [mbind res_bind]. set (p1 := mwrite p0 8184 _).
  assert (Hsw : special_write p0 p1).
  { constructor; [apply zlen_mwrite|intros; apply mwrite_byte; [done|repeat constructor; done]|]. intros o l Ho Hd. apply mread_mwrite_disj; [done|]. rewrite Hsp in Hd. lia. }
  pose proof (special_hdr p0 p1 Hw Hsw) as (Hl1 & Hu1 & Hs1 & _).
  assert (Hg : ∀ o, 8184 ≤ o → o + 2 ≤ 8192 → mget 2 p1 o = 0).
  { intros o Ho Ho'. unfold mget, p1. rewrite mread_mwrite_in by (change (zlen (repeat 0 8)) with 8; cbn; lia).
    assert (o - 8184 = 0 ∨ o - 8184 = 1 ∨ o - 8184 = 2 ∨ o - 8184 = 3 ∨ o - 8184 = 4 ∨ o - 8184 = 5 ∨ o - 8184 = 6) as Hc by lia.
    destruct Hc as [->|[->|[->|[->|[->|[->| ->]]]]]]; done. }
  assert (Hi : index_page p1 []) by (constructor; [exact (special_page_wf p0 p1 Hw Hsw)|by rewrite (special_slots p0 p1 Hw Hsw), Hs|constructor]).
  assert (Hsp1 : pd_special p1 = spg_special) by (rewrite Hs1, Hsp; done).
  destruct (spg_set_spec p1 [] Hi Hsp1 spg_flags fl) as (-> & I2 & S2 & C2 & R2 & V2); [unfold spg_flags; lia|]. cbn [mbind res_bind]. set (p2 := mput 2 p1 _ _) in *.
  destruct (spg_set_spec p2 [] I2 S2 spgist_page_id SPGIST_PAGE_ID) as (-> & I3 & S3 & C3 & R3 & V3); [unfold spgist_page_id; lia|]. set (p3 := mput 2 p2 _ _) in *.
  exists p3. change spg_special with 8184 in *. unfold spg_flags, spgist_page_id in *. split_and!; [done| |].
  - constructor; [done|done|constructor|..]; change spg_special with 8184; unfold spg_flags, nRedirection, nPlaceholder, spgist_page_id.
    + rewrite R3 by lia. by apply V2.
    + rewrite R3, R2, Hg by lia. done.
    + rewrite R3, R2, Hg by lia. done.
    + apply V3. unfold SPGIST_PAGE_ID. lia.
  - rewrite C3, C2. unfold capacity. rewrite Hl1, Hu1, Hlo, Hup. done.
Qed.

(** ** Tuples of a record *)

(** A leaf tuple as a record carries it. *)
Record logged_leaf (t : list Z) : Prop := {
  ll_tuple : spg_tuple true t;
  ll_live : tupstate t 0 = SPGIST_LIVE }.

Lemma logged_size t : logged_leaf t → leaf_size t 0 = zlen t ∧ 16 ≤ zlen t.
Proof. intros [Ht Hl]. split; [exact (st_live _ _ Ht Hl)|]. pose proof (st_min _ _ Ht) as Hm. by change SGDTSIZE with 16 in Hm. Qed.

Lemma leaf_header_app pre t post pos : zlen pre = pos → logged_leaf t → leaf_header (pre ++ t ++ post) pos = Ok (zlen t).
Proof.
  intros <- Ht. destruct (logged_size t Ht) as [Hs Hm]. unfold leaf_header, sizeof_SpGistLeafTupleData. pose proof (zlen_nonneg pre). pose proof (zlen_nonneg post).
  rewrite load_ok; [|lia|lia|unfold zlen in *; rewrite !length_app; lia]. cbn [mbind res_bind]. f_equal. rewrite <-Hs. unfold leaf_size, mget. do 2 f_equal.
  rewrite mread_mread by lia. rewrite Z.add_0_r. transitivity (mread (mread (pre ++ t ++ post) (zlen pre) (zlen t)) 0 (Z.of_nat 4)).
  - rewrite mread_mread by lia. by rewrite Z.add_0_r.
  - by rewrite mread_middle.
Qed.

Lemma load_field pre t post pos : zlen pre = pos → load (pre ++ t ++ post) pos (zlen t) = Ok t.
Proof.
  intros <-. pose proof (zlen_nonneg pre). pose proof (zlen_nonneg t). pose proof (zlen_nonneg post).
  rewrite load_ok; [by rewrite mread_middle|lia|lia|unfold zlen in *; rewrite !length_app; lia].
Qed.

(** Tuples that are put on a page one after the other. *)
Definition puts (l : list (Z * list Z)) (its : list (list Z)) : list (list Z) := foldl (λ s '(o, t), put_tuple o t s) its l.

(** Each of them finds a place: behind the last tuple or in place of a
    placeholder, with the room it takes. *)
Fixpoint puttable (cap : Z) (l : list (Z * list Z)) (its : list (list Z)) : Prop :=
  match l with
  | [] => True
  | (o, t) :: l =>
      1 ≤ o ≤ zlen its + 1 ∧ (o ≤ zlen its → is_state SPGIST_PLACEHOLDER its o) ∧ items_space (put_tuple o t its) ≤ cap ∧
      puttable cap l (put_tuple o t its)
  end.

Lemma put_step p fl its o t : spg_wf p fl its → has_flag fl SPGIST_LEAF = true → logged_leaf t → 1 ≤ o ≤ zlen its + 1 →
  (o ≤ zlen its → is_state SPGIST_PLACEHOLDER its o) → items_space (put_tuple o t its) ≤ capacity p its →
  ∃ q, addOrReplaceTuple p t o = Ok q ∧ spg_wf q fl (put_tuple o t its) ∧ capacity q (put_tuple o t its) = capacity p its.
Proof. intros Hp Hfl [Ht Hl] Ho Hph Hfit. apply put_tuple_spec; [done|by rewrite Hfl|done..]. Qed.

Lemma insert_leafs_spec fl offs : ∀ ts p its a b c d data ins ptr,
  spg_wf p fl its → has_flag fl SPGIST_LEAF = true → Forall logged_leaf ts → length offs = length ts → offsets_ok offs →
  puttable (capacity p its) (zip offs ts) its →
  data = a ++ offsets_bytes offs ++ b → zlen a = ins → data = c ++ concat ts ++ d → zlen c = ptr →
  ∃ q, insert_leafs p data ins ptr (length ts) = Ok q ∧ spg_wf q fl (puts (zip offs ts) its) ∧ capacity q (puts (zip offs ts) its) = capacity p its.
Proof.
  induction offs as [|o offs IH]; intros [|t ts] p its a b c d data ins ptr Hp Hfl Ht Hlen Hok Hput Ha Hai Hc Hcp; try done; [by exists p|].
  apply Forall_cons in Ht as [Ht Hts]. apply Forall_cons in Hok as [Ho Hok]. cbn [zip zip_with puttable] in Hput. destruct Hput as (Hr & Hph & Hfit & Hput).
  cbn [length insert_leafs]. cbn [concat] in Hc. rewrite <-app_assoc in Hc.
  assert (Hh : leaf_header data ptr = Ok (zlen t)) by (rewrite Hc; by apply leaf_header_app). rewrite Hh. cbn [mbind res_bind].
  assert (Hload : load data ptr (zlen t) = Ok t) by (rewrite Hc; by apply load_field). rewrite Hload. cbn [mbind res_bind]. unfold offsets_bytes in Ha. rewrite fmap_cons in Ha. cbn [concat] in Ha. fold (offsets_bytes offs) in Ha.
  rewrite <-app_assoc in Ha.
  assert (Hrd : rd 2 data ins = Ok o) by (rewrite Ha; by apply rd2_app). rewrite Hrd. cbn [mbind res_bind].
  destruct (put_step p fl its o t Hp Hfl Ht Hr Hph Hfit) as (p1 & -> & Hp1 & Hc1). cbn [mbind res_bind]. rewrite <-Hc1 in Hput.
  rewrite app_assoc in Ha, Hc.
  destruct (IH ts p1 _ _ b _ d data (ins + 2) (ptr + zlen t) Hp1 Hfl Hts ltac:(cbn in Hlen; lia) Hok Hput Ha ltac:(unfold zlen in *; rewrite length_app, length_le_bytes; lia) Hc
    ltac:(unfold zlen in *; rewrite length_app; lia)) as (q & Hq & Hwq & Hcq).
  exists q. split_and!; [done|done|]. cbn [zip zip_with puts foldl]. rewrite <-Hc1. exact Hcq.
Qed.

(** The tuples of a pick-split that go to the page in hand. *)
Definition picked (src dest : bool) (l : list (bool * (Z * list Z))) : list (Z * list Z) :=
  snd <$> filter (λ x : bool * (Z * list Z), (if x.1 then dest else src) = true) l.

Definition select_bytes (l : list bool) : list Z := (λ b : bool, if b then 1 else 0) <$> l.

Lemma rd_bool_app pre (b : bool) post pos : zlen pre = pos → rd_bool (pre ++ (if b then 1 else 0) :: post) pos = Ok b.
Proof.
  intros <-. unfold rd_bool. rewrite rd_ok; [|unfold zlen; lia|unfold zlen; rewrite length_app; cbn [length]; lia]. cbn [mbind res_bind].
  assert (Hg : mget 1 (pre ++ (if b then 1 else 0) :: post) (zlen pre) = if b then 1 else 0).
  { unfold mget. change (pre ++ (if b then 1 else 0) :: post) with (pre ++ [if b then 1 else 0] ++ post). change (Z.of_nat 1) with (zlen [if b then 1 else 0]).
    rewrite mread_middle. by destruct b. }
  rewrite Hg. by destruct b.
Qed.

Lemma pick_split_leafs_spec fl src dest offs : ∀ sel ts p its a b e f c d data ins selp ptr,
  spg_wf p fl its → has_flag fl SPGIST_LEAF = true → Forall logged_leaf ts → length offs = length ts → length sel = length ts → offsets_ok offs →
  puttable (capacity p its) (picked src dest (zip sel (zip offs ts))) its →
  data = a ++ offsets_bytes offs ++ b → zlen a = ins → data = e ++ select_bytes sel ++ f → zlen e = selp → data = c ++ concat ts ++ d → zlen c = ptr →
  let its' := puts (picked src dest (zip sel (zip offs ts))) its in
  ∃ q, pick_split_leafs p data ins selp ptr src dest (length ts) = Ok q ∧ spg_wf q fl its' ∧ capacity q its' = capacity p its.
Proof.
  induction offs as [|o offs IH]; intros [|s sel] [|t ts] p its a b e f c d data ins selp ptr Hp Hfl Ht Hlen Hslen Hok Hput Ha Hai He Hei Hc Hcp; try done; [by exists p|].
  apply Forall_cons in Ht as [Ht Hts]. apply Forall_cons in Hok as [Ho Hok].
  cbn [length pick_split_leafs]. cbn [concat] in Hc. rewrite <-app_assoc in Hc.
  assert (Hh : leaf_header data ptr = Ok (zlen t)) by (rewrite Hc; by apply leaf_header_app). rewrite Hh. cbn [mbind res_bind].
  unfold select_bytes in He. rewrite fmap_cons in He. fold (select_bytes sel) in He. cbn [app] in He. 
  assert (Hb : rd_bool data selp = Ok s) by (rewrite He; by apply rd_bool_app). rewrite Hb. cbn [mbind res_bind].
  assert (Hload : load data ptr (zlen t) = Ok t) by (rewrite Hc; by apply load_field).
  unfold offsets_bytes in Ha. rewrite fmap_cons in Ha. cbn [concat] in Ha. fold (offsets_bytes offs) in Ha. rewrite <-app_assoc in Ha.
  assert (Hrd : rd 2 data ins = Ok o) by (rewrite Ha; by apply rd2_app).
  rewrite app_assoc in Ha, Hc. replace (e ++ (if s then 1 else 0) :: select_bytes sel ++ f) with ((e ++ [if s then 1 else 0]) ++ select_bytes sel ++ f) in He by (by rewrite <-app_assoc).
  assert (Hnext : ∀ p1 its1, spg_wf p1 fl its1 → puttable (capacity p1 its1) (picked src dest (zip sel (zip offs ts))) its1 →
    ∃ q, pick_split_leafs p1 data (ins + 2) (selp + 1) (ptr + zlen t) src dest (length ts) = Ok q ∧
      spg_wf q fl (puts (picked src dest (zip sel (zip offs ts))) its1) ∧ capacity q (puts (picked src dest (zip sel (zip offs ts))) its1) = capacity p1 its1).
  { intros p1 its1 Hp1 Hput1. apply (IH sel ts p1 its1 (a ++ le_bytes 2 o) b (e ++ [if s then 1 else 0]) f (c ++ t) d data (ins + 2) (selp + 1) (ptr + zlen t) Hp1 Hfl Hts ltac:(cbn in Hlen; lia) ltac:(cbn in Hslen; lia) Hok Hput1 Ha
      ltac:(unfold zlen in *; rewrite length_app, length_le_bytes; lia) He ltac:(unfold zlen in *; rewrite length_app; cbn [length]; lia) Hc
      ltac:(unfold zlen in *; rewrite length_app; lia)). }
  unfold picked in Hput |- *. cbn [zip zip_with] in Hput |- *. rewrite filter_cons in Hput |- *. cbn [fst] in Hput |- *.
  destruct (if s then dest else src) eqn:Es.
  - rewrite decide_True in Hput |- * by done. rewrite fmap_cons in Hput |- *. cbn [snd] in Hput |- *. destruct Hput as (Hr & Hph & Hfit & Hput).
    rewrite Hload. cbn [mbind res_bind]. rewrite Hrd. cbn [mbind res_bind]. destruct (put_step p fl its o t Hp Hfl Ht Hr Hph Hfit) as (p1 & -> & Hp1 & Hc1).
    cbn [mbind res_bind]. rewrite <-Hc1 in Hput. destruct (Hnext p1 _ Hp1 Hput) as (q & Hq & Hwq & Hcq). exists q. split_and!; [done|done|]. rewrite <-Hc1. exact Hcq.
  - rewrite decide_False in Hput |- * by done. cbn [mbind res_bind]. by apply Hnext.
Qed.
