(* ===== verification/SpgSpec.v ===== *)
(** * The theorems of SP-GiST replay

    Each is about the dispatcher of [spgxlog_idx.c] on a page in the buffer
    pool: which tuples the page holds afterwards, at which offset numbers, and
    that its counters are right. *)

From Stdlib Require Import Sorted.
From S2P Require Import Prelude Mem Page PageAdd PageIndex PageCompact Checksum Buffer WalRecord HeapTuple HeapRedo Resident TagList Btree BtreePage BtreeInsert IndexPage BtreeRedo HashRedo Gin Spg SpgRedo SpgPage SpgVacuum SpgInsert.

(** ** Pages in the pool *)

Lemma wf_set_lsn p fl its lsn : spg_wf p fl its → spg_wf (PageSetLSN p lsn) fl its ∧ capacity (PageSetLSN p lsn) its = capacity p its.
Proof.
  intros [[Hw Hs Hg] Hsp Ht Hf Hr Hh Hi]. pose proof (frame_lsn p lsn) as Hfr. set (q := PageSetLSN p lsn) in *.
  assert (Hm : ∀ o, 24 ≤ o → mget 2 q o = mget 2 p o) by (intros; unfold mget; by rewrite (fr_body _ _ Hfr)).
  assert (Hrange : 24 ≤ spg_special) by (unfold spg_special, BLCKSZ, sizeof_SpGistPageOpaqueData; lia). split.
  - constructor; [|by rewrite (fr_special _ _ Hfr)|done|..];
      [constructor; [exact (frame_wf p q Hfr Hw)|by rewrite (frame_slots p q Hfr Hw)|done]|..];
      rewrite Hm by (unfold spg_flags, nRedirection, nPlaceholder, spgist_page_id; lia); done.
  - unfold capacity. by rewrite (fr_lower _ _ Hfr), (fr_upper _ _ Hfr).
Qed.

Lemma spg_not_new p fl its : spg_wf p fl its → PageIsNew p = false.
Proof.
  intros Hp. pose proof (wf_hdr _ (ip_wf _ _ (sr_index _ _ _ _ _ Hp))) as []. unfold PageIsNew. apply Z.eqb_neq. lia.
Qed.

Lemma wf_lsn_set p fl its lsn : spg_wf p fl its → 0 ≤ lsn < 2 ^ 64 → PageGetLSN (PageSetLSN p lsn) = lsn.
Proof.
  intros Hp Hl. apply PageGetSetLSN; [|done]. rewrite (wf_len _ (wf_hdr _ (ip_wf _ _ (sr_index _ _ _ _ _ Hp)))). unfold BLCKSZ. lia.
Qed.

(** The redo of a page changed the page, which is now as given. *)
Definition redone (st : dbstate) (r : XLogReaderState) (tag : BufferTag) (fl : Z) (its : list (list Z)) (cap : Z) (out : redo_result) : Prop :=
  ∃ q, out = Ok (buf_write st (Some tag) q, Some tag, BLK_NEEDS_REDO) ∧ spg_wf q fl its ∧ PageGetLSN q = EndRecPtr r ∧ cap ≤ capacity q its.

(** A page of the record that is read, older than the record. *)
Record to_redo (st : dbstate) (r : XLogReaderState) (id : Z) (tag : BufferTag) (p : page) (fl : Z) (its : list (list Z)) : Prop := {
  tr_ref : plain_ref r id tag;
  tr_resident : resident st tag p;
  tr_wf : spg_wf p fl its;
  tr_old : PageGetLSN p < EndRecPtr r;
  tr_lsn : 0 ≤ EndRecPtr r < 2 ^ 64 }.

Lemma redo_page st r id tag p fl its its' f q : to_redo st r id tag p fl its → f p = Ok q → spg_wf q fl its' → capacity p its ≤ capacity q its' →
  redone st r tag fl its' (capacity p its) (redo_read st r id false (λ p, with_lsn r (f p))).
Proof.
  intros [Href Hres Hp Hold Hlsn] Hf Hq Hc. destruct (wf_set_lsn q fl its' (EndRecPtr r) Hq) as [Hq' Hc'].
  exists (PageSetLSN q (EndRecPtr r)). split_and!; [|done|by eapply wf_lsn_set|lia].
  apply (on_redo_resident _ _ _ _ p); [done|done|by eapply spg_not_new|done|]. unfold with_lsn. by rewrite Hf.
Qed.

(** The same for a page that may have to be set up first. *)
Definition to_insert (init : bool) (st : dbstate) (r : XLogReaderState) (id : Z) (tag : BufferTag) (fl : Z) (its : list (list Z)) (cap : Z) : Prop :=
  if init then (∃ p, resident st tag p) ∧ init_ref r id tag ∧ its = [] ∧ cap = spg_special - 24 ∧ 0 ≤ fl < 65536 ∧ 0 ≤ EndRecPtr r < 2 ^ 64
  else ∃ p, to_redo st r id tag p fl its ∧ cap = capacity p its.

Lemma insert_page init st r id tag flags fl its its' cap f : to_insert init st r id tag fl its cap → (init = true → fl = flags) →
  (∀ p, spg_wf p fl its → capacity p its = cap → ∃ q, f p = Ok q ∧ spg_wf q fl its' ∧ cap ≤ capacity q its') →
  redone st r tag fl its' cap (spg_page init st r id None flags f).
Proof.
  intros Hi Hfl Hf. unfold spg_page. destruct init; cbn in Hi.
  - destruct Hi as ([p Hres] & Href & -> & -> & Hr & Hlsn). rewrite <-(Hfl eq_refl). destruct (init_page_spec fl Hr) as (p0 & He & Hp0 & Hc0).
    destruct (Hf p0 Hp0 Hc0) as (q & Hq & Hwq & Hcq). destruct (wf_set_lsn q fl its' (EndRecPtr r) Hwq) as [Hq' Hc'].
    exists (PageSetLSN q (EndRecPtr r)). split_and!; [|done|by eapply wf_lsn_set|lia]. unfold redo_init. rewrite (init_resident st r id tag p) by done.
    cbn [mbind res_bind]. rewrite (resident_page _ _ _ Hres). cbn [mbind res_bind]. rewrite He. cbn [mbind res_bind]. by rewrite Hq.
  - destruct Hi as (p & Hr & ->). destruct (Hf p (tr_wf _ _ _ _ _ _ _ Hr) eq_refl) as (q & Hq & Hwq & Hcq). by eapply redo_page.
Qed.

(** ** Moving leaf tuples *)

Definition bit (b : bool) : Z := if b then 1 else 0.
Definition state_bytes (state : SpGistState) : list Z := le_bytes 4 (myXid state) ++ [bit (isBuild state); 0; 0; 0].

(** [spgxlogMoveLeafs] with its arrays. *)
Definition move_leafs_data (newPage replaceDead storesNulls : bool) (offnumParent nodeI : Z) (state : SpGistState) (toDelete toInsert : list Z)
  (ts : list (list Z)) : list Z :=
  le_bytes 2 (zlen toDelete) ++ [bit newPage; bit replaceDead; bit storesNulls; 0] ++ le_bytes 2 offnumParent ++ le_bytes 2 nodeI ++ [0; 0] ++
  state_bytes state ++ offsets_bytes toDelete ++ offsets_bytes toInsert ++ concat ts.

Lemma fake_state_app pre state post pos : zlen pre = pos → 0 ≤ myXid state < 2 ^ 32 → fillFakeState (pre ++ state_bytes state ++ post) pos = Ok state.
Proof.
  intros <- Hx. unfold fillFakeState, state_bytes. rewrite <-app_assoc, rd_encoded by done. cbn [mbind res_bind].
  change ([bit (isBuild state); 0; 0; 0] ++ post) with ((if isBuild state then 1 else 0) :: [0; 0; 0] ++ post). rewrite app_assoc.
  assert (Hb : rd_bool ((pre ++ le_bytes 4 (myXid state)) ++ (if isBuild state then 1 else 0) :: [0; 0; 0] ++ post) (zlen pre + 4) = Ok (isBuild state)).
  { apply rd_bool_app. unfold zlen. rewrite length_app, length_le_bytes. lia. }
  unfold rd_bool in Hb. destruct (rd 1 _ _) as [v|]; cbn [mbind res_bind] in Hb |- *; [|done]. apply Ok_inj in Hb as ->. by destruct state.
Qed.

Section move.
Context (r : XLogReaderState) (newPage replaceDead storesNulls : bool) (offnumParent nodeI : Z) (state : SpGistState) (toDelete toInsert : list Z) (ts : list (list Z)).
Let data := move_leafs_data newPage replaceDead storesNulls offnumParent nodeI state toDelete toInsert ts.
Context (Hdata : main_data r = data) (Hx : 0 ≤ myXid state < 2 ^ 32) (Hn : zlen toDelete < 65536).
Context (Hpar : 0 ≤ offnumParent < 65536) (Hnode : 0 ≤ nodeI < 65536) (Hdel : offsets_ok toDelete) (Hins : offsets_ok toInsert).
Context (Hlen : length toInsert = if replaceDead then 1%nat else S (length toDelete)).

Lemma move_fields :
rd 2 data 0 = Ok (zlen toDelete) ∧ rd_bool data 2 = Ok newPage ∧ rd_bool data 3 = Ok replaceDead ∧ rd_bool data 4 = Ok storesNulls ∧
rd 2 data 6 = Ok offnumParent ∧ rd 2 data 8 = Ok nodeI ∧ fillFakeState data 12 = Ok state ∧ (if replaceDead then 1 else zlen toDelete + 1) = zlen toInsert.
Proof using All.
pose proof (zlen_nonneg toDelete). split_and!.
- by apply (rd2_app []).
- by apply (rd_bool_app (le_bytes 2 (zlen toDelete))).
- by apply (rd_bool_app (le_bytes 2 (zlen toDelete) ++ [bit newPage])).
- by apply (rd_bool_app (le_bytes 2 (zlen toDelete) ++ [bit newPage; bit replaceDead])).
- by apply (rd2_app (le_bytes 2 (zlen toDelete) ++ [bit newPage; bit replaceDead; bit storesNulls; 0])).
- by apply (rd2_app (le_bytes 2 (zlen toDelete) ++ [bit newPage; bit replaceDead; bit storesNulls; 0] ++ le_bytes 2 offnumParent)).
- by apply (fake_state_app (le_bytes 2 (zlen toDelete) ++ [bit newPage; bit replaceDead; bit storesNulls; 0] ++ le_bytes 2 offnumParent ++ le_bytes 2 nodeI ++ [0; 0])).
- unfold zlen. rewrite Hlen. destruct replaceDead; lia.
Qed.

Let hdr := le_bytes 2 (zlen toDelete) ++ [bit newPage; bit replaceDead; bit storesNulls; 0] ++ le_bytes 2 offnumParent ++ le_bytes 2 nodeI ++ [0; 0] ++ state_bytes state.

Lemma move_split : data = hdr ++ offsets_bytes toDelete ++ offsets_bytes toInsert ++ concat ts ++ [] ∧ zlen hdr = 20.
Proof using. unfold data, move_leafs_data, hdr. rewrite app_nil_r, <-!app_assoc. done. Qed.

Lemma move_arrays ins last : toInsert = ins ++ [last] →
get_offsets data 20 (length toDelete) = Ok toDelete ∧ rd 2 data (20 + 2 * zlen toDelete + 2 * (zlen toInsert - 1)) = Ok last.
Proof using All.
intros Hl. destruct move_split as [Hd Hh]. split.
- by apply (get_offsets_at hdr _ _ _ _ _ Hd).
- assert (Ho : 0 ≤ last < 65536). { unfold offsets_ok in Hins. rewrite Hl, Forall_app, Forall_cons in Hins. tauto. }
rewrite Hl in Hd. unfold offsets_bytes in Hd at 2. rewrite fmap_app, concat_app in Hd. fold (offsets_bytes ins) in Hd. cbn [fmap list_fmap concat] in Hd.
rewrite <-!app_assoc in Hd. do 2 rewrite app_assoc in Hd. rewrite Hd. rewrite app_nil_l. apply rd2_app; [|done].
unfold zlen in *. rewrite !length_app. pose proof (zlen_offsets toDelete) as H1. pose proof (zlen_offsets ins) as H2. unfold zlen in H1, H2. rewrite Hl, length_app. cbn [length]. lia.
Qed.

(** The pages of the record. *)
Context (st : dbstate) (src dst parent : BufferTag).
Context (Hinfo : rec_info r = XLOG_SPGIST_MOVE_LEAFS) (H0 : XLogRecGetBlockTag r 0 = Some src) (H1 : XLogRecGetBlockTag r 1 = Some dst) (H2 : XLogRecGetBlockTag r 2 = Some parent).
Context (Hsd : src ≠ dst) (Hsp : src ≠ parent) (Hdp : dst ≠ parent).

(** What the handler does for each page. *)
Lemma move_cases last ins : toInsert = ins ++ [last] →
polar_spg_idx_redo st r dst None =
spg_page newPage st r 1 None (leaf_flags storesNulls) (λ p, insert_leafs p data (20 + 2 * zlen toDelete) (20 + 2 * zlen toDelete + 2 * zlen toInsert) (length toInsert)) ∧
polar_spg_idx_redo st r src None =
redo_read st r 0 false (λ p, with_lsn r (spgPageIndexMultiDelete state p toDelete (if isBuild state then SPGIST_PLACEHOLDER else SPGIST_REDIRECT) SPGIST_PLACEHOLDER (blockNum dst) last)) ∧
polar_spg_idx_redo st r parent None = redo_read st r 2 false (λ p, with_lsn r (spg_update_link p offnumParent nodeI (blockNum dst) last)).
Proof using All.
intros Hl. destruct move_fields as (F0 & F2 & F3 & F4 & F6 & F8 & Fs & Fn). destruct (move_arrays ins last Hl) as [A1 A2].
apply log_tag in H0 as T0. apply log_tag in H1 as T1. apply log_tag in H2 as T2.
assert (Hd : ∀ t, polar_spg_idx_redo st r t None = polar_spg_redo_move_leafs st r t None) by (intros t; unfold polar_spg_idx_redo; by rewrite Hinfo).
rewrite !Hd. unfold polar_spg_redo_move_leafs, tag_or_uninit, SizeOfSpgxlogMoveLeafs. rewrite H1, Hdata. cbn [mbind res_bind].
rewrite Fs. cbn [mbind res_bind]. rewrite F0. cbn [mbind res_bind]. rewrite F3. cbn [mbind res_bind]. rewrite Fn, T1. cbn [mbind res_bind].
rewrite tags_equal_refl, (proj1 (tags_neq src dst Hsd)), (proj2 (tags_neq dst parent Hdp)), F2, F4. cbn [mbind res_bind].
rewrite T0. cbn [mbind res_bind]. rewrite tags_equal_refl, (proj2 (tags_neq src parent Hsp)), T2. cbn [mbind res_bind]. rewrite tags_equal_refl.
split_and!; [by rewrite zlen_to_nat| |].
- rewrite zlen_to_nat, A1, A2. done.
- rewrite F6, F8, A2. done.
Qed.
End move.

(** The tuple that was put last is where it was put. *)
Lemma puts_last cap l : ∀ its o t, puttable cap (l ++ [(o, t)]) its → tuple_no (puts (l ++ [(o, t)]) its) o = Some t.
Proof.
  induction l as [|[o' t'] l IH]; intros its o t Hp.
  - cbn [app puttable puts foldl] in *. destruct Hp as (Ho & _). unfold put_tuple, tuple_no. destruct (Z.leb_spec o (zlen its)).
    + apply list_lookup_insert_eq. unfold zlen in *. lia.
    + unfold zlen in *. rewrite lookup_app_r by lia. by replace (Z.to_nat (o - 1) - length its)%nat with 0%nat by lia.
  - cbn [app puttable] in Hp. destruct Hp as (_ & _ & _ & Hp). exact (IH _ o t Hp).
Qed.

(** A record that moves leaf tuples: block 0 is the source, block 1 the
    destination, block 2 the parent; [ins] and [last] are the offset numbers of
    the tuples [ts] and [t] on the destination. *)
Record move_record (r : XLogReaderState) (newPage replaceDead storesNulls : bool) (offnumParent nodeI : Z) (state : SpGistState)
  (toDelete ins : list Z) (last : Z) (ts : list (list Z)) (t : list Z) (src dst parent : BufferTag) : Prop := {
  mr_info : rec_info r = XLOG_SPGIST_MOVE_LEAFS;
  mr_data : main_data r = move_leafs_data newPage replaceDead storesNulls offnumParent nodeI state toDelete (ins ++ [last]) (ts ++ [t]);
  mr_xid : 0 ≤ myXid state < 2 ^ 32;
  mr_small : zlen toDelete < 65536;
  mr_parent : 0 ≤ offnumParent < 65536;
  mr_node : 0 ≤ nodeI < 65536;
  mr_del : offsets_ok toDelete;
  mr_ins : offsets_ok (ins ++ [last]);
  mr_count : length (ins ++ [last]) = if replaceDead then 1%nat else S (length toDelete);
  mr_tuples : length (ins ++ [last]) = length (ts ++ [t]);
  mr_src : XLogRecGetBlockTag r 0 = Some src;
  mr_dst : XLogRecGetBlockTag r 1 = Some dst;
  mr_par : XLogRecGetBlockTag r 2 = Some parent;
  mr_distinct : NoDup [src; dst; parent] }.

(** Replay of a record that moves leaf tuples of an SP-GiST index to
    another page, on its three pages.  The destination, set up first when the
    record says so, holds the moved tuples at their offset numbers, the new
    tuple being the last of them.  On the source every listed tuple is replaced by a
    dead one, so that all others keep their offset numbers; the first one
    becomes a redirection to the last tuple inserted (a placeholder while the
    index is built).  In the parent tuple exactly the given node gets the same
    link.  So neither the redirection nor the downlink dangles. *)
Theorem spg_move_leafs_redo st r newPage replaceDead storesNulls offnumParent nodeI state toDelete ins last ts t src dst parent
  fd dits cap ps fs sits pp fp pits it pre nodes post nd :
  move_record r newPage replaceDead storesNulls offnumParent nodeI state toDelete ins last ts t src dst parent →
  to_insert newPage st r 1 dst fd dits cap → (newPage = true → fd = leaf_flags storesNulls) → has_flag fd SPGIST_LEAF = true →
  Forall logged_leaf (ts ++ [t]) → puttable cap (zip ins ts ++ [(last, t)]) dits →
  to_redo st r 0 src ps fs sits → NoDup toDelete → Forall (listed uncounted sits) toDelete →
  to_redo st r 2 parent pp fp pits → has_flag fp SPGIST_LEAF = false → 1 ≤ offnumParent → tuple_no pits offnumParent = Some it →
  tupstate it 0 = SPGIST_LIVE → inner_tuple it pre nodes post → nodes !! Z.to_nat nodeI = Some nd →
  let first := if isBuild state then SPGIST_PLACEHOLDER else SPGIST_REDIRECT in
  let moved := puts (zip ins ts ++ [(last, t)]) dits in
  redone st r dst fd moved cap (polar_spg_idx_redo st r dst None) ∧ tuple_no moved last = Some t ∧
  redone st r src fs (kill (dead_for state (hd 0 toDelete) first SPGIST_PLACEHOLDER (blockNum dst) last) toDelete sits) (capacity ps sits)
    (polar_spg_idx_redo st r src None) ∧
  ∃ it', inner_tuple it' pre (<[Z.to_nat nodeI := set_link (blockNum dst) last nd]> nodes) post ∧
    redone st r parent fp (<[Z.to_nat (offnumParent - 1) := it']> pits) (capacity pp pits) (polar_spg_idx_redo st r parent None).
Proof.
  intros [] Hins Hfd Hleaf Hts Hput Hsrc Hnd Hdel Hpar Hfp Hop Hit Hlive Hin Hnode first moved.
  apply NoDup_cons in mr_distinct0 as [Hsn Hdn]. rewrite !not_elem_of_cons in Hsn. apply NoDup_cons in Hdn as [Hdn _]. rewrite not_elem_of_cons in Hdn.
  destruct Hsn as (Hsd & Hsp & _), Hdn as [Hdp _].
  destruct (move_cases r newPage replaceDead storesNulls offnumParent nodeI state toDelete (ins ++ [last]) (ts ++ [t]) mr_data0 mr_xid0 mr_small0 mr_parent0 mr_node0
    mr_del0 mr_ins0 mr_count0 st src dst parent mr_info0 mr_src0 mr_dst0 mr_par0 Hsd Hsp Hdp last ins eq_refl) as (Ed & Es & Ep).
  rewrite Ed, Es, Ep. assert (Hzip : zip (ins ++ [last]) (ts ++ [t]) = zip ins ts ++ [(last, t)]).
  { rewrite zip_with_app; [done|]. rewrite !length_app in mr_tuples0. cbn [length] in mr_tuples0. lia. }
  destruct (move_split newPage replaceDead storesNulls offnumParent nodeI state toDelete (ins ++ [last]) (ts ++ [t])) as [Hd Hh].
  assert (Hz : ∀ a b : list Z, zlen (a ++ b) = zlen a + zlen b) by (intros; unfold zlen; rewrite length_app; lia).
  split_and!.
  - eapply insert_page; [done|done|]. intros p Hp Hc. rewrite mr_tuples0. rewrite app_assoc in Hd.
    pose proof Hd as Hd'. rewrite app_assoc in Hd'.
    edestruct insert_leafs_spec as (q & Hq & Hwq & Hcq); [exact Hp|exact Hleaf|exact Hts|exact mr_tuples0|exact mr_ins0| |exact Hd| |exact Hd'| |].
    + rewrite Hc, Hzip. exact Hput.
    + rewrite Hz, zlen_offsets, Hh. done.
    + rewrite Hz, Hz, !zlen_offsets, Hh. done.
    + rewrite Hzip in Hwq, Hcq. exists q. split_and!; [done|done|unfold moved; lia].
  - by eapply puts_last.
  - assert (Hfs : 1 ≤ first ≤ 3) by (unfold first; destruct (isBuild state); done).
    destruct (multi_delete_spec state ps fs sits toDelete first SPGIST_PLACEHOLDER (blockNum dst) last (tr_wf _ _ _ _ _ _ _ Hsrc) Hnd Hdel Hfs ltac:(done)) as (q & Hq & Hwq & Hcq).
    by eapply redo_page.
  - destruct (update_link_spec pp fp pits offnumParent it pre nodes post (tr_wf _ _ _ _ _ _ _ Hpar) Hfp Hop Hit Hlive Hin _ nd (blockNum dst) last Hnode)
      as (q & it' & Hq & Hit' & _ & _ & Hwq & Hcq).
    rewrite Z2Nat.id in Hq by lia. exists it'. split; [done|]. eapply redo_page; [done|done|done|lia].
Qed.

(** ** Vacuum *)

(** Replay of the vacuum of an SP-GiST leaf page.  The listed tuples become
    dead tuples or placeholders; each live tuple that is moved takes the place
    of the head of its chain, and a placeholder takes its own; every tuple that
    is in none of the lists is where and what it was, but for the chain links
    the record sets afterwards.  The page stays well formed, with counters that
    agree with its tuples, and no space is lost. *)
Theorem spg_vacuum_leaf_redo st r tag p fl its state toDead toPlaceholder moveSrc moveDest chainSrc chainDest :
  rec_info r = XLOG_SPGIST_VACUUM_LEAF → to_redo st r 0 tag p fl its → has_flag fl SPGIST_LEAF = true → 0 ≤ myXid state < 2 ^ 32 →
  main_data r = vacuum_leaf_data (state_bytes state) toDead toPlaceholder moveSrc moveDest chainSrc chainDest →
  length moveSrc = length moveDest → length chainSrc = length chainDest → offsets_ok chainDest →
  NoDup (toDead ++ toPlaceholder ++ moveSrc ++ moveDest) → Forall (listed uncounted its) (toDead ++ toPlaceholder ++ moveDest) →
  Forall (λ o, 1 ≤ o ≤ zlen its) moveSrc → Forall (λ o, 1 ≤ o ≤ zlen its) chainSrc → zlen chainSrc < 65536 →
  ∃ moved, vacuumed its moved toDead toPlaceholder (zip moveSrc moveDest) ∧
    redone st r tag fl (relink (zip chainSrc chainDest) moved) (capacity p its) (polar_spg_idx_redo st r tag None).
Proof.
  intros Hi Htr Hfl Hx Hdata Hmv Hch Hcd Hnd Hdead Hsrc Hchain Hsmall. pose proof (tr_wf _ _ _ _ _ _ _ Htr) as Hp.
  pose proof (rep_len _ _ _ _ _ Hp) as Hlen. change MaxIndexTuplesPerPage with 408 in Hlen. pose proof (listed_range _ _ _ Hdead) as Hr.
  rewrite !Forall_app in Hr. destruct Hr as (Hr1 & Hr2 & Hr3).
  assert (Hok : ∀ l, Forall (λ o, 1 ≤ o ≤ zlen its) l → offsets_ok l) by (intros l Hl; eapply Forall_impl; [exact Hl|]; cbn; lia).
  assert (Hshort : ∀ l, NoDup l → Forall (λ o, 1 ≤ o ≤ zlen its) l → zlen l < 65536).
  { intros l Hl Hf. assert (Hs : (length l ≤ length (seqZ 1 (zlen its)))%nat).
    { apply submseteq_length, NoDup_submseteq; [done|]. intros x Hx'. rewrite Forall_forall in Hf. apply elem_of_seqZ. specialize (Hf x Hx'). cbn in Hf. lia. }
    rewrite length_seqZ in Hs. unfold zlen in *. lia. }
  pose proof Hnd as Hnd'. apply NoDup_app in Hnd' as (N1 & _ & Hnd'). apply NoDup_app in Hnd' as (N2 & _ & Hnd'). apply NoDup_app in Hnd' as (N3 & _ & N4).
  destruct (vacuum_leaf_page_spec p fl its state (state_bytes state) toDead toPlaceholder moveSrc moveDest chainSrc chainDest) as (q & moved & Hq & Hv & Hwq & Hc); try done.
  { repeat constructor; auto. } { repeat constructor; auto. }
  exists moved. split; [done|]. unfold polar_spg_idx_redo. rewrite Hi.
  change (redone st r tag fl (relink (zip chainSrc chainDest) moved) (capacity p its) (polar_spg_redo_vacuum_leaf st r tag None)).
  unfold polar_spg_redo_vacuum_leaf. rewrite (log_tag _ _ _ (pr_tag _ _ _ (tr_ref _ _ _ _ _ _ _ Htr))). cbn [mbind res_bind]. rewrite tags_equal_refl. cbn [negb].
  assert (Hst : fillFakeState (main_data r) 8 = Ok state).
  { rewrite Hdata. by apply (fake_state_app (le_bytes 2 (zlen toDead) ++ le_bytes 2 (zlen toPlaceholder) ++ le_bytes 2 (zlen moveSrc) ++ le_bytes 2 (zlen chainSrc))). }
  rewrite Hst. cbn [mbind res_bind]. eapply redo_page; [done|by rewrite Hdata|done|done].
Qed.

(** Replay of the vacuum of redirections on an SP-GiST page.  Each listed
    redirection becomes a placeholder, and is counted as one; then the tuples
    from the given offset number on, which are all placeholders, are removed
    from the page and from the counter.  The counters are exact afterwards, and
    nothing else on the page has moved. *)
Theorem spg_vacuum_redirect_redo st r tag p fl its offs first xid :
  rec_info r = XLOG_SPGIST_VACUUM_REDIRECT → to_redo st r 0 tag p fl its → main_data r = vacuum_redirect_data offs first xid → zlen xid = 4 →
  NoDup offs → Forall (listed is_redirect its) offs → 0 ≤ first ≤ zlen its + 1 →
  (first ≠ InvalidOffsetNumber → Forall (λ it, tupstate it 0 = SPGIST_PLACEHOLDER) (drop (Z.to_nat (first - 1)) (retire offs its))) →
  redone st r tag fl (trimmed first (retire offs its)) (capacity p its) (polar_spg_idx_redo st r tag None).
Proof.
  intros Hi Htr Hdata Hx Hnd Hl Hf Hph. destruct (vacuum_redirect_spec p fl its offs first xid (tr_wf _ _ _ _ _ _ _ Htr) Hx Hnd Hl Hf Hph) as (q & Hq & Hwq & Hc).
  unfold polar_spg_idx_redo. rewrite Hi.
  change (redone st r tag fl (trimmed first (retire offs its)) (capacity p its) (polar_spg_redo_vacuum_redirect st r tag None)).
  unfold polar_spg_redo_vacuum_redirect. rewrite (log_tag _ _ _ (pr_tag _ _ _ (tr_ref _ _ _ _ _ _ _ Htr))). cbn [mbind res_bind]. rewrite tags_equal_refl. cbn [negb].
  eapply redo_page; [done|by rewrite Hdata|done|done].
Qed.

(** C29: [spgPageIndexMultiDelete] keeps the type of an SP-GiST page: for any
    distinct offset numbers of tuples that are live or dead it succeeds, and
    the page is well formed again, with exact counters.  It has as many tuples
    as before: a dead tuple of the first state at the first listed offset
    number, a dead tuple of the other state at each of the others, and every
    tuple that is not listed at its own offset number. *)
Theorem spg_multi_delete_type state p fl its o offs firststate reststate blkno offnum :
  spg_wf p fl its → NoDup (o :: offs) → Forall (listed uncounted its) (o :: offs) → 1 ≤ firststate ≤ 3 → 1 ≤ reststate ≤ 3 →
  ∃ q its', spgPageIndexMultiDelete state p (o :: offs) firststate reststate blkno offnum = Ok q ∧ spg_wf q fl its' ∧ zlen its' = zlen its ∧
    tuple_no its' o = Some (spgFormDeadTuple state firststate blkno offnum) ∧
    (∀ x, x ∈ offs → tuple_no its' x = Some (spgFormDeadTuple state reststate blkno offnum)) ∧
    (∀ x, 1 ≤ x → x ∉ (o :: offs) → tuple_no its' x = tuple_no its x).
Proof.
  intros Hp Hnd Hl Hf Hr. destruct (multi_delete_spec state p fl its (o :: offs) firststate reststate blkno offnum Hp Hnd Hl Hf Hr) as (q & Hq & Hw & _).
  cbn [hd] in Hw. eexists q, _. split; [done|]. split; [exact Hw|]. rewrite Forall_forall in Hl. apply NoDup_cons in Hnd as [Hno _]. split_and!.
  - apply zlen_kill.
  - destruct (Hl o ltac:(left)) as (Ho & it & Hit & _). rewrite kill_at by done. unfold tuple_no. rewrite Hit. cbn. rewrite bool_decide_true by left.
    unfold dead_for. by rewrite Z.eqb_refl.
  - intros x Hx. destruct (Hl x ltac:(by right)) as (Hx1 & it & Hit & _). rewrite kill_at by done. unfold tuple_no. rewrite Hit. cbn.
    rewrite bool_decide_true by (by right). unfold dead_for. rewrite (proj2 (Z.eqb_neq _ _)); [done|]. by intros ->.
  - intros x Hx Hn. rewrite kill_at by done. rewrite bool_decide_false by done. by destruct (tuple_no its x).
Qed.

(** ** Examples *)

Definition spg_rel : RelFileNode := mkRel 1663 13580 16410.
Definition spg_tag (b : Z) : BufferTag := mkTag spg_rel 0 b.
Definition spg_blk (b fl : Z) : DecodedBkpBlock := mkBlk true spg_rel 0 b fl false false [] 0 0 0 false [].
Definition spg_db (l : list (Z * page)) : dbstate :=
  mkDb {[ (spg_rel, 0) := replicate 8 [] ]} (list_to_map ((λ bp, (spg_tag bp.1, bp.2)) <$> l)) ∅ ∅ true false false (mkConf false false).

(** A leaf tuple of 16 bytes, the next of its chain, and its heap tuple; an inner tuple with two nodes. *)
Definition demo_leaf_tuple (next off : Z) : list Z := le_bytes 4 64 ++ le_bytes 2 next ++ item_pointer 3 off ++ [7; 0; 0; 0].
Definition demo_node (blk off : Z) : list Z := item_pointer blk off ++ le_bytes 2 8.
Definition demo_inner (a b : list Z) : list Z := le_bytes 4 16 ++ le_bytes 2 24 ++ [0; 0] ++ a ++ b.

Definition spg_demo (fl : Z) (l : list (Z * list Z)) (state : SpGistState) (dead : list Z) : page :=
  match (p ← SpGistInitPage fl; p ← foldl (λ p '(o, t), p ← p; addOrReplaceTuple p t o) (Ok p) l;
         p ← spgPageIndexMultiDelete state p dead SPGIST_REDIRECT SPGIST_PLACEHOLDER 5 1; Ok (PageSetLSN p 50)) with Ok p => p | Err _ => [] end.

Definition demo_state : SpGistState := mkSpGistState 700 false.

(** The source: three leaf tuples. *)
Definition demo_src_items : list (list Z) := [demo_leaf_tuple 2 1; demo_leaf_tuple 0 2; demo_leaf_tuple 0 3].
Definition demo_src : page := Eval vm_compute in spg_demo SPGIST_LEAF (zip [1; 2; 3] demo_src_items) demo_state [].

(** The parent: one inner tuple, whose second node points to the source. *)
Definition demo_parent_items : list (list Z) := [demo_inner (demo_node 8 1) (demo_node 2 1)].
Definition demo_parent : page := Eval vm_compute in spg_demo 0 [(1, demo_inner (demo_node 8 1) (demo_node 2 1))] demo_state [].

(** A page with a redirection and a placeholder. *)
Definition demo_dead_items : list (list Z) :=
  [demo_leaf_tuple 2 1; spgFormDeadTuple demo_state SPGIST_REDIRECT 5 1; spgFormDeadTuple demo_state SPGIST_PLACEHOLDER 5 1].
Definition demo_dead : page := Eval vm_compute in spg_demo SPGIST_LEAF (zip [1; 2; 3] demo_src_items) demo_state [2; 3].

Lemma demo_leaf_logged next off : logged_leaf (demo_leaf_tuple next off).
Proof.
  constructor; [|reflexivity]. constructor; [|vm_compute; discriminate|reflexivity|intros H; by destruct H].
  unfold demo_leaf_tuple. repeat (apply Forall_app; split); try apply le_bytes_byte. repeat constructor; unfold is_byte; lia.
Qed.

Lemma demo_inner_tuple a b : node_ok a → node_ok b → zlen a = 8 → zlen b = 8 → inner_tuple (demo_inner a b) (le_bytes 4 16 ++ le_bytes 2 24 ++ [0; 0]) [a; b] [].
Proof.
  intros Ha Hb La Lb. assert (Hw : ∀ n o, 0 ≤ o → o + Z.of_nat n ≤ 8 → mget n (demo_inner a b) o = mget n (le_bytes 4 16 ++ le_bytes 2 24 ++ [0; 0]) o).
  { intros n o Ho Hn. unfold mget. f_equal. unfold demo_inner. rewrite !app_assoc, <-app_assoc. unfold mread. rewrite drop_app_le by (cbn; lia).
    apply take_app_le. rewrite length_drop. cbn [length app]. cbn. lia. }
  constructor.
  - unfold demo_inner. cbn [concat]. by rewrite !app_nil_r.
  - unfold prefixSize. by rewrite Hw by lia.
  - unfold nNodes. by rewrite Hw by lia.
  - by apply Forall_cons; split; [|apply Forall_cons; split; [|apply Forall_nil]].
  - unfold inner_size. rewrite Hw by lia. transitivity 24; [reflexivity|]. unfold demo_inner, zlen in *. rewrite !length_app, !length_le_bytes. cbn [length]. lia.
Qed.

Lemma demo_node_ok blk off : node_ok (demo_node blk off).
Proof. split; reflexivity. Qed.

Lemma spg_wf_demo p fl its : page_wfb p = true → page_slots p = item_slot <$> its → Forall (spg_tuple (has_flag fl SPGIST_LEAF)) its →
  pd_special p = spg_special →
  (mget 2 p (spg_special + spg_flags), mget 2 p (spg_special + nRedirection), mget 2 p (spg_special + nPlaceholder), mget 2 p (spg_special + spgist_page_id)) =
  (fl, count_state SPGIST_REDIRECT its, count_state SPGIST_PLACEHOLDER its, SPGIST_PAGE_ID) → spg_wf p fl its.
Proof.
  intros Hw Hs Ht Hsp [= H1 H2 H3 H4]. constructor; [|done..]. constructor; [by apply page_wfb_sound|done|].
  eapply Forall_impl; [exact Ht|]. intros it. apply spg_tuple_good.
Qed.

Lemma demo_src_wf : spg_wf demo_src SPGIST_LEAF demo_src_items.
Proof.
  apply spg_wf_demo; [vm_compute; reflexivity|vm_compute; reflexivity| |vm_compute; reflexivity|vm_compute; reflexivity].
  do 3 (constructor; [apply (ll_tuple _ (demo_leaf_logged _ _))|]). constructor.
Qed.

Lemma demo_parent_wf : spg_wf demo_parent 0 demo_parent_items.
Proof.
  apply spg_wf_demo; [vm_compute; reflexivity|vm_compute; reflexivity| |vm_compute; reflexivity|vm_compute; reflexivity].
  constructor; [|done]. constructor; [vm_compute; repeat constructor; discriminate|vm_compute; discriminate| |intros H; by destruct H].
  intros _. eexists _, _, _. by apply demo_inner_tuple; [apply demo_node_ok..| |].
Qed.

Lemma demo_dead_wf : spg_wf demo_dead SPGIST_LEAF demo_dead_items.
Proof.
  apply spg_wf_demo; [vm_compute; reflexivity|vm_compute; reflexivity| |vm_compute; reflexivity|vm_compute; reflexivity].
  constructor; [apply (ll_tuple _ (demo_leaf_logged _ _))|]. do 2 (constructor; [by apply dead_tuple|]). constructor.
Qed.

Lemma spg_resident l b p : pool (spg_db l) !! spg_tag b = Some p → 0 ≤ b < 8 → resident (spg_db l) (spg_tag b) p.
Proof. intros Hp Hb. constructor; [done| |cbn; unfold InvalidBlockNumber; lia]. eexists. split; [apply lookup_singleton_eq|]. done. Qed.

Lemma demo_to_redo l r id b p fl its : plain_ref r id (spg_tag b) → pool (spg_db l) !! spg_tag b = Some p → 0 ≤ b < 8 → spg_wf p fl its →
  PageGetLSN p < EndRecPtr r → 0 ≤ EndRecPtr r < 2 ^ 64 → to_redo (spg_db l) r id (spg_tag b) p fl its.
Proof. intros. constructor; [done|by apply spg_resident|done..]. Qed.

(** The block references, the pool and the numbers of an example. *)
Ltac demo_ref := constructor; [reflexivity|intros ? [= <-]; reflexivity|reflexivity].
Ltac demo_redo := apply demo_to_redo; [demo_ref|reflexivity|lia|assumption || idtac|vm_compute; reflexivity|cbn; lia].

Ltac demo_put := split; [vm_compute; split; discriminate|split; [intros H; by destruct H|split; [vm_compute; discriminate|]]].

(** Two leaf tuples and the new one go to a new page. *)
Definition demo_move_rec : XLogReaderState :=
  mkRec 50 100 XLOG_SPGIST_MOVE_LEAFS RM_SPGIST_ID 700
    (move_leafs_data true false false 1 1 demo_state [1; 2] [1; 2; 3] [demo_leaf_tuple 2 1; demo_leaf_tuple 3 2; demo_leaf_tuple 0 9]) 2
    [spg_blk 2 0; spg_blk 5 BKPBLOCK_WILL_INIT; spg_blk 1 0].
Definition demo_move_db : dbstate := spg_db [(2, demo_src); (5, demo_src); (1, demo_parent)].

Lemma spg_move_leafs_redo_witness :
  redone demo_move_db demo_move_rec (spg_tag 5) SPGIST_LEAF [demo_leaf_tuple 2 1; demo_leaf_tuple 3 2; demo_leaf_tuple 0 9] (spg_special - 24)
    (polar_spg_idx_redo demo_move_db demo_move_rec (spg_tag 5) None) ∧
  redone demo_move_db demo_move_rec (spg_tag 2) SPGIST_LEAF
    [spgFormDeadTuple demo_state SPGIST_REDIRECT 5 3; spgFormDeadTuple demo_state SPGIST_PLACEHOLDER 5 3; demo_leaf_tuple 0 3] (capacity demo_src demo_src_items)
    (polar_spg_idx_redo demo_move_db demo_move_rec (spg_tag 2) None).
Proof.
  destruct (spg_move_leafs_redo demo_move_db demo_move_rec true false false 1 1 demo_state [1; 2] [1; 2] 3
    [demo_leaf_tuple 2 1; demo_leaf_tuple 3 2] (demo_leaf_tuple 0 9) (spg_tag 2) (spg_tag 5) (spg_tag 1)
    SPGIST_LEAF [] (spg_special - 24) demo_src SPGIST_LEAF demo_src_items demo_parent 0 demo_parent_items
    (demo_inner (demo_node 8 1) (demo_node 2 1)) (le_bytes 4 16 ++ le_bytes 2 24 ++ [0; 0]) [demo_node 8 1; demo_node 2 1] [] (demo_node 2 1)) as (Hd & _ & Hs & _).
  - constructor; try reflexivity; [cbn; lia|lia|lia|repeat constructor; lia|repeat constructor; lia|].
    repeat constructor; rewrite ?elem_of_cons, ?elem_of_nil; intros H; intuition discriminate.
  - split; [exists demo_src; by apply spg_resident|]. split; [demo_ref|]. split_and!; [reflexivity|reflexivity|unfold SPGIST_LEAF; lia..|cbn; lia|cbn; lia].
  - reflexivity.
  - reflexivity.
  - do 3 (constructor; [apply demo_leaf_logged|]). constructor.
  - do 3 demo_put. exact I.
  - demo_redo. apply demo_src_wf.
  - repeat constructor; rewrite ?elem_of_cons, ?elem_of_nil; intros H; intuition discriminate.
  - constructor; [split; [lia|]; eexists; split; [reflexivity|by split]|]. constructor; [split; [lia|]; eexists; split; [reflexivity|by split]|]. constructor.
  - demo_redo. apply demo_parent_wf.
  - reflexivity.
  - lia.
  - reflexivity.
  - reflexivity.
  - by apply demo_inner_tuple; [apply demo_node_ok..| |].
  - reflexivity.
  - split; [exact Hd|exact Hs].
Defined.

(** The first tuple becomes a dead tuple, the third takes the place of the second. *)
Definition demo_vacuum_rec : XLogReaderState :=
  mkRec 50 100 XLOG_SPGIST_VACUUM_LEAF RM_SPGIST_ID 700 (vacuum_leaf_data (state_bytes demo_state) [1] [] [3] [2] [2] [0]) 0 [spg_blk 2 0].

Lemma spg_vacuum_leaf_redo_witness : ∃ moved, vacuumed demo_src_items moved [1] [] [(3, 2)] ∧
  redone demo_move_db demo_vacuum_rec (spg_tag 2) SPGIST_LEAF (relink [(2, 0)] moved) (capacity demo_src demo_src_items)
    (polar_spg_idx_redo demo_move_db demo_vacuum_rec (spg_tag 2) None).
Proof.
  apply (spg_vacuum_leaf_redo demo_move_db demo_vacuum_rec (spg_tag 2) demo_src SPGIST_LEAF demo_src_items demo_state [1] [] [3] [2] [2] [0]); try reflexivity.
  - demo_redo. apply demo_src_wf.
  - cbn. lia.
  - repeat constructor; lia.
  - repeat constructor; cbn; rewrite ?elem_of_cons, ?elem_of_nil; intros H; intuition discriminate.
  - do 2 (constructor; [split; [lia|]; eexists; split; [reflexivity|by split]|]). constructor.
  - constructor; [vm_compute; split; discriminate|constructor].
  - constructor; [vm_compute; split; discriminate|constructor].
Defined.

(** The redirection is retired; it and the placeholder behind it are removed. *)
Definition demo_redirect_rec : XLogReaderState :=
  mkRec 50 100 XLOG_SPGIST_VACUUM_REDIRECT RM_SPGIST_ID 700 (vacuum_redirect_data [2] 2 (le_bytes 4 690)) 0 [spg_blk 2 0].

Lemma spg_vacuum_redirect_redo_witness :
  redone (spg_db [(2, demo_dead)]) demo_redirect_rec (spg_tag 2) SPGIST_LEAF [demo_leaf_tuple 2 1] (capacity demo_dead demo_dead_items)
    (polar_spg_idx_redo (spg_db [(2, demo_dead)]) demo_redirect_rec (spg_tag 2) None).
Proof.
  apply (spg_vacuum_redirect_redo (spg_db [(2, demo_dead)]) demo_redirect_rec (spg_tag 2) demo_dead SPGIST_LEAF demo_dead_items [2] 2 (le_bytes 4 690)).
  - reflexivity.
  - demo_redo. apply demo_dead_wf.
  - reflexivity.
  - reflexivity.
  - repeat constructor. rewrite elem_of_nil. tauto.
  - constructor; [split; [lia|]; eexists; split; reflexivity|constructor].
  - vm_compute. split; discriminate.
  - intros _. repeat constructor.
Defined.

Lemma spg_multi_delete_type_witness : ∃ q its', spgPageIndexMultiDelete demo_state demo_src [3; 1] SPGIST_REDIRECT SPGIST_DEAD 9 4 = Ok q ∧
  spg_wf q SPGIST_LEAF its' ∧ zlen its' = 3 ∧ tuple_no its' 3 = Some (spgFormDeadTuple demo_state SPGIST_REDIRECT 9 4) ∧
  tuple_no its' 2 = Some (demo_leaf_tuple 0 2).
Proof.
  destruct (spg_multi_delete_type demo_state demo_src SPGIST_LEAF demo_src_items 3 [1] SPGIST_REDIRECT SPGIST_DEAD 9 4 demo_src_wf) as (q & its' & E & Hw & Hz & H3 & _ & Ho).
  - repeat constructor; rewrite ?elem_of_cons, ?elem_of_nil; intros H; intuition discriminate.
  - do 2 (constructor; [split; [lia|]; eexists; split; [reflexivity|by split]|]). constructor.
  - vm_compute. split; discriminate.
  - vm_compute. split; discriminate.
  - exists q, its'. split; [exact E|]. split; [exact Hw|]. split; [exact Hz|]. split; [exact H3|]. rewrite (Ho 2); [reflexivity|lia|].
    rewrite !elem_of_cons, elem_of_nil. intros H. intuition discriminate.
Defined.
