(* ===== verification/SpgPick.v ===== *)
(** * Replay of a pick-split of SP-GiST leaf tuples

    The leaf tuples of a page are distributed over that page and another one,
    under a new inner tuple on a third page, to which a parent gets its link. *)

From Stdlib Require Import Sorted.
From S2P Require Import Prelude Mem Page PageAdd PageIndex PageCompact Checksum Buffer WalRecord HeapTuple HeapRedo Resident TagList Btree BtreePage BtreeInsert IndexPage BtreeRedo HashRedo Gin Spg SpgRedo SpgPage SpgVacuum SpgInsert SpgSpec.

(** ** The record *)

Definition pick_split_data (isRootSplit initSrc initDest initInner storesNulls innerIsParent : bool) (offnumInner offnumParent nodeI : Z) (state : SpGistState)
  (toDelete toInsert : list Z) (sel : list bool) (inner : list Z) (ts : list (list Z)) : list Z :=
  [bit isRootSplit; 0] ++ le_bytes 2 (zlen toDelete) ++ le_bytes 2 (zlen toInsert) ++ [bit initSrc; bit initDest] ++ le_bytes 2 offnumInner ++
  [bit initInner; bit storesNulls; bit innerIsParent; 0] ++ le_bytes 2 offnumParent ++ le_bytes 2 nodeI ++ [0; 0] ++ state_bytes state ++
  offsets_bytes toDelete ++ offsets_bytes toInsert ++ select_bytes sel ++ inner ++ concat ts.

(** An inner tuple as a record carries it. *)
Record logged_inner (t : list Z) : Prop := {
  li_tuple : spg_tuple false t;
  li_live : tupstate t 0 = SPGIST_LIVE }.

Lemma logged_inner_size t : logged_inner t → inner_size t 0 = zlen t ∧ 16 ≤ zlen t.
Proof.
  intros [Ht Hl]. pose proof (st_min _ _ Ht) as Hm. change SGDTSIZE with 16 in Hm. split; [|done].
  destruct (st_live _ _ Ht Hl) as (pre & nodes & post & Hi). apply Hi.
Qed.

Lemma inner_header_app pre t post pos : zlen pre = pos → logged_inner t → inner_header (pre ++ t ++ post) pos = Ok (zlen t).
Proof.
  intros <- Ht. destruct (logged_inner_size t Ht) as [Hs Hm]. unfold inner_header, sizeof_SpGistInnerTupleData. pose proof (zlen_nonneg pre). pose proof (zlen_nonneg post).
  rewrite load_ok; [|lia|lia|unfold zlen in *; rewrite !length_app; lia]. cbn [mbind res_bind]. f_equal. rewrite <-Hs. unfold inner_size, mget. f_equal.
  rewrite mread_mread by lia. transitivity (mread (mread (pre ++ t ++ post) (zlen pre) (zlen t)) (0 + 4) (Z.of_nat 2)).
  - rewrite mread_mread by lia. done.
  - by rewrite mread_middle.
Qed.

(** A page of a pick-split, ready for the leaf tuples. *)
Lemma pick_open_spec init st r id tag flags fl its its1 cap del : to_insert init st r id tag fl its cap → (init = true → fl = flags ∧ its1 = its) →
  (init = false → ∀ p, spg_wf p fl its → capacity p its = cap → ∃ q, del p = Ok q ∧ spg_wf q fl its1 ∧ cap ≤ capacity q its1) →
  ∃ q, pick_open init st r id None flags del = Ok (buf_write st (Some tag) q, Some tag, BLK_NEEDS_REDO, true) ∧ spg_wf q fl its1 ∧ cap ≤ capacity q its1.
Proof.
  intros Hi Hinit Hdel. unfold pick_open. destruct init; cbn in Hi.
  - destruct Hi as ([p Hres] & Href & -> & -> & Hr & _). destruct (Hinit eq_refl) as [<- ->]. destruct (init_page_spec fl Hr) as (q & He & Hq & Hc).
    exists q. split_and!; [|done|lia]. rewrite (init_resident st r id tag p) by done. cbn [mbind res_bind]. rewrite (resident_page _ _ _ Hres). cbn [mbind res_bind]. by rewrite He.
  - destruct Hi as (p & [Href Hres Hp Hold Hlsn] & ->). destruct (Hdel eq_refl p Hp eq_refl) as (q & Hq & Hwq & Hc). exists q. split_and!; [|done|done].
    assert (Hr : redo_read st r id false del = Ok (buf_write st (Some tag) q, Some tag, BLK_NEEDS_REDO)).
    { apply (on_redo_resident _ _ _ _ p); [done|done|by eapply spg_not_new|done|done]. }
    rewrite Hr. cbn [mbind res_bind]. by rewrite bool_decide_true.
Qed.

(** More room does no harm. *)
Lemma puttable_mono cap cap' l : ∀ its, cap ≤ cap' → puttable cap l its → puttable cap' l its.
Proof.
  induction l as [|[o t] l IH]; intros its Hc; [done|]. cbn [puttable]. intros (Ho & Hph & Hfit & Hp). split_and!; [lia|lia|done|lia|by apply IH].
Qed.

Lemma is_ref_tag_eq r tag id t : XLogRecGetBlockTag r id = Some t → is_ref_tag r tag id = Ok (BUFFERTAGS_EQUAL tag t).
Proof.
  intros Ht. unfold is_ref_tag, XLogRecHasBlockRef. pose proof Ht as Ht'. unfold XLogRecGetBlockTag in Ht'. destruct (block_ref r id) as [b|]; [|done].
  rewrite bool_decide_true by eauto. by rewrite (log_tag _ _ _ Ht).
Qed.

Lemma nodup_four (a b c d : BufferTag) : NoDup [a; b; c; d] → a ≠ b ∧ a ≠ c ∧ a ≠ d ∧ b ≠ c ∧ b ≠ d ∧ c ≠ d.
Proof. rewrite !NoDup_cons, !not_elem_of_cons. tauto. Qed.

Section pick.
Context (r : XLogReaderState) (initSrc initDest initInner storesNulls : bool) (offnumInner offnumParent nodeI : Z) (state : SpGistState).
Context (toDelete toInsert : list Z) (sel : list bool) (inner : list Z) (ts : list (list Z)).
Let data := pick_split_data false initSrc initDest initInner storesNulls false offnumInner offnumParent nodeI state toDelete toInsert sel inner ts.
Context (Hdata : main_data r = data) (Hx : 0 ≤ myXid state < 2 ^ 32) (Hnd : zlen toDelete < 65536) (Hni : zlen toInsert < 65536).
Context (Hoi : 0 ≤ offnumInner < 65536) (Hpar : 0 ≤ offnumParent < 65536) (Hnode : 0 ≤ nodeI < 65536).
Context (Hdel : offsets_ok toDelete) (Hins : offsets_ok toInsert) (Hsel : length sel = length toInsert) (Hts : length ts = length toInsert) (Hinner : logged_inner inner).

Let h2 := [bit false; 0].
Let h4 := h2 ++ le_bytes 2 (zlen toDelete).
Let h6 := h4 ++ le_bytes 2 (zlen toInsert).
Let h8 := h6 ++ [bit initSrc; bit initDest].
Let h10 := h8 ++ le_bytes 2 offnumInner.
Let h14 := h10 ++ [bit initInner; bit storesNulls; bit false; 0].
Let h16 := h14 ++ le_bytes 2 offnumParent.
Let h20 := h16 ++ le_bytes 2 nodeI ++ [0; 0].
Let hdr := h20 ++ state_bytes state.

Lemma pick_fields :
rd_bool data 0 = Ok false ∧ rd 2 data 2 = Ok (zlen toDelete) ∧ rd 2 data 4 = Ok (zlen toInsert) ∧ rd_bool data 6 = Ok initSrc ∧ rd_bool data 7 = Ok initDest ∧
rd 2 data 8 = Ok offnumInner ∧ rd_bool data 10 = Ok initInner ∧ rd_bool data 11 = Ok storesNulls ∧ rd_bool data 12 = Ok false ∧ rd 2 data 14 = Ok offnumParent ∧
rd 2 data 16 = Ok nodeI ∧ fillFakeState data 20 = Ok state.
Proof using All.
pose proof (zlen_nonneg toDelete). pose proof (zlen_nonneg toInsert). split_and!.
- by apply (rd_bool_app [] false).
- by apply (rd2_app h2).
- by apply (rd2_app h4).
- by apply (rd_bool_app h6).
- by apply (rd_bool_app (h6 ++ [bit initSrc])).
- by apply (rd2_app h8).
- by apply (rd_bool_app h10).
- by apply (rd_bool_app (h10 ++ [bit initInner])).
- by apply (rd_bool_app (h10 ++ [bit initInner; bit storesNulls]) false).
- by apply (rd2_app h14).
- by apply (rd2_app h16).
- by apply (fake_state_app h20).
Qed.

Let inner_pos := 28 + 2 * zlen toDelete + 2 * zlen toInsert + zlen toInsert.

(** Where the arrays and tuples of the record are. *)
Lemma pick_split_parts : ∃ a b e c, zlen a = 28 ∧ zlen b = 28 + 2 * zlen toDelete ∧ zlen e = 28 + 2 * zlen toDelete + 2 * zlen toInsert ∧ zlen c = inner_pos ∧
data = a ++ offsets_bytes toDelete ++ (offsets_bytes toInsert ++ select_bytes sel ++ inner ++ concat ts) ∧
data = b ++ offsets_bytes toInsert ++ (select_bytes sel ++ inner ++ concat ts) ∧
data = e ++ select_bytes sel ++ (inner ++ concat ts) ∧ data = c ++ inner ++ concat ts.
Proof using All.
assert (Hd : data = hdr ++ offsets_bytes toDelete ++ offsets_bytes toInsert ++ select_bytes sel ++ inner ++ concat ts) by done.
assert (Hh : zlen hdr = 28) by done. assert (Hz : ∀ a b : list Z, zlen (a ++ b) = zlen a + zlen b) by (intros; unfold zlen; rewrite length_app; lia).
assert (Hs : zlen (select_bytes sel) = zlen toInsert) by (unfold zlen, select_bytes; rewrite length_fmap; lia).
exists hdr, (hdr ++ offsets_bytes toDelete), ((hdr ++ offsets_bytes toDelete) ++ offsets_bytes toInsert), (((hdr ++ offsets_bytes toDelete) ++ offsets_bytes toInsert) ++ select_bytes sel).
rewrite !Hz, !zlen_offsets, Hs, Hh. unfold inner_pos. split_and!; [lia..|done| | |]; rewrite Hd, <-!app_assoc; done.
Qed.

Context (innertag : BufferTag) (H2 : XLogRecGetBlockTag r 2 = Some innertag) (Hinfo : rec_info r = XLOG_SPGIST_PICKSPLIT).

(** The handler, once the fields are read. *)
Definition pick_leafs_step (st : dbstate) (buffer : Buffer) (src dest : bool) : res dbstate :=
if src || dest then
p ← BufferGetPage st buffer;
p ← with_lsn r (pick_split_leafs p data (28 + 2 * zlen toDelete) (28 + 2 * zlen toDelete + 2 * zlen toInsert) (inner_pos + zlen inner) src dest (length toInsert));
Ok (buf_write st buffer p)
else Ok st.

Definition pick_last_step (st : dbstate) (buffer : Buffer) (action : XLogRedoAction) (is_inner is_parent : bool) : redo_result :=
if is_inner then spg_page initInner st r 2 buffer (if storesNulls then SPGIST_NULLS else 0) (pick_inner_page data (zlen inner) inner_pos (blockNum innertag))
else if is_parent then redo_read st r 3 false (λ p, with_lsn r (spg_update_link p offnumParent nodeI (blockNum innertag) offnumInner))
else Ok (st, buffer, action).

Lemma pick_eval st tag is_src is_dest is_parent : is_ref_tag r tag 0 = Ok is_src → is_ref_tag r tag 1 = Ok is_dest → is_ref_tag r tag 3 = Ok is_parent →
polar_spg_idx_redo st r tag None =
('(st, buffer, action, src) ← (if is_src then pick_open initSrc st r 0 None (leaf_flags storesNulls) (pick_delete data state (zlen toDelete) (blockNum innertag))
else Ok (st, None, BLK_NOTFOUND, false));
'(st, buffer, action, dest) ← (if is_dest then pick_open initDest st r 1 buffer (leaf_flags storesNulls) Ok else Ok (st, buffer, action, false));
st ← pick_leafs_step st buffer src dest;
pick_last_step st buffer action (BUFFERTAGS_EQUAL tag innertag) is_parent).
Proof using All.
intros Hs Hd Hp. destruct pick_fields as (F0 & F2 & F4 & F6 & F7 & F8 & F10 & F11 & F12 & F14 & F16 & Fs).
destruct pick_split_parts as (a & b & e & c & La & Lb & Le & Lc & Pa & Pb & Pe & Pc).
unfold polar_spg_idx_redo. rewrite Hinfo. change (XLOG_SPGIST_PICKSPLIT =? XLOG_SPGIST_ADD_LEAF) with false. change (XLOG_SPGIST_PICKSPLIT =? XLOG_SPGIST_MOVE_LEAFS) with false.
change (XLOG_SPGIST_PICKSPLIT =? XLOG_SPGIST_ADD_NODE) with false. change (XLOG_SPGIST_PICKSPLIT =? XLOG_SPGIST_SPLIT_TUPLE) with false.
change (XLOG_SPGIST_PICKSPLIT =? XLOG_SPGIST_PICKSPLIT) with true. cbv iota. unfold polar_spg_redo_pick_split, tag_or_uninit. rewrite H2, Hdata. cbn [mbind res_bind]. rewrite Fs. cbn [mbind res_bind].
rewrite F2. cbn [mbind res_bind]. rewrite F4. cbn [mbind res_bind]. cbv zeta. unfold SizeOfSpgxlogPickSplit. fold inner_pos.
assert (Hih : inner_header data inner_pos = Ok (zlen inner)) by (rewrite Pc; by apply inner_header_app). rewrite Hih. cbn [mbind res_bind].
rewrite F11. cbn [mbind res_bind]. rewrite Hs. cbn [mbind res_bind]. rewrite F0. cbn [mbind res_bind negb]. rewrite andb_true_r. rewrite F6. cbn [mbind res_bind].
destruct (if is_src then _ else _) as [[[[st1 buf1] act1] src]|]; cbn [mbind res_bind]; [|done]. rewrite Hd. cbn [mbind res_bind]. rewrite F7. cbn [mbind res_bind].
destruct (if is_dest then _ else _) as [[[[st2 buf2] act2] dest]|]; cbn [mbind res_bind]; [|done]. rewrite !zlen_to_nat. unfold pick_leafs_step.
destruct (if src || dest then _ else _) as [st3|]; cbn [mbind res_bind]; [|done]. rewrite (log_tag _ _ _ H2). cbn [mbind res_bind]. unfold pick_last_step.
rewrite F10, Hp, F8, F14, F16. done.
Qed.

(** The tuples the source keeps. *)
Definition pick_first : Z := if isBuild state then SPGIST_PLACEHOLDER else SPGIST_REDIRECT.
Definition pick_source (its : list (list Z)) : list (list Z) :=
if initSrc then its else kill (dead_for state (hd 0 toDelete) pick_first SPGIST_PLACEHOLDER (blockNum innertag) offnumInner) toDelete its.

Lemma pick_delete_spec p fl its : spg_wf p fl its → NoDup toDelete → Forall (listed uncounted its) toDelete → initSrc = false →
∃ q, pick_delete data state (zlen toDelete) (blockNum innertag) p = Ok q ∧ spg_wf q fl (pick_source its) ∧ capacity p its ≤ capacity q (pick_source its).
Proof using All.
intros Hp Hn Hl Hi. destruct pick_fields as (_ & _ & _ & _ & _ & F8 & _). destruct pick_split_parts as (a & _ & _ & _ & La & _ & _ & _ & Pa & _).
unfold pick_source. rewrite Hi. unfold pick_delete, SizeOfSpgxlogPickSplit. rewrite zlen_to_nat, (get_offsets_at a toDelete _ data 28 _ Pa La eq_refl Hdel). cbn [mbind res_bind].
unfold pick_first. destruct (isBuild state) eqn:Eb; cbn [negb].
- assert (Hk : kill (dead_for state (hd 0 toDelete) SPGIST_PLACEHOLDER SPGIST_PLACEHOLDER (blockNum innertag) offnumInner) toDelete its =
kill (dead_for state (hd 0 toDelete) SPGIST_PLACEHOLDER SPGIST_PLACEHOLDER InvalidBlockNumber InvalidOffsetNumber) toDelete its).
{ apply imap_ext. intros k it _. cbn. unfold dead_for. by destruct (_ =? hd 0 toDelete). }
rewrite Hk. by apply multi_delete_spec.
- rewrite F8. cbn [mbind res_bind]. by apply multi_delete_spec.
Qed.

Context (Hleafs : Forall logged_leaf ts) (Hlsn : 0 ≤ EndRecPtr r < 2 ^ 64).
Let leafs := zip sel (zip toInsert ts).

Lemma pick_leafs_spec st tag p0 q1 fl its src dest : resident st tag p0 → spg_wf q1 fl its → has_flag fl SPGIST_LEAF = true → src || dest = true →
puttable (capacity q1 its) (picked src dest leafs) its →
∃ q, pick_leafs_step (buf_write st (Some tag) q1) (Some tag) src dest = Ok (buf_write st (Some tag) q) ∧ spg_wf q fl (puts (picked src dest leafs) its) ∧
PageGetLSN q = EndRecPtr r ∧ capacity q1 its ≤ capacity q (puts (picked src dest leafs) its).
Proof using All.
intros Hres Hq1 Hfl Hsd Hput. destruct pick_split_parts as (_ & b & e & c & _ & Lb & Le & Lc & _ & Pb & Pe & Pc).
assert (Pt : data = (c ++ inner) ++ concat ts ++ []) by (rewrite app_nil_r, <-app_assoc; exact Pc).
assert (Lt : zlen (c ++ inner) = inner_pos + zlen inner) by (rewrite <-Lc; unfold zlen; rewrite length_app; lia).
destruct (pick_split_leafs_spec fl src dest toInsert sel ts q1 its b _ e _ (c ++ inner) [] data _ _ _ Hq1 Hfl Hleafs (eq_sym Hts) ltac:(lia) Hins Hput Pb Lb Pe Le Pt Lt) as (q & Hq & Hwq & Hcq).
destruct (wf_set_lsn q fl _ (EndRecPtr r) Hwq) as [Hwq' Hcq']. exists (PageSetLSN q (EndRecPtr r)). split_and!; [|done|by eapply wf_lsn_set|unfold leafs; lia].
unfold pick_leafs_step. rewrite Hsd, (resident_page _ _ _ (resident_write _ _ _ _ Hres)). cbn [mbind res_bind]. unfold with_lsn. rewrite <-Hts, Hq. cbn [mbind res_bind].
by rewrite buf_write_write.
Qed.

(** The pages. *)
Context (st : dbstate) (src dst parent : BufferTag) (H0 : XLogRecGetBlockTag r 0 = Some src) (H1 : XLogRecGetBlockTag r 1 = Some dst) (H3 : XLogRecGetBlockTag r 3 = Some parent).
Context (Hdist : NoDup [src; dst; innertag; parent]).

Lemma to_insert_resident init id tag fl its cap : to_insert init st r id tag fl its cap → ∃ p, resident st tag p.
Proof using Type. destruct init; cbn; [by intros [? _]|]. intros (p & Hp & _). exists p. apply Hp. Qed.

Lemma pick_source_redo fl its cap : to_insert initSrc st r 0 src fl its cap → (initSrc = true → fl = leaf_flags storesNulls) → has_flag fl SPGIST_LEAF = true →
(initSrc = false → NoDup toDelete ∧ Forall (listed uncounted its) toDelete) → puttable cap (picked true false leafs) (pick_source its) →
redone st r src fl (puts (picked true false leafs) (pick_source its)) cap (polar_spg_idx_redo st r src None).
Proof using All.
intros Hi Hfl Hleaf Hdl Hput. destruct (nodup_four _ _ _ _ Hdist) as (T1 & T2 & T3 & _). destruct (to_insert_resident _ _ _ _ _ _ Hi) as [p0 Hres].
rewrite (pick_eval st src true false false) by (erewrite is_ref_tag_eq by eassumption; rewrite ?tags_equal_refl, ?(proj1 (tags_neq _ _ T1)), ?(proj1 (tags_neq _ _ T3)); done).
destruct (pick_open_spec initSrc st r 0 src (leaf_flags storesNulls) fl its (pick_source its) cap (pick_delete data state (zlen toDelete) (blockNum innertag)) Hi) as (q1 & -> & Hw1 & Hc1).
{ intros Ei. split; [by apply Hfl|]. unfold pick_source. by rewrite Ei. }
{ intros Ei p Hp <-. destruct (Hdl Ei). by apply pick_delete_spec. }
cbn [mbind res_bind]. destruct (pick_leafs_spec st src p0 q1 fl (pick_source its) true false Hres Hw1 Hleaf eq_refl (puttable_mono _ _ _ _ Hc1 Hput)) as (q & -> & Hwq & Hl & Hc).
cbn [mbind res_bind]. unfold pick_last_step. rewrite (proj1 (tags_neq _ _ T2)). exists q. split_and!; [done|done|done|lia].
Qed.

Lemma pick_dest_redo fl its cap : to_insert initDest st r 1 dst fl its cap → (initDest = true → fl = leaf_flags storesNulls) → has_flag fl SPGIST_LEAF = true →
puttable cap (picked false true leafs) its → redone st r dst fl (puts (picked false true leafs) its) cap (polar_spg_idx_redo st r dst None).
Proof using All.
intros Hi Hfl Hleaf Hput. destruct (nodup_four _ _ _ _ Hdist) as (T1 & _ & _ & T4 & T5 & _). destruct (to_insert_resident _ _ _ _ _ _ Hi) as [p0 Hres].
rewrite (pick_eval st dst false true false) by (erewrite is_ref_tag_eq by eassumption; rewrite ?tags_equal_refl, ?(proj2 (tags_neq _ _ T1)), ?(proj1 (tags_neq _ _ T5)); done).
cbn [mbind res_bind]. destruct (pick_open_spec initDest st r 1 dst (leaf_flags storesNulls) fl its its cap Ok Hi) as (q1 & -> & Hw1 & Hc1).
{ intros Ei. split; [by apply Hfl|done]. } { intros Ei p Hp <-. by exists p. }
cbn [mbind res_bind]. destruct (pick_leafs_spec st dst p0 q1 fl its false true Hres Hw1 Hleaf eq_refl (puttable_mono _ _ _ _ Hc1 Hput)) as (q & -> & Hwq & Hl & Hc).
cbn [mbind res_bind]. unfold pick_last_step. rewrite (proj1 (tags_neq _ _ T4)). exists q. split_and!; [done|done|done|lia].
Qed.

Lemma pick_inner_redo fl its cap : to_insert initInner st r 2 innertag fl its cap → (initInner = true → fl = if storesNulls then SPGIST_NULLS else 0) →
has_flag fl SPGIST_LEAF = false → puttable cap [(offnumInner, inner)] its →
redone st r innertag fl (put_tuple offnumInner inner its) cap (polar_spg_idx_redo st r innertag None).
Proof using All.
intros Hi Hfl Hleaf (Ho & Hph & Hfit & _). destruct (nodup_four _ _ _ _ Hdist) as (_ & T2 & _ & T4 & _ & T6).
rewrite (pick_eval st innertag false false false) by
(erewrite is_ref_tag_eq by eassumption; rewrite ?(proj2 (tags_neq _ _ T2)), ?(proj2 (tags_neq _ _ T4)), ?(proj1 (tags_neq _ _ T6)); done).
cbn [mbind res_bind]. unfold pick_leafs_step. cbn [orb mbind res_bind]. unfold pick_last_step. rewrite tags_equal_refl.
destruct pick_fields as (_ & _ & _ & _ & _ & F8 & _ & _ & F12 & _). destruct pick_split_parts as (_ & _ & _ & c & _ & _ & _ & Lc & _ & _ & _ & Pc).
eapply insert_page; [done|done|]. intros p Hp Hc. unfold pick_inner_page. rewrite F8. cbn [mbind res_bind].
assert (Hld : load data inner_pos (zlen inner) = Ok inner) by (rewrite Pc; by apply load_field). rewrite Hld. cbn [mbind res_bind]. rewrite F12.
destruct (put_tuple_spec p fl its inner offnumInner Hp) as (q & -> & Hwq & Hcq); [rewrite Hleaf; apply Hinner|apply Hinner|done|done|by rewrite Hc|].
cbn [mbind res_bind]. exists q. split_and!; [done|done|lia].
Qed.

Lemma pick_parent_redo p fl its it pre nodes post nd : to_redo st r 3 parent p fl its → has_flag fl SPGIST_LEAF = false → 1 ≤ offnumParent →
tuple_no its offnumParent = Some it → tupstate it 0 = SPGIST_LIVE → inner_tuple it pre nodes post → nodes !! Z.to_nat nodeI = Some nd →
∃ it', inner_tuple it' pre (<[Z.to_nat nodeI := set_link (blockNum innertag) offnumInner nd]> nodes) post ∧
redone st r parent fl (<[Z.to_nat (offnumParent - 1) := it']> its) (capacity p its) (polar_spg_idx_redo st r parent None).
Proof using All.
intros Htr Hfl Hop Hit Hlive Hin Hnd'. destruct (nodup_four _ _ _ _ Hdist) as (_ & _ & T3 & _ & T5 & T6).
rewrite (pick_eval st parent false false true) by
(erewrite is_ref_tag_eq by eassumption; rewrite ?tags_equal_refl, ?(proj2 (tags_neq _ _ T3)), ?(proj2 (tags_neq _ _ T5)); done).
cbn [mbind res_bind]. unfold pick_leafs_step. cbn [orb mbind res_bind]. unfold pick_last_step. rewrite (proj2 (tags_neq _ _ T6)).
destruct (update_link_spec p fl its offnumParent it pre nodes post (tr_wf _ _ _ _ _ _ _ Htr) Hfl Hop Hit Hlive Hin _ nd (blockNum innertag) offnumInner Hnd')
as (q & it' & Hq & Hit' & _ & _ & Hwq & Hcq).
rewrite Z2Nat.id in Hq by lia. exists it'. split; [done|]. eapply redo_page; [done|done|done|lia].
Qed.
End pick.

(** A pick-split of a page other than the root, with its four pages. *)
Record pick_record (r : XLogReaderState) (initSrc initDest initInner storesNulls : bool) (offnumInner offnumParent nodeI : Z) (state : SpGistState)
  (toDelete toInsert : list Z) (sel : list bool) (inner : list Z) (ts : list (list Z)) (src dst innertag parent : BufferTag) : Prop := {
  pk_info : rec_info r = XLOG_SPGIST_PICKSPLIT;
  pk_data : main_data r = pick_split_data false initSrc initDest initInner storesNulls false offnumInner offnumParent nodeI state toDelete toInsert sel inner ts;
  pk_xid : 0 ≤ myXid state < 2 ^ 32;
  pk_counts : zlen toDelete < 65536 ∧ zlen toInsert < 65536;
  pk_numbers : Forall (λ n, 0 ≤ n < 65536) [offnumInner; offnumParent; nodeI];
  pk_offsets : offsets_ok toDelete ∧ offsets_ok toInsert;
  pk_lengths : length sel = length toInsert ∧ length ts = length toInsert;
  pk_tuples : logged_inner inner ∧ Forall logged_leaf ts;
  pk_lsn : 0 ≤ EndRecPtr r < 2 ^ 64;
  pk_src : XLogRecGetBlockTag r 0 = Some src;
  pk_dst : XLogRecGetBlockTag r 1 = Some dst;
  pk_inner : XLogRecGetBlockTag r 2 = Some innertag;
  pk_par : XLogRecGetBlockTag r 3 = Some parent;
  pk_distinct : NoDup [src; dst; innertag; parent] }.

(** Every leaf tuple goes to exactly one of the two pages. *)
Lemma picked_perm l : picked true false l ++ picked false true l ≡ₚ snd <$> l.
Proof.
  induction l as [|[b x] l IH]; [done|]. unfold picked in *. rewrite !filter_cons. cbn [fst]. destruct b.
  - rewrite decide_False, decide_True by done. rewrite !fmap_cons, <-Permutation_middle. by rewrite IH.
  - rewrite decide_True, decide_False by done. rewrite !fmap_cons. cbn [app]. by rewrite IH.
Qed.

(** C28: replay of a pick-split of SP-GiST leaf tuples, on its four pages.  The
    source has the listed tuples replaced by dead ones, the first a redirection
    to the new inner tuple (or it is set up anew), and then the leaf tuples
    the record selects for it; the destination has the others; together these are all
    leaf tuples of the record.  The inner tuple is at its offset number of the third
    page, and exactly the given node of the parent tuple links to it. *)
Theorem spg_pick_split_redo st r initSrc initDest initInner storesNulls offnumInner offnumParent nodeI state toDelete toInsert sel inner ts src dst innertag parent
  fs sits scap fd dits dcap fi iits icap p fl its it pre nodes post nd :
  pick_record r initSrc initDest initInner storesNulls offnumInner offnumParent nodeI state toDelete toInsert sel inner ts src dst innertag parent →
  let leafs := zip sel (zip toInsert ts) in
  let kept := pick_source initSrc offnumInner state toDelete innertag sits in
  to_insert initSrc st r 0 src fs sits scap → (initSrc = true → fs = leaf_flags storesNulls) → has_flag fs SPGIST_LEAF = true →
  (initSrc = false → NoDup toDelete ∧ Forall (listed uncounted sits) toDelete) → puttable scap (picked true false leafs) kept →
  to_insert initDest st r 1 dst fd dits dcap → (initDest = true → fd = leaf_flags storesNulls) → has_flag fd SPGIST_LEAF = true →
  puttable dcap (picked false true leafs) dits →
  to_insert initInner st r 2 innertag fi iits icap → (initInner = true → fi = if storesNulls then SPGIST_NULLS else 0) → has_flag fi SPGIST_LEAF = false →
  puttable icap [(offnumInner, inner)] iits →
  to_redo st r 3 parent p fl its → has_flag fl SPGIST_LEAF = false → 1 ≤ offnumParent → tuple_no its offnumParent = Some it → tupstate it 0 = SPGIST_LIVE →
  inner_tuple it pre nodes post → nodes !! Z.to_nat nodeI = Some nd →
  redone st r src fs (puts (picked true false leafs) kept) scap (polar_spg_idx_redo st r src None) ∧
  redone st r dst fd (puts (picked false true leafs) dits) dcap (polar_spg_idx_redo st r dst None) ∧
  picked true false leafs ++ picked false true leafs ≡ₚ zip toInsert ts ∧
  redone st r innertag fi (put_tuple offnumInner inner iits) icap (polar_spg_idx_redo st r innertag None) ∧
  ∃ it', inner_tuple it' pre (<[Z.to_nat nodeI := set_link (blockNum innertag) offnumInner nd]> nodes) post ∧
    redone st r parent fl (<[Z.to_nat (offnumParent - 1) := it']> its) (capacity p its) (polar_spg_idx_redo st r parent None).
Proof.
  intros [] leafs kept. intros. destruct pk_counts0, pk_offsets0, pk_lengths0, pk_tuples0.
  rewrite !Forall_cons in pk_numbers0. destruct pk_numbers0 as (? & ? & ? & _). split_and!.
  - eapply pick_source_redo; eassumption.
  - eapply pick_dest_redo; eassumption.
  - rewrite picked_perm. unfold leafs. rewrite snd_zip; [done|]. rewrite length_zip. lia.
  - eapply pick_inner_redo; eassumption.
  - eapply pick_parent_redo; eassumption.
Qed.

(** Three leaf tuples: one stays on the source, two go to a new page, the inner
    tuple to another new page. *)
Definition demo_pick_leafs : list (list Z) := [demo_leaf_tuple 0 1; demo_leaf_tuple 2 2; demo_leaf_tuple 0 3].
Definition demo_pick_rec : XLogReaderState :=
  mkRec 50 100 XLOG_SPGIST_PICKSPLIT RM_SPGIST_ID 700
    (pick_split_data false false true true false false 1 1 1 demo_state [1; 2; 3] [2; 1; 2] [false; true; true]
       (demo_inner (demo_node 2 2) (demo_node 5 1)) demo_pick_leafs) 3
    [spg_blk 2 0; spg_blk 5 BKPBLOCK_WILL_INIT; spg_blk 6 BKPBLOCK_WILL_INIT; spg_blk 1 0].
Definition demo_pick_db : dbstate := spg_db [(2, demo_src); (5, demo_src); (6, demo_src); (1, demo_parent)].

Lemma demo_inner_logged blk off blk' off' : logged_inner (demo_inner (demo_node blk off) (demo_node blk' off')).
Proof.
  constructor; [|reflexivity]. constructor; [|vm_compute; discriminate| |intros H; by destruct H].
  - unfold demo_inner, demo_node. repeat (apply Forall_app; split); try apply le_bytes_byte. repeat constructor; unfold is_byte; lia.
  - intros _. eexists _, _, _. by apply demo_inner_tuple; [apply demo_node_ok..| |].
Qed.

Lemma demo_pick_record : pick_record demo_pick_rec false true true false 1 1 1 demo_state [1; 2; 3] [2; 1; 2] [false; true; true]
  (demo_inner (demo_node 2 2) (demo_node 5 1)) demo_pick_leafs (spg_tag 2) (spg_tag 5) (spg_tag 6) (spg_tag 1).
Proof.
  constructor; try reflexivity; [cbn; lia|split; reflexivity|repeat constructor; lia|split; repeat constructor; lia|split; reflexivity| |cbn; lia|].
  - split; [apply demo_inner_logged|]. do 3 (constructor; [apply demo_leaf_logged|]). constructor.
  - repeat constructor; rewrite ?elem_of_cons, ?elem_of_nil; intros H; intuition discriminate.
Qed.

Lemma spg_pick_split_redo_witness :
  redone demo_pick_db demo_pick_rec (spg_tag 2) SPGIST_LEAF
    [spgFormDeadTuple demo_state SPGIST_REDIRECT 6 1; demo_leaf_tuple 0 1; spgFormDeadTuple demo_state SPGIST_PLACEHOLDER 6 1] (capacity demo_src demo_src_items)
    (polar_spg_idx_redo demo_pick_db demo_pick_rec (spg_tag 2) None) ∧
  redone demo_pick_db demo_pick_rec (spg_tag 5) SPGIST_LEAF [demo_leaf_tuple 2 2; demo_leaf_tuple 0 3] (spg_special - 24)
    (polar_spg_idx_redo demo_pick_db demo_pick_rec (spg_tag 5) None).
Proof.
  destruct (spg_pick_split_redo demo_pick_db demo_pick_rec false true true false 1 1 1 demo_state [1; 2; 3] [2; 1; 2] [false; true; true]
    (demo_inner (demo_node 2 2) (demo_node 5 1)) demo_pick_leafs (spg_tag 2) (spg_tag 5) (spg_tag 6) (spg_tag 1)
    SPGIST_LEAF demo_src_items (capacity demo_src demo_src_items) SPGIST_LEAF [] (spg_special - 24) 0 [] (spg_special - 24) demo_parent 0 demo_parent_items
    (demo_inner (demo_node 8 1) (demo_node 2 1)) (le_bytes 4 16 ++ le_bytes 2 24 ++ [0; 0]) [demo_node 8 1; demo_node 2 1] [] (demo_node 2 1)
    demo_pick_record) as (Hs & Hd & _).
  - exists demo_src. split; [demo_redo; apply demo_src_wf|reflexivity].
  - discriminate.
  - reflexivity.
  - intros _. split; [repeat constructor; rewrite ?elem_of_cons, ?elem_of_nil; intros H; intuition discriminate|].
    do 3 (constructor; [split; [lia|]; eexists; split; [reflexivity|by split]|]). constructor.
  - split; [vm_compute; split; discriminate|]. split; [intros _; eexists; split; reflexivity|]. split; [vm_compute; discriminate|]. exact I.
  - split; [exists demo_src; by apply spg_resident|]. split; [demo_ref|]. split_and!; [reflexivity|reflexivity|unfold SPGIST_LEAF; lia..|cbn; lia|cbn; lia].
  - reflexivity.
  - reflexivity.
  - do 2 demo_put. exact I.
  - split; [exists demo_src; by apply spg_resident|]. split; [demo_ref|]. split_and!; [reflexivity|reflexivity|lia..|cbn; lia|cbn; lia].
  - reflexivity.
  - reflexivity.
  - demo_put. exact I.
  - demo_redo. apply demo_parent_wf.
  - reflexivity.
  - lia.
  - reflexivity.
  - reflexivity.
  - by apply demo_inner_tuple; [apply demo_node_ok..| |].
  - reflexivity.
  - split; [exact Hs|exact Hd].
Defined.
