(* ===== verification/KvStore.v ===== *)
(** * The key-value store: [kv_interface.c]

    The storage server keeps, per page, the list of positions of its versions,
    the versions of pages, and records, under keys printed from their
    identifiers.  RocksDB is a class of operations on a database, with what its
    documentation says of them as laws; its errors are values. *)

From S2P Require Import Prelude Mem Page Buffer.

(** ** RocksDB *)

(** The operations used.  The second part of a result says whether the error
    pointer was set. *)
Class RocksDB (DB : Type) : Type := {
  rocksdb_open : DB → option DB;
  rocksdb_close : DB → DB;
  rocksdb_put : DB → list Z → list Z → DB * bool;
  rocksdb_get : DB → list Z → option (list Z) * bool;
  rocksdb_delete : DB → list Z → DB * bool }.

(** What they do when they report no error: a database is a finite map. *)
Class RocksDBLaws (DB : Type) `{RocksDB DB} : Type := {
  contents : DB → gmap (list Z) (list Z);
  open_contents db db' : rocksdb_open db = Some db' → contents db' = contents db;
  close_contents db : contents (rocksdb_close db) = contents db;
  put_contents db k v db' : rocksdb_put db k v = (db', false) → contents db' = <[k := v]> (contents db);
  get_contents db k v : rocksdb_get db k = (v, false) → v = contents db !! k;
  get_error db k v : rocksdb_get db k = (v, true) → v = None;
  delete_contents db k db' : rocksdb_delete db k = (db', false) → contents db' = delete k (contents db) }.

(** A database that reports no error. *)
Class Reliable (DB : Type) `{RocksDB DB} : Prop := {
  open_succeeds db : is_Some (rocksdb_open db);
  put_succeeds db k v : (rocksdb_put db k v).2 = false;
  get_succeeds db k : (rocksdb_get db k).2 = false;
  delete_succeeds db k : (rocksdb_delete db k).2 = false }.

(** ** Keys *)

(** [%lu], [%u] and [%d]: decimal digits; 20 are enough for 64 bits. *)
Fixpoint decimal (fuel : nat) (n : Z) : list Z :=
  match fuel with
  | O => []
  | S fuel => if n <? 10 then [48 + n] else decimal fuel (n / 10) ++ [48 + n mod 10]
  end.
Definition fmt_lu (n : Z) : list Z := decimal 20 n.
Definition fmt_d (n : Z) : list Z := if n <? 0 then 45 :: decimal 20 (- n) else decimal 20 n.

(** "rocks_list_", "rocks_page_" and "rocks_xlog_" *)
Definition list_prefix : list Z := [114; 111; 99; 107; 115; 95; 108; 105; 115; 116; 95].
Definition page_prefix : list Z := [114; 111; 99; 107; 115; 95; 112; 97; 103; 101; 95].
Definition xlog_prefix : list Z := [114; 111; 99; 107; 115; 95; 120; 108; 111; 103; 95].

Definition MAX_PATH_LEN : Z := 256.

(** [snprintf] keeps one byte for the terminator. *)
Definition snprintf (s : list Z) : list Z := take (Z.to_nat (MAX_PATH_LEN - 1)) s.

Definition print_tag (tag : BufferTag) : list Z :=
  fmt_lu (spcNode (rnode tag)) ++ 95 :: fmt_lu (dbNode (rnode tag)) ++ 95 :: fmt_lu (relNode (rnode tag)) ++ 95 ::
  fmt_d (forkNum tag) ++ 95 :: fmt_lu (blockNum tag).
(** The conversions of the formats are [%lu] for the three object ids, which are
    unsigned 32-bit integers, [%d] and [%u] for fork and block, [%lu] for positions.
    What is printed for an object id is taken to be its value, as on machines that pass
    such arguments zero-extended; C leaves it undefined. *)
Definition ROCKSDB_LSN_LIST_KEY (tag : BufferTag) : list Z := snprintf (list_prefix ++ print_tag tag).
Definition ROCKSDB_PAGE_VERSION_KEY (tag : BufferTag) (lsn : Z) : list Z := snprintf (page_prefix ++ print_tag tag ++ 95 :: fmt_lu lsn).
Definition ROCKSDB_XLOG_KEY (lsn : Z) : list Z := snprintf (xlog_prefix ++ fmt_lu lsn).

(** ** Integers *)

(** Conversion to [int]. *)
Definition to_int (z : Z) : Z := let z := z mod 2 ^ 32 in if z <? 2 ^ 31 then z else z - 2 ^ 32.

(** The [uint64_t] of a block of memory. *)
Fixpoint words (n : nat) (bs : list Z) : list Z :=
  match n with
  | O => []
  | S n => le_val (take 8 bs) :: words n (drop 8 bs)
  end.
Definition word_bytes (ws : list Z) : list Z := concat (le_bytes 8 <$> ws).

Section kv.
Context {DB : Type} `{RocksDB DB}.

(** The global [db] and the database on disk. *)
Record kvstate : Type := mkKv { db_open : bool; db : DB }.

Definition InitKvStore (kv : kvstate) : kvstate :=
if db_open kv then kv else
match rocksdb_open (db kv) with
| Some d => mkKv true d
| None => kv
end.

(** A call of RocksDB with a NULL database. *)
Definition opened (kv : kvstate) : res kvstate :=
let kv := InitKvStore kv in if db_open kv then Ok kv else Err EOob.

Definition KvPut (kv : kvstate) (key value : list Z) (valueLen : Z) : res (kvstate * Z) :=
kv ← opened kv;
if (valueLen <? 0) || (zlen value <? valueLen) then Err EOob else
let '(d, err) := rocksdb_put (db kv) key (take (Z.to_nat valueLen) value) in
Ok (mkKv true d, if err then 1 else 0).

(** The result, the value and its length, which is 0 for NULL. *)
Definition KvGet (kv : kvstate) (key : list Z) : res (kvstate * (Z * option (list Z) * Z)) :=
kv ← opened kv;
let '(value, err) := rocksdb_get (db kv) key in
Ok (kv, (if err then 1 else 0, value, zlen (default [] value))).

Definition KvGetInt (kv : kvstate) (key : list Z) : res (kvstate * option Z) :=
'(kv, (_, value, _)) ← KvGet kv key;
match value with
| None => Ok (kv, None)
| Some value => v ← rd 4 value 0; Ok (kv, Some (to_int v))
end.

Definition KvPutInt (kv : kvstate) (key : list Z) (value : Z) : res (kvstate * Z) := KvPut kv key (le_bytes 4 value) 4.

Definition KvClose (kv : kvstate) : kvstate := if db_open kv then mkKv false (rocksdb_close (db kv)) else kv.

(** [err] is not initialised: [garbage] says whether it happens not to be
NULL, and then an error frees it. *)
Definition KvDelete (garbage : bool) (kv : kvstate) (key : list Z) : res (kvstate * Z) :=
kv ← opened kv;
let '(d, err) := rocksdb_delete (db kv) key in
if err && garbage then Err EUndef else
Ok (mkKv true d, if err || garbage then 1 else 0).

(** ** Records *)

(** [xl_tot_len] is the first field. *)
Definition PutXlogWithLsn (kv : kvstate) (lsn : Z) (record : list Z) : res (kvstate * Z) :=
xl_tot_len ← rd 4 record 0;
KvPut kv (ROCKSDB_XLOG_KEY lsn) record (to_int xl_tot_len).

Definition GetXlogWithLsn (kv : kvstate) (lsn : Z) : res (kvstate * (bool * option (list Z) * Z)) :=
'(kv, (_, record, record_size)) ← KvGet kv (ROCKSDB_XLOG_KEY lsn);
Ok (kv, (0 <? record_size, record, record_size)).

(** ** Lists *)

Definition PutListWithKey (kv : kvstate) (key : list Z) (listPointer : list Z) (listSize : Z) : res (kvstate * Z) :=
KvPut kv key (word_bytes listPointer) (to_int (listSize * 8)).

(** Whether it was found, the words and their number. *)
Definition GetListWithKey (kv : kvstate) (key : list Z) : res (kvstate * (bool * list Z * Z)) :=
'(kv, (_, value, size)) ← KvGet kv key;
Ok (kv, (0 <? size, words (Z.to_nat (size / 8)) (default [] value), to_int (size / 8))).

Definition GetListFromRocksdb (kv : kvstate) (tag : BufferTag) : res (kvstate * option (list Z * Z)) :=
'(kv, (err, value, size)) ← KvGet kv (ROCKSDB_LSN_LIST_KEY tag);
if negb (err =? 0) then Ok (kv, None)
else if size =? 0 then Ok (kv, None)
else Ok (kv, Some (words (Z.to_nat (size / 8)) (default [] value), to_int (size / 8))).

Definition PutList2Rocksdb (kv : kvstate) (tag : BufferTag) (listPointer : list Z) (listSize : Z) : res kvstate :=
'(kv, _) ← KvPut kv (ROCKSDB_LSN_LIST_KEY tag) (word_bytes listPointer) (to_int (listSize * 8));
Ok kv.

(** ** Versions of pages *)

Definition DeletePageFromRocksdb (garbage : bool) (kv : kvstate) (tag : BufferTag) (lsn : Z) : res kvstate :=
'(kv, _) ← KvDelete garbage kv (ROCKSDB_PAGE_VERSION_KEY tag lsn);
Ok kv.

Definition GetPageFromRocksdb (kv : kvstate) (tag : BufferTag) (lsn : Z) : res (kvstate * option (list Z)) :=
'(kv, (err, pageContent, valueSize)) ← KvGet kv (ROCKSDB_PAGE_VERSION_KEY tag lsn);
if negb (err =? 0) then Ok (kv, None)
else if valueSize =? 0 then Ok (kv, None)
else Ok (kv, pageContent).

Definition PutPage2Rocksdb (kv : kvstate) (tag : BufferTag) (lsn : Z) (pageContent : list Z) : res kvstate :=
'(kv, _) ← KvPut kv (ROCKSDB_PAGE_VERSION_KEY tag lsn) pageContent BLCKSZ;
Ok kv.

(** A new list starts with its length 1, the current position 0 and the
position; an old one is extended unless its last position is not smaller. *)
Definition InsertLsn2RocksdbList (kv : kvstate) (tag : BufferTag) (lsn : Z) : res kvstate :=
let tempKey := ROCKSDB_LSN_LIST_KEY tag in
'(kv, (found, int64List, listSize)) ← GetListWithKey kv tempKey;
if negb found then '(kv, _) ← PutListWithKey kv tempKey [1; 0; lsn] 3; Ok kv else
if listSize <? 1 then Err EOob else
match int64List !! Z.to_nat (listSize - 1) with
| None => Err EOob
| Some last =>
if lsn <=? last then Ok kv else
match take (Z.to_nat listSize) int64List with
| len :: rest =>
'(kv, _) ← PutListWithKey kv tempKey ((len + 1) mod 2 ^ 64 :: rest ++ [lsn]) (listSize + 1); Ok kv
| [] => Err EOob
end
end.
End kv.
Arguments kvstate DB : clear implicits.

(** ** Search in a list *)

(** The loop from word [i] on: the last word not above [targetLsn] before the
    first one above it, with its place. *)
Fixpoint lower_bound_find (fuel : nat) (uintList : list Z) (bound targetLsn i : Z) (found : option (Z * Z)) : res (option (Z * Z)) :=
  if negb (i <? bound) then Ok found else
  match fuel with
  | O => Err EFuel
  | S fuel =>
    match uintList !! Z.to_nat i with
    | None => Err EOob
    | Some v => if v <=? targetLsn then lower_bound_find fuel uintList bound targetLsn (i + 1) (Some (v, i)) else Ok found
    end
  end.

(** What is returned, and what was written to [foundLsn] and [foundPos]. *)
Definition FindListLowerBound (uintList : list Z) (targetLsn : Z) : res (Z * option (Z * Z)) :=
  match uintList with
  | listLen :: _currPos :: rest =>
    if listLen =? 0 then Ok (0, None) else
    match rest with
    | first :: _ =>
      if targetLsn <? first then Ok (0, None) else
      found ← lower_bound_find (length uintList) uintList ((listLen + 2) mod 2 ^ 64) targetLsn 2 None;
      Ok (1, found)
    | [] => Err EOob
    end
  | _ => Err EOob
  end.

(** ** Lists of [int] as bytes *)

Definition MarshalIntList (numList : list Z) : list Z := le_bytes 4 (zlen numList) ++ concat (le_bytes 4 <$> numList).
Definition UnmarshalListGetSize (p : list Z) : res Z := v ← rd 4 p 0; Ok (to_int v).
Definition UnmarshalListGetList (p : list Z) : list Z := drop 4 p.
