(* ===== verification/KvSpec.v ===== *)
(** * The theorems of the key-value store

    Keys of different things differ, so the store is a map from pages to their
    lists of positions, from versions of pages to pages, and from positions to
    records; the lists stay sorted, and the search finds the version to use. *)

From Stdlib Require Import Sorted.
From S2P Require Import Prelude Mem Page Buffer KvStore.

(** ** Printed numbers *)

Definition digits_val (ds : list Z) : Z := fold_left (λ acc d, 10 * acc + (d - 48)) ds 0.

Lemma digits_val_snoc ds d : digits_val (ds ++ [d]) = 10 * digits_val ds + (d - 48).
Proof. unfold digits_val. by rewrite fold_left_app. Qed.

Lemma decimal_val fuel : ∀ n, 0 ≤ n < 10 ^ Z.of_nat fuel → digits_val (decimal fuel n) = n.
Proof.
  induction fuel as [|fuel IH]; intros n Hn; cbn [decimal]; [cbn in Hn; unfold digits_val; cbn; lia|].
  destruct (Z.ltb_spec n 10); [unfold digits_val; cbn; lia|]. rewrite digits_val_snoc, IH; [pose proof (Z.div_mod n 10); lia|].
  rewrite Nat2Z.inj_succ, Z.pow_succ_r in Hn by lia. split; [apply Z.div_pos; lia|apply Z.div_lt_upper_bound; lia].
Qed.

(** Printed numbers consist of digits. *)
Definition is_digit (d : Z) : Prop := 48 ≤ d < 58.

Lemma decimal_digits fuel : ∀ n, 0 ≤ n → Forall is_digit (decimal fuel n).
Proof.
  induction fuel as [|fuel IH]; intros n Hn; cbn [decimal]; [constructor|]. destruct (Z.ltb_spec n 10).
  - constructor; [unfold is_digit; lia|constructor].
  - apply Forall_app. split; [apply IH; apply Z.div_pos; lia|]. constructor; [|constructor]. pose proof (Z.mod_pos_bound n 10). unfold is_digit. lia.
Qed.

Lemma decimal_length fuel : ∀ n, (length (decimal fuel n) ≤ fuel)%nat.
Proof. induction fuel as [|fuel IH]; intros n; cbn [decimal]; [done|]. destruct (n <? 10); [cbn; lia|]. rewrite length_app. specialize (IH (n / 10)). cbn. lia. Qed.

Lemma fmt_lu_inj a b : 0 ≤ a < 2 ^ 64 → 0 ≤ b < 2 ^ 64 → fmt_lu a = fmt_lu b → a = b.
Proof. intros Ha Hb E. unfold fmt_lu in E. rewrite <-(decimal_val 20 a), <-(decimal_val 20 b), E; [done|change (Z.of_nat 20) with 20; lia..]. Qed.

(** The first byte of a printed number is a digit. *)
Lemma decimal_head fuel n : 0 ≤ n → decimal (S fuel) n ≠ [].
Proof. intros Hn. cbn [decimal]. destruct (n <? 10); [done|]. by destruct (decimal fuel (n / 10)). Qed.

Lemma fmt_d_inj a b : - 2 ^ 31 ≤ a < 2 ^ 31 → - 2 ^ 31 ≤ b < 2 ^ 31 → fmt_d a = fmt_d b → a = b.
Proof.
  intros Ha Hb. unfold fmt_d.
  assert (Hneg : ∀ m n, 0 ≤ n → 45 :: m ≠ decimal 20 n).
  { intros m n Hn E. pose proof (decimal_digits 20 n Hn) as Hd. rewrite <-E in Hd. apply Forall_cons in Hd as [Hd _]. unfold is_digit in Hd. lia. }
  destruct (Z.ltb_spec a 0), (Z.ltb_spec b 0); intros E.
  - apply (f_equal (drop 1)) in E. cbn [drop] in E. assert (- a = - b); [|lia]. apply fmt_lu_inj; [lia..|exact E].
  - by apply Hneg in E.
  - symmetry in E. by apply Hneg in E.
  - apply fmt_lu_inj; [lia..|exact E].
Qed.

(** Fields without the separator are read back. *)
Definition no_sep (l : list Z) : Prop := Forall (λ d, d ≠ 95) l.

Lemma fmt_lu_sep n : 0 ≤ n → no_sep (fmt_lu n).
Proof. intros Hn. unfold no_sep, fmt_lu. eapply Forall_impl; [by apply decimal_digits|]. unfold is_digit. lia. Qed.
Lemma fmt_d_sep n : no_sep (fmt_d n).
Proof. unfold fmt_d. destruct (Z.ltb_spec n 0); [constructor; [done|]|]; apply fmt_lu_sep; lia. Qed.

Lemma sep_inj l1 l2 r1 r2 : no_sep l1 → no_sep l2 → l1 ++ 95 :: r1 = l2 ++ 95 :: r2 → l1 = l2 ∧ r1 = r2.
Proof.
  intros H1. revert l2. induction H1 as [|x l1 Hx _ IH]; intros l2 H2 E.
  - destruct H2 as [|y l2 Hy _]; cbn [app] in E; injection E; [done|congruence].
  - destruct H2 as [|y l2 Hy H2]; cbn [app] in E; injection E as E1 E2; [congruence|]. destruct (IH _ H2 E2) as [-> ->]. by subst.
Qed.

(** ** Keys *)

Record tag_fits (tag : BufferTag) : Prop := {
  tf_spc : 0 ≤ spcNode (rnode tag) < 2 ^ 32;
  tf_db : 0 ≤ dbNode (rnode tag) < 2 ^ 32;
  tf_rel : 0 ≤ relNode (rnode tag) < 2 ^ 32;
  tf_fork : - 2 ^ 31 ≤ forkNum tag < 2 ^ 31;
  tf_block : 0 ≤ blockNum tag < 2 ^ 32 }.
Definition lsn_fits (lsn : Z) : Prop := 0 ≤ lsn < 2 ^ 64.

Lemma print_tag_inj t1 t2 : tag_fits t1 → tag_fits t2 → print_tag t1 = print_tag t2 → t1 = t2.
Proof.
  intros [] []. unfold print_tag. intros E.
  apply sep_inj in E as [E1 E]; [|apply fmt_lu_sep; lia..]. apply sep_inj in E as [E2 E]; [|apply fmt_lu_sep; lia..]. apply sep_inj in E as [E3 E]; [|apply fmt_lu_sep; lia..].
  apply sep_inj in E as [E4 E5]; [|apply fmt_d_sep..].
  apply fmt_lu_inj in E1, E2, E3, E5; [|lia..]. apply fmt_d_inj in E4; [|lia..]. destruct t1 as [[] ? ?], t2 as [[] ? ?]. cbn in *. by subst.
Qed.

Lemma print_tag_lsn_inj t1 l1 t2 l2 : tag_fits t1 → tag_fits t2 → lsn_fits l1 → lsn_fits l2 →
  print_tag t1 ++ 95 :: fmt_lu l1 = print_tag t2 ++ 95 :: fmt_lu l2 → t1 = t2 ∧ l1 = l2.
Proof.
  intros H1 H2 Hl1 Hl2 E.
  assert (Hs : ∀ t, tag_fits t → ∃ a b c d e, print_tag t = a ++ 95 :: b ++ 95 :: c ++ 95 :: d ++ 95 :: e ∧ no_sep a ∧ no_sep b ∧ no_sep c ∧ no_sep d ∧ no_sep e).
  { intros t []. do 5 eexists. split; [reflexivity|]. split_and!; try (apply fmt_lu_sep; lia). apply fmt_d_sep. }
  destruct (Hs t1 H1) as (a1 & b1 & c1 & d1 & e1 & P1 & A1 & B1 & C1 & D1 & X1), (Hs t2 H2) as (a2 & b2 & c2 & d2 & e2 & P2 & A2 & B2 & C2 & D2 & X2).
  assert (E' := E). rewrite P1, P2 in E'. repeat (rewrite <-!app_assoc in E'; cbn [app] in E').
  apply sep_inj in E' as [-> E']; [|done..]. apply sep_inj in E' as [-> E']; [|done..]. apply sep_inj in E' as [-> E']; [|done..].
  apply sep_inj in E' as [-> E']; [|done..]. apply sep_inj in E' as [-> E']; [|done..]. split; [|by apply fmt_lu_inj].
  apply print_tag_inj; [done..|]. by rewrite P1, P2.
Qed.

(** No key is cut off. *)
Lemma fmt_length n : (length (fmt_lu n) ≤ 20)%nat ∧ (length (fmt_d n) ≤ 21)%nat.
Proof. unfold fmt_lu, fmt_d. pose proof (decimal_length 20 n). pose proof (decimal_length 20 (- n)). destruct (n <? 0); cbn [length]; lia. Qed.

Lemma print_tag_length tag : (length (print_tag tag) ≤ 105)%nat.
Proof.
  unfold print_tag. repeat (rewrite length_app; cbn [length]).
  pose proof (fmt_length (spcNode (rnode tag))). pose proof (fmt_length (dbNode (rnode tag))). pose proof (fmt_length (relNode (rnode tag))).
  pose proof (fmt_length (forkNum tag)). pose proof (fmt_length (blockNum tag)). lia.
Qed.

Lemma snprintf_id s : (length s ≤ 255)%nat → snprintf s = s.
Proof. intros Hs. unfold snprintf. apply take_ge. exact Hs. Qed.

Lemma list_key_eq tag : ROCKSDB_LSN_LIST_KEY tag = list_prefix ++ print_tag tag.
Proof. apply snprintf_id. rewrite length_app. pose proof (print_tag_length tag). change (length list_prefix) with 11%nat. lia. Qed.
Lemma page_key_eq tag lsn : ROCKSDB_PAGE_VERSION_KEY tag lsn = page_prefix ++ print_tag tag ++ 95 :: fmt_lu lsn.
Proof. apply snprintf_id. rewrite !length_app. cbn [length]. pose proof (print_tag_length tag). pose proof (fmt_length lsn). change (length page_prefix) with 11%nat. lia. Qed.
Lemma xlog_key_eq lsn : ROCKSDB_XLOG_KEY lsn = xlog_prefix ++ fmt_lu lsn.
Proof. apply snprintf_id. rewrite length_app. pose proof (fmt_length lsn). change (length xlog_prefix) with 11%nat. lia. Qed.

(** The three kinds of keys. *)
Inductive item : Type := ItList (tag : BufferTag) | ItPage (tag : BufferTag) (lsn : Z) | ItXlog (lsn : Z).
#[export] Instance item_eq_dec : EqDecision item.
Proof. solve_decision. Defined.
Definition item_fits (i : item) : Prop :=
  match i with ItList t => tag_fits t | ItPage t l => tag_fits t ∧ lsn_fits l | ItXlog l => lsn_fits l end.
Definition key_of (i : item) : list Z :=
  match i with ItList t => ROCKSDB_LSN_LIST_KEY t | ItPage t l => ROCKSDB_PAGE_VERSION_KEY t l | ItXlog l => ROCKSDB_XLOG_KEY l end.

Lemma key_of_inj i j : item_fits i → item_fits j → key_of i = key_of j → i = j.
Proof.
  intros Hi Hj. destruct i as [t|t l|l], j as [t'|t' l'|l']; cbn [key_of item_fits] in *; rewrite ?list_key_eq, ?page_key_eq, ?xlog_key_eq; try discriminate; intros E; apply app_inv_head in E.
  - f_equal. by apply print_tag_inj.
  - destruct Hi, Hj. apply print_tag_lsn_inj in E as [-> ->]; done.
  - f_equal. by apply fmt_lu_inj.
Qed.

(** ** Lists of words *)

Lemma length_word_bytes ws : length (word_bytes ws) = (8 * length ws)%nat.
Proof. unfold word_bytes. induction ws as [|w ws IH]; [done|]. rewrite fmap_cons. cbn [concat]. rewrite length_app, length_le_bytes, IH. cbn [length]. lia. Qed.

Lemma words_bytes ws : Forall lsn_fits ws → words (length ws) (word_bytes ws) = ws.
Proof.
  unfold word_bytes. induction 1 as [|w ws Hw _ IH]; [done|]. rewrite fmap_cons. cbn [concat length words].
  rewrite take_app_length', drop_app_length' by (symmetry; apply length_le_bytes). rewrite IH, le_val_bytes. change (256 ^ Z.of_nat 8) with (2 ^ 64). by rewrite Z.mod_small.
Qed.

Lemma to_int_small z : 0 ≤ z < 2 ^ 31 → to_int z = z.
Proof. intros Hz. unfold to_int. rewrite Z.mod_small by lia. by rewrite (proj2 (Z.ltb_lt _ _)) by lia. Qed.

(** The value of a list of positions: its length, the current position, the
    positions. *)
Definition header (ls : list Z) : list Z := zlen ls :: 0 :: ls.

Lemma header_fits ls : zlen ls < 2 ^ 64 → Forall lsn_fits ls → Forall lsn_fits (header ls).
Proof. intros Hz Hl. pose proof (zlen_nonneg ls). constructor; [done|]. constructor; [done|exact Hl]. Qed.

(** The words of a stored list. *)
Lemma header_words ls : zlen ls < 2 ^ 27 → Forall lsn_fits ls →
  let size := zlen (word_bytes (header ls)) in
  size = 8 * (2 + zlen ls) ∧ words (Z.to_nat (size / 8)) (word_bytes (header ls)) = header ls ∧ to_int (size / 8) = 2 + zlen ls.
Proof.
  intros Hz Hl size. assert (Hs : size = 8 * (2 + zlen ls)) by (unfold size, zlen, header; rewrite length_word_bytes; cbn [length]; lia).
  pose proof (zlen_nonneg ls). split; [done|]. rewrite Hs, (Z.mul_comm 8), Z.div_mul by lia. split; [|rewrite to_int_small; lia].
  replace (Z.to_nat (2 + zlen ls)) with (length (header ls)) by (unfold header, zlen; cbn [length]; lia). apply words_bytes, header_fits; [lia|done].
Qed.

(** ** The abstract store *)

Record versions : Type := mkVersions {
  v_lists : gmap BufferTag (list Z);
  v_pages : gmap (BufferTag * Z) (list Z);
  v_xlogs : gmap Z (list Z) }.

(** A position is added behind the last one if it is larger. *)
Definition add_position (ls : list Z) (lsn : Z) : list Z :=
  match last ls with Some l => if lsn <=? l then ls else ls ++ [lsn] | None => [lsn] end.

Inductive kv_op : Type :=
| OpInsertLsn (tag : BufferTag) (lsn : Z)
| OpPutPage (tag : BufferTag) (lsn : Z) (content : list Z)
| OpDeletePage (garbage : bool) (tag : BufferTag) (lsn : Z)
| OpPutXlog (lsn : Z) (record : list Z)
| OpClose.

Definition op_fits (op : kv_op) : Prop :=
  match op with
  | OpInsertLsn t l => tag_fits t ∧ lsn_fits l
  | OpPutPage t l c => tag_fits t ∧ lsn_fits l ∧ zlen c = BLCKSZ
  | OpDeletePage _ t l => tag_fits t ∧ lsn_fits l
  | OpPutXlog l r => lsn_fits l ∧ 4 ≤ zlen r < 2 ^ 31 ∧ mget 4 r 0 = zlen r
  | OpClose => True
  end.

Definition v_exec (v : versions) (op : kv_op) : versions :=
  match op with
  | OpInsertLsn t l => mkVersions (<[t := add_position (default [] (v_lists v !! t)) l]> (v_lists v)) (v_pages v) (v_xlogs v)
  | OpPutPage t l c => mkVersions (v_lists v) (<[(t, l) := c]> (v_pages v)) (v_xlogs v)
  | OpDeletePage _ t l => mkVersions (v_lists v) (delete (t, l) (v_pages v)) (v_xlogs v)
  | OpPutXlog l r => mkVersions (v_lists v) (v_pages v) (<[l := r]> (v_xlogs v))
  | OpClose => v
  end.

Definition value_of (v : versions) (i : item) : option (list Z) :=
  match i with
  | ItList t => (λ ls, word_bytes (header ls)) <$> v_lists v !! t
  | ItPage t l => v_pages v !! (t, l)
  | ItXlog l => v_xlogs v !! l
  end.

Record list_wf (n : Z) (ls : list Z) : Prop := {
  lw_nonempty : ls ≠ [];
  lw_sorted : StronglySorted Z.lt ls;
  lw_fits : Forall lsn_fits ls;
  lw_length : zlen ls ≤ n }.

Record v_wf (n : Z) (v : versions) : Prop := {
  vw_lists : ∀ t ls, v_lists v !! t = Some ls → list_wf n ls;
  vw_pages : ∀ t l c, v_pages v !! (t, l) = Some c → zlen c = BLCKSZ;
  vw_xlogs : ∀ l r, v_xlogs v !! l = Some r → 0 < zlen r }.

Lemma last_in_sorted ls l : StronglySorted Z.lt ls → last ls = Some l → Forall (λ x, x ≤ l) ls.
Proof.
  induction 1 as [|x ls Hs IH Hf]; [done|]. destruct ls as [|y ls]; [intros [= ->]; constructor; [lia|constructor]|]. rewrite last_cons_cons. intros Hl. specialize (IH Hl).
  constructor; [|done]. apply Forall_cons in IH as [? _], Hf as [? _]. lia.
Qed.

Lemma sorted_snoc ls x : StronglySorted Z.lt ls → Forall (λ y, y < x) ls → StronglySorted Z.lt (ls ++ [x]).
Proof.
  induction 1 as [|y ls Hs IH Hf]; intros Hx; [apply SSorted_cons; constructor|]. apply Forall_cons in Hx as [Hy Hx]. cbn [app]. constructor; [by apply IH|].
  apply Forall_app. split; [done|]. constructor; [done|constructor].
Qed.

Lemma add_position_wf n ls lsn : ls = [] ∨ list_wf n ls → 0 ≤ n → lsn_fits lsn → list_wf (n + 1) (add_position ls lsn).
Proof.
  intros Hls Hn Hl. unfold add_position. destruct (last ls) as [l|] eqn:E.
  - destruct Hls as [->|[Hne Hs Hf Hz]]; [done|]. pose proof (last_in_sorted _ _ Hs E) as Hmax. destruct (Z.leb_spec lsn l); [constructor; [done..|lia]|].
    constructor; [by destruct ls| |apply Forall_app; split; [done|by apply Forall_singleton]|rewrite zlen_app; change (zlen [lsn]) with 1; lia].
    apply sorted_snoc; [done|]. eapply Forall_impl; [exact Hmax|]. cbn. lia.
  - constructor; [done|apply SSorted_cons; constructor|apply Forall_singleton; done|change (zlen [lsn]) with 1; lia].
Qed.

Lemma v_exec_wf n v op : v_wf n v → 0 ≤ n → op_fits op → v_wf (n + 1) (v_exec v op).
Proof.
  intros [Hl Hp Hx] Hn Ho.
  assert (Hmono : ∀ t ls, v_lists v !! t = Some ls → list_wf (n + 1) ls) by (intros t ls E; destruct (Hl t ls E); constructor; [done..|lia]).
  destruct op as [t l|t l c|g t l|l r|]; cbn [v_exec op_fits] in *; constructor; cbn [v_lists v_pages v_xlogs]; try done.
  - intros t' ls. destruct (decide (t = t')) as [<-|Hne]; [rewrite lookup_insert_eq|rewrite lookup_insert_ne by done; apply Hmono]. intros [= <-].
    apply add_position_wf; [|done|tauto]. destruct (v_lists v !! t) eqn:E; [right; by eapply Hl|by left].
  - intros t' l' c'. destruct (decide ((t, l) = (t', l'))) as [[= <- <-]|Hne]; [rewrite lookup_insert_eq; intros [= <-]; tauto|rewrite lookup_insert_ne by done; apply Hp].
  - intros t' l' c'. rewrite lookup_delete_Some. intros [_ E]. by eapply Hp.
  - intros l' r'. destruct (decide (l = l')) as [<-|Hne]; [rewrite lookup_insert_eq; intros [= <-]; lia|rewrite lookup_insert_ne by done; apply Hx].
Qed.

(** ** Refinement *)

Section refinement.
Context {DB : Type} `{RocksDBLaws DB} `{!Reliable DB}.

Definition kv_exec (kv : kvstate DB) (op : kv_op) : res (kvstate DB) :=
match op with
| OpInsertLsn t l => InsertLsn2RocksdbList kv t l
| OpPutPage t l c => PutPage2Rocksdb kv t l c
| OpDeletePage g t l => DeletePageFromRocksdb g kv t l
| OpPutXlog l r => '(kv, _) ← PutXlogWithLsn kv l r; Ok kv
| OpClose => Ok (KvClose kv)
end.
Fixpoint kv_run (kv : kvstate DB) (ops : list kv_op) : res (kvstate DB) :=
match ops with [] => Ok kv | op :: ops => kv ← kv_exec kv op; kv_run kv ops end.

(** The database holds what the abstract store says. *)
Definition holds_versions (kv : kvstate DB) (v : versions) : Prop := ∀ i, item_fits i → contents (db kv) !! key_of i = value_of v i.

Lemma opened_spec kv : ∃ d, opened kv = Ok (mkKv true d) ∧ contents d = contents (db kv).
Proof using All.
unfold opened, InitKvStore. destruct kv as [[] d]; cbn [db_open]; [by exists d|]. destruct (open_succeeds d) as [d' E]. cbn [KvStore.db]. rewrite E. cbn [db_open]. exists d'. split; [done|].
by eapply open_contents.
Qed.

Lemma KvPut_spec kv key value : ∃ d, KvPut kv key value (zlen value) = Ok (mkKv true d, 0) ∧ contents d = <[key := value]> (contents (db kv)).
Proof using All.
destruct (opened_spec kv) as (d & E & Hd). unfold KvPut. rewrite E. cbn [mbind res_bind KvStore.db]. pose proof (zlen_nonneg value).
rewrite (proj2 (Z.ltb_ge _ _)), (proj2 (Z.ltb_ge _ _)) by lia. cbn [orb]. replace (Z.to_nat (zlen value)) with (length value) by (unfold zlen; lia). rewrite firstn_all.
destruct (rocksdb_put d key value) as [d' err] eqn:Ep. pose proof (put_succeeds d key value) as Hs. rewrite Ep in Hs. cbn in Hs. subst err. exists d'. split; [done|].
by rewrite (put_contents _ _ _ _ Ep), Hd.
Qed.

Lemma KvGet_spec kv key : ∃ d, let value := contents (db kv) !! key in
KvGet kv key = Ok (mkKv true d, (0, value, zlen (default [] value))) ∧ contents d = contents (db kv).
Proof using All.
destruct (opened_spec kv) as (d & E & Hd). exists d. split; [|done]. unfold KvGet. rewrite E. cbn [mbind res_bind KvStore.db].
destruct (rocksdb_get d key) as [v err] eqn:Eg. pose proof (get_succeeds d key) as Hs. rewrite Eg in Hs. cbn in Hs. subst err. apply get_contents in Eg. by rewrite Eg, Hd.
Qed.

(** One entry changes. *)
Lemma holds_update kv v d v' i : item_fits i → holds_versions kv v → (∀ j, j ≠ i → value_of v' j = value_of v j) →
contents d = partial_alter (λ _, value_of v' i) (key_of i) (contents (db kv)) → holds_versions (mkKv true d) v'.
Proof using All.
intros Hi Hh Hv Hd j Hj. cbn [KvStore.db]. rewrite Hd. destruct (decide (j = i)) as [->|Hne]; [by rewrite lookup_partial_alter_eq|].
rewrite lookup_partial_alter_ne; [rewrite Hv by done; by apply Hh|]. intros E. by apply Hne, key_of_inj.
Qed.

Lemma holds_contents kv v d : holds_versions kv v → contents d = contents (db kv) → holds_versions (mkKv true d) v.
Proof using All. intros Hh Hd i Hi. cbn [KvStore.db]. rewrite Hd. by apply Hh. Qed.

Lemma GetList_spec kv v n t : holds_versions kv v → v_wf n v → n < 2 ^ 27 → tag_fits t → ∃ d, contents d = contents (db kv) ∧
GetListWithKey kv (ROCKSDB_LSN_LIST_KEY t) = Ok (mkKv true d, match v_lists v !! t with Some ls => (true, header ls, 2 + zlen ls) | None => (false, [], 0) end) ∧
GetListFromRocksdb kv t = Ok (mkKv true d, (λ ls, (header ls, 2 + zlen ls)) <$> v_lists v !! t).
Proof using All.
intros Hh Hw Hn Ht. destruct (KvGet_spec kv (ROCKSDB_LSN_LIST_KEY t)) as (d & Eg & Hd). exists d. split; [done|]. unfold GetListWithKey, GetListFromRocksdb. rewrite Eg. cbn [mbind res_bind].
change (ROCKSDB_LSN_LIST_KEY t) with (key_of (ItList t)). rewrite (Hh (ItList t) Ht). cbn [value_of]. destruct (v_lists v !! t) as [ls|] eqn:E; cbn [fmap option_fmap option_map from_option id Z.eqb negb].
- destruct (vw_lists _ _ Hw t ls E) as [_ _ Hf Hz]. destruct (header_words ls ltac:(lia) Hf) as (Hs & -> & ->). rewrite Hs. pose proof (zlen_nonneg ls).
rewrite (proj2 (Z.ltb_lt _ _)), (proj2 (Z.eqb_neq _ _)) by lia. done.
- done.
Qed.

Lemma insert_refines kv v n t l : holds_versions kv v → v_wf n v → n < 2 ^ 27 → tag_fits t → lsn_fits l →
∃ kv', InsertLsn2RocksdbList kv t l = Ok kv' ∧ holds_versions kv' (v_exec v (OpInsertLsn t l)).
Proof using All.
intros Hh Hw Hn Ht Hl. destruct (GetList_spec kv v n t Hh Hw Hn Ht) as (d & Hd & Eg & _). unfold InsertLsn2RocksdbList. rewrite Eg. cbn [mbind res_bind].
assert (Hput : ∀ ls k, zlen ls < 2 ^ 28 - 2 → k = 2 + zlen ls → add_position (default [] (v_lists v !! t)) l = ls →
∃ kv', ('(kv, _) ← PutListWithKey (mkKv true d) (ROCKSDB_LSN_LIST_KEY t) (header ls) k; Ok kv) = Ok kv' ∧ holds_versions kv' (v_exec v (OpInsertLsn t l))).
{ intros ls k Hz -> Ha. unfold PutListWithKey. pose proof (zlen_nonneg ls). rewrite to_int_small by lia.
replace ((2 + zlen ls) * 8) with (zlen (word_bytes (header ls))) by (unfold zlen, header; rewrite length_word_bytes; cbn [length]; lia).
destruct (KvPut_spec (mkKv true d) (ROCKSDB_LSN_LIST_KEY t) (word_bytes (header ls))) as (d' & -> & Hd'). cbn [mbind res_bind]. eexists. split; [reflexivity|].
apply (holds_update kv v d' _ (ItList t)); [done|done| |].
- intros [t'|t' l'|l'] Hne; cbn [value_of v_exec v_lists v_pages v_xlogs]; [|done..]. by rewrite lookup_insert_ne by congruence.
- cbn [value_of v_exec v_lists key_of]. rewrite lookup_insert_eq. cbn [KvStore.db] in Hd'. by rewrite Hd', Hd, Ha. }
destruct (v_lists v !! t) as [ls|] eqn:E; cbn [negb].
2:{ apply (Hput [l] 3); done. }
destruct (vw_lists _ _ Hw t ls E) as [Hne Hs Hf Hz]. pose proof (zlen_nonneg ls). rewrite (proj2 (Z.ltb_ge _ _)) by lia.
destruct (last ls) as [x|] eqn:Ex; [|by apply last_None in Ex].
assert (El : header ls !! Z.to_nat (2 + zlen ls - 1) = Some x).
{ rewrite last_lookup in Ex. unfold header, zlen. replace (Z.to_nat (2 + Z.of_nat (length ls) - 1)) with (S (S (pred (length ls)))) by (destruct ls; [done|]; cbn [length]; lia). done. }
rewrite El. replace (Z.to_nat (2 + zlen ls)) with (length (header ls)) by (unfold header, zlen; cbn [length]; lia). rewrite firstn_all. unfold header at 1.
assert (Ea : add_position ls l = if l <=? x then ls else ls ++ [l]) by (unfold add_position; by rewrite Ex). destruct (l <=? x).
- eexists. split; [reflexivity|]. apply (holds_contents kv); [|done]. intros [t'|t' l'|l'] Hi; rewrite (Hh _ Hi); cbn [value_of v_exec v_lists v_pages v_xlogs]; [|done..].
destruct (decide (t = t')) as [<-|Hn']; [rewrite lookup_insert_eq, E; cbn [from_option id]; by rewrite Ea|by rewrite lookup_insert_ne].
- rewrite Z.mod_small by lia. replace (zlen ls + 1) with (zlen (ls ++ [l])) by (by rewrite zlen_app). apply (Hput (ls ++ [l])); rewrite ?zlen_app; change (zlen [l]) with 1; [lia|lia|done].
Qed.

Lemma put_page_refines kv v t l c : holds_versions kv v → tag_fits t → lsn_fits l → zlen c = BLCKSZ →
∃ kv', PutPage2Rocksdb kv t l c = Ok kv' ∧ holds_versions kv' (v_exec v (OpPutPage t l c)).
Proof using All.
intros Hh Ht Hl Hc. unfold PutPage2Rocksdb. rewrite <-Hc. destruct (KvPut_spec kv (ROCKSDB_PAGE_VERSION_KEY t l) c) as (d & -> & Hd). eexists. split; [reflexivity|].
apply (holds_update kv v d _ (ItPage t l)); [done|done| |].
- intros [t'|t' l'|l'] Hne; cbn [value_of v_exec v_lists v_pages v_xlogs]; [done| |done]. by rewrite lookup_insert_ne by congruence.
- cbn [value_of v_exec v_pages key_of]. rewrite lookup_insert_eq. by rewrite Hd.
Qed.

Lemma put_xlog_refines kv v l r : holds_versions kv v → op_fits (OpPutXlog l r) →
∃ kv', PutXlogWithLsn kv l r = Ok (kv', 0) ∧ holds_versions kv' (v_exec v (OpPutXlog l r)).
Proof using All.
intros Hh (Hl & Hz & Hr). unfold PutXlogWithLsn. rewrite rd_ok by lia. cbn [mbind res_bind]. rewrite Hr, to_int_small by lia.
destruct (KvPut_spec kv (ROCKSDB_XLOG_KEY l) r) as (d & -> & Hd). eexists. split; [reflexivity|]. apply (holds_update kv v d _ (ItXlog l)); [done|done| |].
- intros [t'|t' l'|l'] Hne; cbn [value_of v_exec v_lists v_pages v_xlogs]; [done..|]. by rewrite lookup_insert_ne by congruence.
- cbn [value_of v_exec v_xlogs key_of]. rewrite lookup_insert_eq. by rewrite Hd.
Qed.

(** Whatever the uninitialised pointer holds, the version is gone. *)
Lemma kv_delete_refines g kv v t l : holds_versions kv v → tag_fits t → lsn_fits l →
∃ kv', DeletePageFromRocksdb g kv t l = Ok kv' ∧ holds_versions kv' (v_exec v (OpDeletePage g t l)).
Proof using All.
intros Hh Ht Hl. destruct (opened_spec kv) as (d & E & Hd). unfold DeletePageFromRocksdb, KvDelete. rewrite E. cbn [mbind res_bind KvStore.db].
destruct (rocksdb_delete d (ROCKSDB_PAGE_VERSION_KEY t l)) as [d' err] eqn:Ed. pose proof (delete_succeeds d (ROCKSDB_PAGE_VERSION_KEY t l)) as Hs. rewrite Ed in Hs. cbn in Hs. subst err.
eexists. split; [reflexivity|]. apply (holds_update kv v d' _ (ItPage t l)); [done|done| |].
- intros [t'|t' l'|l'] Hne; cbn [value_of v_exec v_lists v_pages v_xlogs]; [done| |done]. by rewrite lookup_delete_ne by congruence.
- cbn [value_of v_exec v_pages key_of]. rewrite lookup_delete_eq. by rewrite (delete_contents _ _ _ Ed), Hd.
Qed.

Lemma close_holds kv v : holds_versions kv v → holds_versions (KvClose kv) v.
Proof using All. intros Hh i Hi. destruct kv as [[] d]; [|by apply Hh]. unfold KvClose. cbn [db_open KvStore.db]. rewrite close_contents. by apply (Hh i). Qed.

Lemma exec_refines kv v n op : holds_versions kv v → v_wf n v → n < 2 ^ 27 → op_fits op → ∃ kv', kv_exec kv op = Ok kv' ∧ holds_versions kv' (v_exec v op).
Proof using All.
intros Hh Hw Hn Ho. destruct op as [t l|t l c|g t l|l r|]; cbn [kv_exec].
- destruct Ho. by eapply insert_refines.
- destruct Ho as (? & ? & ?). by eapply put_page_refines.
- destruct Ho. by eapply kv_delete_refines.
- destruct (put_xlog_refines kv v l r Hh Ho) as (kv' & -> & Hk). by exists kv'.
- exists (KvClose kv). split; [done|by apply close_holds].
Qed.

Lemma run_refines ops : ∀ kv v n, holds_versions kv v → v_wf n v → 0 ≤ n → n + zlen ops < 2 ^ 27 → Forall op_fits ops →
∃ kv', kv_run kv ops = Ok kv' ∧ holds_versions kv' (fold_left v_exec ops v) ∧ v_wf (n + zlen ops) (fold_left v_exec ops v).
Proof using All.
induction ops as [|op ops IH]; intros kv v n Hh Hw Hn Hz Ho; [exists kv; split_and!; [done..|]; by rewrite Z.add_0_r|].
apply Forall_cons in Ho as [Ho Hos]. rewrite zlen_cons in Hz |- *. pose proof (zlen_nonneg ops). destruct (exec_refines kv v n op Hh Hw ltac:(lia) Ho) as (kv1 & E1 & Hh1).
pose proof (v_exec_wf n v op Hw Hn Ho) as Hw1. cbn [kv_run fold_left]. rewrite E1. cbn [mbind res_bind].
destruct (IH kv1 _ (n + 1) Hh1 Hw1 ltac:(lia) ltac:(lia) Hos) as (kv' & E & Hh' & Hw'). exists kv'. split_and!; [done..|]. by replace (n + (1 + zlen ops)) with (n + 1 + zlen ops) by lia.
Qed.

(** What the reads give. *)
Lemma reads_spec kv v n : holds_versions kv v → v_wf n v → n < 2 ^ 27 →
(∀ t, tag_fits t → snd <$> GetListFromRocksdb kv t = Ok ((λ ls, (header ls, 2 + zlen ls)) <$> v_lists v !! t)) ∧
(∀ t l, tag_fits t → lsn_fits l → snd <$> GetPageFromRocksdb kv t l = Ok (v_pages v !! (t, l))) ∧
(∀ l, lsn_fits l → snd <$> GetXlogWithLsn kv l = Ok (bool_decide (is_Some (v_xlogs v !! l)), v_xlogs v !! l, zlen (default [] (v_xlogs v !! l)))).
Proof using All.
intros Hh Hw Hn. split_and!.
- intros t Ht. by destruct (GetList_spec kv v n t Hh Hw Hn Ht) as (d & _ & _ & ->).
- intros t l Ht Hl. unfold GetPageFromRocksdb. destruct (KvGet_spec kv (ROCKSDB_PAGE_VERSION_KEY t l)) as (d & -> & _). cbn [mbind res_bind].
pose proof (Hh (ItPage t l) (conj Ht Hl)) as E. cbn [key_of value_of] in E. rewrite E. destruct (v_pages v !! (t, l)) as [c|] eqn:Ec; [|done].
pose proof (vw_pages _ _ Hw _ _ _ Ec) as Hc. cbn [from_option id Z.eqb negb]. by rewrite Hc.
- intros l Hl. unfold GetXlogWithLsn. destruct (KvGet_spec kv (ROCKSDB_XLOG_KEY l)) as (d & -> & _). cbn [mbind res_bind].
pose proof (Hh (ItXlog l) Hl) as E. cbn [key_of value_of] in E. rewrite E. destruct (v_xlogs v !! l) as [r|] eqn:Er; [|done].
pose proof (vw_xlogs _ _ Hw _ _ Er). cbn [from_option id fmap res_fmap snd]. by rewrite (proj2 (Z.ltb_lt _ _)) by lia.
Qed.
End refinement.

Definition no_versions : versions := mkVersions ∅ ∅ ∅.

Lemma no_versions_wf : v_wf 0 no_versions.
Proof. by constructor. Qed.

(** C14: the key-value store is a versioned page store.  Start with an empty
    database and run any sequence of insertions of positions, writes and deletions
    of versions of pages, writes of records and closings, for any pages: no
    call crashes, whatever an uninitialised error pointer holds, and afterwards
    the lists of positions, the versions and the records read are exactly those of
    the abstract store; keys printed from different identifiers never meet. *)
Theorem kv_store_refines {DB} `{RocksDBLaws DB, !Reliable DB} (kv : kvstate DB) ops :
  contents (db kv) = ∅ → zlen ops < 2 ^ 27 → Forall op_fits ops →
  let v := fold_left v_exec ops no_versions in
  ∃ kv', kv_run kv ops = Ok kv' ∧
    (∀ t, tag_fits t → snd <$> GetListFromRocksdb kv' t = Ok ((λ ls, (header ls, 2 + zlen ls)) <$> v_lists v !! t)) ∧
    (∀ t l, tag_fits t → lsn_fits l → snd <$> GetPageFromRocksdb kv' t l = Ok (v_pages v !! (t, l))) ∧
    (∀ l, lsn_fits l → snd <$> GetXlogWithLsn kv' l = Ok (bool_decide (is_Some (v_xlogs v !! l)), v_xlogs v !! l, zlen (default [] (v_xlogs v !! l)))) ∧
    (∀ t ls, v_lists v !! t = Some ls → StronglySorted Z.lt ls).
Proof.
  intros He Hz Ho v. destruct (run_refines ops kv no_versions 0) as (kv' & E & Hh & Hw); [|apply no_versions_wf|done|lia|done|].
  { intros i _. rewrite He, lookup_empty. by destruct i. }
  exists kv'. split; [done|]. destruct (reads_spec kv' v _ Hh Hw ltac:(lia)) as (H1 & H2 & H3). split_and!; [done..|]. intros t ls Hl. by destruct (vw_lists _ _ Hw t ls Hl).
Qed.

(** ** The search for a version *)

(** What a search among the sorted positions [ls], of which the first is word
    [i], may give. *)
Definition greatest_below (ls : list Z) (i target l pos : Z) : Prop :=
  i ≤ pos ∧ ls !! Z.to_nat (pos - i) = Some l ∧ l ≤ target ∧ (∀ x, x ∈ ls → x ≤ target → x ≤ l).

Lemma find_loop_spec ws target fuel : ∀ ls i found, StronglySorted Z.lt ls → 0 ≤ i → (∀ j : nat, ws !! (Z.to_nat i + j)%nat = ls !! j) → (length ls ≤ fuel)%nat →
  lower_bound_find fuel ws (i + zlen ls) target i found = Ok found ∧ Forall (λ x, target < x) ls ∨
  ∃ l pos, lower_bound_find fuel ws (i + zlen ls) target i found = Ok (Some (l, pos)) ∧ greatest_below ls i target l pos.
Proof.
  induction fuel as [|fuel IH]; intros ls i found Hs Hi Hw Hf; (destruct ls as [|x ls]; [left; cbn [lower_bound_find]; change (zlen []) with 0; rewrite Z.add_0_r, Z.ltb_irrefl; split; [done|constructor]|]); [cbn in Hf; lia|].
  apply StronglySorted_inv in Hs as [Hs Hx]. cbn [lower_bound_find]. rewrite zlen_cons. pose proof (zlen_nonneg ls). rewrite (proj2 (Z.ltb_lt _ _)) by lia. cbn [negb].
  pose proof (Hw 0%nat) as H0. rewrite Nat.add_0_r in H0. rewrite H0. cbn [lookup list_lookup]. destruct (Z.leb_spec x target) as [Hle|Hgt].
  - right. replace (i + (1 + zlen ls)) with (i + 1 + zlen ls) by lia.
    destruct (IH ls (i + 1) (Some (x, i)) Hs) as [[-> Hall]|(l & pos & -> & Hp & Hl & Hlt & Hmax)]; [lia| |cbn in Hf; lia| |].
    + intros j. replace (Z.to_nat (i + 1) + j)%nat with (Z.to_nat i + S j)%nat by lia. apply (Hw (S j)).
    + exists x, i. split; [done|]. split_and!; [lia|by rewrite Z.sub_diag|done|]. intros y Hy Hyt. apply elem_of_cons in Hy as [->|Hy]; [lia|].
      rewrite Forall_forall in Hall. specialize (Hall y Hy). lia.
    + exists l, pos. split; [done|]. split_and!; [lia| |done|].
      * replace (Z.to_nat (pos - i)) with (S (Z.to_nat (pos - (i + 1)))) by lia. exact Hl.
      * intros y Hy Hyt. apply elem_of_cons in Hy as [->|Hy]; [|by apply Hmax]. rewrite Forall_forall in Hx. apply list_elem_of_lookup_2 in Hl. specialize (Hx l Hl). lia.
  - left. split; [done|]. constructor; [done|]. eapply Forall_impl; [exact Hx|]. cbn. lia.
Qed.

(** The search on a stored list. *)
Lemma lower_bound_header x ls target : zlen (x :: ls) < 2 ^ 27 → FindListLowerBound (header (x :: ls)) target =
  if target <? x then Ok (0, None) else found ← lower_bound_find (length (header (x :: ls))) (header (x :: ls)) (2 + zlen (x :: ls)) target 2 None; Ok (1, found).
Proof.
  intros Hz. pose proof (zlen_nonneg ls). pose proof (zlen_cons x ls). unfold FindListLowerBound, header at 1. rewrite (proj2 (Z.eqb_neq _ _)) by lia.
  rewrite Z.mod_small by lia. by rewrite Z.add_comm.
Qed.

Lemma lower_bound_spec ls target : zlen ls < 2 ^ 27 → StronglySorted Z.lt ls →
  FindListLowerBound (header ls) target = Ok (0, None) ∧ Forall (λ x, target < x) ls ∨
  ∃ l pos, FindListLowerBound (header ls) target = Ok (1, Some (l, pos)) ∧ greatest_below ls 2 target l pos.
Proof.
  intros Hz Hs. destruct ls as [|x ls]; [by left|]. rewrite lower_bound_header by done.
  pose proof (proj2 (StronglySorted_inv Hs)) as Hx. destruct (Z.ltb_spec target x) as [Hlt|Hge].
  { left. split; [done|]. constructor; [done|]. eapply Forall_impl; [exact Hx|]. cbn. lia. }
  right. destruct (find_loop_spec (header (x :: ls)) target (length (header (x :: ls))) (x :: ls) 2 None Hs) as [[_ Hall]|(l & pos & E & Hg)]; [lia|done|cbn; lia|apply Forall_cons in Hall as [? _]; lia|].
  exists l, pos. rewrite E. done.
Qed.

(** The positions inserted for a page. *)
Definition positions (t : BufferTag) (ops : list kv_op) : list Z :=
  omap (λ op, match op with OpInsertLsn t' l => if decide (t' = t) then Some l else None | _ => None end) ops.

Lemma add_positions ls new : StronglySorted Z.lt (ls ++ new) → fold_left add_position new ls = ls ++ new.
Proof.
  revert ls. induction new as [|x new IH]; intros ls Hs; [by rewrite app_nil_r|]. cbn [fold_left].
  assert (add_position ls x = ls ++ [x]) as ->; [|rewrite IH; by rewrite <-app_assoc].
  unfold add_position. destruct (last ls) as [y|] eqn:E; [|by apply last_None in E as ->]. apply last_Some in E as [ls' ->]. rewrite (proj2 (Z.leb_gt _ _)); [done|].
  clear IH. rewrite <-app_assoc in Hs. induction ls' as [|z ls' IH]; apply StronglySorted_inv in Hs as [Hs Hf]; [by apply Forall_cons in Hf as [? _]|by apply IH].
Qed.

Lemma v_lists_positions t ops : ∀ v, default [] (v_lists (fold_left v_exec ops v) !! t) = fold_left add_position (positions t ops) (default [] (v_lists v !! t)).
Proof.
  induction ops as [|op ops IH]; intros v; [done|]. cbn [fold_left]. rewrite IH. unfold positions. cbn [omap list_omap].
  destruct op as [t' l|t' l c|g t' l|l r|]; cbn [v_exec v_lists]; try done. destruct (decide (t' = t)) as [->|Hne]; [by rewrite lookup_insert_eq|by rewrite lookup_insert_ne].
Qed.

(** The version of a page that a reader at a position needs is found.  After
    any sequence of operations in which the positions inserted for the page grow,
    the search in the stored list returns the greatest inserted position that is
    not beyond the wanted one, with its place in the list, and 0 exactly when
    every inserted position is beyond it; no list is found exactly when none was
    inserted. *)
Theorem version_search {DB} `{RocksDBLaws DB, !Reliable DB} (kv : kvstate DB) ops t target :
  contents (db kv) = ∅ → zlen ops < 2 ^ 27 → Forall op_fits ops → tag_fits t → StronglySorted Z.lt (positions t ops) →
  ∃ kv' found, kv_run kv ops = Ok kv' ∧ snd <$> GetListFromRocksdb kv' t = Ok found ∧
    match found with
    | None => positions t ops = []
    | Some (ws, n) => n = zlen ws ∧
        (FindListLowerBound ws target = Ok (0, None) ∧ Forall (λ x, target < x) (positions t ops) ∨
         ∃ l pos, FindListLowerBound ws target = Ok (1, Some (l, pos)) ∧ ws !! Z.to_nat pos = Some l ∧ l ∈ positions t ops ∧ l ≤ target ∧
           ∀ x, x ∈ positions t ops → x ≤ target → x ≤ l)
    end.
Proof.
  intros He Hz Ho Ht Hs. destruct (run_refines ops kv no_versions 0) as (kv' & E & Hh & Hw); [|apply no_versions_wf|done|lia|done|].
  { intros i _. rewrite He, lookup_empty. by destruct i. }
  destruct (reads_spec kv' _ _ Hh Hw ltac:(lia)) as (H1 & _). exists kv'. eexists. split; [done|]. split; [by apply H1|].
  pose proof (v_lists_positions t ops no_versions) as Hp. cbn [v_lists no_versions] in Hp. rewrite lookup_empty in Hp. cbn [from_option id] in Hp. rewrite add_positions in Hp by done. cbn [app] in Hp.
  destruct (v_lists (fold_left v_exec ops no_versions) !! t) as [ls|] eqn:El; cbn [fmap option_fmap option_map from_option id] in *; [|done]. subst ls.
  destruct (vw_lists _ _ Hw t _ El) as [_ _ _ Hl]. split; [unfold header; rewrite !zlen_cons; lia|].
  destruct (lower_bound_spec (positions t ops) target ltac:(lia) Hs) as [?|(l & pos & E' & Hi & Hlk & Hle & Hmax)]; [by left|right].
  exists l, pos. split_and!; [done| |by eapply list_elem_of_lookup_2|done|done]. replace (Z.to_nat pos) with (S (S (Z.to_nat (pos - 2)))) by lia. exact Hlk.
Qed.

(** ** Errors *)

(** A failed read loses the versions of a page.  [InsertLsn2RocksdbList]
    takes an error of [rocksdb_get] for a missing list: it stores a list with the
    new position only, and every position stored before is gone. *)
Theorem read_error_loses_list {DB} `{RocksDBLaws DB} (d d' : DB) t ls lsn :
  contents d !! ROCKSDB_LSN_LIST_KEY t = Some (word_bytes (header ls)) → rocksdb_get d (ROCKSDB_LSN_LIST_KEY t) = (None, true) →
  rocksdb_put d (ROCKSDB_LSN_LIST_KEY t) (word_bytes (header [lsn])) = (d', false) →
  ∃ kv', InsertLsn2RocksdbList (mkKv true d) t lsn = Ok kv' ∧ contents (db kv') !! ROCKSDB_LSN_LIST_KEY t = Some (word_bytes (header [lsn])).
Proof.
  intros _ Hg Hp. unfold InsertLsn2RocksdbList, GetListWithKey, KvGet, opened, InitKvStore. cbn [db_open KvStore.db mbind res_bind]. rewrite Hg. cbn [mbind res_bind from_option].
  change (0 <? zlen (from_option id [] None)) with false. cbn [negb]. unfold PutListWithKey, KvPut, opened, InitKvStore. cbn [db_open KvStore.db mbind res_bind].
  change (to_int (3 * 8)) with 24. change (word_bytes [1; 0; lsn]) with (word_bytes (header [lsn])).
  assert (Hz : zlen (word_bytes (header [lsn])) = 24) by (unfold zlen; by rewrite length_word_bytes). rewrite Hz. cbn [Z.ltb Z.compare Pos.compare Pos.compare_cont orb].
  rewrite take_ge by (unfold zlen in Hz; lia). rewrite Hp. cbn [mbind res_bind]. eexists. split; [reflexivity|]. cbn [KvStore.db]. rewrite (put_contents _ _ _ _ Hp). by rewrite lookup_insert_eq.
Qed.

(** ** Examples *)

(** A finite map as a database; the flag makes reads fail. *)
Record map_db : Type := mkMap { reads_fail : bool; entries : gmap (list Z) (list Z) }.
#[export] Instance map_rocksdb : RocksDB map_db := {|
  rocksdb_open d := Some d;
  rocksdb_close d := d;
  rocksdb_put d k v := (mkMap (reads_fail d) (<[k := v]> (entries d)), false);
  rocksdb_get d k := if reads_fail d then (None, true) else (entries d !! k, false);
  rocksdb_delete d k := (mkMap (reads_fail d) (delete k (entries d)), false) |}.
#[export] Instance map_laws : RocksDBLaws map_db.
Proof.
  refine {| contents := entries |}; cbn; try done.
  - by intros d d' [= <-].
  - by intros d k v d' [= <-].
  - intros d k v. by destruct (reads_fail d); intros [= <-].
  - intros d k v. by destruct (reads_fail d); intros [= <-].
  - by intros d k d' [= <-].
Defined.

(** A map whose reads succeed. *)
Record good_db : Type := mkGood { good_map : gmap (list Z) (list Z) }.
#[export] Instance good_rocksdb : RocksDB good_db := {|
  rocksdb_open d := Some d;
  rocksdb_close d := d;
  rocksdb_put d k v := (mkGood (<[k := v]> (good_map d)), false);
  rocksdb_get d k := (good_map d !! k, false);
  rocksdb_delete d k := (mkGood (delete k (good_map d)), false) |}.
#[export] Instance good_laws : RocksDBLaws good_db.
Proof.
  refine {| contents := good_map |}; cbn; try done.
  - by intros d d' [= <-].
  - by intros d k v d' [= <-].
  - by intros d k v [= <-].
  - by intros d k d' [= <-].
Defined.
#[export] Instance good_reliable : Reliable good_db.
Proof. by constructor. Qed.

Definition kv_tag (blk : Z) : BufferTag := mkTag (mkRel 1663 13593 16384) 0 blk.
Definition kv_ops : list kv_op :=
  [OpInsertLsn (kv_tag 1) 100; OpPutPage (kv_tag 1) 100 zero_page; OpInsertLsn (kv_tag 11) 110; OpInsertLsn (kv_tag 1) 200;
   OpClose; OpPutXlog 200 (le_bytes 4 4); OpDeletePage true (kv_tag 1) 100; OpInsertLsn (kv_tag 1) 300].

Lemma kv_tag_fits blk : 0 ≤ blk < 2 ^ 32 → tag_fits (kv_tag blk).
Proof. intros Hb. constructor; cbn; lia. Qed.

Lemma kv_ops_fit : Forall op_fits kv_ops.
Proof.
  do 8 (constructor; [cbn [op_fits]; unfold lsn_fits; split_and?; (apply kv_tag_fits; lia) || lia || (vm_compute; reflexivity) || (vm_compute; discriminate) || exact I|]). constructor.
Qed.

Lemma kv_store_refines_witness : ∃ kv', kv_run (mkKv false (mkGood ∅)) kv_ops = Ok kv' ∧
  snd <$> GetListFromRocksdb kv' (kv_tag 1) = Ok (Some ([3; 0; 100; 200; 300], 5)) ∧ snd <$> GetPageFromRocksdb kv' (kv_tag 1) 100 = Ok None.
Proof.
  destruct (kv_store_refines (mkKv false (mkGood ∅)) kv_ops) as (kv' & E & H1 & H2 & _).
  - reflexivity.
  - vm_compute. reflexivity.
  - apply kv_ops_fit.
  - exists kv'. split; [exact E|]. rewrite (H1 (kv_tag 1)) by (apply kv_tag_fits; lia). rewrite (H2 (kv_tag 1) 100) by (unfold lsn_fits; first [apply kv_tag_fits; lia|lia]).
    split; vm_compute; reflexivity.
Defined.

Lemma version_search_witness : ∃ kv' ws n, kv_run (mkKv false (mkGood ∅)) kv_ops = Ok kv' ∧ snd <$> GetListFromRocksdb kv' (kv_tag 1) = Ok (Some (ws, n)) ∧
  FindListLowerBound ws 250 = Ok (1, Some (200, 3)).
Proof.
  assert (Hp : positions (kv_tag 1) kv_ops = [100; 200; 300]) by (vm_compute; reflexivity).
  destruct (version_search (mkKv false (mkGood ∅)) kv_ops (kv_tag 1) 250) as (kv' & found & E & Hf & Hm).
  - reflexivity.
  - vm_compute. reflexivity.
  - apply kv_ops_fit.
  - apply kv_tag_fits. lia.
  - rewrite Hp. do 3 (apply SSorted_cons; [|do 3 (try (constructor; [lia|])); constructor]). constructor.
  - assert (Hr : (kv ← kv_run (mkKv false (mkGood ∅)) kv_ops; snd <$> GetListFromRocksdb kv (kv_tag 1)) = Ok (Some ([3; 0; 100; 200; 300], 5))) by (vm_compute; reflexivity).
    rewrite E in Hr. cbn [mbind res_bind] in Hr. exists kv', [3; 0; 100; 200; 300], 5. split; [exact E|]. split; [exact Hr|reflexivity].
Defined.

Lemma read_error_loses_list_witness : ∃ kv', InsertLsn2RocksdbList (mkKv true (mkMap true {[ ROCKSDB_LSN_LIST_KEY (kv_tag 1) := word_bytes (header [100; 200]) ]})) (kv_tag 1) 300 = Ok kv' ∧
  entries (db kv') !! ROCKSDB_LSN_LIST_KEY (kv_tag 1) = Some (word_bytes [1; 0; 300]).
Proof.
  exact (read_error_loses_list (mkMap true {[ ROCKSDB_LSN_LIST_KEY (kv_tag 1) := word_bytes (header [100; 200]) ]}) _ (kv_tag 1) [100; 200] 300
    (lookup_insert_eq _ _ _) eq_refl eq_refl).
Defined.
