(* ===== verification/VersionMap.v ===== *)
(** * The version map: [logindex_hashmap.cpp]

    The storage server records, per page, the positions of the records that
    change it and how far the page has been replayed.  The map is an array of
    buckets; a bucket is a doubly linked list of head nodes, most recently used
    first, whose pointers are modelled by addresses into the nodes of the bucket;
    a head node holds the first entries of its page and a list of element nodes
    with the others.  The array of a node is the list of its entries in use. *)

From S2P Require Import Prelude Mem.

Definition HASH_HEAD_NUM : Z := 15.
Definition HASH_ELEM_NUM : Z := 30.

Record KeyType : Type := mkKey { SpcID : Z; DbID : Z; RelID : Z; ForkNum : Z; BlkNum : Z }.
#[export] Instance KeyType_eq_dec : EqDecision KeyType.
Proof. solve_decision. Defined.

#[export] Instance KeyType_countable : Countable KeyType.
Proof.
  apply (inj_countable' (λ k, (SpcID k, DbID k, RelID k, ForkNum k, BlkNum k)) (λ '(a, b, c, d, e), mkKey a b c d e)).
  by intros [].
Qed.

(** A page number that was not assigned is [None]. *)
Record LsnEntry : Type := mkEntry { entry_lsn : Z; entry_pageNum : option Z }.

(** The fields of an element node but its links. *)
Record HashNodeEle : Type := mkEle { ele_maxLsn : Z; ele_entries : list LsnEntry }.

(** [headLock] is set while the lock is held for writing. *)
Record HashNodeHead : Type := mkHead {
  head_key : KeyType;
  head_hashValue : Z;
  headLock : bool;
  head_entries : list LsnEntry;
  head_maxLsn : Z;
  replayedLsn : Z;
  nextHead : option positive;
  prevHead : option positive;
  head_eles : list HashNodeEle }.

Record HashBucket : Type := mkBucket { nodeList : option positive; nodes : gmap positive HashNodeHead }.
Record HashMap : Type := mkHashMap { bucketNum : Z; bucketList : list HashBucket }.

Definition set_links (h : HashNodeHead) (next prev : option positive) : HashNodeHead :=
  mkHead (head_key h) (head_hashValue h) (headLock h) (head_entries h) (head_maxLsn h) (replayedLsn h) next prev (head_eles h).
Definition set_versions (h : HashNodeHead) (es : list LsnEntry) (maxLsn : Z) (eles : list HashNodeEle) : HashNodeHead :=
  mkHead (head_key h) (head_hashValue h) (headLock h) es maxLsn (replayedLsn h) (nextHead h) (prevHead h) eles.
Definition set_replayed (h : HashNodeHead) (lsn : Z) : HashNodeHead :=
  mkHead (head_key h) (head_hashValue h) (headLock h) (head_entries h) (head_maxLsn h) lsn (nextHead h) (prevHead h) (head_eles h).
Definition set_lock (h : HashNodeHead) (b : bool) : HashNodeHead :=
  mkHead (head_key h) (head_hashValue h) b (head_entries h) (head_maxLsn h) (replayedLsn h) (nextHead h) (prevHead h) (head_eles h).
Definition set_node (b : HashBucket) (p : positive) (h : HashNodeHead) : HashBucket := mkBucket (nodeList b) (<[p := h]> (nodes b)).

(** Waiting for a lock another thread holds. *)
Definition EWait : err := EFuel.

Definition head_at (b : HashBucket) (p : positive) : res HashNodeHead := match nodes b !! p with Some h => Ok h | None => Err EOob end.
Definition entry_at (es : list LsnEntry) (i : Z) : res LsnEntry := if i <? 0 then Err EOob else match es !! Z.to_nat i with Some e => Ok e | None => Err EOob end.

(** ** Binary search *)

Fixpoint lower_bound_loop (fuel : nat) (targetLsn : Z) (entryList : list LsnEntry) (smallSide largeSide : Z) : res Z :=
  if largeSide =? smallSide then Ok largeSide else
  match fuel with
  | O => Err EFuel
  | S fuel =>
    let mid := (largeSide + smallSide + 1) / 2 in
    e ← entry_at entryList mid;
    let '(smallSide, largeSide) := if targetLsn <? entry_lsn e then (smallSide, mid - 1) else (mid, largeSide) in
    let '(smallSide, largeSide) := if entry_lsn e =? targetLsn then (mid, mid) else (smallSide, largeSide) in
    lower_bound_loop fuel targetLsn entryList smallSide largeSide
  end.

Definition LsnListFindLowerBound (targetLsn : Z) (entryList : list LsnEntry) : res Z :=
  if zlen entryList =? 0 then Ok (-1) else
  largeSide ← lower_bound_loop (length entryList) targetLsn entryList 0 (zlen entryList - 1);
  e ← entry_at entryList largeSide;
  if targetLsn <? entry_lsn e then Ok (-1) else Ok largeSide.

(** ** Buckets *)

Definition HashMapInit (bucketNum : Z) : HashMap := mkHashMap bucketNum (replicate (Z.to_nat bucketNum) (mkBucket None ∅)).

Definition HashKey (key : KeyType) : Z :=
  let res := (Z.land (SpcID key) 255 * 13 + 7) mod 2 ^ 32 in
  let res := (res + (Z.land (DbID key) 255 * 17 + 5)) mod 2 ^ 32 in
  let res := (res + (Z.land (RelID key) 255 * 11 + 7)) mod 2 ^ 32 in
  let res := (res + (Z.land (ForkNum key) 255 * 3 + 29)) mod 2 ^ 32 in
  if negb (BlkNum key =? -1) then (res + (Z.land (BlkNum key) 255 * 7 + 11)) mod 2 ^ 32 else res.

Definition KeyMatch (key1 key2 : KeyType) : bool :=
  (SpcID key1 =? SpcID key2) && (DbID key1 =? DbID key2) && (RelID key1 =? RelID key2) && (ForkNum key1 =? ForkNum key2) && (BlkNum key1 =? BlkNum key2).

(** The walk along the list of heads. *)
Fixpoint find_head (fuel : nat) (b : HashBucket) (iter : option positive) (hashValue : Z) (key : KeyType) : res (option positive) :=
  match iter with
  | None => Ok None
  | Some p =>
    match fuel with
    | O => Err EFuel
    | S fuel =>
      h ← head_at b p;
      if (head_hashValue h =? hashValue) && KeyMatch (head_key h) key then Ok (Some p) else find_head fuel b (nextHead h) hashValue key
    end
  end.
Definition find_key (b : HashBucket) (key : KeyType) : res (option positive) := find_head (size (nodes b)) b (nodeList b) (HashKey key) key.

Definition bucketPos (m : HashMap) (key : KeyType) : nat := Z.to_nat (HashKey key mod bucketNum m).
Definition get_bucket (m : HashMap) (key : KeyType) : res HashBucket :=
  match bucketList m !! bucketPos m key with Some b => Ok b | None => Err EOob end.
Definition put_bucket (m : HashMap) (key : KeyType) (b : HashBucket) : HashMap := mkHashMap (bucketNum m) (<[bucketPos m key := b]> (bucketList m)).

(** Move a head to the front of its list; the node that was first keeps its
    [prevHead]. *)
Definition move_to_front (b : HashBucket) (p : positive) : res HashBucket :=
  h ← head_at b p;
  match prevHead h with
  | None => Ok b
  | Some q =>
    hq ← head_at b q;
    let b := set_node b q (set_links hq (nextHead h) (prevHead hq)) in
    b ← (match nextHead h with
         | None => Ok b
         | Some n => hn ← head_at b n; Ok (set_node b n (set_links hn (nextHead hn) (Some q)))
         end);
    h ← head_at b p;
    Ok (mkBucket (Some p) (<[p := set_links h (nodeList b) None]> (nodes b)))
  end.

(** A new head in front. *)
Definition push_head (b : HashBucket) (h : HashNodeHead) : res HashBucket :=
  let p := fresh (dom (nodes b)) in
  b' ← (match nodeList b with
        | None => Ok b
        | Some f => hf ← head_at b f; Ok (set_node b f (set_links hf (nextHead hf) (Some p)))
        end);
  Ok (mkBucket (Some p) (<[p := set_links h (nodeList b) None]> (nodes b'))).

(** ** Insertion *)

Definition new_head (key : KeyType) (lsn pageNum : Z) (noEmptyFirstSlot : bool) : HashNodeHead :=
  mkHead key (HashKey key) false
    (if negb (BlkNum key =? -1) && negb noEmptyFirstSlot then [mkEntry 0 None; mkEntry lsn None] else [mkEntry lsn (Some pageNum)])
    lsn 0 None None [].

Definition set_last_page (es : list LsnEntry) (pageNum : Z) : res (list LsnEntry) :=
  match last es with
  | Some e => Ok (<[(length es - 1)%nat := mkEntry (entry_lsn e) (Some pageNum)]> es)
  | None => Err EOob
  end.

(** The entries of a head that was found. *)
Definition add_version (h : HashNodeHead) (lsn pageNum : Z) : res (HashNodeHead * bool) :=
  if lsn <? head_maxLsn h then Ok (h, false)
  else if head_maxLsn h =? lsn then
    if (zlen (head_entries h) <=? HASH_HEAD_NUM) && bool_decide (head_eles h = []) then
      es ← set_last_page (head_entries h) pageNum; Ok (set_versions h es (head_maxLsn h) (head_eles h), true)
    else
      match last (head_eles h) with
      | Some e => es ← set_last_page (ele_entries e) pageNum;
                  Ok (set_versions h (head_entries h) (head_maxLsn h) (<[(length (head_eles h) - 1)%nat := mkEle (ele_maxLsn e) es]> (head_eles h)), true)
      | None => Err EOob
      end
  else if zlen (head_entries h) <? HASH_HEAD_NUM then
    Ok (set_versions h (head_entries h ++ [mkEntry lsn (Some pageNum)]) lsn (head_eles h), true)
  else
    let new := Ok (set_versions h (head_entries h) lsn (head_eles h ++ [mkEle lsn [mkEntry lsn (Some pageNum)]]), true) in
    match last (head_eles h) with
    | Some e =>
      if zlen (ele_entries e) <? HASH_ELEM_NUM then
        Ok (set_versions h (head_entries h) lsn (<[(length (head_eles h) - 1)%nat := mkEle lsn (ele_entries e ++ [mkEntry lsn (Some pageNum)])]> (head_eles h)), true)
      else new
    | None => new
    end.

(** The lock is taken for reading. *)
Definition HashMapInsertKey (m : HashMap) (key : KeyType) (lsn pageNum : Z) (noEmptyFirstSlot : bool) : res (HashMap * bool) :=
  b ← get_bucket m key;
  iter ← find_key b key;
  match iter with
  | None => b ← push_head b (new_head key lsn pageNum noEmptyFirstSlot); Ok (put_bucket m key b, true)
  | Some p =>
    b ← move_to_front b p;
    h ← head_at b p;
    if headLock h then Err EWait else
    '(h, r) ← add_version h lsn pageNum;
    Ok (put_bucket m key (set_node b p h), r)
  end.

(** ** Progress of replay *)

Definition HashMapUpdateFirstEmptySlot (m : HashMap) (key : KeyType) (lsn : Z) : res (HashMap * bool) :=
  b ← get_bucket m key;
  iter ← find_key b key;
  match iter with
  | None => Ok (m, false)
  | Some p =>
    h ← head_at b p;
    match head_entries h with
    | e :: es =>
      if entry_lsn e =? 0 then
        let h := set_versions h (mkEntry lsn (entry_pageNum e) :: es) (head_maxLsn h) (head_eles h) in
        let h := if replayedLsn h <? lsn then set_replayed h lsn else h in
        Ok (put_bucket m key (set_node b p h), true)
      else Ok (m, false)
    | [] => Err EOob
    end
  end.

(** With [holdHeadLock] the caller holds the lock; it is released at the end. *)
Definition HashMapUpdateReplayedLsn (m : HashMap) (key : KeyType) (lsn : Z) (holdHeadLock : bool) : res (HashMap * bool) :=
  b ← get_bucket m key;
  iter ← find_key b key;
  match iter with
  | None => Ok (m, false)
  | Some p =>
    h ← head_at b p;
    if negb holdHeadLock && headLock h then Err EWait else
    let '(h, r) := if replayedLsn h <? lsn then (set_replayed h lsn, true) else (h, false) in
    Ok (put_bucket m key (set_node b p (set_lock h false)), r)
  end.

(** ** The records to replay *)

Definition last_lsn (es : list LsnEntry) : res Z := e ← entry_at es (zlen es - 1); Ok (entry_lsn e).

(** The first positions up to [targetLsn]. *)
Fixpoint up_to (targetLsn : Z) (es : list LsnEntry) : list Z :=
  match es with
  | [] => []
  | e :: es => if entry_lsn e <=? targetLsn then entry_lsn e :: up_to targetLsn es else []
  end.

Fixpoint collect_eles (targetLsn replayed : Z) (foundReplayLsnPosition : bool) (eles : list HashNodeEle) : res (list Z) :=
  match eles with
  | [] => Ok []
  | ele :: eles =>
    e ← entry_at (ele_entries ele) 0;
    if targetLsn <? entry_lsn e then Ok []
    else if ele_maxLsn ele <? replayed then collect_eles targetLsn replayed foundReplayLsnPosition eles
    else
      startIndex ← (if foundReplayLsnPosition then Ok 0 else i ← LsnListFindLowerBound replayed (ele_entries ele); Ok (i + 1));
      rest ← collect_eles targetLsn replayed true eles;
      Ok (up_to targetLsn (drop (Z.to_nat startIndex) (ele_entries ele)) ++ rest)
  end.

(** Among the element nodes, the greatest position up to [targetLsn]. *)
Fixpoint search_eles (targetLsn currentLsn : Z) (eles : list HashNodeEle) : res Z :=
  match eles with
  | [] => Ok currentLsn
  | ele :: eles =>
    if ele_maxLsn ele <? targetLsn then l ← last_lsn (ele_entries ele); search_eles targetLsn l eles
    else
      i ← LsnListFindLowerBound targetLsn (ele_entries ele);
      if 0 <=? i then e ← entry_at (ele_entries ele) i; Ok (entry_lsn e) else Ok currentLsn
  end.

(** What is returned for a head: found, the replayed position and the list. *)
Definition replay_list (h : HashNodeHead) (targetLsn : Z) : res (option (Z * list Z)) :=
  if replayedLsn h =? targetLsn then Ok (Some (replayedLsn h, []))
  else if targetLsn <? replayedLsn h then
    l ← last_lsn (head_entries h);
    if targetLsn <=? l then
      i ← LsnListFindLowerBound targetLsn (head_entries h);
      if i =? -1 then Ok None else e ← entry_at (head_entries h) i; Ok (Some (entry_lsn e, []))
    else l ← search_eles targetLsn l (head_eles h); Ok (Some (l, []))
  else if replayedLsn h =? head_maxLsn h then Ok (Some (head_maxLsn h, []))
  else if (replayedLsn h =? 0) &&
          match head_entries h with e0 :: e1 :: _ => (entry_lsn e0 =? 0) && (targetLsn <? entry_lsn e1) | _ => false end then Ok (Some (0, []))
  else
    l ← last_lsn (head_entries h);
    '(found, inHead) ← (if replayedLsn h <=? l then
                          i ← LsnListFindLowerBound (replayedLsn h) (head_entries h);
                          Ok (true, up_to targetLsn (drop (Z.to_nat (i + 1)) (head_entries h)))
                        else Ok (false, []));
    inEles ← collect_eles targetLsn (replayedLsn h) found (head_eles h);
    Ok (Some (replayedLsn h, inHead ++ inEles)).

(** The lock is kept when there is something to replay.  A call that has to wait for
    the lock is [Err EWait]: in the code the head has been moved to the front by then,
    and the call goes on when the lock is free; what waits is not a state here, and the
    call is made again as a whole, which moves the head to the front once more. *)
Definition HashMapGetBlockReplayList (m : HashMap) (key : KeyType) (targetLsn : Z) : res (HashMap * option (Z * list Z)) :=
  b ← get_bucket m key;
  iter ← find_key b key;
  match iter with
  | None => Ok (m, None)
  | Some p =>
    b ← move_to_front b p;
    h ← head_at b p;
    if headLock h then Err EWait else
    r ← replay_list h targetLsn;
    let keep := match r with Some (_, _ :: _) => true | _ => false end in
    Ok (put_bucket m key (set_node b p (set_lock h keep)), r)
  end.

(** From the last element node backwards. *)
Fixpoint search_back (targetLsn : Z) (current : LsnEntry) (eles : list HashNodeEle) : res LsnEntry :=
  match eles with
  | [] => Ok current
  | ele :: eles =>
    e0 ← entry_at (ele_entries ele) 0;
    if targetLsn <? entry_lsn e0 then search_back targetLsn current eles
    else i ← LsnListFindLowerBound targetLsn (ele_entries ele); if i =? -1 then Ok current else entry_at (ele_entries ele) i
  end.

Definition HashMapFindLowerBoundEntry (m : HashMap) (key : KeyType) (targetLsn : Z) : res (option LsnEntry) :=
  b ← get_bucket m key;
  iter ← find_key b key;
  match iter with
  | None => Ok None
  | Some p =>
    h ← head_at b p;
    if headLock h then Err EWait else
    current ← entry_at (head_entries h) (zlen (head_entries h) - 1);
    if targetLsn <=? entry_lsn current then
      i ← LsnListFindLowerBound targetLsn (head_entries h);
      if i =? -1 then Ok None else e ← entry_at (head_entries h) i; Ok (Some e)
    else e ← search_back targetLsn current (rev (head_eles h)); Ok (Some e)
  end.

(** ** The end of a map *)

(** The heads of a bucket are freed with their element nodes; a node that is
    freed is no longer in the store. *)
Fixpoint free_heads (fuel : nat) (b : HashBucket) : res HashBucket :=
  match nodeList b with
  | None => Ok b
  | Some p =>
    match fuel with
    | O => Err EFuel
    | S fuel => h ← head_at b p; free_heads fuel (mkBucket (nextHead h) (delete p (nodes b)))
    end
  end.

(** What is left of the buckets when they are freed. *)
Fixpoint free_buckets (bs : list HashBucket) : res (list HashBucket) :=
  match bs with
  | [] => Ok []
  | b :: bs => b ← free_heads (size (nodes b)) b; bs ← free_buckets bs; Ok (b :: bs)
  end.
Definition HashMapDestroy (m : HashMap) : res (list HashBucket) := free_buckets (bucketList m).
