(* ===== verification/VersionNode.v ===== *)
(** * The nodes of the version map

    The binary search of a node, the positions of a page as one sorted list,
    and the list of records a request has to replay. *)

From Stdlib Require Import Sorted.
From S2P Require Import Prelude Mem VersionMap.

(** ** Sorted entries *)

Definition sorted (es : list LsnEntry) : Prop := StronglySorted Z.lt (entry_lsn <$> es).

Lemma last_elem {A} (l : list A) x : last l = Some x → x ∈ l.
Proof. intros H. apply last_Some in H as [l' E]. rewrite E. apply elem_of_app. right. by left. Qed.

Lemma entries_cons e es : sorted (e :: es) ↔ Forall (λ x, entry_lsn e < entry_lsn x) es ∧ sorted es.
Proof.
  unfold sorted. rewrite fmap_cons. split.
  - intros H. apply StronglySorted_inv in H as [Hs Hf]. split; [|done]. by rewrite Forall_fmap in Hf.
  - intros [Hf Hs]. constructor; [done|]. by rewrite Forall_fmap.
Qed.

Lemma entries_app es1 es2 : sorted (es1 ++ es2) ↔ sorted es1 ∧ sorted es2 ∧ (∀ x y, x ∈ es1 → y ∈ es2 → entry_lsn x < entry_lsn y).
Proof.
  induction es1 as [|e es1 IH]; cbn [app].
  - split; [intros H; split_and!; [constructor|done|intros x y Hx; by apply elem_of_nil in Hx]|tauto].
  - rewrite !entries_cons, Forall_app, IH, !Forall_forall. split.
    + intros ((H1 & H2) & H3 & H4 & H5). split_and!; [done..|]. intros x y Hx Hy. apply elem_of_cons in Hx as [->|Hx]; [by apply H2|by apply H5].
    + intros ((H1 & H2) & H3 & H4). split_and!; [done| |done|done|].
      * intros y Hy. apply H4; [by left|done].
      * intros x y Hx Hy. apply H4; [by right|done].
Qed.

(** The number of entries up to a position. *)
Definition rank (t : Z) (es : list LsnEntry) : nat := length (up_to t es).

Lemma rank_le t es : (rank t es ≤ length es)%nat.
Proof. unfold rank. induction es as [|e es IH]; cbn; [done|]. destruct (_ <=? _); cbn; lia. Qed.

Lemma rank_lookup t es : sorted es → ∀ i e, es !! i = Some e → (entry_lsn e ≤ t ↔ (i < rank t es)%nat).
Proof.
  unfold rank. induction es as [|e0 es IH]; intros Hs i e Hi; [done|]. apply entries_cons in Hs as [Hf Hs]. cbn [up_to].
  destruct (Z.leb_spec (entry_lsn e0) t) as [Hle|Hgt]; destruct i as [|i]; cbn in Hi.
  - injection Hi as <-. cbn. split; [lia|done].
  - rewrite (IH Hs i e Hi). cbn [length]. lia.
  - injection Hi as <-. cbn. split; lia.
  - rewrite Forall_forall in Hf. specialize (Hf e (list_elem_of_lookup_2 _ _ _ Hi)). cbn. split; lia.
Qed.

(** ** Binary search *)

Lemma entry_at_ok es i e : 0 ≤ i → es !! Z.to_nat i = Some e → entry_at es i = Ok e.
Proof. intros Hi He. unfold entry_at. rewrite (proj2 (Z.ltb_ge _ _)) by lia. by rewrite He. Qed.

Lemma lower_bound_loop_spec t es fuel : sorted es → ∀ small large, 0 ≤ small ≤ large → large < zlen es → large - small ≤ Z.of_nat fuel →
  (rank t es = 0%nat ∧ small = 0 ∨ small < Z.of_nat (rank t es) ≤ large + 1) →
  lower_bound_loop fuel t es small large = Ok (if decide (rank t es = 0%nat) then 0 else Z.of_nat (rank t es) - 1).
Proof.
  intros Hs. pose proof (rank_lookup t es Hs) as Hr. induction fuel as [|fuel IH]; intros small large Hb Hl Hf Hk; cbn [lower_bound_loop].
  { rewrite (proj2 (Z.eqb_eq _ _)) by lia. destruct (decide _); f_equal; lia. }
  destruct (Z.eqb_spec large small) as [->|Hne]; [destruct (decide _); f_equal; lia|].
  set (mid := (large + small + 1) / 2). assert (Hm : small < mid ≤ large) by (unfold mid; split; [apply Z.lt_le_trans with (small + 1); [lia|apply Z.div_le_lower_bound; lia]|apply Z.div_le_upper_bound; lia]).
  clearbody mid. destruct (lookup_lt_is_Some_2 es (Z.to_nat mid)) as [e He]; [unfold zlen in Hl; lia|]. rewrite (entry_at_ok es mid e) by (done || lia). cbn [mbind res_bind].
  pose proof (Hr _ _ He) as Hre. destruct (Z.ltb_spec t (entry_lsn e)).
  - rewrite (proj2 (Z.eqb_neq _ _)) by lia. apply IH; lia.
  - destruct (Z.eqb_spec (entry_lsn e) t) as [Heq|_]; [|apply IH; lia].
    assert (Hlast : rank t es = S (Z.to_nat mid)).
    { assert (~ (S (Z.to_nat mid) < rank t es)%nat); [|lia]. intros Hlt. destruct (lookup_lt_is_Some_2 es (S (Z.to_nat mid))) as [e' He']; [pose proof (rank_le t es); lia|].
      pose proof (proj2 (Hr _ _ He') Hlt). assert (entry_lsn e < entry_lsn e'); [|lia].
      pose proof Hs as Hs'. rewrite <-(take_drop (S (Z.to_nat mid)) es) in Hs'. apply entries_app in Hs' as (_ & _ & Hx). apply Hx.
      - apply (list_elem_of_lookup_2 _ (Z.to_nat mid)). rewrite lookup_take_lt by lia. done.
      - apply (list_elem_of_lookup_2 _ 0). rewrite lookup_drop, Nat.add_0_r. done. }
    destruct fuel; cbn [lower_bound_loop]; rewrite Z.eqb_refl; destruct (decide _); f_equal; lia.
Qed.

Lemma lower_bound_rank t es : sorted es → LsnListFindLowerBound t es = Ok (Z.of_nat (rank t es) - 1).
Proof.
  intros Hs. unfold LsnListFindLowerBound. pose proof (rank_le t es) as Hk. pose proof (rank_lookup t es Hs) as Hr. destruct (Z.eqb_spec (zlen es) 0) as [E|E].
  { unfold zlen in E. f_equal. lia. }
  pose proof (zlen_nonneg es). rewrite (lower_bound_loop_spec t es) by (done || unfold zlen in *; lia). cbn [mbind res_bind].
  destruct (decide (rank t es = 0%nat)) as [H0|H0].
  - destruct (lookup_lt_is_Some_2 es 0) as [e He]; [unfold zlen in E; lia|]. rewrite (entry_at_ok es 0 e) by done. cbn [mbind res_bind]. pose proof (Hr _ _ He).
    rewrite (proj2 (Z.ltb_lt _ _)) by lia. f_equal. lia.
  - destruct (lookup_lt_is_Some_2 es (rank t es - 1)) as [e He]; [lia|]. rewrite (entry_at_ok es _ e); [|lia|by replace (Z.to_nat (Z.of_nat (rank t es) - 1)) with (rank t es - 1)%nat by lia].
    cbn [mbind res_bind]. pose proof (Hr _ _ He). by rewrite (proj2 (Z.ltb_ge _ _)) by lia.
Qed.

(** ** Positions as sorted lists *)

Definition lsns (es : list LsnEntry) : list Z := entry_lsn <$> es.
Definition between (r t : Z) (ls : list Z) : list Z := filter (λ l, r < l ≤ t) ls.
Definition below (t : Z) (es : list LsnEntry) : option LsnEntry := last (filter (λ e, entry_lsn e ≤ t) es).

Lemma keep_none {A} (P : A → Prop) `{∀ x, Decision (P x)} (l : list A) : Forall (λ x, ~ P x) l → filter P l = [].
Proof. induction 1 as [|x l Hx _ IH]; [done|]. by rewrite filter_cons_False. Qed.
Lemma keep_all {A} (P : A → Prop) `{∀ x, Decision (P x)} (l : list A) : Forall P l → filter P l = l.
Proof. induction 1 as [|x l Hx _ IH]; [done|]. rewrite filter_cons_True by done. by rewrite IH. Qed.

Lemma between_app r t l1 l2 : between r t (l1 ++ l2) = between r t l1 ++ between r t l2.
Proof. apply filter_app. Qed.
Lemma between_none r t ls : Forall (λ l, ~ (r < l ≤ t)) ls → between r t ls = [].
Proof. apply keep_none. Qed.

(** The entries behind [r] up to [t]. *)
Lemma up_to_between r t es : sorted es → up_to t (drop (rank r es) es) = between r t (lsns es).
Proof.
  unfold rank, lsns. induction es as [|e es IH]; intros Hs; [done|]. apply entries_cons in Hs as [Hf Hs]. cbn [up_to]. unfold between in *. rewrite fmap_cons.
  destruct (Z.leb_spec (entry_lsn e) r) as [Hle|Hgt]; cbn [length drop].
  - rewrite filter_cons_False by lia. by apply IH.
  - assert (Hd : length (up_to r es) = 0%nat).
    { destruct es as [|x es]; [done|]. apply Forall_cons in Hf as [Hx _]. cbn [up_to]. by rewrite (proj2 (Z.leb_gt _ _)) by lia. }
    rewrite Hd, drop_0 in IH. cbn [up_to]. destruct (Z.leb_spec (entry_lsn e) t).
    + rewrite filter_cons_True by lia. by rewrite (IH Hs).
    + rewrite filter_cons_False by lia. rewrite keep_none; [done|]. rewrite Forall_fmap. eapply Forall_impl; [exact Hf|]. cbn. lia.
Qed.

Lemma rank_filter t es : sorted es → filter (λ e, entry_lsn e ≤ t) es = take (rank t es) es.
Proof.
  unfold rank. induction es as [|e es IH]; intros Hs; [done|]. apply entries_cons in Hs as [Hf Hs]. cbn [up_to]. destruct (Z.leb_spec (entry_lsn e) t) as [Hle|Hgt]; cbn [length take].
  - rewrite filter_cons_True by done. by rewrite (IH Hs).
  - rewrite filter_cons_False by lia. apply keep_none. eapply Forall_impl; [exact Hf|]. cbn. lia.
Qed.

(** The entry the search finds. *)
Lemma below_rank t es : sorted es → below t es = if decide (rank t es = 0%nat) then None else es !! (rank t es - 1)%nat.
Proof.
  intros Hs. unfold below. rewrite rank_filter by done. destruct (decide _) as [->|Hne]; [done|]. pose proof (rank_le t es). rewrite last_lookup, length_take.
  rewrite Nat.min_l by lia. rewrite lookup_take_lt by lia. f_equal. lia.
Qed.

Lemma below_search t es : sorted es → ∀ {B} (none : res B) (some : LsnEntry → res B),
  (i ← LsnListFindLowerBound t es; if i =? -1 then none else e ← entry_at es i; some e) = match below t es with None => none | Some e => some e end.
Proof.
  intros Hs B none some. rewrite lower_bound_rank by done. cbn [mbind res_bind]. rewrite below_rank by done. destruct (decide _) as [E|E]; [by rewrite E|].
  rewrite (proj2 (Z.eqb_neq _ _)) by lia. pose proof (rank_le t es). destruct (lookup_lt_is_Some_2 es (rank t es - 1)) as [e He]; [lia|]. rewrite He.
  by rewrite (entry_at_ok es _ e); [|lia|replace (Z.to_nat (Z.of_nat (rank t es) - 1)) with (rank t es - 1)%nat by lia].
Qed.

Lemma below_app t es1 es2 : below t (es1 ++ es2) = match below t es2 with Some e => Some e | None => below t es1 end.
Proof. unfold below. rewrite filter_app, last_app. by destruct (last (filter _ es2)). Qed.

Lemma below_none t es : Forall (λ e, t < entry_lsn e) es → below t es = None.
Proof. intros H. unfold below. rewrite keep_none; [done|]. eapply Forall_impl; [exact H|]. cbn. lia. Qed.
Lemma below_all t es : Forall (λ e, entry_lsn e ≤ t) es → below t es = last es.
Proof. intros H. unfold below. by rewrite keep_all. Qed.

(** ** Heads *)

Definition ele_all (eles : list HashNodeEle) : list LsnEntry := concat (ele_entries <$> eles).
Definition all_entries (h : HashNodeHead) : list LsnEntry := head_entries h ++ ele_all (head_eles h).

Record ele_wf (ele : HashNodeEle) : Prop := {
  ew_length : 0 < zlen (ele_entries ele) ≤ HASH_ELEM_NUM;
  ew_max : entry_lsn <$> last (ele_entries ele) = Some (ele_maxLsn ele) }.

(** Element nodes exist only behind a full head; the positions grow, the
    last one is [maxLsn]. *)
Record head_wf (h : HashNodeHead) : Prop := {
  hd_length : 0 < zlen (head_entries h) ≤ HASH_HEAD_NUM;
  hd_full : head_eles h ≠ [] → zlen (head_entries h) = HASH_HEAD_NUM;
  hd_eles : Forall ele_wf (head_eles h);
  hd_sorted : sorted (all_entries h);
  hd_max : entry_lsn <$> last (all_entries h) = Some (head_maxLsn h) }.

Lemma ele_all_cons e eles : ele_all (e :: eles) = ele_entries e ++ ele_all eles.
Proof. done. Qed.
Lemma ele_all_app l1 l2 : ele_all (l1 ++ l2) = ele_all l1 ++ ele_all l2.
Proof. unfold ele_all. by rewrite fmap_app, concat_app. Qed.

(** The first and the last entry of a nonempty list. *)
Lemma entry_at_last es : 0 < zlen es → ∃ e, last es = Some e ∧ entry_at es (zlen es - 1) = Ok e.
Proof.
  intros Hz. destruct (last es) as [e|] eqn:E; [|apply last_None in E as ->; done]. exists e. split; [done|]. rewrite last_lookup in E.
  apply entry_at_ok; [lia|]. unfold zlen in *. by replace (Z.to_nat (Z.of_nat (length es) - 1)) with (pred (length es)) by lia.
Qed.

Lemma last_max es m e : sorted es → entry_lsn <$> last es = Some m → e ∈ es → entry_lsn e ≤ m.
Proof.
  intros Hs Hl He. destruct (last es) as [x|] eqn:E; [|done]. injection Hl as <-. apply last_Some in E as [es' ->]. apply entries_app in Hs as (_ & _ & Hx).
  apply elem_of_app in He as [He|He]; [specialize (Hx e x He); apply Z.lt_le_incl, Hx; by left|]. apply list_elem_of_singleton in He as ->. lia.
Qed.

(** ** The list of records to replay *)

Lemma collect_spec t r eles : ∀ found, Forall ele_wf eles → sorted (ele_all eles) → (found = true → Forall (λ e, r < entry_lsn e) (ele_all eles)) →
  collect_eles t r found eles = Ok (between r t (lsns (ele_all eles))).
Proof.
  induction eles as [|ele eles IH]; intros found Hw Hs Hf; [done|]. apply Forall_cons in Hw as [[Hz Hm] Hw]. rewrite ele_all_cons in Hs, Hf |- *. pose proof Hs as Hs'.
  apply entries_app in Hs as (Hs1 & Hs2 & Hlt). unfold lsns. rewrite fmap_app, between_app. fold (lsns (ele_entries ele)) (lsns (ele_all eles)). cbn [collect_eles].
  destruct (ele_entries ele) as [|e0 es] eqn:Ee; [done|]. change (entry_at (e0 :: es) 0) with (@Ok LsnEntry e0). cbn [mbind res_bind]. rewrite <-Ee in *.
  destruct (Z.ltb_spec t (entry_lsn e0)) as [Ht|Ht].
  { rewrite !between_none; [done| |].
    - unfold lsns. rewrite Forall_fmap, Forall_forall. intros x Hx. cbn. assert (entry_lsn e0 < entry_lsn x) by (apply Hlt; [rewrite Ee; by left|done]). lia.
    - unfold lsns. rewrite Forall_fmap, Ee. apply entries_cons in Hs1 as [Hf1 _] || (rewrite Ee in Hs1; apply entries_cons in Hs1 as [Hf1 _]). constructor; [cbn; lia|].
      eapply Forall_impl; [exact Hf1|]. cbn. lia. }
  destruct (Z.ltb_spec (ele_maxLsn ele) r) as [Hr|Hr].
  { rewrite (between_none r t (lsns (ele_entries ele))); [apply IH; [done|done|]|].
    - intros Hfo. specialize (Hf Hfo). by apply Forall_app in Hf as [_ ?].
    - unfold lsns. rewrite Forall_fmap, Forall_forall. intros x Hx. cbn. pose proof (last_max _ _ x Hs1 Hm Hx). lia. }
  assert (Hrest : collect_eles t r true eles = Ok (between r t (lsns (ele_all eles)))).
  { apply IH; [done|done|]. intros _. rewrite Forall_forall. intros x Hx. destruct (last (ele_entries ele)) as [l|] eqn:El; [|done]. injection Hm as Hm.
    assert (entry_lsn l < entry_lsn x); [|lia]. apply Hlt; [|done]. by apply last_elem. }
  destruct found; cbn [mbind res_bind].
  - rewrite Hrest. cbn [mbind res_bind]. f_equal. f_equal. specialize (Hf eq_refl). apply Forall_app in Hf as [Hf _].
    rewrite <-(up_to_between r t) by done. f_equal. f_equal. symmetry. unfold rank. rewrite Ee in *. apply Forall_cons in Hf as [Hf _]. cbn [up_to].
    by rewrite (proj2 (Z.leb_gt _ _)).
  - rewrite lower_bound_rank by done. cbn [mbind res_bind]. rewrite Hrest. cbn [mbind res_bind]. f_equal. f_equal. rewrite <-(up_to_between r t) by done.
    by replace (Z.to_nat (Z.of_nat (rank r (ele_entries ele)) - 1 + 1)) with (rank r (ele_entries ele)) by lia.
Qed.

Lemma search_eles_spec t eles : ∀ cur, Forall ele_wf eles → sorted (ele_all eles) →
  search_eles t cur eles = Ok (from_option entry_lsn cur (below t (ele_all eles))).
Proof.
  induction eles as [|ele eles IH]; intros cur Hw Hs; [done|]. apply Forall_cons in Hw as [[Hz Hm] Hw]. rewrite ele_all_cons in Hs |- *. apply entries_app in Hs as (Hs1 & Hs2 & Hlt).
  cbn [search_eles]. rewrite below_app. destruct (entry_at_last (ele_entries ele)) as (l & El & Ea); [lia|]. rewrite El in Hm. injection Hm as Hm.
  destruct (Z.ltb_spec (ele_maxLsn ele) t) as [Ht|Ht].
  - unfold last_lsn. rewrite Ea. cbn [mbind res_bind]. rewrite IH by done. f_equal. destruct (below t (ele_all eles)) as [x|]; [done|]. cbn [from_option].
    rewrite below_all; [by rewrite El|]. rewrite Forall_forall. intros x Hx. pose proof (last_max _ (ele_maxLsn ele) x Hs1) as Hx'. rewrite El in Hx'. cbn in Hx'. rewrite Hm in Hx'. specialize (Hx' eq_refl Hx). lia.
  - rewrite (below_none t (ele_all eles)).
    2:{ rewrite Forall_forall. intros x Hx. assert (entry_lsn l < entry_lsn x); [|lia]. apply Hlt; [|done]. by apply last_elem. }
    rewrite lower_bound_rank by done. cbn [mbind res_bind]. rewrite below_rank by done. destruct (decide _) as [->|Hne]; [done|]. rewrite (proj2 (Z.leb_le _ _)) by lia.
    pose proof (rank_le t (ele_entries ele)). destruct (lookup_lt_is_Some_2 (ele_entries ele) (rank t (ele_entries ele) - 1)) as [e He]; [lia|]. rewrite He.
    by rewrite (entry_at_ok _ _ e); [|lia|replace (Z.to_nat (Z.of_nat (rank t (ele_entries ele)) - 1)) with (rank t (ele_entries ele) - 1)%nat by lia].
Qed.

(** What a request at [t] must be given for a page replayed to [r]. *)
Definition replay_spec (es : list LsnEntry) (r t : Z) : option (Z * list Z) :=
  if decide (r ≤ t) then Some (r, between r t (lsns es)) else (λ e, (entry_lsn e, [])) <$> below t es.

Lemma replay_list_spec h t : head_wf h → replay_list h t = Ok (replay_spec (all_entries h) (replayedLsn h) t).
Proof.
  intros [Hz Hfull Hel Hs Hmax]. pose proof Hs as Hs0. unfold all_entries in Hs0. apply entries_app in Hs0 as (Hs1 & Hs2 & Hlt). unfold replay_list, replay_spec.
  destruct (entry_at_last (head_entries h)) as (l & El & Ea); [lia|]. assert (Hl : l ∈ head_entries h) by (by apply last_elem).
  assert (Hle : Forall (λ e, entry_lsn e ≤ entry_lsn l) (head_entries h)) by (rewrite Forall_forall; intros x Hx; apply (last_max _ _ x Hs1); [by rewrite El|done]).
  destruct (Z.eqb_spec (replayedLsn h) t) as [->|Hne].
  { rewrite decide_True by lia. rewrite between_none; [done|]. rewrite Forall_forall. lia. }
  unfold last_lsn. rewrite Ea. cbn [mbind res_bind]. destruct (Z.ltb_spec t (replayedLsn h)) as [Hlt'|Hge].
  - rewrite decide_False by lia. unfold all_entries. rewrite below_app. destruct (Z.leb_spec t (entry_lsn l)) as [Htl|Htl].
    + rewrite (below_search t (head_entries h) Hs1 (Ok None) (λ e, Ok (Some (entry_lsn e, [])))).
      rewrite (below_none t (ele_all (head_eles h))); [by destruct (below t (head_entries h))|]. rewrite Forall_forall. intros x Hx. pose proof (Hlt l x Hl Hx). lia.
    + rewrite search_eles_spec by done. cbn [mbind res_bind]. destruct (below t (ele_all (head_eles h))) as [x|]; [done|]. cbn [from_option].
      rewrite below_all; [by rewrite El|]. eapply Forall_impl; [exact Hle|]. cbn. lia.
  - rewrite decide_True by lia. destruct (Z.eqb_spec (replayedLsn h) (head_maxLsn h)) as [Em|Em].
    { rewrite between_none; [by rewrite Em|]. unfold lsns. rewrite Forall_fmap, Forall_forall. intros x Hx. cbn. pose proof (last_max _ _ x Hs Hmax Hx). lia. }
    destruct ((replayedLsn h =? 0) && _) eqn:Esp.
    { apply andb_true_iff in Esp as [E0 Esp]. apply Z.eqb_eq in E0. rewrite E0. destruct (head_entries h) as [|e0 [|e1 es]] eqn:Ehe; [done..|]. apply andb_true_iff in Esp as [Ez Et].
      apply Z.eqb_eq in Ez. apply Z.ltb_lt in Et. rewrite between_none; [done|]. unfold all_entries, lsns in *. rewrite Ehe in *. cbn [app] in *. rewrite Forall_fmap. constructor; [cbn; lia|].
      apply entries_cons in Hs as [_ Hs]. apply entries_cons in Hs as [Hs _]. constructor; [cbn; lia|]. eapply Forall_impl; [exact Hs|]. cbn. lia. }
    clear Esp. unfold all_entries, lsns. rewrite fmap_app, between_app. fold (lsns (head_entries h)) (lsns (ele_all (head_eles h))). destruct (Z.leb_spec (replayedLsn h) (entry_lsn l)) as [Hrl|Hrl].
    + rewrite lower_bound_rank by done. cbn [mbind res_bind]. rewrite collect_spec; [|done|done|].
      * cbn [mbind res_bind]. do 4 f_equal. rewrite <-up_to_between by done. by replace (Z.to_nat (Z.of_nat (rank (replayedLsn h) (head_entries h)) - 1 + 1)) with (rank (replayedLsn h) (head_entries h)) by lia.
      * intros _. rewrite Forall_forall. intros x Hx. pose proof (Hlt l x Hl Hx). lia.
    + cbn [mbind res_bind]. rewrite collect_spec by done. cbn [mbind res_bind]. rewrite (between_none _ _ (lsns (head_entries h))); [done|].
      unfold lsns. rewrite Forall_fmap. eapply Forall_impl; [exact Hle|]. cbn. lia.
Qed.

(** ** The greatest entry up to a position *)

Lemma search_back_spec t eles : ∀ cur, Forall ele_wf eles → sorted (ele_all eles) → search_back t cur (rev eles) = Ok (default cur (below t (ele_all eles))).
Proof.
  induction eles as [|ele eles IH] using rev_ind; intros cur Hw Hs; [done|]. apply Forall_app in Hw as [Hw Hw1]. apply Forall_cons in Hw1 as [[Hz Hm] _].
  rewrite ele_all_app in Hs |- *. apply entries_app in Hs as (Hs1 & Hs2 & Hlt). assert (E1 : ele_all [ele] = ele_entries ele) by apply app_nil_r. rewrite E1 in *.
  rewrite rev_unit. cbn [search_back]. rewrite below_app. destruct (ele_entries ele) as [|e0 es] eqn:Ee; [done|]. change (entry_at (e0 :: es) 0) with (@Ok LsnEntry e0). cbn [mbind res_bind]. rewrite <-Ee in *.
  destruct (Z.ltb_spec t (entry_lsn e0)) as [Ht|Ht].
  - rewrite (IH cur Hw Hs1). rewrite (below_none t (ele_entries ele)); [done|]. rewrite Ee in Hs2 |- *. apply entries_cons in Hs2 as [Hf _]. constructor; [done|]. eapply Forall_impl; [exact Hf|]. cbn. lia.
  - assert (Hk : rank t (ele_entries ele) ≠ 0%nat) by (unfold rank; rewrite Ee; cbn [up_to]; by rewrite (proj2 (Z.leb_le _ _))).
    rewrite lower_bound_rank by done. cbn [mbind res_bind]. rewrite (proj2 (Z.eqb_neq _ _)) by lia. rewrite below_rank by done. rewrite decide_False by done.
    pose proof (rank_le t (ele_entries ele)). destruct (lookup_lt_is_Some_2 (ele_entries ele) (rank t (ele_entries ele) - 1)) as [e He]; [lia|]. rewrite He.
    apply entry_at_ok; [lia|]. by replace (Z.to_nat (Z.of_nat (rank t (ele_entries ele)) - 1)) with (rank t (ele_entries ele) - 1)%nat by lia.
Qed.

(** ** A new position *)

(** The entry that is added, or the last one with its page number changed. *)
Definition add_spec (es : list LsnEntry) (lsn pageNum : Z) : list LsnEntry * bool :=
  match last es with
  | Some e => if lsn <? entry_lsn e then (es, false)
              else if entry_lsn e =? lsn then (take (length es - 1) es ++ [mkEntry lsn (Some pageNum)], true)
              else (es ++ [mkEntry lsn (Some pageNum)], true)
  | None => ([mkEntry lsn (Some pageNum)], true)
  end.

Lemma insert_last {A} (l : list A) x y : last l = Some x → <[(length l - 1)%nat := y]> l = take (length l - 1) l ++ [y].
Proof.
  intros H. apply last_Some in H as [l' ->]. rewrite length_app. cbn [length]. replace (length l' + 1 - 1)%nat with (length l' + 0)%nat by lia.
  rewrite insert_app_r. rewrite take_app_add'; [|done]. cbn. by rewrite app_nil_r.
Qed.

Lemma take_last_snoc {A} (l : list A) x : take (length (l ++ [x]) - 1) (l ++ [x]) = l.
Proof. rewrite length_app. cbn [length]. replace (length l + 1 - 1)%nat with (length l) by lia. by rewrite take_app_length. Qed.

Lemma sorted_snoc_entry es e : sorted es → (∀ x, last es = Some x → entry_lsn x < entry_lsn e) → sorted (es ++ [e]).
Proof.
  intros Hs Hl. apply entries_app. split_and!; [done|apply entries_cons; split; constructor|]. intros x y Hx Hy. apply list_elem_of_singleton in Hy as ->.
  destruct (last es) as [m|] eqn:E; [|apply last_None in E as ->; by apply elem_of_nil in Hx]. specialize (Hl m eq_refl).
  pose proof (last_max es (entry_lsn m) x Hs ltac:(by rewrite E) Hx). lia.
Qed.

Lemma sorted_replace es e : sorted (es ++ [e]) → ∀ e', entry_lsn e' = entry_lsn e → sorted (es ++ [e']).
Proof. unfold sorted. rewrite fmap_app. intros Hs e' He. rewrite fmap_app. cbn in *. by rewrite He. Qed.

(** The result for a head whose entries are extended or whose last entry is
    replaced. *)
Lemma add_result h es m eles : head_wf h → m = head_maxLsn h ∨ head_maxLsn h < m →
  0 < zlen es ≤ HASH_HEAD_NUM → (eles ≠ [] → zlen es = HASH_HEAD_NUM) → Forall ele_wf eles →
  (∃ pg, all_entries (set_versions h es m eles) = (add_spec (all_entries h) m pg).1) → head_wf (set_versions h es m eles).
Proof.
  intros Hw Hm Hz Hfull Hel [pg E]. destruct Hw as [_ _ _ Hs Hmax]. unfold add_spec in E. destruct (last (all_entries h)) as [x|] eqn:Ex; [|done]. injection Hmax as Hmax. rewrite Hmax in E.
  pose proof Ex as Ex'. apply last_Some in Ex' as [fs Ef]. rewrite (proj2 (Z.ltb_ge _ _)) in E by lia. constructor; try done; rewrite E; destruct (Z.eqb_spec (head_maxLsn h) m) as [Eq|Eq]; cbn [fst].
  - rewrite Ef in Hs |- *. rewrite take_last_snoc. eapply sorted_replace; [done|]. cbn. lia.
  - apply sorted_snoc_entry; [done|]. intros y Hy. rewrite Ex in Hy. injection Hy as <-. cbn. lia.
  - by rewrite last_snoc.
  - by rewrite last_snoc.
Qed.

Lemma add_version_spec h lsn pg : head_wf h → ∃ es m eles r, add_version h lsn pg = Ok (set_versions h es m eles, r) ∧
  head_wf (set_versions h es m eles) ∧ (all_entries (set_versions h es m eles), r) = add_spec (all_entries h) lsn pg.
Proof.
  intros Hw. pose proof Hw as [Hz Hfull Hel Hs Hmax]. unfold add_version.
  assert (Hsame : h = set_versions h (head_entries h) (head_maxLsn h) (head_eles h)) by (by destruct h).
  destruct (last (all_entries h)) as [x|] eqn:Ex; [|done]. injection Hmax as Hmax. unfold add_spec at 1. rewrite Ex, Hmax. destruct (Z.ltb_spec lsn (head_maxLsn h)) as [Hl|Hl].
  { exists (head_entries h), (head_maxLsn h), (head_eles h), false. rewrite <-Hsame. done. }
  assert (Hadd : add_spec (all_entries h) lsn pg = if head_maxLsn h =? lsn then (take (length (all_entries h) - 1) (all_entries h) ++ [mkEntry lsn (Some pg)], true) else (all_entries h ++ [mkEntry lsn (Some pg)], true)).
  { unfold add_spec. rewrite Ex, Hmax. by rewrite (proj2 (Z.ltb_ge _ _)) by lia. }
  assert (Hgoal : ∀ es eles, 0 < zlen es ≤ HASH_HEAD_NUM → (eles ≠ [] → zlen es = HASH_HEAD_NUM) → Forall ele_wf eles →
    (es ++ ele_all eles, true) = (if head_maxLsn h =? lsn then (take (length (all_entries h) - 1) (all_entries h) ++ [mkEntry lsn (Some pg)], true) else (all_entries h ++ [mkEntry lsn (Some pg)], true)) →
    ∃ es' m eles' r, Ok (set_versions h es lsn eles, true) = Ok (set_versions h es' m eles', r) ∧ head_wf (set_versions h es' m eles') ∧
      (all_entries (set_versions h es' m eles'), r) = if head_maxLsn h =? lsn then (take (length (all_entries h) - 1) (all_entries h) ++ [mkEntry lsn (Some pg)], true) else (all_entries h ++ [mkEntry lsn (Some pg)], true)).
  { intros es eles H1 H2 H3 H4. exists es, lsn, eles, true. split; [done|]. split; [|exact H4]. apply add_result; try done; [lia|]. exists pg. rewrite Hadd, <-H4. done. }
  assert (Hlast : ∀ ele, last (head_eles h) = Some ele → ∃ pre, head_eles h = pre ++ [ele] ∧ Forall ele_wf pre ∧ ele_wf ele ∧ all_entries h = (head_entries h ++ ele_all pre) ++ ele_entries ele).
  { intros ele He. apply last_Some in He as [pre He]. exists pre. rewrite He in Hel. apply Forall_app in Hel as [? Hel]. apply Forall_cons in Hel as [? _]. split_and!; try done.
    unfold all_entries. rewrite He, ele_all_app, app_assoc. f_equal. apply app_nil_r. }
  destruct (Z.eqb_spec (head_maxLsn h) lsn) as [Eq|Ne].
  - rewrite (proj2 (Z.leb_le _ _)) by lia. cbn [andb]. destruct (bool_decide_reflect (head_eles h = [])) as [En|En].
    + assert (Eall : all_entries h = head_entries h) by (unfold all_entries; rewrite En; apply app_nil_r). rewrite Eall in Ex. unfold set_last_page. rewrite Ex. cbn [mbind res_bind]. rewrite Hmax, Eq.
      rewrite (insert_last _ _ _ Ex). apply Hgoal; [|by rewrite En|done|].
      * apply last_Some in Ex as [fs Ef]. rewrite Ef in Hz |- *. rewrite take_last_snoc. by rewrite zlen_app in *.
      * rewrite En, app_nil_r. by rewrite Eall.
    + destruct (last (head_eles h)) as [ele|] eqn:Ee; [|by apply last_None in Ee]. destruct (Hlast ele eq_refl) as (pre & Ep & Hpre & [Hze Hme] & Eall).
      destruct (last (ele_entries ele)) as [y|] eqn:Ey; [|done]. pose proof Ey as Ey'. apply last_Some in Ey' as [ys Eys].
      assert (y = x) as ->. { rewrite Eall, Eys, app_assoc, last_snoc in Ex. congruence. }
      unfold set_last_page. rewrite Ey. cbn [mbind res_bind]. rewrite Hmax, Eq. rewrite (insert_last _ _ _ Ey), (insert_last _ _ _ Ee), Ep, take_last_snoc, Eys, take_last_snoc. apply Hgoal.
      * done.
      * intros _. by apply Hfull.
      * apply Forall_app. split; [done|]. apply Forall_singleton. rewrite Eys in Hze. constructor; cbn [ele_entries ele_maxLsn]; [by rewrite zlen_app in *|]. rewrite last_snoc. cbn. injection Hme as Hme. by rewrite <-Hme, Hmax, Eq.
      * rewrite Eall, Eys, ele_all_app. f_equal. change (ele_all [mkEle (ele_maxLsn ele) (ys ++ [mkEntry lsn (Some pg)])]) with ((ys ++ [mkEntry lsn (Some pg)]) ++ []).
        rewrite (app_assoc _ ys [x]), take_last_snoc. by rewrite app_nil_r, <-!app_assoc.
  - destruct (Z.ltb_spec (zlen (head_entries h)) HASH_HEAD_NUM) as [Hroom|Hnoroom].
    + assert (En : head_eles h = []) by (destruct (head_eles h) eqn:E; [done|]; specialize (Hfull ltac:(done)); lia). apply Hgoal; [rewrite zlen_app; change (zlen [mkEntry lsn (Some pg)]) with 1; lia|by rewrite En|done|].
      unfold all_entries. rewrite En. cbn. by rewrite !app_nil_r.
    + assert (Hnew : ∃ es' m eles' r, Ok (set_versions h (head_entries h) lsn (head_eles h ++ [mkEle lsn [mkEntry lsn (Some pg)]]), true) = Ok (set_versions h es' m eles', r) ∧ head_wf (set_versions h es' m eles') ∧
        (all_entries (set_versions h es' m eles'), r) = (all_entries h ++ [mkEntry lsn (Some pg)], true)).
      { apply Hgoal; [done|intros _; lia| |].
        - apply Forall_app. split; [done|]. apply Forall_singleton. by constructor.
        - rewrite ele_all_app. unfold all_entries. by rewrite <-app_assoc. }
      destruct (last (head_eles h)) as [ele|] eqn:Ee; [|exact Hnew]. destruct (Z.ltb_spec (zlen (ele_entries ele)) HASH_ELEM_NUM) as [Hr|Hr]; [|exact Hnew].
      destruct (Hlast ele eq_refl) as (pre & Ep & Hpre & [Hze Hme] & Eall). rewrite (insert_last _ _ _ Ee), Ep, take_last_snoc. apply Hgoal.
      * done.
      * intros _. apply Hfull. by rewrite Ep; destruct pre.
      * apply Forall_app. split; [done|]. apply Forall_singleton. constructor; cbn [ele_entries ele_maxLsn]; [rewrite zlen_app; change (zlen [mkEntry lsn (Some pg)]) with 1; lia|by rewrite last_snoc].
      * rewrite Eall, ele_all_app. f_equal. change (ele_all [mkEle lsn (ele_entries ele ++ [mkEntry lsn (Some pg)])]) with ((ele_entries ele ++ [mkEntry lsn (Some pg)]) ++ []).
        by rewrite app_nil_r, <-!app_assoc.
Qed.

Lemma new_head_wf key lsn pg b : 0 < lsn → head_wf (new_head key lsn pg b).
Proof. intros Hl. unfold new_head. destruct (_ && _); constructor; try done; cbn [all_entries head_entries head_eles ele_all fmap list_fmap concat app]; apply entries_cons; (split; [|try (apply entries_cons; split); constructor]); try constructor; cbn; try lia; constructor. Qed.
