(* ===== verification/VersionBucket.v ===== *)
(** * The buckets of the version map

    The list of heads of a bucket through its pointers.  A head that is moved
    to the front does not become the [prevHead] of the head that was first;
    the lists stay intact all the same, because a [prevHead] is NULL or right. *)

From S2P Require Import Prelude Mem VersionMap VersionNode.

(** ** Lists of heads *)

(** The heads [ps] from [first] on, behind [prev], to [nxt]. *)
Fixpoint seg (ns : gmap positive HashNodeHead) (first prev : option positive) (ps : list positive) (nxt : option positive) : Prop :=
  match ps with
  | [] => first = nxt
  | p :: ps => first = Some p ∧ ∃ h, ns !! p = Some h ∧ (prevHead h = None ∨ prevHead h = prev) ∧ seg ns (nextHead h) (Some p) ps nxt
  end.

Definition end_of (prev : option positive) (ps : list positive) : option positive := match last ps with Some p => Some p | None => prev end.

Lemma end_of_cons prev p ps : end_of (Some p) ps = end_of prev (p :: ps).
Proof. unfold end_of. by destruct ps as [|q ps] using rev_ind; [|rewrite last_snoc, app_comm_cons, last_snoc]. Qed.

Lemma seg_app ns l1 : ∀ first prev l2 nxt, seg ns first prev (l1 ++ l2) nxt ↔ ∃ mid, seg ns first prev l1 mid ∧ seg ns mid (end_of prev l1) l2 nxt.
Proof.
  induction l1 as [|p l1 IH]; intros first prev l2 nxt; cbn [app seg].
  - split; [intros H; by exists first|by intros (mid & <- & H)].
  - rewrite <-(end_of_cons prev p l1). split.
    + intros (-> & h & Hp & Hpr & H). apply IH in H as (mid & H1 & H2). exists mid. split; [|done]. split; [done|]. by exists h.
    + intros (mid & (-> & h & Hp & Hpr & H1) & H2). split; [done|]. exists h. split_and!; [done..|]. apply IH. by exists mid.
Qed.

Lemma seg_frame ns ns' ps : ∀ first prev nxt, (∀ q, q ∈ ps → ns' !! q = ns !! q) → seg ns first prev ps nxt → seg ns' first prev ps nxt.
Proof.
  induction ps as [|p ps IH]; intros first prev nxt Hq H; [done|]. destruct H as (-> & h & Hp & Hpr & H). split; [done|]. exists h. rewrite (Hq p) by (by left). split_and!; [done..|].
  apply IH; [|done]. intros q Hin. apply Hq. by right.
Qed.

(** A list whose first node has no predecessor may be put behind a node. *)
Lemma seg_prev ns first prev ps nxt : seg ns first None ps nxt → seg ns first prev ps nxt.
Proof. destruct ps as [|p ps]; [done|]. intros (-> & h & Hp & Hpr & H). split; [done|]. exists h. split_and!; [done| |done]. left. by destruct Hpr. Qed.

Lemma seg_nodes ns ps : ∀ first prev nxt p, seg ns first prev ps nxt → p ∈ ps → is_Some (ns !! p).
Proof. induction ps as [|q ps IH]; intros first prev nxt p H Hp; [by apply elem_of_nil in Hp|]. destruct H as (-> & h & Hq & _ & H). apply elem_of_cons in Hp as [->|Hp]; [by exists h|by eapply IH]. Qed.

(** The predecessor of a node that has one. *)
Lemma seg_pred ns first ps p h q : seg ns first None ps None → NoDup ps → p ∈ ps → ns !! p = Some h → prevHead h = Some q →
  ∃ l1 l2, ps = l1 ++ q :: p :: l2.
Proof.
  intros Hs Hnd Hp Hh Hq. apply list_elem_of_split in Hp as (l1 & l2 & ->). apply seg_app in Hs as (mid & H1 & (-> & h' & Hh' & Hpr & _)). assert (h' = h) as -> by congruence.
  destruct Hpr as [Hpr|Hpr]; [congruence|]. rewrite Hq in Hpr. unfold end_of in Hpr. destruct (last l1) as [x|] eqn:E; [|done]. injection Hpr as ->. apply last_Some in E as [l1' ->].
  exists l1', l2. by rewrite <-app_assoc.
Qed.

(** ** Buckets *)

(** A head without its links. *)
Definition unlinked (h : HashNodeHead) : HashNodeHead := set_links h None None.
Definition same_nodes (b b' : HashBucket) : Prop := ∀ q, unlinked <$> nodes b' !! q = unlinked <$> nodes b !! q.

Record bucket_ok (b : HashBucket) : Prop := {
  bk_list : ∃ ps, seg (nodes b) (nodeList b) None ps None ∧ NoDup ps ∧ (∀ p, p ∈ ps ↔ is_Some (nodes b !! p));
  bk_heads : ∀ p h, nodes b !! p = Some h → head_wf h ∧ head_hashValue h = HashKey (head_key h);
  bk_keys : ∀ p q hp hq, nodes b !! p = Some hp → nodes b !! q = Some hq → head_key hp = head_key hq → p = q }.

Lemma unlinked_inv h h' : unlinked h = unlinked h' → h' = set_links h (nextHead h') (prevHead h').
Proof. destruct h, h'. cbn. intros E. injection E as -> -> -> -> -> -> ->. done. Qed.

Lemma head_wf_links h n p : head_wf (set_links h n p) ↔ head_wf h.
Proof. split; intros []; by constructor. Qed.

Lemma same_nodes_lookup b b' q h' : same_nodes b b' → nodes b' !! q = Some h' → ∃ h, nodes b !! q = Some h ∧ h' = set_links h (nextHead h') (prevHead h').
Proof. intros Hs Hq. specialize (Hs q). rewrite Hq in Hs. destruct (nodes b !! q) as [h|]; [|done]. exists h. split; [done|]. apply unlinked_inv. cbn in Hs. congruence. Qed.

Lemma same_nodes_sym b b' : same_nodes b b' → same_nodes b' b.
Proof. intros H q. by rewrite H. Qed.

(** Links apart, the heads stay what they are. *)
Lemma bucket_ok_same b b' ps : bucket_ok b → same_nodes b b' → seg (nodes b') (nodeList b') None ps None → NoDup ps → (∀ p, p ∈ ps ↔ is_Some (nodes b !! p)) → bucket_ok b'.
Proof.
  intros [_ Hh Hk] Hs Hseg Hnd Hps. constructor.
  - exists ps. split_and!; [done..|]. intros p. rewrite Hps. specialize (Hs p). destruct (nodes b !! p), (nodes b' !! p); try done; split; intros [? ?]; done.
  - intros p h Hp. destruct (same_nodes_lookup _ _ _ _ Hs Hp) as (h0 & Hp0 & ->). destruct (Hh p h0 Hp0). split; [by apply head_wf_links|done].
  - intros p q hp hq Hp Hq He. destruct (same_nodes_lookup _ _ _ _ Hs Hp) as (hp0 & Hp0 & E1), (same_nodes_lookup _ _ _ _ Hs Hq) as (hq0 & Hq0 & E2). rewrite E1, E2 in He. by eapply Hk.
Qed.

Lemma KeyMatch_spec k1 k2 : KeyMatch k1 k2 = true ↔ k1 = k2.
Proof. unfold KeyMatch. rewrite !andb_true_iff, !Z.eqb_eq. destruct k1, k2; cbn. split; [by intros [[[[-> ->] ->] ->] ->]|by intros [=]]. Qed.

(** ** Lookup *)

Lemma find_head_spec b key : (∀ p h, nodes b !! p = Some h → head_hashValue h = HashKey (head_key h)) → ∀ ps fuel first prev, seg (nodes b) first prev ps None → (length ps ≤ fuel)%nat →
  (∃ p h, find_head fuel b first (HashKey key) key = Ok (Some p) ∧ nodes b !! p = Some h ∧ head_key h = key) ∨
  (find_head fuel b first (HashKey key) key = Ok None ∧ ∀ p h, p ∈ ps → nodes b !! p = Some h → head_key h ≠ key).
Proof.
  intros Hh ps. induction ps as [|p ps IH]; intros fuel first prev Hs Hf.
  { cbn in Hs. subst first. right. split; [by destruct fuel|]. intros p h Hp. by apply elem_of_nil in Hp. }
  destruct Hs as (-> & h & Hp & _ & Hs). destruct fuel as [|fuel]; [cbn in Hf; lia|]. cbn [find_head]. unfold head_at. rewrite Hp. cbn [mbind res_bind].
  destruct ((head_hashValue h =? HashKey key) && KeyMatch (head_key h) key) eqn:E.
  - left. exists p, h. split_and!; [done..|]. apply andb_true_iff in E as [_ E]. by apply KeyMatch_spec.
  - assert (Hne : head_key h ≠ key). { intros Ek. rewrite (Hh p h Hp), Ek, Z.eqb_refl in E. cbn [andb] in E. rewrite <-Ek, (proj2 (KeyMatch_spec _ _)) in E; done. }
    destruct (IH fuel (nextHead h) (Some p) Hs ltac:(cbn in Hf; lia)) as [?|[-> Hall]]; [by left|right]. split; [done|]. intros q hq Hq Hhq. apply elem_of_cons in Hq as [->|Hq]; [congruence|by eapply Hall].
Qed.

Lemma size_list b ps : NoDup ps → (∀ p, p ∈ ps ↔ is_Some (nodes b !! p)) → size (nodes b) = length ps.
Proof.
  intros Hnd Hps. rewrite <-(size_dom (D := gset positive)). assert (dom (nodes b) = list_to_set ps) as ->; [|by apply size_list_to_set].
  apply set_eq. intros p. by rewrite elem_of_dom, elem_of_list_to_set, Hps.
Qed.

Lemma find_key_spec b key : bucket_ok b →
  (∃ p h, find_key b key = Ok (Some p) ∧ nodes b !! p = Some h ∧ head_key h = key) ∨ (find_key b key = Ok None ∧ ∀ p h, nodes b !! p = Some h → head_key h ≠ key).
Proof.
  intros [(ps & Hs & Hnd & Hps) Hh Hk]. unfold find_key. rewrite (size_list b ps) by done.
  destruct (find_head_spec b key (λ p h Hp, proj2 (Hh p h Hp)) ps (length ps) (nodeList b) None Hs ltac:(lia)) as [?|[E Hall]]; [by left|right]. split; [done|].
  intros p h Hp. apply (Hall p h); [|done]. by apply Hps.
Qed.

(** ** Moving a head to the front *)

(** The links after the move. *)
Lemma seg_moved ns ns' first l1 q p l2 hq h : NoDup (l1 ++ q :: p :: l2) → seg ns first None (l1 ++ q :: p :: l2) None → ns !! q = Some hq → ns !! p = Some h →
  ns' !! p = Some (set_links h first None) → ns' !! q = Some (set_links hq (nextHead h) (prevHead hq)) → (∀ x, x ∈ l1 ++ tail l2 → ns' !! x = ns !! x) →
  (∀ x l2' hx, l2 = x :: l2' → ns !! x = Some hx → ns' !! x = Some (set_links hx (nextHead hx) (Some q))) → seg ns' (Some p) None (p :: l1 ++ q :: l2) None.
Proof.
  intros Hnd Hs Hq Hp Hp' Hq' Hrest Hn. apply seg_app in Hs as (mid & H1 & (-> & hq0 & E & Hprq & H2)). assert (hq0 = hq) as -> by congruence. destruct H2 as (Enq & h0 & E0 & _ & H2). assert (h0 = h) as -> by congruence.
  split; [done|]. exists (set_links h first None). split_and!; [done|by left|]. cbn [nextHead set_links].
  assert (H1' : seg ns' first None (l1 ++ [q]) (nextHead h)).
  { apply seg_app. exists (Some q). split; [eapply seg_frame; [|exact H1]; intros x Hx; apply Hrest, elem_of_app; by left|]. split; [done|]. by exists (set_links hq (nextHead h) (prevHead hq)). }
  apply (seg_prev _ _ (Some p)) in H1'. replace (l1 ++ q :: l2) with ((l1 ++ [q]) ++ l2) by (by rewrite <-app_assoc). apply seg_app. exists (nextHead h). split; [done|].
  unfold end_of. rewrite last_snoc. destruct l2 as [|x l2]; [done|]. destruct H2 as (En & hx & Ex & _ & H2). split; [done|]. exists (set_links hx (nextHead hx) (Some q)).
  split_and!; [by eapply Hn|by right|]. cbn [nextHead set_links]. eapply seg_frame; [|exact H2]. intros y Hy. apply Hrest, elem_of_app. by right.
Qed.

Lemma nodup_mid (l1 : list positive) q p l2 : NoDup (l1 ++ q :: p :: l2) → q ≠ p ∧ (q ∉ l2) ∧ (p ∉ l2) ∧ (q ∉ l1) ∧ (p ∉ l1) ∧ NoDup l2 ∧ (∀ x, x ∈ l1 → x ∉ l2).
Proof. intros Hnd. apply NoDup_app in Hnd as (_ & Hx & Hnd). apply NoDup_cons in Hnd as [Hq1 Hnd]. apply NoDup_cons in Hnd as [Hp1 Hnd]. split_and!; [set_solver..|done|set_solver]. Qed.

Lemma move_to_front_spec b p h : bucket_ok b → nodes b !! p = Some h → ∃ b', move_to_front b p = Ok b' ∧ bucket_ok b' ∧ same_nodes b b'.
Proof.
  intros Hb Hp. pose proof Hb as [(ps & Hs & Hnd & Hps) Hh Hk]. unfold move_to_front, head_at. rewrite Hp. cbn [mbind res_bind]. destruct (prevHead h) as [q|] eqn:Epr; [|by exists b].
  destruct (seg_pred _ _ _ p h q Hs Hnd ltac:(apply Hps; by exists h) Hp Epr) as (l1 & l2 & Eps). subst ps.
  destruct (proj1 (Hps q)) as [hq Hq]; [apply elem_of_app; right; by left|]. rewrite Hq. cbn [mbind res_bind].
  destruct (nodup_mid l1 q p l2 Hnd) as (Hqp & Hq2 & Hp2 & Hq1 & Hp1 & Hnd2 & H12).
  assert (Hnext : l2 = [] ∧ nextHead h = None ∨ ∃ x l2' hx, l2 = x :: l2' ∧ nextHead h = Some x ∧ nodes b !! x = Some hx).
  { apply seg_app in Hs as (mid & _ & (_ & hq0 & _ & _ & (_ & h0 & E0 & _ & H2))). assert (h0 = h) as -> by congruence. destruct l2 as [|x l2]; [by left|right]. destruct H2 as (En & hx & Ex & _). by exists x, l2, hx. }
  assert (Hgoal : ∀ b', nodeList b' = Some p → same_nodes b b' → seg (nodes b') (Some p) None (p :: l1 ++ q :: l2) None → bucket_ok b' ∧ same_nodes b b').
  { intros b' El Hsame Hseg. split; [|done]. apply (bucket_ok_same b b' (p :: l1 ++ q :: l2) Hb Hsame); [by rewrite El| |].
    - assert (Hperm : p :: l1 ++ q :: l2 ≡ₚ l1 ++ q :: p :: l2) by (rewrite <-!Permutation_middle; apply Permutation_swap). by rewrite Hperm.
    - intros y. rewrite <-Hps. rewrite !elem_of_cons, !elem_of_app, !elem_of_cons. tauto. }
  destruct Hnext as [[-> En]|(x & l2' & hx & -> & En & Hx)]; rewrite En; cbn [mbind res_bind set_node nodes nodeList].
  - rewrite lookup_insert_ne, Hp by done. cbn [mbind res_bind]. eexists. split; [reflexivity|]. apply Hgoal; [done| |]; cbn [nodes].
    + intros y. cbn [nodes]. destruct (decide (y = p)) as [->|Hy]; [by rewrite lookup_insert_eq, Hp|]. rewrite lookup_insert_ne by done.
      destruct (decide (y = q)) as [->|Hy']; [by rewrite lookup_insert_eq, Hq|]. by rewrite lookup_insert_ne.
    + apply (seg_moved (nodes b) _ (nodeList b) l1 q p [] hq h); [done..|by rewrite lookup_insert_eq|by rewrite lookup_insert_ne, lookup_insert_eq, En| |done].
      intros y Hy. cbn in Hy. rewrite app_nil_r in Hy. rewrite !lookup_insert_ne by (intros <-; done). done.
  - assert (x ≠ q ∧ x ≠ p) as [Hxq Hxp] by (split; intros ->; [destruct Hq2|destruct Hp2]; by left). rewrite lookup_insert_ne, Hx by done. cbn [mbind res_bind set_node nodes nodeList]. rewrite !lookup_insert_ne, Hp by done. cbn [mbind res_bind].
    eexists. split; [reflexivity|]. apply Hgoal; [done| |]; cbn [nodes].
    + intros y. cbn [nodes]. destruct (decide (y = p)) as [->|Hy]; [by rewrite lookup_insert_eq, Hp|]. rewrite lookup_insert_ne by done.
      destruct (decide (y = x)) as [->|Hy']; [by rewrite lookup_insert_eq, Hx|]. rewrite lookup_insert_ne by done. destruct (decide (y = q)) as [->|Hy2]; [by rewrite lookup_insert_eq, Hq|]. by rewrite lookup_insert_ne.
    + apply (seg_moved (nodes b) _ (nodeList b) l1 q p (x :: l2') hq h); [done..|by rewrite lookup_insert_eq|do 2 rewrite lookup_insert_ne by done; by rewrite lookup_insert_eq, En| |].
      * intros y Hy. apply NoDup_cons in Hnd2 as [Hx2 _]. cbn [tail] in Hy. apply elem_of_app in Hy.
        assert (q ≠ y ∧ x ≠ y ∧ p ≠ y) as (? & ? & ?).
        { split_and!; intros <-; destruct Hy as [Hy|Hy]; try done; [destruct Hq2; by right|destruct (H12 x Hy); by left|destruct Hp2; by right]. }
        by rewrite !lookup_insert_ne.
      * intros x0 l0 hx0 [= <- <-] Hx0. assert (hx0 = hx) as -> by congruence. rewrite lookup_insert_ne by done. by rewrite lookup_insert_eq.
Qed.

(** ** A new head *)

Lemma push_head_spec b h : bucket_ok b → head_wf h → head_hashValue h = HashKey (head_key h) → (∀ p h', nodes b !! p = Some h' → head_key h' ≠ head_key h) →
  ∃ b' p, push_head b h = Ok b' ∧ bucket_ok b' ∧ nodes b !! p = None ∧ unlinked <$> nodes b' !! p = Some (unlinked h) ∧ (∀ q, q ≠ p → unlinked <$> nodes b' !! q = unlinked <$> nodes b !! q).
Proof.
  intros Hb Hw Hv Hnew. pose proof Hb as [(ps & Hs & Hnd & Hps) Hh Hk]. unfold push_head. set (p := fresh (dom (nodes b))).
  assert (Hp : nodes b !! p = None) by (apply not_elem_of_dom; apply is_fresh). clearbody p.
  assert (Hpps : p ∉ ps) by (intros Hin; apply Hps in Hin as [? ?]; congruence).
  assert (Hgoal : ∀ ns', ns' !! p = None → (∀ q, unlinked <$> ns' !! q = unlinked <$> nodes b !! q) → seg ns' (nodeList b) (Some p) ps None →
    ∃ b' p0, Ok (mkBucket (Some p) (<[p := set_links h (nodeList b) None]> ns')) = Ok b' ∧ bucket_ok b' ∧ nodes b !! p0 = None ∧ unlinked <$> nodes b' !! p0 = Some (unlinked h) ∧ (∀ q, q ≠ p0 → unlinked <$> nodes b' !! q = unlinked <$> nodes b !! q)).
  { intros ns' Hp' Hsame Hseg. eexists _, p. split; [reflexivity|]. cbn [nodes].
    assert (Hold : ∀ q h', q ≠ p → <[p := set_links h (nodeList b) None]> ns' !! q = Some h' → ∃ h0, nodes b !! q = Some h0 ∧ h' = set_links h0 (nextHead h') (prevHead h')).
    { intros q h' Hq Hq'. rewrite lookup_insert_ne in Hq' by done. by apply (same_nodes_lookup b (mkBucket None ns') q h'). }
    split_and!; [|done|by rewrite lookup_insert_eq|intros q Hq; by rewrite lookup_insert_ne].
    constructor; cbn [nodes nodeList].
    - exists (p :: ps). split_and!; [|by apply NoDup_cons|].
      + split; [done|]. exists (set_links h (nodeList b) None). split_and!; [by rewrite lookup_insert_eq|by left|]. cbn [nextHead set_links]. eapply seg_frame; [|exact Hseg]. intros q Hq. rewrite lookup_insert_ne; [done|]. by intros ->.
      + intros q. rewrite elem_of_cons, Hps. destruct (decide (q = p)) as [->|Hq]; [rewrite lookup_insert_eq; split; [by exists (set_links h (nodeList b) None)|by left]|]. rewrite lookup_insert_ne by done.
        specialize (Hsame q). split; [intros [?|[x Hx]]; [done|]; rewrite Hx in Hsame; by destruct (ns' !! q)|intros [x Hx]; right; rewrite Hx in Hsame; by destruct (nodes b !! q)].
    - intros q h' Hq. destruct (decide (q = p)) as [->|Hne]; [rewrite lookup_insert_eq in Hq; injection Hq as <-; split; [by apply head_wf_links|done]|].
      destruct (Hold q h' Hne Hq) as (h0 & H0 & ->). destruct (Hh q h0 H0). split; [by apply head_wf_links|done].
    - intros q r hq hr Hq Hr He. destruct (decide (q = p)) as [->|Hq'], (decide (r = p)) as [->|Hr']; [done|..].
      + rewrite lookup_insert_eq in Hq. injection Hq as <-. destruct (Hold r hr Hr' Hr) as (h0 & H0 & E). rewrite E in He. by destruct (Hnew r h0 H0).
      + rewrite lookup_insert_eq in Hr. injection Hr as <-. destruct (Hold q hq Hq' Hq) as (h0 & H0 & E). rewrite E in He. by destruct (Hnew q h0 H0).
      + destruct (Hold q hq Hq' Hq) as (h0 & H0 & E0), (Hold r hr Hr' Hr) as (h1 & H1 & E1). rewrite E0, E1 in He. by eapply Hk. }
  destruct (nodeList b) as [f|] eqn:Ef; cbn [mbind res_bind].
  - destruct ps as [|f' ps]; [done|]. destruct Hs as ([= <-] & hf & Hf & Hprf & Hs). unfold head_at. rewrite Hf. cbn [mbind res_bind set_node nodes].
    assert (f ≠ p) by (intros ->; congruence). apply NoDup_cons in Hnd as [Hf' _]. apply Hgoal; [by rewrite lookup_insert_ne| |].
    + intros q. destruct (decide (q = f)) as [->|Hq]; [by rewrite lookup_insert_eq, Hf|by rewrite lookup_insert_ne].
    + split; [done|]. exists (set_links hf (nextHead hf) (Some p)). split_and!; [by rewrite lookup_insert_eq|by right|]. cbn [nextHead set_links]. eapply seg_frame; [|exact Hs]. intros q Hq. rewrite lookup_insert_ne; [done|]. by intros ->.
  - apply Hgoal; [done|done|]. by apply seg_prev.
Qed.
