(* ===== verification/VersionSpec.v ===== *)
(** * The theorems of the version map

    The map is a function from pages to their sorted positions and the position
    they are replayed to; its operations work on that function, and a request is
    given exactly the records between the two positions. *)

From Stdlib Require Import Sorted.
From S2P Require Import Prelude Mem VersionMap VersionNode VersionBucket.

(** ** The abstract map *)

(** The positions of a page, how far it is replayed, and whether a thread
    replays it. *)
Record vpage : Type := mkVpage { v_entries : list LsnEntry; v_replayed : Z; v_locked : bool }.
Definition content (h : HashNodeHead) : vpage := mkVpage (all_entries h) (replayedLsn h) (headLock h).

Record map_ok (m : HashMap) : Prop := {
  mo_num : 0 < bucketNum m;
  mo_length : zlen (bucketList m) = bucketNum m;
  mo_buckets : ∀ i b, bucketList m !! i = Some b → bucket_ok b;
  mo_place : ∀ i b p h, bucketList m !! i = Some b → nodes b !! p = Some h → bucketPos m (head_key h) = i }.

Definition bview (b : HashBucket) (key : KeyType) : option vpage :=
  match find_key b key with Ok (Some p) => content <$> nodes b !! p | _ => None end.
Definition view (m : HashMap) (key : KeyType) : option vpage := bucketList m !! bucketPos m key ≫= λ b, bview b key.

Lemma bview_some b p h : bucket_ok b → nodes b !! p = Some h → bview b (head_key h) = Some (content h).
Proof.
  intros Hb Hp. unfold bview. destruct (find_key_spec b (head_key h) Hb) as [(q & hq & -> & Hq & E)|[_ Hn]]; [|by destruct (Hn p h Hp)].
  assert (q = p) as -> by (eapply (bk_keys _ Hb); [exact Hq|exact Hp|done]). by rewrite Hp.
Qed.

Lemma bview_none b key : bucket_ok b → (∀ p h, nodes b !! p = Some h → head_key h ≠ key) → bview b key = None.
Proof. intros Hb Hn. unfold bview. destruct (find_key_spec b key Hb) as [(q & hq & _ & Hq & E)|[-> _]]; [by destruct (Hn q hq Hq)|done]. Qed.

Lemma bview_cases b key : bucket_ok b → (∃ p h, find_key b key = Ok (Some p) ∧ nodes b !! p = Some h ∧ head_key h = key ∧ bview b key = Some (content h)) ∨
  (find_key b key = Ok None ∧ bview b key = None ∧ ∀ p h, nodes b !! p = Some h → head_key h ≠ key).
Proof.
  intros Hb. destruct (find_key_spec b key Hb) as [(p & h & E & Hp & <-)|[E Hn]]; [left|right].
  - exists p, h. split_and!; [done..|]. by eapply bview_some.
  - split_and!; [done|by apply bview_none|done].
Qed.

(** Heads that differ in their links. *)
Lemma content_links h n p : content (set_links h n p) = content h.
Proof. done. Qed.

(** The heads with other keys stay. *)
Lemma bview_other b b' key k : bucket_ok b → bucket_ok b' → k ≠ key →
  (∀ q h, nodes b !! q = Some h → head_key h ≠ key → ∃ n p, nodes b' !! q = Some (set_links h n p)) →
  (∀ q h', nodes b' !! q = Some h' → head_key h' ≠ key → ∃ h n p, nodes b !! q = Some h ∧ h' = set_links h n p) → bview b' k = bview b k.
Proof.
  intros Hb Hb' Hk Hto Hfrom. destruct (bview_cases b k Hb) as [(p & h & _ & Hp & E & ->)|(_ & -> & Hn)].
  - destruct (Hto p h Hp ltac:(congruence)) as (n & pr & Hp'). rewrite <-E. exact (bview_some b' p _ Hb' Hp').
  - apply bview_none; [done|]. intros q h' Hq E. destruct (Hfrom q h' Hq ltac:(congruence)) as (h & n & pr & Hh & ->). by apply (Hn q h Hh).
Qed.

Lemma view_put m key b b' : map_ok m → bucketList m !! bucketPos m key = Some b → bucket_ok b' → (∀ p h, nodes b' !! p = Some h → bucketPos m (head_key h) = bucketPos m key) →
  map_ok (put_bucket m key b') ∧ view (put_bucket m key b') key = bview b' key ∧ ∀ k, k ≠ key → view (put_bucket m key b') k = if decide (bucketPos m k = bucketPos m key) then bview b' k else view m k.
Proof.
  intros [Hn Hl Hb Hp] Hi Hb' Hp'. pose proof (lookup_lt_Some _ _ _ Hi) as Hlt. split_and!.
  - constructor; cbn [put_bucket bucketNum bucketList].
    + done.
    + unfold zlen in *. by rewrite length_insert.
    + intros i b0 H0. apply list_lookup_insert_Some in H0 as [(<- & -> & _)|(_ & H0)]; [done|by eapply Hb].
    + intros i b0 p h H0 Hh. change (bucketPos (put_bucket m key b') (head_key h)) with (bucketPos m (head_key h)). apply list_lookup_insert_Some in H0 as [(<- & -> & _)|(_ & H0)]; [by eapply Hp'|by eapply Hp].
  - unfold view, put_bucket. cbn [bucketList]. change (bucketPos (mkHashMap _ _) key) with (bucketPos m key). by rewrite list_lookup_insert_eq.
  - intros k Hk. unfold view, put_bucket. cbn [bucketList]. change (bucketPos (mkHashMap _ _) k) with (bucketPos m k). destruct (decide (bucketPos m k = bucketPos m key)) as [E|E].
    + rewrite E. by rewrite list_lookup_insert_eq.
    + by rewrite list_lookup_insert_ne.
Qed.

Lemma get_bucket_ok m key : map_ok m → ∃ b, get_bucket m key = Ok b ∧ bucketList m !! bucketPos m key = Some b ∧ bucket_ok b.
Proof.
  intros [Hn Hl Hb _]. unfold get_bucket. destruct (lookup_lt_is_Some_2 (bucketList m) (bucketPos m key)) as [b E].
  { unfold bucketPos, zlen in *. pose proof (Z.mod_pos_bound (HashKey key) (bucketNum m) Hn). lia. }
  rewrite E. exists b. split_and!; [done..|by eapply Hb].
Qed.

(** ** One page changes *)

Lemma seg_change ns p h h' ps : ns !! p = Some h → nextHead h' = nextHead h → prevHead h' = prevHead h → ∀ first prev nxt, seg ns first prev ps nxt → seg (<[p := h']> ns) first prev ps nxt.
Proof.
  intros Hp Hn Hpr. induction ps as [|q ps IH]; intros first prev nxt Hs; [done|]. destruct Hs as (-> & hq & Hq & Hprq & Hs). split; [done|].
  destruct (decide (q = p)) as [->|Hne]; [exists h'; rewrite lookup_insert_eq|exists hq; rewrite lookup_insert_ne by done].
  - assert (hq = h) as -> by congruence. rewrite Hn, Hpr. split_and!; [done..|by apply IH].
  - split_and!; [done..|by apply IH].
Qed.

(** A head is replaced by one with the same key and links. *)
Lemma set_node_ok b p h h' : bucket_ok b → nodes b !! p = Some h → head_wf h' → head_key h' = head_key h → head_hashValue h' = head_hashValue h → nextHead h' = nextHead h → prevHead h' = prevHead h →
  bucket_ok (set_node b p h').
Proof.
  intros Hb Hp Hw Hk Hv Hn Hpr. pose proof Hb as [(ps & Hs & Hnd & Hps) Hh Hkeys]. unfold set_node. constructor; cbn [nodes nodeList].
  - exists ps. split_and!; [|done|].
    + eapply seg_change; [exact Hp|exact Hn|exact Hpr|exact Hs].
    + intros q. rewrite Hps. destruct (decide (q = p)) as [->|Hne]; [rewrite lookup_insert_eq, Hp; split; intros _; by eexists|by rewrite lookup_insert_ne].
  - intros q hq Hq. apply lookup_insert_Some in Hq as [[<- <-]|[_ Hq]]; [|by apply (Hh q)]. split; [done|]. rewrite Hv, Hk. by apply (Hh p).
  - intros q r hq hr Hq Hr E. apply lookup_insert_Some in Hq as [[<- <-]|[Hq1 Hq]], Hr as [Hr|Hr]; try (destruct Hr as [<- <-]); try (destruct Hr as [Hr1 Hr]); [done|..].
    + rewrite Hk in E. by eapply Hkeys.
    + rewrite Hk in E. by eapply Hkeys.
    + by eapply Hkeys.
Qed.

Definition upd (f : KeyType → option vpage) (key : KeyType) (v : vpage) (k : KeyType) : option vpage := if decide (k = key) then Some v else f k.

(** An operation that finds a head, moves it or not, and changes it. *)
Lemma change_head m key b b1 p h h' : map_ok m → bucketList m !! bucketPos m key = Some b → bucket_ok b1 → same_nodes b b1 → nodes b1 !! p = Some h → head_key h = key →
  head_wf h' → head_key h' = head_key h → head_hashValue h' = head_hashValue h → nextHead h' = nextHead h → prevHead h' = prevHead h →
  map_ok (put_bucket m key (set_node b1 p h')) ∧ ∀ k, view (put_bucket m key (set_node b1 p h')) k = upd (view m) key (content h') k.
Proof.
  intros Hm Hi Hb1 Hsame Hp Hk Hw Hk' Hv Hn Hpr. pose proof (mo_buckets _ Hm _ _ Hi) as Hb. pose proof (set_node_ok b1 p h h' Hb1 Hp Hw Hk' Hv Hn Hpr) as Hb2.
  destruct (view_put m key b (set_node b1 p h') Hm Hi Hb2) as (Hm' & Hv1 & Hv2).
  { intros q hq Hq. cbn [set_node nodes] in Hq. apply lookup_insert_Some in Hq as [[<- <-]|[_ Hq]]; [by rewrite Hk', Hk|]. destruct (same_nodes_lookup _ _ _ _ Hsame Hq) as (h0 & H0 & ->). exact (mo_place _ Hm _ b q h0 Hi H0). }
  split; [done|]. intros k. unfold upd. destruct (decide (k = key)) as [->|Hne].
  - rewrite Hv1. rewrite <-Hk, <-Hk'. apply (bview_some _ p); [done|]. cbn [set_node nodes]. by rewrite lookup_insert_eq.
  - rewrite (Hv2 k Hne). destruct (decide (bucketPos m k = bucketPos m key)) as [E|E]; [|done]. unfold view. rewrite E, Hi. cbn [mbind option_bind].
    apply (bview_other b (set_node b1 p h') key k Hb Hb2 Hne); cbn [set_node nodes].
    + intros q hq Hq Hkq. assert (q ≠ p). { intros ->. destruct (same_nodes_lookup _ _ _ _ Hsame Hp) as (h0 & H0 & E0). assert (h0 = hq) as -> by congruence. rewrite E0 in Hk. done. }
      rewrite lookup_insert_ne by done. destruct (same_nodes_lookup _ _ _ _ (same_nodes_sym _ _ Hsame) Hq) as (h0 & H0 & E0). rewrite H0. exists (nextHead h0), (prevHead h0). f_equal. rewrite E0. by destruct h0.
    + intros q hq Hq Hkq. apply lookup_insert_Some in Hq as [[<- <-]|[_ Hq]]; [congruence|]. destruct (same_nodes_lookup _ _ _ _ Hsame Hq) as (h0 & H0 & E0). by exists h0, (nextHead hq), (prevHead hq).
Qed.

(** ** Operations *)

Inductive vm_op : Type :=
| VInsert (key : KeyType) (lsn pageNum : Z) (noEmptyFirstSlot : bool)
| VGetList (key : KeyType) (targetLsn : Z)
| VReplayed (key : KeyType) (lsn : Z) (holdHeadLock : bool)
| VFind (key : KeyType) (targetLsn : Z).
Inductive vm_out : Type := OBool (b : bool) | OList (r : option (Z * list Z)) | OEntry (e : option LsnEntry).

Definition vm_exec (m : HashMap) (op : vm_op) : res (HashMap * vm_out) :=
  match op with
  | VInsert key lsn pageNum b => '(m, r) ← HashMapInsertKey m key lsn pageNum b; Ok (m, OBool r)
  | VGetList key t => '(m, r) ← HashMapGetBlockReplayList m key t; Ok (m, OList r)
  | VReplayed key lsn b => '(m, r) ← HashMapUpdateReplayedLsn m key lsn b; Ok (m, OBool r)
  | VFind key t => r ← HashMapFindLowerBoundEntry m key t; Ok (m, OEntry r)
  end.

(** The positions of a page that is new. *)
Definition first_entries (key : KeyType) (lsn pageNum : Z) (noEmptyFirstSlot : bool) : list LsnEntry :=
  if negb (BlkNum key =? -1) && negb noEmptyFirstSlot then [mkEntry 0 None; mkEntry lsn None] else [mkEntry lsn (Some pageNum)].

(** The same on a finite map of pages. *)
Definition a_exec (v : gmap KeyType vpage) (op : vm_op) : res (gmap KeyType vpage * vm_out) :=
  match op with
  | VInsert key lsn pageNum b =>
    match v !! key with
    | None => Ok (<[key := mkVpage (first_entries key lsn pageNum b) 0 false]> v, OBool true)
    | Some p => if v_locked p then Err EWait else
                let '(es, r) := add_spec (v_entries p) lsn pageNum in Ok (<[key := mkVpage es (v_replayed p) false]> v, OBool r)
    end
  | VGetList key t =>
    match v !! key with
    | None => Ok (v, OList None)
    | Some p => if v_locked p then Err EWait else
                let r := replay_spec (v_entries p) (v_replayed p) t in
                Ok (<[key := mkVpage (v_entries p) (v_replayed p) (match r with Some (_, _ :: _) => true | _ => false end)]> v, OList r)
    end
  | VReplayed key lsn hold =>
    match v !! key with
    | None => Ok (v, OBool false)
    | Some p => if negb hold && v_locked p then Err EWait else
                Ok (<[key := mkVpage (v_entries p) (Z.max (v_replayed p) lsn) false]> v, OBool (v_replayed p <? lsn))
    end
  | VFind key t =>
    match v !! key with
    | None => Ok (v, OEntry None)
    | Some p => if v_locked p then Err EWait else Ok (v, OEntry (below t (v_entries p)))
    end
  end.

Definition vm_rel (m : HashMap) (v : gmap KeyType vpage) : Prop := map_ok m ∧ ∀ k, view m k = v !! k.

Definition op_ok (op : vm_op) : Prop := match op with VInsert _ lsn _ _ => 0 < lsn | _ => True end.

Definition agree (c : res (HashMap * vm_out)) (a : res (gmap KeyType vpage * vm_out)) : Prop :=
  match c, a with
  | Ok (m, o), Ok (v, o') => o = o' ∧ vm_rel m v
  | Err e, Err e' => e = e'
  | _, _ => False
  end.

Lemma upd_insert m (v : gmap KeyType vpage) key p : (∀ k, view m k = v !! k) → ∀ k, upd (view m) key p k = <[key := p]> v !! k.
Proof. intros H k. unfold upd. destruct (decide (k = key)) as [->|Hne]; [by rewrite lookup_insert_eq|rewrite lookup_insert_ne by done; apply H]. Qed.

(** What an operation finds first. *)
Lemma find_cases m v key : vm_rel m v → ∃ b, get_bucket m key = Ok b ∧ bucketList m !! bucketPos m key = Some b ∧ bucket_ok b ∧
  ((∃ p h, find_key b key = Ok (Some p) ∧ nodes b !! p = Some h ∧ head_key h = key ∧ v !! key = Some (content h)) ∨
   (find_key b key = Ok None ∧ v !! key = None ∧ ∀ p h, nodes b !! p = Some h → head_key h ≠ key)).
Proof.
  intros [Hm Hv]. destruct (get_bucket_ok m key Hm) as (b & Eg & Hi & Hb). exists b. split_and!; [done..|].
  assert (Ev : v !! key = bview b key) by (rewrite <-Hv; unfold view; by rewrite Hi). rewrite Ev. by apply bview_cases.
Qed.

(** A change of the head that was found, after moving it to the front. *)
Lemma moved_change m v key b p h : vm_rel m v → bucketList m !! bucketPos m key = Some b → nodes b !! p = Some h → head_key h = key →
  ∃ b1 h1, move_to_front b p = Ok b1 ∧ head_at b1 p = Ok h1 ∧ head_wf h1 ∧ content h1 = content h ∧
    ∀ h', head_wf h' → head_key h' = head_key h1 → head_hashValue h' = head_hashValue h1 → nextHead h' = nextHead h1 → prevHead h' = prevHead h1 →
      vm_rel (put_bucket m key (set_node b1 p h')) (<[key := content h']> v).
Proof.
  intros [Hm Hv] Hi Hp Hk. pose proof (mo_buckets _ Hm _ _ Hi) as Hb. destruct (move_to_front_spec b p h Hb Hp) as (b1 & E & Hb1 & Hsame).
  destruct (same_nodes_lookup _ _ _ _ (same_nodes_sym _ _ Hsame) Hp) as (h1 & Hp1 & E1). exists b1, h1. unfold head_at. rewrite Hp1.
  assert (Ek : head_key h1 = key) by (rewrite E1 in Hk; done).
  split_and!; [done..|by apply (bk_heads _ Hb1 p)|by rewrite E1|]. intros h' Hw E2 E3 E4 E5.
  destruct (change_head m key b b1 p h1 h' Hm Hi Hb1 Hsame Hp1) as [Hm' Hv']; [done..|]. split; [done|]. intros k. rewrite Hv'. by apply upd_insert.
Qed.

Lemma insert_agrees m v key lsn pg b : vm_rel m v → 0 < lsn → agree (vm_exec m (VInsert key lsn pg b)) (a_exec v (VInsert key lsn pg b)).
Proof.
  intros Hr Hl. cbn [vm_exec a_exec]. unfold HashMapInsertKey. destruct (find_cases m v key Hr) as (bk & Eg & Hi & Hb & Hcase). rewrite Eg. cbn [mbind res_bind]. destruct Hcase as [(p & h & -> & Hp & Hk & ->)|(-> & -> & Hn)]; cbn [mbind res_bind].
  - destruct (moved_change m v key bk p h Hr Hi Hp Hk) as (b1 & h1 & Em & Ed & Hw & Ec & Hch). rewrite Em. cbn [mbind res_bind]. rewrite Ed. cbn [mbind res_bind]. rewrite <-Ec. cbn [content v_locked]. destruct (headLock h1) eqn:El; [done|].
    destruct (add_version_spec h1 lsn pg Hw) as (es & mx & eles & r & -> & Hw' & E). cbn [mbind res_bind content v_entries v_replayed]. rewrite <-E. split; [done|].
    change (mkVpage (all_entries (set_versions h1 es mx eles)) (replayedLsn h1) false) with (mkVpage (all_entries (set_versions h1 es mx eles)) (replayedLsn (set_versions h1 es mx eles)) false).
    rewrite <-El. apply (Hch (set_versions h1 es mx eles)); done.
  - destruct Hr as [Hm Hv]. destruct (push_head_spec bk (new_head key lsn pg b) Hb (new_head_wf key lsn pg b Hl) eq_refl Hn) as (b' & p & -> & Hb' & Hp & Hnp & Hoth). cbn [mbind res_bind].
    split; [done|]. destruct (nodes b' !! p) as [h'|] eqn:Ep; [|done]. change (Some (unlinked h') = Some (unlinked (new_head key lsn pg b))) in Hnp. apply Some_inj, eq_sym, unlinked_inv in Hnp.
    assert (Hold : ∀ q hq, q ≠ p → nodes b' !! q = Some hq → ∃ h0, nodes bk !! q = Some h0 ∧ hq = set_links h0 (nextHead hq) (prevHead hq)).
    { intros q hq Hq Hhq. specialize (Hoth q Hq). rewrite Hhq in Hoth. destruct (nodes bk !! q) as [h0|]; [|done]. exists h0. split; [done|]. apply unlinked_inv. cbn in Hoth. congruence. }
    destruct (view_put m key bk b' Hm Hi Hb') as (Hm' & Hv1 & Hv2).
    { intros q hq Hq. destruct (decide (q = p)) as [->|Hne]; [assert (hq = h') as -> by congruence; by rewrite Hnp|]. destruct (Hold q hq Hne Hq) as (h0 & H0 & ->). exact (mo_place _ Hm _ bk q h0 Hi H0). }
    split; [done|]. intros k. destruct (decide (k = key)) as [->|Hne].
    + rewrite Hv1, lookup_insert_eq. assert (Ekey : head_key h' = key) by (by rewrite Hnp). pose proof (bview_some b' p h' Hb' Ep) as E. rewrite Ekey in E. rewrite E, Hnp. unfold first_entries. by unfold content, all_entries, new_head; cbn; rewrite app_nil_r.
    + rewrite (Hv2 k Hne), lookup_insert_ne, <-Hv by done. destruct (decide (bucketPos m k = bucketPos m key)) as [E|E]; [|done]. unfold view. rewrite E, Hi. cbn [mbind option_bind].
      apply (bview_other bk b' key k Hb Hb' Hne).
      * intros q hq Hq _. assert (q ≠ p) by (intros ->; congruence). specialize (Hoth q H). rewrite Hq in Hoth. destruct (nodes b' !! q) as [h0|]; [|done]. exists (nextHead h0), (prevHead h0). f_equal. apply unlinked_inv. cbn in Hoth. congruence.
      * intros q hq Hq Hkq. assert (q ≠ p) by (intros ->; assert (hq = h') as -> by congruence; by rewrite Hnp in Hkq). destruct (Hold q hq H Hq) as (h0 & H0 & E0). by exists h0, (nextHead hq), (prevHead hq).
Qed.

Lemma head_wf_lock h b : head_wf (set_lock h b) ↔ head_wf h.
Proof. split; intros []; by constructor. Qed.
Lemma head_wf_replayed h l : head_wf (set_replayed h l) ↔ head_wf h.
Proof. split; intros []; by constructor. Qed.

Lemma get_list_agrees m v key t : vm_rel m v → agree (vm_exec m (VGetList key t)) (a_exec v (VGetList key t)).
Proof.
  intros Hr. cbn [vm_exec a_exec]. unfold HashMapGetBlockReplayList. destruct (find_cases m v key Hr) as (bk & Eg & Hi & Hb & Hcase). rewrite Eg. cbn [mbind res_bind].
  destruct Hcase as [(p & h & -> & Hp & Hk & ->)|(-> & -> & Hn)]; cbn [mbind res_bind]; [|done].
  destruct (moved_change m v key bk p h Hr Hi Hp Hk) as (b1 & h1 & Em & Ed & Hw & Ec & Hch). rewrite Em. cbn [mbind res_bind]. rewrite Ed. cbn [mbind res_bind]. rewrite <-Ec. cbn [content v_locked v_entries v_replayed].
  destruct (headLock h1) eqn:El; [done|]. rewrite replay_list_spec by done. cbn [mbind res_bind]. split; [done|]. set (keep := match _ with Some _ => _ | None => _ end). apply (Hch (set_lock h1 keep)); try done. by apply head_wf_lock.
Qed.

(** A head is changed where it is. *)
Lemma inplace_change m v key b p h h' : vm_rel m v → bucketList m !! bucketPos m key = Some b → nodes b !! p = Some h → head_key h = key → head_wf h' → head_key h' = head_key h → head_hashValue h' = head_hashValue h →
  nextHead h' = nextHead h → prevHead h' = prevHead h → vm_rel (put_bucket m key (set_node b p h')) (<[key := content h']> v).
Proof.
  intros [Hm Hv] Hi Hp Hk Hw E2 E3 E4 E5. pose proof (mo_buckets _ Hm _ _ Hi) as Hb. destruct (change_head m key b b p h h' Hm Hi Hb (λ _, eq_refl) Hp) as [Hm' Hv']; [done..|]. split; [done|].
  intros k. rewrite Hv'. by apply upd_insert.
Qed.

Lemma replayed_agrees m v key lsn hold : vm_rel m v → agree (vm_exec m (VReplayed key lsn hold)) (a_exec v (VReplayed key lsn hold)).
Proof.
  intros Hr. cbn [vm_exec a_exec]. unfold HashMapUpdateReplayedLsn. destruct (find_cases m v key Hr) as (bk & Eg & Hi & Hb & Hcase). rewrite Eg. cbn [mbind res_bind].
  destruct Hcase as [(p & h & -> & Hp & Hk & ->)|(-> & -> & Hn)]; cbn [mbind res_bind]; [|done]. unfold head_at. rewrite Hp. cbn [mbind res_bind content v_locked v_entries v_replayed].
  destruct (negb hold && headLock h); [done|]. pose proof (proj1 (bk_heads _ Hb p h Hp)) as Hw. destruct (Z.ltb_spec (replayedLsn h) lsn) as [Hl|Hl]; cbn [mbind res_bind]; (split; [done|]).
  - rewrite Z.max_r by lia. apply (inplace_change m v key bk p h (set_lock (set_replayed h lsn) false)); try done. by apply head_wf_lock, head_wf_replayed.
  - rewrite Z.max_l by lia. apply (inplace_change m v key bk p h (set_lock h false)); try done. by apply head_wf_lock.
Qed.

Lemma find_agrees m v key t : vm_rel m v → agree (vm_exec m (VFind key t)) (a_exec v (VFind key t)).
Proof.
  intros Hr. cbn [vm_exec a_exec]. unfold HashMapFindLowerBoundEntry. destruct (find_cases m v key Hr) as (bk & Eg & Hi & Hb & Hcase). rewrite Eg. cbn [mbind res_bind].
  destruct Hcase as [(p & h & -> & Hp & Hk & ->)|(-> & -> & Hn)]; cbn [mbind res_bind]; [|done]. unfold head_at. rewrite Hp. cbn [mbind res_bind content v_locked v_entries].
  destruct (headLock h); [done|]. pose proof (proj1 (bk_heads _ Hb p h Hp)) as [Hz Hfull Hel Hs Hmax]. unfold all_entries in Hs. apply entries_app in Hs as (Hs1 & Hs2 & Hlt).
  destruct (entry_at_last (head_entries h)) as (l & El & Ea); [lia|]. rewrite Ea. cbn [mbind res_bind]. assert (Hin : l ∈ head_entries h) by (by apply last_elem).
  unfold all_entries. rewrite below_app. destruct (Z.leb_spec t (entry_lsn l)) as [Ht|Ht].
  - rewrite (below_search t (head_entries h) Hs1 (Ok None) (λ e, Ok (Some e))). rewrite (below_none t (ele_all (head_eles h))); [by destruct (below t (head_entries h))|].
    rewrite Forall_forall. intros x Hx. pose proof (Hlt l x Hin Hx). lia.
  - rewrite search_back_spec by done. cbn [mbind res_bind]. split; [|done]. destruct (below t (ele_all (head_eles h))) as [x|]; [done|]. cbn [from_option id]. rewrite below_all; [by rewrite El|].
    rewrite Forall_forall. intros x Hx. pose proof (last_max _ (entry_lsn l) x Hs1 ltac:(by rewrite El) Hx). lia.
Qed.

Lemma exec_agrees m v op : vm_rel m v → op_ok op → agree (vm_exec m op) (a_exec v op).
Proof. intros Hr Ho. destruct op as [key lsn pg b|key t|key lsn b|key t]; [by apply insert_agrees|by apply get_list_agrees|by apply replayed_agrees|by apply find_agrees]. Qed.

(** ** The empty map *)

Lemma init_rel n : 0 < n → vm_rel (HashMapInit n) ∅.
Proof.
  intros Hn. assert (Hb : bucket_ok (mkBucket None ∅)) by (constructor; [exists []; split_and!; [done|constructor|intros p; cbn; rewrite lookup_empty; split; [intros H; by apply elem_of_nil in H|intros [? ?]; done]]|done|done]).
  split; [constructor; cbn [HashMapInit bucketNum bucketList]|].
  - done.
  - rewrite zlen_replicate. lia.
  - intros i b Hi. apply lookup_replicate in Hi as [-> _]. done.
  - intros i b p h Hi. apply lookup_replicate in Hi as [-> _]. done.
  - intros k. rewrite lookup_empty. unfold view. cbn [HashMapInit bucketList]. destruct (replicate _ _ !! _) as [b|] eqn:E; [|done]. apply lookup_replicate in E as [-> _]. done.
Qed.

(** ** Sequences of operations *)

Fixpoint vm_run (m : HashMap) (ops : list vm_op) : res (HashMap * list vm_out) :=
  match ops with
  | [] => Ok (m, [])
  | op :: ops => '(m, o) ← vm_exec m op; '(m, os) ← vm_run m ops; Ok (m, o :: os)
  end.
Fixpoint a_run (v : gmap KeyType vpage) (ops : list vm_op) : res (gmap KeyType vpage * list vm_out) :=
  match ops with
  | [] => Ok (v, [])
  | op :: ops => '(v, o) ← a_exec v op; '(v, os) ← a_run v ops; Ok (v, o :: os)
  end.

(** C4: the version map is a map from pages to sorted lists of positions.  Start
    with the empty map and run any sequence of insertions, requests for the
    records to replay, updates of the replayed position and searches: the linked
    lists of the buckets, the moves to the front and the arrays of the nodes behave
    as a finite map of pages, every result is the one of that map, and an operation
    waits for a lock exactly when the page is locked there.  In particular no
    pointer is lost although a head that stops being the first one keeps
    [prevHead] NULL. *)
Theorem version_map_refines n ops : 0 < n → Forall op_ok ops →
  match vm_run (HashMapInit n) ops, a_run ∅ ops with
  | Ok (m, os), Ok (v, os') => os = os' ∧ map_ok m ∧ ∀ k, view m k = v !! k
  | Err e, Err e' => e = e'
  | _, _ => False
  end.
Proof.
  intros Hn Ho. generalize (init_rel n Hn). generalize (HashMapInit n) (∅ : gmap KeyType vpage). induction Ho as [|op ops Ho _ IH]; intros m v Hr; [done|]. cbn [vm_run a_run].
  pose proof (exec_agrees m v op Hr Ho) as Ha. unfold agree in Ha. destruct (vm_exec m op) as [[m1 o]|e], (a_exec v op) as [[v1 o']|e']; try done. destruct Ha as [-> Hr1]. cbn [mbind res_bind].
  specialize (IH m1 v1 Hr1). destruct (vm_run m1 ops) as [[m2 os]|], (a_run v1 ops) as [[v2 os']|]; try done. cbn [mbind res_bind]. by destruct IH as [-> ?].
Qed.

(** ** The end of the map *)

Lemma free_heads_spec ps : ∀ ns first prev, seg ns first prev ps None → NoDup ps → (∀ p, p ∈ ps ↔ is_Some (ns !! p)) → free_heads (size ns) (mkBucket first ns) = Ok (mkBucket None ∅).
Proof.
  induction ps as [|p ps IH]; intros ns first prev Hs Hnd Hin.
  - cbn in Hs. subst first. assert (ns = ∅) as ->; [|done]. apply map_empty. intros p. destruct (ns !! p) eqn:E; [|done]. assert (Hp : p ∈ (@nil positive)) by (apply Hin; by eexists). by apply elem_of_nil in Hp.
  - destruct Hs as (-> & h & Hp & _ & Hs). apply NoDup_cons in Hnd as [Hni Hnd]. rewrite <-(insert_delete_id ns p h Hp), map_size_insert_None by apply lookup_delete_eq. cbn [free_heads nodeList nodes]. unfold head_at. cbn [nodes].
    rewrite lookup_insert_eq. cbn [mbind res_bind]. rewrite delete_insert_id by apply lookup_delete_eq. apply (IH _ _ (Some p)); [|done|].
    + apply (seg_frame ns); [|done]. intros q Hq. apply lookup_delete_ne. intros ->. done.
    + intros q. destruct (decide (q = p)) as [->|Hne]; [rewrite lookup_delete_eq; split; [done|by intros [? ?]]|]. rewrite lookup_delete_ne by done. rewrite <-Hin, elem_of_cons. split; [by right|]. by intros [?|?].
Qed.

(** Destroying a map that satisfies the invariant, at any time, follows no freed
    pointer, ends, and frees every node. *)
Theorem destroy_frees_all m : map_ok m → HashMapDestroy m = Ok (replicate (length (bucketList m)) (mkBucket None ∅)).
Proof.
  intros [_ _ Hb _]. unfold HashMapDestroy. induction (bucketList m) as [|b bs IH]; [done|]. cbn [free_buckets length replicate]. destruct (bk_list _ (Hb 0%nat b eq_refl)) as (ps & Hs & Hnd & Hin).
  assert (E : b = mkBucket (nodeList b) (nodes b)) by (by destruct b). rewrite E at 2. rewrite (free_heads_spec ps _ _ None Hs Hnd Hin). cbn [mbind res_bind]. rewrite IH; [done|]. intros i b' Hi. by apply (Hb (S i)).
Qed.

(** Two pages in one bucket; the first is asked for, locked and released. *)
Definition demo_ops : list vm_op :=
  let k1 := mkKey 1663 13593 16384 0 0 in let k2 := mkKey 1663 13593 16384 0 1 in
  [VInsert k1 100 0 true; VInsert k2 150 0 true; VInsert k1 200 0 true; VGetList k1 170; VFind k2 160; VReplayed k1 100 true; VInsert k1 300 0 true; VGetList k1 250].

Lemma version_map_refines_witness : ∃ m, vm_run (HashMapInit 1) demo_ops =
  Ok (m, [OBool true; OBool true; OBool true; OList (Some (0, [100])); OEntry (Some (mkEntry 150 (Some 0))); OBool true; OBool true; OList (Some (100, [200]))]) ∧ map_ok m.
Proof.
  pose proof (version_map_refines 1 demo_ops ltac:(lia)) as H. destruct (vm_run (HashMapInit 1) demo_ops) as [[m os]|] eqn:E.
  - destruct (a_run ∅ demo_ops) as [[v os']|] eqn:Ea.
    + destruct H as (-> & Hm & _); [do 8 (constructor; [vm_compute; done|]); constructor|]. exists m. split; [|done]. f_equal. f_equal.
      assert (Eo : (snd <$> match vm_run (HashMapInit 1) demo_ops with Ok r => Some r | Err _ => None end) = Some os') by (by rewrite E). vm_compute in Eo. congruence.
    + exfalso. apply H. do 8 (constructor; [vm_compute; done|]). constructor.
  - exfalso. assert (Ev : is_ok (vm_run (HashMapInit 1) demo_ops) = true) by (vm_compute; reflexivity). by rewrite E in Ev.
Defined.
