(* ===== verification/RedoPipe.v ===== *)
(** * Messages and pipes between the storage server and a WAL-redo process

    A WAL-redo process ([wal_redo.c]) gets requests from the storage server
    ([storage_server.c]) through one pipe and answers through another.  What the
    kernel does with a read or a write is a list of results that the model
    takes as it comes: data in pieces of any size, interruptions, errors. *)

From S2P Require Import Prelude Mem.

(** ** Byte order *)

(** The bytes of an integer after [pg_hton16], [pg_hton32], [pg_hton64]. *)
Definition hton (n : nat) (v : Z) : list Z := rev (le_bytes n v).
Definition ntoh (bs : list Z) : Z := le_val (rev bs).

(** ** System calls *)

(** The result of [read]: some bytes, none at the end of the file; [EAGAIN];
    another error. *)
Inductive sysread : Type :=
| RdData (bs : list Z)
| RdAgain
| RdFail.

(** The result of [write]: the number of bytes taken; [EINTR]; another error. *)
Inductive syswrite : Type :=
| WrCount (n : nat)
| WrIntr
| WrFail.

(** ** Reading commands *)

(** [stdin_buf] from [stdin_ptr] to [stdin_len] is [buf].  The first component
    is what was read, [None] for a failure; [EFuel] means that the call still
    waits for input. *)
Fixpoint buffered_read (buf : list Z) (reads : list sysread) (count : nat) (dst : list Z) {struct reads}
  : res (option (list Z) * list Z * list sysread) :=
  let nthis := Nat.min (length buf) count in
  let dst := dst ++ take nthis buf in
  let count := (count - nthis)%nat in
  let buf := drop nthis buf in
  if Nat.eqb count 0 then Ok (Some dst, buf, reads) else
  match reads with
  | [] => Err EFuel
  | RdAgain :: reads => buffered_read buf reads count dst
  | RdFail :: reads => Ok (None, buf, reads)
  | RdData [] :: reads => Ok (Some dst, buf, reads)
  | RdData bs :: reads => buffered_read bs reads count dst
  end.

Definition MaxAllocSize : Z := 0x3fffffff.

(** [int32] and [char] values. *)
Definition signed (bits v : Z) : Z := if v <? 2 ^ (bits - 1) then v else v - 2 ^ bits.

(** The command type and the message, [None] at the end of the input. *)
Definition ReadRedoCommand (buf : list Z) (reads : list sysread) : res (option (Z * list Z) * list Z * list sysread) :=
  '(ret, buf, reads) ← buffered_read buf reads 5 [];
  match ret with
  | None => Err EError
  | Some [] => Ok (None, buf, reads)
  | Some (h0 :: len) =>
      if negb (zlen len =? 4) then Err EError else
      let qtype := signed 8 h0 in
      let len := signed 32 (ntoh len) in
      if len <? 4 then Err EError else
      let len := len - 4 in
      (* enlargeStringInfo *)
      if MaxAllocSize <=? len then Err EError else
      '(ret, buf, reads) ← buffered_read buf reads (Z.to_nat len) [];
      match ret with
      | None => Err EError
      | Some bs => if negb (zlen bs =? len) then Err EError else Ok (Some (qtype, bs), buf, reads)
      end
  end.

(** ** Fields of a message: [pqformat.c]

    A message is the list of its bytes from the cursor on. *)

Definition pq_getmsgbytes (msg : list Z) (datalen : nat) : res (list Z * list Z) :=
  if Nat.ltb (length msg) datalen then Err EError else Ok (take datalen msg, drop datalen msg).

Definition pq_getmsgbyte (msg : list Z) : res (Z * list Z) :=
  match msg with [] => Err EError | b :: msg => Ok (b, msg) end.

(** [pq_copymsgbytes] of an integer, and the change of byte order: 4 bytes for
    [pq_getmsgint(msg, 4)], 8 for [pq_getmsgint64]. *)
Definition pq_getmsgint (msg : list Z) (b : nat) : res (Z * list Z) :=
  '(bs, msg) ← pq_getmsgbytes msg b; Ok (ntoh bs, msg).

(** ** Writing *)

(** The loop a process answers with: [bs] is what is left to write. *)
Fixpoint write_response (bs : list Z) (writes : list syswrite) (out : list Z) : res (list Z * list syswrite) :=
  match writes with
  | [] => Err EFuel
  | WrFail :: _ => Err EError
  | WrIntr :: writes => if Nat.eqb (length bs) 0 then Ok (out, writes) else write_response bs writes out
  | WrCount n :: writes =>
      let out := out ++ take n bs in
      let bs := drop n bs in
      if Nat.eqb (length bs) 0 then Ok (out, writes) else write_response bs writes out
  end.

(** The loop the server sends a request with.  [sendLen] is advanced by the
    result of [write] without a look at it; it is -1 for every error. *)
Fixpoint send_request (request : list Z) (sendLen : Z) (writes : list syswrite) (out : list Z) : res (list Z * list syswrite) :=
  if zlen request <=? sendLen then Ok (out, writes) else
  match writes with
  | [] => Err EFuel
  | w :: writes =>
      if sendLen <? 0 then Err EOob else
      match w with
      | WrCount n => send_request request (sendLen + Z.of_nat n) writes (out ++ take n (drop (Z.to_nat sendLen) request))
      | _ => send_request request (sendLen - 1) writes out
      end
  end.

(** The loop the server receives an answer of [count] bytes with.  The process
    exits on an error, here [EPanic]; the end of the file is not noticed. *)
Fixpoint recv_response (count : nat) (reads : list sysread) (dst : list Z) : res (list Z * list sysread) :=
  if Nat.eqb count 0 then Ok (dst, reads) else
  match reads with
  | [] => Err EFuel
  | RdAgain :: reads => recv_response count reads dst
  | RdFail :: _ => Err EPanic
  | RdData bs :: reads => recv_response (count - length bs) reads (dst ++ bs)
  end.

(** ** Byte order: round trips *)

Lemma length_hton n v : length (hton n v) = n.
Proof. unfold hton. by rewrite length_rev, length_le_bytes. Qed.

Lemma ntoh_hton n v : 0 ≤ v < 256 ^ Z.of_nat n → ntoh (hton n v) = v.
Proof. intros Hv. unfold ntoh, hton. rewrite rev_involutive, le_val_bytes. by apply Z.mod_small. Qed.

Lemma getmsgbytes_app bs rest n : length bs = n → pq_getmsgbytes (bs ++ rest) n = Ok (bs, rest).
Proof.
  intros <-. unfold pq_getmsgbytes. rewrite length_app. destruct (Nat.ltb_spec (length bs + length rest) (length bs)); [lia|].
  by rewrite take_app_length, drop_app_length.
Qed.

Lemma getmsgint_app n v rest : 0 ≤ v < 256 ^ Z.of_nat n → pq_getmsgint (hton n v ++ rest) n = Ok (v, rest).
Proof.
  intros Hv. unfold pq_getmsgint. rewrite getmsgbytes_app by apply length_hton. cbn [mbind res_bind]. by rewrite ntoh_hton.
Qed.

(** ** Input as a stream *)

(** The bytes that [read] delivers. *)
Definition data (reads : list sysread) : list Z := concat ((λ r, match r with RdData bs => bs | _ => [] end) <$> reads).

(** No error and no end of the file: data or [EAGAIN]. *)
Definition quiet (reads : list sysread) : Prop := Forall (λ r, r ≠ RdFail ∧ r ≠ RdData []) reads.

Lemma data_cons r reads : data (r :: reads) = (match r with RdData bs => bs | _ => [] end) ++ data reads.
Proof. done. Qed.

(** What is read depends on the bytes only, not on how they come. *)
Lemma buffered_read_stream reads : ∀ buf count dst, quiet reads → (count ≤ length (buf ++ data reads))%nat →
  ∃ buf' reads', buffered_read buf reads count dst = Ok (Some (dst ++ take count (buf ++ data reads)), buf', reads') ∧
    buf' ++ data reads' = drop count (buf ++ data reads) ∧ quiet reads'.
Proof.
  induction reads as [|r reads IH]; intros buf count dst Hq Hc; cbn [buffered_read].
  - rewrite app_nil_r in *. rewrite Nat.min_r by lia. rewrite Nat.sub_diag. cbn [Nat.eqb]. eexists _, _. split; [done|]. by rewrite app_nil_r.
  - apply Forall_cons in Hq as [[Hf He] Hq]. destruct (Nat.le_gt_cases count (length buf)) as [Hle|Hgt].
    + rewrite Nat.min_r by done. rewrite Nat.sub_diag. cbn [Nat.eqb]. eexists _, _. split; [by rewrite take_app_le|].
      split; [by rewrite drop_app_le|]. by constructor.
    + rewrite Nat.min_l by lia. rewrite firstn_all, drop_all. destruct (Nat.eqb_spec (count - length buf) 0); [lia|].
      assert (Hgo : ∀ b, data (r :: reads) = b ++ data reads →
        ∃ buf' reads', buffered_read b reads (count - length buf) (dst ++ buf) = Ok (Some (dst ++ take count (buf ++ data (r :: reads))), buf', reads') ∧
          buf' ++ data reads' = drop count (buf ++ data (r :: reads)) ∧ quiet reads').
      { intros b Hb. destruct (IH b (count - length buf)%nat (dst ++ buf) Hq) as (b' & r' & E & Hs & Hq'); [rewrite Hb, length_app in Hc; lia|].
        exists b', r'. rewrite Hb. split_and!; [|by rewrite drop_app_ge by lia|done]. rewrite E, <-app_assoc. by rewrite (take_app_ge buf) by lia. }
      destruct r as [[|b bs]| |]; [done|by apply Hgo|by apply Hgo|done].
Qed.

(** ** Framing *)

(** A command as it is sent: its letter, its length, the message. *)
Definition frame (qtype : Z) (msg : list Z) : list Z := qtype :: hton 4 (4 + zlen msg) ++ msg.

Lemma zlen_frame qtype msg : zlen (frame qtype msg) = 5 + zlen msg.
Proof. unfold frame, zlen. cbn [length]. rewrite length_app, length_hton. lia. Qed.

Lemma read_command_stream qtype msg rest buf reads : 0 ≤ qtype < 128 → zlen msg < MaxAllocSize → quiet reads → buf ++ data reads = frame qtype msg ++ rest →
  ∃ buf' reads', ReadRedoCommand buf reads = Ok (Some (qtype, msg), buf', reads') ∧ buf' ++ data reads' = rest ∧ quiet reads'.
Proof.
  intros Hty Hlen Hq Hs. pose proof (zlen_nonneg msg) as Hn. unfold MaxAllocSize in *. unfold ReadRedoCommand.
  assert (Hs5 : buf ++ data reads = (qtype :: hton 4 (4 + zlen msg)) ++ msg ++ rest) by (rewrite Hs; unfold frame; cbn [app]; by rewrite <-app_assoc).
  destruct (buffered_read_stream reads buf 5 [] Hq) as (b1 & r1 & -> & H1 & Hq1); [rewrite Hs5; cbn; lia|]. cbn [mbind res_bind app].
  rewrite Hs5, take_app_length' by done. rewrite Hs5, drop_app_length' in H1 by done.
  unfold zlen at 1. rewrite length_hton. cbn [Z.of_nat negb Z.eqb].
  rewrite ntoh_hton by lia. unfold signed. change (Z.of_nat 4 =? 4) with true. cbn [negb].
  rewrite (proj2 (Z.ltb_lt qtype (2 ^ (8 - 1)))), (proj2 (Z.ltb_lt (4 + zlen msg) (2 ^ (32 - 1)))) by lia.
  rewrite (proj2 (Z.ltb_ge _ _)) by lia. replace (4 + zlen msg - 4) with (zlen msg) by lia. rewrite (proj2 (Z.leb_gt _ _)) by (unfold MaxAllocSize; lia).
  destruct (buffered_read_stream r1 b1 (Z.to_nat (zlen msg)) [] Hq1) as (b2 & r2 & -> & H2 & Hq2).
  { rewrite H1, length_app. unfold zlen. lia. }
  cbn [mbind res_bind app]. rewrite H1 in H2 |- *. rewrite take_app_length', Z.eqb_refl by (unfold zlen; lia). cbn [negb].
  rewrite drop_app_length' in H2 by (unfold zlen; lia). eauto.
Qed.

(** ** Output *)

Fixpoint accepted (writes : list syswrite) : nat :=
  match writes with
  | [] => 0
  | WrCount n :: writes => n + accepted writes
  | _ :: writes => accepted writes
  end.

(** The writes of a process that is at most interrupted, and of a server whose
    writes all succeed. *)
Definition no_failure (writes : list syswrite) : Prop := Forall (λ w, w ≠ WrFail) writes.
Definition all_succeed (writes : list syswrite) : Prop := Forall (λ w, ∃ n, w = WrCount n) writes.

(** However the writes split it, the whole answer is written. *)
Lemma write_response_all writes : ∀ bs out, no_failure writes → (length bs ≤ accepted writes)%nat → bs ≠ [] →
  ∃ writes', write_response bs writes out = Ok (out ++ bs, writes').
Proof.
  induction writes as [|w writes IH]; intros bs out Hf Hn Hne; cbn [accepted write_response] in *.
  - destruct bs; cbn in Hn; [done|lia].
  - apply Forall_cons in Hf as [Hw Hf]. destruct w as [n| |]; [|by destruct bs; [|apply IH]|done].
    destruct (Nat.eqb_spec (length (drop n bs)) 0) as [E|E]; rewrite length_drop in E.
    + eexists. rewrite take_ge by lia. done.
    + destruct (IH (drop n bs) (out ++ take n bs) Hf) as [w' E'].
      * rewrite length_drop. lia.
      * intros E0. apply (f_equal length) in E0. rewrite length_drop in E0. cbn in E0. lia.
      * exists w'. by rewrite E', <-app_assoc, take_drop.
Qed.

(** A server whose writes succeed sends exactly the request. *)
Lemma send_request_all writes : ∀ request k out, all_succeed writes → (k ≤ length request)%nat → (length request ≤ k + accepted writes)%nat →
  ∃ writes', send_request request (Z.of_nat k) writes (out ++ take k request) = Ok (out ++ request, writes').
Proof.
  induction writes as [|w writes IH]; intros request k out Hs Hk Hn; cbn [accepted] in Hn; cbn [send_request].
  - rewrite (proj2 (Z.leb_le _ _)) by (unfold zlen; lia). rewrite take_ge by lia. eauto.
  - destruct (Z.leb_spec (zlen request) (Z.of_nat k)) as [Hle|Hgt]; [rewrite take_ge by (unfold zlen in Hle; lia); eauto|].
    apply Forall_cons in Hs as [[n ->] Hs]. rewrite (proj2 (Z.ltb_ge _ _)) by lia. rewrite Nat2Z.id, <-app_assoc, take_take_drop.
    destruct (Nat.le_gt_cases (k + n) (length request)) as [Hkn|Hkn].
    + destruct (IH request (k + n)%nat out Hs Hkn ltac:(lia)) as [w' E]. exists w'. by rewrite <-E, Nat2Z.inj_add.
    + rewrite take_ge by lia. exists writes. destruct writes; cbn [send_request]; rewrite (proj2 (Z.leb_le _ _)) by (unfold zlen; lia); done.
Qed.

(** An answer that comes without an error is received, however it comes. *)
Lemma recv_response_all reads : ∀ count dst, Forall (λ r, r ≠ RdFail) reads → length (data reads) = count →
  ∃ reads', recv_response count reads dst = Ok (dst ++ data reads, reads').
Proof.
  induction reads as [|r reads IH]; intros count dst Hq Hc; cbn [recv_response].
  - rewrite <-Hc. cbn. rewrite app_nil_r. eauto.
  - apply Forall_cons in Hq as [Hr Hq]. destruct (Nat.eqb_spec count 0) as [E|E].
    + destruct (data (r :: reads)); [rewrite app_nil_r; eauto|cbn in Hc; lia].
    + rewrite data_cons, length_app in Hc. rewrite data_cons. destruct r as [bs| |]; [| |done].
      * destruct (IH (count - length bs)%nat (dst ++ bs) Hq ltac:(lia)) as [r' E']. exists r'. by rewrite E', <-app_assoc.
      * cbn [app length] in *. by apply IH.
Qed.
