(* ===== verification/StorageServer.v ===== *)
(** * The storage server's requests to WAL-redo processes: [storage_server.c]

    Each call takes a free process, sends it one or two commands, and waits for
    the answer.  The bytes are those the code writes into its request buffer. *)

From S2P Require Import Prelude Mem Page Buffer RedoPipe.

(** ** Choosing a process *)

Definition REPLAY_PROCESS_NUM : Z := 5.

(** [pthread_mutex_trylock] on the processes from [replayPid] on; [true] when
    one of them was free, else the call waits for the first. *)
Fixpoint try_lock (busy : Z → bool) (replayPid i : Z) (n : nat) : Z * bool :=
  match n with
  | O => (replayPid, false)
  | S n =>
      let j := (replayPid + i) mod REPLAY_PROCESS_NUM in
      if busy j then try_lock busy replayPid (i + 1) n else (j, true)
  end.
Definition choose_process (tid : Z) (busy : Z → bool) : Z * bool :=
  try_lock busy (tid mod REPLAY_PROCESS_NUM) 0 (Z.to_nat REPLAY_PROCESS_NUM).

(** ** The connection to a process *)

Record conn : Type := mkConn {
  c_writes : list syswrite;
  c_sent : list Z;
  c_reads : list sysread }.

(** The relation and the block of a request. *)
Definition rel_bytes (relFileNode : RelFileNode) (forkNumber : Z) : list Z :=
  le_bytes 1 forkNumber ++ hton 4 (spcNode relFileNode) ++ hton 4 (dbNode relFileNode) ++ hton 4 (relNode relFileNode).
Definition bufftag_bytes (tag : BufferTag) : list Z := rel_bytes (rnode tag) (forkNum tag) ++ hton 4 (blockNum tag).

(** The letter, the length [msgLen] and the parameters; [targetMsgLen] bytes
    of them are sent. *)
Definition send (c : conn) (letter msgLen : Z) (params : list Z) (targetMsgLen : Z) : res conn :=
  let requestBuffer := letter :: hton 4 msgLen ++ params in
  '(sent, writes) ← send_request (take (Z.to_nat targetMsgLen) requestBuffer) 0 (c_writes c) (c_sent c);
  Ok (mkConn writes sent (c_reads c)).

Definition receive (c : conn) (count : Z) : res (list Z * conn) :=
  '(bs, reads) ← recv_response (Z.to_nat count) (c_reads c) [];
  Ok (bs, mkConn (c_writes c) (c_sent c) reads).

(** ** The calls *)

Definition SyncGetRelSize (c : conn) (relFileNode : RelFileNode) (forkNumber : Z) : res (Z * conn) :=
  c ← send c 77 (4 + 1 + 4 + 4 + 4) (rel_bytes relFileNode forkNumber) (1 + 4 + 1 + 4 + 4 + 4);
  '(bs, c) ← receive c 4;
  Ok (signed 32 (le_val bs), c).

Definition ApplyOneLsnWithoutBasePage (c : conn) (tag : BufferTag) (lsn : Z) : res (page * conn) :=
  c ← send c 69 (4 + 1 + 4 + 4 + 4 + 4 + 8) (bufftag_bytes tag ++ hton 8 lsn) (1 + 4 + 1 + 4 + 4 + 4 + 4 + 8);
  receive c BLCKSZ.

Definition ApplyOneLsn (c : conn) (tag : BufferTag) (lsn : Z) (origPage : page) : res (page * conn) :=
  c ← send c 68 (4 + 1 + 4 + 4 + 4 + 4 + 8 + BLCKSZ) (bufftag_bytes tag ++ hton 8 lsn ++ origPage) (1 + 4 + 1 + 4 + 4 + 4 + 4 + 8 + BLCKSZ);
  receive c BLCKSZ.

Definition ApplyLsnListAndGetUpdatedPage (c : conn) (tag : BufferTag) (lsnList : list Z) : res (page * conn) :=
  let origMsgLen := 4 + 1 + 4 + 4 + 4 + 4 + 4 + 8 * zlen lsnList in
  c ← send c 111 origMsgLen (bufftag_bytes tag ++ hton 4 (zlen lsnList) ++ concat (hton 8 <$> lsnList)) (1 + origMsgLen);
  receive c BLCKSZ.

Definition ApplyLsnList (c : conn) (tag : BufferTag) (lsnList : list Z) (origPage : page) : res (page * conn) :=
  let origMsgLen := 4 + 1 + 4 + 4 + 4 + 4 + 4 + 8 * zlen lsnList + BLCKSZ in
  c ← send c 79 origMsgLen (bufftag_bytes tag ++ hton 4 (zlen lsnList) ++ concat (hton 8 <$> lsnList) ++ origPage) (1 + origMsgLen);
  receive c BLCKSZ.

(** The answer is read into the page that was passed in, whose first bytes it
    overwrites: the second component. *)
Definition WalRedoExtendRel (c : conn) (tag : BufferTag) (content : page) : res (page * conn) :=
  let origMsgLen := 4 + 1 + 4 + 4 + 4 + 4 + BLCKSZ in
  c ← send c 70 origMsgLen (bufftag_bytes tag ++ content) (1 + origMsgLen);
  '(bs, c) ← receive c 4;
  Ok (mwrite content 0 bs, c).

Definition WalRedoCreateRel (c : conn) (relFileNode : RelFileNode) (forkNumber : Z) : res conn :=
  c ← send c 67 (4 + 1 + 4 + 4 + 4) (rel_bytes relFileNode forkNumber) (1 + 4 + 1 + 4 + 4 + 4);
  '(_, c) ← receive c 4;
  Ok c.

Definition GetBasePage (c : conn) (tag : BufferTag) : res (page * conn) :=
  c ← send c 71 (4 + 1 + 4 + 4 + 4 + 4) (bufftag_bytes tag) (1 + 4 + 1 + 4 + 4 + 4 + 4);
  receive c BLCKSZ.

(** [flushedUpto] is the position the WAL receiver has reached, if there is one;
    it replaces the position that was asked for. *)
Definition GetPageByLsn (c : conn) (flushedUpto : option Z) (tag : BufferTag) (lsn : Z) : res (page * conn) :=
  let lsn := default lsn flushedUpto in
  c ← send c 85 (4 + 8) (hton 8 lsn) (1 + 4 + 8);
  c ← send c 71 (4 + 1 + 4 + 4 + 4 + 4) (bufftag_bytes tag) (1 + 4 + 1 + 4 + 4 + 4 + 4);
  receive c BLCKSZ.

(** ** The bytes of a request *)

Definition oid_ok (v : Z) : Prop := 0 ≤ v < 2 ^ 32.
Record rel_ok (rn : RelFileNode) (fork : Z) : Prop := {
  ro_spc : oid_ok (spcNode rn);
  ro_db : oid_ok (dbNode rn);
  ro_rel : oid_ok (relNode rn);
  ro_fork : 0 ≤ fork < 256 }.
Definition tag_ok (tag : BufferTag) : Prop := rel_ok (rnode tag) (forkNum tag) ∧ oid_ok (blockNum tag).

Lemma zlen_rel_bytes rn fork : zlen (rel_bytes rn fork) = 13.
Proof. unfold rel_bytes, zlen. rewrite !length_app, !length_hton. done. Qed.

Lemma zlen_tag_bytes tag : zlen (bufftag_bytes tag) = 17.
Proof. unfold bufftag_bytes. rewrite zlen_app, zlen_rel_bytes. unfold zlen. by rewrite length_hton. Qed.

Lemma zlen_lsns l : zlen (concat (hton 8 <$> l)) = 8 * zlen l.
Proof.
  induction l as [|x l IH]; [done|]. rewrite fmap_cons. cbn [concat]. rewrite zlen_app, IH, zlen_cons. unfold zlen at 1. rewrite length_hton. lia.
Qed.

(** A call whose lengths fit its parameters sends one framed command. *)
Lemma send_frame c letter msgLen params target : msgLen = 4 + zlen params → target = 1 + msgLen → all_succeed (c_writes c) →
  5 + zlen params ≤ Z.of_nat (accepted (c_writes c)) →
  ∃ writes, send c letter msgLen params target = Ok (mkConn writes (c_sent c ++ frame letter params) (c_reads c)).
Proof.
  intros -> -> Hs Hn. unfold send. fold (frame letter params). pose proof (zlen_frame letter params) as Hz. rewrite take_ge by (unfold zlen in *; lia).
  destruct (send_request_all (c_writes c) (frame letter params) 0 (c_sent c) Hs) as [w E]; [lia|unfold zlen in *; lia|].
  rewrite take_0, app_nil_r in E. change (Z.of_nat 0) with 0 in E. rewrite E. cbn [mbind res_bind]. eauto.
Qed.

(** An answer of the right size is received. *)
Lemma receive_all c count : Forall (λ r, r ≠ RdFail) (c_reads c) → zlen (data (c_reads c)) = count →
  ∃ reads, receive c count = Ok (data (c_reads c), mkConn (c_writes c) (c_sent c) reads).
Proof.
  intros Hq Hz. unfold receive. destruct (recv_response_all (c_reads c) (Z.to_nat count) [] Hq) as [r E]; [unfold zlen in Hz; lia|].
  rewrite E. cbn [mbind res_bind app]. eauto.
Qed.
