(* ===== verification/Dispatch.v ===== *)
(** * Dispatch over the resource managers: [logindex_func.c]

    The three entry points of replay by log index: enter a record, collect its
    tags, replay it for one page.  Each is a switch over the resource managers,
    here a table of records of operations. *)

From S2P Require Import Prelude Mem Page Buffer WalRecord HeapRedo TagList BtreeRedo Brin Gist Hash HashRedo GinRedo SpgRedo.

(** A resource manager as the log index sees it. *)
Record rmgr : Type := mkRmgr {
  rm_save : XLogReaderState → res (bool * list BufferTag);
  rm_tags : XLogReaderState → res tag_result;
  rm_redo : dbstate → XLogReaderState → BufferTag → Buffer → redo_result }.

Definition ret_true (m : res (list BufferTag)) : res (bool * list BufferTag) := (λ l, (true, l)) <$> m.

Definition xlog_rmgr : rmgr := mkRmgr polar_xlog_idx_save polar_xlog_idx_get_bufftag_list polar_xlog_idx_redo.
Definition heap_rmgr : rmgr :=
  mkRmgr (λ r, ret_true (polar_heap_idx_save r)) polar_heap_idx_get_bufftag_list polar_heap_idx_redo.
Definition heap2_rmgr : rmgr :=
  mkRmgr (λ r, ret_true (polar_heap2_idx_save r)) polar_heap2_idx_get_bufftag_list polar_heap2_idx_redo.
Definition seq_rmgr : rmgr :=
  mkRmgr (λ r, ret_true (polar_seq_idx_save r)) polar_seq_idx_get_bufftag_list polar_seq_idx_redo.
Definition generic_rmgr : rmgr :=
  mkRmgr (λ r, ret_true (Ok (polar_generic_idx_save r))) polar_generic_idx_get_bufftag_list polar_generic_idx_redo.

Definition btree_rmgr : rmgr :=
  mkRmgr (λ r, ret_true (polar_btree_idx_save r)) polar_btree_idx_get_bufftag_list polar_btree_redo.

Definition brin_rmgr : rmgr := mkRmgr polar_brin_idx_save polar_brin_idx_get_bufftag_list polar_brin_idx_redo.
Definition gist_rmgr : rmgr :=
  mkRmgr (λ r, ret_true (polar_gist_idx_save r)) polar_gist_idx_get_bufftag_list polar_gist_idx_redo.
Definition hash_rmgr : rmgr :=
  mkRmgr (λ r, ret_true (polar_hash_idx_save r)) polar_hash_idx_get_bufftag_list polar_hash_idx_redo.
Definition gin_rmgr : rmgr := mkRmgr polar_gin_idx_save polar_gin_idx_get_bufftag_list polar_gin_idx_redo.
Definition spg_rmgr : rmgr := mkRmgr polar_spg_idx_save polar_spg_idx_get_bufftag_list polar_spg_idx_redo.

Definition rmgr_table (rmid : Z) : option rmgr :=
if rmid =? RM_XLOG_ID then Some xlog_rmgr
else if rmid =? RM_HEAP2_ID then Some heap2_rmgr
else if rmid =? RM_HEAP_ID then Some heap_rmgr
else if rmid =? RM_BTREE_ID then Some btree_rmgr
else if rmid =? RM_HASH_ID then Some hash_rmgr
else if rmid =? RM_GIN_ID then Some gin_rmgr
else if rmid =? RM_GIST_ID then Some gist_rmgr
else if rmid =? RM_SEQ_ID then Some seq_rmgr
else if rmid =? RM_SPGIST_ID then Some spg_rmgr
else if rmid =? RM_BRIN_ID then Some brin_rmgr
else if rmid =? RM_GENERIC_ID then Some generic_rmgr
else None.

Definition ParseLogIndexXlog (r : XLogReaderState) : res (bool * list BufferTag) :=
match rmgr_table (xl_rmid r) with Some m => rm_save m r | None => Ok (false, []) end.

Definition GetXlogBuffTagList (r : XLogReaderState) : res tag_result :=
match rmgr_table (xl_rmid r) with Some m => rm_tags m r | None => Ok NotParsed end.

(** The boolean is the return value. *)
Definition XlogRedoSinglePage (st : dbstate) (r : XLogReaderState) (tag : BufferTag) (buffer : Buffer)
: res (dbstate * Buffer * bool) :=
'(st, buffer, action) ←
(match rmgr_table (xl_rmid r) with
| Some m => rm_redo m st r tag buffer
| None => Ok (st, buffer, BLK_NOTFOUND)
end);
Ok (st, buffer, bool_decide (action = BLK_NEEDS_REDO)).
