(* ===== verification/WalRedo.v ===== *)
(** * The WAL-redo process: [wal_redo.c]

    A process that replays records for the storage server: it reads a command,
    works on its buffers and relation files, and answers with a page or a
    number.  What the records at a position of the log are is an argument
    [wal]; so are the redo routines of PostgreSQL, [RmgrTable[rmid].rm_redo],
    which are called for a record that the routines of the log index do not
    handle, and the control file. *)

From S2P Require Import Prelude Mem Page Buffer WalRecord XLogDecode HeapRedo TagList RedoPipe Dispatch.

(** ** The state of a process *)

Record process : Type := mkProc {
  p_db : dbstate;
  reader_state : XLogReaderState;
  ThisTimeLineID : Z;
  target_redo_tag : option BufferTag;
  wal_redo_buffer : Buffer;
  stdin_buf : list Z;
  p_reads : list sysread;
  p_writes : list syswrite;
  p_out : list Z }.

Definition set_db (p : process) (st : dbstate) : process :=
  mkProc st (reader_state p) (ThisTimeLineID p) (target_redo_tag p) (wal_redo_buffer p) (stdin_buf p) (p_reads p) (p_writes p) (p_out p).
Definition set_reader (p : process) (r : XLogReaderState) : process :=
  mkProc (p_db p) r (ThisTimeLineID p) (target_redo_tag p) (wal_redo_buffer p) (stdin_buf p) (p_reads p) (p_writes p) (p_out p).
Definition set_tli (p : process) (tli : Z) : process :=
  mkProc (p_db p) (reader_state p) tli (target_redo_tag p) (wal_redo_buffer p) (stdin_buf p) (p_reads p) (p_writes p) (p_out p).
Definition set_target (p : process) (t : BufferTag) : process :=
  mkProc (p_db p) (reader_state p) (ThisTimeLineID p) (Some t) (wal_redo_buffer p) (stdin_buf p) (p_reads p) (p_writes p) (p_out p).
Definition set_redo_buffer (p : process) (b : Buffer) : process :=
  mkProc (p_db p) (reader_state p) (ThisTimeLineID p) (target_redo_tag p) b (stdin_buf p) (p_reads p) (p_writes p) (p_out p).
Definition set_input (p : process) (buf : list Z) (reads : list sysread) : process :=
  mkProc (p_db p) (reader_state p) (ThisTimeLineID p) (target_redo_tag p) (wal_redo_buffer p) buf reads (p_writes p) (p_out p).
Definition set_output (p : process) (writes : list syswrite) (out : list Z) : process :=
  mkProc (p_db p) (reader_state p) (ThisTimeLineID p) (target_redo_tag p) (wal_redo_buffer p) (stdin_buf p) (p_reads p) writes out.

(** What the process uses of the control file. *)
Record ControlFileData : Type := mkControl {
  crc_ok : bool; checkPoint : Z; minRecoveryPointTLI : Z; checkPointTLI : Z }.

(** ** Shared steps *)

Definition ReadBufferWithoutRelcache (st : dbstate) (rn : RelFileNode) (fork blk : Z) (mode : ReadBufferMode) : res (dbstate * BufferTag) :=
  ReadBuffer_common st rn fork blk mode.

(** [XLogBeginRead]. *)
Definition XLogBeginRead (r : XLogReaderState) (RecPtr : Z) : XLogReaderState :=
  mkRec 0 RecPtr (xl_info r) (xl_rmid r) (xl_xid r) (main_data r) (max_block_id r) (blocks r).

(** The fork and the relation of a message, and its block. *)
Definition get_rel (msg : list Z) : res (Z * RelFileNode * list Z) :=
  '(forknum, msg) ← pq_getmsgbyte msg;
  '(spc, msg) ← pq_getmsgint msg 4;
  '(db, msg) ← pq_getmsgint msg 4;
  '(rel, msg) ← pq_getmsgint msg 4;
  Ok (forknum, mkRel spc db rel, msg).
Definition get_tag (msg : list Z) : res (BufferTag * list Z) :=
  '(forknum, rnode, msg) ← get_rel msg;
  '(blknum, msg) ← pq_getmsgint msg 4;
  Ok (INIT_BUFFERTAG rnode forknum blknum, msg).
Fixpoint get_lsns (n : nat) (msg : list Z) : res (list Z * list Z) :=
  match n with
  | O => Ok ([], msg)
  | S n => '(lsn, msg) ← pq_getmsgint msg 8; '(lsns, msg) ← get_lsns n msg; Ok (lsn :: lsns, msg)
  end.

(** [write] until all of the answer is written. *)
Definition respond (p : process) (bs : list Z) : res process :=
  '(out, writes) ← write_response bs (p_writes p) (p_out p); Ok (set_output p writes out).

(** A page from a message is put in the buffer of its block. *)
Definition put_page (p : process) (tag : BufferTag) (content : list Z) : res process :=
  '(st, buf) ← ReadBufferWithoutRelcache (p_db p) (rnode tag) (forkNum tag) (blockNum tag) RBM_ZERO_AND_LOCK;
  let p := set_redo_buffer p (Some buf) in
  _ ← BufferGetPage st (Some buf);
  Ok (set_db p (buf_write st (Some buf) content)).

(** The page of a block is the answer. *)
Definition send_page (p : process) (tag : BufferTag) : res process :=
  '(st, buf) ← ReadBufferWithoutRelcache (p_db p) (rnode tag) (forkNum tag) (blockNum tag) RBM_NORMAL;
  page ← BufferGetPage st (Some buf);
  p ← respond (set_db p st) page;
  Ok (set_redo_buffer p InvalidBuffer).

Section redo.
Context (wal : Z → option XLogReaderState) (rm_redo0 : dbstate → XLogReaderState → res dbstate) (controlFile : ControlFileData).

(** [XLogBeginRead] and [XLogReadRecord]; a NULL record is used all the same. *)
Definition read_record (p : process) (lsn : Z) : res (process * XLogReaderState) :=
match wal lsn with
| Some r => Ok (set_reader p r, r)
| None => Err EOob
end.

(** Replay of a record for one page, by the log index or as PostgreSQL does. *)
Definition redo_record (st : dbstate) (r : XLogReaderState) (tag : BufferTag) : res dbstate :=
'(st, buf, action) ←
(match rmgr_table (xl_rmid r) with
| Some m => rm_redo m st r tag InvalidBuffer
| None => Ok (st, InvalidBuffer, BLK_NOTFOUND)
end);
if bool_decide (action = BLK_NOTFOUND) then rm_redo0 st r
else (* UnlockReleaseBuffer *) if BufferIsValid buf then Ok st else Err EOob.

Definition apply_lsn (p : process) (tag : BufferTag) (lsn : Z) : res process :=
'(p, r) ← read_record p lsn;
st ← redo_record (p_db p) r tag;
Ok (set_db p st).

Fixpoint apply_lsns (p : process) (tag : BufferTag) (lsns : list Z) : res process :=
match lsns with
| [] => Ok p
| lsn :: lsns => p ← apply_lsn p tag lsn; apply_lsns p tag lsns
end.

(** ** Commands *)

Definition ApplyOneXlogWithoutBasePage (p : process) (msg : list Z) : res process :=
'(tag, msg) ← get_tag msg;
'(lsn, msg) ← pq_getmsgint msg 8;
p ← apply_lsn p tag lsn;
send_page p tag.

Definition ApplyOneXlog (p : process) (msg : list Z) : res process :=
'(tag, msg) ← get_tag msg;
'(lsn, msg) ← pq_getmsgint msg 8;
'(content, msg) ← pq_getmsgbytes msg (Z.to_nat BLCKSZ);
p ← put_page p tag content;
p ← apply_lsn p tag lsn;
send_page p tag.

Definition ApplyLsnListXlogWithoutBasePage (p : process) (msg : list Z) : res process :=
'(tag, msg) ← get_tag msg;
'(listSize, msg) ← pq_getmsgint msg 4;
'(lsnList, msg) ← get_lsns (Z.to_nat listSize) msg;
p ← apply_lsns p tag lsnList;
send_page p tag.

Definition ApplyLsnListXlog (p : process) (msg : list Z) : res process :=
'(tag, msg) ← get_tag msg;
'(listSize, msg) ← pq_getmsgint msg 4;
'(lsnList, msg) ← get_lsns (Z.to_nat listSize) msg;
'(content, msg) ← pq_getmsgbytes msg (Z.to_nat BLCKSZ);
p ← put_page p tag content;
p ← apply_lsns p tag lsnList;
send_page p tag.

Definition GetRelSize (p : process) (msg : list Z) : res process :=
'(forknum, rnode, msg) ← get_rel msg;
pageNum ← (if smgrexists (p_db p) rnode forknum then smgrnblocks (p_db p) rnode forknum else Ok (-1));
respond p (le_bytes 4 pageNum).

Definition BeginRedoForBlock (p : process) (msg : list Z) : res process :=
'(tag, msg) ← get_tag msg;
Ok (set_target (set_redo_buffer p InvalidBuffer) tag).

Definition PushPage (p : process) (msg : list Z) : res process :=
'(tag, msg) ← get_tag msg;
'(content, msg) ← pq_getmsgbytes msg (Z.to_nat BLCKSZ);
put_page p tag content.

Definition GetPage (p : process) (msg : list Z) : res process :=
'(tag, msg) ← get_tag msg;
send_page p tag.

(** [mdextend]: the block is written at its place; what it leaves out before
reads as zeros. *)
Definition mdextend (st : dbstate) (rn : RelFileNode) (fork blk : Z) (content : page) : res dbstate :=
if blk =? InvalidBlockNumber then Err EError else
match files st !! (rn, fork) with
| Some l =>
let l := if blk <? zlen l then <[Z.to_nat blk := content]> l
else l ++ replicate (Z.to_nat (blk - zlen l)) zero_page ++ [content] in
Ok (set_files st (<[(rn, fork) := l]> (files st)))
| None => Err EError
end.

Definition ExtendRel (p : process) (msg : list Z) : res process :=
'(tag, msg) ← get_tag msg;
'(content, msg) ← pq_getmsgbytes msg (Z.to_nat BLCKSZ);
st ← mdextend (p_db p) (rnode tag) (forkNum tag) (blockNum tag) content;
respond (set_db p st) (le_bytes 4 1).

Definition CreateRel (p : process) (msg : list Z) : res process :=
'(forknum, rnode, msg) ← get_rel msg;
respond (set_db p (smgrcreate (p_db p) rnode forknum)) (le_bytes 4 1).

(** The answer is the two letters of ok. *)
Definition SyncLsnReplay (p : process) (msg : list Z) : res process :=
'(_, msg) ← pq_getmsgint msg 8;
respond p [111; 107].

Definition sizeof_XLogRecord : nat := 24.

Definition ApplyRecord (p : process) (msg : list Z) : res process :=
'(lsn, msg) ← pq_getmsgint msg 8;
'(record, msg) ← pq_getmsgbytes msg sizeof_XLogRecord;
if negb (mget 4 record 0 =? Z.of_nat sizeof_XLogRecord + zlen msg) then Err EError else
r ← DecodeXLogRecord (XLogBeginRead (reader_state p) lsn) lsn lsn (mget 1 record 16) (mget 1 record 17) (mget 4 record 4) msg;
let p := set_reader p r in
st ← rm_redo0 (p_db p) r;
if BufferIsValid (wal_redo_buffer p) then Ok (set_db p st) else
match target_redo_tag p with
| Some t =>
'(st, buf) ← ReadBufferWithoutRelcache st (rnode t) (forkNum t) (blockNum t) RBM_NORMAL;
Ok (set_redo_buffer (set_db p st) (Some buf))
| None => Err EUndef
end.

(** Records are replayed from where the reader is until it reaches [lsn] or the
log ends. *)
Fixpoint redo_until (fuel : nat) (p : process) (lsn : Z) : res process :=
if lsn <=? EndRecPtr (reader_state p) then Ok p else
match fuel with
| O => Err EFuel
| S fuel =>
match wal (EndRecPtr (reader_state p)) with
| None => Ok p
| Some r =>
r ← polar_xlog_decode_data r;
st ← rm_redo0 (p_db p) r;
redo_until fuel (set_db (set_reader p r) st) lsn
end
end.

Definition ApplyXlogUntil (p : process) (msg : list Z) : res process :=
p ← (if EndRecPtr (reader_state p) =? 0 then
if negb (crc_ok controlFile) then Err EError else
let p := set_reader p (XLogBeginRead (reader_state p) (checkPoint controlFile)) in
Ok (set_tli p (if checkPointTLI controlFile <? minRecoveryPointTLI controlFile then minRecoveryPointTLI controlFile
else checkPointTLI controlFile))
else Ok p);
'(lsn, msg) ← pq_getmsgint msg 8;
redo_until (Z.to_nat (lsn - EndRecPtr (reader_state p))) p lsn.

(** ** The main loop *)

(** The command of a letter. *)
Definition command (qtype : Z) : option (process → list Z → res process) :=
if qtype =? 69 (* E *) then Some ApplyOneXlogWithoutBasePage
else if qtype =? 79 (* O *) then Some ApplyLsnListXlog
else if qtype =? 111 (* o *) then Some ApplyLsnListXlogWithoutBasePage
else if qtype =? 68 (* D *) then Some ApplyOneXlog
else if qtype =? 77 (* M *) then Some GetRelSize
else if qtype =? 66 (* B *) then Some BeginRedoForBlock
else if qtype =? 80 (* P *) then Some PushPage
else if qtype =? 65 (* A *) then Some ApplyRecord
else if qtype =? 71 (* G *) then Some GetPage
else if qtype =? 83 (* S *) then Some SyncLsnReplay
else if qtype =? 85 (* U *) then Some ApplyXlogUntil
else if qtype =? 67 (* C *) then Some CreateRel
else if qtype =? 70 (* F *) then Some ExtendRel
else None.

Definition EOF : Z := -1.

Inductive step_result : Type :=
| Running (p : process)
| Exited (p : process).

(** One turn of the loop; a process that reports an error or a fatal error
ends. *)
Definition redo_step (p : process) : res step_result :=
'(cmd, buf, reads) ← ReadRedoCommand (stdin_buf p) (p_reads p);
let p := set_input p buf reads in
match cmd with
| None => Ok (Exited p)
| Some (qtype, msg) =>
match command qtype with
| Some f => p ← f p msg; Ok (Running p)
| None => if qtype =? EOF then Ok (Exited p) else Err EError
end
end.

(** [n] commands. *)
Fixpoint WalRedoMain (n : nat) (p : process) : res step_result :=
match n with
| O => Ok (Running p)
| S n => s ← redo_step p; match s with Running p => WalRedoMain n p | Exited p => Ok (Exited p) end
end.
End redo.
