(* ===== verification/WalRedoSpec.v ===== *)
(** * The theorems of the WAL-redo process

    A request of the storage server, sent in any pieces, is answered with the
    page that replay of the records gives; and what goes wrong when a write
    fails or the process ends. *)

From S2P Require Import Prelude Mem Page Buffer WalRecord XLogDecode HeapTuple HeapRedo Resident HeapRefine HeapReplay HeapSpec TagList RedoPipe StorageServer Dispatch WalRedo.

(** ** Requests are understood *)

Lemma get_rel_app rn fork rest : rel_ok rn fork → get_rel (rel_bytes rn fork ++ rest) = Ok (fork, rn, rest).
Proof.
  intros [Hs Hd Hr Hf]. unfold get_rel, rel_bytes, oid_ok in *. rewrite <-!app_assoc.
  assert (E1 : le_bytes 1 fork = [fork]) by (cbn [le_bytes]; by rewrite Z.mod_small). rewrite E1. cbn [app pq_getmsgbyte mbind res_bind].
  rewrite !(getmsgint_app 4) by (cbn; lia). cbn [mbind res_bind]. rewrite (getmsgint_app 4) by (cbn; lia). cbn [mbind res_bind].
  rewrite (getmsgint_app 4) by (cbn; lia). cbn [mbind res_bind]. by destruct rn.
Qed.

Lemma get_tag_app tag rest : tag_ok tag → get_tag (bufftag_bytes tag ++ rest) = Ok (tag, rest).
Proof.
  intros [Hr Hb]. unfold get_tag, bufftag_bytes, oid_ok in *. rewrite <-app_assoc, get_rel_app by done. cbn [mbind res_bind].
  rewrite (getmsgint_app 4) by (cbn; lia). cbn [mbind res_bind]. by destruct tag.
Qed.

Lemma get_lsns_app lsns rest : Forall (λ l, 0 ≤ l < 2 ^ 64) lsns → get_lsns (length lsns) (concat (hton 8 <$> lsns) ++ rest) = Ok (lsns, rest).
Proof.
  induction lsns as [|l lsns IH]; intros Hl; [done|]. apply Forall_cons in Hl as [Hl1 Hl]. cbn [length get_lsns]. rewrite fmap_cons. cbn [concat].
  rewrite <-app_assoc, (getmsgint_app 8) by (cbn; lia). cbn [mbind res_bind]. rewrite IH by done. done.
Qed.

(** ** Replay of a list of records *)

Section replay.
Context (wal : Z → option XLogReaderState) (rm_redo0 : dbstate → XLogReaderState → res dbstate) (controlFile : ControlFileData).

(** The records of a heap page at the given positions of the log. *)
Definition heap_log (tag : BufferTag) (lsns : list Z) (rs : list XLogReaderState) : Prop :=
Forall2 (λ l r, wal l = Some r ∧ xl_rmid r = RM_HEAP_ID) lsns rs ∧ page_log tag rs.

Lemma redo_record_heap st r tag p st' b act : xl_rmid r = RM_HEAP_ID → heap_record r → touches r tag → resident st tag p → heap_wf p →
polar_heap_idx_redo st r tag InvalidBuffer = Ok (st', b, act) → redo_record rm_redo0 st r tag = Ok st'.
Proof using.
intros Hrm Hrec Ht Hres Hwf Hr. unfold redo_record. rewrite Hrm. change (rmgr_table RM_HEAP_ID) with (Some heap_rmgr). cbn [rm_redo heap_rmgr]. rewrite Hr. cbn [mbind res_bind].
destruct (heap_redo_outcome st r tag p _ Hrec Hres Hwf _ Ht Hr) as [[_ [= -> -> ->]]|[_ (q & [= -> -> ->] & _)]]; done.
Qed.

(** The process does what replay does, record by record. *)
Lemma apply_lsns_replay tag lsns rs : heap_log tag lsns rs → ∀ p q st', resident (p_db p) tag q → heap_wf q → replay (p_db p) tag rs = Ok st' →
∃ r, apply_lsns wal rm_redo0 p tag lsns = Ok (set_db (set_reader p r) st').
Proof using.
intros [Hw Hlog]. revert Hlog. induction Hw as [|l r lsns rs [Hl Hrm] _ IH]; intros Hlog p q st' Hres Hwf Hr; cbn [replay apply_lsns] in *.
{ apply Ok_inj in Hr as <-. exists (reader_state p). by destruct p. }
apply Forall_cons in Hlog as [[Hrec Ht] Hlog]. apply bind_Ok_inv in Hr as ([[st1 b] act] & Hx & Hr).
unfold apply_lsn, read_record. rewrite Hl. cbn [mbind res_bind].
change (p_db (set_reader p r)) with (p_db p). rewrite (redo_record_heap _ _ _ _ _ _ _ Hrm Hrec Ht Hres Hwf Hx). cbn [mbind res_bind].
assert (Hq : ∃ q', resident st1 tag q' ∧ heap_wf q').
{ destruct (heap_redo_outcome _ r tag q _ Hrec Hres Hwf _ Ht Hx) as [[_ [= -> -> ->]]|[_ (q' & [= -> -> ->] & Hq' & _)]]; [by exists q|].
exists q'. split; [by eapply resident_write|done]. }
destruct Hq as (q' & Hres' & Hwf'). destruct (IH Hlog (set_db (set_reader p r) st1) q' st' Hres' Hwf' Hr) as [r' ->]. by exists r'.
Qed.

(** A base page is put in the pool. *)
Lemma put_page_spec p tag old content : resident (p_db p) tag old ∨ (pool (p_db p) !! tag = None) → blockNum tag ≠ InvalidBlockNumber →
put_page p tag content = Ok (set_redo_buffer (set_db p (buf_write (p_db p) (Some tag) content)) (Some tag)).
Proof using.
intros Hres Hb. unfold put_page, ReadBufferWithoutRelcache, ReadBuffer_common, P_NEW. rewrite (proj2 (Z.eqb_neq _ _)) by done. cbn [mbind res_bind].
replace (mkTag (rnode tag) (forkNum tag) (blockNum tag)) with tag by (by destruct tag). destruct Hres as [[Hp _ _]|Hp]; rewrite Hp; cbn [mbind res_bind mode_zero].
- cbn [BufferGetPage]. rewrite Hp. done.
- cbn [BufferGetPage set_pool pool]. rewrite lookup_insert_eq. cbn [mbind res_bind]. do 3 f_equal. unfold buf_write, set_pool. cbn. by rewrite insert_insert_eq.
Qed.

(** The page of a resident block is the answer. *)
Lemma send_page_spec p tag q : resident (p_db p) tag q → q ≠ [] → no_failure (p_writes p) → (length q ≤ accepted (p_writes p))%nat →
∃ writes, send_page p tag = Ok (set_redo_buffer (set_output p writes (p_out p ++ q)) InvalidBuffer).
Proof using.
intros [Hp _ Hb] Hne Hf Hn. unfold send_page, ReadBufferWithoutRelcache, ReadBuffer_common, P_NEW. rewrite (proj2 (Z.eqb_neq _ _)) by lia. cbn [mbind res_bind].
replace (mkTag (rnode tag) (forkNum tag) (blockNum tag)) with tag by (by destruct tag). rewrite Hp. cbn [mbind res_bind BufferGetPage]. rewrite Hp. cbn [mbind res_bind].
unfold respond. destruct (write_response_all (p_writes p) q (p_out p) Hf Hn Hne) as [w E]. exists w. cbn. rewrite E. cbn [mbind res_bind]. done.
Qed.

(** ** The answer to a list of records *)

Definition lsn_list_params (tag : BufferTag) (lsns : list Z) (base : page) : list Z :=
bufftag_bytes tag ++ hton 4 (zlen lsns) ++ concat (hton 8 <$> lsns) ++ base.

(** What a request names exists and fits its fields. *)
Record request_ok (st : dbstate) (tag : BufferTag) (lsns : list Z) (base : page) : Prop := {
rq_tag : tag_ok tag;
rq_lsns : Forall (λ l, 0 ≤ l < 2 ^ 64) lsns;
rq_count : zlen lsns < 2 ^ 26;
rq_base : heap_wf base;
rq_block : blockNum tag < InvalidBlockNumber;
rq_file : ∃ l, files st !! (rnode tag, forkNum tag) = Some l ∧ 0 ≤ blockNum tag < zlen l }.

Lemma base_resident st tag lsns base : request_ok st tag lsns base → resident (buf_write st (Some tag) base) tag base.
Proof using. intros []. constructor; [apply lookup_insert_eq|done|done]. Qed.

Lemma heap_wf_zlen q : heap_wf q → zlen q = BLCKSZ.
Proof using. intros Hq. exact (wf_len _ (wf_hdr _ (hw_page _ Hq))). Qed.

(** The page a list of records gives, and the answer of the process. *)
Lemma handler_spec p tag lsns rs base st' : request_ok (p_db p) tag lsns base → heap_log tag lsns rs →
replay (buf_write (p_db p) (Some tag) base) tag rs = Ok st' → no_failure (p_writes p) → BLCKSZ ≤ Z.of_nat (accepted (p_writes p)) →
∃ q p', ApplyLsnListXlog wal rm_redo0 p (lsn_list_params tag lsns base) = Ok p' ∧ pool st' !! tag = Some q ∧ heap_wf q ∧
p_db p' = st' ∧ p_out p' = p_out p ++ q ∧ stdin_buf p' = stdin_buf p ∧ p_reads p' = p_reads p.
Proof using.
intros Hrq Hlog Hrep Hf Hn. pose proof (base_resident _ _ _ _ Hrq) as Hres. pose proof Hlog as [_ Hpl].
destruct (replay_resident tag rs _ base st' Hpl Hres (rq_base _ _ _ _ Hrq) Hrep) as (q & Hresq & Hwq & _).
unfold ApplyLsnListXlog, lsn_list_params. rewrite get_tag_app by apply Hrq. cbn [mbind res_bind].
pose proof (rq_count _ _ _ _ Hrq) as Hc. pose proof (zlen_nonneg lsns). rewrite (getmsgint_app 4) by (cbn; lia). cbn [mbind res_bind].
replace (Z.to_nat (zlen lsns)) with (length lsns) by (unfold zlen; lia). rewrite get_lsns_app by apply Hrq. cbn [mbind res_bind].
pose proof (heap_wf_zlen base (rq_base _ _ _ _ Hrq)) as Hzb.
assert (Hgb : pq_getmsgbytes base (Z.to_nat BLCKSZ) = Ok (base, [])).
{ rewrite <-(app_nil_r base) at 1. apply getmsgbytes_app. rewrite <-Hzb. unfold zlen. lia. }
rewrite Hgb. cbn [mbind res_bind].
rewrite (put_page_spec p tag (default [] (pool (p_db p) !! tag)) base);
[|destruct (pool (p_db p) !! tag) eqn:E; [left; constructor; [done|apply Hrq|apply Hrq]|by right]|pose proof (rq_block _ _ _ _ Hrq); lia].
cbn [mbind res_bind]. set (p1 := set_redo_buffer _ _). destruct (apply_lsns_replay tag lsns rs Hlog p1 base st' Hres (rq_base _ _ _ _ Hrq) Hrep) as [r ->].
cbn [mbind res_bind]. pose proof (heap_wf_zlen q Hwq) as Hzq.
destruct (send_page_spec (set_db (set_reader p1 r) st') tag q Hresq) as [w ->];
[intros ->; done|done|unfold zlen in Hzq; cbn; unfold BLCKSZ in *; lia|].
exists q. eexists. split_and!; [done|apply Hresq|done|done|done|done|done].
Qed.
End replay.

(** ** From the request to the page *)

(** C6: a heap page is materialised by a WAL-redo process.  The page is one of the main
    fork, its records are heap records with a plain reference to it, without images,
    none that makes the page anew ([heap_log]).  The server asks for the
    page from a base version and the positions of the records since then.
    However the pipe splits the request and the answer, and however often the
    process is interrupted, the process takes exactly this request from its
    input, its state becomes the one replay of the records gives, it answers
    with the page, and the server's call returns that page, having sent exactly
    the request. *)
Theorem apply_lsn_list_materialises wal rm_redo0 control p c tag lsns rs base st' rest :
  request_ok (p_db p) tag lsns base → heap_log wal tag lsns rs → replay (buf_write (p_db p) (Some tag) base) tag rs = Ok st' →
  no_failure (p_writes p) → BLCKSZ ≤ Z.of_nat (accepted (p_writes p)) → quiet (p_reads p) →
  stdin_buf p ++ data (p_reads p) = frame 79 (lsn_list_params tag lsns base) ++ rest →
  all_succeed (c_writes c) → 26 + 8 * zlen lsns + BLCKSZ ≤ Z.of_nat (accepted (c_writes c)) →
  ∃ q p', pool st' !! tag = Some q ∧ heap_wf q ∧
    redo_step wal rm_redo0 control p = Ok (Running p') ∧ p_db p' = st' ∧ p_out p' = p_out p ++ q ∧ stdin_buf p' ++ data (p_reads p') = rest ∧
    (Forall (λ r, r ≠ RdFail) (c_reads c) → data (c_reads c) = q →
     ∃ c', ApplyLsnList c tag lsns base = Ok (q, c') ∧ c_sent c' = c_sent c ++ frame 79 (lsn_list_params tag lsns base)).
Proof.
  intros Hrq Hlog Hrep Hf Hn Hq Hs Hsc Hnc. pose proof (heap_wf_zlen base (rq_base _ _ _ _ Hrq)) as Hzb. pose proof (rq_count _ _ _ _ Hrq) as Hc.
  pose proof (zlen_nonneg lsns) as H0.
  assert (Hz : zlen (lsn_list_params tag lsns base) = 21 + 8 * zlen lsns + BLCKSZ).
  { unfold lsn_list_params. rewrite !zlen_app, zlen_tag_bytes, zlen_lsns, Hzb. unfold zlen at 1. rewrite length_hton. lia. }
  destruct (read_command_stream 79 (lsn_list_params tag lsns base) rest (stdin_buf p) (p_reads p)) as (buf & reads & Hr & Hs' & Hq'); [lia|unfold MaxAllocSize, BLCKSZ in *; lia|done|done|].
  destruct (handler_spec wal rm_redo0 (set_input p buf reads) tag lsns rs base st' Hrq Hlog Hrep Hf Hn) as (q & p' & Hh & Hpl & Hwq & Hdb & Ho & Hb & Hrd).
  exists q, p'. split_and!; [done|done| |done|done|by rewrite Hb, Hrd|].
  - unfold redo_step. rewrite Hr. cbn [mbind res_bind command Z.eqb Pos.eqb]. change (command wal rm_redo0 control 79) with (Some (ApplyLsnListXlog wal rm_redo0)). cbv beta iota.
    rewrite Hh. done.
  - intros Hcr Hd. unfold ApplyLsnList. fold (lsn_list_params tag lsns base).
    destruct (send_frame c 79 (4 + 1 + 4 + 4 + 4 + 4 + 4 + 8 * zlen lsns + BLCKSZ) (lsn_list_params tag lsns base) (1 + (4 + 1 + 4 + 4 + 4 + 4 + 4 + 8 * zlen lsns + BLCKSZ)))
      as [w ->]; [lia|lia|done|lia|]. cbn [mbind res_bind].
    destruct (receive_all (mkConn w (c_sent c ++ frame 79 (lsn_list_params tag lsns base)) (c_reads c)) BLCKSZ Hcr) as [r' ->].
    { cbn [c_reads]. rewrite Hd. by apply heap_wf_zlen. }
    cbn [c_reads c_writes c_sent]. rewrite Hd. eauto.
Qed.

(** The state after replay differs in the page only. *)
Lemma replay_write tag rs : ∀ st p st', page_log tag rs → resident st tag p → heap_wf p → replay st tag rs = Ok st' →
  ∀ q, pool st' !! tag = Some q → st' = buf_write st (Some tag) q.
Proof.
  induction rs as [|r rs IH]; intros st p st' Hlog Hr Hh Hst q Hq; cbn [replay] in Hst.
  { apply Ok_inj in Hst as <-. unfold buf_write, set_pool. rewrite insert_id by done. by destruct st. }
  apply Forall_cons in Hlog as [[Hrec Ht] Hlog]. apply bind_Ok_inv in Hst as (x & Hx & Hst).
  destruct (heap_redo_outcome st r tag p _ Hrec Hr Hh x Ht Hx) as [[_ ->]|[_ (q1 & -> & Hq1 & _)]]; [by eapply IH|].
  rewrite (IH _ q1 st' Hlog (resident_write _ _ _ _ Hr) Hq1 Hst q Hq). by rewrite buf_write_write.
Qed.

(** C18: the base version of a heap page does not matter.  The page is one of the main
    fork whose records are heap records without images and without new pages
    ([heap_log]); pages of the visibility map, whose redo does not look at
    the LSN, and pages of other resource managers are not covered.  Let [base1] be the
    page after the records [rs1] on [base].  Asking for the page from [base] with all positions,
    from [base1] with all positions, or from [base1] with the remaining ones gives
    the same answer and leaves the process in the same database state: a request
    may repeat records the base already has. *)
Theorem redo_base_independent wal rm_redo0 p tag lsns1 lsns2 rs1 rs2 base st1 base1 st2 :
  request_ok (p_db p) tag (lsns1 ++ lsns2) base → heap_log wal tag lsns1 rs1 → heap_log wal tag lsns2 rs2 →
  replay (buf_write (p_db p) (Some tag) base) tag rs1 = Ok st1 → pool st1 !! tag = Some base1 → replay st1 tag rs2 = Ok st2 →
  no_failure (p_writes p) → BLCKSZ ≤ Z.of_nat (accepted (p_writes p)) →
  ∃ q a b c, let answer lsns base := ApplyLsnListXlog wal rm_redo0 p (lsn_list_params tag lsns base) in
    answer (lsns1 ++ lsns2) base = Ok a ∧ answer (lsns1 ++ lsns2) base1 = Ok b ∧ answer lsns2 base1 = Ok c ∧
    p_out a = p_out p ++ q ∧ p_out b = p_out a ∧ p_out c = p_out a ∧ p_db a = st2 ∧ p_db b = st2 ∧ p_db c = st2.
Proof.
  intros Hrq [Hw1 Hl1] [Hw2 Hl2] H1 Hb1 H2 Hf Hn. pose proof (base_resident _ _ _ _ Hrq) as Hres. pose proof (rq_base _ _ _ _ Hrq) as Hwb.
  destruct (replay_resident tag rs1 _ base st1 Hl1 Hres Hwb H1) as (q1 & Hres1 & Hwf1 & _ & Hf1).
  assert (q1 = base1) as -> by (apply Some_inj; rewrite <-Hb1; symmetry; apply Hres1).
  assert (E1 : buf_write (p_db p) (Some tag) base1 = st1) by (rewrite (replay_write tag rs1 _ base st1 Hl1 Hres Hwb H1 base1 Hb1); by rewrite buf_write_write).
  assert (Hall : heap_log wal tag (lsns1 ++ lsns2) (rs1 ++ rs2)) by (split; [by apply Forall2_app|by apply Forall_app]).
  assert (Hr0 : replay (buf_write (p_db p) (Some tag) base) tag (rs1 ++ rs2) = Ok st2) by (rewrite replay_app, H1; done).
  assert (Hr1 : replay (buf_write (p_db p) (Some tag) base1) tag (rs1 ++ rs2) = Ok st2).
  { rewrite E1, replay_app, (replay_skip tag rs1 st1 base1 Hl1 Hres1 Hwf1 Hf1). done. }
  assert (Hr2 : replay (buf_write (p_db p) (Some tag) base1) tag rs2 = Ok st2) by (by rewrite E1).
  assert (Hrq1 : request_ok (p_db p) tag (lsns1 ++ lsns2) base1) by (destruct Hrq; by constructor).
  assert (Hrq2 : request_ok (p_db p) tag lsns2 base1).
  { destruct Hrq1 as [? Hlf Hlc]. rewrite Forall_app in Hlf. rewrite zlen_app in Hlc. pose proof (zlen_nonneg lsns1). constructor; [done|tauto|lia|done..]. }
  destruct (handler_spec wal rm_redo0 p tag _ _ base st2 Hrq Hall Hr0 Hf Hn) as (q & a & Ha & Hp0 & _ & Hda & Hoa & _).
  destruct (handler_spec wal rm_redo0 p tag _ _ base1 st2 Hrq1 Hall Hr1 Hf Hn) as (q' & b & Hb & Hp1 & _ & Hdb & Hob & _).
  destruct (handler_spec wal rm_redo0 p tag _ _ base1 st2 Hrq2 (conj Hw2 Hl2) Hr2 Hf Hn) as (q'' & c & Hc & Hp2 & _ & Hdc & Hoc & _).
  assert (q' = q ∧ q'' = q) as [-> ->] by (split; apply Some_inj; by rewrite <-Hp0).
  exists q, a, b, c. cbv zeta. split_and!; [done|done|done|done|by rewrite Hob, Hoa|by rewrite Hoc, Hoa|done|done|done].
Qed.

(** ** Commands do not see how their input came *)

Section chunks.
Context (wal : Z → option XLogReaderState) (rm_redo0 : dbstate → XLogReaderState → res dbstate) (controlFile : ControlFileData).

(** A step that neither looks at the input nor changes it. *)
Definition input_free (f : process → res process) : Prop := ∀ p b r, f (set_input p b r) = (λ q, set_input q b r) <$> f p.

Lemma input_free_bind f g : input_free f → input_free g → input_free (λ p, p ← f p; g p).
Proof using. intros Hf Hg p b r. rewrite (Hf p b r). destruct (f p) as [q|e]; cbn [fmap res_fmap mbind res_bind]; [apply Hg|done]. Qed.

(** Reading a field of the message first. *)
Lemma input_free_res {A} (m : res A) (g : A → process → res process) : (∀ a, input_free (g a)) → input_free (λ p, a ← m; g a p).
Proof using. intros Hg p b r. destruct m as [a|e]; cbn [mbind res_bind]; [apply Hg|done]. Qed.

Lemma respond_free bs : input_free (λ p, respond p bs).
Proof using. intros p b r. unfold respond. cbn. destruct (write_response _ _ _) as [[out w]|]; done. Qed.

Lemma put_page_free tag content : input_free (λ p, put_page p tag content).
Proof using. intros p b r. unfold put_page. cbn. destruct (ReadBufferWithoutRelcache _ _ _ _ _) as [[st buf]|]; [|done]. cbn. by destruct (pool st !! buf). Qed.

Lemma send_page_free tag : input_free (λ p, send_page p tag).
Proof using.
intros p b r. unfold send_page. change (p_db (set_input p b r)) with (p_db p). destruct (ReadBufferWithoutRelcache _ _ _ _ _) as [[st buf]|]; [|done]. cbn [mbind res_bind].
destruct (BufferGetPage st (Some buf)) as [q|]; [|done]. cbn [mbind res_bind].
change (set_db (set_input p b r) st) with (set_input (set_db p st) b r). rewrite (respond_free q (set_db p st) b r). by destruct (respond _ _).
Qed.

Lemma apply_lsn_free tag lsn : input_free (λ p, apply_lsn wal rm_redo0 p tag lsn).
Proof using. intros p b r. unfold apply_lsn, read_record. destruct (wal lsn) as [x|]; [|done]. cbn. by destruct (redo_record _ _ _ _). Qed.

Lemma apply_lsns_free tag lsns : input_free (λ p, apply_lsns wal rm_redo0 p tag lsns).
Proof using. induction lsns as [|l lsns IH]; [by intros p b r|]. cbn [apply_lsns]. apply input_free_bind; [apply apply_lsn_free|exact IH]. Qed.

Lemma redo_until_free fuel lsn : input_free (λ p, redo_until wal rm_redo0 fuel p lsn).
Proof using.
induction fuel as [|fuel IH]; intros p b r; cbn [redo_until]; change (reader_state (set_input p b r)) with (reader_state p); destruct (lsn <=? _); [done..|].
destruct (wal _) as [x|]; [|done]. destruct (polar_xlog_decode_data x) as [x'|]; [|done]. cbn [mbind res_bind]. change (p_db (set_input p b r)) with (p_db p).
destruct (rm_redo0 _ _) as [st|]; [|done]. cbn [mbind res_bind]. exact (IH (set_db (set_reader p x') st) b r).
Qed.

(** A step of the state before the rest. *)
Lemma input_free_step {A} (h : process → A) (g : A → process → res process) : (∀ p b r, h (set_input p b r) = h p) → (∀ a, input_free (g a)) → input_free (λ p, g (h p) p).
Proof using. intros Hh Hg p b r. cbn beta. rewrite Hh. apply Hg. Qed.

Lemma apply_record_free msg : input_free (λ p, ApplyRecord rm_redo0 p msg).
Proof using.
apply input_free_res. intros [lsn m]. apply input_free_res. intros [record m']. intros p b r. destruct (negb _); [done|].
change (reader_state (set_input p b r)) with (reader_state p). destruct (DecodeXLogRecord _ _ _ _ _ _ _) as [x|]; [|done]. cbn [mbind res_bind].
change (p_db (set_reader (set_input p b r) x)) with (p_db p). change (p_db (set_reader p x)) with (p_db p). destruct (rm_redo0 _ _) as [st|]; [|done]. cbn [mbind res_bind].
change (wal_redo_buffer (set_reader (set_input p b r) x)) with (wal_redo_buffer p). change (wal_redo_buffer (set_reader p x)) with (wal_redo_buffer p). destruct (BufferIsValid _); [done|].
change (target_redo_tag (set_reader (set_input p b r) x)) with (target_redo_tag p). change (target_redo_tag (set_reader p x)) with (target_redo_tag p). destruct (target_redo_tag p); [|done].
by destruct (ReadBufferWithoutRelcache _ _ _ _ _) as [[? ?]|].
Qed.

Lemma apply_until_free msg : input_free (λ p, ApplyXlogUntil wal rm_redo0 controlFile p msg).
Proof using.
unfold ApplyXlogUntil. apply input_free_bind.
- intros p b r. change (reader_state (set_input p b r)) with (reader_state p). destruct (_ =? 0); [|done]. by destruct (negb _).
- apply input_free_res. intros [lsn m]. apply (input_free_step (λ p, Z.to_nat (lsn - EndRecPtr (reader_state p))) (λ n p, redo_until wal rm_redo0 n p lsn)); [done|].
intros n. apply redo_until_free.
Qed.

(** Every command. *)
Lemma command_free qtype f msg : command wal rm_redo0 controlFile qtype = Some f → input_free (λ p, f p msg).
Proof using.
unfold command. repeat (destruct (qtype =? _); [intros [= <-]|]); [..|done].
- apply input_free_res. intros [tag m]. apply input_free_res. intros [lsn m']. apply input_free_bind; [apply apply_lsn_free|apply send_page_free].
- apply input_free_res. intros [tag m]. apply input_free_res. intros [n m']. apply input_free_res. intros [lsns m2]. apply input_free_res. intros [content m3].
apply input_free_bind; [apply put_page_free|]. apply input_free_bind; [apply apply_lsns_free|apply send_page_free].
- apply input_free_res. intros [tag m]. apply input_free_res. intros [n m']. apply input_free_res. intros [lsns m2]. apply input_free_bind; [apply apply_lsns_free|apply send_page_free].
- apply input_free_res. intros [tag m]. apply input_free_res. intros [lsn m']. apply input_free_res. intros [content m3].
apply input_free_bind; [apply put_page_free|]. apply input_free_bind; [apply apply_lsn_free|apply send_page_free].
- apply input_free_res. intros [[fork rn] m]. apply (input_free_step (λ p, if smgrexists (p_db p) rn fork then smgrnblocks (p_db p) rn fork else Ok (-1)) (λ n p, k ← n; respond p (le_bytes 4 k))); [done|].
intros n. apply input_free_res. intros k. apply respond_free.
- apply input_free_res. intros [tag m]. by intros p b r.
- apply input_free_res. intros [tag m]. apply input_free_res. intros [content m']. apply put_page_free.
- apply apply_record_free.
- apply input_free_res. intros [tag m]. apply send_page_free.
- apply input_free_res. intros [lsn m]. apply respond_free.
- apply apply_until_free.
- apply input_free_res. intros [[fork rn] m]. intros p b r. exact (respond_free _ (set_db p _) b r).
- apply input_free_res. intros [tag m]. apply input_free_res. intros [content m']. intros p b r. change (p_db (set_input p b r)) with (p_db p).
destruct (mdextend _ _ _ _ _) as [st|]; [|done]. exact (respond_free _ (set_db p st) b r).
Qed.

(** Commands as messages, without pipes: the specification of the main loop. *)
Fixpoint run_commands (p : process) (cmds : list (Z * list Z)) : res process :=
match cmds with
| [] => Ok p
| (qtype, msg) :: cmds =>
match command wal rm_redo0 controlFile qtype with
| Some f => p ← f p msg; run_commands p cmds
| None => Err EError
end
end.

Lemma run_commands_free cmds : input_free (λ p, run_commands p cmds).
Proof using.
induction cmds as [|[qtype msg] cmds IH]; [by intros p b r|]. cbn [run_commands]. destruct (command _ _ _ qtype) as [f|] eqn:E; [|by intros p b r].
apply input_free_bind; [by eapply command_free|exact IH].
Qed.
End chunks.

(** A command that can be sent: its letter is one byte, its message is not too
    long. *)
Definition sendable (cmd : Z * list Z) : Prop := 0 ≤ cmd.1 < 128 ∧ zlen cmd.2 < MaxAllocSize.

(** C19: the main loop is the sequence of its commands.  When the bytes of the
    input are those of a sequence of commands followed by anything, in whatever
    pieces the pipe delivers them and however often the read must be repeated,
    the loop of [WalRedoMain] has the result of running the handlers of the
    commands one after the other on their messages, errors included, and what
    follows stays in the input. *)
Theorem redo_loop_refines wal rm_redo0 control p cmds rest : Forall sendable cmds → quiet (p_reads p) →
  stdin_buf p ++ data (p_reads p) = concat ((λ '(qtype, msg), frame qtype msg) <$> cmds) ++ rest →
  ∃ buf reads, buf ++ data reads = rest ∧ quiet reads ∧
    WalRedoMain wal rm_redo0 control (length cmds) p = (λ q, Running (set_input q buf reads)) <$> run_commands wal rm_redo0 control p cmds.
Proof.
  intros Hs. revert p. induction Hs as [|[qtype msg] cmds [Hq Hz] Hs IH]; intros p Hr Hd.
  { exists (stdin_buf p), (p_reads p). split_and!; [done|done|]. by destruct p. }
  rewrite fmap_cons in Hd. cbn [concat] in Hd. rewrite <-app_assoc in Hd. cbn [fst snd] in Hq, Hz.
  destruct (read_command_stream qtype msg _ _ _ Hq Hz Hr Hd) as (b1 & r1 & E1 & Hd1 & Hr1).
  cbn [length WalRedoMain run_commands]. unfold redo_step. rewrite E1. cbn [mbind res_bind].
  destruct (command wal rm_redo0 control qtype) as [f|] eqn:Ef.
  2:{ rewrite (proj2 (Z.eqb_neq _ _)) by (unfold EOF; lia). destruct (IH (set_input p b1 r1) Hr1 Hd1) as (b & r & Hb & Hrr & _). by exists b, r. }
  rewrite (command_free wal rm_redo0 control qtype f msg Ef p b1 r1). destruct (f p msg) as [q|e]; cbn [fmap res_fmap mbind res_bind].
  - destruct (IH (set_input q b1 r1) Hr1 Hd1) as (b & r & Hb & Hrr & E). exists b, r. split_and!; [done|done|]. rewrite E, (run_commands_free wal rm_redo0 control cmds q b1 r1).
    by destruct (run_commands _ _ _ q cmds).
  - destruct (IH (set_input p b1 r1) Hr1 Hd1) as (b & r & Hb & Hrr & _). by exists b, r.
Qed.

(** ** Replaying up to a position *)

(** The records from position [pos] on, until one reaches [lsn]. *)
Inductive log_until (wal : Z → option XLogReaderState) (lsn : Z) : Z → list XLogReaderState → Prop :=
| until_done pos : lsn ≤ pos → log_until wal lsn pos []
| until_end pos : wal pos = None → log_until wal lsn pos []
| until_more pos r r' rs : pos < lsn → wal pos = Some r → pos < EndRecPtr r → polar_xlog_decode_data r = Ok r' → EndRecPtr r' = EndRecPtr r →
    log_until wal lsn (EndRecPtr r) rs → log_until wal lsn pos (r' :: rs).

Fixpoint redo_all (rm_redo0 : dbstate → XLogReaderState → res dbstate) (st : dbstate) (rs : list XLogReaderState) : res dbstate :=
  match rs with [] => Ok st | r :: rs => st ← rm_redo0 st r; redo_all rm_redo0 st rs end.

Lemma redo_until_all wal rm_redo0 lsn : ∀ fuel p rs st', log_until wal lsn (EndRecPtr (reader_state p)) rs → redo_all rm_redo0 (p_db p) rs = Ok st' →
  lsn - EndRecPtr (reader_state p) ≤ Z.of_nat fuel →
  redo_until wal rm_redo0 fuel p lsn = Ok (set_db (set_reader p (List.last rs (reader_state p))) st').
Proof.
  assert (Hid : ∀ p st', p_db p = st' → set_db (set_reader p (reader_state p)) st' = p) by (intros [] ? <-; done).
  induction fuel as [|fuel IH]; intros p rs st' Hlog Hr Hf; cbn [redo_until].
  - inversion Hlog; subst; [|destruct (Z.leb_spec lsn (EndRecPtr (reader_state p))); [|lia]|lia]; apply Ok_inj in Hr as <-; rewrite ?(proj2 (Z.leb_le _ _)) by lia;
      cbn [List.last]; by rewrite Hid.
  - inversion Hlog as [pos Hd|pos He|pos r r' rs' Hlt Hw Hpr Hdec Hend Hmore]; subst.
    + apply Ok_inj in Hr as <-. rewrite (proj2 (Z.leb_le _ _)) by lia. cbn [List.last]. by rewrite Hid.
    + apply Ok_inj in Hr as <-. cbn [List.last]. rewrite Hid by done. destruct (lsn <=? _); [done|]. by rewrite He.
    + rewrite (proj2 (Z.leb_gt _ _)) by lia. rewrite Hw. cbn [redo_all] in Hr. apply bind_Ok_inv in Hr as (st1 & H1 & Hr). rewrite Hdec. cbn [mbind res_bind]. rewrite H1. cbn [mbind res_bind].
      rewrite (IH _ rs' st'); [|cbn; by rewrite Hend|done|cbn; rewrite Hend; lia]. change (reader_state (set_db (set_reader p r') st1)) with r'. by rewrite <-(last_default rs' r' (reader_state p)).
Qed.

(** C20: replay up to a position ends.  If every record ends behind its start,
    the loop of [ApplyXlogUntil] replays exactly the records from the position
    of the reader up to the first one that reaches the requested position, or to
    the end of the log, in order, and stops; a reader that was never positioned
    starts at the last checkpoint. *)
Theorem apply_until_terminates wal rm_redo0 control p lsn rs st' :
  0 ≤ lsn < 2 ^ 64 → crc_ok control = true →
  let start := if EndRecPtr (reader_state p) =? 0 then checkPoint control else EndRecPtr (reader_state p) in
  log_until wal lsn start rs → redo_all rm_redo0 (p_db p) rs = Ok st' →
  ∃ p', ApplyXlogUntil wal rm_redo0 control p (hton 8 lsn) = Ok p' ∧ p_db p' = st' ∧ EndRecPtr (reader_state p') = EndRecPtr (List.last rs (XLogBeginRead (reader_state p) start)).
Proof.
  intros Hl Hc start Hlog Hr. unfold ApplyXlogUntil. rewrite Hc. cbn [negb].
  assert (Hm : ∀ q, (let '(lsn, _) := (lsn, @nil Z) in redo_until wal rm_redo0 (Z.to_nat (lsn - EndRecPtr (reader_state q))) q lsn) = Ok (set_db (set_reader q (List.last rs (reader_state q))) st') →
    ('(lsn, msg) ← pq_getmsgint (hton 8 lsn) 8; redo_until wal rm_redo0 (Z.to_nat (lsn - EndRecPtr (reader_state q))) q lsn) = Ok (set_db (set_reader q (List.last rs (reader_state q))) st')).
  { intros q Hq. rewrite <-(app_nil_r (hton 8 lsn)), (getmsgint_app 8) by (cbn; lia). exact Hq. }
  subst start. destruct (Z.eqb_spec (EndRecPtr (reader_state p)) 0) as [E|E]; cbn [mbind res_bind].
  - eexists. split; [apply Hm; eapply redo_until_all; [exact Hlog|exact Hr|cbn; lia]|]. done.
  - eexists. split; [apply Hm; eapply redo_until_all; [exact Hlog|exact Hr|lia]|]. split; [done|]. cbn [set_db set_reader reader_state].
    destruct rs as [|r rs]; [done|]. by rewrite !last_default.
Qed.

(** ** Failures *)

(** C39: a failed write damages the stream.  The server adds the result of [write]
    to its position even when it is -1: after a failure behind the first [k]
    bytes the byte before is sent again, so that one byte too many is in the
    pipe; and a failure of the very first write makes it send from before the
    start of its buffer.  A process that gets such a request (failed inside
    the message) takes a wrong message and keeps a byte that is none of the next
    command. *)
Theorem send_failure_shifts qtype msg k w reads : (∀ n, w ≠ WrCount n) → 0 ≤ qtype < 128 → zlen msg < MaxAllocSize →
  (6 ≤ k < length (frame qtype msg))%nat →
  let request := frame qtype msg in
  let sent := take k request ++ drop (k - 1) request in
  let wrong := take (k - 5) msg ++ drop (k - 6) (take (length msg - 1) msg) in
  send_request request 0 [WrCount k; w; WrCount (length request - (k - 1))] [] = Ok (sent, []) ∧
  (∀ writes, send_request request 0 (w :: WrCount 0 :: writes) [] = Err EOob) ∧
  (quiet reads → data reads = sent →
   ∃ buf' reads', ReadRedoCommand [] reads = Ok (Some (qtype, wrong), buf', reads') ∧ buf' ++ data reads' = drop (length msg - 1) msg).
Proof.
  intros Hw Hty Hlen Hk request sent wrong. assert (Hz : length request = (5 + length msg)%nat) by (pose proof (zlen_frame qtype msg); unfold zlen, request in *; lia).
  assert (Hz' : zlen request = 5 + zlen msg) by apply zlen_frame. unfold zlen in Hz', Hlen. fold request in Hk.
  assert (Hsent : sent = (qtype :: hton 4 (4 + zlen msg)) ++ wrong ++ drop (length msg - 1) msg).
  { unfold sent, wrong, request, frame. change (qtype :: hton 4 (4 + zlen msg) ++ msg) with ((qtype :: hton 4 (4 + zlen msg)) ++ msg).
    assert (H5 : length (qtype :: hton 4 (4 + zlen msg)) = 5%nat) by (cbn [length]; by rewrite length_hton).
    rewrite take_app_ge, drop_app_ge by lia. rewrite H5, <-!app_assoc. do 2 f_equal. replace (k - 1 - 5)%nat with (k - 6)%nat by lia.
    rewrite <-(take_drop (length msg - 1) msg) at 1. rewrite drop_app_le by (rewrite length_take; lia). done. }
  split_and!.
  - cbn [send_request]. rewrite (proj2 (Z.leb_gt _ _)) by (unfold zlen; lia). cbn [Z.ltb Z.compare]. rewrite (proj2 (Z.leb_gt _ _)) by (unfold zlen; lia).
    rewrite (proj2 (Z.ltb_ge _ _)) by lia. destruct w as [n| |]; [by destruct (Hw n)|..].
    all: rewrite (proj2 (Z.leb_gt _ _)) by (unfold zlen; lia); rewrite (proj2 (Z.ltb_ge _ _)) by lia; cbn [app]; change (Z.to_nat 0) with 0%nat; rewrite drop_0;
      rewrite (proj2 (Z.leb_le _ _)) by (unfold zlen; lia); replace (Z.to_nat (0 + Z.of_nat k - 1)) with (k - 1)%nat by lia; rewrite (take_ge (drop _ _)) by (rewrite length_drop; lia); done.
  - intros writes. cbn [send_request]. rewrite (proj2 (Z.leb_gt _ _)) by (unfold zlen; lia). cbn [Z.ltb Z.compare]. destruct w as [n| |]; [by destruct (Hw n)|..];
      rewrite (proj2 (Z.leb_gt _ _)) by (unfold zlen; lia); done.
  - assert (Hwl : length wrong = length msg).
    { unfold wrong. rewrite length_app, length_take, length_drop, length_take. lia. }
    intros Hq Hd. destruct (read_command_stream qtype wrong (drop (length msg - 1) msg) [] reads) as (b & r & Hr & Hs & _); [done|unfold zlen; lia|done| |eauto].
    rewrite Hd, Hsent. unfold frame. unfold zlen at 2. rewrite Hwl. cbn [app]. by rewrite <-app_assoc.
Qed.

(** C40: a server whose process has ended waits forever.  At the end of the file
    [read] returns 0, which the loop counts as progress: as long as nothing else
    comes, whatever the number of reads, the call for a page does not return. *)
Theorem server_waits_for_dead_process c tag : all_succeed (c_writes c) → 22 ≤ Z.of_nat (accepted (c_writes c)) →
  Forall (λ r, r = RdAgain ∨ r = RdData []) (c_reads c) → GetBasePage c tag = Err EFuel.
Proof.
  intros Hs Hn Hr. unfold GetBasePage. pose proof (zlen_tag_bytes tag) as Hz.
  destruct (send_frame c 71 (4 + 1 + 4 + 4 + 4 + 4) (bufftag_bytes tag) (1 + 4 + 1 + 4 + 4 + 4 + 4)) as [w ->]; [lia|lia|done|lia|].
  cbn [mbind res_bind]. unfold receive. cbn [c_reads].
  assert (H : ∀ reads n dst, Forall (λ r, r = RdAgain ∨ r = RdData []) reads → recv_response (S n) reads dst = Err EFuel).
  { induction reads as [|r reads IH]; intros n dst Hf; [done|]. apply Forall_cons in Hf as [[->| ->] Hf]; cbn [recv_response Nat.eqb]; [by apply IH|].
    cbn [length]. rewrite Nat.sub_0_r. by apply IH. }
  change (Z.to_nat BLCKSZ) with (S (Z.to_nat 8191)). by rewrite H.
Qed.

(** ** Examples *)

Definition demo_wal (lsn : Z) : option XLogReaderState :=
  if lsn =? EndRecPtr demo_delete - 50 then Some demo_delete else if lsn =? EndRecPtr demo_insert - 50 then Some demo_insert else None.
Definition demo_lsns : list Z := [EndRecPtr demo_delete - 50; EndRecPtr demo_insert - 50].
Definition no_redo (st : dbstate) (r : XLogReaderState) : res dbstate := Ok st.
Definition demo_control : ControlFileData := mkControl true 100 1 1.
Definition demo_request : list Z := frame 79 (lsn_list_params demo_tag demo_lsns demo_page).
Definition demo_process : process :=
  mkProc demo_db demo_delete 1 None None [] [RdData (take 3 demo_request); RdAgain; RdData (drop 3 demo_request)] [WrIntr; WrCount 100; WrCount (Z.to_nat 8092)] [].
Definition demo_conn : conn := mkConn [WrCount 20; WrCount (Z.to_nat 8300)] [] [].

Lemma demo_request_ok : request_ok demo_db demo_tag demo_lsns demo_page.
Proof.
  constructor; [| |vm_compute; reflexivity|apply demo_page_wf|vm_compute; reflexivity|].
  - split; [constructor|]; vm_compute; split; (discriminate || reflexivity).
  - do 2 (constructor; [vm_compute; split; (discriminate || reflexivity)|]). constructor.
  - eexists. split; [reflexivity|]. vm_compute. split; (discriminate || reflexivity).
Qed.

Lemma demo_heap_log1 : heap_log demo_wal demo_tag [EndRecPtr demo_delete - 50] [demo_delete].
Proof. split; [constructor; [split; reflexivity|constructor]|]. constructor; [split; [apply demo_delete_record|apply demo_delete_touches]|constructor]. Qed.
Lemma demo_heap_log2 : heap_log demo_wal demo_tag [EndRecPtr demo_insert - 50] [demo_insert].
Proof. split; [constructor; [split; reflexivity|constructor]|]. constructor; [split; [apply demo_insert_record|apply demo_insert_touches]|constructor]. Qed.
Lemma demo_heap_log : heap_log demo_wal demo_tag demo_lsns [demo_delete; demo_insert].
Proof.
  destruct demo_heap_log1 as [A1 B1], demo_heap_log2 as [A2 B2]. split; [exact (Forall2_app A1 A2)|exact (proj2 (Forall_app _ _ _) (conj B1 B2))].
Qed.

Lemma apply_lsn_list_materialises_witness : ∃ q p' st', replay (buf_write demo_db (Some demo_tag) demo_page) demo_tag [demo_delete; demo_insert] = Ok st' ∧
  redo_step demo_wal no_redo demo_control demo_process = Ok (Running p') ∧ p_out p' = q ∧ pool (p_db p') !! demo_tag = Some q.
Proof.
  assert (He : is_ok (replay (buf_write demo_db (Some demo_tag) demo_page) demo_tag [demo_delete; demo_insert]) = true) by (vm_compute; reflexivity).
  destruct (replay (buf_write demo_db (Some demo_tag) demo_page) demo_tag [demo_delete; demo_insert]) as [st'|] eqn:E; [|discriminate He].
  destruct (apply_lsn_list_materialises demo_wal no_redo demo_control demo_process demo_conn demo_tag demo_lsns [demo_delete; demo_insert] demo_page st' [])
    as (q & p' & Hq & _ & Hs & Hdb & Ho & _).
  - apply demo_request_ok.
  - apply demo_heap_log.
  - exact E.
  - repeat constructor; discriminate.
  - vm_compute. discriminate.
  - repeat constructor; vm_compute; discriminate.
  - vm_compute. reflexivity.
  - repeat constructor; eexists; reflexivity.
  - vm_compute. discriminate.
  - exists q, p', st'. split; [reflexivity|]. split; [exact Hs|]. split; [exact Ho|]. rewrite Hdb. exact Hq.
Defined.

Lemma redo_base_independent_witness : ∃ base1 a b, ApplyLsnListXlog demo_wal no_redo demo_process (lsn_list_params demo_tag demo_lsns demo_page) = Ok a ∧
  ApplyLsnListXlog demo_wal no_redo demo_process (lsn_list_params demo_tag demo_lsns base1) = Ok b ∧ p_out b = p_out a.
Proof.
  assert (He : is_ok (st ← replay (buf_write demo_db (Some demo_tag) demo_page) demo_tag [demo_delete]; replay st demo_tag [demo_insert]) = true) by (vm_compute; reflexivity).
  destruct (replay (buf_write demo_db (Some demo_tag) demo_page) demo_tag [demo_delete]) as [st1|] eqn:E1; cbn [mbind res_bind] in He; [|discriminate He].
  destruct (replay st1 demo_tag [demo_insert]) as [st2|] eqn:E2; [|discriminate He].
  destruct (replay_resident demo_tag [demo_delete] _ demo_page st1 (proj2 demo_heap_log1) (base_resident _ _ _ _ demo_request_ok) demo_page_wf E1) as (base1 & Hb & _).
  destruct (redo_base_independent demo_wal no_redo demo_process demo_tag [EndRecPtr demo_delete - 50] [EndRecPtr demo_insert - 50] [demo_delete] [demo_insert]
    demo_page st1 base1 st2) as (q & a & b & c & Ha & Hb' & _ & _ & Hab & _).
  - apply demo_request_ok.
  - apply demo_heap_log1.
  - apply demo_heap_log2.
  - exact E1.
  - apply Hb.
  - exact E2.
  - repeat constructor; discriminate.
  - vm_compute. discriminate.
  - exists base1, a, b. split; [exact Ha|]. split; [exact Hb'|exact Hab].
Defined.

(** A reader at the start takes the two records behind the checkpoint. *)
Definition until_wal (lsn : Z) : option XLogReaderState :=
  if lsn =? 100 then Some (mkRec 100 150 0 RM_SEQ_ID 7 [] 0 []) else if lsn =? 150 then Some (mkRec 150 220 0 RM_SEQ_ID 7 [] 0 []) else None.
Definition until_process : process := mkProc demo_db (mkRec 0 0 0 0 0 [] 0 []) 1 None None [] [] [] [].

Lemma apply_until_terminates_witness : ∃ p', ApplyXlogUntil until_wal no_redo demo_control until_process (hton 8 200) = Ok p' ∧ EndRecPtr (reader_state p') = 220.
Proof.
  destruct (apply_until_terminates until_wal no_redo demo_control until_process 200
    [mkRec 100 150 0 RM_SEQ_ID 7 [] 0 []; mkRec 150 220 0 RM_SEQ_ID 7 [] 0 []] demo_db) as (p' & E & _ & Hend).
  - lia.
  - reflexivity.
  - apply (until_more _ _ 100 (mkRec 100 150 0 RM_SEQ_ID 7 [] 0 [])); [lia|reflexivity|cbn; lia|reflexivity|reflexivity|].
    apply (until_more _ _ 150 (mkRec 150 220 0 RM_SEQ_ID 7 [] 0 [])); [lia|reflexivity|cbn; lia|reflexivity|reflexivity|].
    apply until_done. cbn. lia.
  - reflexivity.
  - exists p'. split; [exact E|exact Hend].
Defined.

Lemma send_failure_shifts_witness :
  send_request (frame 71 [1; 2; 3; 4; 5]) 0 [WrCount 8; WrIntr; WrCount 3] [] = Ok ([71; 0; 0; 0; 9; 1; 2; 3; 3; 4; 5], []) ∧
  ∃ buf' reads', ReadRedoCommand [] [RdData [71; 0; 0; 0; 9; 1; 2; 3; 3; 4; 5]] = Ok (Some (71, [1; 2; 3; 3; 4]), buf', reads') ∧ buf' ++ data reads' = [5].
Proof.
  destruct (send_failure_shifts 71 [1; 2; 3; 4; 5] 8 WrIntr [RdData [71; 0; 0; 0; 9; 1; 2; 3; 3; 4; 5]]) as (Hs & _ & Hr).
  - discriminate.
  - lia.
  - vm_compute. reflexivity.
  - vm_compute. lia.
  - split; [exact Hs|]. apply Hr; [|reflexivity]. repeat constructor; discriminate.
Defined.

Lemma server_waits_for_dead_process_witness : GetBasePage (mkConn [WrCount 22] [] [RdAgain; RdData []; RdData []]) demo_tag = Err EFuel.
Proof.
  apply (server_waits_for_dead_process (mkConn [WrCount 22] [] [RdAgain; RdData []; RdData []]) demo_tag).
  - repeat constructor. eexists. reflexivity.
  - vm_compute. discriminate.
  - constructor; [left; reflexivity|]. constructor; [right; reflexivity|]. constructor; [right; reflexivity|constructor].
Defined.

(** A block is chosen, its relation measured and its page asked for, in three
    uneven pieces. *)
Definition loop_cmds : list (Z * list Z) := [(66, bufftag_bytes demo_tag); (77, rel_bytes (rnode demo_tag) (forkNum demo_tag)); (71, bufftag_bytes demo_tag)].
Definition loop_bytes : list Z := concat ((λ '(qtype, msg), frame qtype msg) <$> loop_cmds).
Definition loop_process : process :=
  mkProc demo_db demo_delete 1 None None (take 2 loop_bytes) [RdAgain; RdData (take 30 (drop 2 loop_bytes)); RdAgain; RdData (drop 32 loop_bytes)] [WrCount 1; WrIntr; WrCount 3; WrCount (Z.to_nat 8192)] [].

Lemma redo_loop_refines_witness : ∃ q, WalRedoMain demo_wal no_redo demo_control 3 loop_process = Ok (Running q) ∧ p_out q = le_bytes 4 1 ++ demo_page.
Proof.
  destruct (redo_loop_refines demo_wal no_redo demo_control loop_process loop_cmds []) as (buf & reads & Hb & _ & E).
  - do 3 (constructor; [split; [split; [discriminate|reflexivity]|vm_compute; reflexivity]|]). constructor.
  - do 4 (constructor; [split; vm_compute; discriminate|]). constructor.
  - vm_compute. reflexivity.
  - assert (Hr : (λ q, p_out q) <$> run_commands demo_wal no_redo demo_control loop_process loop_cmds = Ok (le_bytes 4 1 ++ demo_page)) by (vm_compute; reflexivity).
    change (length loop_cmds) with 3%nat in E. destruct (run_commands _ _ _ _ _) as [q|]; [|discriminate Hr].
    exists (set_input q buf reads). split; [exact E|]. apply Ok_inj in Hr. exact Hr.
Defined.
