(* ===== verification/PageServer.v ===== *)
(** * The page server: requests for pages

    [ReadBufferCommon] of [rpcserver.cpp] answers a request for a page at a
    position of the log: the version map says which records are still to be
    replayed, the key-value store holds the version they apply to, a WAL-redo
    process replays them.  What the process does for the server is a class. *)

From S2P Require Import Prelude Mem Page Buffer WalRecord XLogDecode TagList Dispatch KvStore VersionMap.

(** ** What the server asks of a WAL-redo process *)

(** [GetBasePage], [ApplyLsnList] and [ApplyLsnListAndGetUpdatedPage]. *)
Class RedoService (S : Type) : Type := {
  svc_base : S → BufferTag → res (page * S);
  svc_apply : S → BufferTag → list Z → page → res (page * S);
  svc_apply_new : S → BufferTag → list Z → res (page * S) }.

(** ** What the background replay takes from a head *)

Definition MAX_REPLAY_VERSION_SIZE : Z := 20.

(** The loop over the entries of a node; the array has room for 20. *)
Fixpoint collect_node (replayedLsn : Z) (es : list LsnEntry) (lsnList : list Z) : res (list Z) :=
  match es with
  | [] => Ok lsnList
  | e :: es =>
    lsnList ← (if replayedLsn <? entry_lsn e then
                 if MAX_REPLAY_VERSION_SIZE <=? zlen lsnList then Err EOob else Ok (lsnList ++ [entry_lsn e])
               else Ok lsnList);
    if MAX_REPLAY_VERSION_SIZE <=? zlen lsnList then Ok lsnList else collect_node replayedLsn es lsnList
  end.

(** The loop over the element nodes: the list, and the nodes that
    [VacuumHashNode] does not unlink. *)
Fixpoint collect_vacuum (replayedLsn : Z) (eles : list HashNodeEle) (lsnList : list Z) : res (list Z * list HashNodeEle) :=
  match eles with
  | [] => Ok (lsnList, [])
  | ele :: rest =>
    l ← last_lsn (ele_entries ele);
    let next lsnList :=
      '(ls, kept) ← collect_vacuum replayedLsn rest lsnList;
      Ok (ls, if bool_decide (rest = []) then ele :: kept else kept) in
    if replayedLsn <? l then
      lsnList ← collect_node replayedLsn (ele_entries ele) lsnList;
      if zlen lsnList =? MAX_REPLAY_VERSION_SIZE then
        Ok (lsnList, if bool_decide (last lsnList = Some l) && negb (bool_decide (rest = [])) then rest else ele :: rest)
      else next lsnList
    else next lsnList
  end.

(** The heads a pass over a bucket takes up, in batches of 10, when the list does
    not change meanwhile: [iter] are the heads from the place the walk has reached.
    Before each batch as many heads are skipped as were passed before. *)
Definition ITER_BATCH_SIZE : nat := 10.
Fixpoint bucket_visits {A} (fuel : nat) (iter : list A) (currentFinishHeadNum : nat) : res (list A) :=
  match fuel with
  | O => Err EFuel
  | S fuel =>
    let iter := drop currentFinishHeadNum iter in
    let headNodes := take ITER_BATCH_SIZE iter in
    if Nat.ltb (length iter) ITER_BATCH_SIZE then Ok headNodes
    else rest ← bucket_visits fuel (drop ITER_BATCH_SIZE iter) (currentFinishHeadNum + ITER_BATCH_SIZE); Ok (headNodes ++ rest)
  end.

(** The page of a head; a fork number is converted back to [int]. *)
Definition head_tag (key : KeyType) : BufferTag :=
  INIT_BUFFERTAG (mkRel (SpcID key mod 2 ^ 32) (DbID key mod 2 ^ 32) (RelID key mod 2 ^ 32)) (to_int (ForkNum key)) (BlkNum key mod 2 ^ 32).

Section server.
Context {DB S : Type} `{RocksDB DB} `{RedoService S}.

Record server : Type := mkServer { s_map : HashMap; s_kv : kvstate DB; s_svc : S }.

(** The key of a block of a request; the block number is signed. *)
Definition request_key (rn : RelFileNode) (forknum blknum : Z) : KeyType := mkKey (spcNode rn) (dbNode rn) (relNode rn) (forknum mod 2 ^ 32) blknum.
Definition request_tag (rn : RelFileNode) (forknum blknum : Z) : BufferTag := INIT_BUFFERTAG rn forknum (blknum mod 2 ^ 32).

(** [std::string::assign] of a page: a NULL pointer is read all the same. *)
Definition assign (content : option page) : res page := match content with Some c => Ok c | None => Err EOob end.

Definition ReadBufferCommon (garbage : bool) (s : server) (rn : RelFileNode) (forknum blknum lsn : Z) : res (page * server) :=
let key := request_key rn forknum blknum in
let bufferTag := request_tag rn forknum blknum in
'(m, found) ← HashMapGetBlockReplayList (s_map s) key lsn;
match found with
| None =>
'(buff, svc) ← svc_base (s_svc s) bufferTag;
Ok (buff, mkServer m (s_kv s) svc)
| Some (replayedLsn, []) =>
'(kv, targetPage) ← GetPageFromRocksdb (s_kv s) bufferTag replayedLsn;
p ← assign targetPage;
Ok (p, mkServer m kv (s_svc s))
| Some (replayedLsn, lsn0 :: lsns) =>
let toReplayList := lsn0 :: lsns in
let lastLsn := List.last lsns lsn0 in
'(kv, page2, svc) ←
(if 0 <? replayedLsn then
'(kv, basePage) ← GetPageFromRocksdb (s_kv s) bufferTag replayedLsn;
base ← assign basePage;
'(page2, svc) ← svc_apply (s_svc s) bufferTag toReplayList base;
Ok (kv, page2, svc)
else
'(page2, svc) ← svc_apply_new (s_svc s) bufferTag toReplayList;
Ok (s_kv s, page2, svc));
kv ← PutPage2Rocksdb kv bufferTag lastLsn page2;
'(m, _) ← HashMapUpdateReplayedLsn m key lastLsn true;
kv ← (if negb (replayedLsn =? 0) then DeletePageFromRocksdb garbage kv bufferTag replayedLsn else Ok kv);
Ok (page2, mkServer m kv svc)
end.

(** The position of a record is added for a page the record is entered under. *)
Definition log_position (s : server) (lsn : Z) (tag : BufferTag) : res server :=
let key := mkKey (spcNode (rnode tag)) (dbNode (rnode tag)) (relNode (rnode tag)) (forkNum tag mod 2 ^ 32) (blockNum tag) in
'(m, _) ← HashMapInsertKey (s_map s) key lsn 0 true;
Ok (mkServer m (s_kv s) (s_svc s)).

Fixpoint log_positions (s : server) (lsn : Z) (tags : list BufferTag) : res server :=
match tags with
| [] => Ok s
| tag :: tags => s ← log_position s lsn tag; log_positions s lsn tags
end.

(** The startup process of the server at a record, after the relation sizes
([log_record_sizes] of [RelCache]): the visibility map blocks are added, the
position is entered for the pages of the record, and a record that is not parsed
into the log index is replayed at once on [st], the pages and files of the startup
process itself, by the redo routine of its resource manager, [rm_redo0]. *)
Definition log_record (rm_redo0 : dbstate → XLogReaderState → res dbstate) (s : server) (st : dbstate) (r : XLogReaderState) : res (server * dbstate) :=
r ← polar_xlog_decode_data r;
'(parsed, tags) ← ParseLogIndexXlog r;
s ← log_positions s (ReadRecPtr r) tags;
if negb parsed then st ← rm_redo0 st r; Ok (s, st) else Ok (s, st).

(** [BackgroundReplayHeadNode]: some records more of a page, up to 20, are
replayed, and element nodes that are done are freed. *)
Definition BackgroundReplayHeadNode (garbage : bool) (kv : kvstate DB) (svc : S) (h : HashNodeHead) : res (kvstate DB * S * HashNodeHead) :=
let replayed := replayedLsn h in
let bufferTag := head_tag (head_key h) in
l ← last_lsn (head_entries h);
lsnList ← (if replayed <? l then collect_node replayed (head_entries h) [] else Ok []);
'(lsnList, eles) ← collect_vacuum replayed (head_eles h) lsnList;
let h := set_versions h (head_entries h) (head_maxLsn h) eles in
match lsnList with
| [] => Ok (kv, svc, h)
| lsn0 :: lsns =>
let lastLsn := List.last lsns lsn0 in
'(kv, replayedPage, svc) ←
(if 0 <? replayed then
'(kv, basePage) ← GetPageFromRocksdb kv bufferTag replayed;
base ← assign basePage;
'(p, svc) ← svc_apply svc bufferTag lsnList base;
Ok (kv, p, svc)
else
'(p, svc) ← svc_apply_new svc bufferTag lsnList;
Ok (kv, p, svc));
kv ← PutPage2Rocksdb kv bufferTag lastLsn replayedPage;
kv ← (if 0 <? replayed then DeletePageFromRocksdb garbage kv bufferTag replayed else Ok kv);
Ok (kv, svc, set_replayed h lastLsn)
end.

(** A visit of [BackgroundHashMapCleanRocksdb] to a head: it is skipped when it
has nothing to replay, when its lock is taken, or when the last visit was
too recent ([due] is false). *)
Definition background_visit (garbage due : bool) (s : server) (key : KeyType) : res server :=
b ← get_bucket (s_map s) key;
iter ← find_key b key;
match iter with
| None => Ok s
| Some p =>
h ← head_at b p;
if negb (replayedLsn h <? head_maxLsn h) || headLock h || negb due then Ok s else
'(kv, svc, h) ← BackgroundReplayHeadNode garbage (s_kv s) (s_svc s) h;
Ok (mkServer (put_bucket (s_map s) key (set_node b p h)) kv svc)
end.
End server.
Arguments server DB S : clear implicits.
