(* ===== verification/PageCollect.v ===== *)
(** * What the background replay takes from a head, and what it frees

    The loops of [BackgroundReplayHeadNode] take the first 20 positions that are
    not replayed, and free only element nodes all of whose positions are
    replayed then. *)

From Stdlib Require Import Sorted.
From S2P Require Import Prelude Mem Page Buffer WalRecord KvStore VersionMap VersionNode PageServer.

Definition behind (r : Z) (ls : list Z) : list Z := filter (λ l, r < l) ls.
Definition batch : nat := Z.to_nat MAX_REPLAY_VERSION_SIZE.

Lemma collect_node_spec r es : ∀ acc, zlen acc < MAX_REPLAY_VERSION_SIZE → collect_node r es acc = Ok (take batch (acc ++ behind r (lsns es))).
Proof.
  induction es as [|e es IH]; intros acc Hz; cbn [collect_node].
  { change (lsns []) with (@nil Z). unfold behind. rewrite filter_nil, app_nil_r, take_ge; [done|]. unfold batch, zlen in *. lia. }
  unfold behind, lsns in *. rewrite fmap_cons. destruct (Z.ltb_spec r (entry_lsn e)).
  - rewrite (proj2 (Z.leb_gt _ _)) by lia. cbn [mbind res_bind]. rewrite filter_cons_True by done. rewrite zlen_app. change (zlen [entry_lsn e]) with 1.
    destruct (Z.leb_spec MAX_REPLAY_VERSION_SIZE (zlen acc + 1)).
    + f_equal. replace (acc ++ entry_lsn e :: filter (λ l, r < l) (entry_lsn <$> es)) with ((acc ++ [entry_lsn e]) ++ filter (λ l, r < l) (entry_lsn <$> es)) by (by rewrite <-app_assoc).
      rewrite take_app_le by (rewrite length_app; unfold batch, zlen in *; cbn [length]; lia). symmetry. apply take_ge. rewrite length_app. unfold batch, zlen in *. cbn [length]. lia.
    + rewrite IH by (rewrite zlen_app; change (zlen [entry_lsn e]) with 1; lia). by rewrite <-app_assoc.
  - cbn [mbind res_bind]. rewrite filter_cons_False by lia. rewrite (proj2 (Z.leb_gt _ _)) by lia. by apply IH.
Qed.

Lemma behind_app r l1 l2 : behind r (l1 ++ l2) = behind r l1 ++ behind r l2.
Proof. apply filter_app. Qed.

Lemma behind_none r ls : Forall (λ l, l ≤ r) ls → behind r ls = [].
Proof. intros H. apply keep_none. eapply Forall_impl; [exact H|]. cbn. lia. Qed.

(** A first part of a list that is not cut is a first part of the result. *)
Lemma take_batch_app (l1 l2 : list Z) : (length l1 < batch)%nat → ∃ l3, take batch (l1 ++ l2) = l1 ++ l3 ∧ ∃ l4, l2 = l3 ++ l4.
Proof. intros H. exists (take (batch - length l1) l2). rewrite take_app_ge by lia. split; [done|]. exists (drop (batch - length l1) l2). by rewrite take_drop. Qed.

(** The last of a sorted list that contains [x] is not before [x]. *)
Lemma last_ge (ls : list Z) x r : StronglySorted Z.lt ls → x ∈ ls → x ≤ default r (last ls).
Proof.
  intros Hs. revert x. induction Hs as [|y ls Hs IH Hf]; intros x Hx; [by apply elem_of_nil in Hx|]. destruct ls as [|z ls]; [apply elem_of_cons in Hx as [->|Hx]; [done|by apply elem_of_nil in Hx]|].
  rewrite last_cons_cons. apply elem_of_cons in Hx as [->|Hx]; [|by apply IH]. apply Forall_cons in Hf as [Hz _]. specialize (IH z ltac:(by left)). lia.
Qed.

Lemma positions_take (ls : list Z) n : StronglySorted Z.lt ls → StronglySorted Z.lt (take n ls).
Proof.
  intros Hs. revert n. induction Hs as [|x ls Hs IH Hf]; intros [|n]; [constructor..|]. cbn [take]. constructor; [apply IH|by apply Forall_take].
Qed.
Lemma sorted_filter (P : Z → Prop) `{∀ x, Decision (P x)} (ls : list Z) : StronglySorted Z.lt ls → StronglySorted Z.lt (filter P ls).
Proof.
  induction 1 as [|x ls Hs IH Hf]; [constructor|]. destruct (decide (P x)); [rewrite filter_cons_True by done|by rewrite filter_cons_False by done]. constructor; [done|].
  rewrite Forall_forall in Hf |- *. intros y Hy. apply list_elem_of_filter in Hy as [_ Hy]. by apply Hf.
Qed.

Lemma sorted_behind_app r l1 l2 : StronglySorted Z.lt (l1 ++ l2) → StronglySorted Z.lt (behind r l1 ++ l2).
Proof.
  unfold behind. induction l1 as [|x l1 IH]; intros Hs; [done|]. cbn [app] in Hs. apply StronglySorted_inv in Hs as [Hs Hf]. specialize (IH Hs).
  destruct (decide (r < x)); [rewrite filter_cons_True by done|by rewrite filter_cons_False by done]. cbn [app]. constructor; [done|].
  rewrite Forall_app in Hf |- *. destruct Hf as [Hf1 Hf2]. split; [|done]. rewrite Forall_forall in Hf1 |- *. intros y Hy. apply list_elem_of_filter in Hy as [_ Hy]. by apply Hf1.
Qed.

Lemma last_app_ne {A} (l1 l2 : list A) : l2 ≠ [] → last (l1 ++ l2) = last l2.
Proof. intros Hne. rewrite last_app. destruct (last l2) eqn:E; [done|]. by apply last_None in E. Qed.

Lemma ele_last ele : ele_wf ele → last_lsn (ele_entries ele) = Ok (ele_maxLsn ele) ∧ (sorted (ele_entries ele) → Forall (λ e, entry_lsn e ≤ ele_maxLsn ele) (ele_entries ele)) ∧ ele_maxLsn ele ∈ lsns (ele_entries ele).
Proof.
  intros [Hz Hm]. destruct (entry_at_last (ele_entries ele)) as (l & El & Ea); [lia|]. pose proof Hm as Hm'. rewrite El in Hm'. injection Hm' as Hm'. split_and!.
  - unfold last_lsn. rewrite Ea. cbn [mbind res_bind]. by rewrite Hm'.
  - intros Hs. rewrite Forall_forall. intros e He. by apply (last_max _ _ e Hs).
  - rewrite <-Hm'. unfold lsns. apply list_elem_of_fmap_2. by apply last_elem.
Qed.

(** The nodes that are freed come first, and what they hold is replayed. *)
Lemma collect_vacuum_spec r eles : ∀ acc, Forall ele_wf eles → sorted (ele_all eles) → zlen acc < MAX_REPLAY_VERSION_SIZE → Forall (λ l, r < l) acc → StronglySorted Z.lt (acc ++ lsns (ele_all eles)) →
  let ls := take batch (acc ++ behind r (lsns (ele_all eles))) in
  ∃ gone kept, collect_vacuum r eles acc = Ok (ls, kept) ∧ eles = gone ++ kept ∧ (eles ≠ [] → kept ≠ []) ∧ Forall (λ e, entry_lsn e ≤ default r (last ls)) (ele_all gone).
Proof.
  induction eles as [|ele rest IH]; intros acc Hw Hs Hz Hacc Hsa ls.
  { exists [], []. split_and!; [|done|done|constructor]. unfold ls. change (lsns (ele_all [])) with (@nil Z). unfold behind. rewrite filter_nil, app_nil_r, take_ge; [done|]. unfold batch, zlen in *. lia. }
  apply Forall_cons in Hw as [Hwe Hw]. destruct (ele_last ele Hwe) as (El & Hmax & Hin). rewrite ele_all_cons in Hs, Hsa. pose proof Hs as Hs'. apply entries_app in Hs' as (Hs1 & Hs2 & Hlt). specialize (Hmax Hs1).
  unfold lsns in Hsa. rewrite fmap_app in Hsa. fold (lsns (ele_entries ele)) (lsns (ele_all rest)) in Hsa.
  assert (Els : ls = take batch ((acc ++ behind r (lsns (ele_entries ele))) ++ behind r (lsns (ele_all rest)))) by (unfold ls; rewrite ele_all_cons; unfold lsns; by rewrite fmap_app, behind_app, app_assoc).
  assert (Hsls : StronglySorted Z.lt ls).
  { rewrite Els. apply positions_take. assert (E : acc = behind r acc) by (unfold behind; symmetry; by apply keep_all). rewrite E, <-!behind_app. apply sorted_filter. by rewrite <-app_assoc. }
  assert (Hrls : r ≤ default r (last ls)).
  { destruct (last ls) as [x|] eqn:Ex; [|done]. cbn. apply last_elem in Ex. unfold ls in Ex. apply elem_of_take in Ex as (i & Ex & _). apply list_elem_of_lookup_2, elem_of_app in Ex.
    destruct Ex as [Ex|Ex]; [rewrite Forall_forall in Hacc; specialize (Hacc x Ex); lia|]. unfold behind in Ex. apply list_elem_of_filter in Ex. lia. }
  (* the node is freed when others follow *)
  assert (Hnext : ∀ acc1, acc1 = acc ++ behind r (lsns (ele_entries ele)) → zlen acc1 < MAX_REPLAY_VERSION_SIZE → ele_maxLsn ele ≤ default r (last ls) →
    ∃ gone kept, ('(ls', kept) ← collect_vacuum r rest acc1; Ok (ls', if bool_decide (rest = []) then ele :: kept else kept)) = Ok (ls, kept) ∧ ele :: rest = gone ++ kept ∧ (ele :: rest ≠ [] → kept ≠ []) ∧ Forall (λ e, entry_lsn e ≤ default r (last ls)) (ele_all gone)).
  { intros acc1 -> Hz1 Hle. destruct (IH (acc ++ behind r (lsns (ele_entries ele))) Hw Hs2 Hz1) as (gone & kept & E & Eg & Hne & Hgone).
    - apply Forall_app. split; [done|]. rewrite Forall_forall. intros x Hx. unfold behind in Hx. by apply list_elem_of_filter in Hx as [? _].
    - assert (E : acc = behind r acc) by (unfold behind; symmetry; by apply keep_all). rewrite E, <-behind_app. apply sorted_behind_app. by rewrite <-app_assoc.
    - rewrite E, <-Els. cbn [mbind res_bind]. rewrite <-Els in Hgone. case_bool_decide as Hr.
      + rewrite Hr in Eg. symmetry in Eg. apply app_eq_nil in Eg as [-> ->]. exists [], [ele]. rewrite Hr. split_and!; [done..|constructor].
      + exists (ele :: gone), kept. split_and!; [done|by rewrite Eg|intros _; by apply Hne|]. rewrite ele_all_cons. apply Forall_app. split; [|done]. eapply Forall_impl; [exact Hmax|]. cbn. lia. }
  cbn [collect_vacuum]. rewrite El. cbn [mbind res_bind]. destruct (Z.ltb_spec r (ele_maxLsn ele)) as [Hr|Hr].
  - rewrite collect_node_spec by done. cbn [mbind res_bind]. set (acc1 := take batch _). destruct (Z.eqb_spec (zlen acc1) MAX_REPLAY_VERSION_SIZE) as [E20|E20].
    + assert (Hl1 : ls = acc1).
      { rewrite Els. unfold acc1 in *. unfold zlen in E20. rewrite length_take in E20. rewrite take_app_le by (unfold batch, MAX_REPLAY_VERSION_SIZE in *; lia). done. }
      rewrite Hl1. destruct (bool_decide (last acc1 = Some (ele_maxLsn ele)) && negb (bool_decide (rest = []))) eqn:Ec.
      * apply andb_true_iff in Ec as [Ec1 Ec2]. apply bool_decide_eq_true in Ec1. apply negb_true_iff, bool_decide_eq_false in Ec2. exists [ele], rest. split_and!; [done|done|done|].
        rewrite Ec1. change (ele_all [ele]) with (ele_entries ele ++ []). rewrite app_nil_r. exact Hmax.
      * exists [], (ele :: rest). split_and!; [done..|constructor].
    + assert (Hshort : (length (acc ++ behind r (lsns (ele_entries ele))) < batch)%nat).
      { unfold acc1, zlen in E20. rewrite length_take in E20. unfold batch, MAX_REPLAY_VERSION_SIZE in *. lia. }
      assert (Ea1 : acc1 = acc ++ behind r (lsns (ele_entries ele))) by (unfold acc1; apply take_ge; lia). apply Hnext; [done|rewrite Ea1; unfold zlen, batch in *; lia|].
      apply last_ge; [done|]. destruct (take_batch_app (acc ++ behind r (lsns (ele_entries ele))) (behind r (lsns (ele_all rest))) Hshort) as (l3 & E3 & _). rewrite Els, E3. apply elem_of_app. left. apply elem_of_app. right.
      unfold behind. by apply list_elem_of_filter.
  - assert (Eb : behind r (lsns (ele_entries ele)) = []). { apply behind_none. unfold lsns. rewrite Forall_fmap. eapply Forall_impl; [exact Hmax|]. cbn. lia. }
    apply Hnext; [by rewrite Eb, app_nil_r|done|lia].
Qed.

(** Freeing the first element nodes leaves a good head. *)
Lemma vacuum_wf h gone kept : head_wf h → head_eles h = gone ++ kept → (head_eles h ≠ [] → kept ≠ []) → head_wf (set_versions h (head_entries h) (head_maxLsn h) kept).
Proof.
  intros [Hz Hfull Hel Hs Hmax] E Hne. rewrite E in Hel. apply Forall_app in Hel as [_ Hel]. unfold all_entries in Hs, Hmax. rewrite E, ele_all_app in Hs. constructor; cbn [set_versions head_entries head_maxLsn head_eles]; try done.
  - intros Hk. apply Hfull. rewrite E. by destruct gone.
  - unfold all_entries. cbn [set_versions head_entries head_eles]. apply entries_app in Hs as (H1 & H2 & H3). apply entries_app in H2 as (_ & H2 & _). apply entries_app. split_and!; [done..|].
    intros x y Hx Hy. apply H3; [done|]. apply elem_of_app. by right.
  - unfold all_entries. cbn [set_versions head_entries head_eles]. destruct (decide (head_eles h = [])) as [En|En]; [rewrite En in E, Hmax; symmetry in E; by apply app_eq_nil in E as [_ ->]|].
    specialize (Hne En). rewrite E, ele_all_app in Hmax. rewrite <-Hmax. destruct kept as [|e kept]; [done|]. apply Forall_cons in Hel as [[Hez _] _]. assert (Hk : ele_all (e :: kept) ≠ []) by (rewrite ele_all_cons; intros Hk; apply app_eq_nil in Hk as [Hk _]; rewrite Hk in Hez; destruct Hez as [Hez _]; by destruct (Z.lt_irrefl 0)). by rewrite app_assoc, !last_app_ne.
Qed.

Lemma background_collect h : head_wf h → let r := replayedLsn h in let ls := take batch (behind r (lsns (all_entries h))) in
  ∃ l acc gone kept, last_lsn (head_entries h) = Ok l ∧ (if r <? l then collect_node r (head_entries h) [] else Ok []) = Ok acc ∧ collect_vacuum r (head_eles h) acc = Ok (ls, kept) ∧
    head_eles h = gone ++ kept ∧ Forall (λ e, entry_lsn e ≤ default r (last ls)) (ele_all gone) ∧ head_wf (set_versions h (head_entries h) (head_maxLsn h) kept).
Proof.
  intros Hw r ls. pose proof Hw as [Hz Hfull Hel Hs Hmax]. unfold all_entries in Hs. pose proof Hs as Hs'. apply entries_app in Hs' as (Hs1 & Hs2 & Hlt). destruct (entry_at_last (head_entries h)) as (e & Ee & Ea); [lia|].
  assert (Hlen : (length (behind r (lsns (head_entries h))) < batch)%nat).
  { unfold behind. pose proof (length_filter (λ l, r < l) (lsns (head_entries h))) as Hl. unfold lsns in *. rewrite length_fmap in Hl. unfold zlen, HASH_HEAD_NUM, batch, MAX_REPLAY_VERSION_SIZE in *. lia. }
  assert (Hacc : (if r <? entry_lsn e then collect_node r (head_entries h) [] else Ok []) = Ok (behind r (lsns (head_entries h)))).
  { destruct (Z.ltb_spec r (entry_lsn e)).
    - rewrite collect_node_spec by done. f_equal. apply take_ge. cbn [app]. lia.
    - f_equal. symmetry. apply behind_none. unfold lsns. rewrite Forall_fmap, Forall_forall. intros x Hx. cbn. pose proof (last_max _ (entry_lsn e) x Hs1 ltac:(by rewrite Ee) Hx). lia. }
  assert (Esplit : behind r (lsns (all_entries h)) = behind r (lsns (head_entries h)) ++ behind r (lsns (ele_all (head_eles h)))) by (unfold all_entries, lsns; by rewrite fmap_app, behind_app).
  destruct (collect_vacuum_spec r (head_eles h) (behind r (lsns (head_entries h))) Hel Hs2) as (gone & kept & E & Eg & Hne & Hgone).
  - unfold zlen, batch in *. lia.
  - rewrite Forall_forall. intros x Hx. unfold behind in Hx. by apply list_elem_of_filter in Hx as [? _].
  - apply sorted_behind_app. unfold sorted in Hs. by rewrite fmap_app in Hs.
  - rewrite <-Esplit in E, Hgone. fold ls in E, Hgone. exists (entry_lsn e), (behind r (lsns (head_entries h))), gone, kept. split_and!; try done; [unfold last_lsn; by rewrite Ea|by eapply vacuum_wf].
Qed.
