(* ===== verification/PageServerSpec.v ===== *)
(** * The theorems of the page server

    A request for a page at a position of the log is answered with the page
    after exactly the records up to that position, as long as the positions asked
    for do not go back; an older version is gone. *)

From Stdlib Require Import Sorted.
From S2P Require Import Prelude Mem Page Buffer WalRecord XLogDecode TagList Dispatch KvStore KvSpec VersionMap VersionNode VersionBucket VersionSpec PageServer.

(** ** The promise of a WAL-redo process *)

(** For the page [tag], whose records are at the positions [log], the process
    computes [page_after] any first part of them; from its own copy of the page
    only as long as it has not worked on it. *)
Class RedoPromise (S : Type) `{RedoService S} (tag : BufferTag) (log : list Z) (page_after : list Z → page) : Type := {
  svc_ok : S → Prop;
  svc_fresh : S → Prop;
  promise_page ls rest : log = ls ++ rest → zlen (page_after ls) = BLCKSZ;
  promise_fresh s : svc_fresh s → svc_ok s;
  promise_apply s l1 l2 rest : svc_ok s → log = l1 ++ l2 ++ rest → ∃ s', svc_apply s tag l2 (page_after l1) = Ok (page_after (l1 ++ l2), s') ∧ svc_ok s';
  promise_new s ls rest : svc_fresh s → log = ls ++ rest → ∃ s', svc_apply_new s tag ls = Ok (page_after ls, s') ∧ svc_ok s' }.

(** ** Sorted positions *)

Lemma filter_le_done t ld l2 : ∀ l1, StronglySorted Z.lt (l1 ++ l2) → last l1 = Some ld → ld ≤ t → filter (λ l, l ≤ t) (l1 ++ l2) = l1 ++ filter (λ l, l ≤ t) l2 ∧ between ld t (l1 ++ l2) = filter (λ l, l ≤ t) l2.
Proof.
  intros l1 Hs Hl Ht. unfold between. rewrite !filter_app. apply last_Some in Hl as [l0 ->].
  assert (H1 : Forall (λ x, x ≤ ld) (l0 ++ [ld]) ∧ Forall (λ x, ld < x) l2).
  { clear Ht. induction l0 as [|x l0 IH]; cbn [app] in Hs; apply StronglySorted_inv in Hs as [Hs Hf].
    - split; [apply Forall_singleton; cbn; lia|done].
    - destruct (IH Hs) as [H1 H2]. split; [|done]. constructor; [|done]. rewrite !Forall_app in Hf. destruct Hf as [[_ Hx] _]. apply Forall_cons in Hx as [Hx _]. cbn in *. lia. }
  destruct H1 as [H1 H2]. split.
  - f_equal. apply keep_all. eapply Forall_impl; [exact H1|]. cbn. lia.
  - rewrite (keep_none (λ l, ld < l ≤ t) (l0 ++ [ld])) by (eapply Forall_impl; [exact H1|]; cbn; intros; lia). cbn [app].
    induction H2 as [|x l2 Hx H2 IH]; [done|]. assert (Hs2 : StronglySorted Z.lt ((l0 ++ [ld]) ++ l2)).
    { clear -Hs. induction (l0 ++ [ld]) as [|y l IH]; cbn [app] in *; apply StronglySorted_inv in Hs as [Hs Hf]; [done|]. constructor; [by apply IH|]. rewrite Forall_app in *. destruct Hf as [? Hf]. split; [done|]. by apply Forall_cons in Hf as [_ ?]. }
    specialize (IH Hs2). destruct (decide (x ≤ t)); [rewrite !filter_cons_True by lia; by rewrite IH|by rewrite !filter_cons_False by lia].
Qed.

Lemma between_zero t ls : Forall (λ l, 0 < l) ls → between 0 t ls = filter (λ l, l ≤ t) ls.
Proof. induction 1 as [|x ls Hx _ IH]; [done|]. unfold between in *. destruct (decide (x ≤ t)); [rewrite !filter_cons_True by lia; by rewrite IH|by rewrite !filter_cons_False by lia]. Qed.

Lemma list_last_last {A} (l : list A) : ∀ x, last (x :: l) = Some (List.last l x).
Proof. induction l as [|y l IH]; intros x; [done|]. rewrite last_cons_cons, IH. f_equal. by rewrite last_default. Qed.

Lemma sorted_prefix l1 l2 : StronglySorted Z.lt (l1 ++ l2) → StronglySorted Z.lt l1.
Proof. induction l1 as [|x l1 IH]; intros Hs; [constructor|]. cbn [app] in Hs. apply StronglySorted_inv in Hs as [Hs Hf]. constructor; [by apply IH|]. by apply Forall_app in Hf as [? _]. Qed.

Lemma sorted_suffix l1 l2 : StronglySorted Z.lt (l1 ++ l2) → StronglySorted Z.lt l2.
Proof. induction l1 as [|x l1 IH]; intros Hs; [done|]. cbn [app] in Hs. apply StronglySorted_inv in Hs as [Hs _]. by apply IH. Qed.

Lemma sorted_lt l1 l2 x y : StronglySorted Z.lt (l1 ++ l2) → x ∈ l1 → y ∈ l2 → x < y.
Proof.
  induction l1 as [|z l1 IH]; intros Hs Hx Hy; [by apply elem_of_nil in Hx|]. cbn [app] in Hs. apply StronglySorted_inv in Hs as [Hs Hf].
  apply elem_of_cons in Hx as [->|Hx]; [|by apply IH]. rewrite Forall_forall in Hf. apply Hf, elem_of_app. by right.
Qed.

(** The positions up to [t] are a first part. *)
Lemma filter_le_prefix t ls : StronglySorted Z.lt ls → ∃ rest, ls = filter (λ l, l ≤ t) ls ++ rest.
Proof.
  induction 1 as [|x ls Hs [rest IH] Hf]; [by exists []|]. destruct (decide (x ≤ t)).
  - exists rest. rewrite filter_cons_True by done. cbn [app]. by rewrite <-IH.
  - exists (x :: ls). rewrite filter_cons_False by done. rewrite keep_none; [done|]. eapply Forall_impl; [exact Hf|]. cbn. lia.
Qed.

Lemma head_hd (l : list Z) x : head l = Some x → hd 0 l = x.
Proof. destruct l; [done|]. by intros [= ->]. Qed.

Lemma filter_first (ls : list Z) n t : (0 < n ≤ length ls)%nat → hd 0 ls ≤ t → filter (λ l, l ≤ t) (take n ls) ≠ [].
Proof. intros Hn Ht. destruct ls as [|l ls], n as [|n]; [cbn in Hn; lia..|]. cbn [take]. by rewrite filter_cons_True. Qed.

(** The key under which a record is entered for a page is the one of requests for
    the page, when its number is not taken for a negative one. *)
Definition tag_key (t : BufferTag) : KeyType := mkKey (spcNode (rnode t)) (dbNode (rnode t)) (relNode (rnode t)) (forkNum t mod 2 ^ 32) (blockNum t).

Lemma fork_inj f1 f2 : - 2 ^ 31 ≤ f1 < 2 ^ 31 → - 2 ^ 31 ≤ f2 < 2 ^ 31 → f1 mod 2 ^ 32 = f2 mod 2 ^ 32 → f1 = f2.
Proof.
  intros H1 H2 E. assert (Hf : ∀ f, - 2 ^ 31 ≤ f < 2 ^ 31 → f mod 2 ^ 32 = if decide (f < 0) then f + 2 ^ 32 else f).
  { intros f Hf. case_decide; [|by rewrite Z.mod_small by lia]. rewrite <-(Z.mod_small (f + 2 ^ 32) (2 ^ 32)) by lia. replace (f + 2 ^ 32) with (f + 1 * 2 ^ 32) by lia. by rewrite Z.mod_add by lia. }
  rewrite !Hf in E by lia. repeat case_decide; lia.
Qed.

Lemma tag_key_request rn forknum blknum t : tag_fits t → tag_fits (request_tag rn forknum blknum) → 0 ≤ blknum < 2 ^ 31 → tag_key t = request_key rn forknum blknum ↔ t = request_tag rn forknum blknum.
Proof.
  intros [H1 H2 H3 H4 H5] [G1 G2 G3 G4 G5] Hb. unfold request_tag, INIT_BUFFERTAG in *. rewrite Z.mod_small in * by lia. cbn in G4. unfold tag_key, request_key. split; [|by intros ->].
  intros [= E1 E2 E3 E4 E5]. apply fork_inj in E4; [|lia..]. destruct t as [[] ? ?], rn. cbn in *. by subst.
Qed.

(** A block from 2147483648 on has another key in requests than in the map. *)
Lemma large_block_key rn forknum blk : 2 ^ 31 ≤ blk < 2 ^ 32 → tag_key (mkTag rn forknum blk) ≠ request_key rn forknum (to_int blk).
Proof. intros Hb E. injection E as E. unfold to_int in E. rewrite Z.mod_small, (proj2 (Z.ltb_ge _ _)) in E by lia. lia. Qed.

Section page.
Context {DB S : Type} `{RocksDBLaws DB} `{!Reliable DB} {redo_service : RedoService S}.
Context (rn : RelFileNode) (forknum blknum : Z) (log : list Z) (page_after : list Z → page).
Local Abbreviation key := (request_key rn forknum blknum).
Local Abbreviation tag := (request_tag rn forknum blknum).
Context {redo_promise : RedoPromise S tag log page_after}.

(** The page between requests: [logged] are the positions recorded so far,
[redone] those up to the version that is stored; no other version is.  The map
has the positions not replayed yet, and some of the others, the first among
them. *)
Record page_inv (s : server DB S) (logged redone : list Z) : Prop := {
pi_tag : tag_fits tag;
pi_log : ∃ future, log = logged ++ future;
pi_sorted : StronglySorted Z.lt log;
pi_fits : Forall (λ l, 0 < l < 2 ^ 64) log;
pi_map : ∃ todo kept v p, logged = redone ++ todo ∧ vm_rel (s_map s) v ∧ v !! key = Some p ∧ lsns (v_entries p) = kept ++ todo ∧ Forall (λ l, l ∈ redone) kept ∧
head (lsns (v_entries p)) = head log ∧ v_replayed p = default 0 (last redone) ∧ v_locked p = false;
pi_kv : ∃ vv, holds_versions (s_kv s) vv ∧ (∀ t l c, v_pages vv !! (t, l) = Some c → zlen c = BLCKSZ) ∧
(∀ l, v_pages vv !! (tag, l) = if decide (last redone = Some l) then Some (page_after redone) else None);
pi_svc : svc_ok (s_svc s) ∧ (redone = [] → svc_fresh (s_svc s)) }.

Lemma get_page_spec kv vv l : holds_versions kv vv → (∀ t l c, v_pages vv !! (t, l) = Some c → zlen c = BLCKSZ) → tag_fits tag → lsn_fits l →
∃ d, contents d = contents (db kv) ∧ GetPageFromRocksdb kv tag l = Ok (mkKv true d, v_pages vv !! (tag, l)).
Proof using All.
intros Hh Hw Ht Hl. unfold GetPageFromRocksdb. destruct (KvGet_spec kv (ROCKSDB_PAGE_VERSION_KEY tag l)) as (d & -> & Hd). exists d. split; [done|]. cbn [mbind res_bind].
pose proof (Hh (ItPage tag l) (conj Ht Hl)) as E. cbn [key_of value_of] in E. rewrite E. destruct (v_pages vv !! (tag, l)) as [c|] eqn:Ec; [|done].
pose proof (Hw _ _ _ Ec) as Hc. cbn [from_option id Z.eqb negb]. by rewrite Hc.
Qed.

Lemma get_list_step m v t p : vm_rel m v → v !! key = Some p → v_locked p = false → ∃ m', HashMapGetBlockReplayList m key t = Ok (m', replay_spec (v_entries p) (v_replayed p) t) ∧
vm_rel m' (<[key := mkVpage (v_entries p) (v_replayed p) (match replay_spec (v_entries p) (v_replayed p) t with Some (_, _ :: _) => true | _ => false end)]> v).
Proof using.
intros Hr Hp Hl. pose proof (get_list_agrees m v key t Hr) as Ha. cbn [vm_exec a_exec] in Ha. rewrite Hp, Hl in Ha. unfold agree in Ha. destruct (HashMapGetBlockReplayList m key t) as [[m' r]|]; [|done].
cbn [mbind res_bind] in Ha. destruct Ha as [[= ->] Ha]. by exists m'.
Qed.

Lemma replayed_step m v l p : vm_rel m v → v !! key = Some p → v_replayed p ≤ l → ∃ m' b, HashMapUpdateReplayedLsn m key l true = Ok (m', b) ∧ vm_rel m' (<[key := mkVpage (v_entries p) l false]> v).
Proof using.
intros Hr Hp Hl. pose proof (replayed_agrees m v key l true Hr) as Ha. cbn [vm_exec a_exec] in Ha. rewrite Hp in Ha. cbn [negb andb] in Ha. unfold agree in Ha. destruct (HashMapUpdateReplayedLsn m key l true) as [[m' r]|]; [|done].
cbn [mbind res_bind] in Ha. destruct Ha as [_ Ha]. rewrite Z.max_r in Ha by done. by exists m', r.
Qed.

(** The positions replayed are not beyond the last one. *)
Lemma redone_le redone rest l : StronglySorted Z.lt log → log = redone ++ rest → l ∈ redone → l ≤ default 0 (last redone).
Proof using.
intros Hs E Hl. rewrite E in Hs. apply sorted_prefix in Hs. destruct (last redone) as [ld|] eqn:El; [|apply last_None in El as ->; by apply elem_of_nil in Hl].
pose proof (last_in_sorted redone ld Hs El) as Hf. rewrite Forall_forall in Hf. by apply Hf.
Qed.

(** What is still to be done for a request at [t]: the positions [new]. *)
Lemma redo_split s logged redone t todo kept : page_inv s logged redone → default 0 (last redone) ≤ t → logged = redone ++ todo → Forall (λ l, l ∈ redone) kept →
let want := filter (λ l, l ≤ t) logged in
∃ new todo', todo = new ++ todo' ∧ want = redone ++ new ∧ between (default 0 (last redone)) t (kept ++ todo) = new.
Proof using.
intros [_ [future Hlog] Hs Hf _ _ _] Ht Htodo Hk want.
assert (Hsl : StronglySorted Z.lt logged) by (rewrite Hlog in Hs; by eapply sorted_prefix).
destruct (filter_le_prefix t todo) as [todo' Hnew]; [rewrite Htodo in Hsl; by eapply sorted_suffix|]. exists (filter (λ l, l ≤ t) todo), todo'. split; [done|].
assert (Hkept : between (default 0 (last redone)) t kept = []).
{ apply between_none. eapply Forall_impl; [exact Hk|]. cbn. intros l Hl. pose proof (redone_le redone (todo ++ future) l Hs ltac:(by rewrite Hlog, Htodo, <-app_assoc) Hl). lia. }
rewrite between_app, Hkept. cbn [app]. unfold want. destruct (last redone) as [ld|] eqn:El; cbn [from_option id] in *.
- rewrite Htodo in Hsl |- *. destruct (filter_le_done t ld todo redone Hsl El Ht) as [E1 E2]. split; [done|]. rewrite between_app in E2. rewrite <-E2. symmetry.
rewrite (between_none ld t redone); [done|]. rewrite Forall_forall. intros x Hx. pose proof (last_in_sorted redone ld (sorted_prefix _ _ Hsl) El) as Hle. rewrite Forall_forall in Hle. specialize (Hle x Hx). cbn in Hle. lia.
- apply last_None in El as ->. cbn [app] in Htodo. subst todo. split; [done|]. apply between_zero. rewrite Hlog in Hf. apply Forall_app in Hf as [Hf _]. eapply Forall_impl; [exact Hf|]. cbn. lia.
Qed.

Lemma log_fits ls rest l : Forall (λ l, 0 < l < 2 ^ 64) log → log = ls ++ rest → l ∈ ls → lsn_fits l.
Proof using All. intros Hf E Hl. rewrite E in Hf. rewrite Forall_forall in Hf. specialize (Hf l ltac:(apply elem_of_app; by left)). unfold lsn_fits. lia. Qed.

(** The version the next records apply to. *)
Lemma base_step s logged redone new rest vv : page_inv s logged redone → log = redone ++ new ++ rest → holds_versions (s_kv s) vv → (∀ t l c, v_pages vv !! (t, l) = Some c → zlen c = BLCKSZ) →
(∀ l, v_pages vv !! (tag, l) = if decide (last redone = Some l) then Some (page_after redone) else None) →
∃ kv svc, holds_versions kv vv ∧ svc_ok svc ∧
(if 0 <? default 0 (last redone) then
'(kv, basePage) ← GetPageFromRocksdb (s_kv s) tag (default 0 (last redone)); base ← assign basePage; '(page2, svc) ← svc_apply (s_svc s) tag new base; Ok (kv, page2, svc)
else '(page2, svc) ← svc_apply_new (s_svc s) tag new; Ok (s_kv s, page2, svc)) = Ok (kv, page_after (redone ++ new), svc).
Proof using All.
intros [Htag _ _ Hf _ _ [Hok Hfresh]] Hlog Hh Hw Hv. destruct (last redone) as [ld|] eqn:El; cbn [from_option id].
- assert (Hin : ld ∈ redone) by (by apply last_elem). pose proof (log_fits redone _ ld Hf Hlog Hin) as Hld.
rewrite Forall_forall in Hf. specialize (Hf ld ltac:(rewrite Hlog; apply elem_of_app; by left)). rewrite (proj2 (Z.ltb_lt _ _)) by lia.
destruct (get_page_spec (s_kv s) vv ld Hh Hw Htag Hld) as (d & Hd & ->). cbn [mbind res_bind]. rewrite Hv, decide_True by done. cbn [assign mbind res_bind].
destruct (promise_apply (s_svc s) redone new rest Hok Hlog) as (svc & -> & Hs'). cbn [mbind res_bind]. eexists _, svc. split_and!; [|done|reflexivity]. by eapply holds_contents.
- apply last_None in El as ->. cbn [app] in *. destruct (promise_new (s_svc s) new rest (Hfresh eq_refl) Hlog) as (svc & -> & Hs'). exists (s_kv s), svc. split_and!; done.
Qed.

(** Dropping the old version. *)
Definition dropped (g : bool) (vv : versions) (old : option Z) : versions := match old with Some l => v_exec vv (OpDeletePage g tag l) | None => vv end.

Lemma drop_step g kv vv old : holds_versions kv vv → tag_fits tag → (∀ l, old = Some l → lsn_fits l ∧ l ≠ 0) →
∃ kv', (if negb (default 0 old =? 0) then DeletePageFromRocksdb g kv tag (default 0 old) else Ok kv) = Ok kv' ∧ holds_versions kv' (dropped g vv old).
Proof using All.
intros Hh Ht Hold. destruct old as [l|]; cbn [from_option id dropped].
- destruct (Hold l eq_refl) as [Hf Hne]. rewrite (proj2 (Z.eqb_neq _ _)) by done. cbn [negb]. by apply kv_delete_refines.
- by exists kv.
Qed.

(** The store after a request that replayed the records to [l]. *)
Lemma stored_pages g vv old l c : (∀ l' c, v_pages vv !! (tag, l') = Some c → old = Some l') → (∀ t l c, v_pages vv !! (t, l) = Some c → zlen c = BLCKSZ) → zlen c = BLCKSZ → old ≠ Some l →
let vv' := dropped g (v_exec vv (OpPutPage tag l c)) old in
(∀ t l c, v_pages vv' !! (t, l) = Some c → zlen c = BLCKSZ) ∧ (∀ l', v_pages vv' !! (tag, l') = if decide (Some l = Some l') then Some c else None).
Proof using.
intros Hone Hw Hc Hne vv'. unfold vv', dropped. split.
- intros t l1 c1. destruct old as [lo|]; cbn [v_exec v_pages].
+ rewrite lookup_delete_Some. intros [_ E]. apply lookup_insert_Some in E as [[[= <- <-] <-]|[_ E]]; [done|by eapply Hw].
+ intros E. apply lookup_insert_Some in E as [[[= <- <-] <-]|[_ E]]; [done|by eapply Hw].
- intros l'. destruct (decide (Some l = Some l')) as [[= <-]|Hl]; destruct old as [lo|]; cbn [v_exec v_pages].
+ rewrite lookup_delete_ne by congruence. by rewrite lookup_insert_eq.
+ by rewrite lookup_insert_eq.
+ destruct (decide (lo = l')) as [->|Hlo]; [by rewrite lookup_delete_eq|]. rewrite lookup_delete_ne, lookup_insert_ne by congruence. destruct (v_pages vv !! (tag, l')) eqn:E; [|done]. apply Hone in E. congruence.
+ rewrite lookup_insert_ne by congruence. destruct (v_pages vv !! (tag, l')) eqn:E; [|done]. by apply Hone in E.
Qed.

(** What is in the store after the records [new] were replayed. *)
Lemma store_step g s logged redone new rest kv1 vv l : page_inv s logged redone → log = redone ++ new ++ rest → holds_versions kv1 vv → (∀ t l c, v_pages vv !! (t, l) = Some c → zlen c = BLCKSZ) →
(∀ l, v_pages vv !! (tag, l) = if decide (last redone = Some l) then Some (page_after redone) else None) → last new = Some l →
∃ kv2 kv3 vv', PutPage2Rocksdb kv1 tag l (page_after (redone ++ new)) = Ok kv2 ∧
(if negb (default 0 (last redone) =? 0) then DeletePageFromRocksdb g kv2 tag (default 0 (last redone)) else Ok kv2) = Ok kv3 ∧
holds_versions kv3 vv' ∧ (∀ t l c, v_pages vv' !! (t, l) = Some c → zlen c = BLCKSZ) ∧
(∀ l', v_pages vv' !! (tag, l') = if decide (last (redone ++ new) = Some l') then Some (page_after (redone ++ new)) else None).
Proof using All.
intros [Htag _ Hs Hf _ _ _] Hlog Hh Hpw Hpv El. assert (Hl : l ∈ redone ++ new) by (apply elem_of_app; right; by apply last_elem). rewrite app_assoc in Hlog.
assert (Hc : zlen (page_after (redone ++ new)) = BLCKSZ) by (by eapply promise_page). assert (Hlast : last (redone ++ new) = Some l) by (by rewrite last_app, El).
destruct (put_page_refines kv1 vv tag l (page_after (redone ++ new)) Hh Htag (log_fits _ _ _ Hf Hlog Hl) Hc) as (kv2 & E2 & Hh2).
destruct (drop_step g kv2 _ (last redone) Hh2 Htag) as (kv3 & E3 & Hh3).
{ intros x Ex. apply last_elem in Ex. assert (Hx : x ∈ redone ++ new) by (apply elem_of_app; by left). split; [by apply (log_fits _ _ _ Hf Hlog)|].
rewrite Hlog, Forall_app, Forall_forall in Hf. destruct Hf as [Hf _]. specialize (Hf x Hx). lia. }
exists kv2, kv3, (dropped g (v_exec vv (OpPutPage tag l (page_after (redone ++ new)))) (last redone)). do 3 (split; [done|]). rewrite Hlast. apply stored_pages.
- intros l' c' E. rewrite Hpv in E. by destruct (decide _).
- done.
- done.
- intros E. apply last_elem in E, El. rewrite Hlog in Hs. apply sorted_prefix in Hs. pose proof (sorted_lt _ _ _ _ Hs E El). lia.
Qed.

Lemma read_step g s logged redone t : page_inv s logged redone → default 0 (last redone) ≤ t →
let want := filter (λ l, l ≤ t) logged in
want ≠ [] → ∃ s', ReadBufferCommon g s rn forknum blknum t = Ok (page_after want, s') ∧ page_inv s' logged want.
Proof using All.
intros Hinv Ht want Hne. pose proof Hinv as [Htag [future Hfut] Hs Hf (todo & kept & v & p & Htodo & Hr & Hp & Hes & Hk & Hhd & Hrp & Hlk) (vv & Hh & Hpw & Hpv) Hsvc].
destruct (redo_split s logged redone t todo kept Hinv Ht Htodo Hk) as (new & todo' & Enew & Hw & Hb). fold want in Hw.
assert (Hlog : log = redone ++ new ++ todo' ++ future) by (by rewrite Hfut, Htodo, Enew, <-!app_assoc).
destruct (get_list_step (s_map s) v t p Hr Hp Hlk) as (m1 & Em & Hr1).
assert (Espec : replay_spec (v_entries p) (v_replayed p) t = Some (default 0 (last redone), new)) by (unfold replay_spec; rewrite Hrp, decide_True by done; by rewrite Hes, Hb).
rewrite Espec in Em, Hr1. unfold ReadBufferCommon. rewrite Em. cbn [mbind res_bind]. destruct new as [|n0 ns].
- rewrite app_nil_r in Hw. destruct (last redone) as [ld|] eqn:El; [|apply last_None in El; congruence]. cbn [from_option id] in *.
assert (Hld : lsn_fits ld) by (apply (log_fits redone _ ld Hf Hlog); by apply last_elem).
destruct (get_page_spec (s_kv s) vv ld Hh Hpw Htag Hld) as (d & Hd & ->). cbn [mbind res_bind]. rewrite Hpv, decide_True by done. cbn [assign mbind res_bind].
eexists. split; [by rewrite Hw|]. rewrite Hw. constructor; try done; [by exists future| |].
+ exists todo, kept, (<[key := mkVpage (v_entries p) (v_replayed p) false]> v). eexists. cbn [s_map]. rewrite lookup_insert_eq, El. split_and!; done.
+ exists vv. cbn [s_kv]. rewrite El. split_and!; [by eapply holds_contents|done|done].
- set (new := n0 :: ns) in *. set (lastl := List.last ns n0). assert (El : last new = Some lastl) by apply list_last_last.
destruct (base_step s logged redone new (todo' ++ future) vv Hinv Hlog Hh Hpw Hpv) as (kv1 & svc & Hh1 & Hok & ->). cbn [mbind res_bind].
destruct (store_step g s logged redone new (todo' ++ future) kv1 vv lastl Hinv Hlog Hh1 Hpw Hpv El) as (kv2 & kv3 & vv' & E2 & E3 & Hh3 & Hpw' & Hpv'). rewrite E2. cbn [mbind res_bind].
assert (Hlt : default 0 (last redone) < lastl) by (apply last_elem in El; rewrite <-Hb in El; unfold between in El; apply list_elem_of_filter in El; lia).
destruct (replayed_step m1 (<[key := mkVpage (v_entries p) (v_replayed p) true]> v) lastl (mkVpage (v_entries p) (v_replayed p) true)) as (m2 & b & -> & Hr2); [exact Hr1|by rewrite lookup_insert_eq|cbn; rewrite Hrp; lia|].
cbn [mbind res_bind]. rewrite E3. cbn [mbind res_bind]. eexists. split; [by rewrite Hw|]. rewrite Hw. constructor; try done; [by exists future| | |].
+ exists todo', (kept ++ new). eexists _, (mkVpage (v_entries p) lastl false). cbn [s_map]. rewrite Htodo, Enew, last_app, El. split; [by rewrite <-app_assoc|]. split; [exact Hr2|]. rewrite lookup_insert_eq. cbn [v_entries v_replayed v_locked].
split_and!; [done|by rewrite Hes, Enew, <-app_assoc| |done..]. apply Forall_app. split; [eapply Forall_impl; [exact Hk|]; cbn; intros x Hx; apply elem_of_app; by left|]. rewrite Forall_forall. intros x Hx. apply elem_of_app. by right.
+ exists vv'. cbn [s_kv]. split_and!; done.
+ cbn [s_svc]. split; [done|]. by destruct redone.
Qed.

(** C5: a page is read as of a position.  Let the records recorded for the page be
at the positions [logged], of which those in [redone] have been replayed.  A
request at a position that is not before the last replayed one, and not before
all recorded ones, is answered with the page after exactly the records up to
that position; the records in between, and no others, are given to the
WAL-redo process, the version is stored in place of the old one, the lock of
the page is free again, and the next request may follow.  Requests before the last
replayed position, or before all recorded ones, are the subject of
[gone_step] and [before_first_step]. *)
Theorem read_at_position g s logged redone t : page_inv s logged redone → default 0 (last redone) ≤ t →
let want := filter (λ l, l ≤ t) logged in
want ≠ [] → ∃ s', ReadBufferCommon g s rn forknum blknum t = Ok (page_after want, s') ∧ page_inv s' logged want.
Proof using All. apply read_step. Qed.

(** ** Records *)

(** A record of the page is recorded: the next position of the log. *)
Lemma insert_step s logged redone l future : page_inv s logged redone → log = logged ++ l :: future →
∃ m b, HashMapInsertKey (s_map s) key l 0 true = Ok (m, b) ∧ page_inv (mkServer m (s_kv s) (s_svc s)) (logged ++ [l]) redone.
Proof using All.
intros Hinv Hlog. pose proof Hinv as [Htag Hpre Hs Hf (todo & kept & v & p & Htodo & Hr & Hp & Hes & Hk & Hhd & Hrp & Hlk) Hkv Hsvc].
assert (Hl0 : 0 < l). { rewrite Hlog in Hf. apply Forall_app in Hf as [_ Hf]. apply Forall_cons in Hf as [Hl _]. lia. }
pose proof (insert_agrees (s_map s) v key l 0 true Hr Hl0) as Ha. cbn [vm_exec a_exec] in Ha. rewrite Hp, Hlk in Ha. destruct (add_spec (v_entries p) l 0) as [es r] eqn:Ea. unfold agree in Ha.
destruct (HashMapInsertKey (s_map s) key l 0 true) as [[m b]|]; [|done]. cbn [mbind res_bind] in Ha. destruct Ha as [_ Ha]. exists m, b. split; [done|].
assert (Hlt : ∀ x, x ∈ kept ++ todo → x < l).
{ intros x Hx. assert (Hx' : x ∈ logged) by (rewrite Htodo; rewrite elem_of_app in *; destruct Hx as [Hx|Hx]; [left; rewrite Forall_forall in Hk; by apply Hk|by right]).
rewrite Hlog in Hs. apply (sorted_lt _ _ _ _ Hs Hx'). by left. }
assert (Hes' : lsns es = (kept ++ todo) ++ [l]).
{ unfold add_spec in Ea. destruct (last (v_entries p)) as [e|] eqn:El.
- assert (entry_lsn e < l) by (apply Hlt; rewrite <-Hes; unfold lsns; apply list_elem_of_fmap_2; by apply last_elem).
rewrite (proj2 (Z.ltb_ge _ _)), (proj2 (Z.eqb_neq _ _)) in Ea by lia. injection Ea as <- _. unfold lsns in *. by rewrite fmap_app, Hes.
- apply last_None in El. rewrite El in Hes. injection Ea as <- _. rewrite <-Hes. reflexivity. }
constructor; try done.
- exists future. by rewrite <-app_assoc.
- exists (todo ++ [l]), kept. eexists _, (mkVpage es (v_replayed p) false). cbn [s_map]. split; [by rewrite app_assoc, <-Htodo|]. split; [exact Ha|]. rewrite lookup_insert_eq. split_and!; try done; cbn [v_entries].
+ by rewrite Hes', <-app_assoc.
+ rewrite Hes', <-Hes. rewrite <-Hhd. rewrite Hes. destruct (kept ++ todo); [|done]. cbn in Hes. rewrite Hes in Hhd. cbn in Hhd. rewrite Hlog in Hhd. by destruct logged.
Qed.

(** A page without records: the map has no head for it and no version of it is
stored. *)
Record page_fresh (s : server DB S) : Prop := {
pf_tag : tag_fits tag;
pf_sorted : StronglySorted Z.lt log;
pf_fits : Forall (λ l, 0 < l < 2 ^ 64) log;
pf_map : ∃ v, vm_rel (s_map s) v ∧ v !! key = None;
pf_kv : ∃ vv, holds_versions (s_kv s) vv ∧ (∀ t l c, v_pages vv !! (t, l) = Some c → zlen c = BLCKSZ) ∧ ∀ l, v_pages vv !! (tag, l) = None;
pf_svc : svc_fresh (s_svc s) }.

(** The page at any time: without records, or with its head in the map. *)
Definition page_known (s : server DB S) (logged redone : list Z) : Prop := (logged = [] ∧ redone = [] ∧ page_fresh s) ∨ page_inv s logged redone.

Lemma known_tag s logged redone : page_known s logged redone → tag_fits tag.
Proof using. by intros [(_ & _ & [])|[]]. Qed.
Lemma known_map s logged redone : page_known s logged redone → ∃ v, vm_rel (s_map s) v.
Proof using. intros [(_ & _ & [_ _ _ (v & ? & _) _ _])|[_ _ _ _ (? & ? & v & ? & _ & ? & _) _ _]]; by exists v. Qed.

(** A server that has just started. *)
Lemma start_fresh m kv svc : vm_rel m ∅ → contents (db kv) = ∅ → svc_fresh svc → tag_fits tag → StronglySorted Z.lt log → Forall (λ l, 0 < l < 2 ^ 64) log → page_fresh (mkServer m kv svc).
Proof using.
intros Hr Hkv Hfr Ht Hs Hf. constructor; try done; [by exists ∅|]. exists no_versions. cbn [s_kv]. split_and!; [|done|done]. intros i _. rewrite Hkv, lookup_empty. by destruct i.
Qed.

(** The first record of a page. *)
Lemma first_record s l future : page_fresh s → log = l :: future →
∃ m b, HashMapInsertKey (s_map s) key l 0 true = Ok (m, b) ∧ page_inv (mkServer m (s_kv s) (s_svc s)) [l] [].
Proof using All.
intros [Ht Hs Hf (v & Hr & Hn) Hkv Hfr] Hlog. assert (Hl0 : 0 < l) by (rewrite Hlog in Hf; apply Forall_cons in Hf as [Hl _]; lia).
pose proof (insert_agrees (s_map s) v key l 0 true Hr Hl0) as Ha. cbn [vm_exec a_exec] in Ha. rewrite Hn in Ha. unfold agree in Ha. destruct (HashMapInsertKey (s_map s) key l 0 true) as [[m b]|]; [|done]. cbn [mbind res_bind] in Ha. destruct Ha as [_ Ha].
exists m, b. split; [done|]. assert (Ef : first_entries key l 0 true = [mkEntry l (Some 0)]) by (unfold first_entries; by rewrite andb_false_r). rewrite Ef in Ha. constructor; try done.
- by exists future.
- exists [l], []. eexists _, (mkVpage [mkEntry l (Some 0)] 0 false). cbn [s_map]. split; [done|]. split; [exact Ha|]. rewrite lookup_insert_eq, Hlog. split_and!; done.
- cbn [s_svc]. split; [by apply promise_fresh|done].
Qed.

(** The next record of a page, the first one included. *)
Lemma known_insert s logged redone l future : page_known s logged redone → log = logged ++ l :: future →
∃ m b, HashMapInsertKey (s_map s) key l 0 true = Ok (m, b) ∧ page_inv (mkServer m (s_kv s) (s_svc s)) (logged ++ [l]) redone.
Proof using All. intros [(-> & -> & Hfr)|Hinv] Hlog; [by eapply first_record|by eapply insert_step]. Qed.

(** ** A record and all its pages *)

(** No request is under way. *)
Definition unlocked (s : server DB S) : Prop := ∀ k p, view (s_map s) k = Some p → v_locked p = false.

Lemma insert_any s v k l : vm_rel (s_map s) v → unlocked s → 0 < l →
∃ m b p, HashMapInsertKey (s_map s) k l 0 true = Ok (m, b) ∧ vm_rel m (<[k := p]> v) ∧ unlocked (mkServer m (s_kv s) (s_svc s)) ∧ ∀ q, v !! k = Some q → p = mkVpage (add_spec (v_entries q) l 0).1 (v_replayed q) false.
Proof using.
intros Hr Hu Hl. pose proof (insert_agrees (s_map s) v k l 0 true Hr Hl) as Ha. cbn [vm_exec a_exec] in Ha. unfold agree in Ha. destruct (HashMapInsertKey (s_map s) k l 0 true) as [[m b]|]; cbn [mbind res_bind] in Ha.
- assert (Hun : ∀ p, v_locked p = false → vm_rel m (<[k := p]> v) → unlocked (mkServer m (s_kv s) (s_svc s))).
{ intros p Hp [_ Hm] k' p'. cbn [s_map]. rewrite Hm, lookup_insert_Some. intros [[_ <-]|[_ Hk]]; [done|]. destruct Hr as [_ Hv]. apply (Hu k'). by rewrite Hv. }
destruct (v !! k) as [q|] eqn:Ek.
+ destruct (v_locked q); [done|]. destruct (add_spec (v_entries q) l 0) as [es r] eqn:Ea. destruct Ha as [_ Ha]. exists m, b. eexists. split_and!; [done|exact Ha|by eapply Hun; [|exact Ha]|]. intros q' [= <-]. by rewrite Ea.
+ destruct Ha as [_ Ha]. exists m, b. eexists. split_and!; [done|exact Ha|by eapply Hun; [|exact Ha]|done].
- destruct (v !! k) as [q|] eqn:Ek; [|done]. destruct Hr as [_ Hv]. rewrite <-Hv in Ek. rewrite (Hu k q Ek) in Ha. by destruct (add_spec (v_entries q) l 0).
Qed.

(** A position recorded for another page. *)
Lemma other_step s logged redone k l : page_known s logged redone → unlocked s → k ≠ key → 0 < l →
∃ m b, HashMapInsertKey (s_map s) k l 0 true = Ok (m, b) ∧ page_known (mkServer m (s_kv s) (s_svc s)) logged redone ∧ unlocked (mkServer m (s_kv s) (s_svc s)).
Proof using All.
intros Hkn Hu Hk Hl. destruct Hkn as [(-> & -> & [Ht Hs Hf (v & Hr & Hn) Hkv Hfr])|[Htag Hpre Hs Hf (todo & kept & v & p & Htodo & Hr & Hp & Hrest) Hkv Hsvc]];
destruct (insert_any s v k l Hr Hu Hl) as (m & b & p' & -> & Hr' & Hu' & _); exists m, b; (split_and!; [done| |done]).
- left. split_and!; try done. constructor; try done. exists (<[k := p']> v). split; [done|]. by rewrite lookup_insert_ne.
- right. constructor; try done. exists todo, kept, (<[k := p']> v), p. split_and!; try done; try tauto. by rewrite lookup_insert_ne.
Qed.

(** A position that is recorded again changes nothing. *)
Lemma again_step s logged redone l : page_inv s (logged ++ [l]) redone → unlocked s → last redone ≠ Some l →
∃ m b, HashMapInsertKey (s_map s) key l 0 true = Ok (m, b) ∧ page_inv (mkServer m (s_kv s) (s_svc s)) (logged ++ [l]) redone ∧ unlocked (mkServer m (s_kv s) (s_svc s)).
Proof using All.
intros [Htag Hpre Hs Hf (todo & kept & v & p & Htodo & Hr & Hp & Hes & Hk & Hhd & Hrp & Hlk) Hkv Hsvc] Hu Hne.
assert (Hl : last todo = Some l).
{ assert (E : last (redone ++ todo) = Some l) by (by rewrite <-Htodo, last_snoc). rewrite last_app in E. by destruct (last todo). }
assert (Hl0 : 0 < l). { destruct Hpre as [future Hlog]. rewrite Hlog, !Forall_app in Hf. destruct Hf as [[_ Hf] _]. apply Forall_cons in Hf as [Hf _]. lia. }
destruct (insert_any s v key l Hr Hu Hl0) as (m & b & p' & -> & Hr' & Hu' & Hp'). specialize (Hp' p Hp). exists m, b. split_and!; [done| |done].
assert (Ees : lsns (add_spec (v_entries p) l 0).1 = lsns (v_entries p)).
{ assert (Ela : entry_lsn <$> last (v_entries p) = Some l) by (rewrite <-fmap_last; fold (lsns (v_entries p)); by rewrite Hes, last_app, Hl).
unfold add_spec. destruct (last (v_entries p)) as [e|] eqn:Ee; [|done]. injection Ela as Ela. rewrite Ela, Z.ltb_irrefl, Z.eqb_refl. cbn [fst].
apply last_Some in Ee as [es ->]. rewrite length_app. cbn [length]. rewrite Nat.add_sub, take_app_length. unfold lsns. rewrite !fmap_app. cbn. by rewrite Ela. }
constructor; try done. exists todo, kept, (<[key := p']> v), p'. rewrite lookup_insert_eq, Hp'. cbn [v_entries v_replayed v_locked s_map]. rewrite Ees. split_and!; try done. by rewrite <-Hp'.
Qed.

(** The positions of a record are entered for all its pages. *)
Lemma log_positions_other tags : ∀ s logged redone l, page_known s logged redone → unlocked s → 0 < l → 0 ≤ blknum < 2 ^ 31 → Forall tag_fits tags →
(tag ∈ tags → ∃ logged0, logged = logged0 ++ [l] ∧ last redone ≠ Some l) → ∃ s', log_positions s l tags = Ok s' ∧ unlocked s' ∧ page_known s' logged redone.
Proof using All.
induction tags as [|t tags IH]; intros s logged redone l Hinv Hu Hl Hb Hf Hin; [by exists s|]. apply Forall_cons in Hf as [Hft Hf]. cbn [log_positions]. unfold log_position. fold (tag_key t). pose proof (known_tag _ _ _ Hinv) as Htag.
assert (Hstep : ∃ m b, HashMapInsertKey (s_map s) (tag_key t) l 0 true = Ok (m, b) ∧ page_known (mkServer m (s_kv s) (s_svc s)) logged redone ∧ unlocked (mkServer m (s_kv s) (s_svc s))).
{ destruct (decide (t = tag)) as [->|Hne].
- destruct Hin as (logged0 & -> & Hne); [by left|]. rewrite (proj2 (tag_key_request rn forknum blknum tag Htag Htag Hb)) by done. destruct Hinv as [(E & _)|Hinv]; [by destruct logged0|].
destruct (again_step s logged0 redone l Hinv Hu Hne) as (m & b & ? & ? & ?). exists m, b. split_and!; [done|by right|done].
- apply other_step; try done. intros E. by apply (tag_key_request rn forknum blknum t Hft Htag Hb) in E. }
destruct Hstep as (m & b & -> & Hinv' & Hu'). cbn [mbind res_bind]. apply IH; try done. intros Hi. apply Hin. by right.
Qed.

(** Positions replayed were recorded before. *)
Lemma next_not_redone s logged redone l future : page_known s logged redone → log = logged ++ l :: future → last redone ≠ Some l.
Proof using.
intros [(_ & -> & _)|[_ _ Hs _ (todo & _ & _ & _ & Htodo & _) _ _]] Hlog; [done|]. intros Hla. apply last_elem in Hla. rewrite Hlog in Hs.
assert (Hx : l ∈ logged) by (rewrite Htodo; apply elem_of_app; by left). pose proof (sorted_lt _ (l :: future) _ l Hs Hx ltac:(by left)). lia.
Qed.

Lemma log_positions_step tags : ∀ s logged redone l, page_known s logged redone → unlocked s → 0 < l → 0 ≤ blknum < 2 ^ 31 → Forall tag_fits tags →
(tag ∈ tags → ∃ future, log = logged ++ l :: future) → ∃ s', log_positions s l tags = Ok s' ∧ unlocked s' ∧ page_known s' (if decide (tag ∈ tags) then logged ++ [l] else logged) redone.
Proof using All.
induction tags as [|t tags IH]; intros s logged redone l Hinv Hu Hl Hb Hf Hin; [exists s; split_and!; [done..|]; rewrite decide_False by (intros Hi; by apply elem_of_nil in Hi); done|]. apply Forall_cons in Hf as [Hft Hf].
cbn [log_positions]. unfold log_position. fold (tag_key t). pose proof (known_tag _ _ _ Hinv) as Htag. destruct (decide (t = tag)) as [->|Hne].
- destruct Hin as [future Hlog]; [by left|]. rewrite (proj2 (tag_key_request rn forknum blknum tag Htag Htag Hb)) by done.
destruct (known_map _ _ _ Hinv) as [v Hr]. destruct (insert_any s v key l Hr Hu Hl) as (m & b & _ & E & _ & Hu' & _). destruct (known_insert s logged redone l future Hinv Hlog) as (m' & b' & E' & Hinv').
rewrite E in E' |- *. injection E' as <- <-. cbn [mbind res_bind]. rewrite (decide_True (P := tag ∈ tag :: tags)) by (by left). apply log_positions_other; try done; [by right|]. intros _. exists logged. split; [done|]. by eapply next_not_redone.
- destruct (other_step s logged redone (tag_key t) l Hinv Hu) as (m & b & -> & Hinv' & Hu'); [|done|].
{ intros E. by apply (tag_key_request rn forknum blknum t Hft Htag Hb) in E. }
cbn [mbind res_bind]. destruct (IH _ logged redone l Hinv' Hu' Hl Hb Hf) as (s' & E & Hu'' & Hinv''); [intros Hi; apply Hin; by right|]. exists s'. split_and!; [done..|].
destruct (decide (tag ∈ tags)) as [Hi|Hi]; [rewrite decide_True by (by right); done|]. rewrite decide_False; [done|]. rewrite elem_of_cons. intros [E1|?]; congruence.
Qed.

(** C17: a record is recorded for exactly its pages.  When the startup process of
the server comes to a record, it is decoded, entered under the pages the log
index finds for it, and its position is added to the version map for each.  Take
any page with a block number below 2147483648, whether it has no record and no
head in the map yet ([page_fresh]) or satisfies the invariant of the server.  If
the page is among those of the record, and the record is the next of its log, the
position is added once, even if the page is there twice; the first record makes
the head.  If it is not among them, nothing changes for the page: a page without
records stays one.  The insertions never wait when no request is under way.  A
record that is not parsed is replayed at once, after that, and the result is the
one of its redo routine, an error included. *)
Theorem record_is_logged rm_redo0 s st logged redone r r' parsed tags : page_known s logged redone → unlocked s → 0 ≤ blknum < 2 ^ 31 → polar_xlog_decode_data r = Ok r' → ParseLogIndexXlog r' = Ok (parsed, tags) → 0 < ReadRecPtr r' → Forall tag_fits tags →
(tag ∈ tags → ∃ future, log = logged ++ ReadRecPtr r' :: future) →
∃ s', log_record rm_redo0 s st r = (if parsed then Ok (s', st) else st' ← rm_redo0 st r'; Ok (s', st')) ∧ unlocked s' ∧
if decide (tag ∈ tags) then page_inv s' (logged ++ [ReadRecPtr r']) redone else page_known s' logged redone.
Proof using All.
intros Hinv Hu Hb Hd Hp Hl Hf Hin. destruct (log_positions_step tags s logged redone (ReadRecPtr r') Hinv Hu Hl Hb Hf Hin) as (s' & E & Hu' & Hinv'). exists s'. split_and!; [|done|].
- unfold log_record. rewrite Hd. cbn [mbind res_bind]. rewrite Hp. cbn [mbind res_bind]. rewrite E. by destruct parsed.
- destruct (decide (tag ∈ tags)); [|done]. destruct Hinv' as [(E' & _)|?]; [by destruct logged|done].
Qed.

(** ** Versions that are gone *)

(** Every position in the map is one of the log. *)
Lemma entries_logged logged future redone todo kept (p : vpage) : log = logged ++ future → logged = redone ++ todo → lsns (v_entries p) = kept ++ todo → Forall (λ l, l ∈ redone) kept → ∀ e, e ∈ v_entries p → entry_lsn e ∈ log.
Proof using.
intros Hlog Htodo Hes Hk e He. assert (He' : entry_lsn e ∈ kept ++ todo) by (rewrite <-Hes; unfold lsns; by apply list_elem_of_fmap_2).
rewrite Hlog, Htodo. rewrite !elem_of_app in *. rewrite Forall_forall in Hk. destruct He' as [He'|?]; [left; left; by apply Hk|tauto].
Qed.

(** The version the map names is not stored. *)
Lemma gone_step s logged redone t : page_inv s logged redone → 0 < t →
(∃ ld, last redone = Some ld ∧ hd 0 log ≤ t < ld) ∨ (redone = [] ∧ Forall (λ l, t < l) logged) →
∀ g, ReadBufferCommon g s rn forknum blknum t = Err EOob.
Proof using All.
intros Hinv Ht Hcase g. pose proof Hinv as [Htag [future Hlog] Hs Hf (todo & kept & v & p & Htodo & Hr & Hp & Hes & Hk & Hhd & Hrp & Hlk) (vv & Hh & Hpw & Hpv) Hsvc].
destruct (get_list_step (s_map s) v t p Hr Hp Hlk) as (m1 & Em & _). unfold ReadBufferCommon. rewrite Em.
assert (Hgone : ∀ l, lsn_fits l → last redone ≠ Some l → ('(kv, targetPage) ← GetPageFromRocksdb (s_kv s) tag l; pg ← assign targetPage; Ok (pg, mkServer m1 kv (s_svc s))) = Err EOob).
{ intros l Hl Hne. destruct (get_page_spec (s_kv s) vv l Hh Hpw Htag Hl) as (d & _ & ->). cbn [mbind res_bind]. by rewrite Hpv, decide_False. }
pose proof (entries_logged logged future redone todo kept p Hlog Htodo Hes Hk) as Hin.
destruct Hcase as [(ld & Hld & Htl)|[-> Hall]].
- unfold replay_spec. rewrite Hrp, Hld. cbn [from_option id]. rewrite decide_False by lia. destruct (below t (v_entries p)) as [e|] eqn:Eb.
+ cbn [fmap option_fmap option_map mbind res_bind]. unfold below in Eb. apply last_elem, list_elem_of_filter in Eb as [He1 He2]. apply Hgone; [by apply (log_fits log []); [|rewrite app_nil_r|apply Hin]|]. rewrite Hld. intros [= E]. lia.
+ exfalso. assert (Hne : log ≠ []) by (intros E; rewrite E in Hlog; destruct redone; [done|]; rewrite Htodo in Hlog; done). destruct (v_entries p) as [|e es]; [symmetry in Hhd; by apply head_None in Hhd|].
unfold lsns in Hhd. rewrite fmap_cons in Hhd. symmetry in Hhd. cbn [head hd_error] in Hhd. apply head_hd in Hhd. unfold below in Eb. apply last_None in Eb. rewrite filter_cons_True in Eb; [done|lia].
- unfold replay_spec. rewrite Hrp. cbn [last from_option id]. rewrite decide_True by lia. rewrite Hes, between_none.
+ cbn [mbind res_bind]. apply Hgone; [unfold lsn_fits; lia|done].
+ cbn [app] in Htodo. subst logged. apply Forall_app. split; [eapply Forall_impl; [exact Hk|]; cbn; intros x Hx; by apply elem_of_nil in Hx|]. eapply Forall_impl; [exact Hall|]. cbn. lia.
Qed.

(** The map names no version, though one is stored. *)
Lemma before_first_step s logged redone t : page_inv s logged redone → redone ≠ [] → t < hd 0 log →
∃ m, (∀ g, ReadBufferCommon g s rn forknum blknum t = '(buff, svc) ← svc_base (s_svc s) tag; Ok (buff, mkServer m (s_kv s) svc)) ∧
∀ svc, svc_ok svc → page_inv (mkServer m (s_kv s) svc) logged redone.
Proof using All.
intros Hinv Hne Ht. pose proof Hinv as [Htag [future Hlog] Hs Hf (todo & kept & v & p & Htodo & Hr & Hp & Hes & Hk & Hhd & Hrp & Hlk) Hkv Hsvc].
assert (Hall : ∀ l, l ∈ log → t < l).
{ intros l Hl. clear -Hs Ht Hl. destruct log as [|l0 ls]; [by apply elem_of_nil in Hl|]. apply StronglySorted_inv in Hs as [_ Hs]. rewrite Forall_forall in Hs. cbn in Ht. apply elem_of_cons in Hl as [->|Hl]; [done|]. specialize (Hs l Hl). lia. }
assert (Espec : replay_spec (v_entries p) (v_replayed p) t = None).
{ destruct (last redone) as [ld|] eqn:El; [|by apply last_None in El]. cbn [from_option id] in Hrp. unfold replay_spec. rewrite Hrp, decide_False.
- unfold below. rewrite keep_none; [done|]. rewrite Forall_forall. intros e He. pose proof (Hall _ (entries_logged logged future redone todo kept p Hlog Htodo Hes Hk e He)). lia.
- specialize (Hall ld). rewrite Hlog, Htodo, !elem_of_app in Hall. apply last_elem in El. specialize (Hall ltac:(tauto)). lia. }
destruct (get_list_step (s_map s) v t p Hr Hp Hlk) as (m & Em & Hr'). rewrite Espec in Em, Hr'. exists m. split.
- intros g. unfold ReadBufferCommon. by rewrite Em.
- intros svc Hok. constructor; try done; [by exists future|]. eexists todo, kept, _, _. cbn [s_map]. split; [done|]. split; [exact Hr'|]. rewrite lookup_insert_eq. split_and!; done.
Qed.

(** C36: an old version cannot be read.  Only the last version of a page is kept.
The server reads through a NULL pointer for a request at a position before the
stored version but not before the first record of the page, and for a request
before all recorded records when nothing has been replayed yet.  A request before
the first record of a page that has a stored version is not such a case: the
version map names no version, and the answer is whatever page the WAL-redo process
has at that time, with map, store and invariant as they were. *)
Theorem old_version_crashes s logged redone t : page_inv s logged redone → 0 < t →
((∃ ld, last redone = Some ld ∧ hd 0 log ≤ t < ld) ∨ (redone = [] ∧ Forall (λ l, t < l) logged) → ∀ g, ReadBufferCommon g s rn forknum blknum t = Err EOob) ∧
(redone ≠ [] → t < hd 0 log →
∃ m, (∀ g, ReadBufferCommon g s rn forknum blknum t = '(buff, svc) ← svc_base (s_svc s) tag; Ok (buff, mkServer m (s_kv s) svc)) ∧ ∀ svc, svc_ok svc → page_inv (mkServer m (s_kv s) svc) logged redone).
Proof using All. intros Hinv Ht. split; [by apply gone_step|by apply before_first_step]. Qed.
End page.
