(* ===== verification/PageBackground.v ===== *)
(** * The background replay, and what happens to a page over time

    A visit of the background replay to a page does part of the work of the
    requests to come; records, requests and visits follow one another in any
    order. *)

From Stdlib Require Import Sorted.
From S2P Require Import Prelude Mem Page Buffer WalRecord XLogDecode KvStore KvSpec VersionMap VersionNode VersionBucket VersionSpec PageServer PageCollect PageServerSpec.

(** ** Lists of positions *)

Lemma sorted_cut m ls : StronglySorted Z.lt ls → ls = filter (λ l, l ≤ m) ls ++ behind m ls.
Proof.
  unfold behind. induction 1 as [|x ls Hs IH Hf]; [done|]. destruct (decide (x ≤ m)).
  - rewrite filter_cons_True, filter_cons_False by lia. cbn [app]. by rewrite <-IH.
  - rewrite filter_cons_False, filter_cons_True by lia. rewrite keep_none by (eapply Forall_impl; [exact Hf|]; cbn; lia). cbn [app]. rewrite keep_all; [done|]. eapply Forall_impl; [exact Hf|]. cbn. lia.
Qed.

(** The tag of a head is the one of the requests for it. *)
Lemma head_tag_request rn forknum blknum : tag_fits (request_tag rn forknum blknum) → head_tag (request_key rn forknum blknum) = request_tag rn forknum blknum.
Proof.
  intros [H1 H2 H3 H4 H5]. unfold head_tag, request_key, request_tag in *. destruct rn as [sp dbn rel]. cbn in *. rewrite !Z.mod_small by lia. f_equal. unfold to_int. rewrite Z.mod_mod by lia.
  destruct (Z.leb_spec 0 forknum).
  - rewrite Z.mod_small, (proj2 (Z.ltb_lt _ _)) by lia. done.
  - replace (forknum mod 2 ^ 32) with (forknum + 2 ^ 32) by (symmetry; rewrite <-(Z.mod_small (forknum + 2 ^ 32) (2 ^ 32)) by lia; replace (forknum + 2 ^ 32) with (forknum + 1 * 2 ^ 32) by lia; rewrite Z.mod_add by lia; done).
    rewrite (proj2 (Z.ltb_ge _ _)) by lia. lia.
Qed.

(** Freeing nodes with positions up to [m] only changes what is up to [m]. *)
Lemma freed_entries h m gone kept : head_eles h = gone ++ kept → Forall (λ e, entry_lsn e ≤ m) (ele_all gone) → let h' := set_versions h (head_entries h) (head_maxLsn h) kept in
  head_wf h' → ∃ done, lsns (all_entries h') = done ++ behind m (lsns (all_entries h)) ∧ Forall (λ l, l ∈ lsns (all_entries h) ∧ l ≤ m) done.
Proof.
  intros E Hg h' [_ _ _ Hs _]. exists (filter (λ l, l ≤ m) (lsns (all_entries h'))). split.
  - rewrite (sorted_cut m (lsns (all_entries h'))) at 1 by exact Hs. f_equal. unfold all_entries, lsns, h'. cbn [set_versions head_entries head_eles]. rewrite E, ele_all_app, !fmap_app, !behind_app.
    rewrite (behind_none m (entry_lsn <$> ele_all gone)) by (by rewrite Forall_fmap). done.
  - rewrite Forall_forall. intros l Hl. apply list_elem_of_filter in Hl as [Hm Hl]. split; [|done]. unfold all_entries, lsns, h' in *. cbn [set_versions head_entries head_eles] in Hl. rewrite E, ele_all_app, !fmap_app in *. rewrite !elem_of_app in *. tauto.
Qed.

(** ** The pass over a bucket *)

Lemma bucket_visits_sub {A} fuel : ∀ (iter : list A) n, (length iter < fuel)%nat → ∃ vs, bucket_visits fuel iter n = Ok vs ∧ ∀ x, x ∈ vs → x ∈ drop n iter.
Proof.
  induction fuel as [|fuel IH]; intros iter n Hf; [lia|]. cbn [bucket_visits]. assert (Hsub : ∀ x, x ∈ take ITER_BATCH_SIZE (drop n iter) → x ∈ drop n iter) by (intros x Hx; apply elem_of_take in Hx as (i & Hx & _); by eapply list_elem_of_lookup_2).
  destruct (Nat.ltb_spec (length (drop n iter)) ITER_BATCH_SIZE) as [Hl|Hl]; [by eexists|]. unfold ITER_BATCH_SIZE in *. rewrite length_drop in Hl.
  destruct (IH (drop 10 (drop n iter)) (n + 10)%nat) as (vs & -> & Hvs); [rewrite !length_drop; lia|]. cbn [mbind res_bind]. eexists. split; [done|]. intros x Hx. apply elem_of_app in Hx as [Hx|Hx]; [by apply Hsub|].
  apply Hvs in Hx. rewrite !drop_drop in Hx. apply list_elem_of_lookup in Hx as [i Hx]. rewrite lookup_drop in Hx. apply list_elem_of_lookup. exists (10 + (n + 10) + i)%nat. rewrite lookup_drop. rewrite <-Hx. f_equal. lia.
Qed.

(** The pass over a bucket ends, but the heads 10 to 19 of a longer bucket are never
    taken up: the second batch starts with head 20. *)
Theorem background_skips_heads {A} (heads : list A) : NoDup heads → (10 ≤ length heads)%nat →
  ∃ vs, bucket_visits (2 + length heads) heads 0 = Ok vs ∧ (∀ i x, (i < 10)%nat → heads !! i = Some x → x ∈ vs) ∧ ∀ i x, (10 ≤ i < 20)%nat → heads !! i = Some x → x ∉ vs.
Proof.
  intros Hnd Hl. change (2 + length heads)%nat with (S (S (length heads))). remember (S (length heads)) as fuel eqn:Ef. cbn [bucket_visits]. rewrite drop_0. destruct (Nat.ltb_spec (length heads) ITER_BATCH_SIZE); [unfold ITER_BATCH_SIZE in *; lia|]. unfold ITER_BATCH_SIZE. change (0 + 10)%nat with 10%nat.
  destruct (bucket_visits_sub fuel (drop 10 heads) 10) as (vs & -> & Hvs); [rewrite length_drop; lia|]. cbn [mbind res_bind]. eexists. split; [done|]. split.
  - intros i x Hi Hx. apply elem_of_app. left. apply elem_of_take. by exists i.
  - intros i x Hi Hx Hv. apply elem_of_app in Hv as [Hv|Hv].
    + apply elem_of_take in Hv as (j & Hj & Hlt). pose proof (NoDup_lookup _ _ _ _ Hnd Hx Hj). lia.
    + apply Hvs in Hv. rewrite drop_drop in Hv. apply list_elem_of_lookup in Hv as [j Hj]. rewrite lookup_drop in Hj. pose proof (NoDup_lookup _ _ _ _ Hnd Hx Hj). lia.
Qed.

Section background.
Context {DB S : Type} `{RocksDBLaws DB} `{!Reliable DB} {redo_service : RedoService S}.
Context (rn : RelFileNode) (forknum blknum : Z) (log : list Z) (page_after : list Z → page).
Local Abbreviation key := (request_key rn forknum blknum).
Local Abbreviation tag := (request_tag rn forknum blknum).
Context {redo_promise : RedoPromise S tag log page_after}.

(** The positions in the map behind the replayed one are those still to be
replayed. *)
Lemma todo_behind (s : server DB S) logged redone todo kept : page_inv rn forknum blknum log page_after s logged redone → logged = redone ++ todo → Forall (λ l, l ∈ redone) kept →
behind (default 0 (last redone)) (kept ++ todo) = todo ∧ ∀ new todo', todo = new ++ todo' → behind (default 0 (last (redone ++ new))) (kept ++ todo) = todo'.
Proof using All.
intros [_ [future Hlog] Hs Hf _ _ _] Htodo Hk.
assert (Hgen : ∀ new todo', todo = new ++ todo' → behind (default 0 (last (redone ++ new))) (kept ++ todo) = todo').
{ intros new todo' E. assert (Hlog' : log = (redone ++ new) ++ todo' ++ future) by (by rewrite Hlog, Htodo, E, <-!app_assoc). rewrite E, !behind_app. rewrite (behind_none _ kept), (behind_none _ new).
- cbn [app]. apply keep_all. rewrite Forall_forall. intros x Hx. rewrite Hlog' in Hs, Hf. destruct (last (redone ++ new)) as [ld|] eqn:El; cbn.
+ apply (sorted_lt _ _ _ _ Hs); [by apply last_elem|apply elem_of_app; by left].
+ rewrite Forall_forall in Hf. apply Hf. apply elem_of_app. right. apply elem_of_app. by left.
- rewrite Forall_forall. intros x Hx. apply (redone_le log (redone ++ new) (todo' ++ future)); [done..|apply elem_of_app; by right].
- eapply Forall_impl; [exact Hk|]. cbn. intros x Hx. apply (redone_le log (redone ++ new) (todo' ++ future)); [done..|apply elem_of_app; by left]. }
split; [|done]. pose proof (Hgen [] todo eq_refl) as E. by rewrite app_nil_r in E.
Qed.

Lemma behind_zero redone rest : Forall (λ l, 0 < l < 2 ^ 64) log → log = redone ++ rest → (0 <? default 0 (last redone)) = negb (default 0 (last redone) =? 0).
Proof using.
intros Hf E. destruct (last redone) as [l|] eqn:El; [|done]. cbn. apply last_elem in El. rewrite E, Forall_app, Forall_forall in Hf. destruct Hf as [Hf _]. specialize (Hf l El).
rewrite (proj2 (Z.ltb_lt _ _)), (proj2 (Z.eqb_neq _ _)) by lia. done.
Qed.

(** What a visit replays. *)
Definition visited (due : bool) (logged redone : list Z) : list Z := if due then take batch (drop (length redone) logged) else [].

Lemma background_step g due s logged redone : page_inv rn forknum blknum log page_after s logged redone →
∃ s', background_visit g due s key = Ok s' ∧ page_inv rn forknum blknum log page_after s' logged (redone ++ visited due logged redone).
Proof using All.
intros Hinv. pose proof Hinv as [Htag [future Hfut] Hs Hf (todo & kept & v & p & Htodo & Hr & Hp & Hes & Hk & Hhd & Hrp & Hlk) (vv & Hh & Hpw & Hpv) Hsvc].
destruct (todo_behind s logged redone todo kept Hinv Htodo Hk) as [Hb0 Hbn].
assert (Ev : visited due logged redone = if due then take batch todo else []) by (unfold visited; by rewrite Htodo, drop_app_length).
unfold background_visit. destruct (find_cases (s_map s) v key Hr) as (b & Eg & Hi & Hbk & [(q & h & Ek & Hq & Hkey & Hv)|(_ & Hv & _)]); [|congruence].
rewrite Eg. cbn [mbind res_bind]. rewrite Ek. cbn [mbind res_bind]. unfold head_at. rewrite Hq. cbn [mbind res_bind]. rewrite Hp in Hv. injection Hv as ->. cbn [content v_entries v_replayed v_locked] in *. rewrite Hlk, orb_false_r.
pose proof (proj1 (bk_heads _ Hbk q h Hq)) as Hw. pose proof (hd_max _ Hw) as Hmax.
assert (Hskip : todo = [] ∨ due = false → page_inv rn forknum blknum log page_after s logged (redone ++ visited due logged redone)).
{ intros Hc. assert (E : visited due logged redone = []) by (rewrite Ev; destruct Hc as [->| ->]; [by destruct due|done]). by rewrite E, app_nil_r. }
destruct due; [|rewrite orb_true_r; exists s; auto]. cbn [negb orb]. rewrite orb_false_r. destruct (Z.ltb_spec (replayedLsn h) (head_maxLsn h)) as [Hlt|Hge]; cbn [negb].
2: { exists s. split; [done|]. apply Hskip. left. rewrite <-Hb0, <-Hes, <-Hrp. apply behind_none. unfold lsns. rewrite Forall_fmap, Forall_forall. intros e He. cbn. pose proof (last_max _ _ e (hd_sorted _ Hw) Hmax He). lia. }
destruct (background_collect h Hw) as (l & acc & gone & keptE & El & Eacc & Ecv & Eg' & Hgone & Hw'). rewrite Hes, Hrp, Hb0 in Ecv, Hgone.
unfold BackgroundReplayHeadNode. rewrite El. cbn [mbind res_bind]. rewrite Eacc. cbn [mbind res_bind]. rewrite Hrp, Ecv. cbn [mbind res_bind]. rewrite Hkey, head_tag_request by done.
set (h' := set_versions h (head_entries h) (head_maxLsn h) keptE) in *.
assert (Hne : todo ≠ []).
{ intros ->. rewrite Hrp in Hlt. destruct (last (all_entries h)) as [e|] eqn:Ee; [|done]. injection Hmax as Hmax. apply last_elem in Ee. assert (He : head_maxLsn h ∈ behind (default 0 (last redone)) (kept ++ [])).
{ unfold behind. apply list_elem_of_filter. split; [done|]. rewrite <-Hes, <-Hmax. unfold lsns. by apply list_elem_of_fmap_2. } rewrite Hb0 in He. by apply elem_of_nil in He. }
rewrite Ev. set (new := take batch todo) in *. set (todo' := drop batch todo). assert (Etodo : todo = new ++ todo') by (symmetry; apply take_drop).
assert (Hlog : log = redone ++ new ++ todo' ++ future) by (by rewrite Hfut, Htodo, Etodo, <-!app_assoc).
destruct new as [|n0 ns] eqn:En; [destruct todo; [done|discriminate En]|]. rewrite <-En in *. set (lastl := List.last ns n0). assert (Ell : last new = Some lastl) by (rewrite En; apply list_last_last).
destruct (base_step rn forknum blknum log page_after s logged redone new (todo' ++ future) vv Hinv Hlog Hh Hpw Hpv) as (kv1 & svc & Hh1 & Hok & Eb).
destruct (store_step rn forknum blknum log page_after g s logged redone new (todo' ++ future) kv1 vv lastl Hinv Hlog Hh1 Hpw Hpv Ell) as (kv2 & kv3 & vv' & E2 & E3 & Hh3 & Hpw' & Hpv').
rewrite Eb. cbn [mbind res_bind]. rewrite E2. cbn [mbind res_bind]. rewrite (behind_zero redone (new ++ todo' ++ future)), E3 by done. cbn [mbind res_bind]. eexists. split; [done|].
destruct (freed_entries h (default 0 (last (redone ++ new))) gone keptE Eg') as (done & Edone & Hdone); [|exact Hw'|].
{ rewrite last_app, Ell. rewrite Ell in Hgone. exact Hgone. }
rewrite Hes, (Hbn new todo' Etodo) in Edone. rewrite Hes in Hdone. constructor; try done; [by exists future| | |].
- exists todo', done. eexists _, (content (set_replayed h' lastl)). cbn [s_map]. split; [by rewrite Htodo, Etodo, <-app_assoc|]. split; [apply (inplace_change (s_map s) v key b q h (set_replayed h' lastl)); try done; by apply head_wf_replayed|].
rewrite lookup_insert_eq. split; [done|]. cbn [content v_entries v_replayed v_locked]. change (all_entries (set_replayed h' lastl)) with (all_entries h'). split; [exact Edone|]. split; [|split; [|split]].
+ eapply Forall_impl; [exact Hdone|]. cbn. intros x [Hx Hle]. rewrite Etodo in Hx. rewrite elem_of_app in Hx. rewrite elem_of_app. rewrite (elem_of_app new) in Hx. destruct Hx as [Hx|[Hx|Hx]]; [left; rewrite Forall_forall in Hk; by apply Hk|by right|].
exfalso. rewrite <-(Hbn new todo' Etodo) in Hx. unfold behind in Hx. apply list_elem_of_filter in Hx. lia.
+ rewrite <-Hhd. unfold all_entries, lsns, h'. cbn [set_versions head_entries head_eles]. pose proof (hd_length _ Hw) as Hz. destruct (head_entries h); [unfold zlen in Hz; cbn in Hz; lia|done].
+ by rewrite last_app, Ell.
+ done.
- exists vv'. cbn [s_kv]. split_and!; done.
- cbn [s_svc]. split; [done|]. rewrite En. by destruct redone.
Qed.
(** C16: the background replay works ahead and loses nothing.  A visit to a page
replays the next records that are recorded for it, at most 20 of them and none
when the last visit was too recent: it takes the stored version, has the
WAL-redo process apply exactly those records, stores the result in place of the
old version and frees only nodes of the map whose positions are all replayed.
The page is then in the state a request at that position would have left it
in. *)
Theorem background_replays_ahead (g due : bool) s logged redone : page_inv rn forknum blknum log page_after s logged redone →
let new := if due then take 20 (drop (length redone) logged) else [] in
∃ s', background_visit g due s key = Ok s' ∧ page_inv rn forknum blknum log page_after s' logged (redone ++ new).
Proof using All. apply background_step. Qed.

(** ** Records, requests and visits in turn *)

(** What happens to a page: a record is recorded, a request comes, the background
replay comes by. *)
Inductive event : Type := Logged | Read (garbage : bool) (t : Z) | Visit (garbage due : bool).

(** The positions recorded after [n] records. *)
Definition logged_at (n : nat) : list Z := take n log.
Definition next_count (n : nat) : nat := if decide (n < length log)%nat then (n + 1)%nat else n.

Fixpoint serve (s : server DB S) (n : nat) (evs : list event) : res (list page) :=
match evs with
| [] => Ok []
| Logged :: evs =>
match log !! n with
| Some l => '(m, _) ← HashMapInsertKey (s_map s) key l 0 true; serve (mkServer m (s_kv s) (s_svc s)) (n + 1) evs
| None => serve s n evs
end
| Read g t :: evs => '(p, s) ← ReadBufferCommon g s rn forknum blknum t; ps ← serve s n evs; Ok (p :: ps)
| Visit g due :: evs => s ← background_visit g due s key; serve s n evs
end.

(** The answers: the page after the records up to the position of the request. *)
Fixpoint answers (n : nat) (evs : list event) : list page :=
match evs with
| [] => []
| Logged :: evs => answers (next_count n) evs
| Read _ t :: evs => page_after (filter (λ l, l ≤ t) (logged_at n)) :: answers n evs
| Visit _ _ :: evs => answers n evs
end.

(** Requests do not go back behind [low], which is behind the first record: not
behind an earlier request, nor behind what a visit may have replayed. *)
Fixpoint forward (n : nat) (low : Z) (evs : list event) : Prop :=
match evs with
| [] => True
| Logged :: evs => forward (next_count n) low evs
| Read _ t :: evs => low ≤ t ∧ forward n t evs
| Visit _ due :: evs => forward n (if due then Z.max low (default 0 (last (logged_at n))) else low) evs
end.

(** A visit replays nothing beyond the last record. *)
Lemma visited_low s (due : bool) logged redone low : page_inv rn forknum blknum log page_after s logged redone → default 0 (last redone) ≤ low →
default 0 (last (redone ++ visited due logged redone)) ≤ (if due then Z.max low (default 0 (last logged)) else low).
Proof using All.
intros [_ [future Hlog] Hs Hf (todo & _ & _ & _ & Htodo & _) _ _] Hl. unfold visited. destruct due; [|by rewrite app_nil_r]. rewrite Htodo, drop_app_length.
destruct (last (redone ++ take batch todo)) as [x|] eqn:Ex; cbn.
- apply last_elem in Ex. assert (Hx : x ∈ redone ++ todo) by (rewrite elem_of_app in *; destruct Ex as [?|Ex]; [by left|right]; rewrite <-(take_drop batch todo), elem_of_app; by left).
pose proof (redone_le log (redone ++ todo) future x Hs ltac:(by rewrite Hlog, Htodo) Hx). lia.
- apply last_None, app_eq_nil in Ex as [-> _]. cbn in Hl. lia.
Qed.

Lemma serve_answers evs : ∀ s n low redone, page_inv rn forknum blknum log page_after s (logged_at n) redone → (0 < n ≤ length log)%nat → default 0 (last redone) ≤ low → hd 0 log ≤ low → forward n low evs → serve s n evs = Ok (answers n evs).
Proof using All.
induction evs as [|[|g t|g due] evs IH]; intros s n low redone Hinv Hn Hlow Hhd Hev; [done|..]; cbn [serve answers forward] in *; unfold next_count in *.
- destruct (log !! n) as [l|] eqn:El.
+ rewrite decide_True in Hev |- * by (by eapply lookup_lt_Some). destruct (insert_step rn forknum blknum log page_after s (logged_at n) redone l (drop (n + 1) log) Hinv) as (m & b & -> & Hinv'); [unfold logged_at; rewrite Nat.add_1_r; symmetry; apply take_drop_middle; done|].
cbn [mbind res_bind]. apply (IH _ _ low redone); [|apply lookup_lt_Some in El; lia|done..]. unfold logged_at in *. rewrite Nat.add_1_r. by rewrite (take_S_r log n l El).
+ rewrite decide_False in Hev |- * by (apply lookup_ge_None in El; lia). by apply (IH s n low redone).
- destruct Hev as [Ht Hev]. assert (Hne : filter (λ l, l ≤ t) (logged_at n) ≠ []) by (apply filter_first; lia).
destruct (read_step rn forknum blknum log page_after g s (logged_at n) redone t Hinv ltac:(lia) Hne) as (s' & -> & Hinv'). cbn [mbind res_bind].
rewrite (IH s' n t _ Hinv' Hn); [done| |lia|done]. destruct (last (filter (λ l, l ≤ t) (logged_at n))) as [x|] eqn:E; [|apply last_None in E; done]. apply last_elem, list_elem_of_filter in E. cbn. lia.
- destruct (background_step g due s (logged_at n) redone Hinv) as (s' & -> & Hinv'). cbn [mbind res_bind]. refine (IH s' n _ _ Hinv' Hn _ _ Hev); [by eapply visited_low|]. destruct due; lia.
Qed.
End background.
