(* ===== verification/PageRedo.v ===== *)
(** * The WAL-redo process keeps its promise to the page server

    The routines of [wal_redo.c] that the page server calls, and that what
    they compute for a heap page is the page after the records: the instance of
    the class the server is verified against. *)

From Stdlib Require Import Sorted.
From S2P Require Import Prelude Mem Page Buffer WalRecord XLogDecode HeapTuple HeapRedo Resident HeapRefine HeapReplay HeapSpec TagList RedoPipe StorageServer Dispatch WalRedo WalRedoSpec KvStore KvSpec VersionMap VersionNode VersionBucket VersionSpec PageServer PageServerSpec PageBackground.

Section promise.
Context (wal : Z → option XLogReaderState) (rm_redo0 : dbstate → XLogReaderState → res dbstate) (reader0 : XLogReaderState).

(** A process about to answer one request. *)
Definition at_request (st : dbstate) : process := mkProc st reader0 1 None None [] [] [WrCount (Z.to_nat BLCKSZ)] [].

Definition new_list_params (tag : BufferTag) (lsns : list Z) : list Z := bufftag_bytes tag ++ hton 4 (zlen lsns) ++ concat (hton 8 <$> lsns).

Definition answer (r : res process) : res (page * dbstate) := p ← r; Ok (p_out p, p_db p).

#[export] Instance process_service : RedoService dbstate := {|
svc_base st tag := answer (GetPage (at_request st) (bufftag_bytes tag));
svc_apply st tag lsns base := answer (ApplyLsnListXlog wal rm_redo0 (at_request st) (lsn_list_params tag lsns base));
svc_apply_new st tag lsns := answer (ApplyLsnListXlogWithoutBasePage wal rm_redo0 (at_request st) (new_list_params tag lsns)) |}.

Lemma at_request_writes st : no_failure (p_writes (at_request st)) ∧ BLCKSZ ≤ Z.of_nat (accepted (p_writes (at_request st))).
Proof using. split; [do 1 (constructor; [done|]); constructor|]. cbn. lia. Qed.

(** Records for a page the process has. *)
Lemma new_list_spec st tag lsns rs base st' : request_ok st tag lsns base → heap_log wal tag lsns rs → resident st tag base → replay st tag rs = Ok st' →
∃ q, svc_apply_new st tag lsns = Ok (q, st') ∧ pool st' !! tag = Some q.
Proof using.
intros Hrq Hlog Hres Hrep. cbn [svc_apply_new process_service]. unfold ApplyLsnListXlogWithoutBasePage, new_list_params, answer. rewrite get_tag_app by apply Hrq. cbn [mbind res_bind].
pose proof (rq_count _ _ _ _ Hrq) as Hc. pose proof (zlen_nonneg lsns). rewrite (getmsgint_app 4) by (cbn; lia). cbn [mbind res_bind].
replace (Z.to_nat (zlen lsns)) with (length lsns) by (unfold zlen; lia). rewrite <-(app_nil_r (concat _)), get_lsns_app by apply Hrq. cbn [mbind res_bind].
destruct (apply_lsns_replay wal rm_redo0 tag lsns rs Hlog (at_request st) base st' Hres (rq_base _ _ _ _ Hrq) Hrep) as [r ->]. cbn [mbind res_bind].
destruct (replay_resident tag rs st base st' (proj2 Hlog) Hres (rq_base _ _ _ _ Hrq) Hrep) as (q & Hresq & Hwq & _). pose proof (heap_wf_zlen q Hwq) as Hzq.
destruct (send_page_spec (set_db (set_reader (at_request st) r) st') tag q Hresq) as [w ->].
- intros ->. done.
- apply at_request_writes.
- unfold zlen in Hzq. cbn. unfold BLCKSZ in *. lia.
- exists q. split; [done|apply Hresq].
Qed.

(** ** A heap page *)

Context (tag : BufferTag) (log : list Z) (rs : list XLogReaderState) (st0 stN : dbstate) (base0 : page).
Context (Hrq0 : request_ok st0 tag log base0) (Hlog0 : heap_log wal tag log rs) (Hrep0 : replay (buf_write st0 (Some tag) base0) tag rs = Ok stN).

Definition page_of (st : dbstate) : page := default [] (pool st !! tag).
Definition page_after (ls : list Z) : page :=
match replay (buf_write st0 (Some tag) base0) tag (omap wal ls) with Ok st => page_of st | Err _ => [] end.

(** A first part of the log. *)
Lemma log_part l1 l2 : log = l1 ++ l2 → ∃ rs1 rs2 st1, rs = rs1 ++ rs2 ∧ heap_log wal tag l1 rs1 ∧ heap_log wal tag l2 rs2 ∧ omap wal l1 = rs1 ∧
replay (buf_write st0 (Some tag) base0) tag rs1 = Ok st1 ∧ replay st1 tag rs2 = Ok stN.
Proof using All.
intros E. destruct Hlog0 as [Hf Hpl]. rewrite E in Hf. apply Forall2_app_inv_l in Hf as (rs1 & rs2 & Hf1 & Hf2 & Ers). unfold page_log in Hpl. rewrite Ers in Hpl, Hrep0. apply Forall_app in Hpl as [Hp1 Hp2].
rewrite replay_app in Hrep0. apply bind_Ok_inv in Hrep0 as (st1 & H1 & H2). exists rs1, rs2, st1. split_and!; try done. clear -Hf1. induction Hf1 as [|l r l1 rs1 [Hl _] _ IH]; [done|]. cbn. by rewrite Hl, IH.
Qed.

(** The page after a first part. *)
Lemma after_part l1 rs1 st1 : heap_log wal tag l1 rs1 → omap wal l1 = rs1 → replay (buf_write st0 (Some tag) base0) tag rs1 = Ok st1 →
heap_wf (page_after l1) ∧ st1 = buf_write st0 (Some tag) (page_after l1).
Proof using All.
intros [_ Hpl] Ho Hr. pose proof (base_resident _ _ _ _ Hrq0) as Hres. pose proof (rq_base _ _ _ _ Hrq0) as Hb.
destruct (replay_resident tag rs1 _ base0 st1 Hpl Hres Hb Hr) as (q & Hq & Hwq & _). unfold page_after, page_of. rewrite Ho, Hr. rewrite (rs_pool _ _ _ Hq). cbn [from_option id]. split; [done|].
rewrite (replay_write tag rs1 _ base0 st1 Hpl Hres Hb Hr q) by apply Hq. by rewrite buf_write_write.
Qed.

Lemma request_part st q ls base : (∃ l1 l2, log = l1 ++ ls ++ l2) → st = buf_write st0 (Some tag) q → heap_wf base → request_ok st tag ls base.
Proof using All.
intros (l1 & l2 & E) -> Hb. destruct Hrq0 as [Ht Hl Hc _ Hbl Hf]. rewrite E, !Forall_app in Hl. rewrite E, !zlen_app in Hc. pose proof (zlen_nonneg l1). pose proof (zlen_nonneg l2). constructor; [done|tauto|lia|done..].
Qed.

#[export] Instance process_promise : RedoPromise dbstate tag log page_after.
Proof using All.
refine {| svc_ok st := ∃ q, st = buf_write st0 (Some tag) q; svc_fresh st := st = buf_write st0 (Some tag) base0 |}.
- intros ls rest E. destruct (log_part ls rest E) as (rs1 & rs2 & st1 & _ & H1 & _ & Ho & Hr & _). destruct (after_part ls rs1 st1 H1 Ho Hr) as [Hw _]. by apply heap_wf_zlen.
- intros st ->. by exists base0.
- intros st l1 l2 rest [q ->] E. destruct (log_part l1 (l2 ++ rest) E) as (rs1 & rs' & st1 & _ & H1 & _ & Ho1 & Hr1 & _). destruct (after_part l1 rs1 st1 H1 Ho1 Hr1) as [Hw1 E1].
destruct (log_part (l1 ++ l2) rest) as (rs12 & rs3 & st2 & _ & H12 & _ & Ho12 & Hr12 & _); [by rewrite <-app_assoc|]. destruct (after_part (l1 ++ l2) rs12 st2 H12 Ho12 Hr12) as [Hw2 E2].
assert (Hrs2 : ∃ rs2, rs12 = rs1 ++ rs2 ∧ heap_log wal tag l2 rs2).
{ rewrite omap_app, Ho1 in Ho12. exists (omap wal l2). split; [done|]. destruct H12 as [Hf12 Hp12]. unfold page_log in Hp12. rewrite <-Ho12 in Hp12, Hf12. apply Forall_app in Hp12 as [_ Hp2]. split; [|done].
apply Forall2_app_inv_l in Hf12 as (a & b & Ha & Hb & Eab). assert (length a = length rs1) by (rewrite <-(Forall2_length _ _ _ Ha); symmetry; eapply eq_sym, Forall2_length, (proj1 H1)). apply app_inj_1 in Eab as [_ <-]; done. }
destruct Hrs2 as (rs2 & -> & H2). rewrite replay_app, Hr1 in Hr12. cbn [mbind res_bind] in Hr12.
destruct (at_request_writes (buf_write st0 (Some tag) q)) as [Hf Hn].
assert (Hrq : request_ok (buf_write st0 (Some tag) q) tag l2 (page_after l1)) by (eapply request_part; [by exists l1, rest|done|done]).
destruct (handler_spec wal rm_redo0 (at_request (buf_write st0 (Some tag) q)) tag l2 rs2 (page_after l1) st2 Hrq H2) as (q2 & p' & Hx & Hpl & _ & Hdb & Hout & _).
{ cbn [p_db at_request]. by rewrite buf_write_write, <-E1. } { done. } { done. }
exists (p_db p'). cbn [svc_apply process_service]. rewrite Hx. cbn [answer mbind res_bind]. split.
+ f_equal. f_equal. rewrite Hout. cbn [p_out at_request app]. rewrite E2 in Hpl. cbn in Hpl. rewrite lookup_insert_eq in Hpl. congruence.
+ rewrite Hdb, E2. by exists (page_after (l1 ++ l2)).
- intros st ls rest -> E. destruct (log_part ls rest E) as (rs1 & rs2 & st1 & _ & H1 & _ & Ho & Hr & _). destruct (after_part ls rs1 st1 H1 Ho Hr) as [Hw E1].
destruct (new_list_spec (buf_write st0 (Some tag) base0) tag ls rs1 base0 st1) as (q & Hx & Hq); [eapply request_part; [by exists [], rest|done|apply Hrq0]|done|by eapply base_resident|done|].
exists st1. split; [|rewrite E1; by eexists]. rewrite Hx. rewrite E1 in Hq. cbn in Hq. rewrite lookup_insert_eq in Hq. injection Hq as <-. done.
Defined.
End promise.

(** ** The storage server, end to end *)

(** C1: readers of a heap page see the log.  The page is one of the main fork whose
    records are heap records with a plain reference to it: no full-page image, none
    that makes the page anew, no truncation ([heap_log]), and they replay without error
    on the well-formed page [base0]; for other pages, the visibility map among them,
    nothing is claimed.  The storage server starts with an
    empty version map, an empty key-value store and a WAL-redo process that has the
    page [base0].  The records of the page, at growing positions, are recorded one
    after the other; after the first of them, in between, requests for the page arrive and the background
    replay comes by.  A request is allowed ([forward]) when its position is not before
    the first record, not before the position of an earlier request, and not before
    the last record that was recorded when a visit that was due came by; requests that
    go back behind what is replayed are those of [gone_step] and
    [before_first_step].  Then every request is answered, and the
    answer is the page that replay of exactly the recorded records up to its position
    makes of [base0]; whatever the requests and visits before it did to the map, to
    the stored versions and to the process. *)
Theorem heap_readers_see_the_log {DB} `{RocksDBLaws DB, !Reliable DB} wal rm_redo0 reader0 rn forknum blknum log rs st0 stN base0 nbuckets (kv : kvstate DB) evs :
  let tag := request_tag rn forknum blknum in
  request_ok st0 tag log base0 → heap_log wal tag log rs → replay (buf_write st0 (Some tag) base0) tag rs = Ok stN → StronglySorted Z.lt log → Forall (λ l, 0 < l) log → log ≠ [] →
  0 < nbuckets → contents (db kv) = ∅ → forward log 1 (hd 0 log) evs →
  serve (redo_service := process_service wal rm_redo0 reader0) rn forknum blknum log (mkServer (HashMapInit nbuckets) kv (buf_write st0 (Some tag) base0)) 0 (Logged :: evs) =
  Ok (answers log (page_after wal tag st0 base0) 1 evs).
Proof.
  intros tag Hrq Hlog Hrep Hs Hpos Hne Hnb Hkv Hev. pose (P := process_promise wal rm_redo0 reader0 tag log rs st0 stN base0 Hrq Hlog Hrep).
  destruct log as [|l future]; [done|]. assert (Hfits : Forall (λ l, 0 < l < 2 ^ 64) (l :: future)).
  { pose proof (rq_lsns _ _ _ _ Hrq) as Hr. rewrite Forall_forall in Hr, Hpos |- *. intros x Hx. specialize (Hr x Hx). specialize (Hpos x Hx). cbn in *. lia. }
  assert (Htag : tag_fits tag). { destruct (rq_tag _ _ _ _ Hrq) as [[H1 H2 H3 H4] H5]. unfold oid_ok in *. constructor; lia. }
  assert (Hfr : page_fresh (redo_service := process_service wal rm_redo0 reader0) (redo_promise := P) rn forknum blknum (l :: future) (page_after wal tag st0 base0) (mkServer (HashMapInit nbuckets) kv (buf_write st0 (Some tag) base0))) by (by apply start_fresh; [apply init_rel| | | | |]).
  destruct (first_record (redo_service := process_service wal rm_redo0 reader0) (redo_promise := P) rn forknum blknum (l :: future) (page_after wal tag st0 base0) _ l future Hfr eq_refl) as (m' & b & Hi & Hinv). cbn [s_map] in Hi.
  cbn [serve lookup list_lookup s_map s_kv s_svc]. rewrite Hi. cbn [mbind res_bind].
  apply (serve_answers (redo_service := process_service wal rm_redo0 reader0) (redo_promise := P) rn forknum blknum (l :: future) (page_after wal tag st0 base0) evs _ 1 l []); [exact Hinv|cbn [length]; lia|cbn; apply Forall_cons in Hpos as [? _]; lia|done|exact Hev].
Qed.

(** ** Examples *)

Definition demo_service : RedoService dbstate := process_service demo_wal no_redo demo_delete.
Definition demo_start : dbstate := buf_write demo_db (Some demo_tag) demo_page.
Definition demo_kv : kvstate good_db := mkKv false (mkGood ∅).
Definition demo_pages : list Z → page := page_after demo_wal demo_tag demo_db demo_page.

Lemma demo_lsns_sorted : StronglySorted Z.lt demo_lsns.
Proof. apply SSorted_cons; [apply SSorted_cons; constructor|constructor; [vm_compute; reflexivity|constructor]]. Qed.
Lemma demo_lsns_pos : Forall (λ l, 0 < l < 2 ^ 64) demo_lsns.
Proof. do 2 (constructor; [vm_compute; split; reflexivity|]). constructor. Qed.

(** The two records replay. *)
Lemma demo_replay : ∃ st, replay demo_start demo_tag [demo_delete; demo_insert] = Ok st.
Proof.
  assert (He : is_ok (replay demo_start demo_tag [demo_delete; demo_insert]) = true) by (vm_compute; reflexivity).
  destruct (replay demo_start demo_tag [demo_delete; demo_insert]) as [st|]; [by exists st|discriminate He].
Qed.

(** The page with its first record recorded, and with both. *)
Lemma demo_promise : ∃ P : @RedoPromise dbstate demo_service demo_tag demo_lsns demo_pages, @svc_fresh _ _ _ _ _ P demo_start.
Proof.
  destruct demo_replay as [st Hst]. exists (process_promise demo_wal no_redo demo_delete demo_tag demo_lsns _ demo_db st demo_page demo_request_ok demo_heap_log Hst). reflexivity.
Qed.

Lemma demo_fresh (P : @RedoPromise dbstate demo_service demo_tag demo_lsns demo_pages) : @svc_fresh _ _ _ _ _ P demo_start →
  page_fresh (redo_service := demo_service) (redo_promise := P) demo_rel 0 0 demo_lsns demo_pages (mkServer (HashMapInit 7) demo_kv demo_start).
Proof.
  intros Hfr. apply start_fresh; [by apply init_rel|done|done|constructor; vm_compute; split; (discriminate || reflexivity)|apply demo_lsns_sorted|apply demo_lsns_pos].
Qed.

Lemma demo_inv (P : @RedoPromise dbstate demo_service demo_tag demo_lsns demo_pages) : @svc_fresh _ _ _ _ _ P demo_start →
  ∃ s, page_inv (redo_service := demo_service) (redo_promise := P) demo_rel 0 0 demo_lsns demo_pages (s : server good_db dbstate) demo_lsns [].
Proof.
  intros Hfr. destruct (first_record (redo_service := demo_service) (redo_promise := P) demo_rel 0 0 demo_lsns demo_pages _ (EndRecPtr demo_delete - 50) [EndRecPtr demo_insert - 50] (demo_fresh P Hfr) eq_refl) as (m & b & _ & Hinv).
  destruct (insert_step (redo_service := demo_service) (redo_promise := P) demo_rel 0 0 demo_lsns demo_pages _ _ _ (EndRecPtr demo_insert - 50) [] Hinv) as (m2 & b2 & _ & Hinv2); [done|]. eexists. exact Hinv2.
Qed.

Lemma heap_readers_see_the_log_witness : ∃ ps, serve (redo_service := demo_service) demo_rel 0 0 demo_lsns (mkServer (HashMapInit 7) demo_kv demo_start) 0
  [Logged; Read true (EndRecPtr demo_delete - 50); Logged; Read false (EndRecPtr demo_delete - 1); Visit true true; Read false 5000] = Ok ps ∧ length ps = 3%nat.
Proof.
  destruct demo_replay as [st Hst].
  pose proof (heap_readers_see_the_log demo_wal no_redo demo_delete demo_rel 0 0 demo_lsns [demo_delete; demo_insert] demo_db st demo_page 7 demo_kv
    [Read true (EndRecPtr demo_delete - 50); Logged; Read false (EndRecPtr demo_delete - 1); Visit true true; Read false 5000]
    demo_request_ok demo_heap_log Hst demo_lsns_sorted) as H.
  eexists. split; [apply H|].
  - do 2 (constructor; [vm_compute; reflexivity|]). constructor.
  - discriminate.
  - reflexivity.
  - reflexivity.
  - cbn [forward]. split_and!; try exact I; vm_compute; discriminate.
  - reflexivity.
Defined.

Lemma read_at_position_witness : ∃ (s s' : server good_db dbstate), ReadBufferCommon (H0 := demo_service) false s demo_rel 0 0 (EndRecPtr demo_delete) = Ok (demo_pages [EndRecPtr demo_delete - 50], s').
Proof.
  destruct demo_promise as [P Hfr]. destruct (demo_inv P Hfr) as [s Hinv]. exists s.
  destruct (read_at_position (redo_service := demo_service) (redo_promise := P) demo_rel 0 0 demo_lsns demo_pages false s demo_lsns [] (EndRecPtr demo_delete) Hinv) as (s' & E & _).
  - vm_compute. discriminate.
  - vm_compute. discriminate.
  - exists s'. exact E.
Defined.

Lemma old_version_crashes_witness : ∃ (s : server good_db dbstate) m, ReadBufferCommon (H0 := demo_service) false s demo_rel 0 0 (EndRecPtr demo_delete) = Err EOob ∧
  ReadBufferCommon (H0 := demo_service) false s demo_rel 0 0 1 = '(buff, svc) ← @svc_base _ demo_service (s_svc s) demo_tag; Ok (buff, mkServer m (s_kv s) svc).
Proof.
  destruct demo_promise as [P Hfr]. destruct (demo_inv P Hfr) as [s Hinv].
  destruct (read_step (redo_service := demo_service) (redo_promise := P) demo_rel 0 0 demo_lsns demo_pages false s demo_lsns [] 5000 Hinv) as (s' & _ & Hinv').
  - vm_compute. discriminate.
  - vm_compute. discriminate.
  - destruct (old_version_crashes (redo_service := demo_service) (redo_promise := P) demo_rel 0 0 demo_lsns demo_pages s' demo_lsns _ 1 Hinv') as [_ Hb]; [lia|].
    destruct Hb as (m & Hm & _); [vm_compute; discriminate|vm_compute; reflexivity|].
    exists s', m. split; [|apply Hm]. apply (old_version_crashes (redo_service := demo_service) (redo_promise := P) demo_rel 0 0 demo_lsns demo_pages s' demo_lsns _ _ Hinv').
    + vm_compute. reflexivity.
    + left. exists (EndRecPtr demo_insert - 50). split_and!; [vm_compute; reflexivity|vm_compute; discriminate|vm_compute; reflexivity].
Defined.

Lemma background_replays_ahead_witness : ∃ (s s' : server good_db dbstate) p, background_visit (H0 := demo_service) true true s (request_key demo_rel 0 0) = Ok s' ∧
  ReadBufferCommon (H0 := demo_service) false s' demo_rel 0 0 5000 = Ok (demo_pages demo_lsns, p).
Proof.
  destruct demo_promise as [P Hfr]. destruct (demo_inv P Hfr) as [s Hinv].
  destruct (background_replays_ahead (redo_service := demo_service) (redo_promise := P) demo_rel 0 0 demo_lsns demo_pages true true s demo_lsns [] Hinv) as (s' & E & Hinv').
  destruct (read_step (redo_service := demo_service) (redo_promise := P) demo_rel 0 0 demo_lsns demo_pages false s' demo_lsns _ 5000 Hinv') as (s'' & E' & _).
  - vm_compute. discriminate.
  - vm_compute. discriminate.
  - exists s, s', s''. split; [exact E|exact E'].
Defined.

(** The startup process of the server comes to the first record of the page, and
    then to the second. *)
Lemma record_is_logged_witness : ∃ (s' s'' : server good_db dbstate) p,
  log_record no_redo (mkServer (HashMapInit 7) demo_kv demo_start) demo_db demo_delete = Ok (s', demo_db) ∧ log_record no_redo s' demo_db demo_insert = Ok (s'', demo_db) ∧
  ReadBufferCommon (H0 := demo_service) false s'' demo_rel 0 0 5000 = Ok (demo_pages demo_lsns, p).
Proof.
  destruct demo_promise as [P Hfr]. pose proof (init_rel 7 ltac:(lia)) as Hr.
  assert (Hu : unlocked (mkServer (HashMapInit 7) demo_kv demo_start)) by (intros k p Hk; destruct Hr as [_ Hv]; cbn [s_map] in Hk; rewrite Hv, lookup_empty in Hk; discriminate Hk).
  assert (Hft : Forall tag_fits [demo_tag]) by (constructor; [constructor; vm_compute; split; (discriminate || reflexivity)|constructor]).
  destruct (record_is_logged (redo_service := demo_service) (redo_promise := P) demo_rel 0 0 demo_lsns demo_pages no_redo _ demo_db [] [] demo_delete demo_delete true [demo_tag] (or_introl (conj eq_refl (conj eq_refl (demo_fresh P Hfr)))) Hu) as (s1 & E1 & Hu1 & Hinv1).
  - lia.
  - vm_compute. reflexivity.
  - vm_compute. reflexivity.
  - vm_compute. reflexivity.
  - exact Hft.
  - intros _. exists [EndRecPtr demo_insert - 50]. reflexivity.
  - rewrite decide_True in Hinv1 by (by left).
    destruct (record_is_logged (redo_service := demo_service) (redo_promise := P) demo_rel 0 0 demo_lsns demo_pages no_redo _ demo_db _ _ demo_insert demo_insert true [demo_tag] (or_intror Hinv1) Hu1) as (s' & E2 & _ & Hinv').
    + lia.
    + vm_compute. reflexivity.
    + vm_compute. reflexivity.
    + vm_compute. reflexivity.
    + exact Hft.
    + intros _. exists []. reflexivity.
    + rewrite decide_True in Hinv' by (by left).
      destruct (read_step (redo_service := demo_service) (redo_promise := P) demo_rel 0 0 demo_lsns demo_pages false s' demo_lsns [] 5000 Hinv') as (s2 & E3 & _).
      * vm_compute. discriminate.
      * vm_compute. discriminate.
      * exists s1, s', s2. split_and!; [exact E1|exact E2|exact E3].
Defined.
