(* ===== verification/RelCache.v ===== *)
(** * The relation size cache and the remote storage manager

    A compute node and the storage server each keep a table of relation sizes in
    shared memory ([rel_cache.c], [builtin_shmht.cpp]).  The storage manager of a
    compute node ([rpcmd.c]) asks its table first, then the server
    ([rpcserver.cpp]), which asks its own table and then a WAL-redo process; the
    startup process of the server raises sizes as it reads the log ([xlog.c]).
    Each section under a lock is one step; a page and a relation reach the
    WAL-redo process through a class. *)

From S2P Require Import Prelude Mem Page Buffer WalRecord XLogDecode KvStore.

(** ** Keys *)

Record RelKey : Type := mkRelKey { SpcId : Z; DbId : Z; RelId : Z; rk_forkNum : Z }.
Record RelTag : Type := mkRelTag { reln : RelFileNode; forkNumber : Z }.

#[export] Instance RelTag_eq_dec : EqDecision RelTag.
Proof. solve_decision. Defined.
#[export] Instance RelTag_countable : Countable RelTag.
Proof. refine (inj_countable' (λ t, (reln t, forkNumber t)) (λ p, mkRelTag p.1 p.2) _). by intros []. Defined.

Definition TransRelNode2RelKey (node : RelFileNode) (fork : Z) : RelKey := mkRelKey (spcNode node) (dbNode node) (relNode node) (fork mod 2 ^ 32).

Definition ParseRelKey2RelTag (relKey : RelKey) : RelTag :=
  mkRelTag (mkRel (SpcId relKey mod 2 ^ 32) (DbId relKey mod 2 ^ 32) (RelId relKey mod 2 ^ 32)) (to_int (rk_forkNum relKey)).

(** ** The table: sizes are [int] *)

Abbreviation size_table := (gmap RelTag Z).

Definition RelSizeTableLookup (t : size_table) (tag : RelTag) : Z := match t !! tag with Some relSize => relSize | None => -1 end.
Definition RelSizeTableInsert (t : size_table) (tag : RelTag) (relSize : Z) : size_table * Z :=
  (<[tag := relSize]> t, match t !! tag with Some _ => relSize | None => -1 end).
Definition RelSizeTableDelete (t : size_table) (tag : RelTag) : res size_table := match t !! tag with Some _ => Ok (delete tag t) | None => Err EError end.

(** A size is an unsigned number outside. *)
Definition InsertRelSizeCache (t : size_table) (relKey : RelKey) (blockNum : Z) : size_table :=
  (RelSizeTableInsert t (ParseRelKey2RelTag relKey) (to_int blockNum)).1.
Definition GetRelSizeCache (t : size_table) (relKey : RelKey) : option Z :=
  let re := RelSizeTableLookup t (ParseRelKey2RelTag relKey) in
  if re =? -1 then None else Some (re mod 2 ^ 32).

(** ** What the server asks of a WAL-redo process *)

(** [SyncGetRelSize], [WalRedoCreateRel] and [WalRedoExtendRel]. *)
Class RelService (S : Type) : Type := {
  svc_rel_size : S → RelFileNode → Z → res (Z * S);
  svc_create : S → RelFileNode → Z → res S;
  svc_extend : S → BufferTag → page → res S }.

Section sizes.
Context {S : Type} `{RelService S}.

Record size_server : Type := mkSizeServer { ss_cache : size_table; ss_svc : S }.

(** ** Requests to the server *)

(** A size that was not in the table is remembered, when there is one. *)
Definition remember_size (s : size_server) (relKey : RelKey) (relSize : Z) : size_server :=
if (0 <=? relSize) && negb (bool_decide (is_Some (GetRelSizeCache (ss_cache s) relKey))) then mkSizeServer (InsertRelSizeCache (ss_cache s) relKey (relSize mod 2 ^ 32)) (ss_svc s) else s.

Definition RpcMdNblocks (s : size_server) (rn : RelFileNode) (fork : Z) : res (Z * size_server) :=
let relKey := TransRelNode2RelKey rn fork in
match GetRelSizeCache (ss_cache s) relKey with
| Some foundPageNum => Ok (to_int foundPageNum, s)
| None =>
'(relSize, svc) ← svc_rel_size (ss_svc s) rn fork;
Ok (relSize, remember_size (mkSizeServer (ss_cache s) svc) relKey relSize)
end.

Definition RpcMdExists (s : size_server) (rn : RelFileNode) (fork : Z) : res (Z * size_server) :=
let relKey := TransRelNode2RelKey rn fork in
match GetRelSizeCache (ss_cache s) relKey with
| Some _ => Ok (1, s)
| None =>
'(relSize, svc) ← svc_rel_size (ss_svc s) rn fork;
Ok (if 0 <=? relSize then 1 else 0, remember_size (mkSizeServer (ss_cache s) svc) relKey relSize)
end.

Definition RpcMdCreate (s : size_server) (rn : RelFileNode) (fork : Z) : res size_server :=
svc ← svc_create (ss_svc s) rn fork;
Ok (mkSizeServer (ss_cache s) svc).

Definition RpcMdExtend (s : size_server) (rn : RelFileNode) (fork blknum : Z) (buff : page) : res size_server :=
svc ← svc_extend (ss_svc s) (INIT_BUFFERTAG rn fork (blknum mod 2 ^ 32)) buff;
Ok (mkSizeServer (ss_cache s) svc).

Definition RpcTruncate (s : size_server) (rn : RelFileNode) (fork blknum : Z) : size_server :=
mkSizeServer (InsertRelSizeCache (ss_cache s) (TransRelNode2RelKey rn fork) (blknum mod 2 ^ 32)) (ss_svc s).

(** What the startup process does for a block of a record; the size from the
process is compared as an unsigned number. *)
Definition log_block_size (s : size_server) (rn : RelFileNode) (fork blkno : Z) : res size_server :=
let relKey := TransRelNode2RelKey rn fork in
let next := (blkno + 1) mod 2 ^ 32 in
match GetRelSizeCache (ss_cache s) relKey with
| Some result => Ok (if result <? next then mkSizeServer (InsertRelSizeCache (ss_cache s) relKey next) (ss_svc s) else s)
| None =>
'(baseRelSize, svc) ← svc_rel_size (ss_svc s) rn fork;
let size := if next <? baseRelSize mod 2 ^ 32 then baseRelSize mod 2 ^ 32 else next in
Ok (mkSizeServer (InsertRelSizeCache (ss_cache s) relKey size) svc)
end.

(** The blocks of a record, one after the other. *)
Fixpoint log_block_sizes (s : size_server) (r : XLogReaderState) (i n : nat) : res size_server :=
match n with
| O => Ok s
| Datatypes.S n =>
s ← (match XLogRecGetBlockTag r (Z.of_nat i) with
| Some tag => log_block_size s (rnode tag) (forkNum tag) (blockNum tag)
| None => Ok s
end);
log_block_sizes s r (Datatypes.S i) n
end.
Definition log_record_sizes (s : size_server) (r : XLogReaderState) : res size_server := log_block_sizes s r 0 (Z.to_nat (max_block_id r + 1)).

(** ** The storage manager of a compute node *)

(** [result >= 0] holds of every unsigned number. *)
Definition rpcmdexists (c : size_table) (s : size_server) (rn : RelFileNode) (fork : Z) : res (bool * size_server) :=
match GetRelSizeCache c (TransRelNode2RelKey rn fork) with
| Some result => Ok (0 <=? result, s)
| None => '(rpcResult, s) ← RpcMdExists s rn fork; Ok (negb (rpcResult =? 0), s)
end.

Definition rpcmdcreate (InRecovery : bool) (c : size_table) (s : size_server) (rn : RelFileNode) (fork : Z) : res (size_table * size_server) :=
let relKey := TransRelNode2RelKey rn fork in
let c :=
match GetRelSizeCache c relKey with
| Some result => if result <? 0 then InsertRelSizeCache c relKey 0 else c
| None => InsertRelSizeCache c relKey 0
end in
s ← (if InRecovery then Ok s else RpcMdCreate s rn fork);
Ok (c, s).

Definition rpcmdextend (InRecovery : bool) (c : size_table) (s : size_server) (rn : RelFileNode) (fork blocknum : Z) (buffer : page) : res (size_table * size_server) :=
let relKey := TransRelNode2RelKey rn fork in
let next := (blocknum + 1) mod 2 ^ 32 in
let c :=
match GetRelSizeCache c relKey with
| Some result => if result <? next then InsertRelSizeCache c relKey next else c
| None => InsertRelSizeCache c relKey next
end in
s ← (if InRecovery then Ok s else RpcMdExtend s rn fork (to_int blocknum) buffer);
Ok (c, s).

Definition rpcmdnblocks (c : size_table) (s : size_server) (rn : RelFileNode) (fork : Z) : res (Z * size_table * size_server) :=
let relKey := TransRelNode2RelKey rn fork in
match GetRelSizeCache c relKey with
| Some result => Ok (result, c, s)
| None =>
'(blckNum, s) ← RpcMdNblocks s rn fork;
let blckNum := blckNum mod 2 ^ 32 in
let c := match GetRelSizeCache c relKey with Some _ => c | None => InsertRelSizeCache c relKey blckNum end in
Ok (blckNum, c, s)
end.

Definition rpcmdtruncate (InRecovery : bool) (c : size_table) (s : size_server) (rn : RelFileNode) (fork nblocks : Z) : size_table * size_server :=
let c := InsertRelSizeCache c (TransRelNode2RelKey rn fork) nblocks in
(c, if InRecovery then s else RpcTruncate s rn fork (to_int nblocks)).
End sizes.
Arguments size_server S : clear implicits.
