(* ===== verification/RelCacheSpec.v ===== *)
(** * The theorems of the relation size cache

    On the compute node that writes, the tables behave as one map of sizes.  On
    other nodes they need not: three ways to a wrong size. *)

From S2P Require Import Prelude Mem Page Buffer WalRecord XLogDecode HeapTuple HeapRedo Resident HeapRefine HeapReplay HeapSpec RedoPipe StorageServer Dispatch WalRedo WalRedoSpec KvStore RelCache.

(** ** The table *)

Definition size_fits (n : Z) : Prop := 0 ≤ n < 2 ^ 31.
Definition known_size (t : size_table) (rn : RelFileNode) (fork : Z) : option Z := GetRelSizeCache t (TransRelNode2RelKey rn fork).
Definition cache (t : size_table) (rn : RelFileNode) (fork n : Z) : size_table := InsertRelSizeCache t (TransRelNode2RelKey rn fork) n.

Lemma rel_key_tag rn fork : rel_ok rn fork → ParseRelKey2RelTag (TransRelNode2RelKey rn fork) = mkRelTag rn fork.
Proof.
  intros [H1 H2 H3 H4]. unfold oid_ok in *. unfold ParseRelKey2RelTag, TransRelNode2RelKey, to_int. cbn [SpcId DbId RelId rk_forkNum]. rewrite Z.mod_mod by lia. rewrite !Z.mod_small by lia. rewrite (proj2 (Z.ltb_lt _ _)) by lia. by destruct rn.
Qed.

Lemma to_int_fits n : size_fits n → to_int n = n.
Proof. unfold size_fits, to_int. intros Hn. rewrite Z.mod_small by lia. by rewrite (proj2 (Z.ltb_lt _ _)) by lia. Qed.

Lemma known_same t rn fork n : rel_ok rn fork → size_fits n → known_size (cache t rn fork n) rn fork = Some n.
Proof.
  intros Hr Hn. unfold known_size, cache, GetRelSizeCache, InsertRelSizeCache, RelSizeTableLookup, RelSizeTableInsert. rewrite rel_key_tag by done. cbn [fst]. rewrite lookup_insert_eq, to_int_fits by done.
  unfold size_fits in Hn. rewrite (proj2 (Z.eqb_neq _ _)) by lia. by rewrite Z.mod_small by lia.
Qed.

(** The size -1 is no size. *)
Lemma known_missing t rn fork : rel_ok rn fork → known_size (cache t rn fork (2 ^ 32 - 1)) rn fork = None.
Proof. intros Hr. unfold known_size, cache, GetRelSizeCache, InsertRelSizeCache, RelSizeTableLookup, RelSizeTableInsert. rewrite rel_key_tag by done. cbn [fst]. by rewrite lookup_insert_eq. Qed.

Lemma known_other t rn fork n rn' fork' : rel_ok rn fork → rel_ok rn' fork' → mkRelTag rn' fork' ≠ mkRelTag rn fork → known_size (cache t rn fork n) rn' fork' = known_size t rn' fork'.
Proof.
  intros Hr Hr' Hne. unfold known_size, cache, GetRelSizeCache, InsertRelSizeCache, RelSizeTableLookup, RelSizeTableInsert. rewrite !rel_key_tag by done. cbn [fst]. by rewrite lookup_insert_ne.
Qed.

Lemma known_empty rn fork : known_size ∅ rn fork = None.
Proof. unfold known_size, GetRelSizeCache, RelSizeTableLookup. by rewrite lookup_empty. Qed.

(** ** What a WAL-redo process promises about sizes *)

Class RelPromise (S : Type) `{RelService S} : Type := {
  rel_size : S → RelFileNode → Z → option Z;
  promise_size s rn fork n : rel_ok rn fork → rel_size s rn fork = Some n → size_fits n → ∃ s', svc_rel_size s rn fork = Ok (n, s') ∧ rel_size s' = rel_size s;
  promise_no_size s rn fork : rel_ok rn fork → rel_size s rn fork = None → ∃ s', svc_rel_size s rn fork = Ok (-1, s') ∧ rel_size s' = rel_size s;
  promise_create s rn fork : rel_ok rn fork → rel_size s rn fork = None →
    ∃ s', svc_create s rn fork = Ok s' ∧ rel_size s' rn fork = Some 0 ∧ ∀ rn' fork', mkRelTag rn' fork' ≠ mkRelTag rn fork → rel_size s' rn' fork' = rel_size s rn' fork';
  promise_extend s rn fork blk pg n : rel_ok rn fork → rel_size s rn fork = Some n → size_fits blk → zlen pg = BLCKSZ →
    ∃ s', svc_extend s (mkTag rn fork blk) pg = Ok s' ∧ rel_size s' rn fork = Some (Z.max n (blk + 1)) ∧ ∀ rn' fork', mkRelTag rn' fork' ≠ mkRelTag rn fork → rel_size s' rn' fork' = rel_size s rn' fork' }.

Section writer.
Context {S : Type} `{RelPromise S}.

(** ** The map of sizes *)

Definition server_size (s : size_server S) (rn : RelFileNode) (fork : Z) : option Z :=
match known_size (ss_cache s) rn fork with Some n => Some n | None => rel_size (ss_svc s) rn fork end.
Definition node_size (c : size_table) (s : size_server S) (rn : RelFileNode) (fork : Z) : option Z :=
match known_size c rn fork with Some n => Some n | None => server_size s rn fork end.

(** The node and the server hold the sizes [a]: the table of the node has
precedence over the one of the server, that over the files. *)
Record sizes_rel (c : size_table) (s : size_server S) (a : gmap RelTag Z) : Prop := {
sr_view : ∀ rn fork, rel_ok rn fork → a !! mkRelTag rn fork = node_size c s rn fork;
sr_fits : ∀ t n, a !! t = Some n → size_fits n;
sr_file : ∀ rn fork, rel_ok rn fork → is_Some (a !! mkRelTag rn fork) → ∃ m, rel_size (ss_svc s) rn fork = Some m ∧ size_fits m }.

(** A step on one relation leaves the others alone. *)
Definition elsewhere (c : size_table) (s : size_server S) (c' : size_table) (s' : size_server S) (rn : RelFileNode) (fork : Z) : Prop :=
∀ rn' fork', rel_ok rn' fork' → mkRelTag rn' fork' ≠ mkRelTag rn fork →
known_size c' rn' fork' = known_size c rn' fork' ∧ known_size (ss_cache s') rn' fork' = known_size (ss_cache s) rn' fork' ∧ rel_size (ss_svc s') rn' fork' = rel_size (ss_svc s) rn' fork'.

Lemma rel_step c s a c' s' rn fork n m : sizes_rel c s a → elsewhere c s c' s' rn fork → node_size c' s' rn fork = Some n → size_fits n → rel_size (ss_svc s') rn fork = Some m → size_fits m →
sizes_rel c' s' (<[mkRelTag rn fork := n]> a).
Proof using All.
intros [Hv Hf Hx] He Hn Hfn Hm Hfm. constructor.
- intros rn' fork' Hr. destruct (decide (mkRelTag rn' fork' = mkRelTag rn fork)) as [E|E]; [injection E as -> ->; by rewrite lookup_insert_eq|]. rewrite lookup_insert_ne by done.
destruct (He rn' fork' Hr E) as (E1 & E2 & E3). rewrite Hv by done. unfold node_size, server_size. by rewrite E1, E2, E3.
- intros t x. rewrite lookup_insert_Some. intros [[_ <-]|[_ Hx']]; [done|by eapply Hf].
- intros rn' fork' Hr Hs. destruct (decide (mkRelTag rn' fork' = mkRelTag rn fork)) as [E|E]; [injection E as -> ->; by exists m|]. rewrite lookup_insert_ne in Hs by done.
destruct (He rn' fork' Hr E) as (E1 & E2 & ->). by apply Hx.
Qed.

Lemma rel_keep c s a c' s' rn fork : sizes_rel c s a → elsewhere c s c' s' rn fork → node_size c' s' rn fork = node_size c s rn fork → rel_size (ss_svc s') rn fork = rel_size (ss_svc s) rn fork → sizes_rel c' s' a.
Proof using All.
intros [Hv Hf Hx] He Hn Hm. constructor; [|done|].
- intros rn' fork' Hr. rewrite Hv by done. destruct (decide (mkRelTag rn' fork' = mkRelTag rn fork)) as [E|E]; [by injection E as -> ->|].
destruct (He rn' fork' Hr E) as (E1 & E2 & E3). unfold node_size, server_size. by rewrite E1, E2, E3.
- intros rn' fork' Hr Hs. destruct (decide (mkRelTag rn' fork' = mkRelTag rn fork)) as [E|E]; [injection E as -> ->; rewrite Hm; by apply Hx|]. destruct (He rn' fork' Hr E) as (E1 & E2 & ->). by apply Hx.
Qed.

(** The file of a relation that the server asks about, or that it has in its
table. *)
Lemma ask_size s rn fork o : rel_ok rn fork → rel_size (ss_svc s) rn fork = o → (∀ n, o = Some n → size_fits n) → ∃ svc, svc_rel_size (ss_svc s) rn fork = Ok (default (-1) o, svc) ∧ rel_size svc = rel_size (ss_svc s).
Proof using All. intros Hr Ho Hf. destruct o as [n|]; [apply promise_size; auto|by apply promise_no_size]. Qed.

(** The size as the server knows it, and that it remembers it. *)
Lemma server_learns s rn fork : rel_ok rn fork → known_size (ss_cache s) rn fork = None → (∀ n, rel_size (ss_svc s) rn fork = Some n → size_fits n) →
∃ svc, let o := rel_size (ss_svc s) rn fork in let s' := remember_size (mkSizeServer (ss_cache s) svc) (TransRelNode2RelKey rn fork) (default (-1) o) in
svc_rel_size (ss_svc s) rn fork = Ok (default (-1) o, svc) ∧ server_size s' rn fork = o ∧ rel_size (ss_svc s') = rel_size (ss_svc s) ∧
∀ rn' fork', rel_ok rn' fork' → mkRelTag rn' fork' ≠ mkRelTag rn fork → known_size (ss_cache s') rn' fork' = known_size (ss_cache s) rn' fork'.
Proof using All.
intros Hr Hc Hf. destruct (ask_size s rn fork _ Hr eq_refl Hf) as (svc & E & Es). exists svc. cbn zeta. split; [done|]. unfold remember_size, server_size. cbn [ss_cache ss_svc].
destruct (rel_size (ss_svc s) rn fork) as [n|] eqn:Eo; cbn [from_option id].
- specialize (Hf n eq_refl). rewrite (proj2 (Z.leb_le _ _)) by apply Hf. rewrite bool_decide_false by (unfold known_size in Hc; rewrite Hc; by intros [? ?]). cbn [negb andb ss_cache ss_svc]. rewrite Z.mod_small by (unfold size_fits in Hf; lia).
fold (cache (ss_cache s) rn fork n). rewrite known_same by done. split_and!; [done..|]. intros rn' fork' Hr' Hne. by apply known_other.
- change (0 <=? -1) with false. cbn [andb ss_cache ss_svc]. rewrite Hc, Es, Eo. done.
Qed.

(** ** The operations of the node that writes *)

(** [SLogged] is the startup process of the server at a block of a record. *)
Inductive size_op : Type :=
| SCreate (rn : RelFileNode) (fork : Z) | SExtend (rn : RelFileNode) (fork blk : Z) (pg : page) | STruncate (rn : RelFileNode) (fork n : Z)
| SNblocks (rn : RelFileNode) (fork : Z) | SExists (rn : RelFileNode) (fork : Z) | SLogged (rn : RelFileNode) (fork blk : Z).
Inductive size_out : Type := ODone | OSize (n : Z) | OExists (b : bool).

Definition node_exec (c : size_table) (s : size_server S) (op : size_op) : res (size_table * size_server S * size_out) :=
match op with
| SCreate rn fork => '(c, s) ← rpcmdcreate false c s rn fork; Ok (c, s, ODone)
| SExtend rn fork blk pg => '(c, s) ← rpcmdextend false c s rn fork blk pg; Ok (c, s, ODone)
| STruncate rn fork n => Ok (rpcmdtruncate false c s rn fork n, ODone)
| SNblocks rn fork => '(n, c, s) ← rpcmdnblocks c s rn fork; Ok (c, s, OSize n)
| SExists rn fork => '(b, s) ← rpcmdexists c s rn fork; Ok (c, s, OExists b)
| SLogged rn fork blk => s ← log_block_size s rn fork blk; Ok (c, s, ODone)
end.

(** The same on a map of sizes; the size of a relation that does not exist reads
as [InvalidBlockNumber]. *)
Definition size_exec (a : gmap RelTag Z) (op : size_op) : gmap RelTag Z * size_out :=
match op with
| SCreate rn fork => (<[mkRelTag rn fork := 0]> a, ODone)
| SExtend rn fork blk _ => (<[mkRelTag rn fork := blk + 1]> a, ODone)
| STruncate rn fork n => (<[mkRelTag rn fork := n]> a, ODone)
| SNblocks rn fork => (a, OSize (default InvalidBlockNumber (a !! mkRelTag rn fork)))
| SExists rn fork => (a, OExists (bool_decide (is_Some (a !! mkRelTag rn fork))))
| SLogged _ _ _ => (a, ODone)
end.

(** A relation is created once; it is extended at or beyond its end and truncated
when it exists; a record is about a block of a relation. *)
Definition op_allowed (a : gmap RelTag Z) (op : size_op) : Prop :=
match op with
| SCreate rn fork => rel_ok rn fork ∧ a !! mkRelTag rn fork = None
| SExtend rn fork blk pg => rel_ok rn fork ∧ (∃ n, a !! mkRelTag rn fork = Some n ∧ n ≤ blk) ∧ blk + 1 < 2 ^ 31 ∧ zlen pg = BLCKSZ
| STruncate rn fork n => rel_ok rn fork ∧ is_Some (a !! mkRelTag rn fork) ∧ size_fits n
| SNblocks rn fork | SExists rn fork => rel_ok rn fork
| SLogged rn fork blk => rel_ok rn fork ∧ 0 ≤ blk ∧ ∃ n, a !! mkRelTag rn fork = Some n ∧ blk < n
end.

Definition exec_ok (c : size_table) (s : size_server S) (a : gmap RelTag Z) (op : size_op) : Prop :=
∃ c' s', node_exec c s op = Ok (c', s', (size_exec a op).2) ∧ sizes_rel c' s' (size_exec a op).1.

Lemma create_exec c s a rn fork : sizes_rel c s a → op_allowed a (SCreate rn fork) → exec_ok c s a (SCreate rn fork).
Proof using All.
intros Hr [Hrel Hn]. pose proof (sr_view _ _ _ Hr rn fork Hrel) as Hv. rewrite Hn in Hv. unfold node_size, server_size in Hv. destruct (known_size c rn fork) eqn:Ec; [done|]. destruct (known_size (ss_cache s) rn fork) eqn:Es; [done|].
destruct (promise_create (ss_svc s) rn fork Hrel (eq_sym Hv)) as (svc & E & Hz & Ho). unfold exec_ok. cbn [node_exec size_exec fst snd]. unfold rpcmdcreate, RpcMdCreate. fold (known_size c rn fork). rewrite Ec, E. cbn [mbind res_bind].
fold (cache c rn fork 0). eexists _, _. split; [done|]. apply (rel_step c s a _ _ rn fork 0 0); try done. { intros rn' fork' Hr' Hne. cbn [ss_cache ss_svc]. split_and!; [by apply known_other|done|by apply Ho]. }
unfold node_size. by rewrite known_same.
Qed.

Lemma extend_exec c s a rn fork blk pg : sizes_rel c s a → op_allowed a (SExtend rn fork blk pg) → exec_ok c s a (SExtend rn fork blk pg).
Proof using All.
intros Hr (Hrel & (n & Hn & Hblk) & Hb & Hpg). pose proof (sr_fits _ _ _ Hr _ _ Hn) as Hfn. destruct (sr_file _ _ _ Hr rn fork Hrel) as (m & Hm & Hfm); [by exists n|]. pose proof (sr_view _ _ _ Hr rn fork Hrel) as Hv. rewrite Hn in Hv.
unfold size_fits in *. destruct (promise_extend (ss_svc s) rn fork blk pg m Hrel Hm) as (svc & E & Hz & Ho); [unfold size_fits; lia|done|]. unfold exec_ok. cbn [node_exec size_exec fst snd]. unfold rpcmdextend, RpcMdExtend.
rewrite to_int_fits by (unfold size_fits; lia). rewrite Z.mod_small by lia. unfold INIT_BUFFERTAG. rewrite Z.mod_small by lia. rewrite E. cbn [mbind res_bind]. fold (known_size c rn fork) (cache c rn fork (blk + 1)).
assert (Hc : match known_size c rn fork with Some result => if result <? blk + 1 then cache c rn fork (blk + 1) else c | None => cache c rn fork (blk + 1) end = cache c rn fork (blk + 1)).
{ unfold node_size in Hv. destruct (known_size c rn fork) as [n'|]; [|done]. injection Hv as <-. by rewrite (proj2 (Z.ltb_lt _ _)) by lia. }
rewrite Hc. eexists _, _. split; [done|]. apply (rel_step c s a _ _ rn fork (blk + 1) (Z.max m (blk + 1))); try done; [|unfold node_size; by rewrite known_same by (done || unfold size_fits; lia)|unfold size_fits; lia..].
intros rn' fork' Hr' Hne. cbn [ss_cache ss_svc]. split_and!; [by apply known_other|done|by apply Ho].
Qed.

Lemma truncate_exec c s a rn fork n : sizes_rel c s a → op_allowed a (STruncate rn fork n) → exec_ok c s a (STruncate rn fork n).
Proof using All.
intros Hr (Hrel & Hs & Hfn). destruct (sr_file _ _ _ Hr rn fork Hrel Hs) as (m & Hm & Hfm). unfold exec_ok. cbn [node_exec size_exec fst snd]. unfold rpcmdtruncate, RpcTruncate. rewrite to_int_fits, Z.mod_small by (done || unfold size_fits in *; lia).
fold (cache c rn fork n) (cache (ss_cache s) rn fork n). eexists _, _. split; [done|]. apply (rel_step c s a _ _ rn fork n m); try done; [|unfold node_size; by rewrite known_same].
intros rn' fork' Hr' Hne. cbn [ss_cache ss_svc]. split_and!; [by apply known_other..|done].
Qed.

(** A size the node does not have fits when the server has it. *)
Lemma server_fits c s a rn fork : sizes_rel c s a → rel_ok rn fork → known_size c rn fork = None → a !! mkRelTag rn fork = server_size s rn fork ∧ ∀ n, server_size s rn fork = Some n → size_fits n.
Proof using All.
intros Hr Hrel Hc. pose proof (sr_view _ _ _ Hr rn fork Hrel) as Hv. unfold node_size in Hv. rewrite Hc in Hv. split; [done|]. intros n Hn. rewrite Hn in Hv. by eapply sr_fits.
Qed.

Lemma nblocks_exec c s a rn fork : sizes_rel c s a → op_allowed a (SNblocks rn fork) → exec_ok c s a (SNblocks rn fork).
Proof using All.
intros Hr Hrel. unfold exec_ok. cbn [node_exec size_exec fst snd]. unfold rpcmdnblocks, RpcMdNblocks. fold (known_size c rn fork) (known_size (ss_cache s) rn fork). destruct (known_size c rn fork) as [n|] eqn:Ec.
{ cbn [mbind res_bind]. eexists c, s. rewrite (sr_view _ _ _ Hr rn fork Hrel). unfold node_size. rewrite Ec. done. }
destruct (server_fits c s a rn fork Hr Hrel Ec) as [Ha Hf]. unfold server_size in Hf, Ha. destruct (known_size (ss_cache s) rn fork) as [n|] eqn:Es.
- specialize (Hf n eq_refl). rewrite to_int_fits by done. cbn [mbind res_bind]. rewrite Z.mod_small by (unfold size_fits in Hf; lia). fold (cache c rn fork n). rewrite Ha. eexists _, _. split; [done|].
apply (rel_keep c s a _ _ rn fork); try done; [intros rn' fork' Hr' Hne; split_and!; [by apply known_other|done|done]|]. unfold node_size, server_size. rewrite known_same, Ec, Es by done. done.
- destruct (server_learns s rn fork Hrel Es Hf) as (svc & E & Hs & Hsz & Ho). rewrite E. cbn [mbind res_bind]. set (s' := remember_size _ _ _) in *. rewrite Ha.
assert (Hel : ∀ n, elsewhere c s (cache c rn fork n) s' rn fork) by (intros n rn' fork' Hr' Hne; rewrite Hsz; split_and!; [by apply known_other|by apply Ho|done]).
destruct (rel_size (ss_svc s) rn fork) as [n|] eqn:Eo; cbn [from_option id].
+ specialize (Hf n eq_refl). rewrite Z.mod_small by (unfold size_fits in Hf; lia). eexists _, s'. split; [done|]. apply (rel_keep c s a _ _ rn fork); [done|apply Hel| |by rewrite Hsz]. unfold node_size, server_size. fold (cache c rn fork n). rewrite known_same, Ec, Es, Eo by done. done.
+ eexists _, s'. split; [done|]. change (-1 mod 2 ^ 32) with (2 ^ 32 - 1). apply (rel_keep c s a _ _ rn fork); [done|apply Hel| |by rewrite Hsz]. fold (cache c rn fork (2 ^ 32 - 1)). unfold node_size. rewrite known_missing, Ec, Hs by done. unfold server_size. by rewrite Es, Eo.
Qed.

Lemma exists_exec c s a rn fork : sizes_rel c s a → op_allowed a (SExists rn fork) → exec_ok c s a (SExists rn fork).
Proof using All.
intros Hr Hrel. unfold exec_ok. cbn [node_exec size_exec fst snd]. unfold rpcmdexists, RpcMdExists. fold (known_size c rn fork) (known_size (ss_cache s) rn fork). destruct (known_size c rn fork) as [n|] eqn:Ec.
{ pose proof (sr_view _ _ _ Hr rn fork Hrel) as Hv. unfold node_size in Hv. rewrite Ec in Hv. pose proof (sr_fits _ _ _ Hr _ _ Hv) as Hf. cbn [mbind res_bind]. eexists c, s. rewrite Hv, (proj2 (Z.leb_le _ _)) by apply Hf. done. }
destruct (server_fits c s a rn fork Hr Hrel Ec) as [Ha Hf]. unfold server_size in Hf, Ha. rewrite Ha. destruct (known_size (ss_cache s) rn fork) as [n|] eqn:Es; [by eexists c, s|].
destruct (server_learns s rn fork Hrel Es Hf) as (svc & E & Hs & Hsz & Ho). rewrite E. cbn [mbind res_bind]. set (s' := remember_size _ _ _) in *. eexists c, s'. split.
- destruct (rel_size (ss_svc s) rn fork) as [n|]; cbn [from_option id]; [|done]. specialize (Hf n eq_refl). rewrite (proj2 (Z.leb_le _ _)) by apply Hf. done.
- apply (rel_keep c s a _ _ rn fork); [done| | |by rewrite Hsz].
+ intros rn' fork' Hr' Hne. rewrite Hsz. split_and!; [done|by apply Ho|done].
+ unfold node_size. rewrite Ec, Hs. unfold server_size. by rewrite Es.
Qed.

Lemma logged_exec c s a rn fork blk : sizes_rel c s a → op_allowed a (SLogged rn fork blk) → exec_ok c s a (SLogged rn fork blk).
Proof using All.
intros Hr (Hrel & Hb0 & n & Hn & Hb). pose proof (sr_fits _ _ _ Hr _ _ Hn) as Hfn. destruct (sr_file _ _ _ Hr rn fork Hrel) as (m & Hm & Hfm); [by exists n|]. pose proof (sr_view _ _ _ Hr rn fork Hrel) as Hv. rewrite Hn in Hv.
unfold exec_ok. cbn [node_exec size_exec fst snd]. unfold log_block_size. fold (known_size (ss_cache s) rn fork). unfold size_fits in *. rewrite (Z.mod_small (blk + 1)) by lia. fold (cache (ss_cache s) rn fork (blk + 1)).
assert (Hcase : ∀ c' s', elsewhere c s c' s' rn fork → c' = c → (known_size c rn fork = None → server_size s' rn fork = Some n) → rel_size (ss_svc s') rn fork = rel_size (ss_svc s) rn fork → sizes_rel c' s' a).
{ intros c' s' He -> Hs Hsz. apply (rel_keep c s a c s' rn fork); try done. rewrite <-Hv. unfold node_size in *. destruct (known_size c rn fork); [done|]. by apply Hs. }
destruct (known_size (ss_cache s) rn fork) as [n'|] eqn:Es.
- cbn [mbind res_bind]. eexists _, _. split; [done|]. destruct (Z.ltb_spec n' (blk + 1)) as [Hlt|Hge].
+ apply Hcase; try done; [intros rn' fork' Hr' Hne; cbn [ss_cache ss_svc]; split_and!; [done|by apply known_other|done]|]. intros Hc. exfalso. unfold node_size, server_size in Hv. rewrite Hc, Es in Hv. injection Hv as <-. lia.
+ apply Hcase; try done. intros Hc. unfold node_size in Hv. by rewrite Hc in Hv.
- destruct (promise_size (ss_svc s) rn fork m Hrel Hm Hfm) as (svc & -> & Hsz). cbn [mbind res_bind]. rewrite (Z.mod_small m) by lia. eexists _, _. split; [done|]. fold (cache (ss_cache s) rn fork (if blk + 1 <? m then m else blk + 1)).
apply Hcase; [|done| |cbn [ss_svc]; by rewrite Hsz].
+ intros rn' fork' Hr' Hne. cbn [ss_cache ss_svc]. rewrite Hsz. split_and!; [done|by apply known_other|done].
+ intros Hc. unfold node_size, server_size in Hv. rewrite Hc, Es, Hm in Hv. injection Hv as <-. unfold server_size. cbn [ss_cache]. destruct (Z.ltb_spec (blk + 1) n); rewrite known_same by (done || unfold size_fits; lia); [done|]. f_equal. lia.
Qed.

Lemma size_exec_refines c s a op : sizes_rel c s a → op_allowed a op → exec_ok c s a op.
Proof using All. intros Hr Ho. destruct op; [by apply create_exec|by apply extend_exec|by apply truncate_exec|by apply nblocks_exec|by apply exists_exec|by apply logged_exec]. Qed.

(** ** Sequences of operations *)

Fixpoint node_run (c : size_table) (s : size_server S) (ops : list size_op) : res (list size_out) :=
match ops with
| [] => Ok []
| op :: ops => '(c, s, o) ← node_exec c s op; os ← node_run c s ops; Ok (o :: os)
end.
Fixpoint size_run (a : gmap RelTag Z) (ops : list size_op) : list size_out :=
match ops with
| [] => []
| op :: ops => let '(a, o) := size_exec a op in o :: size_run a ops
end.
Fixpoint all_allowed (a : gmap RelTag Z) (ops : list size_op) : Prop :=
match ops with
| [] => True
| op :: ops => op_allowed a op ∧ all_allowed (size_exec a op).1 ops
end.

Lemma size_run_refines ops : ∀ c s a, sizes_rel c s a → all_allowed a ops → node_run c s ops = Ok (size_run a ops).
Proof using All.
induction ops as [|op ops IH]; intros c s a Hr Ho; [done|]. cbn [node_run size_run all_allowed] in *. destruct Ho as [Ho Hos]. destruct (size_exec_refines c s a op Hr Ho) as (c' & s' & -> & Hr'). cbn [mbind res_bind].
rewrite (IH c' s' _ Hr' Hos). cbn [mbind res_bind]. by destruct (size_exec a op).
Qed.

Lemma start_rel svc a : (∀ rn fork, rel_ok rn fork → a !! mkRelTag rn fork = rel_size svc rn fork) → (∀ t n, a !! t = Some n → size_fits n) → sizes_rel ∅ (mkSizeServer ∅ svc) a.
Proof using All.
intros Hv Hf. constructor; [|done|].
- intros rn fork Hr. unfold node_size, server_size. cbn [ss_cache ss_svc]. rewrite !known_empty. by apply Hv.
- intros rn fork Hr [n Hn]. exists n. cbn [ss_svc]. rewrite <-Hv by done. split; [done|by eapply Hf].
Qed.

(** C15: the node that writes sees the right sizes.  Start with empty tables on the
compute node and on the storage server, where the WAL-redo process has files of
the sizes [a].  The node creates relations that do not exist, extends relations
at or beyond their end, truncates them and asks for sizes and existence, while
the startup process of the server reads records about blocks that exist, all in
any order: every answer is the one of a single map of sizes, although three
places hold sizes, the server's table is not told about extensions and the
files are not told about truncations.  A relation that does not exist has the
size [InvalidBlockNumber], and is not remembered as such. *)
Theorem writer_sizes_refine svc a ops : (∀ rn fork, rel_ok rn fork → a !! mkRelTag rn fork = rel_size svc rn fork) → (∀ t n, a !! t = Some n → size_fits n) → all_allowed a ops →
node_run ∅ (mkSizeServer ∅ svc) ops = Ok (size_run a ops).
Proof using All. intros Hv Hf Ho. apply size_run_refines; [by apply start_rel|done]. Qed.

(** ** Wrong sizes *)

(** C37: replay on another node forgets a size.  [XLogReadBufferExtended] calls
[smgrcreate] and then [smgrnblocks] for every block a record of the log changes.
On a compute node in recovery whose table does not have the relation, the first
call enters the size 0 without asking the server; the second returns it,
whatever size the relation has. *)
Theorem create_forgets_size c s rn fork : rel_ok rn fork → known_size c rn fork = None →
∃ c', rpcmdcreate true c s rn fork = Ok (c', s) ∧ rpcmdnblocks c' s rn fork = Ok (0, c', s).
Proof using All.
intros Hr Hc. unfold rpcmdcreate. fold (known_size c rn fork). rewrite Hc. cbn [mbind res_bind]. eexists. split; [done|]. fold (cache c rn fork 0). unfold rpcmdnblocks. fold (known_size (cache c rn fork 0) rn fork). by rewrite known_same.
Qed.

(** Other nodes do not see an extension.  Once the table of the server has the
size of a relation, extending the relation does not change it: a node that asks
for the first time afterwards gets the old size, although the file already has
the new block, until a record about that block is read. *)
Theorem extension_not_seen c c2 s rn fork n m blk pg : rel_ok rn fork → size_fits n → known_size (ss_cache s) rn fork = Some n → rel_size (ss_svc s) rn fork = Some m → n ≤ blk → size_fits blk → zlen pg = BLCKSZ → known_size c2 rn fork = None →
∃ c' s' c2', rpcmdextend false c s rn fork blk pg = Ok (c', s') ∧ rel_size (ss_svc s') rn fork = Some (Z.max m (blk + 1)) ∧ rpcmdnblocks c2 s' rn fork = Ok (n, c2', s') ∧ n < blk + 1.
Proof using All.
intros Hr Hn Hs Hm Hle Hb Hpg Hc2. destruct (promise_extend (ss_svc s) rn fork blk pg m Hr Hm Hb Hpg) as (svc & E & Hz & _). unfold rpcmdextend, RpcMdExtend, INIT_BUFFERTAG. rewrite to_int_fits, (Z.mod_small blk) by (done || unfold size_fits in *; lia). rewrite E. cbn [mbind res_bind].
eexists _, _. eexists. split; [done|]. cbn [ss_svc]. split; [done|]. split; [|lia]. unfold rpcmdnblocks, RpcMdNblocks. fold (known_size c2 rn fork). rewrite Hc2. cbn [ss_cache]. fold (known_size (ss_cache s) rn fork). rewrite Hs, to_int_fits by done. cbn [mbind res_bind].
rewrite Z.mod_small by (unfold size_fits in Hn; lia). done.
Qed.

(** C38: a logged block of an unknown relation is not counted.  When neither the
table of the server nor the WAL-redo process has a relation, its size -1 is
compared with the number of a block of a record as an unsigned number, wins, and
is entered, which is as if nothing was: the relation still has no size. *)
Theorem logged_size_lost s rn fork blk : rel_ok rn fork → size_fits blk → known_size (ss_cache s) rn fork = None → rel_size (ss_svc s) rn fork = None →
∃ s', log_block_size s rn fork blk = Ok s' ∧ server_size s' rn fork = None ∧ ∃ s'', RpcMdNblocks s' rn fork = Ok (-1, s'').
Proof using All.
intros Hr Hb Hc Hm. destruct (promise_no_size (ss_svc s) rn fork Hr Hm) as (svc & E & Hsz). unfold log_block_size. fold (known_size (ss_cache s) rn fork). rewrite Hc, E. cbn [mbind res_bind]. unfold size_fits in Hb.
rewrite (Z.mod_small (blk + 1)) by lia. change (-1 mod 2 ^ 32) with (2 ^ 32 - 1). rewrite (proj2 (Z.ltb_lt _ _)) by lia. fold (cache (ss_cache s) rn fork (2 ^ 32 - 1)). eexists. split; [done|].
unfold server_size, RpcMdNblocks. cbn [ss_cache ss_svc]. fold (known_size (cache (ss_cache s) rn fork (2 ^ 32 - 1)) rn fork). rewrite known_missing, Hsz by done. split; [done|].
destruct (promise_no_size svc rn fork Hr) as (svc' & -> & _); [by rewrite Hsz|]. by eexists.
Qed.
End writer.

(** ** The WAL-redo process keeps the promise *)

Section process.
Context (reader0 : XLogReaderState).

Definition size_request (st : dbstate) : process := mkProc st reader0 1 None None [] [] [WrCount 4] [].

(** The handlers, and what the server makes of their answer. *)
#[export] Instance process_rel_service : RelService dbstate := {|
svc_rel_size st rn fork := p ← GetRelSize (size_request st) (rel_bytes rn fork); Ok (signed 32 (le_val (p_out p)), p_db p);
svc_create st rn fork := p ← CreateRel (size_request st) (rel_bytes rn fork); Ok (p_db p);
svc_extend st tag pg := p ← ExtendRel (size_request st) (bufftag_bytes tag ++ pg); Ok (p_db p) |}.

Definition file_size (st : dbstate) (rn : RelFileNode) (fork : Z) : option Z := zlen <$> files st !! (rn, fork).

Lemma respond_int st z : ∃ p, respond (size_request st) (le_bytes 4 z) = Ok p ∧ p_out p = le_bytes 4 z ∧ p_db p = st.
Proof using. by eexists. Qed.

Lemma rel_size_answer st rn fork z : rel_ok rn fork → z = default (-1) (file_size st rn fork) → - 1 ≤ z < 2 ^ 31 → svc_rel_size st rn fork = Ok (z, st).
Proof using.
intros Hr Hz Hb. cbn [svc_rel_size process_rel_service]. unfold GetRelSize. rewrite <-(app_nil_r (rel_bytes _ _)), get_rel_app by done. cbn [mbind res_bind].
assert (E : (if smgrexists (p_db (size_request st)) rn fork then smgrnblocks (p_db (size_request st)) rn fork else Ok (-1)) = Ok z).
{ unfold smgrexists, smgrnblocks, file_size in *. cbn [p_db size_request]. destruct (files st !! (rn, fork)); cbn in Hz; subst; [|done]. by rewrite bool_decide_true by done. }
rewrite E. cbn [mbind res_bind]. destruct (respond_int st z) as (p & -> & Eo & Ed). cbn [mbind res_bind]. rewrite Eo, Ed. f_equal. f_equal. rewrite le_val_bytes. unfold signed. change (256 ^ Z.of_nat 4) with (2 ^ 32). change (2 ^ (32 - 1)) with (2 ^ 31).
destruct (Z.leb_spec 0 z).
- rewrite Z.mod_small by lia. by rewrite (proj2 (Z.ltb_lt _ _)) by lia.
- assert (z = -1) as -> by lia. reflexivity.
Qed.

Lemma zlen_extended (l : list page) blk pg : 0 ≤ blk → zlen (if blk <? zlen l then <[Z.to_nat blk := pg]> l else l ++ replicate (Z.to_nat (blk - zlen l)) zero_page ++ [pg]) = Z.max (zlen l) (blk + 1).
Proof using. intros Hb. destruct (Z.ltb_spec blk (zlen l)); [unfold zlen in *; rewrite length_insert; lia|]. rewrite !zlen_app, zlen_replicate. change (zlen [pg]) with 1. pose proof (zlen_nonneg l). lia. Qed.

#[export] Instance process_rel_promise : RelPromise dbstate.
Proof using.
refine {| rel_size := file_size |}.
- intros st rn fork n Hr Hn Hf. exists st. split; [|done]. apply rel_size_answer; [done|by rewrite Hn|unfold size_fits in Hf; lia].
- intros st rn fork Hr Hn. exists st. split; [|done]. apply rel_size_answer; [done|by rewrite Hn|lia].
- intros st rn fork Hr Hn. cbn [svc_create process_rel_service]. unfold CreateRel. rewrite <-(app_nil_r (rel_bytes _ _)), get_rel_app by done. cbn [mbind res_bind]. change (set_db (size_request st) ?x) with (size_request x).
destruct (respond_int (smgrcreate (p_db (size_request st)) rn fork) 1) as (p & -> & _ & Hp). cbn [mbind res_bind]. exists (p_db p). split; [done|]. rewrite Hp. unfold file_size, smgrcreate in *. cbn [p_db size_request]. destruct (files st !! (rn, fork)); [done|].
cbn [set_files files]. split; [by rewrite lookup_insert_eq|]. intros rn' fork' Hne. rewrite lookup_insert_ne; [done|]. intros [= -> ->]. by apply Hne.
- intros st rn fork blk pg n Hr Hn Hb Hpg. unfold size_fits in Hb. cbn [svc_extend process_rel_service]. unfold ExtendRel. rewrite get_tag_app by (split; [done|unfold oid_ok; cbn; lia]). cbn [mbind res_bind].
assert (Eg : pq_getmsgbytes pg (Z.to_nat BLCKSZ) = Ok (pg, [])) by (rewrite <-(getmsgbytes_app pg [] (Z.to_nat BLCKSZ)) by (rewrite <-Hpg; unfold zlen; lia); by rewrite app_nil_r).
rewrite Eg. cbn [mbind res_bind rnode forkNum blockNum]. unfold mdextend, file_size in *. cbn [p_db size_request]. unfold InvalidBlockNumber. rewrite (proj2 (Z.eqb_neq _ _)) by lia.
destruct (files st !! (rn, fork)) as [l|] eqn:El; [|done]. cbn in Hn. injection Hn as <-. cbn [mbind res_bind]. change (set_db (size_request st) ?x) with (size_request x). set (l' := if blk <? zlen l then _ else _).
destruct (respond_int (set_files st (<[(rn, fork) := l']> (files st))) 1) as (p & -> & _ & Hp). cbn [mbind res_bind]. exists (p_db p). split; [done|]. rewrite Hp. cbn [set_files files].
split; [rewrite lookup_insert_eq; cbn; f_equal; apply zlen_extended; lia|]. intros rn' fork' Hne. rewrite lookup_insert_ne; [done|]. intros [= -> ->]. by apply Hne.
Defined.
End process.

(** ** Examples *)

Definition size_service : RelService dbstate := process_rel_service demo_delete.
Definition size_promise : @RelPromise dbstate size_service := process_rel_promise demo_delete.
Definition no_files : dbstate := set_files demo_db ∅.
Definition one_block : dbstate := set_files demo_db {[ (demo_rel, 0) := [zero_page] ]}.

Lemma demo_rel_ok : rel_ok demo_rel 0.
Proof. constructor; unfold oid_ok; cbn; lia. Qed.

Definition demo_size_ops : list size_op :=
  [SExists demo_rel 0; SNblocks demo_rel 0; SCreate demo_rel 0; SExtend demo_rel 0 0 zero_page; SExtend demo_rel 0 1 zero_page; SLogged demo_rel 0 1; SNblocks demo_rel 0; STruncate demo_rel 0 1; SNblocks demo_rel 0; SExists demo_rel 0].

Lemma writer_sizes_refine_witness : node_run (H := size_service) ∅ (mkSizeServer ∅ no_files) demo_size_ops =
  Ok [OExists false; OSize InvalidBlockNumber; ODone; ODone; ODone; ODone; OSize 2; ODone; OSize 1; OExists true].
Proof.
  rewrite (writer_sizes_refine (H := size_service) (H0 := size_promise) no_files ∅ demo_size_ops).
  - vm_compute. reflexivity.
  - intros rn fork _. rewrite lookup_empty. reflexivity.
  - intros t n. rewrite lookup_empty. discriminate.
  - cbn [all_allowed demo_size_ops op_allowed size_exec fst]. pose proof demo_rel_ok as Hr. rewrite ?lookup_insert_eq, ?lookup_empty. split_and!; try exact Hr; try exact I; try reflexivity; try lia; try (eexists; reflexivity).
    + exists 0. split; [reflexivity|lia].
    + exists 1. split; [reflexivity|lia].
    + exists 2. split; [reflexivity|lia].
    + split; lia.
Defined.

Lemma create_forgets_size_witness : ∃ c', rpcmdcreate (H := size_service) true ∅ (mkSizeServer ∅ one_block) demo_rel 0 = Ok (c', mkSizeServer ∅ one_block) ∧
  rpcmdnblocks (H := size_service) c' (mkSizeServer ∅ one_block) demo_rel 0 = Ok (0, c', mkSizeServer ∅ one_block) ∧ file_size one_block demo_rel 0 = Some 1.
Proof.
  destruct (create_forgets_size (H := size_service) (H0 := size_promise) ∅ (mkSizeServer ∅ one_block) demo_rel 0 demo_rel_ok) as (c' & E1 & E2); [reflexivity|]. exists c'. split_and!; [exact E1|exact E2|reflexivity].
Defined.

Lemma extension_not_seen_witness : ∃ c' s' c2', rpcmdextend (H := size_service) false ∅ (mkSizeServer (cache ∅ demo_rel 0 1) one_block) demo_rel 0 1 zero_page = Ok (c', s') ∧ rpcmdnblocks (H := size_service) ∅ s' demo_rel 0 = Ok (1, c2', s').
Proof.
  destruct (extension_not_seen (H := size_service) (H0 := size_promise) ∅ ∅ (mkSizeServer (cache ∅ demo_rel 0 1) one_block) demo_rel 0 1 1 1 zero_page demo_rel_ok) as (c' & s' & c2' & E1 & _ & E2 & _);
    [unfold size_fits; lia|reflexivity|reflexivity|lia|unfold size_fits; lia|reflexivity|reflexivity|]. exists c', s', c2'. split; [exact E1|exact E2].
Defined.

Lemma logged_size_lost_witness : ∃ s' s'', log_block_size (H := size_service) (mkSizeServer ∅ no_files) demo_rel 0 7 = Ok s' ∧ RpcMdNblocks (H := size_service) s' demo_rel 0 = Ok (-1, s'').
Proof.
  destruct (logged_size_lost (H := size_service) (H0 := size_promise) (mkSizeServer ∅ no_files) demo_rel 0 7 demo_rel_ok) as (s' & E1 & _ & s'' & E2); [unfold size_fits; lia|reflexivity|reflexivity|]. exists s', s''. split; [exact E1|exact E2].
Defined.
