(* ===== verification/Replica.v ===== *)
(** * Replay on a replica: the loop of [StartupXLOG] in [xlog.c]

    A replica replays a record at once, for those of its pages that are in its
    buffer pool; pages that are not there are read in their new state from
    storage when they are needed.  The file composes the dispatchers with the
    lookup in the pool, and counts the pins of the replaying process: the
    lookup of a redo routine pins the buffer it returns, and a cleanup lock
    needs exactly one pin. *)

From S2P Require Import Prelude Mem Page PageAdd Buffer WalRecord HeapTuple HeapRedo HeapRefine Resident HeapReplay HeapSpec TagList BtreeRedo HashRedo Dispatch.

(** The database state and the pins of this process. *)
Record replica : Type := mkReplica { r_db : dbstate; r_pins : gmap BufferTag Z }.

Definition GetPrivateRefCount (s : replica) (tag : BufferTag) : Z := default 0 (r_pins s !! tag).
Definition add_pins (s : replica) (tag : BufferTag) (n : Z) : replica :=
  mkReplica (r_db s) (<[tag := GetPrivateRefCount s tag + n]> (r_pins s)).
Definition PinBuffer (s : replica) (tag : BufferTag) : replica := add_pins s tag 1.

Definition FindPageInBuffer (s : replica) (tag : BufferTag) : replica * Buffer :=
  match pool (r_db s) !! tag with
  | Some _ => (PinBuffer s tag, Some tag)
  | None => (s, InvalidBuffer)
  end.

(** Releasing the invalid buffer reads the descriptor before the first. *)
Definition UnlockReleaseBuffer (s : replica) (b : Buffer) : res replica :=
  match b with Some tag => Ok (add_pins s tag (-1)) | None => Err EOob end.

Definition LockBufferForCleanup (s : replica) (b : Buffer) : res unit :=
  match b with
  | Some tag => if GetPrivateRefCount s tag =? 1 then Ok tt else Err EError
  | None => Ok tt
  end.

Section replay.
(** The redo routines of resource managers whose records are about no buffer. *)
Context (rm_redo_now : dbstate → XLogReaderState → res dbstate).

(** Pruning of a heap page and vacuum of a B-tree page read their page with a cleanup
lock. *)
Definition clean_locks (r : XLogReaderState) : bool := heap_op r =? XLOG_HEAP2_CLEAN.
Definition vacuum_locks (r : XLogReaderState) : bool := rec_info r =? XLOG_BTREE_VACUUM.

(** The argument [get_cleanup_lock] of [XLogReadBufferForRedoExtended] in the redo of
a record for a page: heap pruning, B-tree vacuum and, in [HashRedo], some hash
records; the other resource managers have none. *)
Definition cleanup_lock (r : XLogReaderState) (tag : BufferTag) : bool :=
if xl_rmid r =? RM_HEAP2_ID then clean_locks r
else if xl_rmid r =? RM_BTREE_ID then vacuum_locks r
else if xl_rmid r =? RM_HASH_ID then hash_cleanup r tag
else false.

(** One page of the record.  The redo routine pins the page it reads and asks for the
lock before it changes the page.  Here the request follows the redo, which tells the
buffer: a call that fails has no state after it, so the order makes no difference to
the result, except for which error is reported when both fail. *)
Definition replay_page (s : replica) (r : XLogReaderState) (tag : BufferTag) : res replica :=
match FindPageInBuffer s tag with
| (s, None) => Ok s
| (s, Some _) =>
'(db, buff, _) ← XlogRedoSinglePage (r_db s) r tag InvalidBuffer;
let s := mkReplica db (r_pins s) in
let s := match buff with Some t => PinBuffer s t | None => s end in
_ ← (if cleanup_lock r tag then LockBufferForCleanup s buff else Ok tt);
UnlockReleaseBuffer s buff
end.

Fixpoint replay_tags (s : replica) (r : XLogReaderState) (l : list BufferTag) : res replica :=
match l with
| [] => Ok s
| tag :: l => s ← replay_page s r tag; replay_tags s r l
end.

(** The loop bound is not initialised when the tag list was not built. *)
Definition replay_record (s : replica) (r : XLogReaderState) : res replica :=
r ← polar_xlog_decode_data r;
parsed ← GetXlogBuffTagList r;
match parsed with
| NotParsed => db ← rm_redo_now (r_db s) r; Ok (mkReplica db (r_pins s))
| TagsUnset => Err EUndef
| Tags l => replay_tags s r l
end.
End replay.

(** ** Theorems *)

Section theorems.
Context (rm_redo_now : dbstate → XLogReaderState → res dbstate).
Abbreviation replay := (replay_record rm_redo_now).

Lemma pins_add s t n t' : GetPrivateRefCount (add_pins s t n) t' = GetPrivateRefCount s t' + if decide (t' = t) then n else 0.
Proof using.
unfold GetPrivateRefCount at 1, add_pins. cbn [r_pins]. case_decide as E; [subst; by rewrite lookup_insert_eq|]. rewrite lookup_insert_ne by done.
rewrite Z.add_0_r. done.
Qed.

(** An insertion that clears no bit of the visibility map has one page. *)
Lemma insert_single s r tag : xl_rmid r = RM_HEAP_ID → heap_record r → heap_op r = XLOG_HEAP_INSERT → touches r tag →
has_flag (mget 1 (main_data r) 2) XLH_INSERT_ALL_VISIBLE_CLEARED = false → replay s r = replay_page s r tag.
Proof.
intros Hid Hrec Hop [_ Hpr] Hfl. rewrite Hop in Hpr. cbn in Hpr.
pose proof (hr_main _ Hrec) as Hm. rewrite Hop in Hm. change (heap_main_size XLOG_HEAP_INSERT) with 3 in Hm.
assert (Hrd : rd 1 (main_data r) 2 = Ok (mget 1 (main_data r) 2)) by (apply rd_ok; cbn; lia).
unfold replay_record, polar_xlog_decode_data. rewrite Hid. change (RM_HEAP_ID =? RM_HEAP_ID) with true. cbv iota.
unfold polar_xlog_queue_decode_heap. rewrite Hop. change (XLOG_HEAP_INSERT =? XLOG_HEAP_INSERT) with true. cbv iota. rewrite Hrd.
cbn [mbind res_bind]. rewrite Hfl. cbn [mbind res_bind]. unfold GetXlogBuffTagList. rewrite Hid. change (rmgr_table RM_HEAP_ID) with (Some heap_rmgr).
cbv iota. unfold rm_tags, heap_rmgr, polar_heap_idx_get_bufftag_list. rewrite Hop. change (XLOG_HEAP_INSERT =? XLOG_HEAP_INSERT) with true. cbv iota.
unfold polar_heap_insert_get_bufftag_list. rewrite Hrd. cbn [mbind res_bind]. rewrite Hfl. cbn [mbind res_bind].
unfold tag_or_uninit. rewrite (pr_tag _ _ _ Hpr). cbn [mbind res_bind].
change (Tags <$> put_tag 2 [] tag) with (Ok (Tags [tag])). cbn [mbind res_bind replay_tags]. by destruct (replay_page s r tag).
Qed.

(** C30: replay of an insertion on a replica.  A page that is not in the
buffer pool is not touched, nor anything else.  A page in the pool that is
older than the record gets the tuple the record describes at its offset
number, no other page and no file changes; and the process then holds one
more pin of the buffer than before. *)
Theorem replica_insert s r tag :
let data := block_bytes r 0 in let off := mget 2 (main_data r) 0 in
xl_rmid r = RM_HEAP_ID → heap_record r → heap_op r = XLOG_HEAP_INSERT → touches r tag →
has_flag (mget 1 (main_data r) 2) XLH_INSERT_ALL_VISIBLE_CLEARED = false →
(pool (r_db s) !! tag = None → replay s r = Ok s) ∧
(∀ p, resident (r_db s) tag p → heap_wf p → PageGetLSN p < EndRecPtr r →
SizeOfHeapHeader ≤ zlen data → SizeofHeapTupleHeader + (zlen data - SizeOfHeapHeader) ≤ MaxHeapTupleSize →
room_for p off (SizeofHeapTupleHeader + (zlen data - SizeOfHeapHeader)) → 0 ≤ xl_xid r < 2 ^ 32 →
∃ s' q t, replay s r = Ok s' ∧ r_db s' = buf_write (r_db s) (Some tag) q ∧ heap_wf q ∧ PageGetLSN q = EndRecPtr r ∧
inserted_tuple data (xl_xid r) (blockNum tag) off t ∧
page_slots q = put_slot (page_slots p) (Z.to_nat (off - 1)) (mkSlot LP_NORMAL 0 t) (off =? PageGetMaxOffsetNumber p + 1) ∧
GetPrivateRefCount s' tag = GetPrivateRefCount s tag + 1 ∧
(∀ tag', tag' ≠ tag → GetPrivateRefCount s' tag' = GetPrivateRefCount s tag')).
Proof.
intros data off Hid Hrec Hop Ht Hfl. rewrite (insert_single s r tag) by done. unfold replay_page, FindPageInBuffer. split; [by intros ->|].
intros p Hr Hh Hl Hs1 Hs2 Hroom Hxid. rewrite (rs_pool _ _ _ Hr).
destruct (redo_insert_resident (r_db s) r tag p InvalidBuffer) as (q & t & Hq & Hhq & Hlsn & Hit & Hs); try done.
unfold XlogRedoSinglePage. rewrite Hid. change (rmgr_table RM_HEAP_ID) with (Some heap_rmgr). cbv iota.
change (r_db (PinBuffer s tag)) with (r_db s). cbn [rm_redo heap_rmgr]. rewrite Hq. cbn [mbind res_bind].
assert (cleanup_lock r tag = false) as -> by (unfold cleanup_lock; by rewrite Hid).
eexists _, q, t. split; [reflexivity|]. split_and!; try done.
- rewrite pins_add, (decide_True (P := tag = tag)) by done. unfold PinBuffer. rewrite pins_add, (decide_True (P := tag = tag)) by done.
change (GetPrivateRefCount _ tag + 1 + -1) with (GetPrivateRefCount (add_pins s tag 1) tag + 1 + -1). rewrite pins_add, decide_True by done. lia.
- intros tag' Hne. rewrite pins_add, (decide_False (P := tag' = tag)) by done. unfold PinBuffer. rewrite pins_add, (decide_False (P := tag' = tag)) by done.
change (GetPrivateRefCount _ tag' + 0 + 0) with (GetPrivateRefCount (add_pins s tag 1) tag' + 0 + 0). rewrite pins_add, decide_False by done. lia.
Qed.

(** The tag list of a record with a cleanup lock is the tag of its page. *)
Lemma cleanup_single s r tag : xl_rmid r = RM_HEAP2_ID ∧ heap_op r = XLOG_HEAP2_CLEAN ∨ xl_rmid r = RM_BTREE_ID ∧ rec_info r = XLOG_BTREE_VACUUM →
XLogRecGetBlockTag r 0 = Some tag → replay s r = replay_page s r tag.
Proof.
intros Hk Ht. assert (Hd : polar_xlog_decode_data r = Ok r).
{ unfold polar_xlog_decode_data, polar_xlog_queue_decode_heap2. by destruct Hk as [[-> ->]|[-> _]]. }
assert (Hl : GetXlogBuffTagList r = Ok (Tags [tag])).
{ unfold GetXlogBuffTagList. assert (Hs : single_bufftag_list r = Ok [tag]) by (unfold single_bufftag_list, tag_or_uninit; by rewrite Ht).
destruct Hk as [[-> Ho]|[-> Ho]]; [change (rmgr_table RM_HEAP2_ID) with (Some heap2_rmgr)|change (rmgr_table RM_BTREE_ID) with (Some btree_rmgr)];
cbv iota; cbn [rm_tags heap2_rmgr btree_rmgr]; unfold polar_heap2_idx_get_bufftag_list, polar_btree_idx_get_bufftag_list; rewrite Ho, Hs; done. }
unfold replay_record. rewrite Hd. cbn [mbind res_bind]. rewrite Hl. cbn [mbind res_bind replay_tags]. by destruct (replay_page s r tag).
Qed.

(** Redo of block 0 on a resident page hands its buffer back. *)
Lemma block0_buffer st r tag p cl f buf st' b a : plain_ref r 0 tag → resident st tag p → PageIsNew p = false →
redo_block0 st r tag buf cl f = Ok (st', b, a) → b = Some tag.
Proof.
intros Hpr Hr Hn. unfold redo_block0. rewrite (log_tag _ _ _ (pr_tag _ _ _ Hpr)). cbn [mbind res_bind]. rewrite tags_equal_refl. cbn [negb].
rewrite (redo_read_resident st r 0 tag p cl Hpr Hr Hn). cbn [mbind res_bind]. unfold on_redo. destruct (_ <=? _); [by intros [= _ <- _]|].
intros H. res_inv. congruence.
Qed.

(** The redo routine behind [XlogRedoSinglePage]. *)
Lemma single_page_inv st m r tag buf db b ch : rmgr_table (xl_rmid r) = Some m →
XlogRedoSinglePage st r tag buf = Ok (db, b, ch) → ∃ a, rm_redo m st r tag buf = Ok (db, b, a).
Proof.
intros Hm. unfold XlogRedoSinglePage. rewrite Hm. destruct (rm_redo m st r tag buf) as [[[db' b'] a]|]; [|done].
intros E. apply Ok_inj in E. injection E as <- <- _. by exists a.
Qed.

(** C33: replay on a replica of a record whose redo takes a cleanup lock
(heap pruning, B-tree vacuum) never succeeds when the page is in the
buffer pool: the page has been pinned by the lookup in the pool, and again
by the redo routine, but the cleanup lock wants a single pin. *)
Theorem replica_cleanup_fails s r tag p :
xl_rmid r = RM_HEAP2_ID ∧ heap_op r = XLOG_HEAP2_CLEAN ∨ xl_rmid r = RM_BTREE_ID ∧ rec_info r = XLOG_BTREE_VACUUM →
plain_ref r 0 tag → resident (r_db s) tag p → PageIsNew p = false → 0 ≤ GetPrivateRefCount s tag → is_ok (replay s r) = false.
Proof.
intros Hk Hpr Hr Hn Hpin. rewrite (cleanup_single s r tag Hk (pr_tag _ _ _ Hpr)). unfold replay_page, FindPageInBuffer. rewrite (rs_pool _ _ _ Hr).
change (r_db (PinBuffer s tag)) with (r_db s).
assert (Hc : cleanup_lock r tag = true) by (unfold cleanup_lock, clean_locks, vacuum_locks; by destruct Hk as [[-> ->]|[-> ->]]). rewrite Hc.
destruct (XlogRedoSinglePage (r_db s) r tag InvalidBuffer) as [[[db b] ch]|] eqn:E; [|done]. cbn [mbind res_bind].
assert (b = Some tag) as ->.
{ destruct Hk as [[Hi Ho]|[Hi Ho]].
- apply (single_page_inv _ heap2_rmgr) in E as [a E]; [|by rewrite Hi]. cbn [rm_redo heap2_rmgr] in E. unfold polar_heap2_idx_redo in E. rewrite Ho in E.
change (polar_heap_xlog_clean (r_db s) r tag InvalidBuffer = Ok (db, b, a)) in E. unfold polar_heap_xlog_clean in E. res_inv. by eapply block0_buffer.
- apply (single_page_inv _ btree_rmgr) in E as [a E]; [|by rewrite Hi]. cbn [rm_redo btree_rmgr] in E. unfold polar_btree_redo in E. rewrite Ho in E.
change (polar_btree_xlog_vacuum (r_db s) r tag InvalidBuffer = Ok (db, b, a)) in E. unfold polar_btree_xlog_vacuum in E. by eapply block0_buffer. }
unfold LockBufferForCleanup. match goal with |- context [GetPrivateRefCount ?x tag] => assert (GetPrivateRefCount x tag = GetPrivateRefCount s tag + 2) as -> end.
{ unfold PinBuffer at 1. rewrite pins_add, decide_True by done. change (GetPrivateRefCount _ tag + 1) with (GetPrivateRefCount (add_pins s tag 1) tag + 1).
rewrite pins_add, decide_True by done. lia. }
destruct (Z.eqb_spec (GetPrivateRefCount s tag + 2) 1); [lia|done].
Qed.
End theorems.

(** ** Samples *)

(** A replica with the sample page in its pool, and the pruning of the tuple
    at offset number 1. *)
Definition demo_replica : replica := mkReplica demo_db ∅.
Definition demo_clean : XLogReaderState :=
  mkRec 950 1000 XLOG_HEAP2_CLEAN RM_HEAP2_ID 77 [0; 0; 0; 0; 0; 0; 0; 0] 0
    [mkBlk true demo_rel MAIN_FORKNUM 0 0 false false [] 0 0 0 true [1; 0]].

Lemma replica_insert_witness :
  ∃ s' q t, replay_record (λ db _, Ok db) demo_replica demo_insert = Ok s' ∧
    r_db s' = buf_write demo_db (Some demo_tag) q ∧ page_slots q = page_slots demo_page ++ [mkSlot LP_NORMAL 0 t] ∧
    GetPrivateRefCount s' demo_tag = 1.
Proof.
  destruct (replica_insert (λ db _, Ok db) demo_replica demo_insert demo_tag) as [_ H];
    [reflexivity|apply demo_insert_record|done|apply demo_insert_touches|reflexivity|].
  destruct (H demo_page) as (s' & q & t & Hq & Hd & _ & _ & _ & Hs & Hp & _);
    [apply demo_resident|apply demo_page_wf|vm_compute; done|vm_compute; done|vm_compute; done| |vm_compute; done|].
  { split_and!; try (vm_compute; done). }
  exists s', q, t. split; [exact Hq|]. split; [exact Hd|]. split; [rewrite Hs; vm_compute; reflexivity|exact Hp].
Defined.

Lemma replica_cleanup_fails_witness :
  is_ok (polar_heap2_idx_redo demo_db demo_clean demo_tag None) = true ∧
  is_ok (replay_record (λ db _, Ok db) demo_replica demo_clean) = false.
Proof.
  split; [vm_compute; reflexivity|].
  apply (replica_cleanup_fails (λ db _, Ok db) demo_replica demo_clean demo_tag demo_page).
  - left. split; reflexivity.
  - constructor; [reflexivity|by intros b [= <-]|reflexivity].
  - apply demo_resident.
  - vm_compute. reflexivity.
  - vm_compute. done.
Defined.
