(* ===== verification/TagIndexed.v ===== *)
(** * The promise of a resource manager to the log index

    The central promise between the node that enters records in the log index
    and the node that replays pages from it: replaying a record for a page it
    was not entered under does nothing.  The promise is a class; this file has
    its instances for heap, sequence, generic and full-page-image records. *)

From S2P Require Import Prelude Mem Page PageAdd PageIndex PageCompact Checksum Buffer Pglz WalRecord XLogInsert XLogDecode HeapTuple HeapRedo Resident TagList Btree BtreeRedo HashRedo GinRedo Dispatch.

(** ** Block references *)

Lemma block_ref_max r id b : reader_ok r → 0 ≤ id → block_ref r id = Some b → id ≤ max_block_id r.
Proof.
  intros (_ & _ & Hu) Hid Hb. unfold block_ref in Hb. destruct (blocks r !! Z.to_nat id) as [b'|] eqn:E; [|done].
  destruct (in_use b') eqn:Ei; [|done]. destruct (decide (id ≤ max_block_id r)); [done|].
  rewrite (Hu _ _ E) in Ei by lia. done.
Qed.

Lemma ParseXLogBlocksLsn_tag r id t :
  reader_ok r → 0 ≤ id → XLogRecGetBlockTag r id = Some t → ParseXLogBlocksLsn r id = [t].
Proof.
  intros Hr Hid Ht. unfold ParseXLogBlocksLsn. rewrite Ht. unfold XLogRecGetBlockTag in Ht.
  destruct (block_ref r id) as [b|] eqn:E; [|done]. apply block_ref_max in E; [|done..].
  by rewrite (proj2 (Z.ltb_ge _ _)).
Qed.

Lemma get_log_tag_inv r id t : POLAR_GET_LOG_TAG r id = Ok t → XLogRecGetBlockTag r id = Some t.
Proof. unfold POLAR_GET_LOG_TAG. destruct (XLogRecGetBlockTag r id); [by intros [= ->]|done]. Qed.

(** ** The visibility-map blocks *)

(** Two readers that differ at most in their block references. *)
Record same_record (r r' : XLogReaderState) : Prop := {
  sr_main : main_data r' = main_data r;
  sr_info : xl_info r' = xl_info r;
  sr_end : EndRecPtr r' = EndRecPtr r }.

Lemma same_record_refl r : same_record r r.
Proof. done. Qed.

Lemma same_record_trans a b c : same_record a b → same_record b c → same_record a c.
Proof. intros [] []. constructor; congruence. Qed.

Lemma save_vm_block_spec r b v r' :
  reader_ok r → 0 ≤ b → 0 ≤ v → polar_heap_save_vm_block r b v = Ok r' →
  reader_ok r' ∧ same_record r r' ∧
  (∀ t, XLogRecGetBlockTag r b = Some t → XLogRecGetBlockTag r' v = Some (vm_tag t)) ∧
  (∀ id, 0 ≤ id → id ≠ v → XLogRecGetBlockTag r' id = XLogRecGetBlockTag r id).
Proof.
  intros (Hl & Hm & Hu) Hb Hv H. unfold polar_heap_save_vm_block, block_slot in H.
  destruct (blocks r !! Z.to_nat b) as [blk|] eqn:Eb; cbn [mbind res_bind] in H; [|done].
  destruct (blocks r !! Z.to_nat v) as [vm|] eqn:Ev; cbn [mbind res_bind] in H; [|done]. apply Ok_inj in H as <-.
  apply lookup_lt_Some in Ev as Hlt. split_and!.
  - split_and!; cbn [blocks max_block_id set_blocks]; [unfold zlen in *; by rewrite length_insert|lia|].
    intros j d Hj Hgt. rewrite list_lookup_insert_ne in Hj by lia. eapply Hu; [exact Hj|lia].
  - done.
  - intros t Ht. unfold XLogRecGetBlockTag, block_ref in *. cbn [blocks set_blocks]. rewrite Eb in Ht.
    rewrite list_lookup_insert_eq by done. cbn [in_use]. destruct (in_use blk); [|done]. by injection Ht as <-.
  - intros id Hid Hne. unfold XLogRecGetBlockTag, block_ref. cbn [blocks set_blocks].
    by rewrite list_lookup_insert_ne by lia.
Qed.

(** What decoding has prepared for a record that clears map bits under a flag. *)
Definition vm_ready (r : XLogReaderState) (pos mask : Z) : Prop :=
  reader_ok r ∧ ∀ flags t0, rd 1 (main_data r) pos = Ok flags → has_flag flags mask = true →
    XLogRecGetBlockTag r 0 = Some t0 → XLogRecGetBlockTag r 1 = Some (vm_tag t0).

Lemma decode_vm_ready r0 pos mask r :
  reader_ok r0 →
  (flags ← rd 1 (main_data r0) pos; if has_flag flags mask then polar_heap_save_vm_block r0 0 1 else Ok r0) = Ok r →
  vm_ready r pos mask ∧ same_record r0 r.
Proof.
  intros Hr H. destruct (rd 1 (main_data r0) pos) as [flags|] eqn:Ef; cbn [mbind res_bind] in H; [|done].
  destruct (has_flag flags mask) eqn:Em.
  - destruct (save_vm_block_spec r0 0 1 r Hr) as (Hr' & Hs & Hv & Ho); [lia..|done|]. split; [|done].
    split; [done|]. intros flags' t0 _ _ Ht. rewrite Ho in Ht by lia. by apply Hv.
  - apply Ok_inj in H as <-. split; [|done]. split; [done|]. intros flags' t0 Hf Hm. rewrite Ef in Hf.
    apply Ok_inj in Hf as <-. congruence.
Qed.

Lemma save_vm_listed r pos mask tags tag t0 flags :
  vm_ready r pos mask → save_vm_and_heap r pos mask = Ok tags → tag ∉ tags →
  rd 1 (main_data r) pos = Ok flags → POLAR_GET_LOG_TAG r 0 = Ok t0 →
  tag ≠ t0 ∧ (has_flag flags mask = true → tag ≠ vm_tag t0).
Proof.
  intros [Hr Hv] Hs Hn Hf Ht%get_log_tag_inv. unfold save_vm_and_heap in Hs. rewrite Hf in Hs. cbn [mbind res_bind] in Hs.
  apply Ok_inj in Hs as <-. rewrite (ParseXLogBlocksLsn_tag r 0 t0), not_elem_of_app, list_elem_of_singleton in Hn by done.
  destruct Hn as [Hn1 Hn2]. split; [done|]. intros Hm. rewrite Hm in Hn1.
  rewrite (ParseXLogBlocksLsn_tag r 1 (vm_tag t0)), list_elem_of_singleton in Hn1; [done|done|lia|by eapply Hv].
Qed.

(** Peel a successful read off the head of a computation. *)
Ltac peel H E :=
  match type of H with
  | ((rd ?n ?m ?o) ≫= _) = Ok _ =>
      let v := fresh "v" in destruct (rd n m o) as [v|] eqn:E; cbn [mbind res_bind] in H; [|done]
  | ((POLAR_GET_LOG_TAG ?r ?i) ≫= _) = Ok _ =>
      let t := fresh "t0" in destruct (POLAR_GET_LOG_TAG r i) as [t|] eqn:E; cbn [mbind res_bind] in H; [|done]
  end.

(** ** Redo for a page the record does not name *)

Section untouched.
Context (st : dbstate) (r : XLogReaderState) (tag : BufferTag) (buf : Buffer).
Context (out : dbstate * Buffer * XLogRedoAction) (tags : list BufferTag) (Hn : tag ∉ tags).

Lemma insert_untouched :
vm_ready r 2 XLH_INSERT_ALL_VISIBLE_CLEARED → polar_heap_insert_save r = Ok tags →
polar_heap_xlog_insert st r tag buf = Ok out → out = (st, buf, BLK_NOTFOUND).
Proof using Hn.
intros Hv Hs H. unfold polar_heap_xlog_insert in H. peel H E1. peel H E2. peel H E3.
destruct (save_vm_listed _ _ _ _ _ _ _ Hv Hs Hn E2 E3) as [H0 H1]. destruct (tags_neq _ _ H0) as [Hq _]. rewrite Hq in H.
destruct (BUFFERTAGS_EQUAL tag (vm_tag t0)) eqn:Eq; cbn [andb] in H.
- apply BUFFERTAGS_EQUAL_true in Eq. destruct (has_flag _ _); [by destruct H1|]. cbn [mbind res_bind] in H. by apply Ok_inj in H.
- cbn [mbind res_bind] in H. by apply Ok_inj in H.
Qed.

Lemma delete_untouched :
vm_ready r 7 XLH_DELETE_ALL_VISIBLE_CLEARED → polar_heap_delete_save r = Ok tags →
polar_heap_xlog_delete st r tag buf = Ok out → out = (st, buf, BLK_NOTFOUND).
Proof using Hn.
intros Hv Hs H. unfold polar_heap_xlog_delete in H. peel H E1. peel H E2. peel H E3. peel H E4. peel H E5.
destruct (save_vm_listed _ _ _ _ _ _ _ Hv Hs Hn E4 E5) as [H0 H1]. destruct (tags_neq _ _ H0) as [Hq _]. rewrite Hq in H.
destruct (BUFFERTAGS_EQUAL tag (vm_tag t0)) eqn:Eq; [|by apply Ok_inj in H].
apply BUFFERTAGS_EQUAL_true in Eq. destruct (has_flag _ _); [by destruct H1|]. by apply Ok_inj in H.
Qed.

Lemma multi_insert_untouched :
vm_ready r 0 XLH_INSERT_ALL_VISIBLE_CLEARED → polar_heap_multi_insert_save r = Ok tags →
polar_heap_xlog_multi_insert st r tag buf = Ok out → out = (st, buf, BLK_NOTFOUND).
Proof using Hn.
intros Hv Hs H. unfold polar_heap_xlog_multi_insert in H. peel H E1. peel H E2. peel H E3.
destruct (save_vm_listed _ _ _ _ _ _ _ Hv Hs Hn E2 E1) as [H0 H1]. destruct (tags_neq _ _ H0) as [_ Hq]. rewrite Hq in H.
destruct (BUFFERTAGS_EQUAL (vm_tag t0) tag) eqn:Eq; cbn [andb] in H.
- apply BUFFERTAGS_EQUAL_true in Eq. destruct (has_flag _ _); [by destruct H1|]. cbn [mbind res_bind] in H. by apply Ok_inj in H.
- cbn [mbind res_bind] in H. by apply Ok_inj in H.
Qed.

Lemma redo_lock_untouched flags f :
vm_ready r 7 XLH_LOCK_ALL_FROZEN_CLEARED → save_vm_and_heap r 7 XLH_LOCK_ALL_FROZEN_CLEARED = Ok tags →
rd 1 (main_data r) 7 = Ok flags → redo_lock st r tag buf flags f = Ok out → out = (st, buf, BLK_NOTFOUND).
Proof using Hn.
intros Hv Hs Hf H. unfold redo_lock in H. peel H E1.
destruct (save_vm_listed _ _ _ _ _ _ _ Hv Hs Hn Hf E1) as [H0 H1]. destruct (tags_neq _ _ H0) as [Hq _]. rewrite Hq in H.
destruct (BUFFERTAGS_EQUAL tag (vm_tag t0)) eqn:Eq; cbn [andb] in H.
- apply BUFFERTAGS_EQUAL_true in Eq. destruct (has_flag _ _); [by destruct H1|]. cbn [mbind res_bind] in H. by apply Ok_inj in H.
- cbn [mbind res_bind] in H. by apply Ok_inj in H.
Qed.

Lemma lock_untouched :
vm_ready r 7 XLH_LOCK_ALL_FROZEN_CLEARED → polar_heap_lock_save r = Ok tags →
polar_heap_xlog_lock st r tag buf = Ok out → out = (st, buf, BLK_NOTFOUND).
Proof using Hn.
intros Hv Hs H. unfold polar_heap_xlog_lock in H. peel H E1. peel H E2. peel H E3. peel H E4. by eapply redo_lock_untouched.
Qed.

Lemma lock_updated_untouched :
vm_ready r 7 XLH_LOCK_ALL_FROZEN_CLEARED → polar_heap_lock_update_save r = Ok tags →
polar_heap_xlog_lock_updated st r tag buf = Ok out → out = (st, buf, BLK_NOTFOUND).
Proof using Hn.
intros Hv Hs H. unfold polar_heap_xlog_lock_updated in H. peel H E1. peel H E2. peel H E3. peel H E4.
by eapply redo_lock_untouched.
Qed.

(** Records about block 0 only. *)
Lemma block0_untouched cleanup f :
reader_ok r → tags = ParseXLogBlocksLsn r 0 →
redo_block0 st r tag buf cleanup f = Ok out → out = (st, buf, BLK_NOTFOUND).
Proof using Hn.
intros Hr Ht H. unfold redo_block0 in H. peel H E. apply get_log_tag_inv in E.
rewrite Ht, (ParseXLogBlocksLsn_tag r 0 t0), list_elem_of_singleton in Hn by done.
destruct (tags_neq _ _ Hn) as [Hq _]. rewrite Hq in H. by apply Ok_inj in H.
Qed.

Lemma visible_untouched :
reader_ok r → tags = ParseXLogBlocksLsn r 1 ++ ParseXLogBlocksLsn r 0 →
polar_heap_xlog_visible st r tag buf = Ok out → out = (st, buf, BLK_NOTFOUND).
Proof using Hn.
intros Hr Ht H. unfold polar_heap_xlog_visible in H. peel H E. peel H E0. peel H E1.
apply get_log_tag_inv in E0, E1. rewrite Ht, (ParseXLogBlocksLsn_tag r 0 t0), (ParseXLogBlocksLsn_tag r 1 t1) in Hn by done.
rewrite not_elem_of_app, !list_elem_of_singleton in Hn. destruct Hn as [N1 N0].
destruct (tags_neq _ _ N1) as [Q1 _], (tags_neq _ _ N0) as [Q0 _]. rewrite Q1, Q0 in H. cbn [mbind res_bind] in H.
by apply Ok_inj in H.
Qed.

(** What decoding has prepared for an update record. *)
Record upd_ready : Prop := {
ur_reader : reader_ok r;
ur_blocks t0 t1 : XLogRecGetBlockTag r 0 = Some t0 → XLogRecGetBlockTag r 1 = Some t1 → blockNum t1 ≠ blockNum t0;
ur_old1 flags t0 : rd 1 (main_data r) 7 = Ok flags → has_flag flags XLH_UPDATE_OLD_ALL_VISIBLE_CLEARED = true →
XLogRecGetBlockTag r 0 = Some t0 → XLogRecGetBlockTag r 1 = None → XLogRecGetBlockTag r 2 = Some (vm_tag t0);
ur_old2 flags t0 t1 : rd 1 (main_data r) 7 = Ok flags → has_flag flags XLH_UPDATE_OLD_ALL_VISIBLE_CLEARED = true →
XLogRecGetBlockTag r 0 = Some t0 → XLogRecGetBlockTag r 1 = Some t1 → XLogRecGetBlockTag r 3 = Some (vm_tag t1);
ur_new flags t0 t1 : rd 1 (main_data r) 7 = Ok flags → has_flag flags XLH_UPDATE_NEW_ALL_VISIBLE_CLEARED = true →
XLogRecGetBlockTag r 0 = Some t0 → XLogRecGetBlockTag r 1 = Some t1 → XLogRecGetBlockTag r 2 = Some (vm_tag t0) }.

(** An update within one page: its page and the map page. *)
Lemma update_save_same flags t0 :
upd_ready → rd 1 (main_data r) 7 = Ok flags → XLogRecGetBlockTag r 0 = Some t0 → XLogRecGetBlockTag r 1 = None →
polar_heap_xlog_update_save r = Ok tags →
t0 ∈ tags ∧ (has_flag flags XLH_UPDATE_OLD_ALL_VISIBLE_CLEARED = true → vm_tag t0 ∈ tags).
Proof using. clear Hn.
intros [Hr _ Ho _ _] Hf H0 H1 Hs. unfold polar_heap_xlog_update_save, tag_or_uninit in Hs.
rewrite Hf, H0, H1 in Hs. cbn [mbind res_bind] in Hs. rewrite Z.eqb_refl in Hs. specialize (Ho flags t0 Hf).
rewrite (ParseXLogBlocksLsn_tag r 0 t0) in Hs by done. unfold POLAR_GET_LOG_TAG in Hs.
destruct (has_flag flags XLH_UPDATE_OLD_ALL_VISIBLE_CLEARED).
- specialize (Ho eq_refl H0 H1). rewrite Ho in Hs. cbn [mbind res_bind] in Hs.
rewrite (ParseXLogBlocksLsn_tag r 2 (vm_tag t0)) in Hs by done. apply Ok_inj in Hs as <-. split; [|intros _]; set_solver.
- cbn [mbind res_bind] in Hs. apply Ok_inj in Hs as <-. split; [set_solver|done].
Qed.

(** An update to another page. *)
Lemma update_save_diff flags t0 t1 :
upd_ready → rd 1 (main_data r) 7 = Ok flags → XLogRecGetBlockTag r 0 = Some t0 → XLogRecGetBlockTag r 1 = Some t1 →
polar_heap_xlog_update_save r = Ok tags →
t0 ∈ tags ∧ t1 ∈ tags ∧ (has_flag flags XLH_UPDATE_OLD_ALL_VISIBLE_CLEARED = true → vm_tag t1 ∈ tags) ∧
(has_flag flags XLH_UPDATE_NEW_ALL_VISIBLE_CLEARED = true → vm_tag t0 ∈ tags).
Proof using. clear Hn.
intros [Hr Hb _ Ho Hw] Hf H0 H1 Hs. unfold polar_heap_xlog_update_save, tag_or_uninit in Hs.
rewrite Hf, H0, H1 in Hs. cbn [mbind res_bind] in Hs. rewrite (proj2 (Z.eqb_neq _ _) (Hb _ _ H0 H1)) in Hs.
specialize (Ho flags t0 t1 Hf). specialize (Hw flags t0 t1 Hf).
rewrite (ParseXLogBlocksLsn_tag r 0 t0), (ParseXLogBlocksLsn_tag r 1 t1) in Hs by done. unfold POLAR_GET_LOG_TAG in Hs.
assert (Hcl : BUFFERTAGS_EQUAL CLEAR_BUFFERTAG (vm_tag t0) = false) by (apply tags_neq; done).
destruct (has_flag flags XLH_UPDATE_OLD_ALL_VISIBLE_CLEARED);
[specialize (Ho eq_refl H0 H1); rewrite Ho in Hs; cbn [mbind res_bind] in Hs;
rewrite (ParseXLogBlocksLsn_tag r 3 (vm_tag t1)) in Hs by done|cbn [mbind res_bind] in Hs];
(destruct (has_flag flags XLH_UPDATE_NEW_ALL_VISIBLE_CLEARED);
[specialize (Hw eq_refl H0 H1); rewrite Hw in Hs; cbn [mbind res_bind] in Hs;
rewrite (ParseXLogBlocksLsn_tag r 2 (vm_tag t0)) in Hs by done|cbn [mbind res_bind] in Hs]).
- apply Ok_inj in Hs as <-. destruct (BUFFERTAGS_EQUAL (vm_tag t1) (vm_tag t0)) eqn:Eq;
[apply BUFFERTAGS_EQUAL_true in Eq; rewrite Eq|]; split_and!; intros; set_solver.
- apply Ok_inj in Hs as <-. split_and!; try done; intros; set_solver.
- rewrite Hcl in Hs. apply Ok_inj in Hs as <-. split_and!; try done; intros; set_solver.
- apply Ok_inj in Hs as <-. split_and!; try done; intros; set_solver.
Qed.

Lemma update_untouched hot :
upd_ready → polar_heap_xlog_update_save r = Ok tags →
polar_heap_xlog_update st r tag buf hot = Ok out → out = (st, buf, BLK_NOTFOUND).
Proof using Hn.
intros Hu Hs H. unfold polar_heap_xlog_update in H.
destruct (get_xl_heap_update r) as [x|] eqn:Ex; cbn [mbind res_bind] in H; [|done].
assert (Hf : rd 1 (main_data r) 7 = Ok (upd_flags x)).
{ unfold get_xl_heap_update in Ex. peel Ex E1. peel Ex E2. peel Ex E3. peel Ex E4. peel Ex E5. peel Ex E6. by apply Ok_inj in Ex as <-. }
peel H E0. apply get_log_tag_inv in E0.
destruct (XLogRecGetBlockTag r 1) as [t1|] eqn:E1; cbn [from_option id] in H; rewrite ?Z.eqb_refl in H.
- destruct (update_save_diff _ _ _ Hu Hf E0 E1 Hs) as (L0 & L1 & Lo & Lw).
rewrite (proj2 (Z.eqb_neq _ _) (ur_blocks Hu _ _ E0 E1)) in H.
rewrite bool_decide_false in H.
2:{ cbn [negb]. destruct (has_flag (upd_flags x) XLH_UPDATE_NEW_ALL_VISIBLE_CLEARED); cbn [andb]; [|done].
intros [= <-]. by apply Hn, Lw. }
rewrite bool_decide_false in H.
2:{ destruct (has_flag (upd_flags x) XLH_UPDATE_OLD_ALL_VISIBLE_CLEARED); [|done]. intros [= <-]. by apply Hn, Lo. }
cbn [mbind res_bind] in H. rewrite (proj1 (tags_neq tag t1 ltac:(intros ->; done))) in H. cbn [mbind res_bind] in H.
rewrite (proj1 (tags_neq tag t0 ltac:(intros ->; done))) in H. by apply Ok_inj in H.
- destruct (update_save_same _ _ Hu Hf E0 E1 Hs) as (L0 & Lo). rewrite bool_decide_false in H by (by rewrite andb_false_r).
rewrite bool_decide_false in H.
2:{ destruct (has_flag (upd_flags x) XLH_UPDATE_OLD_ALL_VISIBLE_CLEARED); [|done]. intros [= <-]. by apply Hn, Lo. }
cbn [mbind res_bind] in H. rewrite (proj1 (tags_neq tag t0 ltac:(intros ->; done))) in H. cbn [mbind res_bind] in H.
by apply Ok_inj in H.
Qed.
End untouched.

(** ** Decoding prepares the map blocks *)

Lemma save_if_spec (c : bool) r b v r' :
  reader_ok r → 0 ≤ b → 0 ≤ v → (if c then polar_heap_save_vm_block r b v else Ok r) = Ok r' →
  reader_ok r' ∧ same_record r r' ∧
  (c = true → ∀ t, XLogRecGetBlockTag r b = Some t → XLogRecGetBlockTag r' v = Some (vm_tag t)) ∧
  (∀ id, 0 ≤ id → id ≠ v → XLogRecGetBlockTag r' id = XLogRecGetBlockTag r id).
Proof.
  intros Hr Hb Hv H. destruct c; [|by apply Ok_inj in H as <-].
  destruct (save_vm_block_spec r b v r' Hr) as (? & ? & ? & ?); auto.
Qed.

Lemma slot0_blkno r new t0 :
  blocks r !! Z.to_nat 0 = Some new → XLogRecGetBlockTag r 0 = Some t0 → bkp_blkno new = blockNum t0.
Proof.
  intros En H0. unfold XLogRecGetBlockTag, block_ref in H0. rewrite En in H0. destruct (in_use new); [|done].
  by injection H0 as <-.
Qed.

Lemma decode_upd_ready r0 r :
  reader_ok r0 →
  (∀ t0 t1, XLogRecGetBlockTag r0 0 = Some t0 → XLogRecGetBlockTag r0 1 = Some t1 → blockNum t1 ≠ blockNum t0) →
  polar_heap_update_save_vm_logindex r0 = Ok r → upd_ready r ∧ same_record r0 r.
Proof.
  intros Hr Hne H. unfold polar_heap_update_save_vm_logindex in H. peel H Ef. unfold block_slot in H.
  destruct (blocks r0 !! Z.to_nat 0) as [new|] eqn:En; cbn [mbind res_bind] in H; [|done].
  assert (Hnew := slot0_blkno r0 new).
  destruct (negb _) eqn:Eq in H.
  - destruct (if has_flag v XLH_UPDATE_OLD_ALL_VISIBLE_CLEARED then _ else _) as [ra|] eqn:Em in H; cbn [mbind res_bind] in H; [|done].
    apply save_if_spec in Em as (Hra & Hsa & Ha3 & Hao); [|done|lia..].
    apply save_if_spec in H as (Hrb & Hsb & Hb2 & Hbo); [|done|lia..].
    pose proof (same_record_trans _ _ _ Hsa Hsb) as Hs. split; [|done].
    assert (Hid : ∀ id, 0 ≤ id < 2 → XLogRecGetBlockTag r id = XLogRecGetBlockTag r0 id)
      by (intros; rewrite Hbo, Hao by lia; done).
    constructor; [done|..]; rewrite ?(sr_main _ _ Hs), ?Ef; intros *; rewrite !Hid by lia.
    + apply Hne.
    + intros [= <-] Hf H0 H1. rewrite H1, (Hnew _ En H0), Z.eqb_refl in Eq. done.
    + intros [= <-] Hf H0 H1. rewrite Hbo by lia. auto.
    + intros [= <-] Hf H0 H1. apply Hb2; [done|]. by rewrite Hao by lia.
  - apply save_if_spec in H as (Hrb & Hs & Hb2 & Hbo); [|done|lia..]. split; [|done].
    assert (Hx : ∀ t0 t1, XLogRecGetBlockTag r0 0 = Some t0 → XLogRecGetBlockTag r0 1 = Some t1 → False).
    { intros t0 t1 H0 H1. rewrite H1, (Hnew _ En H0) in Eq. apply negb_false_iff, Z.eqb_eq in Eq. by apply (Hne t0 t1). }
    constructor; [done|..]; rewrite ?(sr_main _ _ Hs), ?Ef; intros *; rewrite ?(Hbo 0), ?(Hbo 1) by lia.
    + apply Hne.
    + intros [= <-] Hf H0 _. auto.
    + intros _ _ H0 H1. by destruct (Hx _ _ H0 H1).
    + intros _ _ H0 H1. by destruct (Hx _ _ H0 H1).
Qed.

(** ** The promise of a resource manager to the log index *)

(** Records the write side produces: the second block of an update is another
    block; a generic record has at most [MAX_GENERIC_XLOG_PAGES] pages, a GIN record at
    most [GIN_NDELETE_AT_ONCE] besides the metapage.  The
    clean-up record of a B-tree meta page and the page copies of a hash bucket
    split are left out: their replay does not look at the tag of the wanted
    page. *)
Record rec_ok (r : XLogReaderState) : Prop := {
  ro_reader : reader_ok r;
  ro_update t0 t1 : xl_rmid r = RM_HEAP_ID → (heap_op r = XLOG_HEAP_UPDATE ∨ heap_op r = XLOG_HEAP_HOT_UPDATE) →
    XLogRecGetBlockTag r 0 = Some t0 → XLogRecGetBlockTag r 1 = Some t1 → blockNum t1 ≠ blockNum t0;
  ro_generic : xl_rmid r = RM_GENERIC_ID → max_block_id r < MAX_GENERIC_XLOG_PAGES;
  ro_cleanup : xl_rmid r = RM_BTREE_ID → rec_info r ≠ XLOG_BTREE_META_CLEANUP;
  ro_split : xl_rmid r = RM_HASH_ID → rec_info r ≠ XLOG_HASH_SPLIT_PAGE;
  ro_gin : xl_rmid r = RM_GIN_ID → max_block_id r ≤ GIN_NDELETE_AT_ONCE }.

(** Replaying a record that was entered under [tags] for another page changes
    nothing and reports so. *)
Class LogIndexed (rmid : Z) (m : rmgr) : Prop :=
  untouched r0 r tags tag st buf out :
    rec_ok r0 → xl_rmid r0 = rmid → polar_xlog_decode_data r0 = Ok r →
    rm_save m r = Ok (true, tags) → tag ∉ tags →
    rm_redo m st r tag buf = Ok out → out = (st, buf, BLK_NOTFOUND).

Lemma ret_true_inv m b l : ret_true m = Ok (b, l) → m = Ok l.
Proof. unfold ret_true. destruct m as [x|]; cbn; [|done]. intros [= _ ->]. done. Qed.

Lemma heap_op_same r0 r : same_record r0 r → heap_op r = heap_op r0.
Proof. intros H. unfold heap_op. by rewrite (sr_info _ _ H). Qed.

(** Case analysis on the operation: the hypothesis is an equation or a
    computation that is not run. *)
Ltac case_op H :=
  match type of H with context [if ?o =? ?c then _ else _] => destruct (Z.eqb_spec o c) as [?Hop|?Hop] end.

#[export] Instance heap_indexed : LogIndexed RM_HEAP_ID heap_rmgr.
Proof.
  intros r0 r tags tag st buf out Hok Hid Hd Hs%ret_true_inv Hn H. pose proof (ro_reader _ Hok) as Hr.
  unfold polar_xlog_decode_data in Hd. rewrite Hid in Hd. cbn [RM_HEAP_ID Z.eqb Pos.eqb] in Hd.
  change (RM_HEAP_ID =? RM_HEAP_ID) with true in Hd. cbv iota in Hd.
  cbn [heap_rmgr rm_redo] in H. unfold polar_heap_idx_redo in H. unfold polar_heap_idx_save in Hs.
  unfold polar_xlog_queue_decode_heap in Hd. case_op Hd.
  { apply decode_vm_ready in Hd as [Hv Hsr]; [|done]. rewrite (heap_op_same _ _ Hsr), Hop in H, Hs. exact (insert_untouched _ _ _ _ _ _ Hn Hv Hs H). }
  case_op Hd.
  { apply decode_vm_ready in Hd as [Hv Hsr]; [|done]. rewrite (heap_op_same _ _ Hsr), Hop0 in H, Hs. exact (delete_untouched _ _ _ _ _ _ Hn Hv Hs H). }
  destruct (_ || _) eqn:Eu in Hd.
  { assert (Ho : heap_op r0 = XLOG_HEAP_UPDATE ∨ heap_op r0 = XLOG_HEAP_HOT_UPDATE) by (b2p; lia).
    apply decode_upd_ready in Hd as [Hv Hsr]; [|done|intros; by eapply ro_update].
    rewrite (heap_op_same _ _ Hsr) in H, Hs. destruct Ho as [Ho|Ho]; rewrite Ho in H, Hs; exact (update_untouched _ _ _ _ _ _ Hn _ Hv Hs H). }
  case_op Hd.
  { apply decode_vm_ready in Hd as [Hv Hsr]; [|done]. rewrite (heap_op_same _ _ Hsr), Hop1 in H, Hs. exact (lock_untouched _ _ _ _ _ _ Hn Hv Hs H). }
  apply Ok_inj in Hd as <-. apply orb_false_elim in Eu as [Eu1 Eu2].
  rewrite (proj2 (Z.eqb_neq _ _) Hop), (proj2 (Z.eqb_neq _ _) Hop0), Eu1, Eu2, (proj2 (Z.eqb_neq _ _) Hop1) in H, Hs.
  case_op H; [by apply Ok_inj in H|]. case_op H; [apply Ok_inj in Hs|case_op H; [apply Ok_inj in Hs|done]].
  - unfold polar_heap_xlog_confirm in H. peel H E. exact (block0_untouched _ _ _ _ _ _ Hn _ _ Hr (eq_sym Hs) H).
  - unfold polar_heap_xlog_inplace in H. peel H E. exact (block0_untouched _ _ _ _ _ _ Hn _ _ Hr (eq_sym Hs) H).
Qed.

#[export] Instance heap2_indexed : LogIndexed RM_HEAP2_ID heap2_rmgr.
Proof.
  intros r0 r tags tag st buf out Hok Hid Hd Hs%ret_true_inv Hn H. pose proof (ro_reader _ Hok) as Hr.
  unfold polar_xlog_decode_data in Hd. rewrite Hid in Hd. change (RM_HEAP2_ID =? RM_HEAP_ID) with false in Hd.
  change (RM_HEAP2_ID =? RM_HEAP2_ID) with true in Hd. cbv iota in Hd.
  cbn [heap2_rmgr rm_redo] in H. unfold polar_heap2_idx_redo in H. unfold polar_heap2_idx_save in Hs.
  unfold polar_xlog_queue_decode_heap2 in Hd. case_op Hd.
  { apply decode_vm_ready in Hd as [Hv Hsr]; [|done]. rewrite (heap_op_same _ _ Hsr), Hop in H, Hs. exact (multi_insert_untouched _ _ _ _ _ _ Hn Hv Hs H). }
  case_op Hd.
  { apply decode_vm_ready in Hd as [Hv Hsr]; [|done]. rewrite (heap_op_same _ _ Hsr), Hop0 in H, Hs. exact (lock_updated_untouched _ _ _ _ _ _ Hn Hv Hs H). }
  apply Ok_inj in Hd as <-. rewrite (proj2 (Z.eqb_neq _ _) Hop), (proj2 (Z.eqb_neq _ _) Hop0) in H, Hs.
  case_op H.
  { rewrite Hop1 in Hs. apply Ok_inj in Hs. unfold polar_heap_xlog_clean in H. peel H E1. peel H E2. exact (block0_untouched _ _ _ _ _ _ Hn _ _ Hr (eq_sym Hs) H). }
  case_op H.
  { rewrite Hop2 in Hs. apply Ok_inj in Hs. unfold polar_heap_xlog_freeze_page in H. peel H E1. exact (block0_untouched _ _ _ _ _ _ Hn _ _ Hr (eq_sym Hs) H). }
  cbn [orb] in Hs. case_op H; [by apply Ok_inj in H|]. case_op H; [apply Ok_inj in Hs; exact (visible_untouched _ _ _ _ _ _ Hn Hr (eq_sym Hs) H)|].
  case_op H; [by apply Ok_inj in H|]. case_op H; [by apply Ok_inj in H|done].
Qed.

Lemma decode_other r0 r rmid :
  xl_rmid r0 = rmid → rmid ≠ RM_HEAP_ID → rmid ≠ RM_HEAP2_ID → polar_xlog_decode_data r0 = Ok r → r = r0.
Proof.
  intros <- H1 H2 H. unfold polar_xlog_decode_data in H.
  rewrite (proj2 (Z.eqb_neq _ _) H1), (proj2 (Z.eqb_neq _ _) H2) in H. by apply Ok_inj in H.
Qed.

#[export] Instance seq_indexed : LogIndexed RM_SEQ_ID seq_rmgr.
Proof.
  intros r0 r tags tag st buf out Hok Hid Hd Hs%ret_true_inv Hn H. apply (decode_other _ _ RM_SEQ_ID) in Hd as ->; [|done..].
  cbn [seq_rmgr rm_redo] in H. unfold polar_seq_idx_save, polar_seq_idx_redo, polar_seq_xlog_redo in *.
  destruct (_ =? _); [|done]. apply Ok_inj in Hs as <-. peel H E. apply get_log_tag_inv in E.
  rewrite (ParseXLogBlocksLsn_tag r0 0 t0), list_elem_of_singleton in Hn by (done || by apply ro_reader).
  rewrite (proj2 (tags_neq _ _ Hn)) in H. by apply Ok_inj in H.
Qed.

Lemma fpi_untouched st r tag buf n : ∀ id out,
  reader_ok r → 0 ≤ id → (∀ j, id ≤ j < id + Z.of_nat n → tag ∉ ParseXLogBlocksLsn r j) →
  xlog_idx_fpi_loop st r tag buf id n = Ok out → out = (st, buf, BLK_NOTFOUND).
Proof.
  induction n as [|n IH]; intros id out Hr Hid Hn H; cbn [xlog_idx_fpi_loop] in H; [by apply Ok_inj in H|].
  peel H E. apply get_log_tag_inv in E. specialize (Hn id) as Hn0.
  rewrite (ParseXLogBlocksLsn_tag r id t0), list_elem_of_singleton in Hn0 by done.
  rewrite (proj1 (tags_neq _ _ (Hn0 ltac:(lia)))) in H. apply (IH (id + 1) out); [done|lia| |done].
  intros j Hj. apply Hn. lia.
Qed.

Lemma not_in_seqZ_bind (f : Z → list BufferTag) n tag :
  tag ∉ (seqZ 0 n ≫= f) → ∀ j, 0 ≤ j < n → tag ∉ f j.
Proof. intros H j Hj Hin. apply H. apply list_elem_of_bind. exists j. split; [done|]. apply elem_of_seqZ. lia. Qed.

#[export] Instance xlog_indexed : LogIndexed RM_XLOG_ID xlog_rmgr.
Proof.
  intros r0 r tags tag st buf out Hok Hid Hd Hs Hn H. apply (decode_other _ _ RM_XLOG_ID) in Hd as ->; [|done..].
  cbn [xlog_rmgr rm_redo rm_save] in H, Hs. unfold polar_xlog_idx_save, polar_xlog_idx_redo in *.
  destruct (negb _ && negb _) eqn:Eb; [done|]. apply Ok_inj in Hs. injection Hs as <-.
  assert (Hor : (rec_info r0 =? XLOG_FPI) || (rec_info r0 =? XLOG_FPI_FOR_HINT) = true)
    by (rewrite <-negb_orb in Eb; by apply negb_false_iff in Eb).
  rewrite Hor in H. unfold xlog_idx_fpi_redo in H. eapply fpi_untouched; [by apply ro_reader|reflexivity| |exact H].
  intros j Hj. eapply not_in_seqZ_bind; [exact Hn|]. lia.
Qed.

Lemma generic_untouched st r tag buf n : ∀ id out,
  reader_ok r → 0 ≤ id → (∀ j, id ≤ j < id + Z.of_nat n → XLogRecGetBlockTag r j ≠ Some tag) →
  generic_redo_loop st r tag buf id n = Ok out → out = (st, buf, BLK_NOTFOUND).
Proof.
  induction n as [|n IH]; intros id out Hr Hid Hn H; cbn [generic_redo_loop] in H; [by apply Ok_inj in H|].
  destruct (XLogRecGetBlockTag r id) as [t|] eqn:E.
  - assert (Hne : tag ≠ t) by (intros ->; apply (Hn id); [lia|done]).
    rewrite (proj1 (tags_neq _ _ Hne)) in H. apply (IH (id + 1) out); [done|lia| |done]. intros j Hj. apply Hn. lia.
  - apply (IH (id + 1) out); [done|lia| |done]. intros j Hj. apply Hn. lia.
Qed.

#[export] Instance generic_indexed : LogIndexed RM_GENERIC_ID generic_rmgr.
Proof.
  intros r0 r tags tag st buf out Hok Hid Hd Hs Hn H. apply (decode_other _ _ RM_GENERIC_ID) in Hd as ->; [|done..].
  cbn [generic_rmgr rm_save] in Hs. apply ret_true_inv, Ok_inj in Hs as <-. pose proof (ro_reader _ Hok) as Hr. pose proof (ro_generic _ Hok Hid) as Hg.
  eapply generic_untouched; [done|reflexivity| |exact H]. intros j Hj Ht.
  eapply (not_in_seqZ_bind _ _ _ Hn j); [lia|]. cbv beta. unfold XLogRecHasBlockRef.
  assert (Hb : is_Some (block_ref r0 j)) by (unfold XLogRecGetBlockTag in Ht; destruct (block_ref r0 j); [eauto|done]).
  rewrite bool_decide_true by done. rewrite (ParseXLogBlocksLsn_tag r0 j tag) by (done || lia). by apply list_elem_of_singleton.
Qed.

Lemma save_vm_rmid r b v r' : polar_heap_save_vm_block r b v = Ok r' → xl_rmid r' = xl_rmid r.
Proof.
  unfold polar_heap_save_vm_block. destruct (block_slot r b); cbn [mbind res_bind]; [|done].
  destruct (block_slot r v); cbn [mbind res_bind]; [|done]. by intros <-%Ok_inj.
Qed.

Lemma save_if_rmid (c : bool) r b v r' :
  (if c then polar_heap_save_vm_block r b v else Ok r) = Ok r' → xl_rmid r' = xl_rmid r.
Proof. destruct c; [apply save_vm_rmid|by intros <-%Ok_inj]. Qed.

Lemma update_save_rmid r0 r : polar_heap_update_save_vm_logindex r0 = Ok r → xl_rmid r = xl_rmid r0.
Proof.
  intros H. unfold polar_heap_update_save_vm_logindex in H. peel H E.
  destruct (block_slot r0 0); cbn [mbind res_bind] in H; [|done]. destruct (negb _) in H; [|by apply save_if_rmid in H].
  destruct (if has_flag v XLH_UPDATE_OLD_ALL_VISIBLE_CLEARED then _ else _) as [ra|] eqn:E1 in H; cbn [mbind res_bind] in H; [|done].
  apply save_if_rmid in E1. apply save_if_rmid in H. congruence.
Qed.

Lemma decode_rmid r0 r : polar_xlog_decode_data r0 = Ok r → xl_rmid r = xl_rmid r0.
Proof.
  intros H. unfold polar_xlog_decode_data, polar_xlog_queue_decode_heap, polar_xlog_queue_decode_heap2 in H.
  repeat (case_op H || (destruct (_ || _) in H));
    first [by apply Ok_inj in H as <- | by apply update_save_rmid | peel H E; by apply save_if_rmid in H].
Qed.
