(* ===== verification/IndexTags.v ===== *)
(** * Records of index access methods in the log index

    The instances of the promise for B-tree, BRIN, GiST, hash, GIN and SP-GiST
    records: every page a handler of [nbtxlog_idx.c], [brin_xlog_idx.c],
    [gist_xlog_idx.c], [hash_xlog_idx.c], [gin_xlog_idx.c] or [spgxlog_idx.c]
    touches is among those the record is entered under. *)

From S2P Require Import Prelude Mem Page PageAdd Buffer WalRecord XLogInsert XLogDecode HeapRedo Resident TagList Btree BtreeRedo Brin Gist HashRedo GinRedo SpgRedo Dispatch TagIndexed.

Section unlisted.
Context (r : XLogReaderState) (tag : BufferTag) (Hr : reader_ok r).

(** A page that is not listed under a block is not the page of that block. *)
Lemma unlisted id t : 0 ≤ id → POLAR_GET_LOG_TAG r id = Ok t → tag ∉ ParseXLogBlocksLsn r id →
BUFFERTAGS_EQUAL tag t = false ∧ BUFFERTAGS_EQUAL t tag = false.
Proof using Hr.
intros Hid Ht%get_log_tag_inv Hn. rewrite (ParseXLogBlocksLsn_tag r id t), list_elem_of_singleton in Hn by done.
by apply tags_neq.
Qed.

Lemma unlisted_ref id t : POLAR_GET_LOG_TAG r id = Ok t → tag ∉ save_if_ref r id → tag ∉ ParseXLogBlocksLsn r id.
Proof.
intros Ht%get_log_tag_inv. unfold save_if_ref, XLogRecHasBlockRef. unfold XLogRecGetBlockTag in Ht.
destruct (block_ref r id); [|done]. by rewrite bool_decide_true by eauto.
Qed.

(** The test for a block the record has under a condition. *)
Lemma unlisted_test (c b : bool) id (f : BufferTag → bool) : 0 ≤ id →
(if c then t ← POLAR_GET_LOG_TAG r id; Ok (f t) else Ok false) = Ok b →
(∀ t, f t = BUFFERTAGS_EQUAL tag t ∨ f t = BUFFERTAGS_EQUAL t tag) →
(c = true → ∀ t, POLAR_GET_LOG_TAG r id = Ok t → tag ∉ ParseXLogBlocksLsn r id) → b = false.
Proof using Hr.
intros Hid H Hf Hn. destruct c; [|by apply Ok_inj in H]. destruct (POLAR_GET_LOG_TAG r id) as [t|] eqn:E; cbn [mbind res_bind] in H; [|done].
apply Ok_inj in H as <-. destruct (unlisted id t Hid E (Hn eq_refl t eq_refl)). destruct (Hf t); congruence.
Qed.
End unlisted.

(** Peel the test off the head of a computation. *)
Ltac peel_test H :=
  match type of H with
  | ((if _ then _ else Ok false) ≫= _) = Ok _ =>
      let E := fresh "E" in
      match type of H with ((?m) ≫= _) = _ => destruct m eqn:E; cbn [mbind res_bind] in H; [|done] end;
      eapply unlisted_test in E; [subst; cbv iota in H|eassumption|lia|by eauto|]
  end.

Section untouched.
Context (st : dbstate) (r : XLogReaderState) (tag : BufferTag) (buf : Buffer) (out : dbstate * Buffer * XLogRedoAction).
Context (Hr : reader_ok r).

Lemma btree_insert_untouched isleaf ismeta posting : tag ∉ polar_btree_xlog_insert_save isleaf ismeta r →
polar_btree_xlog_insert isleaf ismeta posting st r tag buf = Ok out → out = (st, buf, BLK_NOTFOUND).
Proof using Hr.
unfold polar_btree_xlog_insert_save, polar_btree_xlog_insert. rewrite !not_elem_of_app. intros (N1 & N0 & N2) H.
peel_test H; [|by destruct isleaf]. peel H E0. rewrite (proj1 (unlisted r tag Hr 0 _ ltac:(lia) E0 N0)) in H.
destruct ismeta; [|by apply Ok_inj in H]. peel H E2. rewrite (proj1 (unlisted r tag Hr 2 _ ltac:(lia) E2 N2)) in H. by apply Ok_inj in H.
Qed.

Lemma btree_split_untouched onleft : tag ∉ polar_btree_xlog_split_save r →
polar_btree_xlog_split onleft st r tag buf = Ok out → out = (st, buf, BLK_NOTFOUND).
Proof using Hr.
unfold polar_btree_xlog_split_save, polar_btree_xlog_split. rewrite !not_elem_of_app. intros (N3 & N1 & N0 & N2) H.
destruct (get_xl_btree_split r) as [x|]; cbn [mbind res_bind] in H; [|done]. peel H E0. peel H E1. cbv zeta in H.
peel_test H; [|intros _ t Ht; by eapply unlisted_ref].
rewrite (proj1 (unlisted r tag Hr 1 _ ltac:(lia) E1 N1)), (proj1 (unlisted r tag Hr 0 _ ltac:(lia) E0 N0)) in H.
destruct (negb _); [|by apply Ok_inj in H]. peel H E2.
rewrite (proj1 (unlisted r tag Hr 2 _ ltac:(lia) E2 (unlisted_ref _ _ _ _ E2 N2))) in H. by apply Ok_inj in H.
Qed.

Lemma btree_halfdead_untouched : tag ∉ ParseXLogBlocksLsn r 1 ++ ParseXLogBlocksLsn r 0 →
polar_btree_xlog_mark_page_halfdead st r tag buf = Ok out → out = (st, buf, BLK_NOTFOUND).
Proof using Hr.
unfold polar_btree_xlog_mark_page_halfdead. rewrite not_elem_of_app. intros (N1 & N0) H. peel H E0. peel H E1.
rewrite (proj1 (unlisted r tag Hr 1 _ ltac:(lia) E1 N1)), (proj1 (unlisted r tag Hr 0 _ ltac:(lia) E0 N0)) in H.
by apply Ok_inj in H.
Qed.

Lemma btree_unlink_untouched info : tag ∉ polar_btree_xlog_unlink_page_save info r →
polar_btree_xlog_unlink_page info st r tag buf = Ok out → out = (st, buf, BLK_NOTFOUND).
Proof using Hr.
unfold polar_btree_xlog_unlink_page_save, polar_btree_xlog_unlink_page. rewrite !not_elem_of_app. intros (N2 & N1 & N0 & N3 & N4) H.
peel H E. peel H E'. peel H E2. rewrite (proj1 (unlisted r tag Hr 2 _ ltac:(lia) E2 N2)) in H.
peel_test H; [|intros _ t Ht; by eapply unlisted_ref].
peel H E0. rewrite (proj1 (unlisted r tag Hr 0 _ ltac:(lia) E0 N0)) in H.
peel_test H; [|intros _ t Ht; by eapply unlisted_ref].
destruct (_ =? _); [|by apply Ok_inj in H]. peel H E4. rewrite (proj1 (unlisted r tag Hr 4 _ ltac:(lia) E4 N4)) in H. by apply Ok_inj in H.
Qed.

Lemma btree_newroot_untouched : tag ∉ polar_btree_xlog_newroot_save r →
polar_btree_xlog_newroot st r tag buf = Ok out → out = (st, buf, BLK_NOTFOUND).
Proof using Hr.
unfold polar_btree_xlog_newroot_save, polar_btree_xlog_newroot. rewrite !not_elem_of_app. intros (N0 & N1 & N2) H.
peel H E. peel H E0. rewrite (proj1 (unlisted r tag Hr 0 _ ltac:(lia) E0 N0)) in H.
peel_test H; [|intros _ t Ht; by eapply unlisted_ref].
peel H E2. rewrite (proj1 (unlisted r tag Hr 2 _ ltac:(lia) E2 N2)) in H. by apply Ok_inj in H.
Qed.
End untouched.

(** Evaluate the tests on a known record type. *)
Ltac bt_eval H :=
  lazy beta iota delta [XLOG_BTREE_INSERT_LEAF XLOG_BTREE_INSERT_UPPER XLOG_BTREE_INSERT_META XLOG_BTREE_SPLIT_L XLOG_BTREE_SPLIT_R
    XLOG_BTREE_INSERT_POST XLOG_BTREE_DEDUP XLOG_BTREE_DELETE XLOG_BTREE_UNLINK_PAGE XLOG_BTREE_UNLINK_PAGE_META XLOG_BTREE_NEWROOT
    XLOG_BTREE_MARK_PAGE_HALFDEAD XLOG_BTREE_VACUUM XLOG_BTREE_REUSE_PAGE Z.eqb Pos.eqb orb] in H.

#[export] Instance btree_indexed : LogIndexed RM_BTREE_ID btree_rmgr.
Proof.
  intros r0 r tags tag st buf out Hok Hid Hd Hs%ret_true_inv Hn H. apply (decode_other _ _ RM_BTREE_ID) in Hd as ->; [|done..].
  pose proof (ro_reader _ Hok) as Hr. pose proof (ro_cleanup _ Hok Hid) as Hc.
  cbn [btree_rmgr rm_redo] in H. unfold polar_btree_redo in H. unfold polar_btree_idx_save in Hs.
  do 10 (match type of H with (if ?i =? ?c then _ else _) = _ => destruct (Z.eqb_spec i c) as [Hop|_] end;
    [rewrite ?Hop in Hs; bt_eval Hs; apply Ok_inj in Hs as <-;
     first [by eapply btree_insert_untouched | by eapply btree_split_untouched | by eapply btree_halfdead_untouched
           | exact (block0_untouched _ _ _ _ _ _ Hn _ _ Hr eq_refl H)]|]).
  destruct (_ || _) eqn:Eu in H.
  { apply orb_true_iff in Eu. rewrite !Z.eqb_eq in Eu.
    destruct Eu as [Hop|Hop]; rewrite Hop in Hs, H; bt_eval Hs; apply Ok_inj in Hs as <-; by eapply btree_unlink_untouched. }
  destruct (Z.eqb_spec (rec_info r0) XLOG_BTREE_NEWROOT) as [Hop|_].
  { rewrite ?Hop in Hs; bt_eval Hs; apply Ok_inj in Hs as <-. by eapply btree_newroot_untouched. }
  destruct (_ =? _) in H; [by apply Ok_inj in H|]. by rewrite (proj2 (Z.eqb_neq _ _) Hc) in H.
Qed.

(** ** BRIN *)

Section brin.
Context (st : dbstate) (r : XLogReaderState) (tag : BufferTag) (buf : Buffer) (out : dbstate * Buffer * XLogRedoAction).
Context (Hr : reader_ok r).

(** Peel the comparison with the tag of a block the page is not listed under. *)
Ltac not_listed H id N :=
let E := fresh "E" in peel H E; destruct (unlisted r tag Hr id _ ltac:(lia) E N) as [E1 E2];
rewrite ?E1, ?E2 in H; clear E E1 E2; cbn [negb] in H.

Lemma brin_insert_untouched x : tag ∉ ParseXLogBlocksLsn r 0 → tag ∉ ParseXLogBlocksLsn r 1 →
polar_brin_xlog_insert_update x st r tag buf = Ok out → out = (st, buf, BLK_NOTFOUND).
Proof using Hr. intros N0 N1 H. unfold polar_brin_xlog_insert_update in H. not_listed H 0 N0. not_listed H 1 N1. by apply Ok_inj in H. Qed.

Lemma brin_update_untouched : tag ∉ ParseXLogBlocksLsn r 2 → tag ∉ ParseXLogBlocksLsn r 0 → tag ∉ ParseXLogBlocksLsn r 1 →
polar_brin_xlog_update st r tag buf = Ok out → out = (st, buf, BLK_NOTFOUND).
Proof using Hr. intros N2 N0 N1 H. unfold polar_brin_xlog_update in H. not_listed H 2 N2. by eapply brin_insert_untouched. Qed.

Lemma brin_block0_untouched : tag ∉ ParseXLogBlocksLsn r 0 →
polar_brin_xlog_createidx st r tag buf = Ok out ∨ polar_brin_xlog_samepage_update st r tag buf = Ok out → out = (st, buf, BLK_NOTFOUND).
Proof using Hr.
intros N0 H. unfold polar_brin_xlog_createidx, polar_brin_xlog_samepage_update in H.
destruct H as [H|H]; not_listed H 0 N0; by apply Ok_inj in H.
Qed.

Lemma brin_revmap_untouched : tag ∉ ParseXLogBlocksLsn r 0 → tag ∉ ParseXLogBlocksLsn r 1 →
polar_brin_xlog_revmap_extend st r tag buf = Ok out ∨ polar_brin_xlog_desummarize_page st r tag buf = Ok out → out = (st, buf, BLK_NOTFOUND).
Proof using Hr.
intros N0 N1 H. unfold polar_brin_xlog_revmap_extend, polar_brin_xlog_desummarize_page in H.
destruct H as [H|H]; not_listed H 0 N0; not_listed H 1 N1; by apply Ok_inj in H.
Qed.
End brin.

(** The next operation of the dispatcher, with the tags it is entered under. *)
Ltac brin_case H Hs Hn Hop :=
  match type of H with (if ?i =? ?c then _ else _) = _ => destruct (Z.eqb_spec i c) as [Hop|_] end;
  [rewrite ?Hop in Hs; cbn in Hs; apply Ok_inj in Hs; injection Hs as <-; rewrite ?not_elem_of_app in Hn|].

#[export] Instance brin_indexed : LogIndexed RM_BRIN_ID brin_rmgr.
Proof.
  intros r0 r tags tag st buf out Hok Hid Hd Hs Hn H. apply (decode_other _ _ RM_BRIN_ID) in Hd as ->; [|done..].
  pose proof (ro_reader _ Hok) as Hr. cbn [brin_rmgr rm_redo rm_save] in H, Hs. unfold polar_brin_idx_redo in H. unfold polar_brin_idx_save in Hs.
  brin_case H Hs Hn Hop; [by eapply brin_block0_untouched; [done|done|left]|].
  brin_case H Hs Hn Hop; [by eapply (brin_insert_untouched _ _ _ _ _ Hr 0); [apply Hn|apply Hn|]|].
  brin_case H Hs Hn Hop; [by eapply brin_update_untouched; [done|apply Hn|apply Hn|apply Hn|]|].
  brin_case H Hs Hn Hop; [by eapply brin_block0_untouched; [done|done|right]|].
  brin_case H Hs Hn Hop; [by eapply brin_revmap_untouched; [done|apply Hn|apply Hn|left]|].
  brin_case H Hs Hn Hop; [by eapply brin_revmap_untouched; [done|apply Hn|apply Hn|right]|].
  done.
Qed.

(** ** GiST *)

(** A block in an unbroken run of references is listed with the run. *)
Lemma save_run_block r id n j t : id ≤ j < id + Z.of_nat n → (∀ k, id ≤ k ≤ j → XLogRecHasBlockRef r k = true) →
  t ∈ ParseXLogBlocksLsn r j → t ∈ save_run r id n.
Proof.
  revert id. induction n as [|n IH]; intros id Hj Hk Ht; [lia|]. cbn [save_run]. rewrite Hk by lia. apply elem_of_app.
  destruct (decide (j = id)) as [->|]; [by left|]. right. apply IH; [lia| |done]. intros k Hkr. apply Hk. lia.
Qed.

Lemma log_tag_ref r id t : POLAR_GET_LOG_TAG r id = Ok t → XLogRecHasBlockRef r id = true.
Proof.
  intros Ht%get_log_tag_inv. unfold XLogRecHasBlockRef. unfold XLogRecGetBlockTag in Ht. destruct (block_ref r id); [|done].
  by apply bool_decide_true.
Qed.

Section gist.
Context (st : dbstate) (r : XLogReaderState) (tag : BufferTag) (buf : Buffer) (out : dbstate * Buffer * XLogRedoAction).
Context (Hr : reader_ok r).

Lemma gist_update_untouched : tag ∉ polar_gist_redo_page_update_record_save r →
polar_gist_redo_page_update_record st r tag buf = Ok out → out = (st, buf, BLK_NOTFOUND).
Proof using Hr.
unfold polar_gist_redo_page_update_record_save, polar_gist_redo_page_update_record. rewrite not_elem_of_app. intros [N0 N1] H.
peel H E0. rewrite (proj1 (unlisted r tag Hr 0 _ ltac:(lia) E0 N0)) in H.
peel_test H; [|intros _ t Ht; by eapply unlisted_ref]. by apply Ok_inj in H.
Qed.

(** The blocks of the split are an unbroken run from block 1 on. *)
Lemma gist_split_loop_untouched x n : ∀ i isroot o, 0 ≤ i → tag ∉ ParseXLogBlocksLsn r 1 ++ save_run r 2 (Z.to_nat (XLR_MAX_BLOCK_ID - 1)) →
(∀ k, 1 ≤ k ≤ i → XLogRecHasBlockRef r k = true) → gist_split_loop st r x tag buf i isroot n = Ok o → o = None.
Proof using Hr.
induction n as [|n IH]; intros i isroot o Hi Hn Hk H; cbn [gist_split_loop] in H; [by apply Ok_inj in H|].
peel H E. pose proof (log_tag_ref _ _ _ E) as Href. assert (Hk' : ∀ k, 1 ≤ k ≤ i + 1 → XLogRecHasBlockRef r k = true).
{ intros k Hkr. destruct (decide (k = i + 1)) as [->|]; [done|]. apply Hk. lia. }
assert (Hmax : i + 1 ≤ XLR_MAX_BLOCK_ID).
{ destruct Hr as (Hl & _ & _). unfold XLogRecHasBlockRef in Href. apply bool_decide_eq_true in Href as [b Hb]. unfold block_ref in Hb.
destruct (blocks r !! Z.to_nat (i + 1)) eqn:Eb; [|done]. apply lookup_lt_Some in Eb. unfold zlen in Hl. lia. }
assert (Hni : tag ∉ ParseXLogBlocksLsn r (i + 1)).
{ intros Hin. apply Hn, elem_of_app. destruct (decide (i = 0)) as [->|]; [by left|]. right. apply (save_run_block r 2 _ (i + 1)); [|intros; apply Hk'; lia|done].
unfold XLR_MAX_BLOCK_ID in *. lia. }
rewrite (proj1 (unlisted r tag Hr (i + 1) _ ltac:(lia) E Hni)) in H. cbn [negb] in H. eapply (IH (i + 1)); [lia|done|done|exact H].
Qed.

Lemma gist_split_untouched : tag ∉ polar_gist_redo_page_split_record_save r →
polar_gist_redo_page_split_record st r tag buf = Ok out → out = (st, buf, BLK_NOTFOUND).
Proof using Hr.
unfold polar_gist_redo_page_split_record_save, polar_gist_redo_page_split_record. rewrite app_assoc, not_elem_of_app. intros [N1 N0] H.
destruct (get_gistxlogPageSplit r) as [x|]; cbn [mbind res_bind] in H; [|done].
destruct (gist_split_loop _ _ _ _ _ _ _ _) as [o|] eqn:E in H; cbn [mbind res_bind] in H; [|done].
apply gist_split_loop_untouched in E as ->; [|lia|done|intros; lia].
peel_test H; [|intros _ t Ht; by eapply unlisted_ref]. by apply Ok_inj in H.
Qed.

(** The two routines without a return statement have no result. *)
Lemma gist_no_result : polar_gistRedoDeleteRecord st r tag buf ≠ Ok out ∧ polar_gistRedoPageDelete st r tag buf ≠ Ok out.
Proof using.
unfold polar_gistRedoDeleteRecord, polar_gistRedoPageDelete. split; intros H; res_inv.
destruct a0 as [[? ?] ?]. by res_inv.
Qed.
End gist.

#[export] Instance gist_indexed : LogIndexed RM_GIST_ID gist_rmgr.
Proof.
  intros r0 r tags tag st buf out Hok Hid Hd Hs%ret_true_inv Hn H. apply (decode_other _ _ RM_GIST_ID) in Hd as ->; [|done..].
  pose proof (ro_reader _ Hok) as Hr. cbn [gist_rmgr rm_redo] in H. unfold polar_gist_idx_redo in H. unfold polar_gist_idx_save in Hs.
  destruct (Z.eqb_spec (rec_info r0) XLOG_GIST_PAGE_UPDATE); [apply Ok_inj in Hs as <-; by eapply gist_update_untouched|].
  destruct (Z.eqb_spec (rec_info r0) XLOG_GIST_DELETE); [by apply gist_no_result in H|].
  destruct (Z.eqb_spec (rec_info r0) XLOG_GIST_PAGE_REUSE); [by apply Ok_inj in H|].
  destruct (Z.eqb_spec (rec_info r0) XLOG_GIST_PAGE_SPLIT); [apply Ok_inj in Hs as <-; by eapply gist_split_untouched|].
  destruct (Z.eqb_spec (rec_info r0) XLOG_GIST_PAGE_DELETE); [by apply gist_no_result in H|].
  destruct (Z.eqb_spec (rec_info r0) XLOG_GIST_ASSIGN_LSN); [by apply Ok_inj in H|done].
Qed.

(** ** Hash *)

Section hash.
Context (st : dbstate) (r : XLogReaderState) (tag : BufferTag) (buf : Buffer) (out : dbstate * Buffer * XLogRedoAction).
Context (Hr : reader_ok r).

(** Peel the comparison with the tag of a block the page is not listed under. *)
Ltac skip H id N :=
let E := fresh "E" in peel H E; rewrite (proj1 (unlisted r tag Hr id _ ltac:(lia) E N)) in H; clear E.
(** The same for a block that is tested under a condition. *)
Ltac skip_if H N := peel_test H; [|intros _ ? Ht; first [by eapply unlisted_ref | by eapply N]].

(** The listing of the first two blocks of a record whose bucket page and
written page may coincide. *)
Lemma unlisted_pair rest : tag ∉ ((if XLogRecHasBlockRef r 0 then ParseXLogBlocksLsn r 0 ++ ParseXLogBlocksLsn r 1 else ParseXLogBlocksLsn r 1) ++ rest) →
(∀ t, POLAR_GET_LOG_TAG r 0 = Ok t → tag ∉ ParseXLogBlocksLsn r 0) ∧ (tag ∉ ParseXLogBlocksLsn r 1) ∧ (tag ∉ rest).
Proof using.
rewrite not_elem_of_app. intros [H Hrest]. destruct (XLogRecHasBlockRef r 0) eqn:E.
- apply not_elem_of_app in H as [H0 H1]. done.
- split; [|done]. intros t Ht%log_tag_ref. congruence.
Qed.

(** Two and three blocks that are always listed. *)
Lemma hash_two_untouched : tag ∉ ParseXLogBlocksLsn r 0 → tag ∉ ParseXLogBlocksLsn r 1 →
polar_hash_xlog_init_bitmap_page st r tag buf = Ok out ∨ polar_hash_xlog_insert st r tag buf = Ok out ∨
polar_hash_xlog_split_complete st r tag buf = Ok out ∨ polar_hash_xlog_vacuum_one_page st r tag buf = Ok out → out = (st, buf, BLK_NOTFOUND).
Proof using Hr.
intros N0 N1 H. destruct H as [H|[H|[H|H]]];
unfold polar_hash_xlog_init_bitmap_page, polar_hash_xlog_insert, polar_hash_xlog_split_complete, polar_hash_xlog_vacuum_one_page in H;
skip H 0 N0; skip H 1 N1; by apply Ok_inj in H.
Qed.

Lemma hash_allocate_untouched : tag ∉ ParseXLogBlocksLsn r 0 → tag ∉ ParseXLogBlocksLsn r 1 → tag ∉ ParseXLogBlocksLsn r 2 →
polar_hash_xlog_split_allocate_page st r tag buf = Ok out → out = (st, buf, BLK_NOTFOUND).
Proof using Hr.
intros N0 N1 N2 H. unfold polar_hash_xlog_split_allocate_page in H. skip H 0 N0. skip H 1 N1. skip H 2 N2. by apply Ok_inj in H.
Qed.

Lemma hash_one_untouched : tag ∉ ParseXLogBlocksLsn r 0 →
polar_hash_xlog_init_meta_page st r tag buf = Ok out ∨ polar_hash_xlog_split_cleanup st r tag buf = Ok out ∨
polar_hash_xlog_update_meta_page st r tag buf = Ok out → out = (st, buf, BLK_NOTFOUND).
Proof using Hr.
intros N0 H. destruct H as [H|[H|H]];
unfold polar_hash_xlog_init_meta_page, polar_hash_xlog_split_cleanup, polar_hash_xlog_update_meta_page, redo_block0 in H;
skip H 0 N0; by apply Ok_inj in H.
Qed.

Lemma hash_ovfl_untouched : tag ∉ polar_hash_xlog_add_ovfl_page_save r →
polar_hash_xlog_add_ovfl_page st r tag buf = Ok out → out = (st, buf, BLK_NOTFOUND).
Proof using Hr.
unfold polar_hash_xlog_add_ovfl_page_save, polar_hash_xlog_add_ovfl_page. rewrite !not_elem_of_app. intros (N0 & N1 & N2 & N3 & N4) H.
peel H E0. peel H E1. rewrite (proj1 (unlisted r tag Hr 0 _ ltac:(lia) E0 N0)), (proj1 (unlisted r tag Hr 1 _ ltac:(lia) E1 N1)) in H.
skip_if H N2. skip_if H N3. skip H 4 N4. by apply Ok_inj in H.
Qed.

Lemma hash_move_untouched : tag ∉ polar_hash_xlog_move_page_contents_save r →
polar_hash_xlog_move_page_contents st r tag buf = Ok out → out = (st, buf, BLK_NOTFOUND).
Proof using Hr.
unfold polar_hash_xlog_move_page_contents_save, polar_hash_xlog_move_page_contents. intros (N0 & N1 & N2)%unlisted_pair H.
peel H E. cbv zeta in H. skip_if H N0. skip H 1 N1. skip H 2 N2. by apply Ok_inj in H.
Qed.

Lemma hash_delete_untouched : tag ∉ polar_hash_xlog_delete_save r →
polar_hash_xlog_delete st r tag buf = Ok out → out = (st, buf, BLK_NOTFOUND).
Proof using Hr.
unfold polar_hash_xlog_delete_save, polar_hash_xlog_delete. intros HN H. rewrite <-(app_nil_r (if XLogRecHasBlockRef r 0 then _ else _)) in HN. apply unlisted_pair in HN as (N0 & N1 & _).
peel H E. peel H E'. cbv zeta in H. skip_if H N0. skip H 1 N1. by apply Ok_inj in H.
Qed.

Lemma hash_squeeze_untouched : tag ∉ polar_hash_xlog_squeeze_page_save r →
polar_hash_xlog_squeeze_page st r tag buf = Ok out → out = (st, buf, BLK_NOTFOUND).
Proof using Hr.
unfold polar_hash_xlog_squeeze_page_save, polar_hash_xlog_squeeze_page. intros (N0 & N1 & N)%unlisted_pair H.
rewrite !not_elem_of_app in N. destruct N as (N2 & N3 & N4 & N5 & N6).
destruct (get_xl_hash_squeeze_page r) as [x|]; cbn [mbind res_bind] in H; [|done].
skip_if H N0. skip H 1 N1. skip H 2 N2. skip_if H N3. skip_if H N4. skip H 5 N5. skip_if H N6. by apply Ok_inj in H.
Qed.
End hash.

(** The next operation of the dispatcher, with the tags it is entered under. *)
Ltac hash_case H Hs Hn :=
  let Hop := fresh "Hop" in
  match type of H with (if ?i =? ?c then _ else _) = _ => destruct (Z.eqb_spec i c) as [Hop|_] end;
  [rewrite ?Hop in Hs; cbn in Hs; apply Ok_inj in Hs as <-; rewrite ?app_nil_r, ?not_elem_of_app in Hn|].

#[export] Instance hash_indexed : LogIndexed RM_HASH_ID hash_rmgr.
Proof.
  intros r0 r tags tag st buf out Hok Hid Hd Hs%ret_true_inv Hn H. apply (decode_other _ _ RM_HASH_ID) in Hd as ->; [|done..].
  pose proof (ro_reader _ Hok) as Hr. pose proof (ro_split _ Hok Hid) as Hsp.
  cbn [hash_rmgr rm_redo] in H. unfold polar_hash_idx_redo in H. unfold polar_hash_idx_save in Hs.
  hash_case H Hs Hn; [by eapply hash_one_untouched; [done|done|left]|].
  hash_case H Hs Hn; [destruct Hn; by eapply hash_two_untouched; [done..|left]|].
  hash_case H Hs Hn; [destruct Hn; by eapply hash_two_untouched; [done..|right; left]|].
  hash_case H Hs Hn; [by eapply hash_ovfl_untouched|].
  hash_case H Hs Hn; [destruct Hn as (? & ? & ?); by eapply hash_allocate_untouched|].
  rewrite (proj2 (Z.eqb_neq _ _) Hsp) in H.
  hash_case H Hs Hn; [destruct Hn; by eapply hash_two_untouched; [done..|right; right; left]|].
  hash_case H Hs Hn; [by eapply hash_move_untouched|].
  hash_case H Hs Hn; [by eapply hash_squeeze_untouched|].
  hash_case H Hs Hn; [by eapply hash_delete_untouched|].
  hash_case H Hs Hn; [by eapply hash_one_untouched; [done|done|right; left]|].
  hash_case H Hs Hn; [by eapply hash_one_untouched; [done|done|right; right]|].
  hash_case H Hs Hn; [destruct Hn; by eapply hash_two_untouched; [done..|right; right; right]|].
  done.
Qed.

(** ** GIN *)

Section gin.
Context (st : dbstate) (r : XLogReaderState) (tag : BufferTag) (buf : Buffer) (out : dbstate * Buffer * XLogRedoAction).
Context (Hr : reader_ok r).

(** Peel the comparison with the tag of a block the page is not listed under. *)
Ltac skip H id N :=
let E := fresh "E" in peel H E; rewrite (proj1 (unlisted r tag Hr id _ ltac:(lia) E N)) in H; clear E.
(** The same for a block that is tested under a condition. *)
Ltac skip_if H := peel_test H; [|intros _ ? Ht; by eapply unlisted_ref].

Lemma gin_one_untouched : tag ∉ ParseXLogBlocksLsn r 0 →
polar_gin_redo_create_ptree st r tag buf = Ok out ∨ polar_gin_redo_vacuum_page st r tag buf = Ok out ∨
polar_gin_redo_vacuum_data_leaf_page st r tag buf = Ok out ∨ polar_gin_redo_insert_list_page st r tag buf = Ok out →
out = (st, buf, BLK_NOTFOUND).
Proof using Hr.
intros N0 H. destruct H as [H|[H|[H|H]]];
unfold polar_gin_redo_create_ptree, polar_gin_redo_vacuum_page, polar_gin_redo_vacuum_data_leaf_page, polar_gin_redo_insert_list_page in H;
skip H 0 N0; by apply Ok_inj in H.
Qed.

Lemma gin_insert_untouched : tag ∉ polar_gin_redo_insert_save r →
polar_gin_redo_insert st r tag buf = Ok out → out = (st, buf, BLK_NOTFOUND).
Proof using Hr.
unfold polar_gin_redo_insert_save, polar_gin_redo_insert. rewrite not_elem_of_app. intros [N1 N0] H.
peel H Ef. cbv zeta in H. destruct (if negb _ then Gin.get_blockid _ _ else _) as [rightChildBlkno|]; cbn [mbind res_bind] in H; [|done]. skip_if H. skip H 0 N0. by apply Ok_inj in H.
Qed.

Lemma gin_split_untouched : tag ∉ polar_gin_redo_split_save r →
polar_gin_redo_split st r tag buf = Ok out → out = (st, buf, BLK_NOTFOUND).
Proof using Hr.
unfold polar_gin_redo_split_save, polar_gin_redo_split. rewrite !not_elem_of_app. intros (N3 & N0 & N1 & N2) H.
peel H Ef. cbv zeta in H. skip_if H. skip H 0 N0. skip H 1 N1. skip_if H. by apply Ok_inj in H.
Qed.

Lemma gin_delete_untouched : tag ∉ ParseXLogBlocksLsn r 2 → tag ∉ ParseXLogBlocksLsn r 0 → tag ∉ ParseXLogBlocksLsn r 1 →
polar_gin_redo_delete_page st r tag buf = Ok out → out = (st, buf, BLK_NOTFOUND).
Proof using Hr.
intros N2 N0 N1 H. unfold polar_gin_redo_delete_page in H. skip H 2 N2. skip H 0 N0. skip H 1 N1. by apply Ok_inj in H.
Qed.

Lemma gin_meta_untouched : tag ∉ polar_gin_redo_update_metapage_save r →
polar_gin_redo_update_metapage st r tag buf = Ok out → out = (st, buf, BLK_NOTFOUND).
Proof using Hr.
unfold polar_gin_redo_update_metapage_save, polar_gin_redo_update_metapage. rewrite not_elem_of_app. intros [N0 N1] H.
skip H 0 N0. destruct (rd_int32 _ _) as [ntuples|]; cbn [mbind res_bind] in H; [|done]. peel H Et. skip_if H. by apply Ok_inj in H.
Qed.

Lemma block_id_bound id : 0 ≤ id → XLogRecHasBlockRef r id = true → id ≤ max_block_id r.
Proof using Hr.
intros Hid Href. destruct Hr as (_ & _ & Hu). unfold XLogRecHasBlockRef in Href. apply bool_decide_eq_true in Href as [b Hb].
unfold block_ref in Hb. destruct (blocks r !! Z.to_nat id) as [d|] eqn:E; [|done]. destruct (decide (id ≤ max_block_id r)); [done|].
by rewrite (Hu _ _ E) in Hb by lia.
Qed.

(** The deleted pages are an unbroken run from block 1 on. *)
Lemma gin_delete_loop_untouched n : ∀ i, 0 ≤ i → max_block_id r ≤ GIN_NDELETE_AT_ONCE → tag ∉ save_run r 1 (Z.to_nat GIN_NDELETE_AT_ONCE) →
(∀ k, 1 ≤ k ≤ i → XLogRecHasBlockRef r k = true) → gin_delete_loop st r tag buf i n = Ok out → out = (st, buf, BLK_NOTFOUND).
Proof using Hr.
induction n as [|n IH]; intros i Hi Hm Hn Hk H; cbn [gin_delete_loop] in H; [by apply Ok_inj in H|].
peel H E. pose proof (log_tag_ref _ _ _ E) as Href. pose proof (block_id_bound (i + 1) ltac:(lia) Href) as Hb.
assert (Hk' : ∀ k, 1 ≤ k ≤ i + 1 → XLogRecHasBlockRef r k = true).
{ intros k Hkr. destruct (decide (k = i + 1)) as [->|]; [done|]. apply Hk. lia. }
assert (Hni : tag ∉ ParseXLogBlocksLsn r (i + 1)).
{ intros Hin. apply Hn. apply (save_run_block r 1 _ (i + 1)); [lia|done|done]. }
rewrite (proj1 (unlisted r tag Hr (i + 1) _ ltac:(lia) E Hni)) in H. cbn [negb] in H. eapply (IH (i + 1)); [lia|done|done|done|exact H].
Qed.

Lemma gin_list_untouched : max_block_id r ≤ GIN_NDELETE_AT_ONCE → tag ∉ polar_gin_redo_delete_list_pages_save r →
polar_gin_redo_delete_list_pages st r tag buf = Ok out → out = (st, buf, BLK_NOTFOUND).
Proof using Hr.
unfold polar_gin_redo_delete_list_pages_save, polar_gin_redo_delete_list_pages. rewrite not_elem_of_app. intros Hm [N0 N1] H.
skip H 0 N0. destruct (rd_int32 _ _) as [ndeleted|]; cbn [mbind res_bind] in H; [|done]. eapply gin_delete_loop_untouched; [| | | |exact H]; [lia|done|done|intros; lia].
Qed.
End gin.

(** The next operation of the dispatcher, with the tags it is entered under. *)
Ltac gin_case H Hs Hn :=
  let Hop := fresh "Hop" in
  match type of H with (if ?i =? ?c then _ else _) = _ => destruct (Z.eqb_spec i c) as [Hop|_] end;
  [rewrite ?Hop in Hs; cbn in Hs; apply Ok_inj in Hs; injection Hs as <-; rewrite ?not_elem_of_app in Hn|].

#[export] Instance gin_indexed : LogIndexed RM_GIN_ID gin_rmgr.
Proof.
  intros r0 r tags tag st buf out Hok Hid Hd Hs Hn H. apply (decode_other _ _ RM_GIN_ID) in Hd as ->; [|done..].
  pose proof (ro_reader _ Hok) as Hr. pose proof (ro_gin _ Hok Hid) as Hg. cbn [gin_rmgr rm_redo rm_save] in H, Hs.
  unfold polar_gin_idx_redo in H. unfold polar_gin_idx_save in Hs.
  gin_case H Hs Hn; [by eapply gin_one_untouched; [done|done|left]|].
  gin_case H Hs Hn; [by eapply gin_insert_untouched|].
  gin_case H Hs Hn; [by eapply gin_split_untouched|].
  gin_case H Hs Hn; [by eapply gin_one_untouched; [done|done|right; left]|].
  gin_case H Hs Hn; [by eapply gin_one_untouched; [done|done|right; right; left]|].
  gin_case H Hs Hn; [destruct Hn as (? & ? & ?); by eapply gin_delete_untouched|].
  gin_case H Hs Hn; [by eapply gin_meta_untouched|].
  gin_case H Hs Hn; [by eapply gin_one_untouched; [done|done|right; right; right]|].
  gin_case H Hs Hn; [by eapply gin_list_untouched|].
  done.
Qed.

(** ** SP-GiST *)

Section spgist.
Context (st : dbstate) (r : XLogReaderState) (tag : BufferTag) (buf : Buffer) (out : dbstate * Buffer * XLogRedoAction).
Context (Hr : reader_ok r).

(** Peel the comparison with the tag of a block the page is not listed under. *)
Ltac skip H id N :=
let E := fresh "E" in peel H E; rewrite (proj1 (unlisted r tag Hr id _ ltac:(lia) E N)) in H; clear E.
(** The same for a block that is tested under a condition. *)
Ltac skip_if H := peel_test H; [|intros _ ? Ht; by eapply unlisted_ref].
(** Peel the reading of a field. *)
Ltac field H := match type of H with mbind _ ?m = Ok _ => destruct m as [?|]; cbn [mbind res_bind] in H; [|done] end.

Lemma spg_vacuum_untouched : tag ∉ ParseXLogBlocksLsn r 0 →
polar_spg_redo_vacuum_leaf st r tag buf = Ok out ∨ polar_spg_redo_vacuum_root st r tag buf = Ok out ∨
polar_spg_redo_vacuum_redirect st r tag buf = Ok out → out = (st, buf, BLK_NOTFOUND).
Proof using Hr.
intros N0 H. destruct H as [H|[H|H]]; unfold polar_spg_redo_vacuum_leaf, polar_spg_redo_vacuum_root, polar_spg_redo_vacuum_redirect in H;
skip H 0 N0; by apply Ok_inj in H.
Qed.

Lemma spg_add_leaf_untouched : tag ∉ ParseXLogBlocksLsn r 0 → tag ∉ save_if_ref r 1 →
polar_spg_redo_add_leaf st r tag buf = Ok out → out = (st, buf, BLK_NOTFOUND).
Proof using Hr.
intros N0 N1 H. unfold polar_spg_redo_add_leaf in H. cbv zeta in H. field H. skip H 0 N0. field H. skip_if H. by apply Ok_inj in H.
Qed.

Lemma spg_move_untouched : tag ∉ ParseXLogBlocksLsn r 1 → tag ∉ ParseXLogBlocksLsn r 0 → tag ∉ ParseXLogBlocksLsn r 2 →
polar_spg_redo_move_leafs st r tag buf = Ok out → out = (st, buf, BLK_NOTFOUND).
Proof using Hr.
intros N1 N0 N2 H. unfold polar_spg_redo_move_leafs in H. cbv zeta in H. do 4 field H. skip H 1 N1. skip H 0 N0. skip H 2 N2. by apply Ok_inj in H.
Qed.

Lemma spg_add_node_untouched : tag ∉ polar_spg_redo_add_node_save r →
polar_spg_redo_add_node st r tag buf = Ok out → out = (st, buf, BLK_NOTFOUND).
Proof using Hr.
unfold polar_spg_redo_add_node_save, polar_spg_redo_add_node. cbv zeta. intros N H. do 2 field H. destruct (negb (XLogRecHasBlockRef r 1)).
- skip H 0 N. by apply Ok_inj in H.
- rewrite !not_elem_of_app in N. destruct N as (N1 & N0 & N2). peel H E0. skip H 1 N1.
rewrite (proj1 (unlisted r tag Hr 0 _ ltac:(lia) E0 N0)) in H. field H. skip_if H. by apply Ok_inj in H.
Qed.

Lemma spg_split_untouched : tag ∉ save_if_ref r 1 → tag ∉ ParseXLogBlocksLsn r 0 →
polar_spg_redo_split_tuple st r tag buf = Ok out → out = (st, buf, BLK_NOTFOUND).
Proof using Hr.
intros N1 N0 H. unfold polar_spg_redo_split_tuple in H. cbv zeta in H. do 3 field H. skip_if H. skip H 0 N0. by apply Ok_inj in H.
Qed.

Lemma is_ref_tag_unlisted id b : 0 ≤ id → tag ∉ save_if_ref r id → is_ref_tag r tag id = Ok b → b = false.
Proof using Hr.
intros Hid N H. unfold is_ref_tag in H. destruct (XLogRecHasBlockRef r id); [|by apply Ok_inj in H].
peel H E. apply Ok_inj in H as <-. by apply (unlisted r tag Hr id _ Hid E), (unlisted_ref r tag id _ E).
Qed.

Lemma spg_pick_untouched : tag ∉ polar_spg_redo_pick_split_save r →
polar_spg_redo_pick_split st r tag buf = Ok out → out = (st, buf, BLK_NOTFOUND).
Proof using Hr.
unfold polar_spg_redo_pick_split_save, polar_spg_redo_pick_split. rewrite !not_elem_of_app. intros (N0 & N1 & N2 & N3) H. cbv zeta in H.
do 6 field H. destruct (is_ref_tag r tag 0) as [b0|] eqn:E0; cbn [mbind res_bind] in H; [|done]. apply is_ref_tag_unlisted in E0 as ->; [|lia|done]. field H. cbn [andb mbind res_bind] in H.
destruct (is_ref_tag r tag 1) as [b1|] eqn:E1; cbn [mbind res_bind] in H; [|done]. apply is_ref_tag_unlisted in E1 as ->; [|lia|done]. cbn [orb mbind res_bind] in H.
skip H 2 N2. destruct (is_ref_tag r tag 3) as [b3|] eqn:E3; cbn [mbind res_bind] in H; [|done]. apply is_ref_tag_unlisted in E3 as ->; [|lia|done]. by apply Ok_inj in H.
Qed.
End spgist.

#[export] Instance spg_indexed : LogIndexed RM_SPGIST_ID spg_rmgr.
Proof.
  intros r0 r tags tag st buf out Hok Hid Hd Hs Hn H. apply (decode_other _ _ RM_SPGIST_ID) in Hd as ->; [|done..].
  pose proof (ro_reader _ Hok) as Hr. cbn [spg_rmgr rm_redo rm_save] in H, Hs.
  unfold polar_spg_idx_redo in H. unfold polar_spg_idx_save in Hs.
  gin_case H Hs Hn; [destruct Hn; by eapply spg_add_leaf_untouched|].
  gin_case H Hs Hn; [destruct Hn as (? & ? & ?); by eapply spg_move_untouched|].
  gin_case H Hs Hn; [by eapply spg_add_node_untouched|].
  gin_case H Hs Hn; [destruct Hn; by eapply spg_split_untouched|].
  gin_case H Hs Hn; [by eapply spg_pick_untouched|].
  gin_case H Hs Hn; [by eapply spg_vacuum_untouched; [done|done|left]|].
  gin_case H Hs Hn; [by eapply spg_vacuum_untouched; [done|done|right; left]|].
  gin_case H Hs Hn; [by eapply spg_vacuum_untouched; [done|done|right; right]|].
  done.
Qed.
