(* ===== verification/TagSpec.v ===== *)
(** * The theorems of the log index: which pages a record touches

    The dispatchers are proved correct against the promise of the resource
    managers.  The second part is about the routines that collect tags in an
    array. *)

From S2P Require Import Prelude Mem Page PageAdd PageIndex PageCompact Checksum Buffer Pglz WalRecord XLogInsert XLogDecode HeapTuple HeapRedo TagList Btree BtreeRedo Brin Gist HashRedo GinRedo SpgRedo Dispatch TagIndexed IndexTags.

(** ** The theorems *)

Lemma table_indexed rmid m : rmgr_table rmid = Some m → LogIndexed rmid m.
Proof.
unfold rmgr_table. repeat (case_match; [intros [= <-]; b2p; subst; apply _|]). done.
Qed.

(** C11: the log index is complete.  When a record, decoded with
[polar_xlog_decode_data], has been entered under the page tags [tags] by
[ParseLogIndexXlog], then replaying it for a page that is not among them,
with [XlogRedoSinglePage], leaves the database and the buffer alone and
reports that nothing was redone: no page a record changes is missing from
the index.  This holds for the records of every resource manager of the table
that satisfy [rec_ok]: it leaves out the clean-up record of a B-tree meta page and
the page copies of a hash bucket split, whose replay ignores the tag, so that the
claim is false for them; the second block of a heap update is another block than the first,
a generic record has at most 4 pages and a GIN record at most 16 besides the meta page. *)
Theorem log_index_complete r0 r tags tag st buf st' buf' changed :
rec_ok r0 → polar_xlog_decode_data r0 = Ok r →
ParseLogIndexXlog r = Ok (true, tags) → tag ∉ tags →
XlogRedoSinglePage st r tag buf = Ok (st', buf', changed) →
st' = st ∧ buf' = buf ∧ changed = false.
Proof.
intros Hok Hd Hp Hn H. pose proof (decode_rmid _ _ Hd) as Hid. unfold ParseLogIndexXlog in Hp. unfold XlogRedoSinglePage in H.
destruct (rmgr_table (xl_rmid r)) as [m|] eqn:Et; [|done].
destruct (rm_redo m st r tag buf) as [out|] eqn:Er; cbn [mbind res_bind] in H; [|done].
pose proof (table_indexed _ _ Et r0 r tags tag st buf out Hok (eq_sym Hid) Hd Hp Hn Er) as ->.
apply Ok_inj in H. injection H as <- <- <-. done.
Qed.
(** The tag list of an insert record is the list of tags the record is
    entered under in the log index, the map page first. *)
Theorem insert_tag_list_agrees r t0 :
  reader_ok r → heap_op r = XLOG_HEAP_INSERT → XLogRecGetBlockTag r 0 = Some t0 → is_Some (XLogRecGetBlockTag r 1) →
  polar_heap_idx_get_bufftag_list r = Tags <$> polar_heap_idx_save r.
Proof.
  intros Hr Ho H0 [t1 H1]. unfold polar_heap_idx_get_bufftag_list, polar_heap_idx_save. rewrite Ho.
  cbn [XLOG_HEAP_INSERT Z.eqb]. change (XLOG_HEAP_INSERT =? XLOG_HEAP_INSERT) with true. cbv iota. f_equal.
  unfold polar_heap_insert_get_bufftag_list, polar_heap_insert_save, save_vm_and_heap, tag_or_uninit. rewrite H0, H1.
  destruct (rd 1 (main_data r) 2) as [flags|]; cbn [mbind res_bind]; [|done].
  rewrite (ParseXLogBlocksLsn_tag r 0 t0), (ParseXLogBlocksLsn_tag r 1 t1) by done.
  destruct (has_flag flags _); done.
Qed.

(** C35: the tag list of a delete or lock record that clears bits of the
    visibility map is never built: the assignment of the second tag,
    [*buffertagList[tagCount]], goes through memory behind the caller's
    pointer. *)
Theorem tag_list_overflow r t0 t1 flags :
  XLogRecGetBlockTag r 0 = Some t0 → XLogRecGetBlockTag r 1 = Some t1 → rd 1 (main_data r) 7 = Ok flags →
  (heap_op r = XLOG_HEAP_DELETE ∧ has_flag flags XLH_DELETE_ALL_VISIBLE_CLEARED = true ∨
   heap_op r = XLOG_HEAP_LOCK ∧ has_flag flags XLH_LOCK_ALL_FROZEN_CLEARED = true) →
  polar_heap_idx_get_bufftag_list r = Err EOob.
Proof.
  intros H0 H1 Hf Ho. assert (Hv : ∀ mask, has_flag flags mask = true → vm_and_heap_bufftag_list r 7 mask = Err EOob).
  { intros mask Hm. unfold vm_and_heap_bufftag_list, tag_or_uninit. by rewrite Hf, H0, H1; cbn [mbind res_bind]; rewrite Hm. }
  unfold polar_heap_idx_get_bufftag_list, polar_heap_delete_get_bufftag_list, polar_heap_lock_get_bufftag_list.
  destruct Ho as [[-> Hm]|[-> Hm]]; specialize (Hv _ Hm); cbn [Z.eqb]; vm_compute in Hv |- *; by rewrite Hv.
Qed.

Lemma fpi_tags_overflow r n : ∀ id l,
  (∀ j, 0 ≤ j ≤ max_block_id r → is_Some (XLogRecGetBlockTag r j)) → 0 ≤ id →
  (0 < n)%nat → zlen l = id → id + Z.of_nat n = max_block_id r + 1 → fpi_tags r id n l = Err EOob.
Proof.
  induction n as [|n IH]; intros id l Ht Hid Hn Hl Hm; [lia|]. cbn [fpi_tags]. unfold tag_or_uninit.
  destruct (Ht id ltac:(lia)) as [t ->]. cbn [mbind res_bind]. unfold put_tag.
  destruct (Z.ltb_spec (zlen l) (max_block_id r)); [|done]. cbn [mbind res_bind].
  apply IH; [done|lia|lia|rewrite zlen_app; unfold zlen in *; cbn; lia|lia].
Qed.

(** The tag list of a full-page-image record always overflows its array,
    which is allocated with [max_block_id] entries for [max_block_id + 1]
    tags. *)
Theorem fpi_tag_list_overflow r :
  (rec_info r = XLOG_FPI ∨ rec_info r = XLOG_FPI_FOR_HINT) → 0 ≤ max_block_id r →
  (∀ j, 0 ≤ j ≤ max_block_id r → is_Some (XLogRecGetBlockTag r j)) →
  polar_xlog_idx_get_bufftag_list r = Err EOob.
Proof.
  intros Hi Hm Ht. unfold polar_xlog_idx_get_bufftag_list.
  assert (E : negb (rec_info r =? XLOG_FPI) && negb (rec_info r =? XLOG_FPI_FOR_HINT) = false)
    by (destruct Hi as [-> | ->]; done).
  rewrite E, fpi_tags_overflow; [done|done|lia..|done|lia].
Qed.

(** ** Sample records *)

Definition plain_blk (fork blk : Z) : DecodedBkpBlock :=
  mkBlk true (mkRel 1663 13580 16384) fork blk 0 false false [] 0 0 0 false [].
Definition unused_blk : DecodedBkpBlock := mkBlk false (mkRel 0 0 0) 0 0 0 false false [] 0 0 0 false [].

Definition tag_rec (rmid info : Z) (main : list Z) (refs : list DecodedBkpBlock) : XLogReaderState :=
  mkRec 50 100 info rmid 7 main (zlen refs - 1) (refs ++ replicate (33 - length refs) unused_blk).

Definition no_db : dbstate := mkDb ∅ ∅ ∅ ∅ true false false (mkConf false false).

Lemma tag_rec_reader rmid info main refs :
  (length refs ≤ 33)%nat → reader_ok (tag_rec rmid info main refs).
Proof.
  intros Hl. split_and!; cbn [tag_rec blocks max_block_id].
  - unfold zlen. rewrite length_app, length_replicate. unfold XLR_MAX_BLOCK_ID. lia.
  - pose proof (zlen_nonneg refs). lia.
  - intros j b Hj Hgt. apply lookup_app_Some in Hj as [Hj|[_ Hj]]; [apply lookup_lt_Some in Hj; unfold zlen in *; lia|].
    by apply lookup_replicate_1 in Hj as [-> _].
Qed.

(** A delete that clears bits of the visibility map. *)
Definition delete_rec : XLogReaderState :=
  tag_rec RM_HEAP_ID XLOG_HEAP_DELETE [7; 0; 0; 0; 1; 0; 0; XLH_DELETE_ALL_VISIBLE_CLEARED] [plain_blk 0 5].

Lemma log_index_complete_witness :
  ∃ r, polar_xlog_decode_data delete_rec = Ok r ∧
    XlogRedoSinglePage no_db r
      (mkTag (mkRel 1663 13580 16384) 0 6) None = Ok (no_db, None, false).
Proof.
  destruct (polar_xlog_decode_data delete_rec) as [r|] eqn:E; [|vm_compute in E; done].
  exists r. split; [done|]. assert (Hc := E). vm_compute in E. apply Ok_inj in E.
  destruct (XlogRedoSinglePage no_db r
      (mkTag (mkRel 1663 13580 16384) 0 6) None) as [[[st' buf'] ch]|] eqn:Er; [|subst r; vm_compute in Er; done].
  destruct (log_index_complete delete_rec r
    [mkTag (mkRel 1663 13580 16384) 2 0; mkTag (mkRel 1663 13580 16384) 0 5]
    (mkTag (mkRel 1663 13580 16384) 0 6) no_db None st' buf' ch) as (-> & -> & ->); [|exact Hc| | |exact Er|done].
  - constructor; [apply tag_rec_reader; cbn; lia|vm_compute; intuition congruence|done|done|done|done].
  - subst r. vm_compute. done.
  - rewrite !not_elem_of_cons. split_and!; [done|done|apply not_elem_of_nil].
Defined.

Lemma insert_tag_list_agrees_witness :
  polar_heap_idx_get_bufftag_list (tag_rec RM_HEAP_ID XLOG_HEAP_INSERT [1; 0; 1] [plain_blk 0 5; plain_blk 2 0])
  = Ok (Tags [mkTag (mkRel 1663 13580 16384) 2 0; mkTag (mkRel 1663 13580 16384) 0 5]).
Proof.
  rewrite (insert_tag_list_agrees _ (mkTag (mkRel 1663 13580 16384) 0 5));
    [reflexivity|apply tag_rec_reader; cbn; lia|reflexivity|reflexivity|eexists; reflexivity].
Defined.

Lemma tag_list_overflow_witness :
  ∃ r, polar_xlog_decode_data delete_rec = Ok r ∧ polar_heap_idx_get_bufftag_list r = Err EOob.
Proof.
  eexists. split; [vm_compute; reflexivity|].
  eapply (tag_list_overflow _ (mkTag (mkRel 1663 13580 16384) 0 5) (mkTag (mkRel 1663 13580 16384) 2 0) 1);
    [reflexivity|reflexivity|reflexivity|left; split; reflexivity].
Defined.

Lemma fpi_tag_list_overflow_witness :
  polar_xlog_idx_get_bufftag_list (tag_rec RM_XLOG_ID XLOG_FPI [] [plain_blk 0 5; plain_blk 0 6]) = Err EOob.
Proof.
  apply fpi_tag_list_overflow; [by left|done|]. intros j Hj. change (0 ≤ j ≤ 1) in Hj.
  assert (j = 0 ∨ j = 1) as [-> | ->] by lia; eexists; reflexivity.
Defined.
