(* ===== verification/LogIndex.v ===== *)
(** * The memory tables of the log index: [polar_logindex.c]

    A memory table keeps, for every page, the LSNs of the records about it: a
    hash table whose chains link the head items of pages, each with room for
    two LSNs, followed by a list of segments with room for ten.  Heads and
    segments are taken one after the other from one array; an LSN is stored as
    its lower half, the upper half is common to the table.  The order in which
    LSNs were added is kept in [idx_order].  The snapshot is a ring of such
    tables.  The file models the operations of one inserting process, with
    their locks left out, as the code runs without concurrent writers. *)

From S2P Require Import Prelude Mem Page Buffer.

(** ** Constants *)

Definition LOG_INDEX_MEM_TBL_SEG_NUM : Z := 4096.
Definition LOG_INDEX_MEM_TBL_HASH_NUM : Z := LOG_INDEX_MEM_TBL_SEG_NUM / 2.
Definition LOG_INDEX_TBL_INVALID_SEG : Z := 0.
Definition LOG_INDEX_ITEM_HEAD_LSN_NUM : Z := 2.
Definition LOG_INDEX_ITEM_SEG_LSN_NUM : Z := 10.
Definition LOG_INDEX_MAX_ORDER_NUM : Z := LOG_INDEX_MEM_TBL_SEG_NUM * LOG_INDEX_ITEM_SEG_LSN_NUM.
Definition LOG_INDEX_ORDER_SEG_MASK : Z := 0x0FFF.
Definition LOG_INDEX_ORDER_IDX_MASK : Z := 0xF000.
Definition LOG_INDEX_ORDER_IDX_SHIFT : Z := 12.
Definition LOG_INDEX_MEM_TBL_STATE_FREE : Z := 0.
Definition LOG_INDEX_MEM_TBL_STATE_ACTIVE : Z := 1.
Definition LOG_INDEX_MEM_TBL_STATE_INACTIVE : Z := 2.
Definition POLAR_LOGINDEX_STATE_INITIALIZED : Z := 1.
Definition POLAR_LOGINDEX_STATE_ADDING : Z := 2.
Definition InvalidXLogRecPtr : Z := 0.
Definition UINT64_MAX : Z := 18446744073709551615.

(** ** Data *)

Record log_item_head_t : Type := mkHead {
  ih_head_seg : Z;
  ih_next_item : Z;
  ih_next_seg : Z;
  ih_tail_seg : Z;
  ih_tag : BufferTag;
  ih_number : Z;
  ih_prev_page_lsn : Z;
  ih_suffix_lsn : list Z }.

Record log_item_seg_t : Type := mkSeg {
  is_head_seg : Z;
  is_next_seg : Z;
  is_prev_seg : Z;
  is_number : Z;
  is_suffix_lsn : list Z }.

(** The union; which member was written last is part of the state. *)
Inductive log_tbl_seg_t : Type :=
| item_head (h : log_item_head_t)
| item_seg (s : log_item_seg_t).

(** [hash] and [segment] are arrays; a hash slot without an entry is zero, a
    segment without an entry has not been used.  Segment [i] of the model is
    [segment[i - 1]]. *)
Record log_idx_table_data_t : Type := mkData {
  idx_table_id : Z;
  min_lsn : Z;
  max_lsn : Z;
  prefix_lsn : Z;
  idx_order : list Z;
  hash : gmap Z Z;
  segment : gmap Z log_tbl_seg_t }.

Record log_mem_table_t : Type := mkTable { free_head : Z; tbl_state : Z; tbl_data : log_idx_table_data_t }.

Record log_index_snapshot_t : Type := mkSnap {
  snap_max_lsn : Z;
  snap_state : Z;
  active_table : Z;
  max_idx_table_id : Z;
  mem_table : list log_mem_table_t }.

Record log_index_lsn_t : Type := mkLsn { li_tag : BufferTag; li_lsn : Z; li_prev_lsn : Z }.

Definition with_seg (t : log_idx_table_data_t) (id : Z) (s : log_tbl_seg_t) : log_idx_table_data_t :=
  mkData (idx_table_id t) (min_lsn t) (max_lsn t) (prefix_lsn t) (idx_order t) (hash t) (<[id := s]> (segment t)).
Definition with_slot (t : log_idx_table_data_t) (key id : Z) : log_idx_table_data_t :=
  mkData (idx_table_id t) (min_lsn t) (max_lsn t) (prefix_lsn t) (idx_order t) (<[key := id]> (hash t)) (segment t).
Definition with_order (t : log_idx_table_data_t) (o : list Z) : log_idx_table_data_t :=
  mkData (idx_table_id t) (min_lsn t) (max_lsn t) (prefix_lsn t) o (hash t) (segment t).
Definition with_prefix (t : log_idx_table_data_t) (p : Z) : log_idx_table_data_t :=
  mkData (idx_table_id t) (min_lsn t) (max_lsn t) p (idx_order t) (hash t) (segment t).
Definition with_bounds (t : log_idx_table_data_t) (lo hi : Z) : log_idx_table_data_t :=
  mkData (idx_table_id t) lo hi (prefix_lsn t) (idx_order t) (hash t) (segment t).

(** ** Access *)

(** [Ok None] is the NULL pointer.  The array has [LOG_INDEX_MEM_TBL_SEG_NUM]
    entries; reading a member of the union that was not written is an error. *)
Definition log_index_item_head (t : log_idx_table_data_t) (head : Z) : res (option log_item_head_t) :=
  if LOG_INDEX_MEM_TBL_SEG_NUM <? head then Err EPanic
  else if head =? LOG_INDEX_TBL_INVALID_SEG then Ok None
  else match segment t !! head with Some (item_head h) => Ok (Some h) | _ => Err EOob end.

Definition log_index_item_seg (t : log_idx_table_data_t) (seg : Z) : res (option log_item_seg_t) :=
  if LOG_INDEX_MEM_TBL_SEG_NUM <? seg then Err EPanic
  else if seg =? LOG_INDEX_TBL_INVALID_SEG then Ok None
  else match segment t !! seg with Some (item_seg s) => Ok (Some s) | _ => Err EOob end.

(** Following a pointer. *)
Definition deref {A} (m : res (option A)) : res A :=
  o ← m; match o with Some a => Ok a | None => Err EOob end.

Definition LOG_INDEX_TBL_SLOT_VALUE (t : log_idx_table_data_t) (key : Z) : Z := default 0 (hash t !! key).

Definition LOG_INDEX_COMBINE_LSN (t : log_idx_table_data_t) (suffix : Z) : Z :=
  Z.lor (Z.shiftl (prefix_lsn t) 32) suffix.
Definition LOG_INDEX_SAME_TABLE_LSN_PREFIX (t : log_idx_table_data_t) (lsn : Z) : bool :=
  prefix_lsn t =? Z.shiftr lsn 32.

(** [(lsn << 32) >> 32] in 64 bits. *)
Definition suffix_of (lsn : Z) : Z := Z.shiftr ((Z.shiftl lsn 32) mod 2 ^ 64) 32.

(** [LOG_INDEX_INSERT_LSN_INFO]: an assignment to the array of suffixes. *)
Definition LOG_INDEX_INSERT_LSN_INFO (suffixes : list Z) (idx : Z) (info : log_index_lsn_t) : res (list Z) :=
  if (0 <=? idx) && (idx <? zlen suffixes) then Ok (<[Z.to_nat idx := suffix_of (li_lsn info)]> suffixes) else Err EOob.

Definition seg_max_lsn (t : log_idx_table_data_t) (number : Z) (suffixes : list Z) : res Z :=
  match (if 0 <? number then suffixes !! Z.to_nat (number - 1) else None) with
  | Some s => Ok (LOG_INDEX_COMBINE_LSN t s)
  | None => Err EOob
  end.

Definition log_index_item_max_lsn (t : log_idx_table_data_t) (item : log_item_head_t) : res Z :=
  if ih_head_seg item =? ih_tail_seg item then seg_max_lsn t (ih_number item) (ih_suffix_lsn item)
  else seg ← deref (log_index_item_seg t (ih_tail_seg item)); seg_max_lsn t (is_number seg) (is_suffix_lsn seg).

(** ** Lookup of a page *)

Fixpoint exists_page_loop (fuel : nat) (t : log_idx_table_data_t) (tag : BufferTag) (exists_ : Z) : res Z :=
  item ← log_index_item_head t exists_;
  match item with
  | None => Ok exists_
  | Some item =>
      if BUFFERTAGS_EQUAL (ih_tag item) tag then Ok exists_
      else match fuel with O => Err EFuel | S fuel => exists_page_loop fuel t tag (ih_next_item item) end
  end.

(** The chain of a slot has fewer heads than the array has entries. *)
Definition log_index_mem_tbl_exists_page (tag : BufferTag) (t : log_idx_table_data_t) (key : Z) : res Z :=
  exists_page_loop (Z.to_nat LOG_INDEX_MEM_TBL_SEG_NUM) t tag (LOG_INDEX_TBL_SLOT_VALUE t key).

Definition log_index_tbl_find (tag : BufferTag) (t : log_idx_table_data_t) (key : Z) : res (option log_item_head_t) :=
  item_id ← log_index_mem_tbl_exists_page tag t key;
  log_index_item_head t item_id.

Definition log_index_mem_seg_full (t : log_idx_table_data_t) (head : Z) : res bool :=
  item ← deref (log_index_item_head t head);
  if ih_tail_seg item =? head then Ok (ih_number item =? LOG_INDEX_ITEM_HEAD_LSN_NUM)
  else seg ← deref (log_index_item_seg t (ih_tail_seg item)); Ok (is_number seg =? LOG_INDEX_ITEM_SEG_LSN_NUM).

(** ** Insertion *)

(** The suffixes of an entry that is taken into use: they are written before
    they are read, and zero in a fresh table. *)
Definition fresh_suffixes (n : Z) : list Z := replicate (Z.to_nat n) 0.

Definition log_index_insert_new_item (info : log_index_lsn_t) (t : log_idx_table_data_t) (key new_item_id : Z)
  : res log_idx_table_data_t :=
  if (new_item_id <=? 0) || (LOG_INDEX_MEM_TBL_SEG_NUM <? new_item_id) then Err EOob else
  suf ← LOG_INDEX_INSERT_LSN_INFO (fresh_suffixes LOG_INDEX_ITEM_HEAD_LSN_NUM) 0 info;
  let slot := LOG_INDEX_TBL_SLOT_VALUE t key in
  let next_item := if slot =? LOG_INDEX_TBL_INVALID_SEG then LOG_INDEX_TBL_INVALID_SEG else slot in
  let item := mkHead new_item_id next_item LOG_INDEX_TBL_INVALID_SEG new_item_id (li_tag info) 1 (li_prev_lsn info) suf in
  Ok (with_slot (with_seg t new_item_id (item_head item)) key new_item_id).

Definition head_set_next_seg (h : log_item_head_t) (id : Z) : log_item_head_t :=
  mkHead (ih_head_seg h) (ih_next_item h) id (ih_tail_seg h) (ih_tag h) (ih_number h) (ih_prev_page_lsn h) (ih_suffix_lsn h).
Definition head_set_tail (h : log_item_head_t) (id : Z) : log_item_head_t :=
  mkHead (ih_head_seg h) (ih_next_item h) (ih_next_seg h) id (ih_tag h) (ih_number h) (ih_prev_page_lsn h) (ih_suffix_lsn h).
Definition head_set_lsns (h : log_item_head_t) (n : Z) (l : list Z) : log_item_head_t :=
  mkHead (ih_head_seg h) (ih_next_item h) (ih_next_seg h) (ih_tail_seg h) (ih_tag h) n (ih_prev_page_lsn h) l.
Definition seg_set_next (s : log_item_seg_t) (id : Z) : log_item_seg_t :=
  mkSeg (is_head_seg s) id (is_prev_seg s) (is_number s) (is_suffix_lsn s).
Definition seg_set_lsns (s : log_item_seg_t) (n : Z) (l : list Z) : log_item_seg_t :=
  mkSeg (is_head_seg s) (is_next_seg s) (is_prev_seg s) n l.

Definition log_index_insert_new_seg (t : log_idx_table_data_t) (head seg_id : Z) (info : log_index_lsn_t)
  : res log_idx_table_data_t :=
  if (seg_id <=? 0) || (LOG_INDEX_MEM_TBL_SEG_NUM <? seg_id) then Err EOob else
  item ← deref (log_index_item_head t head);
  '(t, item) ←
    (if ih_tail_seg item =? head then
       let item := head_set_next_seg item seg_id in Ok (with_seg t head (item_head item), item)
     else
       pre ← log_index_item_seg t (ih_tail_seg item);
       match pre with
       | None => Err EPanic
       | Some pre_seg => Ok (with_seg t (ih_tail_seg item) (item_seg (seg_set_next pre_seg seg_id)), item)
       end);
  suf ← LOG_INDEX_INSERT_LSN_INFO (fresh_suffixes LOG_INDEX_ITEM_SEG_LSN_NUM) 0 info;
  let seg := mkSeg head LOG_INDEX_TBL_INVALID_SEG (ih_tail_seg item) 1 suf in
  Ok (with_seg (with_seg t head (item_head (head_set_tail item seg_id))) seg_id (item_seg seg)).

(** The result is the table and the position used. *)
Definition log_index_append_lsn (t : log_idx_table_data_t) (head : Z) (info : log_index_lsn_t)
  : res (log_idx_table_data_t * Z) :=
  item ← deref (log_index_item_head t head);
  if ih_tail_seg item =? head then
    let idx := ih_number item in
    suf ← LOG_INDEX_INSERT_LSN_INFO (ih_suffix_lsn item) idx info;
    Ok (with_seg t head (item_head (head_set_lsns item (u8 (ih_number item + 1)) suf)), idx)
  else
    seg ← deref (log_index_item_seg t (ih_tail_seg item));
    let idx := is_number seg in
    suf ← LOG_INDEX_INSERT_LSN_INFO (is_suffix_lsn seg) idx info;
    Ok (with_seg t (ih_tail_seg item) (item_seg (seg_set_lsns seg (u8 (is_number seg + 1)) suf)), idx).

Definition order_entry (seg_id idx : Z) : Z :=
  Z.lor (Z.land seg_id LOG_INDEX_ORDER_SEG_MASK)
        (Z.land (Z.shiftl idx LOG_INDEX_ORDER_IDX_SHIFT) LOG_INDEX_ORDER_IDX_MASK).
Definition LOG_INDEX_SEG_ORDER (o : Z) : Z := Z.land o LOG_INDEX_ORDER_SEG_MASK.
Definition LOG_INDEX_ID_ORDER (o : Z) : Z := Z.shiftr (Z.land o LOG_INDEX_ORDER_IDX_MASK) LOG_INDEX_ORDER_IDX_SHIFT.

Definition LOG_INDEX_MEM_TBL_ADD_ORDER (t : log_idx_table_data_t) (seg_id idx : Z) : res log_idx_table_data_t :=
  if LOG_INDEX_MAX_ORDER_NUM <=? zlen (idx_order t) then Err EOob
  else Ok (with_order t (idx_order t ++ [order_entry seg_id idx])).

(** ** The ring of tables *)

Definition LOG_INDEX_MEM_TBL (s : log_index_snapshot_t) (i : Z) : res log_mem_table_t :=
  match mem_table s !! Z.to_nat i with Some t => Ok t | None => Err EOob end.
Definition set_table (s : log_index_snapshot_t) (i : Z) (t : log_mem_table_t) : log_index_snapshot_t :=
  mkSnap (snap_max_lsn s) (snap_state s) (active_table s) (max_idx_table_id s) (<[Z.to_nat i := t]> (mem_table s)).
Definition set_active (s : log_index_snapshot_t) (i : Z) : log_index_snapshot_t :=
  mkSnap (snap_max_lsn s) (snap_state s) i (max_idx_table_id s) (mem_table s).

Definition LOOP_NEXT_VALUE (id size : Z) : Z := if id =? size - 1 then 0 else id + 1.
Definition LOG_INDEX_MEM_TBL_NEXT_ID (s : log_index_snapshot_t) (id : Z) : Z := LOOP_NEXT_VALUE id (zlen (mem_table s)).

Definition LOG_INDEX_MEM_TBL_IS_NEW (t : log_mem_table_t) : bool :=
  (max_lsn (tbl_data t) =? InvalidXLogRecPtr) && (min_lsn (tbl_data t) =? UINT64_MAX)
  && (prefix_lsn (tbl_data t) =? InvalidXLogRecPtr) && (free_head t =? 1).
Definition LOG_INDEX_MEM_TBL_FULL (t : log_mem_table_t) : bool := free_head t =? LOG_INDEX_MEM_TBL_SEG_NUM.

(** [free_head++], which yields the old value. *)
Definition take_free (t : log_mem_table_t) : log_mem_table_t :=
  mkTable (u16 (free_head t + 1)) (tbl_state t) (tbl_data t).
Definition set_state (t : log_mem_table_t) (st : Z) : log_mem_table_t := mkTable (free_head t) st (tbl_data t).
Definition set_data (t : log_mem_table_t) (d : log_idx_table_data_t) : log_mem_table_t :=
  mkTable (free_head t) (tbl_state t) d.

(** One pass of the loop: the snapshot, the segment found (0 for none) and
    [next_mem_id]. *)
Definition next_free_step (s : log_index_snapshot_t) (lsn next_mem_id : Z) : res (log_index_snapshot_t * Z * Z) :=
  active ← LOG_INDEX_MEM_TBL s (active_table s);
  if tbl_state active =? LOG_INDEX_MEM_TBL_STATE_ACTIVE then
    if LOG_INDEX_MEM_TBL_IS_NEW active then
      let active' := set_data active (with_prefix (tbl_data active) (u32 (Z.shiftr lsn 32))) in
      Ok (set_table s (active_table s) (take_free active'), free_head active, next_mem_id)
    else if LOG_INDEX_MEM_TBL_FULL active || negb (LOG_INDEX_SAME_TABLE_LSN_PREFIX (tbl_data active) lsn) then
      Ok (set_table s (active_table s) (set_state active LOG_INDEX_MEM_TBL_STATE_INACTIVE), LOG_INDEX_TBL_INVALID_SEG,
          LOG_INDEX_MEM_TBL_NEXT_ID s (active_table s))
    else Ok (set_table s (active_table s) (take_free active), free_head active, next_mem_id)
  else Ok (s, LOG_INDEX_TBL_INVALID_SEG, next_mem_id).

(** [for (;;)]: [ptr] is the table [*active_table] points to.  The result is
    the snapshot, the segment and that table. *)
Fixpoint log_index_next_free_seg (fuel : nat) (s : log_index_snapshot_t) (lsn ptr next_mem_id : Z)
  : res (log_index_snapshot_t * Z * Z) :=
  '(s, dst, next_mem_id) ← next_free_step s lsn next_mem_id;
  if negb (dst =? LOG_INDEX_TBL_INVALID_SEG) then Ok (s, dst, ptr) else
  let ptr := if negb (next_mem_id =? -1) then next_mem_id else ptr in
  let s := if negb (next_mem_id =? -1) then set_active s next_mem_id else s in
  match fuel with O => Err EFuel | S fuel => log_index_next_free_seg fuel s lsn ptr next_mem_id end.

(** The head of the page in the active table, if it may take the LSN. *)
Definition find_active_head (s : log_index_snapshot_t) (info : log_index_lsn_t) (key : Z) : res Z :=
  active ← LOG_INDEX_MEM_TBL s (active_table s);
  if (tbl_state active =? LOG_INDEX_MEM_TBL_STATE_ACTIVE)
     && LOG_INDEX_SAME_TABLE_LSN_PREFIX (tbl_data active) (li_lsn info)
  then log_index_mem_tbl_exists_page (li_tag info) (tbl_data active) key
  else Ok LOG_INDEX_TBL_INVALID_SEG.

Definition update_data (s : log_index_snapshot_t) (i : Z) (f : log_idx_table_data_t → res log_idx_table_data_t)
  : res log_index_snapshot_t :=
  t ← LOG_INDEX_MEM_TBL s i;
  d ← f (tbl_data t);
  Ok (set_table s i (set_data t d)).

(** The bounds of the table and the maximum of the snapshot. *)
Definition update_bounds (s : log_index_snapshot_t) (i lsn : Z) : res log_index_snapshot_t :=
  t ← LOG_INDEX_MEM_TBL s i;
  let hi := Z.max lsn (max_lsn (tbl_data t)) in
  let lo := Z.min lsn (min_lsn (tbl_data t)) in
  let s := set_table s i (set_data t (with_bounds (tbl_data t) lo hi)) in
  Ok (mkSnap hi (snap_state s) (active_table s) (max_idx_table_id s) (mem_table s)).

(** The append to a node that has room. *)
Definition append_data (head : Z) (info : log_index_lsn_t) (d : log_idx_table_data_t) : res log_idx_table_data_t :=
  '(d, idx) ← log_index_append_lsn d head info;
  item ← deref (log_index_item_head d head);
  LOG_INDEX_MEM_TBL_ADD_ORDER d (ih_tail_seg item) idx.

Definition log_index_insert_lsn (fuel : nat) (s : log_index_snapshot_t) (info : log_index_lsn_t) (key : Z)
  : res log_index_snapshot_t :=
  let old_active := active_table s in
  head ← find_active_head s info key;
  let new_item := head =? LOG_INDEX_TBL_INVALID_SEG in
  active ← LOG_INDEX_MEM_TBL s old_active;
  full ← (if negb new_item then log_index_mem_seg_full (tbl_data active) head else Ok true);
  if negb new_item && negb full then
    s ← update_data s old_active (append_data head info);
    update_bounds s old_active (li_lsn info)
  else
    '(s, dst, active) ← log_index_next_free_seg fuel s (li_lsn info) old_active (-1);
    s ← update_data s active (λ d,
          d ← (if new_item || negb (active =? old_active) then log_index_insert_new_item info d key dst
               else log_index_insert_new_seg d head dst info);
          LOG_INDEX_MEM_TBL_ADD_ORDER d dst 0);
    update_bounds s active (li_lsn info).

(** ** The entry points *)

Section hashing.
(** [tag_hash], a hash of the bytes of the tag. *)
Context (tag_hash : BufferTag → Z).

Definition LOG_INDEX_MEM_TBL_HASH_PAGE (tag : BufferTag) : Z := tag_hash tag mod LOG_INDEX_MEM_TBL_HASH_NUM.

Definition polar_logindex_check_state (s : log_index_snapshot_t) (st : Z) : bool := has_flag (snap_state s) st.
Definition or_state (s : log_index_snapshot_t) (st : Z) : log_index_snapshot_t :=
mkSnap (snap_max_lsn s) (Z.lor (snap_state s) st) (active_table s) (max_idx_table_id s) (mem_table s).

Definition polar_logindex_add_lsn (fuel : nat) (s : log_index_snapshot_t) (tag : BufferTag) (prev lsn : Z)
: res log_index_snapshot_t :=
let key := LOG_INDEX_MEM_TBL_HASH_PAGE tag in
let info := mkLsn tag lsn prev in
let s := if negb (polar_logindex_check_state s POLAR_LOGINDEX_STATE_ADDING)
then or_state s POLAR_LOGINDEX_STATE_ADDING else s in
log_index_insert_lsn fuel s info key.
End hashing.

(** [MemSet] of a table to zero. *)
Definition zero_data : log_idx_table_data_t := mkData 0 0 0 0 [] ∅ ∅.
Definition zero_table : log_mem_table_t := mkTable 0 LOG_INDEX_MEM_TBL_STATE_FREE zero_data.

Definition polar_logindex_snapshot_base_init (s : log_index_snapshot_t) : log_index_snapshot_t :=
  mkSnap 0 (Z.lor (snap_state s) POLAR_LOGINDEX_STATE_INITIALIZED) 0 0
    (replicate (length (mem_table s)) zero_table).

(** [polar_logindex_snapshot_shmem_init] in the postmaster, for [n] tables. *)
Definition polar_logindex_snapshot_shmem_init (n : Z) : log_index_snapshot_t :=
  mkSnap 0 0 0 0 (replicate (Z.to_nat n) zero_table).

(** [LOG_INDEX_MEM_TBL_NEW_ACTIVE]: take table [i] into use.  The macro is defined for
    this, but nothing in the repository invokes it: after initialisation no table is
    active, and an addition never returns (the last part of [LogIndexSpec]). *)
Definition LOG_INDEX_MEM_TBL_NEW_ACTIVE (s : log_index_snapshot_t) (i lsn : Z) : res log_index_snapshot_t :=
  t ← LOG_INDEX_MEM_TBL s i;
  let id := max_idx_table_id s + 1 in
  let d := tbl_data t in
  let d := mkData id UINT64_MAX InvalidXLogRecPtr (u32 (Z.shiftr lsn 32)) (idx_order d) (hash d) (segment d) in
  Ok (mkSnap (snap_max_lsn s) (snap_state s) (active_table s) id
        (<[Z.to_nat i := mkTable 1 LOG_INDEX_MEM_TBL_STATE_ACTIVE d]> (mem_table s))).
