(* ===== verification/LogIndexRep.v ===== *)
(** * The representation invariant of a log-index table

    A memory table represents a log: the list of the page tags and LSNs that
    were added, in this order.  The invariant names the chain of heads of
    every hash slot and the list of segments of every head; it says that the
    table's [idx_order] gives back the log and that the nodes of a page hold
    its LSNs.  Each way of adding an LSN is shown to append to the log. *)

From S2P Require Import Prelude Mem Page Buffer LogIndex.

(** ** LSNs in two halves *)

Lemma suffix_of_mod lsn : suffix_of lsn = lsn mod 2 ^ 32.
Proof.
  unfold suffix_of. rewrite Z.shiftl_mul_pow2, Z.shiftr_div_pow2 by done.
  change (2 ^ 64) with (2 ^ 32 * 2 ^ 32). rewrite Z.mul_mod_distr_r by done. by rewrite Z.div_mul by done.
Qed.

Lemma combine_suffix d lsn :
  0 ≤ lsn → LOG_INDEX_SAME_TABLE_LSN_PREFIX d lsn = true → LOG_INDEX_COMBINE_LSN d (suffix_of lsn) = lsn.
Proof.
  intros Hl Hp%Z.eqb_eq. unfold LOG_INDEX_COMBINE_LSN. rewrite Hp, suffix_of_mod. apply Z.bits_inj'. intros i Hi.
  rewrite Z.lor_spec, Z.shiftl_spec by done. destruct (decide (i < 32)).
  - rewrite Z.testbit_neg_r by lia. rewrite Z.mod_pow2_bits_low by lia. done.
  - rewrite Z.shiftr_spec by lia. rewrite (Z.mod_pow2_bits_high lsn 32 i) by lia. rewrite orb_false_r. f_equal. lia.
Qed.

(** ** The order array *)

Lemma order_seg s i : 0 ≤ s < LOG_INDEX_MEM_TBL_SEG_NUM → 0 ≤ i < 16 → LOG_INDEX_SEG_ORDER (order_entry s i) = s.
Proof.
  intros Hs Hi. unfold LOG_INDEX_SEG_ORDER, order_entry, LOG_INDEX_ORDER_SEG_MASK, LOG_INDEX_ORDER_IDX_MASK, LOG_INDEX_MEM_TBL_SEG_NUM in *.
  rewrite Z.land_lor_distr_l, <-!Z.land_assoc. change (Z.land 0xF000 0xFFF) with 0. rewrite Z.land_0_r, Z.lor_0_r, Z.land_diag.
  change 0xFFF with (Z.ones 12). rewrite Z.land_ones by lia. by apply Z.mod_small.
Qed.

Lemma order_id s i : 0 ≤ s < LOG_INDEX_MEM_TBL_SEG_NUM → 0 ≤ i < 16 → LOG_INDEX_ID_ORDER (order_entry s i) = i.
Proof.
  intros Hs Hi. unfold LOG_INDEX_ID_ORDER, order_entry, LOG_INDEX_ORDER_SEG_MASK, LOG_INDEX_ORDER_IDX_MASK, LOG_INDEX_ORDER_IDX_SHIFT.
  rewrite Z.land_lor_distr_l, <-!Z.land_assoc. change (Z.land 0xFFF 0xF000) with 0. rewrite Z.land_0_r, Z.lor_0_l, Z.land_diag.
  change 0xF000 with (Z.shiftl (Z.ones 4) 12). rewrite <-Z.shiftl_land, Z.shiftr_shiftl_l by lia. cbn [Z.sub Z.add Z.opp Z.pos_sub Pos.pred_double].
  rewrite Z.shiftl_0_r, Z.land_ones by lia. by apply Z.mod_small.
Qed.

Lemma zlen_snoc {A} (l : list A) x : zlen (l ++ [x]) = zlen l + 1.
Proof. unfold zlen. rewrite length_app. cbn. lia. Qed.

(** ** Nodes *)

Definition head_of (d : log_idx_table_data_t) (id : Z) : option log_item_head_t :=
  match segment d !! id with Some (item_head h) => Some h | _ => None end.
Definition seg_of (d : log_idx_table_data_t) (id : Z) : option log_item_seg_t :=
  match segment d !! id with Some (item_seg s) => Some s | _ => None end.

Lemma head_of_with d id s x :
  head_of (with_seg d id s) x = if decide (x = id) then match s with item_head h => Some h | _ => None end else head_of d x.
Proof.
  unfold head_of. cbn [segment with_seg]. destruct (decide (x = id)) as [->|Hne].
  - by rewrite lookup_insert_eq.
  - by rewrite lookup_insert_ne by congruence.
Qed.

Lemma seg_of_with d id s x :
  seg_of (with_seg d id s) x = if decide (x = id) then match s with item_seg h => Some h | _ => None end else seg_of d x.
Proof.
  unfold seg_of. cbn [segment with_seg]. destruct (decide (x = id)) as [->|Hne].
  - by rewrite lookup_insert_eq.
  - by rewrite lookup_insert_ne by congruence.
Qed.

Lemma head_not_seg d id h : head_of d id = Some h → seg_of d id = None.
Proof. unfold head_of, seg_of. by destruct (segment d !! id) as [[]|]. Qed.

Lemma item_head_ok d id h :
  0 < id ≤ LOG_INDEX_MEM_TBL_SEG_NUM → head_of d id = Some h → log_index_item_head d id = Ok (Some h).
Proof.
  intros Hid Hh. unfold log_index_item_head, head_of in *. rewrite (proj2 (Z.ltb_ge _ _)) by lia.
  rewrite (proj2 (Z.eqb_neq _ _)) by (unfold LOG_INDEX_TBL_INVALID_SEG; lia). destruct (segment d !! id) as [[]|]; congruence.
Qed.

Lemma item_seg_ok d id s :
  0 < id ≤ LOG_INDEX_MEM_TBL_SEG_NUM → seg_of d id = Some s → log_index_item_seg d id = Ok (Some s).
Proof.
  intros Hid Hh. unfold log_index_item_seg, seg_of in *. rewrite (proj2 (Z.ltb_ge _ _)) by lia.
  rewrite (proj2 (Z.eqb_neq _ _)) by (unfold LOG_INDEX_TBL_INVALID_SEG; lia). destruct (segment d !! id) as [[]|]; congruence.
Qed.

(** ** Chains *)

Fixpoint item_chain (d : log_idx_table_data_t) (id : Z) (l : list Z) : Prop :=
  match l with
  | [] => id = 0
  | h :: l => id = h ∧ ∃ it, head_of d h = Some it ∧ item_chain d (ih_next_item it) l
  end.

Definition seg_fields (sg : log_item_seg_t) (hd prev : Z) (more : bool) : Prop :=
  is_head_seg sg = hd ∧ is_prev_seg sg = prev ∧ length (is_suffix_lsn sg) = 10%nat ∧
  1 ≤ is_number sg ≤ 10 ∧ (more = true → is_number sg = 10).

Fixpoint seg_chain (d : log_idx_table_data_t) (hd prev id : Z) (l : list Z) : Prop :=
  match l with
  | [] => id = 0
  | s :: l =>
      id = s ∧ ∃ sg, seg_of d s = Some sg ∧
        seg_fields sg hd prev (negb (bool_decide (l = []))) ∧ seg_chain d hd s (is_next_seg sg) l
  end.

Lemma item_chain_frame d d' l : ∀ id,
  item_chain d id l →
  (∀ h it, h ∈ l → head_of d h = Some it → ∃ it', head_of d' h = Some it' ∧ ih_next_item it' = ih_next_item it) →
  item_chain d' id l.
Proof.
  induction l as [|h l IH]; intros id; [done|]. intros (-> & it & Hh & Hc) Hf. split; [done|].
  destruct (Hf h it) as (it' & Hh' & Hn); [left|done|]. exists it'. split; [done|]. rewrite Hn.
  apply IH; [done|]. intros h' it2 Hin. apply Hf. by right.
Qed.

Lemma seg_chain_frame d d' hd l : ∀ prev id,
  seg_chain d hd prev id l → (∀ s, s ∈ l → seg_of d' s = seg_of d s) → seg_chain d' hd prev id l.
Proof.
  induction l as [|s l IH]; intros prev id; [done|]. intros (-> & sg & Hs & Hf & Hc) Hfr. split; [done|].
  exists sg. rewrite Hfr by left. split_and!; [done..|]. apply IH; [done|]. intros. apply Hfr. by right.
Qed.

Lemma seg_chain_in d hd l : ∀ prev id s,
  seg_chain d hd prev id l → s ∈ l → ∃ sg, seg_of d s = Some sg ∧ is_head_seg sg = hd.
Proof.
  induction l as [|x l IH]; intros prev id s; [by intros _ ?%elem_of_nil|].
  intros (-> & sg & Hs & Hf & Hc) [->|Hin]%elem_of_cons; [|by eapply IH].
  exists sg. split; [done|]. apply Hf.
Qed.

(** The last segment, and what may take its place. *)
Lemma seg_chain_last d hd l s : ∀ prev id,
  seg_chain d hd prev id (l ++ [s]) →
  ∃ sg, seg_of d s = Some sg ∧ seg_fields sg hd (default prev (last l)) false ∧ is_next_seg sg = 0.
Proof.
  induction l as [|x l IH]; intros prev id; cbn [app seg_chain].
  - intros (-> & sg & Hs & Hf & Hn). by exists sg.
  - intros (-> & sg & _ & _ & Hc). apply IH in Hc as (sg' & Hs & Hf & Hn). exists sg'. split_and!; [done| |done].
    rewrite last_cons. by destruct (last l).
Qed.

Lemma seg_chain_set_last d d' hd l s sg' l2 : ∀ prev id,
  seg_chain d hd prev id (l ++ [s]) → (∀ x, x ∈ l → seg_of d' x = seg_of d x) →
  seg_of d' s = Some sg' → seg_fields sg' hd (default prev (last l)) (negb (bool_decide (l2 = []))) →
  seg_chain d' hd s (is_next_seg sg') l2 → seg_chain d' hd prev id (l ++ s :: l2).
Proof.
  induction l as [|x l IH]; intros prev id; cbn [app seg_chain].
  - intros (-> & sg & _ & _ & _) _ Hs Hf Hc. eauto.
  - intros (-> & sg & Hs & Hf & Hc) Hfr Hs' Hf' Hc'. split; [done|]. exists sg. rewrite Hfr by left. split_and!; [done| |].
    + destruct l; done.
    + apply IH; [done|intros; apply Hfr; by right|done| |done]. rewrite last_cons in Hf'. by destruct (last l).
Qed.

(** ** The invariant *)

Record head_ok (d : log_idx_table_data_t) (h : Z) (it : log_item_head_t) (l : list Z) : Prop := {
  ho_self : ih_head_seg it = h;
  ho_tail : ih_tail_seg it = default h (last l);
  ho_num : 1 ≤ ih_number it ≤ 2;
  ho_suffix : length (ih_suffix_lsn it) = 2%nat;
  ho_full : l ≠ [] → ih_number it = 2;
  ho_chain : seg_chain d h h (ih_next_seg it) l;
  ho_nodup : NoDup l }.

(** What a node holds. *)
Definition head_vals (d : log_idx_table_data_t) (h : Z) : list Z :=
  match head_of d h with Some it => take (Z.to_nat (ih_number it)) (ih_suffix_lsn it) | None => [] end.
Definition seg_vals (d : log_idx_table_data_t) (s : Z) : list Z :=
  match seg_of d s with Some sg => take (Z.to_nat (is_number sg)) (is_suffix_lsn sg) | None => [] end.
Definition page_vals (d : log_idx_table_data_t) (h : Z) (l : list Z) : list Z := head_vals d h ++ (l ≫= seg_vals d).

Definition node_num (s : log_tbl_seg_t) : Z := match s with item_head h => ih_number h | item_seg s => is_number s end.

(** The tag and the LSN at a position of a node. *)
Definition entry (d : log_idx_table_data_t) (id i : Z) : option (BufferTag * Z) :=
  match segment d !! id with
  | Some (item_head h) =>
      if i <? ih_number h then v ← ih_suffix_lsn h !! Z.to_nat i; Some (ih_tag h, LOG_INDEX_COMBINE_LSN d v) else None
  | Some (item_seg s) =>
      if i <? is_number s then
        v ← is_suffix_lsn s !! Z.to_nat i; h ← head_of d (is_head_seg s); Some (ih_tag h, LOG_INDEX_COMBINE_LSN d v)
      else None
  | None => None
  end.

(** The entry an element of [idx_order] points to. *)
Definition order_at (d : log_idx_table_data_t) (o : Z) : option (BufferTag * Z) :=
  entry d (LOG_INDEX_SEG_ORDER o) (LOG_INDEX_ID_ORDER o).

(** The log: tags and LSNs in the order in which they were added. *)
Abbreviation log_t := (list (BufferTag * Z)).

Definition lsns_of (log : log_t) (tag : BufferTag) : list Z := snd <$> filter (λ e, e.1 = tag) log.

Lemma lsns_of_snoc log tag lsn tag' :
  lsns_of (log ++ [(tag, lsn)]) tag' = lsns_of log tag' ++ if decide (tag = tag') then [lsn] else [].
Proof.
  unfold lsns_of. rewrite filter_app, fmap_app, filter_cons, filter_nil. cbn [fst]. by destruct (decide _).
Qed.

(** How many LSNs the first [n] nodes hold. *)
Definition node_count (d : log_idx_table_data_t) (id : Z) : Z := match segment d !! id with Some s => node_num s | None => 0 end.
Definition total (d : log_idx_table_data_t) (n : Z) : Z := foldr (λ id a, node_count d id + a) 0 (seqZ 1 n).

Section rep.
Context (key : BufferTag → Z).

(** [hs k] are the heads of slot [k], [ss h] the segments of head [h];
[free] is the next unused node. *)
Record rep (d : log_idx_table_data_t) (free : Z) (hs ss : Z → list Z) : Prop := {
rp_free : 1 ≤ free ≤ LOG_INDEX_MEM_TBL_SEG_NUM;
rp_slot k : item_chain d (LOG_INDEX_TBL_SLOT_VALUE d k) (hs k);
rp_head k h : h ∈ hs k → ∃ it, head_of d h = Some it ∧ key (ih_tag it) = k ∧ head_ok d h it (ss h);
rp_nodup k : NoDup (hs k);
rp_tags k h h' it it' : h ∈ hs k → h' ∈ hs k → head_of d h = Some it → head_of d h' = Some it' →
ih_tag it = ih_tag it' → h = h';
rp_ids id s : segment d !! id = Some s → 1 ≤ id < free ∧ 1 ≤ node_num s ≤ 10 }.

(** The table represents the log. *)
Record logs (d : log_idx_table_data_t) (free : Z) (hs ss : Z → list Z) (log : log_t) : Prop := {
lg_page h it : h ∈ hs (key (ih_tag it)) → head_of d h = Some it →
LOG_INDEX_COMBINE_LSN d <$> page_vals d h (ss h) = lsns_of log (ih_tag it);
lg_none tag : (∀ h it, h ∈ hs (key tag) → head_of d h = Some it → ih_tag it ≠ tag) → lsns_of log tag = [];
lg_order : Forall2 (λ o e, order_at d o = Some e) (idx_order d) log;
lg_count : zlen (idx_order d) = total d (free - 1) }.

Definition table_inv (d : log_idx_table_data_t) (free : Z) (log : log_t) : Prop :=
∃ hs ss, rep d free hs ss ∧ logs d free hs ss log.

(** ** Lookup *)

Lemma rep_head_range d free hs ss k h : rep d free hs ss → h ∈ hs k → 1 ≤ h < free.
Proof using.
intros Hr Hh. destruct (rp_head _ _ _ _ Hr k h Hh) as (it & Hit & _). unfold head_of in Hit.
destruct (segment d !! h) eqn:E; [|done]. by apply (rp_ids _ _ _ _ Hr) in E as [? _].
Qed.

Lemma seg_range d free hs ss s sg : rep d free hs ss → seg_of d s = Some sg → 1 ≤ s < free.
Proof using.
intros Hr Hs. unfold seg_of in Hs. destruct (segment d !! s) eqn:E; [|done]. by apply (rp_ids _ _ _ _ Hr) in E as [? _].
Qed.

Lemma chain_length d free hs ss k : rep d free hs ss → (length (hs k) < Z.to_nat LOG_INDEX_MEM_TBL_SEG_NUM)%nat.
Proof using.
intros Hr. assert (Hs : hs k ⊆+ seqZ 1 (free - 1)).
{ apply NoDup_submseteq; [by eapply rp_nodup|]. intros h Hh. apply elem_of_seqZ.
pose proof (rep_head_range _ _ _ _ _ _ Hr Hh). lia. }
apply submseteq_length in Hs. rewrite length_seqZ in Hs. pose proof (rp_free _ _ _ _ Hr).
unfold LOG_INDEX_MEM_TBL_SEG_NUM in *. lia.
Qed.

Lemma exists_loop_spec d tag l : ∀ fuel id,
item_chain d id l → (∀ h, h ∈ l → 0 < h ≤ LOG_INDEX_MEM_TBL_SEG_NUM) → (length l ≤ fuel)%nat →
∃ r, exists_page_loop fuel d tag id = Ok r ∧
((r = 0 ∧ ∀ h it, h ∈ l → head_of d h = Some it → ih_tag it ≠ tag) ∨
(r ∈ l ∧ ∃ it, head_of d r = Some it ∧ ih_tag it = tag)).
Proof using.
induction l as [|h l IH]; intros fuel id Hc Hr Hf.
- cbn in Hc. subst id. exists 0. split; [by destruct fuel|]. left. split; [done|]. by intros h it ?%elem_of_nil.
- destruct Hc as (-> & it & Hh & Hc). destruct fuel as [|fuel]; [cbn in Hf; lia|]. cbn [exists_page_loop].
rewrite (item_head_ok d h it) by (done || apply Hr; left). cbn [mbind res_bind].
destruct (BUFFERTAGS_EQUAL (ih_tag it) tag) eqn:Et.
+ apply BUFFERTAGS_EQUAL_true in Et. exists h. split; [done|]. right. split; [left|eauto].
+ destruct (IH fuel (ih_next_item it)) as (r & Hx & Hcase); [done|intros; apply Hr; by right|cbn in Hf; lia|].
exists r. split; [done|]. destruct Hcase as [[-> Hn]|[Hin Ht]]; [left|right].
* split; [done|]. intros h' it' [->|Hin]%elem_of_cons Hh' Heq; [|by eapply Hn].
rewrite Hh in Hh'. injection Hh' as <-. apply BUFFERTAGS_EQUAL_true in Heq. congruence.
* split; [by right|done].
Qed.

Lemma exists_page_spec d free hs ss tag :
rep d free hs ss → let k := key tag in
∃ r, log_index_mem_tbl_exists_page tag d k = Ok r ∧
((r = 0 ∧ ∀ h it, h ∈ hs k → head_of d h = Some it → ih_tag it ≠ tag) ∨
(0 < r < free ∧ r ∈ hs k ∧ ∃ it, head_of d r = Some it ∧ ih_tag it = tag)).
Proof using.
intros Hr k. pose proof (chain_length _ _ _ _ k Hr) as Hl. pose proof (rp_free _ _ _ _ Hr) as Hfr.
destruct (exists_loop_spec d tag (hs k) (Z.to_nat LOG_INDEX_MEM_TBL_SEG_NUM) (LOG_INDEX_TBL_SLOT_VALUE d k))
as (r & Hx & Hcase); [by eapply rp_slot| |lia|].
{ intros h Hh. pose proof (rep_head_range _ _ _ _ _ _ Hr Hh). lia. }
exists r. split; [exact Hx|]. destruct Hcase as [?|[Hin ?]]; [by left|right].
pose proof (rep_head_range _ _ _ _ _ _ Hr Hin). split_and!; [lia|lia|done|done].
Qed.

(** ** Adding to a page that is in the table *)

(** The nodes of head [h]. *)
Definition owned (d : log_idx_table_data_t) (h x : Z) : Prop :=
x = h ∨ ∃ sg, seg_of d x = Some sg ∧ is_head_seg sg = h.

Lemma head_owned d h x it : head_of d x = Some it → owned d h x → x = h.
Proof using. intros Hx [->|(sg & Hs & _)]; [done|]. apply head_not_seg in Hx. congruence. Qed.

(** A node that has got more LSNs. *)
Definition node_ext (s s' : log_tbl_seg_t) : Prop :=
match s, s' with
| item_head a, item_head b =>
ih_tag b = ih_tag a ∧ ih_number a ≤ ih_number b ∧
∀ j, (j < Z.to_nat (ih_number a))%nat → ih_suffix_lsn b !! j = ih_suffix_lsn a !! j
| item_seg a, item_seg b =>
is_head_seg b = is_head_seg a ∧ is_number a ≤ is_number b ∧
∀ j, (j < Z.to_nat (is_number a))%nat → is_suffix_lsn b !! j = is_suffix_lsn a !! j
| _, _ => False
end.

Lemma node_ext_refl s : node_ext s s.
Proof using. destruct s; cbn; split_and!; done || lia. Qed.

Lemma entry_ext d d' x i e s s' :
prefix_lsn d' = prefix_lsn d → segment d !! x = Some s → segment d' !! x = Some s' → node_ext s s' → 1 ≤ node_num s →
(∀ y it, head_of d y = Some it → ∃ it', head_of d' y = Some it' ∧ ih_tag it' = ih_tag it) →
entry d x i = Some e → entry d' x i = Some e.
Proof using.
intros Hp Hs Hs' Hx Hn Hh He. unfold entry, LOG_INDEX_COMBINE_LSN in *. rewrite Hs in He. rewrite Hs', Hp.
destruct s as [a|a], s' as [b|b]; cbn in Hx, Hn; try done; destruct Hx as (Ht & Hle & Hsuf).
- destruct (Z.ltb_spec i (ih_number a)); [|done]. rewrite (proj2 (Z.ltb_lt _ _)) by lia.
rewrite Hsuf by lia. by rewrite Ht.
- destruct (Z.ltb_spec i (is_number a)); [|done]. rewrite (proj2 (Z.ltb_lt _ _)) by lia.
rewrite Hsuf by lia. destruct (is_suffix_lsn a !! Z.to_nat i); cbn in *; [|done]. rewrite Ht.
destruct (head_of d (is_head_seg a)) as [it|] eqn:Eh; cbn in He; [|done].
destruct (Hh _ _ Eh) as (it' & -> & Hti). cbn. by rewrite Hti.
Qed.

(** A change to the nodes of head [h] that adds the LSN [lsn] to its page. *)
Record page_step (d d' : log_idx_table_data_t) (free' h : Z) (it it' : log_item_head_t) (l l' : list Z) (lsn : Z) : Prop := {
ps_hash : hash d' = hash d;
ps_prefix : prefix_lsn d' = prefix_lsn d;
ps_frame x s : segment d !! x = Some s → ¬ owned d h x → segment d' !! x = Some s;
ps_heads x it1 : head_of d' x = Some it1 → is_Some (head_of d x);
ps_old : head_of d h = Some it;
ps_new : head_of d' h = Some it';
ps_tag : ih_tag it' = ih_tag it;
ps_next : ih_next_item it' = ih_next_item it;
ps_ok : head_ok d' h it' l';
ps_vals : page_vals d' h l' = page_vals d h l ++ [suffix_of lsn];
ps_nodes x s : owned d h x → segment d !! x = Some s → ∃ s', segment d' !! x = Some s' ∧ node_ext s s';
ps_ids x s : segment d' !! x = Some s → 1 ≤ x < free' ∧ 1 ≤ node_num s ≤ 10 }.

Lemma combine_prefix d d' : prefix_lsn d' = prefix_lsn d → ∀ v, LOG_INDEX_COMBINE_LSN d' v = LOG_INDEX_COMBINE_LSN d v.
Proof using. intros H v. unfold LOG_INDEX_COMBINE_LSN. by rewrite H. Qed.

Section step.
Context (d d' : log_idx_table_data_t) (free free' h : Z) (it it' : log_item_head_t) (l' : list Z) (lsn k : Z).
Context (hs ss : Z → list Z) (Hr : rep d free hs ss) (Hk : h ∈ hs k) (Hfree : 1 ≤ free' ≤ LOG_INDEX_MEM_TBL_SEG_NUM).
Context (Hps : page_step d d' free' h it it' (ss h) l' lsn).

Definition ss_upd : Z → list Z := λ x, if decide (x = h) then l' else ss x.

Lemma step_head x it1 : head_of d x = Some it1 →
∃ it2, head_of d' x = Some it2 ∧ ih_tag it2 = ih_tag it1 ∧ ih_next_item it2 = ih_next_item it1 ∧ (x ≠ h → it2 = it1).
Proof using Hps.
intros Hx. destruct (decide (x = h)) as [->|Hne].
- pose proof (ps_old _ _ _ _ _ _ _ _ _ Hps) as Ho. rewrite Ho in Hx. injection Hx as <-.
exists it'. destruct Hps. done.
- exists it1. split_and!; [|done..]. unfold head_of in *. destruct (segment d !! x) as [s|] eqn:E; [|done].
rewrite (ps_frame _ _ _ _ _ _ _ _ _ Hps x s E); [done|]. intros Ho. apply Hne.
apply (head_owned d h x it1); [|done]. unfold head_of. by rewrite E.
Qed.

Lemma step_head_inv x it2 : head_of d' x = Some it2 →
∃ it1, head_of d x = Some it1 ∧ ih_tag it2 = ih_tag it1 ∧ ih_next_item it2 = ih_next_item it1 ∧ (x ≠ h → it2 = it1).
Proof using Hps.
intros Hx. destruct (ps_heads _ _ _ _ _ _ _ _ _ Hps x it2 Hx) as [it1 H1].
destruct (step_head x it1 H1) as (it3 & H3 & ?). exists it1. rewrite Hx in H3. injection H3 as <-. done.
Qed.

Lemma step_seg x sg : seg_of d x = Some sg → is_head_seg sg ≠ h → seg_of d' x = Some sg.
Proof using Hps.
intros Hx Hne. unfold seg_of in *. destruct (segment d !! x) as [s|] eqn:E; [|done].
rewrite (ps_frame _ _ _ _ _ _ _ _ _ Hps x s E); [done|]. intros [->|(sg' & Hs & Hh)].
- pose proof (ps_old _ _ _ _ _ _ _ _ _ Hps) as Ho. unfold head_of in Ho. rewrite E in Ho. by destruct s.
- unfold seg_of in Hs. rewrite E in Hs. congruence.
Qed.

Lemma step_other_segs k' x it1 s : x ∈ hs k' → head_of d x = Some it1 → x ≠ h → s ∈ ss x → seg_of d' s = seg_of d s.
Proof using Hps Hr.
intros Hx H1 Hne Hs. destruct (rp_head _ _ _ _ Hr k' x Hx) as (it2 & H2 & _ & Hok).
destruct (seg_chain_in _ _ _ _ _ s (ho_chain _ _ _ _ Hok) Hs) as (sg & Hsg & Hh). rewrite Hsg.
apply step_seg; [done|congruence].
Qed.

Lemma rep_step : rep d' free' hs ss_upd.
Proof using Hps Hr Hfree.
constructor.
- done.
- intros k'. unfold LOG_INDEX_TBL_SLOT_VALUE. rewrite (ps_hash _ _ _ _ _ _ _ _ _ Hps).
eapply item_chain_frame; [apply (rp_slot _ _ _ _ Hr k')|]. intros x it1 _ Hx.
destruct (step_head x it1 Hx) as (it2 & ? & _ & ? & _). eauto.
- intros k' x Hx. destruct (rp_head _ _ _ _ Hr k' x Hx) as (it1 & H1 & Hkey & Hok).
destruct (step_head x it1 H1) as (it2 & H2 & Ht & _ & Hsame). exists it2. split; [done|]. split; [by rewrite Ht|].
unfold ss_upd. destruct (decide (x = h)) as [->|Hne].
+ pose proof (ps_new _ _ _ _ _ _ _ _ _ Hps) as Hn. rewrite H2 in Hn. injection Hn as ->. by eapply ps_ok.
+ rewrite (Hsame Hne). destruct Hok. constructor; try done. eapply seg_chain_frame; [done|].
intros s Hs. by eapply step_other_segs.
- apply Hr.
- intros k' x x' it1 it1' Hx Hx' (it2 & H2 & T2 & _)%step_head_inv (it2' & H2' & T2' & _)%step_head_inv Ht.
apply (rp_tags _ _ _ _ Hr k' x x' it2 it2'); congruence.
- intros x s Hx. by eapply ps_ids.
Qed.

Lemma step_page_other k' x it1 : x ∈ hs k' → head_of d x = Some it1 → x ≠ h →
page_vals d' x (ss_upd x) = page_vals d x (ss x).
Proof using Hps Hr.
intros Hx H1 Hne. unfold page_vals, ss_upd, head_vals. rewrite decide_False by done.
destruct (step_head x it1 H1) as (it2 & H2 & _ & _ & Hs). rewrite H1, H2, (Hs Hne). f_equal.
assert (Hall : ∀ s, s ∈ ss x → seg_vals d' s = seg_vals d s).
{ intros s Hin. unfold seg_vals. by erewrite step_other_segs. }
clear -Hall. induction (ss x) as [|s l IH]; [done|]. cbn. rewrite (Hall s) by left. f_equal. apply IH.
intros. apply Hall. by right.
Qed.

Lemma owned_dec x : owned d h x ∨ ¬ owned d h x.
Proof using.
unfold owned. destruct (decide (x = h)); [by left; left|]. destruct (seg_of d x) as [sg|].
- destruct (decide (is_head_seg sg = h)); [left; right; eauto|]. right. intros [?|(sg' & [= <-] & ?)]; congruence.
- right. intros [?|(sg' & [=] & ?)]. congruence.
Qed.

Lemma step_entries x i e : entry d x i = Some e → entry d' x i = Some e.
Proof using Hps Hr.
intros He. destruct (segment d !! x) as [s|] eqn:E; [|unfold entry in He; by rewrite E in He].
assert (Hn : ∃ s', segment d' !! x = Some s' ∧ node_ext s s').
{ destruct (owned_dec x) as [Ho|Ho]; [by eapply ps_nodes|]. exists s. split; [by eapply ps_frame|apply node_ext_refl]. }
destruct Hn as (s' & Hs' & Hx). apply (entry_ext d d' x i e s s'); [by eapply ps_prefix|done|done|done| | |done].
- apply (rp_ids _ _ _ _ Hr) in E. lia.
- intros y it1 (it2 & ? & ? & _)%step_head. eauto.
Qed.

Lemma logs_step free0 log dst idx :
logs d free0 hs ss log → idx_order d' = idx_order d ++ [order_entry dst idx] →
0 ≤ dst < LOG_INDEX_MEM_TBL_SEG_NUM → 0 ≤ idx < 16 → entry d' dst idx = Some (ih_tag it, lsn) →
total d' (free' - 1) = total d (free0 - 1) + 1 →
0 ≤ lsn → LOG_INDEX_SAME_TABLE_LSN_PREFIX d lsn = true →
logs d' free' hs ss_upd (log ++ [(ih_tag it, lsn)]).
Proof using Hps Hr Hk.
intros [Hpg Hno Hord Hcnt] Ho Hdst Hidx He Htot Hlsn Hpre. pose proof (combine_prefix d d' (ps_prefix _ _ _ _ _ _ _ _ _ Hps)) as Hcp.
assert (Hkk : k = key (ih_tag it)).
{ destruct (rp_head _ _ _ _ Hr k h Hk) as (it1 & H1 & Hkey & _). rewrite (ps_old _ _ _ _ _ _ _ _ _ Hps) in H1. congruence. }
constructor.
- intros x it2 Hx H2. destruct (step_head_inv x it2 H2) as (it1 & H1 & Ht & _ & Hsame). rewrite lsns_of_snoc, Ht in *.
assert (Hmap : ∀ l, LOG_INDEX_COMBINE_LSN d' <$> l = LOG_INDEX_COMBINE_LSN d <$> l) by (intros; apply list_fmap_ext; intros; apply Hcp).
rewrite Hmap. destruct (decide (x = h)) as [->|Hne].
+ rewrite (ps_old _ _ _ _ _ _ _ _ _ Hps) in H1. injection H1 as <-. unfold ss_upd at 1. rewrite decide_True by done.
rewrite (ps_vals _ _ _ _ _ _ _ _ _ Hps), fmap_app, (Hpg h it Hx (ps_old _ _ _ _ _ _ _ _ _ Hps)). cbn [fmap list_fmap].
rewrite combine_suffix by done. by rewrite decide_True.
+ rewrite (step_page_other _ _ _ Hx H1 Hne), (Hpg x it1 Hx H1). rewrite decide_False, app_nil_r; [done|].
intros Heq. apply Hne. subst k. rewrite Heq in Hk.
apply (rp_tags _ _ _ _ Hr (key (ih_tag it1)) x h it1 it); [done|done|done|by eapply ps_old|done].
- intros tag Hn. rewrite lsns_of_snoc, decide_False, app_nil_r.
+ apply Hno. intros x it1 Hx H1. destruct (step_head x it1 H1) as (it2 & H2 & <- & _). by eapply Hn.
+ intros <-. apply (Hn h it'); [by rewrite <-Hkk|by eapply ps_new|by eapply ps_tag].
- rewrite Ho. apply Forall2_app.
+ eapply Forall2_impl; [exact Hord|]. intros o e. apply step_entries.
+ constructor; [|constructor]. unfold order_at. by rewrite order_seg, order_id.
- rewrite Ho, zlen_snoc. lia.
Qed.
End step.
(** ** Counting *)

Lemma total_snoc d n : 0 ≤ n → total d (n + 1) = total d n + node_count d (n + 1).
Proof using.
intros Hn. unfold total. rewrite seqZ_app by lia. rewrite foldr_app. cbn [seqZ fmap list_fmap seq Z.to_nat foldr].
change (seqZ (1 + n) 1) with [Z.of_nat 0 + (1 + n)]. cbn [foldr].
replace (Z.of_nat 0 + (1 + n)) with (n + 1) by lia. rewrite Z.add_0_r.
generalize (node_count d (n + 1)). intros c. induction (seqZ 1 n) as [|x l IH]; cbn [foldr]; lia.
Qed.

Lemma total_ext d d' n : (∀ x, 1 ≤ x ≤ n → node_count d' x = node_count d x) → total d' n = total d n.
Proof using.
intros H. unfold total. assert (Hall : ∀ x, x ∈ seqZ 1 n → node_count d' x = node_count d x)
by (intros x Hx%elem_of_seqZ; apply H; lia).
clear H. induction (seqZ 1 n) as [|x l IH]; [done|]. cbn [foldr]. rewrite (Hall x) by left. f_equal. apply IH.
intros. apply Hall. by right.
Qed.

Lemma total_one d d' n x c :
(∀ y, y ≠ x → 1 ≤ y ≤ n → node_count d' y = node_count d y) → 1 ≤ x ≤ n → node_count d' x = node_count d x + c →
total d' n = total d n + c.
Proof using.
intros H Hx Hc. unfold total.
assert (Hall : ∀ y, y ≠ x → y ∈ seqZ 1 n → node_count d' y = node_count d y)
by (intros y Hne Hy%elem_of_seqZ; apply H; [done|lia]).
assert (Hin : x ∈ seqZ 1 n) by (apply elem_of_seqZ; lia). pose proof (NoDup_seqZ 1 n) as Hnd. clear H Hx.
induction (seqZ 1 n) as [|y l IH]; [by apply elem_of_nil in Hin|]. apply NoDup_cons in Hnd as [Hny Hnd]. cbn [foldr].
apply elem_of_cons in Hin as [<-|Hin].
- rewrite Hc. assert (Hl : ∀ z, z ∈ l → node_count d' z = node_count d z)
by (intros z Hz; apply Hall; [intros ->; done|by right]).
assert (Heq : foldr (λ id a, node_count d' id + a) 0 l = foldr (λ id a, node_count d id + a) 0 l); [|lia].
clear -Hl. induction l as [|z l IH]; [done|]. cbn [foldr]. rewrite (Hl z) by left. f_equal. apply IH.
intros w Hw. apply Hl. by right.
- assert (y ≠ x) by (intros ->; done). rewrite (Hall y) by (done || left). rewrite IH; [lia| |done|done].
intros w Hw Hwl. apply Hall; [done|by right].
Qed.
(** ** The three changes to a page *)

Lemma head_of_order d o x : head_of (with_order d o) x = head_of d x.
Proof using. done. Qed.
Lemma seg_of_order d o x : seg_of (with_order d o) x = seg_of d x.
Proof using. done. Qed.

Lemma take_insert_snoc (l : list Z) n v :
(n < length l)%nat → take (S n) (<[n := v]> l) = take n l ++ [v].
Proof using.
intros Hn. rewrite (take_S_r _ n v) by (by apply list_lookup_insert_eq). by rewrite take_insert_ge by done.
Qed.

Section changes.
Context (d : log_idx_table_data_t) (free : Z) (hs ss : Z → list Z) (Hr : rep d free hs ss).
Context (k h : Z) (it : log_item_head_t) (Hk : h ∈ hs k) (Hit : head_of d h = Some it).

Lemma the_head_ok : head_ok d h it (ss h).
Proof using All. destruct (rp_head _ _ _ _ Hr k h Hk) as (it1 & H1 & _ & Hok). congruence. Qed.

Lemma owned_seg s : s ∈ ss h → owned d h s ∧ s ≠ h.
Proof using All.
intros Hs. destruct (seg_chain_in _ _ _ _ _ s (ho_chain _ _ _ _ the_head_ok) Hs) as (sg & Hsg & Hh). split; [right; eauto|].
intros ->. apply head_not_seg in Hit. congruence.
Qed.

(** The tail is the head itself when there are no segments. *)
Lemma tail_is_head : (ih_tail_seg it =? h) = bool_decide (ss h = []).
Proof using All.
rewrite (ho_tail _ _ _ _ the_head_ok). destruct (last (ss h)) as [s|] eqn:E; cbn [default from_option id].
- apply last_Some_elem_of in E as Hin. destruct (owned_seg s Hin) as [_ Hne]. rewrite (proj2 (Z.eqb_neq _ _) Hne).
rewrite bool_decide_false; [done|]. intros Hnil. by rewrite Hnil in Hin; apply elem_of_nil in Hin.
- apply last_None in E. rewrite E, bool_decide_true by done. apply Z.eqb_refl.
Qed.

Lemma head_step lsn o :
ss h = [] → ih_number it = 1 →
let it' := head_set_lsns it 2 (<[1%nat := suffix_of lsn]> (ih_suffix_lsn it)) in
page_step d (with_order (with_seg d h (item_head it')) o) free h it it' (ss h) [] lsn.
Proof using All.
intros Hnil Hnum it'. pose proof the_head_ok as [Hself Htail _ Hsuf _ Hch _]. rewrite Hnil in *.
constructor; try done.
- intros x s Hx Ho. cbn. rewrite lookup_insert_ne; [done|]. intros <-. apply Ho. by left.
- intros x it1. rewrite head_of_order, head_of_with. destruct (decide (x = h)) as [->|]; [by rewrite Hit|by intros ->].
- rewrite head_of_order, head_of_with. by rewrite decide_True.
- constructor; cbn [it' ih_head_seg ih_tail_seg ih_number ih_suffix_lsn head_set_lsns ih_next_seg]; try done; try lia;
[by rewrite length_insert|constructor].
- unfold page_vals, head_vals. rewrite head_of_order, head_of_with, decide_True, Hit by done. cbn [mbind list_bind].
rewrite !app_nil_r. cbn [it' ih_number ih_suffix_lsn head_set_lsns]. rewrite Hnum.
apply (take_insert_snoc _ 1). lia.
- intros x s Ho Hx. cbn [segment with_order with_seg]. destruct (decide (x = h)) as [->|Hne].
+ exists (item_head it'). rewrite lookup_insert_eq. split; [done|]. unfold head_of in Hit. rewrite Hx in Hit.
destruct s; [|done]. injection Hit as ->. cbn [node_ext it' ih_tag ih_number head_set_lsns ih_suffix_lsn].
split_and!; [done|lia|]. intros j Hj. apply list_lookup_insert_ne. lia.
+ exists s. rewrite lookup_insert_ne by done. split; [done|apply node_ext_refl].
- intros x s. cbn [segment with_order with_seg]. destruct (decide (x = h)) as [->|Hne].
+ rewrite lookup_insert_eq. intros [= <-]. cbn. pose proof (rep_head_range _ _ _ _ _ _ Hr Hk). lia.
+ rewrite lookup_insert_ne by done. apply (rp_ids _ _ _ _ Hr).
Qed.
(** The values of the segments before the last one. *)
Lemma bind_seg_vals_ext d1 l : (∀ s, s ∈ l → seg_of d1 s = seg_of d s) → (l ≫= seg_vals d1) = (l ≫= seg_vals d).
Proof using.
induction l as [|s l IH]; intros H; [done|]. cbn. unfold seg_vals at 1 3. rewrite H by left. f_equal. apply IH.
intros. apply H. by right.
Qed.

Lemma last_not_before l t : ss h = l ++ [t] → ∀ s, s ∈ l → s ≠ t.
Proof using All.
intros Hl s Hs ->. pose proof (ho_nodup _ _ _ _ the_head_ok) as Hnd. rewrite Hl in Hnd.
apply NoDup_app in Hnd as (_ & Hd & _). apply (Hd t Hs). by apply list_elem_of_singleton.
Qed.

Lemma last_seg l t sg : ss h = l ++ [t] → seg_of d t = Some sg →
seg_fields sg h (default h (last l)) false ∧ is_next_seg sg = 0 ∧ 1 ≤ t < free ∧ t ≠ h.
Proof using All.
intros Hl Hsg. pose proof (ho_chain _ _ _ _ the_head_ok) as Hc. rewrite Hl in Hc.
destruct (seg_chain_last _ _ _ _ _ _ Hc) as (sg1 & H1 & Hf & Hn). rewrite Hsg in H1. injection H1 as <-.
split_and!; [done|done|by eapply seg_range..|]. apply owned_seg. rewrite Hl. apply elem_of_app. right. by apply list_elem_of_singleton.
Qed.

Lemma seg_step lsn o l t sg :
ss h = l ++ [t] → seg_of d t = Some sg → is_number sg < 10 →
let sg' := seg_set_lsns sg (is_number sg + 1) (<[Z.to_nat (is_number sg) := suffix_of lsn]> (is_suffix_lsn sg)) in
page_step d (with_order (with_seg d t (item_seg sg')) o) free h it it (ss h) (ss h) lsn.
Proof using All.
intros Hl Hsg Hnum sg'. destruct (last_seg l t sg Hl Hsg) as (Hf & Hn & Hrg & Hne).
pose proof the_head_ok as Hok. destruct Hf as (F1 & F2 & F3 & F4 & _).
assert (Ho : owned d h t) by (right; eauto).
assert (Hbefore : ∀ s, s ∈ l → seg_of (with_order (with_seg d t (item_seg sg')) o) s = seg_of d s).
{ intros s Hs. rewrite seg_of_order, seg_of_with, decide_False; [done|]. by eapply last_not_before. }
constructor; try done.
- intros x s Hx Hno. cbn. rewrite lookup_insert_ne; [done|]. by intros <-.
- intros x it1. rewrite head_of_order, head_of_with. destruct (decide (x = t)) as [->|]; [done|by intros ->].
- by rewrite head_of_order, head_of_with, decide_False.
- destruct Hok as [? ? ? ? ? Hch ?]. constructor; try done. rewrite Hl in *.
eapply seg_chain_set_last; [exact Hch|exact Hbefore| | |].
+ rewrite seg_of_order, seg_of_with. by rewrite decide_True.
+ unfold seg_fields, sg'. cbn [is_head_seg is_prev_seg is_suffix_lsn is_number seg_set_lsns]. rewrite length_insert.
split_and!; try done; lia.
+ exact Hn.
- unfold page_vals, head_vals. rewrite head_of_order, head_of_with, decide_False by done. rewrite <-app_assoc. f_equal.
rewrite Hl, !bind_app. rewrite (bind_seg_vals_ext _ l Hbefore), <-app_assoc. f_equal. cbn [mbind list_bind]. rewrite !app_nil_r.
unfold seg_vals. rewrite seg_of_order, seg_of_with, decide_True, Hsg by done. cbn [sg' is_number is_suffix_lsn seg_set_lsns].
replace (Z.to_nat (is_number sg + 1)) with (S (Z.to_nat (is_number sg))) by lia. apply take_insert_snoc. lia.
- intros x s Hox Hx. cbn [segment with_order with_seg]. destruct (decide (x = t)) as [->|Hnx].
+ exists (item_seg sg'). rewrite lookup_insert_eq. split; [done|]. unfold seg_of in Hsg. rewrite Hx in Hsg.
destruct s; [done|]. injection Hsg as ->. cbn. split_and!; [done|lia|]. intros j Hj. apply list_lookup_insert_ne. lia.
+ exists s. rewrite lookup_insert_ne by done. split; [done|apply node_ext_refl].
- intros x s. cbn [segment with_order with_seg]. destruct (decide (x = t)) as [->|Hnx].
+ rewrite lookup_insert_eq. intros [= <-]. cbn. lia.
+ rewrite lookup_insert_ne by done. apply (rp_ids _ _ _ _ Hr).
Qed.
Lemma free_fresh : segment d !! free = None.
Proof using Hr. destruct (segment d !! free) eqn:E; [|done]. apply (rp_ids _ _ _ _ Hr) in E. lia. Qed.

(** The new segment, and the table once it is linked: [d1] is the table in
which the former last node points to it, [it1] the head there. *)
Definition new_seg (lsn : Z) : log_item_seg_t :=
mkSeg h 0 (ih_tail_seg it) 1 (<[0%nat := suffix_of lsn]> (fresh_suffixes LOG_INDEX_ITEM_SEG_LSN_NUM)).
Definition linked (d1 : log_idx_table_data_t) (it1 : log_item_head_t) (lsn : Z) (o : list Z) : log_idx_table_data_t :=
with_order (with_seg (with_seg d1 h (item_head (head_set_tail it1 free))) free (item_seg (new_seg lsn))) o.

Lemma linked_step d1 it1 lsn o :
hash d1 = hash d → prefix_lsn d1 = prefix_lsn d → head_of d1 h = Some it1 →
head_set_next_seg it1 0 = head_set_next_seg it 0 →
(∀ x s, x ≠ h → segment d !! x = Some s → ¬ owned d h x → segment d1 !! x = Some s) →
(∀ x hh, head_of d1 x = Some hh → is_Some (head_of d x)) →
(∀ x s, x ≠ h → owned d h x → segment d !! x = Some s → ∃ s', segment d1 !! x = Some s' ∧ node_ext s s') →
(∀ x s, segment d1 !! x = Some s → 1 ≤ x < free ∧ 1 ≤ node_num s ≤ 10) →
(ss h ≫= seg_vals d1) = (ss h ≫= seg_vals d) →
seg_chain (linked d1 it1 lsn o) h h (ih_next_seg it1) (ss h ++ [free]) →
ih_number it = 2 →
page_step d (linked d1 it1 lsn o) (free + 1) h it (head_set_tail it1 free) (ss h) (ss h ++ [free]) lsn.
Proof using All.
intros Hh Hp Hit1 Hsame Hfr Hheads Hnodes Hids Hvals Hch Hnum. pose proof (rep_head_range _ _ _ _ _ _ Hr Hk) as Hrange.
pose proof the_head_ok as [Hself Htail _ Hsuf _ _ Hnd]. injection Hsame as E1 E2 E3 E4 E5 E6 E7.
assert (Hin : ∀ x, x ∈ ss h → x ≠ h ∧ x ≠ free).
{ intros x Hx. destruct (owned_seg x Hx) as [Ho ?]. split; [done|]. intros ->. destruct Ho as [->|(sg & Hsg & _)]; [done|].
unfold seg_of in Hsg. by rewrite free_fresh in Hsg. }
constructor; try done.
- intros x s Hx Ho. assert (x ≠ h) by (intros ->; apply Ho; by left).
assert (x ≠ free) by (intros ->; by rewrite free_fresh in Hx).
cbn. rewrite !lookup_insert_ne by done. by apply Hfr.
- intros x hh. unfold linked. rewrite head_of_order, !head_of_with. destruct (decide (x = free)); [done|].
destruct (decide (x = h)) as [->|]; [by rewrite Hit|]. apply Hheads.
- unfold linked. rewrite head_of_order, !head_of_with, decide_False, decide_True by lia. done.
- constructor; cbn [head_set_tail ih_head_seg ih_tail_seg ih_number ih_suffix_lsn ih_next_seg]; try congruence; try lia.
+ rewrite last_snoc. done.
+ apply NoDup_app. split_and!; [done| |apply NoDup_singleton]. intros x Hx. apply Hin in Hx as [_ ?].
by intros ?%list_elem_of_singleton.
- unfold page_vals, linked, head_vals. rewrite head_of_order, !head_of_with, decide_False, decide_True by lia. rewrite Hit.
cbn [head_set_tail ih_number ih_suffix_lsn]. rewrite E5, E7, <-app_assoc. f_equal. rewrite bind_app. f_equal.
+ rewrite <-Hvals. clear -Hin. induction (ss h) as [|x l IH]; [done|]. cbn. f_equal.
* unfold seg_vals. destruct (Hin x) as [? ?]; [left|]. rewrite seg_of_order, !seg_of_with, !decide_False by done. done.
* apply IH. intros. apply Hin. by right.
+ cbn [mbind list_bind]. unfold seg_vals. rewrite seg_of_order, seg_of_with, decide_True by done. done.
- intros x s Ho Hx. cbn [segment linked with_order with_seg]. destruct (decide (x = h)) as [->|Hne].
+ exists (item_head (head_set_tail it1 free)). rewrite lookup_insert_ne, lookup_insert_eq by lia. split; [done|].
unfold head_of in Hit. rewrite Hx in Hit. destruct s; [|done]. injection Hit as ->. cbn. rewrite E4, E5, E7. split_and!; done || lia.
+ assert (x ≠ free) by (intros ->; by rewrite free_fresh in Hx). rewrite !lookup_insert_ne by done. by apply Hnodes.
- intros x s. cbn [segment linked with_order with_seg]. destruct (decide (x = free)) as [->|].
+ rewrite lookup_insert_eq. intros [= <-]. cbn. lia.
+ rewrite lookup_insert_ne by done. destruct (decide (x = h)) as [->|].
* rewrite lookup_insert_eq. intros [= <-]. cbn. rewrite E5. lia.
* rewrite lookup_insert_ne by done. intros Hx. apply Hids in Hx. lia.
Qed.
Lemma linked_new_seg d1 it1 lsn o : seg_of (linked d1 it1 lsn o) free = Some (new_seg lsn).
Proof using. unfold linked. by rewrite seg_of_order, seg_of_with, decide_True. Qed.

Lemma new_seg_chain d1 it1 lsn o :
seg_chain (linked d1 it1 lsn o) h (ih_tail_seg it) free [free].
Proof using.
split; [done|]. exists (new_seg lsn). split; [apply linked_new_seg|]. split; [|done].
unfold seg_fields, new_seg. cbn. split_and!; done || lia.
Qed.

Lemma link_head_step lsn o :
ss h = [] → ih_number it = 2 →
let it1 := head_set_next_seg it free in
page_step d (linked (with_seg d h (item_head it1)) it1 lsn o) (free + 1) h it (head_set_tail it1 free)
(ss h) (ss h ++ [free]) lsn.
Proof using All.
intros Hnil Hnum it1. pose proof (rep_head_range _ _ _ _ _ _ Hr Hk) as Hrange. apply linked_step; try done.
- by rewrite head_of_with, decide_True.
- intros x s Hne Hx _. cbn. by rewrite lookup_insert_ne.
- intros x hh. rewrite head_of_with. destruct (decide (x = h)) as [->|]; [by rewrite Hit|by intros ->].
- intros x s Hne _ Hx. exists s. cbn. rewrite lookup_insert_ne by done. split; [done|apply node_ext_refl].
- intros x s. cbn. destruct (decide (x = h)) as [->|Hne].
+ rewrite lookup_insert_eq. intros [= <-]. cbn. lia.
+ rewrite lookup_insert_ne by done. apply (rp_ids _ _ _ _ Hr).
- by rewrite Hnil.
- rewrite Hnil. cbn [app]. pose proof (new_seg_chain (with_seg d h (item_head it1)) it1 lsn o) as Hc.
rewrite (ho_tail _ _ _ _ the_head_ok), Hnil in Hc. exact Hc.
Qed.

Lemma link_tail_step lsn o l t sg :
ss h = l ++ [t] → seg_of d t = Some sg → is_number sg = 10 →
page_step d (linked (with_seg d t (item_seg (seg_set_next sg free))) it lsn o) (free + 1) h it (head_set_tail it free)
(ss h) (ss h ++ [free]) lsn.
Proof using All.
intros Hl Hsg Hnum. destruct (last_seg l t sg Hl Hsg) as ((F1 & F2 & F3 & F4 & _) & Hn & Hrg & Hne).
pose proof (rep_head_range _ _ _ _ _ _ Hr Hk) as Hrange. pose proof the_head_ok as Hok.
assert (Hbefore : ∀ s, s ∈ l → seg_of (with_seg d t (item_seg (seg_set_next sg free))) s = seg_of d s).
{ intros s Hs. rewrite seg_of_with, decide_False; [done|]. by eapply last_not_before. }
apply linked_step; try done.
- by rewrite head_of_with, decide_False.
- intros x s _ Hx Ho. cbn. rewrite lookup_insert_ne; [done|]. intros <-. apply Ho. right. eauto.
- intros x hh. rewrite head_of_with. destruct (decide (x = t)); [done|by intros ->].
- intros x s _ _ Hx. cbn [segment with_seg]. destruct (decide (x = t)) as [->|Hnx].
+ exists (item_seg (seg_set_next sg free)). rewrite lookup_insert_eq. split; [done|].
unfold seg_of in Hsg. rewrite Hx in Hsg. destruct s; [done|]. injection Hsg as ->. cbn. split_and!; done || lia.
+ exists s. rewrite lookup_insert_ne by done. split; [done|apply node_ext_refl].
- intros x s. cbn. destruct (decide (x = t)) as [->|Hnx].
+ rewrite lookup_insert_eq. intros [= <-]. cbn. lia.
+ rewrite lookup_insert_ne by done. apply (rp_ids _ _ _ _ Hr).
- rewrite Hl, !bind_app, (bind_seg_vals_ext _ l Hbefore). f_equal. cbn [mbind list_bind]. f_equal.
unfold seg_vals. by rewrite seg_of_with, decide_True, Hsg.
- pose proof (ho_chain _ _ _ _ Hok) as Hch. rewrite Hl in *. rewrite <-app_assoc. cbn [app].
assert (Hxf : ∀ x, x ∈ l ++ [t] → x ≠ h ∧ x ≠ free).
{ intros x Hx. rewrite <-Hl in Hx. destruct (owned_seg x Hx) as [Ho Hxh]. split; [done|]. intros ->.
destruct Ho as [->|(s1 & H1 & _)]; [done|]. unfold seg_of in H1. by rewrite free_fresh in H1. }
eapply (seg_chain_set_last d _ h l t (seg_set_next sg free)); [exact Hch| | | |].
+ intros x Hx. destruct (Hxf x) as [? ?]; [apply elem_of_app; by left|]. unfold linked.
rewrite seg_of_order, !(seg_of_with _ free), (seg_of_with _ h), !decide_False by done. by apply Hbefore.
+ destruct (Hxf t) as [? ?]; [apply elem_of_app; right; by apply list_elem_of_singleton|]. unfold linked.
rewrite seg_of_order, (seg_of_with _ free), (seg_of_with _ h), !decide_False by done. by rewrite seg_of_with, decide_True.
+ unfold seg_fields. cbn. split_and!; done || lia.
+ pose proof (new_seg_chain (with_seg d t (item_seg (seg_set_next sg free))) it lsn o) as Hc.
rewrite (ho_tail _ _ _ _ Hok), last_snoc in Hc. exact Hc.
- apply (ho_full _ _ _ _ Hok). rewrite Hl. by destruct l.
Qed.
End changes.
(** ** A page that is new in the table *)

Section new_page.
Context (d : log_idx_table_data_t) (free : Z) (hs ss : Z → list Z) (Hr : rep d free hs ss).
Context (tag : BufferTag) (lsn prev : Z) (o : list Z).
Context (Hnew : ∀ h it, h ∈ hs (key tag) → head_of d h = Some it → ih_tag it ≠ tag).
Context (Hfree : free < LOG_INDEX_MEM_TBL_SEG_NUM).

Definition new_item : log_item_head_t :=
mkHead free (LOG_INDEX_TBL_SLOT_VALUE d (key tag)) 0 free tag 1 prev
(<[0%nat := suffix_of lsn]> (fresh_suffixes LOG_INDEX_ITEM_HEAD_LSN_NUM)).
Definition with_page : log_idx_table_data_t :=
with_order (with_slot (with_seg d free (item_head new_item)) (key tag) free) o.
Definition hs_new : Z → list Z := λ k, if decide (k = key tag) then free :: hs k else hs k.
Definition ss_new : Z → list Z := λ x, if decide (x = free) then [] else ss x.

Lemma page_head_of x : head_of with_page x = if decide (x = free) then Some new_item else head_of d x.
Proof using. apply (head_of_with d free (item_head new_item) x). Qed.
Lemma page_seg_of x : seg_of with_page x = if decide (x = free) then None else seg_of d x.
Proof using. apply (seg_of_with d free (item_head new_item) x). Qed.

Lemma page_old_seg x sg : seg_of d x = Some sg → seg_of with_page x = Some sg.
Proof using Hr. intros Hx. rewrite page_seg_of, decide_False; [done|]. pose proof (seg_range _ _ _ _ _ _ Hr Hx). lia. Qed.

Lemma page_old_head k x : x ∈ hs k → head_of with_page x = head_of d x ∧ x ≠ free.
Proof using Hr. intros Hx. pose proof (rep_head_range _ _ _ _ _ _ Hr Hx). rewrite page_head_of, decide_False by lia. split; [done|lia]. Qed.

Lemma hs_new_elem k x : x ∈ hs_new k ↔ (k = key tag ∧ x = free) ∨ x ∈ hs k.
Proof using. unfold hs_new. destruct (decide (k = key tag)); [rewrite elem_of_cons|]; tauto. Qed.

Lemma page_head_ok k x it : x ∈ hs k → head_ok d x it (ss x) → head_ok with_page x it (ss_new x).
Proof using Hr.
intros Hx [? ? ? ? ? Hch ?]. destruct (page_old_head k x Hx) as [_ Hne]. unfold ss_new. rewrite decide_False by done.
constructor; try done. eapply seg_chain_frame; [done|]. intros s Hs.
destruct (seg_chain_in _ _ _ _ _ s Hch Hs) as (sg & Hsg & _). by rewrite Hsg, (page_old_seg s sg).
Qed.

Lemma rep_new : rep with_page (free + 1) hs_new ss_new.
Proof using Hr Hnew Hfree.
pose proof (rp_free _ _ _ _ Hr) as Hf. constructor.
- lia.
- intros k. unfold LOG_INDEX_TBL_SLOT_VALUE, hs_new. cbn [hash with_page with_order with_slot with_seg].
assert (Hold : item_chain with_page (LOG_INDEX_TBL_SLOT_VALUE d k) (hs k)).
{ eapply item_chain_frame; [apply (rp_slot _ _ _ _ Hr k)|]. intros x it1 Hx H1. exists it1.
destruct (page_old_head k x Hx) as [-> _]. done. }
destruct (decide (k = key tag)) as [->|Hne].
+ rewrite lookup_insert_eq. split; [done|]. exists new_item. rewrite page_head_of, decide_True by done. split; [done|exact Hold].
+ rewrite lookup_insert_ne by done. exact Hold.
- intros k x [[-> ->]|Hx]%hs_new_elem.
+ exists new_item. rewrite page_head_of, decide_True by done. split_and!; [done..|]. unfold ss_new. rewrite decide_True by done.
constructor; cbn; try done; try lia. constructor.
+ destruct (rp_head _ _ _ _ Hr k x Hx) as (it1 & H1 & Hkey & Hok). destruct (page_old_head k x Hx) as [-> _].
exists it1. split_and!; [done..|]. by eapply page_head_ok.
- intros k. unfold hs_new. case_decide; [|apply Hr]. apply NoDup_cons. split; [|apply Hr].
intros Hx. pose proof (rep_head_range _ _ _ _ _ _ Hr Hx). lia.
- intros k x x' it1 it1' Hx Hx' H1 H1' Ht. apply hs_new_elem in Hx, Hx'.
destruct Hx as [[-> ->]|Hx], Hx' as [[? ->]|Hx']; try done.
+ rewrite page_head_of, decide_True in H1 by done. injection H1 as <-. destruct (page_old_head _ _ Hx') as [E _].
rewrite E in H1'. by destruct (Hnew _ _ Hx' H1').
+ subst k. rewrite page_head_of, decide_True in H1' by done. injection H1' as <-. destruct (page_old_head _ _ Hx) as [E _].
rewrite E in H1. by destruct (Hnew _ _ Hx H1).
+ destruct (page_old_head _ _ Hx) as [E _], (page_old_head _ _ Hx') as [E' _]. rewrite E in H1. rewrite E' in H1'.
by eapply (rp_tags _ _ _ _ Hr k).
- intros x s. cbn [segment with_page with_order with_slot with_seg]. destruct (decide (x = free)) as [->|].
+ rewrite lookup_insert_eq. intros [= <-]. cbn. lia.
+ rewrite lookup_insert_ne by done. intros Hx. apply (rp_ids _ _ _ _ Hr) in Hx. lia.
Qed.
Lemma page_node_count x : node_count with_page x = if decide (x = free) then 1 else node_count d x.
Proof using.
unfold node_count. cbn [segment with_page with_order with_slot with_seg]. destruct (decide (x = free)) as [->|].
- by rewrite lookup_insert_eq.
- by rewrite lookup_insert_ne.
Qed.

Lemma page_entries x i e : entry d x i = Some e → entry with_page x i = Some e.
Proof using Hr.
intros He. destruct (segment d !! x) as [s|] eqn:E; [|unfold entry in He; by rewrite E in He].
pose proof (rp_ids _ _ _ _ Hr _ _ E) as [Hx Hn].
apply (entry_ext d with_page x i e s s); [done|done| |apply node_ext_refl|lia| |done].
- cbn [segment with_page with_order with_slot with_seg]. by rewrite lookup_insert_ne by lia.
- intros y it Hy. exists it. split; [|done]. rewrite page_head_of, decide_False; [done|].
intros ->. unfold head_of in Hy. destruct (segment d !! free) eqn:Ef; [|done]. apply (rp_ids _ _ _ _ Hr) in Ef. lia.
Qed.

Lemma page_vals_old k x : x ∈ hs k → page_vals with_page x (ss_new x) = page_vals d x (ss x).
Proof using Hr.
intros Hx. destruct (rp_head _ _ _ _ Hr k x Hx) as (it1 & H1 & _ & Hok). destruct (page_old_head k x Hx) as [Hh Hne].
unfold page_vals, head_vals, ss_new. rewrite Hh, decide_False by done. f_equal.
apply bind_seg_vals_ext. intros s Hs. destruct (seg_chain_in _ _ _ _ _ s (ho_chain _ _ _ _ Hok) Hs) as (sg & Hsg & _).
by rewrite Hsg, (page_old_seg s sg).
Qed.

Lemma logs_new log :
logs d free hs ss log → o = idx_order d ++ [order_entry free 0] →
0 ≤ lsn → LOG_INDEX_SAME_TABLE_LSN_PREFIX d lsn = true →
logs with_page (free + 1) hs_new ss_new (log ++ [(tag, lsn)]).
Proof using Hr Hnew Hfree.
intros [Hpg Hno Hord Hcnt] Ho Hlsn Hpre. pose proof (rp_free _ _ _ _ Hr) as Hf. constructor.
- intros x it1 Hx H1. rewrite lsns_of_snoc. apply hs_new_elem in Hx as [[Hkk ->]|Hx].
+ rewrite page_head_of, decide_True in H1 by done. injection H1 as <-. cbn [ih_tag new_item].
rewrite (Hno tag Hnew), decide_True by done. unfold page_vals, head_vals, ss_new.
rewrite page_head_of, !decide_True by done.
change ([LOG_INDEX_COMBINE_LSN d (suffix_of lsn)] = [lsn]). by rewrite combine_suffix.
+ destruct (page_old_head _ _ Hx) as [E _]. rewrite E in H1. rewrite (page_vals_old _ _ Hx).
change (LOG_INDEX_COMBINE_LSN with_page) with (LOG_INDEX_COMBINE_LSN d). rewrite (Hpg x it1 Hx H1).
rewrite decide_False, app_nil_r; [done|]. intros Heq. rewrite <-Heq in Hx. by apply (Hnew x it1 Hx H1).
- intros tag' Hn. rewrite lsns_of_snoc, decide_False, app_nil_r.
+ apply Hno. intros x it1 Hx H1. destruct (page_old_head _ _ Hx) as [E _]. apply (Hn x it1); [|by rewrite E].
apply hs_new_elem. by right.
+ intros <-. apply (Hn free new_item); [apply hs_new_elem; by left|by rewrite page_head_of, decide_True|done].
- cbn [idx_order with_page with_order]. rewrite Ho. apply Forall2_app.
+ eapply Forall2_impl; [exact Hord|]. intros a e. apply page_entries.
+ constructor; [|constructor]. unfold order_at. rewrite order_seg, order_id by lia.
unfold entry. cbn [segment with_page with_order with_slot with_seg]. rewrite lookup_insert_eq.
change (Some (tag, LOG_INDEX_COMBINE_LSN d (suffix_of lsn)) = Some (tag, lsn)). by rewrite combine_suffix.
- cbn [idx_order with_page with_order]. rewrite Ho, zlen_snoc, Hcnt.
replace (free + 1 - 1) with (free - 1 + 1) by lia. rewrite total_snoc by lia.
rewrite page_node_count, decide_True by lia. f_equal. symmetry. apply total_ext. intros x Hx.
by rewrite page_node_count, decide_False by lia.
Qed.
End new_page.
End rep.
