(* ===== verification/LogIndexOps.v ===== *)
(** * The operations of the log index keep the representation invariant

    Appending to a node with room, linking a new segment and adding a new head
    are each shown to succeed on a table that represents a log, and to give a
    table that represents the log with the LSN appended. *)

From S2P Require Import Prelude Mem Page Buffer LogIndex LogIndexRep.

Section ops.
Context (key : BufferTag → Z).
Abbreviation rep := (rep key).
Abbreviation logs := (logs key).
Abbreviation table_inv := (table_inv key).

Lemma list_last_case (l : list Z) : l = [] ∨ ∃ l' t, l = l' ++ [t].
Proof using. induction l as [|t l _] using rev_ind; [by left|right; eauto]. Qed.

(** ** Room in the order array *)

Lemma total_bound d n : (∀ x s, segment d !! x = Some s → node_num s ≤ 10) → 0 ≤ n → total d n ≤ 10 * n.
Proof using.
intros Hs Hn. assert (Hc : ∀ x, node_count d x ≤ 10).
{ intros x. unfold node_count. destruct (segment d !! x) eqn:E; [by eapply Hs|lia]. }
unfold total. assert (Hl : foldr (λ id a, node_count d id + a) 0 (seqZ 1 n) ≤ 10 * Z.of_nat (length (seqZ 1 n))).
{ induction (seqZ 1 n) as [|x l IH]; cbn [foldr length]; [lia|]. specialize (Hc x). lia. }
rewrite length_seqZ in Hl. lia.
Qed.

Lemma order_room d free hs ss log d' s i :
rep d free hs ss → logs d free hs ss log → idx_order d' = idx_order d →
LOG_INDEX_MEM_TBL_ADD_ORDER d' s i = Ok (with_order d' (idx_order d ++ [order_entry s i])).
Proof using.
intros Hr Hl Ho. unfold LOG_INDEX_MEM_TBL_ADD_ORDER. rewrite Ho, (lg_count _ _ _ _ _ _ Hl).
pose proof (rp_free _ _ _ _ _ Hr) as Hf. unfold LOG_INDEX_MAX_ORDER_NUM, LOG_INDEX_ITEM_SEG_LSN_NUM, LOG_INDEX_MEM_TBL_SEG_NUM in *.
rewrite (proj2 (Z.leb_gt _ _)); [done|]. assert (total d (free - 1) ≤ 10 * (free - 1)); [|lia].
apply total_bound; [|lia]. intros x y Hx. apply (rp_ids _ _ _ _ _ Hr) in Hx. lia.
Qed.

Lemma insert_lsn_info (l : list Z) idx info :
0 ≤ idx < zlen l → LOG_INDEX_INSERT_LSN_INFO l idx info = Ok (<[Z.to_nat idx := suffix_of (li_lsn info)]> l).
Proof using.
intros H. unfold LOG_INDEX_INSERT_LSN_INFO. by rewrite (proj2 (Z.leb_le _ _)), (proj2 (Z.ltb_lt _ _)) by lia.
Qed.

Lemma node_count_with d x s y o :
node_count (with_order (with_seg d x s) o) y = if decide (y = x) then node_num s else node_count d y.
Proof using.
unfold node_count. cbn [segment with_order with_seg]. destruct (decide (y = x)) as [->|].
- by rewrite lookup_insert_eq.
- by rewrite lookup_insert_ne.
Qed.

Lemma head_count d x it : head_of d x = Some it → node_count d x = ih_number it.
Proof using. unfold head_of, node_count. destruct (segment d !! x) as [[]|]; [|done..]. by intros [= ->]. Qed.
Lemma seg_count d x sg : seg_of d x = Some sg → node_count d x = is_number sg.
Proof using. unfold seg_of, node_count. destruct (segment d !! x) as [[]|]; [done| |done]. by intros [= ->]. Qed.

(** ** Appending *)

Section page.
Context (d : log_idx_table_data_t) (free : Z) (hs ss : Z → list Z) (log : log_t).
Context (Hr : rep d free hs ss) (Hl : logs d free hs ss log).
Context (h : Z) (it : log_item_head_t) (info : log_index_lsn_t).
Context (Hk : h ∈ hs (key (li_tag info))) (Hit : head_of d h = Some it) (Htag : ih_tag it = li_tag info).
Context (Hlsn : 0 ≤ li_lsn info) (Hpre : LOG_INDEX_SAME_TABLE_LSN_PREFIX d (li_lsn info) = true).

Lemma the_head : log_index_item_head d h = Ok (Some it).
Proof using Hr Hk Hit.
pose proof (rep_head_range _ _ _ _ _ _ _ Hr Hk). pose proof (rp_free _ _ _ _ _ Hr). apply item_head_ok; [lia|done].
Qed.

Lemma the_tail l t : ss h = l ++ [t] → ∃ sg, seg_of d t = Some sg ∧ ih_tail_seg it = t ∧ log_index_item_seg d t = Ok (Some sg) ∧
length (is_suffix_lsn sg) = 10%nat ∧ 1 ≤ is_number sg ≤ 10 ∧ 1 ≤ t < free ∧ is_head_seg sg = h.
Proof using Hr Hk Hit.
intros Hs. pose proof (the_head_ok key _ _ _ _ Hr _ _ _ Hk Hit) as Hok. pose proof (ho_chain _ _ _ _ Hok) as Hc. rewrite Hs in Hc.
destruct (seg_chain_last _ _ _ _ _ _ Hc) as (sg & Hsg & (F1 & _ & F3 & F4 & _) & _). exists sg.
pose proof (seg_range _ _ _ _ _ _ _ Hr Hsg) as Hrg. pose proof (rp_free _ _ _ _ _ Hr).
split_and!; try done; try lia.
- rewrite (ho_tail _ _ _ _ Hok), Hs, last_snoc. done.
- apply item_seg_ok; [lia|done].
Qed.

Lemma seg_full_spec :
log_index_mem_seg_full d h =
Ok match last (ss h) with
| None => ih_number it =? 2
| Some t => match seg_of d t with Some sg => is_number sg =? 10 | None => false end
end.
Proof using Hr Hk Hit.
unfold log_index_mem_seg_full, deref. rewrite the_head. cbn [mbind res_bind].
rewrite (tail_is_head key _ _ _ _ Hr _ _ _ Hk Hit). destruct (list_last_case (ss h)) as [E|(l & t & E)].
- rewrite E, bool_decide_true by done. done.
- rewrite E, bool_decide_false by (by destruct l). rewrite last_snoc.
destruct (the_tail l t E) as (sg & Hsg & -> & -> & _). cbn [mbind res_bind]. by rewrite Hsg.
Qed.
Lemma append_spec :
log_index_mem_seg_full d h = Ok false →
∃ d', append_data h info d = Ok d' ∧ table_inv d' free (log ++ [(li_tag info, li_lsn info)]) ∧
prefix_lsn d' = prefix_lsn d ∧ min_lsn d' = min_lsn d ∧ max_lsn d' = max_lsn d.
Proof using All.
intros Hfull. rewrite seg_full_spec in Hfull. apply Ok_inj in Hfull. unfold append_data, log_index_append_lsn, deref.
rewrite the_head. cbn [mbind res_bind]. rewrite (tail_is_head key _ _ _ _ Hr _ _ _ Hk Hit).
pose proof (the_head_ok key _ _ _ _ Hr _ _ _ Hk Hit) as Hok. pose proof (rep_head_range _ _ _ _ _ _ _ Hr Hk) as Hrg.
pose proof (rp_free _ _ _ _ _ Hr) as Hfr. destruct (list_last_case (ss h)) as [E|(l & t & E)].
- rewrite E, bool_decide_true by done. rewrite E in Hfull. cbn in Hfull. pose proof (ho_num _ _ _ _ Hok) as Hn.
assert (Hnum : ih_number it = 1) by lia. pose proof (ho_suffix _ _ _ _ Hok) as Hsuf. rewrite Hnum.
rewrite insert_lsn_info by (unfold zlen; lia). cbn [mbind res_bind]. change (u8 (1 + 1)) with 2. change (Z.to_nat 1) with 1%nat.
set (it' := head_set_lsns it 2 _). erewrite item_head_ok; [|lia|rewrite head_of_with; by rewrite decide_True]. cbn [mbind res_bind].
rewrite (order_room d free hs ss log) by done. eexists. split; [reflexivity|].
set (o := _ ++ [_]). pose proof (head_step key _ _ _ _ Hr _ _ _ Hk Hit (li_lsn info) o E Hnum) as Hst. fold it' in Hst.
assert (Htl : ih_tail_seg it' = h) by (cbn; rewrite (ho_tail _ _ _ _ Hok), E; done).
split_and!; try done. exists hs, (ss_upd h [] ss). split.
+ eapply rep_step; [exact Hr|lia|exact Hst].
+ rewrite <-Htag. eapply (logs_step key _ _ _ _ _ _ _ _ _ _ _ _ Hr Hk Hst free log h 1); try done; try lia.
* by rewrite <-Htl.
* unfold entry. cbn [segment with_order with_seg]. rewrite lookup_insert_eq. cbn [it' ih_number head_set_lsns ih_suffix_lsn ih_tag].
change (1 <? 2) with true. cbv iota. change (Z.to_nat 1) with 1%nat. rewrite list_lookup_insert_eq by lia. cbn [mbind option_bind].
change (LOG_INDEX_COMBINE_LSN _ ?v) with (LOG_INDEX_COMBINE_LSN d v). by rewrite combine_suffix.
* apply (total_one d _ (free - 1) h 1); [|lia|].
-- intros y Hy _. by rewrite node_count_with, decide_False.
-- rewrite node_count_with, decide_True, (head_count d h it) by done. cbn. lia.
- rewrite E, bool_decide_false by (by destruct l). rewrite E, last_snoc in Hfull.
destruct (the_tail l t E) as (sg & Hsg & Htl & Hrd & Hsuf & Hn & Ht & Hh). rewrite Hsg in Hfull. rewrite Htl, Hrd. cbn [mbind res_bind].
rewrite insert_lsn_info by (unfold zlen; lia). cbn [mbind res_bind]. rewrite u8_small by lia.
set (sg' := seg_set_lsns sg _ _).
destruct (last_seg key _ _ _ _ Hr _ _ _ Hk Hit l t sg E Hsg) as (_ & _ & _ & Hne).
erewrite item_head_ok; [|lia|rewrite head_of_with, decide_False; [exact Hit|done]]. cbn [mbind res_bind]. rewrite Htl.
rewrite (order_room d free hs ss log) by done. eexists. split; [reflexivity|]. set (o := _ ++ [_]).
assert (Hlt : is_number sg < 10) by lia.
pose proof (seg_step key _ _ _ _ Hr _ _ _ Hk Hit (li_lsn info) o l t sg E Hsg Hlt) as Hst. fold sg' in Hst.
split_and!; try done. exists hs, (ss_upd h (ss h) ss). split.
+ eapply rep_step; [exact Hr|lia|exact Hst].
+ rewrite <-Htag. eapply (logs_step key _ _ _ _ _ _ _ _ _ _ _ _ Hr Hk Hst free log t (is_number sg)); try done; try lia.
* unfold entry. cbn [segment with_order with_seg]. rewrite lookup_insert_eq. cbn [sg' is_number seg_set_lsns is_suffix_lsn is_head_seg].
rewrite (proj2 (Z.ltb_lt _ _)) by lia. rewrite list_lookup_insert_eq by lia. cbn [mbind option_bind].
rewrite Hh, head_of_order, head_of_with, decide_False, Hit by done. cbn [mbind option_bind].
change (LOG_INDEX_COMBINE_LSN _ ?v) with (LOG_INDEX_COMBINE_LSN d v). by rewrite combine_suffix.
* apply (total_one d _ (free - 1) t 1); [|lia|].
-- intros y Hy _. by rewrite node_count_with, decide_False.
-- rewrite node_count_with, decide_True, (seg_count d t sg) by done. cbn. lia.
Qed.
(** ** A new segment *)

Lemma linked_inv d1 it1 o :
free < LOG_INDEX_MEM_TBL_SEG_NUM → o = idx_order d ++ [order_entry free 0] → prefix_lsn d1 = prefix_lsn d →
(∀ x, x ≠ h → x ≠ free → node_count d1 x = node_count d x) → ih_number it1 = ih_number it → ih_tag it1 = ih_tag it →
let d' := linked free h it d1 it1 (li_lsn info) o in
page_step d d' (free + 1) h it (head_set_tail it1 free) (ss h) (ss h ++ [free]) (li_lsn info) →
table_inv d' (free + 1) (log ++ [(li_tag info, li_lsn info)]).
Proof using All.
intros Hfree Ho Hp Hcnt Hnum Ht1 d' Hst. pose proof (rep_head_range _ _ _ _ _ _ _ Hr Hk) as Hrg.
pose proof (rp_free _ _ _ _ _ Hr) as Hfr. exists hs, (ss_upd h (ss h ++ [free]) ss). split.
{ eapply rep_step; [exact Hr|lia|exact Hst]. }
rewrite <-Htag. eapply (logs_step key _ _ _ _ _ _ _ _ _ _ _ _ Hr Hk Hst free log free 0); try done; try lia.
- unfold entry, d', linked. cbn [segment with_order with_seg]. rewrite lookup_insert_eq. cbn [new_seg is_number is_head_seg is_suffix_lsn].
change (0 <? 1) with true. cbv iota. rewrite list_lookup_insert_eq by (vm_compute; lia). cbn [mbind option_bind].
rewrite head_of_order, head_of_with, decide_False, head_of_with, decide_True by lia. cbn [mbind option_bind head_set_tail ih_tag].
rewrite Ht1. unfold LOG_INDEX_COMBINE_LSN. cbn [prefix_lsn with_order with_seg]. rewrite Hp.
change (Z.lor (Z.shiftl (prefix_lsn d) 32) ?v) with (LOG_INDEX_COMBINE_LSN d v). by rewrite combine_suffix.
- assert (Hc : ∀ y, node_count d' y = if decide (y = free) then 1 else if decide (y = h) then ih_number it else node_count d1 y).
{ intros y. unfold node_count, d', linked. cbn [segment with_order with_seg]. destruct (decide (y = free)) as [->|].
- by rewrite lookup_insert_eq.
- rewrite lookup_insert_ne by done. destruct (decide (y = h)) as [->|].
+ rewrite lookup_insert_eq. cbn. done.
+ by rewrite lookup_insert_ne. }
replace (free + 1 - 1) with (free - 1 + 1) by lia. rewrite total_snoc by lia. rewrite Hc, decide_True by lia. f_equal.
apply total_ext. intros y Hy. rewrite Hc, decide_False by lia. destruct (decide (y = h)) as [->|]; [by rewrite (head_count d h it)|].
apply Hcnt; lia.
Qed.

Lemma new_seg_spec :
log_index_mem_seg_full d h = Ok true → free < LOG_INDEX_MEM_TBL_SEG_NUM →
∃ d', (d1 ← log_index_insert_new_seg d h free info; LOG_INDEX_MEM_TBL_ADD_ORDER d1 free 0) = Ok d' ∧
table_inv d' (free + 1) (log ++ [(li_tag info, li_lsn info)]) ∧
prefix_lsn d' = prefix_lsn d ∧ min_lsn d' = min_lsn d ∧ max_lsn d' = max_lsn d.
Proof using All.
intros Hfull Hfree. rewrite seg_full_spec in Hfull. apply Ok_inj in Hfull. unfold log_index_insert_new_seg, deref.
pose proof (rp_free _ _ _ _ _ Hr) as Hfr. rewrite (proj2 (Z.leb_gt _ _)), (proj2 (Z.ltb_ge _ _)) by lia. cbn [orb].
rewrite the_head. cbn [mbind res_bind]. rewrite (tail_is_head key _ _ _ _ Hr _ _ _ Hk Hit).
pose proof (the_head_ok key _ _ _ _ Hr _ _ _ Hk Hit) as Hok. destruct (list_last_case (ss h)) as [E|(l & t & E)].
- rewrite E, bool_decide_true by done. rewrite E in Hfull. cbn in Hfull. cbn [mbind res_bind].
rewrite insert_lsn_info by (vm_compute; split; congruence). cbn [mbind res_bind]. rewrite (order_room d free hs ss log) by done.
eexists. split; [reflexivity|]. split; [|done]. assert (Hnum : ih_number it = 2) by lia.
pose proof (link_head_step key _ _ _ _ Hr _ _ _ Hk Hit (li_lsn info) (idx_order d ++ [order_entry free 0]) E Hnum) as Hst.
change (table_inv (linked free h it (with_seg d h (item_head (head_set_next_seg it free))) (head_set_next_seg it free)
(li_lsn info) (idx_order d ++ [order_entry free 0])) (free + 1) (log ++ [(li_tag info, li_lsn info)])).
apply linked_inv; try done.
intros x Hx _. unfold node_count. cbn [segment with_seg]. by rewrite lookup_insert_ne.
- rewrite E, bool_decide_false by (by destruct l). rewrite E, last_snoc in Hfull.
destruct (the_tail l t E) as (sg & Hsg & Htl & Hrd & _ & Hn & Ht & Hh). rewrite Hsg in Hfull. rewrite Htl, Hrd. cbn [mbind res_bind].
rewrite insert_lsn_info by (vm_compute; split; congruence). cbn [mbind res_bind]. rewrite (order_room d free hs ss log) by done.
eexists. split; [reflexivity|]. split; [|done]. assert (Hnum : is_number sg = 10) by lia.
pose proof (link_tail_step key _ _ _ _ Hr _ _ _ Hk Hit (li_lsn info) (idx_order d ++ [order_entry free 0]) l t sg E Hsg Hnum) as Hst.
change (table_inv (linked free h it (with_seg d t (item_seg (seg_set_next sg free))) it
(li_lsn info) (idx_order d ++ [order_entry free 0])) (free + 1) (log ++ [(li_tag info, li_lsn info)])).
apply linked_inv; try done.
intros x Hx _. unfold node_count. cbn [segment with_seg]. destruct (decide (x = t)) as [->|].
+ rewrite lookup_insert_eq. unfold seg_of in Hsg. destruct (segment d !! t) as [[]|]; [done| |done]. by injection Hsg as ->.
+ by rewrite lookup_insert_ne.
Qed.
End page.

(** ** A new head *)

Lemma new_item_spec d free hs ss log info :
rep d free hs ss → logs d free hs ss log →
(∀ h it, h ∈ hs (key (li_tag info)) → head_of d h = Some it → ih_tag it ≠ li_tag info) →
0 ≤ li_lsn info → LOG_INDEX_SAME_TABLE_LSN_PREFIX d (li_lsn info) = true → free < LOG_INDEX_MEM_TBL_SEG_NUM →
∃ d', (d1 ← log_index_insert_new_item info d (key (li_tag info)) free; LOG_INDEX_MEM_TBL_ADD_ORDER d1 free 0) = Ok d' ∧
table_inv d' (free + 1) (log ++ [(li_tag info, li_lsn info)]) ∧
prefix_lsn d' = prefix_lsn d ∧ min_lsn d' = min_lsn d ∧ max_lsn d' = max_lsn d.
Proof using.
intros Hr Hl Hnew Hlsn Hpre Hfree. unfold log_index_insert_new_item. pose proof (rp_free _ _ _ _ _ Hr) as Hfr.
rewrite (proj2 (Z.leb_gt _ _)), (proj2 (Z.ltb_ge _ _)) by lia. cbn [orb].
rewrite insert_lsn_info by (vm_compute; split; congruence). cbn [mbind res_bind]. rewrite (order_room d free hs ss log) by done.
eexists. split; [reflexivity|]. split; [|done]. set (o := idx_order d ++ _).
assert (Hn : (if LOG_INDEX_TBL_SLOT_VALUE d (key (li_tag info)) =? LOG_INDEX_TBL_INVALID_SEG then LOG_INDEX_TBL_INVALID_SEG
else LOG_INDEX_TBL_SLOT_VALUE d (key (li_tag info))) = LOG_INDEX_TBL_SLOT_VALUE d (key (li_tag info))).
{ destruct (Z.eqb_spec (LOG_INDEX_TBL_SLOT_VALUE d (key (li_tag info))) LOG_INDEX_TBL_INVALID_SEG); congruence. }
rewrite Hn. exists (hs_new key free hs (li_tag info)), (ss_new free ss). split.
- by apply (rep_new key d free hs ss Hr (li_tag info) (li_lsn info) (li_prev_lsn info) o).
- by apply (logs_new key d free hs ss Hr (li_tag info) (li_lsn info) (li_prev_lsn info) o).
Qed.
End ops.
