(* ===== verification/LogIndexSpec.v ===== *)
(** * The theorems of the log index

    A memory table is an append-only log with a lookup by page: what was added
    for a page comes back, in order; the tables form a ring. *)

From S2P Require Import Prelude Mem Page Buffer LogIndex LogIndexRep LogIndexOps.

(** ** Empty tables *)

Lemma total_0 d : total d 0 = 0.
Proof. done. Qed.

Section empty.
Context (key : BufferTag → Z).

Lemma empty_inv d : segment d = ∅ → hash d = ∅ → idx_order d = [] → table_inv key d 1 [].
Proof.
intros Hs Hh Ho. exists (λ _, []), (λ _, []). split; constructor.
- unfold LOG_INDEX_MEM_TBL_SEG_NUM. lia.
- intros k. cbn. unfold LOG_INDEX_TBL_SLOT_VALUE. by rewrite Hh, lookup_empty.
- by intros k h ?%elem_of_nil.
- intros k. constructor.
- by intros k h h' it it' ?%elem_of_nil.
- intros id s. by rewrite Hs, lookup_empty.
- by intros h it ?%elem_of_nil.
- done.
- rewrite Ho. constructor.
- rewrite Ho. done.
Qed.

(** A table whose nodes are all free. *)
Lemma inv_free_1 d log : table_inv key d 1 log → log = [] ∧ ∀ p, table_inv key (with_prefix d p) 1 [].
Proof.
intros (hs & ss & Hr & Hl). assert (Hseg : ∀ x, segment d !! x = None).
{ intros x. destruct (segment d !! x) eqn:E; [|done]. apply (rp_ids _ _ _ _ _ Hr) in E. lia. }
assert (Hhs : ∀ k, hs k = []).
{ intros k. destruct (hs k) as [|h l] eqn:E; [done|]. pose proof (rep_head_range key _ _ _ _ k h Hr) as Hx.
rewrite E in Hx. specialize (Hx ltac:(left)). lia. }
assert (Hord : idx_order d = []).
{ pose proof (lg_count _ _ _ _ _ _ Hl) as Hc. change (1 - 1) with 0 in Hc. rewrite total_0 in Hc. by destruct (idx_order d). }
pose proof (lg_order _ _ _ _ _ _ Hl) as Hlo. rewrite Hord in Hlo. apply Forall2_nil_inv_l in Hlo as ->. split; [done|].
intros p. exists hs, ss. split; constructor.
- apply Hr.
- intros k. rewrite Hhs. cbn. pose proof (rp_slot _ _ _ _ _ Hr k) as Hk. rewrite Hhs in Hk. exact Hk.
- intros k h. rewrite Hhs. by intros ?%elem_of_nil.
- intros k. rewrite Hhs. constructor.
- intros k h h' it it'. rewrite Hhs. by intros ?%elem_of_nil.
- intros id s. cbn. by rewrite Hseg.
- intros h it. rewrite Hhs. by intros ?%elem_of_nil.
- done.
- cbn. rewrite Hord. constructor.
- cbn. by rewrite Hord.
Qed.
End empty.

(** ** Lookup *)

Section lookup.
Context (key : BufferTag → Z) (d : log_idx_table_data_t) (free : Z) (log : log_t).

Lemma page_vals_last hs ss k h it :
rep key d free hs ss → h ∈ hs k → head_of d h = Some it →
∃ v, last (page_vals d h (ss h)) = Some v ∧ log_index_item_max_lsn d it = Ok (LOG_INDEX_COMBINE_LSN d v).
Proof.
intros Hr Hk Hit. pose proof (the_head_ok key _ _ _ _ Hr _ _ _ Hk Hit) as Hok.
unfold log_index_item_max_lsn, page_vals. rewrite (ho_self _ _ _ _ Hok), Z.eqb_sym, (tail_is_head key _ _ _ _ Hr _ _ _ Hk Hit).
assert (Hread : ∀ (l : list Z) n, 1 ≤ n → (Z.to_nat n ≤ length l)%nat →
∃ v, last (take (Z.to_nat n) l) = Some v ∧ seg_max_lsn d n l = Ok (LOG_INDEX_COMBINE_LSN d v)).
{ intros l n Hn Hlen. destruct (lookup_lt_is_Some_2 l (Z.to_nat (n - 1))) as [v Hv]; [lia|]. exists v. split.
- replace (Z.to_nat n) with (S (Z.to_nat (n - 1))) by lia. by rewrite (take_S_r _ _ _ Hv), last_snoc.
- unfold seg_max_lsn. rewrite (proj2 (Z.ltb_lt _ _)) by lia. by rewrite Hv. }
destruct (list_last_case (ss h)) as [E|(l & t & E)]; rewrite E.
- rewrite bool_decide_true by done. cbn [mbind list_bind]. rewrite app_nil_r. unfold head_vals. rewrite Hit.
apply Hread; [apply Hok|]. pose proof (ho_num _ _ _ _ Hok). rewrite (ho_suffix _ _ _ _ Hok). lia.
- rewrite bool_decide_false by (by destruct l).
destruct (the_tail key d free hs ss Hr h it (mkLsn (ih_tag it) 0 0)) with (l := l) (t := t)
as (sg & Hsg & Htl & Hrd & Hsuf & Hn & _ & _); [|done|done|].
{ cbn. destruct (rp_head _ _ _ _ _ Hr k h Hk) as (it1 & H1 & Hkey & _). rewrite Hit in H1. injection H1 as <-. by rewrite Hkey. }
rewrite Htl, Hrd. cbn [deref mbind res_bind]. rewrite bind_app, app_assoc. cbn [mbind list_bind]. rewrite app_nil_r.
unfold seg_vals at 2. rewrite Hsg. destruct (Hread (is_suffix_lsn sg) (is_number sg)) as (v & Hv & Hm); [lia|lia|].
exists v. split; [|done]. rewrite last_app, Hv. done.
Qed.

Lemma inv_lookup tag :
table_inv key d free log →
∃ r, log_index_mem_tbl_exists_page tag d (key tag) = Ok r ∧ 0 ≤ r < free ∧ (r = 0 ↔ lsns_of log tag = []) ∧
(r ≠ 0 → ∃ item m, log_index_item_head d r = Ok (Some item) ∧ ih_tag item = tag ∧
last (lsns_of log tag) = Some m ∧ log_index_item_max_lsn d item = Ok m).
Proof.
intros (hs & ss & Hr & Hl). destruct (exists_page_spec key d free hs ss tag Hr) as (r & Hx & Hcase).
pose proof (rp_free _ _ _ _ _ Hr) as Hf. exists r. split; [done|]. destruct Hcase as [[-> Hn]|(Hrg & Hk & it & Hit & Ht)].
- split_and!; [lia|lia| |done]. split; [intros _|done]. by apply (lg_none _ _ _ _ _ _ Hl).
- destruct (page_vals_last hs ss _ r it Hr Hk Hit) as (v & Hv & Hm). subst tag.
pose proof (lg_page _ _ _ _ _ _ Hl r it Hk Hit) as Hp.
assert (Hlast : last (lsns_of log (ih_tag it)) = Some (LOG_INDEX_COMBINE_LSN d v)) by (by rewrite <-Hp, fmap_last, Hv).
split_and!; [lia|lia| |].
+ split; [lia|]. intros E. by rewrite E in Hlast.
+ intros _. exists it, (LOG_INDEX_COMBINE_LSN d v). split_and!; [apply item_head_ok; [lia|done]|done..].
Qed.
End lookup.

(** ** Inserting into the ring *)

(** A table that takes the LSN: it is active, and either new or of the same
    prefix. *)
Definition takes (t : log_mem_table_t) (lsn : Z) : Prop :=
  tbl_state t = LOG_INDEX_MEM_TBL_STATE_ACTIVE ∧
  (LOG_INDEX_MEM_TBL_IS_NEW t = true ∨ LOG_INDEX_SAME_TABLE_LSN_PREFIX (tbl_data t) lsn = true).

(** The table once the upper half of the LSN has been noted. *)
Definition prepared (t : log_mem_table_t) (lsn : Z) : log_idx_table_data_t :=
  if LOG_INDEX_MEM_TBL_IS_NEW t then with_prefix (tbl_data t) (u32 (Z.shiftr lsn 32)) else tbl_data t.

Section ring.
Context (key : BufferTag → Z).

Lemma prepared_inv t lsn log :
table_inv key (tbl_data t) (free_head t) log → takes t lsn → 0 ≤ lsn < 2 ^ 64 →
table_inv key (prepared t lsn) (free_head t) log ∧ LOG_INDEX_SAME_TABLE_LSN_PREFIX (prepared t lsn) lsn = true.
Proof.
intros Hi [_ Hp] Hl. unfold prepared. destruct (LOG_INDEX_MEM_TBL_IS_NEW t) eqn:En.
- unfold LOG_INDEX_MEM_TBL_IS_NEW in En. b2p. assert (E1 : free_head t = 1) by lia. rewrite E1 in *.
apply inv_free_1 in Hi as [-> Hi]. split; [apply Hi|]. unfold LOG_INDEX_SAME_TABLE_LSN_PREFIX. cbn [prefix_lsn with_prefix].
apply Z.eqb_eq. apply u32_small. rewrite Z.shiftr_div_pow2 by lia. split; [apply Z.div_pos; lia|].
apply Z.div_lt_upper_bound; lia.
- destruct Hp as [?|?]; [done|]. done.
Qed.

(** One pass of the loop hands out the next node of such a table. *)
Lemma next_free_here fuel s lsn ptr n t :
mem_table s !! Z.to_nat (active_table s) = Some t → takes t lsn → 1 ≤ free_head t < LOG_INDEX_MEM_TBL_SEG_NUM →
log_index_next_free_seg fuel s lsn ptr n =
Ok (set_table s (active_table s) (mkTable (free_head t + 1) (tbl_state t) (prepared t lsn)), free_head t, ptr).
Proof.
intros Ht [Hst Hp] Hf. unfold LOG_INDEX_MEM_TBL_SEG_NUM in Hf.
assert (Hstep : next_free_step s lsn n =
Ok (set_table s (active_table s) (mkTable (free_head t + 1) (tbl_state t) (prepared t lsn)), free_head t, n)).
{ unfold next_free_step, LOG_INDEX_MEM_TBL. rewrite Ht. cbn [mbind res_bind]. rewrite Hst, Z.eqb_refl. unfold prepared.
destruct (LOG_INDEX_MEM_TBL_IS_NEW t) eqn:En.
- unfold take_free, set_data. cbn [free_head tbl_state tbl_data]. by rewrite u16_small, Hst by lia.
- destruct Hp as [?| ->]; [done|]. unfold LOG_INDEX_MEM_TBL_FULL, LOG_INDEX_MEM_TBL_SEG_NUM.
rewrite (proj2 (Z.eqb_neq _ _)) by lia. cbn [orb negb]. unfold take_free. by rewrite u16_small, Hst by lia. }
destruct fuel; cbn [log_index_next_free_seg]; rewrite Hstep; cbn [mbind res_bind];
unfold LOG_INDEX_TBL_INVALID_SEG; rewrite (proj2 (Z.eqb_neq _ _)) by lia; done.
Qed.

Lemma update_data_at s i t f d :
mem_table s !! Z.to_nat i = Some t → f (tbl_data t) = Ok d → update_data s i f = Ok (set_table s i (set_data t d)).
Proof. intros Ht Hf. unfold update_data, LOG_INDEX_MEM_TBL. rewrite Ht. cbn [mbind res_bind]. by rewrite Hf. Qed.

Lemma set_table_lookup s i t t' : mem_table s !! Z.to_nat i = Some t → mem_table (set_table s i t') !! Z.to_nat i = Some t'.
Proof. intros Ht. cbn. apply list_lookup_insert_eq. by eapply lookup_lt_Some. Qed.

Lemma set_table_twice s i a b : set_table (set_table s i a) i b = set_table s i b.
Proof. unfold set_table. cbn. by rewrite list_insert_insert_eq. Qed.

(** What an insertion into table [i] leaves: the table represents the longer
log and has used at most one more node, [f] being the next one before; its bounds and the maximum of the snapshot are brought up to date, and
the other tables have not changed. *)
Record inserted (s s' : log_index_snapshot_t) (i f : Z) (log : log_t) (tag : BufferTag) (lsn lo hi : Z) : Prop := {
ins_tables : ∃ t', mem_table s' = <[Z.to_nat i := t']> (mem_table s) ∧
table_inv key (tbl_data t') (free_head t') (log ++ [(tag, lsn)]) ∧ tbl_state t' = LOG_INDEX_MEM_TBL_STATE_ACTIVE ∧
LOG_INDEX_SAME_TABLE_LSN_PREFIX (tbl_data t') lsn = true ∧ free_head t' ≤ f + 1 ∧
max_lsn (tbl_data t') = Z.max lsn hi ∧ min_lsn (tbl_data t') = Z.min lsn lo;
ins_active : active_table s' = i;
ins_max : snap_max_lsn s' = Z.max lsn hi }.

Lemma inv_with_bounds d free log lo hi : table_inv key d free log → table_inv key (with_bounds d lo hi) free log.
Proof.
intros (hs & ss & Hr & Hl). exists hs, ss.
assert (Hitem : ∀ k, item_chain (with_bounds d lo hi) (LOG_INDEX_TBL_SLOT_VALUE d k) (hs k)).
{ intros k. eapply item_chain_frame; [apply (rp_slot _ _ _ _ _ Hr k)|]. intros h it _ Hh. exists it. done. }
assert (Hok : ∀ h it l, head_ok d h it l → head_ok (with_bounds d lo hi) h it l).
{ intros h it l [? ? ? ? ? Hc ?]. constructor; try done. eapply seg_chain_frame; [exact Hc|done]. }
split.
- destruct Hr as [H1 H2 H3 H4 H5 H6]. constructor; try done. intros k h Hh.
destruct (H3 k h Hh) as (it & Hit & Hk & Ho). exists it. split_and!; [done..|]. by apply Hok.
- by destruct Hl.
Qed.
Lemma bounds_inserted s i t d free' tag lsn log :
mem_table s !! Z.to_nat i = Some t → active_table s = i → tbl_state t = LOG_INDEX_MEM_TBL_STATE_ACTIVE →
table_inv key d free' (log ++ [(tag, lsn)]) → LOG_INDEX_SAME_TABLE_LSN_PREFIX d lsn = true →
∃ s', update_bounds (set_table s i (mkTable free' (tbl_state t) d)) i lsn = Ok s' ∧
∀ f, free' ≤ f + 1 → inserted s s' i f log tag lsn (min_lsn d) (max_lsn d).
Proof.
intros Ht Ha Hst Hi Hp. unfold update_bounds, LOG_INDEX_MEM_TBL. rewrite (set_table_lookup s i t) by done. cbn [mbind res_bind].
eexists. split; [reflexivity|]. intros f Hf. constructor; [|done|done]. rewrite set_table_twice. eexists. split; [reflexivity|].
cbn [tbl_data free_head tbl_state set_data]. split_and!; try done. by apply inv_with_bounds.
Qed.

(** The page is in the active table and its last node has room. *)
Lemma insert_append fuel s info t log r :
mem_table s !! Z.to_nat (active_table s) = Some t → tbl_state t = LOG_INDEX_MEM_TBL_STATE_ACTIVE →
LOG_INDEX_SAME_TABLE_LSN_PREFIX (tbl_data t) (li_lsn info) = true → 0 ≤ li_lsn info →
table_inv key (tbl_data t) (free_head t) log →
log_index_mem_tbl_exists_page (li_tag info) (tbl_data t) (key (li_tag info)) = Ok r → r ≠ 0 →
log_index_mem_seg_full (tbl_data t) r = Ok false →
∃ s', log_index_insert_lsn fuel s info (key (li_tag info)) = Ok s' ∧
inserted s s' (active_table s) (free_head t) log (li_tag info) (li_lsn info) (min_lsn (tbl_data t)) (max_lsn (tbl_data t)).
Proof.
intros Ht Hst Hp Hlsn (hs & ss & Hr & Hl) Hx Hr0 Hfull. unfold log_index_insert_lsn, find_active_head, LOG_INDEX_MEM_TBL.
rewrite Ht. cbn [mbind res_bind]. rewrite Hst, Hp, Z.eqb_refl. cbn [andb]. rewrite Hx. cbn [mbind res_bind].
unfold LOG_INDEX_TBL_INVALID_SEG. rewrite (proj2 (Z.eqb_neq _ _)) by done. cbn [negb]. rewrite Hfull. cbn [mbind res_bind andb negb].
destruct (exists_page_spec key _ _ _ _ (li_tag info) Hr) as (r' & Hx' & [[-> _]|(_ & Hk & it & Hit & Htag)]);
[congruence|]. assert (r' = r) as -> by congruence.
destruct (append_spec key _ _ _ _ log Hr Hl r it info Hk Hit Htag Hlsn Hp Hfull) as (d' & Hd & Hi & E1 & E2 & E3).
rewrite (update_data_at s _ t _ d') by done. cbn [mbind res_bind]. unfold set_data. rewrite <-E2, <-E3.
destruct (bounds_inserted s _ t d' (free_head t) _ _ log Ht eq_refl Hst Hi) as (s' & Hs & Hins).
{ unfold LOG_INDEX_SAME_TABLE_LSN_PREFIX in *. by rewrite E1. }
exists s'. split; [exact Hs|]. apply Hins. lia.
Qed.

(** A node is taken: the table must have one left. *)
Lemma insert_node fuel s info t log r full :
mem_table s !! Z.to_nat (active_table s) = Some t → takes t (li_lsn info) → 0 ≤ li_lsn info < 2 ^ 64 →
table_inv key (tbl_data t) (free_head t) log → free_head t < LOG_INDEX_MEM_TBL_SEG_NUM →
find_active_head s info (key (li_tag info)) = Ok r → (r = 0 → lsns_of log (li_tag info) = []) →
(if r =? 0 then full = true else log_index_mem_tbl_exists_page (li_tag info) (tbl_data t) (key (li_tag info)) = Ok r ∧
LOG_INDEX_MEM_TBL_IS_NEW t = false ∧ log_index_mem_seg_full (tbl_data t) r = Ok full ∧ full = true) →
∃ s', log_index_insert_lsn fuel s info (key (li_tag info)) = Ok s' ∧
inserted s s' (active_table s) (free_head t) log (li_tag info) (li_lsn info) (min_lsn (tbl_data t)) (max_lsn (tbl_data t)).
Proof.
intros Ht Htk Hlsn Hi Hfree Hhead Hr0 Hfull.
destruct (prepared_inv t _ log Hi Htk Hlsn) as [(hs & ss & Hr & Hl) Hp]. pose proof (rp_free _ _ _ _ _ Hr) as Hf.
assert (Hmm : min_lsn (prepared t (li_lsn info)) = min_lsn (tbl_data t) ∧ max_lsn (prepared t (li_lsn info)) = max_lsn (tbl_data t))
by (unfold prepared; by destruct (LOG_INDEX_MEM_TBL_IS_NEW t)).
destruct Hmm as [<- <-].
unfold log_index_insert_lsn. rewrite Hhead. cbn [mbind res_bind]. unfold LOG_INDEX_MEM_TBL at 1. rewrite Ht. cbn [mbind res_bind].
unfold LOG_INDEX_TBL_INVALID_SEG.
set (t1 := mkTable (free_head t + 1) (tbl_state t) (prepared t (li_lsn info))).
assert (Hat : mem_table (set_table s (active_table s) t1) !! Z.to_nat (active_table s) = Some t1)
by (by apply (set_table_lookup s _ t)).
assert (Hgo : ∀ new d', (d1 ← (if (new : bool) then log_index_insert_new_item info (prepared t (li_lsn info)) (key (li_tag info)) (free_head t)
else log_index_insert_new_seg (prepared t (li_lsn info)) r (free_head t) info);
LOG_INDEX_MEM_TBL_ADD_ORDER d1 (free_head t) 0) = Ok d' →
table_inv key d' (free_head t + 1) (log ++ [(li_tag info, li_lsn info)]) →
prefix_lsn d' = prefix_lsn (prepared t (li_lsn info)) → min_lsn d' = min_lsn (prepared t (li_lsn info)) →
max_lsn d' = max_lsn (prepared t (li_lsn info)) →
∃ s', ('(s1, dst, active) ← log_index_next_free_seg fuel s (li_lsn info) (active_table s) (-1);
s1 ← update_data s1 active (λ d, d1 ← (if new || negb (active =? active_table s)
then log_index_insert_new_item info d (key (li_tag info)) dst else log_index_insert_new_seg d r dst info);
LOG_INDEX_MEM_TBL_ADD_ORDER d1 dst 0);
update_bounds s1 active (li_lsn info)) = Ok s' ∧
inserted s s' (active_table s) (free_head t) log (li_tag info) (li_lsn info) (min_lsn (prepared t (li_lsn info))) (max_lsn (prepared t (li_lsn info)))).
{ intros new d' Hd Hd' E1 E2 E3. rewrite (next_free_here _ s _ _ _ t) by (done || lia). cbn [mbind res_bind].
rewrite Z.eqb_refl. cbn [negb]. rewrite orb_false_r.
rewrite (update_data_at _ _ t1 _ d' Hat) by exact Hd. cbn [mbind res_bind]. rewrite set_table_twice. unfold set_data.
cbn [free_head tbl_state t1]. rewrite <-E2, <-E3.
destruct (bounds_inserted s _ t d' (free_head t + 1) _ _ log Ht eq_refl (proj1 Htk) Hd') as (s' & Hs & Hins).
{ unfold LOG_INDEX_SAME_TABLE_LSN_PREFIX in *. by rewrite E1. }
exists s'. split; [exact Hs|]. apply Hins. lia. }
destruct (Z.eqb_spec r 0) as [->|Hne].
- cbn [negb mbind res_bind andb]. subst full.
destruct (new_item_spec key _ _ _ _ log info Hr Hl) as (d' & Hd & Hinv & E1 & E2 & E3); [|lia|done|done|].
{ intros h it Hk Hit Htag. destruct (page_vals_last key _ _ _ _ _ _ _ Hr Hk Hit) as (v & Hv & _).
rewrite <-Htag in Hk, Hr0. pose proof (lg_page _ _ _ _ _ _ Hl h it Hk Hit) as Hpg. rewrite (Hr0 eq_refl) in Hpg.
apply fmap_nil_inv in Hpg. by rewrite Hpg in Hv. }
by apply (Hgo true d').
- cbn [negb]. destruct Hfull as (Hx & Hnew & Hfl & ->). rewrite Hfl. cbn [mbind res_bind andb negb].
assert (Hpt : prepared t (li_lsn info) = tbl_data t) by (unfold prepared; by rewrite Hnew).
destruct (exists_page_spec key _ _ _ _ (li_tag info) Hr) as (r' & Hx' & Hcase). rewrite Hpt in Hx'.
assert (r' = r) as -> by congruence. destruct Hcase as [[-> _]|(_ & Hk & it & Hit & Htag)]; [done|].
destruct (new_seg_spec key _ _ _ _ log Hr Hl r it info Hk Hit Htag ltac:(lia) Hp) as (d' & Hd & Hinv & E1 & E2 & E3);
[by rewrite Hpt|done|]. by apply (Hgo false d').
Qed.
Lemma insert_here fuel s info t log :
mem_table s !! Z.to_nat (active_table s) = Some t → takes t (li_lsn info) → 0 ≤ li_lsn info < 2 ^ 64 →
table_inv key (tbl_data t) (free_head t) log → free_head t < LOG_INDEX_MEM_TBL_SEG_NUM →
∃ s', log_index_insert_lsn fuel s info (key (li_tag info)) = Ok s' ∧
inserted s s' (active_table s) (free_head t) log (li_tag info) (li_lsn info) (min_lsn (tbl_data t)) (max_lsn (tbl_data t)).
Proof.
intros Ht Htk Hlsn Hi Hfree. destruct (inv_lookup key _ _ log (li_tag info) Hi) as (r & Hx & Hrg & Hr0 & _).
assert (Hhead : find_active_head s info (key (li_tag info)) =
Ok (if LOG_INDEX_SAME_TABLE_LSN_PREFIX (tbl_data t) (li_lsn info) then r else 0)).
{ unfold find_active_head, LOG_INDEX_MEM_TBL. rewrite Ht. cbn [mbind res_bind]. rewrite (proj1 Htk), Z.eqb_refl. cbn [andb].
destruct (LOG_INDEX_SAME_TABLE_LSN_PREFIX _ _); [exact Hx|done]. }
destruct (LOG_INDEX_MEM_TBL_IS_NEW t) eqn:En.
- assert (Hlog : log = []).
{ unfold LOG_INDEX_MEM_TBL_IS_NEW in En. b2p. assert (E1 : free_head t = 1) by lia. rewrite E1 in Hi. by apply inv_free_1 in Hi as [-> _]. }
assert (r = 0) as -> by (apply Hr0; by rewrite Hlog).
eapply (insert_node fuel s info t log 0 true); try done; [by destruct (LOG_INDEX_SAME_TABLE_LSN_PREFIX _ _)|by rewrite Hlog].
- destruct Htk as [Hst [?|Hp]]; [congruence|]. rewrite Hp in Hhead. destruct (decide (r = 0)) as [->|Hne].
+ eapply (insert_node fuel s info t log 0 true); try done; [split; [done|by right]|by intros; apply Hr0].
+ destruct Hi as (hs & ss & Hr & Hl) eqn:Ei. clear Ei.
destruct (exists_page_spec key _ _ _ _ (li_tag info) Hr) as (r' & Hx' & [[-> _]|(_ & Hk & it & Hit & _)]); [congruence|].
assert (r' = r) as -> by congruence. pose proof (seg_full_spec key _ _ _ _ Hr r it info Hk Hit) as Hfull.
match type of Hfull with _ = Ok ?b => destruct b end.
* eapply (insert_node fuel s info t log r true); try done; [split; [done|by right]|].
by rewrite (proj2 (Z.eqb_neq _ _)).
* apply (insert_append fuel s info t log r); try done; lia.
Qed.
End ring.

(** ** Tables that are not active, and full tables *)

Lemma next_free_stuck s t lsn n : 
  mem_table s !! Z.to_nat (active_table s) = Some t → tbl_state t ≠ LOG_INDEX_MEM_TBL_STATE_ACTIVE →
  n = -1 ∨ n = active_table s → ∀ fuel ptr, log_index_next_free_seg fuel s lsn ptr n = Err EFuel.
Proof.
  intros Ht Hst Hn. assert (Hstep : next_free_step s lsn n = Ok (s, 0, n)).
  { unfold next_free_step, LOG_INDEX_MEM_TBL. rewrite Ht. cbn [mbind res_bind]. by rewrite (proj2 (Z.eqb_neq _ _) Hst). }
  assert (Hsame : (if negb (n =? -1) then set_active s n else s) = s).
  { destruct Hn as [->|Hn]; [done|]. destruct (negb _); [|done]. rewrite Hn. by destruct s. }
  induction fuel as [|fuel IH]; intros ptr; cbn [log_index_next_free_seg]; rewrite Hstep; cbn [mbind res_bind]; [done|].
  change (negb (0 =? LOG_INDEX_TBL_INVALID_SEG)) with false. cbv iota. rewrite Hsame. apply IH.
Qed.

(** The table that does not take the LSN is put aside, and the next one of the
    ring is tried. *)
Definition turned (s : log_index_snapshot_t) (t : log_mem_table_t) : log_index_snapshot_t :=
  set_active (set_table s (active_table s) (set_state t LOG_INDEX_MEM_TBL_STATE_INACTIVE))
    (LOG_INDEX_MEM_TBL_NEXT_ID s (active_table s)).

Lemma next_free_turn fuel s t lsn ptr :
  mem_table s !! Z.to_nat (active_table s) = Some t → tbl_state t = LOG_INDEX_MEM_TBL_STATE_ACTIVE →
  LOG_INDEX_MEM_TBL_IS_NEW t = false → LOG_INDEX_SAME_TABLE_LSN_PREFIX (tbl_data t) lsn = false → 0 ≤ active_table s →
  log_index_next_free_seg (S fuel) s lsn ptr (-1) =
  log_index_next_free_seg fuel (turned s t) lsn (LOG_INDEX_MEM_TBL_NEXT_ID s (active_table s)) (LOG_INDEX_MEM_TBL_NEXT_ID s (active_table s)).
Proof.
  intros Ht Hst Hn Hp Ha. cbn [log_index_next_free_seg]. unfold next_free_step at 1, LOG_INDEX_MEM_TBL. rewrite Ht. cbn [mbind res_bind].
  rewrite Hst, Z.eqb_refl, Hn, Hp. cbn [negb]. rewrite orb_true_r. cbn [mbind res_bind].
  change (negb (LOG_INDEX_TBL_INVALID_SEG =? LOG_INDEX_TBL_INVALID_SEG)) with false. cbv iota.
  assert (Hx : LOG_INDEX_MEM_TBL_NEXT_ID s (active_table s) ≠ -1)
    by (unfold LOG_INDEX_MEM_TBL_NEXT_ID, LOOP_NEXT_VALUE; destruct (_ =? _); lia).
  rewrite (proj2 (Z.eqb_neq _ _) Hx). done.
Qed.

Lemma insert_new_table key s info t :
  mem_table s !! Z.to_nat (active_table s) = Some t → tbl_state t = LOG_INDEX_MEM_TBL_STATE_ACTIVE →
  LOG_INDEX_MEM_TBL_IS_NEW t = true → table_inv key (tbl_data t) (free_head t) [] →
  find_active_head s info (key (li_tag info)) = Ok 0.
Proof.
  intros Ht Hst Hn Hi. unfold find_active_head, LOG_INDEX_MEM_TBL. rewrite Ht. cbn [mbind res_bind].
  destruct (_ && _); [|done]. destruct (inv_lookup key _ _ _ (li_tag info) Hi) as (r & -> & _ & Hr & _).
  f_equal. by apply Hr.
Qed.

Lemma insert_turn key fuel s info t t2 :
  mem_table s !! Z.to_nat (active_table s) = Some t → tbl_state t = LOG_INDEX_MEM_TBL_STATE_ACTIVE →
  LOG_INDEX_MEM_TBL_IS_NEW t = false → LOG_INDEX_SAME_TABLE_LSN_PREFIX (tbl_data t) (li_lsn info) = false →
  0 ≤ active_table s →
  mem_table (turned s t) !! Z.to_nat (active_table (turned s t)) = Some t2 → tbl_state t2 = LOG_INDEX_MEM_TBL_STATE_ACTIVE →
  LOG_INDEX_MEM_TBL_IS_NEW t2 = true → table_inv key (tbl_data t2) (free_head t2) [] →
  log_index_insert_lsn (S fuel) s info (key (li_tag info)) = log_index_insert_lsn fuel (turned s t) info (key (li_tag info)).
Proof.
  intros Ht Hst Hn Hp Ha Ht2 Hst2 Hn2 Hi2.
  assert (Hf : 1 ≤ free_head t2 < LOG_INDEX_MEM_TBL_SEG_NUM) by (unfold LOG_INDEX_MEM_TBL_IS_NEW in Hn2; b2p; unfold LOG_INDEX_MEM_TBL_SEG_NUM; lia).
  assert (Hh1 : find_active_head s info (key (li_tag info)) = Ok 0).
  { unfold find_active_head, LOG_INDEX_MEM_TBL. rewrite Ht. cbn [mbind res_bind]. by rewrite Hp, andb_false_r. }
  unfold log_index_insert_lsn. rewrite Hh1, (insert_new_table key _ info t2) by done. cbn [mbind res_bind].
  unfold LOG_INDEX_MEM_TBL at 1 2. rewrite Ht, Ht2. cbn [mbind res_bind]. change (0 =? LOG_INDEX_TBL_INVALID_SEG) with true. cbn [negb andb].
  cbn [mbind res_bind]. rewrite (next_free_turn _ _ t) by done.
  rewrite !(next_free_here _ _ _ _ _ t2) by (done || lia || (split; [done|by left])). done.
Qed.

(** ** A sequence of additions *)

Section adds.
Context (tag_hash : BufferTag → Z).
Abbreviation key := (LOG_INDEX_MEM_TBL_HASH_PAGE tag_hash).

Lemma add_here fuel s tag prev lsn t log :
mem_table s !! Z.to_nat (active_table s) = Some t → takes t lsn → 0 ≤ lsn < 2 ^ 64 →
table_inv key (tbl_data t) (free_head t) log → free_head t < LOG_INDEX_MEM_TBL_SEG_NUM →
∃ s', polar_logindex_add_lsn tag_hash fuel s tag prev lsn = Ok s' ∧
inserted key s s' (active_table s) (free_head t) log tag lsn (min_lsn (tbl_data t)) (max_lsn (tbl_data t)).
Proof.
intros Ht Htk Hlsn Hi Hfree. unfold polar_logindex_add_lsn.
set (s0 := if negb _ then _ else _).
assert (E : mem_table s0 = mem_table s ∧ active_table s0 = active_table s) by (unfold s0; by destruct (negb _)).
destruct E as [Em Ea]. destruct (insert_here key fuel s0 (mkLsn tag lsn prev) t log) as (s' & Hs & [(t' & Hm & H) Ha Hx]);
[by rewrite Em, Ea|done..|]. exists s'. split; [exact Hs|]. rewrite Ea, Em in *. constructor; [|done|done]. exists t'. done.
Qed.

Definition add_all (fuel : nat) (s : log_index_snapshot_t) (log : log_t) : res log_index_snapshot_t :=
foldl (λ m e, s ← m; polar_logindex_add_lsn tag_hash fuel s e.1 InvalidXLogRecPtr e.2) (Ok s) log.

Lemma add_all_inv fuel p more : ∀ s log t,
mem_table s !! Z.to_nat (active_table s) = Some t → tbl_state t = LOG_INDEX_MEM_TBL_STATE_ACTIVE →
(LOG_INDEX_MEM_TBL_IS_NEW t = true ∨ prefix_lsn (tbl_data t) = p) → table_inv key (tbl_data t) (free_head t) log →
free_head t + zlen more ≤ LOG_INDEX_MEM_TBL_SEG_NUM →
Forall (λ e, 0 ≤ e.2 < 2 ^ 64 ∧ Z.shiftr e.2 32 = p) more →
∃ s' t', add_all fuel s more = Ok s' ∧ mem_table s' !! Z.to_nat (active_table s') = Some t' ∧
table_inv key (tbl_data t') (free_head t') (log ++ more).
Proof.
induction more as [|[tag lsn] more IH]; intros s log t Ht Hst Hp Hi Hroom Hall.
- exists s, t. by rewrite app_nil_r.
- apply Forall_cons in Hall as [[Hl Hpl] Hall]. cbn [fst snd] in Hl, Hpl. unfold zlen in Hroom. cbn [length] in Hroom.
destruct (add_here fuel s tag InvalidXLogRecPtr lsn t log) as (s1 & Hs1 & [(t' & Hm & Hi' & Hst' & Hp' & Hf & _) Ha _]);
[done| |done|done|lia|].
{ split; [done|]. destruct Hp as [?|Hp]; [by left|right]. unfold LOG_INDEX_SAME_TABLE_LSN_PREFIX. lia. }
destruct (IH s1 (log ++ [(tag, lsn)]) t') as (s' & t1 & Hs' & Ht1 & Hinv); try done.
+ rewrite Ha, Hm. apply list_lookup_insert_eq. by eapply lookup_lt_Some.
+ right. unfold LOG_INDEX_SAME_TABLE_LSN_PREFIX in Hp'. lia.
+ unfold zlen. lia.
+ exists s', t1. split; [|by rewrite <-app_assoc in Hinv]. unfold add_all in *. cbn [foldl fst snd mbind res_bind]. by rewrite Hs1.
Qed.

(** ** The theorems *)

(** Adding an LSN to an active table that takes it never fails: the table
then represents the log with the page and the LSN appended, has used at
most one more node, its bounds and the maximum of the snapshot include the
LSN, the other tables have not changed. *)
Theorem log_index_insert fuel s tag prev lsn t log :
mem_table s !! Z.to_nat (active_table s) = Some t → takes t lsn → 0 ≤ lsn < 2 ^ 64 →
table_inv key (tbl_data t) (free_head t) log → free_head t < LOG_INDEX_MEM_TBL_SEG_NUM →
∃ s' t', polar_logindex_add_lsn tag_hash fuel s tag prev lsn = Ok s' ∧
mem_table s' = <[Z.to_nat (active_table s) := t']> (mem_table s) ∧ active_table s' = active_table s ∧
table_inv key (tbl_data t') (free_head t') (log ++ [(tag, lsn)]) ∧ free_head t' ≤ free_head t + 1 ∧
max_lsn (tbl_data t') = Z.max lsn (max_lsn (tbl_data t)) ∧ min_lsn (tbl_data t') = Z.min lsn (min_lsn (tbl_data t)) ∧
snap_max_lsn s' = max_lsn (tbl_data t').
Proof.
intros Ht Htk Hl Hi Hf. destruct (add_here fuel s tag prev lsn t log Ht Htk Hl Hi Hf) as (s' & Hs & [(t' & H) Ha Hx]).
exists s', t'. destruct H as (Hm & Hi' & _ & _ & Hfr & Hmx & Hmn). rewrite Hx, Hmx. done.
Qed.

(** C12: a memory table is an append-only log with lookup by page.  After a
table has been taken into use, for which the sources have a macro that nothing
invokes (without it additions hang, as shown below), any sequence of up to 4095 additions with
LSNs of one upper half succeeds; then a page is found exactly when an LSN
was added for it, its maximal LSN is the last one added, and the array
[idx_order] gives back all additions in their order. *)
Theorem log_index_refines fuel n lsn0 log :
0 < n → zlen log < LOG_INDEX_MEM_TBL_SEG_NUM → 0 ≤ lsn0 < 2 ^ 64 →
Forall (λ e, 0 ≤ e.2 < 2 ^ 64 ∧ Z.shiftr e.2 32 = Z.shiftr lsn0 32) log →
∃ s1 s2 t, LOG_INDEX_MEM_TBL_NEW_ACTIVE (polar_logindex_snapshot_base_init (polar_logindex_snapshot_shmem_init n)) 0 lsn0 = Ok s1 ∧
add_all fuel s1 log = Ok s2 ∧ mem_table s2 !! Z.to_nat (active_table s2) = Some t ∧
order_at (tbl_data t) <$> idx_order (tbl_data t) = Some <$> log ∧
∀ tag, match last (lsns_of log tag) with
| None => log_index_tbl_find tag (tbl_data t) (key tag) = Ok None
| Some m => ∃ item, log_index_tbl_find tag (tbl_data t) (key tag) = Ok (Some item) ∧ ih_tag item = tag ∧
log_index_item_max_lsn (tbl_data t) item = Ok m
end.
Proof.
intros Hn Hlen Hl0 Hall. unfold LOG_INDEX_MEM_TBL_NEW_ACTIVE, LOG_INDEX_MEM_TBL, polar_logindex_snapshot_base_init,
polar_logindex_snapshot_shmem_init. cbn [mem_table]. rewrite length_replicate.
assert (Hz : replicate (Z.to_nat n) zero_table !! Z.to_nat 0 = Some zero_table) by (apply lookup_replicate_2; lia).
rewrite Hz. cbn [mbind res_bind].
set (t0 := mkTable 1 _ _). set (s1 := mkSnap _ _ _ _ _). exists s1.
destruct (add_all_inv fuel (Z.shiftr lsn0 32) log s1 [] t0) as (s2 & t & Hs & Ht & Hi); try done.
- apply list_lookup_insert_eq. rewrite length_replicate. lia.
- right. cbn. apply u32_small. rewrite Z.shiftr_div_pow2 by lia. split; [apply Z.div_pos; lia|apply Z.div_lt_upper_bound; lia].
- by apply empty_inv.
- cbn [free_head t0]. lia.
- exists s2, t. split; [reflexivity|]. split_and!; [exact Hs|exact Ht| |].
+ destruct Hi as (hs & ss & _ & Hl). pose proof (lg_order _ _ _ _ _ _ Hl) as Hord. cbn [app] in Hord.
clear -Hord. induction Hord as [|o e os es Ho _ IH]; [done|]. cbn. by rewrite Ho, IH.
+ intros tag. destruct (inv_lookup _ _ _ _ tag Hi) as (r & Hx & Hrg & Hr0 & Hr1). cbn [app] in *. unfold log_index_tbl_find.
rewrite Hx. cbn [mbind res_bind]. destruct (decide (r = 0)) as [->|Hne].
* by rewrite (proj1 Hr0 eq_refl).
* destruct (Hr1 Hne) as (item & m & Hh & Htag & Hlast & Hmax). rewrite Hlast. eauto.
Qed.

(** A table that cannot take an LSN is put aside.  When the active table
is in use for another upper half of the LSN and the next table of the ring
is new and active, adding the LSN takes one more pass of the loop: the old
table becomes inactive with its data as it was, the next table is the
active one, and represents the log of this one entry. *)
Theorem log_index_switch_table fuel s tag prev lsn t t2 :
let next := LOG_INDEX_MEM_TBL_NEXT_ID s (active_table s) in
mem_table s !! Z.to_nat (active_table s) = Some t → tbl_state t = LOG_INDEX_MEM_TBL_STATE_ACTIVE →
LOG_INDEX_MEM_TBL_IS_NEW t = false → LOG_INDEX_SAME_TABLE_LSN_PREFIX (tbl_data t) lsn = false →
0 ≤ active_table s → next ≠ active_table s → 0 ≤ lsn < 2 ^ 64 →
mem_table s !! Z.to_nat next = Some t2 → tbl_state t2 = LOG_INDEX_MEM_TBL_STATE_ACTIVE →
LOG_INDEX_MEM_TBL_IS_NEW t2 = true → table_inv key (tbl_data t2) (free_head t2) [] →
∃ s' t2', polar_logindex_add_lsn tag_hash (S fuel) s tag prev lsn = Ok s' ∧ active_table s' = next ∧
mem_table s' = <[Z.to_nat next := t2']> (<[Z.to_nat (active_table s) := set_state t LOG_INDEX_MEM_TBL_STATE_INACTIVE]> (mem_table s)) ∧
table_inv key (tbl_data t2') (free_head t2') [(tag, lsn)] ∧ prefix_lsn (tbl_data t2') = Z.shiftr lsn 32.
Proof.
intros next Ht Hst Hn Hp Ha Hne Hl Ht2 Hst2 Hn2 Hi2. unfold polar_logindex_add_lsn.
set (s0 := if negb _ then _ else _).
assert (E : mem_table s0 = mem_table s ∧ active_table s0 = active_table s) by (unfold s0; by destruct (negb _)).
destruct E as [Em Ea]. assert (En : LOG_INDEX_MEM_TBL_NEXT_ID s0 (active_table s0) = next)
by (unfold next, LOG_INDEX_MEM_TBL_NEXT_ID; by rewrite Em, Ea).
assert (Hnx : 0 ≤ next) by (unfold next, LOG_INDEX_MEM_TBL_NEXT_ID, LOOP_NEXT_VALUE; destruct (_ =? _); lia).
assert (Ht2' : mem_table (turned s0 t) !! Z.to_nat (active_table (turned s0 t)) = Some t2).
{ cbn. rewrite En, Em, Ea. rewrite list_lookup_insert_ne by lia. done. }
assert (Hturn := insert_turn key fuel s0 (mkLsn tag lsn prev) t t2 ltac:(by rewrite Em, Ea) Hst Hn Hp ltac:(by rewrite Ea) Ht2' Hst2 Hn2 Hi2).
cbn [li_tag] in Hturn. rewrite Hturn. clear Hturn.
destruct (insert_here key fuel (turned s0 t) (mkLsn tag lsn prev) t2 []) as (s' & Hs & [(t' & Hm & Hi & _ & Hpx & _) Hact _]);
try done; [split; [done|by left]|unfold LOG_INDEX_MEM_TBL_IS_NEW in Hn2; b2p; unfold LOG_INDEX_MEM_TBL_SEG_NUM; lia|].
exists s', t'. split_and!; [exact Hs| |  |exact Hi|].
- rewrite Hact. cbn. exact En.
- rewrite Hm. cbn. by rewrite En, Em, Ea.
- unfold LOG_INDEX_SAME_TABLE_LSN_PREFIX in Hpx. cbn in Hpx. lia.
Qed.

(** C34: the loop that looks for a free segment has no exit for an active
table that is in any state other than ACTIVE: adding an LSN to it does not
return, with any number of passes.  The wait for the table to become
active is commented out, and a freshly initialised snapshot is in this
state. *)
Theorem log_index_add_hangs fuel s tag prev lsn t :
mem_table s !! Z.to_nat (active_table s) = Some t → tbl_state t ≠ LOG_INDEX_MEM_TBL_STATE_ACTIVE →
polar_logindex_add_lsn tag_hash fuel s tag prev lsn = Err EFuel.
Proof.
intros Ht Hst. unfold polar_logindex_add_lsn. set (s0 := if negb _ then _ else _).
assert (E : mem_table s0 = mem_table s ∧ active_table s0 = active_table s) by (unfold s0; by destruct (negb _)).
destruct E as [Em Ea].
assert (Hat : LOG_INDEX_MEM_TBL s0 (active_table s0) = Ok t) by (unfold LOG_INDEX_MEM_TBL; by rewrite Em, Ea, Ht).
unfold log_index_insert_lsn, find_active_head. rewrite Hat. cbn [mbind res_bind].
rewrite (proj2 (Z.eqb_neq _ _) Hst). cbn [andb mbind res_bind].
change (0 =? LOG_INDEX_TBL_INVALID_SEG) with true. cbn [negb andb mbind res_bind].
rewrite (next_free_stuck s0 t) by (rewrite ?Em, ?Ea; auto). done.
Qed.
End adds.

(** ** Witnesses *)

(** The hash of the witnesses: the block number. *)
Definition block_hash (tag : BufferTag) : Z := blockNum tag.
Definition block_tag (b : Z) : BufferTag := mkTag (mkRel 1 2 3) 0 b.
(** An active table with no entries, of the given upper half; one that is new
    has the upper half 0. *)
Definition fresh_table (p : Z) : log_mem_table_t :=
  mkTable 1 LOG_INDEX_MEM_TBL_STATE_ACTIVE (mkData 1 UINT64_MAX 0 p [] ∅ ∅).
Definition two_tables : log_index_snapshot_t := mkSnap 0 0 0 1 [fresh_table 1; fresh_table 0].
Definition three_entries : log_t := [(block_tag 5, 2 ^ 32 + 8); (block_tag 6, 2 ^ 32 + 16); (block_tag 5, 2 ^ 32 + 24)].

Lemma fresh_inv key p : table_inv key (tbl_data (fresh_table p)) (free_head (fresh_table p)) [].
Proof. by apply empty_inv. Qed.

Lemma log_index_insert_witness : ∃ s', polar_logindex_add_lsn block_hash 0 two_tables (block_tag 5) 0 (2 ^ 32 + 8) = Ok s' ∧
  snap_max_lsn s' = 2 ^ 32 + 8.
Proof.
  destruct (log_index_insert block_hash 0 two_tables (block_tag 5) 0 (2 ^ 32 + 8) (fresh_table 1) [])
    as (s' & t' & Hs & _ & _ & _ & _ & Hmax & _ & Hx).
  - reflexivity.
  - split; [reflexivity|right; reflexivity].
  - lia.
  - apply fresh_inv.
  - reflexivity.
  - exists s'. split; [exact Hs|]. by rewrite Hx, Hmax.
Defined.

Lemma log_index_refines_witness : ∃ s2 t, mem_table s2 !! Z.to_nat (active_table s2) = Some t ∧
  order_at (tbl_data t) <$> idx_order (tbl_data t) = Some <$> three_entries.
Proof.
  destruct (log_index_refines block_hash 0 24 (2 ^ 32) three_entries) as (s1 & s2 & t & _ & _ & Ht & Hord & _).
  - lia.
  - reflexivity.
  - lia.
  - repeat constructor; cbn; lia.
  - exists s2, t. split; [exact Ht|exact Hord].
Defined.

Lemma log_index_switch_table_witness : ∃ s', polar_logindex_add_lsn block_hash 1 two_tables (block_tag 5) 0 (2 ^ 33 + 8) = Ok s' ∧
  active_table s' = 1.
Proof.
  destruct (log_index_switch_table block_hash 0 two_tables (block_tag 5) 0 (2 ^ 33 + 8) (fresh_table 1) (fresh_table 0))
    as (s' & t2' & Hs & Ha & _); try reflexivity.
  - by intros [=].
  - lia.
  - apply fresh_inv.
  - exists s'. split; [exact Hs|exact Ha].
Defined.

Lemma log_index_add_hangs_witness :
  polar_logindex_add_lsn block_hash 100 (polar_logindex_snapshot_base_init (polar_logindex_snapshot_shmem_init 24)) (block_tag 5) 0 8 = Err EFuel.
Proof.
  apply (log_index_add_hangs block_hash 100 _ _ _ _ zero_table).
  - reflexivity.
  - by intros [=].
Defined.
